(* ===== verification/_CoqProject ===== *)
-Q . S2P
Prelude.v
Tx.v
Store.v
Reliability.v
Bytes.v
Envelope.v
Sealing.v
Scheduler.v
Publisher.v
Notification.v
Authorization.v
Incident.v
Consumer.v
Ledger.v
Destination.v
Rfc3339.v
HttpClient.v
Checkengine.v
Workqueue.v
Worker.v
Gateway.v
Credentials.v
Accounts.v
Monitors.v
Ownership.v
Rollups.v
Pools.v
RateLimit.v
Views.v
Realtime.v
Mail.v
Config.v
Startup.v
Json.v
Http.v
Recovery.v
Operations.v
Deployment.v
Engine.v
