(* ===== verification/Prelude.v ===== *)
(** * WatchTrace platform: a verification of its services

    WatchTrace checks HTTP endpoints on a schedule, decides from the results whether a
    monitor is healthy, opens and resolves incidents, mails members, and reports uptime.  This
    development models the Go services of the repository (src/internal) together with the SQL
    they run (src/internal/platform/database/sqlc, src/db/migrations) and proves what they
    promise one another.

    ** The program and the files

    A monitor and its schedule periods are rows the members edit.  The scheduler turns due
    monitors into jobs and dispatch rows; publishers send them to the queue of a worker pool; a
    worker opens a job, runs the check through a guarded HTTP client, journals and publishes a
    signed result, at the queue or through the HTTPS gateway; the consumer verifies, stores and
    evaluates the result and applies it to incidents in one transaction; notification workers
    mail; rollups and retention summarise and delete; the API serves accounts, tenants, monitors,
    views and event streams behind a rate limiter; operators manage pools and dead letters.

    - [Prelude]: errors, machine integers at their width, time, strings, slot keys and ordered
      lists.  [Tx]: the error and transaction monad with its faults and its program logic.
      [Store]: the tables.
    - [Bytes] (hex, base64, big endian), [Envelope] (internal/envelope: sealed jobs, signed
      results), [Sealing] (internal/quarantine, internal/secureheaders).
    - [Scheduler], [Publisher], [Consumer], [Ledger] (internal/fifo: scheduler.go, publisher.go,
      consumer.go, maintenance.go and dlq.go), over [Reliability] (internal/reliability:
      evaluation and reports), [Incident] (internal/incident) and [Notification]
      (internal/notification); [Rollups] (internal/reliability: rollups.go, maintenance.go).
    - [Destination] and [HttpClient] (internal/destination), [Checkengine] (internal/checkengine),
      [Workqueue] (internal/workqueue, the SQS side of internal/fifo), [Worker]
      (internal/modworker, internal/workerjournal), [Gateway] (internal/queuegateway and the
      HTTPS transport).
    - [Authorization] (internal/authorization), [Credentials] and [Accounts] (internal/auth),
      [Monitors] (internal/monitor), [Ownership] (internal/ownership), [Pools]
      (internal/workerpool).
    - [RateLimit] (internal/httpapi/ratelimit.go), [Rfc3339] (the calendar of the rollups and what
      queues and cursors use of package time), [Views] (internal/backendapi), [Realtime]
      (internal/realtime and what the client of a stream receives), [Json] (bodies of requests:
      internal/httpapi/json.go and the request types) and [Http] (the rest of internal/httpapi:
      middleware, handlers with the loop of event streams, routes, over one interface of all
      services).
    - [Mail] (internal/platform/mail, the mail provider of internal/notification and the senders
      of internal/auth/verification.go), [Config] (internal/platform/config) and [Startup]
      (internal/gatewayconfig and how the programs of src/cmd are built from a configuration).
    - [Operations] (internal/operations and the maintenance and cleanup turns that report to it),
      [Engine] (the loops, health endpoints and queue logs of cmd/monitor-engine, cmd/worker and
      cmd/notification-worker, and internal/platform/httpserver), [Recovery]
      (cmd/queue-recovery) and [Deployment] (internal/deploymentmanifest,
      internal/deploymentkeys, internal/artifact with the commands queue-admin, artifact-sign and
      worker-pool).

    Each package is a file, each Go function a definition of the same name where Rocq allows it,
    with every guard and early return; a helper named [..._tx] is the body of the transaction a
    function runs.  A query is a definition of the name sqlc gives it, translated from its text
    with the CHECK, UNIQUE and foreign key constraints that can make it fail.  Where a package
    reads columns or tables of its own, a record extends [DB]: [ConfigDB], [TenantDB],
    [RollupDB], [PoolDB], [ViewDB], [EventDB], [RecoveryDB]; [AuthDB] of [Accounts] stands alone
    and [OpsDB] gathers the tables that maintenance and cleanup work on.

    ** Faults and concurrency

    A world carries a list of faults: the begin, every statement and the commit of a transaction
    may fail, and a commit may fail after the server applied it; the theorems that say "whatever
    fails" quantify over that list.  Transactions are atomic and serial; what happens between two
    transactions of one call is covered by step relations ([dispatch], [delivery], [operator_step],
    [stream_step], [host_step], [server_step], [turn], ...) that other processes may take, and by
    invariants proved of all of them.  Row locks are the parameter [locked] of the queries that
    skip locked rows.

    ** What the theorems show

    - Pipeline: a first result is accepted and its evaluation is the replay of all results in
      slot order; redelivery changes nothing; no accepted result is changed or lost whatever
      fails; the outbox and the mail outbox follow their protocols under any interleaving; a
      scheduler pass is atomic and its jobs are for the due slots; a worker gives out one result
      per job across crashes and cleanups of its journal; the wire formats (instants of the years
      0 to 9999), seals and signatures round-trip and authenticate.
    - Reporting: incremental state machine = closed form; hourly and daily rollups = reports;
      repair empties its queue; retention deletes only what is summarised; the schedule periods
      tile the active time, so that what is scheduled is what is expected; the dashboard is the
      sum of the reports; pages enumerate a listing exactly once.
    - Safety: connections reach only allowed addresses; a gateway handler acts only for a pool
      with a valid lease; incidents, monitors, tenants and views are changed or read only with
      the role; sessions form chains and a replay ends them; an invitation is used once; a
      pool moves only along its lifecycle and one out of service stays out until it is registered
      anew; requests and event streams keep their limits.
    - Streams: every event once, in order, as long as commits follow identifiers, except those
      the hourly cleanup deleted before the client came to them.
    - API: nothing but the public methods is called without a session and everything else on
      behalf of its user, the polls of an open stream included; answers come from a fixed catalogue
      and the refresh token is in nothing but a cookie; the answer to a password reset request
      does not depend on the account, its timing apart; a session works through router and
      account service together.
    - Mail, configuration and start: a delivery follows the SMTP dialogue and leaks nothing;
      loaded configurations are well typed and the programs they configure start.
    - Operation: in every interleaving of the engine's loops an accepted check stays until
      retention may delete it; logging changes nothing of what publisher, consumer and worker do;
      a cleanup deletes only what is old and settled; a dead result is redriven unchanged and
      only after it verified; a verified deployment routes as its manifest says; generated keys
      load, verify and are the ones registered; a signed release verifies while it is unaltered.

    Theorems about defects that the models show (a revoked key the consumer still accepts, a
    cookie that evades the rate limit, errors answered as missing streams, rollups that lose
    deleted checks, and others) stand beside the components they concern.

    ** Parameters, bounds and fuel

    Code outside the repository is a parameter: CBOR, hashes, signatures and ciphers ([Primitives]
    with [PrimitiveLaws]), JSON, Argon2id, url.Parse, mail addresses, uuid parsing and
    PostgreSQL's casts and hashtextextended, DNS, dialers, SQS, the mail provider, clocks and
    random sources, the SMTP server, the environment and the files of a process, gin's router and
    validator, what an open stream meets (ticks, heartbeats, the end of its connection), the queue
    and role services of the cloud; each has a concrete instance in the witnesses.  Loops with fuel: the parser
    of IPv6 addresses (eight groups), [Do] (MaxRedirects + 2 requests, of which the last is never
    reached), [print_digits] (20 digits hold an int64), the repair of rollups (its limit, at
    most 1000), [follow] (one page per row), [all_pages] (one call per page of a listing); each has a theorem or lemma that the fuel is enough
    where its result matters.  [Monitors.horizon] (2^62 nanoseconds) bounds the instants for
    which sums of times and intervals stay in an int64.

    ** What is simplified, and what is not modelled

    An error wrapped with %w is the error it wraps; a flag or partial result returned beside an
    error is not modelled.  Instants are exact nanoseconds, while the database keeps
    microseconds.  String functions are modelled on ASCII where the library is Unicode-aware.
    Averages and ratios are rationals instead of float64.  Columns nothing reads back are left
    out.

    Not modelled: the encoding of answers as JSON and gin's path matching; signals, flags, exit
    codes, listeners and timers of src/cmd, and the redaction of its error logs; the certificates
    of internal/mtlspki and cmd/mtls-ca, which are templates for the standard library; the
    connection pool, the generated interfaces and the migrations, which are input and output
    around the components above. *)

From stdpp Require Import base gmap list strings sorting.
From Stdlib Require Import ZArith Lia Ascii String Bool.

#[global] Open Scope Z_scope.

(** ** Errors and results

    A Go function that returns [(T, error)] is a Rocq function into [res T].
    The sentinel errors of the packages are constructors, an error built with
    [errors.New] at the place of use is [ErrorsNew] with its text. *)

Inductive error : Type :=
| ErrNoRows                  (* pgx.ErrNoRows *)
| ErrDatabase                (* a failed statement, begin or commit *)
| ErrTxAborted               (* statement or commit in an aborted transaction *)
| ErrUniqueViolation         (* SQLSTATE 23505 *)
| ErrForeignKeyViolation     (* SQLSTATE 23503 *)
| ErrCheckViolation          (* SQLSTATE 23514 *)
| ErrSyntax                  (* SQLSTATE 22P02: a text that is not a uuid *)
| ErrNoMessage               (* workqueue.ErrNoMessage *)
| ErrEnvelopeInvalid         (* envelope.ErrInvalid *)
| ErrInvalidTarget           (* destination.ErrInvalidTarget *)
| ErrUnsafeTarget            (* destination.ErrUnsafeTarget *)
| ErrResolutionFailed        (* destination.ErrResolutionFailed *)
| ErrConnectionFailed        (* destination.ErrConnectionFailed *)
| ErrDeadlineExceeded        (* context.DeadlineExceeded *)
| ErrCanceled                (* context.Canceled *)
| ErrInvalidConfiguration    (* notification.ErrInvalidConfiguration *)
| ErrLeaseLost               (* notification.ErrLeaseLost *)
| ErrIncidentNotFound        (* incident.ErrIncidentNotFound *)
| ErrForbidden               (* incident.ErrForbidden *)
| ErrAlreadyResolved         (* incident.ErrAlreadyResolved *)
| ErrInvalidInput            (* incident.ErrInvalidInput *)
| ErrInvalidRefreshToken     (* auth.ErrInvalidRefreshToken *)
| ErrorsNew (text : string).

#[global] Instance error_eq_dec : EqDecision error.
Proof. solve_decision. Defined.

Inductive res (A : Type) : Type :=
| Ok (a : A)
| Err (e : error).
Arguments Ok {A} a.
Arguments Err {A} e.

Definition is_ok {A} (r : res A) : bool := match r with Ok _ => true | Err _ => false end.

(** ** Machine integers

    [wrap w z] is the two's complement value of [z] at width [w]: what Go's
    signed integer conversion and arithmetic compute. *)

Definition wrap (w z : Z) : Z := (z + 2 ^ (w - 1)) mod 2 ^ w - 2 ^ (w - 1).
Definition int16 (z : Z) : Z := wrap 16 z.
Definition int32 (z : Z) : Z := wrap 32 z.
Definition int64 (z : Z) : Z := wrap 64 z.
Definition max_int64 : Z := 2 ^ 63 - 1.
Definition min_int64 : Z := - 2 ^ 63.

Lemma wrap_id w z : 0 < w -> - 2 ^ (w - 1) <= z < 2 ^ (w - 1) -> wrap w z = z.
Proof.
  intros Hw Hz. unfold wrap.
  assert (2 ^ w = 2 * 2 ^ (w - 1)) as Hp.
  { rewrite <- Z.pow_succ_r by lia. f_equal. lia. }
  rewrite Z.mod_small; lia.
Qed.

Lemma int64_id z : min_int64 <= z <= max_int64 -> int64 z = z.
Proof. intros H. apply wrap_id; [lia|]. unfold min_int64, max_int64 in H. simpl. lia. Qed.

Lemma int16_id z : - 32768 <= z <= 32767 -> int16 z = z.
Proof. intros H. apply wrap_id; simpl; lia. Qed.

Lemma int32_id z : - 2147483648 <= z <= 2147483647 -> int32 z = z.
Proof. intros H. apply wrap_id; simpl; lia. Qed.

(** [zcases] splits on the integer comparisons of the goal, innermost first. *)
Ltac zcases :=
  repeat match goal with
  | |- context [Z.ltb ?a ?b] =>
      lazymatch a with context [if _ then _ else _] => fail | _ =>
      lazymatch b with context [if _ then _ else _] => fail | _ => destruct (Z.ltb_spec a b) end end
  | |- context [Z.leb ?a ?b] =>
      lazymatch a with context [if _ then _ else _] => fail | _ =>
      lazymatch b with context [if _ then _ else _] => fail | _ => destruct (Z.leb_spec a b) end end
  | |- context [Z.eqb ?a ?b] =>
      lazymatch a with context [if _ then _ else _] => fail | _ =>
      lazymatch b with context [if _ then _ else _] => fail | _ => destruct (Z.eqb_spec a b) end end
  end; simpl in *; try lia.

(** ** Time

    An instant ([time.Time]) is a number of nanoseconds since the Unix epoch; a
    [time.Duration] is an int64 number of nanoseconds.  [time.Time{}], the zero
    time that [IsZero] tests, is the first of January of the year 1. *)

Definition nanosecond : Z := 1.
Definition microsecond : Z := 1000.
Definition second : Z := 1000000000.
Definition minute : Z := 60 * second.
Definition hour : Z := 60 * minute.
Definition zero_time : Z := -62135596800 * second.

Definition is_zero_time (t : Z) : bool := t =? zero_time.
(** [t.Before(u)], [t.After(u)], [t.Equal(u)], [t.Add(d)]. *)
Definition before (t u : Z) : bool := t <? u.
Definition after (t u : Z) : bool := u <? t.
Definition time_equal (t u : Z) : bool := t =? u.
Definition time_add (t d : Z) : Z := t + d.
(** [t.Sub(u)] saturates at the bounds of [time.Duration]. *)
Definition time_sub (t u : Z) : Z := Z.max min_int64 (Z.min max_int64 (t - u)).
(** [t.Truncate(d)] rounds down to a multiple of [d] since the zero time. *)
Definition time_truncate (t d : Z) : Z := t - (t - zero_time) mod d.

Lemma time_sub_exact t u : min_int64 <= t - u <= max_int64 -> time_sub t u = t - u.
Proof. unfold time_sub. lia. Qed.

(** ** Strings

    Go strings are byte strings, [len] is [String.length].  The Unicode-aware
    functions of package strings are modelled on their ASCII part. *)

Definition slen (s : string) : Z := Z.of_nat (String.length s).

Definition ascii_lower (c : ascii) : ascii :=
  let n := N_of_ascii c in
  if ((65 <=? n) && (n <=? 90))%N then ascii_of_N (n + 32) else c.

Fixpoint to_lower (s : string) : string :=
  match s with
  | EmptyString => EmptyString
  | String c r => String (ascii_lower c) (to_lower r)
  end.

Definition has_prefix (s p : string) : bool := String.prefix p s.

(** [strings.HasSuffix(s, p)]. *)
Definition has_suffix (s p : string) : bool :=
  (String.length p <=? String.length s)%nat &&
  String.eqb (String.substring (String.length s - String.length p) (String.length p) s) p.

Definition trim_suffix (s p : string) : string :=
  if has_suffix s p then String.substring 0 (String.length s - String.length p) s else s.

Fixpoint contains_char (s : string) (c : ascii) : bool :=
  match s with
  | EmptyString => false
  | String d r => Ascii.eqb c d || contains_char r c
  end.

(** ** A total order on strings

    Job identifiers are compared as Go strings; for the canonical lower case text
    of a uuid this is also PostgreSQL's order on the uuid itself. *)

Definition str_le (a b : string) : Prop := String.compare a b <> Gt.
Definition str_lt (a b : string) : Prop := String.compare a b = Lt.

#[global] Instance str_le_dec a b : Decision (str_le a b).
Proof. unfold str_le. solve_decision. Defined.
#[global] Instance str_lt_dec a b : Decision (str_lt a b).
Proof. unfold str_lt. solve_decision. Defined.

Lemma ascii_compare_lt_trans a b c :
  Ascii.compare a b = Lt -> Ascii.compare b c = Lt -> Ascii.compare a c = Lt.
Proof.
  unfold Ascii.compare. rewrite !N.compare_lt_iff. apply N.lt_trans.
Qed.

Lemma ascii_compare_eq a b : Ascii.compare a b = Eq <-> a = b.
Proof.
  unfold Ascii.compare. rewrite N.compare_eq_iff. split; [|by intros ->].
  intros H. rewrite <- (ascii_N_embedding a), <- (ascii_N_embedding b). by rewrite H.
Qed.

Lemma str_compare_eq a b : String.compare a b = Eq <-> a = b.
Proof.
  split; [apply String.compare_eq_iff|]. intros ->.
  induction b as [|c b IH]; simpl; [done|].
  by rewrite (proj2 (ascii_compare_eq c c) eq_refl).
Qed.

Lemma str_lt_trans a b c : str_lt a b -> str_lt b c -> str_lt a c.
Proof.
  unfold str_lt. revert b c. induction a as [|x a IH]; intros [|y b] [|z c] H1 H2;
    simpl in *; try done.
  destruct (Ascii.compare x y) eqn:E1; try done;
    destruct (Ascii.compare y z) eqn:E2; try done.
  - apply ascii_compare_eq in E1 as ->. rewrite E2. eauto.
  - apply ascii_compare_eq in E1 as ->. by rewrite E2.
  - apply ascii_compare_eq in E2 as ->. by rewrite E1.
  - by rewrite (ascii_compare_lt_trans x y z).
Qed.

Lemma str_lt_irrefl a : ~ str_lt a a.
Proof. unfold str_lt. destruct (str_compare_eq a a) as [_ H]. by rewrite H. Qed.

Lemma str_trichotomy a b : str_lt a b \/ a = b \/ str_lt b a.
Proof.
  unfold str_lt. destruct (String.compare a b) eqn:E.
  - right; left. by apply str_compare_eq.
  - by left.
  - right; right. rewrite String.compare_antisym, E. done.
Qed.

(** ** Slot keys

    Results are ordered by scheduled time, then by job identifier: the row
    comparison [(scheduled_at, job_id) < (...)] of the queries and the function
    [orderAfter] of the evaluator. *)

Abbreviation slot_key := (Z * string)%type.

Definition key_lt (k l : slot_key) : Prop := k.1 < l.1 \/ (k.1 = l.1 /\ str_lt k.2 l.2).
Definition key_le (k l : slot_key) : Prop := k = l \/ key_lt k l.

#[global] Instance key_lt_dec k l : Decision (key_lt k l).
Proof. unfold key_lt. solve_decision. Defined.
#[global] Instance key_le_dec k l : Decision (key_le k l).
Proof. unfold key_le. solve_decision. Defined.

Lemma key_lt_irrefl k : ~ key_lt k k.
Proof. intros [H|[_ H]]; [lia|]. by apply str_lt_irrefl in H. Qed.

Lemma key_lt_trans k l m : key_lt k l -> key_lt l m -> key_lt k m.
Proof.
  intros [H1|[E1 H1]] [H2|[E2 H2]]; unfold key_lt; [left; lia..|].
  right. split; [lia|]. by eapply str_lt_trans.
Qed.

Lemma key_trichotomy k l : key_lt k l \/ k = l \/ key_lt l k.
Proof.
  destruct k as [t i], l as [u j]; unfold key_lt; simpl.
  destruct (Z.lt_trichotomy t u) as [?|[->|?]]; [auto| |auto].
  destruct (str_trichotomy i j) as [?|[->|?]]; auto.
Qed.

Lemma key_le_lt_trans k l m : key_le k l -> key_lt l m -> key_lt k m.
Proof. intros [->|?] ?; eauto using key_lt_trans. Qed.

Lemma key_lt_le_trans k l m : key_lt k l -> key_le l m -> key_lt k m.
Proof. intros ? [<-|?]; eauto using key_lt_trans. Qed.

Lemma key_not_lt k l : ~ key_lt k l <-> key_le l k.
Proof.
  unfold key_le. split.
  - intros H. destruct (key_trichotomy k l) as [?|[->|?]]; auto. done.
  - intros [->|H] H'; [by apply key_lt_irrefl in H'|].
    by apply (key_lt_irrefl k), (key_lt_trans _ l).
Qed.

#[global] Instance key_le_trans : Transitive key_le.
Proof.
  intros k l m [->|H1] [->|H2]; unfold key_le; eauto using key_lt_trans.
Qed.

#[global] Instance key_le_total : Total key_le.
Proof. intros k l. unfold key_le. destruct (key_trichotomy k l) as [?|[?|?]]; auto. Qed.

#[global] Instance key_le_antisymm : AntiSymm (=) key_le.
Proof.
  intros k l [->|H1] [E|H2]; [done..|by subst|].
  destruct (key_lt_irrefl k). by apply (key_lt_trans _ l).
Qed.

(** ** Pairs and filters *)

Lemma pair_fst {A B} (x : A * B) a : x.1 = a -> x = (a, x.2).
Proof. destruct x. by intros <-. Qed.

Lemma filter_none {A} (P : A -> Prop) `{!forall x, Decision (P x)} (l : list A) :
  Forall (fun x => ~ P x) l -> filter P l = [].
Proof.
  induction 1 as [|x l Hx Hl IH]; [done|]. by rewrite filter_cons, decide_False.
Qed.

Lemma filter_all {A} (P : A -> Prop) `{!forall x, Decision (P x)} (l : list A) :
  Forall P l -> filter P l = l.
Proof.
  induction 1 as [|x l Hx Hl IH]; [done|]. rewrite filter_cons, decide_True by done.
  by rewrite IH.
Qed.

(** ** Lists of rows ordered by slot key

    [order_by_key] is the [ORDER BY scheduled_at, job_id] of the queries.  On rows
    with distinct keys there is one ordered arrangement, so selecting commutes
    with ordering. *)

Section Ordered.
Context {A : Type}.
Implicit Types l : list (slot_key * A).

Definition row_le (x y : slot_key * A) : Prop := key_le x.1 y.1.

#[global] Instance row_le_dec : RelDecision row_le.
Proof. intros x y. unfold row_le. apply _. Defined.
#[global] Instance row_le_trans : Transitive row_le.
Proof. intros x y z. unfold row_le. apply key_le_trans. Qed.
#[global] Instance row_le_total : Total row_le.
Proof. intros x y. unfold row_le. apply key_le_total. Qed.

Definition order_by_key l : list (slot_key * A) := merge_sort row_le l.

Lemma order_perm l : order_by_key l ≡ₚ l.
Proof. apply merge_sort_Permutation. Qed.

Lemma order_sorted l : StronglySorted row_le (order_by_key l).
Proof. apply StronglySorted_merge_sort; apply _. Qed.

Lemma sorted_unique l1 l2 :
  NoDup l1.*1 -> l1 ≡ₚ l2 -> StronglySorted row_le l1 -> StronglySorted row_le l2 -> l1 = l2.
Proof.
  revert l2. induction l1 as [|x l1 IH]; intros l2 Hnd Hp H1 H2.
  { symmetry in Hp. by apply Permutation_nil_r in Hp as ->. }
  destruct l2 as [|y l2]; [by apply Permutation_nil_r in Hp|].
  apply StronglySorted_inv in H1 as [H1 F1], H2 as [H2 F2]. simpl in Hnd.
  apply NoDup_cons in Hnd as [Hx Hnd].
  assert (x = y) as ->.
  { assert (y ∈ x :: l1) as Hy by (rewrite Hp; left).
    assert (x ∈ y :: l2) as Hx' by (rewrite <- Hp; left).
    apply elem_of_cons in Hy as [->|Hy]; [done|].
    apply elem_of_cons in Hx' as [->|Hx']; [done|].
    rewrite Forall_forall in F1, F2. specialize (F1 _ Hy). specialize (F2 _ Hx').
    assert (x.1 = y.1) as E by (apply (anti_symm key_le); done).
    destruct Hx. rewrite E. by apply list_elem_of_fmap_2. }
  f_equal. apply IH; try done. by apply Permutation_cons_inv in Hp.
Qed.

Lemma StronglySorted_filter (P : slot_key * A -> Prop) `{!forall x, Decision (P x)} l :
  StronglySorted row_le l -> StronglySorted row_le (filter P l).
Proof.
  induction 1 as [|x l Hl0 IH HF]; [constructor|]. rewrite filter_cons.
  destruct (decide (P x)); [|done]. constructor; [done|].
  rewrite Forall_forall in HF |- *. intros y [_ Hy]%list_elem_of_filter. by apply HF.
Qed.

Lemma NoDup_fst_filter (P : slot_key * A -> Prop) `{!forall x, Decision (P x)} l :
  NoDup l.*1 -> NoDup (filter P l).*1.
Proof.
  intros Hnd. eapply sublist_NoDup; [exact Hnd|]. apply fmap_sublist, sublist_filter.
Qed.

Lemma order_unique l l' :
  NoDup l.*1 -> l ≡ₚ l' -> StronglySorted row_le l' -> order_by_key l = l'.
Proof.
  intros Hnd Hp Hs. apply sorted_unique; [|by rewrite order_perm|apply order_sorted|done].
  by rewrite order_perm.
Qed.

Lemma order_filter (P : slot_key * A -> Prop) `{!forall x, Decision (P x)} l :
  NoDup l.*1 -> order_by_key (filter P l) = filter P (order_by_key l).
Proof.
  intros Hnd. apply order_unique; [by apply NoDup_fst_filter| |].
  - by rewrite order_perm.
  - apply StronglySorted_filter, order_sorted.
Qed.

Lemma order_id l : NoDup l.*1 -> StronglySorted row_le l -> order_by_key l = l.
Proof. intros. by apply order_unique. Qed.

(** An ordered list splits at a key. *)
Lemma sorted_split k l :
  StronglySorted row_le l ->
  l = filter (fun x => key_lt x.1 k) l ++ filter (fun x => key_le k x.1) l.
Proof.
  induction 1 as [|x l Hl0 IH HF]; [done|]. rewrite !filter_cons.
  destruct (decide (key_lt x.1 k)) as [Hl|Hl].
  - destruct (decide (key_le k x.1)) as [Hk|_].
    { by apply key_not_lt in Hk. }
    simpl. by f_equal.
  - apply key_not_lt in Hl. rewrite decide_True by done.
    assert (filter (fun y => key_lt y.1 k) l = []) as ->.
    { apply filter_none. rewrite Forall_forall in *. intros y Hy.
      apply key_not_lt. transitivity x.1; [done|by apply HF]. }
    simpl. f_equal. symmetry. apply filter_all.
    rewrite Forall_forall in *. intros y Hy. transitivity x.1; [done|by apply HF].
Qed.

Lemma StronglySorted_app_2 l1 l2 :
  StronglySorted row_le l1 -> StronglySorted row_le l2 ->
  (forall x y, x ∈ l1 -> y ∈ l2 -> row_le x y) -> StronglySorted row_le (l1 ++ l2).
Proof.
  induction 1 as [|x l Hl0 IH HF]; intros H2 Hc; [done|]. simpl. constructor.
  - apply IH; [done|]. intros y z Hy Hz. apply Hc; [by right|done].
  - apply Forall_app. split; [done|]. apply Forall_forall. intros y Hy. apply Hc; [left|done].
Qed.
End Ordered.
