(* ===== verification/Tx.v ===== *)
(** * Tx: errors, transactions and their program logic

    The Go services thread a [pgx.Tx] and an [error] through every call.  Here a
    computation is a state transformer with a result, [SE S A]: [mbind] is Go's
    [if err != nil { return err }], [try_] is a call whose error the code looks
    at itself.

    [Tx D] is a computation inside a database transaction over tables [D]:
    [sql q] runs one statement.  A statement fails when the next entry of
    [tx_faults] says so (a lost connection, a cancelled context), and a failed
    statement leaves the transaction aborted: PostgreSQL then refuses every
    further statement and turns the commit into a rollback.  [with_tx] is
    [Begin ... defer Rollback ... Commit]: the tables change only when the body
    asks for a commit and the commit goes through.  [FailsAfterCommit] is a
    commit whose answer is lost after the server applied it.

    The second half of the file is a small program logic: [triple] with
    structural rules, [keeps] for invariants, and the facts about [with_tx] that
    every service uses. *)

From stdpp Require Import base list strings.
From Stdlib Require Import ZArith Lia.
From S2P Require Import Prelude.

(** ** State transformers with errors *)

Definition SE (S A : Type) : Type := S -> res A * S.

#[global] Instance SE_ret S : MRet (SE S) := fun A a s => (Ok a, s).
#[global] Instance SE_bind S : MBind (SE S) := fun A B k m s =>
  match m s with
  | (Ok a, s') => k a s'
  | (Err e, s') => (Err e, s')
  end.

Definition throw {S A} (e : error) : SE S A := fun s => (Err e, s).
Definition try_ {S A} (m : SE S A) : SE S (res A) := fun s => (Ok (m s).1, (m s).2).
(** [_ = f(...)]: the error is dropped. *)
Definition ignore {S A} (m : SE S A) : SE S () := r ← try_ m; mret ().
Definition of_res {S A} (r : res A) : SE S A := fun s => (r, s).
Definition gets {S A} (f : S -> A) : SE S A := fun s => (Ok (f s), s).

(** A [for] loop whose body may return early with an error. *)
Fixpoint foldM {S A B} (f : B -> A -> SE S B) (b : B) (l : list A) : SE S B :=
  match l with
  | [] => mret b
  | a :: l => b ← f b a; foldM f b l
  end.

(** ** Transactions *)

Inductive fault : Type := NoFault | Fails | FailsAfterCommit.

Record TxState (D : Type) : Type := mkTx {
  tx_db : D;
  tx_now : Z;                  (* CURRENT_TIMESTAMP: when the transaction began *)
  tx_aborted : bool;
  tx_uuid : nat -> string;     (* what gen_random_uuid() returns, call by call *)
  tx_next : nat;
  tx_faults : list fault
}.
Arguments mkTx {D}.
Arguments tx_db {D}. Arguments tx_now {D}. Arguments tx_aborted {D}.
Arguments tx_uuid {D}. Arguments tx_next {D}. Arguments tx_faults {D}.

Definition Tx (D A : Type) : Type := SE (TxState D) A.

Definition next_fault (l : list fault) : fault * list fault :=
  match l with [] => (NoFault, []) | f :: l => (f, l) end.

(** One statement: [q now d] is its effect on the tables.  [ErrNoRows] is the
    driver's answer for an empty result, not an error of the server. *)
Definition sql {D A} (q : Z -> D -> res A * D) : Tx D A := fun s =>
  if tx_aborted s then (Err ErrTxAborted, s) else
  let '(f, fs) := next_fault (tx_faults s) in
  let quit e := (Err e, mkTx (tx_db s) (tx_now s) true (tx_uuid s) (tx_next s) fs) in
  match f with
  | NoFault =>
      match q (tx_now s) (tx_db s) with
      | (Ok a, d) => (Ok a, mkTx d (tx_now s) false (tx_uuid s) (tx_next s) fs)
      | (Err ErrNoRows, _) =>
          (Err ErrNoRows, mkTx (tx_db s) (tx_now s) false (tx_uuid s) (tx_next s) fs)
      | (Err e, _) => quit e
      end
  | _ => quit ErrDatabase
  end.

(** [gen_random_uuid()], drawn before the statement that uses it. *)
Definition gen_random_uuid {D} : Tx D string := fun s =>
  (Ok (tx_uuid s (tx_next s)),
   mkTx (tx_db s) (tx_now s) (tx_aborted s) (tx_uuid s) (S (tx_next s)) (tx_faults s)).

(** As many uuids as a statement will insert rows. *)
Definition gen_random_uuids {D} (count : D -> nat) : Tx D (list string) := fun s =>
  let n := count (tx_db s) in
  (Ok ((fun i => tx_uuid s (tx_next s + i)%nat) <$> seq 0 n),
   mkTx (tx_db s) (tx_now s) (tx_aborted s) (tx_uuid s) (tx_next s + n) (tx_faults s)).

(** Statements that only read, and statements that only write. *)
Definition select {D A} (q : Z -> D -> A) : Tx D A := sql (fun now d => (Ok (q now d), d)).
Definition select_one {D A} (q : Z -> D -> option A) : Tx D A :=
  sql (fun now d => (match q now d with Some a => Ok a | None => Err ErrNoRows end, d)).
Definition update {D} (q : Z -> D -> D) : Tx D () := sql (fun now d => (Ok (), q now d)).

(** ** The process around the transactions

    [w_ext] is what lies outside the database: queues, mail providers, clocks. *)

Record World (D O : Type) : Type := mkWorld {
  w_db : D;
  w_ext : O;
  w_uuid : nat -> string;
  w_next : nat;
  w_faults : list fault
}.
Arguments mkWorld {D O}.
Arguments w_db {D O}. Arguments w_ext {D O}. Arguments w_uuid {D O}.
Arguments w_next {D O}. Arguments w_faults {D O}.

Inductive TxEnd (A : Type) : Type :=
| Commit (a : A)      (* tx.Commit, then return a *)
| Rollback (a : A).   (* return a, the deferred Rollback ends the transaction *)
Arguments Commit {A}. Arguments Rollback {A}.

Definition with_tx {D O A} (now : Z) (body : Tx D (TxEnd A)) : SE (World D O) A := fun w =>
  let '(f, fs) := next_fault (w_faults w) in
  match f with
  | NoFault =>
      let '(r, s) := body (mkTx (w_db w) now false (w_uuid w) (w_next w) fs) in
      let back fs := mkWorld (w_db w) (w_ext w) (w_uuid w) (tx_next s) fs in
      match r with
      | Err e => (Err e, back (tx_faults s))
      | Ok (Rollback a) => (Ok a, back (tx_faults s))
      | Ok (Commit a) =>
          let '(f', fs') := next_fault (tx_faults s) in
          let done := mkWorld (tx_db s) (w_ext w) (w_uuid w) (tx_next s) fs' in
          if tx_aborted s then (Err ErrTxAborted, back fs') else
          match f' with
          | NoFault => (Ok a, done)
          | Fails => (Err ErrDatabase, back fs')
          | FailsAfterCommit => (Err ErrDatabase, done)
          end
      end
  | _ => (Err ErrDatabase, mkWorld (w_db w) (w_ext w) (w_uuid w) (w_next w) fs)
  end.

(** A transaction that calls out before it commits: the body returns a final answer
    ([inl], rolled back) or what to send ([inr]); the transaction commits only when the
    call succeeded, and the call is not undone when the commit fails. *)
Definition with_tx_call {D O A B} (now : Z) (body : Tx D (A + B)) (f : B -> O -> res () * O) (g : B -> A) :
    SE (World D O) A := fun w =>
  let '(fault, fs) := next_fault (w_faults w) in
  match fault with
  | NoFault =>
      let '(r, s) := body (mkTx (w_db w) now false (w_uuid w) (w_next w) fs) in
      let back o fs := mkWorld (w_db w) o (w_uuid w) (tx_next s) fs in
      match r with
      | Err e => (Err e, back (w_ext w) (tx_faults s))
      | Ok (inl a) => (Ok a, back (w_ext w) (tx_faults s))
      | Ok (inr b) =>
          match f b (w_ext w) with
          | (Err e, o) => (Err e, back o (tx_faults s))
          | (Ok _, o) =>
              let '(fault', fs') := next_fault (tx_faults s) in
              let done := mkWorld (tx_db s) o (w_uuid w) (tx_next s) fs' in
              if tx_aborted s then (Err ErrTxAborted, back o fs') else
              match fault' with
              | NoFault => (Ok (g b), done)
              | Fails => (Err ErrDatabase, back o fs')
              | FailsAfterCommit => (Err ErrDatabase, done)
              end
          end
      end
  | _ => (Err ErrDatabase, mkWorld (w_db w) (w_ext w) (w_uuid w) (w_next w) fs)
  end.

(** A call that leaves the process. *)
Definition external {D O A} (f : O -> res A * O) : SE (World D O) A := fun w =>
  let '(r, o) := f (w_ext w) in
  (r, mkWorld (w_db w) o (w_uuid w) (w_next w) (w_faults w)).

(** ** Program logic *)

Definition triple {S A} (P : S -> Prop) (m : SE S A)
    (Q : A -> S -> Prop) (X : error -> S -> Prop) : Prop :=
  forall s, P s -> match m s with (Ok a, s') => Q a s' | (Err e, s') => X e s' end.

(** [keeps I m]: whatever [m] returns, [I] still holds. *)
Definition keeps {S A} (I : S -> Prop) (m : SE S A) : Prop :=
  triple I m (fun _ => I) (fun _ => I).

Lemma triple_ret {S A} (P : S -> Prop) (a : A) (Q : A -> S -> Prop) X :
  (forall s, P s -> Q a s) -> triple P (mret a) Q X.
Proof. intros H s Hs. exact (H s Hs). Qed.

Lemma triple_throw {S A} (P : S -> Prop) e (Q : A -> S -> Prop) (X : error -> S -> Prop) :
  (forall s, P s -> X e s) -> triple P (throw e) Q X.
Proof. intros H s Hs. exact (H s Hs). Qed.

Lemma triple_bind {S A B} (P : S -> Prop) (m : SE S A) (k : A -> SE S B) R Q X :
  triple P m R X -> (forall a, triple (R a) (k a) Q X) -> triple P (m ≫= k) Q X.
Proof.
  intros Hm Hk s Hs. unfold mbind, SE_bind. specialize (Hm s Hs).
  destruct (m s) as [[a|e] s']; [by apply Hk|done].
Qed.

Lemma triple_try {S A} (P : S -> Prop) (m : SE S A) (Q : res A -> S -> Prop) X :
  triple P m (fun a => Q (Ok a)) (fun e => Q (Err e)) -> triple P (try_ m) Q X.
Proof.
  intros H s Hs. unfold try_. specialize (H s Hs). by destruct (m s) as [[a|e] s'].
Qed.

Lemma triple_conseq {S A} (P P' : S -> Prop) (m : SE S A) Q Q' X X' :
  triple P' m Q' X' -> (forall s, P s -> P' s) ->
  (forall a s, Q' a s -> Q a s) -> (forall e s, X' e s -> X e s) -> triple P m Q X.
Proof.
  intros H HP HQ HX s Hs. specialize (H s (HP s Hs)). destruct (m s) as [[a|e] s']; auto.
Qed.

Lemma keeps_ret {S A} (I : S -> Prop) (a : A) : keeps I (mret a).
Proof. by apply triple_ret. Qed.

Lemma keeps_throw {S A} (I : S -> Prop) e : keeps I (throw (A := A) e).
Proof. by apply triple_throw. Qed.

Lemma keeps_of_res {S A} (I : S -> Prop) (r : res A) : keeps I (of_res r).
Proof. intros s Hs. by destruct r. Qed.

Lemma keeps_gets {S A} (I : S -> Prop) (f : S -> A) : keeps I (gets f).
Proof. by intros s Hs. Qed.

Lemma keeps_bind {S A B} (I : S -> Prop) (m : SE S A) (k : A -> SE S B) :
  keeps I m -> (forall a, keeps I (k a)) -> keeps I (m ≫= k).
Proof. intros. by eapply triple_bind. Qed.

Lemma keeps_try {S A} (I : S -> Prop) (m : SE S A) : keeps I m -> keeps I (try_ m).
Proof. intros H. by apply triple_try. Qed.

Lemma keeps_ignore {S A} (I : S -> Prop) (m : SE S A) : keeps I m -> keeps I (ignore m).
Proof. intros H. apply keeps_bind; [by apply keeps_try|]. intros. apply keeps_ret. Qed.

Lemma keeps_foldM {S A B} (I : S -> Prop) (f : B -> A -> SE S B) b l :
  (forall b a, keeps I (f b a)) -> keeps I (foldM f b l).
Proof.
  intros Hf. revert b. induction l as [|a l IH]; intros b; simpl; [apply keeps_ret|].
  apply keeps_bind; auto.
Qed.

Lemma keeps_final {S A} (I : S -> Prop) (m : SE S A) s : keeps I m -> I s -> I (m s).2.
Proof. intros H Hs. specialize (H s Hs). by destruct (m s) as [[a|e] s']. Qed.

(** Invariants of the tables, lifted to transactions and to the process. *)
Definition tx_inv {D} (I : D -> Prop) (s : TxState D) : Prop := I (tx_db s).
Definition w_inv {D O} (I : D -> Prop) (w : World D O) : Prop := I (w_db w).

Lemma keeps_sql {D A} (I : D -> Prop) (q : Z -> D -> res A * D) :
  (forall now d a d', I d -> q now d = (Ok a, d') -> I d') -> keeps (tx_inv I) (sql q).
Proof.
  intros H s Hs. unfold tx_inv, sql in *. destruct (tx_aborted s); [done|].
  destruct (next_fault (tx_faults s)) as [[] fs]; simpl; try done.
  destruct (q (tx_now s) (tx_db s)) as [[a|e] d] eqn:E; simpl; [by eapply H|].
  by destruct e.
Qed.

Lemma keeps_select {D A} (I : D -> Prop) (q : Z -> D -> A) : keeps (tx_inv I) (select q).
Proof. apply keeps_sql. by intros ???? H [= <- <-]. Qed.

Lemma keeps_select_one {D A} (I : D -> Prop) (q : Z -> D -> option A) :
  keeps (tx_inv I) (select_one q).
Proof. apply keeps_sql. by intros ???? H [= _ <-]. Qed.

Lemma keeps_update {D} (I : D -> Prop) (q : Z -> D -> D) :
  (forall now d, I d -> I (q now d)) -> keeps (tx_inv I) (update q).
Proof. intros Hq. apply keeps_sql. intros ???? H [= _ <-]. auto. Qed.

Lemma keeps_uuid {D} (I : D -> Prop) : keeps (tx_inv I) gen_random_uuid.
Proof. by intros s Hs. Qed.

Lemma keeps_uuids {D} (I : D -> Prop) count : keeps (tx_inv I) (gen_random_uuids count).
Proof. by intros s Hs. Qed.

Lemma keeps_with_tx {D O A} (I : D -> Prop) now (body : Tx D (TxEnd A)) :
  keeps (tx_inv I) body -> keeps (w_inv (O := O) I) (with_tx now body).
Proof.
  intros Hb w Hw. unfold w_inv, with_tx in *.
  destruct (next_fault (w_faults w)) as [[] fs]; simpl; try done.
  pose proof (Hb (mkTx (w_db w) now false (w_uuid w) (w_next w) fs) Hw) as H.
  destruct (body _) as [[[a|a]|e] s]; simpl in *; try done.
  destruct (next_fault (tx_faults s)) as [f' fs']. by destruct (tx_aborted s), f'.
Qed.

Lemma keeps_with_tx_call {D O A B} (I : D -> Prop) now (body : Tx D (A + B)) f (g : B -> A) :
  keeps (tx_inv I) body -> keeps (w_inv (O := O) I) (with_tx_call now body f g).
Proof.
  intros Hb w Hw. unfold w_inv, with_tx_call in *.
  destruct (next_fault (w_faults w)) as [[] fs]; simpl; try done.
  pose proof (Hb (mkTx (w_db w) now false (w_uuid w) (w_next w) fs) Hw) as H.
  destruct (body _) as [[[a|b]|e] s]; simpl in *; try done.
  destruct (f b (w_ext w)) as [[u|e] o]; [|done].
  destruct (next_fault (tx_faults s)) as [f' fs']. by destruct (tx_aborted s), f'.
Qed.

Lemma keeps_external {D O A} (I : D -> Prop) (f : O -> res A * O) :
  keeps (w_inv (O := O) I) (external (D := D) f).
Proof. intros w Hw. unfold external. by destruct (f (w_ext w)) as [[a|e] o]. Qed.

(** All or nothing: a transaction that returns an error left the tables as they
    were, or its body ran to the end and the answer to the commit was lost. *)
Lemma with_tx_all_or_nothing {D O A} now (body : Tx D (TxEnd A)) (w w' : World D O) e :
  with_tx now body w = (Err e, w') ->
  w_db w' = w_db w \/
  exists fs a s, e = ErrDatabase /\
    body (mkTx (w_db w) now false (w_uuid w) (w_next w) fs) = (Ok (Commit a), s) /\
    tx_aborted s = false /\ w_db w' = tx_db s.
Proof.
  unfold with_tx. destruct (next_fault (w_faults w)) as [f fs] eqn:Ef.
  destruct f; [|by intros [= <- <-]; left..].
  destruct (body _) as [[[a|a]|e'] s] eqn:Eb; [|by intros|by intros [= <- <-]; left].
  destruct (next_fault (tx_faults s)) as [f' fs'].
  destruct (tx_aborted s) eqn:Ea; [by intros [= <- <-]; left|].
  destruct f'; [by intros|by intros [= <- <-]; left|].
  intros [= <- <-]. right. eauto 10.
Qed.

(** What a successful transaction did. *)
Lemma with_tx_ok {D O A} now (body : Tx D (TxEnd A)) (w w' : World D O) a :
  with_tx now body w = (Ok a, w') ->
  w_ext w' = w_ext w /\ exists fs s,
    (body (mkTx (w_db w) now false (w_uuid w) (w_next w) fs) = (Ok (Commit a), s) /\
       tx_aborted s = false /\ w_db w' = tx_db s) \/
    (body (mkTx (w_db w) now false (w_uuid w) (w_next w) fs) = (Ok (Rollback a), s) /\
       w_db w' = w_db w).
Proof.
  unfold with_tx. destruct (next_fault (w_faults w)) as [[] fs] eqn:Ef; [|by intros..].
  destruct (body _) as [[[b|b]|e'] s] eqn:Eb; [|by intros [= <- <-]; eauto 10|by intros].
  destruct (next_fault (tx_faults s)) as [f' fs'].
  destruct (tx_aborted s) eqn:Ea; [by intros|].
  destruct f'; [|by intros..]. intros [= <- <-]. eauto 10.
Qed.

(** Triples whose assertions speak of the clock and the tables only. *)
Definition on_db {D} (P : Z -> D -> Prop) (s : TxState D) : Prop := P (tx_now s) (tx_db s).

Definition dtriple {D A} (P : Z -> D -> Prop) (m : Tx D A)
    (Q : A -> Z -> D -> Prop) (X : error -> Z -> D -> Prop) : Prop :=
  triple (on_db P) m (fun a => on_db (Q a)) (fun e => on_db (X e)).

Lemma dtriple_sql {D A} (P : Z -> D -> Prop) (q : Z -> D -> res A * D) Q X :
  (forall now d, P now d -> match q now d with
     | (Ok a, d') => Q a now d'
     | (Err e, _) => X e now d
     end) ->
  (forall e now d, e <> ErrNoRows -> P now d -> X e now d) ->
  dtriple P (sql q) Q X.
Proof.
  intros Hq Hx s Hs. unfold on_db, sql in *. destruct (tx_aborted s); [by apply Hx|].
  destruct (next_fault (tx_faults s)) as [[] fs]; simpl; [|by apply Hx..].
  specialize (Hq _ _ Hs). destruct (q (tx_now s) (tx_db s)) as [[a|e] d]; simpl; [done|].
  by destruct e.
Qed.

Lemma dtriple_update {D} (P : Z -> D -> Prop) (q : Z -> D -> D) Q X :
  (forall now d, P now d -> Q () now (q now d)) ->
  (forall e now d, e <> ErrNoRows -> P now d -> X e now d) -> dtriple P (update q) Q X.
Proof. intros H HX. by apply dtriple_sql. Qed.

Lemma dtriple_select {D A} (P : Z -> D -> Prop) (q : Z -> D -> A) Q X :
  (forall now d, P now d -> Q (q now d) now d) ->
  (forall e now d, e <> ErrNoRows -> P now d -> X e now d) -> dtriple P (select q) Q X.
Proof. intros H HX. by apply dtriple_sql. Qed.

Lemma dtriple_select_one {D A} (P : Z -> D -> Prop) (q : Z -> D -> option A) Q X :
  (forall now d, P now d -> match q now d with
     | Some a => Q a now d | None => X ErrNoRows now d end) ->
  (forall e now d, e <> ErrNoRows -> P now d -> X e now d) -> dtriple P (select_one q) Q X.
Proof.
  intros H HX. apply dtriple_sql; [|done]. intros now d Hp. specialize (H now d Hp).
  by destruct (q now d).
Qed.

Lemma dtriple_bind {D A B} (P : Z -> D -> Prop) (m : Tx D A) (k : A -> Tx D B) R Q X :
  dtriple P m R X -> (forall a, dtriple (R a) (k a) Q X) -> dtriple P (m ≫= k) Q X.
Proof. intros. by eapply triple_bind. Qed.

Lemma dtriple_ret {D A} (P : Z -> D -> Prop) (a : A) Q X :
  (forall now d, P now d -> Q a now d) -> dtriple P (mret a) Q X.
Proof. intros H. apply triple_ret. intros s. apply H. Qed.

Lemma dtriple_throw {D A} (P : Z -> D -> Prop) e (Q : A -> Z -> D -> Prop) X :
  (forall now d, P now d -> X e now d) -> dtriple P (throw e) Q X.
Proof. intros H. apply triple_throw. intros s. apply H. Qed.

Lemma dtriple_try {D A} (P : Z -> D -> Prop) (m : Tx D A) Q X :
  dtriple P m (fun a => Q (Ok a)) (fun e => Q (Err e)) -> dtriple P (try_ m) Q X.
Proof. exact (triple_try (on_db P) m (fun r => on_db (Q r)) _). Qed.

Lemma dtriple_uuid {D} (P : Z -> D -> Prop) Q X :
  (forall u now d, P now d -> Q u now d) -> dtriple (D := D) P gen_random_uuid Q X.
Proof. intros H s Hs. apply (H _ _ _ Hs). Qed.

Lemma dtriple_conseq {D A} (P P' : Z -> D -> Prop) (m : Tx D A) Q Q' X X' :
  dtriple P' m Q' X' -> (forall now d, P now d -> P' now d) ->
  (forall a now d, Q' a now d -> Q a now d) ->
  (forall e now d, X' e now d -> X e now d) -> dtriple P m Q X.
Proof. intros H HP HQ HX. eapply triple_conseq; [exact H|..]; unfold on_db; eauto. Qed.

(** Runs without faults, which the executable examples and the totality theorems
    use: [quiet] holds of a transaction in good order with no fault ahead. *)
Definition quiet {D} (s : TxState D) : Prop := tx_aborted s = false /\ tx_faults s = [].

Definition set_tx_db {D} (d : D) (s : TxState D) : TxState D :=
  mkTx d (tx_now s) (tx_aborted s) (tx_uuid s) (tx_next s) (tx_faults s).

Lemma sql_quiet {D A} (q : Z -> D -> res A * D) s a d :
  quiet s -> q (tx_now s) (tx_db s) = (Ok a, d) ->
  sql q s = (Ok a, set_tx_db d s).
Proof.
  intros [Ha Hf] Hq. unfold sql. rewrite Ha, Hf. simpl. rewrite Hq.
  unfold set_tx_db. by rewrite Ha, Hf.
Qed.

Lemma sql_quiet_no_rows {D A} (q : Z -> D -> res A * D) s d :
  quiet s -> q (tx_now s) (tx_db s) = (Err ErrNoRows, d) -> sql q s = (Err ErrNoRows, s).
Proof.
  intros [Ha Hf] Hq. unfold sql. rewrite Ha, Hf. simpl. rewrite Hq.
  destruct s; simpl in *. by subst.
Qed.

(** A statement the server refuses leaves the transaction aborted, and every later
    statement fails. *)
Lemma sql_quiet_err {D A} (q : Z -> D -> res A * D) s e d :
  quiet s -> q (tx_now s) (tx_db s) = (Err e, d) -> e <> ErrNoRows ->
  sql q s = (Err e, mkTx (tx_db s) (tx_now s) true (tx_uuid s) (tx_next s) []).
Proof.
  intros [Ha Hf] Hq Hn. unfold sql. rewrite Ha, Hf. simpl. rewrite Hq. by destruct e.
Qed.

Lemma sql_aborted {D A} (q : Z -> D -> res A * D) s :
  tx_aborted s = true -> sql q s = (Err ErrTxAborted, s).
Proof. intros H. unfold sql. by rewrite H. Qed.

(** ** Reading a successful run backwards

    What it means for each construct to have returned [Ok]; [ok_inv] applies them
    along a whole body. *)

Lemma bind_ok {S A B} (m : SE S A) (k : A -> SE S B) s b s' :
  (m ≫= k) s = (Ok b, s') -> exists a s1, m s = (Ok a, s1) /\ k a s1 = (Ok b, s').
Proof.
  unfold mbind, SE_bind. destruct (m s) as [[a|e] s1]; [eauto|by intros].
Qed.

Lemma ret_ok {S A} (a b : A) (s s' : S) : (mret a : SE S A) s = (Ok b, s') -> a = b /\ s = s'.
Proof. by intros [= -> ->]. Qed.

(** [same_but d s s']: only the tables may differ, and they are [d] now. *)
Definition moved {D} (d : D) (s s' : TxState D) : Prop :=
  tx_db s' = d /\ tx_now s' = tx_now s.

Lemma sql_ok {D A} (q : Z -> D -> res A * D) s a s' :
  sql q s = (Ok a, s') -> q (tx_now s) (tx_db s) = (Ok a, tx_db s') /\ tx_now s' = tx_now s.
Proof.
  unfold sql. destruct (tx_aborted s); [by intros|].
  destruct (next_fault (tx_faults s)) as [[] fs]; [|by intros..].
  destruct (q (tx_now s) (tx_db s)) as [[b|e] d] eqn:E; [by intros [= <- <-]|].
  by destruct e.
Qed.

Lemma select_ok {D A} (q : Z -> D -> A) s a s' :
  select q s = (Ok a, s') -> a = q (tx_now s) (tx_db s) /\ moved (tx_db s) s s'.
Proof. intros [[= <- Hd] H]%sql_ok. by repeat split. Qed.

Lemma select_one_ok {D A} (q : Z -> D -> option A) s a s' :
  select_one q s = (Ok a, s') -> q (tx_now s) (tx_db s) = Some a /\ moved (tx_db s) s s'.
Proof.
  intros [E H]%sql_ok. destruct (q (tx_now s) (tx_db s)); simplify_eq. by repeat split.
Qed.

Lemma update_ok {D} (q : Z -> D -> D) s a s' :
  update q s = (Ok a, s') -> moved (q (tx_now s) (tx_db s)) s s'.
Proof. intros [[= _ Hd] H]%sql_ok. by repeat split. Qed.

Lemma sql_err {D A} (q : Z -> D -> res A * D) s e s' :
  sql q s = (Err e, s') ->
  moved (tx_db s) s s' /\ (e = ErrNoRows -> exists d, q (tx_now s) (tx_db s) = (Err ErrNoRows, d)).
Proof.
  unfold sql. destruct (tx_aborted s); [by intros [= <- <-]|].
  destruct (next_fault (tx_faults s)) as [[] fs]; [|by intros [= <- <-]..].
  destruct (q (tx_now s) (tx_db s)) as [[b|e'] d] eqn:E; [by intros|].
  destruct e'; intros [= <- <-]; repeat split; try done; eauto.
Qed.

(** [err_kind r]: the two ways Go code tells a missing row from a failure. *)
Lemma try_select_one_ok {D A} (q : Z -> D -> option A) s (r : res A) s' :
  try_ (select_one q) s = (Ok r, s') ->
  moved (tx_db s) s s' /\
  match r with
  | Ok a => q (tx_now s) (tx_db s) = Some a
  | Err ErrNoRows => q (tx_now s) (tx_db s) = None
  | Err _ => True
  end.
Proof.
  unfold try_. destruct (select_one q s) as [r' s1] eqn:E. simpl. intros [= <- <-].
  destruct r' as [a|e].
  - apply select_one_ok in E. tauto.
  - apply sql_err in E as [Hm He]. split; [done|]. destruct e; try done.
    destruct (He eq_refl) as [d Hd]. by destruct (q (tx_now s) (tx_db s)).
Qed.

Lemma uuid_ok {D} (s : TxState D) u s' :
  gen_random_uuid s = (Ok u, s') -> moved (tx_db s) s s'.
Proof. by intros [= <- <-]. Qed.

Lemma uuids_ok {D} (count : D -> nat) (s : TxState D) l s' :
  gen_random_uuids count s = (Ok l, s') -> moved (tx_db s) s s' /\ length l = count (tx_db s).
Proof. intros [= <- <-]. split; [done|]. by rewrite length_fmap, length_seq. Qed.

Lemma of_res_ok {S A} (r : res A) (s : S) a s' : of_res r s = (Ok a, s') -> r = Ok a /\ s' = s.
Proof. unfold of_res. by intros [= -> ->]. Qed.

(** A statement whose error is dropped took effect or left the tables alone. *)
Lemma ignore_update_ok {D} (q : Z -> D -> D) (s : TxState D) u s' :
  ignore (update q) s = (Ok u, s') ->
  tx_now s' = tx_now s /\ (tx_db s' = q (tx_now s) (tx_db s) \/ tx_db s' = tx_db s).
Proof.
  unfold ignore. intros H. apply bind_ok in H as (r & s1 & H1 & H). apply ret_ok in H as [_ <-].
  unfold try_ in H1. destruct (update q s) as [r' s2] eqn:E. injection H1 as <- <-. simpl.
  destruct r' as [v|e].
  - apply update_ok in E as [-> ->]. auto.
  - apply sql_err in E as [[-> ->] _]. auto.
Qed.

(** A transaction that is in good order at the end was so before every statement. *)
Lemma sql_live {D A} (q : Z -> D -> res A * D) s a s' :
  sql q s = (Ok a, s') -> tx_aborted s = false /\ tx_aborted s' = false.
Proof.
  unfold sql. destruct (tx_aborted s); [by intros|].
  destruct (next_fault (tx_faults s)) as [[] fs]; [|by intros..].
  destruct (q (tx_now s) (tx_db s)) as [[b|e] d]; [by intros [= <- <-]|]. by destruct e.
Qed.

(** A statement whose error is dropped went through if the transaction did not abort. *)
Lemma ignore_sql_ok {D A} (q : Z -> D -> res A * D) (s : TxState D) u s' :
  ignore (sql q) s = (Ok u, s') -> tx_aborted s' = false -> (q (tx_now s) (tx_db s)).1 <> Err ErrNoRows ->
  tx_now s' = tx_now s /\ tx_aborted s = false /\ exists a, q (tx_now s) (tx_db s) = (Ok a, tx_db s').
Proof.
  unfold ignore. intros H Hl Hn. apply bind_ok in H as (r & s1 & H1 & H). apply ret_ok in H as [_ <-].
  unfold try_ in H1. destruct (sql q s) as [r' s2] eqn:E. injection H1 as <- <-. simpl in Hl |- *.
  destruct r' as [a|e].
  - pose proof (sql_live _ _ _ _ E) as [Ha _]. apply sql_ok in E as [E N]. eauto.
  - exfalso. unfold sql in E. destruct (tx_aborted s) eqn:Ea; [injection E as _ <-; congruence|].
    destruct (next_fault (tx_faults s)) as [[] fs]; [|injection E as _ <-; done..].
    destruct (q (tx_now s) (tx_db s)) as [[b|e'] d]; [done|]. destruct e'; try done; by injection E as _ <-.
Qed.

(** ** Runs that cannot fail

    [calm m]: in a transaction in good order and with no fault ahead, [m] returns
    a value and leaves the transaction in good order. *)
Definition calm {D A} (m : Tx D A) : Prop :=
  forall s, quiet s -> exists a s', m s = (Ok a, s') /\ quiet s'.

Lemma calm_ret {D A} (a : A) : calm (D := D) (mret a).
Proof. intros s Hs. by exists a, s. Qed.

Lemma calm_bind {D A B} (m : Tx D A) (k : A -> Tx D B) :
  calm m -> (forall a, calm (k a)) -> calm (m ≫= k).
Proof.
  intros Hm Hk s Hs. destruct (Hm s Hs) as (a & s1 & E & H1).
  destruct (Hk a s1 H1) as (b & s2 & E2 & H2). exists b, s2. split; [|done].
  unfold mbind, SE_bind. by rewrite E.
Qed.

Lemma calm_sql {D A} (q : Z -> D -> res A * D) :
  (forall now d, is_ok (q now d).1) -> calm (sql q).
Proof.
  intros Hq s Hs. specialize (Hq (tx_now s) (tx_db s)).
  destruct (q (tx_now s) (tx_db s)) as [[a|e] d] eqn:E; [|done].
  exists a, (set_tx_db d s). split; [by apply sql_quiet|done].
Qed.

Lemma calm_select {D A} (q : Z -> D -> A) : calm (select q).
Proof. by apply calm_sql. Qed.

Lemma calm_update {D} (q : Z -> D -> D) : calm (update q).
Proof. by apply calm_sql. Qed.

Lemma calm_try_select_one {D A} (q : Z -> D -> option A) s :
  quiet s -> exists s', quiet s' /\ tx_db s' = tx_db s /\
    try_ (select_one q) s =
      (Ok (match q (tx_now s) (tx_db s) with Some a => Ok a | None => Err ErrNoRows end), s').
Proof.
  intros Hs. unfold try_, select_one. destruct (q (tx_now s) (tx_db s)) as [a|] eqn:E.
  - exists (set_tx_db (tx_db s) s). erewrite sql_quiet; [done..|]. by rewrite E.
  - exists s. erewrite sql_quiet_no_rows; [done..|]. by rewrite E.
Qed.

Lemma set_tx_db_id {D} (s : TxState D) : set_tx_db (tx_db s) s = s.
Proof. by destruct s. Qed.

Lemma try_select_one_run {D A} (q : Z -> D -> option A) s a :
  quiet s -> q (tx_now s) (tx_db s) = Some a -> try_ (select_one q) s = (Ok (Ok a), s).
Proof.
  intros Hs E. unfold try_, select_one. erewrite sql_quiet; [|done|by rewrite E]. simpl. by rewrite set_tx_db_id.
Qed.

Lemma calm_foldM {D A B} (f : B -> A -> Tx D B) b l :
  (forall b a, calm (f b a)) -> calm (foldM f b l).
Proof.
  intros Hf. revert b. induction l as [|a l IH]; intros b; simpl; [apply calm_ret|].
  apply calm_bind; auto.
Qed.

Lemma bind_run {S A B} (m : SE S A) (k : A -> SE S B) s a s' : m s = (Ok a, s') -> (m ≫= k) s = k a s'.
Proof. intros E. unfold mbind, SE_bind. by rewrite E. Qed.

Lemma try_run {S A} (m : SE S A) s r s' : m s = (r, s') -> try_ m s = (Ok r, s').
Proof. intros E. unfold try_. by rewrite E. Qed.

(** A transaction whose body cannot fail goes through when nothing outside fails. *)
Lemma with_tx_calm {D O A} now (body : Tx D (TxEnd A)) (w : World D O) :
  w_faults w = [] -> calm body -> exists a w', with_tx now body w = (Ok a, w') /\ w_faults w' = [].
Proof.
  intros Hf Hb. unfold with_tx. rewrite Hf. simpl.
  destruct (Hb (mkTx (w_db w) now false (w_uuid w) (w_next w) [])) as (a & s & E & Ha & Hfs); [done|].
  rewrite E, Ha, Hfs. simpl. destruct a; eauto.
Qed.

(** A run without faults, computed. *)
Lemma with_tx_run {D O A} now (body : Tx D (TxEnd A)) (w : World D O) a s :
  w_faults w = [] -> body (mkTx (w_db w) now false (w_uuid w) (w_next w) []) = (Ok a, s) -> quiet s ->
  with_tx now body w = match a with
    | Commit a => (Ok a, mkWorld (tx_db s) (w_ext w) (w_uuid w) (tx_next s) [])
    | Rollback a => (Ok a, mkWorld (w_db w) (w_ext w) (w_uuid w) (tx_next s) [])
    end.
Proof.
  intros Hf Hb [Ha Hs]. unfold with_tx. rewrite Hf. simpl. rewrite Hb, Ha, Hs. by destruct a.
Qed.

Lemma with_tx_uuid {D O A} now (body : Tx D (TxEnd A)) (w : World D O) r w' :
  with_tx now body w = (r, w') -> w_uuid w' = w_uuid w.
Proof.
  unfold with_tx. destruct (next_fault (w_faults w)) as [[] fs]; [|by intros [= _ <-]..].
  destruct (body _) as [[[a|a]|e] s]; [|by intros [= _ <-]..].
  destruct (next_fault (tx_faults s)) as [f' fs']. destruct (tx_aborted s), f'; by intros [= _ <-].
Qed.

Lemma with_tx_ext {D O A} now (body : Tx D (TxEnd A)) (w : World D O) r w' :
  with_tx now body w = (r, w') -> w_ext w' = w_ext w.
Proof.
  unfold with_tx. destruct (next_fault (w_faults w)) as [[] fs]; [|by intros [= _ <-]..].
  destruct (body _) as [[[a|a]|e] s]; [|by intros [= _ <-]..].
  destruct (next_fault (tx_faults s)) as [f' fs']. destruct (tx_aborted s), f'; by intros [= _ <-].
Qed.

(** The tables after a transaction: untouched, or those of a body that ran to its end. *)
Lemma with_tx_db {D O A} now (body : Tx D (TxEnd A)) (w : World D O) r w' :
  with_tx now body w = (r, w') ->
  w_db w' = w_db w \/
  exists fs a s, body (mkTx (w_db w) now false (w_uuid w) (w_next w) fs) = (Ok (Commit a), s) /\
    w_db w' = tx_db s.
Proof.
  destruct r as [a|e]; intros H.
  - apply with_tx_ok in H as (_ & fs & s & [(Hb & _ & ->)|(_ & ->)]); [right; eauto|by left].
  - apply with_tx_all_or_nothing in H as [->|(fs & a & s & _ & Hb & _ & ->)]; [by left|right; eauto].
Qed.

Create HintDb keeps.
#[export] Hint Resolve keeps_ret keeps_throw keeps_of_res keeps_gets keeps_select
  keeps_select_one keeps_uuid keeps_uuids keeps_external : keeps.

(** [keep] proves [keeps I m] by following the structure of [m]: binds, tries,
    conditionals and matches; the statements are looked up in the [keeps] hints. *)
Ltac keep_step :=
  match goal with
  | |- forall _, _ => intros ?
  | |- keeps _ (mbind _ _) => apply keeps_bind
  | |- keeps _ (try_ _) => apply keeps_try
  | |- keeps _ (ignore _) => apply keeps_ignore
  | |- keeps _ (foldM _ _ _) => apply keeps_foldM
  | |- keeps _ (with_tx _ _) => apply keeps_with_tx
  | |- keeps _ (if ?b then _ else _) => destruct b
  | |- keeps _ (match ?x with _ => _ end) => destruct x
  | |- keeps _ _ => solve [eauto with keeps]
  end.
Ltac keep := repeat keep_step.

Lemma calm_uuid {D} : calm (D := D) gen_random_uuid.
Proof. intros s Hs. by eexists _, _. Qed.

Lemma calm_uuids {D} (count : D -> nat) : calm (gen_random_uuids count).
Proof. intros s Hs. by eexists _, _. Qed.

Create HintDb calm.
#[export] Hint Resolve calm_uuid calm_uuids calm_ret calm_select calm_update calm_bind calm_foldM : calm.

(** [ok_inv H] turns [H : body s = (Ok _, _)] into the steps [body] took. *)
Ltac ok_inv H :=
  lazymatch type of H with
  | mbind _ _ _ = (Ok _, _) =>
      let H1 := fresh "H" in let H2 := fresh "H" in
      apply bind_ok in H as (? & ? & H1 & H2); ok_inv H1; ok_inv H2
  | mret _ _ = (Ok _, _) => apply ret_ok in H as [? ?]; subst
  | throw _ _ = (Ok _, _) => discriminate H
  | select _ _ = (Ok _, _) => apply select_ok in H as [? ?]; subst
  | select_one _ _ = (Ok _, _) => apply select_one_ok in H as [? ?]
  | update _ _ = (Ok _, _) => apply update_ok in H
  | try_ (select_one _) _ = (Ok _, _) => apply try_select_one_ok in H as [? ?]
  | gen_random_uuid _ = (Ok _, _) => apply uuid_ok in H
  | of_res _ _ = (Ok _, _) => apply of_res_ok in H as [? ?]; subst
  | _ => idtac
  end.

(** [run_simpl] carries the tables forward: each [moved] fact rewrites the state
    after a statement into the state before it. *)
Ltac run_simpl :=
  repeat match goal with
  | H : moved _ _ _ |- _ =>
      let a := fresh "Edb" in let b := fresh "Enow" in
      destruct H as [a b]; try rewrite a in *; try rewrite b in *; simpl in *
  end.
