(* ===== verification/Store.v ===== *)
(** * Store: the PostgreSQL tables

    One record per table, with the columns the modelled queries read or write,
    and [DB], the tables of the monitoring schema (db/migrations).  A table with
    a primary key is a [gmap] from the key to the row; a table that is only
    appended to is a list.  A uuid is its canonical text.  Columns that nothing
    reads back (updated_at, created_at where no query orders by it, the generated
    keys of append-only tables) are left out; an enumerated text column is an
    inductive type whose constructors are the values its CHECK allows. *)

From stdpp Require Import base gmap list strings.
From Stdlib Require Import ZArith.
From S2P Require Import Prelude.

(** ** Enumerated columns *)

(** [check_jobs.state]. *)
Inductive job_state : Type :=
| JPending | JPendingPublish | JPublished | JRunning | JCompleted | JCancelled | JExpired | JDead | JQuarantined.

#[global] Instance job_state_eq_dec : EqDecision job_state.
Proof. solve_decision. Defined.

(** [check_jobs.job_type]. *)
Inductive job_type : Type :=
| Scheduled | ManualTest.

#[global] Instance job_type_eq_dec : EqDecision job_type.
Proof. solve_decision. Defined.

(** [check_dispatch_outbox.publish_state]. *)
Inductive publish_state : Type :=
| PPending | PPublishing | PPublished | PAmbiguous | PExpired | PRepaired.

#[global] Instance publish_state_eq_dec : EqDecision publish_state.
Proof. solve_decision. Defined.

(** [observed_state and display_state]. *)
Inductive observed_state : Type :=
| Unknown | Healthy | Degraded | Down.

#[global] Instance observed_state_eq_dec : EqDecision observed_state.
Proof. solve_decision. Defined.

(** [monitoring_coverage_gaps.reason]. *)
Inductive gap_reason : Type :=
| AdmissionLimit | GapExpired | GapDead | Missed.

#[global] Instance gap_reason_eq_dec : EqDecision gap_reason.
Proof. solve_decision. Defined.

(** [notification_outbox.state]. *)
Inductive delivery_state : Type :=
| DPending | DLeased | DAccepted | DFailed.

#[global] Instance delivery_state_eq_dec : EqDecision delivery_state.
Proof. solve_decision. Defined.

(** [incidents.status]. *)
Inductive incident_status : Type :=
| IOpen | IResolved.

#[global] Instance incident_status_eq_dec : EqDecision incident_status.
Proof. solve_decision. Defined.

(** [org_members.role]. *)
Inductive member_role : Type :=
| Owner | Admin | Member | Viewer.

#[global] Instance member_role_eq_dec : EqDecision member_role.
Proof. solve_decision. Defined.

(** [monitor_rollup_invalidations.bucket_kind]. *)
Inductive bucket_kind : Type :=
| Hourly | Daily.

#[global] Instance bucket_kind_eq_dec : EqDecision bucket_kind.
Proof. solve_decision. Defined.

#[global] Instance gap_reason_countable : Countable gap_reason.
Proof.
  refine {|
    encode r := match r with | AdmissionLimit => 1 | GapExpired => 2 | GapDead => 3 | Missed => 4 end%positive;
    decode p := match p with | 1 => Some AdmissionLimit | 2 => Some GapExpired | 3 => Some GapDead | 4 => Some Missed | _ => None end%positive |}.
  by intros [].
Defined.

#[global] Instance bucket_kind_countable : Countable bucket_kind.
Proof.
  refine {|
    encode r := match r with | Hourly => 1 | Daily => 2 end%positive;
    decode p := match p with | 1 => Some Hourly | 2 => Some Daily | _ => None end%positive |}.
  by intros [].
Defined.

(** ** Rows *)

Record Monitor : Type := mkMonitor {
  mon_organization_id : string;
  mon_environment_id : string;
  mon_version : Z;
  mon_target_url : string;
  mon_method : string;
  mon_interval_seconds : Z;
  mon_timeout_seconds : Z;
  mon_expected_status_min : Z;
  mon_expected_status_max : Z;
  mon_next_check_at : Z;
  mon_headers_ciphertext : string;
  mon_header_key_version : option Z;
  mon_worker_pool_id : string;
  mon_paused_at : option Z;
  mon_deleted_at : option Z
}.

Record WorkerPool : Type := mkWorkerPool {
  wp_enabled : bool;
  wp_lifecycle_state : string;
  wp_network_policy_version : Z;
  wp_encryption_key_id : option string;
  wp_encryption_public_key : option string;
  wp_job_queue_url : option string;
  wp_schema_min : Z;
  wp_schema_max : Z;
  wp_result_key_id : option string;
  wp_result_public_key : option string
}.

Record CheckJob : Type := mkCheckJob {
  cj_organization_id : string;
  cj_environment_id : string;
  cj_monitor_id : string;
  cj_job_type : job_type;
  cj_state : job_state;
  cj_scheduled_at : Z;
  cj_started_at : option Z;
  cj_completed_at : option Z;
  cj_created_at : Z;
  cj_monitor_version : Z;
  cj_worker_pool_id : string;
  cj_snapshot_hash : string;
  cj_expires_at : Z;
  cj_worker_id : option string;
  cj_execution_attempt_id : option string;
  cj_sqs_message_id : option string;
  cj_last_safe_error : option string
}.

Record Outbox : Type := mkOutbox {
  ob_worker_pool_id : string;
  ob_queue_url : string;
  ob_message_body : string;
  ob_schema_version : Z;
  ob_platform_key_id : string;
  ob_worker_encryption_key_id : string;
  ob_snapshot_hash : string;
  ob_message_deduplication_id : string;
  ob_message_group_id : string;
  ob_expires_at : Z;
  ob_publish_state : publish_state;
  ob_publish_attempts : Z;
  ob_next_attempt_at : Z;
  ob_publish_lease_token : option string;
  ob_publish_lease_expires_at : option Z;
  ob_sqs_message_id : option string;
  ob_last_safe_error : option string;
  ob_published_at : option Z;
  ob_created_at : Z
}.

Record CoverageGap : Type := mkCoverageGap {
  gap_organization_id : string;
  gap_environment_id : string
}.

Record OperationalEvent : Type := mkOperationalEvent {
  ev_event_type : string;
  ev_job_id : option string;
  ev_worker_pool_id : option string;
  ev_safe_details : string
}.

Record HealthCheck : Type := mkHealthCheck {
  hc_result_id : string;
  hc_organization_id : string;
  hc_environment_id : string;
  hc_monitor_id : string;
  hc_job_type : job_type;
  hc_scheduled_at : Z;
  hc_started_at : Z;
  hc_completed_at : Z;
  hc_succeeded : bool;
  hc_status_code : option Z;
  hc_error_category : option string;
  hc_total_duration_microseconds : Z;
  hc_snapshot_hash : string;
  hc_worker_pool_id : string;
  hc_worker_id : string;
  hc_execution_attempt_id : string;
  hc_dns_duration_microseconds : option Z;
  hc_connect_duration_microseconds : option Z;
  hc_tls_duration_microseconds : option Z;
  hc_first_byte_duration_microseconds : option Z
}.

Record ReliabilityState : Type := mkReliabilityState {
  rs_display_state : observed_state;
  rs_observed_state : observed_state;
  rs_consecutive_failures : Z;
  rs_consecutive_successes : Z;
  rs_last_observed_scheduled_at : option Z;
  rs_last_observed_job_id : option string;
  rs_newest_expected_scheduled_at : option Z;
  rs_last_evaluated_scheduled_at : option Z;
  rs_last_evaluated_job_id : option string
}.

Record Evaluation : Type := mkEvaluation {
  evl_monitor_id : string;
  evl_scheduled_at : Z;
  evl_succeeded : bool;
  evl_observed_state : observed_state;
  evl_consecutive_failures : Z;
  evl_consecutive_successes : Z
}.

Record SchedulePeriod : Type := mkSchedulePeriod {
  per_monitor_id : string;
  per_interval_seconds : Z;
  per_starts_at : Z;
  per_first_slot_at : Z;
  per_ends_at : option Z
}.

Record Correction : Type := mkCorrection {
  cor_corrected_from : Z;
  cor_previous_display_state : observed_state;
  cor_corrected_display_state : observed_state
}.

Record AlertRule : Type := mkAlertRule {
  ar_organization_id : string;
  ar_environment_id : string;
  ar_monitor_id : string;
  ar_failure_threshold : Z;
  ar_recovery_threshold : Z;
  ar_enabled : bool
}.

Record IncidentRow : Type := mkIncidentRow {
  inc_organization_id : string;
  inc_environment_id : string;
  inc_monitor_id : string;
  inc_alert_rule_id : string;
  inc_status : incident_status;
  inc_started_at : Z;
  inc_opened_at : Z;
  inc_acknowledged_at : option Z;
  inc_acknowledged_by_user_id : option string;
  inc_resolved_at : option Z;
  inc_resolved_by_user_id : option string;
  inc_resolution_kind : option string;
  inc_resolution_reason : option string
}.

Record IncidentEvent : Type := mkIncidentEvent {
  iev_organization_id : string;
  iev_environment_id : string;
  iev_incident_id : string;
  iev_event_key : string;
  iev_event_type : string;
  iev_actor_user_id : option string;
  iev_source_job_id : option string;
  iev_safe_reason : option string;
  iev_occurred_at : Z
}.

Record NotificationRow : Type := mkNotificationRow {
  nt_organization_id : string;
  nt_incident_id : string;
  nt_incident_event_id : string;
  nt_recipient_user_id : string;
  nt_recipient_email : string;
  nt_transition : string;
  nt_state : delivery_state;
  nt_attempt_count : Z;
  nt_next_attempt_at : Z;
  nt_lease_owner : option string;
  nt_lease_token : option string;
  nt_lease_expires_at : option Z;
  nt_provider_message_id : option string;
  nt_last_provider_status : option string;
  nt_accepted_at : option Z;
  nt_failed_at : option Z;
  nt_created_at : Z
}.

Record NotificationAttempt : Type := mkNotificationAttempt {
  na_outcome : string;
  na_provider_status : string;
  na_attempted_at : Z
}.

Record RefreshEvent : Type := mkRefreshEvent {
  re_organization_id : string;
  re_environment_id : string;
  re_event_type : string;
  re_resource_type : string;
  re_resource_id : string
}.

Record OrgMember : Type := mkOrgMember {
  om_role : member_role;
  om_incident_notifications_enabled : bool
}.

Record UserRow : Type := mkUserRow {
  usr_email : string;
  usr_email_verified_at : option Z
}.

Record Conflict : Type := mkConflict {
  cf_job_id : string;
  cf_worker_pool_id : string;
  cf_snapshot_hash : string;
  cf_encrypted_payload : string
}.

Record Quarantined : Type := mkQuarantined {
  qr_job_id : option string;
  qr_result_id : option string;
  qr_worker_pool_id : option string;
  qr_snapshot_hash : option string;
  qr_safe_reason : string;
  qr_encrypted_payload : string
}.

Record Credential : Type := mkCredential {
  cr_worker_pool_id : string;
  cr_key_id : string;
  cr_public_material : option string;
  cr_purpose : string;
  cr_status : string;
  cr_activates_at : Z
}.

(** ** The database *)

Record DB : Type := mkDB {
  monitors : gmap string Monitor;
  worker_pools : gmap string WorkerPool;
  credentials : list Credential;
  check_jobs : gmap string CheckJob;
  outbox : gmap string Outbox;
  coverage_gaps : gmap (string * Z * gap_reason) CoverageGap;
  operational_events : list OperationalEvent;
  health_checks : gmap string HealthCheck;
  reliability_states : gmap string ReliabilityState;
  evaluations : gmap string Evaluation;
  schedule_periods : list SchedulePeriod;
  evaluation_positions : gmap string (Z * option string);
  corrections : gmap (string * string) Correction;
  alert_rules : gmap string AlertRule;
  incidents : gmap string IncidentRow;
  incident_events : gmap string IncidentEvent;
  notification_outbox : gmap string NotificationRow;
  notification_attempts : gmap (string * Z) NotificationAttempt;
  refresh_events : list RefreshEvent;
  org_members : gmap (string * string) OrgMember;
  users : gmap string UserRow;
  rollup_invalidations : gmap (string * bucket_kind * Z) string;
  conflicts : gmap string Conflict;
  quarantine : list Quarantined
}.

Definition on_monitors (f : gmap string Monitor -> gmap string Monitor) (d : DB) : DB :=
  mkDB (f (monitors d)) (worker_pools d) (credentials d) (check_jobs d) (outbox d) (coverage_gaps d) (operational_events d) (health_checks d) (reliability_states d) (evaluations d) (schedule_periods d) (evaluation_positions d) (corrections d) (alert_rules d) (incidents d) (incident_events d) (notification_outbox d) (notification_attempts d) (refresh_events d) (org_members d) (users d) (rollup_invalidations d) (conflicts d) (quarantine d).

Definition on_worker_pools (f : gmap string WorkerPool -> gmap string WorkerPool) (d : DB) : DB :=
  mkDB (monitors d) (f (worker_pools d)) (credentials d) (check_jobs d) (outbox d) (coverage_gaps d) (operational_events d) (health_checks d) (reliability_states d) (evaluations d) (schedule_periods d) (evaluation_positions d) (corrections d) (alert_rules d) (incidents d) (incident_events d) (notification_outbox d) (notification_attempts d) (refresh_events d) (org_members d) (users d) (rollup_invalidations d) (conflicts d) (quarantine d).

Definition on_credentials (f : list Credential -> list Credential) (d : DB) : DB :=
  mkDB (monitors d) (worker_pools d) (f (credentials d)) (check_jobs d) (outbox d) (coverage_gaps d) (operational_events d) (health_checks d) (reliability_states d) (evaluations d) (schedule_periods d) (evaluation_positions d) (corrections d) (alert_rules d) (incidents d) (incident_events d) (notification_outbox d) (notification_attempts d) (refresh_events d) (org_members d) (users d) (rollup_invalidations d) (conflicts d) (quarantine d).

Definition on_check_jobs (f : gmap string CheckJob -> gmap string CheckJob) (d : DB) : DB :=
  mkDB (monitors d) (worker_pools d) (credentials d) (f (check_jobs d)) (outbox d) (coverage_gaps d) (operational_events d) (health_checks d) (reliability_states d) (evaluations d) (schedule_periods d) (evaluation_positions d) (corrections d) (alert_rules d) (incidents d) (incident_events d) (notification_outbox d) (notification_attempts d) (refresh_events d) (org_members d) (users d) (rollup_invalidations d) (conflicts d) (quarantine d).

Definition on_outbox (f : gmap string Outbox -> gmap string Outbox) (d : DB) : DB :=
  mkDB (monitors d) (worker_pools d) (credentials d) (check_jobs d) (f (outbox d)) (coverage_gaps d) (operational_events d) (health_checks d) (reliability_states d) (evaluations d) (schedule_periods d) (evaluation_positions d) (corrections d) (alert_rules d) (incidents d) (incident_events d) (notification_outbox d) (notification_attempts d) (refresh_events d) (org_members d) (users d) (rollup_invalidations d) (conflicts d) (quarantine d).

Definition on_coverage_gaps (f : gmap (string * Z * gap_reason) CoverageGap -> gmap (string * Z * gap_reason) CoverageGap) (d : DB) : DB :=
  mkDB (monitors d) (worker_pools d) (credentials d) (check_jobs d) (outbox d) (f (coverage_gaps d)) (operational_events d) (health_checks d) (reliability_states d) (evaluations d) (schedule_periods d) (evaluation_positions d) (corrections d) (alert_rules d) (incidents d) (incident_events d) (notification_outbox d) (notification_attempts d) (refresh_events d) (org_members d) (users d) (rollup_invalidations d) (conflicts d) (quarantine d).

Definition on_operational_events (f : list OperationalEvent -> list OperationalEvent) (d : DB) : DB :=
  mkDB (monitors d) (worker_pools d) (credentials d) (check_jobs d) (outbox d) (coverage_gaps d) (f (operational_events d)) (health_checks d) (reliability_states d) (evaluations d) (schedule_periods d) (evaluation_positions d) (corrections d) (alert_rules d) (incidents d) (incident_events d) (notification_outbox d) (notification_attempts d) (refresh_events d) (org_members d) (users d) (rollup_invalidations d) (conflicts d) (quarantine d).

Definition on_health_checks (f : gmap string HealthCheck -> gmap string HealthCheck) (d : DB) : DB :=
  mkDB (monitors d) (worker_pools d) (credentials d) (check_jobs d) (outbox d) (coverage_gaps d) (operational_events d) (f (health_checks d)) (reliability_states d) (evaluations d) (schedule_periods d) (evaluation_positions d) (corrections d) (alert_rules d) (incidents d) (incident_events d) (notification_outbox d) (notification_attempts d) (refresh_events d) (org_members d) (users d) (rollup_invalidations d) (conflicts d) (quarantine d).

Definition on_reliability_states (f : gmap string ReliabilityState -> gmap string ReliabilityState) (d : DB) : DB :=
  mkDB (monitors d) (worker_pools d) (credentials d) (check_jobs d) (outbox d) (coverage_gaps d) (operational_events d) (health_checks d) (f (reliability_states d)) (evaluations d) (schedule_periods d) (evaluation_positions d) (corrections d) (alert_rules d) (incidents d) (incident_events d) (notification_outbox d) (notification_attempts d) (refresh_events d) (org_members d) (users d) (rollup_invalidations d) (conflicts d) (quarantine d).

Definition on_evaluations (f : gmap string Evaluation -> gmap string Evaluation) (d : DB) : DB :=
  mkDB (monitors d) (worker_pools d) (credentials d) (check_jobs d) (outbox d) (coverage_gaps d) (operational_events d) (health_checks d) (reliability_states d) (f (evaluations d)) (schedule_periods d) (evaluation_positions d) (corrections d) (alert_rules d) (incidents d) (incident_events d) (notification_outbox d) (notification_attempts d) (refresh_events d) (org_members d) (users d) (rollup_invalidations d) (conflicts d) (quarantine d).

Definition on_schedule_periods (f : list SchedulePeriod -> list SchedulePeriod) (d : DB) : DB :=
  mkDB (monitors d) (worker_pools d) (credentials d) (check_jobs d) (outbox d) (coverage_gaps d) (operational_events d) (health_checks d) (reliability_states d) (evaluations d) (f (schedule_periods d)) (evaluation_positions d) (corrections d) (alert_rules d) (incidents d) (incident_events d) (notification_outbox d) (notification_attempts d) (refresh_events d) (org_members d) (users d) (rollup_invalidations d) (conflicts d) (quarantine d).

Definition on_evaluation_positions (f : gmap string (Z * option string) -> gmap string (Z * option string)) (d : DB) : DB :=
  mkDB (monitors d) (worker_pools d) (credentials d) (check_jobs d) (outbox d) (coverage_gaps d) (operational_events d) (health_checks d) (reliability_states d) (evaluations d) (schedule_periods d) (f (evaluation_positions d)) (corrections d) (alert_rules d) (incidents d) (incident_events d) (notification_outbox d) (notification_attempts d) (refresh_events d) (org_members d) (users d) (rollup_invalidations d) (conflicts d) (quarantine d).

Definition on_corrections (f : gmap (string * string) Correction -> gmap (string * string) Correction) (d : DB) : DB :=
  mkDB (monitors d) (worker_pools d) (credentials d) (check_jobs d) (outbox d) (coverage_gaps d) (operational_events d) (health_checks d) (reliability_states d) (evaluations d) (schedule_periods d) (evaluation_positions d) (f (corrections d)) (alert_rules d) (incidents d) (incident_events d) (notification_outbox d) (notification_attempts d) (refresh_events d) (org_members d) (users d) (rollup_invalidations d) (conflicts d) (quarantine d).

Definition on_alert_rules (f : gmap string AlertRule -> gmap string AlertRule) (d : DB) : DB :=
  mkDB (monitors d) (worker_pools d) (credentials d) (check_jobs d) (outbox d) (coverage_gaps d) (operational_events d) (health_checks d) (reliability_states d) (evaluations d) (schedule_periods d) (evaluation_positions d) (corrections d) (f (alert_rules d)) (incidents d) (incident_events d) (notification_outbox d) (notification_attempts d) (refresh_events d) (org_members d) (users d) (rollup_invalidations d) (conflicts d) (quarantine d).

Definition on_incidents (f : gmap string IncidentRow -> gmap string IncidentRow) (d : DB) : DB :=
  mkDB (monitors d) (worker_pools d) (credentials d) (check_jobs d) (outbox d) (coverage_gaps d) (operational_events d) (health_checks d) (reliability_states d) (evaluations d) (schedule_periods d) (evaluation_positions d) (corrections d) (alert_rules d) (f (incidents d)) (incident_events d) (notification_outbox d) (notification_attempts d) (refresh_events d) (org_members d) (users d) (rollup_invalidations d) (conflicts d) (quarantine d).

Definition on_incident_events (f : gmap string IncidentEvent -> gmap string IncidentEvent) (d : DB) : DB :=
  mkDB (monitors d) (worker_pools d) (credentials d) (check_jobs d) (outbox d) (coverage_gaps d) (operational_events d) (health_checks d) (reliability_states d) (evaluations d) (schedule_periods d) (evaluation_positions d) (corrections d) (alert_rules d) (incidents d) (f (incident_events d)) (notification_outbox d) (notification_attempts d) (refresh_events d) (org_members d) (users d) (rollup_invalidations d) (conflicts d) (quarantine d).

Definition on_notification_outbox (f : gmap string NotificationRow -> gmap string NotificationRow) (d : DB) : DB :=
  mkDB (monitors d) (worker_pools d) (credentials d) (check_jobs d) (outbox d) (coverage_gaps d) (operational_events d) (health_checks d) (reliability_states d) (evaluations d) (schedule_periods d) (evaluation_positions d) (corrections d) (alert_rules d) (incidents d) (incident_events d) (f (notification_outbox d)) (notification_attempts d) (refresh_events d) (org_members d) (users d) (rollup_invalidations d) (conflicts d) (quarantine d).

Definition on_notification_attempts (f : gmap (string * Z) NotificationAttempt -> gmap (string * Z) NotificationAttempt) (d : DB) : DB :=
  mkDB (monitors d) (worker_pools d) (credentials d) (check_jobs d) (outbox d) (coverage_gaps d) (operational_events d) (health_checks d) (reliability_states d) (evaluations d) (schedule_periods d) (evaluation_positions d) (corrections d) (alert_rules d) (incidents d) (incident_events d) (notification_outbox d) (f (notification_attempts d)) (refresh_events d) (org_members d) (users d) (rollup_invalidations d) (conflicts d) (quarantine d).

Definition on_refresh_events (f : list RefreshEvent -> list RefreshEvent) (d : DB) : DB :=
  mkDB (monitors d) (worker_pools d) (credentials d) (check_jobs d) (outbox d) (coverage_gaps d) (operational_events d) (health_checks d) (reliability_states d) (evaluations d) (schedule_periods d) (evaluation_positions d) (corrections d) (alert_rules d) (incidents d) (incident_events d) (notification_outbox d) (notification_attempts d) (f (refresh_events d)) (org_members d) (users d) (rollup_invalidations d) (conflicts d) (quarantine d).

Definition on_org_members (f : gmap (string * string) OrgMember -> gmap (string * string) OrgMember) (d : DB) : DB :=
  mkDB (monitors d) (worker_pools d) (credentials d) (check_jobs d) (outbox d) (coverage_gaps d) (operational_events d) (health_checks d) (reliability_states d) (evaluations d) (schedule_periods d) (evaluation_positions d) (corrections d) (alert_rules d) (incidents d) (incident_events d) (notification_outbox d) (notification_attempts d) (refresh_events d) (f (org_members d)) (users d) (rollup_invalidations d) (conflicts d) (quarantine d).

Definition on_users (f : gmap string UserRow -> gmap string UserRow) (d : DB) : DB :=
  mkDB (monitors d) (worker_pools d) (credentials d) (check_jobs d) (outbox d) (coverage_gaps d) (operational_events d) (health_checks d) (reliability_states d) (evaluations d) (schedule_periods d) (evaluation_positions d) (corrections d) (alert_rules d) (incidents d) (incident_events d) (notification_outbox d) (notification_attempts d) (refresh_events d) (org_members d) (f (users d)) (rollup_invalidations d) (conflicts d) (quarantine d).

Definition on_rollup_invalidations (f : gmap (string * bucket_kind * Z) string -> gmap (string * bucket_kind * Z) string) (d : DB) : DB :=
  mkDB (monitors d) (worker_pools d) (credentials d) (check_jobs d) (outbox d) (coverage_gaps d) (operational_events d) (health_checks d) (reliability_states d) (evaluations d) (schedule_periods d) (evaluation_positions d) (corrections d) (alert_rules d) (incidents d) (incident_events d) (notification_outbox d) (notification_attempts d) (refresh_events d) (org_members d) (users d) (f (rollup_invalidations d)) (conflicts d) (quarantine d).

Definition on_conflicts (f : gmap string Conflict -> gmap string Conflict) (d : DB) : DB :=
  mkDB (monitors d) (worker_pools d) (credentials d) (check_jobs d) (outbox d) (coverage_gaps d) (operational_events d) (health_checks d) (reliability_states d) (evaluations d) (schedule_periods d) (evaluation_positions d) (corrections d) (alert_rules d) (incidents d) (incident_events d) (notification_outbox d) (notification_attempts d) (refresh_events d) (org_members d) (users d) (rollup_invalidations d) (f (conflicts d)) (quarantine d).

Definition on_quarantine (f : list Quarantined -> list Quarantined) (d : DB) : DB :=
  mkDB (monitors d) (worker_pools d) (credentials d) (check_jobs d) (outbox d) (coverage_gaps d) (operational_events d) (health_checks d) (reliability_states d) (evaluations d) (schedule_periods d) (evaluation_positions d) (corrections d) (alert_rules d) (incidents d) (incident_events d) (notification_outbox d) (notification_attempts d) (refresh_events d) (org_members d) (users d) (rollup_invalidations d) (conflicts d) (f (quarantine d)).

Definition empty_db : DB :=
  mkDB ∅ ∅ [] ∅ ∅ ∅ [] ∅ ∅ ∅ [] ∅ ∅ ∅ ∅ ∅ ∅ ∅ [] ∅ ∅ ∅ ∅ [].

(** ** Column updates

    The SET clauses of the modelled UPDATE statements. *)

Definition set_mon_next_check_at (t : Z) (r : Monitor) : Monitor :=
  mkMonitor (mon_organization_id r) (mon_environment_id r) (mon_version r) (mon_target_url r) (mon_method r) (mon_interval_seconds r) (mon_timeout_seconds r) (mon_expected_status_min r) (mon_expected_status_max r) (t) (mon_headers_ciphertext r) (mon_header_key_version r) (mon_worker_pool_id r) (mon_paused_at r) (mon_deleted_at r).

Definition set_job_state (st : job_state) (c : option Z) (e : option string) (r : CheckJob) : CheckJob :=
  mkCheckJob (cj_organization_id r) (cj_environment_id r) (cj_monitor_id r) (cj_job_type r) (st) (cj_scheduled_at r) (cj_started_at r) (c) (cj_created_at r) (cj_monitor_version r) (cj_worker_pool_id r) (cj_snapshot_hash r) (cj_expires_at r) (cj_worker_id r) (cj_execution_attempt_id r) (cj_sqs_message_id r) (e).

Definition set_job_published (m : string) (r : CheckJob) : CheckJob :=
  mkCheckJob (cj_organization_id r) (cj_environment_id r) (cj_monitor_id r) (cj_job_type r) (JPublished) (cj_scheduled_at r) (cj_started_at r) (cj_completed_at r) (cj_created_at r) (cj_monitor_version r) (cj_worker_pool_id r) (cj_snapshot_hash r) (cj_expires_at r) (cj_worker_id r) (cj_execution_attempt_id r) (Some m) (cj_last_safe_error r).

Definition set_job_completed (s c : Z) (w a : string) (r : CheckJob) : CheckJob :=
  mkCheckJob (cj_organization_id r) (cj_environment_id r) (cj_monitor_id r) (cj_job_type r) (JCompleted) (cj_scheduled_at r) (Some s) (Some c) (cj_created_at r) (cj_monitor_version r) (cj_worker_pool_id r) (cj_snapshot_hash r) (cj_expires_at r) (Some w) (Some a) (cj_sqs_message_id r) (None).

Definition set_ob_claimed (tok : string) (exp : Z) (r : Outbox) : Outbox :=
  mkOutbox (ob_worker_pool_id r) (ob_queue_url r) (ob_message_body r) (ob_schema_version r) (ob_platform_key_id r) (ob_worker_encryption_key_id r) (ob_snapshot_hash r) (ob_message_deduplication_id r) (ob_message_group_id r) (ob_expires_at r) (PPublishing) (ob_publish_attempts r + 1) (ob_next_attempt_at r) (Some tok) (Some exp) (ob_sqs_message_id r) (ob_last_safe_error r) (ob_published_at r) (ob_created_at r).

Definition set_ob_released (st : publish_state) (e : option string) (r : Outbox) : Outbox :=
  mkOutbox (ob_worker_pool_id r) (ob_queue_url r) (ob_message_body r) (ob_schema_version r) (ob_platform_key_id r) (ob_worker_encryption_key_id r) (ob_snapshot_hash r) (ob_message_deduplication_id r) (ob_message_group_id r) (ob_expires_at r) (st) (ob_publish_attempts r) (ob_next_attempt_at r) (None) (None) (ob_sqs_message_id r) (e) (ob_published_at r) (ob_created_at r).

Definition set_ob_retry (st : publish_state) (next : Z) (e : option string) (r : Outbox) : Outbox :=
  mkOutbox (ob_worker_pool_id r) (ob_queue_url r) (ob_message_body r) (ob_schema_version r) (ob_platform_key_id r) (ob_worker_encryption_key_id r) (ob_snapshot_hash r) (ob_message_deduplication_id r) (ob_message_group_id r) (ob_expires_at r) (st) (ob_publish_attempts r) (next) (None) (None) (ob_sqs_message_id r) (e) (ob_published_at r) (ob_created_at r).

Definition set_ob_published (m : string) (now : Z) (r : Outbox) : Outbox :=
  mkOutbox (ob_worker_pool_id r) (ob_queue_url r) (ob_message_body r) (ob_schema_version r) (ob_platform_key_id r) (ob_worker_encryption_key_id r) (ob_snapshot_hash r) (ob_message_deduplication_id r) (ob_message_group_id r) (ob_expires_at r) (PPublished) (ob_publish_attempts r) (ob_next_attempt_at r) (None) (None) (Some m) (None) (Some now) (ob_created_at r).

Definition set_ob_state (st : publish_state) (r : Outbox) : Outbox :=
  mkOutbox (ob_worker_pool_id r) (ob_queue_url r) (ob_message_body r) (ob_schema_version r) (ob_platform_key_id r) (ob_worker_encryption_key_id r) (ob_snapshot_hash r) (ob_message_deduplication_id r) (ob_message_group_id r) (ob_expires_at r) (st) (ob_publish_attempts r) (ob_next_attempt_at r) (ob_publish_lease_token r) (ob_publish_lease_expires_at r) (ob_sqs_message_id r) (ob_last_safe_error r) (ob_published_at r) (ob_created_at r).

Definition set_nt_pending (now : Z) (r : NotificationRow) : NotificationRow :=
  mkNotificationRow (nt_organization_id r) (nt_incident_id r) (nt_incident_event_id r) (nt_recipient_user_id r) (nt_recipient_email r) (nt_transition r) (DPending) (nt_attempt_count r) (Z.min (nt_next_attempt_at r) now) (None) (None) (None) (nt_provider_message_id r) (nt_last_provider_status r) (nt_accepted_at r) (nt_failed_at r) (nt_created_at r).

Definition set_nt_leased (owner tok : string) (exp : Z) (r : NotificationRow) : NotificationRow :=
  mkNotificationRow (nt_organization_id r) (nt_incident_id r) (nt_incident_event_id r) (nt_recipient_user_id r) (nt_recipient_email r) (nt_transition r) (DLeased) (nt_attempt_count r) (nt_next_attempt_at r) (Some owner) (Some tok) (Some exp) (nt_provider_message_id r) (nt_last_provider_status r) (nt_accepted_at r) (nt_failed_at r) (nt_created_at r).

Definition set_nt_accepted (n : Z) (msg status : string) (at_ : Z) (r : NotificationRow) : NotificationRow :=
  mkNotificationRow (nt_organization_id r) (nt_incident_id r) (nt_incident_event_id r) (nt_recipient_user_id r) (nt_recipient_email r) (nt_transition r) (DAccepted) (n) (nt_next_attempt_at r) (None) (None) (None) (Some msg) (Some status) (Some at_) (nt_failed_at r) (nt_created_at r).

Definition set_nt_attempted (st : delivery_state) (n next : Z) (status : string) (at_ : Z) (r : NotificationRow) : NotificationRow :=
  mkNotificationRow (nt_organization_id r) (nt_incident_id r) (nt_incident_event_id r) (nt_recipient_user_id r) (nt_recipient_email r) (nt_transition r) (st) (n) (next) (None) (None) (None) (nt_provider_message_id r) (Some status) (nt_accepted_at r) (if decide (st = DFailed) then Some at_ else None) (nt_created_at r).

Definition set_inc_resolved (at_ : Z) (actor : option string) (kind : string) (reason : option string) (r : IncidentRow) : IncidentRow :=
  mkIncidentRow (inc_organization_id r) (inc_environment_id r) (inc_monitor_id r) (inc_alert_rule_id r) (IResolved) (inc_started_at r) (inc_opened_at r) (inc_acknowledged_at r) (inc_acknowledged_by_user_id r) (Some at_) (actor) (Some kind) (reason).

Definition set_inc_acknowledged (at_ : Z) (user : string) (r : IncidentRow) : IncidentRow :=
  mkIncidentRow (inc_organization_id r) (inc_environment_id r) (inc_monitor_id r) (inc_alert_rule_id r) (inc_status r) (inc_started_at r) (inc_opened_at r) (Some at_) (Some user) (inc_resolved_at r) (inc_resolved_by_user_id r) (inc_resolution_kind r) (inc_resolution_reason r).

Definition set_evl_state (st : observed_state) (f s : Z) (r : Evaluation) : Evaluation :=
  mkEvaluation (evl_monitor_id r) (evl_scheduled_at r) (evl_succeeded r) (st) (f) (s).

(** Rows deleted one by one. *)
Lemma lookup_foldr_delete {K V} `{Countable K} (l : list K) (t : gmap K V) i :
  i ∉ l -> foldr delete t l !! i = t !! i.
Proof.
  induction l as [|x l IH]; [done|]. intros [Hx Hl]%not_elem_of_cons. simpl.
  rewrite lookup_delete_ne by done. by apply IH.
Qed.
