(* ===== verification/Reliability.v ===== *)
(** * Reliability: ordered evaluation of accepted results

    Models internal/reliability (evaluation.go, service.go) with the queries of
    db/queries/reliability.sql it runs.  [evaluateTx] keeps, per monitor, the
    observed state after the last evaluated result and one evaluation row per
    evaluated result; a result that arrives out of order makes it delete the
    evaluations from that slot on and evaluate again from the row before it.

    The reference is [replay]: run the state machine over the results in slot
    order, from the initial state.  The main theorems say that the incremental
    evaluation, in order or corrected, is [replay]. *)

From stdpp Require Import base gmap list strings sorting.
From Stdlib Require Import ZArith QArith Lia.
From S2P Require Import Prelude Tx Store.

#[local] Open Scope Z_scope.

(** ** The state machine *)

Definition failureThreshold : Z := 3.
Definition recoveryThreshold : Z := 2.
Definition correctionWindow : Z := 10 * minute.

Definition advanceObservedState (state : observed_state) (failures successes : Z)
    (succeeded : bool) (failureLimit recoveryLimit : Z) : observed_state * Z * Z :=
  if succeeded then
    if decide (state = Down) then
      let successes := successes + 1 in
      if recoveryLimit <=? successes then (Healthy, 0, 0) else (Down, 0, successes)
    else (Healthy, 0, 0)
  else
    let failures := if failures <? failureLimit then failures + 1 else failures in
    if failureLimit <=? failures then (Down, failureLimit, 0) else (Degraded, failures, 0).

Definition orderAfter (leftTime : Z) (leftID : string) (rightTime : Z) (rightID : string) : bool :=
  after leftTime rightTime
  || (time_equal leftTime rightTime && bool_decide (str_lt rightID leftID)).

(** ** Queries *)

(** [INSERT ... ON CONFLICT DO NOTHING] with the column defaults. *)
Definition ensure_state (m : string) (d : DB) : DB :=
  match monitors d !! m, reliability_states d !! m with
  | Some _, None =>
      on_reliability_states <[m := mkReliabilityState Unknown Unknown 0 0 None None None None None]> d
  | _, _ => d
  end.

Definition EnsureMonitorReliabilityState (m : string) : Tx DB () :=
  update (fun _ => ensure_state m).

Definition LockMonitorReliabilityState (m : string) : Tx DB ReliabilityState :=
  select_one (fun _ d => reliability_states d !! m).

(** The enabled rule of a monitor (there is one rule key, unique per monitor). *)
Definition enabled_rule (m : string) (d : DB) : option (string * AlertRule) :=
  head (filter (fun x => ar_monitor_id x.2 = m /\ ar_enabled x.2 = true) (map_to_list (alert_rules d))).

Definition GetMonitorAlertThresholds (m : string) : Tx DB (Z * Z) := select_one (fun _ d =>
  (fun x => (ar_failure_threshold x.2, ar_recovery_threshold x.2)) <$> enabled_rule m d).

(** The evaluation rows of a monitor, with the key they are ordered by. *)
Definition evaluations_of (m : string) (d : DB) : list (slot_key * Evaluation) :=
  (fun x => ((evl_scheduled_at x.2, x.1), x.2)) <$>
    filter (fun x => evl_monitor_id x.2 = m) (map_to_list (evaluations d)).

Definition GetReliabilityBaselineBefore (m : string) (k : slot_key) :
    Tx DB (slot_key * Evaluation) :=
  select_one (fun _ d => last (order_by_key (filter (fun x => key_lt x.1 k) (evaluations_of m d)))).

Definition DeleteReliabilityEvaluationsFrom (m : string) (k : slot_key) : Tx DB () :=
  update (fun _ => on_evaluations (filter (fun x =>
    ~ (evl_monitor_id x.2 = m /\ key_le k (evl_scheduled_at x.2, x.1))))).

(** The accepted scheduled results of a monitor: slot key and outcome. *)
Definition scheduled_checks (m : string) (d : DB) : list (slot_key * bool) :=
  (fun x => ((hc_scheduled_at x.2, x.1), hc_succeeded x.2)) <$>
    filter (fun x => hc_monitor_id x.2 = m /\ hc_job_type x.2 = Scheduled)
      (map_to_list (health_checks d)).

Definition ListAllScheduledHealthChecks (m : string) : Tx DB (list (slot_key * bool)) :=
  select (fun _ d => order_by_key (scheduled_checks m d)).
Definition ListScheduledHealthChecksFrom (m : string) (k : slot_key) : Tx DB (list (slot_key * bool)) :=
  select (fun _ d => order_by_key (filter (fun x => key_le k x.1) (scheduled_checks m d))).
Definition ListScheduledHealthChecksAfter (m : string) (k : slot_key) : Tx DB (list (slot_key * bool)) :=
  select (fun _ d => order_by_key (filter (fun x => key_lt k x.1) (scheduled_checks m d))).

(** [INSERT ... ON CONFLICT (job_id) DO UPDATE] of state and counters. *)
Definition UpsertMonitorResultEvaluation (m : string) (k : slot_key) (succeeded : bool)
    (st : observed_state) (failures successes : Z) : Tx DB () := update (fun _ d =>
  on_evaluations (fun t =>
    match t !! k.2 with
    | Some e => <[k.2 := set_evl_state st failures successes e]> t
    | None => <[k.2 := mkEvaluation m k.1 succeeded st failures successes]> t
    end) d).

(** The last element of [generate_series(first_slot_at, stop, interval)], where
    [stop] is the evaluation time or the last microsecond of the period. *)
Definition last_slot (evaluated_at : Z) (p : SchedulePeriod) : option Z :=
  let stop := match per_ends_at p with
              | Some e => Z.min (e - microsecond) evaluated_at
              | None => evaluated_at
              end in
  let step := per_interval_seconds p * second in
  if per_first_slot_at p <=? stop
  then Some (per_first_slot_at p + (stop - per_first_slot_at p) / step * step)
  else None.

Definition option_max (a b : option Z) : option Z :=
  match a, b with
  | Some x, Some y => Some (Z.max x y)
  | Some x, None => Some x
  | None, b => b
  end.

Definition newest_expected (m : string) (evaluated_at : Z) (d : DB) : option Z :=
  foldr option_max None (last_slot evaluated_at <$>
    filter (fun p => per_monitor_id p = m /\ per_starts_at p <= evaluated_at) (schedule_periods d)).

Definition GetNewestExpectedMonitorSlot (m : string) (evaluated_at : Z) : Tx DB Z :=
  select_one (fun _ d => newest_expected m evaluated_at d).

Definition evaluation_at (m : string) (slot : Z) (d : DB) : option (slot_key * Evaluation) :=
  last (order_by_key (filter (fun x => x.1.1 = slot) (evaluations_of m d))).

Definition GetMonitorEvaluationAtSlot (m : string) (slot : Z) : Tx DB (slot_key * Evaluation) :=
  select_one (fun _ d => evaluation_at m slot d).

Definition UpdateMonitorReliabilityState (m : string) (display observed : observed_state)
    (failures successes : Z) (lastAt : option Z) (lastJob : option string)
    (newest : option Z) (evaluatedJob : option string) : Tx DB () := update (fun _ =>
  on_reliability_states (alter (fun _ =>
    mkReliabilityState display observed failures successes lastAt lastJob newest newest evaluatedJob) m)).

Definition UpsertMonitorEvaluationPosition (m : string) (at_ : Z) (job : option string) : Tx DB () :=
  update (fun _ => on_evaluation_positions <[m := (at_, job)]>).

Definition InsertMonitorStateCorrection (m job : string) (from : Z) (prev corrected : observed_state) :
    Tx DB () := update (fun _ => on_corrections (fun t =>
  match t !! (m, job) with
  | Some _ => t
  | None => <[(m, job) := mkCorrection from prev corrected]> t
  end)).

(** ** Evaluation *)

Record stateSnapshot : Type := mkSnapshot {
  ss_display : observed_state;
  ss_observed : observed_state;
  ss_failures : Z;
  ss_successes : Z;
  ss_last : option slot_key       (* lastObservedAt with lastObservedJob *)
}.

(** The pair of nullable columns is set or null together (CHECK of migration 12). *)
Definition last_observed (r : ReliabilityState) : option slot_key :=
  match rs_last_observed_scheduled_at r, rs_last_observed_job_id r with
  | Some t, Some j => Some (t, j)
  | _, _ => None
  end.

Definition snapshot_of (r : ReliabilityState) : stateSnapshot :=
  mkSnapshot (rs_display_state r) (rs_observed_state r) (rs_consecutive_failures r)
    (rs_consecutive_successes r) (last_observed r).

(** The body of the loop over the listed results. *)
Definition evaluate_result (m : string) (failureLimit recoveryLimit : Z)
    (st : observed_state * Z * Z * option slot_key) (r : slot_key * bool) :
    Tx DB (observed_state * Z * Z * option slot_key) :=
  let '(observed, failures, successes, _) := st in
  let '(observed, failures, successes) :=
    advanceObservedState observed failures successes r.2 failureLimit recoveryLimit in
  _ ← UpsertMonitorResultEvaluation m r.1 r.2 observed (int16 failures) (int16 successes);
  mret (observed, failures, successes, Some r.1).

(** Where evaluation restarts: the current state, or, for a correction, the
    evaluation before the accepted slot; the evaluations from there on go. *)
Definition rewind (m : string) (accepted : slot_key) : Tx DB stateSnapshot :=
  previous ← try_ (GetReliabilityBaselineBefore m accepted);
  baseline ← match previous with
    | Ok (k, e) => mret (mkSnapshot Unknown (evl_observed_state e) (evl_consecutive_failures e)
                           (evl_consecutive_successes e) (Some k))
    | Err ErrNoRows => mret (mkSnapshot Unknown Unknown 0 0 None)
    | Err e => throw e
    end;
  _ ← DeleteReliabilityEvaluationsFrom m accepted;
  mret baseline.

(** The displayed state is the evaluation at the newest expected slot. *)
Definition display_at (m : string) (now : Z) :
    Tx DB (observed_state * option string * option Z) :=
  newest ← try_ (GetNewestExpectedMonitorSlot m now);
  match newest with
  | Ok slot =>
      evaluation ← try_ (GetMonitorEvaluationAtSlot m slot);
      match evaluation with
      | Ok (k, e) => mret (evl_observed_state e, Some k.2, Some slot)
      | Err ErrNoRows => mret (Unknown, None, Some slot)
      | Err e => throw e
      end
  | Err ErrNoRows => mret (Unknown, None, None)
  | Err e => throw e
  end.

Definition alert_limits (m : string) : Tx DB (Z * Z) :=
  thresholds ← try_ (GetMonitorAlertThresholds m);
  match thresholds with
  | Ok (f, r) => mret (f, r)
  | Err ErrNoRows => mret (failureThreshold, recoveryThreshold)
  | Err e => throw e
  end.

Definition is_correction (accepted : option slot_key) (current : stateSnapshot) : option slot_key :=
  match accepted, ss_last current with
  | Some a, Some l => if orderAfter a.1 a.2 l.1 l.2 then None else Some a
  | _, _ => None
  end.

(** The baseline and the results to evaluate from it. *)
Definition restart (m : string) (correction : option slot_key) (current : stateSnapshot) :
    Tx DB (stateSnapshot * list (slot_key * bool)) :=
  match correction with
  | Some a =>
      baseline ← rewind m a;
      results ← ListScheduledHealthChecksFrom m a;
      mret (baseline, results)
  | None =>
      results ← match ss_last current with
                | Some l => ListScheduledHealthChecksAfter m l
                | None => ListAllScheduledHealthChecks m
                end;
      mret (current, results)
  end.

Definition evaluateTx (m : string) (accepted : option slot_key) (now : Z) : Tx DB bool :=
  _ ← EnsureMonitorReliabilityState m;
  state ← LockMonitorReliabilityState m;
  let current := snapshot_of state in
  limits ← alert_limits m;
  let correction := is_correction accepted current in
  start ← restart m correction current;
  let '(baseline, results) := start in
  st ← foldM (evaluate_result m limits.1 limits.2)
         (ss_observed baseline, ss_failures baseline, ss_successes baseline, ss_last baseline) results;
  let '(observed, failures, successes, lastObserved) := st in
  shown ← display_at m now;
  let '(display, evaluatedJob, newestExpected) := shown in
  _ ← UpdateMonitorReliabilityState m display observed (int16 failures) (int16 successes)
        (fst <$> lastObserved) (snd <$> lastObserved) newestExpected evaluatedJob;
  _ ← match newestExpected with
    | Some slot => UpsertMonitorEvaluationPosition m slot evaluatedJob
    | None => mret ()
    end;
  _ ← match correction with
    | Some a => InsertMonitorStateCorrection m a.2 a.1 (ss_display current) display
    | None => mret ()
    end;
  mret (bool_decide (is_Some correction)).

Definition EvaluateAcceptedTx (m job : string) (scheduled expires now : Z) : Tx DB bool :=
  if after now (time_add expires correctionWindow) then mret false
  else evaluateTx m (Some (scheduled, job)) now.

(** The services around it; [started] is the time the transaction begins. *)
Definition EvaluateAccepted {O} (started : Z) (m job : string) (scheduled expires now : Z) :
    SE (World DB O) bool :=
  with_tx started (corrected ← EvaluateAcceptedTx m job scheduled expires now; mret (Commit corrected)).

Definition EvaluateMonitor {O} (started : Z) (m : string) (now : Z) : SE (World DB O) () :=
  with_tx started (_ ← evaluateTx m None now; mret (Commit ())).

(** [SELECT DISTINCT monitors.id ... ORDER BY id LIMIT n]. *)
Definition due_for_refresh (evaluated_at : Z) (d : DB) : list string :=
  (fun x => x.1) <$> merge_sort (fun x y : string * Monitor => str_le x.1 y.1)
    (filter (fun x => mon_deleted_at x.2 = None /\
       Exists (fun p => per_monitor_id p = x.1 /\ per_starts_at p <= evaluated_at) (schedule_periods d))
       (map_to_list (monitors d))).

Definition ListMonitorsDueForStateRefresh (evaluated_at limit : Z) : Tx DB (list string) :=
  select (fun _ d => take (Z.to_nat limit) (due_for_refresh evaluated_at d)).

Definition RefreshDueStates {O} (started now limit : Z) : SE (World DB O) Z :=
  if (limit <? 1) || (1000 <? limit) then throw (ErrorsNew "invalid state refresh limit") else
  ids ← with_tx started (l ← ListMonitorsDueForStateRefresh now (int32 limit); mret (Commit l));
  _ ← foldM (fun _ id => EvaluateMonitor started id now) () ids;
  mret (Z.of_nat (length ids)).

(** ** Reports *)

(** A quotient stands for the float64 the code computes from the two counts. *)
Record Report : Type := mkReport {
  rep_Expected : Z;
  rep_Observed : Z;
  rep_Successful : Z;
  rep_Unknown : Z;
  rep_ObservedUptime : option Q;
  rep_Coverage : option Q
}.

Definition quotient (a b : Z) : option Q := if 0 <? b then Some (inject_Z a / inject_Z b)%Q else None.

Definition Normalize (r : Report) : Report :=
  let observed := if rep_Observed r <? 0 then 0 else rep_Observed r in
  let successful := if rep_Successful r <? 0 then 0 else rep_Successful r in
  let successful := if observed <? successful then observed else successful in
  let expected := if rep_Expected r <? 0 then 0 else rep_Expected r in
  let observed := if expected <? observed then expected else observed in
  mkReport expected observed successful (expected - observed)
    (quotient successful observed) (quotient observed expected).

(** [generate_series(start, stop, step)] for a positive step. *)
Definition generate_series (start stop step : Z) : list Z :=
  if start <=? stop then (fun i => start + i * step) <$> seqZ 0 ((stop - start) / step + 1) else [].

(** [ceil(a / b)] on integers. *)
Definition ceil_div (a b : Z) : Z := - (- a / b).

(** The slots of one period that a report over [from, to) expects. *)
Definition expected_slots (from to : Z) (p : SchedulePeriod) : list Z :=
  let step := per_interval_seconds p * second in
  let ends := match per_ends_at p with Some e => e | None => to end in
  if (per_starts_at p <? to) && (from <? ends) then
    filter (fun slot => Z.max from (per_starts_at p) <= slot)
      (generate_series (per_first_slot_at p + Z.max 0 (ceil_div (from - per_first_slot_at p) step) * step)
         (Z.min ends to - microsecond) step)
  else [].

(** The left join: a slot without an accepted result gives one row of nulls. *)
Definition joined (m : string) (d : DB) (slot : Z) : list (option bool) :=
  match filter (fun x => x.1.1 = slot) (scheduled_checks m d) with
  | [] => [None]
  | rows => (fun x => Some x.2) <$> rows
  end.

Definition report_rows (m : string) (from to : Z) (d : DB) : list (option bool) :=
  p ← filter (fun p => per_monitor_id p = m) (schedule_periods d);
  slot ← expected_slots from to p;
  joined m d slot.

Definition count {A} (P : A -> Prop) `{!forall x, Decision (P x)} (l : list A) : Z :=
  Z.of_nat (length (filter P l)).

Definition GetMonitorReliabilityReport (m : string) (from to : Z) : Tx DB (Z * Z * Z) :=
  select (fun _ d =>
    let rows := report_rows m from to d in
    (Z.of_nat (length rows), count is_Some rows, count (fun x => x = Some true) rows)).

(** [time.Now()] is [clock]. *)
Definition report {O} (started clock : Z) (m : string) (from to : Z) : SE (World DB O) Report :=
  let to := if after to clock then clock else to in
  if negb (after to from) then throw (ErrorsNew "invalid report window") else
  with_tx started (
    row ← GetMonitorReliabilityReport m from to;
    let '(expected, observed, successful) := row in
    mret (Rollback (Normalize (mkReport expected observed successful 0 None None)))).

(** ** The reference: replay in slot order *)

Definition obs : Type := (observed_state * Z * Z)%type.
Definition init_obs : obs := (Unknown, 0, 0).

Lemma obs_eta (o : obs) : (o.1.1, o.1.2, o.2) = o.
Proof. by destruct o as [[]]. Qed.

Section Replay.
Variables (fl rl : Z) (m : string).

Definition step (o : obs) (succeeded : bool) : obs :=
  advanceObservedState o.1.1 o.1.2 o.2 succeeded fl rl.

Definition final (o : obs) (l : list (slot_key * bool)) : obs :=
  foldl (fun o x => step o x.2) o l.

Definition eval_row (x : slot_key * bool) (o : obs) : slot_key * Evaluation :=
  (x.1, mkEvaluation m x.1.1 x.2 o.1.1 o.1.2 o.2).

Fixpoint replay (o : obs) (l : list (slot_key * bool)) : list (slot_key * Evaluation) :=
  match l with
  | [] => []
  | x :: l => eval_row x (step o x.2) :: replay (step o x.2) l
  end.

Lemma replay_app o l1 l2 : replay o (l1 ++ l2) = replay o l1 ++ replay (final o l1) l2.
Proof. revert o. induction l1 as [|x l1 IH]; intros o; [done|]. simpl. by rewrite IH. Qed.

Lemma replay_keys o l : (replay o l).*1 = l.*1.
Proof. revert o. induction l as [|x l IH]; intros o; [done|]. simpl. by rewrite IH. Qed.

Lemma replay_last o l : last (replay o l) = (fun x => eval_row x (final o l)) <$> last l.
Proof.
  destruct l as [|x l _] using rev_ind; [done|].
  rewrite replay_app. simpl. rewrite !last_snoc. simpl. unfold final. by rewrite foldl_app.
Qed.

(** Counters stay within the thresholds, so the smallint columns hold them. *)
Definition obs_ok (o : obs) : Prop := 0 <= o.1.2 <= fl /\ 0 <= o.2 <= rl.

Lemma step_ok o b : 0 <= fl -> 1 <= rl -> obs_ok o -> obs_ok (step o b).
Proof.
  intros Hf Hr [H1 H2]. unfold step, obs_ok, advanceObservedState.
  destruct o as [[st f] sc]; simpl in *.
  destruct b; [case_decide; [destruct (Z.leb_spec rl (sc + 1))|]|
    destruct (Z.ltb_spec f fl); [destruct (Z.leb_spec fl (f + 1))|destruct (Z.leb_spec fl f)]];
    simpl; lia.
Qed.

Lemma final_ok o l : 0 <= fl -> 1 <= rl -> obs_ok o -> obs_ok (final o l).
Proof.
  intros Hf Hr. revert o. induction l as [|x l IH]; intros o Ho; [done|].
  simpl. apply IH, step_ok; done.
Qed.

Lemma replay_filter_lt o k l :
  StronglySorted row_le l ->
  filter (fun x => key_lt x.1 k) (replay o l) = replay o (filter (fun x => key_lt x.1 k) l).
Proof.
  intros Hs. rewrite (sorted_split k l Hs) at 1. rewrite replay_app, filter_app.
  transitivity (replay o (filter (fun x => key_lt x.1 k) l) ++ []); [|apply app_nil_r].
  f_equal; [apply filter_all|apply filter_none];
    apply Forall_forall; intros x Hx; apply (list_elem_of_fmap_2 fst) in Hx;
    rewrite replay_keys in Hx; apply list_elem_of_fmap in Hx as (y & -> & Hy);
    apply list_elem_of_filter in Hy as [Hy _]; [done|by apply key_not_lt].
Qed.

Lemma sorted_map_fst {A B} (l : list (slot_key * A)) (l' : list (slot_key * B)) :
  l.*1 = l'.*1 -> StronglySorted row_le l -> StronglySorted row_le l'.
Proof.
  intros E H. revert l' E. induction H as [|x l H IH HF]; intros [|y l'] E; try done.
  - constructor.
  - rewrite !fmap_cons in E. injection E as E1 E2. constructor; [by apply IH|].
    apply Forall_forall. intros z Hz. unfold row_le. rewrite <- E1.
    apply (list_elem_of_fmap_2 fst) in Hz. rewrite <- E2 in Hz.
    apply list_elem_of_fmap in Hz as (w & -> & Hw).
    by apply (proj1 (Forall_forall _ _) HF).
Qed.

Lemma replay_sorted o l : StronglySorted row_le l -> StronglySorted row_le (replay o l).
Proof. apply sorted_map_fst. by rewrite replay_keys. Qed.
End Replay.

(** ** The evaluation tables and their queries *)

Lemma evaluations_of_elem m d k e :
  (k, e) ∈ evaluations_of m d <->
  evaluations d !! k.2 = Some e /\ evl_monitor_id e = m /\ k.1 = evl_scheduled_at e.
Proof.
  unfold evaluations_of. rewrite list_elem_of_fmap. split.
  - intros ([i e'] & [= -> ->] & Hx). apply list_elem_of_filter in Hx as [Hm Hx].
    by apply elem_of_map_to_list in Hx.
  - intros (Hl & Hm & Ht). exists (k.2, e). simpl. destruct k as [t i]; simpl in *. subst t.
    split; [done|]. apply list_elem_of_filter. split; [done|]. by apply elem_of_map_to_list.
Qed.

Lemma NoDup_keyed {A} (f : string * A -> Z) (l : list (string * A)) :
  NoDup l.*1 -> NoDup ((fun x => (f x, x.1)) <$> l).
Proof.
  induction l as [|x l IH]; [constructor|]. simpl. rewrite !NoDup_cons.
  intros [Hx Hl]. split; [|by apply IH]. intros (y & E & Hy)%list_elem_of_fmap.
  injection E as _ E. apply Hx. rewrite E. by apply list_elem_of_fmap_2.
Qed.

Lemma evaluations_of_NoDup m d : NoDup (evaluations_of m d).*1.
Proof.
  unfold evaluations_of. rewrite <- list_fmap_compose. apply (NoDup_keyed (fun x => evl_scheduled_at x.2)).
  eapply sublist_NoDup; [apply (NoDup_fst_map_to_list (evaluations d))|]. apply fmap_sublist, sublist_filter.
Qed.

Lemma scheduled_checks_NoDup m d : NoDup (scheduled_checks m d).*1.
Proof.
  unfold scheduled_checks. rewrite <- list_fmap_compose. apply (NoDup_keyed (fun x => hc_scheduled_at x.2)).
  eapply sublist_NoDup; [apply (NoDup_fst_map_to_list (health_checks d))|]. apply fmap_sublist, sublist_filter.
Qed.

Lemma scheduled_checks_elem m d k b :
  (k, b) ∈ scheduled_checks m d <-> exists hc, health_checks d !! k.2 = Some hc /\
    hc_monitor_id hc = m /\ hc_job_type hc = Scheduled /\ k.1 = hc_scheduled_at hc /\ b = hc_succeeded hc.
Proof.
  unfold scheduled_checks. rewrite list_elem_of_fmap. split.
  - intros ([i hc] & [= -> ->] & Hx). apply list_elem_of_filter in Hx as [[Hm Ht] Hx].
    apply elem_of_map_to_list in Hx. eauto 10.
  - intros (hc & Hl & Hm & Ht & Hk & ->). exists (k.2, hc). destruct k as [t i]; simpl in *. subst t.
    split; [done|]. apply list_elem_of_filter. split; [done|]. by apply elem_of_map_to_list.
Qed.

Lemma evaluations_of_insert m d x o :
  evaluations d !! x.1.2 = None ->
  evaluations_of m (on_evaluations <[x.1.2 := (eval_row m x o).2]> d)
    ≡ₚ eval_row m x o :: evaluations_of m d.
Proof.
  intros Hn. unfold evaluations_of. simpl. rewrite map_to_list_insert by done.
  rewrite filter_cons, decide_True by done. simpl. by destruct x as [[]].
Qed.

Lemma evaluations_of_delete m d k :
  evaluations_of m (on_evaluations (filter (fun x =>
    ~ (evl_monitor_id x.2 = m /\ key_le k (evl_scheduled_at x.2, x.1)))) d)
  ≡ₚ filter (fun x => key_lt x.1 k) (evaluations_of m d).
Proof.
  apply NoDup_Permutation.
  - eapply NoDup_fmap_1, evaluations_of_NoDup.
  - eapply NoDup_fmap_1, NoDup_fst_filter, evaluations_of_NoDup.
  - intros [k' e]. rewrite list_elem_of_filter, !evaluations_of_elem. simpl.
    rewrite map_lookup_filter_Some. simpl. split.
    + intros ([Hl Hn] & Hm & Ht). split; [|done]. apply dec_stable. intros Hk.
      apply Hn. split; [done|]. apply key_not_lt in Hk. by destruct k'; simpl in *; subst.
    + intros (Hk & Hl & Hm & Ht). repeat split; try done. intros [_ Hle].
      destruct k' as [t i]; simpl in *; subst t. by apply key_not_lt in Hle.
Qed.

(** ** The evaluation loop *)

(** Every evaluation belongs to the accepted result of the same job
    (the foreign key on health_checks, and the values the evaluator copied). *)
Definition evals_fk (d : DB) : Prop := forall id e, evaluations d !! id = Some e ->
  exists hc, health_checks d !! id = Some hc /\
    hc_monitor_id hc = evl_monitor_id e /\ hc_scheduled_at hc = evl_scheduled_at e.

Definition ids {A} (l : list (slot_key * A)) : list string := (fun x => x.1.2) <$> l.

Definition only_evaluations (d d' : DB) : Prop := d' = on_evaluations (fun _ => evaluations d') d.

Lemma only_evaluations_refl d : only_evaluations d d.
Proof. by destruct d. Qed.

Lemma only_evaluations_on d d' f :
  only_evaluations (on_evaluations f d) d' -> only_evaluations d d'.
Proof. unfold only_evaluations. intros ->. by destruct d. Qed.

Lemma replay_elem fl rl m o l k e :
  (k, e) ∈ replay fl rl m o l -> evl_monitor_id e = m /\ evl_scheduled_at e = k.1 /\ k ∈ l.*1.
Proof.
  revert o. induction l as [|x l IH]; intros o; simpl; [by intros ?%elem_of_nil|].
  rewrite elem_of_cons. intros [[= -> ->]|H]; [repeat split; left|].
  destruct (IH _ H) as (? & ? & ?). repeat split; try done. by right.
Qed.

Section Loop.
Context (fl rl : Z) (m : string) (Hfl : 0 <= fl <= 20) (Hrl : 1 <= rl <= 20).

Lemma obs_ok_int16 o : obs_ok fl rl o -> int16 o.1.2 = o.1.2 /\ int16 o.2 = o.2.
Proof. intros [H1 H2]. split; apply int16_id; lia. Qed.

Lemma evaluate_result_ok o l x s st s' :
  obs_ok fl rl o -> evaluations (tx_db s) !! x.1.2 = None ->
  evaluate_result m fl rl (o, l) x s = (Ok st, s') ->
  st = (step fl rl o x.2, Some x.1) /\ tx_now s' = tx_now s /\
  tx_db s' = on_evaluations <[x.1.2 := (eval_row m x (step fl rl o x.2)).2]> (tx_db s).
Proof.
  intros Ho Hn H. pose proof (step_ok fl rl o x.2 ltac:(lia) ltac:(lia) Ho) as Hs.
  destruct (obs_ok_int16 _ Hs) as [H1 H2]. destruct o as [[ob f] sc].
  unfold evaluate_result in H. unfold step in *. simpl in *.
  destruct (advanceObservedState ob f sc x.2 fl rl) as [[ob' f'] sc']. simpl in *.
  unfold UpsertMonitorResultEvaluation in H. ok_inv H.
  run_simpl. unfold on_evaluations. by rewrite Hn, H1, H2.
Qed.

Lemma evaluate_loop_ok rs o l s st s' :
  obs_ok fl rl o -> NoDup (ids rs) ->
  Forall (fun x => evaluations (tx_db s) !! x.1.2 = None) rs ->
  foldM (evaluate_result m fl rl) (o, l) rs s = (Ok st, s') ->
  st = (final fl rl o rs, default l (Some <$> last rs.*1)) /\ tx_now s' = tx_now s /\
  only_evaluations (tx_db s) (tx_db s') /\
  evaluations_of m (tx_db s') ≡ₚ evaluations_of m (tx_db s) ++ replay fl rl m o rs /\
  (forall id e, evaluations (tx_db s') !! id = Some e ->
     evaluations (tx_db s) !! id = Some e \/
     exists t, ((t, id), e) ∈ replay fl rl m o rs).
Proof.
  revert o l s. induction rs as [|x rs IH]; intros o l s Ho Hnd Hnew H; simpl in H.
  { ok_inv H. rewrite app_nil_r. simpl.
    split; [done|]. split; [done|]. split; [apply only_evaluations_refl|]. auto. }
  apply bind_ok in H as (st1 & s1 & H1 & H2).
  apply Forall_cons in Hnew as [Hx Hnew]. unfold ids in Hnd. simpl in Hnd.
  apply NoDup_cons in Hnd as [Hxn Hnd].
  apply evaluate_result_ok in H1 as (-> & Hnow & Hdb); [|done..].
  apply IH in H2 as (-> & Hnow' & Hon & Hp & Hold); [|by apply step_ok; try lia|done|].
  - split; [|split; [by rewrite Hnow'|]].
    { f_equal. rewrite fmap_cons, last_cons. by destruct (last rs.*1). }
    rewrite Hdb in Hon, Hp, Hold. split; [by eapply only_evaluations_on|].
    split.
    + rewrite Hp, evaluations_of_insert by done.
      simpl. by rewrite Permutation_middle.
    + intros id e He. destruct (Hold id e He) as [He'|[t Ht]]; simpl in *.
      * apply lookup_insert_Some in He' as [[<- <-]|[_ ?]]; [|by left].
        right. exists x.1.1. destruct x as [[t i] b]. left.
      * right. exists t. by right.
  - rewrite Hdb. apply Forall_forall. intros y Hy. simpl. rewrite lookup_insert_ne.
    + by apply (proj1 (Forall_forall _ _) Hnew).
    + intros E. apply Hxn. rewrite E. by apply (list_elem_of_fmap_2 (fun z => z.1.2)).
Qed.
End Loop.

(** ** Evaluation refines replay *)

(** The tables hold the replay of the results [E]. *)
Record synced (fl rl : Z) (m : string) (E : list (slot_key * bool)) (d : DB) : Prop := {
  sy_sorted : StronglySorted row_le E;
  sy_nodup : NoDup E.*1;
  sy_evals : evaluations_of m d ≡ₚ replay fl rl m init_obs E;
  sy_state : match reliability_states d !! m with
             | None => E = []
             | Some rs =>
                 (rs_observed_state rs, rs_consecutive_failures rs, rs_consecutive_successes rs)
                   = final fl rl init_obs E /\ last_observed rs = last E.*1
             end
}.

Lemma sorted_last_le {A} (E : list (slot_key * A)) l x :
  StronglySorted row_le E -> last E.*1 = Some l -> x ∈ E -> key_le x.1 l.
Proof.
  induction 1 as [|y E H IH HF]; [by intros ? ?%elem_of_nil|].
  rewrite fmap_cons, last_cons. intros Hl. rewrite elem_of_cons.
  destruct (last E.*1) as [k|] eqn:E1.
  - injection Hl as ->. intros [->|Hx]; [|by apply IH].
    apply last_Some_elem_of in E1. apply list_elem_of_fmap in E1 as (z & -> & Hz).
    by apply (proj1 (Forall_forall _ _) HF).
  - injection Hl as <-. apply last_None in E1. destruct E; [|done].
    intros [->|?%elem_of_nil]; [by left|done].
Qed.

Lemma orderAfter_key (k l : slot_key) : orderAfter k.1 k.2 l.1 l.2 = true <-> key_lt l k.
Proof.
  unfold orderAfter, after, time_equal, key_lt. rewrite orb_true_iff, andb_true_iff.
  rewrite Z.ltb_lt, Z.eqb_eq, bool_decide_eq_true. intuition congruence.
Qed.

Lemma same_rows (l1 l2 : list (slot_key * bool)) :
  StronglySorted row_le l1 /\ NoDup l1.*1 -> StronglySorted row_le l2 -> NoDup l2.*1 ->
  (forall x, x ∈ l1 <-> x ∈ l2) -> l1 = l2.
Proof.
  intros [H1 N1] H2 N2 Hx. apply sorted_unique; [done| |done..].
  apply NoDup_Permutation; [by eapply NoDup_fmap_1|by eapply NoDup_fmap_1|done].
Qed.

Section Evaluate.
Context (fl rl : Z) (m : string) (Hfl : 0 <= fl <= 20) (Hrl : 1 <= rl <= 20).
Implicit Types (d : DB) (E : list (slot_key * bool)).

Lemma fresh_unless_evaluated d E r :
  evals_fk d -> evaluations_of m d ≡ₚ replay fl rl m init_obs E ->
  r ∈ scheduled_checks m d -> r.1 ∉ E.*1 -> evaluations d !! r.1.2 = None.
Proof.
  intros Hfk He Hr Hn. destruct (evaluations d !! r.1.2) as [e|] eqn:El; [|done].
  destruct (Hfk _ _ El) as (hc & Hh & Hm & Ht). destruct r as [k b]; simpl in *.
  apply scheduled_checks_elem in Hr as (hc' & Hh' & Hm' & _ & Ht' & _). simplify_eq.
  destruct Hn. assert ((k, e) ∈ evaluations_of (hc_monitor_id hc') d) as Hin.
  { apply evaluations_of_elem. repeat split; try done. by rewrite Ht'. }
  rewrite He in Hin. by apply replay_elem in Hin as (_ & _ & ?).
Qed.

Lemma alert_limits_ok s l s' :
  alert_limits m s = (Ok l, s') ->
  l = default (failureThreshold, recoveryThreshold)
        ((fun x => (ar_failure_threshold x.2, ar_recovery_threshold x.2)) <$> enabled_rule m (tx_db s)) /\
  moved (tx_db s) s s'.
Proof.
  unfold alert_limits, GetMonitorAlertThresholds. intros H.
  apply bind_ok in H as (r & s1 & H1 & H). apply try_select_one_ok in H1 as [Hm Hr].
  destruct r as [[f r]|e].
  - ok_inv H. by rewrite Hr.
  - destruct e; try (by apply (f_equal fst) in H). ok_inv H. by rewrite Hr.
Qed.

Lemma rewind_ok a E s b s' :
  StronglySorted row_le E -> NoDup E.*1 ->
  evaluations_of m (tx_db s) ≡ₚ replay fl rl m init_obs E ->
  rewind m a s = (Ok b, s') ->
  let E' := filter (fun x => key_lt x.1 a) E in
  (ss_observed b, ss_failures b, ss_successes b) = final fl rl init_obs E' /\
  ss_last b = last E'.*1 /\
  moved (on_evaluations (filter (fun x =>
    ~ (evl_monitor_id x.2 = m /\ key_le a (evl_scheduled_at x.2, x.1)))) (tx_db s)) s s'.
Proof.
  intros Hs Hnd He H E'. unfold rewind, GetReliabilityBaselineBefore in H.
  unfold DeleteReliabilityEvaluationsFrom in H.
  apply bind_ok in H as (r & s1 & H1 & H). apply try_select_one_ok in H1 as [Hm1 Hr].
  assert (order_by_key (filter (fun x => key_lt x.1 a) (evaluations_of m (tx_db s)))
          = replay fl rl m init_obs E') as Eq.
  { rewrite order_filter by apply evaluations_of_NoDup. unfold E'.
    rewrite <- replay_filter_lt by done. f_equal. apply order_unique.
    - apply evaluations_of_NoDup.
    - done.
    - by apply replay_sorted. }
  rewrite Eq, replay_last in Hr. rewrite fmap_last.
  apply bind_ok in H as (b' & s2 & H1 & H). ok_inv H.
  destruct r as [[k e]|e].
  - ok_inv H1. destruct (last E') as [y|] eqn:El; [|done]. unfold eval_row in Hr. simpl in Hr. simplify_eq. simpl.
    split; [apply obs_eta|]. split; [done|]. run_simpl. by split; congruence.
  - destruct e; try (by apply (f_equal fst) in H1). ok_inv H1.
    destruct (last E') as [y|] eqn:El; [done|]. simpl. apply last_None in El.
    split; [by rewrite El|]. split; [done|]. run_simpl. by split; congruence.
Qed.

(** What [display_at] shows. *)
Definition displayed (now : Z) d : observed_state * option string * option Z :=
  match newest_expected m now d with
  | Some slot => match evaluation_at m slot d with
                 | Some (k, e) => (evl_observed_state e, Some k.2, Some slot)
                 | None => (Unknown, None, Some slot)
                 end
  | None => (Unknown, None, None)
  end.

Lemma display_at_ok now s r s' :
  display_at m now s = (Ok r, s') -> r = displayed now (tx_db s) /\ moved (tx_db s) s s'.
Proof.
  unfold display_at, displayed, GetNewestExpectedMonitorSlot, GetMonitorEvaluationAtSlot. intros H.
  apply bind_ok in H as (n & s1 & H1 & H). apply try_select_one_ok in H1 as [Hm Hn].
  destruct n as [slot|e].
  - apply bind_ok in H as (v & s2 & H1 & H). apply try_select_one_ok in H1 as [Hm' Hv].
    rewrite Hn. run_simpl. destruct v as [[k ev]|e].
    + ok_inv H. rewrite Hv. repeat split; congruence.
    + destruct e; try (by apply (f_equal fst) in H). ok_inv H. rewrite Hv. repeat split; congruence.
  - destruct e; try (by apply (f_equal fst) in H). ok_inv H. by rewrite Hn.
Qed.

(** The results the tables cover after the evaluation: all of those from the
    corrected slot on, or all of those after the last observed one. *)
Definition evaluated_after (E H : list (slot_key * bool)) (correction lastObserved : option slot_key) :
    list (slot_key * bool) :=
  match correction, lastObserved with
  | Some a, _ => filter (fun x => key_lt x.1 a) E ++ filter (fun x => key_le a x.1) H
  | None, Some l => E ++ filter (fun x => key_lt l x.1) H
  | None, None => H
  end.

Definition last_of (d : DB) : option slot_key :=
  match reliability_states d !! m with Some rs => last_observed rs | None => None end.

Definition correction_of (accepted : option slot_key) (d : DB) : option slot_key :=
  is_correction accepted (mkSnapshot Unknown Unknown 0 0 (last_of d)).

Lemma sorted_app_keys (E1 E2 : list (slot_key * bool)) :
  StronglySorted row_le E1 -> NoDup E1.*1 -> StronglySorted row_le E2 -> NoDup E2.*1 ->
  (forall x y, x ∈ E1 -> y ∈ E2 -> key_lt x.1 y.1) ->
  StronglySorted row_le (E1 ++ E2) /\ NoDup (E1 ++ E2).*1.
Proof.
  intros H1 N1 H2 N2 Hc. split.
  - apply StronglySorted_app_2; [done..|]. intros x y Hx Hy. right. by apply Hc.
  - rewrite fmap_app. apply NoDup_app. split; [done|]. split; [|done].
    intros k (x & -> & Hx)%list_elem_of_fmap (y & E & Hy)%list_elem_of_fmap.
    specialize (Hc x y Hx Hy). rewrite E in Hc. by apply key_lt_irrefl in Hc.
Qed.

Lemma evaluated_after_sorted E H c l :
  StronglySorted row_le E -> NoDup E.*1 -> StronglySorted row_le H -> NoDup H.*1 ->
  l = last E.*1 ->
  StronglySorted row_le (evaluated_after E H c l) /\ NoDup (evaluated_after E H c l).*1.
Proof.
  intros HE NE HH NH ->. unfold evaluated_after. destruct c as [a|].
  - apply sorted_app_keys;
      [by apply StronglySorted_filter|by apply NoDup_fst_filter|
       by apply StronglySorted_filter|by apply NoDup_fst_filter|].
    intros x y [Hx _]%list_elem_of_filter [Hy _]%list_elem_of_filter.
    by eapply key_lt_le_trans.
  - destruct (last E.*1) as [l|] eqn:El; [|done].
    apply sorted_app_keys;
      [done|done|by apply StronglySorted_filter|by apply NoDup_fst_filter|].
    intros x y Hx [Hy _]%list_elem_of_filter. eapply key_le_lt_trans; [|done].
    by apply (sorted_last_le E).
Qed.

Lemma scheduled_checks_ids m' d : NoDup (ids (scheduled_checks m' d)).
Proof.
  unfold ids, scheduled_checks. rewrite <- list_fmap_compose.
  change (NoDup (fst <$> filter (fun x : string * HealthCheck =>
    hc_monitor_id x.2 = m' /\ hc_job_type x.2 = Scheduled) (map_to_list (health_checks d)))).
  eapply sublist_NoDup; [apply (NoDup_fst_map_to_list (health_checks d))|].
  apply fmap_sublist, sublist_filter.
Qed.

Lemma listed_ids (P : slot_key * bool -> Prop) `{!forall x, Decision (P x)} d :
  NoDup (ids (order_by_key (filter P (scheduled_checks m d)))).
Proof.
  unfold ids. rewrite order_perm. eapply sublist_NoDup; [apply scheduled_checks_ids|].
  apply fmap_sublist, sublist_filter.
Qed.

Lemma only_evaluations_scheduled d d' :
  only_evaluations d d' -> scheduled_checks m d' = scheduled_checks m d.
Proof. intros ->. done. Qed.

(** What the loop starts from: [Eb] is already in the tables, [rs] is new. *)
Record prepared (E' : list (slot_key * bool)) (d : DB) (b : stateSnapshot) (rs : list (slot_key * bool)) :
    Prop := {
  pr_base : exists Eb, E' = Eb ++ rs /\
    (ss_observed b, ss_failures b, ss_successes b) = final fl rl init_obs Eb /\
    ss_last b = last Eb.*1 /\ evaluations_of m d ≡ₚ replay fl rl m init_obs Eb;
  pr_fk : evals_fk d;
  pr_new : Forall (fun x => evaluations d !! x.1.2 = None) rs;
  pr_ids : NoDup (ids rs);
  pr_in : Forall (fun x => x ∈ scheduled_checks m d) rs
}.

Lemma listed_in (P : slot_key * bool -> Prop) `{!forall x, Decision (P x)} d x :
  x ∈ order_by_key (filter P (scheduled_checks m d)) -> P x /\ x ∈ scheduled_checks m d.
Proof. rewrite order_perm. by intros ?%list_elem_of_filter. Qed.

Lemma evals_fk_filter d (P : string * Evaluation -> Prop) `{!forall x, Decision (P x)} :
  evals_fk d -> evals_fk (on_evaluations (filter P) d).
Proof.
  intros Hd id e. simpl. rewrite map_lookup_filter_Some. intros [He _]. by apply Hd.
Qed.

Lemma restart_correction_ok E a current s b rs s' :
  synced fl rl m E (tx_db s) -> evals_fk (tx_db s) ->
  restart m (Some a) current s = (Ok (b, rs), s') ->
  only_evaluations (tx_db s) (tx_db s') /\ tx_now s' = tx_now s /\
  prepared (evaluated_after E (order_by_key (scheduled_checks m (tx_db s))) (Some a) (ss_last current))
    (tx_db s') b rs.
Proof.
  intros [HE NE Hev _] Hfk H. unfold restart, ListScheduledHealthChecksFrom in H.
  apply bind_ok in H as (b' & s1 & H1 & H). apply (rewind_ok a E) in H1 as (Hb & Hl & Hm); [|done..].
  ok_inv H. simplify_eq. run_simpl.
  split; [by destruct (tx_db s)|]. split; [congruence|].
  set (d' := on_evaluations _ (tx_db s)). constructor.
  - exists (filter (fun x => key_lt x.1 a) E). simpl. rewrite order_filter by apply scheduled_checks_NoDup.
    repeat split; try done. unfold d'. rewrite evaluations_of_delete, Hev.
    by rewrite replay_filter_lt.
  - by apply evals_fk_filter.
  - apply Forall_forall. intros x [Hx Hin]%listed_in. simpl.
    destruct (filter _ _ !! _) as [e|] eqn:El; [|done].
    apply map_lookup_filter_Some in El as [El Hn]. destruct Hn. simpl.
    destruct (Hfk _ _ El) as (hc & Hh & Hmon & Ht). destruct x as [[t i] o]; simpl in *.
    apply scheduled_checks_elem in Hin as (hc' & Hh' & Hm' & _ & Ht' & _). simpl in *. simplify_eq.
    split; [done|]. by rewrite <- Ht.
  - apply listed_ids.
  - apply Forall_forall. by intros x [_ Hin]%listed_in.
Qed.

Lemma restart_current_ok E current s b rs s' :
  synced fl rl m E (tx_db s) -> evals_fk (tx_db s) ->
  (ss_observed current, ss_failures current, ss_successes current) = final fl rl init_obs E ->
  ss_last current = last E.*1 ->
  restart m None current s = (Ok (b, rs), s') ->
  tx_db s' = tx_db s /\ tx_now s' = tx_now s /\
  prepared (evaluated_after E (order_by_key (scheduled_checks m (tx_db s))) None (ss_last current))
    (tx_db s') b rs.
Proof.
  intros [HE NE Hev _] Hfk Hst Hl H.
  assert (exists P (HP : forall x, Decision (P x)),
    rs = order_by_key (filter P (scheduled_checks m (tx_db s))) /\
    (forall x, P x -> x.1 ∉ E.*1) /\ b = current /\ moved (tx_db s) s s' /\
    evaluated_after E (order_by_key (scheduled_checks m (tx_db s))) None (ss_last current) = E ++ rs)
    as (P & HP & -> & Hfresh & -> & [Edb Enow] & HE').
  { unfold restart, ListScheduledHealthChecksAfter, ListAllScheduledHealthChecks in H.
    apply bind_ok in H as (r & s1 & H1 & H). ok_inv H. simplify_eq. rewrite Hl in *.
    destruct (last E.*1) as [l|] eqn:El; ok_inv H1.
    - exists (fun x => key_lt l x.1), _. refine (conj eq_refl (conj _ (conj eq_refl (conj _ _)))).
      + intros x Hx (y & E1 & Hy)%list_elem_of_fmap. rewrite E1 in Hx.
        apply key_not_lt in Hx; [done|]. by apply (sorted_last_le E).
      + done.
      + simpl. by rewrite order_filter by apply scheduled_checks_NoDup.
    - exists (fun _ => True), _. apply last_None in El. destruct E; [|done].
      rewrite filter_all by (by apply Forall_forall).
      refine (conj eq_refl (conj _ (conj eq_refl (conj _ _)))); [|done..].
      intros x _ Hx. by apply elem_of_nil in Hx. }
  split; [done|]. split; [done|]. rewrite HE', Edb. constructor.
  - by exists E.
  - done.
  - apply Forall_forall. intros x [Hx Hin]%listed_in.
    eapply fresh_unless_evaluated; [done..|]. by apply Hfresh.
  - apply listed_ids.
  - apply Forall_forall. by intros x [_ Hin]%listed_in.
Qed.

Definition limits_of (d : DB) : Z * Z :=
  default (failureThreshold, recoveryThreshold)
    ((fun x => (ar_failure_threshold x.2, ar_recovery_threshold x.2)) <$> enabled_rule m d).

Lemma ensure_synced E d :
  synced fl rl m E d -> evals_fk d ->
  synced fl rl m E (ensure_state m d) /\ evals_fk (ensure_state m d) /\
  limits_of (ensure_state m d) = limits_of d /\
  scheduled_checks m (ensure_state m d) = scheduled_checks m d /\ last_of (ensure_state m d) = last_of d.
Proof.
  intros [HE NE Hev Hst] Hfk. unfold ensure_state, last_of in *.
  destruct (monitors d !! m), (reliability_states d !! m) eqn:Er;
    try (by repeat split; try done; rewrite ?Er).
  subst E. repeat split; try done; simpl; by rewrite lookup_insert_eq.
Qed.

(** The tail of [evaluateTx], once the loop has run. *)
Lemma record_synced E' d (display : observed_state) newest job :
  StronglySorted row_le E' -> NoDup E'.*1 ->
  evaluations_of m d ≡ₚ replay fl rl m init_obs E' ->
  is_Some (reliability_states d !! m) ->
  synced fl rl m E' (on_reliability_states (alter (fun _ =>
    mkReliabilityState display (final fl rl init_obs E').1.1 (int16 (final fl rl init_obs E').1.2)
      (int16 (final fl rl init_obs E').2) (fst <$> last E'.*1) (snd <$> last E'.*1)
      newest newest job) m) d).
Proof.
  intros HE NE Hev [rs Hrs]. constructor; [done..|]. simpl.
  rewrite lookup_alter_eq, Hrs. simpl.
  assert (obs_ok fl rl (final fl rl init_obs E')) as Hok.
  { apply final_ok; try lia. split; simpl; lia. }
  destruct (obs_ok_int16 fl rl Hfl Hrl _ Hok) as [-> ->]. split; [apply obs_eta|].
  unfold last_observed. simpl. by destruct (last E'.*1) as [[]|].
Qed.

Lemma synced_frame E d d' :
  evaluations d' = evaluations d -> reliability_states d' = reliability_states d ->
  synced fl rl m E d -> synced fl rl m E d'.
Proof.
  intros E1 E2 [HE NE Hev Hst]. constructor; [done..| |by rewrite E2].
  unfold evaluations_of in *. by rewrite E1.
Qed.

Lemma evaluate_from_prepared E' b rs s st s' :
  prepared E' (tx_db s) b rs ->
  foldM (evaluate_result m fl rl) (ss_observed b, ss_failures b, ss_successes b, ss_last b) rs s
    = (Ok st, s') ->
  st = (final fl rl init_obs E', last E'.*1) /\ tx_now s' = tx_now s /\
  only_evaluations (tx_db s) (tx_db s') /\
  evaluations_of m (tx_db s') ≡ₚ replay fl rl m init_obs E' /\ evals_fk (tx_db s').
Proof.
  intros [(Eb & -> & Hst & Hl & Hev) Hfk Hnew Hids Hin] H. rewrite Hst, Hl in H.
  apply evaluate_loop_ok in H as (-> & Hnow & Hon & Hp & Hold); [|done..| |done|done].
  - split; [|split; [done|split; [done|split]]].
    + f_equal; [by unfold final; rewrite foldl_app|]. rewrite fmap_app, last_app.
      by destruct (last rs.*1).
    + by rewrite Hp, Hev, replay_app.
    + intros id e He. rewrite Hon. simpl. destruct (Hold id e He) as [He'|[t Ht]]; [by apply Hfk|].
      apply replay_elem in Ht as (Hm & Ht & Hk). apply list_elem_of_fmap in Hk as (x & Ex & Hx).
      apply (proj1 (Forall_forall _ _) Hin) in Hx. destruct x as [k o]; simpl in *. subst k.
      apply scheduled_checks_elem in Hx as (hc & Hh & Hm' & _ & Ht' & _). simpl in *.
      exists hc. repeat split; congruence.
  - apply final_ok; try lia. split; simpl; lia.
Qed.

Lemma ensure_health d : health_checks (ensure_state m d) = health_checks d.
Proof. unfold ensure_state. by destruct (monitors d !! m), (reliability_states d !! m). Qed.

(** What the statements after the loop do. *)
Lemma record_run (o : obs) l now prev corr s c s' :
  (let '(observed, failures, successes, lastObserved) := (o, l) in
   shown ← display_at m now;
   let '(display, evaluatedJob, newestExpected) := shown in
   _ ← UpdateMonitorReliabilityState m display observed (int16 failures) (int16 successes)
         (fst <$> lastObserved) (snd <$> lastObserved) newestExpected evaluatedJob;
   _ ← match newestExpected with
     | Some slot => UpsertMonitorEvaluationPosition m slot evaluatedJob
     | None => mret ()
     end;
   _ ← match corr with
     | Some a => InsertMonitorStateCorrection m a.2 a.1 prev display
     | None => mret ()
     end;
   mret (bool_decide (is_Some corr))) s = (Ok c, s') ->
  exists dis job nw, c = bool_decide (is_Some corr) /\
    evaluations (tx_db s') = evaluations (tx_db s) /\
    reliability_states (tx_db s') = alter (fun _ =>
      mkReliabilityState dis o.1.1 (int16 o.1.2) (int16 o.2) (fst <$> l) (snd <$> l) nw nw job) m
      (reliability_states (tx_db s)) /\
    health_checks (tx_db s') = health_checks (tx_db s).
Proof.
  destruct o as [[ob f] sc]. simpl. intros H.
  apply bind_ok in H as ([[dis job] nw] & s1 & H1 & H). apply display_at_ok in H1 as [_ [D1 _]].
  apply bind_ok in H as (? & s2 & H2 & H). apply update_ok in H2 as [D2 _].
  apply bind_ok in H as (? & s3 & H3 & H). apply bind_ok in H as (? & s4 & H4 & H). ok_inv H.
  exists dis, job, nw. split; [done|].
  assert (evaluations (tx_db s3) = evaluations (tx_db s2) /\
    reliability_states (tx_db s3) = reliability_states (tx_db s2) /\
    health_checks (tx_db s3) = health_checks (tx_db s2)) as (E1 & E2 & E3).
  { destruct nw; [apply update_ok in H3 as [-> _]|ok_inv H3]; done. }
  assert (evaluations (tx_db s') = evaluations (tx_db s3) /\
    reliability_states (tx_db s') = reliability_states (tx_db s3) /\
    health_checks (tx_db s') = health_checks (tx_db s3)) as (-> & -> & ->).
  { destruct corr; [apply update_ok in H4 as [-> _]|ok_inv H4]; done. }
  by rewrite E1, E2, E3, D2, D1.
Qed.

(** A run of [evaluateTx] on tables that hold the replay of [E] leaves tables that
    hold the replay of [evaluated_after E H ...], where [H] are the accepted results. *)
Lemma evaluateTx_synced E accepted now s c s' :
  synced fl rl m E (tx_db s) -> evals_fk (tx_db s) -> limits_of (tx_db s) = (fl, rl) ->
  evaluateTx m accepted now s = (Ok c, s') ->
  let H := order_by_key (scheduled_checks m (tx_db s)) in
  let corr := correction_of accepted (tx_db s) in
  synced fl rl m (evaluated_after E H corr (last_of (tx_db s))) (tx_db s') /\
  evals_fk (tx_db s') /\ c = bool_decide (is_Some corr) /\
  health_checks (tx_db s') = health_checks (tx_db s).
Proof.
  intros Hsy Hfk Hlim Hrun H corr.
  destruct (ensure_synced E (tx_db s) Hsy Hfk) as (Hsy1 & Hfk1 & Hlim1 & Hsch & Hlast).
  unfold evaluateTx, EnsureMonitorReliabilityState, LockMonitorReliabilityState in Hrun.
  apply bind_ok in Hrun as (? & s1 & H1 & Hrun). apply update_ok in H1 as [D1 _].
  apply bind_ok in Hrun as (rs & s2 & H2 & Hrun). apply select_one_ok in H2 as [Hrs [D2 _]].
  apply bind_ok in Hrun as (lim & s3 & H3 & Hrun). apply alert_limits_ok in H3 as [Hl [D3 _]].
  assert (tx_db s3 = ensure_state m (tx_db s)) as D by congruence.
  fold (limits_of (tx_db s2)) in Hl. rewrite D1 in Hrs. rewrite <- D3, D, Hlim1, Hlim in Hl.
  rewrite <- D in *. subst lim. clear D1 D2 D3.
  assert (ss_last (snapshot_of rs) = last_of (tx_db s)) as Hls.
  { rewrite <- Hlast. unfold last_of. by rewrite Hrs. }
  assert (is_correction accepted (snapshot_of rs) = corr) as Hc.
  { unfold corr, correction_of, is_correction. simpl. by rewrite <- Hls. }
  rewrite Hc in Hrun.
  apply bind_ok in Hrun as ([b rows] & s4 & H4 & Hrun).
  apply bind_ok in Hrun as (st & s5 & H5 & Hrun).
  assert (only_evaluations (tx_db s3) (tx_db s4) /\
    prepared (evaluated_after E H corr (last_of (tx_db s))) (tx_db s4) b rows) as [Hon4 Hpr].
  { rewrite <- Hls. unfold H. rewrite <- Hsch. destruct corr as [a|].
    - by apply (restart_correction_ok E) in H4 as (? & ? & ?).
    - pose proof (sy_state _ _ _ _ _ Hsy1) as Hst. rewrite Hrs in Hst. destruct Hst as [Hst Hl].
      apply (restart_current_ok E) in H4 as (Ed & ? & ?); [|done..].
      rewrite Ed in *. split; [apply only_evaluations_refl|done]. }
  apply evaluate_from_prepared with (E' := evaluated_after E H corr (last_of (tx_db s))) in H5
    as (-> & _ & Hon5 & Hev & Hfk5); [|done].
  set (E' := evaluated_after E H corr (last_of (tx_db s))) in *.
  assert (StronglySorted row_le E' /\ NoDup E'.*1) as [HE' NE'].
  { apply evaluated_after_sorted; try apply Hsy; [apply order_sorted| |].
    - unfold H. rewrite order_perm. apply scheduled_checks_NoDup.
    - rewrite <- Hls. pose proof (sy_state _ _ _ _ _ Hsy1) as Hst. rewrite Hrs in Hst. apply Hst. }
  apply record_run in Hrun as (dis & job & nw & -> & Hev' & Hrel & Hhc).
  assert (synced fl rl m E' (on_reliability_states (alter (fun _ =>
    mkReliabilityState dis (final fl rl init_obs E').1.1 (int16 (final fl rl init_obs E').1.2)
      (int16 (final fl rl init_obs E').2) (fst <$> last E'.*1) (snd <$> last E'.*1) nw nw job) m)
    (tx_db s5))) as Hfin.
  { apply record_synced; [done..|]. rewrite Hon5, Hon4. simpl. by rewrite Hrs. }
  assert (health_checks (tx_db s5) = health_checks (tx_db s)) as Hh.
  { rewrite Hon5, Hon4, D. simpl. apply ensure_health. }
  split; [|split; [|split; [done|congruence]]].
  - eapply synced_frame; [..|exact Hfin]; done.
  - intros id e. rewrite Hev', Hhc. apply Hfk5.
Qed.

Lemma synced_last E d : synced fl rl m E d -> last_of d = last E.*1.
Proof.
  intros [_ _ _ H]. unfold last_of. destruct (reliability_states d !! m); [apply H|by subst].
Qed.

(** When all results but the accepted one are evaluated, all are evaluated after. *)
Lemma evaluated_after_all E d k :
  synced fl rl m E d ->
  let H := order_by_key (scheduled_checks m d) in
  (forall x, x ∈ E -> x ∈ H) -> (forall x, x ∈ H -> x.1 = k \/ x ∈ E) ->
  evaluated_after E H (correction_of (Some k) d) (last_of d) = H.
Proof.
  intros Hsy H HEH HHE. pose proof (synced_last _ _ Hsy) as Hl.
  assert (StronglySorted row_le H /\ NoDup H.*1) as [HH NH].
  { unfold H. split; [apply order_sorted|]. rewrite order_perm. apply scheduled_checks_NoDup. }
  apply same_rows; [by apply evaluated_after_sorted; try apply Hsy|done..|].
  intros x. unfold correction_of, is_correction. simpl. rewrite Hl.
  destruct (last E.*1) as [l|] eqn:El; [|done].
  assert (forall y, y ∈ E -> key_le y.1 l) as Hle by (intros y Hy; eapply sorted_last_le; [apply Hsy|done..]).
  destruct (orderAfter k.1 k.2 l.1 l.2) eqn:Eo; simpl.
  - apply orderAfter_key in Eo. rewrite elem_of_app, list_elem_of_filter. split.
    + intros [?|[_ ?]]; auto.
    + intros Hx. destruct (HHE x Hx) as [->|?]; auto.
  - assert (key_le k l) as Hkl.
    { apply key_not_lt. rewrite <- orderAfter_key. by rewrite Eo. }
    rewrite elem_of_app, !list_elem_of_filter. split; [intros [[_ ?]|[_ ?]]; auto|].
    intros Hx. destruct (decide (key_lt x.1 k)) as [Hk|Hk%key_not_lt]; [|auto].
    left. split; [done|]. destruct (HHE x Hx) as [E1|?]; [|done].
    rewrite E1 in Hk. by apply key_lt_irrefl in Hk.
Qed.
End Evaluate.

(** ** Totality *)

Lemma calm_try_one {D A B} (q : Z -> D -> option A) (k : res A -> Tx D B) :
  (forall a, calm (k (Ok a))) -> calm (k (Err ErrNoRows)) -> calm (try_ (select_one q) ≫= k).
Proof.
  intros H1 H2 s Hs. destruct (calm_try_select_one q s Hs) as (s1 & Hs1 & _ & E).
  unfold mbind, SE_bind. rewrite E. destruct (q (tx_now s) (tx_db s)) as [a|]; [by apply H1|by apply H2].
Qed.

Lemma calm_alert_limits m : calm (alert_limits m).
Proof. apply calm_try_one; [intros []|]; auto with calm. Qed.

Lemma calm_restart m c cur : calm (restart m c cur).
Proof.
  unfold restart, rewind, ListScheduledHealthChecksFrom, ListScheduledHealthChecksAfter,
    ListAllScheduledHealthChecks, DeleteReliabilityEvaluationsFrom.
  destruct c as [a|]; [|destruct (ss_last cur); auto with calm].
  apply calm_bind; [|auto with calm]. apply calm_try_one; [intros []|]; auto with calm.
Qed.

Lemma calm_display_at m now : calm (display_at m now).
Proof.
  apply calm_try_one; [|auto with calm]. intros slot.
  apply calm_try_one; [intros []|]; auto with calm.
Qed.

Lemma calm_evaluate_result m fl rl st r : calm (evaluate_result m fl rl st r).
Proof.
  unfold evaluate_result, UpsertMonitorResultEvaluation. destruct st as [[[o f] sc] l].
  destruct (advanceObservedState _ _ _ _ _ _) as [[o' f'] sc']. auto with calm.
Qed.
#[export] Hint Resolve calm_alert_limits calm_restart calm_display_at calm_evaluate_result : calm.

Lemma ensure_state_some m d :
  is_Some (monitors d !! m) -> is_Some (reliability_states (ensure_state m d) !! m).
Proof.
  intros [x Hx]. unfold ensure_state. rewrite Hx.
  destruct (reliability_states d !! m) eqn:E; [by rewrite E|]. simpl. by rewrite lookup_insert_eq.
Qed.

(** On a monitor that exists the evaluation always returns. *)
Lemma evaluateTx_returns m accepted now s :
  quiet s -> is_Some (monitors (tx_db s) !! m) ->
  exists c s', evaluateTx m accepted now s = (Ok c, s') /\ quiet s'.
Proof.
  intros Hs Hm. destruct (ensure_state_some m (tx_db s) Hm) as [rs Hrs].
  unfold evaluateTx, EnsureMonitorReliabilityState, LockMonitorReliabilityState.
  unfold mbind at 1, SE_bind at 1, update. erewrite sql_quiet by done.
  unfold mbind at 1, SE_bind at 1, select_one. erewrite sql_quiet; [|done|simpl; by rewrite Hrs].
  match goal with |- exists c s', ?k ?s1 = _ /\ _ => cut (calm k); [intros H; by apply H|] end.
  apply calm_bind; [auto with calm|]. intros lim. apply calm_bind; [auto with calm|].
  intros [b rows]. apply calm_bind; [auto with calm|]. intros [[[o f] sc] l].
  apply calm_bind; [auto with calm|]. intros [[dis job] nw].
  unfold UpdateMonitorReliabilityState, UpsertMonitorEvaluationPosition, InsertMonitorStateCorrection.
  destruct nw, (is_correction accepted (snapshot_of rs)); auto with calm.
Qed.

(** ** What the state machine computes

    The observed state depends only on the two most recent runs: the successes at
    the end and the failures just before them. *)

Fixpoint leading (b : bool) (l : list bool) : nat :=
  match l with
  | x :: l => if Bool.eqb x b then S (leading b l) else 0
  | [] => 0
  end.

Definition recent_successes (l : list bool) : nat := leading true (reverse l).
Definition recent_failures (l : list bool) : nat :=
  leading false (drop (recent_successes l) (reverse l)).

Definition observed_after (fl rl : Z) (l : list bool) : obs :=
  let s := Z.of_nat (recent_successes l) in
  let f := Z.of_nat (recent_failures l) in
  if s =? 0 then
    if f =? 0 then (Unknown, 0, 0)
    else if fl <=? f then (Down, fl, 0) else (Degraded, f, 0)
  else if (fl <=? f) && (s <? rl) then (Down, 0, s) else (Healthy, 0, 0).

Lemma recent_snoc l b :
  recent_successes (l ++ [b]) = (if b then S (recent_successes l) else 0%nat) /\
  recent_failures (l ++ [b]) =
    (if b then recent_failures l
     else S (if decide (recent_successes l = 0%nat) then recent_failures l else 0)).
Proof.
  unfold recent_failures, recent_successes. rewrite reverse_snoc. destruct b; simpl; [done|].
  split; [done|]. f_equal. destruct (reverse l) as [|[] r]; simpl; done.
Qed.

Lemma leading_nil b l : l <> [] -> leading b l = 0%nat -> leading (negb b) l <> 0%nat.
Proof. destruct l as [|[] l]; [done|..]; by destruct b. Qed.

(** The incremental state machine, run over any sequence of outcomes from the
    initial state, computes the closed form over the two most recent runs: down
    exactly when at least [fl] failures in a row were followed by fewer than [rl]
    successes, degraded after fewer failures, healthy otherwise. *)
Theorem advanceObservedState_closed_form (fl rl : Z) (l : list bool) :
  1 <= fl -> 1 <= rl ->
  foldl (fun o b => advanceObservedState o.1.1 o.1.2 o.2 b fl rl) init_obs l = observed_after fl rl l.
Proof.
  intros Hf Hr. induction l as [|b l IH] using rev_ind; [done|].
  rewrite foldl_app, IH. simpl. clear IH.
  destruct (recent_snoc l b) as [Es Ef]. unfold observed_after. rewrite Es, Ef.
  set (s := recent_successes l). set (f := recent_failures l).
  unfold advanceObservedState. destruct b; [|destruct (decide (s = 0%nat))];
    zcases; repeat case_decide; try done; zcases; simpl in *; try lia; repeat f_equal; lia.
Qed.

Lemma advanceObservedState_closed_form_witness :
  foldl (fun o b => advanceObservedState o.1.1 o.1.2 o.2 b 3 2) init_obs
    [false; false; false; true; true] = (Healthy, 0, 0).
Proof. rewrite (advanceObservedState_closed_form 3 2); [vm_compute; reflexivity|lia|lia]. Defined.

(** A run of failures that interrupts a recovery turns a monitor that is down into
    a degraded one, and from there one success makes it healthy.

    With the default thresholds (three failures, two recoveries) the outcomes
    fail, fail, fail, success, failure, success end in the healthy state although
    the two most recent successes are not consecutive: the recovery threshold is
    not applied once a failure has interrupted the recovery. *)
Theorem recovery_threshold_bypassed :
  foldl (fun o b => advanceObservedState o.1.1 o.1.2 o.2 b failureThreshold recoveryThreshold)
    init_obs [false; false; false; true] = (Down, 0, 1) /\
  foldl (fun o b => advanceObservedState o.1.1 o.1.2 o.2 b failureThreshold recoveryThreshold)
    init_obs [false; false; false; true; false] = (Degraded, 1, 0) /\
  foldl (fun o b => advanceObservedState o.1.1 o.1.2 o.2 b failureThreshold recoveryThreshold)
    init_obs [false; false; false; true; false; true] = (Healthy, 0, 0).
Proof. done. Qed.

(** ** The evaluation of accepted results *)

(** C6: if the tables hold the replay of every accepted scheduled result but the
    one just accepted, then, in whatever order the results came in,
    [EvaluateAcceptedTx] on an existing monitor and within the correction window
    returns, leaves tables that hold the replay, in slot order, of every accepted
    result, and reports a correction exactly when the slot is not after the last
    one observed. *)
Theorem evaluate_accepted_refines_replay (fl rl : Z) (m job : string) (scheduled expires now : Z)
    (E : list (slot_key * bool)) (s : TxState DB) :
  1 <= fl <= 20 -> 1 <= rl <= 20 -> limits_of m (tx_db s) = (fl, rl) ->
  quiet s -> is_Some (monitors (tx_db s) !! m) ->
  evals_fk (tx_db s) -> synced fl rl m E (tx_db s) ->
  let H := order_by_key (scheduled_checks m (tx_db s)) in
  (forall x, x ∈ E -> x ∈ H) -> (forall x, x ∈ H -> x.1 = (scheduled, job) \/ x ∈ E) ->
  now <= expires + correctionWindow ->
  exists c s', EvaluateAcceptedTx m job scheduled expires now s = (Ok c, s') /\
    synced fl rl m H (tx_db s') /\ evals_fk (tx_db s') /\
    (c = true <-> exists l, last E.*1 = Some l /\ key_le (scheduled, job) l).
Proof.
  intros Hf Hr Hlim Hq Hm Hfk Hsy H HEH HHE Hnow. unfold EvaluateAcceptedTx, after, time_add.
  destruct (Z.ltb_spec (expires + correctionWindow) now); [lia|].
  destruct (evaluateTx_returns m (Some (scheduled, job)) now s Hq Hm) as (c & s' & Hrun & _).
  exists c, s'. split; [done|].
  apply (evaluateTx_synced fl rl m ltac:(lia) Hr E) in Hrun as (Hsy' & Hfk' & -> & _); [|done..].
  rewrite (evaluated_after_all fl rl m E) in Hsy' by done. split; [done|]. split; [done|].
  rewrite bool_decide_eq_true. unfold correction_of, is_correction.
  rewrite (synced_last fl rl m E _ Hsy). simpl. destruct (last E.*1) as [l|]; simpl.
  - pose proof (orderAfter_key (scheduled, job) l) as Ho. simpl in Ho.
    pose proof (key_not_lt l (scheduled, job)) as Hn.
    destruct (orderAfter scheduled job l.1 l.2); split.
    + by intros [].
    + intros (l' & [= <-] & Hk). apply Hn in Hk. destruct Hk. by apply Ho.
    + intros _. exists l. split; [done|]. apply Hn. by intros ?%Ho.
    + by eauto.
  - split; [by intros []|by intros (? & ? & _)].
Qed.

(** A monitor with one evaluated failure; an earlier result arrives after it. *)
Module LateResult.
Definition check (m : string) (at_ : Z) (ok : bool) : HealthCheck :=
  mkHealthCheck "r" "o" "e" m Scheduled at_ at_ at_ ok None None 0 "h" "p" "w" "a" None None None None.
Definition monitor : Monitor :=
  mkMonitor "o" "e" 1 "https://example.test" "GET" 60 10 200 299 0 "" None "p" None None.
Definition db : DB :=
  mkDB {["m" := monitor]} ∅ [] ∅ ∅ ∅ [] {["a" := check "m" 60 true; "b" := check "m" 120 false]}
    {["m" := mkReliabilityState Degraded Degraded 1 0 (Some 120) (Some "b") None None None]}
    {["b" := mkEvaluation "m" 120 false Degraded 1 0]} [] ∅ ∅ ∅ ∅ ∅ ∅ ∅ [] ∅ ∅ ∅ ∅ [].
Definition state : TxState DB := mkTx db 200 false (fun _ => "u") 0 [].
End LateResult.

Lemma evaluate_accepted_refines_replay_witness :
  exists c s', EvaluateAcceptedTx "m" "a" 60 100 200 LateResult.state = (Ok c, s') /\
    synced 3 2 "m" [((60, "a"), true); ((120, "b"), false)] (tx_db s') /\ evals_fk (tx_db s') /\
    (c = true <-> exists l, last [((120, "b"), false)].*1 = Some l /\ key_le (60, "a") l).
Proof.
  apply (evaluate_accepted_refines_replay 3 2 "m" "a" 60 100 200 [((120, "b"), false)] LateResult.state);
    try lia; try (vm_compute; reflexivity); try done.
  - intros id e. change (evaluations (tx_db LateResult.state)) with
      ({["b" := mkEvaluation "m" 120 false Degraded 1 0]} : gmap string Evaluation).
    intros [<- <-]%lookup_singleton_Some. by eexists.
  - constructor; [by repeat constructor|by apply NoDup_singleton| |by split].
    vm_compute. reflexivity.
  - change (order_by_key _) with [((60, "a"), true); ((120, "b"), false)].
    intros x [->|?%elem_of_nil]%elem_of_cons; [set_solver|done].
  - change (order_by_key _) with [((60, "a"), true); ((120, "b"), false)].
    intros x [->|Hx]%elem_of_cons; [by left|by right].
Defined.

(** ** Reports *)

Lemma ceil_div_spec a b i : 0 < b -> ceil_div a b <= i <-> a <= i * b.
Proof.
  intros Hb. unfold ceil_div. pose proof (Z.mul_div_le (- a) b Hb). split; intros Hi.
  - nia.
  - assert (- i <= - a / b); [|lia]. apply Z.div_le_lower_bound; lia.
Qed.

Lemma elem_of_generate_series x start stop step :
  0 < step -> x ∈ generate_series start stop step <->
  exists i, 0 <= i /\ x = start + i * step /\ x <= stop.
Proof.
  intros Hs. unfold generate_series. destruct (Z.leb_spec start stop).
  - rewrite list_elem_of_fmap. setoid_rewrite elem_of_seqZ.
    pose proof (Z.mul_div_le (stop - start) step Hs). split.
    + intros (i & -> & Hi). exists i. repeat split; nia.
    + intros (i & Hi & -> & Hx). exists i. repeat split; try lia.
      assert (i <= (stop - start) / step); [|lia]. apply Z.div_le_lower_bound; lia.
  - split; [by intros ?%elem_of_nil|]. intros (i & Hi & -> & Hx). nia.
Qed.

(** The slots a report expects of a schedule period are, without repetition,
    exactly the instants of the period's grid that lie in the report window and in
    the period. *)
Theorem expected_slots_spec (from to : Z) (p : SchedulePeriod) :
  0 < per_interval_seconds p ->
  NoDup (expected_slots from to p) /\
  forall x, x ∈ expected_slots from to p <->
    (exists i, 0 <= i /\ x = per_first_slot_at p + i * (per_interval_seconds p * second)) /\
    from <= x /\ per_starts_at p <= x /\
    x + microsecond <= to /\ x + microsecond <= default to (per_ends_at p).
Proof.
  intros Hp. unfold expected_slots.
  set (ends := match per_ends_at p with Some e => e | None => to end).
  set (step := per_interval_seconds p * second).
  assert (0 < step) as Hstep by (unfold step, second; lia).
  assert (default to (per_ends_at p) = ends) as -> by (by destruct (per_ends_at p)).
  split.
  - destruct (_ && _); [|constructor]. apply NoDup_filter. unfold generate_series.
    destruct (_ <=? _); [|constructor]. apply NoDup_fmap_2; [|apply NoDup_seqZ].
    intros i j. nia.
  - intros x. destruct (Z.ltb_spec (per_starts_at p) to), (Z.ltb_spec from ends); simpl;
      [|split; [by intros ?%elem_of_nil|unfold microsecond; lia]..].
    rewrite list_elem_of_filter, elem_of_generate_series by done.
    set (k := Z.max 0 (ceil_div (from - per_first_slot_at p) step)). split.
    + intros (Hx & i & Hi & E & Hs). split; [exists (k + i); split; [lia|nia]|]. lia.
    + intros ((i & Hi & E) & Hf & Hst & Ht & He). split; [lia|]. exists (i - k).
      assert (ceil_div (from - per_first_slot_at p) step <= i) by (apply ceil_div_spec; lia).
      repeat split; [lia|nia|lia].
Qed.

Lemma expected_slots_spec_witness :
  expected_slots 0 (3 * minute) (mkSchedulePeriod "m" 60 0 (30 * second) None)
    = [30 * second; 90 * second; 150 * second] /\
  (90 * second ∈ expected_slots 0 (3 * minute) (mkSchedulePeriod "m" 60 0 (30 * second) None)).
Proof.
  split; [vm_compute; reflexivity|].
  apply (expected_slots_spec 0 (3 * minute) (mkSchedulePeriod "m" 60 0 (30 * second) None)); [simpl; lia|].
  simpl. split; [exists 1; split; [lia|reflexivity]|]. unfold minute, second, microsecond. lia.
Defined.

Lemma count_le {A} (P : A -> Prop) `{!forall x, Decision (P x)} (l : list A) :
  0 <= count P l <= Z.of_nat (length l).
Proof. unfold count. pose proof (length_filter P l). lia. Qed.

Lemma count_mono {A} (P Q : A -> Prop) `{!forall x, Decision (P x)} `{!forall x, Decision (Q x)} l :
  (forall x, P x -> Q x) -> count P l <= count Q l.
Proof.
  intros HPQ. unfold count. induction l as [|x l IH]; [done|]. rewrite !filter_cons.
  destruct (decide (P x)), (decide (Q x)); simpl; try lia. exfalso; eauto.
Qed.

Lemma quotient_unit a b q : 0 <= a <= b -> quotient a b = Some q -> (0 <= q <= 1)%Q.
Proof.
  unfold quotient. zcases; [|done]. intros Ha [= <-]. split.
  - apply Qle_shift_div_l; [|rewrite Qmult_0_l]; unfold Qlt, Qle; simpl; lia.
  - apply Qle_shift_div_r; [|rewrite Qmult_1_l]; unfold Qlt, Qle; simpl; lia.
Qed.

(** A report reads only, covers the window up to the present, counts the joined
    rows of the expected slots, and its numbers are consistent: successful results
    are among the observed, observed among the expected, and both ratios lie
    between zero and one.  On a window that has begun, and if no statement fails,
    there is a report. *)
Theorem report_consistent {O} (started clock : Z) (m : string) (from to : Z) (w : World DB O) :
  (w_faults w = [] -> from < Z.min to clock -> is_ok (report started clock m from to w).1) /\
  forall r w', report started clock m from to w = (Ok r, w') ->
  w_db w' = w_db w /\ from < Z.min to clock /\
  let rows := report_rows m from (Z.min to clock) (w_db w) in
  rep_Expected r = Z.of_nat (length rows) /\
  rep_Observed r = count is_Some rows /\
  rep_Successful r = count (fun x => x = Some true) rows /\
  rep_Successful r <= rep_Observed r <= rep_Expected r /\
  rep_Unknown r = rep_Expected r - rep_Observed r /\
  (forall q, rep_ObservedUptime r = Some q \/ rep_Coverage r = Some q -> (0 <= q <= 1)%Q).
Proof.
  unfold report, after.
  assert ((if clock <? to then clock else to) = Z.min to clock) as -> by (zcases).
  destruct (Z.ltb_spec from (Z.min to clock)) as [Hw|]; simpl; [|by split; [lia|]].
  split.
  { intros Hf _. match goal with |- context [with_tx _ ?b] =>
      destruct (with_tx_calm started b w Hf) as (r & w' & E & _) end; [|by rewrite E].
    apply calm_bind; [unfold GetMonitorReliabilityReport; auto with calm|].
    intros [[]]. auto with calm. }
  intros r w' (_ & fs & s & [(H & _)|(H & Hdb)])%with_tx_ok; unfold GetMonitorReliabilityReport in H.
  { apply bind_ok in H as ([[e o] su] & s1 & _ & H). by apply ret_ok in H as [? _]. }
  apply bind_ok in H as ([[e o] su] & s1 & H1 & H). apply select_ok in H1 as [E1 _].
  apply ret_ok in H as [[= <-] _]. simpl in E1. injection E1 as -> -> ->.
  split; [done|]. split; [done|]. set (rows := report_rows _ _ _ _).
  pose proof (count_le is_Some rows). pose proof (count_le (fun x => x = Some true) rows).
  assert (count (fun x => x = Some true) rows <= count is_Some rows).
  { apply count_mono. intros x ->. done. }
  unfold Normalize. simpl. zcases. split; [done|]. split; [done|]. split; [done|].
  split; [lia|]. split; [done|]. intros q [Hq|Hq]; eapply quotient_unit; [|exact Hq| |exact Hq]; lia.
Qed.

(** [Normalize] limits the successful count before it limits the observed one,
    so a report with more observed results than expected ones keeps more successes
    than observations, and an uptime above one. *)
Theorem Normalize_exceeds :
  let r := Normalize (mkReport 1 5 5 0 None None) in
  rep_Observed r = 1 /\ rep_Successful r = 5 /\ rep_ObservedUptime r = Some (inject_Z 5 / inject_Z 1)%Q.
Proof. done. Qed.

(** ** What evaluation writes

    [evaluateTx] writes the tables of the reliability component and no other. *)
Definition evaluation_frame (d d' : DB) : Prop := exists a b c e,
  d' = on_reliability_states (fun _ => a) (on_evaluations (fun _ => b)
         (on_evaluation_positions (fun _ => c) (on_corrections (fun _ => e) d))).

Lemma evaluation_frame_refl d : evaluation_frame d d.
Proof. exists (reliability_states d), (evaluations d), (evaluation_positions d), (corrections d). by destruct d. Qed.

Section Frame.
Context (d d' : DB) (H : evaluation_frame d d').
Lemma frame_states f : evaluation_frame d (on_reliability_states f d').
Proof. destruct H as (a & b & c & e & ->). by exists (f a), b, c, e. Qed.
Lemma frame_evaluations f : evaluation_frame d (on_evaluations f d').
Proof. destruct H as (a & b & c & e & ->). by exists a, (f b), c, e. Qed.
Lemma frame_positions f : evaluation_frame d (on_evaluation_positions f d').
Proof. destruct H as (a & b & c & e & ->). by exists a, b, (f c), e. Qed.
Lemma frame_corrections f : evaluation_frame d (on_corrections f d').
Proof. destruct H as (a & b & c & e & ->). by exists a, b, c, (f e). Qed.
End Frame.

Lemma evaluateTx_frame d m accepted now : keeps (tx_inv (evaluation_frame d)) (evaluateTx m accepted now).
Proof.
  assert (keeps (tx_inv (evaluation_frame d)) (EnsureMonitorReliabilityState m)) as H1.
  { apply keeps_update. intros _ d0 Hf. unfold ensure_state.
    destruct (monitors d0 !! m), (reliability_states d0 !! m); try done.
    by apply frame_states. }
  unfold evaluateTx, alert_limits, restart, rewind, display_at, evaluate_result, LockMonitorReliabilityState,
    GetMonitorAlertThresholds, GetReliabilityBaselineBefore, ListScheduledHealthChecksFrom,
    ListScheduledHealthChecksAfter, ListAllScheduledHealthChecks, GetNewestExpectedMonitorSlot,
    GetMonitorEvaluationAtSlot, DeleteReliabilityEvaluationsFrom, UpsertMonitorResultEvaluation,
    UpdateMonitorReliabilityState, UpsertMonitorEvaluationPosition, InsertMonitorStateCorrection.
  repeat first
    [ exact H1
    | apply keeps_update; intros;
      first [by apply frame_states|by apply frame_evaluations|by apply frame_positions|by apply frame_corrections]
    | keep_step ].
Qed.

(** Evaluation draws no identifiers. *)
Definition ids_are (u : nat -> string) (n : nat) (s : TxState DB) : Prop := tx_uuid s = u /\ tx_next s = n.

Lemma keeps_ids_sql {A} u n (q : Z -> DB -> res A * DB) : keeps (ids_are u n) (sql q).
Proof.
  intros s Hs. unfold sql. destruct (tx_aborted s); [done|].
  destruct (next_fault (tx_faults s)) as [[] fs]; try done.
  destruct (q (tx_now s) (tx_db s)) as [[a|e] d]; [done|]. by destruct e.
Qed.

Lemma evaluateTx_ids u n m accepted now : keeps (ids_are u n) (evaluateTx m accepted now).
Proof.
  unfold evaluateTx, alert_limits, restart, rewind, display_at, evaluate_result, EnsureMonitorReliabilityState,
    LockMonitorReliabilityState, GetMonitorAlertThresholds, GetReliabilityBaselineBefore,
    ListScheduledHealthChecksFrom, ListScheduledHealthChecksAfter, ListAllScheduledHealthChecks,
    GetNewestExpectedMonitorSlot, GetMonitorEvaluationAtSlot, DeleteReliabilityEvaluationsFrom,
    UpsertMonitorResultEvaluation, UpdateMonitorReliabilityState, UpsertMonitorEvaluationPosition,
    InsertMonitorStateCorrection, select, select_one, update.
  repeat first [apply keeps_ids_sql|keep_step].
Qed.
