(* ===== verification/Bytes.v ===== *)
(** * Bytes: encodings of byte strings

    A [[]byte] is a [string] (a list of 8-bit characters).  This file models what
    the platform uses of encoding/hex, encoding/base64 and encoding/binary, with
    the round trips and the length facts the protocol relies on. *)

From stdpp Require Import base list strings pretty.
From Stdlib Require Import ZArith Lia Ascii String.
From S2P Require Import Prelude.

Abbreviation bytes := string.

(** ** Bytes as numbers *)

Definition byte_of (z : Z) : ascii := ascii_of_N (Z.to_N (z mod 256)).
Definition val_of (c : ascii) : Z := Z.of_N (N_of_ascii c).

Lemma val_of_bound c : 0 <= val_of c < 256.
Proof.
  unfold val_of. pose proof (N_ascii_bounded c). lia.
Qed.

Lemma byte_of_val c : byte_of (val_of c) = c.
Proof.
  unfold byte_of. rewrite Z.mod_small by apply val_of_bound. unfold val_of.
  rewrite N2Z.id. apply ascii_N_embedding.
Qed.

Lemma val_of_byte z : val_of (byte_of z) = z mod 256.
Proof.
  unfold byte_of, val_of. pose proof (Z.mod_pos_bound z 256 ltac:(lia)).
  rewrite N_ascii_embedding; [|lia]. by rewrite Z2N.id by lia.
Qed.

Lemma val_of_byte_small z : 0 <= z < 256 -> val_of (byte_of z) = z.
Proof. intros H. rewrite val_of_byte. by apply Z.mod_small. Qed.

(** ** Appending *)

Lemma append_cons x a b : String x a +:+ b = String x (a +:+ b).
Proof. done. Qed.

Lemma append_assoc a b c : (a +:+ b) +:+ c = a +:+ (b +:+ c).
Proof. induction a as [|x a IH]; [done|]. by rewrite !append_cons, IH. Qed.

Lemma append_nil_r a : a +:+ "" = a.
Proof. induction a as [|x a IH]; [done|]. by rewrite append_cons, IH. Qed.

Lemma length_append a b : String.length (a +:+ b) = (String.length a + String.length b)%nat.
Proof. induction a as [|x a IH]; [done|]. rewrite append_cons. simpl. by rewrite IH. Qed.

Lemma slen_append a b : slen (a +:+ b) = slen a + slen b.
Proof. unfold slen. rewrite length_append. lia. Qed.

Lemma append_inj a b c d :
  String.length a = String.length c -> a +:+ b = c +:+ d -> a = c /\ b = d.
Proof.
  revert c. induction a as [|x a IH]; intros [|y c] Hl E; simpl in *; try done.
  rewrite !append_cons in E. injection E as -> E. apply IH in E as [-> ->]; [done|lia].
Qed.

(** [s[:n]] and [s[n:]]. *)
Fixpoint stake (n : nat) (s : bytes) : bytes :=
  match n, s with S n, String c s => String c (stake n s) | _, _ => "" end.
Fixpoint sdrop (n : nat) (s : bytes) : bytes :=
  match n, s with S n, String _ s => sdrop n s | _, _ => s end.

Lemma stake_app a b : stake (String.length a) (a +:+ b) = a.
Proof.
  induction a as [|c a IH]; [by destruct b|]. rewrite append_cons. simpl. by rewrite IH.
Qed.

Lemma stake_all n s : slen s <= Z.of_nat n -> stake n s = s.
Proof.
  revert s. induction n as [|n IH]; intros [|c s] H; unfold slen in *; simpl String.length in *; try (done || lia).
  cbn [stake]. f_equal. apply IH. lia.
Qed.

Lemma sdrop_app a b : sdrop (String.length a) (a +:+ b) = b.
Proof. induction a as [|c a IH]; [by destruct b|]. rewrite append_cons. simpl. by rewrite IH. Qed.

(** [strings.ContainsAny(s, "\r\n")]. *)
Definition contains_newline (s : string) : bool :=
  contains_char s (byte_of 13) || contains_char s (byte_of 10).

Lemma contains_char_app a b c : contains_char (a +:+ b) c = contains_char a c || contains_char b c.
Proof.
  induction a as [|x a IH]; [done|]. rewrite append_cons. simpl. by rewrite IH, orb_assoc.
Qed.

(** ** Big-endian 32-bit length prefixes *)

Definition be32 (n : Z) : bytes :=
  String (byte_of (Z.shiftr n 24)) (String (byte_of (Z.shiftr n 16))
    (String (byte_of (Z.shiftr n 8)) (String (byte_of n) ""))).

Lemma be32_inj m n : 0 <= m < 2 ^ 32 -> 0 <= n < 2 ^ 32 -> be32 m = be32 n -> m = n.
Proof.
  intros Hm Hn E. unfold be32 in E. injection E as E3 E2 E1 E0.
  apply (f_equal val_of) in E0, E1, E2, E3. rewrite !val_of_byte in *.
  rewrite !Z.shiftr_div_pow2 in * by lia. simpl in *.
  Z.to_euclidean_division_equations. lia.
Qed.

(** ** Hexadecimal *)

Definition hex_digit (n : Z) : ascii := if n <? 10 then byte_of (48 + n) else byte_of (87 + n).

Fixpoint hex_encode (b : bytes) : string :=
  match b with
  | EmptyString => EmptyString
  | String c r => String (hex_digit (val_of c / 16)) (String (hex_digit (val_of c mod 16)) (hex_encode r))
  end.

Definition from_hex (c : ascii) : option Z :=
  let n := val_of c in
  if (48 <=? n) && (n <=? 57) then Some (n - 48)
  else if (97 <=? n) && (n <=? 102) then Some (n - 87)
  else if (65 <=? n) && (n <=? 70) then Some (n - 55)
  else None.

Fixpoint hex_decode (s : string) : option bytes :=
  match s with
  | EmptyString => Some EmptyString
  | String a (String b r) =>
      match from_hex a, from_hex b, hex_decode r with
      | Some x, Some y, Some r => Some (String (byte_of (16 * x + y)) r)
      | _, _, _ => None
      end
  | _ => None
  end.

Lemma from_hex_digit n : 0 <= n < 16 -> from_hex (hex_digit n) = Some n.
Proof.
  intros Hn. unfold from_hex, hex_digit. destruct (Z.ltb_spec n 10);
    rewrite val_of_byte_small by lia; zcases; f_equal; lia.
Qed.

Lemma hex_decode_encode b : hex_decode (hex_encode b) = Some b.
Proof.
  induction b as [|c b IH]; [done|]. simpl. pose proof (val_of_bound c).
  rewrite !from_hex_digit, IH.
  - f_equal. f_equal. rewrite <- Z.div_mod by lia. apply byte_of_val.
  - apply Z.mod_pos_bound. lia.
  - split; [apply Z.div_pos; lia|]. apply Z.div_lt_upper_bound; lia.
Qed.

Lemma hex_encode_inj a b : hex_encode a = hex_encode b -> a = b.
Proof. intros E. apply (f_equal hex_decode) in E. rewrite !hex_decode_encode in E. by injection E. Qed.

Lemma slen_hex_encode b : slen (hex_encode b) = 2 * slen b.
Proof. unfold slen. induction b as [|c b IH]; [done|]. simpl. lia. Qed.

(** ** Base64 (RFC 4648, standard alphabet, padded) *)

Definition b64_digit (n : Z) : ascii :=
  if n <? 26 then byte_of (65 + n)
  else if n <? 52 then byte_of (71 + n)
  else if n <? 62 then byte_of (n - 4)
  else if n =? 62 then "+"%char else "/"%char.

Definition from_b64 (c : ascii) : option Z :=
  let n := val_of c in
  if (65 <=? n) && (n <=? 90) then Some (n - 65)
  else if (97 <=? n) && (n <=? 122) then Some (n - 71)
  else if (48 <=? n) && (n <=? 57) then Some (n + 4)
  else if n =? 43 then Some 62
  else if n =? 47 then Some 63
  else None.

Fixpoint base64_encode (b : bytes) : string :=
  match b with
  | EmptyString => EmptyString
  | String x EmptyString =>
      let n := val_of x in
      String (b64_digit (n / 4)) (String (b64_digit (n mod 4 * 16)) "==")
  | String x (String y EmptyString) =>
      let n := val_of x * 256 + val_of y in
      String (b64_digit (n / 1024)) (String (b64_digit (n / 16 mod 64))
        (String (b64_digit (n mod 16 * 4)) "="))
  | String x (String y (String z r)) =>
      let n := (val_of x * 256 + val_of y) * 256 + val_of z in
      String (b64_digit (n / 262144)) (String (b64_digit (n / 4096 mod 64))
        (String (b64_digit (n / 64 mod 64)) (String (b64_digit (n mod 64)) (base64_encode r))))
  end.

Fixpoint decode_quanta (s : string) : option bytes :=
  match s with
  | EmptyString => Some EmptyString
  | String a (String b (String c (String d r))) =>
      match from_b64 a, from_b64 b with
      | Some x, Some y =>
          match from_b64 c, from_b64 d with
          | Some z, Some w =>
              match decode_quanta r with
              | Some r =>
                  Some (String (byte_of (x * 4 + y / 16))
                    (String (byte_of (y * 16 + z / 4)) (String (byte_of (z * 64 + w)) r)))
              | None => None
              end
          | Some z, None =>
              if Ascii.eqb d "="%char && String.eqb r "" then
                Some (String (byte_of (x * 4 + y / 16)) (String (byte_of (y * 16 + z / 4)) ""))
              else None
          | None, _ =>
              if Ascii.eqb c "="%char && Ascii.eqb d "="%char && String.eqb r "" then
                Some (String (byte_of (x * 4 + y / 16)) "")
              else None
          end
      | _, _ => None
      end
  | _ => None
  end.

(** The decoder skips carriage returns and line feeds. *)
Fixpoint strip_newlines (s : string) : string :=
  match s with
  | EmptyString => EmptyString
  | String c r =>
      if (val_of c =? 10) || (val_of c =? 13) then strip_newlines r else String c (strip_newlines r)
  end.

Definition base64_decode (s : string) : option bytes := decode_quanta (strip_newlines s).

Lemma from_b64_digit n : 0 <= n < 64 -> from_b64 (b64_digit n) = Some n.
Proof.
  intros Hn.
  assert (forallb (fun n => bool_decide (from_b64 (b64_digit n) = Some n)) (seqZ 0 64) = true) as H
    by (vm_compute; reflexivity).
  rewrite forallb_forall in H. specialize (H n). rewrite bool_decide_eq_true in H. apply H.
  apply list_elem_of_In, elem_of_seqZ. lia.
Qed.

Lemma byte_of_mod a c : a mod 256 = val_of c -> byte_of a = c.
Proof.
  intros H. rewrite <- (byte_of_val c). unfold byte_of. rewrite H. f_equal.
  by rewrite Z.mod_small by apply val_of_bound.
Qed.

Ltac digits := Z.to_euclidean_division_equations; lia.

Lemma decode_quanta_encode b : decode_quanta (base64_encode b) = Some b.
Proof.
  enough (forall n b, (String.length b <= n)%nat -> decode_quanta (base64_encode b) = Some b) as H
    by (by apply (H (String.length b))).
  clear b. induction n as [|n IH]; intros b Hb; [by destruct b; [|simpl in Hb; lia]|].
  destruct b as [|x [|y [|z r]]]; [done|..].
  - pose proof (val_of_bound x). simpl. rewrite !from_b64_digit by digits. simpl.
    f_equal. f_equal. apply byte_of_mod. digits.
  - pose proof (val_of_bound x). pose proof (val_of_bound y). cbn -[Z.mul Z.div Z.modulo Z.add].
    rewrite !from_b64_digit by digits. cbn -[Z.mul Z.div Z.modulo Z.add].
    f_equal. f_equal; [|f_equal]; apply byte_of_mod; digits.
  - pose proof (val_of_bound x). pose proof (val_of_bound y). pose proof (val_of_bound z).
    cbn -[Z.mul Z.div Z.modulo Z.add]. rewrite !from_b64_digit by digits.
    rewrite IH by (simpl in Hb; lia). f_equal. f_equal; [|f_equal; [|f_equal]]; apply byte_of_mod; digits.
Qed.

Lemma b64_digit_no_newline n : 0 <= n < 64 ->
  (val_of (b64_digit n) =? 10) || (val_of (b64_digit n) =? 13) = false.
Proof.
  intros Hn.
  destruct (val_of (b64_digit n) =? 10) eqn:E1, (val_of (b64_digit n) =? 13) eqn:E2; try done;
    pose proof (from_b64_digit n Hn) as H; unfold from_b64 in H; apply Z.eqb_eq in E1 || apply Z.eqb_eq in E2;
    rewrite ?E1, ?E2 in H; done.
Qed.

Lemma strip_newlines_encode b : strip_newlines (base64_encode b) = base64_encode b.
Proof.
  enough (forall n b, (String.length b <= n)%nat -> strip_newlines (base64_encode b) = base64_encode b) as H
    by (by apply (H (String.length b))).
  clear b. induction n as [|n IH]; intros b Hb; [by destruct b; [|simpl in Hb; lia]|].
  destruct b as [|x [|y [|z r]]]; [done|..]; pose proof (val_of_bound x);
    try pose proof (val_of_bound y); try pose proof (val_of_bound z);
    cbn -[Z.mul Z.div Z.modulo Z.add Z.eqb val_of b64_digit]; rewrite !b64_digit_no_newline by digits; [done|done|].
  by rewrite IH by (simpl in Hb; lia).
Qed.

Lemma base64_decode_encode b : base64_decode (base64_encode b) = Some b.
Proof. unfold base64_decode. rewrite strip_newlines_encode. apply decode_quanta_encode. Qed.

(** ** Base64 without padding ([base64.RawURLEncoding], [base64.RawStdEncoding]) *)

Definition url_char (c : ascii) : ascii :=
  if Ascii.eqb c "+" then "-"%char else if Ascii.eqb c "/" then "_"%char else c.
Definition url_digit (n : Z) : ascii := url_char (b64_digit n).
Definition from_url (c : ascii) : option Z :=
  if Ascii.eqb c "-" then Some 62 else if Ascii.eqb c "_" then Some 63
  else if Ascii.eqb c "+" || Ascii.eqb c "/" then None else from_b64 c.

Section Raw.
Variable digit : Z -> ascii.
Variable from : ascii -> option Z.

Fixpoint raw_encode (b : bytes) : string :=
  match b with
  | EmptyString => EmptyString
  | String x EmptyString =>
      let n := val_of x in String (digit (n / 4)) (String (digit (n mod 4 * 16)) "")
  | String x (String y EmptyString) =>
      let n := val_of x * 256 + val_of y in
      String (digit (n / 1024)) (String (digit (n / 16 mod 64)) (String (digit (n mod 16 * 4)) ""))
  | String x (String y (String z r)) =>
      let n := (val_of x * 256 + val_of y) * 256 + val_of z in
      String (digit (n / 262144)) (String (digit (n / 4096 mod 64))
        (String (digit (n / 64 mod 64)) (String (digit (n mod 64)) (raw_encode r))))
  end.

(** A strict decoder refuses padding bits that are not zero. *)
Fixpoint raw_quanta (strict : bool) (s : string) : option bytes :=
  match s with
  | EmptyString => Some EmptyString
  | String a (String b EmptyString) =>
      match from a, from b with
      | Some x, Some y =>
          if strict && negb (y mod 16 =? 0) then None else Some (String (byte_of (x * 4 + y / 16)) "")
      | _, _ => None
      end
  | String a (String b (String c EmptyString)) =>
      match from a, from b, from c with
      | Some x, Some y, Some z =>
          if strict && negb (z mod 4 =? 0) then None
          else Some (String (byte_of (x * 4 + y / 16)) (String (byte_of (y * 16 + z / 4)) ""))
      | _, _, _ => None
      end
  | String a (String b (String c (String d r))) =>
      match from a, from b, from c, from d, raw_quanta strict r with
      | Some x, Some y, Some z, Some w, Some r =>
          Some (String (byte_of (x * 4 + y / 16))
            (String (byte_of (y * 16 + z / 4)) (String (byte_of (z * 64 + w)) r)))
      | _, _, _, _, _ => None
      end
  | _ => None
  end.

Definition raw_decode (strict : bool) (s : string) : option bytes := raw_quanta strict (strip_newlines s).
End Raw.

Definition rawurl_encode : bytes -> string := raw_encode url_digit.
Definition rawurl_decode : string -> option bytes := raw_decode from_url false.
Definition rawurl_decode_strict : string -> option bytes := raw_decode from_url true.
Definition rawstd_encode : bytes -> string := raw_encode b64_digit.
Definition rawstd_decode_strict : string -> option bytes := raw_decode from_b64 true.

(** Text that any JSON encoder carries: printable ASCII. *)
Definition printable (c : ascii) : bool := (32 <=? val_of c) && (val_of c <=? 126).
Fixpoint printable_text (s : string) : bool :=
  match s with String c r => printable c && printable_text r | EmptyString => true end.

Definition digit_facts (n : Z) : bool :=
  bool_decide (from_url (url_digit n) = Some n) && printable (url_digit n) && printable (b64_digit n)
  && negb ((val_of (url_digit n) =? 10) || (val_of (url_digit n) =? 13)).

Lemma digit_facts_hold n : 0 <= n < 64 -> digit_facts n = true.
Proof.
  intros Hn. assert (forallb digit_facts (seqZ 0 64) = true) as H by (vm_compute; reflexivity).
  rewrite forallb_forall in H. apply H, list_elem_of_In, elem_of_seqZ. lia.
Qed.

Lemma url_digit_spec n : 0 <= n < 64 ->
  from_url (url_digit n) = Some n /\ printable (url_digit n) = true /\ printable (b64_digit n) = true /\
  (val_of (url_digit n) =? 10) || (val_of (url_digit n) =? 13) = false.
Proof.
  intros Hn. pose proof (digit_facts_hold n Hn) as H. unfold digit_facts in H.
  rewrite !andb_true_iff, bool_decide_eq_true, negb_true_iff in H. tauto.
Qed.

(** Induction on three bytes at a time. *)
Lemma triples (P : bytes -> Prop) :
  P "" -> (forall x, P (String x "")) -> (forall x y, P (String x (String y ""))) ->
  (forall x y z r, P r -> P (String x (String y (String z r)))) -> forall b, P b.
Proof.
  intros H0 H1 H2 H3. enough (forall n b, (String.length b <= n)%nat -> P b) as H by (intros b; by apply (H (String.length b))).
  induction n as [|n IH]; intros b Hb; [by destruct b; [|simpl in Hb; lia]|].
  destruct b as [|x [|y [|z r]]]; [done..|]. apply H3, IH. simpl in Hb. lia.
Qed.

Ltac byte_bounds :=
  repeat match goal with
  | c : ascii |- _ => lazymatch goal with H : 0 <= val_of c < 256 |- _ => fail | _ => pose proof (val_of_bound c) end
  end.
Ltac b64_simpl := cbn -[Z.mul Z.div Z.modulo Z.add Z.eqb val_of b64_digit url_digit printable].

Lemma from_url_digit n : 0 <= n < 64 -> from_url (url_digit n) = Some n.
Proof. apply url_digit_spec. Qed.

Lemma url_digit_no_newline n : 0 <= n < 64 -> (val_of (url_digit n) =? 10) || (val_of (url_digit n) =? 13) = false.
Proof. apply url_digit_spec. Qed.

Section RawFacts.
Variable digit : Z -> ascii.
Variable from : ascii -> option Z.
Hypothesis from_digit : forall n, 0 <= n < 64 -> from (digit n) = Some n.
Hypothesis no_newline : forall n, 0 <= n < 64 -> (val_of (digit n) =? 10) || (val_of (digit n) =? 13) = false.

Lemma raw_quanta_encode strict b : raw_quanta from strict (raw_encode digit b) = Some b.
Proof.
  revert b. apply triples; [done|intros; byte_bounds; b64_simpl; rewrite !from_digit by digits..].
  - rewrite (proj2 (Z.eqb_eq _ 0)) by digits. rewrite andb_false_r. do 2 f_equal. apply byte_of_mod. digits.
  - rewrite (proj2 (Z.eqb_eq _ 0)) by digits. rewrite andb_false_r.
    do 2 f_equal; [|f_equal]; apply byte_of_mod; digits.
  - rewrite H. do 2 f_equal; [|f_equal; [|f_equal]]; apply byte_of_mod; digits.
Qed.

Lemma raw_decode_encode strict b : raw_decode from strict (raw_encode digit b) = Some b.
Proof.
  unfold raw_decode. transitivity (raw_quanta from strict (raw_encode digit b)); [f_equal|apply raw_quanta_encode].
  revert b. apply triples; [done|intros; byte_bounds; b64_simpl; rewrite !no_newline by digits..]; [done..|].
  by rewrite H.
Qed.
End RawFacts.

Lemma rawurl_decode_encode b : rawurl_decode (rawurl_encode b) = Some b.
Proof. apply raw_decode_encode; [apply from_url_digit|apply url_digit_no_newline]. Qed.
Lemma rawurl_strict_encode b : rawurl_decode_strict (rawurl_encode b) = Some b.
Proof. apply raw_decode_encode; [apply from_url_digit|apply url_digit_no_newline]. Qed.
Lemma rawstd_strict_encode b : rawstd_decode_strict (rawstd_encode b) = Some b.
Proof. apply raw_decode_encode; [apply from_b64_digit|apply b64_digit_no_newline]. Qed.

Lemma printable_digits n : 0 <= n < 64 -> printable (url_digit n) = true /\ printable (b64_digit n) = true.
Proof. intros H. apply url_digit_spec in H. tauto. Qed.

Lemma printable_rawurl b : printable_text (rawurl_encode b) = true.
Proof.
  unfold rawurl_encode. revert b. apply triples; [done|intros; byte_bounds; b64_simpl..];
    rewrite !(fun n H => proj1 (printable_digits n H)) by digits; done.
Qed.

Lemma printable_base64 b : printable_text (base64_encode b) = true.
Proof.
  revert b. apply triples; [done|intros; byte_bounds; b64_simpl..];
    rewrite !(fun n H => proj2 (printable_digits n H)) by digits; done.
Qed.

Lemma slen_base64 b : slen (base64_encode b) <= slen b / 3 * 4 + 4.
Proof. revert b. apply triples; [done|intros; unfold slen in *; simpl String.length in *; digits..]. Qed.
