(* ===== verification/Envelope.v ===== *)
(** * Envelope: the worker protocol

    Models internal/envelope/envelope.go: sealing and opening of jobs, signing and
    verification of results and of expiry acknowledgements, and the validation of
    the three records.

    CBOR, SHA-256, Ed25519, X25519, HKDF and AES-GCM are not part of the
    repository: they are the operations of the class [Primitives], and what the
    protocol relies on of them is the class [PrimitiveLaws] (a decoder inverts its
    encoder, a signature made with a key verifies under it, the two sides of a key
    agreement get the same secret, decryption inverts encryption). *)

From stdpp Require Import base gmap list strings pretty.
From Stdlib Require Import ZArith Lia Ascii String.
From S2P Require Import Prelude Bytes.

(** ** Records *)

Definition PreviousSchemaVersion : Z := 1.
Definition SchemaVersion : Z := 2.
Definition MaxMessageBytes : Z := 64 * 1024.
Definition MaxClockSkew : Z := 5 * second.

Record RequestLimits : Type := mkLimits {
  MaxResponseBytes : Z;
  MaxHeaderBytes : Z;
  MaxRedirects : Z
}.

Record Job : Type := mkJob {
  j_SchemaVersion : Z;
  j_JobID : string;
  j_JobType : string;
  j_WorkerPoolID : string;
  j_NetworkPolicyVersion : Z;
  j_ScheduledAt : Z;
  j_ExpiresAt : Z;
  j_TargetURL : string;
  j_Method : string;
  j_TimeoutSeconds : Z;
  j_ExpectedStatusMin : Z;
  j_ExpectedStatusMax : Z;
  j_Headers : gmap string string;
  j_Limits : RequestLimits;
  j_PlatformKeyID : string;
  j_WorkerEncryptionKeyID : string
}.

Record Attributes : Type := mkAttributes {
  a_SchemaVersion : Z;
  a_JobID : string;
  a_WorkerPoolID : string;
  a_SnapshotHash : string;
  a_ExpiresAt : Z;
  a_ResultID : string;
  a_ResultKeyID : string;
  a_PlatformKeyID : string;
  a_WorkerEncryptionKeyID : string
}.

Record signedJob : Type := mkSignedJob { sj_Job : Job; sj_Signature : bytes }.

Record sealedJob : Type := mkSealedJob {
  se_SchemaVersion : Z;
  se_EphemeralPublicKey : bytes;
  se_Nonce : bytes;
  se_Ciphertext : bytes
}.

Record Result : Type := mkResult {
  r_SchemaVersion : Z;
  r_ResultID : string;
  r_JobID : string;
  r_SnapshotHash : string;
  r_WorkerPoolID : string;
  r_WorkerID : string;
  r_AttemptID : string;
  r_ScheduledAt : Z;
  r_StartedAt : Z;
  r_CompletedAt : Z;
  r_Succeeded : bool;
  r_StatusCode : option Z;
  r_ErrorCategory : option string;
  r_DNSMicros : option Z;
  r_ConnectMicros : option Z;
  r_TLSMicros : option Z;
  r_FirstByteMicros : option Z;
  r_TotalMicros : Z;
  r_ResultKeyID : string
}.

Record SignedResult : Type := mkSignedResult { sr_Result : Result; sr_Signature : bytes }.

Record ExpiredAcknowledgement : Type := mkExpired {
  x_SchemaVersion : Z;
  x_JobID : string;
  x_SnapshotHash : string;
  x_WorkerPoolID : string;
  x_WorkerID : string;
  x_ExpiredAt : Z;
  x_ResultKeyID : string
}.

Record signedExpired : Type := mkSignedExpired { sx_Acknowledgement : ExpiredAcknowledgement; sx_Signature : bytes }.

#[global] Instance RequestLimits_eq_dec : EqDecision RequestLimits.
Proof. solve_decision. Defined.
#[global] Instance Job_eq_dec : EqDecision Job.
Proof. solve_decision. Defined.
#[global] Instance Attributes_eq_dec : EqDecision Attributes.
Proof. solve_decision. Defined.
#[global] Instance signedJob_eq_dec : EqDecision signedJob.
Proof. solve_decision. Defined.
#[global] Instance sealedJob_eq_dec : EqDecision sealedJob.
Proof. solve_decision. Defined.
#[global] Instance Result_eq_dec : EqDecision Result.
Proof. solve_decision. Defined.
#[global] Instance SignedResult_eq_dec : EqDecision SignedResult.
Proof. solve_decision. Defined.
#[global] Instance ExpiredAcknowledgement_eq_dec : EqDecision ExpiredAcknowledgement.
Proof. solve_decision. Defined.
#[global] Instance signedExpired_eq_dec : EqDecision signedExpired.
Proof. solve_decision. Defined.

(** ** The libraries *)

(** [canonical.Marshal] and [strict.Unmarshal] at one type. *)
Record Codec (A : Type) : Type := mkCodec {
  marshal : A -> option bytes;
  unmarshal : bytes -> option A
}.
Arguments mkCodec {A}. Arguments marshal {A}. Arguments unmarshal {A}.

Class Primitives : Type := {
  cbor_job : Codec Job;
  cbor_attributes : Codec Attributes;
  cbor_signed_job : Codec signedJob;
  cbor_sealed_job : Codec sealedJob;
  cbor_result : Codec Result;
  cbor_signed_result : Codec SignedResult;
  cbor_expired : Codec ExpiredAcknowledgement;
  cbor_signed_expired : Codec signedExpired;
  sha256 : bytes -> bytes;
  ed25519_public : bytes -> bytes;                    (* of a private key *)
  ed25519_sign : bytes -> bytes -> bytes;             (* private key, message *)
  ed25519_verify : bytes -> bytes -> bytes -> bool;   (* public key, message, signature *)
  x25519_public : bytes -> bytes;                     (* of a private key *)
  x25519_key_ok : bytes -> bool;                      (* NewPublicKey accepts the bytes *)
  x25519_ecdh : bytes -> bytes -> option bytes;       (* private key, public key *)
  hkdf_sha256 : bytes -> bytes -> bytes;              (* secret, info; 32 bytes *)
  gcm_seal : bytes -> bytes -> bytes -> bytes -> bytes;         (* key, nonce, plaintext, data *)
  gcm_open : bytes -> bytes -> bytes -> bytes -> option bytes   (* key, nonce, ciphertext, data *)
}.

Definition inverts {A} (c : Codec A) : Prop := forall a b, marshal c a = Some b -> unmarshal c b = Some a.

Class PrimitiveLaws {P : Primitives} : Prop := {
  signed_job_inverts : inverts cbor_signed_job;
  sealed_job_inverts : inverts cbor_sealed_job;
  signed_result_inverts : inverts cbor_signed_result;
  signed_expired_inverts : inverts cbor_signed_expired;
  ed25519_complete k m : slen k = 64 -> ed25519_verify (ed25519_public k) m (ed25519_sign k m) = true;
  ed25519_signature_length k m : slen (ed25519_sign k m) = 64;
  ed25519_public_length k : slen k = 64 -> slen (ed25519_public k) = 32;
  x25519_agree a b : x25519_ecdh a (x25519_public b) = x25519_ecdh b (x25519_public a);
  x25519_public_ok a : slen (x25519_public a) = 32 /\ x25519_key_ok (x25519_public a) = true;
  sha256_length m : slen (sha256 m) = 32;
  gcm_length k n p d : slen (gcm_seal k n p d) = slen p + 16;
  gcm_inverts k n p d : gcm_open k n (gcm_seal k n p d) d = Some p
}.

(** ** Validation *)

Definition SupportsSchema (version : Z) : bool :=
  (version =? PreviousSchemaVersion) || (version =? SchemaVersion).

Definition empty_string (s : string) : bool := String.eqb s "".

Definition validateJob (job : Job) (now : Z) (requireFuture : bool) : res () :=
  if negb (SupportsSchema (j_SchemaVersion job)) || empty_string (j_JobID job)
     || empty_string (j_WorkerPoolID job) || (j_NetworkPolicyVersion job <? 1)
     || empty_string (j_PlatformKeyID job) || empty_string (j_WorkerEncryptionKeyID job)
     || (negb (String.eqb (j_JobType job) "scheduled") && negb (String.eqb (j_JobType job) "manual_test"))
     || (negb (String.eqb (j_Method job) "GET") && negb (String.eqb (j_Method job) "HEAD"))
     || (j_TimeoutSeconds job <? 1) || (10 <? j_TimeoutSeconds job)
     || (j_ExpectedStatusMin job <? 100) || (599 <? j_ExpectedStatusMax job)
     || (j_ExpectedStatusMax job <? j_ExpectedStatusMin job)
     || (slen (j_TargetURL job) =? 0) || (2048 <? slen (j_TargetURL job))
     || is_zero_time (j_ScheduledAt job) || before (j_ExpiresAt job) (j_ScheduledAt job)
     || (2 * minute <? time_sub (j_ExpiresAt job) (j_ScheduledAt job))
     || (MaxResponseBytes (j_Limits job) <? 1) || (1024 * 1024 <? MaxResponseBytes (j_Limits job))
     || (MaxHeaderBytes (j_Limits job) <? 1) || (64 * 1024 <? MaxHeaderBytes (j_Limits job))
     || (MaxRedirects (j_Limits job) <? 0) || (5 <? MaxRedirects (j_Limits job))
     || (32 <? Z.of_nat (size (j_Headers job)))
  then Err ErrEnvelopeInvalid
  else if requireFuture && before (j_ExpiresAt job) now then Err ErrEnvelopeInvalid
  else Ok ().

Definition is_none {A} (o : option A) : bool := match o with None => true | Some _ => false end.

Definition validateResult (result : Result) : res () :=
  if negb (SupportsSchema (r_SchemaVersion result)) || empty_string (r_ResultID result)
     || empty_string (r_JobID result) || negb (slen (r_SnapshotHash result) =? 64)
     || empty_string (r_WorkerPoolID result) || empty_string (r_WorkerID result)
     || empty_string (r_AttemptID result) || empty_string (r_ResultKeyID result)
     || is_zero_time (r_ScheduledAt result) || is_zero_time (r_StartedAt result)
     || before (r_CompletedAt result) (r_StartedAt result) || (r_TotalMicros result <? 0)
     || (match r_StatusCode result with Some c => (c <? 100) || (599 <? c) | None => false end)
     || (negb (r_Succeeded result) && is_none (r_ErrorCategory result))
     || (r_Succeeded result && (is_none (r_StatusCode result) || negb (is_none (r_ErrorCategory result))))
  then Err ErrEnvelopeInvalid
  else Ok ().

Definition validateExpired (value : ExpiredAcknowledgement) : res () :=
  if negb (SupportsSchema (x_SchemaVersion value)) || empty_string (x_JobID value)
     || negb (slen (x_SnapshotHash value) =? 64) || empty_string (x_WorkerPoolID value)
     || empty_string (x_WorkerID value) || empty_string (x_ResultKeyID value)
     || is_zero_time (x_ExpiredAt value)
  then Err ErrEnvelopeInvalid
  else Ok ().

(** ** Domain separation *)

Definition uint32 (z : Z) : Z := z mod 2 ^ 32.

Fixpoint append_parts (out : bytes) (parts : list bytes) : bytes :=
  match parts with
  | [] => out
  | part :: parts => append_parts (out +:+ be32 (uint32 (slen part)) +:+ part) parts
  end.

Definition appendDomain (domain : string) (parts : list bytes) : bytes :=
  append_parts (domain +:+ String (byte_of 0) "") parts.

Arguments appendDomain : simpl never.
Arguments validateJob : simpl never.
Arguments validateResult : simpl never.
Arguments validateExpired : simpl never.

(** ** Operations *)

Section Operations.
Context {P : Primitives}.

Definition guard (b : bool) {A} (k : res A) : res A := if b then Err ErrEnvelopeInvalid else k.
Definition or_invalid {A B} (o : option A) (k : A -> res B) : res B :=
  match o with Some a => k a | None => Err ErrEnvelopeInvalid end.

Definition deriveKey (secret ephemeralPublic workerPublic : bytes) (schema : Z) : bytes :=
  hkdf_sha256 secret
    (appendDomain ("watchtrace-job-hkdf-v" +:+ pretty schema) [ephemeralPublic; workerPublic]).

Definition job_attributes (job : Job) (plain : bytes) : Attributes :=
  mkAttributes (j_SchemaVersion job) (j_JobID job) (j_WorkerPoolID job)
    (hex_encode (sha256 plain)) (j_ExpiresAt job) "" "" (j_PlatformKeyID job) (j_WorkerEncryptionKeyID job).

(** [rand_key] and [rand_nonce] are what the system's random source returns. *)
Definition SealJob (job : Job) (signer : bytes) (workerPublic : option bytes) (now : Z)
    (rand_key rand_nonce : res bytes) : res (bytes * Attributes) :=
  guard (negb (slen signer =? 64) || is_none workerPublic || negb (is_ok (validateJob job now true))) (
  or_invalid workerPublic (fun workerPublic =>
  or_invalid (marshal cbor_job job) (fun plain =>
  let attrs := job_attributes job plain in
  or_invalid (marshal cbor_attributes attrs) (fun aad =>
  or_invalid (marshal cbor_signed_job (mkSignedJob job
    (ed25519_sign signer (appendDomain "watchtrace-job-signature" [aad; plain])))) (fun signedBytes =>
  match rand_key with
  | Err e => Err e
  | Ok eph =>
      or_invalid (x25519_ecdh eph workerPublic) (fun secret =>
      let key := deriveKey secret (x25519_public eph) workerPublic (j_SchemaVersion job) in
      match rand_nonce with
      | Err e => Err e
      | Ok nonce =>
          or_invalid (marshal cbor_sealed_job (mkSealedJob (j_SchemaVersion job) (x25519_public eph) nonce
            (gcm_seal key nonce signedBytes aad))) (fun body =>
          guard ((slen body =? 0) || (MaxMessageBytes <? slen body)) (Ok (body, attrs)))
      end)
  end))))).

Definition attributes_match (job : Job) (attrs : Attributes) : bool :=
  (j_SchemaVersion job =? a_SchemaVersion attrs) && String.eqb (j_JobID job) (a_JobID attrs)
  && String.eqb (j_WorkerPoolID job) (a_WorkerPoolID attrs)
  && String.eqb (j_PlatformKeyID job) (a_PlatformKeyID attrs)
  && String.eqb (j_WorkerEncryptionKeyID job) (a_WorkerEncryptionKeyID attrs)
  && time_equal (j_ExpiresAt job) (a_ExpiresAt attrs).

Definition OpenJob (data : bytes) (attrs : Attributes) (workerPrivate : option bytes)
    (platformPublic : bytes) (now tolerance : Z) : res Job :=
  guard ((slen data =? 0) || (MaxMessageBytes <? slen data) || negb (SupportsSchema (a_SchemaVersion attrs))
    || is_none workerPrivate || negb (slen platformPublic =? 32) || (tolerance <? 0)
    || (30 * second <? tolerance)) (
  or_invalid workerPrivate (fun workerPrivate =>
  or_invalid (unmarshal cbor_sealed_job data) (fun sealed =>
  guard (negb (se_SchemaVersion sealed =? a_SchemaVersion attrs)
    || negb (slen (se_EphemeralPublicKey sealed) =? 32) || negb (slen (se_Nonce sealed) =? 12)
    || negb (x25519_key_ok (se_EphemeralPublicKey sealed))) (
  or_invalid (x25519_ecdh workerPrivate (se_EphemeralPublicKey sealed)) (fun secret =>
  let key := deriveKey secret (se_EphemeralPublicKey sealed) (x25519_public workerPrivate)
               (se_SchemaVersion sealed) in
  or_invalid (marshal cbor_attributes attrs) (fun aad =>
  or_invalid (gcm_open key (se_Nonce sealed) (se_Ciphertext sealed) aad) (fun plain =>
  or_invalid (unmarshal cbor_signed_job plain) (fun signed =>
  guard (negb (slen (sj_Signature signed) =? 64)) (
  or_invalid (marshal cbor_job (sj_Job signed)) (fun jobBytes =>
  guard (negb (ed25519_verify platformPublic
    (appendDomain "watchtrace-job-signature" [aad; jobBytes]) (sj_Signature signed))) (
  guard (negb (String.eqb (hex_encode (sha256 jobBytes)) (a_SnapshotHash attrs))
    || negb (attributes_match (sj_Job signed) attrs)
    || negb (is_ok (validateJob (sj_Job signed) (time_add now (- tolerance)) false))) (
  Ok (sj_Job signed))))))))))))).

Definition SignResult (result : Result) (key : bytes) : res bytes :=
  guard (negb (slen key =? 64) || negb (is_ok (validateResult result))) (
  or_invalid (marshal cbor_result result) (fun raw =>
  or_invalid (marshal cbor_signed_result (mkSignedResult result
    (ed25519_sign key (appendDomain "watchtrace-result-signature" [raw])))) (fun out =>
  guard (MaxMessageBytes <? slen out) (Ok out)))).

Definition PeekResult (data : bytes) : res Result :=
  guard ((slen data =? 0) || (MaxMessageBytes <? slen data)) (
  or_invalid (unmarshal cbor_signed_result data) (fun signed =>
  guard (negb (is_ok (validateResult (sr_Result signed)))) (Ok (sr_Result signed)))).

(** [raw, _ := canonical.Marshal(...)]: on an error the bytes are empty. *)
Definition marshal_or_nil {A} (c : Codec A) (a : A) : bytes := default "" (marshal c a).

Definition VerifyResult (data key : bytes) : res Result :=
  match PeekResult data with
  | Err _ => Err ErrEnvelopeInvalid
  | Ok result =>
      guard (negb (slen key =? 32)) (
      or_invalid (unmarshal cbor_signed_result data) (fun signed =>
      guard (negb (slen (sr_Signature signed) =? 64)) (
      guard (negb (ed25519_verify key
        (appendDomain "watchtrace-result-signature" [marshal_or_nil cbor_result (sr_Result signed)])
        (sr_Signature signed))) (Ok result))))
  end.

Definition ResultAttributes (result : Result) : Attributes :=
  mkAttributes (r_SchemaVersion result) (r_JobID result) (r_WorkerPoolID result)
    (r_SnapshotHash result) zero_time (r_ResultID result) (r_ResultKeyID result) "" "".

Definition SignExpired (value : ExpiredAcknowledgement) (key : bytes) : res bytes :=
  guard (negb (slen key =? 64) || negb (is_ok (validateExpired value))) (
  or_invalid (marshal cbor_signed_expired (mkSignedExpired value
    (ed25519_sign key (appendDomain "watchtrace-expired-signature" [marshal_or_nil cbor_expired value]))))
  (fun out => guard (MaxMessageBytes <? slen out) (Ok out))).

Definition VerifyExpired (data key : bytes) : res ExpiredAcknowledgement :=
  guard ((slen data =? 0) || (MaxMessageBytes <? slen data) || negb (slen key =? 32)) (
  or_invalid (unmarshal cbor_signed_expired data) (fun signed =>
  guard (negb (is_ok (validateExpired (sx_Acknowledgement signed)))) (
  guard (negb (ed25519_verify key
    (appendDomain "watchtrace-expired-signature" [marshal_or_nil cbor_expired (sx_Acknowledgement signed)])
    (sx_Signature signed))) (Ok (sx_Acknowledgement signed))))).

(** ** Lemmas *)

Lemma guard_ok b {A} (k : res A) a : guard b k = Ok a -> b = false /\ k = Ok a.
Proof. destruct b; simpl; [done|auto]. Qed.

Lemma guard_pass b {A} (k : res A) : b = false -> guard b k = k.
Proof. by intros ->. Qed.

Lemma or_invalid_ok {A B} (o : option A) (k : A -> res B) b :
  or_invalid o k = Ok b -> exists a, o = Some a /\ k a = Ok b.
Proof. destruct o; simpl; [eauto|done]. Qed.
End Operations.

Arguments deriveKey {P} : simpl never.
Arguments job_attributes {P} : simpl never.
Arguments attributes_match : simpl never.

(** [envelope_inv H] reads a successful run backwards through its guards. *)
Ltac envelope_inv H :=
  repeat match type of H with
  | guard _ _ = Ok _ => let G := fresh "G" in apply guard_ok in H as [G H]
  | or_invalid _ _ = Ok _ => let a := fresh "v" in let E := fresh "E" in
      apply or_invalid_ok in H as (a & E & H)
  | match ?x with Ok _ => _ | Err _ => _ end = Ok _ =>
      let E := fresh "E" in destruct x eqn:E; [|discriminate H]
  end.

(** [bools] turns boolean hypotheses into propositions. *)
Ltac bools :=
  repeat match goal with
  | H : _ || _ = false |- _ => apply orb_false_iff in H as [? H]
  | H : _ && _ = true |- _ => apply andb_true_iff in H as [? H]
  | H : negb _ = false |- _ => apply negb_false_iff in H
  | H : negb _ = true |- _ => apply negb_true_iff in H
  | H : (_ =? _) = true |- _ => apply Z.eqb_eq in H
  | H : (_ <? _) = false |- _ => apply Z.ltb_ge in H
  | H : String.eqb _ _ = true |- _ => apply String.eqb_eq in H
  end.

(** ** Domain separation *)

Definition no_nul (s : string) : Prop := contains_char s (byte_of 0) = false.

Fixpoint encode_parts (parts : list bytes) : bytes :=
  match parts with
  | [] => ""
  | part :: parts => be32 (uint32 (slen part)) +:+ part +:+ encode_parts parts
  end.

Lemma append_parts_encode out parts : append_parts out parts = out +:+ encode_parts parts.
Proof.
  revert out. induction parts as [|p parts IH]; intros out; simpl; [by rewrite append_nil_r|].
  by rewrite IH, !append_assoc.
Qed.

Lemma domain_inj d1 d2 r1 r2 :
  no_nul d1 -> no_nul d2 ->
  d1 +:+ String (byte_of 0) r1 = d2 +:+ String (byte_of 0) r2 -> d1 = d2 /\ r1 = r2.
Proof.
  unfold no_nul. generalize (byte_of 0) as nul. intros nul. revert d2. induction d1 as [|x d1 IH]; intros [|y d2] H1 H2 E;
    rewrite ?append_cons in E; simpl in *.
  - by injection E.
  - injection E as E _. by rewrite E, Ascii.eqb_refl in H2.
  - injection E as E _. by rewrite E, Ascii.eqb_refl in H1.
  - apply orb_false_iff in H1 as [_ H1], H2 as [_ H2]. injection E as -> E.
    by destruct (IH d2 H1 H2 E) as [-> ->].
Qed.

Lemma encode_parts_inj p q :
  Forall (fun x => slen x < 2 ^ 32) p -> Forall (fun x => slen x < 2 ^ 32) q ->
  encode_parts p = encode_parts q -> p = q.
Proof.
  intros Hp. revert q. induction Hp as [|x p Hx Hp IH]; intros [|y q] Hq E; simpl in *; try done.
  apply Forall_cons in Hq as [Hy Hq]. apply append_inj in E as [E1 E]; [|done].
  assert (slen x = slen y) as El.
  { apply be32_inj in E1; unfold uint32 in *.
    - rewrite !Z.mod_small in E1; [done|unfold slen in *; lia..].
    - apply Z.mod_pos_bound; lia.
    - apply Z.mod_pos_bound; lia. }
  apply append_inj in E as [-> E]; [|unfold slen in El; lia]. f_equal. by apply IH.
Qed.

(** The domain-separated encoding that is signed and hashed is injective: two
    encodings are equal only for the same domain and the same parts, so a signature
    made for a job, a result or an expiry never stands for another one. *)
Theorem appendDomain_injective (d1 d2 : string) (p q : list bytes) :
  no_nul d1 -> no_nul d2 ->
  Forall (fun x => slen x < 2 ^ 32) p -> Forall (fun x => slen x < 2 ^ 32) q ->
  appendDomain d1 p = appendDomain d2 q -> d1 = d2 /\ p = q.
Proof.
  intros H1 H2 Hp Hq E. unfold appendDomain in E. rewrite !append_parts_encode, !append_assoc in E.
  change (String (byte_of 0) "" +:+ encode_parts ?r) with (String (byte_of 0) (encode_parts r)) in E.
  apply domain_inj in E as [-> E]; [|done..]. split; [done|]. by apply encode_parts_inj.
Qed.

Lemma appendDomain_injective_witness :
  appendDomain "watchtrace-job-signature" ["a"; "b"] = appendDomain "watchtrace-job-signature" ["a"; "b"] /\
  (appendDomain "watchtrace-result-signature" ["x"] = appendDomain "watchtrace-expired-signature" ["x"] -> False).
Proof.
  split; [reflexivity|]. intros E.
  apply (appendDomain_injective "watchtrace-result-signature" "watchtrace-expired-signature") in E as [E _];
    [discriminate E|reflexivity|reflexivity|constructor; [vm_compute; reflexivity|constructor]|
     constructor; [vm_compute; reflexivity|constructor]].
Defined.

(** ** Jobs *)

(** What [OpenJob] guarantees of the job it returns. *)
Record authentic {P : Primitives} (attrs : Attributes) (platformPublic : bytes) (job : Job) : Prop := {
  au_valid : is_ok (validateJob job 0 false) = true;
  au_encoding : exists aad plain signature,
    marshal cbor_attributes attrs = Some aad /\ marshal cbor_job job = Some plain /\
    hex_encode (sha256 plain) = a_SnapshotHash attrs /\
    ed25519_verify platformPublic (appendDomain "watchtrace-job-signature" [aad; plain]) signature = true;
  au_schema : j_SchemaVersion job = a_SchemaVersion attrs;
  au_job : j_JobID job = a_JobID attrs;
  au_pool : j_WorkerPoolID job = a_WorkerPoolID attrs;
  au_platform_key : j_PlatformKeyID job = a_PlatformKeyID attrs;
  au_worker_key : j_WorkerEncryptionKeyID job = a_WorkerEncryptionKeyID attrs;
  au_expires : j_ExpiresAt job = a_ExpiresAt attrs
}.

Lemma validateJob_any_time job now : is_ok (validateJob job now false) = is_ok (validateJob job 0 false).
Proof. unfold validateJob. by destruct (_ || (32 <? _)). Qed.

Lemma validateJob_future job now :
  is_ok (validateJob job now true) = true ->
  is_ok (validateJob job 0 false) = true /\ now <= j_ExpiresAt job.
Proof.
  unfold validateJob. destruct (_ || (32 <? _)); [done|]. unfold before. simpl. zcases; done.
Qed.

Lemma OpenJob_opens {P : Primitives} data attrs priv platformPublic now tolerance job :
  OpenJob data attrs priv platformPublic now tolerance = Ok job -> authentic attrs platformPublic job.
Proof.
  unfold OpenJob. intros H. envelope_inv H. injection H as <-. bools. unfold attributes_match in *. bools.
  constructor; try done.
  - eauto 10.
  - by apply Z.eqb_eq.
Qed.

(** C32: an opened job is authentic: its canonical bytes hash to the snapshot hash of
    the message attributes and are signed, with those attributes, by the platform
    key; its identifiers, keys and deadline are those of the attributes; and it
    satisfies every bound of [validateJob]. *)
Theorem OpenJob_authentic {P : Primitives} data attrs priv platformPublic now tolerance job :
  OpenJob data attrs priv platformPublic now tolerance = Ok job -> authentic attrs platformPublic job.
Proof. apply OpenJob_opens. Qed.

(** Sealing and opening invert each other: a job sealed for a worker and signed
    by the platform is opened by that worker, with the attributes the sealer
    returned, to the same job. *)
Theorem OpenJob_SealJob {P : Primitives} {L : PrimitiveLaws} job signer priv now nonce eph body attrs now' tolerance :
  slen nonce = 12 -> 0 <= tolerance <= 30 * second ->
  SealJob job signer (Some (x25519_public priv)) now (Ok eph) (Ok nonce) = Ok (body, attrs) ->
  OpenJob body attrs (Some priv) (ed25519_public signer) now' tolerance = Ok job.
Proof.
  intros Hn Ht H. unfold SealJob in H. envelope_inv H. injection H as <- <-. bools. simplify_eq.
  assert (is_ok (validateJob job 0 false) = true) as Hv by (by eapply validateJob_future).
  assert (SupportsSchema (j_SchemaVersion job) = true) as Hs.
  { destruct (SupportsSchema (j_SchemaVersion job)) eqn:Es; [done|].
    unfold validateJob in Hv. by rewrite Es in Hv. }
  unfold OpenJob. change (a_SchemaVersion (job_attributes job v0)) with (j_SchemaVersion job). rewrite Hs, ed25519_public_length by done.
  rewrite guard_pass; [|rewrite !orb_false_iff; repeat split; first
    [assumption|reflexivity|apply Z.ltb_ge; lia]].
  cbn [or_invalid].
  rewrite (sealed_job_inverts _ _ ltac:(eassumption)).
  cbn [or_invalid se_SchemaVersion se_EphemeralPublicKey se_Nonce se_Ciphertext].
  destruct (x25519_public_ok eph) as [Hl Hk].
  rewrite guard_pass; [|by rewrite Hl, Hk, Hn, !Z.eqb_refl].
  rewrite x25519_agree, E3. cbn [or_invalid]. rewrite E1. cbn [or_invalid].
  rewrite gcm_inverts. cbn [or_invalid]. rewrite (signed_job_inverts _ _ E2).
  cbn [or_invalid sj_Job sj_Signature].
  rewrite guard_pass; [|by rewrite ed25519_signature_length].
  rewrite E0. cbn [or_invalid]. rewrite guard_pass; [|by rewrite ed25519_complete].
  apply guard_pass. rewrite !orb_false_iff, !negb_false_iff. repeat split.
  - apply String.eqb_refl.
  - unfold attributes_match, job_attributes, time_equal. simpl. by rewrite !String.eqb_refl, !Z.eqb_refl.
  - by rewrite validateJob_any_time, Hv.
Qed.

(** ** Results and expiry acknowledgements *)

(** [codec_nonempty]: canonical CBOR of a map is never the empty string. *)
Definition nonempty {A} (c : Codec A) : Prop := forall a b, marshal c a = Some b -> slen b <> 0.

Lemma SignResult_verifies {P : Primitives} {L : PrimitiveLaws} key result data :
  nonempty cbor_signed_result -> SignResult result key = Ok data ->
  PeekResult data = Ok result /\ VerifyResult data (ed25519_public key) = Ok result.
Proof.
  intros N1 H. unfold SignResult in H. envelope_inv H. injection H as <-. bools.
  assert (PeekResult v0 = Ok result) as Hp.
  { unfold PeekResult. rewrite guard_pass;
      [|apply orb_false_iff; split; [by apply Z.eqb_neq, (N1 _ _ E0)|by apply Z.ltb_ge]].
    rewrite (signed_result_inverts _ _ E0). cbn [or_invalid sr_Result].
    rewrite guard_pass; [done|]. by rewrite G. }
  split; [done|]. unfold VerifyResult. rewrite Hp, (signed_result_inverts _ _ E0).
  rewrite guard_pass by (by rewrite ed25519_public_length).
  cbn [or_invalid sr_Result sr_Signature]. rewrite guard_pass by (by rewrite ed25519_signature_length).
  unfold marshal_or_nil. rewrite E. simpl. apply guard_pass. by rewrite ed25519_complete.
Qed.

Lemma SignExpired_verifies {P : Primitives} {L : PrimitiveLaws} key value data :
  nonempty cbor_signed_expired -> SignExpired value key = Ok data ->
  VerifyExpired data (ed25519_public key) = Ok value.
Proof.
  intros N2 H. unfold SignExpired in H. envelope_inv H. injection H as <-. bools.
  unfold VerifyExpired. rewrite guard_pass;
    [|rewrite !orb_false_iff; repeat split;
      [by apply Z.eqb_neq, (N2 _ _ E)|by apply Z.ltb_ge|by rewrite ed25519_public_length]].
  rewrite (signed_expired_inverts _ _ E). cbn [or_invalid sx_Acknowledgement sx_Signature].
  rewrite guard_pass by (by rewrite G). apply guard_pass. by rewrite ed25519_complete.
Qed.

(** A result or an expiry acknowledgement that was signed verifies, under the
    public half of the key, to the value that was signed, and the unauthenticated
    [PeekResult] reads the same value. *)
Theorem sign_verify {P : Primitives} {L : PrimitiveLaws} (key : bytes) :
  nonempty cbor_signed_result -> nonempty cbor_signed_expired ->
  (forall result data, SignResult result key = Ok data ->
     PeekResult data = Ok result /\ VerifyResult data (ed25519_public key) = Ok result) /\
  (forall value data, SignExpired value key = Ok data ->
     VerifyExpired data (ed25519_public key) = Ok value).
Proof. split; intros *; [by apply SignResult_verifies|by apply SignExpired_verifies]. Qed.

(** What a verified result satisfies, field by field. *)
Record well_formed_result (r : Result) : Prop := {
  wr_schema : r_SchemaVersion r = 1 \/ r_SchemaVersion r = 2;
  wr_hash : slen (r_SnapshotHash r) = 64;
  wr_order : r_StartedAt r <= r_CompletedAt r;
  wr_total : 0 <= r_TotalMicros r;
  wr_status : forall c, r_StatusCode r = Some c -> 100 <= c <= 599;
  wr_success : r_Succeeded r = true -> is_Some (r_StatusCode r) /\ r_ErrorCategory r = None;
  wr_failure : r_Succeeded r = false -> is_Some (r_ErrorCategory r)
}.

Lemma validateResult_ok r : is_ok (validateResult r) = true <->
  (well_formed_result r /\ r_ResultID r <> "" /\ r_JobID r <> "" /\ r_WorkerPoolID r <> "" /\
   r_WorkerID r <> "" /\ r_AttemptID r <> "" /\ r_ResultKeyID r <> "" /\
   r_ScheduledAt r <> zero_time /\ r_StartedAt r <> zero_time).
Proof.
  unfold validateResult.
  match goal with |- is_ok (if ?c then _ else _) = true <-> _ =>
    transitivity (c = false); [by destruct c|] end.
  rewrite !orb_false_iff, !andb_false_iff, !negb_false_iff, !orb_false_iff, !negb_false_iff.
  unfold SupportsSchema, empty_string, is_zero_time, before, PreviousSchemaVersion, SchemaVersion.
  rewrite !orb_true_iff, !Z.eqb_eq, !Z.eqb_neq, !String.eqb_neq, !Z.ltb_ge. split.
  - intros (((((((((((((( Hs & ?) & ?) & ?) & ?) & ?) & ?) & ?) & ?) & ?) & ?) & ?) & Hc) & Hf) & Ho).
    split; [constructor; try done|repeat split; try done].
    + intros c Ec. rewrite Ec in Hc. apply orb_false_iff in Hc as [Hc1 Hc2]. lia.
    + intros Et. destruct Ho as [Ho|[Ho1 Ho2]]; [congruence|].
      by destruct (r_StatusCode r), (r_ErrorCategory r).
    + intros Et. destruct Hf as [Hf|Hf]; [congruence|]. by destruct (r_ErrorCategory r).
  - intros ([Hs Hh Ho Ht Hc Hy Hn] & ? & ? & ? & ? & ? & ? & ? & ?). repeat split; try done.
    + destruct (r_StatusCode r) as [c|]; [|done]. specialize (Hc c eq_refl).
      apply orb_false_iff. split; apply Z.ltb_ge; lia.
    + destruct (r_Succeeded r); [by left|right]. by destruct (Hn eq_refl) as [x ->].
    + destruct (r_Succeeded r); [right|by left]. destruct (Hy eq_refl) as [[x ->] ->]. done.
Qed.

(** A result that verifies is well formed and its canonical bytes, in the
    result domain, carry a signature that verifies under the given key. *)
Theorem VerifyResult_sound {P : Primitives} data key result :
  VerifyResult data key = Ok result ->
  well_formed_result result /\
  exists signature, slen signature = 64 /\
    ed25519_verify key (appendDomain "watchtrace-result-signature" [marshal_or_nil cbor_result result])
      signature = true.
Proof.
  unfold VerifyResult, PeekResult. intros H. envelope_inv H. injection H as <-.
  envelope_inv E. injection E as <-. bools. simplify_eq. split; [by apply validateResult_ok|eauto].
Qed.

(** ** Witnesses

    A concrete instance of the primitives on one message of each kind. *)
Module Toy.
Fixpoint rep (n : nat) (c : ascii) : string :=
  match n with 0%nat => "" | S n => String c (rep n c) end.

(** The codec of a single value. *)
Definition single {A} `{EqDecision A} (x : A) : Codec A :=
  mkCodec (fun a => if decide (a = x) then Some "m" else None)
    (fun b => if decide (b = "m") then Some x else None).

Lemma single_inverts {A} `{EqDecision A} (x : A) : inverts (single x).
Proof. intros a b. simpl. case_decide; [|done]. intros [= <-]. by subst. Qed.

Lemma single_nonempty {A} `{EqDecision A} (x : A) : nonempty (single x).
Proof. intros a b. simpl. case_decide; [|done]. by intros [= <-]. Qed.

Definition job : Job :=
  mkJob 2 "j1" "scheduled" "pool" 1 (100 * second) (220 * second) "https://example.test/" "GET" 5 200 299
    {["X-Probe" := "1"]} (mkLimits 65536 32768 3) "pk" "wk".
Definition result : Result :=
  mkResult 2 "r1" "j1" (rep 64 "0") "pool" "w1" "a1" (100 * second) (101 * second) (102 * second) true
    (Some 200) None None None None None 1000000 "rk".
Definition expired : ExpiredAcknowledgement :=
  mkExpired 2 "j1" (rep 64 "0") "pool" "w1" (300 * second) "rk".
Definition attributes : Attributes :=
  mkAttributes 2 "j1" "pool" (hex_encode (rep 32 "h")) (220 * second) "" "" "pk" "wk".

#[export] Instance primitives : Primitives := {|
  cbor_job := single job;
  cbor_attributes := single attributes;
  cbor_signed_job := single (mkSignedJob job (rep 64 "s"));
  cbor_sealed_job := single (mkSealedJob 2 (rep 32 "p") (rep 12 "n") (rep 16 "t" +:+ "m"));
  cbor_result := single result;
  cbor_signed_result := single (mkSignedResult result (rep 64 "s"));
  cbor_expired := single expired;
  cbor_signed_expired := single (mkSignedExpired expired (rep 64 "s"));
  sha256 _ := rep 32 "h";
  ed25519_public _ := rep 32 "k";
  ed25519_sign _ _ := rep 64 "s";
  ed25519_verify _ _ s := String.eqb s (rep 64 "s");
  x25519_public _ := rep 32 "p";
  x25519_key_ok _ := true;
  x25519_ecdh _ _ := Some "s";
  hkdf_sha256 s _ := s;
  gcm_seal _ _ p _ := rep 16 "t" +:+ p;
  gcm_open _ _ c _ := Some (sdrop 16 c) |}.

#[export] Instance laws : PrimitiveLaws.
Proof.
  constructor; intros; try apply single_inverts; try (by vm_compute).
  change (slen (rep 16 "t" +:+ p) = slen p + 16). rewrite slen_append. change (slen (rep 16 "t")) with 16. lia.
Qed.
End Toy.
#[local] Existing Instance Toy.primitives.
#[local] Existing Instance Toy.laws.

Lemma OpenJob_SealJob_witness :
  exists body attrs,
    SealJob Toy.job (Toy.rep 64 "k") (Some (x25519_public "w")) 0 (Ok "e") (Ok (Toy.rep 12 "n"))
      = Ok (body, attrs) /\
    OpenJob body attrs (Some "w") (ed25519_public (Toy.rep 64 "k")) 0 second = Ok Toy.job.
Proof.
  exists "m", Toy.attributes. split; [vm_compute; reflexivity|].
  apply (OpenJob_SealJob Toy.job (Toy.rep 64 "k") "w" 0 (Toy.rep 12 "n") "e").
  - reflexivity.
  - unfold second. lia.
  - vm_compute. reflexivity.
Defined.

Lemma OpenJob_authentic_witness : authentic Toy.attributes (Toy.rep 32 "k") Toy.job.
Proof. apply (OpenJob_authentic "m" Toy.attributes (Some "w") (Toy.rep 32 "k") 0 second). vm_compute. reflexivity. Defined.

Lemma sign_verify_witness :
  SignResult Toy.result (Toy.rep 64 "k") = Ok "m" /\
  VerifyResult "m" (ed25519_public (Toy.rep 64 "k")) = Ok Toy.result.
Proof.
  split; [vm_compute; reflexivity|].
  apply (sign_verify (P := Toy.primitives) (L := Toy.laws) (Toy.rep 64 "k"));
    [exact (Toy.single_nonempty _)|exact (Toy.single_nonempty _)|vm_compute; reflexivity].
Defined.

Lemma VerifyResult_sound_witness : well_formed_result Toy.result.
Proof. apply (VerifyResult_sound "m" (Toy.rep 32 "k")). vm_compute. reflexivity. Defined.
