(* ===== verification/Sealing.v ===== *)
(** * Sealing: payloads encrypted at rest

    Models internal/quarantine/crypto.go, which encrypts queue payloads before
    they are stored for an operator, and internal/secureheaders/keyring.go, which
    encrypts the request headers of a monitor under a versioned key.  AES-GCM is
    the one of [Primitives]; the JSON encoding of a header map is a [Codec].  The
    nonce is what the random source returned, twelve bytes. *)

From stdpp Require Import base gmap list strings.
From Stdlib Require Import ZArith Lia Ascii String.
From S2P Require Import Prelude Bytes Envelope.

(** ** Quarantine *)
Module Quarantine.
Section Quarantine.
Context {P : Primitives}.

Definition MaxPlaintextBytes : Z := 64 * 1024.

(** A sealer is the key of its AEAD; [None] is the nil sealer. *)
Definition New (key : bytes) : res (option bytes) :=
  if negb (slen key =? 32) then Err (ErrorsNew "quarantine key must be 32 bytes") else Ok (Some key).

Definition Seal (s : option bytes) (nonce : res bytes) (plain associated : bytes) : res bytes :=
  match s with
  | Some key =>
      if (slen plain =? 0) || (MaxPlaintextBytes <? slen plain) || (1024 <? slen associated)
      then Err (ErrorsNew "invalid quarantine payload")
      else match nonce with
           | Ok nonce => Ok (nonce +:+ gcm_seal key nonce plain associated)
           | Err e => Err e
           end
  | None => Err (ErrorsNew "invalid quarantine payload")
  end.

Definition Open (s : option bytes) (value associated : bytes) : res bytes :=
  match s with
  | Some key =>
      if (slen value <=? 12) || (MaxPlaintextBytes + 12 + 16 <? slen value) || (1024 <? slen associated)
      then Err (ErrorsNew "invalid quarantine payload")
      else match gcm_open key (stake 12 value) (sdrop 12 value) associated with
           | Some plain => Ok plain
           | None => Err (ErrorsNew "quarantine decryption failed")
           end
  | None => Err (ErrorsNew "invalid quarantine payload")
  end.
End Quarantine.

(** Every payload the quarantine sealer accepts can be opened again, with the
    same associated data, to the same payload; the sealer accepts every non-empty
    payload of at most 64 KiB. *)
Theorem Open_Seal {P : Primitives} {L : PrimitiveLaws} (key nonce plain associated : bytes) :
  slen nonce = 12 -> 0 < slen plain <= MaxPlaintextBytes -> slen associated <= 1024 ->
  exists value, Seal (Some key) (Ok nonce) plain associated = Ok value /\
    Open (Some key) value associated = Ok plain /\ slen value = slen plain + 28.
Proof.
  intros Hn Hp Ha. unfold Seal, Open.
  destruct (Z.eqb_spec (slen plain) 0); [lia|].
  destruct (Z.ltb_spec MaxPlaintextBytes (slen plain)); [lia|].
  destruct (Z.ltb_spec 1024 (slen associated)); [lia|]. cbn [orb].
  eexists. split; [done|].
  assert (String.length nonce = 12%nat) as Hl by (unfold slen in Hn; lia).
  rewrite <- Hl, stake_app, sdrop_app, gcm_inverts.
  rewrite slen_append, gcm_length, Hn.
  destruct (Z.leb_spec (12 + (slen plain + 16)) 12); [lia|].
  destruct (Z.ltb_spec (MaxPlaintextBytes + 12 + 16) (12 + (slen plain + 16))); [lia|].
  simpl. split; [done|lia].
Qed.

Lemma Open_Seal_witness :
  exists value, Seal (P := Toy.primitives) (Some (Toy.rep 32 "k")) (Ok (Toy.rep 12 "n")) "payload" "result:r1" = Ok value /\
    Open (P := Toy.primitives) (Some (Toy.rep 32 "k")) value "result:r1" = Ok "payload" /\ slen value = 7 + 28.
Proof.
  apply (Open_Seal (P := Toy.primitives) (L := Toy.laws)); vm_compute; intuition discriminate.
Defined.
End Quarantine.

(** ** Monitor headers *)
Module Secureheaders.

(** *** Header names: [strings.TrimSpace] and [http.CanonicalHeaderKey] on ASCII *)

Definition is_space (c : ascii) : bool :=
  let n := val_of c in ((9 <=? n) && (n <=? 13)) || (n =? 32).

Fixpoint trim_left (s : string) : string :=
  match s with
  | String c r => if is_space c then trim_left r else s
  | EmptyString => ""
  end.

Fixpoint trim_right (s : string) : string :=
  match s with
  | String c r =>
      let r := trim_right r in
      if is_space c && String.eqb r "" then "" else String c r
  | EmptyString => ""
  end.

Definition TrimSpace (s : string) : string := trim_right (trim_left s).

(** [validHeaderFieldByte]: the token characters of RFC 7230. *)
Definition header_byte (c : ascii) : bool :=
  let n := val_of c in
  ((48 <=? n) && (n <=? 57)) || ((65 <=? n) && (n <=? 90)) || ((97 <=? n) && (n <=? 122))
  || (n =? 33) || ((35 <=? n) && (n <=? 39)) || (n =? 42) || (n =? 43) || (n =? 45) || (n =? 46)
  || (n =? 94) || (n =? 95) || (n =? 96) || (n =? 124) || (n =? 126).

Fixpoint forall_char (f : ascii -> bool) (s : string) : bool :=
  match s with String c r => f c && forall_char f r | EmptyString => true end.

Definition upper_byte (c : ascii) : ascii :=
  let n := val_of c in if (97 <=? n) && (n <=? 122) then byte_of (n - 32) else c.
Definition lower_byte (c : ascii) : ascii :=
  let n := val_of c in if (65 <=? n) && (n <=? 90) then byte_of (n + 32) else c.

Fixpoint canonical_case (upper : bool) (s : string) : string :=
  match s with
  | String c r =>
      String (if upper then upper_byte c else lower_byte c) (canonical_case (val_of c =? 45) r)
  | EmptyString => ""
  end.

Definition CanonicalHeaderKey (s : string) : string :=
  if forall_char header_byte s then canonical_case true s else s.

(** *** Normalisation *)

Definition ErrInvalid : error := ErrorsNew "invalid monitor headers".

Definition header_name (name : string) : string := CanonicalHeaderKey (TrimSpace name).

Definition header_ok (name value : string) : bool :=
  negb (String.eqb name "" || (128 <? slen name) || (2048 <? slen value)
    || contains_newline (name +:+ value) || String.eqb name "Host"
    || String.eqb name "Content-Length" || String.eqb name "Connection"
    || String.eqb name "Transfer-Encoding").

(** The entries of a header map come in the order in which the loop visits them. *)
Definition Normalize (headers : list (string * string)) : res (gmap string string) :=
  if 32 <? Z.of_nat (Datatypes.length headers) then Err ErrInvalid else
  foldl (fun out h =>
    match out with
    | Err e => Err e
    | Ok out =>
        let name := header_name h.1 in
        if header_ok name h.2 then Ok (<[name := h.2]> out) else Err ErrInvalid
    end) (Ok ∅) headers.

(** *** Encryption *)

Definition MaxPlaintextBytes : Z := 8192.

Record Keyring : Type := mkKeyring { Current : Z; Keys : gmap Z bytes }.

Definition New (current : Z) (keys : gmap Z bytes) : res Keyring :=
  if (current <? 1) || negb (slen (default "" (keys !! current)) =? 32)
  then Err (ErrorsNew "current header key must be 32 bytes")
  else if forallb (fun x => negb ((x.1 <? 1) || negb (slen x.2 =? 32))) (map_to_list keys)
  then Ok (mkKeyring current keys)
  else Err (ErrorsNew "header keys must be versioned AES-256 keys").

Section Headers.
Context {P : Primitives} (json : Codec (gmap string string)).
(** The order in which a [range] loop visits the entries of a map. *)
Context (visit : gmap string string -> list (string * string)).

Definition aead (k : Keyring) (version : Z) : res bytes :=
  match Keys k !! version with
  | Some key => Ok key
  | None => Err (ErrorsNew "header key version unavailable")
  end.

Definition Encrypt (k : Keyring) (headers : gmap string string) (nonce : res bytes) :
    res (bytes * Z) :=
  match Normalize (visit headers) with
  | Err e => Err e
  | Ok normalized =>
      if (size normalized =? 0)%nat then Ok ("", 0) else
      let plain := default "" (marshal json normalized) in
      if MaxPlaintextBytes <? slen plain then Err ErrInvalid else
      match aead k (Current k) with
      | Err e => Err e
      | Ok key =>
          match nonce with
          | Err e => Err e
          | Ok nonce => Ok (nonce +:+ gcm_seal key nonce plain "", Current k)
          end
      end
  end.

Definition Decrypt (k : Keyring) (data : bytes) (version : Z) : res (gmap string string) :=
  let failed := Err (ErrorsNew "header decryption failed") in
  if slen data =? 0 then Ok ∅ else
  match aead k version with
  | Err _ => failed
  | Ok key =>
      if slen data <? 12 then failed else
      match gcm_open key (stake 12 data) (sdrop 12 data) "" with
      | None => failed
      | Some plain =>
          if MaxPlaintextBytes <? slen plain then failed else
          match unmarshal json plain with
          | None => failed
          | Some headers => Normalize (visit headers)
          end
      end
  end.
End Headers.

(** *** Names are normalised once *)

Lemma forall_char_bytes (f g : ascii -> bool) s :
  (forall n, 0 <= n < 256 -> f (byte_of n) = true -> g (byte_of n) = true) ->
  forall_char f s = true -> forall_char g s = true.
Proof.
  intros H. induction s as [|c s IH]; [done|]. simpl. rewrite !andb_true_iff. intros [Hc Hs].
  split; [|auto]. rewrite <- (byte_of_val c) in *. apply H; [apply val_of_bound|done].
Qed.

(** A property of all bytes is checked by running over them. *)
Lemma all_bytes (f : ascii -> bool) :
  forallb (fun n => f (byte_of n)) (seqZ 0 256) = true -> forall c, f c = true.
Proof.
  intros H c. rewrite <- (byte_of_val c). rewrite forallb_forall in H. apply H.
  apply list_elem_of_In, elem_of_seqZ. pose proof (val_of_bound c). lia.
Qed.

Lemma header_byte_case b c :
  header_byte c = true -> header_byte (if b : bool then upper_byte c else lower_byte c) = true /\
  (val_of (if b then upper_byte c else lower_byte c) =? 45) = (val_of c =? 45) /\
  (if b then upper_byte (upper_byte c) else lower_byte (lower_byte c))
    = (if b then upper_byte c else lower_byte c).
Proof.
  revert b c.
  assert (forall b c, (negb (header_byte c) ||
    (header_byte (if b : bool then upper_byte c else lower_byte c) &&
     Bool.eqb (val_of (if b then upper_byte c else lower_byte c) =? 45) (val_of c =? 45) &&
     Ascii.eqb (if b then upper_byte (upper_byte c) else lower_byte (lower_byte c))
       (if b then upper_byte c else lower_byte c))) = true) as H.
  { intros b. apply all_bytes. destruct b; vm_compute; reflexivity. }
  intros b c Hc. specialize (H b c). rewrite Hc in H. simpl in H.
  apply andb_true_iff in H as [[H1 H2]%andb_true_iff H3].
  split; [done|]. split; [by apply Bool.eqb_prop|by apply Ascii.eqb_eq].
Qed.

Lemma canonical_case_valid u s :
  forall_char header_byte s = true -> forall_char header_byte (canonical_case u s) = true.
Proof.
  revert u. induction s as [|c s IH]; intros u; [done|]. simpl. rewrite !andb_true_iff.
  intros [Hc Hs]. split; [by apply header_byte_case|auto].
Qed.

Lemma canonical_case_idem u s :
  forall_char header_byte s = true -> canonical_case u (canonical_case u s) = canonical_case u s.
Proof.
  revert u. induction s as [|c s IH]; intros u; [done|]. simpl. rewrite andb_true_iff.
  intros [Hc Hs]. destruct (header_byte_case u c Hc) as (_ & E2 & E3).
  rewrite E2, IH by done. f_equal. by destruct u.
Qed.

Lemma CanonicalHeaderKey_idem s : CanonicalHeaderKey (CanonicalHeaderKey s) = CanonicalHeaderKey s.
Proof.
  unfold CanonicalHeaderKey. destruct (forall_char header_byte s) eqn:E; [|by rewrite E].
  rewrite canonical_case_valid by done. by apply canonical_case_idem.
Qed.

Lemma header_byte_no_space c : header_byte c = true -> is_space c = false.
Proof.
  intros Hc. pose proof (all_bytes (fun c => negb (header_byte c) || negb (is_space c))
    ltac:(vm_compute; reflexivity) c) as H. simpl in H. rewrite Hc in H. by apply negb_true_iff.
Qed.

Lemma TrimSpace_header s : forall_char header_byte s = true -> TrimSpace s = s.
Proof.
  intros H. unfold TrimSpace.
  assert (trim_left s = s) as ->.
  { destruct s as [|c s]; [done|]. simpl in *. apply andb_true_iff in H as [Hc _].
    by rewrite (header_byte_no_space c Hc). }
  induction s as [|c s IH]; [done|]. simpl in *. apply andb_true_iff in H as [Hc Hs].
  by rewrite (header_byte_no_space c Hc), IH.
Qed.

Lemma trim_left_head s : match trim_left s with String c _ => is_space c = false | "" => True end.
Proof. induction s as [|c s IH]; [done|]. simpl. by destruct (is_space c) eqn:E. Qed.

Lemma trim_right_idem s : trim_right (trim_right s) = trim_right s.
Proof.
  induction s as [|c s IH]; [done|]. simpl.
  destruct (is_space c && String.eqb (trim_right s) "") eqn:E; [done|]. simpl. by rewrite IH, E.
Qed.

Lemma TrimSpace_idem s : TrimSpace (TrimSpace s) = TrimSpace s.
Proof.
  unfold TrimSpace. pose proof (trim_left_head s) as H. destruct (trim_left s) as [|c r]; [done|].
  simpl. rewrite H. simpl. rewrite H. simpl. by rewrite H, trim_right_idem.
Qed.

Lemma header_name_idem s : header_name (header_name s) = header_name s.
Proof.
  unfold header_name. rewrite <- (CanonicalHeaderKey_idem (TrimSpace s)) at 2. f_equal.
  unfold CanonicalHeaderKey. destruct (forall_char header_byte (TrimSpace s)) eqn:E.
  - by rewrite TrimSpace_header by (by apply canonical_case_valid).
  - apply TrimSpace_idem.
Qed.

(** *** What normalisation computes *)

Definition insert_header (out : gmap string string) (h : string * string) : gmap string string :=
  <[header_name h.1 := h.2]> out.

Lemma Normalize_ok l out :
  Normalize l = Ok out <->
  (Datatypes.length l <= 32)%nat /\ Forall (fun h => header_ok (header_name h.1) h.2 = true) l /\
  out = foldl insert_header ∅ l.
Proof.
  unfold Normalize. destruct (Z.ltb_spec 32 (Z.of_nat (Datatypes.length l))).
  { split; [done|]. intros [? _]. lia. }
  generalize (∅ : gmap string string) as m.
  enough (forall m, foldl (fun out h => match out with
      | Err e => Err e
      | Ok out => if header_ok (header_name h.1) h.2 then Ok (<[header_name h.1 := h.2]> out) else Err ErrInvalid
      end) (Ok m) l = Ok out <->
    Forall (fun h => header_ok (header_name h.1) h.2 = true) l /\ out = foldl insert_header m l) as Hl.
  { intros m. rewrite Hl. intuition lia. }
  clear H.
  induction l as [|h l IH]; intros m; simpl.
  - split; [intros [= <-]; auto|intros [_ ->]; done].
  - rewrite Forall_cons. destruct (header_ok (header_name h.1) h.2).
    + rewrite IH. unfold insert_header at 2. tauto.
    + split; [|by intros [[? _] _]]. intros Hf. exfalso. clear -Hf.
      induction l as [|x l IH]; [done|auto].
Qed.

Definition named (h : string * string) : string * string := (header_name h.1, h.2).

Lemma foldl_insert_header m l :
  foldl insert_header m l = list_to_map (reverse (named <$> l)) ∪ m.
Proof.
  revert m. induction l as [|h l IH]; intros m; simpl; [by rewrite map_empty_union|].
  rewrite IH, reverse_cons, list_to_map_app, <- map_union_assoc. f_equal. simpl.
  unfold insert_header. by rewrite insert_union_singleton_l, insert_empty.
Qed.

(** The normalised map does not depend on the order in which the header map is
    visited as long as no two names have the same canonical form. *)
Theorem Normalize_order (l l' : list (string * string)) :
  l ≡ₚ l' -> NoDup (named <$> l).*1 -> Normalize l = Normalize l'.
Proof.
  intros Hp Hn.
  assert (forall out, Normalize l = Ok out <-> Normalize l' = Ok out) as H.
  { assert (foldl insert_header ∅ l = foldl insert_header ∅ l') as E.
    { rewrite !foldl_insert_header. f_equal. apply list_to_map_proper.
      - by rewrite (reverse_Permutation (named <$> l)).
      - rewrite (reverse_Permutation (named <$> l)), (reverse_Permutation (named <$> l')).
        by apply fmap_Permutation. }
    intros out. rewrite !Normalize_ok, E, (Permutation_length Hp). setoid_rewrite Hp. done. }
  destruct (Normalize l) as [out|e] eqn:E1.
  - symmetry. by apply H.
  - destruct (Normalize l') as [out|e'] eqn:E2; [by apply H|].
    assert (forall l e, Normalize l = Err e -> e = ErrInvalid) as He.
    { clear. intros l e. unfold Normalize. destruct (32 <? _); [by intros [= <-]|].
      generalize (∅ : gmap string string) as m. induction l as [|h l IH]; intros m; simpl; [done|].
      destruct (header_ok _ _); [apply IH|]. clear IH. induction l as [|x l IH]; simpl; [by intros [= <-]|done]. }
    by rewrite (He _ _ E1), (He _ _ E2).
Qed.

Lemma Normalize_order_witness :
  Normalize [("x-probe", "1"); (" Accept ", "*/*")] = Normalize [(" Accept ", "*/*"); ("x-probe", "1")].
Proof. apply Normalize_order; [apply Permutation_swap|vm_compute; by apply (bool_decide_unpack _)]. Defined.

(** Two names with the same canonical form make the result depend on the order
    of visits, which Go leaves unspecified. *)
Theorem Normalize_collision :
  Normalize [("x-probe", "1"); ("X-Probe", "2")] = Ok {["X-Probe" := "2"]} /\
  Normalize [("X-Probe", "2"); ("x-probe", "1")] = Ok {["X-Probe" := "1"]}.
Proof. done. Qed.

(** *** Normalised maps are fixed points *)

Definition normal (m : gmap string string) : Prop :=
  (size m <= 32)%nat /\
  map_Forall (fun name v => header_name name = name /\ header_ok name v = true) m.

Lemma Normalize_normal l out : Normalize l = Ok out -> normal out.
Proof.
  rewrite Normalize_ok. intros (Hl & Hf & ->). rewrite foldl_insert_header, (right_id_L ∅ (∪)). split.
  - etransitivity; [|exact Hl]. rewrite <- length_map_to_list.
    rewrite <- (length_fmap fst (map_to_list _)), <- (length_fmap named l), <- (length_fmap fst (named <$> l)).
    apply submseteq_length, NoDup_submseteq; [apply NoDup_fst_map_to_list|].
    intros x ([k v] & -> & Hx)%list_elem_of_fmap. apply elem_of_map_to_list in Hx.
    apply elem_of_list_to_map_2 in Hx. rewrite elem_of_reverse in Hx. by apply (list_elem_of_fmap_2 fst) in Hx.
  - intros k v Hk. apply elem_of_list_to_map_2 in Hk. rewrite elem_of_reverse in Hk.
    apply list_elem_of_fmap in Hk as ([n v'] & [= -> ->] & Hh). simpl. split; [apply header_name_idem|].
    by apply (proj1 (Forall_forall _ _) Hf) in Hh.
Qed.

Lemma Normalize_fixed m l : normal m -> l ≡ₚ map_to_list m -> Normalize l = Ok m.
Proof.
  intros [Hs Hm] Hp. apply Normalize_ok. split; [by rewrite Hp, length_map_to_list|].
  assert (Forall (fun h => header_name h.1 = h.1 /\ header_ok h.1 h.2 = true) l) as Hf.
  { apply Forall_forall. intros [k v]. rewrite Hp, elem_of_map_to_list. apply Hm. }
  split.
  - eapply Forall_impl; [exact Hf|]. intros h [-> H]. done.
  - rewrite foldl_insert_header, (right_id_L ∅ (∪)).
    assert (named <$> l = l) as ->.
    { clear -Hf. induction Hf as [|[k v] l [Hk _] Hf IH]; [done|].
      rewrite fmap_cons, IH. unfold named. simpl in *. by rewrite Hk. }
    rewrite <- (list_to_map_to_list m). symmetry.
    apply list_to_map_proper; [by rewrite reverse_Permutation, Hp; apply NoDup_fst_map_to_list|].
    by rewrite reverse_Permutation.
Qed.

(** *** Round trip *)

Definition ascii_string (s : string) : bool := forall_char (fun c => val_of c <? 128) s.
Definition ascii_map (m : gmap string string) : Prop :=
  map_Forall (fun k v => ascii_string k = true /\ ascii_string v = true) m.

(** What is relied on of encoding/json: ASCII maps are encoded and decoded back. *)
Definition json_inverts (json : Codec (gmap string string)) : Prop :=
  forall m, ascii_map m -> exists b, marshal json m = Some b /\ slen b <> 0 /\ unmarshal json b = Some m.

Lemma Encrypt_inverse {P : Primitives} {L : PrimitiveLaws} json visit k headers nonce data version :
  (forall m, visit m ≡ₚ map_to_list m) -> json_inverts json -> slen nonce = 12 ->
  (forall n, Normalize (visit headers) = Ok n -> ascii_map n) ->
  Encrypt json visit k headers (Ok nonce) = Ok (data, version) ->
  exists n, Normalize (visit headers) = Ok n /\ Decrypt json visit k data version = Ok n.
Proof.
  intros Hv Hj Hn Ha H. unfold Encrypt in H.
  destruct (Normalize (visit headers)) as [n|] eqn:En; [|done]. exists n. split; [done|].
  destruct (Nat.eqb_spec (size n) 0) as [Hz|Hz].
  { injection H as <- <-. unfold Decrypt. simpl. apply map_size_empty_inv in Hz. by subst. }
  destruct (Hj n (Ha n eq_refl)) as (plain & Em & Hp & Eu). rewrite Em in H. simpl in H.
  destruct (MaxPlaintextBytes <? slen plain) eqn:El; [done|].
  destruct (aead k (Current k)) as [key|] eqn:Ek; [|done]. injection H as <- <-.
  unfold Decrypt. rewrite Ek, slen_append, gcm_length, Hn.
  assert (0 <= slen plain) by (unfold slen; lia).
  destruct (Z.eqb_spec (12 + (slen plain + 16)) 0); [lia|].
  destruct (Z.ltb_spec (12 + (slen plain + 16)) 12); [lia|].
  assert (String.length nonce = 12%nat) as Hl by (unfold slen in Hn; lia).
  rewrite <- Hl, stake_app, sdrop_app, gcm_inverts, El, Eu.
  apply Normalize_fixed; [by eapply Normalize_normal|apply Hv].
Qed.

(** Headers encrypted under a keyring are decrypted, with the key version that
    was stored beside them, to the normalised headers, whatever the order in which
    the maps are visited. *)
Theorem Decrypt_Encrypt {P : Primitives} {L : PrimitiveLaws} json visit k headers nonce data version :
  (forall m, visit m ≡ₚ map_to_list m) -> json_inverts json -> slen nonce = 12 ->
  (forall n, Normalize (visit headers) = Ok n -> ascii_map n) ->
  Encrypt json visit k headers (Ok nonce) = Ok (data, version) ->
  exists n, Normalize (visit headers) = Ok n /\ Decrypt json visit k data version = Ok n.
Proof. apply Encrypt_inverse. Qed.

(** A codec for the witness: the binary digits of the map's number. *)
Fixpoint bits (p : positive) : string :=
  match p with
  | xH => "1"
  | xO p => String "0" (bits p)
  | xI p => String "1" (bits p)
  end.

Fixpoint from_bits (s : string) : option positive :=
  match s with
  | String "1" EmptyString => Some xH
  | String "0" r => xO <$> from_bits r
  | String "1" r => xI <$> from_bits r
  | _ => None
  end.

Lemma bits_nonempty p : bits p <> "".
Proof. by destruct p. Qed.

Lemma from_bits_bits p : from_bits (bits p) = Some p.
Proof.
  induction p as [p IH|p IH|]; [|simpl; by rewrite IH|done].
  simpl. pose proof (bits_nonempty p). destruct (bits p); [done|]. by rewrite IH.
Qed.

Definition bits_codec : Codec (gmap string string) :=
  mkCodec (fun m => Some (bits (encode m))) (fun b => p ← from_bits b; decode p).

Lemma bits_codec_inverts : json_inverts bits_codec.
Proof.
  intros m _. exists (bits (encode m)). split; [done|]. split.
  - pose proof (bits_nonempty (encode m)). by destruct (bits (encode m)).
  - simpl. rewrite from_bits_bits. simpl. apply decode_encode.
Qed.

Lemma Decrypt_Encrypt_witness :
  let k := mkKeyring 2 {[2 := Toy.rep 32 "k"]} in
  exists data, Encrypt (P := Toy.primitives) bits_codec map_to_list k {["x-probe" := "1"]} (Ok (Toy.rep 12 "n"))
    = Ok (data, 2) /\
  exists n, Normalize (map_to_list {["x-probe" := "1"]}) = Ok n /\
    Decrypt (P := Toy.primitives) bits_codec map_to_list k data 2 = Ok n.
Proof.
  intros k. eexists. split; [vm_compute; reflexivity|].
  eapply (Decrypt_Encrypt (P := Toy.primitives) (L := Toy.laws) bits_codec map_to_list k {["x-probe" := "1"]}
    (Toy.rep 12 "n")); [done|apply bits_codec_inverts|reflexivity| |vm_compute; reflexivity].
  intros n Hn. change (Ok ({["X-Probe" := "1"]} : gmap string string) = Ok n) in Hn. injection Hn as <-.
  apply map_Forall_singleton. split; reflexivity.
Defined.
End Secureheaders.
