(* ===== verification/Scheduler.v ===== *)
(** * Scheduler: due monitors become jobs

    Models internal/fifo/scheduler.go with the queries of db/queries/fifo.sql it
    runs.  [ScheduleDue] lists the due monitors and, in one transaction, gives each
    of them the next slot of its grid and either a job with its dispatch message,
    or, when too many scheduled jobs are outstanding, a coverage gap. *)

From stdpp Require Import base gmap list strings sorting.
From Stdlib Require Import ZArith Lia Ascii.
From S2P Require Import Prelude Tx Store Bytes Envelope Sealing.

Definition MaxBatch : Z := 100.
Definition GlobalScheduledLimit : Z := 1000.
Definition JobStartWindow : Z := 2 * minute.

(** ** The next slot *)

Definition nextSchedule (scheduled now seconds : Z) : res Z :=
  if seconds <=? 0 then Err (ErrorsNew "invalid interval") else
  let interval := int64 (seconds * second) in
  let periods := int64 (Z.quot (time_sub now scheduled) interval + 1) in
  let periods := if periods <? 1 then 1 else periods in
  let next := time_add scheduled (int64 (periods * interval)) in
  Ok (if negb (after next now) then time_add next interval else next).

(** ** Queries *)

Definition active (st : job_state) : bool :=
  match st with JPending | JPendingPublish | JPublished | JRunning => true | _ => false end.

Definition active_scheduled (j : CheckJob) : Prop := cj_job_type j = Scheduled /\ active (cj_state j) = true.
#[global] Instance active_scheduled_dec j : Decision (active_scheduled j).
Proof. unfold active_scheduled. apply _. Defined.

Definition active_jobs (d : DB) : list (string * CheckJob) :=
  filter (fun x => active_scheduled x.2) (map_to_list (check_jobs d)).

Definition CountActiveScheduledJobs : Tx DB Z := select (fun _ d => Z.of_nat (length (active_jobs d))).
Definition GetDatabaseTime : Tx DB Z := select (fun now _ => now).

(** [SELECT gen_random_uuid()]. *)
Definition NewScheduledJobID : Tx DB string := u ← gen_random_uuid; select (fun _ _ => u).

Record dueMonitor : Type := mkDue {
  due_ID : string;
  due_row : Monitor;
  due_pool : WorkerPool
}.

Definition due_Next (m : dueMonitor) : Z := mon_next_check_at (due_row m).

Definition has_active_job (d : DB) (m : string) : Prop :=
  map_Exists (fun _ j => cj_monitor_id j = m /\ active_scheduled j) (check_jobs d).
#[global] Instance has_active_job_dec d m : Decision (has_active_job d m).
Proof. unfold has_active_job. apply _. Defined.

Definition pool_active (p : WorkerPool) : bool :=
  wp_enabled p && String.eqb (wp_lifecycle_state p) "active".

Definition is_due (now : Z) (locked : string -> bool) (d : DB) (x : string * Monitor) : Prop :=
  mon_next_check_at x.2 <= now /\ mon_paused_at x.2 = None /\ mon_deleted_at x.2 = None /\
  ~ has_active_job d x.1 /\ locked x.1 = false /\
  match worker_pools d !! mon_worker_pool_id x.2 with Some p => pool_active p = true | None => False end.
#[global] Instance is_due_dec now locked d x : Decision (is_due now locked d x).
Proof.
  unfold is_due. repeat apply and_dec; try apply _.
  destruct (worker_pools d !! mon_worker_pool_id x.2); apply _.
Defined.

(** [ORDER BY next_check_at, id LIMIT n FOR UPDATE SKIP LOCKED]: [locked] holds of
    the monitors another transaction has locked. *)
Definition due_monitors (now : Z) (locked : string -> bool) (batch : Z) (d : DB) : list dueMonitor :=
  omap (fun x => mkDue x.1.2 x.2 <$> worker_pools d !! mon_worker_pool_id x.2)
    (take (Z.to_nat batch) (order_by_key ((fun x => ((mon_next_check_at x.2, x.1), x.2)) <$>
      filter (is_due now locked d) (map_to_list (monitors d))))).

Definition ListDueScheduledMonitors (locked : string -> bool) (batch : Z) : Tx DB (list dueMonitor) :=
  select (fun now d => due_monitors now locked batch d).

Definition InsertMonitoringCoverageGap (org env m : string) (at_ : Z) (reason : gap_reason) : Tx DB () :=
  update (fun _ => on_coverage_gaps (fun t =>
    match t !! (m, at_, reason) with
    | Some _ => t
    | None => <[(m, at_, reason) := mkCoverageGap org env]> t
    end)).

Definition null_if_empty (s : string) : option string := if String.eqb s "" then None else Some s.

Definition InsertMonitoringOperationalEvent (event job pool details : string) : Tx DB () :=
  update (fun _ => on_operational_events (fun l =>
    l ++ [mkOperationalEvent event (null_if_empty job) (null_if_empty pool) details])).

Definition UpdateMonitorNextCheck (next : Z) (m : string) (previous : Z) : Tx DB () :=
  update (fun _ => on_monitors (alter (fun r =>
    if mon_next_check_at r =? previous then set_mon_next_check_at next r else r) m)).

(** The arbiter of ON CONFLICT is the key (monitor_id, scheduled_at); the primary key
    and the index on outstanding scheduled jobs raise an error. *)
Definition slot_taken (d : DB) (m : string) (at_ : Z) : Prop :=
  map_Exists (fun _ j => cj_monitor_id j = m /\ cj_scheduled_at j = at_) (check_jobs d).
#[global] Instance slot_taken_dec d m at_ : Decision (slot_taken d m at_).
Proof. unfold slot_taken. apply _. Defined.

Definition CreateScheduledCheckJob (job org env m : string) (at_ version : Z) (pool : string)
    (hash : bytes) (expires : Z) : Tx DB Z := sql (fun now d =>
  if decide (slot_taken d m at_) then (Ok 0, d)
  else if decide (is_Some (check_jobs d !! job) \/ has_active_job d m) then (Err ErrUniqueViolation, d)
  else (Ok 1, on_check_jobs <[job := mkCheckJob org env m Scheduled JPendingPublish at_ None None now
                version pool hash expires None None None None]> d)).

Definition CreateScheduledDispatchOutbox (job pool queue : string) (body : bytes) (schema : Z)
    (platformKey workerKey : string) (hash : bytes) (expires : Z) : Tx DB () := sql (fun now d =>
  match outbox d !! job with
  | Some _ => (Err ErrUniqueViolation, d)
  | None => (Ok (), on_outbox <[job := mkOutbox pool queue body schema platformKey workerKey hash
               job job expires PPending 0 now None None None None None now]> d)
  end).

(** ** Scheduling *)

Section Scheduler.
Context {P : Primitives}.

Record Scheduler : Type := mkScheduler {
  sc_signer : bytes;
  sc_platformKeyID : string;
  sc_headers : bytes -> Z -> res (gmap string string)    (* s.headers.Decrypt *)
}.

(** What one pass takes from outside the database: the clock [SealJob] reads and the
    random key and nonce it draws for each job. *)
Record Environment : Type := mkEnvironment {
  en_clock : Z;
  en_rand : string -> res bytes * res bytes;
  en_locked : string -> bool
}.

Definition chosen_schema (pool : WorkerPool) : Z :=
  if wp_schema_max pool <? SchemaVersion then PreviousSchemaVersion else SchemaVersion.

Definition job_of (s : Scheduler) (m : dueMonitor) (jobID : string) (scheduledAt : Z)
    (headers : gmap string string) : Job :=
  mkJob (chosen_schema (due_pool m)) jobID "scheduled" (mon_worker_pool_id (due_row m))
    (wp_network_policy_version (due_pool m)) scheduledAt (time_add scheduledAt JobStartWindow)
    (mon_target_url (due_row m)) (mon_method (due_row m)) (mon_timeout_seconds (due_row m))
    (mon_expected_status_min (due_row m)) (mon_expected_status_max (due_row m)) headers
    (mkLimits 65536 32768 3) (sc_platformKeyID s) (default "" (wp_encryption_key_id (due_pool m))).

(** The body of the loop over the due monitors; the counters are [outstanding] and
    [created]. *)
Definition schedule_one (s : Scheduler) (env : Environment) (now : Z) (counters : Z * Z) (m : dueMonitor) :
    Tx DB (Z * Z) :=
  let '(outstanding, created) := counters in
  let r := due_row m in let p := due_pool m in
  next ← of_res (nextSchedule (due_Next m) now (mon_interval_seconds r));
  if GlobalScheduledLimit <=? outstanding then
    _ ← InsertMonitoringCoverageGap (mon_organization_id r) (mon_environment_id r) (due_ID m) (due_Next m) AdmissionLimit;
    _ ← ignore (InsertMonitoringOperationalEvent "admission_limit" "" (mon_worker_pool_id r) "scheduled queue limit");
    _ ← UpdateMonitorNextCheck next (due_ID m) (due_Next m);
    mret (outstanding, created)
  else
  let workerPublic := default "" (wp_encryption_public_key p) in
  if negb (slen workerPublic =? 32) || String.eqb (default "" (wp_encryption_key_id p)) ""
     || String.eqb (default "" (wp_job_queue_url p)) "" then throw (ErrorsNew "worker pool is not provisioned") else
  headers ← (match sc_headers s (mon_headers_ciphertext r) (default 0 (mon_header_key_version r)) with
             | Ok h => mret h
             | Err _ => if 0 <? slen (mon_headers_ciphertext r)
                        then throw (ErrorsNew "monitor headers unavailable") else mret ∅
             end);
  jobID ← NewScheduledJobID;
  scheduledAt ← (if before (time_add (due_Next m) JobStartWindow) now then
                   _ ← InsertMonitoringCoverageGap (mon_organization_id r) (mon_environment_id r) (due_ID m) (due_Next m) Missed;
                   mret now
                 else mret (due_Next m));
  if negb (x25519_key_ok workerPublic) then throw (ErrorsNew "invalid worker pool public key") else
  let schemaVersion := chosen_schema p in
  if (schemaVersion <? wp_schema_min p) || (wp_schema_max p <? schemaVersion)
  then throw (ErrorsNew "worker pool has no compatible protocol schema") else
  sealed ← of_res (SealJob (job_of s m jobID scheduledAt headers) (sc_signer s) (Some workerPublic)
                     (en_clock env) (en_rand env jobID).1 (en_rand env jobID).2);
  let '(sealed, attrs) := sealed in
  hash ← of_res (match hex_decode (a_SnapshotHash attrs) with
                 | Some h => Ok h | None => Err (ErrorsNew "encoding/hex") end);
  let expires := time_add scheduledAt JobStartWindow in
  rowsAffected ← CreateScheduledCheckJob jobID (mon_organization_id r) (mon_environment_id r) (due_ID m)
    scheduledAt (mon_version r) (mon_worker_pool_id r) hash expires;
  counters ← (if rowsAffected =? 1 then
      _ ← CreateScheduledDispatchOutbox jobID (mon_worker_pool_id r) (default "" (wp_job_queue_url p))
            (base64_encode sealed) (int16 schemaVersion) (sc_platformKeyID s)
            (default "" (wp_encryption_key_id p)) hash expires;
      mret (outstanding + 1, created + 1)
    else mret (outstanding, created));
  _ ← UpdateMonitorNextCheck next (due_ID m) (due_Next m);
  mret counters.

Definition schedule_tx (s : Scheduler) (env : Environment) (batch : Z) : Tx DB (TxEnd Z) :=
  outstanding ← CountActiveScheduledJobs;
  databaseNow ← GetDatabaseTime;
  due ← ListDueScheduledMonitors (en_locked env) (int32 batch);
  counters ← foldM (schedule_one s env databaseNow) (outstanding, 0) due;
  mret (Commit counters.2).

Definition ScheduleDue {O} (s : Scheduler) (env : Environment) (started batch : Z) : SE (World DB O) Z :=
  if (batch <? 1) || (MaxBatch <? batch) then throw (ErrorsNew "invalid scheduler batch") else
  with_tx started (schedule_tx s env batch).
End Scheduler.

(** ** The next slot: correctness *)

Lemma quot_bounds a b : 0 <= a -> 0 < b -> 0 <= Z.quot a b /\ Z.quot a b * b <= a < Z.quot a b * b + b.
Proof.
  intros Ha Hb. rewrite Z.quot_div_nonneg by lia. pose proof (Z.div_pos a b Ha Hb).
  pose proof (Z.mul_div_le a b Hb). pose proof (Z.mul_succ_div_gt a b Hb). lia.
Qed.

Lemma quot_neg a b : a < 0 -> 0 < b -> a <= Z.quot a b <= 0.
Proof.
  intros Ha Hb. assert (Z.quot a b = - Z.quot (- a) b) as -> by (rewrite Z.quot_opp_l; lia).
  pose proof (quot_bounds (- a) b ltac:(lia) Hb). nia.
Qed.

(** The number of periods the code adds. *)
Lemma periods_spec a i : 0 < i ->
  let k := if Z.quot a i + 1 <? 1 then 1 else Z.quot a i + 1 in
  1 <= k /\ a < k * i /\ k * i <= Z.max a 0 + i /\ (forall j, 1 <= j < k -> j * i <= a).
Proof.
  intros Hi. destruct (Z.le_gt_cases 0 a) as [Ha|Ha].
  - pose proof (quot_bounds a i Ha Hi). zcases. repeat split; try nia; intros; nia.
  - pose proof (quot_neg a i Ha Hi). zcases; repeat split; try nia; intros; nia.
Qed.

Lemma nextSchedule_spec (scheduled now seconds : Z) :
  0 < seconds < 2 ^ 31 -> min_int64 <= now - scheduled <= max_int64 - 2 ^ 31 * second ->
  exists next k, nextSchedule scheduled now seconds = Ok next /\
    1 <= k /\ next = scheduled + k * (seconds * second) /\ now < next /\
    forall j, 1 <= j < k -> scheduled + j * (seconds * second) <= now.
Proof.
  intros Hs Hr. unfold nextSchedule. destruct (Z.leb_spec seconds 0); [lia|].
  assert (0 < seconds * second < 2 ^ 31 * second) as Hi by (unfold second; lia).
  set (i := seconds * second) in *.
  assert (2 ^ 31 * second <= max_int64) as Hm by (vm_compute; discriminate).
  assert (min_int64 <= 0) as H0 by (vm_compute; discriminate).
  rewrite (int64_id i), time_sub_exact by (unfold second in *; lia).
  set (a := now - scheduled) in *.
  assert (min_int64 <= Z.quot a i <= max_int64 - 1) as Hq.
  { destruct (Z.le_gt_cases 0 a) as [Ha|Ha].
    - pose proof (quot_bounds a i Ha ltac:(lia)). change min_int64 with (-9223372036854775808). nia.
    - pose proof (quot_neg a i Ha ltac:(lia)). change max_int64 with 9223372036854775807. lia. }
  rewrite (int64_id (Z.quot a i + 1)) by lia.
  destruct (periods_spec a i ltac:(lia)) as (Hk & Ha & Hb & Hj).
  set (k := if _ <? 1 then _ else _) in *. unfold time_add, after.
  rewrite int64_id by (change min_int64 with (-9223372036854775808); lia).
  exists (scheduled + k * i), k. destruct (Z.ltb_spec now (scheduled + k * i)); simpl; [|lia].
  repeat split; try lia. intros j Hjk. specialize (Hj j Hjk). lia.
Qed.

(** For a positive interval, and within the range of [time.Duration], the next
    slot is on the grid of the previous one, after it, strictly in the future, and
    the first such slot: no slot between the two is in the future. *)
Theorem nextSchedule_first_future_slot (scheduled now seconds : Z) :
  0 < seconds < 2 ^ 31 -> min_int64 <= now - scheduled <= max_int64 - 2 ^ 31 * second ->
  exists next k, nextSchedule scheduled now seconds = Ok next /\
    1 <= k /\ next = scheduled + k * (seconds * second) /\ now < next /\
    forall j, 1 <= j < k -> scheduled + j * (seconds * second) <= now.
Proof. apply nextSchedule_spec. Qed.

Lemma nextSchedule_first_future_slot_witness :
  exists next k, nextSchedule 0 (150 * second) 60 = Ok next /\
    1 <= k /\ next = 0 + k * (60 * second) /\ 150 * second < next /\
    forall j, 1 <= j < k -> 0 + j * (60 * second) <= 150 * second.
Proof. apply (nextSchedule_first_future_slot 0 (150 * second) 60); vm_compute; intuition discriminate. Defined.

(** ** What a pass adds *)

(** A job and the dispatch message that belongs to it. *)
Record paired (id : string) (j : CheckJob) (o : Outbox) : Prop := {
  pa_state : cj_state j = JPendingPublish /\ cj_job_type j = Scheduled;
  pa_pool : ob_worker_pool_id o = cj_worker_pool_id j;
  pa_hash : ob_snapshot_hash o = cj_snapshot_hash j;
  pa_expires : ob_expires_at o = cj_expires_at j /\ cj_expires_at j = cj_scheduled_at j + JobStartWindow;
  pa_ids : ob_message_deduplication_id o = id /\ ob_message_group_id o = id;
  pa_fresh : ob_publish_state o = PPending /\ ob_publish_attempts o = 0 /\ ob_publish_lease_token o = None
}.

(** [grown d d']: old jobs and messages are kept, and the new ones come in pairs. *)
Record grown (d d' : DB) : Prop := {
  gr_jobs : check_jobs d ⊆ check_jobs d';
  gr_outbox : outbox d ⊆ outbox d';
  gr_paired : forall id j, check_jobs d !! id = None -> check_jobs d' !! id = Some j ->
    exists o, outbox d' !! id = Some o /\ paired id j o;
  gr_new : forall id o, outbox d !! id = None -> outbox d' !! id = Some o ->
    check_jobs d !! id = None /\ is_Some (check_jobs d' !! id)
}.

Lemma grown_same d d' :
  check_jobs d' = check_jobs d -> outbox d' = outbox d -> grown d d'.
Proof. intros E1 E2. constructor; rewrite ?E1, ?E2; try done; intros; congruence. Qed.

Lemma grown_trans d1 d2 d3 : grown d1 d2 -> grown d2 d3 -> grown d1 d3.
Proof.
  intros [J1 O1 P1 N1] [J2 O2 P2 N2]. constructor; [by etrans|by etrans|..].
  - intros id j Hn Hj. destruct (check_jobs d2 !! id) as [j2|] eqn:E; [|by apply P2].
    assert (j2 = j) as -> by (pose proof (lookup_weaken _ _ _ _ E J2); congruence).
    destruct (P1 _ _ Hn E) as (o & Ho & Hp). exists o. split; [|done]. by eapply lookup_weaken.
  - intros id o Hn Ho. destruct (outbox d2 !! id) as [o2|] eqn:E.
    + destruct (N1 _ _ Hn E) as [Hj [j Hj2]]. split; [done|]. exists j. by eapply lookup_weaken.
    + destruct (N2 _ _ E Ho) as [Hj Hs]. split; [|done].
      destruct (check_jobs d1 !! id) eqn:E1; [|done].
      pose proof (lookup_weaken _ _ _ _ E1 J1). congruence.
Qed.

Lemma grown_insert d d' id j o :
  check_jobs d !! id = None -> outbox d !! id = None -> paired id j o ->
  check_jobs d' = <[id := j]> (check_jobs d) -> outbox d' = <[id := o]> (outbox d) -> grown d d'.
Proof.
  intros Hj Ho Hp E1 E2. constructor; rewrite ?E1, ?E2.
  - by apply insert_subseteq.
  - by apply insert_subseteq.
  - intros id' j' Hn [[<- <-]|[? ?]]%lookup_insert_Some; [|congruence].
    exists o. by rewrite lookup_insert_eq.
  - intros id' o' Hn [[<- <-]|[? ?]]%lookup_insert_Some; [|congruence].
    by rewrite lookup_insert_eq.
Qed.

Lemma active_jobs_insert d d' id j :
  check_jobs d !! id = None -> active_scheduled j -> check_jobs d' = <[id := j]> (check_jobs d) ->
  length (active_jobs d') = S (length (active_jobs d)).
Proof.
  intros Hn Ha E. unfold active_jobs. rewrite E, map_to_list_insert by done.
  by rewrite filter_cons, decide_True.
Qed.

(** A job of the monitor [m] that a pass at [now] creates: it is for the slot at which the monitor
    was due, or, when that slot is more than the start window (two minutes) ago, for now; and
    it carries the tenant, the version and the pool of the monitor. *)
Record slot_job (now : Z) (m : dueMonitor) (j : CheckJob) : Prop := {
  sj_monitor : cj_monitor_id j = due_ID m /\ cj_monitor_version j = mon_version (due_row m);
  sj_tenant : cj_organization_id j = mon_organization_id (due_row m) /\ cj_environment_id j = mon_environment_id (due_row m);
  sj_pool : cj_worker_pool_id j = mon_worker_pool_id (due_row m);
  sj_slot : now <= mon_next_check_at (due_row m) + 120 * second -> cj_scheduled_at j = mon_next_check_at (due_row m);
  sj_late : mon_next_check_at (due_row m) + 120 * second < now -> cj_scheduled_at j = now
}.

(** The effect of one turn of the loop. *)
Record turn (now : Z) (m : dueMonitor) (c c' : Z * Z) (d d' : DB) : Prop := {
  tu_next : exists next, nextSchedule (due_Next m) now (mon_interval_seconds (due_row m)) = Ok next /\
    monitors d' = alter (fun r => if mon_next_check_at r =? due_Next m then set_mon_next_check_at next r else r)
                    (due_ID m) (monitors d);
  tu_grown : grown d d';
  tu_count : Z.of_nat (length (active_jobs d')) = Z.of_nat (length (active_jobs d)) + (c'.2 - c.2);
  tu_counters : c' = c \/ (c.1 < GlobalScheduledLimit /\ c' = (c.1 + 1, c.2 + 1));
  tu_slot : forall id j, check_jobs d !! id = None -> check_jobs d' !! id = Some j -> slot_job now m j
}.

(** [same_core d d']: the tables a turn speaks of are the same. *)
Definition same_core (d d' : DB) : Prop :=
  monitors d' = monitors d /\ check_jobs d' = check_jobs d /\ outbox d' = outbox d.

Lemma same_core_trans d1 d2 d3 : same_core d1 d2 -> same_core d2 d3 -> same_core d1 d3.
Proof. intros (? & ? & ?) (? & ? & ?). repeat split; congruence. Qed.

Lemma gap_core org env m at_ reason s u s' :
  InsertMonitoringCoverageGap org env m at_ reason s = (Ok u, s') ->
  same_core (tx_db s) (tx_db s') /\ tx_now s' = tx_now s.
Proof. intros [-> ->]%update_ok. by repeat split. Qed.

Lemma event_core e j p t s u s' :
  ignore (InsertMonitoringOperationalEvent e j p t) s = (Ok u, s') ->
  same_core (tx_db s) (tx_db s') /\ tx_now s' = tx_now s.
Proof. by intros [-> [-> | ->]]%ignore_update_ok. Qed.

Lemma turn_same now m c d d1 d2 next :
  nextSchedule (due_Next m) now (mon_interval_seconds (due_row m)) = Ok next ->
  same_core d d1 -> d2 = on_monitors (alter (fun r =>
    if mon_next_check_at r =? due_Next m then set_mon_next_check_at next r else r) (due_ID m)) d1 ->
  turn now m c c d d2.
Proof.
  intros Hn (E1 & E2 & E3) ->. constructor; simpl.
  - exists next. by rewrite E1.
  - by apply grown_same.
  - unfold active_jobs. simpl. rewrite E2. lia.
  - by left.
  - rewrite E2. intros. congruence.
Qed.

Lemma turn_created now m c d d1 d2 next id j o :
  nextSchedule (due_Next m) now (mon_interval_seconds (due_row m)) = Ok next ->
  same_core d d1 -> check_jobs d1 !! id = None -> outbox d1 !! id = None -> paired id j o -> slot_job now m j ->
  c.1 < GlobalScheduledLimit ->
  d2 = on_monitors (alter (fun r =>
    if mon_next_check_at r =? due_Next m then set_mon_next_check_at next r else r) (due_ID m))
    (on_outbox <[id := o]> (on_check_jobs <[id := j]> d1)) ->
  turn now m c (c.1 + 1, c.2 + 1) d d2.
Proof.
  intros Hn (E1 & E2 & E3) Hj Ho Hp Hs Hc ->. rewrite E2 in Hj. rewrite E3 in Ho. constructor; simpl.
  - exists next. by rewrite E1.
  - eapply grown_insert; simpl; [exact Hj|exact Ho|exact Hp|by rewrite E2|by rewrite E3].
  - assert (length (active_jobs (on_monitors (alter (fun r =>
      if mon_next_check_at r =? due_Next m then set_mon_next_check_at next r else r) (due_ID m))
      (on_outbox <[id := o]> (on_check_jobs <[id := j]> d1)))) = S (length (active_jobs d))) as ->.
    { eapply active_jobs_insert; simpl; [exact Hj| |by rewrite E2].
      destruct Hp as [[Hst Ht] _ _ _ _ _]. split; [done|]. by rewrite Hst. }
    lia.
  - by right.
  - rewrite E2. intros i j' Hn' [[<- <-]|[_ Hx]]%lookup_insert_Some; [done|congruence].
Qed.

Lemma created_ok job org env m at_ version pool hash expires s n s' :
  CreateScheduledCheckJob job org env m at_ version pool hash expires s = (Ok n, s') ->
  tx_now s' = tx_now s /\
  ((n = 0 /\ tx_db s' = tx_db s) \/
   (n = 1 /\ check_jobs (tx_db s) !! job = None /\ ~ has_active_job (tx_db s) m /\
    tx_db s' = on_check_jobs <[job := mkCheckJob org env m Scheduled JPendingPublish at_ None None
      (tx_now s) version pool hash expires None None None None]> (tx_db s))).
Proof.
  intros [E ->]%sql_ok. split; [done|]. case_decide; [left; by simplify_eq|].
  case_decide as Hc; [done|]. right. injection E as <- <-.
  assert (~ is_Some (check_jobs (tx_db s) !! job) /\ ~ has_active_job (tx_db s) m) as [Hj Hm] by tauto.
  split; [done|]. split; [|done]. by apply eq_None_not_Some.
Qed.

Lemma outbox_created_ok job pool queue body schema pk wk hash expires s u s' :
  CreateScheduledDispatchOutbox job pool queue body schema pk wk hash expires s = (Ok u, s') ->
  outbox (tx_db s) !! job = None /\ tx_now s' = tx_now s /\
  tx_db s' = on_outbox <[job := mkOutbox pool queue body schema pk wk hash job job expires PPending 0
    (tx_now s) None None None None None (tx_now s)]> (tx_db s).
Proof. intros [E ->]%sql_ok. by destruct (outbox (tx_db s) !! job); simplify_eq. Qed.

Lemma schedule_one_turn {P : Primitives} sch env now c m s c' s' :
  schedule_one sch env now c m s = (Ok c', s') ->
  turn now m c c' (tx_db s) (tx_db s') /\ tx_now s' = tx_now s.
Proof.
  unfold schedule_one. destruct c as [out cre]. intros H.
  apply bind_ok in H as (next & s1 & H1 & H). apply of_res_ok in H1 as [Hnext ->].
  destruct (Z.leb_spec GlobalScheduledLimit out).
  { apply bind_ok in H as (? & s2 & H2 & H). apply gap_core in H2 as [C2 N2].
    apply bind_ok in H as (? & s3 & H3 & H). apply event_core in H3 as [C3 N3].
    apply bind_ok in H as (? & s4 & H4 & H). apply update_ok in H4 as [D4 N4].
    apply ret_ok in H as [<- <-]. split; [|congruence].
    eapply turn_same; [exact Hnext|by eapply same_core_trans|exact D4]. }
  destruct (_ || _ || _); [done|].
  apply bind_ok in H as (headers & s2 & H2 & H).
  assert (s2 = s) as ->.
  { destruct (sc_headers sch _ _); [by apply ret_ok in H2 as [_ <-]|].
    destruct (_ <? _); [done|by apply ret_ok in H2 as [_ <-]]. }
  apply bind_ok in H as (job & s3 & H3 & H). unfold NewScheduledJobID in H3.
  apply bind_ok in H3 as (u & s3' & Hu & H3). apply uuid_ok in Hu as [D3' N3']. apply select_ok in H3 as [-> [D3 N3]].
  apply bind_ok in H as (at_ & s4 & H4 & H).
  assert ((same_core (tx_db s) (tx_db s4) /\ tx_now s4 = tx_now s) /\
    at_ = if before (time_add (due_Next m) JobStartWindow) now then now else due_Next m) as [[C4 N4] Hat].
  { destruct (before _ _).
    - apply bind_ok in H4 as (? & s5 & H5 & H4). apply gap_core in H5 as [C5 N5].
      apply ret_ok in H4 as [<- <-]. rewrite D3, D3' in C5. split; [|done]. split; [done|congruence].
    - apply ret_ok in H4 as [<- <-]. rewrite D3, D3'. split; [|done]. split; [by repeat split|congruence]. }
  clear D3 N3 D3' N3' H4. destruct (negb _); [done|]. destruct (_ || _); [done|].
  apply bind_ok in H as ([sealed attrs] & s5 & H5 & H). apply of_res_ok in H5 as [_ ->].
  apply bind_ok in H as (hash & s6 & H6 & H). apply of_res_ok in H6 as [_ ->].
  apply bind_ok in H as (rows & s7 & H7 & H). apply created_ok in H7 as [N7 H7].
  apply bind_ok in H as (cs & s8 & H8 & H). apply bind_ok in H as (? & s9 & H9 & H).
  apply update_ok in H9 as [D9 N9]. apply ret_ok in H as [<- <-].
  destruct H7 as [[-> D7]|(-> & Hj & _ & D7)]; simpl in H8.
  - apply ret_ok in H8 as [<- <-]. rewrite D7 in D9. split; [|congruence].
    eapply turn_same; [exact Hnext|exact C4|exact D9].
  - apply bind_ok in H8 as (? & s10 & H10 & H8). apply outbox_created_ok in H10 as (Ho & N10 & D10).
    apply ret_ok in H8 as [<- <-]. rewrite D10, D7 in D9. rewrite D7 in Ho. simpl in Ho.
    split; [|congruence].
    eapply (turn_created now m (out, cre)); [exact Hnext|exact C4|exact Hj|exact Ho| | |done|exact D9]; [by repeat split|].
    unfold before, time_add, due_Next in Hat. change JobStartWindow with (120 * second) in Hat.
    constructor; simpl; try done; intros Hx; rewrite Hat;
      destruct (Z.ltb_spec (mon_next_check_at (due_row m) + 120 * second) now); done || lia.
Qed.

(** ** The whole pass *)

(** The monitors of the batch are distinct rows of the table. *)
Lemma due_monitors_rows now locked batch d m :
  m ∈ due_monitors now locked batch d ->
  monitors d !! due_ID m = Some (due_row m) /\ is_due now locked d (due_ID m, due_row m) /\
  worker_pools d !! mon_worker_pool_id (due_row m) = Some (due_pool m).
Proof.
  unfold due_monitors. rewrite list_elem_of_omap. intros ([[t id] r] & Hx & Hm).
  apply elem_of_take in Hx as (i & Hx & _). apply list_elem_of_lookup_2 in Hx.
  rewrite order_perm in Hx. apply list_elem_of_fmap in Hx as ([id' r'] & [= -> -> ->] & Hx).
  apply list_elem_of_filter in Hx as [Hd Hx]. apply elem_of_map_to_list in Hx. simpl in *.
  destruct (worker_pools d !! mon_worker_pool_id r') as [p|] eqn:Ep; [|done].
  injection Hm as <-. simpl. by rewrite Ep.
Qed.

Lemma omap_due_ids (d : DB) (l : list (slot_key * Monitor)) :
  due_ID <$> omap (fun x => mkDue x.1.2 x.2 <$> worker_pools d !! mon_worker_pool_id x.2) l
  `sublist_of` ((fun x => x.1.2) <$> l).
Proof.
  induction l as [|x l IH]; [constructor|]. simpl.
  destruct (worker_pools d !! mon_worker_pool_id x.2); simpl; by constructor.
Qed.

Lemma due_monitors_NoDup now locked batch d : NoDup (due_ID <$> due_monitors now locked batch d).
Proof.
  eapply sublist_NoDup; [|apply omap_due_ids].
  eapply sublist_NoDup; [|apply fmap_sublist, sublist_take].
  rewrite order_perm, <- list_fmap_compose.
  change (NoDup (fst <$> filter (is_due now locked d) (map_to_list (monitors d)))).
  eapply sublist_NoDup; [apply (NoDup_fst_map_to_list (monitors d))|]. apply fmap_sublist, sublist_filter.
Qed.

(** Within the range of durations every due monitor has a next slot in the future. *)
Definition in_range (now : Z) (r : Monitor) : Prop :=
  0 < mon_interval_seconds r < 2 ^ 31 /\ now - mon_next_check_at r <= max_int64 - 2 ^ 31 * second.

(** The next slot of the monitor is the first of its grid after now; nothing else of it changed. *)
Definition advanced (now : Z) (d : DB) (m : dueMonitor) : Prop :=
  exists k, let interval := mon_interval_seconds (due_row m) * second in
    let next := mon_next_check_at (due_row m) + k * interval in
    monitors d !! due_ID m = Some (set_mon_next_check_at next (due_row m)) /\ 1 <= k /\ now < next /\ next - interval <= now.

Lemma turn_advances now m c c' d d' :
  turn now m c c' d d' -> monitors d !! due_ID m = Some (due_row m) ->
  in_range now (due_row m) -> due_Next m <= now -> advanced now d' m.
Proof.
  intros [(next & Hn & E) _ _ _ _] Hr [Hi Hm] Hd.
  destruct (nextSchedule_spec (due_Next m) now (mon_interval_seconds (due_row m)))
    as (next' & k & Hn' & Hk & En & Hf & Hmin); [done| |].
  { split; [|done]. assert (min_int64 <= 0) by (vm_compute; discriminate). lia. }
  assert (next' = next) as -> by congruence. unfold due_Next in *. exists k. cbv zeta. rewrite <- En.
  split; [|split; [done|split; [done|]]].
  - rewrite E, lookup_alter_eq, Hr. simpl. by rewrite Z.eqb_refl.
  - destruct (decide (k = 1)) as [->|Hne]; [lia|]. specialize (Hmin (k - 1) ltac:(lia)). lia.
Qed.

Lemma turn_keeps_others now m c c' d d' id :
  turn now m c c' d d' -> id <> due_ID m -> monitors d' !! id = monitors d !! id.
Proof. intros [(next & _ & E) _ _ _ _] Hn. rewrite E. by rewrite lookup_alter_ne. Qed.

Lemma schedule_loop {P : Primitives} sch env now due c s c' s' :
  foldM (schedule_one sch env now) c due s = (Ok c', s') ->
  NoDup (due_ID <$> due) ->
  Forall (fun m => monitors (tx_db s) !! due_ID m = Some (due_row m) /\
    in_range now (due_row m) /\ due_Next m <= now) due ->
  let d := tx_db s in let d' := tx_db s' in
  grown d d' /\ (forall id j, check_jobs d !! id = None -> check_jobs d' !! id = Some j -> exists m, m ∈ due /\ slot_job now m j) /\
  Forall (advanced now d') due /\
  (forall id, id ∉ (due_ID <$> due) -> monitors d' !! id = monitors d !! id) /\
  Z.of_nat (length (active_jobs d')) = Z.of_nat (length (active_jobs d)) + (c'.2 - c.2) /\
  0 <= c'.2 - c.2 <= Z.of_nat (length due) /\ c'.1 - c.1 = c'.2 - c.2 /\
  c'.1 <= Z.max c.1 GlobalScheduledLimit.
Proof.
  revert c s. induction due as [|m due IH]; intros c s H Hnd Hf; simpl in H.
  { apply ret_ok in H as [<- <-]. split; [by apply grown_same|]. split; [intros; congruence|]. split; [constructor|].
    repeat split; lia. }
  apply bind_ok in H as (c1 & s1 & H1 & H). apply schedule_one_turn in H1 as [Ht _].
  rewrite fmap_cons in Hnd. apply NoDup_cons in Hnd as [Hm Hnd]. apply Forall_cons in Hf as [(Hr & Hi & Hd) Hf].
  pose proof (turn_advances _ _ _ _ _ _ Ht Hr Hi Hd) as Ha.
  apply IH in H as (Hg & Hsl & Hadv & Hoth & Hc & Hb & He & Hl); [|done|].
  - destruct (Ht) as [_ Tg Tc Tk Ts]. split; [by eapply grown_trans|]. split; [|split; [|split]].
    + intros id j Hn Hj. destruct (check_jobs (tx_db s1) !! id) as [j1|] eqn:E1.
      * exists m. split; [left|]. apply (Ts id); [done|]. pose proof (lookup_weaken _ _ _ _ E1 (gr_jobs _ _ Hg)). congruence.
      * destruct (Hsl id j E1 Hj) as (m' & Hm' & Hs'). exists m'. split; [by right|done].
    + constructor; [|done]. destruct Ha as (k & Hr' & Hlt). exists k. cbv zeta in *. split; [|done]. by rewrite Hoth.
    + intros id Hid. rewrite fmap_cons in Hid. apply not_elem_of_cons in Hid as [H1 H2].
      rewrite Hoth by done. by eapply turn_keeps_others.
    + destruct Tk as [-> | [Hk ->]]; simpl in *; repeat split; lia.
  - apply Forall_forall. intros x Hx. apply (proj1 (Forall_forall _ _) Hf) in Hx as Hx'.
    rewrite (turn_keeps_others _ _ _ _ _ _ _ Ht); [done|].
    intros E. apply Hm. rewrite <- E. by apply list_elem_of_fmap_2.
Qed.

(** What a pass over the tables [d] leaves in [d'] when it created [n] jobs. *)
Record pass (now : Z) (locked : string -> bool) (batch : Z) (d d' : DB) (n : Z) : Prop := {
  ps_grown : grown d d';
  ps_slots : forall id j, check_jobs d !! id = None -> check_jobs d' !! id = Some j ->
    exists m, m ∈ due_monitors now locked batch d /\ slot_job now m j;
  ps_advanced : Forall (advanced now d') (due_monitors now locked batch d);
  ps_others : forall id, id ∉ (due_ID <$> due_monitors now locked batch d) ->
    monitors d' !! id = monitors d !! id;
  ps_count : Z.of_nat (length (active_jobs d')) = Z.of_nat (length (active_jobs d)) + n;
  ps_bound : 0 <= n <= batch;
  ps_limit : Z.of_nat (length (active_jobs d')) <=
    Z.max (Z.of_nat (length (active_jobs d))) GlobalScheduledLimit
}.

Lemma length_due now locked batch d :
  0 <= batch -> Z.of_nat (length (due_monitors now locked batch d)) <= batch.
Proof.
  intros Hb. unfold due_monitors. set (l := take _ _).
  pose proof (sublist_length _ _ (omap_due_ids d l)) as H. rewrite !length_fmap in H.
  assert (length l <= Z.to_nat batch)%nat by (unfold l; rewrite length_take; lia). lia.
Qed.

Lemma schedule_tx_pass {P : Primitives} sch env batch s a s' :
  1 <= batch <= MaxBatch -> map_Forall (fun _ r => in_range (tx_now s) r) (monitors (tx_db s)) ->
  schedule_tx sch env batch s = (Ok a, s') ->
  exists n, a = Commit n /\ pass (tx_now s) (en_locked env) batch (tx_db s) (tx_db s') n.
Proof.
  intros Hb Hr H. unfold schedule_tx in H.
  apply bind_ok in H as (out & s1 & H1 & H). apply select_ok in H1 as [-> [D1 N1]].
  apply bind_ok in H as (now & s2 & H2 & H). apply select_ok in H2 as [-> [D2 N2]].
  apply bind_ok in H as (due & s3 & H3 & H). apply select_ok in H3 as [Hdue [D3 N3]].
  apply bind_ok in H as (c & s4 & H4 & H). apply ret_ok in H as [<- <-].
  assert (int32 batch = batch) as Hi by (apply int32_id; unfold MaxBatch in Hb; lia).
  rewrite Hi, D2, D1, N2, N1 in Hdue. rewrite N1 in H4. assert (tx_db s3 = tx_db s) as E3 by congruence.
  apply schedule_loop in H4; [| |].
  - rewrite E3 in H4. destruct H4 as (Hg & Hsl & Ha & Ho & Hc & Hn & Hk & Hl). exists c.2. split; [done|].
    rewrite Hdue in *. pose proof (length_due (tx_now s) (en_locked env) batch (tx_db s) ltac:(lia)).
    simpl in *. constructor; try done; lia.
  - rewrite Hdue. apply due_monitors_NoDup.
  - apply Forall_forall. intros m Hm. rewrite Hdue in Hm. apply due_monitors_rows in Hm as (Hrow & Hd & _).
    rewrite E3. split; [done|]. split; [by eapply (map_Forall_lookup_1 _ _ _ _ Hr)|apply Hd].
Qed.

(** C7: a pass of the scheduler is atomic and bounded.  When it returns, every new
    job belongs to a monitor of the batch, is for the slot at which that monitor was due
    (for now, when the slot is more than two minutes ago) and has its dispatch message
    (same pool, snapshot hash and deadline two minutes after the slot, deduplication and
    group id equal to the job id, never attempted), and nothing old is lost; every monitor
    of the batch moves to the first slot of its grid after now, otherwise unchanged, and no
    other monitor is touched; the number of active scheduled jobs has
    grown by the number returned, at most the batch, and does not exceed the global
    limit unless it did before.  When it fails, it changed nothing, or the commit
    went through and only its answer was lost. *)
Theorem ScheduleDue_pass {P : Primitives} {O} (sch : Scheduler) (env : Environment) (started batch : Z)
    (w : World DB O) :
  map_Forall (fun _ r => in_range started r) (monitors (w_db w)) ->
  match ScheduleDue sch env started batch w with
  | (Ok n, w') => 1 <= batch <= MaxBatch /\ pass started (en_locked env) batch (w_db w) (w_db w') n
  | (Err _, w') => w_db w' = w_db w \/ exists n, pass started (en_locked env) batch (w_db w) (w_db w') n
  end.
Proof.
  intros Hr. unfold ScheduleDue.
  destruct (Z.ltb_spec batch 1), (Z.ltb_spec MaxBatch batch); simpl; try (by left).
  destruct (with_tx started (schedule_tx sch env batch) w) as [[n|e] w'] eqn:E.
  - split; [done|]. apply with_tx_ok in E as (_ & fs & s & [(Hrun & _ & ->)|(Hrun & _)]);
      apply schedule_tx_pass in Hrun as (n' & Hn & Hp); try done; by simplify_eq.
  - apply with_tx_all_or_nothing in E as [->|(fs & a & s & _ & Hrun & _ & ->)]; [by left|right].
    apply schedule_tx_pass in Hrun as (n' & _ & Hp); [|done..]. by exists n'.
Qed.

(** One due monitor of a provisioned pool, and one of a pool without a queue. *)
Module Pass.
Definition pool (queue : option string) : WorkerPool :=
  mkWorkerPool true "active" 1 (Some "wk") (Some (Toy.rep 32 "p"%char)) queue 1 2 (Some "rk") None.
Definition monitor (p : string) : Monitor :=
  mkMonitor "o" "e" 1 "https://example.test/" "GET" 60 5 200 299 (100 * second) "" None p None None.
Definition db (ms : gmap string Monitor) : DB :=
  on_monitors (fun _ => ms) (on_worker_pools (fun _ =>
    {["pool" := pool (Some "https://queue"); "bare" := pool None]}) empty_db).
Definition world (ms : gmap string Monitor) : World DB () := mkWorld (db ms) tt (fun _ => "j1") 0 [].
Definition scheduler : Scheduler := mkScheduler (Toy.rep 64 "k"%char) "pk" (fun _ _ => Ok {["X-Probe" := "1"]}).
Definition env : Environment :=
  mkEnvironment (110 * second) (fun _ => (Ok "e", Ok (Toy.rep 12 "n"%char))) (fun _ => false).
Definition good : gmap string Monitor := {["m1" := monitor "pool"]}.
Definition mixed : gmap string Monitor := {["m1" := monitor "pool"; "m2" := monitor "bare"]}.
End Pass.

Lemma ScheduleDue_pass_witness :
  exists w', ScheduleDue (P := Toy.primitives) Pass.scheduler Pass.env (110 * second) 10 (Pass.world Pass.good)
    = (Ok 1, w') /\ pass (110 * second) (fun _ => false) 10 (Pass.db Pass.good) (w_db w') 1.
Proof.
  pose proof (ScheduleDue_pass (P := Toy.primitives) Pass.scheduler Pass.env (110 * second) 10 (Pass.world Pass.good)) as H.
  assert ((ScheduleDue (P := Toy.primitives) Pass.scheduler Pass.env (110 * second) 10 (Pass.world Pass.good)).1 = Ok 1)
    as E by (vm_compute; reflexivity).
  destruct (ScheduleDue (P := Toy.primitives) _ _ _ _ _) as [r w']. simpl in E. subst r. exists w'. split; [done|].
  apply H. apply map_Forall_singleton. split; vm_compute; intuition discriminate.
Defined.

(** A batch is one transaction: a due monitor whose pool has no queue makes the
    whole pass fail, so a monitor that is due beside it gets no job either. *)
Theorem one_monitor_blocks_batch :
  (ScheduleDue (P := Toy.primitives) Pass.scheduler Pass.env (110 * second) 10 (Pass.world Pass.good)).1 = Ok 1 /\
  (ScheduleDue (P := Toy.primitives) Pass.scheduler Pass.env (110 * second) 10 (Pass.world Pass.mixed)).1
    = Err (ErrorsNew "worker pool is not provisioned") /\
  w_db (ScheduleDue (P := Toy.primitives) Pass.scheduler Pass.env (110 * second) 10 (Pass.world Pass.mixed)).2
    = Pass.db Pass.mixed.
Proof. split; [vm_compute; reflexivity|]. split; vm_compute; reflexivity. Qed.
