(* ===== verification/Publisher.v ===== *)
(** * Publisher: dispatch messages reach the job queue

    Models internal/fifo/publisher.go and the parts of maintenance.go that touch
    the dispatch outbox.  A publisher claims a message in one transaction, sends it
    outside any transaction, and records the outcome in a second one, so other
    processes run in between: [dispatch] is the step relation of all of them on the
    outbox, and [PublishNext] is shown to take its steps.

    The flag that accompanies an error in the Go code is not modelled: an error is
    the whole answer. *)

From stdpp Require Import base gmap list strings sorting.
From Stdlib Require Import ZArith Lia.
From S2P Require Import Prelude Tx Store Bytes Envelope Scheduler.

(** ** Queries, as functions on the tables *)

(** [ORDER BY created_at LIMIT 1 FOR UPDATE SKIP LOCKED]; rows created at the same
    time come in the order of their keys. *)
Definition claimable (now : Z) (locked : string -> bool) (x : string * Outbox) : Prop :=
  ob_publish_state x.2 = PPending /\ ob_publish_attempts x.2 < 3 /\
  ob_next_attempt_at x.2 <= now /\ locked x.1 = false.
#[global] Instance claimable_dec now locked x : Decision (claimable now locked x).
Proof. unfold claimable. apply _. Defined.

Definition candidate (now : Z) (locked : string -> bool) (d : DB) : option (string * Outbox) :=
  (fun x => (x.1.2, x.2)) <$> head (order_by_key ((fun x => ((ob_created_at x.2, x.1), x.2)) <$>
    filter (claimable now locked) (map_to_list (outbox d)))).

Definition claim (now : Z) (locked : string -> bool) (token : string) (d : DB) :
    option (string * Outbox * DB) :=
  match candidate now locked d with
  | Some (id, o) =>
      let o := set_ob_claimed token (now + 45 * second) o in
      Some (id, o, on_outbox <[id := o]> d)
  | None => None
  end.

Definition with_token (token : option string) (f : Outbox -> Outbox) (o : Outbox) : Outbox :=
  if bool_decide (is_Some token /\ ob_publish_lease_token o = token) then f o else o.

Definition expire_claimed (id : string) (token : option string) (d : DB) : DB :=
  on_outbox (alter (with_token token (fun o => set_ob_released PExpired (ob_last_safe_error o) o)) id) d.

Definition unpublished (st : job_state) : bool := match st with JPending | JPendingPublish => true | _ => false end.

Definition expire_unpublished (now : Z) (id : string) (d : DB) : DB :=
  on_check_jobs (alter (fun j =>
    if unpublished (cj_state j) then set_job_state JExpired (Some now) (Some "dispatch_expired") j else j) id) d.

Definition gap_from_job (reason : gap_reason) (id : string) (d : DB) : DB :=
  match check_jobs d !! id with
  | Some j =>
      on_coverage_gaps (fun t =>
        match t !! (cj_monitor_id j, cj_scheduled_at j, reason) with
        | Some _ => t
        | None => <[(cj_monitor_id j, cj_scheduled_at j, reason) :=
                     mkCoverageGap (cj_organization_id j) (cj_environment_id j)]> t
        end) d
  | None => d
  end.

Definition mark_published (now : Z) (message id : string) (token : option string) (d : DB) : DB :=
  on_outbox (alter (with_token token (set_ob_published message now)) id) d.

Definition mark_job_published (message id : string) (d : DB) : DB :=
  on_check_jobs (alter (fun j =>
    if unpublished (cj_state j) then set_job_published message j else j) id) d.

Definition mark_failure (now : Z) (st : publish_state) (delay : Z) (id : string) (token : option string)
    (d : DB) : DB :=
  on_outbox (alter (with_token token (set_ob_retry st (now + delay * second) (Some "sqs_send_failed"))) id) d.

Definition interrupted (now : Z) (o : Outbox) : bool :=
  bool_decide (ob_publish_state o = PPublishing) &&
  match ob_publish_lease_expires_at o with Some t => t <? now | None => false end.

Definition reclaim_row (now : Z) (o : Outbox) : Outbox :=
  if interrupted now o
  then set_ob_released (if 3 <=? ob_publish_attempts o then PAmbiguous else PPending)
         (Some "publisher_interrupted") o
  else o.

Definition reclaim (now : Z) (d : DB) : DB := on_outbox (fmap (reclaim_row now)) d.

Definition repair (id : string) (d : DB) : DB :=
  on_outbox (alter (fun o =>
    if bool_decide (ob_publish_state o = PPublished) then o else set_ob_state PRepaired o) id) d.

(** ** The queries in a transaction *)

Definition ClaimDispatchOutbox (locked : string -> bool) : Tx DB (string * Outbox) :=
  token ← gen_random_uuid;
  sql (fun now d => match claim now locked token d with
                    | Some (id, o, d') => (Ok (id, o), d')
                    | None => (Err ErrNoRows, d)
                    end).

Definition ExpireClaimedDispatch (id : string) (token : option string) : Tx DB () :=
  update (fun _ => expire_claimed id token).
Definition ExpireUnpublishedCheckJob (id : string) : Tx DB () := update (fun now => expire_unpublished now id).
Definition InsertExpiredCoverageGapFromJob (id : string) : Tx DB () := update (fun _ => gap_from_job GapExpired id).
Definition MarkDispatchPublished (message id : string) (token : option string) : Tx DB () :=
  update (fun now => mark_published now message id token).
Definition MarkCheckJobPublished (message id : string) : Tx DB () :=
  update (fun _ => mark_job_published message id).
Definition MarkDispatchPublishFailure (st : publish_state) (delay : Z) (id : string) (token : option string) :
    Tx DB () := update (fun now => mark_failure now st delay id token).
Definition ReclaimDispatchPublisherLeases : Tx DB Z := sql (fun now d =>
  (Ok (Z.of_nat (length (filter (fun x => interrupted now x.2 = true) (map_to_list (outbox d))))),
   reclaim now d)).

(** ** Publishing *)

Record SendInput : Type := mkSend {
  sd_QueueURL : string;
  sd_Body : bytes;
  sd_DeduplicationID : string;
  sd_GroupID : string;
  sd_Attributes : Attributes
}.

Definition fmtHash (b : bytes) : string := hex_encode b.

Definition send_input (id : string) (row : Outbox) : SendInput :=
  mkSend (ob_queue_url row) (ob_message_body row) (ob_message_deduplication_id row) (ob_message_group_id row)
    (mkAttributes (ob_schema_version row) id (ob_worker_pool_id row) (fmtHash (ob_snapshot_hash row))
       (ob_expires_at row) "" "" (ob_platform_key_id row) (ob_worker_encryption_key_id row)).

(** After a failed send: the state and the delay before the next attempt. *)
Definition after_failure (attempts : Z) : publish_state * Z :=
  if 3 <=? attempts then (PAmbiguous, 120) else if attempts =? 2 then (PPending, 20) else (PPending, 10).

Definition claim_tx (locked : string -> bool) (now : Z) : Tx DB (TxEnd (option (string * Outbox * bool))) :=
  claimed ← try_ (ClaimDispatchOutbox locked);
  match claimed with
  | Err ErrNoRows => mret (Rollback None)
  | Err e => throw e
  | Ok (id, row) =>
      if after now (ob_expires_at row) then
        _ ← ExpireClaimedDispatch id (ob_publish_lease_token row);
        _ ← ExpireUnpublishedCheckJob id;
        _ ← InsertExpiredCoverageGapFromJob id;
        mret (Commit (Some (id, row, true)))
      else mret (Commit (Some (id, row, false)))
  end.

Definition record_tx (id : string) (row : Outbox) (sent : res string) : Tx DB (TxEnd ()) :=
  _ ← match sent with
      | Ok message =>
          _ ← MarkDispatchPublished message id (ob_publish_lease_token row);
          MarkCheckJobPublished message id
      | Err _ =>
          let '(st, delay) := after_failure (ob_publish_attempts row) in
          MarkDispatchPublishFailure st delay id (ob_publish_lease_token row)
      end;
  mret (Commit ()).

Section Publisher.
Context {O : Type} (send : SendInput -> O -> res string * O).

(** [now] is the publisher's clock, [t1] and [t2] the times the transactions begin. *)
Definition PublishNext (locked : string -> bool) (now t1 t2 : Z) : SE (World DB O) bool :=
  claimed ← with_tx t1 (claim_tx locked now);
  match claimed with
  | None => mret false
  | Some (_, _, true) => mret true
  | Some (id, row, false) =>
      sent ← try_ (external (send (send_input id row)));
      _ ← with_tx t2 (record_tx id row sent);
      match sent with
      | Ok _ => mret true
      | Err e => throw e
      end
  end.

Definition ReclaimPublisherLeases (started : Z) : SE (World DB O) Z :=
  with_tx started (count ← ReclaimDispatchPublisherLeases; mret (Commit count)).
End Publisher.

(** ** The dispatch protocol

    The state is the tables and the claims that publishers hold between their two
    transactions.  Any number of publishers, the lease reclaimer, the scheduler and
    the result consumer interleave their transactions. *)

Abbreviation claims := (list (string * Outbox)).

(** A token no row and no publisher has. *)
Definition fresh_token (token : string) (d : DB) (fl : claims) : Prop :=
  (forall id o, outbox d !! id = Some o -> ob_publish_lease_token o <> Some token) /\
  Forall (fun x => ob_publish_lease_token x.2 <> Some token) fl.

(** What a publisher writes once it knows the outcome of its send. *)
Definition record_outcome (now : Z) (id : string) (row : Outbox) (sent : res string) (d : DB) : DB :=
  match sent with
  | Ok message => mark_job_published message id (mark_published now message id (ob_publish_lease_token row) d)
  | Err _ =>
      let '(st, delay) := after_failure (ob_publish_attempts row) in
      mark_failure now st delay id (ob_publish_lease_token row) d
  end.

Inductive dispatch : DB * claims -> DB * claims -> Prop :=
| dp_claim now locked token d fl id row d' :
    fresh_token token d fl -> claim now locked token d = Some (id, row, d') ->
    dispatch (d, fl) (d', (id, row) :: fl)
| dp_expire now d fl id row :
    (id, row) ∈ fl ->
    dispatch (d, fl) (gap_from_job GapExpired id (expire_unpublished now id
      (expire_claimed id (ob_publish_lease_token row) d)), fl)
| dp_record now d fl id row sent :
    (id, row) ∈ fl -> dispatch (d, fl) (record_outcome now id row sent d, fl)
| dp_reclaim now d fl : dispatch (d, fl) (reclaim now d, fl)
| dp_repair id d fl : dispatch (d, fl) (repair id d, fl)
| dp_schedule d d' fl :
    (* the scheduler adds messages for new jobs *)
    grown d d' -> (forall id, (id ∈ fl.*1) -> is_Some (outbox d !! id)) -> dispatch (d, fl) (d', fl)
| dp_forget d fl fl' : fl' `sublist_of` fl -> dispatch (d, fl) (d, fl').  (* done, or crashed *)

(** A row of the outbox is in order. *)
Record dispatch_ok (o : Outbox) : Prop := {
  do_attempts : 0 <= ob_publish_attempts o <= 3;
  do_pending : ob_publish_state o = PPending -> ob_publish_attempts o < 3;
  do_publishing : ob_publish_state o = PPublishing ->
    is_Some (ob_publish_lease_token o) /\ is_Some (ob_publish_lease_expires_at o);
  do_settled : ob_publish_state o ∈ [PPublished; PAmbiguous; PExpired] -> ob_publish_lease_token o = None
}.

(** A row nobody will send again: it is neither waiting nor being published, and no publisher
    holds it.  (A row that the consumer repaired under a publisher's lease is still held.) *)
Definition settled (o : Outbox) : Prop :=
  ob_publish_lease_token o = None /\ ob_publish_state o <> PPending /\ ob_publish_state o <> PPublishing.

(** What may still happen to a settled row: nothing, or, unless it is published, the mark that
    its result arrived all the same. *)
Definition settles (o o' : Outbox) : Prop := settled o ->
  o' = o \/ (o' = set_ob_state PRepaired o /\ ob_publish_state o <> PPublished).

Lemma settles_refl o : settles o o.
Proof. by left. Qed.

Lemma settles_trans o1 o2 o3 : settles o1 o2 -> settles o2 o3 -> settles o1 o3.
Proof.
  intros H1 H2 Hs. destruct (H1 Hs) as [->|[-> Hp]]; [by apply H2|]. right. split; [|done].
  destruct H2 as [->|[-> _]]; [|done..]. split; [apply Hs|done].
Qed.

(** A claim speaks of the row it claimed as long as the row carries its token. *)
Definition claim_ok (d : DB) (x : string * Outbox) : Prop :=
  is_Some (ob_publish_lease_token x.2) /\ 1 <= ob_publish_attempts x.2 <= 3 /\
  forall o, outbox d !! x.1 = Some o -> ob_publish_lease_token o = ob_publish_lease_token x.2 ->
    ob_publish_attempts o = ob_publish_attempts x.2.

Definition dispatch_inv (s : DB * claims) : Prop :=
  map_Forall (fun _ o => dispatch_ok o) (outbox s.1) /\ Forall (claim_ok s.1) s.2.

(** The payload of a row: what the trigger of migration 11 makes immutable. *)
Definition payload (o : Outbox) :=
  (ob_worker_pool_id o, ob_queue_url o, ob_message_body o, ob_schema_version o, ob_platform_key_id o,
   ob_worker_encryption_key_id o, ob_snapshot_hash o, ob_message_deduplication_id o,
   ob_message_group_id o, ob_expires_at o).

(** A change of one row that keeps it in order and keeps every claim valid. *)
Record row_step (o o' : Outbox) : Prop := {
  rw_payload : payload o' = payload o;
  rw_attempts : ob_publish_attempts o' = ob_publish_attempts o;
  rw_token : ob_publish_lease_token o' = ob_publish_lease_token o \/ ob_publish_lease_token o' = None;
  rw_ok : dispatch_ok o -> dispatch_ok o';
  rw_settles : settles o o'
}.

Lemma row_step_refl o : row_step o o.
Proof. constructor; auto. apply settles_refl. Qed.

(** Row-wise updates preserve the invariant. *)
Lemma row_steps_inv d d' fl :
  (forall id, match outbox d !! id, outbox d' !! id with
     | Some o, Some o' => row_step o o' | None, None => True | _, _ => False end) ->
  dispatch_inv (d, fl) -> dispatch_inv (d', fl).
Proof.
  intros Hr [H1 H2]. split; simpl in *.
  - intros id o' Ho'. specialize (Hr id). rewrite Ho' in Hr.
    destruct (outbox d !! id) as [o|] eqn:E; [|done]. apply Hr. by apply (H1 id).
  - eapply Forall_impl; [exact H2|]. intros [id row] (Ht & Ha & Hc). simpl in *. split; [done|]. split; [done|].
    intros o' Ho' Et. simpl in *. specialize (Hr id). rewrite Ho' in Hr.
    destruct (outbox d !! id) as [o|] eqn:E; [|done]. destruct Hr as [_ -> [Hk|Hk] _ _]; simpl in *.
    + apply Hc; [done|]. congruence.
    + rewrite Hk in Et. destruct Ht as [t Ht]. congruence.
Qed.

Lemma alter_row_step (f : Outbox -> Outbox) id d :
  (forall o, outbox d !! id = Some o -> row_step o (f o)) ->
  forall id', match outbox d !! id', outbox (on_outbox (alter f id) d) !! id' with
     | Some o, Some o' => row_step o o' | None, None => True | _, _ => False end.
Proof.
  intros Hf id'. simpl. destruct (decide (id' = id)) as [->|Hn].
  - rewrite lookup_alter_eq. destruct (outbox d !! id) as [o|] eqn:E; simpl; auto.
  - rewrite lookup_alter_ne by done. destruct (outbox d !! id'); [apply row_step_refl|done].
Qed.

Lemma with_token_step token f o :
  (is_Some token -> ob_publish_lease_token o = token -> row_step o (f o)) -> row_step o (with_token token f o).
Proof. intros H. unfold with_token. case_bool_decide as E; [by destruct E; apply H|apply row_step_refl]. Qed.

(** A publisher holds the row, or works on it. *)
Definition held (o : Outbox) : Prop := is_Some (ob_publish_lease_token o) \/ ob_publish_state o = PPublishing.

Lemma held_settles o o' : held o -> settles o o'.
Proof. intros [[t Ht]|Hp] (H1 & _ & H2); congruence. Qed.

Lemma token_held (token : option string) o : is_Some token -> ob_publish_lease_token o = token -> held o.
Proof. intros Ht E. left. by rewrite E. Qed.

Lemma released_step st e o :
  held o -> (st = PPending -> ob_publish_attempts o < 3) -> st <> PPublishing -> row_step o (set_ob_released st e o).
Proof.
  intros Hh Hp Hn. constructor; try done; [by right| |by apply held_settles]. intros [Ha _ _ _]. constructor; simpl; auto. by intros ->.
Qed.

Lemma retry_step st next e o :
  held o -> (st = PPending -> ob_publish_attempts o < 3) -> st <> PPublishing -> row_step o (set_ob_retry st next e o).
Proof.
  intros Hh Hp Hn. constructor; try done; [by right| |by apply held_settles]. intros [Ha _ _ _]. constructor; simpl; auto. by intros ->.
Qed.

Lemma published_step m now o : held o -> row_step o (set_ob_published m now o).
Proof. intros Hh. constructor; try done; [by right| |by apply held_settles]. intros [Ha _ _ _]. by constructor. Qed.

Lemma repaired_step o : ob_publish_state o <> PPublished -> row_step o (set_ob_state PRepaired o).
Proof.
  intros Hp. constructor; try done; [by left| |by right]. intros [Ha _ _ _]. constructor; simpl; try done. intros H. exfalso. set_solver.
Qed.

Lemma reclaim_step now o : row_step o (reclaim_row now o).
Proof.
  unfold reclaim_row. destruct (interrupted now o) eqn:E; [|apply row_step_refl].
  unfold interrupted in E. apply andb_true_iff in E as [Ep%bool_decide_eq_true _].
  apply released_step; [by right|..]; destruct (Z.leb_spec 3 (ob_publish_attempts o)); try done; lia.
Qed.

Lemma claim_spec now locked token d id row d' :
  claim now locked token d = Some (id, row, d') ->
  exists o, outbox d !! id = Some o /\ claimable now locked (id, o) /\
    row = set_ob_claimed token (now + 45 * second) o /\ d' = on_outbox <[id := row]> d.
Proof.
  unfold claim, candidate. destruct (head _) as [[[t i] o]|] eqn:E; simpl; [|done].
  intros [= <- <- <-]. exists o.
  assert (((t, i), o) ∈ order_by_key ((fun x => ((ob_created_at x.2, x.1), x.2)) <$>
    filter (claimable now locked) (map_to_list (outbox d)))) as Hin.
  { destruct (order_by_key _); [done|]. injection E as ->. left. }
  rewrite order_perm in Hin. apply list_elem_of_fmap in Hin as ([i' o'] & [= -> -> ->] & Hin).
  apply list_elem_of_filter in Hin as [Hc Hin]. by apply elem_of_map_to_list in Hin.
Qed.

Lemma outcome_step now id row sent d fl :
  Forall (claim_ok d) fl -> (id, row) ∈ fl ->
  forall id', match outbox d !! id', outbox (record_outcome now id row sent d) !! id' with
     | Some o, Some o' => row_step o o' | None, None => True | _, _ => False end.
Proof.
  intros Hf Hin. unfold record_outcome. destruct sent as [m|e].
  - apply (alter_row_step _ id d). intros o Ho. apply with_token_step. intros Ht Et. eapply published_step, token_held; done.
  - unfold after_failure, mark_failure.
    apply (proj1 (Forall_forall _ _) Hf) in Hin as (Ht & Ha & Hc). simpl in *.
    zcases; apply alter_row_step; intros o Ho; apply with_token_step; intros Hs Et; apply retry_step;
      try (by eapply token_held); try done; intros Hx; try done; rewrite (Hc o Ho Et); lia.
Qed.

Lemma gap_from_job_outbox r id d : outbox (gap_from_job r id d) = outbox d.
Proof. unfold gap_from_job. by destruct (check_jobs d !! id). Qed.

Lemma dispatch_preserves s s' : dispatch s s' -> dispatch_inv s -> dispatch_inv s'.
Proof.
  intros H Hinv. destruct H as [now locked token d fl id row d' [F1 F2] Hc|now d fl id row Hin|
    now d fl id row sent Hin|now d fl|id d fl|d d' fl Hg Hex|d fl fl' Hs].
  - apply claim_spec in Hc as (o & Ho & (Hp & Hlt & _) & -> & ->). destruct Hinv as [H1 H2]. simpl in *.
    pose proof (H1 id o Ho) as [Ha _ _ _]. split; simpl.
    + apply map_Forall_insert_2; [|done]. constructor; simpl; [lia|done|eauto|intros Hx; exfalso; set_solver].
    + constructor.
      * split; [done|]. simpl. split; [lia|]. intros o'. rewrite lookup_insert_eq. by intros [= <-].
      * apply Forall_forall. intros [id' row'] Hx. apply (proj1 (Forall_forall _ _) H2) in Hx as Hx'.
        apply (proj1 (Forall_forall _ _) F2) in Hx. destruct Hx' as (Ht & Ha' & Hc'). simpl in *.
        split; [done|]. split; [done|]. intros o'. simpl.
        intros [[<- <-]|[_ Ho']]%lookup_insert_Some; [simpl; congruence|by apply Hc'].
  - eapply row_steps_inv; [|exact Hinv]. rewrite gap_from_job_outbox.
    apply (alter_row_step _ id d). intros o Ho. apply with_token_step. intros Ht Et. apply released_step; [by eapply token_held|done..].
  - eapply row_steps_inv; [|exact Hinv]. eapply outcome_step; [apply Hinv|done].
  - eapply row_steps_inv; [|exact Hinv]. intros id'. simpl. rewrite lookup_fmap.
    destruct (outbox d !! id'); simpl; [apply reclaim_step|done].
  - eapply row_steps_inv; [|exact Hinv]. apply alter_row_step. intros o Ho.
    case_bool_decide; [apply row_step_refl|by apply repaired_step].
  - destruct Hinv as [H1 H2], Hg as [J O' P' N]. split; simpl in *.
    + intros id o Ho. destruct (outbox d !! id) as [o0|] eqn:E.
      * pose proof (lookup_weaken _ _ _ _ E O'). simplify_eq. by apply (H1 id).
      * destruct (N _ _ E Ho) as [Hj [j Hj']]. destruct (P' _ _ Hj Hj') as (o' & Ho' & Hp). simplify_eq.
        destruct Hp as [_ _ _ _ _ (Hs & Hz & _)]. constructor; [lia|lia|congruence|rewrite Hs; intros Hx; exfalso; set_solver].
    + apply Forall_forall. intros [id row] Hx. apply (proj1 (Forall_forall _ _) H2) in Hx as Hx'.
      destruct Hx' as (Ht & Ha & Hc). split; [done|]. split; [done|]. intros o Ho Et. simpl in *.
      destruct (Hex id) as [o0 E]; [by apply (list_elem_of_fmap_2 fst) in Hx|].
      pose proof (lookup_weaken _ _ _ _ E O'). simplify_eq. by apply Hc.
  - destruct Hinv as [H1 H2]. split; [done|]. simpl in *. apply Forall_forall. intros x Hx.
    apply (proj1 (Forall_forall _ _) H2). eapply elem_of_sublist; done.
Qed.

(** Rows are never lost, their payload never changes, attempts only grow and a settled row
    stays settled. *)
Definition kept (d d' : DB) : Prop := forall id o, outbox d !! id = Some o ->
  exists o', outbox d' !! id = Some o' /\ payload o' = payload o /\
    ob_publish_attempts o <= ob_publish_attempts o' /\ settles o o'.

Lemma kept_refl d : kept d d.
Proof. intros id o Ho. exists o. repeat split; [done..|apply settles_refl]. Qed.

Lemma kept_trans d1 d2 d3 : kept d1 d2 -> kept d2 d3 -> kept d1 d3.
Proof.
  intros H1 H2 id o Ho. destruct (H1 _ _ Ho) as (o1 & Ho1 & Hp1 & Ha1 & Hs1).
  destruct (H2 _ _ Ho1) as (o2 & Ho2 & Hp2 & Ha2 & Hs2). exists o2.
  split; [done|]. split; [congruence|]. split; [lia|]. by eapply settles_trans.
Qed.

Lemma row_steps_kept d d' :
  (forall id, match outbox d !! id, outbox d' !! id with
     | Some o, Some o' => row_step o o' | None, None => True | _, _ => False end) -> kept d d'.
Proof.
  intros Hr id o Ho. specialize (Hr id). rewrite Ho in Hr.
  destruct (outbox d' !! id) as [o'|]; [|done]. exists o'. destruct Hr as [Hp Ha _ _ Hs]. split; [done|]. split; [done|]. split; [lia|done].
Qed.

Lemma dispatch_kept s s' : dispatch s s' -> dispatch_inv s -> kept s.1 s'.1.
Proof.
  intros H Hinv. destruct H as [now locked token d fl id row d' [F1 F2] Hc|now d fl id row Hin|
    now d fl id row sent Hin|now d fl|id d fl|d d' fl Hg Hex|d fl fl' Hs]; simpl.
  - apply claim_spec in Hc as (o & Ho & (Hp & Hlt & _) & -> & ->). intros id' o' Ho'. simpl.
    destruct (decide (id' = id)) as [->|Hn].
    + rewrite lookup_insert_eq. eexists. split; [done|]. simplify_eq. split; [done|]. simpl. split; [lia|]. by intros (_ & Hx & _).
    + rewrite lookup_insert_ne by done. exists o'. repeat split; [done..|apply settles_refl].
  - apply row_steps_kept. rewrite gap_from_job_outbox. apply (alter_row_step _ id d). intros o Ho.
    apply with_token_step. intros Ht Et. apply released_step; [by eapply token_held|done..].
  - apply row_steps_kept. eapply outcome_step; [apply Hinv|done].
  - apply row_steps_kept. intros id'. simpl. rewrite lookup_fmap.
    destruct (outbox d !! id'); simpl; [apply reclaim_step|done].
  - apply row_steps_kept, alter_row_step. intros o Ho.
    case_bool_decide; [apply row_step_refl|by apply repaired_step].
  - intros id o Ho. exists o. destruct Hg as [_ O' _ _]. split; [by eapply lookup_weaken|]. repeat split; [done|apply settles_refl].
  - apply kept_refl.
Qed.

(** C3: however publishers, the lease reclaimer, the scheduler and the result consumer
    interleave, every message of the outbox is attempted at most three times, a
    pending one has an attempt left, one being published carries a lease, no message
    is lost and no payload is ever changed; a message that is published never changes
    again, and one that is settled without a lease (ambiguous, expired, repaired) is never
    put back to be sent: at most its late result is noted on it. *)
Theorem dispatch_safe (s s' : DB * claims) :
  rtc dispatch s s' -> dispatch_inv s ->
  kept s.1 s'.1 /\
  (forall id o, outbox s.1 !! id = Some o -> ob_publish_state o = PPublished -> outbox s'.1 !! id = Some o) /\
  (forall id o, outbox s.1 !! id = Some o -> settled o -> exists o', outbox s'.1 !! id = Some o' /\ settled o') /\
  forall id o, outbox s'.1 !! id = Some o ->
    0 <= ob_publish_attempts o <= 3 /\
    (ob_publish_state o = PPending -> ob_publish_attempts o < 3) /\
    (ob_publish_state o = PPublishing -> is_Some (ob_publish_lease_token o)) /\
    (ob_publish_state o ∈ [PPublished; PAmbiguous; PExpired] -> settled o).
Proof.
  intros H Hinv. assert (dispatch_inv s' /\ kept s.1 s'.1) as [[H1 _] Hk].
  { induction H as [s|s1 s2 s3 Hs Hr IH]; [by split; [|apply kept_refl]|].
    destruct (IH (dispatch_preserves _ _ Hs Hinv)) as [Hi Hk]. split; [done|].
    eapply kept_trans; [by apply dispatch_kept|done]. }
  split; [done|]. split; [|split].
  - intros id o Ho Hp. destruct (Hk id o Ho) as (o' & Ho' & _ & _ & Hs).
    destruct Hs as [-> |[_ Hn]]; [|done..]. split; [|by rewrite Hp].
    apply (proj1 Hinv id o Ho). rewrite Hp. left.
  - intros id o Ho Hs0. destruct (Hk id o Ho) as (o' & Ho' & _ & _ & Hs). exists o'. split; [done|].
    destruct (Hs Hs0) as [->|[-> _]]; [done|]. split; [apply Hs0|done].
  - intros id o Ho. destruct (H1 id o Ho) as [Ha Hp Hl Hs]. split; [done|].
    split; [done|]. split; [intros Hx; by apply Hl|]. intros Hx. split; [by apply Hs|]. split; intros E; rewrite E in Hx; set_solver.
Qed.

(** A publisher that lost its lease cannot change the outbox any more: recording
    an outcome under a token the row no longer carries leaves every row as it is. *)
Theorem stale_publisher_harmless (now : Z) (id : string) (row : Outbox) (sent : res string) (d : DB) :
  (forall o, outbox d !! id = Some o -> ob_publish_lease_token o <> ob_publish_lease_token row) ->
  outbox (record_outcome now id row sent d) = outbox d.
Proof.
  intros Hn.
  assert (forall f, alter (with_token (ob_publish_lease_token row) f) id (outbox d) = outbox d) as E.
  { intros f. apply map_eq. intros id'. destruct (decide (id' = id)) as [->|?]; [|by rewrite lookup_alter_ne].
    rewrite lookup_alter_eq. destruct (outbox d !! id) as [o|] eqn:Eo; [|done]. simpl.
    unfold with_token. rewrite bool_decide_false; [done|]. intros [_ Et]. by eapply Hn. }
  unfold record_outcome. destruct sent; [|destruct (after_failure _)]; simpl; apply E.
Qed.

(** ** [PublishNext] *)

Lemma claim_tx_run locked now t d u n :
  claim_tx locked now (mkTx d t false u n []) =
  match claim t locked (u n) d with
  | None => (Ok (Rollback None), mkTx d t false u (S n) [])
  | Some (id, row, d') =>
      if after now (ob_expires_at row)
      then (Ok (Commit (Some (id, row, true))),
            mkTx (gap_from_job GapExpired id (expire_unpublished t id
              (expire_claimed id (ob_publish_lease_token row) d'))) t false u (S n) [])
      else (Ok (Commit (Some (id, row, false))), mkTx d' t false u (S n) [])
  end.
Proof.
  unfold claim_tx, ClaimDispatchOutbox, try_, mbind, SE_bind, gen_random_uuid. simpl.
  unfold sql. simpl. destruct (claim t locked (u n) d) as [[[id row] d']|]; simpl; [|done].
  by destruct (after now (ob_expires_at row)).
Qed.

Lemma record_tx_run id row sent t d u n :
  record_tx id row sent (mkTx d t false u n []) =
  (Ok (Commit ()), mkTx (record_outcome t id row sent d) t false u n []).
Proof. unfold record_tx, record_outcome. destruct sent; [done|]. by destruct (after_failure _). Qed.

(** What one call of [PublishNext] does when the database answers.  With nothing
    to claim it changes nothing.  A claimed message past its deadline is marked
    expired and nothing is sent.  Otherwise exactly the stored message is sent once;
    on success the row is published under the queue's message id; on failure it goes
    back to pending for 10 and then 20 seconds, and after the third attempt it is
    ambiguous. *)
Theorem PublishNext_outcome {O} (send : SendInput -> O -> res string * O) locked now t1 t2 (w : World DB O) :
  w_faults w = [] ->
  let '(r, w') := PublishNext send locked now t1 t2 w in
  match candidate t1 locked (w_db w) with
  | None => r = Ok false /\ w_db w' = w_db w /\ w_ext w' = w_ext w
  | Some (id, o) =>
      exists o', outbox (w_db w') !! id = Some o' /\ payload o' = payload o /\
      ob_publish_attempts o' = ob_publish_attempts o + 1 /\ ob_publish_lease_token o' = None /\
      if after now (ob_expires_at o)
      then r = Ok true /\ w_ext w' = w_ext w /\ ob_publish_state o' = PExpired
      else w_ext w' = (send (send_input id o) (w_ext w)).2 /\
        match (send (send_input id o) (w_ext w)).1 with
        | Ok message => r = Ok true /\ ob_publish_state o' = PPublished /\ ob_sqs_message_id o' = Some message
        | Err e => r = Err e /\
            ob_publish_state o' = (if 2 <=? ob_publish_attempts o then PAmbiguous else PPending) /\
            ob_next_attempt_at o' = t2 + second *
              (if 2 <=? ob_publish_attempts o then 120 else if ob_publish_attempts o =? 1 then 20 else 10)
        end
  end.
Proof.
  intros Hf. unfold PublishNext, mbind at 1, SE_bind at 1.
  pose proof (claim_tx_run locked now t1 (w_db w) (w_uuid w) (w_next w)) as Hc. unfold claim in Hc.
  destruct (candidate t1 locked (w_db w)) as [[id o]|] eqn:Ec.
  2: { rewrite (with_tx_run _ _ w _ _ Hf Hc); done. }
  set (row := set_ob_claimed (w_uuid w (w_next w)) (t1 + 45 * second) o) in *.
  assert (ob_expires_at row = ob_expires_at o) as Ee by done. rewrite Ee in Hc.
  destruct (after now (ob_expires_at o)) eqn:Ea.
  - rewrite (with_tx_run _ _ w _ _ Hf Hc) by done. simpl. rewrite gap_from_job_outbox. simpl.
    rewrite lookup_alter_eq, lookup_insert_eq. simpl. unfold with_token. simpl.
    rewrite bool_decide_true by (split; [by eexists|done]). by eexists.
  - rewrite (with_tx_run _ _ w _ _ Hf Hc) by done. unfold try_, external, mbind, SE_bind. simpl.
    assert (send_input id row = send_input id o) as -> by done.
    destruct (send (send_input id o) (w_ext w)) as [sent ext] eqn:Es. simpl.
    erewrite with_tx_run; [|done|apply record_tx_run|done]. simpl.
    destruct sent as [m|e]; simpl.
    + rewrite lookup_alter_eq, lookup_insert_eq. simpl. unfold with_token. simpl.
      rewrite bool_decide_true by (split; [by eexists|done]). by eexists.
    + unfold after_failure. simpl.
      repeat (case_match; simpl); simplify_eq; zcases;
        (rewrite lookup_alter_eq, lookup_insert_eq; simpl; unfold with_token; simpl;
         rewrite bool_decide_true by (split; [by eexists|done]); eexists; split; [done|];
         simpl; repeat split; unfold second; lia).
Qed.

(** A committed run of the first transaction claims, and expires when it is late. *)
Lemma claim_tx_ok locked now s a s' :
  claim_tx locked now s = (Ok (Commit a), s') ->
  exists id row d', claim (tx_now s) locked (tx_uuid s (tx_next s)) (tx_db s) = Some (id, row, d') /\
    ((a = Some (id, row, true) /\ tx_db s' = gap_from_job GapExpired id (expire_unpublished (tx_now s) id
        (expire_claimed id (ob_publish_lease_token row) d'))) \/
     (a = Some (id, row, false) /\ tx_db s' = d')).
Proof.
  unfold claim_tx. intros H. apply bind_ok in H as (c & s1 & H1 & H).
  unfold try_ in H1. destruct (ClaimDispatchOutbox locked s) as [r s2] eqn:E. injection H1 as <- <-.
  simpl in H. destruct r as [[id row]|e].
  2: { destruct e; try done. }
  unfold ClaimDispatchOutbox in E. apply bind_ok in E as (tok & s3 & Hu & E).
  injection Hu as <- <-. apply sql_ok in E as [E Hn]. simpl in E, Hn.
  destruct (claim (tx_now s) locked (tx_uuid s (tx_next s)) (tx_db s)) as [[[id' row'] d']|]; [|done].
  injection E as -> -> E. exists id, row, d'. split; [done|].
  destruct (after now (ob_expires_at row)).
  - left. apply bind_ok in H as (? & s4 & H4 & H). apply update_ok in H4 as [D4 N4].
    apply bind_ok in H as (? & s5 & H5 & H). apply update_ok in H5 as [D5 N5].
    apply bind_ok in H as (? & s6 & H6 & H). apply update_ok in H6 as [D6 _].
    apply ret_ok in H as [[= <-] <-]. split; [done|]. by rewrite D6, D5, D4, N4, <- E, Hn.
  - right. by apply ret_ok in H as [[= <-] <-].
Qed.

Lemma record_tx_ok id row sent s a s' :
  record_tx id row sent s = (Ok a, s') -> tx_db s' = record_outcome (tx_now s) id row sent (tx_db s).
Proof.
  unfold record_tx, record_outcome. intros H. apply bind_ok in H as (? & s1 & H1 & H).
  apply ret_ok in H as [_ <-]. destruct sent as [m|e].
  - apply bind_ok in H1 as (? & s2 & H2 & H1). apply update_ok in H2 as [D2 N2].
    apply update_ok in H1 as [D1 _]. by rewrite D1, D2.
  - destruct (after_failure _). by apply update_ok in H1 as [D1 _].
Qed.

Lemma claim_tx_rollback locked now s a s' : claim_tx locked now s = (Ok (Rollback a), s') -> a = None.
Proof.
  unfold claim_tx. intros H. apply bind_ok in H as (c & s1 & _ & H).
  destruct c as [[i o]|e].
  - destruct (after _ _); [|done]. repeat (apply bind_ok in H as (? & ? & _ & H)). done.
  - destruct e; try done. by apply ret_ok in H as [[= <-] _].
Qed.

Section Refinement.
Context {O : Type} (send : SendInput -> O -> res string * O).

Lemma claimed_steps d fl token t locked id row d' dfin now :
  fresh_token token d fl -> claim t locked token d = Some (id, row, d') ->
  dfin = gap_from_job GapExpired id (expire_unpublished now id
    (expire_claimed id (ob_publish_lease_token row) d')) \/ dfin = d' ->
  rtc dispatch (d, fl) (dfin, (id, row) :: fl).
Proof.
  intros Hf Hc [->| ->].
  - eapply rtc_l; [by eapply dp_claim|]. apply rtc_once, dp_expire. left.
  - apply rtc_once. by eapply dp_claim.
Qed.

Lemma claim_phase locked now t1 (w w1 : World DB O) r fl :
  fresh_token (w_uuid w (w_next w)) (w_db w) fl ->
  with_tx t1 (claim_tx locked now) w = (r, w1) ->
  (w_db w1 = w_db w /\ forall x, r <> Ok (Some x)) \/
  exists id row, rtc dispatch (w_db w, fl) (w_db w1, (id, row) :: fl) /\
    ((exists e, r = Err e) \/ exists b, r = Ok (Some (id, row, b))).
Proof.
  intros Hf H. destruct r as [a|e].
  - apply with_tx_ok in H as (_ & fs & s & [(Hb & _ & ->)|(Hb & ->)]).
    + right. apply claim_tx_ok in Hb as (id & row & d' & Hc & Hd). exists id, row. split.
      * eapply claimed_steps; [exact Hf|exact Hc|]. destruct Hd as [[_ Hd]|[_ Hd]]; eauto.
      * right. destruct Hd as [[-> _]|[-> _]]; eauto.
    + left. split; [done|]. apply claim_tx_rollback in Hb as ->. done.
  - apply with_tx_all_or_nothing in H as [->|(fs & a & s & _ & Hb & _ & ->)]; [by left|].
    right. apply claim_tx_ok in Hb as (id & row & d' & Hc & Hd). exists id, row. split; [|eauto].
    eapply claimed_steps; [exact Hf|exact Hc|]. destruct Hd as [[_ Hd]|[_ Hd]]; eauto.
Qed.

Lemma record_phase t2 id row sent (w w1 : World DB O) r fl :
  (id, row) ∈ fl -> with_tx t2 (record_tx id row sent) w = (r, w1) ->
  rtc dispatch (w_db w, fl) (w_db w1, fl).
Proof.
  intros Hin H.
  assert (w_db w1 = w_db w \/ w_db w1 = record_outcome t2 id row sent (w_db w)) as [->| ->];
    [|apply rtc_refl|by apply rtc_once, dp_record].
  destruct r as [a|e].
  - apply with_tx_ok in H as (_ & fs & s & [(Hb & _ & ->)|(_ & ->)]); [|by left].
    right. by apply record_tx_ok in Hb.
  - apply with_tx_all_or_nothing in H as [->|(fs & a & s & _ & Hb & _ & ->)]; [by left|].
    right. by apply record_tx_ok in Hb.
Qed.

(** Whatever fails in between, a call of [PublishNext] is a sequence of steps of
    the dispatch protocol: it claims a message under a fresh token, and then expires
    it, or records the outcome of the send, or leaves the claim to the reclaimer. *)
Theorem PublishNext_refines locked now t1 t2 (w w' : World DB O) r fl :
  fresh_token (w_uuid w (w_next w)) (w_db w) fl ->
  PublishNext send locked now t1 t2 w = (r, w') ->
  exists fl', rtc dispatch (w_db w, fl) (w_db w', fl').
Proof.
  intros Hf H. unfold PublishNext in H. unfold mbind at 1, SE_bind at 1 in H.
  destruct (with_tx t1 (claim_tx locked now) w) as [r1 w1] eqn:E1.
  apply (claim_phase _ _ _ _ _ _ fl) in E1 as [[Hd Hn]|(id & row & Hs & Hr)]; [| |done].
  - exists fl. rewrite <- Hd. destruct r1 as [[x|]|e]; [by destruct (Hn x)|..]; injection H as _ <-; apply rtc_refl.
  - exists ((id, row) :: fl). destruct Hr as [[e ->]|[[] ->]]; [by injection H as _ <-..|].
    etransitivity; [exact Hs|].
    unfold mbind at 1, SE_bind at 1, try_, external in H. simpl in H.
    destruct (send (send_input id row) (w_ext w1)) as [sent ext]. simpl in H.
    unfold mbind, SE_bind in H.
    destruct (with_tx t2 (record_tx id row sent) _) as [r2 w2] eqn:E2.
    apply (record_phase _ _ _ _ _ _ _ ((id, row) :: fl)) in E2; [|left]. simpl in E2.
    assert (w' = w2) as -> by (destruct r2, sent; by injection H). done.
Qed.
End Refinement.

(** ** A repaired dispatch can be reopened

    The consumer's repair keeps the lease token of a message that is being
    published, so the publisher that still holds it and whose send timed out puts the
    message, whose result is already accepted, back to pending; when the next claim
    finds the deadline passed, the completed check gets an expired coverage gap. *)
Theorem repaired_dispatch_reopened :
  let o := mkOutbox "p" "q" "body" 2 "pk" "wk" "h" "j" "j" (300 * second) PPending 0 0 None None None None None 0 in
  let j := mkCheckJob "org" "env" "m" Scheduled JCompleted (180 * second) None None 0 1 "p" "h" (300 * second)
             None None None None in
  let d := on_check_jobs (fun _ => {["j" := j]}) (on_outbox (fun _ => {["j" := o]}) empty_db) in
  exists row d1 d2, claim (200 * second) (fun _ => false) "t1" d = Some ("j", row, d1) /\
    d2 = record_outcome (210 * second) "j" row (Err ErrDeadlineExceeded) (repair "j" d1) /\
    (ob_publish_state <$> (outbox (repair "j" d1) !! "j")) = Some PRepaired /\
    (ob_publish_state <$> (outbox d2 !! "j")) = Some PPending /\
    exists d3 row2, claim (301 * second) (fun _ => false) "t2" d2 = Some ("j", row2, d3) /\
      (cj_state <$> (check_jobs d3 !! "j")) = Some JCompleted /\
      is_Some (coverage_gaps (gap_from_job GapExpired "j" d3) !! ("m", 180 * second, GapExpired)).
Proof.
  intros o j d. do 3 eexists. split; [vm_compute; reflexivity|]. split; [reflexivity|].
  split; [vm_compute; reflexivity|]. split; [vm_compute; reflexivity|]. do 2 eexists.
  split; [vm_compute; reflexivity|]. split; [vm_compute; reflexivity|]. eexists. vm_compute. reflexivity.
Qed.

(** ** Witnesses *)
Module OneMessage.
Definition row : Outbox :=
  mkOutbox "p" "q" "body" 2 "pk" "wk" "h" "j" "j" (300 * second) PPending 0 0 None None None None None 0.
Definition db : DB := on_outbox (fun _ => {["j" := row]}) empty_db.
Definition world : World DB nat := mkWorld db 0%nat (fun _ => "t") 0 [].
(** A queue that counts what it accepts. *)
Definition send (_ : SendInput) (n : nat) : res string * nat := (Ok "id1", S n).
End OneMessage.

Lemma dispatch_safe_witness :
  dispatch_inv (OneMessage.db, []) /\
  forall s', rtc dispatch (OneMessage.db, []) s' -> kept OneMessage.db s'.1.
Proof.
  assert (dispatch_inv (OneMessage.db, [])) as H.
  { split; [|constructor]. apply map_Forall_singleton. constructor; simpl; [lia|lia|done|done]. }
  split; [exact H|]. intros s' Hs. apply (dispatch_safe (OneMessage.db, []) s' Hs H).
Defined.

Lemma stale_publisher_harmless_witness :
  outbox (record_outcome 0 "j" (set_ob_claimed "t0" 45 OneMessage.row) (Ok "x") OneMessage.db)
    = outbox OneMessage.db.
Proof.
  apply (stale_publisher_harmless 0 "j" (set_ob_claimed "t0" 45 OneMessage.row) (Ok "x") OneMessage.db).
  intros o. change (outbox OneMessage.db) with ({["j" := OneMessage.row]} : gmap string Outbox).
  intros [_ <-]%lookup_singleton_Some. discriminate.
Defined.

Lemma PublishNext_outcome_witness :
  let '(r, w') := PublishNext OneMessage.send (fun _ => false) (10 * second) (10 * second) (11 * second) OneMessage.world in
  r = Ok true /\ w_ext w' = 1%nat.
Proof.
  pose proof (PublishNext_outcome OneMessage.send (fun _ => false) (10 * second) (10 * second) (11 * second)
    OneMessage.world eq_refl) as H.
  vm_compute in H |- *. destruct H as (o & _ & _ & _ & _ & Hx & Hr & _). split; [exact Hr|exact Hx].
Defined.

Lemma PublishNext_refines_witness :
  exists fl', rtc dispatch (OneMessage.db, [])
    (w_db (PublishNext OneMessage.send (fun _ => false) (10 * second) (10 * second) (11 * second) OneMessage.world).2, fl').
Proof.
  eapply (PublishNext_refines OneMessage.send (fun _ => false) (10 * second) (10 * second) (11 * second)
    OneMessage.world); [|apply surjective_pairing].
  split; [|constructor]. intros id o.
  change (outbox (w_db OneMessage.world)) with ({["j" := OneMessage.row]} : gmap string Outbox).
  intros [_ <-]%lookup_singleton_Some. discriminate.
Defined.
