(* ===== verification/Notification.v ===== *)
(** * Notification: the incident mail outbox and its worker

    Models internal/notification/worker.go with db/queries/notifications.sql.  A
    worker reclaims expired leases, leases one due delivery, calls the mail provider
    outside any transaction and records the attempt.  Other workers run in between:
    [delivery] is the step relation of all of them, and [DeliverNext] is shown to
    take its steps.

    The flag beside an error is not modelled.  Text is modelled on valid UTF-8, with
    ASCII white space. *)

From stdpp Require Import base gmap list strings sorting.
From Stdlib Require Import ZArith Lia Ascii String.
From S2P Require Import Prelude Tx Store Bytes Sealing.

Definition maximumAttempts : Z := 4.

(** ** Text that is safe to store *)

Definition control (c : ascii) : bool := (val_of c <? 32) || (val_of c =? 127).

Fixpoint drop_control (s : string) : string :=
  match s with
  | String c r => if control c then drop_control r else String c (drop_control r)
  | EmptyString => ""
  end.

(** [utf8.DecodeLastRuneInString]: the last rune starts at the last byte that is not
    a continuation byte. *)
Definition continuation (c : ascii) : bool := (128 <=? val_of c) && (val_of c <? 192).

Fixpoint drop_last_rune_rev (l : list ascii) : list ascii :=
  match l with
  | c :: l => if continuation c then drop_last_rune_rev l else l
  | [] => []
  end.

Definition drop_last_rune (s : string) : string :=
  string_of_list_ascii (reverse (drop_last_rune_rev (reverse (list_ascii_of_string s)))).

(** The loop; [fuel] is the length of the text, since every turn shortens it. *)
Fixpoint truncate (fuel : nat) (value : string) (maximum : Z) : string :=
  match fuel with
  | 0%nat => value
  | S fuel => if maximum <? slen value then truncate fuel (drop_last_rune value) maximum else value
  end.

Definition safeText (value fallback : string) (maximum : Z) : string :=
  let value := Secureheaders.TrimSpace (drop_control value) in
  let value := if String.eqb value "" then fallback else value in
  truncate (String.length value) value maximum.

(** A provider error: a [ProviderFailure] carries a status. *)
Definition safeProviderStatus (failure : option string) : string :=
  match failure with
  | Some status => safeText status "provider_error" 160
  | None => "provider_error"
  end.

Definition retryDelay (completedAttempt : Z) : Z :=
  if completedAttempt =? 1 then minute
  else if completedAttempt =? 2 then 5 * minute
  else if completedAttempt =? 3 then 25 * minute
  else 0.

(** ** Enqueueing *)

(** [btrim(s)] removes spaces only. *)
Fixpoint btrim_left (s : string) : string :=
  match s with String c r => if Ascii.eqb c " "%char then btrim_left r else s | EmptyString => "" end.
Fixpoint btrim_right (s : string) : string :=
  match s with
  | String c r =>
      let r := btrim_right r in
      if Ascii.eqb c " "%char && String.eqb r "" then "" else String c r
  | EmptyString => ""
  end.
Definition btrim (s : string) : string := btrim_right (btrim_left s).

(** The recipients of an event: verified members of its organization who opted in. *)
Definition recipients (org : string) (d : DB) : list (string * string) :=
  omap (fun x => match users d !! x.1.2 with
    | Some u =>
        if bool_decide (x.1.1 = org /\ is_Some (usr_email_verified_at u)
          /\ om_incident_notifications_enabled x.2 = true)
        then Some (x.1.2, to_lower (btrim (usr_email u))) else None
    | None => None
    end) (map_to_list (org_members d)).

Definition event_recipients (event : string) (d : DB) : list (string * string) :=
  match incident_events d !! event with
  | Some ev => recipients (iev_organization_id ev) d
  | None => []
  end.

Definition enqueued (event user : string) (t : gmap string NotificationRow) : Prop :=
  map_Exists (fun _ r => nt_incident_event_id r = event /\ nt_recipient_user_id r = user) t.
#[global] Instance enqueued_dec event user t : Decision (enqueued event user t).
Proof. unfold enqueued. apply _. Defined.

Definition new_delivery (now : Z) (event : string) (ev : IncidentEvent) (transition : string)
    (r : string * string) : NotificationRow :=
  mkNotificationRow (iev_organization_id ev) (iev_incident_id ev) event r.1 r.2 transition DPending 0 now
    None None None None None None None now.

(** ON CONFLICT skips a recipient who has the event already; a primary key that is
    taken raises an error. *)
Fixpoint enqueue_rows (now : Z) (event : string) (ev : IncidentEvent) (transition : string)
    (rs : list (string * string)) (ids : list string) (t : gmap string NotificationRow) :
    res (Z * gmap string NotificationRow) :=
  match rs, ids with
  | r :: rs, id :: ids =>
      if decide (enqueued event r.1 t) then enqueue_rows now event ev transition rs ids t
      else match t !! id with
           | Some _ => Err ErrUniqueViolation
           | None =>
               match enqueue_rows now event ev transition rs ids
                       (<[id := new_delivery now event ev transition r]> t) with
               | Ok (n, t) => Ok (n + 1, t)
               | Err e => Err e
               end
           end
  | _, _ => Ok (0, t)
  end.

Definition EnqueueIncidentNotifications (transition event : string) : Tx DB Z :=
  ids ← gen_random_uuids (fun d => Datatypes.length (event_recipients event d));
  sql (fun now d =>
    match incident_events d !! event with
    | None => (Ok 0, d)
    | Some ev =>
        match enqueue_rows now event ev transition (event_recipients event d) ids (notification_outbox d) with
        | Ok (n, t) => (Ok n, on_notification_outbox (fun _ => t) d)
        | Err e => (Err e, d)
        end
    end).

Definition EnqueueIncidentEventTx (event transition : string) : Tx DB Z :=
  if negb (String.eqb transition "opened") && negb (String.eqb transition "resolved")
  then throw ErrInvalidConfiguration
  else EnqueueIncidentNotifications transition event.

(** ** Queries of the worker, as functions on the tables *)

Definition lease_over (at_ : Z) (r : NotificationRow) : bool :=
  bool_decide (nt_state r = DLeased) &&
  match nt_lease_expires_at r with Some t => t <=? at_ | None => false end.

Definition reclaim_row (at_ : Z) (r : NotificationRow) : NotificationRow :=
  if lease_over at_ r then set_nt_pending at_ r else r.

Definition reclaim (at_ : Z) (d : DB) : DB := on_notification_outbox (fmap (reclaim_row at_)) d.

Definition claimable (at_ : Z) (locked : string -> bool) (x : string * NotificationRow) : Prop :=
  nt_state x.2 = DPending /\ nt_next_attempt_at x.2 <= at_ /\ nt_attempt_count x.2 < 4 /\ locked x.1 = false.
#[global] Instance claimable_dec at_ locked x : Decision (claimable at_ locked x).
Proof. unfold claimable. apply _. Defined.

(** [ORDER BY next_attempt_at, created_at, delivery_id]. *)
Definition due_before (x y : string * NotificationRow) : Prop :=
  nt_next_attempt_at x.2 < nt_next_attempt_at y.2 \/
  (nt_next_attempt_at x.2 = nt_next_attempt_at y.2 /\ key_le (nt_created_at x.2, x.1) (nt_created_at y.2, y.1)).
#[global] Instance due_before_dec : RelDecision due_before.
Proof. intros x y. unfold due_before. apply _. Defined.

Definition candidate (at_ : Z) (locked : string -> bool) (d : DB) : option (string * NotificationRow) :=
  head (merge_sort due_before (filter (claimable at_ locked) (map_to_list (notification_outbox d)))).

Record claimedDelivery : Type := mkClaimed {
  cd_deliveryID : string;
  cd_incidentID : string;
  cd_organizationID : string;
  cd_environmentID : string;
  cd_recipient : string;
  cd_transition : string;
  cd_leaseToken : string;
  cd_attempt : Z
}.

Definition claim (at_ : Z) (locked : string -> bool) (worker token : string) (lease_end : Z) (d : DB) :
    option (claimedDelivery * DB) :=
  match candidate at_ locked d with
  | Some (id, r) =>
      Some (mkClaimed id (nt_incident_id r) (nt_organization_id r)
              (match incidents d !! nt_incident_id r with Some i => inc_environment_id i | None => "" end)
              (nt_recipient_email r) (nt_transition r) token (nt_attempt_count r + 1),
            on_notification_outbox <[id := set_nt_leased worker token lease_end r]> d)
  | None => None
  end.

(** The row is still leased under the token. *)
Definition holds (id token : string) (d : DB) : bool :=
  match notification_outbox d !! id with
  | Some r => bool_decide (nt_state r = DLeased /\ nt_lease_token r = Some token)
  | None => false
  end.

Definition complete_row (id token : string) (f : NotificationRow -> NotificationRow) (d : DB) : Z * DB :=
  if holds id token d then (1, on_notification_outbox (alter f id) d) else (0, d).

(** ** The queries in a transaction *)

Definition ReclaimExpiredNotificationLeases (at_ : Z) : Tx DB Z := sql (fun _ d =>
  (Ok (Z.of_nat (Datatypes.length (filter (fun x => lease_over at_ x.2 = true) (map_to_list (notification_outbox d))))),
   reclaim at_ d)).

Definition ClaimNotificationDelivery (locked : string -> bool) (worker : string) (lease_end at_ : Z) :
    Tx DB claimedDelivery :=
  token ← gen_random_uuid;
  sql (fun _ d => match claim at_ locked worker token lease_end d with
                  | Some (c, d') => (Ok c, d')
                  | None => (Err ErrNoRows, d)
                  end).

Definition AcceptNotificationDelivery (n : Z) (message status : string) (at_ : Z) (id token : string) : Tx DB Z :=
  sql (fun _ d => let '(k, d') := complete_row id token (set_nt_accepted n message status at_) d in (Ok k, d')).

Definition CompleteFailedNotificationAttempt (st : delivery_state) (n next : Z) (status : string) (at_ : Z)
    (id token : string) : Tx DB Z :=
  sql (fun _ d => let '(k, d') := complete_row id token (set_nt_attempted st n next status at_) d in (Ok k, d')).

Definition InsertNotificationAttempt (id : string) (n : Z) (outcome status : string) (at_ : Z) : Tx DB () :=
  sql (fun _ d => match notification_attempts d !! (id, n) with
                  | Some _ => (Err ErrUniqueViolation, d)
                  | None => (Ok (), on_notification_attempts <[(id, n) := mkNotificationAttempt outcome status at_]> d)
                  end).

Definition InsertNotificationRefreshEvent (org env id : string) : Tx DB () :=
  update (fun _ => on_refresh_events (fun l => l ++ [mkRefreshEvent org env "notification.changed" "notification" id])).

(** ** The worker *)

Record Message : Type := mkMessage {
  msg_DeliveryID : string;
  msg_IncidentID : string;
  msg_Recipient : string;
  msg_Transition : string;
  msg_Subject : string;
  msg_PlainTextBody : string
}.

Record ProviderResponse : Type := mkResponse { pr_MessageID : string; pr_Status : string }.

Definition newline : string := String (byte_of 10) "".

Definition message_of (c : claimedDelivery) : Message :=
  mkMessage (cd_deliveryID c) (cd_incidentID c) (cd_recipient c) (cd_transition c)
    ("WatchTrace incident " +:+ cd_transition c)
    ("WatchTrace incident " +:+ cd_transition c +:+ newline +:+ "Incident ID: " +:+ cd_incidentID c +:+ newline
      +:+ "Delivery ID: " +:+ cd_deliveryID c +:+ newline).

Definition claim_tx (locked : string -> bool) (worker : string) (lease now : Z) :
    Tx DB (TxEnd (option claimedDelivery)) :=
  row ← try_ (ClaimNotificationDelivery locked worker (time_add now lease) now);
  match row with
  | Err ErrNoRows => mret (Rollback None)
  | Err e => throw e
  | Ok c => mret (Commit (Some c))
  end.

(** The transaction that both outcomes end with. *)
Definition attempt_tx (c : claimedDelivery) (complete : Tx DB Z) (outcome status : string) (at_ : Z) :
    Tx DB (TxEnd ()) :=
  rowsAffected ← complete;
  if negb (rowsAffected =? 1) then throw ErrLeaseLost else
  _ ← InsertNotificationAttempt (cd_deliveryID c) (int16 (cd_attempt c)) outcome status at_;
  _ ← InsertNotificationRefreshEvent (cd_organizationID c) (cd_environmentID c) (cd_deliveryID c);
  mret (Commit ()).

Definition accept_tx (c : claimedDelivery) (at_ : Z) (response : ProviderResponse) : Tx DB (TxEnd ()) :=
  let status := safeText (pr_Status response) "accepted" 160 in
  let messageID := safeText (pr_MessageID response) (cd_deliveryID c) 255 in
  attempt_tx c (AcceptNotificationDelivery (int16 (cd_attempt c)) messageID status at_
    (cd_deliveryID c) (cd_leaseToken c)) "accepted" status at_.

Definition retry_tx (c : claimedDelivery) (at_ : Z) (status : string) : Tx DB (TxEnd ()) :=
  let final := maximumAttempts <=? cd_attempt c in
  let st := if final then DFailed else DPending in
  let outcome := if final then "failed" else "retry_scheduled" in
  let next := if final then at_ else time_add at_ (retryDelay (cd_attempt c)) in
  attempt_tx c (CompleteFailedNotificationAttempt st (int16 (cd_attempt c)) next status at_
    (cd_deliveryID c) (cd_leaseToken c)) outcome status at_.

Section Worker.
(** A provider answers with a response, or fails, perhaps with a status. *)
Context {O : Type} (Send : Message -> O -> (ProviderResponse + option string) * O).
Context (workerID : string) (lease : Z).

Definition ReclaimExpired (started now : Z) : SE (World DB O) Z :=
  with_tx started (n ← ReclaimExpiredNotificationLeases now; mret (Commit n)).

(** [now] and [at_] are the worker's clock before the claim and after the send; the
    transactions begin at [t]. *)
Definition DeliverNext (locked : string -> bool) (t now at_ : Z) : SE (World DB O) bool :=
  _ ← ReclaimExpired t now;
  delivery ← with_tx t (claim_tx locked workerID lease now);
  match delivery with
  | None => mret false
  | Some c =>
      sent ← external (fun o => let '(r, o) := Send (message_of c) o in (Ok r, o));
      _ ← with_tx t (match sent with
                     | inl response => accept_tx c at_ response
                     | inr failure => retry_tx c at_ (safeProviderStatus failure)
                     end);
      mret true
  end.
End Worker.

(** ** Stored text is bounded and has no control characters *)

Lemma slen_list l : slen (string_of_list_ascii l) = Z.of_nat (Datatypes.length l).
Proof. unfold slen. induction l as [|c l IH]; [done|]. simpl. lia. Qed.

Lemma slen_ascii s : Z.of_nat (Datatypes.length (list_ascii_of_string s)) = slen s.
Proof. by rewrite <- slen_list, string_of_list_ascii_of_string. Qed.

Lemma drop_last_rune_rev_length l :
  (Datatypes.length (drop_last_rune_rev l) <= Datatypes.length l - 1)%nat.
Proof. induction l as [|c l IH]; [done|]. simpl. destruct (continuation c); lia. Qed.

Lemma drop_last_rune_length s : slen (drop_last_rune s) <= Z.max 0 (slen s - 1).
Proof.
  unfold drop_last_rune. rewrite slen_list, length_reverse, <- slen_ascii.
  pose proof (drop_last_rune_rev_length (reverse (list_ascii_of_string s))) as H.
  rewrite length_reverse in H. lia.
Qed.

Lemma truncate_bound fuel s m : 0 <= m -> slen s <= Z.of_nat fuel -> slen (truncate fuel s m) <= m.
Proof.
  intros Hm. revert s. induction fuel as [|fuel IH]; intros s Hs; simpl; [lia|].
  destruct (Z.ltb_spec m (slen s)); [|done]. apply IH.
  pose proof (drop_last_rune_length s). lia.
Qed.

Definition clean (s : string) : Prop := Forall (fun c => control c = false) (list_ascii_of_string s).

Lemma clean_drop_last_rune s : clean s -> clean (drop_last_rune s).
Proof.
  unfold clean, drop_last_rune. rewrite list_ascii_of_string_of_list_ascii, !Forall_reverse.
  intros H. apply Forall_reverse in H. revert H. generalize (reverse (list_ascii_of_string s)).
  intros l. induction 1 as [|c l Hc Hl IH]; [constructor|]. simpl. by destruct (continuation c).
Qed.

Lemma clean_truncate fuel s m : clean s -> clean (truncate fuel s m).
Proof.
  revert s. induction fuel as [|fuel IH]; intros s Hs; [done|]. simpl.
  destruct (m <? slen s); [by apply IH, clean_drop_last_rune|done].
Qed.

Lemma clean_drop_control s : clean (drop_control s).
Proof.
  unfold clean. induction s as [|c s IH]; [constructor|]. simpl.
  destruct (control c) eqn:E; [done|]. by constructor.
Qed.

Lemma clean_TrimSpace s : clean s -> clean (Secureheaders.TrimSpace s).
Proof.
  unfold clean, Secureheaders.TrimSpace. intros H.
  assert (Forall (fun c => control c = false) (list_ascii_of_string (Secureheaders.trim_left s))) as H1.
  { induction s as [|c s IH]; [done|]. simpl in *. apply Forall_cons in H as [Hc Hs].
    destruct (Secureheaders.is_space c); [by apply IH|by constructor]. }
  revert H1. generalize (Secureheaders.trim_left s). clear. intros s.
  induction s as [|c s IH]; [done|]. simpl. intros [Hc Hs]%Forall_cons.
  destruct (_ && _); [constructor|]. constructor; [done|by apply IH].
Qed.

(** Whatever a provider answers, the text stored for it is at most the length of
    its column and has no control character, as long as the fallback has none. *)
Theorem safeText_safe (value fallback : string) (maximum : Z) :
  0 <= maximum -> clean fallback ->
  slen (safeText value fallback maximum) <= maximum /\ clean (safeText value fallback maximum).
Proof.
  intros Hm Hf. unfold safeText. set (v := if String.eqb _ "" then _ else _). split.
  - apply truncate_bound; [done|]. unfold slen. lia.
  - apply clean_truncate. unfold v. destruct (String.eqb _ ""); [done|].
    apply clean_TrimSpace, clean_drop_control.
Qed.

Lemma safeText_safe_witness :
  safeText (" 250 ok" +:+ newline) "accepted" 6 = "250 ok" /\
  slen (safeText (" 250 ok" +:+ newline) "accepted" 6) <= 6.
Proof.
  split; [vm_compute; reflexivity|].
  apply (safeText_safe (" 250 ok" +:+ newline) "accepted" 6); [lia|]. vm_compute. repeat constructor.
Defined.

(** ** The delivery protocol *)

(** Recording an attempt: all of it, or nothing when the lease is lost or the attempt
    is recorded already. *)
Definition finish (c : claimedDelivery) (f : NotificationRow -> NotificationRow)
    (outcome status : string) (at_ : Z) (d : DB) : option DB :=
  if holds (cd_deliveryID c) (cd_leaseToken c) d then
    match notification_attempts d !! (cd_deliveryID c, int16 (cd_attempt c)) with
    | Some _ => None
    | None => Some (on_refresh_events (fun l => l ++ [mkRefreshEvent (cd_organizationID c) (cd_environmentID c)
                      "notification.changed" "notification" (cd_deliveryID c)])
               (on_notification_attempts <[(cd_deliveryID c, int16 (cd_attempt c)) :=
                  mkNotificationAttempt outcome status at_]>
               (on_notification_outbox (alter f (cd_deliveryID c)) d)))
    end
  else None.

Definition accepted_row (c : claimedDelivery) (at_ : Z) (response : ProviderResponse) :
    NotificationRow -> NotificationRow :=
  set_nt_accepted (int16 (cd_attempt c)) (safeText (pr_MessageID response) (cd_deliveryID c) 255)
    (safeText (pr_Status response) "accepted" 160) at_.

Definition failed_row (c : claimedDelivery) (at_ : Z) (status : string) : NotificationRow -> NotificationRow :=
  if maximumAttempts <=? cd_attempt c
  then set_nt_attempted DFailed (int16 (cd_attempt c)) at_ status at_
  else set_nt_attempted DPending (int16 (cd_attempt c)) (time_add at_ (retryDelay (cd_attempt c))) status at_.

Definition fresh_token (token : string) (d : DB) (cl : list claimedDelivery) : Prop :=
  map_Forall (fun _ r => nt_lease_token r <> Some token) (notification_outbox d) /\
  Forall (fun c => cd_leaseToken c <> token) cl.

Inductive delivery : DB * list claimedDelivery -> DB * list claimedDelivery -> Prop :=
| dl_enqueue now event ev transition rs ids n t d cl :
    enqueue_rows now event ev transition rs ids (notification_outbox d) = Ok (n, t) ->
    delivery (d, cl) (on_notification_outbox (fun _ => t) d, cl)
| dl_reclaim at_ d cl : delivery (d, cl) (reclaim at_ d, cl)
| dl_claim at_ locked worker token lease_end c d d' cl :
    fresh_token token d cl -> claim at_ locked worker token lease_end d = Some (c, d') ->
    delivery (d, cl) (d', c :: cl)
| dl_accept c at_ response outcome status d d' cl :
    c ∈ cl -> finish c (accepted_row c at_ response) outcome status at_ d = Some d' ->
    delivery (d, cl) (d', cl)
| dl_fail c at_ status outcome d d' cl :
    c ∈ cl -> finish c (failed_row c at_ status) outcome status at_ d = Some d' ->
    delivery (d, cl) (d', cl)
| dl_forget d cl cl' : cl' `sublist_of` cl -> delivery (d, cl) (d, cl').

(** The CHECKs of the table, and that a row that still has to be sent has attempts
    left. *)
Record delivery_ok (r : NotificationRow) : Prop := {
  dk_count : 0 <= nt_attempt_count r <= 4;
  dk_lease : nt_state r = DLeased <-> is_Some (nt_lease_token r);
  dk_expiry : is_Some (nt_lease_token r) -> is_Some (nt_lease_owner r) /\ is_Some (nt_lease_expires_at r);
  dk_left : nt_state r = DPending \/ nt_state r = DLeased -> nt_attempt_count r < 4;
  dk_failed : nt_state r = DFailed -> nt_attempt_count r = 4;
  dk_failed_at : nt_state r = DFailed <-> is_Some (nt_failed_at r);
  dk_accepted_at : nt_state r = DAccepted <-> is_Some (nt_accepted_at r)
}.

(** The log holds exactly the attempts the rows count. *)
Definition log_ok (d : DB) : Prop := forall id n,
  is_Some (notification_attempts d !! (id, n)) <->
  exists r, notification_outbox d !! id = Some r /\ 1 <= n <= nt_attempt_count r.

Definition claim_ok (d : DB) (c : claimedDelivery) : Prop :=
  1 <= cd_attempt c <= 4 /\
  forall r, notification_outbox d !! cd_deliveryID c = Some r -> nt_lease_token r = Some (cd_leaseToken c) ->
    nt_attempt_count r + 1 = cd_attempt c.

Record delivery_inv (s : DB * list claimedDelivery) : Prop := {
  di_rows : map_Forall (fun _ r => delivery_ok r) (notification_outbox s.1);
  di_log : log_ok s.1;
  di_claims : Forall (claim_ok s.1) s.2
}.

(** Rows that are accepted or failed are final. *)
Definition settled (r : NotificationRow) : Prop := nt_state r = DAccepted \/ nt_state r = DFailed.
Definition settled_kept (d d' : DB) : Prop := forall id r,
  notification_outbox d !! id = Some r -> settled r -> notification_outbox d' !! id = Some r.

Lemma enqueue_rows_spec now event ev transition rs ids t n t' :
  enqueue_rows now event ev transition rs ids t = Ok (n, t') ->
  t ⊆ t' /\ forall id r, t !! id = None -> t' !! id = Some r ->
    nt_state r = DPending /\ nt_attempt_count r = 0 /\ nt_lease_token r = None /\
    nt_failed_at r = None /\ nt_accepted_at r = None.
Proof.
  revert ids t n. induction rs as [|x rs IH]; intros [|i ids] t n H; simpl in H;
    try (injection H as _ <-; split; [done|congruence]).
  case_decide; [by eapply IH|]. destruct (t !! i) eqn:Ei; [done|].
  destruct (enqueue_rows _ _ _ _ _ _ _) as [[n' t'']|] eqn:E; [|done]. injection H as <- <-.
  apply IH in E as [Hsub Hnew]. split.
  - etrans; [|exact Hsub]. by apply insert_subseteq.
  - intros id r Hn Hr. destruct (decide (id = i)) as [->|Hne].
    + assert (t'' !! i = Some (new_delivery now event ev transition x)) as E'.
      { eapply lookup_weaken; [|exact Hsub]. by rewrite lookup_insert_eq. }
      by simplify_eq.
    + apply (Hnew id r); [by rewrite lookup_insert_ne|done].
Qed.

Lemma delivery_claim_spec at_ locked worker token lease_end c d d' :
  claim at_ locked worker token lease_end d = Some (c, d') ->
  exists r, notification_outbox d !! cd_deliveryID c = Some r /\ claimable at_ locked (cd_deliveryID c, r) /\
    cd_leaseToken c = token /\ cd_attempt c = nt_attempt_count r + 1 /\
    d' = on_notification_outbox <[cd_deliveryID c := set_nt_leased worker token lease_end r]> d.
Proof.
  unfold claim, candidate. destruct (head _) as [[id r]|] eqn:E; [|done]. intros [= <- <-]. exists r. simpl.
  assert ((id, r) ∈ merge_sort due_before (filter (claimable at_ locked) (map_to_list (notification_outbox d)))) as Hin.
  { destruct (merge_sort _ _); [done|]. injection E as ->. left. }
  rewrite merge_sort_Permutation in Hin. apply list_elem_of_filter in Hin as [Hc Hin].
  by apply elem_of_map_to_list in Hin.
Qed.

Lemma finish_spec c f outcome status at_ d d' :
  finish c f outcome status at_ d = Some d' ->
  exists r, notification_outbox d !! cd_deliveryID c = Some r /\ nt_state r = DLeased /\
    nt_lease_token r = Some (cd_leaseToken c) /\
    notification_attempts d !! (cd_deliveryID c, int16 (cd_attempt c)) = None /\
    notification_outbox d' = <[cd_deliveryID c := f r]> (notification_outbox d) /\
    notification_attempts d' = <[(cd_deliveryID c, int16 (cd_attempt c)) :=
      mkNotificationAttempt outcome status at_]> (notification_attempts d).
Proof.
  unfold finish, holds. destruct (notification_outbox d !! cd_deliveryID c) as [r|] eqn:E; [|done].
  case_bool_decide as Hh; [|done]. destruct (notification_attempts d !! _) eqn:Ea; [done|].
  intros [= <-]. exists r. simpl. destruct Hh. repeat split; try done.
  apply map_eq. intros id. destruct (decide (id = cd_deliveryID c)) as [->|?].
  - by rewrite lookup_alter_eq, lookup_insert_eq, E.
  - by rewrite lookup_alter_ne, lookup_insert_ne.
Qed.

Lemma enqueue_inv now event ev transition rs ids n t d cl :
  enqueue_rows now event ev transition rs ids (notification_outbox d) = Ok (n, t) ->
  delivery_inv (d, cl) -> delivery_inv (on_notification_outbox (fun _ => t) d, cl).
Proof.
  intros [Hsub Hnew]%enqueue_rows_spec [H1 H2 H3]. simpl in *.
  assert (forall id r, t !! id = Some r -> notification_outbox d !! id = Some r \/
    (notification_outbox d !! id = None /\ nt_state r = DPending /\ nt_attempt_count r = 0 /\
     nt_lease_token r = None /\ nt_failed_at r = None /\ nt_accepted_at r = None)) as Hcase.
  { intros id r Hr. destruct (notification_outbox d !! id) as [r0|] eqn:E.
    - left. pose proof (lookup_weaken _ _ _ _ E Hsub). congruence.
    - right. split; [done|]. by eapply Hnew. }
  constructor; simpl.
  - intros id r Hr. destruct (Hcase _ _ Hr) as [Ho|(_ & Hs & Hc & Ht & Hf & Ha)]; [by apply (H1 id)|].
    constructor; rewrite ?Hs, ?Hc, ?Ht, ?Hf, ?Ha; try lia; try done; split; by intros [].
  - intros id k. simpl. rewrite (H2 id k). simpl. split; intros (r & Hr & Hk).
    + exists r. split; [by eapply lookup_weaken|done].
    + destruct (Hcase _ _ Hr) as [Ho|(_ & _ & Hc & _)]; [by exists r|lia].
  - eapply Forall_impl; [exact H3|]. intros c [Ha Hc]. split; [done|]. intros r Hr Ht. simpl in Hr.
    destruct (Hcase _ _ Hr) as [Ho|(_ & _ & _ & Hn & _)]; [by apply Hc|congruence].
Qed.

Lemma reclaim_inv at_ d cl : delivery_inv (d, cl) -> delivery_inv (reclaim at_ d, cl).
Proof.
  intros [H1 H2 H3]. simpl in *.
  assert (forall r, delivery_ok r -> delivery_ok (reclaim_row at_ r) /\
    nt_attempt_count (reclaim_row at_ r) = nt_attempt_count r /\
    (nt_lease_token (reclaim_row at_ r) = nt_lease_token r \/ nt_lease_token (reclaim_row at_ r) = None)) as Hr.
  { intros r Hok. unfold reclaim_row. destruct (lease_over at_ r) eqn:E; [|by auto].
    unfold lease_over in E. apply andb_true_iff in E as [E _]. apply bool_decide_eq_true in E.
    destruct Hok as [Hc Hl He Hleft Hf Hfa Haa]. split; [|by auto]. constructor; simpl; try done.
    - intros _. apply Hleft. by right.
    - rewrite E in Hfa. by rewrite <- Hfa.
    - rewrite E in Haa. by rewrite <- Haa. }
  constructor; simpl.
  - intros id r'. rewrite lookup_fmap. intros (r & Hl & ->)%fmap_Some. apply Hr. by apply (H1 id).
  - intros id k. simpl. rewrite (H2 id k). simpl. rewrite lookup_fmap. split; intros (r & Hl & Hk).
    + rewrite Hl. simpl. eexists. split; [done|]. destruct (Hr r (H1 id r Hl)) as (_ & -> & _). done.
    + apply fmap_Some in Hl as (r0 & Hl & ->). destruct (Hr r0 (H1 id r0 Hl)) as (_ & E & _).
      exists r0. by rewrite <- E.
  - eapply Forall_impl; [exact H3|]. intros c [Ha Hc]. split; [done|]. intros r' Hl Ht. simpl in *.
    rewrite lookup_fmap in Hl. apply fmap_Some in Hl as (r & Hl & ->).
    destruct (Hr r (H1 _ r Hl)) as (_ & -> & [E|E]); [apply Hc; [done|congruence]|congruence].
Qed.

Lemma claim_inv at_ locked worker token lease_end c d d' cl :
  fresh_token token d cl -> claim at_ locked worker token lease_end d = Some (c, d') ->
  delivery_inv (d, cl) -> delivery_inv (d', c :: cl).
Proof.
  intros [F1 F2] (r & Hr & (Hp & _ & Hlt & _) & Ht & Ha & ->)%delivery_claim_spec [H1 H2 H3]. simpl in *.
  pose proof (H1 _ _ Hr) as [Hc Hl He Hleft Hf Hfa Haa]. constructor; simpl.
  - apply map_Forall_insert_2; [|done]. constructor; simpl; try done.
    + by rewrite <- Hfa, Hp.
    + by rewrite <- Haa, Hp.
  - intros id k. simpl. rewrite (H2 id k). simpl. destruct (decide (id = cd_deliveryID c)) as [->|Hn].
    + rewrite lookup_insert_eq. split; intros (r' & E & Hk); simplify_eq; eauto.
    + by rewrite lookup_insert_ne.
  - constructor.
    + split; [lia|]. simpl. intros r'. rewrite lookup_insert_eq. by intros [= <-].
    + apply Forall_forall. intros c' Hc'. pose proof (proj1 (Forall_forall _ _) F2 c' Hc') as Hn.
      apply (proj1 (Forall_forall _ _) H3) in Hc' as [Ha' Hk]. split; [done|]. simpl. intros r'.
      intros [[_ <-]|[_ Hl']]%lookup_insert_Some; [simpl; congruence|by apply Hk].
Qed.

(** A completed row leaves the lease and counts the attempt. *)
Definition completes (c : claimedDelivery) (f : NotificationRow -> NotificationRow) : Prop :=
  forall r, delivery_ok r -> nt_state r = DLeased -> nt_attempt_count r + 1 = cd_attempt c ->
    1 <= cd_attempt c <= 4 ->
    delivery_ok (f r) /\ nt_attempt_count (f r) = cd_attempt c /\ nt_lease_token (f r) = None.

Lemma accepted_completes c at_ response : completes c (accepted_row c at_ response).
Proof.
  intros r [Hc Hl He Hleft Hf Hfa Haa] Hs Ha Hb.
  assert (int16 (cd_attempt c) = cd_attempt c) as E by (apply int16_id; lia).
  split; [|by simpl; rewrite E]. constructor; simpl; rewrite ?E;
    first [done|lia|by rewrite <- Hfa, Hs|by intros []|split; [by eexists|done]].
Qed.

Lemma failed_completes c at_ status : completes c (failed_row c at_ status).
Proof.
  intros r [Hc Hl He Hleft Hf Hfa Haa] Hs Ha Hb. unfold failed_row, maximumAttempts.
  assert (int16 (cd_attempt c) = cd_attempt c) as E by (apply int16_id; lia).
  destruct (Z.leb_spec 4 (cd_attempt c)); (split; [|by simpl; rewrite E]);
    constructor; simpl; rewrite ?E;
    first [done|lia|by rewrite <- Haa, Hs|by intros []|split; [by eexists|done]].
Qed.

Lemma finish_inv c f outcome status at_ d d' cl :
  c ∈ cl -> completes c f -> finish c f outcome status at_ d = Some d' ->
  delivery_inv (d, cl) -> delivery_inv (d', cl).
Proof.
  intros Hin Hf (r & Hr & Hs & Ht & Hno & Eo & Ea)%finish_spec [H1 H2 H3]. simpl in *.
  apply (proj1 (Forall_forall _ _) H3) in Hin as [Hb Hk]. specialize (Hk r Hr Ht).
  destruct (Hf r (H1 _ _ Hr) Hs Hk Hb) as (Hok & Hcnt & Htok).
  assert (int16 (cd_attempt c) = cd_attempt c) as E16 by (apply int16_id; lia). rewrite E16 in *.
  constructor; simpl; rewrite ?Eo.
  - by apply map_Forall_insert_2.
  - intros id k. simpl. rewrite Ea, Eo. destruct (decide (id = cd_deliveryID c)) as [->|Hn].
    + rewrite lookup_insert_eq. destruct (decide (k = cd_attempt c)) as [->|Hkn].
      * rewrite lookup_insert_eq. split; [|by eexists]. intros _. exists (f r). split; [done|lia].
      * rewrite lookup_insert_ne by congruence. rewrite (H2 _ k). simpl. split; intros (r' & E & Hk'); simplify_eq.
        -- exists (f r). split; [done|lia].
        -- exists r. split; [done|lia].
    + rewrite !lookup_insert_ne by congruence. apply H2.
  - eapply Forall_impl; [exact H3|]. intros c' [Ha' Hk']. split; [done|]. simpl. rewrite Eo. intros r'.
    intros [[_ <-]|[_ Hl']]%lookup_insert_Some; [congruence|by apply Hk'].
Qed.

Lemma delivery_preserves s s' : delivery s s' -> delivery_inv s -> delivery_inv s'.
Proof.
  intros H Hi. destruct H; [by eapply enqueue_inv|by apply reclaim_inv|by eapply claim_inv|
    eapply finish_inv; [done|apply accepted_completes|done|done]|
    eapply finish_inv; [done|apply failed_completes|done|done]|].
  destruct Hi as [H1 H2 H3]. constructor; [done..|]. simpl in *. apply Forall_forall. intros c Hc.
  apply (proj1 (Forall_forall _ _) H3). by eapply elem_of_sublist.
Qed.

Lemma delivery_settled s s' : delivery s s' -> delivery_inv s -> settled_kept s.1 s'.1.
Proof.
  intros H _. destruct H as [now event ev transition rs ids n t d cl He|at_ d cl|
    at_ locked worker token lease_end c d d' cl Hf Hc|c at_ response outcome status d d' cl Hin Hfin|
    c at_ status outcome d d' cl Hin Hfin|d cl cl' Hs]; intros id r Hr Hse; simpl in *.
  - apply enqueue_rows_spec in He as [Hsub _]. by eapply lookup_weaken.
  - rewrite lookup_fmap, Hr. simpl. unfold reclaim_row, lease_over. rewrite bool_decide_false; [done|].
    destruct Hse; congruence.
  - apply delivery_claim_spec in Hc as (r0 & Hr0 & (Hp & _) & _ & _ & ->). simpl. rewrite lookup_insert_ne; [done|].
    intros <-. simplify_eq. destruct Hse; simpl in *; congruence.
  - apply finish_spec in Hfin as (r0 & Hr0 & Hst & _ & _ & -> & _). rewrite lookup_insert_ne; [done|].
    intros <-. simplify_eq. destruct Hse; congruence.
  - apply finish_spec in Hfin as (r0 & Hr0 & Hst & _ & _ & -> & _). rewrite lookup_insert_ne; [done|].
    intros <-. simplify_eq. destruct Hse; congruence.
  - done.
Qed.

(** C22: however workers interleave with each other and with new incidents, every
    delivery is attempted at most four times, it fails only after the fourth attempt,
    a delivery under lease has an owner and a deadline, the attempt log holds exactly
    the attempts that were counted, and a delivery that was accepted or has failed
    never changes again. *)
Theorem delivery_safe (s s' : DB * list claimedDelivery) :
  rtc delivery s s' -> delivery_inv s ->
  delivery_inv s' /\ settled_kept s.1 s'.1.
Proof.
  induction 1 as [s|s1 s2 s3 Hs Hr IH]; intros Hi; [by split; [|intros ???]|].
  destruct (IH (delivery_preserves _ _ Hs Hi)) as [Hi' Hk]. split; [done|].
  intros id r Hr' Hse. apply Hk; [|done]. by eapply delivery_settled.
Qed.

(** ** [DeliverNext] *)

Definition completing (c : claimedDelivery) (f : NotificationRow -> NotificationRow) : Tx DB Z :=
  sql (fun _ d => let '(k, d') := complete_row (cd_deliveryID c) (cd_leaseToken c) f d in (Ok k, d')).

Lemma attempt_tx_ok c f outcome status at_ s a s' :
  attempt_tx c (completing c f) outcome status at_ s = (Ok a, s') ->
  finish c f outcome status at_ (tx_db s) = Some (tx_db s').
Proof.
  unfold attempt_tx, completing, complete_row. intros H.
  apply bind_ok in H as (k & s1 & H1 & H). apply sql_ok in H1 as [E1 N1]. unfold finish.
  destruct (holds _ _ _) eqn:Hh; injection E1 as <- D1; simpl in H; [|done].
  apply bind_ok in H as (? & s2 & H2 & H). apply sql_ok in H2 as [E2 N2]. rewrite <- D1 in E2. simpl in E2.
  destruct (notification_attempts (tx_db s) !! _); [done|]. injection E2 as _ D2.
  apply bind_ok in H as (? & s3 & H3 & H). apply update_ok in H3 as [D3 _].
  apply ret_ok in H as [_ <-]. by rewrite D3, <- D2.
Qed.

(** What the transaction after the send amounts to. *)
Definition outcome_of (c : claimedDelivery) (at_ : Z) (sent : ProviderResponse + option string) (d : DB) : option DB :=
  match sent with
  | inl response => finish c (accepted_row c at_ response) "accepted" (safeText (pr_Status response) "accepted" 160) at_ d
  | inr failure => finish c (failed_row c at_ (safeProviderStatus failure))
      (if maximumAttempts <=? cd_attempt c then "failed" else "retry_scheduled") (safeProviderStatus failure) at_ d
  end.

Definition outcome_tx (c : claimedDelivery) (at_ : Z) (sent : ProviderResponse + option string) : Tx DB (TxEnd ()) :=
  match sent with
  | inl response => accept_tx c at_ response
  | inr failure => retry_tx c at_ (safeProviderStatus failure)
  end.

Lemma outcome_tx_ok c at_ sent s a s' :
  outcome_tx c at_ sent s = (Ok a, s') -> outcome_of c at_ sent (tx_db s) = Some (tx_db s').
Proof.
  destruct sent as [response|failure]; simpl; unfold accept_tx, retry_tx, failed_row.
  - apply attempt_tx_ok.
  - destruct (maximumAttempts <=? cd_attempt c); apply attempt_tx_ok.
Qed.

Lemma delivery_claim_tx_ok locked worker lease now s a s' :
  claim_tx locked worker lease now s = (Ok (Commit a), s') ->
  exists c, a = Some c /\
    claim now locked worker (tx_uuid s (tx_next s)) (time_add now lease) (tx_db s) = Some (c, tx_db s').
Proof.
  unfold claim_tx. intros H. apply bind_ok in H as (r & s1 & H1 & H).
  unfold try_ in H1. destruct (ClaimNotificationDelivery _ _ _ _ s) as [r' s2] eqn:E. injection H1 as <- <-.
  simpl in H. destruct r' as [c|e]; [|by destruct e].
  apply ret_ok in H as [[= <-] <-]. exists c. split; [done|].
  unfold ClaimNotificationDelivery in E. apply bind_ok in E as (tok & s3 & Hu & E).
  injection Hu as <- <-. apply sql_ok in E as [E _]. simpl in E.
  destruct (claim _ _ _ _ _ _) as [[c' d']|]; [|done]. by injection E as -> <-.
Qed.

Lemma claim_tx_some locked worker lease now s c s' :
  claim_tx locked worker lease now s = (Ok (Rollback (Some c)), s') -> False.
Proof.
  unfold claim_tx. intros H. apply bind_ok in H as (r & s1 & _ & H). destruct r as [x|e]; [done|by destruct e].
Qed.

Section Refinement.
Context {O : Type} (Send : Message -> O -> (ProviderResponse + option string) * O).
Context (workerID : string) (lease : Z).

Lemma fresh_reclaim token at_ d cl : fresh_token token d cl -> fresh_token token (reclaim at_ d) cl.
Proof.
  intros [H1 H2]. split; [|done]. intros id r'. simpl. rewrite lookup_fmap.
  intros (r & Hr & ->)%fmap_Some. unfold reclaim_row. destruct (lease_over at_ r); [done|by apply (H1 id)].
Qed.

(** Whatever fails on the way, a call of [DeliverNext] is a sequence of steps of
    the delivery protocol. *)
Theorem DeliverNext_refines locked t now at_ (w w' : World DB O) r cl :
  (forall n, fresh_token (w_uuid w n) (w_db w) cl) ->
  DeliverNext Send workerID lease locked t now at_ w = (r, w') ->
  exists cl', rtc delivery (w_db w, cl) (w_db w', cl').
Proof.
  intros Hf H. unfold DeliverNext in H. unfold mbind at 1, SE_bind at 1 in H.
  destruct (ReclaimExpired t now w) as [r0 w1] eqn:E0. unfold ReclaimExpired in E0.
  pose proof (with_tx_uuid _ _ _ _ _ E0) as Hu1.
  assert (rtc delivery (w_db w, cl) (w_db w1, cl) /\ forall n, fresh_token (w_uuid w1 n) (w_db w1) cl) as [S1 Hf1].
  { rewrite Hu1. apply with_tx_db in E0 as [->|(fs & a & s & Hb & ->)]; [split; [apply rtc_refl|done]|].
    apply bind_ok in Hb as (n & s1 & H1 & H2). apply sql_ok in H1 as [[= _ D1] _].
    apply ret_ok in H2 as [_ <-]. rewrite <- D1. split; [apply rtc_once, dl_reclaim|]. intros. by apply fresh_reclaim. }
  destruct r0 as [n0|e]; [|injection H as _ <-; eauto].
  unfold mbind at 1, SE_bind at 1 in H.
  destruct (with_tx t (claim_tx locked workerID lease now) w1) as [r1 w2] eqn:E1.
  assert (w_db w2 = w_db w1 /\ (forall c, r1 <> Ok (Some c)) \/ exists c, delivery (w_db w1, cl) (w_db w2, c :: cl) /\
    (forall c', r1 = Ok (Some c') -> c' = c)) as [[Hd Hn]|(c & S2 & Hc)].
  { destruct r1 as [o|e].
    - apply with_tx_ok in E1 as (_ & fs & s & [(Hb & _ & ->)|(Hb & ->)]).
      + apply delivery_claim_tx_ok in Hb as (c & -> & Hb). right. exists c. split; [by eapply dl_claim|congruence].
      + left. split; [done|]. intros c. intros [= ->]. by apply claim_tx_some in Hb.
    - apply with_tx_all_or_nothing in E1 as [->|(fs & o & s & _ & Hb & _ & ->)]; [by left|].
      apply delivery_claim_tx_ok in Hb as (c & -> & Hb). right. exists c. split; [by eapply dl_claim|congruence]. }
  - exists cl. rewrite <- Hd in S1. destruct r1 as [[c|]|e]; [by destruct (Hn c)|..]; by injection H as _ <-.
  - exists (c :: cl). etransitivity; [exact S1|]. eapply rtc_l; [exact S2|].
    destruct r1 as [[c'|]|e]; [|injection H as _ <-; apply rtc_refl..]. specialize (Hc c' eq_refl) as ->.
    unfold mbind at 1, SE_bind at 1, external in H. destruct (Send (message_of c) (w_ext w2)) as [sent ext].
    unfold mbind, SE_bind in H.
    destruct (with_tx t _ _) as [r3 w3] eqn:E3 in H. assert (w' = w3) as -> by (destruct r3; by injection H).
    apply with_tx_db in E3 as [->|(fs & a & s & Hb & ->)]; [apply rtc_refl|]. apply rtc_once.
    apply (outcome_tx_ok c at_ sent) in Hb. simpl in Hb.
    destruct sent; [eapply dl_accept|eapply dl_fail]; [left|exact Hb|left|exact Hb].
Qed.
End Refinement.

(** The second transaction, computed when no statement fails. *)
Lemma outcome_tx_run c at_ sent t d u n d' :
  outcome_of c at_ sent d = Some d' ->
  outcome_tx c at_ sent (mkTx d t false u n []) = (Ok (Commit ()), mkTx d' t false u n []).
Proof.
  assert (forall f outcome status, finish c f outcome status at_ d = Some d' ->
    attempt_tx c (completing c f) outcome status at_ (mkTx d t false u n []) = (Ok (Commit ()), mkTx d' t false u n [])) as Hrun.
  { intros f outcome status. unfold finish, attempt_tx, completing, complete_row, mbind, SE_bind, sql. simpl.
    destruct (holds _ _ _); [|done]. unfold InsertNotificationAttempt, sql. simpl.
    destruct (notification_attempts d !! _); [done|]. by intros [= <-]. }
  destruct sent as [response|failure]; simpl; unfold accept_tx, retry_tx, failed_row.
  - apply Hrun.
  - destruct (maximumAttempts <=? cd_attempt c); apply Hrun.
Qed.

Lemma delivery_claim_tx_run locked worker lease now t d u n :
  claim_tx locked worker lease now (mkTx d t false u n []) =
  match claim now locked worker (u n) (time_add now lease) d with
  | Some (c, d') => (Ok (Commit (Some c)), mkTx d' t false u (S n) [])
  | None => (Ok (Rollback None), mkTx d t false u (S n) [])
  end.
Proof.
  unfold claim_tx, ClaimNotificationDelivery, try_, mbind, SE_bind, gen_random_uuid, sql. simpl.
  by destruct (claim _ _ _ _ _ _) as [[c d']|].
Qed.

Lemma candidate_row at_ locked d id r :
  candidate at_ locked d = Some (id, r) -> notification_outbox d !! id = Some r.
Proof.
  unfold candidate. intros E.
  assert ((id, r) ∈ merge_sort due_before (filter (claimable at_ locked) (map_to_list (notification_outbox d)))) as Hin.
  { destruct (merge_sort _ _); [done|]. injection E as ->. left. }
  rewrite merge_sort_Permutation in Hin. apply list_elem_of_filter in Hin as [_ Hin].
  by apply elem_of_map_to_list in Hin.
Qed.

(** A claim that was just made can be completed. *)
Lemma finish_after_claim at_ locked worker token lease_end c d d' cl f outcome status t :
  claim at_ locked worker token lease_end d = Some (c, d') -> delivery_inv (d, cl) ->
  exists r, candidate at_ locked d = Some (cd_deliveryID c, r) /\ cd_attempt c = nt_attempt_count r + 1 /\
  exists d'', finish c f outcome status t d' = Some d'' /\
    notification_outbox d'' !! cd_deliveryID c = Some (f (set_nt_leased worker token lease_end r)).
Proof.
  intros Hc [H1 H2 _]. simpl in *. pose proof Hc as Hc'.
  apply delivery_claim_spec in Hc' as (r & Hr & Hcl & Ht & Ha & ->). exists r.
  assert (candidate at_ locked d = Some (cd_deliveryID c, r)) as Ec.
  { unfold claim in Hc. destruct (candidate at_ locked d) as [[id r']|] eqn:E; [|done].
    apply candidate_row in E. injection Hc as <- _. simpl in *. congruence. }
  split; [done|]. split; [done|].
  unfold finish, holds. simpl. rewrite lookup_insert_eq, bool_decide_true by (by rewrite Ht).
  assert (notification_attempts d !! (cd_deliveryID c, int16 (cd_attempt c)) = None) as ->.
  { apply eq_None_not_Some. rewrite (H2 _ _). intros (r' & Hr' & Hk). simplify_eq.
    pose proof (H1 _ _ Hr) as [Hcnt _ _ _ _ _ _]. rewrite int16_id in Hk; lia. }
  eexists. split; [done|]. simpl. by rewrite lookup_alter_eq, lookup_insert_eq.
Qed.

(** What one call of [DeliverNext] does when the database answers.  It first puts
    deliveries with an expired lease back; if none is due it stops there.  Otherwise
    it sends exactly one message for the first due delivery and counts the attempt:
    an accepted delivery is final, a refused one waits 1, 5 and then 25 minutes, and
    the fourth refusal makes it failed. *)
Theorem DeliverNext_outcome {O} (Send : Message -> O -> (ProviderResponse + option string) * O)
    workerID lease locked t now at_ (w : World DB O) :
  w_faults w = [] -> delivery_inv (w_db w, []) ->
  let '(r, w') := DeliverNext Send workerID lease locked t now at_ w in
  match candidate now locked (reclaim now (w_db w)) with
  | None => r = Ok false /\ w_db w' = reclaim now (w_db w) /\ w_ext w' = w_ext w
  | Some (id, row) =>
      exists message row', r = Ok true /\ msg_DeliveryID message = id /\
      msg_Recipient message = nt_recipient_email row /\
      w_ext w' = (Send message (w_ext w)).2 /\ notification_outbox (w_db w') !! id = Some row' /\
      nt_attempt_count row' = nt_attempt_count row + 1 /\ nt_lease_token row' = None /\
      match (Send message (w_ext w)).1 with
      | inl _ => nt_state row' = DAccepted
      | inr _ =>
          if nt_attempt_count row =? 3 then nt_state row' = DFailed
          else nt_state row' = DPending /\ nt_next_attempt_at row' = at_ +
            (if nt_attempt_count row =? 0 then 1 else if nt_attempt_count row =? 1 then 5 else 25) * minute
      end
  end.
Proof.
  intros Hf Hi. apply (reclaim_inv now) in Hi. set (d := reclaim now (w_db w)) in *.
  unfold DeliverNext, mbind at 1, SE_bind at 1, ReclaimExpired.
  erewrite (with_tx_run _ _ w); [|done|reflexivity|done]. cbn [w_db w_uuid w_next w_ext tx_db tx_next].
  fold d. unfold mbind at 1, SE_bind at 1.
  pose proof (delivery_claim_tx_run locked workerID lease now t d (w_uuid w) (w_next w)) as Hc.
  destruct (claim now locked workerID (w_uuid w (w_next w)) (time_add now lease) d) as [[c d']|] eqn:Ecl.
  2: { assert (candidate now locked d = None) as -> by (unfold claim in Ecl; by destruct (candidate now locked d) as [[]|]).
       erewrite (with_tx_run _ _ _); [|done|exact Hc|done]. done. }
  erewrite (with_tx_run _ _ _); [|done|exact Hc|done].
  unfold mbind, SE_bind, external. cbn [w_db w_uuid w_next w_ext w_faults tx_db tx_next].
  destruct (Send (message_of c) (w_ext w)) as [sent ext] eqn:Es.
  pose proof (fun f outcome status => finish_after_claim now locked workerID (w_uuid w (w_next w))
    (time_add now lease) c d d' [] f outcome status at_ Ecl Hi) as Hfin.
  assert (exists row d'' f, candidate now locked d = Some (cd_deliveryID c, row) /\
    cd_attempt c = nt_attempt_count row + 1 /\ outcome_of c at_ sent d' = Some d'' /\
    f = match sent with inl response => accepted_row c at_ response
                      | inr failure => failed_row c at_ (safeProviderStatus failure) end /\
    notification_outbox d'' !! cd_deliveryID c =
      Some (f (set_nt_leased workerID (w_uuid w (w_next w)) (time_add now lease) row))) as
    (row & d'' & f & Ec & Ha & Ho & Ef & Hrow).
  { destruct sent as [response|failure]; simpl; edestruct Hfin as (row & Ec & Ha & d'' & Hd & Hr);
      exists row, d''; eexists; (split; [exact Ec|]); (split; [exact Ha|]);
      (split; [exact Hd|]); (split; [reflexivity|exact Hr]). }
  rewrite Ec. fold (outcome_tx c at_ sent).
  erewrite with_tx_run; [|done|exact (outcome_tx_run c at_ sent t d' _ _ d'' Ho)|done].
  pose proof (di_rows _ Hi _ _ (candidate_row _ _ _ _ _ Ec)) as [Hcnt _ _ _ _ _ _].
  exists (message_of c), (f (set_nt_leased workerID (w_uuid w (w_next w)) (time_add now lease) row)).
  assert (msg_Recipient (message_of c) = nt_recipient_email row) as Hm.
  { unfold claim in Ecl. rewrite Ec in Ecl. by injection Ecl as <- _. }
  rewrite Es. split; [done|]. split; [done|]. split; [done|]. split; [done|]. split; [done|].
  assert (nt_attempt_count row < 4) as Hlt.
  { unfold claim in Ecl. pose proof Ecl as (r0 & Hr0 & (_ & _ & Hl & _) & _)%delivery_claim_spec.
    pose proof (candidate_row _ _ _ _ _ Ec). simpl in *. congruence. }
  subst f. assert (int16 (cd_attempt c) = nt_attempt_count row + 1) as E16 by (rewrite int16_id; lia).
  destruct sent as [response|failure]; cbn [fst snd].
  - simpl. by rewrite E16.
  - unfold failed_row, maximumAttempts, retryDelay, time_add. rewrite E16, Ha.
    zcases; simpl; repeat (split; [first [done|lia]|]); first [done|lia].
Qed.

(** A worker that lost its lease (it was reclaimed, or another worker holds the
    delivery) gets [ErrLeaseLost] for its outcome and nothing is written: its late
    answer can neither settle nor reschedule the delivery. *)
Theorem lost_lease_harmless {O} (c : claimedDelivery) at_ sent t (w : World DB O) :
  w_faults w = [] -> holds (cd_deliveryID c) (cd_leaseToken c) (w_db w) = false ->
  with_tx t (match sent with
             | inl response => accept_tx c at_ response
             | inr failure => retry_tx c at_ (safeProviderStatus failure)
             end) w = (Err ErrLeaseLost, w).
Proof.
  intros Hf Hh. assert (forall f outcome status,
    with_tx t (attempt_tx c (completing c f) outcome status at_) w = (Err ErrLeaseLost, w)) as H.
  { intros f outcome status. destruct w as [d o u n fs]. simpl in *. subst fs.
    unfold with_tx, attempt_tx, completing, complete_row, mbind, SE_bind, sql. simpl. by rewrite Hh. }
  destruct sent; apply H.
Qed.

(** ** Witnesses *)
Module OneDelivery.
Definition row : NotificationRow :=
  mkNotificationRow "org" "inc" "event" "user" "a@b.c" "opened" DPending 0 10 None None None None None None None 10.
Definition db : DB := on_notification_outbox (fun _ => {["n" := row]}) empty_db.
Definition world : World DB nat := mkWorld db 0%nat (fun _ => "t") 0 [].
(** A mail server that counts its calls and refuses. *)
Definition refuse (_ : Message) (n : nat) : (ProviderResponse + option string) * nat := (inr (Some "451"), S n).

Lemma one_delivery_inv : delivery_inv (db, []).
Proof.
  constructor; [|intros id n|constructor].
  - apply map_Forall_singleton. constructor; simpl; try done; try lia; split; by intros [].
  - change (notification_attempts (db, @nil claimedDelivery).1) with (∅ : gmap (string * Z) NotificationAttempt).
    change (notification_outbox (db, @nil claimedDelivery).1) with ({["n" := row]} : gmap string NotificationRow).
    rewrite lookup_empty. split; [by intros []|].
    intros (r & [_ <-]%lookup_singleton_Some & Hn). simpl in Hn. lia.
Qed.

Lemma one_delivery_fresh : fresh_token "t" db [].
Proof. split; [|constructor]. by apply map_Forall_singleton. Qed.
End OneDelivery.

Lemma delivery_safe_witness :
  delivery_inv (reclaim 5 OneDelivery.db, []) /\ settled_kept OneDelivery.db (reclaim 5 OneDelivery.db).
Proof.
  apply (delivery_safe (OneDelivery.db, []) (reclaim 5 OneDelivery.db, [])).
  - apply rtc_once, dl_reclaim.
  - exact OneDelivery.one_delivery_inv.
Defined.

Lemma DeliverNext_refines_witness :
  exists cl', rtc delivery (OneDelivery.db, [])
    (w_db (DeliverNext OneDelivery.refuse "w1" minute (fun _ => false) 20 20 30 OneDelivery.world).2, cl').
Proof.
  eapply (DeliverNext_refines OneDelivery.refuse "w1" minute (fun _ => false) 20 20 30 OneDelivery.world);
    [|apply surjective_pairing].
  intros n. exact OneDelivery.one_delivery_fresh.
Defined.

Lemma DeliverNext_outcome_witness :
  let '(r, w') := DeliverNext OneDelivery.refuse "w1" minute (fun _ => false) 20 20 30 OneDelivery.world in
  r = Ok true /\ w_ext w' = 1%nat.
Proof.
  pose proof (DeliverNext_outcome OneDelivery.refuse "w1" minute (fun _ => false) 20 20 30 OneDelivery.world
    eq_refl OneDelivery.one_delivery_inv) as H.
  assert (candidate 20 (fun _ => false) (reclaim 20 (w_db OneDelivery.world)) = Some ("n", OneDelivery.row)) as E
    by (vm_compute; reflexivity).
  rewrite E in H. destruct (DeliverNext _ _ _ _ _ _ _ _) as [r w'].
  destruct H as (message & row' & Hr & _ & _ & Hx & _). split; [exact Hr|exact Hx].
Defined.

Lemma lost_lease_harmless_witness :
  let c := mkClaimed "n" "inc" "org" "env" "a@b.c" "opened" "t0" 1 in
  with_tx 20 (accept_tx c 30 (mkResponse "m" "ok")) OneDelivery.world = (Err ErrLeaseLost, OneDelivery.world).
Proof.
  apply (lost_lease_harmless (mkClaimed "n" "inc" "org" "env" "a@b.c" "opened" "t0" 1) 30
    (inl (mkResponse "m" "ok")) 20 OneDelivery.world); vm_compute; reflexivity.
Defined.
