(* ===== verification/Authorization.v ===== *)
(** * Authorization: the role-permission policy

    Models internal/authorization/policy.go.  [Role] and [Permission] are string
    types there, so a role that is none of the four is a value too; it is allowed
    nothing. *)

From stdpp Require Import base gmap list strings.
From Stdlib Require Import ZArith.
From S2P Require Import Prelude Store.

Abbreviation Role := string (only parsing).
Abbreviation Permission := string (only parsing).

Definition RoleOwner : Role := "owner".
Definition RoleAdmin : Role := "admin".
Definition RoleMember : Role := "member".
Definition RoleViewer : Role := "viewer".

Definition PermissionMembersRead : Permission := "members:read".
Definition PermissionMembersInvite : Permission := "members:invite".
Definition PermissionMonitorsRead : Permission := "monitors:read".
Definition PermissionMonitorsManage : Permission := "monitors:manage".
Definition PermissionIncidentsRead : Permission := "incidents:read".
Definition PermissionIncidentsManage : Permission := "incidents:manage".
Definition PermissionTenantRead : Permission := "tenant:read".
Definition PermissionTenantManage : Permission := "tenant:manage".
Definition PermissionMembersManage : Permission := "members:manage".

Definition allowing (ps : list Permission) : gmap Permission bool :=
  list_to_map ((fun p => (p, true)) <$> ps).

Definition policy : gmap Role (gmap Permission bool) := list_to_map [
  (RoleOwner, allowing [PermissionMembersRead; PermissionMembersInvite; PermissionMembersManage;
    PermissionMonitorsRead; PermissionMonitorsManage; PermissionIncidentsRead; PermissionIncidentsManage;
    PermissionTenantRead; PermissionTenantManage]);
  (RoleAdmin, allowing [PermissionMembersRead; PermissionMembersInvite; PermissionMembersManage;
    PermissionMonitorsRead; PermissionMonitorsManage; PermissionIncidentsRead; PermissionIncidentsManage;
    PermissionTenantRead; PermissionTenantManage]);
  (RoleMember, allowing [PermissionMembersRead; PermissionMonitorsRead; PermissionMonitorsManage;
    PermissionIncidentsRead; PermissionIncidentsManage; PermissionTenantRead]);
  (RoleViewer, allowing [PermissionMembersRead; PermissionMonitorsRead; PermissionIncidentsRead;
    PermissionTenantRead])].

(** A missing key of a Go map reads as the zero value. *)
Definition Allows (role : Role) (permission : Permission) : bool :=
  default false (default ∅ (policy !! role) !! permission).

Definition ValidAssignableRole (role : Role) : bool :=
  String.eqb role RoleAdmin || String.eqb role RoleMember || String.eqb role RoleViewer.

Definition order : list Permission :=
  [PermissionTenantRead; PermissionTenantManage; PermissionMembersRead;
   PermissionMembersInvite; PermissionMembersManage; PermissionMonitorsRead;
   PermissionMonitorsManage; PermissionIncidentsRead; PermissionIncidentsManage].

Definition AllowedActions (role : Role) : list string :=
  filter (fun permission => Allows role permission = true) order.

(** The text of the role column. *)
Definition role_text (r : member_role) : Role :=
  match r with Owner => RoleOwner | Admin => RoleAdmin | Member => RoleMember | Viewer => RoleViewer end.

(** ** What the policy grants *)

Lemma allowing_lookup ps p : allowing ps !! p = (if decide (p ∈ ps) then Some true else None).
Proof.
  induction ps as [|q ps IH]; [done|]. change (allowing (q :: ps)) with (<[q := true]> (allowing ps)).
  destruct (decide (p = q)) as [->|Hn].
  - by rewrite lookup_insert_eq, decide_True by left.
  - rewrite lookup_insert_ne, IH by done. apply decide_ext. rewrite elem_of_cons. tauto.
Qed.

Lemma Allows_allowing role ps p :
  policy !! role = Some (allowing ps) -> Allows role p = bool_decide (p ∈ ps).
Proof.
  intros H. unfold Allows. rewrite H. simpl. rewrite allowing_lookup.
  destruct (decide (p ∈ ps)); [by rewrite bool_decide_true|by rewrite bool_decide_false].
Qed.

(** A role outside the policy is allowed nothing; the others have a list. *)
Lemma policy_cases role :
  policy !! role = None \/ exists ps, policy !! role = Some (allowing ps) /\ ps ⊆ order /\
    (role = RoleOwner \/ role = RoleAdmin \/ role = RoleMember \/ role = RoleViewer).
Proof.
  destruct (policy !! role) as [m|] eqn:E; [right|by left]. unfold policy in E. simpl in E.
  repeat (apply lookup_insert_Some in E as [[<- <-]|[_ E]];
    [eexists; split; [reflexivity|]; split; [|tauto]; intros x; unfold order; rewrite !elem_of_cons; tauto|]).
  by rewrite lookup_empty in E.
Qed.

Lemma Allows_spec role p : Allows role p = true -> p ∈ order /\
  (role = RoleOwner \/ role = RoleAdmin \/ role = RoleMember \/ role = RoleViewer).
Proof.
  destruct (policy_cases role) as [E|(ps & E & Hs & Hr)].
  - unfold Allows. by rewrite E.
  - rewrite (Allows_allowing _ _ _ E), bool_decide_eq_true. auto.
Qed.

(** The policy denies by default and is ordered: what a viewer may do a member
    may, what a member may do an admin may, an owner and an admin may do the same;
    a role that is none of the four may do nothing; and [AllowedActions] lists
    exactly the permissions a role is allowed, each once. *)
Theorem policy_ordered (role : Role) (p : Permission) :
  (Allows RoleViewer p = true -> Allows RoleMember p = true) /\
  (Allows RoleMember p = true -> Allows RoleAdmin p = true) /\
  Allows RoleOwner p = Allows RoleAdmin p /\
  (role ∉ [RoleOwner; RoleAdmin; RoleMember; RoleViewer] -> Allows role p = false) /\
  (p ∈ AllowedActions role <-> Allows role p = true) /\ NoDup (AllowedActions role).
Proof.
  rewrite (Allows_allowing RoleViewer _ p eq_refl), (Allows_allowing RoleMember _ p eq_refl),
    (Allows_allowing RoleAdmin _ p eq_refl), (Allows_allowing RoleOwner _ p eq_refl).
  rewrite !bool_decide_eq_true. split; [rewrite !elem_of_cons; tauto|]. split; [rewrite !elem_of_cons; tauto|]. split; [done|]. split; [|split].
  - intros Hr. destruct (Allows role p) eqn:E; [|done]. apply Allows_spec in E as [_ Hc].
    destruct Hr. rewrite !elem_of_cons. tauto.
  - unfold AllowedActions. rewrite list_elem_of_filter. split; [tauto|]. intros H.
    split; [done|]. by apply Allows_spec in H as [? _].
  - apply NoDup_filter. unfold order. apply (bool_decide_unpack _). vm_compute. exact I.
Qed.
