(* ===== verification/Incident.v ===== *)
(** * Incident: threshold incidents and their timeline

    Models internal/incident/service.go with db/queries/incidents.sql.
    [ApplyEvaluationTx] runs inside the transaction that accepts a result, after the
    monitor was evaluated; [Acknowledge], [Resolve] and [Get] are the members' actions.

    Every query casts its text identifiers to uuid, which makes them lower case; the
    three actions, whose identifiers come from a request, do it once on entry
    ([as_uuid]). *)

From stdpp Require Import base gmap list strings sorting.
From Stdlib Require Import ZArith Lia Ascii String.
From S2P Require Import Prelude Tx Store Bytes Sealing Reliability Notification Authorization.

(** ** Input checks *)

Definition hyphen_at (index : Z) : bool :=
  (index =? 8) || (index =? 13) || (index =? 18) || (index =? 23).

Fixpoint uuid_chars (index : Z) (value : string) : bool :=
  match value with
  | EmptyString => true
  | String c r =>
      (if hyphen_at index then Ascii.eqb c "-"%char
       else contains_char "0123456789abcdefABCDEF" c) && uuid_chars (index + 1) r
  end.

Definition validUUID (value : string) : bool := (slen value =? 36) && uuid_chars 0 value.

Definition validActionInput (userID environmentID incidentID reason : string) : bool :=
  validUUID userID && validUUID environmentID && validUUID incidentID && (slen reason <=? 500).

(** [$1::text::uuid], as text again. *)
Definition as_uuid (s : string) : string := to_lower s.

(** ** Queries *)

Definition NULLIF (s : string) : option string := if String.eqb s "" then None else Some s.

Definition ensure_rule (id m : string) (d : DB) : res () * DB :=
  match monitors d !! m with
  | None => (Ok (), d)
  | Some mon =>
      if decide (map_Exists (fun _ r => ar_monitor_id r = m) (alert_rules d)) then (Ok (), d)
      else match alert_rules d !! id with
           | Some _ => (Err ErrUniqueViolation, d)
           | None => (Ok (), on_alert_rules <[id := mkAlertRule (mon_organization_id mon) (mon_environment_id mon)
                                                   m 3 2 true]> d)
           end
  end.

Definition EnsureDefaultAlertRule (m : string) : Tx DB () :=
  id ← gen_random_uuid; sql (fun _ => ensure_rule id m).

Definition rule_row (m : string) (d : DB) : option (string * AlertRule * observed_state) :=
  match enabled_rule m d, reliability_states d !! m with
  | Some (id, r), Some s => Some (id, r, rs_observed_state s)
  | _, _ => None
  end.

Definition GetEnabledMonitorAlertRule (m : string) : Tx DB (string * AlertRule * observed_state) :=
  select_one (fun _ => rule_row m).

Definition is_open (m rule : string) (r : IncidentRow) : Prop :=
  inc_monitor_id r = m /\ inc_alert_rule_id r = rule /\ inc_status r = IOpen.
#[global] Instance is_open_dec m rule r : Decision (is_open m rule r).
Proof. unfold is_open. apply _. Defined.

Definition open_incident (m rule : string) (d : DB) : option string :=
  fst <$> head (filter (fun x => is_open m rule x.2) (map_to_list (incidents d))).

Definition LockOpenIncident (m rule : string) : Tx DB string := select_one (fun _ => open_incident m rule).

(** [LIMIT $2] refuses a negative count. *)
Definition ListRecentIncidentEvaluationTimes (m : string) (limit : Z) : Tx DB (list Z) := sql (fun _ d =>
  if limit <? 0 then (Err ErrDatabase, d)
  else (Ok (take (Z.to_nat limit) ((fun x => x.1.1) <$> reverse (order_by_key (evaluations_of m d)))), d)).

Definition new_incident (org env m rule : string) (started opened : Z) : IncidentRow :=
  mkIncidentRow org env m rule IOpen started opened None None None None None None.

(** The partial unique index is the arbiter of the insert; a taken primary key is an
    error. *)
Definition create_open (id org env m rule : string) (started opened : Z) (d : DB) : res string * DB :=
  if decide (map_Exists (fun _ r => is_open m rule r) (incidents d)) then (Err ErrNoRows, d)
  else match incidents d !! id with
       | Some _ => (Err ErrUniqueViolation, d)
       | None => (Ok id, on_incidents <[id := new_incident org env m rule started opened]> d)
       end.

Definition CreateOpenIncident (org env m rule : string) (started opened : Z) : Tx DB string :=
  id ← gen_random_uuid; sql (fun _ => create_open id org env m rule started opened).

Definition resolve_open (at_ : Z) (actor kind reason id : string) (d : DB) : Z * DB :=
  match incidents d !! id with
  | Some r =>
      if decide (inc_status r = IOpen)
      then (1, on_incidents <[id := set_inc_resolved at_ (NULLIF actor) kind (NULLIF (btrim reason)) r]> d)
      else (0, d)
  | None => (0, d)
  end.

Definition ResolveOpenIncident (at_ : Z) (actor kind reason id : string) : Tx DB Z :=
  sql (fun _ d => let '(n, d') := resolve_open at_ actor kind reason id d in (Ok n, d')).

Definition acknowledge_open (at_ : Z) (user id : string) (d : DB) : DB :=
  match incidents d !! id with
  | Some r =>
      if decide (inc_status r = IOpen /\ inc_acknowledged_at r = None)
      then on_incidents <[id := set_inc_acknowledged at_ user r]> d else d
  | None => d
  end.

Definition AcknowledgeOpenIncident (at_ : Z) (user id : string) : Tx DB () :=
  update (fun _ => acknowledge_open at_ user id).

Definition GetIncidentTenant (id : string) : Tx DB (string * string) :=
  select_one (fun _ d => (fun r => (inc_organization_id r, inc_environment_id r)) <$> (incidents d !! id)).

(** The event of an incident under a key: the pair is unique. *)
Definition event_of (incident key : string) (d : DB) : option string :=
  fst <$> head (filter (fun x => iev_incident_id x.2 = incident /\ iev_event_key x.2 = key)
    (map_to_list (incident_events d))).

(** The conflict clause rewrites the key with itself. *)
Definition upsert_event (id : string) (ev : IncidentEvent) (d : DB) : res string * DB :=
  match event_of (iev_incident_id ev) (iev_event_key ev) d with
  | Some old => (Ok old, d)
  | None => match incident_events d !! id with
            | Some _ => (Err ErrUniqueViolation, d)
            | None => (Ok id, on_incident_events <[id := ev]> d)
            end
  end.

Definition UpsertIncidentEvent (org env incident key type actor job reason : string) (at_ : Z) : Tx DB string :=
  id ← gen_random_uuid;
  sql (fun _ => upsert_event id (mkIncidentEvent org env incident key type (NULLIF actor) (NULLIF job)
    (NULLIF (btrim reason)) at_)).

Definition InsertIncidentRefreshEvent (org env incident : string) : Tx DB () :=
  update (fun _ => on_refresh_events (fun l => l ++ [mkRefreshEvent org env "incident.changed" "incident" incident])).

Definition authorized_row (user env id : string) (d : DB) : option (IncidentRow * member_role) :=
  match incidents d !! id with
  | Some r =>
      match org_members d !! (inc_organization_id r, user) with
      | Some m => if decide (inc_environment_id r = env) then Some (r, om_role m) else None
      | None => None
      end
  | None => None
  end.

Definition LoadAuthorizedIncident (user env id : string) : Tx DB (IncidentRow * member_role) :=
  select_one (fun _ => authorized_row user env id).

(** ** Transitions inside a transaction *)

Definition openIncidentID (m rule : string) : Tx DB (option string) :=
  r ← try_ (LockOpenIncident m rule);
  match r with
  | Ok id => mret (Some id)
  | Err ErrNoRows => mret None
  | Err e => throw e
  end.

(** A nil [actorUserID] is the empty string. *)
Definition optionalString (value : option string) : string := default "" value.

Definition insertEvent (org env incident key type : string) (actor : option string) (job reason : string)
    (now : Z) : Tx DB string :=
  eventID ← UpsertIncidentEvent org env incident key type (optionalString actor)
    (Secureheaders.TrimSpace job) reason now;
  _ ← InsertIncidentRefreshEvent org env incident;
  mret eventID.

Definition openIncident (org env m rule job : string) (startedAt now : Z) : Tx DB () :=
  r ← try_ (CreateOpenIncident org env m rule startedAt now);
  match r with
  | Err ErrNoRows => _ ← openIncidentID m rule; mret ()
  | Err e => throw e
  | Ok incidentID =>
      eventID ← insertEvent org env incidentID "opened" "opened" None job "failure threshold reached" now;
      _ ← EnqueueIncidentEventTx eventID "opened";
      mret ()
  end.

Definition resolveIncident (incidentID job kind : string) (actor : option string) (reason : string) (now : Z) :
    Tx DB () :=
  rowsAffected ← ResolveOpenIncident now (optionalString actor) kind reason incidentID;
  if rowsAffected =? 0 then mret () else
  tenant ← GetIncidentTenant incidentID;
  eventID ← insertEvent tenant.1 tenant.2 incidentID "resolved" kind actor job reason now;
  _ ← EnqueueIncidentEventTx eventID "resolved";
  mret ().

(** When the incident started: the oldest of the newest results the threshold counts. *)
Definition startedAt (now : Z) (times : list Z) : Z := default now (last times).

Definition ApplyEvaluationTx (m job : string) (corrected : bool) (now : Z) : Tx DB () :=
  _ ← EnsureDefaultAlertRule m;
  r ← try_ (GetEnabledMonitorAlertRule m);
  match r with
  | Err ErrNoRows => mret ()
  | Err e => throw e
  | Ok (ruleID, rule, observed) =>
      open ← openIncidentID m ruleID;
      if decide (observed = Down) then
        match open with
        | Some _ => mret ()
        | None =>
            times ← ListRecentIncidentEvaluationTimes m (int32 (ar_failure_threshold rule));
            openIncident (ar_organization_id rule) (ar_environment_id rule) m ruleID job (startedAt now times) now
        end
      else
        match open with
        | Some openID =>
            if corrected then resolveIncident openID job "late_result_correction" None
              "late result correction invalidated the open threshold" now
            else if decide (observed = Healthy) then resolveIncident openID job "automatic_recovery" None
              "recovery threshold reached" now
            else mret ()
        | None => mret ()
        end
  end.

(** ** The members' actions *)

Definition loadAuthorizedIncident (user env id : string) : Tx DB (IncidentRow * Role) :=
  r ← try_ (LoadAuthorizedIncident user env id);
  match r with
  | Ok (row, role) => mret (row, role_text role)
  | Err ErrNoRows => throw ErrIncidentNotFound
  | Err e => throw e
  end.

Section Service.
Context {O : Type}.

(** Transactions begin at [t]. *)
Definition Get (t : Z) (userID environmentID incidentID : string) : SE (World DB O) IncidentRow :=
  if negb (validActionInput userID environmentID incidentID "") then throw ErrInvalidInput else
  with_tx t (
    x ← loadAuthorizedIncident (as_uuid userID) (as_uuid environmentID) (as_uuid incidentID);
    if negb (Allows x.2 PermissionIncidentsRead) then throw ErrForbidden
    else mret (Rollback x.1)).

(** The checks both actions share: the incident is open and the member may manage it. *)
Definition load_open (userID environmentID incidentID : string) : Tx DB IncidentRow :=
  x ← loadAuthorizedIncident userID environmentID incidentID;
  if negb (Allows x.2 PermissionIncidentsManage) then throw ErrForbidden else
  if negb (bool_decide (inc_status x.1 = IOpen)) then throw ErrAlreadyResolved
  else mret x.1.

Definition acknowledge_tx (userID environmentID incidentID reason : string) (now : Z) : Tx DB (TxEnd ()) :=
  row ← load_open userID environmentID incidentID;
  _ ← (match inc_acknowledged_at row with
       | None =>
           _ ← AcknowledgeOpenIncident now userID incidentID;
           _ ← insertEvent (inc_organization_id row) (inc_environment_id row) incidentID
                 "acknowledged" "acknowledged" (Some userID) "" reason now;
           mret ()
       | Some _ => mret ()
       end);
  mret (Commit ()).

Definition Acknowledge (t now : Z) (userID environmentID incidentID reason : string) :
    SE (World DB O) IncidentRow :=
  if negb (validActionInput userID environmentID incidentID reason) then throw ErrInvalidInput else
  _ ← with_tx t (acknowledge_tx (as_uuid userID) (as_uuid environmentID) (as_uuid incidentID) reason now);
  Get t userID environmentID incidentID.

Definition resolve_tx (userID environmentID incidentID reason : string) (now : Z) : Tx DB (TxEnd ()) :=
  _ ← load_open userID environmentID incidentID;
  _ ← resolveIncident incidentID "" "manual_resolution" (Some userID) reason now;
  mret (Commit ()).

Definition Resolve (t now : Z) (userID environmentID incidentID reason : string) : SE (World DB O) IncidentRow :=
  if negb (validActionInput userID environmentID incidentID reason) then throw ErrInvalidInput else
  _ ← with_tx t (resolve_tx (as_uuid userID) (as_uuid environmentID) (as_uuid incidentID) reason now);
  Get t userID environmentID incidentID.
End Service.

(** ** What holds of the tables between transactions *)

(** The CHECKs of the table. *)
Record incident_ok (r : IncidentRow) : Prop := {
  ik_ack : is_Some (inc_acknowledged_at r) <-> is_Some (inc_acknowledged_by_user_id r);
  ik_open : inc_status r = IOpen -> inc_resolved_at r = None /\ inc_resolved_by_user_id r = None /\
    inc_resolution_kind r = None /\ inc_resolution_reason r = None;
  ik_resolved : inc_status r = IResolved -> is_Some (inc_resolved_at r) /\ is_Some (inc_resolution_kind r)
}.

Definition has_event (incident key : string) (d : DB) : Prop :=
  map_Exists (fun _ e => iev_incident_id e = incident /\ iev_event_key e = key) (incident_events d).

Record incident_inv (d : DB) : Prop := {
  ii_one_open : forall i j r s, incidents d !! i = Some r -> incidents d !! j = Some s ->
    inc_status r = IOpen -> inc_status s = IOpen ->
    inc_monitor_id r = inc_monitor_id s -> inc_alert_rule_id r = inc_alert_rule_id s -> i = j;
  ii_rows : map_Forall (fun _ r => incident_ok r) (incidents d);
  ii_keys : forall i j e f, incident_events d !! i = Some e -> incident_events d !! j = Some f ->
    iev_incident_id e = iev_incident_id f -> iev_event_key e = iev_event_key f -> i = j;
  ii_tenant : map_Forall (fun _ e => exists r, incidents d !! iev_incident_id e = Some r /\
    inc_organization_id r = iev_organization_id e /\ inc_environment_id r = iev_environment_id e)
    (incident_events d);
  ii_timeline : map_Forall (fun i r => has_event i "opened" d /\
    (has_event i "resolved" d <-> inc_status r = IResolved) /\
    (has_event i "acknowledged" d <-> is_Some (inc_acknowledged_at r))) (incidents d)
}.

Lemma inv_frame d d' :
  incidents d' = incidents d -> incident_events d' = incident_events d -> incident_inv d -> incident_inv d'.
Proof.
  intros E1 E2 [H1 H2 H3 H4 H5]. constructor; unfold has_event in *; rewrite ?E1, ?E2 in *; assumption.
Qed.

(** ** Lemmas on the queries *)

Lemma head_filter_Some {A} (P : A -> Prop) {HP : forall x, Decision (P x)} (l : list A) x :
  head (filter P l) = Some x -> x ∈ l /\ P x.
Proof.
  intros H. assert (x ∈ filter P l) as Hx by (destruct (filter P l); [done|injection H as ->; left]).
  apply list_elem_of_filter in Hx. tauto.
Qed.

Lemma head_filter_None {A} (P : A -> Prop) {HP : forall x, Decision (P x)} (l : list A) :
  head (filter P l) = None -> forall x, x ∈ l -> ~ P x.
Proof.
  intros H x Hx Hp. assert (x ∈ filter P l) as Hf by (by apply list_elem_of_filter).
  destruct (filter P l); [by apply not_elem_of_nil in Hf|done].
Qed.

Lemma event_of_Some incident key d e :
  event_of incident key d = Some e ->
  exists ev, incident_events d !! e = Some ev /\ iev_incident_id ev = incident /\ iev_event_key ev = key.
Proof.
  unfold event_of. destruct (head _) as [[e' ev]|] eqn:E; [|done]. intros [= <-].
  apply head_filter_Some in E as [Hin Hp]. apply elem_of_map_to_list in Hin. eauto.
Qed.

Lemma event_of_None incident key d : event_of incident key d = None <-> ~ has_event incident key d.
Proof.
  unfold event_of, has_event. destruct (head _) as [[e ev]|] eqn:E.
  - apply head_filter_Some in E as [Hin Hp]. apply elem_of_map_to_list in Hin.
    split; [done|]. intros []. by exists e, ev.
  - split; [|done]. intros _ (e & ev & He & Hp). by eapply head_filter_None in E; [|apply elem_of_map_to_list].
Qed.

Lemma open_incident_Some m rule d id :
  open_incident m rule d = Some id -> exists r, incidents d !! id = Some r /\ is_open m rule r.
Proof.
  unfold open_incident. destruct (head _) as [[i r]|] eqn:E; [|done]. intros [= <-].
  apply head_filter_Some in E as [Hin Hp]. apply elem_of_map_to_list in Hin. eauto.
Qed.

Lemma open_incident_None m rule d :
  open_incident m rule d = None <-> ~ map_Exists (fun _ r => is_open m rule r) (incidents d).
Proof.
  unfold open_incident. destruct (head _) as [[e ev]|] eqn:E.
  - apply head_filter_Some in E as [Hin Hp]. apply elem_of_map_to_list in Hin.
    split; [done|]. intros []. by exists e, ev.
  - split; [|done]. intros _ (e & ev & He & Hp). by eapply head_filter_None in E; [|apply elem_of_map_to_list].
Qed.

(** Tables a transition leaves alone. *)
Record same_rest (d d' : DB) : Prop := {
  sr_rules : alert_rules d' = alert_rules d;
  sr_states : reliability_states d' = reliability_states d;
  sr_members : org_members d' = org_members d;
  sr_users : users d' = users d;
  sr_checks : health_checks d' = health_checks d;
  sr_evaluations : evaluations d' = evaluations d;
  sr_jobs : check_jobs d' = check_jobs d
}.

#[global] Instance same_rest_refl : Reflexive same_rest.
Proof. by constructor. Qed.
#[global] Instance same_rest_trans : Transitive same_rest.
Proof. intros d1 d2 d3 [] []. constructor; by etransitivity. Qed.

(** Recording an event: a new row, or the one that is there already. *)
Record recorded (ev : IncidentEvent) (e : string) (d d' : DB) : Prop := {
  rc_incidents : incidents d' = incidents d;
  rc_outbox : notification_outbox d' = notification_outbox d;
  rc_rest : same_rest d d';
  rc_events :
    (event_of (iev_incident_id ev) (iev_event_key ev) d = Some e /\ incident_events d' = incident_events d) \/
    (event_of (iev_incident_id ev) (iev_event_key ev) d = None /\ incident_events d !! e = None /\
     incident_events d' = <[e := ev]> (incident_events d))
}.

Lemma insertEvent_ok org env incident key type actor job reason now s e s' :
  insertEvent org env incident key type actor job reason now s = (Ok e, s') ->
  tx_now s' = tx_now s /\
  recorded (mkIncidentEvent org env incident key type (NULLIF (optionalString actor))
    (NULLIF (Secureheaders.TrimSpace job)) (NULLIF (btrim reason)) now) e (tx_db s) (tx_db s').
Proof.
  unfold insertEvent. intros H. apply bind_ok in H as (e' & s1 & H1 & H).
  apply bind_ok in H as (u & s2 & H2 & H). apply ret_ok in H as [<- <-].
  apply update_ok in H2 as [D2 N2]. unfold UpsertIncidentEvent in H1.
  apply bind_ok in H1 as (id & s0 & H0 & H1). apply uuid_ok in H0 as [D0 N0].
  apply sql_ok in H1 as [E1 N1]. rewrite D0 in E1. split; [congruence|]. rewrite D2.
  unfold upsert_event in E1. destruct (event_of _ _ _) as [old|] eqn:Eo.
  - injection E1 as <- <-. constructor; simpl; auto. by constructor.
  - destruct (incident_events (tx_db s) !! id) eqn:Ei; [done|]. injection E1 as <- <-.
    constructor; simpl; auto. by constructor.
Qed.

(** Enqueueing writes deliveries only. *)
Lemma enqueue_ok event transition s n s' :
  EnqueueIncidentEventTx event transition s = (Ok n, s') ->
  tx_now s' = tx_now s /\ exists t ids, tx_db s' = on_notification_outbox (fun _ => t) (tx_db s) /\
    Datatypes.length ids = Datatypes.length (event_recipients event (tx_db s)) /\
    forall ev, incident_events (tx_db s) !! event = Some ev ->
      enqueue_rows (tx_now s) event ev transition (event_recipients event (tx_db s)) ids
        (notification_outbox (tx_db s)) = Ok (n, t).
Proof.
  unfold EnqueueIncidentEventTx. destruct (_ && _); [done|]. unfold EnqueueIncidentNotifications.
  intros H. apply bind_ok in H as (ids & s1 & H1 & H). apply uuids_ok in H1 as [[D1 N1] Hl].
  apply sql_ok in H as [E N]. rewrite D1, N1 in E. split; [congruence|].
  destruct (incident_events (tx_db s) !! event) as [ev|] eqn:Ee.
  - destruct (enqueue_rows _ _ _ _ _ _ _) as [[k t]|] eqn:Er; [|done]. injection E as <- <-.
    exists t, ids. split; [done|]. split; [done|]. by intros ev' [= <-].
  - injection E as <- <-. exists (notification_outbox (tx_db s)), ids. split; [by destruct (tx_db s)|]. done.
Qed.

(** ** The invariant is kept *)

Lemma has_event_insert d d' e ev i k :
  incident_events d !! e = None -> incident_events d' = <[e := ev]> (incident_events d) ->
  has_event i k d' <-> (iev_incident_id ev = i /\ iev_event_key ev = k) \/ has_event i k d.
Proof. intros Hf Ee. unfold has_event. rewrite Ee. by rewrite map_Exists_insert. Qed.

(** One incident is inserted or rewritten and one event of it is added. *)
Lemma transition_inv d d' i r' e ev :
  incident_inv d ->
  incidents d' = <[i := r']> (incidents d) ->
  incident_events d !! e = None -> incident_events d' = <[e := ev]> (incident_events d) ->
  iev_incident_id ev = i -> inc_organization_id r' = iev_organization_id ev ->
  inc_environment_id r' = iev_environment_id ev -> ~ has_event i (iev_event_key ev) d ->
  (inc_status r' = IOpen -> forall j s, incidents d !! j = Some s ->
     is_open (inc_monitor_id r') (inc_alert_rule_id r') s -> j = i) ->
  incident_ok r' ->
  (forall r, incidents d !! i = Some r ->
     inc_organization_id r' = inc_organization_id r /\ inc_environment_id r' = inc_environment_id r) ->
  (let now_has k := k = iev_event_key ev \/ has_event i k d in
   now_has "opened" /\ (now_has "resolved" <-> inc_status r' = IResolved) /\
   (now_has "acknowledged" <-> is_Some (inc_acknowledged_at r'))) ->
  incident_inv d'.
Proof.
  intros [H1 H2 H3 H4 H5] Ei Hf Ee Hi Ho Hv Hn Hopen Hok Ht Hev. simpl in Hev.
  assert (forall a k, has_event a k d' <-> (i = a /\ iev_event_key ev = k) \/ has_event a k d) as Hhas.
  { intros a k. rewrite (has_event_insert d d' e ev a k Hf Ee). by rewrite Hi. }
  constructor; rewrite ?Ei, ?Ee.
  - intros a b ra rb [[<- <-]|[Na La]]%lookup_insert_Some [[<- <-]|[Nb Lb]]%lookup_insert_Some Sa Sb Em Er; [done|..].
    + symmetry. apply (Hopen Sa b rb Lb). unfold is_open. by rewrite Em, Er.
    + apply (Hopen Sb a ra La). unfold is_open. by rewrite Em, Er.
    + by apply (H1 a b ra rb).
  - by apply map_Forall_insert_2.
  - intros a b ea eb [[<- <-]|[Na La]]%lookup_insert_Some [[<- <-]|[Nb Lb]]%lookup_insert_Some E1 E2; [done|..].
    + destruct Hn. exists b, eb. split; [done|]. by rewrite <- E1, <- E2, Hi.
    + destruct Hn. exists a, ea. split; [done|]. by rewrite E1, E2, Hi.
    + by apply (H3 a b ea eb).
  - apply map_Forall_insert_2.
    + exists r'. by rewrite Hi, lookup_insert_eq.
    + intros a ea La. destruct (H4 a ea La) as (r & Lr & E1 & E2). destruct (decide (iev_incident_id ea = i)) as [E|Ne].
      * rewrite E, lookup_insert_eq. rewrite E in Lr. destruct (Ht r Lr) as [T1 T2]. exists r'. split; [done|]. split; congruence.
      * rewrite lookup_insert_ne by done. by exists r.
  - intros a ra [[<- <-]|[Na La]]%lookup_insert_Some; rewrite !Hhas.
    + destruct Hev as (T1 & T2 & T3). split; [destruct T1; [by left|by right]|]. split.
      * rewrite <- T2. split; intros [?|?]; intuition.
      * rewrite <- T3. split; intros [?|?]; intuition.
    + destruct (H5 a ra La) as (T1 & T2 & T3). split; [by right|]. split.
      * rewrite <- T2. split; [intros [[]|]; done|by right].
      * rewrite <- T3. split; [intros [[]|]; done|by right].
Qed.

(** What [openIncident] did when it returned. *)
Lemma openIncident_ok org env m rule job started now s u s' :
  openIncident org env m rule job started now s = (Ok u, s') ->
  (tx_db s' = tx_db s /\ map_Exists (fun _ r => is_open m rule r) (incidents (tx_db s))) \/
  exists id e ev t ids n,
    ~ map_Exists (fun _ r => is_open m rule r) (incidents (tx_db s)) /\ incidents (tx_db s) !! id = None /\
    incidents (tx_db s') = <[id := new_incident org env m rule started now]> (incidents (tx_db s)) /\
    ev = mkIncidentEvent org env id "opened" "opened" None (NULLIF (Secureheaders.TrimSpace job))
           (Some "failure threshold reached") now /\
    same_rest (tx_db s) (tx_db s') /\
    ((event_of id "opened" (tx_db s) = Some e /\ incident_events (tx_db s') = incident_events (tx_db s)) \/
     (event_of id "opened" (tx_db s) = None /\ incident_events (tx_db s) !! e = None /\
      incident_events (tx_db s') = <[e := ev]> (incident_events (tx_db s)))) /\
    notification_outbox (tx_db s') = t /\
    (incident_events (tx_db s') !! e = Some ev -> Datatypes.length ids = Datatypes.length (recipients org (tx_db s)) /\
       enqueue_rows (tx_now s) e ev "opened" (recipients org (tx_db s)) ids
         (notification_outbox (tx_db s)) = Ok (n, t)).
Proof.
  unfold openIncident. intros H. apply bind_ok in H as (r & s1 & H1 & H).
  unfold try_ in H1. destruct (CreateOpenIncident _ _ _ _ _ _ s) as [r' s1'] eqn:Ec. injection H1 as <- <-.
  unfold CreateOpenIncident in Ec. unfold mbind, SE_bind in Ec. unfold gen_random_uuid in Ec. 
  set (s0 := mkTx _ _ _ _ _ _) in Ec. set (id := tx_uuid s (tx_next s)) in Ec.
  destruct r' as [id'|er].
  - right. apply sql_ok in Ec as [Ec N1]. simpl in Ec, N1. unfold create_open in Ec. case_decide as Hno; [done|].
    destruct (incidents (tx_db s) !! id) eqn:Ei; [done|]. injection Ec as <- D1.
    apply bind_ok in H as (e & s2 & H2 & H). apply insertEvent_ok in H2 as [N2 [R1 R2 R3 R4]].
    apply bind_ok in H as (n & s3 & H3 & H). apply ret_ok in H as [_ <-].
    apply enqueue_ok in H3 as [N3 (t & ids & D3 & Hl & He)].
    rewrite <- D1 in R1, R2, R3, R4. cbn [incidents notification_outbox on_incidents incident_events] in R1, R2, R4.
    exists id, e. eexists. exists t, ids, n. split; [done|]. split; [done|]. rewrite D3. simpl.
    split; [done|]. split; [reflexivity|]. split; [destruct R3; by constructor|]. split; [exact R4|]. split; [done|].
    intros Hev. specialize (He _ Hev). unfold event_recipients in Hl, He. rewrite Hev in Hl, He. cbn [iev_organization_id] in Hl, He.
    assert (recipients org (tx_db s2) = recipients org (tx_db s)) as Hrec.
    { unfold recipients. by rewrite (sr_members _ _ R3), (sr_users _ _ R3). }
    rewrite Hrec in Hl, He. rewrite R2 in He. rewrite <- He, N2, N1. done.
  - destruct er; try done. left. apply sql_err in Ec as [[D1 N1] Hn]. simpl in D1.
    apply bind_ok in H as (o & s2 & H2 & H). apply ret_ok in H as [_ <-].
    destruct (Hn eq_refl) as [d Hd]. simpl in Hd. unfold create_open in Hd. case_decide as Hex.
    + split; [|done]. rewrite <- D1. unfold openIncidentID in H2. apply bind_ok in H2 as (r & s3 & H3 & H2).
      apply try_select_one_ok in H3 as [[D3 N3] _]. destruct r as [i|e]; [by apply ret_ok in H2 as [_ <-]|].
      destruct e; try done. by apply ret_ok in H2 as [_ <-].
    + by destruct (incidents (tx_db s) !! id).
Qed.

Lemma openIncident_inv org env m rule job started now s u s' :
  openIncident org env m rule job started now s = (Ok u, s') ->
  incident_inv (tx_db s) -> incident_inv (tx_db s') /\ map_Exists (fun _ r => is_open m rule r) (incidents (tx_db s')).
Proof.
  intros [[-> Hex]|(id & e & ev & t & ids & n & Hno & Hid & Ei & -> & _ & Hev & _ & _)]%openIncident_ok Hi; [done|].
  assert (forall k, ~ has_event id k (tx_db s)) as Hnone.
  { intros k (j & f & Hj & Hf & _). destruct (ii_tenant _ Hi j f Hj) as (r & Hr & _). simplify_eq. }
  destruct Hev as [[E _]|(_ & Hf & Ee)].
  { apply event_of_Some in E as (f & Hf & E1 & E2). destruct (Hnone "opened"). by exists e, f. }
  split.
  - eapply transition_inv; [exact Hi|exact Ei|exact Hf|exact Ee|done|done|done|apply Hnone|..].
    + intros _ j r Hj Ho. destruct Hno. by exists j, r.
    + constructor; simpl; [split; by intros []|done|done].
    + intros r Hr. congruence.
    + simpl. split; [by left|]. split; (split; [intros [?|Hh]; [done|by destruct (Hnone _ Hh)]|]); [done|by intros []].
  - rewrite Ei. exists id, (new_incident org env m rule started now). split; [by rewrite lookup_insert_eq|by repeat split].
Qed.

(** What [resolveIncident] did when it returned. *)
Lemma resolveIncident_ok id job kind actor reason now s u s' :
  resolveIncident id job kind actor reason now s = (Ok u, s') ->
  (tx_db s' = tx_db s /\ forall r, incidents (tx_db s) !! id = Some r -> inc_status r = IResolved) \/
  exists r r' e ev t ids n, incidents (tx_db s) !! id = Some r /\ inc_status r = IOpen /\
    r' = set_inc_resolved now (NULLIF (optionalString actor)) kind (NULLIF (btrim reason)) r /\
    incidents (tx_db s') = <[id := r']> (incidents (tx_db s)) /\
    ev = mkIncidentEvent (inc_organization_id r) (inc_environment_id r) id "resolved" kind
           (NULLIF (optionalString actor)) (NULLIF (Secureheaders.TrimSpace job)) (NULLIF (btrim reason)) now /\
    same_rest (tx_db s) (tx_db s') /\
    ((event_of id "resolved" (tx_db s) = Some e /\ incident_events (tx_db s') = incident_events (tx_db s)) \/
     (event_of id "resolved" (tx_db s) = None /\ incident_events (tx_db s) !! e = None /\
      incident_events (tx_db s') = <[e := ev]> (incident_events (tx_db s)))) /\
    notification_outbox (tx_db s') = t /\
    (incident_events (tx_db s') !! e = Some ev ->
       Datatypes.length ids = Datatypes.length (recipients (inc_organization_id r) (tx_db s)) /\
       enqueue_rows (tx_now s) e ev "resolved" (recipients (inc_organization_id r) (tx_db s)) ids
         (notification_outbox (tx_db s)) = Ok (n, t)).
Proof.
  unfold resolveIncident. intros H. apply bind_ok in H as (k & s1 & H1 & H). apply sql_ok in H1 as [E1 N1].
  unfold resolve_open in E1. destruct (incidents (tx_db s) !! id) as [r|] eqn:Er.
  2: { injection E1 as <- D1. apply ret_ok in H as [_ <-]. left. split; [done|congruence]. }
  case_decide as Hopen.
  2: { injection E1 as <- D1. apply ret_ok in H as [_ <-]. left. split; [done|]. intros r0 [= <-].
       by destruct (inc_status r). }
  injection E1 as <- D1. right. set (r' := set_inc_resolved _ _ _ _ r) in D1.
  apply bind_ok in H as (tenant & s2 & H2 & H). apply select_one_ok in H2 as [E2 [D2 N2]].
  rewrite <- D1 in E2. simpl in E2. rewrite lookup_insert_eq in E2. injection E2 as <-.
  apply bind_ok in H as (e & s3 & H3 & H). apply insertEvent_ok in H3 as [N3 [R1 R2 R3 R4]].
  apply bind_ok in H as (n & s4 & H4 & H). apply ret_ok in H as [_ <-].
  apply enqueue_ok in H4 as [N4 (t & ids & D4 & Hl & He)].
  rewrite D2, <- D1 in R1, R2, R3, R4. cbn [incidents notification_outbox on_incidents incident_events] in R1, R2, R4.
  exists r, r', e. eexists. exists t, ids, n. split; [done|]. split; [done|]. split; [done|]. rewrite D4. simpl.
  split; [exact R1|]. split; [reflexivity|]. split; [destruct R3; by constructor|]. split; [exact R4|]. split; [done|].
  intros Hev. specialize (He _ Hev). unfold event_recipients in Hl, He. rewrite Hev in Hl, He.
  cbn [iev_organization_id fst inc_organization_id set_inc_resolved r'] in Hl, He.
  assert (recipients (inc_organization_id r) (tx_db s3) = recipients (inc_organization_id r) (tx_db s)) as Hrec.
  { unfold recipients. by rewrite (sr_members _ _ R3), (sr_users _ _ R3). }
  rewrite Hrec in Hl, He. rewrite R2 in He. split; [done|]. rewrite <- He, N3, N2, N1. done.
Qed.

Lemma resolveIncident_inv id job kind actor reason now s u s' :
  resolveIncident id job kind actor reason now s = (Ok u, s') ->
  incident_inv (tx_db s) -> incident_inv (tx_db s') /\
    (forall r, incidents (tx_db s') !! id = Some r -> inc_status r = IResolved).
Proof.
  intros [[-> Hr]|(r & r' & e & ev & t & ids & n & Hr & Hs & -> & Ei & -> & _ & Hev & _ & _)]%resolveIncident_ok Hi; [done|].
  destruct (ii_timeline _ Hi id r Hr) as (T1 & T2 & T3).
  assert (~ has_event id "resolved" (tx_db s)) as Hno by (rewrite T2, Hs; done).
  destruct Hev as [[E _]|(_ & Hf & Ee)].
  { apply event_of_Some in E as (f & Hf & E1 & E2). destruct Hno. by exists e, f. }
  split; [|rewrite Ei; intros r0; rewrite lookup_insert_eq; by intros [= <-]].
  pose proof (ii_rows _ Hi id r Hr) as [K1 K2 K3].
  eapply transition_inv; [exact Hi|exact Ei|exact Hf|exact Ee|done|done|done|exact Hno|done|..].
  - constructor; simpl; [done|done|]. intros _. split; by eexists.
  - intros r0 Hr0. by simplify_eq.
  - simpl. split; [by right|]. split; [by split; [|left]|]. rewrite <- T3. split; [by intros [?|?]|by right].
Qed.

(** ** [ApplyEvaluationTx] *)

(** Incidents of other monitors and resolved incidents stay as they are. *)
Definition only_touches (m : string) (d d' : DB) : Prop := forall id r,
  incidents d !! id = Some r -> inc_monitor_id r <> m \/ inc_status r = IResolved -> incidents d' !! id = Some r.

Lemma EnsureDefaultAlertRule_ok m s u s' :
  EnsureDefaultAlertRule m s = (Ok u, s') ->
  tx_now s' = tx_now s /\ exists t, tx_db s' = on_alert_rules (fun _ => t) (tx_db s).
Proof.
  unfold EnsureDefaultAlertRule. intros H. apply bind_ok in H as (id & s1 & H1 & H).
  apply uuid_ok in H1 as [D1 N1]. apply sql_ok in H as [E N]. split; [congruence|]. rewrite D1 in E.
  unfold ensure_rule in E.
  destruct (monitors (tx_db s) !! m); [|injection E as <- <-; exists (alert_rules (tx_db s)); by destruct (tx_db s)].
  case_decide; [injection E as <- <-; exists (alert_rules (tx_db s)); by destruct (tx_db s)|].
  destruct (alert_rules (tx_db s) !! id); [done|]. injection E as <- <-. by eexists.
Qed.

Lemma openIncidentID_ok m rule s o s' :
  openIncidentID m rule s = (Ok o, s') -> moved (tx_db s) s s' /\ o = open_incident m rule (tx_db s).
Proof.
  unfold openIncidentID. intros H. apply bind_ok in H as (r & s1 & H1 & H).
  apply try_select_one_ok in H1 as [Hm Hr]. destruct r as [i|e].
  - apply ret_ok in H as [<- <-]. by rewrite Hr.
  - destruct e; try done. apply ret_ok in H as [<- <-]. by rewrite Hr.
Qed.

Lemma openIncident_touches org env m rule job started now s u s' :
  openIncident org env m rule job started now s = (Ok u, s') ->
  only_touches m (tx_db s) (tx_db s') /\ rule_row m (tx_db s') = rule_row m (tx_db s).
Proof.
  intros [[-> _]|(id & e & ev & t & ids & n & _ & Hid & Ei & _ & Hs & _)]%openIncident_ok; [by split; [intros ????|]|].
  split; [|by unfold rule_row, enabled_rule; rewrite (sr_rules _ _ Hs), (sr_states _ _ Hs)].
  intros i r Hr _. rewrite Ei, lookup_insert_ne; [done|]. congruence.
Qed.

Lemma resolveIncident_touches m id job kind actor reason now s u s' r0 :
  resolveIncident id job kind actor reason now s = (Ok u, s') ->
  incidents (tx_db s) !! id = Some r0 -> inc_monitor_id r0 = m -> inc_status r0 = IOpen ->
  only_touches m (tx_db s) (tx_db s') /\ rule_row m (tx_db s') = rule_row m (tx_db s).
Proof.
  intros [[-> _]|(r & r' & e & ev & t & ids & n & Hr & Hs & -> & Ei & _ & Hsr & _)]%resolveIncident_ok H0 Hm Ho;
    [by split; [intros ????|]|].
  split; [|by unfold rule_row, enabled_rule; rewrite (sr_rules _ _ Hsr), (sr_states _ _ Hsr)].
  intros i ri Hri Hx. rewrite Ei, lookup_insert_ne; [done|]. intros <-. simplify_eq. destruct Hx; congruence.
Qed.

(** What a call amounts to, given the rule and the observed state it found. *)
Lemma ApplyEvaluationTx_ok m job corrected now s u s' :
  ApplyEvaluationTx m job corrected now s = (Ok u, s') ->
  exists s1, tx_now s1 = tx_now s /\ (exists t, tx_db s1 = on_alert_rules (fun _ => t) (tx_db s)) /\
  match rule_row m (tx_db s1) with
  | None => tx_db s' = tx_db s1
  | Some (ruleID, rule, observed) =>
      match observed, open_incident m ruleID (tx_db s1) with
      | Down, Some _ => tx_db s' = tx_db s1
      | Down, None => exists s2 times, tx_db s2 = tx_db s1 /\ tx_now s2 = tx_now s1 /\
          times = take (Z.to_nat (int32 (ar_failure_threshold rule)))
            ((fun x => x.1.1) <$> reverse (order_by_key (evaluations_of m (tx_db s1)))) /\
          openIncident (ar_organization_id rule) (ar_environment_id rule) m ruleID job (startedAt now times) now s2
            = (Ok u, s')
      | _, Some openID =>
          if corrected || bool_decide (observed = Healthy) then
            exists s2 kind reason, tx_db s2 = tx_db s1 /\ tx_now s2 = tx_now s1 /\
              resolveIncident openID job kind None reason now s2 = (Ok u, s')
          else tx_db s' = tx_db s1
      | _, None => tx_db s' = tx_db s1
      end
  end.
Proof.
  unfold ApplyEvaluationTx. intros H. apply bind_ok in H as (? & s1 & H1 & H).
  apply EnsureDefaultAlertRule_ok in H1 as [N1 D1]. exists s1. split; [done|]. split; [done|].
  apply bind_ok in H as (r & s2 & H2 & H). apply try_select_one_ok in H2 as [[D2 N2] Hr].
  destruct r as [[[ruleID rule] observed]|e].
  2: { destruct e; try done. rewrite Hr. by apply ret_ok in H as [_ <-]. }
  rewrite Hr. apply bind_ok in H as (o & s3 & H3 & H). apply openIncidentID_ok in H3 as [[D3 N3] ->].
  rewrite D2 in H, D3. rewrite N2 in N3.
  case_decide as Hd; [subst observed; simpl|].
  - destruct (open_incident m ruleID (tx_db s1)); [by apply ret_ok in H as [_ <-]|].
    apply bind_ok in H as (times & s4 & H4 & H). apply sql_ok in H4 as [E4 N4].
    destruct (_ <? 0); [done|]. injection E4 as <- D4. rewrite D3 in *. exists s4. eexists.
    split; [done|]. split; [congruence|]. split; [reflexivity|exact H].
  - destruct (open_incident m ruleID (tx_db s1)) as [openID|]; [|by destruct observed; apply ret_ok in H as [_ <-]].
    assert (if corrected || bool_decide (observed = Healthy) then
      (exists s2 kind reason, tx_db s2 = tx_db s1 /\ tx_now s2 = tx_now s1 /\
              resolveIncident openID job kind None reason now s2 = (Ok u, s')) else tx_db s' = tx_db s1) as Hg.
    { destruct corrected; simpl; [by eauto 7|]. case_decide; [rewrite bool_decide_true by done; by eauto 7|].
      rewrite bool_decide_false by done. by apply ret_ok in H as [_ <-]. }
    destruct observed; [exact Hg..|done].
Qed.

(** Applying an evaluation keeps the incidents consistent (at most one open
    incident per monitor and rule; every incident has its opened event, a resolved
    event exactly when it is resolved and an acknowledged event exactly when it is
    acknowledged; one event per key) and makes them track the monitor: after it, a
    monitor that is down has an open incident, one that is healthy, or that a
    correction took out of down, has none, and in every other case the incidents are
    as before.  Incidents of other monitors and resolved incidents never change. *)
Lemma ApplyEvaluationTx_tracks m job corrected now s s' :
  ApplyEvaluationTx m job corrected now s = (Ok (), s') -> incident_inv (tx_db s) ->
  incident_inv (tx_db s') /\ only_touches m (tx_db s) (tx_db s') /\
  match rule_row m (tx_db s') with
  | None => incidents (tx_db s') = incidents (tx_db s)
  | Some (ruleID, _, observed) =>
      let has_open := map_Exists (fun _ r => is_open m ruleID r) (incidents (tx_db s')) in
      match observed with
      | Down => has_open
      | Healthy => ~ has_open
      | _ => if corrected then ~ has_open else incidents (tx_db s') = incidents (tx_db s)
      end
  end.
Proof.
  intros H Hi. apply ApplyEvaluationTx_ok in H as (s1 & N1 & [t D1] & H).
  assert (incidents (tx_db s1) = incidents (tx_db s)) as Ei by (by rewrite D1).
  assert (incident_inv (tx_db s1)) as Hi1 by (by eapply inv_frame; [..|exact Hi]; rewrite D1).
  assert (forall d', only_touches m (tx_db s1) d' -> only_touches m (tx_db s) d') as Ht.
  { intros d' Hd i r Hr. rewrite <- Ei in Hr. by apply Hd. }
  assert (only_touches m (tx_db s) (tx_db s1)) as Ht1 by (by apply Ht; intros ????).
  destruct (rule_row m (tx_db s1)) as [[[ruleID rule] observed]|] eqn:Er.
  2: { rewrite H, Er. by rewrite Ei. }
  destruct (open_incident m ruleID (tx_db s1)) as [openID|] eqn:Eo.
  - pose proof (open_incident_Some _ _ _ _ Eo) as (r0 & Hr0 & Hopen).
    assert (forall s2 kind reason, tx_db s2 = tx_db s1 -> resolveIncident openID job kind None reason now s2 = (Ok (), s') ->
      incident_inv (tx_db s') /\ only_touches m (tx_db s) (tx_db s') /\ rule_row m (tx_db s') = Some (ruleID, rule, observed) /\
      ~ map_Exists (fun _ r => is_open m ruleID r) (incidents (tx_db s'))) as Hres.
    { intros s2 kind reason D2 Hrun. pose proof Hopen as (Hm & Hrule & Hst).
      destruct (resolveIncident_touches m _ _ _ _ _ _ _ _ _ r0 Hrun) as [Ht2 Er2]; [by rewrite D2|done..|].
      destruct (resolveIncident_inv _ _ _ _ _ _ _ _ _ Hrun) as [Hi2 Hdone]; [by rewrite D2|].
      rewrite D2 in Ht2, Er2. split; [done|]. split; [by apply Ht|]. split; [congruence|].
      intros (i & ri & Hri & Hoi). destruct Hoi as (Hmi & Hrulei & Hsti).
      assert (i <> openID) as Hne by (intros ->; rewrite (Hdone _ Hri) in Hsti; done).
      assert (exists r1, incidents (tx_db s1) !! i = Some r1 /\ r1 = ri) as (r1 & Hr1 & ->).
      { apply resolveIncident_ok in Hrun as [[E _]|(r & r' & e & ev & t' & ids & n & _ & _ & _ & E & _)].
        - rewrite E, D2 in Hri. eauto.
        - rewrite E, lookup_insert_ne, D2 in Hri by done. eauto. }
      apply Hne. apply (ii_one_open _ Hi1 i openID ri r0); congruence. }
    assert (map_Exists (fun _ r => is_open m ruleID r) (incidents (tx_db s1))) as Hex by (by exists openID, r0).
    destruct observed, corrected; simpl in H;
      first [ destruct H as (s2 & kind & reason & D2 & _ & Hrun);
              destruct (Hres s2 kind reason D2 Hrun) as (? & ? & -> & ?); (split; [assumption|]); split; assumption
            | rewrite H, Er; (split; [assumption|]); (split; [assumption|]); first [exact Hex|exact Ei] ].
  - apply open_incident_None in Eo. destruct observed.
    4: { destruct H as (s2 & times & D2 & _ & _ & Hrun). pose proof Hrun as Hrun'.
         apply openIncident_touches in Hrun as [Ht2 Er2]. apply openIncident_inv in Hrun' as [Hi2 Hex]; [|by rewrite D2].
         rewrite D2 in Ht2, Er2. rewrite Er2, Er. split; [done|]. by split; [apply Ht|]. }
    all: rewrite H, Er; split; [done|]; split; [done|]; destruct corrected; first [exact Eo|exact Ei].
Qed.

(** ** The transitions return

    With no fault ahead and uuids that are not in the tables, nothing in a transition
    can fail.  [good] is that situation, [runs m] says that [m] returns in it and
    leaves it so. *)
Record fresh_ids (u : nat -> string) (n : nat) (d : DB) : Prop := {
  fi_inj : forall i j, u i = u j -> i = j;
  fi_rules : forall i, (n <= i)%nat -> alert_rules d !! u i = None;
  fi_incidents : forall i, (n <= i)%nat -> incidents d !! u i = None;
  fi_events : forall i, (n <= i)%nat -> incident_events d !! u i = None;
  fi_outbox : forall i, (n <= i)%nat -> notification_outbox d !! u i = None
}.

Definition good (s : TxState DB) : Prop := quiet s /\ fresh_ids (tx_uuid s) (tx_next s) (tx_db s).
Definition runs {A} (m : Tx DB A) : Prop := forall s, good s -> exists a s', m s = (Ok a, s') /\ good s'.

Lemma runs_ret {A} (a : A) : runs (mret a).
Proof. intros s Hs. by exists a, s. Qed.

Lemma runs_bind {A B} (m : Tx DB A) (k : A -> Tx DB B) : runs m -> (forall a, runs (k a)) -> runs (m ≫= k).
Proof.
  intros Hm Hk s Hs. destruct (Hm s Hs) as (a & s1 & E & H1). destruct (Hk a s1 H1) as (b & s2 & E2 & H2).
  exists b, s2. split; [|done]. unfold mbind, SE_bind. by rewrite E.
Qed.

Lemma fresh_frame u n d d' : fresh_ids u n d ->
  alert_rules d' = alert_rules d -> incidents d' = incidents d -> incident_events d' = incident_events d ->
  notification_outbox d' = notification_outbox d -> fresh_ids u n d'.
Proof. intros [H1 H2 H3 H4 H5] E1 E2 E3 E4. constructor; rewrite ?E1, ?E2, ?E3, ?E4; assumption. Qed.

Lemma fresh_later u n m d : fresh_ids u n d -> (n <= m)%nat -> fresh_ids u m d.
Proof. intros [H1 H2 H3 H4 H5] Hm. constructor; [done|..]; intros i Hi; [apply H2|apply H3|apply H4|apply H5]; lia. Qed.

(** A statement without uuids that succeeds and leaves the keys as they are. *)
Lemma runs_sql {A} (q : Z -> DB -> res A * DB) s a d :
  good s -> q (tx_now s) (tx_db s) = (Ok a, d) -> fresh_ids (tx_uuid s) (tx_next s) d ->
  sql q s = (Ok a, set_tx_db d s) /\ good (set_tx_db d s).
Proof. intros [Hq _] E Hf. split; [by apply sql_quiet|]. by split. Qed.

(** A statement that may use the next uuid. *)
Lemma runs_uuid_sql {A} (q : string -> Z -> DB -> res A * DB) s a d :
  good s -> q (tx_uuid s (tx_next s)) (tx_now s) (tx_db s) = (Ok a, d) ->
  fresh_ids (tx_uuid s) (S (tx_next s)) d ->
  exists s', (id ← gen_random_uuid; sql (q id)) s = (Ok a, s') /\ good s' /\ tx_db s' = d /\ tx_now s' = tx_now s.
Proof.
  intros [Hq Hf] E Hf'. set (s1 := mkTx (tx_db s) (tx_now s) (tx_aborted s) (tx_uuid s) (S (tx_next s)) (tx_faults s)).
  exists (set_tx_db d s1). split; [|by repeat split; try apply Hq; try apply Hf'].
  unfold mbind, SE_bind, gen_random_uuid. by apply (sql_quiet (q (tx_uuid s (tx_next s))) s1).
Qed.

(** Inserting under the next uuid keeps the later ones fresh. *)
Lemma fresh_insert {V} (u : nat -> string) (n i : nat) (m : gmap string V) v :
  (forall i j, u i = u j -> i = j) -> (forall i, (n <= i)%nat -> m !! u i = None) -> (S n <= i)%nat ->
  (<[u n := v]> m) !! u i = None.
Proof.
  intros Hinj Hm Hi. rewrite lookup_insert_ne; [apply Hm; lia|]. intros E%Hinj. lia.
Qed.

Lemma insertEvent_runs org env incident key type actor job reason now :
  runs (insertEvent org env incident key type actor job reason now).
Proof.
  unfold insertEvent. apply runs_bind; [|intros e; apply runs_bind; [|intros; apply runs_ret]].
  - intros s [Hq Hf]. unfold UpsertIncidentEvent. set (ev := mkIncidentEvent _ _ _ _ _ _ _ _ _).
    pose proof (fi_events _ _ _ Hf (tx_next s) ltac:(lia)) as Hn.
    assert (exists e d, upsert_event (tx_uuid s (tx_next s)) ev (tx_db s) = (Ok e, d) /\
      fresh_ids (tx_uuid s) (S (tx_next s)) d) as (e & d & E & Hd).
    { unfold upsert_event. destruct (event_of _ _ _); [by eexists _, _; split; [|eapply fresh_later; [exact Hf|lia]]|].
      rewrite Hn. eexists _, _. split; [done|]. destruct Hf as [F1 F2 F3 F4 F5]. constructor; simpl; [done|..]; intros i Hi;
        [apply F2; lia|apply F3; lia|by apply fresh_insert|apply F5; lia]. }
    destruct (runs_uuid_sql (fun id _ => upsert_event id ev) s e d) as (s' & Es & Hg & _); [done..|]. by exists e, s'.
  - intros s Hs. edestruct (runs_sql (fun _ d => (Ok (), on_refresh_events (fun l => l ++
      [mkRefreshEvent org env "incident.changed" "incident" incident]) d)) s ()) as [E Hg]; [done|reflexivity| |by eauto].
    eapply fresh_frame; [apply Hs|done..].
Qed.

Lemma enqueue_rows_runs now event ev transition rs ids t :
  NoDup ids -> (forall i, i ∈ ids -> t !! i = None) ->
  exists n t', enqueue_rows now event ev transition rs ids t = Ok (n, t') /\
    forall x, x ∉ ids -> t' !! x = t !! x.
Proof.
  revert ids t. induction rs as [|r rs IH]; intros [|i ids] t Hnd Hf; simpl; [by eauto..|].
  apply NoDup_cons in Hnd as [Hni Hnd]. case_decide.
  - destruct (IH ids t Hnd) as (n & t' & E & Hx); [intros j Hj; apply Hf; by right|].
    exists n, t'. split; [done|]. intros x Hnx. apply Hx. set_solver.
  - rewrite (Hf i) by left.
    destruct (IH ids (<[i := new_delivery now event ev transition r]> t) Hnd) as (n & t' & E & Hx).
    { intros j Hj. rewrite lookup_insert_ne; [apply Hf; by right|]. by intros ->. }
    rewrite E. exists (n + 1), t'. split; [done|]. intros x [Hxi Hxs]%not_elem_of_cons.
    rewrite (Hx x Hxs). by rewrite lookup_insert_ne.
Qed.

Lemma EnqueueIncidentEventTx_runs event transition :
  transition = "opened" \/ transition = "resolved" -> runs (EnqueueIncidentEventTx event transition).
Proof.
  intros Ht s [Hq Hf]. unfold EnqueueIncidentEventTx.
  assert ((negb (String.eqb transition "opened") && negb (String.eqb transition "resolved")) = false) as ->
    by (by destruct Ht as [->| ->]).
  unfold EnqueueIncidentNotifications. set (k := Datatypes.length (event_recipients event (tx_db s))).
  set (ids := (fun i => tx_uuid s (tx_next s + i)%nat) <$> seq 0 k).
  set (s1 := mkTx (tx_db s) (tx_now s) (tx_aborted s) (tx_uuid s) (tx_next s + k) (tx_faults s)).
  assert (exists n d, (match incident_events (tx_db s) !! event with
    | None => (Ok 0, tx_db s)
    | Some ev => match enqueue_rows (tx_now s) event ev transition (event_recipients event (tx_db s)) ids
                         (notification_outbox (tx_db s)) with
        | Ok (n, t) => (Ok n, on_notification_outbox (fun _ => t) (tx_db s)) | Err e => (Err e, tx_db s) end end)
    = (Ok n, d) /\ fresh_ids (tx_uuid s) (tx_next s + k) d) as (n & d & E & Hd).
  { destruct (incident_events (tx_db s) !! event) as [ev|]; [|eexists _, _; split; [done|eapply fresh_later; [exact Hf|lia]]].
    destruct (enqueue_rows_runs (tx_now s) event ev transition (event_recipients event (tx_db s)) ids
      (notification_outbox (tx_db s))) as (n & t & E & Hx).
    - apply NoDup_fmap_2; [|apply NoDup_seq]. intros i j H. apply (fi_inj _ _ _ Hf) in H. lia.
    - intros i (j & -> & _)%list_elem_of_fmap. apply (fi_outbox _ _ _ Hf). lia.
    - rewrite E. eexists _, _. split; [done|]. destruct Hf as [F1 F2 F3 F4 F5].
      constructor; simpl; [done|intros i Hi; apply F2; lia|intros i Hi; apply F3; lia|intros i Hi; apply F4; lia|].
      intros i Hi. rewrite Hx; [apply F5; lia|]. intros (j & Hj%F1 & Hj')%list_elem_of_fmap. apply elem_of_seq in Hj'. lia. }
  exists n, (set_tx_db d s1). split; [|by split].
  unfold mbind, SE_bind, gen_random_uuids. fold k ids s1. by apply sql_quiet.
Qed.

Lemma resolveIncident_runs id job kind actor reason now : runs (resolveIncident id job kind actor reason now).
Proof.
  intros s Hs. pose proof Hs as [Hq Hf]. unfold resolveIncident, ResolveOpenIncident.
  destruct (resolve_open now (optionalString actor) kind reason id (tx_db s)) as [k d] eqn:E.
  assert (fresh_ids (tx_uuid s) (tx_next s) d /\ (k = 0 \/ k = 1 /\ exists r, incidents d !! id = Some r)) as [Hd Hk].
  { unfold resolve_open in E. destruct (incidents (tx_db s) !! id) as [r|] eqn:Er; [|injection E as <- <-; auto].
    case_decide; injection E as <- <-; [|auto]. simpl. rewrite lookup_insert_eq. split; [|eauto].
    destruct Hf as [F1 F2 F3 F4 F5]. constructor; simpl; [done|done| |done|done].
    intros i Hi. rewrite lookup_insert_ne; [by apply F3|]. intros Eid. rewrite Eid, F3 in Er by done. done. }
  destruct (runs_sql (fun _ d => let '(n, d') := resolve_open now (optionalString actor) kind reason id d in (Ok n, d'))
    s k d Hs) as [E1 Hg1]; [by rewrite E|done|].
  unfold mbind at 1, SE_bind at 1. rewrite E1. destruct Hk as [->|[-> [r Hr]]]; simpl; [by eexists _, _|].
  unfold mbind at 1, SE_bind at 1, GetIncidentTenant.
  edestruct (runs_sql (fun _ d => (match (fun r => (inc_organization_id r, inc_environment_id r)) <$> (incidents d !! id)
    with Some a => Ok a | None => Err ErrNoRows end, d)) (set_tx_db d s)) as [E2 Hg2];
    [exact Hg1|simpl; by rewrite Hr|exact Hd|].
  unfold select_one. rewrite E2. simpl.
  apply (runs_bind (insertEvent _ _ _ _ _ _ _ _ _) _ (insertEvent_runs _ _ _ _ _ _ _ _ _)); [|exact Hg2].
  intros e. apply runs_bind; [apply EnqueueIncidentEventTx_runs; by right|intros; apply runs_ret].
Qed.

Lemma openIncidentID_runs m rule s : good s -> exists s', openIncidentID m rule s = (Ok (open_incident m rule (tx_db s)), s') /\
  good s' /\ tx_db s' = tx_db s.
Proof.
  intros [Hq Hf]. unfold openIncidentID, LockOpenIncident, select_one, mbind, SE_bind, try_.
  destruct (open_incident m rule (tx_db s)) as [i|] eqn:E.
  - erewrite sql_quiet; [|done|by rewrite E]. simpl. by eexists.
  - erewrite sql_quiet_no_rows; [|done|by rewrite E]. simpl. by exists s.
Qed.

Lemma openIncident_runs org env m rule job started now : runs (openIncident org env m rule job started now).
Proof.
  intros s Hs. pose proof Hs as [Hq Hf]. unfold openIncident. unfold mbind at 1, SE_bind at 1, try_ at 1.
  pose proof (fi_incidents _ _ _ Hf (tx_next s) ltac:(lia)) as Hn.
  destruct (decide (map_Exists (fun _ r => is_open m rule r) (incidents (tx_db s)))) as [Hex|Hno].
  - set (s1 := mkTx (tx_db s) (tx_now s) (tx_aborted s) (tx_uuid s) (S (tx_next s)) (tx_faults s)).
    assert (CreateOpenIncident org env m rule started now s = (Err ErrNoRows, s1)) as ->.
    { unfold CreateOpenIncident, mbind, SE_bind, gen_random_uuid. fold s1.
      eapply sql_quiet_no_rows; [done|]. unfold create_open. by rewrite decide_True. }
    cbn [fst snd].
    assert (good s1) as Hg1 by (split; [done|]; eapply fresh_later; [exact Hf|simpl; lia]).
    destruct (openIncidentID_runs m rule s1 Hg1) as (s2 & E & Hg & _). unfold mbind, SE_bind. rewrite E. by eexists _, _.
  - edestruct (runs_uuid_sql (fun id _ => create_open id org env m rule started now) s) as (s1 & E & Hg & _ & _);
      [done|unfold create_open; rewrite decide_False, Hn by done; reflexivity| |].
    { destruct Hf as [F1 F2 F3 F4 F5]. constructor; simpl; [done|intros i Hi; apply F2; lia| |intros i Hi; apply F4; lia|
        intros i Hi; apply F5; lia]. intros i Hi. by apply fresh_insert. }
    unfold CreateOpenIncident. rewrite E. cbn [fst snd]. apply runs_bind; [apply insertEvent_runs| |exact Hg].
    intros e. apply runs_bind; [apply EnqueueIncidentEventTx_runs; by left|intros; apply runs_ret].
Qed.

(** Applying an evaluation returns: it can neither fail nor violate a constraint. *)
Lemma ApplyEvaluationTx_runs m job corrected now s :
  good s -> map_Forall (fun _ r => 1 <= ar_failure_threshold r <= 20) (alert_rules (tx_db s)) ->
  exists s', ApplyEvaluationTx m job corrected now s = (Ok (), s') /\ good s'.
Proof.
  intros Hs Hth. pose proof Hs as [Hq Hf]. unfold ApplyEvaluationTx.
  assert (exists s1, EnsureDefaultAlertRule m s = (Ok (), s1) /\ good s1 /\
    map_Forall (fun _ r => 1 <= ar_failure_threshold r <= 20) (alert_rules (tx_db s1))) as (s1 & E1 & Hg1 & Hth1).
  { assert (exists d, ensure_rule (tx_uuid s (tx_next s)) m (tx_db s) = (Ok (), d) /\ fresh_ids (tx_uuid s) (S (tx_next s)) d /\
      map_Forall (fun _ r => 1 <= ar_failure_threshold r <= 20) (alert_rules d)) as (d & E & Hd & Ht).
    { pose proof (fresh_later _ _ (S (tx_next s)) _ Hf ltac:(lia)). unfold ensure_rule.
      destruct (monitors (tx_db s) !! m); [|by eexists]. case_decide; [by eexists|].
      rewrite (fi_rules _ _ _ Hf (tx_next s)) by lia. eexists. split; [done|]. split.
      - destruct Hf as [F1 F2 F3 F4 F5]. constructor; simpl; [done| |intros i Hi; apply F3; lia|intros i Hi; apply F4; lia|
          intros i Hi; apply F5; lia]. intros i Hi. by apply fresh_insert.
      - simpl. apply map_Forall_insert_2; [simpl; lia|done]. }
    destruct (runs_uuid_sql (fun id _ => ensure_rule id m) s () d) as (s1 & E1 & Hg & D1 & _); [done..|].
    exists s1. by rewrite D1. }
  unfold mbind at 1, SE_bind at 1. rewrite E1. unfold mbind at 1, SE_bind at 1.
  destruct (calm_try_select_one (fun _ => rule_row m) s1 (proj1 Hg1)) as (s2 & _ & _ & _).
  unfold GetEnabledMonitorAlertRule, try_, select_one.
  destruct (rule_row m (tx_db s1)) as [[[ruleID rule] observed]|] eqn:Er.
  2: { erewrite sql_quiet_no_rows; [|apply Hg1|by rewrite Er]. simpl. by eexists. }
  destruct (runs_sql (fun _ d => (match rule_row m d with Some a => Ok a | None => Err ErrNoRows end, d)) s1
    (ruleID, rule, observed) (tx_db s1)) as [E2 Hg2]; [done|by rewrite Er|apply Hg1|].
  rewrite E2. simpl. set (s3 := set_tx_db (tx_db s1) s1) in *.
  destruct (openIncidentID_runs m ruleID s3 Hg2) as (s4 & E4 & Hg4 & D4).
  unfold mbind at 1, SE_bind at 1. rewrite E4.
  assert (forall (k : Tx DB ()), runs k -> exists s', k s4 = (Ok (), s') /\ good s') as Hrun.
  { intros k Hk. destruct (Hk s4 Hg4) as ([] & s5 & E5 & H5). by eexists. }
  case_decide.
  - destruct (open_incident m ruleID (tx_db s3)); [by apply Hrun, runs_ret|].
    assert (1 <= ar_failure_threshold rule <= 20) as Hr.
    { unfold rule_row, enabled_rule in Er. destruct (head _) as [[i r]|] eqn:Eh; [|done].
      destruct (reliability_states (tx_db s1) !! m); [|done]. injection Er as <- <- _.
      apply head_filter_Some in Eh as [Hin _]. apply elem_of_map_to_list in Hin. by apply (Hth1 i). }
    unfold mbind, SE_bind, ListRecentIncidentEvaluationTimes.
    edestruct (runs_sql (fun _ d => if int32 (ar_failure_threshold rule) <? 0 then (Err ErrDatabase, d)
      else (Ok (take (Z.to_nat (int32 (ar_failure_threshold rule))) ((fun x => x.1.1) <$> reverse (order_by_key (evaluations_of m d)))), d)) s4)
      as [E5 Hg5]; [exact Hg4|rewrite int32_id, (proj2 (Z.ltb_ge _ _)) by lia; reflexivity|apply Hg4|].
    rewrite E5. destruct (openIncident_runs (ar_organization_id rule) (ar_environment_id rule) m ruleID job
      (startedAt now (take (Z.to_nat (ar_failure_threshold rule)) ((fun x => x.1.1) <$> reverse (order_by_key (evaluations_of m (tx_db s4)))))) now
      _ Hg5) as ([] & s6 & E6 & H6). by eexists.
  - destruct (open_incident m ruleID (tx_db s3)); [|by apply Hrun, runs_ret].
    destruct corrected; [apply Hrun, resolveIncident_runs|]. case_decide; apply Hrun; [apply resolveIncident_runs|apply runs_ret].
Qed.

(** ** Who is notified *)

(** One delivery per event and recipient (the UNIQUE constraint), for an event that exists. *)
Record outbox_inv (d : DB) : Prop := {
  oi_once : forall i j r s, notification_outbox d !! i = Some r -> notification_outbox d !! j = Some s ->
    nt_incident_event_id r = nt_incident_event_id s -> nt_recipient_user_id r = nt_recipient_user_id s -> i = j;
  oi_event : map_Forall (fun _ r => is_Some (incident_events d !! nt_incident_event_id r)) (notification_outbox d)
}.

Lemma enqueue_rows_exact now event ev transition rs ids t n t' :
  Datatypes.length ids = Datatypes.length rs ->
  enqueue_rows now event ev transition rs ids t = Ok (n, t') ->
  t ⊆ t' /\ (forall i r, t' !! i = Some r -> t !! i = Some r \/
     (nt_incident_event_id r = event /\
      r = new_delivery now event ev transition (nt_recipient_user_id r, nt_recipient_email r) /\
      (nt_recipient_user_id r, nt_recipient_email r) ∈ rs /\ ~ enqueued event (nt_recipient_user_id r) t)) /\
  (forall u, u ∈ rs.*1 -> enqueued event u t') /\
  ((forall i j r s, t !! i = Some r -> t !! j = Some s -> nt_incident_event_id r = nt_incident_event_id s ->
      nt_recipient_user_id r = nt_recipient_user_id s -> i = j) ->
   (forall i j r s, t' !! i = Some r -> t' !! j = Some s -> nt_incident_event_id r = nt_incident_event_id s ->
      nt_recipient_user_id r = nt_recipient_user_id s -> i = j)).
Proof.
  revert ids t n. induction rs as [|x rs IH]; intros [|i ids] t n Hl H; try done.
  { injection H as <- <-. split; [done|]. split; [by left|]. split; [by intros u ?%not_elem_of_nil|done]. }
  simpl in Hl, H. injection Hl as Hl. case_decide as He.
  - apply IH in H as (Hs & Hnew & Hall & Hu); [|done]. split; [done|]. split; [|split; [|done]].
    + intros j r Hj. destruct (Hnew j r Hj) as [?|(E1 & E2 & Hin & Hne)]; [by left|right]. repeat split; try done. by right.
    + intros u [->|Hin]%elem_of_cons; [|by apply Hall]. destruct He as (j & r & Hj & Hr).
      exists j, r. split; [by eapply lookup_weaken|done].
  - destruct (t !! i) eqn:Ei; [done|]. set (row := new_delivery now event ev transition x) in *.
    destruct (enqueue_rows _ _ _ _ _ _ _) as [[n' t'']|] eqn:E; [|done]. injection H as <- <-.
    apply IH in E as (Hs & Hnew & Hall & Hu); [|done].
    assert (t ⊆ <[i := row]> t) as Hsub by (by apply insert_subseteq).
    assert (t'' !! i = Some row) as Hi by (eapply lookup_weaken; [|exact Hs]; by rewrite lookup_insert_eq).
    split; [by etransitivity|]. split; [|split].
    + intros j r Hj. destruct (Hnew j r Hj) as [[[<- <-]|[_ ?]]%lookup_insert_Some|(E1 & E2 & Hin & Hne)].
      * right. destruct x. repeat split; [|done]. left.
      * by left.
      * right. repeat split; [done..|by right|]. intros (k & r' & Hk & Hr'). apply Hne. exists k, r'.
        split; [by eapply lookup_weaken|done].
    + intros u [->|Hin]%elem_of_cons; [|by apply Hall]. by exists i, row.
    + intros Hold. apply Hu. intros a b ra rb [[<- <-]|[Na La]]%lookup_insert_Some [[<- <-]|[Nb Lb]]%lookup_insert_Some E1 E2.
      * done.
      * destruct He. by exists b, rb.
      * destruct He. by exists a, ra.
      * by apply (Hold a b ra rb).
Qed.

(** The deliveries of a new event. *)
Lemma notified_once now e ev transition org ids n d d' :
  outbox_inv d -> incident_events d !! e = None -> incident_events d' = <[e := ev]> (incident_events d) ->
  Datatypes.length ids = Datatypes.length (recipients org d) ->
  enqueue_rows now e ev transition (recipients org d) ids (notification_outbox d) = Ok (n, notification_outbox d') ->
  outbox_inv d' /\ (forall user, enqueued e user (notification_outbox d') <-> user ∈ (recipients org d).*1) /\
  (forall i r, notification_outbox d' !! i = Some r -> nt_incident_event_id r = e ->
     r = new_delivery now e ev transition (nt_recipient_user_id r, nt_recipient_email r) /\
     (nt_recipient_user_id r, nt_recipient_email r) ∈ recipients org d).
Proof.
  intros [H1 H2] Hf Ee Hl (Hs & Hnew & Hall & Hu)%enqueue_rows_exact; [|done].
  split; [constructor; [by apply Hu|]|split].
  - intros i r Hi. rewrite Ee. destruct (decide (nt_incident_event_id r = e)) as [->|Hne]; [by rewrite lookup_insert_eq|].
    rewrite lookup_insert_ne by done. destruct (Hnew i r Hi) as [Ho|[E _]]; [by apply (H2 i)|done].
  - intros user. split; [|apply Hall]. intros (i & r & Hi & E1 & E2).
    destruct (Hnew i r Hi) as [Ho|(_ & _ & Hin & _)].
    + pose proof (H2 i r Ho) as [x Hx]. simpl in Hx. rewrite E1, Hf in Hx. done.
    + apply list_elem_of_fmap. eexists. by split; [|exact Hin].
  - intros i r Hi E. destruct (Hnew i r Hi) as [Ho|(_ & Er & Hin & _)]; [|by split].
    pose proof (H2 i r Ho) as [x Hx]. simpl in Hx. rewrite E, Hf in Hx. done.
Qed.

(** A member with a verified address who asked for incident mail, and the address. *)
Definition notifiable (org user email : string) (d : DB) : Prop :=
  exists om u, org_members d !! (org, user) = Some om /\ om_incident_notifications_enabled om = true /\
    users d !! user = Some u /\ is_Some (usr_email_verified_at u) /\ email = to_lower (btrim (usr_email u)).

Lemma recipients_elem org user email d : (user, email) ∈ recipients org d <-> notifiable org user email d.
Proof.
  unfold recipients, notifiable. rewrite list_elem_of_omap. split.
  - intros ([[o u] om] & Hin & Hm). apply elem_of_map_to_list in Hin. simpl in Hm. destruct (users d !! u) as [usr|] eqn:Eu; [|done].
    case_bool_decide as Hb; [|done]. injection Hm as -> <-. destruct Hb as (-> & Hv & Hn). by exists om, usr.
  - intros (om & u & Ho & Hn & Hu & Hv & ->). exists ((org, user), om). split; [by apply elem_of_map_to_list|]. simpl.
    rewrite Hu. by rewrite bool_decide_eq_true_2.
Qed.

(** The slot of the result of the monitor than which [k - 1] are newer; of the oldest result,
    when there are fewer; [now], when there is none. *)
Definition starts_at (m : string) (k : Z) (d : DB) (now started : Z) : Prop :=
  (evaluations_of m d = [] /\ started = now) \/
  exists job ev, evaluations d !! job = Some ev /\ evl_monitor_id ev = m /\ started = evl_scheduled_at ev /\
    Z.of_nat (Datatypes.length (filter (fun y => key_lt (evl_scheduled_at ev, job) y.1) (evaluations_of m d))) =
    Z.min k (Z.of_nat (Datatypes.length (evaluations_of m d))) - 1.

(** The rows after one of an ordered list are those with a later key. *)
Lemma newer_rows {A} (l : list (slot_key * A)) B x C :
  NoDup l.*1 -> order_by_key l = B ++ x :: C -> filter (fun y => key_lt x.1 y.1) (order_by_key l) = C.
Proof.
  intros Hnd E. pose proof (order_sorted l) as Hs. assert (NoDup (order_by_key l).*1) as Hnd' by by rewrite order_perm.
  rewrite E in *. rewrite fmap_app, fmap_cons in Hnd'. apply NoDup_app in Hnd' as (_ & Hb & Hc). apply NoDup_cons in Hc as [Hx _].
  rewrite filter_app, filter_cons, decide_False by apply key_lt_irrefl. rewrite filter_none, filter_all; [done|..]; apply Forall_forall.
  - intros y Hy. assert (key_le x.1 y.1) as [Ek|Hk]; [|exfalso|done].
    + assert (StronglySorted row_le ((B ++ [x]) ++ C)) as Hs' by (by rewrite <- (assoc_L (++))).
      change (row_le x y). eapply StronglySorted_app_1_elem_of; [exact Hs'|apply elem_of_app; right; left|done].
    + apply Hx. rewrite Ek. by apply list_elem_of_fmap_2.
  - intros y Hy Hk. assert (row_le y x) as Hle by (eapply StronglySorted_app_1_elem_of; [exact Hs|done|left]).
    apply (key_lt_irrefl x.1). by eapply key_lt_le_trans.
Qed.

Lemma startedAt_spec m k d now : 1 <= k ->
  starts_at m k d now (startedAt now (take (Z.to_nat k) ((fun x => x.1.1) <$> reverse (order_by_key (evaluations_of m d))))).
Proof.
  intros Hk. unfold startedAt. rewrite <- fmap_take, fmap_last.
  destruct (last (take (Z.to_nat k) (reverse (order_by_key (evaluations_of m d))))) as [x|] eqn:El.
  - right. apply last_Some in El as (T & ET).
    pose proof (take_drop (Z.to_nat k) (reverse (order_by_key (evaluations_of m d)))) as ER. rewrite ET in ER.
    set (U := drop _ _) in ER. apply (f_equal reverse) in ER. rewrite reverse_involutive, !reverse_app in ER. simpl in ER.
    assert (order_by_key (evaluations_of m d) = reverse U ++ x :: reverse T) as EO by by rewrite <- ER.
    assert (x ∈ evaluations_of m d) as Hx.
    { rewrite <- (order_perm (evaluations_of m d)), EO. apply elem_of_app. right. left. }
    destruct x as [k0 ev]. apply evaluations_of_elem in Hx as Hx'. destruct Hx' as (He & Hm & Hs).
    exists k0.2, ev. split; [done|]. split; [done|]. split; [exact Hs|].
    assert ((evl_scheduled_at ev, k0.2) = k0) as -> by (rewrite <- Hs; by destruct k0).
    assert (filter (fun y => key_lt k0 y.1) (evaluations_of m d) ≡ₚ reverse T) as ->.
    { pose proof (newer_rows _ _ _ _ (evaluations_of_NoDup m d) EO) as Hn. simpl in Hn. rewrite <- Hn.
      by rewrite order_perm. }
    apply (f_equal (@Datatypes.length _)) in ET. rewrite length_take, length_reverse, length_app in ET. simpl in ET.
    rewrite (Permutation_length (order_perm (evaluations_of m d))) in ET. rewrite length_reverse. lia.
  - left. apply last_None in El. apply (f_equal (@Datatypes.length _)) in El. rewrite length_take, length_reverse in El.
    rewrite (Permutation_length (order_perm (evaluations_of m d))) in El. simpl in El.
    destruct (evaluations_of m d); [done|]. simpl in El. lia.
Qed.

(** C21: when an evaluation opens an incident, the incident is new and open and starts at the
    slot of the oldest of the newest results that the failure threshold counts; its opened event
    has exactly one delivery for every member of the organization with a verified address who
    asked for incident mail, and for nobody else; and each delivery is pending, addressed to
    the member's address, due at once, without a lease and never attempted. *)
Theorem opened_notified_once m job corrected now s s' ruleID rule :
  ApplyEvaluationTx m job corrected now s = (Ok (), s') -> incident_inv (tx_db s) -> outbox_inv (tx_db s) ->
  rule_row m (tx_db s') = Some (ruleID, rule, Down) -> open_incident m ruleID (tx_db s) = None ->
  1 <= ar_failure_threshold rule <= 20 ->
  exists id e ev started, incidents (tx_db s) !! id = None /\
    incidents (tx_db s') !! id = Some (mkIncidentRow (ar_organization_id rule) (ar_environment_id rule) m ruleID IOpen
      started now None None None None None None) /\
    starts_at m (ar_failure_threshold rule) (tx_db s) now started /\
    incident_events (tx_db s) !! e = None /\
    incident_events (tx_db s') !! e = Some ev /\ iev_incident_id ev = id /\ iev_event_key ev = "opened" /\
    outbox_inv (tx_db s') /\
    (forall user, enqueued e user (notification_outbox (tx_db s')) <->
       exists email, notifiable (ar_organization_id rule) user email (tx_db s)) /\
    (forall i r, notification_outbox (tx_db s') !! i = Some r -> nt_incident_event_id r = e ->
       notifiable (ar_organization_id rule) (nt_recipient_user_id r) (nt_recipient_email r) (tx_db s) /\
       r = mkNotificationRow (ar_organization_id rule) id e (nt_recipient_user_id r) (nt_recipient_email r) "opened"
             DPending 0 (tx_now s) None None None None None None None (tx_now s)).
Proof.
  intros H Hi Hoi Er Hno Hth. apply ApplyEvaluationTx_ok in H as (s1 & N1 & [t D1] & H).
  assert (incident_inv (tx_db s1)) as Hi1 by (by eapply inv_frame; [..|exact Hi]; rewrite D1).
  assert (open_incident m ruleID (tx_db s1) = None) as Hno1 by (by rewrite D1).
  destruct (rule_row m (tx_db s1)) as [[[ruleID1 rule1] observed]|] eqn:Er1; [|congruence].
  assert (ruleID1 = ruleID /\ rule1 = rule /\ observed = Down) as (-> & -> & ->).
  { assert (rule_row m (tx_db s') = rule_row m (tx_db s1)) as E; [|rewrite E, Er1 in Er; by injection Er].
    destruct (open_incident m ruleID1 (tx_db s1)) as [o|] eqn:Eo.
    - apply open_incident_Some in Eo as (r0 & Hr0 & Hm & _ & Hst).
      destruct observed; try destruct (corrected || _); try (by rewrite H);
        destruct H as (s2 & kind & reason & D2 & _ & Hrun);
        apply (resolveIncident_touches m _ _ _ _ _ _ _ _ _ r0) in Hrun as [_ ->]; by rewrite ?D2.
    - destruct observed; try (by rewrite H). destruct H as (s2 & times & D2 & _ & _ & Hrun).
      apply openIncident_touches in Hrun as [_ ->]. by rewrite D2. }
  rewrite Hno1 in H. destruct H as (s2 & times & D2 & N2 & -> & Hrun).
  apply openIncident_ok in Hrun as [[_ Hex]|(id & e & ev & t' & ids & n & _ & Hid & Ei & Ev & Hs & Hev & Et & Hen)].
  { apply open_incident_None in Hno1. rewrite D2 in Hex. done. }
  destruct Hev as [[E _]|(_ & Hf & Ee)].
  { apply event_of_Some in E as (f & Hf & E1 & _). rewrite D2 in *. destruct (ii_tenant _ Hi1 e f Hf) as (r & Hr & _). congruence. }
  rewrite Ee in Hen. destruct Hen as [Hl Hen]; [by rewrite lookup_insert_eq|]. rewrite <- Et in Hen.
  destruct (notified_once (tx_now s2) e ev "opened" (ar_organization_id rule) ids n (tx_db s2) (tx_db s')) as (Ho & Hu & Hrow);
    [|done..|]. { rewrite D2, D1. by destruct Hoi. }
  exists id, e, ev. eexists. rewrite N2, N1 in *. rewrite D2, D1 in *. split; [done|]. rewrite Ei, Ee, !lookup_insert_eq.
  rewrite Ev in *. split; [reflexivity|]. split.
  { assert (int32 (ar_failure_threshold rule) = ar_failure_threshold rule) as -> by (apply int32_id; lia).
    exact (startedAt_spec m (ar_failure_threshold rule) (tx_db s) now (proj1 Hth)). }
  do 5 (split; [done|]). split.
  - intros user. rewrite Hu, list_elem_of_fmap. split.
    + intros ([u email] & -> & Hin). exists email. by apply recipients_elem.
    + intros [email Hn]. exists (user, email). split; [done|]. by apply recipients_elem.
  - intros i r Hr E. destruct (Hrow i r Hr E) as [Hx Hin]. split; [by apply recipients_elem|exact Hx].
Qed.

(** ** The members' actions are authorized *)

Lemma load_open_ok user env id s row s' :
  load_open user env id s = (Ok row, s') ->
  moved (tx_db s) s s' /\ exists role, authorized_row user env id (tx_db s) = Some (row, role) /\
    Allows (role_text role) PermissionIncidentsManage = true /\ inc_status row = IOpen.
Proof.
  unfold load_open, loadAuthorizedIncident. intros H. apply bind_ok in H as (x & s1 & H1 & H).
  apply bind_ok in H1 as (r & s2 & H2 & H1). apply try_select_one_ok in H2 as [Hm Hr].
  destruct r as [[row' role]|e]; [|by destruct e]. apply ret_ok in H1 as [<- <-]. simpl in H.
  destruct (Allows _ _) eqn:Ea; [|done]. simpl in H. case_bool_decide as Ho; [|done].
  apply ret_ok in H as [<- <-]. eauto.
Qed.

Lemma authorized_row_incident user env id d row role :
  authorized_row user env id d = Some (row, role) ->
  incidents d !! id = Some row /\ inc_environment_id row = env /\
  exists m, org_members d !! (inc_organization_id row, user) = Some m /\ om_role m = role.
Proof.
  unfold authorized_row. destruct (incidents d !! id) as [r|] eqn:E; [|done].
  destruct (org_members d !! _) as [m|] eqn:Em; [|done]. case_decide; [|done]. intros [= <- <-]. eauto.
Qed.

(** Reading changes nothing. *)
Lemma Get_db {O} t user env id (w : World DB O) r w' : Get t user env id w = (r, w') -> w_db w' = w_db w.
Proof.
  unfold Get. destruct (negb _); [by intros [= _ <-]|]. intros [->|(fs & a & s & Hb & _)]%with_tx_db; [done|].
  apply bind_ok in Hb as (x & s1 & _ & Hb). destruct (negb _); [done|]. by apply ret_ok in Hb as [? _].
Qed.

(** The change an action made, and who made it. *)
Definition acted (user env id : string) (f : IncidentRow -> IncidentRow) (d d' : DB) : Prop :=
  exists row role, authorized_row user env id d = Some (row, role) /\
    Allows (role_text role) PermissionIncidentsManage = true /\ inc_status row = IOpen /\
    incidents d' = <[id := f row]> (incidents d).

Lemma acknowledge_tx_ok user env id reason now s e s' :
  acknowledge_tx user env id reason now s = (Ok e, s') -> incident_inv (tx_db s) ->
  incident_inv (tx_db s') /\ (tx_db s' = tx_db s \/
    acted user env id (set_inc_acknowledged now user) (tx_db s) (tx_db s') /\
    forall r, incidents (tx_db s) !! id = Some r -> inc_acknowledged_at r = None).
Proof.
  unfold acknowledge_tx. intros H Hi. apply bind_ok in H as (row & s1 & H1 & H).
  apply load_open_ok in H1 as [[D1 N1] (role & Ha & Hal & Hst)]. apply bind_ok in H as (u & s2 & H2 & H).
  apply ret_ok in H as [_ <-]. pose proof (authorized_row_incident _ _ _ _ _ _ Ha) as (Hr & _ & _).
  destruct (inc_acknowledged_at row) as [x|] eqn:Eack.
  { apply ret_ok in H2 as [_ <-]. rewrite D1. auto. }
  apply bind_ok in H2 as (u1 & s3 & H3 & H2). apply update_ok in H3 as [D3 N3].
  apply bind_ok in H2 as (ev & s4 & H4 & H2). apply ret_ok in H2 as [_ <-].
  apply insertEvent_ok in H4 as [_ [R1 _ _ R4]]. rewrite D1 in D3. unfold acknowledge_open in D3.
  rewrite Hr, decide_True in D3 by done. rewrite D3 in R1, R4. cbn [incidents incident_events on_incidents] in R1, R4.
  destruct (ii_timeline _ Hi id row Hr) as (T1 & T2 & T3).
  assert (~ has_event id "acknowledged" (tx_db s)) as Hno by (rewrite T3, Eack; by intros []).
  split; [|right; split; [by exists row, role|intros r Hr'; congruence]].
  destruct R4 as [[E _]|(_ & Hf & Ee)].
  { apply event_of_Some in E as (f & Hf & E1 & E2). destruct Hno. by exists ev, f. }
  pose proof (ii_rows _ Hi id row Hr) as [K1 K2 K3].
  eapply transition_inv; [exact Hi|exact R1|exact Hf|exact Ee|done|done|done|exact Hno|..].
  - intros _ j r Hj Hopen. destruct Hopen as (M1 & M2 & M3). by apply (ii_one_open _ Hi j id r row).
  - constructor; simpl; [split; by eexists|done|done].
  - intros r0 Hr0. by simplify_eq.
  - simpl. split; [by right|]. split; [|by split; [by eexists|left]]. rewrite <- T2. split; [by intros [?|?]|by right].
Qed.

Lemma resolve_tx_ok user env id reason now s e s' :
  resolve_tx user env id reason now s = (Ok e, s') -> incident_inv (tx_db s) ->
  incident_inv (tx_db s') /\ (tx_db s' = tx_db s \/
    acted user env id (set_inc_resolved now (NULLIF user) "manual_resolution" (NULLIF (btrim reason))) (tx_db s) (tx_db s')).
Proof.
  unfold resolve_tx. intros H Hi. apply bind_ok in H as (row & s1 & H1 & H).
  apply load_open_ok in H1 as [[D1 N1] (role & Ha & Hal & Hst)]. apply bind_ok in H as (u & s2 & H2 & H).
  apply ret_ok in H as [_ <-]. pose proof (authorized_row_incident _ _ _ _ _ _ Ha) as (Hr & _ & _).
  split; [eapply resolveIncident_inv; [exact H2|by rewrite D1]|].
  apply resolveIncident_ok in H2 as [[E _]|(r & r' & e' & ev & t & ids & n & Hr' & Hs & -> & Ei & _)].
  - left. congruence.
  - right. rewrite D1 in *. assert (r = row) as -> by congruence. by exists row, role.
Qed.

(** Whatever fails on the way, an action on an incident keeps the incidents
    consistent, and it changes nothing unless the user is a member of the
    incident's organization whose role may manage incidents, the incident belongs to
    the environment of the request and is open; then the one incident is
    acknowledged by that user, if it was not before, or resolved by that user, and no
    other incident changes. *)
Theorem actions_authorized {O} t now user env id reason (w w' : World DB O) r (resolve : bool) :
  (if resolve then Resolve t now user env id reason w else Acknowledge t now user env id reason w) = (r, w') ->
  incident_inv (w_db w) ->
  incident_inv (w_db w') /\ (w_db w' = w_db w \/
    acted (as_uuid user) (as_uuid env) (as_uuid id)
      (if resolve then set_inc_resolved now (NULLIF (as_uuid user)) "manual_resolution" (NULLIF (btrim reason))
       else set_inc_acknowledged now (as_uuid user)) (w_db w) (w_db w')).
Proof.
  intros H Hi. destruct resolve; unfold Resolve, Acknowledge in H; destruct (negb _); try (injection H as _ <-; auto);
    unfold mbind, SE_bind in H; destruct (with_tx t _ w) as [r1 w1] eqn:E in H;
    assert (w_db w' = w_db w1) as -> by (destruct r1; [by eapply Get_db|by injection H as _ <-]);
    apply with_tx_db in E as [->|(fs & a & s & Hb & ->)]; auto.
  - by apply resolve_tx_ok in Hb.
  - apply acknowledge_tx_ok in Hb as [? [?|[? _]]]; auto.
Qed.

(** What loading answers when the database does. *)
Definition load_open_answer (user env id : string) (d : DB) : res IncidentRow :=
  match authorized_row user env id d with
  | None => Err ErrIncidentNotFound
  | Some (row, role) =>
      if negb (Allows (role_text role) PermissionIncidentsManage) then Err ErrForbidden
      else if bool_decide (inc_status row = IOpen) then Ok row else Err ErrAlreadyResolved
  end.

Lemma load_open_run user env id s : good s ->
  exists s', load_open user env id s = (load_open_answer user env id (tx_db s), s') /\ good s' /\ tx_db s' = tx_db s.
Proof.
  intros [Hq Hf]. unfold load_open, loadAuthorizedIncident, LoadAuthorizedIncident, load_open_answer, select_one,
    mbind, SE_bind, try_. destruct (authorized_row user env id (tx_db s)) as [[row role]|] eqn:E.
  - erewrite sql_quiet; [|done|by rewrite E]. simpl. destruct (Allows _ _); simpl; [|by eexists].
    case_bool_decide; by eexists.
  - erewrite sql_quiet_no_rows; [|done|by rewrite E]. simpl. by exists s.
Qed.

Lemma Get_run {O} t user env id (w : World DB O) row role :
  w_faults w = [] -> validActionInput user env id "" = true ->
  authorized_row (as_uuid user) (as_uuid env) (as_uuid id) (w_db w) = Some (row, role) ->
  Allows (role_text role) PermissionIncidentsRead = true -> (Get t user env id w).1 = Ok row.
Proof.
  intros Hf Hv Ha Hal. unfold Get. rewrite Hv. simpl. unfold with_tx. rewrite Hf. simpl.
  unfold loadAuthorizedIncident, LoadAuthorizedIncident, select_one, mbind, SE_bind, try_, sql. simpl.
  rewrite Ha. simpl. by rewrite Hal.
Qed.

Lemma manage_reads role :
  Allows (role_text role) PermissionIncidentsManage = true -> Allows (role_text role) PermissionIncidentsRead = true.
Proof. destruct role; vm_compute; done. Qed.

(** [Resolve] answers every request: malformed input, an incident the user's
    organizations do not have in that environment, a role that may not manage
    incidents and an incident that is resolved already each give their own error and
    change nothing; otherwise the incident is resolved in the user's name and the
    caller gets its new state. *)
Theorem Resolve_outcome {O} t now user env id reason (w : World DB O) :
  w_faults w = [] -> fresh_ids (w_uuid w) (w_next w) (w_db w) ->
  let '(r, w') := Resolve t now user env id reason w in
  if validActionInput user env id reason then
    match load_open_answer (as_uuid user) (as_uuid env) (as_uuid id) (w_db w) with
    | Ok row => r = Ok (set_inc_resolved now (NULLIF (as_uuid user)) "manual_resolution" (NULLIF (btrim reason)) row) /\
        incidents (w_db w') !! as_uuid id = Some (set_inc_resolved now (NULLIF (as_uuid user)) "manual_resolution"
          (NULLIF (btrim reason)) row)
    | Err e => r = Err e /\ w_db w' = w_db w
    end
  else r = Err ErrInvalidInput /\ w_db w' = w_db w.
Proof.
  intros Hf Hfr. unfold Resolve. destruct (validActionInput user env id reason) eqn:Ev; [|done].
  cbn [negb]. unfold mbind, SE_bind. set (U := as_uuid user). set (E := as_uuid env). set (I := as_uuid id).
  set (s := mkTx (w_db w) t false (w_uuid w) (w_next w) []).
  assert (good s) as Hg by (by split).
  destruct (load_open_run U E I s Hg) as (s1 & E1 & Hg1 & D1). change (tx_db s) with (w_db w) in E1, D1.
  assert (resolve_tx U E I reason now s = match load_open_answer U E I (w_db w) with
    | Ok _ => (resolveIncident I "" "manual_resolution" (Some U) reason now ≫= fun _ => mret (Commit ())) s1
    | Err e => (Err e, s1) end) as Etx.
  { unfold resolve_tx. unfold mbind at 1, SE_bind at 1. rewrite E1. by destruct (load_open_answer U E I (w_db w)). }
  destruct (load_open_answer U E I (w_db w)) as [row|e] eqn:Ea.
  - destruct (resolveIncident_runs I "" "manual_resolution" (Some U) reason now s1 Hg1) as (u & s2 & E2 & Hg2).
    unfold mbind, SE_bind in Etx. rewrite E2 in Etx. erewrite with_tx_run; [|done|exact Etx|apply Hg2].
    unfold load_open_answer in Ea. destruct (authorized_row U E I (w_db w)) as [[row' role]|] eqn:Er; [|done].
    destruct (Allows (role_text role) PermissionIncidentsManage) eqn:Eal; [|done]. simpl in Ea.
    case_bool_decide as Hop; [|done]. injection Ea as ->.
    pose proof (authorized_row_incident _ _ _ _ _ _ Er) as (Hrow & Henv & (m & Hm & Hrole)).
    apply resolveIncident_ok in E2 as [[_ Hx]|(r & r' & e' & ev & t' & ids & n & Hr & _ & -> & Ei & _ & Hsr & _)].
    { rewrite D1 in Hx. specialize (Hx _ Hrow). congruence. }
    rewrite D1 in *. assert (r = row) as -> by congruence. destruct (Get _ _ _ _ _) as [g w'] eqn:Eg.
    pose proof (Get_db _ _ _ _ _ _ _ Eg) as Dw. simpl in Dw. rewrite Dw, Ei, lookup_insert_eq.
    split; [|done]. change g with (g, w').1. rewrite <- Eg.
    eapply (Get_run _ _ _ _ _ _ role); [done| | |by apply manage_reads].
    + unfold validActionInput in *. apply andb_true_iff in Ev as [-> _]. done.
    + cbn [w_db]. unfold authorized_row. fold U E I. rewrite Ei, lookup_insert_eq. simpl.
      rewrite (sr_members _ _ Hsr), Hm, decide_True by done. by rewrite Hrole.
  - unfold with_tx. rewrite Hf. simpl. fold s U E I. rewrite Etx. simpl. done.
Qed.

(** ** What a transition writes *)

Definition incident_frame (d d' : DB) : Prop := exists a b c e f,
  d' = on_alert_rules (fun _ => a) (on_incidents (fun _ => b) (on_incident_events (fun _ => c)
         (on_notification_outbox (fun _ => e) (on_refresh_events (fun _ => f) d)))).

Lemma incident_frame_refl d : incident_frame d d.
Proof.
  exists (alert_rules d), (incidents d), (incident_events d), (notification_outbox d), (refresh_events d).
  by destruct d.
Qed.

Section Frame.
Context (d d' : DB) (H : incident_frame d d').
Lemma frame_rules g : incident_frame d (on_alert_rules g d').
Proof. destruct H as (a & b & c & e & f & ->). by exists (g a), b, c, e, f. Qed.
Lemma frame_incidents g : incident_frame d (on_incidents g d').
Proof. destruct H as (a & b & c & e & f & ->). by exists a, (g b), c, e, f. Qed.
Lemma frame_events g : incident_frame d (on_incident_events g d').
Proof. destruct H as (a & b & c & e & f & ->). by exists a, b, (g c), e, f. Qed.
Lemma frame_outbox g : incident_frame d (on_notification_outbox g d').
Proof. destruct H as (a & b & c & e & f & ->). by exists a, b, c, (g e), f. Qed.
Lemma frame_refresh g : incident_frame d (on_refresh_events g d').
Proof. destruct H as (a & b & c & e & f & ->). by exists a, b, c, e, (g f). Qed.
End Frame.

(** An invariant that does not depend on the tables a transition writes is kept. *)
Section Keeps.
Context (I : DB -> Prop) (m : string).
Hypothesis (Hrule : forall id d u d', I d -> ensure_rule id m d = (Ok u, d') -> I d').
Hypothesis (Hincidents : forall f d, I d -> I (on_incidents f d)).
Hypothesis (Hevents : forall f d, I d -> I (on_incident_events f d)).
Hypothesis (Houtbox : forall f d, I d -> I (on_notification_outbox f d)).
Hypothesis (Hrefresh : forall f d, I d -> I (on_refresh_events f d)).

Lemma insertEvent_keeps org env incident key type actor job reason now :
  keeps (tx_inv I) (insertEvent org env incident key type actor job reason now).
Proof.
  unfold insertEvent, UpsertIncidentEvent, InsertIncidentRefreshEvent. keep; [|apply keeps_update; auto].
  apply keeps_sql. intros _ d0 x d1 Hf. unfold upsert_event. destruct (event_of _ _ _); [by intros [= _ <-]|].
  destruct (incident_events d0 !! _); [done|]. intros [= _ <-]. auto.
Qed.

Lemma enqueue_keeps event transition : keeps (tx_inv I) (EnqueueIncidentEventTx event transition).
Proof.
  unfold EnqueueIncidentEventTx, EnqueueIncidentNotifications. keep.
  apply keeps_sql. intros now d0 x d1 Hf. destruct (incident_events d0 !! _); [|by intros [= _ <-]].
  destruct (enqueue_rows _ _ _ _ _ _ _) as [[n t]|]; [|done]. intros [= _ <-]. auto.
Qed.

Lemma ResolveOpenIncident_keeps at_ actor kind reason id :
  keeps (tx_inv I) (ResolveOpenIncident at_ actor kind reason id).
Proof.
  apply keeps_sql. intros ? d0 x d1 Hf. unfold resolve_open. destruct (incidents d0 !! _); [|by intros [= _ <-]].
  case_decide; intros [= _ <-]; auto.
Qed.

Lemma ApplyEvaluationTx_keeps job corrected now : keeps (tx_inv I) (ApplyEvaluationTx m job corrected now).
Proof.
  unfold ApplyEvaluationTx, EnsureDefaultAlertRule, GetEnabledMonitorAlertRule, openIncidentID, LockOpenIncident,
    ListRecentIncidentEvaluationTimes, openIncident, resolveIncident, CreateOpenIncident,
    GetIncidentTenant, openIncidentID, LockOpenIncident.
  repeat first [apply insertEvent_keeps|apply enqueue_keeps|apply ResolveOpenIncident_keeps|keep_step];
    apply keeps_sql; intros ? d0 x d1 Hf.
  - intros H. by eapply Hrule.
  - destruct (_ <? 0); [done|]. by intros [= _ <-].
  - unfold create_open. case_decide; [done|]. destruct (incidents d0 !! _); [done|]. intros [= _ <-]. auto.
Qed.
End Keeps.

Lemma ApplyEvaluationTx_frame d m job corrected now :
  keeps (tx_inv (incident_frame d)) (ApplyEvaluationTx m job corrected now).
Proof.
  apply ApplyEvaluationTx_keeps; intros; [|by apply frame_incidents|by apply frame_events|by apply frame_outbox|
    by apply frame_refresh].
  unfold ensure_rule in *. destruct (monitors _ !! m); [|by simplify_eq]. case_decide; [by simplify_eq|].
  destruct (alert_rules _ !! _); simplify_eq. by apply frame_rules.
Qed.

(** The default rule has the thresholds that apply without a rule. *)
Lemma ensure_limits id m d u d' : ensure_rule id m d = (Ok u, d') -> limits_of m d' = limits_of m d.
Proof.
  unfold ensure_rule. destruct (monitors d !! m); [|by intros [= _ <-]]. case_decide as Hno; [by intros [= _ <-]|].
  destruct (alert_rules d !! id) eqn:Eid; [done|]. intros [= _ <-]. unfold limits_of, enabled_rule. simpl.
  set (new := mkAlertRule _ _ m 3 2 true).
  assert (head (filter (fun x => ar_monitor_id x.2 = m /\ ar_enabled x.2 = true) (map_to_list (alert_rules d))) = None) as ->.
  { destruct (head _) as [[i r]|] eqn:E; [|done]. apply head_filter_Some in E as [Hin [Hm _]].
    apply elem_of_map_to_list in Hin. destruct Hno. by exists i, r. }
  destruct (head _) as [[i r]|] eqn:E.
  - apply head_filter_Some in E as [Hin [Hm _]]. apply elem_of_map_to_list in Hin.
    apply lookup_insert_Some in Hin as [[_ <-]|[_ Hin]]; [done|]. destruct Hno. by exists i, r.
  - done.
Qed.

Lemma ApplyEvaluationTx_limits L m job corrected now :
  keeps (tx_inv (fun d => limits_of m d = L)) (ApplyEvaluationTx m job corrected now).
Proof.
  apply ApplyEvaluationTx_keeps; [|done..]. intros id d u d' <- H. by eapply ensure_limits.
Qed.

(** ** Witnesses *)
Module OneMonitor.
(** Distinct identifiers. *)
Fixpoint ticks (n : nat) : string := match n with O => "t" | S n => String "t"%char (ticks n) end.
Lemma ticks_length n : String.length (ticks n) = S n.
Proof. induction n as [|n IH]; [done|]. simpl. by rewrite IH. Qed.
Lemma ticks_inj i j : ticks i = ticks j -> i = j.
Proof. intros H%(f_equal String.length). rewrite !ticks_length in H. lia. Qed.

Definition user : string := "00000000-0000-0000-0000-00000000000A".
Definition env : string := "00000000-0000-0000-0000-000000000001".
Definition inc : string := "00000000-0000-0000-0000-000000000002".

Definition monitor : Monitor := mkMonitor "org" env 1 "https://a.test" "GET" 60 10 200 299 0 "" None "pool" None None.
Definition rule : AlertRule := mkAlertRule "org" env "m" 3 2 true.
(** A monitor that just went down, in an organization with one member who wants mail. *)
Definition db : DB :=
  on_monitors (fun _ => {["m" := monitor]}) (on_alert_rules (fun _ => {["rule" := rule]})
  (on_reliability_states (fun _ => {["m" := mkReliabilityState Down Down 3 0 (Some 180) (Some "j3") None None None]})
  (on_evaluations (fun _ => <["j1" := mkEvaluation "m" 60 false Degraded 1 0]>
    (<["j2" := mkEvaluation "m" 120 false Degraded 2 0]> {["j3" := mkEvaluation "m" 180 false Down 3 0]}))
  (on_org_members (fun _ => {[("org", as_uuid user) := mkOrgMember Member true]})
  (on_users (fun _ => {[as_uuid user := mkUserRow " Ada@A.test" (Some 5)]}) empty_db))))).
Definition s : TxState DB := mkTx db 200 false ticks 0 [].

(** The same with an open incident. *)
Definition row : IncidentRow := new_incident "org" env "m" "rule" 60 200.
Definition event : IncidentEvent := mkIncidentEvent "org" env inc "opened" "opened" None (Some "j3") None 200.
Definition db_open : DB := on_incidents (fun _ => {[inc := row]}) (on_incident_events (fun _ => {["e" := event]}) db).
Definition world : World DB () := mkWorld db_open () ticks 0 [].

Lemma one_monitor_inv : incident_inv db.
Proof.
  constructor; try apply map_Forall_empty; intros i j r r'.
  - change (incidents db) with (∅ : gmap string IncidentRow). by rewrite lookup_empty.
  - change (incident_events db) with (∅ : gmap string IncidentEvent). by rewrite lookup_empty.
Qed.

Lemma outbox : outbox_inv db.
Proof.
  constructor; [|apply map_Forall_empty]. intros i j r r'.
  change (notification_outbox db) with (∅ : gmap string NotificationRow). by rewrite lookup_empty.
Qed.

Lemma has_event_open i k : has_event i k db_open <-> i = inc /\ k = "opened".
Proof.
  unfold has_event. change (incident_events db_open) with ({["e" := event]} : gmap string IncidentEvent).
  rewrite map_Exists_singleton. simpl. intuition.
Qed.

Lemma inv_open : incident_inv db_open.
Proof.
  constructor; try (change (incidents db_open) with ({[inc := row]} : gmap string IncidentRow));
    try (change (incident_events db_open) with ({["e" := event]} : gmap string IncidentEvent)).
  - by intros i j r r' [<- _]%lookup_singleton_Some [<- _]%lookup_singleton_Some.
  - apply map_Forall_singleton. constructor; simpl; [split; by intros []|done|done].
  - by intros i j r r' [<- _]%lookup_singleton_Some [<- _]%lookup_singleton_Some.
  - apply map_Forall_singleton. exists row. by rewrite lookup_singleton_eq.
  - apply map_Forall_singleton. rewrite !has_event_open. simpl. split; [done|]. split; (split; [by intros []|]); [done|by intros []].
Qed.

Lemma one_monitor_fresh : fresh_ids ticks 0 db.
Proof.
  constructor; [exact ticks_inj|intros i _|done..].
  change (alert_rules db) with ({["rule" := rule]} : gmap string AlertRule).
  rewrite lookup_singleton_None. by destruct i.
Qed.

Lemma fresh_open : fresh_ids ticks 0 db_open.
Proof.
  destruct one_monitor_fresh as [F1 F2 F3 F4 F5]. constructor; [done|exact F2|intros i _|intros i _|exact F5].
  - change (incidents db_open) with ({[inc := row]} : gmap string IncidentRow).
    rewrite lookup_singleton_None. by destruct i.
  - change (incident_events db_open) with ({["e" := event]} : gmap string IncidentEvent).
    rewrite lookup_singleton_None. by destruct i.
Qed.
End OneMonitor.

Lemma opened_notified_once_witness :
  let s' := (ApplyEvaluationTx "m" "j3" false 200 OneMonitor.s).2 in
  exists id e row, incidents (tx_db s') !! id = Some row /\ inc_status row = IOpen /\
    starts_at "m" 3 OneMonitor.db 200 (inc_started_at row) /\
    enqueued e (as_uuid OneMonitor.user) (notification_outbox (tx_db s')).
Proof.
  intros s'.
  assert (ApplyEvaluationTx "m" "j3" false 200 OneMonitor.s = (Ok (), s')) as H by (vm_compute; reflexivity).
  destruct (opened_notified_once "m" "j3" false 200 OneMonitor.s s' "rule" OneMonitor.rule H OneMonitor.one_monitor_inv OneMonitor.outbox)
    as (id & e & ev & started & _ & Hi & Hst & _ & _ & _ & _ & _ & Hu & _); [vm_compute; reflexivity..|vm_compute; split; discriminate|].
  exists id, e. eexists. split; [exact Hi|]. split; [reflexivity|]. split; [exact Hst|]. apply Hu.
  eexists _, _, _. split; [vm_compute; reflexivity|]. split; [reflexivity|]. split; [vm_compute; reflexivity|]. split; [by eexists|reflexivity].
Defined.

Lemma actions_authorized_witness :
  incident_inv (w_db (Acknowledge 300 300 OneMonitor.user OneMonitor.env OneMonitor.inc "on it" OneMonitor.world).2).
Proof.
  apply (actions_authorized 300 300 OneMonitor.user OneMonitor.env OneMonitor.inc "on it" OneMonitor.world _ _ false
    (surjective_pairing _) OneMonitor.inv_open).
Defined.

Lemma Resolve_outcome_witness :
  (Resolve 300 300 OneMonitor.user OneMonitor.env OneMonitor.inc " fixed " OneMonitor.world).1 =
  Ok (set_inc_resolved 300 (Some (as_uuid OneMonitor.user)) "manual_resolution" (Some "fixed") OneMonitor.row).
Proof.
  pose proof (Resolve_outcome 300 300 OneMonitor.user OneMonitor.env OneMonitor.inc " fixed " OneMonitor.world
    eq_refl OneMonitor.fresh_open) as H.
  destruct (Resolve _ _ _ _ _ _ _) as [r w'].
  assert (validActionInput OneMonitor.user OneMonitor.env OneMonitor.inc " fixed " = true) as E1 by (vm_compute; reflexivity).
  assert (load_open_answer (as_uuid OneMonitor.user) (as_uuid OneMonitor.env) (as_uuid OneMonitor.inc)
    (w_db OneMonitor.world) = Ok OneMonitor.row) as E2 by (vm_compute; reflexivity).
  rewrite E1, E2 in H. destruct H as [-> _]. reflexivity.
Defined.
