(* ===== verification/Consumer.v ===== *)
(** * Consumer: accepting results

    Models internal/fifo/consumer.go with its queries: one result is pulled from the
    queue, checked against the job it answers, and stored, evaluated and turned into
    incidents in one transaction; only then it is acknowledged.  A second result for
    a job that has one already is either the same result again or a conflict, which
    goes to quarantine.

    The queue is a parameter: [PullResult] and [AcknowledgeResult] act on its state.
    So is [uuid_in], PostgreSQL's cast of a text to uuid (and back to text), which
    fails on a text that is no uuid.  Evaluation and incidents are called with the job
    id as the result spells it, which is the one place where its spelling could
    matter.  The flag beside an error is not modelled. *)

From stdpp Require Import base gmap list strings sorting.
From Stdlib Require Import ZArith Lia Ascii String.
From S2P Require Import Prelude Tx Store Bytes Envelope Sealing Scheduler Publisher Reliability.
From S2P Require Import Notification Authorization Incident.

Record ResultDelivery : Type := mkResultDelivery {
  rd_Body : bytes;
  rd_Attributes : Attributes;
  rd_Receipt : string;
  rd_ReceiveCount : Z
}.

(** ** Queries *)

Section Queries.
Context (uuid_in : string -> option string).

(** A statement with a text parameter that is cast to uuid. *)
Definition cast {A} (s : string) (q : string -> DB -> res A * DB) (d : DB) : res A * DB :=
  match uuid_in s with
  | Some u => q u d
  | None => (Err ErrSyntax, d)
  end.

(** The signing key of a pool under a key id: the newest credential that is active or
    retired, else the key of the pool itself. *)
Definition credential_for (pool key : string) (c : Credential) : Prop :=
  cr_worker_pool_id c = pool /\ cr_purpose c = "result_signing" /\ cr_key_id c = key /\
  (cr_status c = "active" \/ cr_status c = "retired").
#[global] Instance credential_for_dec pool key c : Decision (credential_for pool key c).
Proof. unfold credential_for. apply _. Defined.

Definition newer (x y : Credential) : Prop := cr_activates_at y <= cr_activates_at x.
#[global] Instance newer_dec : RelDecision newer.
Proof. intros x y. unfold newer. apply _. Defined.

Definition result_public_key (pool key : string) (p : WorkerPool) (d : DB) : option bytes :=
  match head (merge_sort newer (filter (credential_for pool key) (credentials d))) ≫= cr_public_material with
  | Some k => Some k
  | None => if bool_decide (wp_result_key_id p = Some key) then wp_result_public_key p else None
  end.

Definition result_job (key id : string) (d : DB) : option (CheckJob * option bytes) :=
  match check_jobs d !! id with
  | Some j => match worker_pools d !! cj_worker_pool_id j with
              | Some p => Some (j, result_public_key (cj_worker_pool_id j) key p d)
              | None => None
              end
  | None => None
  end.

Definition LockResultCheckJob (key job : string) : Tx DB (CheckJob * option bytes) := sql (fun _ =>
  cast job (fun id d => (match result_job key id d with Some x => Ok x | None => Err ErrNoRows end, d))).

Definition GetAcceptedHealthCheck (job : string) : Tx DB HealthCheck := sql (fun _ =>
  cast job (fun id d => (match health_checks d !! id with Some x => Ok x | None => Err ErrNoRows end, d))).

(** The CHECKs of health_checks. *)
Definition error_categories : list string :=
  ["invalid_target"; "unsafe_target"; "dns"; "connection"; "tls"; "timeout"; "http_protocol";
   "response_body"; "response_too_large"; "redirect_limit"; "unexpected_status"].

Definition nonneg (o : option Z) : bool := match o with Some z => 0 <=? z | None => true end.

Definition health_check_ok (h : HealthCheck) : bool :=
  (match hc_status_code h with Some c => (100 <=? c) && (c <=? 599) | None => true end)
  && (match hc_error_category h with Some c => bool_decide (c ∈ error_categories) | None => true end)
  && (0 <=? hc_total_duration_microseconds h) && (hc_started_at h <=? hc_completed_at h)
  && (if hc_succeeded h then negb (is_none (hc_status_code h)) && is_none (hc_error_category h)
      else negb (is_none (hc_error_category h)))
  && (slen (hc_snapshot_hash h) =? 32) && (slen (hc_worker_id h) <=? 128)
  && nonneg (hc_dns_duration_microseconds h) && nonneg (hc_connect_duration_microseconds h)
  && nonneg (hc_tls_duration_microseconds h) && nonneg (hc_first_byte_duration_microseconds h).

Definition check_of (result : Result) (result_id attempt : string) (j : CheckJob) : HealthCheck :=
  mkHealthCheck result_id (cj_organization_id j) (cj_environment_id j) (cj_monitor_id j) (cj_job_type j)
    (cj_scheduled_at j) (r_StartedAt result) (r_CompletedAt result) (r_Succeeded result) (r_StatusCode result)
    (r_ErrorCategory result) (r_TotalMicros result) (cj_snapshot_hash j) (cj_worker_pool_id j) (r_WorkerID result)
    attempt (r_DNSMicros result) (r_ConnectMicros result) (r_TLSMicros result) (r_FirstByteMicros result).

Definition insert_check (result : Result) (j : CheckJob) (id result_id attempt : string) (d : DB) : res () * DB :=
  let h := check_of result result_id attempt j in
  if negb (health_check_ok h) then (Err ErrCheckViolation, d)
  else if decide (is_Some (health_checks d !! id) \/
                  map_Exists (fun _ h => hc_result_id h = result_id) (health_checks d))
  then (Err ErrUniqueViolation, d)
  else (Ok (), on_health_checks <[id := h]> d).

Definition InsertAcceptedHealthCheck (result : Result) (j : CheckJob) : Tx DB () := sql (fun _ =>
  cast (r_JobID result) (fun id => cast (r_ResultID result) (fun result_id => cast (r_AttemptID result) (fun attempt =>
    insert_check result j id result_id attempt)))).

Definition CompleteCheckJob (result : Result) : Tx DB () := sql (fun _ =>
  cast (r_AttemptID result) (fun attempt => cast (r_JobID result) (fun id d =>
    (Ok (), on_check_jobs (alter (set_job_completed (r_StartedAt result) (r_CompletedAt result)
      (r_WorkerID result) attempt) id) d)))).

Definition MarkDispatchRepaired (job : string) : Tx DB () := sql (fun _ =>
  cast job (fun id d => (Ok (), repair id d))).

Definition recovered (m : string) (at_ : Z) (k : string * Z * gap_reason) : bool :=
  bool_decide (k.1.1 = m /\ k.1.2 = at_ /\ (k.2 = GapExpired \/ k.2 = GapDead)).

Definition DeleteRecoveredCoverageGaps (m : string) (at_ : Z) : Tx DB () :=
  update (fun _ => on_coverage_gaps (filter (fun x => recovered m at_ x.1 = false))).

Definition InsertResultConflict (result : Result) (j : CheckJob) (encrypted : bytes) : Tx DB () := sql (fun _ =>
  cast (r_JobID result) (fun id => cast (r_ResultID result) (fun result_id d =>
    match conflicts d !! result_id with
    | Some _ => (Ok (), d)
    | None => (Ok (), on_conflicts <[result_id := mkConflict id (cj_worker_pool_id j) (cj_snapshot_hash j) encrypted]> d)
    end))).

(** The table has a unique index on the result id and the statement no conflict clause. *)
Definition quarantined (result_id : string) (d : DB) : Prop :=
  Exists (fun q => qr_result_id q = Some result_id) (quarantine d).
#[global] Instance quarantined_dec result_id d : Decision (quarantined result_id d).
Proof. unfold quarantined. apply _. Defined.

Definition InsertConflictingResultQuarantine (result : Result) (j : CheckJob) (encrypted : bytes) : Tx DB () :=
  sql (fun _ => cast (r_JobID result) (fun id => cast (r_ResultID result) (fun result_id d =>
    if decide (quarantined result_id d) then (Err ErrUniqueViolation, d)
    else (Ok (), on_quarantine (fun l => l ++ [mkQuarantined (Some id) (Some result_id) (Some (cj_worker_pool_id j))
           (Some (cj_snapshot_hash j)) "conflicting valid result" encrypted]) d)))).

(** [date_trunc] in UTC. *)
Definition bucket (kind : bucket_kind) (t : Z) : Z :=
  match kind with Hourly => t - t mod hour | Daily => t - t mod (24 * hour) end.

Definition upsert_invalidation (kind : bucket_kind) (m : string) (at_ : Z) (reason : string) (d : DB) : DB :=
  on_rollup_invalidations <[(m, kind, bucket kind at_) := reason]> d.

Definition UpsertHourlyRollupInvalidation (m : string) (at_ : Z) (reason : string) : Tx DB () :=
  update (fun _ => upsert_invalidation Hourly m at_ reason).
Definition UpsertDailyRollupInvalidation (m : string) (at_ : Z) (reason : string) : Tx DB () :=
  update (fun _ => upsert_invalidation Daily m at_ reason).

Definition InsertAcceptedCheckRefreshEvent (org env job : string) : Tx DB () := sql (fun _ =>
  cast job (fun id d => (Ok (), on_refresh_events (fun l => l ++
    [mkRefreshEvent org env "check.accepted" "check" id]) d))).

Definition DatabasePing : Tx DB Z := select (fun _ _ => 1).

(** ** The consumer *)

Section ConsumerCode.
Context {P : Primitives}.

(** The result answers the job: its pool, snapshot and slot, within five seconds of
    clock skew. *)
Definition answers (job : CheckJob) (now : Z) (result : Result) : bool :=
  String.eqb (r_WorkerPoolID result) (cj_worker_pool_id job)
  && String.eqb (r_SnapshotHash result) (hex_encode (cj_snapshot_hash job))
  && time_equal (r_ScheduledAt result) (cj_scheduled_at job)
  && negb (before (r_StartedAt result) (time_add (cj_scheduled_at job) (- (5 * second))))
  && negb (after (r_StartedAt result) (time_add (cj_expires_at job) (5 * second)))
  && negb (after (r_CompletedAt result) (time_add now (5 * second))).

(** The scheduled part of an acceptance: evaluation, incidents, rollups. *)
Definition evaluate_accepted (job : CheckJob) (result : Result) (evaluatedAt : Z) : Tx DB () :=
  let m := cj_monitor_id job in
  let late := after evaluatedAt (time_add (cj_expires_at job) (10 * minute)) in
  corrected ← EvaluateAcceptedTx m (r_JobID result) (cj_scheduled_at job) (cj_expires_at job) evaluatedAt;
  _ ← (if negb late then ApplyEvaluationTx m (r_JobID result) corrected evaluatedAt else mret ());
  _ ← (if corrected || late
       then InsertMonitoringOperationalEvent "late_correction" (r_JobID result) (cj_worker_pool_id job)
              (if corrected then "ordered state and rollup correction" else "raw and rollup correction only")
       else mret ());
  let reason := if corrected || late then "late_result" else "accepted_result" in
  _ ← UpsertHourlyRollupInvalidation m (cj_scheduled_at job) reason;
  UpsertDailyRollupInvalidation m (cj_scheduled_at job) reason.

Definition accept_tx (job : CheckJob) (result : Result) (evaluatedAt : Z) : Tx DB (TxEnd ()) :=
  _ ← InsertAcceptedHealthCheck result job;
  _ ← CompleteCheckJob result;
  _ ← MarkDispatchRepaired (r_JobID result);
  _ ← DeleteRecoveredCoverageGaps (cj_monitor_id job) (cj_scheduled_at job);
  _ ← (if decide (cj_job_type job = Scheduled) then evaluate_accepted job result evaluatedAt else mret ());
  _ ← InsertAcceptedCheckRefreshEvent (cj_organization_id job) (cj_environment_id job) (r_JobID result);
  mret (Commit ()).

(** The errors of the inserts are dropped: a failed one aborts the transaction. *)
Definition conflict_tx (sealer : option bytes) (nonce : res bytes) (body : bytes) (job : CheckJob)
    (result : Result) : Tx DB (TxEnd ()) :=
  encrypted ← of_res (Quarantine.Seal sealer nonce body ("result:" +:+ r_ResultID result));
  _ ← ignore (InsertResultConflict result job encrypted);
  _ ← ignore (InsertConflictingResultQuarantine result job encrypted);
  _ ← ignore (InsertMonitoringOperationalEvent "result_conflict" (r_JobID result) (cj_worker_pool_id job)
        "conflicting valid result");
  mret (Commit ()).

Definition same_result (existing : HealthCheck) (result : Result) : bool :=
  String.eqb (hex_encode (hc_snapshot_hash existing)) (r_SnapshotHash result)
  && String.eqb (hc_execution_attempt_id existing) (r_AttemptID result)
  && String.eqb (hc_result_id existing) (r_ResultID result).

(** [now] is the clock when the result is checked, [evaluatedAt] when it is evaluated. *)
Definition consume_tx (sealer : option bytes) (nonce : res bytes) (now evaluatedAt : Z) (body : bytes)
    (peeked : Result) : Tx DB (TxEnd ()) :=
  row ← try_ (LockResultCheckJob (r_ResultKeyID peeked) (r_JobID peeked));
  match row with
  | Err ErrNoRows => throw ErrEnvelopeInvalid
  | Err e => throw e
  | Ok (job, key) =>
      match VerifyResult body (default "" key) with
      | Err _ => throw ErrEnvelopeInvalid
      | Ok result =>
          if negb (answers job now result) then throw ErrEnvelopeInvalid else
          existing ← try_ (GetAcceptedHealthCheck (r_JobID result));
          match existing with
          | Ok existing =>
              if negb (same_result existing result) then conflict_tx sealer nonce body job result
              else _ ← ignore (MarkDispatchRepaired (r_JobID result)); mret (Commit ())
          | Err ErrNoRows => accept_tx job result evaluatedAt
          | Err e => throw e
          end
      end
  end.

Definition attributes_match (peeked : Result) (a : Attributes) : bool :=
  String.eqb (r_JobID peeked) (a_JobID a) && String.eqb (r_ResultID peeked) (a_ResultID a)
  && String.eqb (r_WorkerPoolID peeked) (a_WorkerPoolID a) && String.eqb (r_SnapshotHash peeked) (a_SnapshotHash a)
  && String.eqb (r_ResultKeyID peeked) (a_ResultKeyID a) && (r_SchemaVersion peeked =? a_SchemaVersion a).

Context {O : Type} (PullResult : Z -> O -> res ResultDelivery * O).
Context (AcknowledgeResult : ResultDelivery -> O -> res () * O).

Definition databaseReady (t : Z) : SE (World DB O) bool :=
  with_tx t (one ← DatabasePing; mret (Rollback (one =? 1))).

(** The two transactions begin at [t]. *)
Definition ConsumeNext (sealer : option bytes) (nonce : res bytes) (t now evaluatedAt : Z) :
    SE (World DB O) bool :=
  ready ← databaseReady t;
  if negb ready then throw (ErrorsNew "result database unavailable") else
  pulled ← try_ (external (PullResult (20 * second)));
  match pulled with
  | Err ErrNoMessage => mret false
  | Err e => throw e
  | Ok delivery =>
      match PeekResult (rd_Body delivery) with
      | Err _ => throw ErrEnvelopeInvalid
      | Ok peeked =>
          if negb (attributes_match peeked (rd_Attributes delivery)) then throw ErrEnvelopeInvalid else
          _ ← with_tx t (consume_tx sealer nonce now evaluatedAt (rd_Body delivery) peeked);
          _ ← external (AcknowledgeResult delivery);
          mret true
      end
  end.
End ConsumerCode.
End Queries.

(** ** What a run of the transaction did *)

Lemma cast_ok {A} uuid_in s (q : string -> DB -> res A * DB) d a d' :
  cast uuid_in s q d = (Ok a, d') -> exists u, uuid_in s = Some u /\ q u d = (Ok a, d').
Proof. unfold cast. destruct (uuid_in s) as [u|]; [eauto|done]. Qed.

Section Facts.
Context (uuid_in : string -> option string) {P : Primitives}.

(** The tables a stored result leaves alone. *)
Record accepted (job : CheckJob) (result : Result) (id : string) (d d' : DB) : Prop := {
  ac_row : exists result_id attempt, uuid_in (r_ResultID result) = Some result_id /\
    uuid_in (r_AttemptID result) = Some attempt /\
    insert_check result job id result_id attempt d = (Ok (), on_health_checks <[id := check_of result result_id attempt job]> d) /\
    health_checks d' = <[id := check_of result result_id attempt job]> (health_checks d);
  ac_conflicts : conflicts d' = conflicts d;
  ac_quarantine : quarantine d' = quarantine d;
  ac_outbox : outbox d' = outbox (repair id d);
  ac_jobs : exists attempt, uuid_in (r_AttemptID result) = Some attempt /\ check_jobs d' = alter (set_job_completed (r_StartedAt result) (r_CompletedAt result)
    (r_WorkerID result) attempt) id (check_jobs d)
}.

Lemma insert_check_ok result job id result_id attempt d d' :
  insert_check result job id result_id attempt d = (Ok (), d') ->
  d' = on_health_checks <[id := check_of result result_id attempt job]> d /\ health_checks d !! id = None.
Proof.
  unfold insert_check. destruct (negb _); [done|]. case_decide as Hd; [done|]. intros [= <-]. split; [done|].
  apply eq_None_not_Some. tauto.
Qed.

Lemma evaluate_accepted_writes job result evaluatedAt s u s' :
  evaluate_accepted job result evaluatedAt s = (Ok u, s') ->
  health_checks (tx_db s') = health_checks (tx_db s) /\ conflicts (tx_db s') = conflicts (tx_db s) /\
  quarantine (tx_db s') = quarantine (tx_db s) /\ outbox (tx_db s') = outbox (tx_db s) /\
  check_jobs (tx_db s') = check_jobs (tx_db s).
Proof.
  set (I := fun d => health_checks d = health_checks (tx_db s) /\ conflicts d = conflicts (tx_db s) /\
    quarantine d = quarantine (tx_db s) /\ outbox d = outbox (tx_db s) /\ check_jobs d = check_jobs (tx_db s)).
  assert (forall m accepted now, keeps (tx_inv I) (evaluateTx m accepted now)) as H1.
  { intros m acc now s0 Hs0. pose proof (evaluateTx_frame (tx_db s0) m acc now s0 (evaluation_frame_refl _)) as H.
    destruct (evaluateTx m acc now s0) as [[c|e] s1]; destruct H as (? & ? & ? & ? & H); unfold tx_inv, I in *; by rewrite H. }
  assert (forall m job c now, keeps (tx_inv I) (ApplyEvaluationTx m job c now)) as H2.
  { intros m j c now s0 Hs0. pose proof (ApplyEvaluationTx_frame (tx_db s0) m j c now s0 (incident_frame_refl _)) as H.
    destruct (ApplyEvaluationTx m j c now s0) as [[[]|e] s1]; destruct H as (? & ? & ? & ? & ? & H); unfold tx_inv, I in *; by rewrite H. }
  assert (keeps (tx_inv I) (evaluate_accepted job result evaluatedAt)) as Hk.
  { unfold evaluate_accepted, EvaluateAcceptedTx, InsertMonitoringOperationalEvent, UpsertHourlyRollupInvalidation,
      UpsertDailyRollupInvalidation.
    repeat first [apply H1|apply H2|keep_step|apply keeps_update; by intros ? ? ?]. }
  intros H. specialize (Hk s (conj eq_refl (conj eq_refl (conj eq_refl (conj eq_refl eq_refl))))). rewrite H in Hk. exact Hk.
Qed.

Lemma accept_tx_ok job result evaluatedAt s e s' :
  accept_tx uuid_in job result evaluatedAt s = (Ok e, s') ->
  exists id, uuid_in (r_JobID result) = Some id /\ health_checks (tx_db s) !! id = None /\
    accepted job result id (tx_db s) (tx_db s').
Proof.
  unfold accept_tx. intros H.
  apply bind_ok in H as (? & s1 & H1 & H). apply sql_ok in H1 as [E1 _].
  apply cast_ok in E1 as (id & Hid & E1). apply cast_ok in E1 as (rid & Hrid & E1). apply cast_ok in E1 as (att & Hatt & E1).
  destruct x. pose proof (insert_check_ok _ _ _ _ _ _ _ E1) as [D1 Hnone].
  apply bind_ok in H as (? & s2 & H2 & H). apply sql_ok in H2 as [E2 _].
  apply cast_ok in E2 as (att' & Hatt' & E2). apply cast_ok in E2 as (id' & Hid' & E2). injection E2 as _ D2.
  apply bind_ok in H as (? & s3 & H3 & H). apply sql_ok in H3 as [E3 _].
  apply cast_ok in E3 as (id3 & Hid3 & E3). injection E3 as _ D3. assert (id3 = id) as -> by congruence.
  apply bind_ok in H as (? & s4 & H4 & H). apply update_ok in H4 as [D4 _].
  apply bind_ok in H as (? & s5 & H5 & H).
  assert (health_checks (tx_db s5) = health_checks (tx_db s4) /\ conflicts (tx_db s5) = conflicts (tx_db s4) /\
    quarantine (tx_db s5) = quarantine (tx_db s4) /\ outbox (tx_db s5) = outbox (tx_db s4) /\
    check_jobs (tx_db s5) = check_jobs (tx_db s4)) as (F1 & F2 & F3 & F4 & F5).
  { case_decide; [by apply evaluate_accepted_writes in H5|by apply ret_ok in H5 as [_ <-]]. }
  apply bind_ok in H as (? & s6 & H6 & H). apply sql_ok in H6 as [E6 _].
  apply cast_ok in E6 as (id6 & _ & E6). injection E6 as _ D6. apply ret_ok in H as [_ <-].
  exists id. split; [done|]. split; [done|]. rewrite D1 in E1.
  rewrite <- D6. constructor; simpl.
  - exists rid, att. rewrite F1, D4, <- D3, <- D2, D1. done.
  - rewrite F2, D4, <- D3, <- D2, D1. done.
  - rewrite F3, D4, <- D3, <- D2, D1. done.
  - rewrite F4, D4, <- D3, <- D2, D1. done.
  - exists att'. split; [done|]. assert (id' = id) as -> by congruence. rewrite F5, D4, <- D3, <- D2, D1. done.
Qed.

(** The conflict is on record, once in each table. *)
Definition conflict_recorded (result : Result) (d : DB) : Prop :=
  exists result_id, uuid_in (r_ResultID result) = Some result_id /\ is_Some (conflicts d !! result_id) /\
    quarantined result_id d.

Lemma cast_not_no_rows {A} s (q : string -> DB -> res A * DB) d :
  (forall u, (q u d).1 <> Err ErrNoRows) -> (cast uuid_in s q d).1 <> Err ErrNoRows.
Proof. unfold cast. intros H. destruct (uuid_in s); [apply H|done]. Qed.

Lemma conflict_tx_ok sealer nonce body job result s e s' :
  conflict_tx uuid_in sealer nonce body job result s = (Ok e, s') -> tx_aborted s' = false ->
  health_checks (tx_db s') = health_checks (tx_db s) /\ conflict_recorded result (tx_db s') /\
  check_jobs (tx_db s') = check_jobs (tx_db s).
Proof.
  unfold conflict_tx. intros H Hl.
  apply bind_ok in H as (enc & s0 & H0 & H). apply of_res_ok in H0 as [_ ->].
  apply bind_ok in H as (? & s1 & H1 & H). apply bind_ok in H as (? & s2 & H2 & H).
  apply bind_ok in H as (? & s3 & H3 & H). apply ret_ok in H as [_ <-].
  apply ignore_sql_ok in H3 as (_ & L3 & (? & E3)); [|done|done]. injection E3 as _ D3.
  apply ignore_sql_ok in H2 as (_ & L2 & (? & E2)); [|done|].
  2: { repeat (apply cast_not_no_rows; intros). by case_decide. }
  apply ignore_sql_ok in H1 as (_ & _ & (? & E1)); [|done|].
  2: { repeat (apply cast_not_no_rows; intros). by destruct (conflicts _ !! _). }
  apply cast_ok in E1 as (id & _ & E1). apply cast_ok in E1 as (rid & Hrid & E1).
  apply cast_ok in E2 as (id2 & _ & E2). apply cast_ok in E2 as (rid2 & Hrid2 & E2).
  assert (rid2 = rid) as -> by congruence. case_decide as Hq; [done|]. injection E2 as _ D2.
  rewrite <- D3, <- D2. simpl.
  assert (health_checks (tx_db s1) = health_checks (tx_db s) /\ is_Some (conflicts (tx_db s1) !! rid) /\
    check_jobs (tx_db s1) = check_jobs (tx_db s)) as (F1 & F2 & F3).
  { destruct (conflicts (tx_db s) !! rid) eqn:Ec; injection E1 as _ D1; rewrite <- D1; simpl; [by rewrite Ec|].
    split; [done|]. by rewrite lookup_insert_eq. }
  split; [done|]. split; [|done]. exists rid. split; [done|]. split; [done|]. unfold quarantined. simpl.
  apply Exists_app. right. by constructor.
Qed.

Lemma VerifyResult_peek body key result : VerifyResult body key = Ok result -> PeekResult body = Ok result.
Proof.
  unfold VerifyResult, or_invalid, guard. destruct (PeekResult body) as [r|]; [|done].
  destruct (negb (slen key =? 32)); [done|]. destruct (unmarshal _ _) as [sg|]; [|done].
  destruct (negb _); [done|]. destruct (negb _); [done|]. by intros [= <-].
Qed.

(** The result was checked: it is signed under a key of the job's pool and answers the
    job. *)
Definition checked (now : Z) (body : bytes) (result : Result) (id : string) (job : CheckJob) (d : DB) : Prop :=
  uuid_in (r_JobID result) = Some id /\ exists key, result_job (r_ResultKeyID result) id d = Some (job, key) /\
    VerifyResult body (default "" key) = Ok result /\ answers job now result = true.

Lemma consume_tx_ok sealer nonce now evaluatedAt body result s e s' :
  PeekResult body = Ok result ->
  consume_tx uuid_in sealer nonce now evaluatedAt body result s = (Ok e, s') -> tx_aborted s' = false ->
  exists id job, checked now body result id job (tx_db s) /\
  match health_checks (tx_db s) !! id with
  | Some h =>
      if same_result h result then tx_db s' = repair id (tx_db s)
      else health_checks (tx_db s') = health_checks (tx_db s) /\ conflict_recorded result (tx_db s') /\
           check_jobs (tx_db s') = check_jobs (tx_db s)
  | None => accepted job result id (tx_db s) (tx_db s')
  end.
Proof.
  intros Hp H Hl. unfold consume_tx in H. apply bind_ok in H as (row & s1 & H1 & H).
  unfold try_ in H1. destruct (LockResultCheckJob _ _ _ s) as [r1 s1'] eqn:E1. injection H1 as <- <-.
  destruct r1 as [[job key]|er]; [|by destruct er].
  apply sql_ok in E1 as [E1 N1]. apply cast_ok in E1 as (id & Hid & E1).
  destruct (result_job _ id (tx_db s)) as [[job' key']|] eqn:Ej; [|done]. injection E1 as -> -> D1.
  destruct (VerifyResult body (default "" key)) as [result'|] eqn:Ev; [|done].
  pose proof (VerifyResult_peek _ _ _ Ev) as Hp'. assert (result' = result) as -> by congruence.
  destruct (answers job now result) eqn:Ea; [|done]. simpl in H.
  exists id, job. split; [by split; [done|]; exists key|].
  apply bind_ok in H as (ex & s2 & H2 & H). unfold try_ in H2.
  destruct (GetAcceptedHealthCheck _ _ s1') as [r2 s2'] eqn:E2. injection H2 as <- <-.
  destruct r2 as [h|er].
  - apply sql_ok in E2 as [E2 N2]. apply cast_ok in E2 as (id2 & Hid2 & E2). assert (id2 = id) as -> by congruence.
    rewrite <- D1 in E2. destruct (health_checks (tx_db s) !! id) as [h'|] eqn:Eh; [|done]. injection E2 as -> D2.
    destruct (same_result h result) eqn:Es; simpl in H.
    + apply bind_ok in H as (? & s3 & H3 & H). apply ret_ok in H as [_ <-].
      apply ignore_sql_ok in H3 as (_ & _ & (? & E3)); [|done|by apply cast_not_no_rows].
      apply cast_ok in E3 as (id3 & Hid3 & E3). assert (id3 = id) as -> by congruence. injection E3 as _ D3. congruence.
    + apply conflict_tx_ok in H; [|done]. by rewrite D2.
  - destruct er; try done. apply sql_err in E2 as [[D2 _] Hn]. destruct (Hn eq_refl) as [d0 Hd0].
    apply accept_tx_ok in H as (id' & Hid' & Hnone & Hacc). assert (id' = id) as -> by congruence.
    rewrite D2, <- D1 in *. by rewrite Hnone.
Qed.
End Facts.

(** ** Results are stored once and acknowledged afterwards *)

Section Safety.
Context (uuid_in : string -> option string) {P : Primitives}.
Context {O : Type} (PullResult : Z -> O -> res ResultDelivery * O).
Context (AcknowledgeResult : ResultDelivery -> O -> res () * O).

(** [y] is the uuid the text [x] spells. *)
Definition spells (x y : string) : Prop := x = y \/ uuid_in x = Some y.

Definition holds_result (h : HealthCheck) (result : Result) : Prop :=
  hex_encode (hc_snapshot_hash h) = r_SnapshotHash result /\
  spells (r_AttemptID result) (hc_execution_attempt_id h) /\ spells (r_ResultID result) (hc_result_id h).

Lemma same_result_holds h result : same_result h result = true -> holds_result h result.
Proof.
  unfold same_result, holds_result, spells. rewrite !andb_true_iff, !String.eqb_eq. intros [[-> ->] ->]. auto.
Qed.

Lemma answers_snapshot job now result :
  answers job now result = true -> hex_encode (cj_snapshot_hash job) = r_SnapshotHash result.
Proof. unfold answers. rewrite !andb_true_iff, !String.eqb_eq. by intros [[[[[_ ->] _] _] _] _]. Qed.

(** What one call did to the tables and to the queue. *)
Inductive consumed (now : Z) (w w' : World DB O) : Prop :=
| con_nothing : w_db w' = w_db w ->
    (w_ext w' = w_ext w \/ w_ext w' = (PullResult (20 * second) (w_ext w)).2) -> consumed now w w'
| con_done delivery o result id job :
    PullResult (20 * second) (w_ext w) = (Ok delivery, o) ->
    checked uuid_in now (rd_Body delivery) result id job (w_db w) ->
    match health_checks (w_db w) !! id with
    | Some h =>
        if same_result h result then w_db w' = repair id (w_db w)
        else health_checks (w_db w') = health_checks (w_db w) /\ conflict_recorded uuid_in result (w_db w') /\
             check_jobs (w_db w') = check_jobs (w_db w)
    | None => accepted uuid_in job result id (w_db w) (w_db w')
    end ->
    w_ext w' = o \/ w_ext w' = (AcknowledgeResult delivery o).2 -> consumed now w w'.

Lemma ConsumeNext_consumed sealer nonce t now evaluatedAt w r w' :
  ConsumeNext uuid_in PullResult AcknowledgeResult sealer nonce t now evaluatedAt w = (r, w') -> consumed now w w'.
Proof.
  unfold ConsumeNext. intros H. unfold mbind at 1, SE_bind at 1 in H.
  destruct (databaseReady t w) as [r0 w0] eqn:E0.
  assert (w_db w0 = w_db w /\ w_ext w0 = w_ext w) as [D0 X0].
  { unfold databaseReady in E0. split; [|by eapply with_tx_ext].
    apply with_tx_db in E0 as [?|(fs & a & s & Hb & _)]; [done|].
    apply bind_ok in Hb as (one & s1 & _ & Hb). by apply ret_ok in Hb as [? _]. }
  destruct r0 as [[]|e]; [|by injection H as _ <-; apply con_nothing; auto..].
  cbn [negb] in H. unfold mbind at 1, SE_bind at 1, try_, external in H.
  destruct (PullResult (20 * second) (w_ext w0)) as [rp o] eqn:Ep. cbn [fst snd] in H. rewrite X0 in Ep.
  set (w1 := mkWorld (w_db w0) o (w_uuid w0) (w_next w0) (w_faults w0)) in H.
  assert (forall v, w_db v = w_db w0 -> w_ext v = o -> consumed now w v) as Hnone.
  { intros v Hv Hx. apply con_nothing; [congruence|]. right. by rewrite Ep. }
  destruct rp as [delivery|e]; [|destruct e; injection H as _ <-; by apply Hnone].
  destruct (PeekResult (rd_Body delivery)) as [peeked|] eqn:Epk; [|injection H as _ <-; by apply Hnone].
  destruct (attributes_match _ _); [|injection H as _ <-; by apply Hnone]. cbn [negb] in H.
  unfold mbind at 1, SE_bind at 1 in H. destruct (with_tx t _ w1) as [r2 w2] eqn:E2.
  assert ((w_db w2 = w_db w1 /\ forall u, r2 <> Ok u) \/ exists id job, checked uuid_in now (rd_Body delivery) peeked id job (w_db w) /\
    match health_checks (w_db w) !! id with
    | Some h => if same_result h peeked then w_db w2 = repair id (w_db w)
        else health_checks (w_db w2) = health_checks (w_db w) /\ conflict_recorded uuid_in peeked (w_db w2) /\
             check_jobs (w_db w2) = check_jobs (w_db w)
    | None => accepted uuid_in job peeked id (w_db w) (w_db w2)
    end) as Hcase.
  { assert (w_db w1 = w_db w) as Dw1 by done. destruct r2 as [u|e].
    - apply with_tx_ok in E2 as (_ & fs & s & [(Hb & Ha & Dw)|(Hb & Dw)]).
      + apply consume_tx_ok in Hb as (id & job & Hc & Hm); [|done|done]. right. exists id, job.
        cbn [tx_db] in Hc, Hm. rewrite Dw1 in Hc, Hm. by rewrite Dw.
      + exfalso. clear -Hb. unfold consume_tx in Hb. apply bind_ok in Hb as (row & s1 & _ & Hb).
        destruct row as [[job key]|e]; [|by destruct e]. destruct (VerifyResult _ _); [|done]. destruct (negb _); [done|].
        apply bind_ok in Hb as (ex & s2 & _ & Hb). destruct ex as [h|e].
        * destruct (negb _).
          -- unfold conflict_tx in Hb. repeat (apply bind_ok in Hb as (? & ? & _ & Hb)). by apply ret_ok in Hb as [? _].
          -- apply bind_ok in Hb as (? & ? & _ & Hb). by apply ret_ok in Hb as [? _].
        * destruct e; try done. unfold accept_tx in Hb. repeat (apply bind_ok in Hb as (? & ? & _ & Hb)).
          by apply ret_ok in Hb as [? _].
    - apply with_tx_all_or_nothing in E2 as [Dw|(fs & a & s & _ & Hb & Ha & Dw)]; [by left|].
      apply consume_tx_ok in Hb as (id & job & Hc & Hm); [|done|done]. right. exists id, job.
      cbn [tx_db] in Hc, Hm. rewrite Dw1 in Hc, Hm. by rewrite Dw. }
  assert (w_ext w2 = o) as X2 by (by apply with_tx_ext in E2).
  assert (w_db w' = w_db w2 /\ (w_ext w' = o \/ (exists u, r2 = Ok u) /\ w_ext w' = (AcknowledgeResult delivery o).2)) as [Dw' Xw'].
  { destruct r2 as [u|e]; [|injection H as _ <-; auto]. unfold mbind, SE_bind, external in H. rewrite X2 in H.
    destruct (AcknowledgeResult delivery o) as [[a|e] o'] eqn:Ea; injection H as _ <-; simpl; eauto. }
  destruct Hcase as [[Dw Hn]|(id & job & Hc & Hm)].
  - destruct Xw' as [X|[[u Hu] _]]; [|by destruct (Hn u)]. apply Hnone; [by rewrite Dw', Dw|done].
  - eapply con_done; [exact Ep|exact Hc| |]; [by rewrite Dw'|]. destruct Xw' as [?|[_ ?]]; auto.
Qed.

(** C2: whatever fails on the way, a call of [ConsumeNext] never changes or removes an
    accepted check; the only check it may add is for the job of a result it pulled
    whose signature verifies under a key of the job's own worker pool and whose pool,
    snapshot and slot are the job's; and it acknowledges a delivery only when the
    database holds that very result for the job, or holds another one and has the
    delivery recorded as a conflict and in quarantine. *)
Theorem ConsumeNext_safe sealer nonce t now evaluatedAt w r w' :
  ConsumeNext uuid_in PullResult AcknowledgeResult sealer nonce t now evaluatedAt w = (r, w') ->
  health_checks (w_db w) ⊆ health_checks (w_db w') /\
  (forall id h, health_checks (w_db w) !! id = None -> health_checks (w_db w') !! id = Some h ->
     exists delivery result job rid attempt, (PullResult (20 * second) (w_ext w)).1 = Ok delivery /\
       checked uuid_in now (rd_Body delivery) result id job (w_db w) /\ h = check_of result rid attempt job) /\
  (w_ext w' = w_ext w \/ w_ext w' = (PullResult (20 * second) (w_ext w)).2 \/
   exists delivery o result id job h, PullResult (20 * second) (w_ext w) = (Ok delivery, o) /\
     w_ext w' = (AcknowledgeResult delivery o).2 /\ checked uuid_in now (rd_Body delivery) result id job (w_db w) /\
     health_checks (w_db w') !! id = Some h /\
     (holds_result h result \/ conflict_recorded uuid_in result (w_db w'))).
Proof.
  intros H%ConsumeNext_consumed. destruct H as [Hd Hx|delivery o result id job Hp Hc Hm Hx].
  { rewrite Hd. split; [done|]. split; [congruence|]. destruct Hx; auto. }
  rewrite Hp. cbn [fst snd]. pose proof Hc as (Hid & key & Hj & Hv & Ha).
  destruct (health_checks (w_db w) !! id) as [h|] eqn:Eh.
  - assert (health_checks (w_db w') = health_checks (w_db w)) as Eq.
    { destruct (same_result h result); [by rewrite Hm|tauto]. }
    rewrite Eq. split; [done|]. split; [congruence|]. destruct Hx as [?|Hx]; [auto|]. right. right.
    exists delivery, o, result, id, job, h. repeat (split; [done|]).
    destruct (same_result h result) eqn:Es; [left; by apply same_result_holds|tauto].
  - destruct Hm as [(rid & att & Hrid & Hatt & _ & Eq) _ _ _ _]. rewrite Eq.
    split; [by apply insert_subseteq|]. split.
    + intros id' h' Hn [[<- <-]|[_ Hh]]%lookup_insert_Some; [|congruence]. by exists delivery, result, job, rid, att.
    + destruct Hx as [?|Hx]; [auto|]. right. right. exists delivery, o, result, id, job. eexists. repeat (split; [done|]).
      rewrite lookup_insert_eq. split; [done|]. left. unfold holds_result, spells. simpl.
      rewrite (answers_snapshot job now result Ha). auto.
Qed.
End Safety.

(** ** A result that comes again *)

Section Redelivery.
Context (uuid_in : string -> option string) {P : Primitives}.
Context {O : Type} (PullResult : Z -> O -> res ResultDelivery * O).
Context (AcknowledgeResult : ResultDelivery -> O -> res () * O).

Lemma consume_tx_run sealer nonce now evaluatedAt body result id job h s :
  quiet s -> PeekResult body = Ok result -> checked uuid_in now body result id job (tx_db s) ->
  health_checks (tx_db s) !! id = Some h ->
  consume_tx uuid_in sealer nonce now evaluatedAt body result s =
    if same_result h result then (Ok (Commit ()), set_tx_db (repair id (tx_db s)) s)
    else conflict_tx uuid_in sealer nonce body job result s.
Proof.
  intros Hq Hp (Hid & key & Hj & Hv & Ha) Hh. unfold consume_tx, LockResultCheckJob, GetAcceptedHealthCheck.
  unfold mbind at 1, SE_bind at 1, try_ at 1.
  erewrite sql_quiet; [|exact Hq|unfold cast; rewrite Hid, Hj; reflexivity]. rewrite set_tx_db_id. cbn [fst snd].
  rewrite Hv, Ha. cbn [negb]. unfold mbind at 1, SE_bind at 1, try_ at 1.
  erewrite sql_quiet; [|exact Hq|unfold cast; rewrite Hid, Hh; reflexivity]. rewrite set_tx_db_id. cbn [fst snd].
  destruct (same_result h result); [|done]. cbn [negb].
  unfold ignore, MarkDispatchRepaired, mbind, SE_bind, try_.
  erewrite sql_quiet; [|exact Hq|unfold cast; rewrite Hid; reflexivity]. done.
Qed.

(** The call up to its transaction. *)
Lemma ConsumeNext_run sealer nonce t now evaluatedAt (w : World DB O) delivery o result :
  w_faults w = [] -> PullResult (20 * second) (w_ext w) = (Ok delivery, o) ->
  PeekResult (rd_Body delivery) = Ok result -> attributes_match result (rd_Attributes delivery) = true ->
  ConsumeNext uuid_in PullResult AcknowledgeResult sealer nonce t now evaluatedAt w =
    (_ ← with_tx t (consume_tx uuid_in sealer nonce now evaluatedAt (rd_Body delivery) result);
     _ ← external (AcknowledgeResult delivery);
     mret true) (mkWorld (w_db w) o (w_uuid w) (w_next w) []).
Proof.
  intros Hf Hp Hk Ha. destruct w as [d x u n fs]. simpl in *. subst fs.
  unfold ConsumeNext. unfold mbind at 1, SE_bind at 1, databaseReady, with_tx at 1. simpl.
  unfold mbind at 1, SE_bind at 1, try_.
  assert (external (PullResult (20 * second)) (mkWorld d x u n []) = (Ok delivery, mkWorld d o u n [])) as ->
    by (unfold external; simpl; by rewrite Hp).
  cbn [fst snd]. by rewrite Hk, Ha.
Qed.

(** A result that was accepted and is delivered again (its acknowledgement was
    lost) changes no check, state, evaluation, incident, gap or rollup: only the
    dispatch of its job is marked repaired, and the delivery is acknowledged. *)
Theorem redelivery_idempotent sealer nonce t now evaluatedAt (w : World DB O) delivery o result id job h :
  w_faults w = [] -> PullResult (20 * second) (w_ext w) = (Ok delivery, o) ->
  PeekResult (rd_Body delivery) = Ok result -> attributes_match result (rd_Attributes delivery) = true ->
  checked uuid_in now (rd_Body delivery) result id job (w_db w) ->
  health_checks (w_db w) !! id = Some h -> same_result h result = true ->
  ConsumeNext uuid_in PullResult AcknowledgeResult sealer nonce t now evaluatedAt w =
    (match (AcknowledgeResult delivery o).1 with Ok _ => Ok true | Err e => Err e end,
     mkWorld (repair id (w_db w)) (AcknowledgeResult delivery o).2 (w_uuid w) (w_next w) []).
Proof.
  intros Hf Hp Hk Ha Hc Hh Hs. rewrite (ConsumeNext_run _ _ _ _ _ _ delivery o result) by done.
  unfold mbind, SE_bind. erewrite with_tx_run; [|done| |].
  2: { erewrite consume_tx_run; [|done|done|exact Hc|exact Hh]. by rewrite Hs. }
  2: done.
  simpl. unfold external. simpl. by destruct (AcknowledgeResult delivery o) as [[]].
Qed.

(** A conflicting result whose quarantine row is already there (its first delivery
    was recorded and the acknowledgement was lost) can never be consumed: the insert
    into quarantine has no conflict clause, so it violates the unique index, the
    dropped error leaves the transaction aborted and the commit fails; nothing is
    recorded and the delivery is not acknowledged, time after time. *)
Theorem redelivered_conflict_stuck key nonce t now evaluatedAt (w : World DB O) delivery o result id job h result_id sealed :
  w_faults w = [] -> PullResult (20 * second) (w_ext w) = (Ok delivery, o) ->
  PeekResult (rd_Body delivery) = Ok result -> attributes_match result (rd_Attributes delivery) = true ->
  checked uuid_in now (rd_Body delivery) result id job (w_db w) ->
  health_checks (w_db w) !! id = Some h -> same_result h result = false ->
  Quarantine.Seal (Some key) nonce (rd_Body delivery) ("result:" +:+ r_ResultID result) = Ok sealed ->
  uuid_in (r_ResultID result) = Some result_id -> quarantined result_id (w_db w) ->
  ConsumeNext uuid_in PullResult AcknowledgeResult (Some key) nonce t now evaluatedAt w =
    (Err ErrTxAborted, mkWorld (w_db w) o (w_uuid w) (w_next w) []).
Proof.
  intros Hf Hp Hk Ha Hc Hh Hs Hse Hrid Hq. rewrite (ConsumeNext_run _ _ _ _ _ _ delivery o result) by done.
  unfold mbind, SE_bind, with_tx. cbn [w_faults next_fault w_db w_uuid w_next w_ext].
  erewrite consume_tx_run; [|done|done|exact Hc|exact Hh]. rewrite Hs.
  pose proof Hc as (Hid & _). set (s := mkTx (w_db w) t false (w_uuid w) (w_next w) []).
  set (d1 := match conflicts (w_db w) !! result_id with
             | Some _ => w_db w
             | None => on_conflicts <[result_id := mkConflict id (cj_worker_pool_id job) (cj_snapshot_hash job) sealed]> (w_db w)
             end).
  assert (conflict_tx uuid_in (Some key) nonce (rd_Body delivery) job result s =
    (Ok (Commit ()), mkTx d1 t true (w_uuid w) (w_next w) [])) as ->.
  { unfold conflict_tx. rewrite Hse. unfold mbind, SE_bind, of_res. unfold InsertResultConflict, ignore, try_, mbind, SE_bind.
    erewrite (sql_quiet _ s () d1); [|done|].
    2: { unfold cast. rewrite Hid, Hrid. unfold d1. simpl. by destruct (conflicts (w_db w) !! result_id). }
    cbn [fst snd mret SE_ret]. unfold InsertConflictingResultQuarantine.
    erewrite (sql_quiet_err _ (set_tx_db d1 s)); [|done| |].
    2: { unfold cast. rewrite Hid, Hrid. rewrite decide_True; [reflexivity|].
         unfold quarantined, d1 in *. simpl. by destruct (conflicts (w_db w) !! result_id). }
    2: done.
    cbn [fst snd mret SE_ret]. unfold InsertMonitoringOperationalEvent, update. by rewrite sql_aborted. }
  done.
Qed.
End Redelivery.

(** ** Accepting a result converges *)

Section Acceptance.
Context (uuid_in : string -> option string) {P : Primitives}.

Lemma elem_of_scheduled m d x :
  x ∈ scheduled_checks m d <-> exists id h, health_checks d !! id = Some h /\ hc_monitor_id h = m /\
    hc_job_type h = Scheduled /\ x = ((hc_scheduled_at h, id), hc_succeeded h).
Proof.
  unfold scheduled_checks. rewrite list_elem_of_fmap. split.
  - intros ([id h] & -> & [[Hm Hs] Hin]%list_elem_of_filter). apply elem_of_map_to_list in Hin. by exists id, h.
  - intros (id & h & Hh & Hm & Hs & ->). exists (id, h). split; [done|].
    apply list_elem_of_filter. split; [done|]. by apply elem_of_map_to_list.
Qed.

(** The tables that the evaluation of a monitor reads and writes. *)
Lemma synced_elsewhere fl rl m E d d' :
  evaluations d' = evaluations d -> reliability_states d' = reliability_states d ->
  synced fl rl m E d -> synced fl rl m E d'.
Proof.
  intros E1 E2 [H1 H2 H3 H4]. constructor; [done|done| |by rewrite E2].
  unfold evaluations_of in *. by rewrite E1.
Qed.

Lemma evals_fk_frame d d' :
  evaluations d' = evaluations d -> health_checks d ⊆ health_checks d' -> evals_fk d -> evals_fk d'.
Proof.
  intros E1 Hs Hfk id e. rewrite E1. intros He. destruct (Hfk id e He) as [h Hh]. exists h.
  destruct Hh as [Hl Hr]. split; [by eapply lookup_weaken|done].
Qed.

(** The tables when evaluation starts. *)
Definition before_evaluation (job : CheckJob) (id : string) (h : HealthCheck) (completed : CheckJob -> CheckJob)
    (d : DB) : DB :=
  on_coverage_gaps (filter (fun x => recovered (cj_monitor_id job) (cj_scheduled_at job) x.1 = false))
    (repair id (on_check_jobs (alter completed id) (on_health_checks <[id := h]> d))).

(** A new scheduled check of a monitor, seen from the evaluation. *)
Lemma scheduled_before m job id result rid att c d :
  cj_monitor_id job = m -> cj_job_type job = Scheduled -> health_checks d !! id = None ->
  let d' := before_evaluation job id (check_of result rid att job) c d in
  let k := (cj_scheduled_at job, id) in
  (forall x, x ∈ scheduled_checks m d -> x ∈ scheduled_checks m d') /\
  (forall x, x ∈ scheduled_checks m d' -> x = (k, r_Succeeded result) \/ x ∈ scheduled_checks m d) /\
  (k, r_Succeeded result) ∈ scheduled_checks m d'.
Proof.
  intros Hm Ht Hn d' k. assert (health_checks d' = <[id := check_of result rid att job]> (health_checks d)) as E by done.
  split; [|split].
  - intros x (i & h & Hh & Hx)%elem_of_scheduled. apply elem_of_scheduled. exists i, h. split; [|done].
    rewrite E, lookup_insert_ne; [done|]. congruence.
  - intros x (i & h & Hh & Hmh & Hj & ->)%elem_of_scheduled. rewrite E in Hh.
    apply lookup_insert_Some in Hh as [[<- <-]|[_ Hh]]; [by left|right]. apply elem_of_scheduled. by exists i, h.
  - apply elem_of_scheduled. exists id, (check_of result rid att job). by rewrite E, lookup_insert_eq.
Qed.

(** What is known after an acceptance within the correction window. *)
Record converged (fl rl : Z) (m : string) (d d' : DB) (x : slot_key * bool) : Prop := {
  cv_checks : forall y, y ∈ scheduled_checks m d' <-> y = x \/ y ∈ scheduled_checks m d;
  cv_synced : synced fl rl m (order_by_key (scheduled_checks m d')) d';
  cv_fk : evals_fk d';
  cv_limits : limits_of m d' = (fl, rl);
  cv_incidents : incident_inv d';
  cv_tracks : forall ruleID rule observed, rule_row m d' = Some (ruleID, rule, observed) ->
    (observed = Down -> map_Exists (fun _ r => is_open m ruleID r) (incidents d')) /\
    (observed = Healthy -> ~ map_Exists (fun _ r => is_open m ruleID r) (incidents d'))
}.

Lemma evaluate_accepted_converges fl rl job result evaluatedAt rid att c d s u s' :
  let m := cj_monitor_id job in let id := r_JobID result in
  1 <= fl <= 20 -> 1 <= rl <= 20 ->
  cj_job_type job = Scheduled -> health_checks d !! id = None ->
  evaluatedAt <= cj_expires_at job + 10 * minute ->
  limits_of m d = (fl, rl) -> evals_fk d -> synced fl rl m (order_by_key (scheduled_checks m d)) d -> incident_inv d ->
  tx_db s = before_evaluation job id (check_of result rid att job) c d ->
  evaluate_accepted job result evaluatedAt s = (Ok u, s') ->
  converged fl rl m d (tx_db s') ((cj_scheduled_at job, id), r_Succeeded result).
Proof.
  intros m id Hfl Hrl Ht Hn Hw Hlim Hfk Hsy Hi Ds H.
  destruct (scheduled_before m job id result rid att c d eq_refl Ht Hn) as (S1 & S2 & S3). rewrite <- Ds in S1, S2, S3.
  unfold evaluate_accepted in H. fold m in H.
  assert (after evaluatedAt (time_add (cj_expires_at job) (10 * minute)) = false) as Hl.
  { unfold after, time_add. apply Z.ltb_ge. lia. }
  rewrite Hl in H. cbn [negb] in H.
  apply bind_ok in H as (corr & s1 & H1 & H). unfold EvaluateAcceptedTx, correctionWindow in H1. rewrite Hl in H1.
  pose proof (evaluateTx_frame (tx_db s) m (Some (cj_scheduled_at job, r_JobID result)) evaluatedAt s (evaluation_frame_refl _)) as F1.
  rewrite H1 in F1. destruct F1 as (a1 & b1 & c1 & e1 & F1).
  set (E := order_by_key (scheduled_checks m d)) in *.
  assert (forall x, x ∈ E <-> x ∈ scheduled_checks m d) as HE by (intros x; unfold E; by rewrite order_perm).
  assert (synced fl rl m E (tx_db s)) as Hsy0 by (eapply synced_elsewhere; [..|exact Hsy]; by rewrite Ds).
  assert (evals_fk (tx_db s)) as Hfk0.
  { eapply evals_fk_frame; [..|exact Hfk]; rewrite Ds; [done|]. by apply insert_subseteq. }
  assert (limits_of m (tx_db s) = (fl, rl)) as Hlim0 by (by rewrite Ds).
  apply (evaluateTx_synced fl rl m ltac:(lia) Hrl E) in H1 as (Hsy1 & Hfk1 & _ & Hh1); [|done..].
  rewrite (evaluated_after_all fl rl m E) in Hsy1; [|done|..].
  2: { intros x Hx%HE. rewrite order_perm. by apply S1. }
  2: { intros x Hx. rewrite order_perm in Hx. apply S2 in Hx as [->|Hx]; [by left|right; by apply HE]. }
  assert (incident_inv (tx_db s1)) as Hi1 by (eapply inv_frame; [..|exact Hi]; by rewrite F1, Ds).
  apply bind_ok in H as ([] & s2 & H2 & H).
  pose proof (ApplyEvaluationTx_tracks _ _ _ _ _ _ H2 Hi1) as (Hi2 & _ & Htr).
  pose proof (ApplyEvaluationTx_frame (tx_db s1) m (r_JobID result) corr evaluatedAt s1 (incident_frame_refl _)) as F2.
  pose proof (ApplyEvaluationTx_limits (limits_of m (tx_db s1)) m (r_JobID result) corr evaluatedAt s1 eq_refl) as L2.
  rewrite H2 in F2, L2. destruct F2 as (a2 & b2 & c2 & e2 & f2 & F2). unfold tx_inv in L2.
  assert (same_rest (tx_db s2) (tx_db s') /\ incidents (tx_db s') = incidents (tx_db s2) /\
    incident_events (tx_db s') = incident_events (tx_db s2)) as (Hr & Ei & Ee).
  { apply bind_ok in H as ([] & s3 & H3 & H). apply bind_ok in H as (? & s4 & H4 & H).
    apply update_ok in H4 as [D4 _]. apply update_ok in H as [D5 _]. rewrite D5, D4.
    destruct (corr || false); [apply update_ok in H3 as [D3 _]; rewrite D3|apply ret_ok in H3 as [_ <-]];
      (split; [by constructor|done]). }
  pose proof Hr as [R1 R2 _ _ R5 R6 _].
  assert (health_checks (tx_db s') = health_checks (tx_db s)) as Eh by (rewrite R5, F2; by rewrite <- Hh1).
  assert (scheduled_checks m (tx_db s') = scheduled_checks m (tx_db s)) as Esc by (unfold scheduled_checks; by rewrite Eh).
  constructor.
  - intros y. rewrite Esc. split; [apply S2|]. intros [->|Hy]; auto.
  - rewrite Esc. eapply synced_elsewhere; [..|exact Hsy1]; rewrite ?R6, ?R2; by rewrite F2.
  - eapply evals_fk_frame; [..|exact Hfk1]; [rewrite R6; by rewrite F2|by rewrite Eh, Hh1].
  - unfold limits_of, enabled_rule. rewrite R1. fold (enabled_rule m (tx_db s2)). fold (limits_of m (tx_db s2)).
    rewrite L2, F1. exact Hlim0.
  - by eapply inv_frame; [..|exact Hi2].
  - intros ruleID rule observed E2. unfold rule_row, enabled_rule in E2. rewrite R1, R2 in E2.
    fold (enabled_rule m (tx_db s2)) in E2. fold (rule_row m (tx_db s2)) in E2. rewrite E2 in Htr. rewrite Ei.
    split; by intros ->.
Qed.

(** A statement that cannot fail and writes none of the tables [fresh_ids] looks at. *)
Lemma runs_plain {A} (q : Z -> DB -> res A * DB) :
  (forall now d, exists a d', q now d = (Ok a, d') /\ alert_rules d' = alert_rules d /\ incidents d' = incidents d /\
     incident_events d' = incident_events d /\ notification_outbox d' = notification_outbox d) -> runs (sql q).
Proof.
  intros Hq s Hs. destruct (Hq (tx_now s) (tx_db s)) as (a & d & E & E1 & E2 & E3 & E4).
  exists a, (set_tx_db d s). apply runs_sql; [done|done|]. eapply fresh_frame; [apply Hs|done..].
Qed.

Lemma evaluate_accepted_runs job result evaluatedAt s :
  good s -> is_Some (monitors (tx_db s) !! cj_monitor_id job) ->
  map_Forall (fun _ r => 1 <= ar_failure_threshold r <= 20) (alert_rules (tx_db s)) ->
  exists s', evaluate_accepted job result evaluatedAt s = (Ok (), s') /\ good s'.
Proof.
  intros Hg Hm Hth. unfold evaluate_accepted. set (m := cj_monitor_id job) in *.
  assert (exists c s1, EvaluateAcceptedTx m (r_JobID result) (cj_scheduled_at job) (cj_expires_at job) evaluatedAt s =
    (Ok c, s1) /\ good s1 /\ alert_rules (tx_db s1) = alert_rules (tx_db s)) as (c & s1 & E1 & Hg1 & Er1).
  { unfold EvaluateAcceptedTx. destruct (after _ _); [by exists false, s|].
    destruct (evaluateTx_returns m (Some (cj_scheduled_at job, r_JobID result)) evaluatedAt s (proj1 Hg) Hm) as (c & s1 & E & Hq).
    exists c, s1. split; [done|].
    pose proof (evaluateTx_frame (tx_db s) m (Some (cj_scheduled_at job, r_JobID result)) evaluatedAt s (evaluation_frame_refl _)) as F.
    pose proof (evaluateTx_ids (tx_uuid s) (tx_next s) m (Some (cj_scheduled_at job, r_JobID result)) evaluatedAt s (conj eq_refl eq_refl)) as I.
    rewrite E in F, I. destruct F as (? & ? & ? & ? & F). destruct I as [I1 I2]. split; [|by rewrite F]. split; [done|].
    rewrite I1, I2. eapply fresh_frame; [apply Hg|by rewrite F..]. }
  unfold mbind at 1, SE_bind at 1. rewrite E1.
  set (late := after evaluatedAt _).
  assert (exists s2, (if negb late then ApplyEvaluationTx m (r_JobID result) c evaluatedAt else mret ()) s1 = (Ok (), s2) /\ good s2)
    as (s2 & E2 & Hg2).
  { destruct late; [by exists s1|]. apply ApplyEvaluationTx_runs; [done|by rewrite Er1]. }
  unfold mbind at 1, SE_bind at 1. rewrite E2.
  assert (forall (k : Tx DB ()), runs k -> exists s', k s2 = (Ok (), s') /\ good s') as Hrun.
  { intros k Hk. destruct (Hk s2 Hg2) as ([] & s5 & E5 & H5). by eexists. }
  apply Hrun. apply runs_bind; [destruct (c || late); [|apply runs_ret]; apply runs_plain; by eexists _, _|intros _].
  apply runs_bind; [|intros _]; apply runs_plain; by eexists _, _.
Qed.

Lemma accept_tx_runs job result evaluatedAt rid att s :
  good s -> is_Some (monitors (tx_db s) !! cj_monitor_id job) ->
  map_Forall (fun _ r => 1 <= ar_failure_threshold r <= 20) (alert_rules (tx_db s)) ->
  uuid_in (r_JobID result) = Some (r_JobID result) -> uuid_in (r_ResultID result) = Some rid ->
  uuid_in (r_AttemptID result) = Some att -> health_check_ok (check_of result rid att job) = true ->
  health_checks (tx_db s) !! r_JobID result = None ->
  ~ map_Exists (fun _ h => hc_result_id h = rid) (health_checks (tx_db s)) ->
  exists s4 c, tx_db s4 = before_evaluation job (r_JobID result) (check_of result rid att job) c (tx_db s) /\
  exists s5, (cj_job_type job = Scheduled -> evaluate_accepted job result evaluatedAt s4 = (Ok (), s5)) /\
  exists s', accept_tx uuid_in job result evaluatedAt s = (Ok (Commit ()), s') /\ good s' /\
    tx_db s' = on_refresh_events (fun l => l ++ [mkRefreshEvent (cj_organization_id job) (cj_environment_id job)
      "check.accepted" "check" (r_JobID result)]) (tx_db s5).
Proof.
  intros Hg Hm Hth Hid Hrid Hatt Hok Hn Hdup. unfold accept_tx. set (h := check_of result rid att job) in *.
  destruct (runs_sql (fun _ => cast uuid_in (r_JobID result) (fun id => cast uuid_in (r_ResultID result) (fun result_id =>
    cast uuid_in (r_AttemptID result) (fun attempt => insert_check result job id result_id attempt)))) s ()
    (on_health_checks <[r_JobID result := h]> (tx_db s)) Hg) as [E1 Hg1].
  { unfold cast, insert_check. rewrite Hid, Hrid, Hatt. fold h. rewrite Hok. cbn [negb].
    rewrite decide_False; [done|]. intros [[x Hx]|Hx]; [congruence|done]. }
  { eapply fresh_frame; [apply Hg|done..]. }
  unfold mbind at 1, SE_bind at 1, InsertAcceptedHealthCheck. rewrite E1. set (s1 := set_tx_db _ s) in *.
  set (c := set_job_completed (r_StartedAt result) (r_CompletedAt result) (r_WorkerID result) att).
  destruct (runs_sql (fun _ => cast uuid_in (r_AttemptID result) (fun attempt => cast uuid_in (r_JobID result) (fun id d =>
    (Ok (), on_check_jobs (alter (set_job_completed (r_StartedAt result) (r_CompletedAt result) (r_WorkerID result) attempt) id) d))))
    s1 () (on_check_jobs (alter c (r_JobID result)) (tx_db s1)) Hg1) as [E2 Hg2].
  { unfold cast. by rewrite Hid, Hatt. }
  { eapply fresh_frame; [apply Hg1|done..]. }
  unfold mbind at 1, SE_bind at 1, CompleteCheckJob. rewrite E2. set (s2 := set_tx_db _ s1) in *.
  destruct (runs_sql (fun _ => cast uuid_in (r_JobID result) (fun id d => (Ok (), repair id d))) s2 ()
    (repair (r_JobID result) (tx_db s2)) Hg2) as [E3 Hg3].
  { unfold cast. by rewrite Hid. }
  { eapply fresh_frame; [apply Hg2|done..]. }
  unfold mbind at 1, SE_bind at 1, MarkDispatchRepaired. rewrite E3. set (s3 := set_tx_db _ s2) in *.
  edestruct (runs_sql (fun _ d => (Ok (), on_coverage_gaps (filter (fun x => recovered (cj_monitor_id job) (cj_scheduled_at job) x.1 = false)) d))
    s3 ()) as [E4 Hg4]; [exact Hg3|reflexivity|eapply fresh_frame; [apply Hg3|done..]|].
  unfold mbind at 1, SE_bind at 1, DeleteRecoveredCoverageGaps, update. rewrite E4. set (s4 := set_tx_db _ s3) in *.
  exists s4, c. split; [done|].
  assert (exists s5, (if decide (cj_job_type job = Scheduled) then evaluate_accepted job result evaluatedAt else mret ()) s4
    = (Ok (), s5) /\ good s5) as (s5 & E5 & Hg5).
  { case_decide; [by apply evaluate_accepted_runs|by exists s4]. }
  exists s5. split; [intros Ht; by rewrite decide_True in E5|].
  unfold mbind at 1, SE_bind at 1. rewrite E5. unfold mbind, SE_bind, InsertAcceptedCheckRefreshEvent.
  edestruct (runs_sql (fun _ => cast uuid_in (r_JobID result) (fun id d => (Ok (), on_refresh_events (fun l => l ++
    [mkRefreshEvent (cj_organization_id job) (cj_environment_id job) "check.accepted" "check" id]) d))) s5 ()) as [E6 Hg6];
    [exact Hg5|unfold cast; rewrite Hid; reflexivity|eapply fresh_frame; [apply Hg5|done..]|].
  rewrite E6. eexists. split; [reflexivity|]. by split.
Qed.
End Acceptance.

(** What the acceptance of a result leaves of the job: the check with every figure of the
    result, under the identifiers and the slot of the job; the job completed; its dispatch
    settled; the rows of other jobs untouched. *)
Record stored (result : Result) (rid att : string) (job : CheckJob) (d d' : DB) : Prop := {
  sd_check : health_checks d' = <[r_JobID result := mkHealthCheck rid (cj_organization_id job) (cj_environment_id job)
    (cj_monitor_id job) (cj_job_type job) (cj_scheduled_at job) (r_StartedAt result) (r_CompletedAt result) (r_Succeeded result)
    (r_StatusCode result) (r_ErrorCategory result) (r_TotalMicros result) (cj_snapshot_hash job) (cj_worker_pool_id job)
    (r_WorkerID result) att (r_DNSMicros result) (r_ConnectMicros result) (r_TLSMicros result) (r_FirstByteMicros result)]>
    (health_checks d);
  sd_job : exists j, check_jobs d' !! r_JobID result = Some j /\ cj_state j = JCompleted /\
    cj_monitor_id j = cj_monitor_id job /\ cj_scheduled_at j = cj_scheduled_at job /\
    cj_started_at j = Some (r_StartedAt result) /\ cj_completed_at j = Some (r_CompletedAt result) /\
    cj_worker_id j = Some (r_WorkerID result) /\ cj_execution_attempt_id j = Some att;
  sd_jobs : forall id, id <> r_JobID result -> check_jobs d' !! id = check_jobs d !! id;
  sd_dispatch : forall o, outbox d' !! r_JobID result = Some o -> ob_publish_state o = PPublished \/ ob_publish_state o = PRepaired;
  sd_dispatches : forall id, id <> r_JobID result -> outbox d' !! id = outbox d !! id
}.

Lemma accepted_stored uuid_in job result rid att key d d' :
  uuid_in (r_ResultID result) = Some rid -> uuid_in (r_AttemptID result) = Some att ->
  result_job (r_ResultKeyID result) (r_JobID result) d = Some (job, key) ->
  accepted uuid_in job result (r_JobID result) d d' -> stored result rid att job d d'.
Proof.
  intros Hr Ha Hj [(rid' & att' & Er & Ea & _ & Ec) _ _ Eo (att2 & Ea2 & Ej)].
  assert (rid' = rid) as -> by congruence. assert (att' = att) as -> by congruence. assert (att2 = att) as -> by congruence.
  constructor.
  - exact Ec.
  - unfold result_job in Hj. destruct (check_jobs d !! r_JobID result) as [j|] eqn:E; [|done].
    destruct (worker_pools d !! _); [|done]. injection Hj as -> _. rewrite Ej, lookup_alter_eq, E. by eexists.
  - intros id Hne. by rewrite Ej, lookup_alter_ne.
  - intros o. rewrite Eo. unfold repair. simpl. rewrite lookup_alter_eq. destruct (outbox d !! r_JobID result) as [o0|]; [|done].
    simpl. intros [= <-]. case_bool_decide; auto.
  - intros id Hne. rewrite Eo. unfold repair. simpl. by rewrite lookup_alter_ne.
Qed.

(** C1: a first result for a scheduled job, pulled before ten minutes past its deadline
    and with the database answering, is accepted and then acknowledged: the check is
    stored with every figure of the result, the job is completed and its dispatch settled
    ([stored]), and other jobs are untouched.  The checks of the monitor are the earlier ones and this one; its evaluations,
    observed state and counters are the replay of all of them in slot order, whatever
    order they came in; and the incidents track that state: a monitor that is down
    has an open incident, one that is healthy has none. *)
Theorem ConsumeNext_converges (uuid_in : string -> option string) {P : Primitives} {O : Type}
    (PullResult : Z -> O -> res ResultDelivery * O) (AcknowledgeResult : ResultDelivery -> O -> res () * O)
    fl rl sealer nonce t now evaluatedAt (w : World DB O) delivery o result job rid att :
  let m := cj_monitor_id job in
  w_faults w = [] -> fresh_ids (w_uuid w) (w_next w) (w_db w) ->
  PullResult (20 * second) (w_ext w) = (Ok delivery, o) -> PeekResult (rd_Body delivery) = Ok result ->
  attributes_match result (rd_Attributes delivery) = true ->
  checked uuid_in now (rd_Body delivery) result (r_JobID result) job (w_db w) -> cj_job_type job = Scheduled ->
  evaluatedAt <= cj_expires_at job + 10 * minute ->
  uuid_in (r_ResultID result) = Some rid -> uuid_in (r_AttemptID result) = Some att ->
  health_check_ok (check_of result rid att job) = true -> health_checks (w_db w) !! r_JobID result = None ->
  ~ map_Exists (fun _ h => hc_result_id h = rid) (health_checks (w_db w)) ->
  is_Some (monitors (w_db w) !! m) ->
  map_Forall (fun _ r => 1 <= ar_failure_threshold r <= 20) (alert_rules (w_db w)) ->
  1 <= fl <= 20 -> 1 <= rl <= 20 -> limits_of m (w_db w) = (fl, rl) -> evals_fk (w_db w) ->
  synced fl rl m (order_by_key (scheduled_checks m (w_db w))) (w_db w) -> incident_inv (w_db w) ->
  let '(r, w') := ConsumeNext uuid_in PullResult AcknowledgeResult sealer nonce t now evaluatedAt w in
  r = match (AcknowledgeResult delivery o).1 with Ok _ => Ok true | Err e => Err e end /\
  w_ext w' = (AcknowledgeResult delivery o).2 /\
  stored result rid att job (w_db w) (w_db w') /\
  converged fl rl m (w_db w) (w_db w') ((cj_scheduled_at job, r_JobID result), r_Succeeded result).
Proof.
  intros m Hf Hfr Hp Hk Ha Hc Ht Hw Hrid Hatt Hok Hn Hdup Hm Hth Hfl Hrl Hlim Hfk Hsy Hi.
  rewrite (ConsumeNext_run _ _ _ _ _ _ _ _ _ delivery o result) by done.
  pose proof Hc as (Hid & key & Hj & Hv & Han).
  set (s := mkTx (w_db w) t false (w_uuid w) (w_next w) []).
  assert (good s) as Hg by (by split).
  destruct (accept_tx_runs uuid_in job result evaluatedAt rid att s) as (s4 & c & D4 & s5 & E5 & s' & Ea & [Hq' _] & D'); [done..|].
  assert (consume_tx uuid_in sealer nonce now evaluatedAt (rd_Body delivery) result s = (Ok (Commit ()), s')) as Erun.
  { unfold consume_tx, LockResultCheckJob, GetAcceptedHealthCheck. unfold mbind at 1, SE_bind at 1, try_ at 1.
    erewrite (sql_quiet _ s); [|done|unfold cast; simpl; rewrite Hid, Hj; reflexivity]. change (set_tx_db (w_db w) s) with s. cbn [fst snd].
    rewrite Hv, Han. cbn [negb]. unfold mbind at 1, SE_bind at 1, try_ at 1.
    erewrite (sql_quiet_no_rows _ s); [|done|unfold cast; simpl; rewrite Hid, Hn; reflexivity]. cbn [fst snd]. exact Ea. }
  unfold mbind, SE_bind. erewrite with_tx_run; [|done|exact Erun|done]. cbn [w_ext w_uuid].
  unfold external. cbn [w_ext w_db w_uuid w_next w_faults].
  assert (converged fl rl m (w_db w) (tx_db s') ((cj_scheduled_at job, r_JobID result), r_Succeeded result)) as Hcv.
  { destruct (evaluate_accepted_converges fl rl job result evaluatedAt rid att c (w_db w) s4 () s5) as [C1 C2 C3 C4 C5 C6];
      [done..|by apply E5|]. rewrite D'. constructor; [exact C1|by eapply synced_elsewhere; [..|exact C2]|exact C3|exact C4|
        by eapply inv_frame; [..|exact C5]|exact C6]. }
  assert (stored result rid att job (w_db w) (tx_db s')) as Hst.
  { apply (consume_tx_ok uuid_in _ _ _ _ _ _ s) in Erun as (id & job' & (Hid' & key' & Hj' & _) & Hm'); [|done|apply Hq'].
    assert (id = r_JobID result) as -> by congruence. assert (job' = job) as -> by (cbn [tx_db s] in Hj'; congruence).
    cbn [tx_db s] in Hm'. rewrite Hn in Hm'. by eapply accepted_stored. }
  by destruct (AcknowledgeResult delivery o) as [[]].
Qed.

(** ** Witnesses *)
Module OneResult.
#[export] Existing Instance Toy.primitives.
Definition hash : bytes := Toy.rep 32 (byte_of 0).
Definition job (st : job_state) : CheckJob :=
  mkCheckJob "org" "env" "m" Scheduled st (100 * second) None None 0 1 "pool" hash (220 * second) None None None None.
Definition pool : WorkerPool :=
  mkWorkerPool true "active" 1 None None None 1 2 (Some "rk") (Some (Toy.rep 32 "k"%char)).
Definition monitor : Monitor := mkMonitor "org" "env" 1 "https://a.test" "GET" 60 10 200 299 0 "" None "pool" None None.
Definition db : DB :=
  on_monitors (fun _ => {["m" := monitor]}) (on_worker_pools (fun _ => {["pool" := pool]})
    (on_check_jobs (fun _ => {["j1" := job JPublished]}) empty_db)).
(** The same after another result was accepted for the job, and this one recorded. *)
Definition other : HealthCheck := check_of Toy.result "r0" "a0" (job JPublished).
Definition db_conflict : DB :=
  on_health_checks (fun _ => {["j1" := other]})
    (on_quarantine (fun _ => [mkQuarantined (Some "j1") (Some "r1") (Some "pool") (Some hash) "conflicting valid result" "x"]) db).
Definition db_accepted : DB :=
  on_health_checks (fun _ => {["j1" := check_of Toy.result "r1" "a1" (job JPublished)]}) db.
Definition delivery : ResultDelivery := mkResultDelivery "m" (ResultAttributes Toy.result) "receipt" 1.
(** A queue that always delivers the result and counts acknowledgements. *)
Definition pull (_ : Z) (n : nat) : res ResultDelivery * nat := (Ok delivery, n).
Definition ack (_ : ResultDelivery) (n : nat) : res () * nat := (Ok (), S n).
Definition world (d : DB) : World DB nat := mkWorld d 0%nat OneMonitor.ticks 0 [].

Lemma checked_here d :
  check_jobs d = {["j1" := job JPublished]} -> worker_pools d = {["pool" := pool]} -> credentials d = [] ->
  checked Some (110 * second) "m" Toy.result "j1" (job JPublished) d.
Proof.
  intros E1 E2 E3. split; [done|]. exists (Some (Toy.rep 32 "k"%char)). split; [|split; vm_compute; reflexivity].
  unfold result_job, result_public_key. rewrite E1, E2, E3. vm_compute. reflexivity.
Qed.
End OneResult.
Import OneResult.

Lemma ConsumeNext_safe_witness :
  let w' := (ConsumeNext Some OneResult.pull OneResult.ack None (Ok "") 0 (110 * second) (120 * second)
    (OneResult.world OneResult.db)).2 in
  health_checks OneResult.db ⊆ health_checks (w_db w').
Proof.
  apply (ConsumeNext_safe Some OneResult.pull OneResult.ack None (Ok "") 0 (110 * second) (120 * second)
    (OneResult.world OneResult.db) _ _ (surjective_pairing _)).
Defined.

Lemma redelivery_idempotent_witness :
  (ConsumeNext Some OneResult.pull OneResult.ack None (Ok "") 0 (110 * second) (120 * second)
    (OneResult.world OneResult.db_accepted)).1 = Ok true.
Proof.
  rewrite (redelivery_idempotent Some OneResult.pull OneResult.ack None (Ok "") 0 (110 * second) (120 * second)
    (OneResult.world OneResult.db_accepted) OneResult.delivery 0%nat Toy.result "j1" (OneResult.job JPublished)
    (check_of Toy.result "r1" "a1" (OneResult.job JPublished)));
    [reflexivity|reflexivity|reflexivity|vm_compute; reflexivity..| |vm_compute; reflexivity|vm_compute; reflexivity].
  by apply OneResult.checked_here.
Defined.

Lemma redelivered_conflict_stuck_witness :
  ConsumeNext Some OneResult.pull OneResult.ack (Some (Toy.rep 32 "q"%char)) (Ok (Toy.rep 12 "n"%char)) 0
    (110 * second) (120 * second) (OneResult.world OneResult.db_conflict)
  = (Err ErrTxAborted, OneResult.world OneResult.db_conflict).
Proof.
  apply (redelivered_conflict_stuck Some OneResult.pull OneResult.ack (Toy.rep 32 "q"%char) (Ok (Toy.rep 12 "n"%char)) 0
    (110 * second) (120 * second) (OneResult.world OneResult.db_conflict) OneResult.delivery 0%nat Toy.result "j1"
    (OneResult.job JPublished) OneResult.other "r1" (Toy.rep 12 "n"%char +:+ Toy.rep 16 "t"%char +:+ "m"));
    [reflexivity|reflexivity|vm_compute; reflexivity|vm_compute; reflexivity| |vm_compute; reflexivity..| |].
  - by apply OneResult.checked_here.
  - reflexivity.
  - by left.
Defined.

Lemma ConsumeNext_converges_witness :
  (ConsumeNext Some OneResult.pull OneResult.ack None (Ok "") 0 (110 * second) (120 * second)
    (OneResult.world OneResult.db)).1 = Ok true.
Proof.
  pose proof (ConsumeNext_converges Some OneResult.pull OneResult.ack 3 2 None (Ok "") 0 (110 * second) (120 * second)
    (OneResult.world OneResult.db) OneResult.delivery 0%nat Toy.result (OneResult.job JPublished) "r1" "a1") as H.
  destruct (ConsumeNext _ _ _ _ _ _ _ _ _) as [r w'].
  destruct H as [H _]; [..|exact H].
  - reflexivity.
  - constructor; [exact OneMonitor.ticks_inj|done..].
  - reflexivity.
  - vm_compute. reflexivity.
  - vm_compute. reflexivity.
  - by apply OneResult.checked_here.
  - reflexivity.
  - vm_compute. discriminate.
  - reflexivity.
  - reflexivity.
  - vm_compute. reflexivity.
  - reflexivity.
  - intros (i & h & Hh & _). change (health_checks (w_db (OneResult.world OneResult.db))) with
      (∅ : gmap string HealthCheck) in Hh. by rewrite lookup_empty in Hh.
  - exists OneResult.monitor. reflexivity.
  - apply map_Forall_empty.
  - lia.
  - lia.
  - vm_compute. reflexivity.
  - intros i e. change (evaluations (w_db (OneResult.world OneResult.db))) with (∅ : gmap string Evaluation).
    by rewrite lookup_empty.
  - constructor; [constructor|constructor|vm_compute; constructor|reflexivity].
  - by eapply inv_frame; [..|exact OneMonitor.one_monitor_inv].
Defined.
