(* ===== verification/Ledger.v ===== *)
(** * Ledger: the life of a check job

    Models internal/fifo/maintenance.go (deadline sweep, ledger cleanup, metrics) and
    internal/fifo/dlq.go (dead letter queues) with their queries, and shows that no
    part of the engine (scheduler, publisher, consumer, sweep, cleanup, dead letters)
    breaks what the ledger promises about answered jobs.

    The dead letter source is a parameter.  A foreign key without a clause is checked
    at the end of the statement.  [Seconds()] is taken as exact. *)

From stdpp Require Import base gmap list strings sorting.
From Stdlib Require Import ZArith Lia Ascii String.
From S2P Require Import Prelude Tx Store Bytes Envelope Sealing Scheduler Publisher Reliability.
From S2P Require Import Notification Authorization Incident Consumer.

(** ** The deadline sweep *)

Definition overdue (now : Z) (d : DB) (id : string) (j : CheckJob) : bool :=
  active (cj_state j) && (cj_expires_at j <? now) && is_none (health_checks d !! id).

Definition add_gap (reason : gap_reason) (j : CheckJob) (t : gmap (string * Z * gap_reason) CoverageGap) :
    gmap (string * Z * gap_reason) CoverageGap :=
  match t !! (cj_monitor_id j, cj_scheduled_at j, reason) with
  | Some _ => t
  | None => <[(cj_monitor_id j, cj_scheduled_at j, reason) :=
               mkCoverageGap (cj_organization_id j) (cj_environment_id j)]> t
  end.

Definition overdue_jobs (now : Z) (d : DB) : list (string * CheckJob) :=
  filter (fun x => overdue now d x.1 x.2 = true) (map_to_list (check_jobs d)).

Definition expire_overdue (now : Z) (d : DB) : gmap string CheckJob :=
  map_imap (fun id j => Some (if overdue now d id j then set_job_state JExpired (Some now) (Some "start_expired") j else j))
    (check_jobs d).

Definition sweep (now : Z) (d : DB) : DB :=
  on_coverage_gaps (fun t => foldr (fun x => add_gap GapExpired x.2) t (overdue_jobs now d))
    (on_check_jobs (fun _ => expire_overdue now d) d).

(** The statement counts the gaps it inserted. *)
Definition SweepExpiredCheckJobs : Tx DB Z := sql (fun now d =>
  (Ok (Z.of_nat (size (coverage_gaps (sweep now d))) - Z.of_nat (size (coverage_gaps d))), sweep now d)).

(** ** Cleanup *)

Definition deletable (completedBefore nonterminalBefore : Z) (j : CheckJob) : bool :=
  match cj_completed_at j with
  | Some t =>
      match cj_state j with
      | JCompleted => t <? completedBefore
      | JDead | JExpired | JCancelled | JQuarantined => t <? nonterminalBefore
      | _ => false
      end
  | None => false
  end.

(** Rows that refer to a job: accepted checks and conflicts, without a delete clause;
    its dispatch is deleted with it. *)
Definition referenced (d : DB) (id : string) : Prop :=
  is_Some (health_checks d !! id) \/ map_Exists (fun _ c => cf_job_id c = id) (conflicts d).
#[global] Instance referenced_dec d id : Decision (referenced d id).
Proof. unfold referenced. apply _. Defined.

Definition old_jobs (a b : Z) (d : DB) : list (string * CheckJob) :=
  filter (fun x => deletable a b x.2 = true) (map_to_list (check_jobs d)).

Definition DeleteOldLedgerJobs (completedBefore nonterminalBefore : Z) : Tx DB Z := sql (fun _ d =>
  let old := old_jobs completedBefore nonterminalBefore d in
  if decide (Exists (fun x => referenced d x.1) old) then (Err ErrForeignKeyViolation, d)
  else (Ok (Z.of_nat (Datatypes.length old)),
        on_check_jobs (fun t => foldr delete t old.*1) (on_outbox (fun t => foldr delete t old.*1) d))).

Section Maintenance.
Context {O : Type}.

Definition SweepDeadlines (started : Z) : SE (World DB O) Z :=
  with_tx started (count ← SweepExpiredCheckJobs; mret (Commit count)).

Definition CleanupLedger (started now : Z) : SE (World DB O) Z :=
  with_tx started (count ← DeleteOldLedgerJobs (time_add now (- (48 * hour))) (time_add now (- (7 * 24 * hour)));
                   mret (Commit count)).
End Maintenance.

(** ** Metrics *)

Record Metrics : Type := mkMetrics {
  PendingJobs : Z;
  PublishedJobs : Z;
  RunningJobs : Z;
  DeadJobs : Z;
  ExpiredJobs : Z;
  OutboxPending : Z;
  OutboxAmbiguous : Z;
  OldestOutboxAge : Z;
  OldestOutboxAgeSeconds : Z;
  OldestNonterminalJobAgeSeconds : Z
}.

Definition count_jobs (p : job_state -> bool) (d : DB) : Z :=
  Z.of_nat (Datatypes.length (filter (fun x => p (cj_state x.2) = true) (map_to_list (check_jobs d)))).
Definition count_outbox (p : publish_state -> bool) (d : DB) : Z :=
  Z.of_nat (Datatypes.length (filter (fun x => p (ob_publish_state x.2) = true) (map_to_list (outbox d)))).

Definition GetCheckJobStateCounts : Tx DB (Z * Z * Z * Z * Z) := select (fun _ d =>
  (count_jobs unpublished d, count_jobs (fun s => bool_decide (s = JPublished)) d,
   count_jobs (fun s => bool_decide (s = JRunning)) d, count_jobs (fun s => bool_decide (s = JDead)) d,
   count_jobs (fun s => bool_decide (s = JExpired)) d)).

Definition GetDispatchStateCounts : Tx DB (Z * Z) := select (fun _ d =>
  (count_outbox (fun s => bool_decide (s = PPending \/ s = PPublishing)) d,
   count_outbox (fun s => bool_decide (s = PAmbiguous)) d)).

Definition oldest (l : list Z) : option Z := head (merge_sort Z.le l).

Definition GetOldestNonterminalDispatch : Tx DB Z := select_one (fun _ d =>
  oldest ((fun x => ob_created_at x.2) <$> filter (fun x => ob_publish_state x.2 = PPending \/
    ob_publish_state x.2 = PPublishing \/ ob_publish_state x.2 = PAmbiguous) (map_to_list (outbox d)))).

Definition GetOldestActiveCheckJob : Tx DB Z := select_one (fun _ d =>
  oldest ((fun x => cj_created_at x.2) <$> filter (fun x => active (cj_state x.2) = true) (map_to_list (check_jobs d)))).

(** An error other than a missing row ends the function. *)
Definition optional {A} (m : Tx DB A) : Tx DB (option A) :=
  r ← try_ m;
  match r with
  | Ok a => mret (Some a)
  | Err ErrNoRows => mret None
  | Err e => throw e
  end.

Definition ReadMetrics {O} (started now : Z) : SE (World DB O) Metrics := with_tx started (
  jobs ← GetCheckJobStateCounts;
  dispatch ← GetDispatchStateCounts;
  let '(pending, published, running, dead, expired) := jobs in
  oldest ← optional GetOldestNonterminalDispatch;
  let age := match oldest with Some t => Z.max 0 (time_sub now t) | None => 0 end in
  oldestJob ← optional GetOldestActiveCheckJob;
  let jobAge := match oldestJob with Some t => Z.max 0 (Z.quot (time_sub now t) second) | None => 0 end in
  mret (Rollback (mkMetrics pending published running dead expired dispatch.1 dispatch.2 age (Z.quot age second) jobAge))).

(** ** Dead letters *)

Record DLQDelivery : Type := mkDLQ {
  dl_Kind : string;
  dl_Body : bytes;
  dl_Attributes : Attributes;
  dl_Receipt : string
}.

Section DLQ.
Context (uuid_in : string -> option string) {P : Primitives}.

Definition mark_dead (now : Z) (pool id : string) (d : DB) : Z * DB :=
  match check_jobs d !! id with
  | Some j =>
      if decide (cj_worker_pool_id j = pool /\ cj_state j <> JCompleted)
      then (1, on_check_jobs <[id := set_job_state JDead (Some now) (Some "job_dlq") j]> d)
      else (0, d)
  | None => (0, d)
  end.

Definition MarkCheckJobDead (job pool : string) : Tx DB Z := sql (fun now =>
  cast uuid_in job (fun id d => let '(n, d') := mark_dead now pool id d in (Ok n, d'))).

Definition InsertDeadCoverageGapFromJob (job : string) : Tx DB () := sql (fun _ =>
  cast uuid_in job (fun id d => (Ok (), gap_from_job GapDead id d))).

(** [decode($4, 'hex')] and the CHECK on its length. *)
Definition InsertResultDLQQuarantine (result : Result) (sealed : bytes) : Tx DB () := sql (fun _ =>
  cast uuid_in (r_JobID result) (fun id => cast uuid_in (r_ResultID result) (fun result_id d =>
    match hex_decode (r_SnapshotHash result) with
    | None => (Err ErrSyntax, d)
    | Some hash =>
        if negb (slen hash =? 32) then (Err ErrCheckViolation, d)
        else if decide (quarantined result_id d) then (Ok (), d)
        else (Ok (), on_quarantine (fun l => l ++ [mkQuarantined (Some id) (Some result_id)
               (Some (r_WorkerPoolID result)) (Some hash) "result DLQ recovery" sealed]) d)
    end))).

Definition InsertInvalidResultQuarantine (sealed : bytes) : Tx DB () := update (fun _ =>
  on_quarantine (fun l => l ++ [mkQuarantined None None None None "invalid result DLQ envelope" sealed])).

Context {O : Type} (PullDLQ : string -> O -> res DLQDelivery * O) (AcknowledgeDLQ : DLQDelivery -> O -> res () * O).

Definition reconcile_job_tx (jobID poolID : string) : Tx DB (TxEnd ()) :=
  rowsAffected ← MarkCheckJobDead jobID poolID;
  _ ← (if 0 <? rowsAffected then
         _ ← ignore (InsertDeadCoverageGapFromJob jobID);
         ignore (InsertMonitoringOperationalEvent "job_dlq" jobID poolID "job receive limit")
       else mret ());
  mret (Commit ()).

Definition reconcileJobDLQ (started : Z) (jobID poolID : string) : SE (World DB O) () :=
  with_tx started (reconcile_job_tx jobID poolID).

Definition quarantine_result_tx (peeked : res Result) (sealed : bytes) : Tx DB (TxEnd ()) :=
  _ ← (match peeked with
       | Err _ => InsertInvalidResultQuarantine sealed
       | Ok result =>
           _ ← InsertResultDLQQuarantine result sealed;
           InsertMonitoringOperationalEvent "result_dlq" (r_JobID result) (r_WorkerPoolID result)
             "recoverable result quarantined"
       end);
  mret (Commit ()).

(** The turn of the loop for the results. *)
Definition reconcile_result (sealer : option bytes) (nonce : res bytes) (started : Z) : SE (World DB O) bool :=
  pulled ← try_ (external (PullDLQ "result"));
  match pulled with
  | Err ErrNoMessage => mret false
  | Err e => throw e
  | Ok delivery =>
      let peeked := PeekResult (dl_Body delivery) in
      let aad := match peeked with Ok result => "result:" +:+ r_ResultID result | Err _ => "result:invalid" end in
      sealed ← of_res (Quarantine.Seal sealer nonce (dl_Body delivery) aad);
      _ ← with_tx started (quarantine_result_tx peeked sealed);
      _ ← external (AcknowledgeDLQ delivery);
      mret true
  end.

Definition ReconcileNext (sealer : option bytes) (nonce : res bytes) (started : Z) : SE (World DB O) bool :=
  pulled ← try_ (external (PullDLQ "job"));
  match pulled with
  | Err ErrNoMessage => reconcile_result sealer nonce started
  | Err e => throw e
  | Ok delivery =>
      _ ← reconcileJobDLQ started (a_JobID (dl_Attributes delivery)) (a_WorkerPoolID (dl_Attributes delivery));
      _ ← external (AcknowledgeDLQ delivery);
      mret true
  end.

Definition RecordResultDLQ (started : Z) (jobID poolID : string) : SE (World DB O) () :=
  with_tx started (
    _ ← InsertMonitoringOperationalEvent "result_dlq" jobID poolID "recoverable result requires redrive";
    mret (Commit ())).
End DLQ.

(** ** Answered jobs stay answered *)

(** A job with an accepted check is in the ledger, completed, with the check's monitor
    and slot. *)
Definition ledger_inv (d : DB) : Prop := forall id h, health_checks d !! id = Some h ->
  exists j, check_jobs d !! id = Some j /\ cj_state j = JCompleted /\
    cj_monitor_id j = hc_monitor_id h /\ cj_scheduled_at j = hc_scheduled_at h.

(** The checks [H] accepted so far are still there. *)
Definition engine_inv (H : gmap string HealthCheck) (d : DB) : Prop := ledger_inv d /\ H ⊆ health_checks d.

Section Engine.
Context (H : gmap string HealthCheck).

(** Statements that write neither table. *)
Lemma ledger_frame d d' :
  check_jobs d' = check_jobs d -> health_checks d' = health_checks d -> engine_inv H d -> engine_inv H d'.
Proof. unfold engine_inv, ledger_inv. by intros -> ->. Qed.

(** Statements that change jobs which are not completed, or add jobs. *)
Lemma ledger_jobs d d' :
  health_checks d' = health_checks d ->
  (forall id j, check_jobs d !! id = Some j -> cj_state j = JCompleted -> is_Some (health_checks d !! id) ->
     check_jobs d' !! id = Some j) -> engine_inv H d -> engine_inv H d'.
Proof.
  intros Eh Hj [Hi Hs]. split; [|by rewrite Eh]. intros id h Hh. rewrite Eh in Hh.
  destruct (Hi id h Hh) as (j & Hl & Hst & Hr). exists j. split; [apply Hj; [done|done|by eexists]|done].
Qed.

Lemma keeps_ledger_plain {A} (q : Z -> DB -> res A * DB) :
  (forall now d a d', q now d = (Ok a, d') -> check_jobs d' = check_jobs d /\ health_checks d' = health_checks d) ->
  keeps (tx_inv (engine_inv H)) (sql q).
Proof. intros Hq. apply keeps_sql. intros now d a d' Hi [E1 E2]%Hq. by eapply ledger_frame. Qed.

Lemma ledger_alter f id d :
  (forall j, cj_state j = JCompleted -> f j = j) -> engine_inv H d -> engine_inv H (on_check_jobs (alter f id) d).
Proof.
  intros Hf. apply ledger_jobs; [done|]. intros i j Hj Hs _. simpl. destruct (decide (i = id)) as [->|Hne].
  - by rewrite lookup_alter_eq, Hj; simpl; rewrite Hf.
  - by rewrite lookup_alter_ne.
Qed.

Lemma gap_keeps_ledger reason id d : engine_inv H d -> engine_inv H (gap_from_job reason id d).
Proof. apply ledger_frame; unfold gap_from_job; by destruct (check_jobs d !! id). Qed.

Lemma ledger_publisher {O} (send : SendInput -> O -> res string * O) locked now t1 t2 :
  keeps (w_inv (engine_inv H)) (PublishNext send locked now t1 t2).
Proof.
  unfold PublishNext, Publisher.claim_tx, record_tx, ClaimDispatchOutbox, ExpireClaimedDispatch, ExpireUnpublishedCheckJob,
    InsertExpiredCoverageGapFromJob, MarkDispatchPublished, MarkCheckJobPublished, MarkDispatchPublishFailure,
    InsertMonitoringOperationalEvent.
  repeat first
    [ apply keeps_update; intros ? ? Hi;
      first [ exact Hi | by apply gap_keeps_ledger
            | by eapply ledger_frame; [..|exact Hi]
            | by apply ledger_alter; [intros j Hj; rewrite Hj|] ]
    | keep_step ].
  apply keeps_ledger_plain. intros tn d [i o] d'. destruct (Publisher.claim tn locked a d) as [[[i' o'] d'']|] eqn:E; [|done].
  intros [= -> -> ->]. unfold Publisher.claim in E. destruct (Publisher.candidate tn locked d) as [[? ?]|]; [|done].
  by injection E as <- <- <-.
Qed.

Lemma ledger_scheduler {P : Primitives} {O} s env started batch :
  keeps (w_inv (engine_inv H)) (ScheduleDue (O := O) s env started batch).
Proof.
  unfold ScheduleDue, schedule_tx, schedule_one, CountActiveScheduledJobs, GetDatabaseTime, ListDueScheduledMonitors,
    NewScheduledJobID, InsertMonitoringCoverageGap, InsertMonitoringOperationalEvent, UpdateMonitorNextCheck,
    CreateScheduledCheckJob, CreateScheduledDispatchOutbox.
  repeat first [apply keeps_update; intros ? ? Hi; by eapply ledger_frame; [..|exact Hi]|keep_step].
  - apply keeps_sql. intros now d n d' Hi. case_decide; [by intros [= _ <-]|]. case_decide as Hno; [done|].
    intros [= _ <-]. revert Hi. apply ledger_jobs; [done|]. intros id j Hj _ _. simpl. rewrite lookup_insert_ne; [done|].
    intros <-. destruct Hno. left. by eexists.
  - apply keeps_ledger_plain. intros now d [] d'. by destruct (outbox d !! _); [|intros [= <-]].
Qed.

Lemma ledger_reclaimer {O} started : keeps (w_inv (O := O) (engine_inv H)) (ReclaimPublisherLeases started).
Proof.
  unfold ReclaimPublisherLeases, ReclaimDispatchPublisherLeases. keep. apply keeps_ledger_plain. by intros ? ? ? ? [= _ <-].
Qed.

Lemma ledger_consumer uuid_in {P : Primitives} {O} pull ack sealer nonce t now evaluatedAt :
  keeps (w_inv (O := O) (engine_inv H)) (ConsumeNext uuid_in pull ack sealer nonce t now evaluatedAt).
Proof.
  intros w Hw. destruct (ConsumeNext _ _ _ _ _ _ _ _ w) as [r w'] eqn:E. apply ConsumeNext_consumed in E.
  cut (w_inv (engine_inv H) w'); [by destruct r|]. unfold w_inv in *.
  destruct E as [Hd _|delivery o result id job _ (Hid & key & Hj & _) Hm _]; [by rewrite Hd|].
  destruct (health_checks (w_db w) !! id) as [h|] eqn:Eh.
  - destruct (same_result h result).
    + rewrite Hm. by eapply ledger_frame; [..|exact Hw].
    + destruct Hm as (E1 & _ & E2). by eapply ledger_frame; [..|exact Hw].
  - destruct Hm as [(rid & att & _ & _ & _ & E1) _ _ _ (att' & _ & E2)]. destruct Hw as [Hi Hs]. split.
    + intros i h. rewrite E1, E2. unfold result_job in Hj.
      destruct (check_jobs (w_db w) !! id) as [j|] eqn:Ej; [|done].
      destruct (worker_pools (w_db w) !! _); [|done]. injection Hj as -> _.
      intros [[<- <-]|[Hne Hh]]%lookup_insert_Some.
      * rewrite lookup_alter_eq, Ej. simpl. by eexists.
      * rewrite lookup_alter_ne by done. by apply Hi.
    + rewrite E1. etransitivity; [exact Hs|]. by apply insert_subseteq.
Qed.

Lemma ledger_sweep {O} started : keeps (w_inv (O := O) (engine_inv H)) (SweepDeadlines started).
Proof.
  unfold SweepDeadlines, SweepExpiredCheckJobs. keep. apply keeps_sql. intros now d n d' Hi [= _ <-]. revert Hi.
  apply ledger_jobs; [done|]. intros id j Hj Hs _. simpl. unfold expire_overdue. rewrite map_lookup_imap, Hj. simpl.
  unfold overdue. by rewrite Hs.
Qed.

Lemma ledger_cleanup {O} started now : keeps (w_inv (O := O) (engine_inv H)) (CleanupLedger started now).
Proof.
  unfold CleanupLedger, DeleteOldLedgerJobs. keep. apply keeps_sql. intros tn d n d' Hi. case_decide as Hex; [done|].
  intros [= _ <-]. revert Hi. apply ledger_jobs; [done|]. intros id j Hj Hs Hh. simpl. rewrite lookup_foldr_delete; [done|].
  intros ([i j'] & -> & Hin)%list_elem_of_fmap. apply Hex, Exists_exists. exists (i, j'). split; [done|by left].
Qed.

Lemma ledger_dlq uuid_in {P : Primitives} {O} pull ack sealer nonce started :
  keeps (w_inv (O := O) (engine_inv H)) (ReconcileNext uuid_in pull ack sealer nonce started).
Proof.
  unfold ReconcileNext, reconcile_result, reconcileJobDLQ, reconcile_job_tx, quarantine_result_tx, MarkCheckJobDead,
    InsertDeadCoverageGapFromJob, InsertMonitoringOperationalEvent, InsertInvalidResultQuarantine, InsertResultDLQQuarantine.
  repeat first [apply keeps_update; intros ? ? Hi; by eapply ledger_frame; [..|exact Hi]|keep_step].
  - apply keeps_sql. intros tn d n d' Hi E. apply cast_ok in E as (id & _ & E). unfold mark_dead in E.
    destruct (check_jobs d !! id) as [j|] eqn:Ej; [|by injection E as _ <-]. case_decide as Hc; [|by injection E as _ <-].
    injection E as _ <-. revert Hi. apply ledger_jobs; [done|]. intros i j' Hj' Hs _. simpl.
    rewrite lookup_insert_ne; [done|]. intros <-. simplify_eq. tauto.
  - apply keeps_sql. intros tn d n d' Hi E. apply cast_ok in E as (id & _ & E). injection E as _ <-. by apply gap_keeps_ledger.
  - apply keeps_ledger_plain. intros ? d x d' E. apply cast_ok in E as (id & _ & E). apply cast_ok in E as (rid & _ & E).
    destruct (hex_decode _); [|done]. destruct (negb _); [done|]. case_decide; by injection E as _ <-.
Qed.
End Engine.

(** ** The engine

    Its operations, in any order and with any failures; the parameters of each are
    what it takes from outside. *)
Section Operations.
Context (uuid_in : string -> option string) {P : Primitives} {O : Type}.

Inductive engine : World DB O -> World DB O -> Prop :=
| en_schedule s env started batch w : engine w (ScheduleDue s env started batch w).2
| en_publish send locked now t1 t2 w : engine w (PublishNext send locked now t1 t2 w).2
| en_reclaim started w : engine w (ReclaimPublisherLeases started w).2
| en_consume pull ack sealer nonce t now evaluatedAt w :
    engine w (ConsumeNext uuid_in pull ack sealer nonce t now evaluatedAt w).2
| en_sweep started w : engine w (SweepDeadlines started w).2
| en_cleanup started now w : engine w (CleanupLedger started now w).2
| en_dlq pull ack sealer nonce started w : engine w (ReconcileNext uuid_in pull ack sealer nonce started w).2.

(** However scheduler, publishers, consumers, the deadline sweep, the cleanup and
    the dead letter reconciler interleave and fail, an accepted check is never
    changed or removed, and its job stays in the ledger, completed, with the check's
    monitor and slot: no late expiry, dead letter or cleanup takes it back. *)
Theorem answered_jobs_stay (w w' : World DB O) :
  rtc engine w w' -> ledger_inv (w_db w) ->
  ledger_inv (w_db w') /\ health_checks (w_db w) ⊆ health_checks (w_db w').
Proof.
  intros Hr Hi. set (H := health_checks (w_db w)). assert (engine_inv H (w_db w)) as Hw by (by split).
  clearbody H. clear Hi. induction Hr as [w|w1 w2 w3 Hs Hr IH]; [done|]. apply IH.
  destruct Hs; apply (keeps_final (w_inv (engine_inv H))); try exact Hw;
    [apply ledger_scheduler|apply ledger_publisher|apply ledger_reclaimer|apply ledger_consumer|apply ledger_sweep|
     apply ledger_cleanup|apply ledger_dlq].
Qed.
End Operations.

(** The cleanup of the ledger cannot run while raw checks are kept: one completed
    job older than 48 hours whose accepted check is still stored (they are kept for
    seven days) violates the foreign key of health_checks, so the whole statement
    fails and not even the other old jobs are deleted. *)
Theorem CleanupLedger_blocked {O} started now (w : World DB O) id j h t :
  w_faults w = [] -> check_jobs (w_db w) !! id = Some j -> cj_state j = JCompleted ->
  cj_completed_at j = Some t -> t < now - 48 * hour -> health_checks (w_db w) !! id = Some h ->
  CleanupLedger started now w = (Err ErrForeignKeyViolation, w).
Proof.
  intros Hf Hj Hs Hc Ht Hh. destruct w as [d o u n fs]. simpl in *. subst fs.
  unfold CleanupLedger, DeleteOldLedgerJobs, with_tx, mbind, SE_bind, sql. simpl.
  rewrite decide_True; [done|]. apply Exists_exists. exists (id, j). split; [|left; by eexists].
  apply list_elem_of_filter. split; [|by apply elem_of_map_to_list]. unfold deletable, time_add. simpl.
  rewrite Hc, Hs. apply Z.ltb_lt. lia.
Qed.

(** A job whose accepted check is three days old. *)
Module OldJob.
Definition job : CheckJob := mkCheckJob "org" "env" "m" Scheduled JCompleted 0 (Some 1) (Some 2) 0 1 "p" "h" 10 None None None None.
Definition check : HealthCheck :=
  mkHealthCheck "r" "org" "env" "m" Scheduled 0 1 2 true (Some 200) None 1 "h" "p" "w" "a" None None None None.
Definition db : DB :=
  on_health_checks (fun _ => {["j" := check]}) (on_check_jobs (fun _ => {["j" := job]}) empty_db).
Definition world : World DB () := mkWorld db () (fun _ => "") 0 [].
Lemma old_job_inv : ledger_inv db.
Proof.
  intros id h. change (health_checks db) with ({["j" := check]} : gmap string HealthCheck).
  intros [<- <-]%lookup_singleton_Some. by exists job.
Qed.
End OldJob.

Lemma CleanupLedger_blocked_witness :
  CleanupLedger 0 (72 * hour) OldJob.world = (Err ErrForeignKeyViolation, OldJob.world).
Proof.
  apply (CleanupLedger_blocked 0 (72 * hour) OldJob.world "j" OldJob.job OldJob.check 2);
    reflexivity.
Defined.

Lemma answered_jobs_stay_witness :
  ledger_inv (w_db (SweepDeadlines 100 OldJob.world).2) /\
  health_checks OldJob.db ⊆ health_checks (w_db (SweepDeadlines 100 OldJob.world).2).
Proof.
  apply (answered_jobs_stay Some (P := Toy.primitives) OldJob.world); [|exact OldJob.old_job_inv].
  apply rtc_once, en_sweep.
Defined.
