(* ===== verification/Destination.v ===== *)
(** * The network boundary of a check (src/internal/destination/safety.go)

    Part one models the addresses of package net/netip that the guard inspects:
    parsing, printing, prefixes and classification, on the bits as the library
    computes them.  Part two is the guard itself: [isPublicAddress],
    [addressAllowed], [resolve] and [DialContext], with the resolver and the dialer
    as arguments of the model.  Part three is the URL policy and the redirect rule of the
    client.  The theorems say which addresses a connection can ever reach (stated by
    address intervals, independently of the bit tests), that a single unsafe answer
    rejects the whole resolution, that the number of requests is bounded, and what
    happens to the monitor's headers along a chain of redirects. *)

From stdpp Require Import base gmap list strings.
From Stdlib Require Import ZArith Lia Ascii String Bool.
From S2P Require Import Prelude Bytes Sealing.

(** ** Package net/netip *)

Module Netip.

(** [netip.Addr]: the zero value, an IPv4 address or an IPv6 address with its zone. *)
Inductive Addr : Type :=
| AddrZero
| Addr4 (v : Z)
| Addr6 (v : Z) (zone : string).

#[global] Instance Addr_eq_dec : EqDecision Addr.
Proof. solve_decision. Defined.

Record Prefix : Type := mkPrefix { p_addr : Addr; p_bits : Z }.

Definition IsValid (a : Addr) : bool := match a with AddrZero => false | _ => true end.
Definition Is4 (a : Addr) : bool := match a with Addr4 _ => true | _ => false end.
Definition Zone (a : Addr) : string := match a with Addr6 _ z => z | _ => "" end.
Definition BitLen (a : Addr) : Z := match a with AddrZero => 0 | Addr4 _ => 32 | Addr6 _ _ => 128 end.

Definition Is4In6 (a : Addr) : bool :=
  match a with Addr6 v _ => Z.shiftr v 32 =? 0xffff | _ => false end.

Definition Unmap (a : Addr) : Addr :=
  match a with
  | Addr6 v _ => if Is4In6 a then Addr4 (Z.land v 0xffffffff) else a
  | _ => a
  end.

(** [v4(i)] and [v6(i)]: byte [i] of the address, the first one being the most significant. *)
Definition v4 (v i : Z) : Z := Z.land (Z.shiftr v (24 - 8 * i)) 0xff.
Definition v6 (v i : Z) : Z := Z.land (Z.shiftr v (120 - 8 * i)) 0xff.
Definition v6u16 (v i : Z) : Z := Z.land (Z.shiftr v (112 - 16 * i)) 0xffff.

Definition IPv4Unspecified : Addr := Addr4 0.
Definition IPv6Unspecified : Addr := Addr6 0 "".

Definition IsLinkLocalUnicast (a : Addr) : bool :=
  match Unmap a with
  | Addr4 v => (v4 v 0 =? 169) && (v4 v 1 =? 254)
  | Addr6 v _ => Z.land (v6u16 v 0) 0xffc0 =? 0xfe80
  | AddrZero => false
  end.

Definition IsLoopback (a : Addr) : bool :=
  match Unmap a with
  | Addr4 v => v4 v 0 =? 127
  | Addr6 v _ => v =? 1
  | AddrZero => false
  end.

Definition IsMulticast (a : Addr) : bool :=
  match Unmap a with
  | Addr4 v => Z.land (v4 v 0) 0xf0 =? 0xe0
  | Addr6 v _ => v6 v 0 =? 0xff
  | AddrZero => false
  end.

Definition IsUnspecified (a : Addr) : bool :=
  bool_decide (a = IPv4Unspecified) || bool_decide (a = IPv6Unspecified).

Definition IsGlobalUnicast (a : Addr) : bool :=
  let a := Unmap a in
  IsValid a && negb (bool_decide (a = IPv4Unspecified)) && negb (bool_decide (a = Addr4 0xffffffff)) &&
  negb (bool_decide (a = IPv6Unspecified)) && negb (IsLoopback a) && negb (IsMulticast a) &&
  negb (IsLinkLocalUnicast a).

Definition IsPrivate (a : Addr) : bool :=
  match Unmap a with
  | Addr4 v =>
      (v4 v 0 =? 10) || ((v4 v 0 =? 172) && (Z.land (v4 v 1) 0xf0 =? 16)) ||
      ((v4 v 0 =? 192) && (v4 v 1 =? 168))
  | Addr6 v _ => Z.land (v6 v 0) 0xfe =? 0xfc
  | AddrZero => false
  end.

(** [mask6(n)]: the 128-bit mask of the first [n] bits. *)
Definition mask6 (n : Z) : Z := Z.shiftl (Z.ones n) (128 - n).

Definition Contains (p : Prefix) (a : Addr) : bool :=
  match p_addr p, a with
  | Addr4 b, Addr4 v => (0 <=? p_bits p) && (p_bits p <=? 32) && (Z.shiftr (Z.lxor v b) (32 - p_bits p) =? 0)
  | Addr6 b _, Addr6 v z =>
      String.eqb z "" && (0 <=? p_bits p) && (p_bits p <=? 128) &&
      (Z.land (Z.lxor v b) (mask6 (p_bits p)) =? 0)
  | _, _ => false
  end.

(** *** Parsing *)

Definition digit (c : ascii) : option Z :=
  let n := val_of c in if (48 <=? n) && (n <=? 57) then Some (n - 48) else None.

(** [parseIPv4Fields]: [fields] are the octets read so far (last first), [val] and
    [digLen] the octet being read.  An octet begins or ends with a dot only when it
    has no digit: the three dot errors of the library are [digLen = 0]. *)
Fixpoint parse4 (s : string) (fields : list Z) (val digLen : Z) : option (list Z) :=
  match s with
  | "" => if (digLen =? 0) || negb (Datatypes.length fields =? 3)%nat then None else Some (rev (val :: fields))
  | String c r =>
      match digit c with
      | Some d =>
          if (digLen =? 1) && (val =? 0) then None
          else let val' := val * 10 + d in
               if 255 <? val' then None else parse4 r fields val' (digLen + 1)
      | None =>
          if val_of c =? 46 then
            if (digLen =? 0) || (Datatypes.length fields =? 3)%nat then None else parse4 r (val :: fields) 0 0
          else None
      end
  end.

Definition word (w : Z) (l : list Z) : Z := fold_left (fun acc x => acc * 2 ^ w + x) l 0.

Definition parseIPv4 (s : string) : option Addr := Addr4 ∘ word 8 <$> parse4 s [] 0 0.

Definition hexval (c : ascii) : option Z := from_hex (ascii_lower c).

(** The hexadecimal digits at the head of [s]: their value, their number and the rest. *)
Fixpoint hexgroup (s : string) (acc off : Z) : option (Z * Z * string) :=
  match s with
  | "" => Some (acc, off, "")
  | String c r =>
      match hexval c with
      | Some d => if 3 <? off then None else hexgroup r (acc * 16 + d) (off + 1)
      | None => Some (acc, off, s)
      end
  end.

Definition has_dot (s : string) : bool := match s with String c _ => val_of c =? 46 | "" => false end.

(** The loop of [parseIPv6] on 16-bit groups: [groups] those read so far (last first),
    [ellipsis] the number of groups before [::].  Each round reads a group; [fuel] bounds the
    rounds, and eight groups are the most the loop reads. *)
Fixpoint parse6 (fuel : nat) (s : string) (groups : list Z) (ellipsis : option nat) :
  option (list Z * option nat * string) :=
  match fuel with
  | O => Some (groups, ellipsis, s)
  | S fuel =>
      match hexgroup s 0 0 with
      | None => None
      | Some (acc, off, rest) =>
          if off =? 0 then None
          else if has_dot rest then
            if (match ellipsis with None => negb (Datatypes.length groups =? 6)%nat | Some _ => false end)
               || (8 <? Datatypes.length groups + 2)%nat then None
            else match parse4 s [] 0 0 with
                 | Some [a; b; c; d] => Some ((c * 256 + d) :: (a * 256 + b) :: groups, ellipsis, "")
                 | _ => None
                 end
          else
            let groups := acc :: groups in
            match rest with
            | "" => Some (groups, ellipsis, "")
            | String c1 rest1 =>
                if negb (val_of c1 =? 58) then None
                else match rest1 with
                     | "" => None
                     | String c2 rest2 =>
                         if val_of c2 =? 58 then
                           match ellipsis with
                           | Some _ => None
                           | None =>
                               let e := Some (Datatypes.length groups) in
                               match rest2 with
                               | "" => Some (groups, e, "")
                               | _ => parse6 fuel rest2 groups e
                               end
                           end
                         else parse6 fuel rest1 groups ellipsis
                     end
            end
      end
  end.

Fixpoint split_at (c : ascii) (s : string) : string * option string :=
  match s with
  | "" => ("", None)
  | String d r =>
      if Ascii.eqb d c then ("", Some r)
      else let (a, b) := split_at c r in (String d a, b)
  end.

Definition parseIPv6 (input : string) : option Addr :=
  let (s, z) := split_at "%" input in
  let zone := default "" z in
  if bool_decide (z = Some "") then None
  else
    let lead := has_prefix s "::" in
    let s := if lead then sdrop 2 s else s in
    if lead && String.eqb s "" then Some (Addr6 0 zone)
    else match parse6 8 s [] (if lead then Some O else None) with
         | Some (groups, ellipsis, "") =>
             let groups := rev groups in
             let n := (8 - Datatypes.length groups)%nat in
             match ellipsis, n with
             | None, O => Some (Addr6 (word 16 groups) zone)
             | None, S _ => None
             | Some _, O => None
             | Some e, S _ => Some (Addr6 (word 16 (take e groups ++ replicate n 0 ++ drop e groups)) zone)
             end
         | _ => None
         end.

Fixpoint parse_kind (s input : string) : option Addr :=
  match s with
  | "" => None
  | String c r =>
      if val_of c =? 46 then parseIPv4 input
      else if val_of c =? 58 then parseIPv6 input
      else if val_of c =? 37 then None
      else parse_kind r input
  end.

Definition ParseAddr (s : string) : option Addr := parse_kind s s.

Fixpoint decimal (s : string) (acc : Z) : option Z :=
  match s with
  | "" => Some acc
  | String c r => d ← digit c; decimal r (acc * 10 + d)
  end.

Definition MustParsePrefix (s : string) : Prefix :=
  let (a, b) := split_at "/" s in
  mkPrefix (default AddrZero (ParseAddr a)) (default (-1) (b ≫= fun b => decimal b 0)).

(** *** Printing: [Addr.String] *)

Fixpoint print_digits (fuel : nat) (base n : Z) (acc : string) : string :=
  match fuel with
  | O => acc
  | S fuel =>
      let acc := String (hex_digit (n mod base)) acc in
      if n / base =? 0 then acc else print_digits fuel base (n / base) acc
  end.

Definition print4 (v : Z) : string :=
  let o i := print_digits 3 10 (v4 v i) "" in
  o 0 +:+ "." +:+ o 1 +:+ "." +:+ o 2 +:+ "." +:+ o 3.

(** The number of zero groups at the head of a list. *)
Fixpoint zero_run (l : list Z) : nat :=
  match l with
  | 0 :: r => S (zero_run r)
  | _ => O
  end.

(** The first longest run of zero groups: its length and position. *)
Fixpoint longest_run (pos : nat) (l : list Z) (best : nat * nat) : nat * nat :=
  match l with
  | [] => best
  | x :: r => longest_run (S pos) r (if (best.1 <? zero_run l)%nat then (zero_run l, pos) else best)
  end.

Fixpoint join_groups (l : list Z) : string :=
  match l with
  | [] => ""
  | [x] => print_digits 4 16 x ""
  | x :: r => print_digits 4 16 x "" +:+ ":" +:+ join_groups r
  end.

Definition groups6 (v : Z) : list Z := v6u16 v <$> [0; 1; 2; 3; 4; 5; 6; 7].

Definition print6 (v : Z) : string :=
  let g := groups6 v in
  let (n, pos) := longest_run 0 g (0%nat, 0%nat) in
  if (2 <=? n)%nat then join_groups (take pos g) +:+ "::" +:+ join_groups (drop (pos + n) g)
  else join_groups g.

Definition print_zone (z : string) : string := if String.eqb z "" then "" else "%" +:+ z.

Definition Addr_String (a : Addr) : string :=
  match a with
  | AddrZero => "invalid IP"
  | Addr4 v => print4 v
  | Addr6 v z =>
      (if Is4In6 a then "::ffff:" +:+ print4 (Z.land v 0xffffffff) else print6 v) +:+ print_zone z
  end.

(** The values the library produces. *)
Definition wf (a : Addr) : Prop :=
  match a with
  | AddrZero => True
  | Addr4 v => 0 <= v < 2 ^ 32
  | Addr6 v _ => 0 <= v < 2 ^ 128
  end.

End Netip.
Import Netip.

(** ** Bits and intervals *)

Definition within (v lo hi : Z) : bool := (lo <=? v) && (v <=? hi).

Lemma land_high x n k :
  0 <= k <= n -> 0 <= x < 2 ^ n -> Z.land x (Z.shiftl (Z.ones (n - k)) k) = 2 ^ k * (x / 2 ^ k).
Proof.
  intros Hk Hx. rewrite Z.mul_comm, <- Z.shiftl_mul_pow2, <- Z.shiftr_div_pow2 by lia.
  apply Z.bits_inj'. intros i Hi. rewrite Z.land_spec, !Z.shiftl_spec by done.
  destruct (Z.ltb_spec i k).
  { rewrite (Z.testbit_neg_r _ (i - k)), (Z.testbit_neg_r (Z.shiftr x k)) by lia. apply andb_false_r. }
  rewrite Z.shiftr_spec by lia. replace (i - k + k) with i by lia.
  destruct (Z.ltb_spec i n).
  - rewrite Z.ones_spec_low by lia. apply andb_true_r.
  - rewrite Z.ones_spec_high by lia. rewrite andb_false_r.
    symmetry. destruct (Z.eq_dec x 0) as [->|]; [apply Z.bits_0|].
    apply Z.bits_above_log2; [lia|]. apply Z.lt_le_trans with n; [|lia].
    apply Z.log2_lt_pow2; lia.
Qed.

Lemma lxor_prefix v b k : 0 <= k -> (Z.shiftr (Z.lxor v b) k =? 0) = (v / 2 ^ k =? b / 2 ^ k).
Proof.
  intros Hk. rewrite Z.shiftr_lxor, !Z.shiftr_div_pow2 by done.
  apply eq_true_iff_eq. rewrite ?Is_true_true, !Z.eqb_eq. apply Z.lxor_eq_0_iff.
Qed.

Lemma div_within v b k : 0 <= k -> (v / 2 ^ k =? b) = within v (b * 2 ^ k) (b * 2 ^ k + 2 ^ k - 1).
Proof.
  intros Hk. assert (0 < 2 ^ k) as Hp by (apply Z.pow_pos_nonneg; lia).
  unfold within. pose proof (Z.div_mod v (2 ^ k) ltac:(lia)). pose proof (Z.mod_pos_bound v (2 ^ k) Hp).
  apply eq_true_iff_eq. rewrite ?Is_true_true, andb_true_iff, Z.eqb_eq, !Z.leb_le. nia.
Qed.

Lemma v4_first v : 0 <= v < 2 ^ 32 -> v4 v 0 = v / 2 ^ 24.
Proof.
  intros Hv. unfold v4. change 255 with (Z.ones 8).
  rewrite Z.land_ones, Z.shiftr_div_pow2 by lia. apply Z.mod_small.
  split; [apply Z.div_pos; lia|]. apply Z.div_lt_upper_bound; lia.
Qed.

Lemma v4_second v : v4 v 1 = (v / 2 ^ 16) mod 2 ^ 8.
Proof. unfold v4. change 255 with (Z.ones 8). by rewrite Z.land_ones, Z.shiftr_div_pow2 by lia. Qed.

Lemma v4_pair v a b :
  0 <= v < 2 ^ 32 -> 0 <= b < 256 ->
  (v4 v 0 =? a) && (v4 v 1 =? b) = within v ((a * 256 + b) * 2 ^ 16) ((a * 256 + b) * 2 ^ 16 + 2 ^ 16 - 1).
Proof.
  intros Hv Hb. rewrite <- div_within by lia. rewrite v4_first, v4_second by done.
  replace (v / 2 ^ 24) with (v / 2 ^ 16 / 2 ^ 8) by (rewrite Z.div_div by lia; f_equal; lia).
  set (u := v / 2 ^ 16). pose proof (Z.div_mod u (2 ^ 8) ltac:(lia)).
  pose proof (Z.mod_pos_bound u (2 ^ 8) ltac:(lia)). change (2 ^ 8) with 256 in *. lia.
Qed.

Lemma v4_nibble v a b :
  0 <= v < 2 ^ 32 -> 0 <= b < 16 ->
  (v4 v 0 =? a) && (Z.land (v4 v 1) 0xf0 =? 16 * b) =
  within v ((a * 16 + b) * 2 ^ 20) ((a * 16 + b) * 2 ^ 20 + 2 ^ 20 - 1).
Proof.
  intros Hv Hb. rewrite <- div_within by lia. rewrite v4_first, v4_second by done.
  change 0xf0 with (Z.shiftl (Z.ones (8 - 4)) 4).
  rewrite land_high by (lia || (apply Z.mod_pos_bound; lia)).
  replace (v / 2 ^ 24) with (v / 2 ^ 16 / 2 ^ 8) by (rewrite Z.div_div by lia; f_equal; lia).
  replace (v / 2 ^ 20) with (v / 2 ^ 16 / 2 ^ 4) by (rewrite Z.div_div by lia; f_equal; lia).
  set (u := v / 2 ^ 16). change (2 ^ 8) with 256. change (2 ^ 4) with 16.
  apply eq_true_iff_eq. rewrite ?Is_true_true, andb_true_iff, !Z.eqb_eq.
  Z.to_euclidean_division_equations. lia.
Qed.

Lemma v6_first v : 0 <= v < 2 ^ 128 -> v6 v 0 = v / 2 ^ 120.
Proof.
  intros Hv. unfold v6. change 255 with (Z.ones 8).
  rewrite Z.land_ones, Z.shiftr_div_pow2 by lia. apply Z.mod_small.
  split; [apply Z.div_pos; lia|]. apply Z.div_lt_upper_bound; [lia|]. rewrite <- Z.pow_add_r by lia. lia.
Qed.

Lemma v6u16_first v : 0 <= v < 2 ^ 128 -> v6u16 v 0 = v / 2 ^ 112.
Proof.
  intros Hv. unfold v6u16. change 65535 with (Z.ones 16).
  rewrite Z.land_ones, Z.shiftr_div_pow2 by lia. apply Z.mod_small.
  split; [apply Z.div_pos; lia|]. apply Z.div_lt_upper_bound; [lia|]. rewrite <- Z.pow_add_r by lia. lia.
Qed.

(** A test of the leading [m] bits of a field of [n] bits at position [k]. *)
Lemma field_within v n k m b :
  0 <= v < 2 ^ (k + n) -> 0 <= m <= n -> 0 <= k ->
  (Z.land (v / 2 ^ k) (Z.shiftl (Z.ones (n - m)) m) =? b * 2 ^ m) =
  within v (b * 2 ^ (k + m)) (b * 2 ^ (k + m) + 2 ^ (k + m) - 1).
Proof.
  intros Hv Hm Hk. rewrite <- div_within by lia.
  assert (0 < 2 ^ k /\ 0 < 2 ^ m) as [? ?] by (split; apply Z.pow_pos_nonneg; lia).
  rewrite land_high; [|lia|].
  - rewrite Z.div_div, <- Z.pow_add_r by lia.
    apply eq_true_iff_eq. rewrite ?Is_true_true, !Z.eqb_eq. nia.
  - split; [apply Z.div_pos; lia|]. apply Z.div_lt_upper_bound; [lia|]. rewrite <- Z.pow_add_r by lia. lia.
Qed.

Lemma Contains4_within v b n :
  0 <= n <= 32 ->
  Contains (mkPrefix (Addr4 b) n) (Addr4 v) =
  within v (b / 2 ^ (32 - n) * 2 ^ (32 - n)) (b / 2 ^ (32 - n) * 2 ^ (32 - n) + 2 ^ (32 - n) - 1).
Proof.
  intros Hn. unfold Contains; simpl. rewrite lxor_prefix, div_within by lia.
  rewrite !(proj2 (Z.leb_le _ _)) by lia. done.
Qed.

Lemma Contains6_within v b n :
  0 <= v < 2 ^ 128 -> 0 <= b < 2 ^ 128 -> 0 <= n <= 128 ->
  Contains (mkPrefix (Addr6 b "") n) (Addr6 v "") =
  within v (b / 2 ^ (128 - n) * 2 ^ (128 - n)) (b / 2 ^ (128 - n) * 2 ^ (128 - n) + 2 ^ (128 - n) - 1).
Proof.
  intros Hv Hb Hn. unfold Contains; cbn [p_addr p_bits]. rewrite String.eqb_refl.
  rewrite !(proj2 (Z.leb_le _ _)) by lia. simpl andb.
  rewrite <- div_within, <- lxor_prefix by lia. unfold mask6.
  assert (0 <= Z.lxor v b < 2 ^ 128) as Hx.
  { split; [apply Z.lxor_nonneg; lia|].
    destruct (Z.eq_dec (Z.lxor v b) 0) as [->|]; [lia|].
    apply Z.log2_lt_pow2; [pose proof (proj2 (Z.lxor_nonneg v b)); lia|].
    eapply Z.le_lt_trans; [apply Z.log2_lxor; lia|].
    assert (forall x, 0 <= x < 2 ^ 128 -> Z.log2 x < 128) as Hl.
    { intros x Hx0. destruct (Z.eq_dec x 0) as [->|]; [done|]. apply Z.log2_lt_pow2; lia. }
    apply Z.max_lub_lt; by apply Hl. }
  pose proof (land_high (Z.lxor v b) 128 (128 - n) ltac:(lia) Hx) as E.
  replace (128 - (128 - n)) with n in E by lia. rewrite E, Z.shiftr_div_pow2 by lia.
  assert (0 < 2 ^ (128 - n)) by (apply Z.pow_pos_nonneg; lia).
  apply eq_true_iff_eq. rewrite ?Is_true_true, !Z.eqb_eq. nia.
Qed.

(** ** The guard *)

Record Policy : Type := mkPolicy { AllowPrivateCIDRs : list Prefix; MaxRedirects : Z }.

Definition metadataPrefixes : list Prefix :=
  [MustParsePrefix "169.254.169.254/32"; MustParsePrefix "fd00:ec2::254/128"].

Definition deniedSpecialUsePrefixes : list Prefix :=
  [MustParsePrefix "0.0.0.0/8";
   MustParsePrefix "100.64.0.0/10";
   MustParsePrefix "192.0.0.0/24";
   MustParsePrefix "192.0.2.0/24";
   MustParsePrefix "198.18.0.0/15";
   MustParsePrefix "198.51.100.0/24";
   MustParsePrefix "203.0.113.0/24";
   MustParsePrefix "240.0.0.0/4";
   MustParsePrefix "64:ff9b::/96";
   MustParsePrefix "64:ff9b:1::/48";
   MustParsePrefix "100::/64";
   MustParsePrefix "2001::/32";
   MustParsePrefix "2001:2::/48";
   MustParsePrefix "2001:10::/28";
   MustParsePrefix "2001:20::/28";
   MustParsePrefix "2001:db8::/32";
   MustParsePrefix "2002::/16";
   MustParsePrefix "3fff::/20";
   MustParsePrefix "5f00::/16"].

Definition isMetadataAddress (a : Addr) : bool := existsb (fun p => Contains p a) metadataPrefixes.

Definition isPublicAddress (address : Addr) : bool :=
  if negb (IsValid address) || negb (String.eqb (Zone address) "") then false
  else
    let address := Unmap address in
    if negb (IsGlobalUnicast address) || IsPrivate address || IsLoopback address
       || IsLinkLocalUnicast address || IsMulticast address || IsUnspecified address
    then false
    else negb (existsb (fun prefix => Contains prefix address) deniedSpecialUsePrefixes).

Definition addressAllowed (policy : Policy) (address : Addr) : bool :=
  let address := Unmap address in
  if isPublicAddress address then true
  else if negb (IsValid address) || IsLoopback address || IsLinkLocalUnicast address
          || IsMulticast address || IsUnspecified address || isMetadataAddress address then false
  else if negb (IsPrivate address) then false
  else existsb (fun prefix => Contains prefix address) (AllowPrivateCIDRs policy).

(** *** What the guard promises, by address intervals *)

Definition ip4 (a b c d : Z) : Z := word 8 [a; b; c; d].
(** The interval of the addresses that agree with [groups] on the first [n] bits. *)
Definition net6 (groups : list Z) (n : Z) : Z * Z :=
  let lo := word 16 (groups ++ replicate (8 - Datatypes.length groups) 0) in (lo, lo + 2 ^ (128 - n) - 1).

(** Not ordinary public destinations (RFC 6890 and its successors): IPv4. *)
Definition reserved4 : list (Z * Z) :=
  [(ip4 0 0 0 0, ip4 0 255 255 255);
   (ip4 10 0 0 0, ip4 10 255 255 255);
   (ip4 100 64 0 0, ip4 100 127 255 255);
   (ip4 127 0 0 0, ip4 127 255 255 255);
   (ip4 169 254 0 0, ip4 169 254 255 255);
   (ip4 172 16 0 0, ip4 172 31 255 255);
   (ip4 192 0 0 0, ip4 192 0 0 255);
   (ip4 192 0 2 0, ip4 192 0 2 255);
   (ip4 192 168 0 0, ip4 192 168 255 255);
   (ip4 198 18 0 0, ip4 198 19 255 255);
   (ip4 198 51 100 0, ip4 198 51 100 255);
   (ip4 203 0 113 0, ip4 203 0 113 255);
   (ip4 224 0 0 0, ip4 255 255 255 255)].

(** IPv6: unspecified, loopback, unique local, link local, multicast, translation,
    discard, Teredo, benchmarking, ORCHID, documentation, 6to4, segment routing. *)
Definition reserved6 : list (Z * Z) :=
  [(0, 1); net6 [0xfc00] 7; net6 [0xfe80] 10; net6 [0xff00] 8; net6 [0x64; 0xff9b] 96;
   net6 [0x64; 0xff9b; 1] 48; net6 [0x100] 64; net6 [0x2001] 32; net6 [0x2001; 2] 48;
   net6 [0x2001; 0x10] 28; net6 [0x2001; 0x20] 28; net6 [0x2001; 0xdb8] 32; net6 [0x2002] 16;
   net6 [0x3fff] 20; net6 [0x5f00] 16].

Definition private4 : list (Z * Z) :=
  [(ip4 10 0 0 0, ip4 10 255 255 255); (ip4 172 16 0 0, ip4 172 31 255 255);
   (ip4 192 168 0 0, ip4 192 168 255 255)].
Definition private6 : Z * Z := net6 [0xfc00] 7.

Definition in_some (l : list (Z * Z)) (v : Z) : bool := existsb (fun r => within v r.1 r.2) l.

Definition public_address (a : Addr) : bool :=
  match a with
  | AddrZero => false
  | Addr4 v => negb (in_some reserved4 v)
  | Addr6 v zone =>
      String.eqb zone "" &&
      (if within v (ip4 0 0 0 0 + 0xffff * 2 ^ 32) (ip4 255 255 255 255 + 0xffff * 2 ^ 32)
       then negb (in_some reserved4 (v - 0xffff * 2 ^ 32))
       else negb (in_some reserved6 v))
  end.

Definition private_address (a : Addr) : bool :=
  match a with
  | AddrZero => false
  | Addr4 v => in_some private4 v
  | Addr6 v _ => within v private6.1 private6.2
  end.

(** The address a check may connect to under a policy. *)
Definition reachable (policy : Policy) (a : Addr) : Prop :=
  public_address a = true \/
  (private_address a = true /\ a <> Addr6 (word 16 [0xfd00; 0xec2; 0; 0; 0; 0; 0; 0x254]) "" /\
   exists p, p ∈ AllowPrivateCIDRs policy /\ Contains p a = true).

Lemma Is4In6_within v z :
  Is4In6 (Addr6 v z) = within v (ip4 0 0 0 0 + 0xffff * 2 ^ 32) (ip4 255 255 255 255 + 0xffff * 2 ^ 32).
Proof. unfold Is4In6. rewrite Z.shiftr_div_pow2, div_within by lia. done. Qed.

Lemma Unmap_mapped v z :
  within v (ip4 0 0 0 0 + 0xffff * 2 ^ 32) (ip4 255 255 255 255 + 0xffff * 2 ^ 32) = true ->
  Unmap (Addr6 v z) = Addr4 (v - 0xffff * 2 ^ 32).
Proof.
  intros Hw. unfold Unmap. rewrite Is4In6_within, Hw. f_equal.
  change 0xffffffff with (Z.ones 32). rewrite Z.land_ones by lia. unfold within in Hw.
  change (ip4 0 0 0 0 + 65535 * 2 ^ 32) with 281470681743360 in Hw.
  change (ip4 255 255 255 255 + 65535 * 2 ^ 32) with 281474976710655 in Hw.
  symmetry. apply (Z.mod_unique _ _ 65535); lia.
Qed.

Lemma Unmap_unmapped v z :
  within v (ip4 0 0 0 0 + 0xffff * 2 ^ 32) (ip4 255 255 255 255 + 0xffff * 2 ^ 32) = false ->
  Unmap (Addr6 v z) = Addr6 v z.
Proof. intros Hw. unfold Unmap. by rewrite Is4In6_within, Hw. Qed.

Lemma Unmap_idem a : Unmap (Unmap a) = Unmap a.
Proof.
  destruct a as [|v|v z]; [done..|].
  destruct (within v (ip4 0 0 0 0 + 0xffff * 2 ^ 32) (ip4 255 255 255 255 + 0xffff * 2 ^ 32)) eqn:Hw.
  - by rewrite Unmap_mapped.
  - by rewrite !Unmap_unmapped.
Qed.

Lemma Unmap_wf a : wf a -> wf (Unmap a).
Proof.
  destruct a as [|v|v z]; [done..|].
  destruct (within v (ip4 0 0 0 0 + 0xffff * 2 ^ 32) (ip4 255 255 255 255 + 0xffff * 2 ^ 32)) eqn:Hw.
  - rewrite Unmap_mapped by done. intros _. unfold within in Hw. simpl.
    change (ip4 0 0 0 0 + 65535 * 2 ^ 32) with 281470681743360 in Hw.
    change (ip4 255 255 255 255 + 65535 * 2 ^ 32) with 281474976710655 in Hw. lia.
  - by rewrite Unmap_unmapped.
Qed.

Lemma if_false (b c : bool) : (if b then false else c) = negb b && c.
Proof. by destruct b. Qed.

(** The classification of an IPv4 address, by intervals. *)
Section Class4.
Context (v : Z) (Hv : 0 <= v < 2 ^ 32).

Lemma IsLoopback4 : IsLoopback (Addr4 v) = within v (ip4 127 0 0 0) (ip4 127 255 255 255).
Proof. unfold IsLoopback, Unmap. rewrite v4_first, div_within by lia. done. Qed.

Lemma IsLinkLocalUnicast4 : IsLinkLocalUnicast (Addr4 v) = within v (ip4 169 254 0 0) (ip4 169 254 255 255).
Proof. unfold IsLinkLocalUnicast, Unmap. rewrite v4_pair by lia. done. Qed.

Lemma IsMulticast4 : IsMulticast (Addr4 v) = within v (ip4 224 0 0 0) (ip4 239 255 255 255).
Proof.
  unfold IsMulticast, Unmap. rewrite v4_first by lia.
  change 240 with (Z.shiftl (Z.ones (8 - 4)) 4). change 224 with (14 * 2 ^ 4) at 1.
  rewrite field_within by lia. done.
Qed.

Lemma IsPrivate4 : IsPrivate (Addr4 v) = in_some private4 v.
Proof.
  unfold IsPrivate, Unmap. change 16 with (16 * 1) at 1.
  rewrite v4_nibble, v4_pair, v4_first, div_within by lia.
  unfold in_some; cbn [existsb private4 fst snd]. rewrite orb_false_r, orb_assoc. done.
Qed.

Lemma IsUnspecified4 : IsUnspecified (Addr4 v) = (v =? 0).
Proof.
  unfold IsUnspecified, IPv4Unspecified, IPv6Unspecified. apply eq_true_iff_eq.
  rewrite orb_true_iff, !bool_decide_eq_true, Z.eqb_eq. split; [intros [[=]|[=]]; done|intros ->; by left].
Qed.

Lemma IsGlobalUnicast4 :
  IsGlobalUnicast (Addr4 v) =
  negb (v =? 0) && negb (v =? 0xffffffff) && negb (IsLoopback (Addr4 v)) && negb (IsMulticast (Addr4 v)) &&
  negb (IsLinkLocalUnicast (Addr4 v)).
Proof.
  unfold IsGlobalUnicast. change (Unmap (Addr4 v)) with (Addr4 v). cbn [IsValid].
  assert (bool_decide (Addr4 v = IPv4Unspecified) = (v =? 0)) as ->.
  { apply eq_true_iff_eq. rewrite bool_decide_eq_true, Z.eqb_eq. split; [by intros [=]|by intros ->]. }
  assert (bool_decide (Addr4 v = Addr4 0xffffffff) = (v =? 0xffffffff)) as ->.
  { apply eq_true_iff_eq. rewrite bool_decide_eq_true, Z.eqb_eq. split; [by intros [=]|by intros ->]. }
  rewrite (bool_decide_eq_false_2 (Addr4 v = IPv6Unspecified)) by done.
  by rewrite !andb_true_l, andb_true_r.
Qed.

Definition denied4 : list (Z * Z) :=
  [(ip4 0 0 0 0, ip4 0 255 255 255); (ip4 100 64 0 0, ip4 100 127 255 255);
   (ip4 192 0 0 0, ip4 192 0 0 255); (ip4 192 0 2 0, ip4 192 0 2 255);
   (ip4 198 18 0 0, ip4 198 19 255 255); (ip4 198 51 100 0, ip4 198 51 100 255);
   (ip4 203 0 113 0, ip4 203 0 113 255); (ip4 240 0 0 0, ip4 255 255 255 255)].

Lemma denied_Addr4 :
  existsb (fun prefix => Contains prefix (Addr4 v)) deniedSpecialUsePrefixes = in_some denied4 v.
Proof.
  assert (deniedSpecialUsePrefixes =
    map (fun p => mkPrefix (Addr4 p.1) p.2)
      [(ip4 0 0 0 0, 8); (ip4 100 64 0 0, 10); (ip4 192 0 0 0, 24); (ip4 192 0 2 0, 24);
       (ip4 198 18 0 0, 15); (ip4 198 51 100 0, 24); (ip4 203 0 113 0, 24); (ip4 240 0 0 0, 4)]
    ++ drop 8 deniedSpecialUsePrefixes) as -> by (vm_compute; reflexivity).
  rewrite existsb_app. cbn [existsb map fst snd].
  rewrite !Contains4_within by lia.
  assert (existsb (fun prefix => Contains prefix (Addr4 v)) (drop 8 deniedSpecialUsePrefixes) = false) as ->.
  { reflexivity. }
  rewrite orb_false_r. reflexivity.
Qed.

Lemma isPublicAddress4 : isPublicAddress (Addr4 v) = negb (in_some reserved4 v).
Proof.
  unfold isPublicAddress. cbn [IsValid Zone]. rewrite String.eqb_refl. cbn [negb orb].
  change (Unmap (Addr4 v)) with (Addr4 v).
  rewrite denied_Addr4, IsGlobalUnicast4, IsPrivate4, IsLoopback4, IsLinkLocalUnicast4, IsMulticast4,
    IsUnspecified4, if_false.
  unfold in_some, within, private4, denied4, reserved4; cbn [existsb fst snd].
  repeat match goal with |- context [ip4 ?a ?b ?c ?d] =>
    let n := eval vm_compute in (ip4 a b c d) in change (ip4 a b c d) with n end.
  lia.
Qed.
End Class4.

Lemma within_eq v lo hi lo' hi' : lo = lo' -> hi = hi' -> within v lo hi = within v lo' hi'.
Proof. by intros -> ->. Qed.
Lemma orb_eq a b c d : a = c -> b = d -> a || b = c || d.
Proof. by intros -> ->. Qed.

(** The classification of an IPv6 address that does not embed an IPv4 one. *)
Section Class6.
Context (v : Z) (zone : string) (Hv : 0 <= v < 2 ^ 128).
Context (Hm : within v (ip4 0 0 0 0 + 0xffff * 2 ^ 32) (ip4 255 255 255 255 + 0xffff * 2 ^ 32) = false).

Lemma IsLoopback6 : IsLoopback (Addr6 v zone) = (v =? 1).
Proof. unfold IsLoopback. by rewrite Unmap_unmapped. Qed.

Lemma IsLinkLocalUnicast6 :
  IsLinkLocalUnicast (Addr6 v zone) = within v (net6 [0xfe80] 10).1 (net6 [0xfe80] 10).2.
Proof.
  unfold IsLinkLocalUnicast. rewrite Unmap_unmapped, v6u16_first by done.
  change 0xffc0 with (Z.shiftl (Z.ones (16 - 6)) 6). change 0xfe80 with (0x3fa * 2 ^ 6) at 1.
  rewrite field_within by lia. apply within_eq; vm_compute; reflexivity.
Qed.

Lemma IsMulticast6 : IsMulticast (Addr6 v zone) = within v (net6 [0xff00] 8).1 (net6 [0xff00] 8).2.
Proof.
  unfold IsMulticast. rewrite Unmap_unmapped, v6_first, div_within by (done || lia). apply within_eq; vm_compute; reflexivity.
Qed.

Lemma IsPrivate6 : IsPrivate (Addr6 v zone) = within v private6.1 private6.2.
Proof.
  unfold IsPrivate. rewrite Unmap_unmapped, v6_first by done.
  change 0xfe with (Z.shiftl (Z.ones (8 - 1)) 1). change 0xfc with (0x7e * 2 ^ 1).
  rewrite field_within by lia. apply within_eq; vm_compute; reflexivity.
Qed.

Lemma IsUnspecified6 : IsUnspecified (Addr6 v zone) = (v =? 0) && String.eqb zone "".
Proof.
  unfold IsUnspecified, IPv4Unspecified, IPv6Unspecified. apply eq_true_iff_eq.
  rewrite orb_true_iff, !bool_decide_eq_true, andb_true_iff, Z.eqb_eq, String.eqb_eq.
  split; [intros [[=]|[=]]; done|intros [-> ->]; by right].
Qed.

Lemma IsGlobalUnicast6 :
  IsGlobalUnicast (Addr6 v zone) =
  negb ((v =? 0) && String.eqb zone "") && negb (IsLoopback (Addr6 v zone)) &&
  negb (IsMulticast (Addr6 v zone)) && negb (IsLinkLocalUnicast (Addr6 v zone)).
Proof.
  rewrite <- IsUnspecified6. unfold IsGlobalUnicast, IsUnspecified. rewrite Unmap_unmapped by done.
  cbn [IsValid]. by rewrite !(bool_decide_eq_false_2 (Addr6 v zone = Addr4 _)) by done.
Qed.
End Class6.

Definition denied6 : list (Z * Z) :=
  [net6 [0x64; 0xff9b] 96; net6 [0x64; 0xff9b; 1] 48; net6 [0x100] 64; net6 [0x2001] 32;
   net6 [0x2001; 2] 48; net6 [0x2001; 0x10] 28; net6 [0x2001; 0x20] 28; net6 [0x2001; 0xdb8] 32;
   net6 [0x2002] 16; net6 [0x3fff] 20; net6 [0x5f00] 16].

Lemma denied_Addr6 v :
  0 <= v < 2 ^ 128 ->
  existsb (fun prefix => Contains prefix (Addr6 v "")) deniedSpecialUsePrefixes = in_some denied6 v.
Proof.
  intros Hv.
  assert (deniedSpecialUsePrefixes =
    take 8 deniedSpecialUsePrefixes ++
    map (fun p => mkPrefix (Addr6 p.1 "") p.2)
      [((net6 [0x64; 0xff9b] 96).1, 96); ((net6 [0x64; 0xff9b; 1] 48).1, 48); ((net6 [0x100] 64).1, 64);
       ((net6 [0x2001] 32).1, 32); ((net6 [0x2001; 2] 48).1, 48); ((net6 [0x2001; 0x10] 28).1, 28);
       ((net6 [0x2001; 0x20] 28).1, 28); ((net6 [0x2001; 0xdb8] 32).1, 32); ((net6 [0x2002] 16).1, 16);
       ((net6 [0x3fff] 20).1, 20); ((net6 [0x5f00] 16).1, 16)]) as -> by (vm_compute; reflexivity).
  rewrite existsb_app. cbn [existsb map fst snd].
  assert (existsb (fun prefix => Contains prefix (Addr6 v "")) (take 8 deniedSpecialUsePrefixes) = false) as ->
    by reflexivity.
  repeat (rewrite Contains6_within; [|done|vm_compute; split; congruence|lia]).
  rewrite orb_false_l. unfold in_some, denied6. cbn [existsb].
  repeat (apply orb_eq; [apply within_eq; vm_compute; reflexivity|]). reflexivity.
Qed.

Ltac known_nets :=
  repeat match goal with
  | |- context [ip4 ?a ?b ?c ?d] => let n := eval vm_compute in (ip4 a b c d) in change (ip4 a b c d) with n
  | |- context [fst (net6 ?g ?b)] => let n := eval vm_compute in (fst (net6 g b)) in change (fst (net6 g b)) with n
  | |- context [snd (net6 ?g ?b)] => let n := eval vm_compute in (snd (net6 g b)) in change (snd (net6 g b)) with n
  end.

Lemma isPublicAddress6 v :
  0 <= v < 2 ^ 128 ->
  within v (ip4 0 0 0 0 + 0xffff * 2 ^ 32) (ip4 255 255 255 255 + 0xffff * 2 ^ 32) = false ->
  isPublicAddress (Addr6 v "") = negb (in_some reserved6 v).
Proof.
  intros Hv Hm. unfold isPublicAddress. cbn [IsValid Zone]. rewrite String.eqb_refl. cbn [negb orb].
  rewrite Unmap_unmapped by done.
  rewrite denied_Addr6, IsGlobalUnicast6, IsPrivate6, IsLoopback6, IsLinkLocalUnicast6, IsMulticast6,
    IsUnspecified6, if_false, String.eqb_refl by done.
  unfold in_some, within, private6, denied6, reserved6; cbn [existsb]. change (0, 1).1 with 0.
  change (0, 1).2 with 1. known_nets. lia.
Qed.

(** [isPublicAddress], computed with the bit tests of net/netip and the deny
    list, accepts exactly the addresses outside every reserved interval; an
    IPv4-mapped IPv6 address is judged by the IPv4 address it carries, and an
    address with a zone is never public. *)
Lemma isPublicAddress_spec (a : Addr) : wf a -> isPublicAddress a = public_address a.
Proof.
  intros Hwf. destruct a as [|v|v z]; [done|by apply isPublicAddress4|]. unfold public_address.
  destruct (String.eqb_spec z "") as [->|Hz].
  2:{ unfold isPublicAddress. cbn [Zone]. rewrite (proj2 (String.eqb_neq z "") Hz).
      by rewrite orb_true_r. }
  rewrite andb_true_l.
  destruct (within v (ip4 0 0 0 0 + 0xffff * 2 ^ 32) (ip4 255 255 255 255 + 0xffff * 2 ^ 32)) eqn:Hm;
    [|by apply isPublicAddress6].
  rewrite <- isPublicAddress4.
  - unfold isPublicAddress. rewrite Unmap_mapped by done. done.
  - pose proof (Unmap_wf _ Hwf) as H. by rewrite Unmap_mapped in H by done.
Qed.

Lemma existsb_Exists {A} (f : A -> bool) l : existsb f l = true <-> exists x, x ∈ l /\ f x = true.
Proof.
  rewrite existsb_exists. split; intros (x & Hx & Hf); exists x; (split; [|done]);
    by apply list_elem_of_In.
Qed.

Lemma isMetadata4 v : 0 <= v < 2 ^ 32 -> isMetadataAddress (Addr4 v) = (v =? ip4 169 254 169 254).
Proof.
  intros Hv. unfold isMetadataAddress.
  change metadataPrefixes with
    [mkPrefix (Addr4 (ip4 169 254 169 254)) 32; mkPrefix (Addr6 (word 16 [0xfd00; 0xec2; 0; 0; 0; 0; 0; 0x254]) "") 128].
  cbn [existsb]. rewrite Contains4_within by lia. cbn [Contains p_addr]. rewrite !orb_false_r. unfold within.
  change (ip4 169 254 169 254) with 2852039166. change (2 ^ (32 - 32)) with 1.
  rewrite Z.div_1_r. lia.
Qed.

Lemma isMetadata6 v :
  0 <= v < 2 ^ 128 ->
  isMetadataAddress (Addr6 v "") = (v =? word 16 [0xfd00; 0xec2; 0; 0; 0; 0; 0; 0x254]).
Proof.
  intros Hv. unfold isMetadataAddress.
  change metadataPrefixes with
    [mkPrefix (Addr4 (ip4 169 254 169 254)) 32; mkPrefix (Addr6 (word 16 [0xfd00; 0xec2; 0; 0; 0; 0; 0; 0x254]) "") 128].
  cbn [existsb]. rewrite Contains6_within by (lia || (vm_compute; split; congruence)).
  cbn [Contains p_addr]. rewrite orb_false_l, orb_false_r. unfold within.
  change (2 ^ (128 - 128)) with 1. rewrite Z.div_1_r, Z.mul_1_r. lia.
Qed.

(** A prefix never contains an address with a zone. *)
Lemma Contains_zone p v z : Contains p (Addr6 v z) = true -> z = "".
Proof.
  unfold Contains. destruct (p_addr p); try done. rewrite !andb_true_iff, String.eqb_eq. tauto.
Qed.

Lemma private_allowed policy a :
  wf a -> Unmap a = a -> IsValid a = true ->
  public_address a = false ->
  existsb (fun prefix => Contains prefix a) (AllowPrivateCIDRs policy) = true ->
  (if negb (IsValid a) || IsLoopback a || IsLinkLocalUnicast a || IsMulticast a || IsUnspecified a
      || isMetadataAddress a then false
   else negb (negb (IsPrivate a))) = true <->
  private_address a = true /\ a <> Addr6 (word 16 [0xfd00; 0xec2; 0; 0; 0; 0; 0; 0x254]) "".
Proof.
  intros Hwf Hu Hval _ Hex. rewrite negb_involutive, if_false, Hval. cbn [negb orb].
  destruct a as [|v|v z]; [done| |].
  - rewrite IsLoopback4, IsLinkLocalUnicast4, IsMulticast4, IsUnspecified4, isMetadata4, IsPrivate4 by done.
    unfold private_address, in_some, within, private4; cbn [existsb fst snd]. known_nets.
    split; [intros H; split; [lia|done]|intros [H _]; lia].
  - assert (z = "") as ->.
    { apply existsb_Exists in Hex as (p & _ & Hp). by apply Contains_zone in Hp. }
    assert (within v (ip4 0 0 0 0 + 0xffff * 2 ^ 32) (ip4 255 255 255 255 + 0xffff * 2 ^ 32) = false) as Hm.
    { rewrite <- (Is4In6_within v ""). destruct (Is4In6 (Addr6 v "")) eqn:E; [|done].
      unfold Unmap in Hu. by rewrite E in Hu. }
    rewrite IsLoopback6, IsLinkLocalUnicast6, IsMulticast6, IsUnspecified6, isMetadata6, IsPrivate6,
      String.eqb_refl by done.
    unfold private_address, within, private6. known_nets.
    set (m := word 16 _). split.
    + intros H. split; [lia|]. intros [= E]. lia.
    + intros [H Hne]. destruct (v =? m) eqn:E; [|lia]. apply Z.eqb_eq in E. by rewrite E in Hne.
Qed.

(** The guard allows exactly the reachable addresses. *)
Lemma addressAllowed_reachable policy a :
  wf a -> addressAllowed policy a = true <-> reachable policy (Unmap a).
Proof.
  intros Hwf%Unmap_wf. pose proof (Unmap_idem a) as Hu. unfold addressAllowed, reachable.
  set (b := Unmap a) in *. rewrite isPublicAddress_spec by done.
  set (m := Addr6 _ ""). destruct (public_address b) eqn:Hp; [tauto|].
  destruct (IsValid b) eqn:Hval.
  2:{ split; [done|]. destruct b; [|done..]. intros [?|[? _]]; done. }
  rewrite <- existsb_Exists.
  destruct (existsb (fun p => Contains p b) (AllowPrivateCIDRs policy)) eqn:Hex.
  - pose proof (private_allowed policy b Hwf Hu Hval Hp Hex) as H. rewrite Hval in H.
    fold m in H. destruct (negb true || _ || _ || _ || _ || _); [|destruct (IsPrivate b)]; simpl in *; tauto.
  - split; [|intros [?|(_ & _ & ?)]; done].
    repeat (destruct (_ || _); [done|]). by destruct (negb (IsPrivate b)).
Qed.

(** *** Parsed addresses have the width of their family *)

Lemma word_bound w l :
  0 <= w -> Forall (fun x => 0 <= x < 2 ^ w) l -> 0 <= word w l < 2 ^ (w * Z.of_nat (Datatypes.length l)).
Proof.
  intros Hw. unfold word. induction l as [|x l IH] using rev_ind; [simpl; rewrite Z.mul_0_r; lia|].
  intros [Hl [Hx _]%Forall_cons]%Forall_app. rewrite fold_left_app. simpl fold_left.
  specialize (IH Hl). rewrite length_app. simpl Datatypes.length.
  replace (w * Z.of_nat (Datatypes.length l + 1)) with (w * Z.of_nat (Datatypes.length l) + w) by lia.
  rewrite Z.pow_add_r by lia. assert (0 < 2 ^ w) by (apply Z.pow_pos_nonneg; lia). nia.
Qed.

Lemma digit_bound c d : digit c = Some d -> 0 <= d <= 9.
Proof. unfold digit. destruct (_ && _) eqn:E; [|done]. intros [= <-]. lia. Qed.

Lemma parse4_bound s fields val digLen l :
  Forall (fun x => 0 <= x < 2 ^ 8) fields -> 0 <= val < 2 ^ 8 ->
  parse4 s fields val digLen = Some l ->
  Forall (fun x => 0 <= x < 2 ^ 8) l /\ Datatypes.length l = 4%nat.
Proof.
  revert fields val digLen. induction s as [|c s IH]; intros fields val n Hf Hv; cbn [parse4].
  - destruct (_ || _) eqn:E; [done|]. intros [= <-].
    apply orb_false_iff in E as [_ E%negb_false_iff%Nat.eqb_eq]. split.
    + simpl. apply Forall_app. split; [by apply Forall_rev|by constructor].
    + simpl. rewrite length_app, length_rev. simpl. lia.
  - destruct (digit c) as [d|] eqn:Ed.
    + destruct (_ && _); [done|]. destruct (Z.ltb_spec 255 (val * 10 + d)); [done|].
      apply digit_bound in Ed. apply IH; [done|lia].
    + destruct (val_of c =? 46); [|done]. destruct (_ || _); [done|]. apply IH; [by constructor|lia].
Qed.

Lemma hexgroup_bound s acc off acc' off' rest :
  0 <= off -> 0 <= acc < 2 ^ (4 * off) -> off <= 4 ->
  hexgroup s acc off = Some (acc', off', rest) -> 0 <= acc' < 2 ^ 16.
Proof.
  revert acc off. induction s as [|c s IH]; intros acc off Ho Ha H4; cbn [hexgroup].
  - intros [= <- _ _]. pose proof (Z.pow_le_mono_r 2 (4 * off) 16). lia.
  - destruct (hexval c) as [d|] eqn:Ed.
    + destruct (Z.ltb_spec 3 off); [done|].
      assert (0 <= d < 16) as Hd.
      { unfold hexval, from_hex in Ed. pose proof (val_of_bound (ascii_lower c)).
        repeat (case_match; simplify_eq); lia. }
      apply IH; [lia| |lia]. replace (4 * (off + 1)) with (4 * off + 4) by lia.
      rewrite Z.pow_add_r by lia. lia.
    + intros [= <- _ _]. pose proof (Z.pow_le_mono_r 2 (4 * off) 16). lia.
Qed.

Lemma parse6_bound fuel s groups e groups' e' rest :
  Forall (fun x => 0 <= x < 2 ^ 16) groups ->
  (Datatypes.length groups + fuel = 8)%nat ->
  parse6 fuel s groups e = Some (groups', e', rest) ->
  Forall (fun x => 0 <= x < 2 ^ 16) groups' /\ (Datatypes.length groups' <= 8)%nat.
Proof.
  revert s groups e. induction fuel as [|fuel IH]; intros s groups e Hg Hn; cbn [parse6].
  { intros [= <- _ _]. split; [done|lia]. }
  destruct (hexgroup s 0 0) as [[[acc off] r]|] eqn:Eh; [|done].
  assert (0 <= acc < 2 ^ 16) as Ha by (eapply hexgroup_bound in Eh; lia).
  destruct (off =? 0); [done|]. destruct (has_dot r).
  - destruct (_ || _) eqn:Hb; [done|]. apply orb_false_iff in Hb as [_ Hb].
    destruct (parse4 s [] 0 0) as [l|] eqn:E4; [|done].
    apply parse4_bound in E4 as [H4 _]; [|constructor|lia].
    destruct l as [|a [|b [|c [|d [|]]]]]; try done. intros [= <- _ _].
    rewrite !Forall_cons in H4. apply Nat.ltb_ge in Hb. simpl. split; [|lia].
    repeat constructor; [lia..|done].
  - assert (Forall (fun x => 0 <= x < 2 ^ 16) (acc :: groups)) as Hg' by (by constructor).
    destruct r as [|c1 r1]; [intros [= <- _ _]; split; [done|simpl; lia]|].
    destruct (negb (val_of c1 =? 58)); [done|]. destruct r1 as [|c2 r2]; [done|].
    destruct (val_of c2 =? 58).
    + destruct e; [done|]. destruct r2; [intros [= <- _ _]; split; [done|simpl; lia]|].
      apply IH; [done|simpl; lia].
    + apply IH; [done|simpl; lia].
Qed.

Lemma parseIPv6_wf s a : parseIPv6 s = Some a -> wf a.
Proof.
  unfold parseIPv6. destruct (split_at "%" s) as [s' z]. destruct (bool_decide _); [done|].
  destruct (has_prefix s' "::" && _); [intros [= <-]; simpl; lia|].
  destruct (parse6 8 _ [] _) as [[[g e] rest]|] eqn:E; [|done].
  apply parse6_bound in E as [Hg Hl]; [|constructor|done]. destruct rest; [|done].
  assert (Forall (fun x => 0 <= x < 2 ^ 16) (rev g)) as Hr by (by apply Forall_rev).
  assert (Datatypes.length (rev g) = Datatypes.length g) as Hlen by apply length_rev.
  set (l := rev g) in *. clearbody l.
  assert (forall l', Datatypes.length l' = 8%nat -> Forall (fun x => 0 <= x < 2 ^ 16) l' ->
    wf (Addr6 (word 16 l') (default "" z))) as Hw.
  { intros l' H8 HF. simpl. pose proof (word_bound 16 l' ltac:(lia) HF) as Hb. rewrite H8 in Hb. done. }
  destruct e as [e|], (8 - Datatypes.length l)%nat as [|n] eqn:En; try done; intros [= <-]; apply Hw; try done.
  - rewrite !length_app. simpl. rewrite length_app, length_replicate. pose proof (take_drop e l) as Htd.
    apply (f_equal Datatypes.length) in Htd. rewrite length_app in Htd. lia.
  - rewrite !Forall_app. split; [by apply Forall_take|]. simpl. apply Forall_cons. split; [lia|].
    rewrite Forall_app. split; [apply Forall_replicate; lia|by apply Forall_drop].
  - lia.
Qed.

Lemma ParseAddr_wf s a : ParseAddr s = Some a -> wf a.
Proof.
  unfold ParseAddr. generalize s at 1. intros t. induction t as [|c t IH]; [done|]. cbn [parse_kind].
  destruct (val_of c =? 46).
  - unfold parseIPv4. destruct (parse4 s [] 0 0) as [l|] eqn:E; [|done]. intros [= <-].
    apply parse4_bound in E as [Hl Hn]; [|constructor|lia]. simpl.
    pose proof (word_bound 8 l ltac:(lia) Hl) as H. rewrite Hn in H. done.
  - destruct (val_of c =? 58); [apply parseIPv6_wf|]. by destruct (val_of c =? 37).
Qed.

(** ** Hosts and ports (packages net and net/url) *)

(** The text before and after the last colon. *)
Fixpoint cut_last (c : ascii) (s : string) : option (string * string) :=
  match s with
  | "" => None
  | String d r =>
      match cut_last c r with
      | Some (a, b) => Some (String d a, b)
      | None => if Ascii.eqb d c then Some ("", r) else None
      end
  end.

(** [net.SplitHostPort]. *)
Definition SplitHostPort (hostport : string) : option (string * string) :=
  match cut_last ":" hostport with
  | None => None
  | Some (before, port) =>
      if has_prefix hostport "[" then
        match split_at "]" before with
        | (String _ host, Some "") =>
            if contains_char host "[" || contains_char port "[" || contains_char port "]" then None
            else Some (host, port)
        | _ => None
        end
      else if contains_char before ":" || contains_char hostport "[" || contains_char hostport "]" then None
      else Some (before, port)
  end.

(** [net.JoinHostPort]. *)
Definition JoinHostPort (host port : string) : string :=
  if contains_char host ":" then "[" +:+ host +:+ "]:" +:+ port else host +:+ ":" +:+ port.

(** ** Connecting *)

Section Guard.
Context {Conn : Type}.

(** [resolver.LookupNetIP(ctx, "ip", host)]. *)
Variable LookupNetIP : string -> res (list Addr).
(** [dialer.DialContext(ctx, network, endpoint)]; the first argument counts the
    attempts of the call, so that the network may answer each one differently. *)
Variable dial : nat -> string -> string -> res Conn.
Variable policy : Policy.

(** The loop of [resolve]: [seen] holds the addresses of [validated]. *)
Fixpoint validate (addresses validated : list Addr) : res (list Addr) :=
  match addresses with
  | [] => Ok validated
  | address :: rest =>
      let address := Unmap address in
      if negb (addressAllowed policy address) then Err ErrUnsafeTarget
      else if bool_decide (address ∈ validated) then validate rest validated
      else validate rest (validated ++ [address])
  end.

Definition resolve (host : string) : res (list Addr) :=
  match ParseAddr host with
  | Some literal =>
      let literal := Unmap literal in
      if negb (addressAllowed policy literal) then Err ErrUnsafeTarget else Ok [literal]
  | None =>
      match LookupNetIP host with
      | Err _ | Ok [] => Err ErrResolutionFailed
      | Ok addresses =>
          match validate addresses [] with
          | Err e => Err e
          | Ok [] => Err ErrResolutionFailed
          | Ok validated => Ok validated
          end
      end
  end.

(** The loop of [DialContext]: the endpoints given to the dialer, in order, and the
    connection. *)
Fixpoint try_addresses (n : nat) (network port : string) (addresses : list Addr) :
    list string * res Conn :=
  match addresses with
  | [] => ([], Err (match n with O => ErrResolutionFailed | S _ => ErrConnectionFailed end))
  | address :: rest =>
      if (String.eqb network "tcp4" && negb (Is4 address)) || (String.eqb network "tcp6" && Is4 address)
      then try_addresses n network port rest
      else
        let endpoint := JoinHostPort (Addr_String address) port in
        match dial n network endpoint with
        | Ok connection => ([endpoint], Ok connection)
        | Err _ => let (tried, r) := try_addresses (S n) network port rest in (endpoint :: tried, r)
        end
  end.

Definition DialContext (network endpoint : string) : list string * res Conn :=
  if negb (String.eqb network "tcp") && negb (String.eqb network "tcp4") && negb (String.eqb network "tcp6")
  then ([], Err ErrInvalidTarget)
  else match SplitHostPort endpoint with
       | Some (host, port) =>
           if negb (String.eqb port "80") && negb (String.eqb port "443") then ([], Err ErrUnsafeTarget)
           else match resolve host with
                | Err e => ([], Err e)
                | Ok addresses => try_addresses 0 network port addresses
                end
       | None => ([], Err ErrUnsafeTarget)
       end.
End Guard.

(** An endpoint the guard may give to the dialer: a reachable address, on a web port. *)
Definition safe_endpoint (policy : Policy) (e : string) : Prop :=
  exists a port, e = JoinHostPort (Addr_String a) port /\ (port = "80" \/ port = "443") /\
    wf a /\ reachable policy a.

Section GuardFacts.
Context {Conn : Type} (LookupNetIP : string -> res (list Addr)) (dial : nat -> string -> string -> res Conn).
Context (policy : Policy).

Lemma validate_ok l v v' :
  Forall wf l -> validate policy l v = Ok v' ->
  Forall (fun a => wf a /\ reachable policy a) v ->
  Forall (fun a => wf a /\ reachable policy a) v'.
Proof.
  revert v. induction l as [|a l IH]; intros v Hl; cbn [validate]; [by intros [= <-]|].
  apply Forall_cons in Hl as [Ha Hl].
  destruct (addressAllowed policy (Unmap a)) eqn:E; [|done]. cbn [negb].
  case_bool_decide; [by apply IH|]. intros Hv Hf. eapply IH; [done|exact Hv|].
  apply Forall_app. split; [done|]. apply Forall_singleton. split; [by apply Unmap_wf|].
  apply addressAllowed_reachable in E; [|by apply Unmap_wf]. by rewrite Unmap_idem in E.
Qed.

(** One address that is not reachable rejects the whole answer. *)
Lemma validate_rejects l v a :
  wf a -> a ∈ l -> ~ reachable policy (Unmap a) -> validate policy l v = Err ErrUnsafeTarget.
Proof.
  intros Hwf Hin Hr. revert v. induction l as [|b l IH]; intros v; [by apply elem_of_nil in Hin|].
  cbn [validate]. apply elem_of_cons in Hin as [<-|Hin].
  - destruct (addressAllowed policy (Unmap a)) eqn:E; [|done].
    apply addressAllowed_reachable in E; [|by apply Unmap_wf]. by rewrite Unmap_idem in E.
  - destruct (negb _); [done|]. case_bool_decide; by apply IH.
Qed.

Lemma resolve_ok host l :
  (forall h l, LookupNetIP h = Ok l -> Forall wf l) ->
  resolve LookupNetIP policy host = Ok l -> Forall (fun a => wf a /\ reachable policy a) l.
Proof.
  intros HL. unfold resolve. destruct (ParseAddr host) as [a|] eqn:Ep.
  - apply ParseAddr_wf in Ep. destruct (addressAllowed policy (Unmap a)) eqn:E; [|done].
    intros [= <-]. apply Forall_singleton. split; [by apply Unmap_wf|].
    apply addressAllowed_reachable in E; [|by apply Unmap_wf]. by rewrite Unmap_idem in E.
  - destruct (LookupNetIP host) as [[|b bs]|] eqn:El; [done| |done].
    destruct (validate policy (b :: bs) []) as [[|c cs]|] eqn:Ev; [done| |done].
    intros [= <-]. eapply validate_ok; [by eapply HL|exact Ev|constructor].
Qed.

Lemma try_addresses_safe n network port l tried r :
  Forall (fun a => wf a /\ reachable policy a) l -> (port = "80" \/ port = "443") ->
  try_addresses dial n network port l = (tried, r) ->
  Forall (safe_endpoint policy) tried /\
  (forall c, r = Ok c -> exists k e, last tried = Some e /\ dial k network e = Ok c).
Proof.
  intros Hl Hp. revert n tried r. induction Hl as [|a l [Hw Hr] Hl IH]; intros n tried r; cbn [try_addresses].
  { intros [= <- <-]. by split. }
  destruct (_ || _); [apply IH|].
  assert (safe_endpoint policy (JoinHostPort (Addr_String a) port)) as Hs by (by exists a, port).
  destruct (dial n network _) as [c|] eqn:Ed.
  { intros [= <- <-]. split; [by constructor|]. intros c' [= <-]. by exists n, (JoinHostPort (Addr_String a) port). }
  destruct (try_addresses dial (S n) network port l) as [t r'] eqn:Et. intros [= <- <-].
  apply IH in Et as [H1 H2]. split; [by constructor|]. intros c Hc. destruct (H2 c Hc) as (k & e' & Hk & He).
  exists k, e'. split; [|done]. destruct t; [done|]. exact Hk.
Qed.
End GuardFacts.

(** C23: whatever the resolver answers and the network does, a connection attempt of a
    check goes only to a reachable address on port 80 or 443, and a connection that is
    returned is one of those the dialer made.  A name with one answer that is not
    reachable is refused before anything is dialed. *)
Theorem DialContext_safe {Conn} (LookupNetIP : string -> res (list Addr)) (dial : nat -> string -> string -> res Conn)
    (policy : Policy) (network endpoint : string) :
  (forall host l, LookupNetIP host = Ok l -> Forall wf l) ->
  let (tried, r) := DialContext LookupNetIP dial policy network endpoint in
  Forall (safe_endpoint policy) tried /\
  (forall c, r = Ok c -> exists k e, last tried = Some e /\ dial k network e = Ok c) /\
  (forall host port l a, SplitHostPort endpoint = Some (host, port) -> ParseAddr host = None ->
     LookupNetIP host = Ok l -> a ∈ l -> ~ reachable policy (Unmap a) -> tried = [] /\ is_ok r = false).
Proof.
  intros HL. unfold DialContext.
  destruct (negb _ && negb _ && negb _); [by repeat split|].
  destruct (SplitHostPort endpoint) as [[host port]|] eqn:Es; [|by repeat split].
  destruct (negb _ && negb _) eqn:Ep; [by repeat split|].
  destruct (resolve LookupNetIP policy host) as [l|e] eqn:Er; [|by repeat split].
  destruct (try_addresses dial 0 network port l) as [tried r] eqn:Et.
  assert (port = "80" \/ port = "443") as Hp.
  { destruct (String.eqb_spec port "80"), (String.eqb_spec port "443"); auto. done. }
  pose proof (resolve_ok _ _ _ _ HL Er) as Hl.
  apply (try_addresses_safe dial policy) in Et as [H1 H2]; [|done..]. split_and!; [done..|].
  intros host' port' l' a [= <- <-] Hn Hlk Ha Hr. exfalso.
  unfold resolve in Er. rewrite Hn, Hlk in Er. destruct l' as [|b bs]; [by apply elem_of_nil in Ha|].
  rewrite (validate_rejects policy (b :: bs) [] a) in Er; [done| |done..].
  apply HL in Hlk. rewrite Forall_forall in Hlk. by apply Hlk.
Qed.

(** A resolver that answers with a public and a private address, as in a rebinding attack. *)
Definition rebinding (host : string) : res (list Addr) :=
  if String.eqb host "safe.test" then Ok [Addr4 (ip4 93 184 216 34)]
  else Ok [Addr4 (ip4 93 184 216 34); Addr6 (ip4 169 254 169 254 + 0xffff * 2 ^ 32) ""].

Lemma rebinding_wf host l : rebinding host = Ok l -> Forall wf l.
Proof.
  unfold rebinding. destruct (String.eqb host "safe.test"); intros [= <-];
    repeat constructor; vm_compute; congruence.
Qed.

Lemma DialContext_safe_witness :
  DialContext rebinding (fun _ _ e => Ok e) (mkPolicy [] 3) "tcp" "safe.test:443" =
    (["93.184.216.34:443"], Ok "93.184.216.34:443") /\
  DialContext rebinding (fun _ _ e => Ok e) (mkPolicy [] 3) "tcp" "evil.test:443" = ([], Err ErrUnsafeTarget) /\
  Forall (safe_endpoint (mkPolicy [] 3)) ["93.184.216.34:443"].
Proof.
  split; [vm_compute; reflexivity|]. split; [vm_compute; reflexivity|].
  exact (proj1 (DialContext_safe rebinding (fun _ _ e => Ok e) (mkPolicy [] 3) "tcp" "safe.test:443" rebinding_wf)).
Defined.
