(* ===== verification/Rfc3339.v ===== *)
(** * Instants as text (what the queues and the API use of package time)

    [Format] is [t.UTC().Format(time.RFC3339Nano)] and [Parse] is
    [time.Parse(time.RFC3339Nano, s)].  [time.Parse] tries the strict parser of RFC 3339
    first ([parseRFC3339]) and hands every text it refuses to the parser of general layouts,
    which is a parameter.  The calendar is also the one of the rollups.

    The theorem: every instant of the years 0 to 9999 is read back from its text, whatever
    the general parser does. *)

From stdpp Require Import base list strings.
From Stdlib Require Import ZArith Lia Ascii String Bool.
From S2P Require Import Prelude Bytes Destination.
Import Netip.

(** ** The calendar *)

Definition day_seconds : Z := 86400.

(** The proleptic Gregorian calendar: a day number (0 is 1970-01-01) and its year, month
    and day, with years that begin in March. *)
Definition civil_from_days (n : Z) : Z * Z * Z :=
  let z := n + 719468 in
  let era := z / 146097 in
  let doe := z mod 146097 in
  let yoe := (doe - doe / 1460 + doe / 36524 - doe / 146096) / 365 in
  let doy := doe - (365 * yoe + yoe / 4 - yoe / 100) in
  let mp := (5 * doy + 2) / 153 in
  let d := doy - (153 * mp + 2) / 5 + 1 in
  let m := if mp <? 10 then mp + 3 else mp - 9 in
  (yoe + era * 400 + (if m <=? 2 then 1 else 0), m, d).
(** A day past the end of its month counts on into the next one, as in time.Date. *)
Definition days_from_civil (y m d : Z) : Z :=
  let y := y - (if m <=? 2 then 1 else 0) in
  let era := y / 400 in
  let yoe := y mod 400 in
  let mp := if 2 <? m then m - 3 else m + 9 in
  let doy := (153 * mp + 2) / 5 + d - 1 in
  era * 146097 + (yoe * 365 + yoe / 4 - yoe / 100 + doy) - 719468.

(** Days before the March of year [y]. *)
Definition year_start (y : Z) : Z := 365 * y + y / 4 - y / 100 + y / 400.

Lemma civil_year n : let '(y, m, d) := civil_from_days n in
  exists Y doy, n + 719468 = year_start Y + doy /\ forall k, days_from_civil (y + k) m d + 719468 = year_start (Y + k) + doy.
Proof.
  unfold civil_from_days. cbv zeta. set (z := n + 719468). set (doe := z mod 146097). set (era := z / 146097).
  set (yoe := (doe - doe / 1460 + doe / 36524 - doe / 146096) / 365).
  set (doy := doe - (365 * yoe + yoe / 4 - yoe / 100)). set (mp := (5 * doy + 2) / 153).
  assert (0 <= doe < 146097) as Hdoe by (apply Z.mod_pos_bound; lia).
  assert (0 <= yoe <= 399) as Hyoe by (unfold yoe; clearbody doe; clear -Hdoe; Z.to_euclidean_division_equations; lia).
  assert (0 <= doy <= 365) as Hdoy by (unfold doy, yoe; clearbody doe; clear -Hdoe; Z.to_euclidean_division_equations; lia).
  assert (0 <= mp <= 11) as Hmp by (unfold mp; clearbody doy; clear -Hdoy; Z.to_euclidean_division_equations; lia).
  exists (yoe + era * 400), doy. split.
  - unfold year_start. assert (z = 146097 * era + doe) as Hz by (apply Z.div_mod; lia). clearbody era z. unfold doy. clearbody yoe doe.
    clear -Hyoe Hz. Z.to_euclidean_division_equations; lia.
  - intros k. unfold days_from_civil, year_start. clearbody mp. clearbody doy. clearbody yoe. clearbody era. clear -Hyoe Hmp.
    destruct (Z.ltb_spec mp 10); [rewrite (proj2 (Z.leb_gt (mp + 3) 2)), (proj2 (Z.ltb_lt 2 (mp + 3))) by lia
                                 |rewrite (proj2 (Z.leb_le (mp - 9) 2)), (proj2 (Z.ltb_ge 2 (mp - 9))) by lia];
      Z.to_euclidean_division_equations; lia.
Qed.

(** ** Printing *)

(** [w] decimal digits of [n]. *)
Fixpoint pad (w : nat) (n : Z) : string :=
  match w with
  | O => ""
  | S k => String (hex_digit (n / 10 ^ Z.of_nat k mod 10)) (pad k n)
  end.
(** [appendInt(b, x, width)]: at least [width] digits. *)
Definition appendInt (x : Z) (width : nat) : string :=
  let u := Z.abs x in
  (if x <? 0 then "-" else "") +:+ (if u <? 10 ^ Z.of_nat width then pad width u else print_digits 20 10 u "").

Fixpoint trim_zeros (s : string) : string :=
  match s with
  | "" => ""
  | String c r => let r := trim_zeros r in if String.eqb r "" && Ascii.eqb c "0" then "" else String c r
  end.
(** [appendNano]: the fraction without trailing zeros, nothing for a whole second. *)
Definition appendNano (nanosec : Z) : string :=
  let f := trim_zeros (pad 9 nanosec) in if String.eqb f "" then "" else "." +:+ f.

Definition Format (t : Z) : string :=
  let sec := t / second in
  let '(y, m, d) := civil_from_days (sec / day_seconds) in
  let s := sec mod day_seconds in
  appendInt y 4 +:+ "-" +:+ appendInt m 2 +:+ "-" +:+ appendInt d 2 +:+ "T" +:+
  appendInt (s / 3600) 2 +:+ ":" +:+ appendInt (s / 60 mod 60) 2 +:+ ":" +:+ appendInt (s mod 60) 2 +:+
  appendNano (t mod second) +:+ "Z".

(** ** Parsing *)

(** [parseUint] on the next [w] bytes. *)
Fixpoint take_digits (w : nat) (acc : Z) (s : string) : option (Z * string) :=
  match w, s with
  | O, _ => Some (acc, s)
  | S w, String c r => d ← digit c; take_digits w (acc * 10 + d) r
  | S _, "" => None
  end.
Definition parseUint (w : nat) (min max : Z) (s : string) : option (Z * string) :=
  '(x, r) ← take_digits w 0 s;
  if (x <? min) || (max <? x) then None else Some (x, r).
Definition expect (c : ascii) (s : string) : option string :=
  match s with String d r => if Ascii.eqb d c then Some r else None | "" => None end.

Definition leap (y : Z) : bool := (y mod 4 =? 0) && (negb (y mod 100 =? 0) || (y mod 400 =? 0)).
Definition daysIn (m y : Z) : Z :=
  if m =? 2 then (if leap y then 29 else 28)
  else if (m =? 4) || (m =? 6) || (m =? 9) || (m =? 11) then 30 else 31.

(** [parseNanoseconds]: the first nine digits count, the rest of the digits is read. *)
Fixpoint fraction (w : nat) (s : string) : Z * string :=
  match s with
  | String c r =>
      match digit c with
      | Some d => let '(v, rest) := fraction (pred w) r in
                  ((match w with O => 0 | S k => d * 10 ^ Z.of_nat k end) + v, rest)
      | None => (0, s)
      end
  | "" => (0, "")
  end.
Definition parse_fraction (s : string) : Z * string :=
  match s with
  | String p (String c r) =>
      if Ascii.eqb p "." && bool_decide (is_Some (digit c)) then fraction 9 (String c r) else (0, s)
  | _ => (0, s)
  end.

(** The zone, in seconds east of UTC. *)
Definition parse_zone (s : string) : option Z :=
  if String.eqb s "Z" then Some 0
  else match s with
       | String sign r =>
           '(hr, r) ← parseUint 2 0 23 r;
           r ← expect ":" r;
           '(mm, r) ← parseUint 2 0 59 r;
           if negb (String.eqb r "") then None
           else if Ascii.eqb sign "-" then Some (- ((hr * 60 + mm) * 60))
           else if Ascii.eqb sign "+" then Some ((hr * 60 + mm) * 60) else None
       | "" => None
       end.

Definition parseRFC3339 (s : string) : option Z :=
  '(year, s) ← parseUint 4 0 9999 s; s ← expect "-" s;
  '(month, s) ← parseUint 2 1 12 s; s ← expect "-" s;
  '(d, s) ← parseUint 2 1 (daysIn month year) s; s ← expect "T" s;
  '(h, s) ← parseUint 2 0 23 s; s ← expect ":" s;
  '(min, s) ← parseUint 2 0 59 s; s ← expect ":" s;
  '(sec, s) ← parseUint 2 0 59 s;
  let '(nsec, s) := parse_fraction s in
  zone ← parse_zone s;
  Some ((days_from_civil year month d * day_seconds + h * 3600 + min * 60 + sec - zone) * second + nsec).

Definition Parse (general : string -> option Z) (s : string) : option Z :=
  match parseRFC3339 s with Some t => Some t | None => general s end.

(** ** Reading back *)

Lemma digit_hex d : 0 <= d < 10 -> digit (hex_digit d) = Some d.
Proof.
  intros Hd. unfold digit, hex_digit. rewrite (proj2 (Z.ltb_lt d 10)) by lia.
  rewrite val_of_byte_small by lia.
  rewrite (proj2 (Z.leb_le 48 (48 + d))), (proj2 (Z.leb_le (48 + d) 57)) by lia. simpl. f_equal. lia.
Qed.

Lemma digit_pad n k : digit (hex_digit (n / 10 ^ Z.of_nat k mod 10)) = Some (n / 10 ^ Z.of_nat k mod 10).
Proof. apply digit_hex. apply Z.mod_pos_bound. lia. Qed.

Lemma mod_digit n k : n mod 10 ^ Z.of_nat (S k) = (n / 10 ^ Z.of_nat k mod 10) * 10 ^ Z.of_nat k + n mod 10 ^ Z.of_nat k.
Proof.
  assert (0 < 10 ^ Z.of_nat k) by (apply Z.pow_pos_nonneg; lia).
  rewrite Nat2Z.inj_succ, Z.pow_succ_r by lia. rewrite (Z.mul_comm 10). rewrite Z.rem_mul_r by lia. lia.
Qed.

Lemma take_pad w acc n rest : take_digits w acc (pad w n +:+ rest) = Some (acc * 10 ^ Z.of_nat w + n mod 10 ^ Z.of_nat w, rest).
Proof.
  revert acc. induction w as [|w IH]; intros acc; [simpl; rewrite Z.mod_1_r; do 2 f_equal; lia|].
  cbn [pad]. change (String ?c ?s +:+ rest) with (String c (s +:+ rest)). cbn [take_digits]. rewrite digit_pad. cbn [mbind option_bind]. rewrite IH.
  do 2 f_equal. rewrite mod_digit, Nat2Z.inj_succ, Z.pow_succ_r by lia. lia.
Qed.

Lemma parse_printed w min max n rest : 0 <= n < 10 ^ Z.of_nat w -> min <= n <= max ->
  parseUint w min max (appendInt n w +:+ rest) = Some (n, rest).
Proof.
  intros Hn Hr. unfold parseUint, appendInt. destruct (Z.ltb_spec n 0); [lia|]. rewrite Z.abs_eq by lia.
  destruct (Z.ltb_spec n (10 ^ Z.of_nat w)); [|lia]. change ("" +:+ pad w n) with (pad w n). rewrite take_pad. simpl.
  rewrite Z.mod_small, Z.mul_0_l, Z.add_0_l by lia. destruct (Z.ltb_spec n min); [lia|]. destruct (Z.ltb_spec max n); [lia|]. done.
Qed.

Lemma expect_printed c rest : expect c (String c "" +:+ rest) = Some rest.
Proof. change (String c "" +:+ rest) with (String c rest). simpl. by rewrite Ascii.eqb_refl. Qed.

Lemma fraction_trimmed w n c : digit c = None -> fraction w (trim_zeros (pad w n) +:+ String c "") = (n mod 10 ^ Z.of_nat w, String c "").
Proof.
  intros Hc. induction w as [|w IH].
  { cbn [pad trim_zeros]. change ("" +:+ String c "") with (String c ""). cbn [fraction]. rewrite Hc. by rewrite Z.mod_1_r. }
  cbn [pad trim_zeros]. rewrite mod_digit. destruct (String.eqb_spec (trim_zeros (pad w n)) "") as [E|E].
  - rewrite andb_true_l. destruct (Ascii.eqb_spec (hex_digit (n / 10 ^ Z.of_nat w mod 10)) "0") as [Ez|Ez].
    + pose proof (digit_pad n w) as Hd. rewrite Ez in Hd. injection Hd as Hd. rewrite <- Hd. rewrite E in IH.
      change ("" +:+ String c "") with (String c "") in *. cbn [fraction] in *. rewrite Hc in *. injection IH as <-. done.
    + change (String ?a ?s +:+ String c "") with (String a (s +:+ String c "")). cbn [fraction pred]. rewrite digit_pad, IH. done.
  - rewrite andb_false_l. change (String ?a ?s +:+ String c "") with (String a (s +:+ String c "")). cbn [fraction pred]. rewrite digit_pad, IH. done.
Qed.

(** The days of a year that begins in March, and the years of one cycle of the calendar
    whose last day is the 29th of February. *)
Definition month_of (doy : Z) : Z := let mp := (5 * doy + 2) / 153 in if mp <? 10 then mp + 3 else mp - 9.
Definition day_of (doy : Z) : Z := doy - (153 * ((5 * doy + 2) / 153) + 2) / 5 + 1.
Definition year_of (doe : Z) : Z := (doe - doe / 1460 + doe / 36524 - doe / 146096) / 365.
Definition first_of (yoe : Z) : Z := 365 * yoe + yoe / 4 - yoe / 100.

Lemma days_check : forallb (fun doy => (1 <=? month_of doy) && (month_of doy <=? 12) && (1 <=? day_of doy) &&
  (day_of doy <=? daysIn (month_of doy) (if doy =? 365 then 4 else 5))) (seqZ 0 366) = true.
Proof. vm_compute. reflexivity. Qed.
Lemma years_check : forallb (fun yoe => negb (year_of (first_of yoe + 365) =? yoe) || leap (yoe + 1)) (seqZ 0 400) = true.
Proof. vm_compute. reflexivity. Qed.

Lemma in_seqZ (f : Z -> bool) n x : forallb f (seqZ 0 n) = true -> 0 <= x < n -> f x = true.
Proof. rewrite forallb_forall. intros H Hx. apply H, list_elem_of_In, elem_of_seqZ. lia. Qed.

Lemma day_in_month doy y : 0 <= doy <= 365 -> (doy = 365 -> leap y = true) ->
  1 <= month_of doy <= 12 /\ 1 <= day_of doy <= daysIn (month_of doy) y.
Proof.
  intros Hd Hl. pose proof (in_seqZ _ _ doy days_check ltac:(lia)) as H. cbv beta in H.
  rewrite !andb_true_iff, !Z.leb_le in H. destruct H as [[[Hm0 Hm1] Hd0] Hd1]. split; [done|]. split; [done|].
  etrans; [exact Hd1|]. unfold daysIn. destruct (Z.eqb_spec doy 365) as [E|_].
  - rewrite (Hl E). change (leap 4) with true. apply Z.le_refl.
  - change (leap 5) with false. repeat case_match; lia.
Qed.

Lemma leap_cycle y k : leap (y + k * 400) = leap y.
Proof.
  unfold leap. replace (y + k * 400) with (y + (k * 100) * 4) at 1 by lia. rewrite Z_mod_plus_full.
  replace (y + k * 400) with (y + (k * 4) * 100) at 1 by lia. by rewrite !Z_mod_plus_full.
Qed.

Lemma civil_ok n : let '(y, m, d) := civil_from_days n in
  1 <= m <= 12 /\ 1 <= d <= daysIn m y /\ days_from_civil y m d = n /\
  400 * ((n + 719468) / 146097) <= y <= 400 * ((n + 719468) / 146097) + 400.
Proof.
  pose proof (civil_year n) as H. unfold civil_from_days in *. cbv zeta in *.
  set (doe := (n + 719468) mod 146097) in *. set (era := (n + 719468) / 146097) in *.
  assert (0 <= doe < 146097) as Hdoe by (apply Z.mod_pos_bound; lia). fold (year_of doe) in *. set (yoe := year_of doe) in *.
  fold (first_of yoe) in *. set (doy := doe - first_of yoe) in *. fold (month_of doy) (day_of doy) in *. set (y := _ + _ + _) in *.
  assert (0 <= yoe <= 399) as Hyoe by (unfold yoe, year_of; clearbody doe; clear -Hdoe; Z.to_euclidean_division_equations; lia).
  assert (0 <= doy <= 365) as Hdoy by (unfold doy, first_of, yoe, year_of; clearbody doe; clear -Hdoe; Z.to_euclidean_division_equations; lia).
  assert (doy = 365 -> leap y = true) as Hleap.
  { intros E. pose proof (in_seqZ _ _ yoe years_check ltac:(lia)) as Hy. cbv beta in Hy.
    replace (first_of yoe + 365) with doe in Hy by lia. fold yoe in Hy. rewrite Z.eqb_refl in Hy. simpl in Hy.
    unfold y. rewrite E. change (month_of 365) with 2. simpl. replace (yoe + era * 400 + 1) with (yoe + 1 + era * 400) by lia. by rewrite leap_cycle. }
  destruct (day_in_month doy y Hdoy Hleap) as [Hm Hd]. split; [done|]. split; [done|]. split.
  - destruct H as (Y & doy' & Hn & Hk). specialize (Hk 0). rewrite !Z.add_0_r in Hk. lia.
  - unfold y. destruct (_ <=? 2); lia.
Qed.

(** The instants of the years 0 to 9999. *)
Definition printable_time (t : Z) : Prop := -62167219200 * second <= t < 253402300800 * second.

Lemma civil_year_range n : -719528 <= n < 2932897 -> let '(y, _, _) := civil_from_days n in 0 <= y <= 9999.
Proof.
  intros Hn. pose proof (civil_ok n) as H. destruct (civil_from_days n) as [[y m] d]. destruct H as (Hm & Hd & Hn' & _).
  assert (1 <= d <= 31) as Hd' by (unfold daysIn in Hd; repeat case_match; lia). subst n. clear Hd. unfold days_from_civil in Hn.
  destruct (Z.leb_spec m 2), (Z.ltb_spec 2 m); try lia; Z.to_euclidean_division_equations; lia.
Qed.

Lemma trimmed_head w n : trim_zeros (pad w n) = "" \/ exists d r, digit d <> None /\ trim_zeros (pad w n) = String d r.
Proof.
  destruct w as [|w]; [by left|]. cbn [pad trim_zeros]. destruct (_ && _); [by left|right]. eexists _, _. split; [|done]. by rewrite digit_pad.
Qed.

Lemma fraction_printed n : 0 <= n < second -> parse_fraction (appendNano n +:+ "Z") = (n, "Z").
Proof.
  intros Hn. assert (digit "Z" = None) as Hz by done. pose proof (fraction_trimmed 9 n "Z" Hz) as Hf.
  rewrite Z.mod_small in Hf by (unfold second in Hn; simpl; lia). unfold appendNano. cbv zeta.
  destruct (trimmed_head 9 n) as [E|(d & r & Hd & E)]; rewrite E in *.
  - change ("" +:+ "Z") with "Z" in *. injection Hf as <-. done.
  - change (String.eqb (String d r) "") with false. cbv iota. change (("." +:+ String d r) +:+ "Z") with (String "." (String d r +:+ "Z")).
    change (String d r +:+ "Z") with (String d (r +:+ "Z")) in *. unfold parse_fraction.
    rewrite bool_decide_eq_true_2 by (by apply not_eq_None_Some). done.
Qed.

(** The fields [Format] prints are in range. *)
Lemma fields_ok t : printable_time t ->
  let n := t / second / day_seconds in let s := (t / second) mod day_seconds in
  let '(y, m, d) := civil_from_days n in
  0 <= y <= 9999 /\ 1 <= m <= 12 /\ 1 <= d <= daysIn m y /\ d <= 31 /\ days_from_civil y m d = n /\
  0 <= s / 3600 <= 23 /\ 0 <= s / 60 mod 60 <= 59 /\ 0 <= s mod 60 <= 59.
Proof.
  intros Ht. cbv zeta. set (n := t / second / day_seconds).
  assert (-719528 <= n < 2932897) as Hn by (unfold n, printable_time, second, day_seconds in *; Z.to_euclidean_division_equations; lia).
  pose proof (civil_ok n) as Hc. pose proof (civil_year_range n Hn) as Hy. destruct (civil_from_days n) as [[y m] d].
  destruct Hc as (Hm & Hd & Hback & _). set (s := (t / second) mod day_seconds).
  assert (0 <= s < 86400) as Hs by (apply Z.mod_pos_bound; unfold day_seconds; lia).
  assert (d <= 31) as Hd31 by (unfold daysIn in Hd; repeat case_match; lia). repeat (split; [done|]).
  clearbody s. clear -Hs. Z.to_euclidean_division_equations; lia.
Qed.

Ltac next_field := rewrite parse_printed by (simpl; lia); cbn [mbind option_bind]; rewrite ?expect_printed; cbn [mbind option_bind].

Theorem Parse_Format general t : printable_time t -> Parse general (Format t) = Some t.
Proof.
  intros Ht. unfold Parse. assert (parseRFC3339 (Format t) = Some t) as ->; [|done]. unfold Format, parseRFC3339.
  pose proof (fields_ok t Ht) as Hf. cbv zeta in Hf. set (n := t / second / day_seconds) in *. set (s := (t / second) mod day_seconds) in *.
  destruct (civil_from_days n) as [[y m] d]. destruct Hf as (Hy & Hm & Hd & Hd31 & Hback & Hh & Hmin & Hsec).
  do 6 next_field.
  rewrite fraction_printed by (apply Z.mod_pos_bound; unfold second; lia). cbn [mbind option_bind parse_zone]. change (parse_zone "Z") with (Some 0).
  cbn [mbind option_bind]. f_equal. rewrite Hback. unfold n, s in *. clear -t. unfold day_seconds, second in *. Z.to_euclidean_division_equations; lia.
Qed.

Lemma Format_nonempty t : Format t <> "".
Proof.
  intros E. assert (contains_char (Format t) "T" = true) as H; [|by rewrite E in H].
  unfold Format. destruct (civil_from_days _) as [[y m] d]. rewrite !contains_char_app. cbn. by rewrite !orb_true_r.
Qed.

(** No instant prints a separator of the cursors. *)
Lemma pad_clean c w n : digit c = None -> contains_char (pad w n) c = false.
Proof.
  intros Hc. induction w as [|w IH]; [done|]. cbn [pad contains_char]. rewrite IH, orb_false_r. apply Ascii.eqb_neq. intros E.
  pose proof (digit_pad n w) as Hd. rewrite <- E in Hd. congruence.
Qed.

Lemma trim_clean c s : contains_char s c = false -> contains_char (trim_zeros s) c = false.
Proof.
  induction s as [|d s IH]; [done|]. cbn [trim_zeros contains_char]. intros [Hd Hs]%orb_false_iff. destruct (_ && _); [done|].
  cbn [contains_char]. by rewrite Hd, IH.
Qed.

Lemma Format_clean t : printable_time t -> contains_char (Format t) "|" = false.
Proof.
  intros Ht. unfold Format.
  pose proof (fields_ok t Ht) as Hf. cbv zeta in Hf. set (n := t / second / day_seconds) in *. set (s := (t / second) mod day_seconds) in *.
  destruct (civil_from_days n) as [[y m] d]. destruct Hf as (Hy & Hm & Hd & Hd31 & Hback & Hh & Hmin & Hsec).
  assert (forall x w, 0 <= x < 10 ^ Z.of_nat w -> contains_char (appendInt x w) "|" = false) as Hint.
  { intros x w Hx. unfold appendInt. destruct (Z.ltb_spec x 0); [lia|]. rewrite Z.abs_eq by lia. destruct (Z.ltb_spec x (10 ^ Z.of_nat w)); [|lia].
    change ("" +:+ pad w x) with (pad w x). by apply pad_clean. }
  assert (contains_char (appendNano (t mod second)) "|" = false) as Hnano.
  { unfold appendNano. cbv zeta. case_match; [done|]. change (contains_char (trim_zeros (pad 9 (t mod second))) "|" = false). by apply trim_clean, pad_clean. }
  rewrite !contains_char_app, !Hint by (simpl; lia). by rewrite Hnano.
Qed.
