(* ===== verification/HttpClient.v ===== *)
(** * The HTTP client of a check (src/internal/destination/safety.go)

    The URL policy ([ValidateURL], [validateURLForPolicy]), the validating transport
    and the redirect rule the client installs, composed with the redirect loop of
    net/http's [Client.Do] as its documentation describes it: the headers of the
    initial request are sent again on every redirect.  The theorems bound the
    requests of a check, show that each of them passed the URL policy, and follow
    the monitor's own headers along the chain. *)

From stdpp Require Import base gmap list strings.
From Stdlib Require Import ZArith Lia Ascii String Bool.
From S2P Require Import Prelude Bytes Sealing Destination.
Import Netip.

(** ** Package net/url *)

Record URL : Type := mkURL {
  u_Scheme : string;
  u_Opaque : string;
  u_User : option string;
  u_Host : string;
  u_Path : string;
  u_RawQuery : string;
  u_Fragment : string
}.

#[global] Instance URL_eq_dec : EqDecision URL.
Proof. solve_decision. Defined.

(** [url.Parse], [URL.String] and [URL.Parse] (a reference relative to a URL). *)
Class UrlLib : Type := {
  url_Parse : string -> option URL;
  url_String : URL -> string;
  url_Ref : URL -> string -> option URL
}.

Fixpoint all_digits (s : string) : bool :=
  match s with
  | "" => true
  | String c r => match digit c with Some _ => all_digits r | None => false end
  end.

(** [splitHostPort] of net/url, behind [Hostname] and [Port]. *)
Definition splitHostPort (hostPort : string) : string * string :=
  let (host, port) :=
    match cut_last ":" hostPort with
    | Some (h, p) => if all_digits p then (h, p) else (hostPort, "")
    | None => (hostPort, "")
    end in
  (if has_prefix host "[" && has_suffix host "]"
   then String.substring 1 (String.length host - 2) host else host, port).

Definition Hostname (u : URL) : string := (splitHostPort (u_Host u)).1.
Definition Port (u : URL) : string := (splitHostPort (u_Host u)).2.
Definition IsAbs (u : URL) : bool := negb (String.eqb (u_Scheme u) "").

(** [strings.EqualFold] on ASCII. *)
Definition EqualFold (a b : string) : bool := String.eqb (to_lower a) (to_lower b).

(** ** The URL policy *)

Section Policy.
Context `{UrlLib}.

Definition ValidateURL (rawURL : string) : option error :=
  match url_Parse rawURL with
  | None => Some ErrInvalidTarget
  | Some parsed =>
      if negb (IsAbs parsed) || negb (String.eqb (u_Opaque parsed) "") || String.eqb (u_Host parsed) ""
         || bool_decide (is_Some (u_User parsed)) || negb (String.eqb (u_Fragment parsed) "")
      then Some ErrInvalidTarget
      else if negb (String.eqb (to_lower (u_Scheme parsed)) "http" || String.eqb (to_lower (u_Scheme parsed)) "https")
      then Some ErrInvalidTarget
      else
        let host := Hostname parsed in
        if String.eqb host "" || has_suffix (u_Host parsed) ":" || contains_char host "%" then Some ErrInvalidTarget
        else
          let port := Port parsed in
          if negb (String.eqb port "") && negb (String.eqb port "80") && negb (String.eqb port "443")
          then Some ErrUnsafeTarget
          else
            let canonicalHost := trim_suffix (to_lower host) "." in
            if String.eqb canonicalHost "localhost" || has_suffix canonicalHost ".localhost" then Some ErrUnsafeTarget
            else match ParseAddr host with
                 | Some address => if negb (isPublicAddress address) then Some ErrUnsafeTarget else None
                 | None => None
                 end
  end.

Definition validateURLForPolicy (raw : string) (policy : Policy) : option error :=
  match ValidateURL raw with
  | None => None
  | Some err =>
      match url_Parse raw with
      | None => Some err
      | Some parsed =>
          match ParseAddr (Hostname parsed) with
          | None => Some err
          | Some address => if addressAllowed policy address then None else Some err
          end
      end
  end.
End Policy.

(** ** Requests, responses and errors *)

Abbreviation Header := (gmap string string).
Definition header_Get (h : Header) (k : string) : string :=
  default "" (h !! Secureheaders.CanonicalHeaderKey k).
Definition header_Set (k v : string) (h : Header) : Header := <[Secureheaders.CanonicalHeaderKey k := v]> h.

Record Request : Type := mkRequest { rq_Method : string; rq_URL : URL; rq_Header : Header }.

(** A response as the check reads it: the status, the [Location] header, and the body:
    its length, whether reading or closing it fails. *)
Record Response : Type := mkResponse {
  rs_StatusCode : Z;
  rs_Location : string;
  rs_BodyLength : Z;
  rs_ReadError : bool;
  rs_CloseError : bool
}.

(** Errors as [errors.Is] and [errors.As] see them: a chain of wrapped errors. *)
Inductive goerr : Type :=
| ESentinel (e : error)                    (* a value made by errors.New, compared by identity *)
| EDNS (timeout : bool)                    (* *net.DNSError *)
| ECertificate                             (* *tls.CertificateVerificationError *)
| EUnknownAuthority                        (* x509.UnknownAuthorityError *)
| EHostname                                (* x509.HostnameError *)
| EOp (timeout : bool) (inner : goerr)     (* *net.OpError *)
| EUrl (inner : goerr)                     (* *url.Error, what [Client.Do] returns *)
| EOther (text : string).

Section Client.
Context `{UrlLib}.

(** The transport below the validation, given the number of requests sent before. *)
Variable base : nat -> Request -> Response + goerr.
(** Of net/http: the [Referer] of a redirect, and whether a redirect may keep the
    sensitive headers of the initial request. *)
Variable refererForURL : URL -> URL -> string -> string.
Variable shouldCopyHeaderOnRedirect : URL -> URL -> bool.
Variable policy : Policy.

(** [validatingTransport.RoundTrip]: the request reaches the transport only when its
    URL passes; the flag says whether it did. *)
Definition RoundTrip (n : nat) (request : Request) : bool * (Response + goerr) :=
  match validateURLForPolicy (url_String (rq_URL request)) policy with
  | Some _ => (false, inr (ESentinel ErrUnsafeTarget))
  | None => (true, base n request)
  end.

Definition redirect_limit : error := ErrorsNew "redirect limit exceeded".

(** The [CheckRedirect] of the client: the request with the headers it leaves. *)
Definition CheckRedirect (request : Request) (prior : list Request) : Request + error :=
  if (MaxRedirects policy <? 0) || (MaxRedirects policy <? Z.of_nat (Datatypes.length prior)) then inr redirect_limit
  else match validateURLForPolicy (url_String (rq_URL request)) policy with
       | Some _ => inr ErrUnsafeTarget
       | None =>
           match last prior with
           | Some previous =>
               if negb (EqualFold (Hostname (rq_URL previous)) (Hostname (rq_URL request))) then
                 let userAgent := header_Get (rq_Header request) "User-Agent" in
                 let jobID := header_Get (rq_Header request) "X-WatchTrace-Job-ID" in
                 inl (mkRequest (rq_Method request) (rq_URL request)
                   (header_Set "X-WatchTrace-Job-ID" jobID (header_Set "User-Agent" userAgent ∅)))
               else inl request
           | None => inl request
           end
       end.

Definition redirects (status : Z) : bool :=
  (status =? 301) || (status =? 302) || (status =? 303) || (status =? 307) || (status =? 308).

Definition sensitive (name : string) : bool :=
  bool_decide (name ∈ ["Authorization"; "Www-Authenticate"; "Cookie"; "Cookie2";
                       "Proxy-Authorization"; "Proxy-Authenticate"]).

(** The headers of the initial request, copied to a redirected one. *)
Definition copyHeaders (initial : Header) (strip : bool) : Header :=
  filter (fun kv => negb (strip && sensitive kv.1) = true) initial.

(** The redirect loop of [Client.Do]: [reqs] are the requests sent so far, [strip] is
    set once the chain left the initial domain.  [fuel] bounds the rounds; the requests
    that reach the transport and the answer, [None] when the fuel ran out. *)
Fixpoint do_loop (fuel : nat) (initial : Request) (reqs : list Request) (strip : bool) (req : Request) :
    list Request * option (Response + goerr) :=
  match fuel with
  | O => ([], None)
  | S fuel =>
      let (sent, answer) := RoundTrip (Datatypes.length reqs) req in
      let here := if sent then [req] else [] in
      match answer with
      | inr e => (here, Some (inr (EUrl e)))
      | inl resp =>
          if negb (redirects (rs_StatusCode resp)) || String.eqb (rs_Location resp) ""
          then (here, Some (inl resp))
          else match url_Ref (rq_URL req) (rs_Location resp) with
               | None => (here, Some (inr (EUrl (EOther "failed to parse Location header"))))
               | Some u =>
                   let strip := strip || (negb (String.eqb (u_Host (rq_URL initial)) (u_Host u))
                                         && negb (shouldCopyHeaderOnRedirect (rq_URL initial) u)) in
                   let header := copyHeaders (rq_Header initial) strip in
                   let ref := refererForURL (rq_URL req) u (header_Get header "Referer") in
                   let header := if String.eqb ref "" then header else header_Set "Referer" ref header in
                   match CheckRedirect (mkRequest (rq_Method req) u header) (reqs ++ [req]) with
                   | inr e => (here, Some (inr (EUrl (ESentinel e))))
                   | inl next =>
                       let (more, r) := do_loop fuel initial (reqs ++ [req]) strip next in
                       (here ++ more, r)
                   end
               end
      end
  end.

(** At most [MaxRedirects] redirects are followed. *)
Definition Do (req : Request) : list Request * option (Response + goerr) :=
  do_loop (S (S (Z.to_nat (MaxRedirects policy)))) req [] false req.
End Client.

(** ** Facts *)

Definition allowed_url `{UrlLib} (policy : Policy) (r : Request) : Prop :=
  validateURLForPolicy (url_String (rq_URL r)) policy = None.

Definition same_host (p q : Request) : bool := EqualFold (Hostname (rq_URL p)) (Hostname (rq_URL q)).

(** The two headers the client keeps when the host changes, in canonical form. *)
Definition UserAgentKey : string := "User-Agent".
Definition JobIDKey : string := "X-Watchtrace-Job-Id".

(** How the headers of the initial request travel from one request to the next. *)
Record hop (initial p q : Request) : Prop := {
  hop_stripped : same_host p q = false ->
    rq_Header q = <[JobIDKey := header_Get (rq_Header initial) JobIDKey]>
      (<[UserAgentKey := header_Get (rq_Header initial) UserAgentKey]> ∅);
  hop_restored : same_host p q = true ->
    forall k v, rq_Header initial !! k = Some v -> sensitive k = false -> k <> "Referer" ->
      rq_Header q !! k = Some v;
  hop_known : same_host p q = true ->
    forall k v, rq_Header q !! k = Some v -> rq_Header initial !! k = Some v \/ k = "Referer"
}.

(** Consecutive requests of a list, the first one following [p]. *)
Fixpoint hops (initial : Request) (p : option Request) (l : list Request) : Prop :=
  match l with
  | [] => True
  | q :: l => (forall p', p = Some p' -> hop initial p' q) /\ hops initial (Some q) l
  end.

(** The URL of a request is one to which net/http does not carry the sensitive headers. *)
Definition left_domain (keep : URL -> URL -> bool) (initial q : Request) : bool :=
  negb (String.eqb (u_Host (rq_URL initial)) (u_Host (rq_URL q))) && negb (keep (rq_URL initial) (rq_URL q)).

Definition no_credentials (q : Request) : Prop := forall k, sensitive k = true -> rq_Header q !! k = None.

(** From the first request that leaves the domain on, no request has sensitive headers. *)
Fixpoint withheld (keep : URL -> URL -> bool) (initial : Request) (out : bool) (l : list Request) : Prop :=
  match l with
  | [] => True
  | q :: l =>
      let out := out || left_domain keep initial q in
      (out = true -> no_credentials q) /\ withheld keep initial out l
  end.

Section Facts.
Context `{UrlLib} (base : nat -> Request -> Response + goerr).
Context (refererForURL : URL -> URL -> string -> string) (keep : URL -> URL -> bool) (policy : Policy).

Lemma CheckRedirect_ok req prior next :
  CheckRedirect policy req prior = inl next ->
  Z.of_nat (Datatypes.length prior) <= MaxRedirects policy /\ allowed_url policy next /\ rq_URL next = rq_URL req.
Proof.
  unfold CheckRedirect. destruct (_ || _) eqn:E; [done|].
  destruct (validateURLForPolicy _ policy) eqn:Ev; [done|]. intros Hn.
  split; [lia|]. destruct (last prior) as [p|]; [destruct (negb _)|]; simplify_eq; by split.
Qed.

(** A header of the initial request that is not sensitive survives the copy and the referer. *)
Lemma copied k v initial strip ref :
  initial !! k = Some v -> sensitive k = false -> k <> "Referer" ->
  (if String.eqb ref "" then copyHeaders initial strip
   else header_Set "Referer" ref (copyHeaders initial strip)) !! k = Some v.
Proof.
  intros Hk Hs Hr.
  assert (copyHeaders initial strip !! k = Some v) as Hc.
  { apply map_lookup_filter_Some. split; [done|]. simpl. by rewrite Hs, andb_false_r. }
  destruct (String.eqb ref ""); [done|]. unfold header_Set. rewrite lookup_insert_ne; [done|].
  by change (Secureheaders.CanonicalHeaderKey "Referer") with "Referer".
Qed.

(** What a redirected request has beside the copy is the referer. *)
Lemma copy_known k v initial strip ref :
  (if String.eqb ref "" then copyHeaders initial strip
   else header_Set "Referer" ref (copyHeaders initial strip)) !! k = Some v ->
  (initial !! k = Some v /\ negb (strip && sensitive k) = true) \/ k = "Referer".
Proof.
  assert (copyHeaders initial strip !! k = Some v -> initial !! k = Some v /\ negb (strip && sensitive k) = true) as Hc
    by apply map_lookup_filter_Some.
  destruct (String.eqb ref ""); [by left; apply Hc|]. unfold header_Set.
  change (Secureheaders.CanonicalHeaderKey "Referer") with "Referer".
  intros [[<- _]|[_ Hl]]%lookup_insert_Some; [by right|left; by apply Hc].
Qed.

Lemma copy_same k initial strip ref : sensitive k = false -> k <> "Referer" ->
  (if String.eqb ref "" then copyHeaders initial strip
   else header_Set "Referer" ref (copyHeaders initial strip)) !! k = initial !! k.
Proof.
  intros Hs Hr. destruct (initial !! k) as [v|] eqn:E; [by apply copied|].
  apply eq_None_not_Some. intros [v [[Hv _]|Hv]%copy_known]; congruence.
Qed.

Lemma CheckRedirect_hop initial req prior p next strip ref :
  rq_Header req = (if String.eqb ref "" then copyHeaders (rq_Header initial) strip
                   else header_Set "Referer" ref (copyHeaders (rq_Header initial) strip)) ->
  CheckRedirect policy req (prior ++ [p]) = inl next ->
  hop initial p next /\ (strip = true -> no_credentials next).
Proof.
  intros Hh. unfold CheckRedirect. destruct (_ || _); [done|].
  destruct (validateURLForPolicy _ policy); [done|]. rewrite last_snoc. fold (same_host p req).
  destruct (same_host p req) eqn:Es; cbn [negb]; intros [= <-].
  - split; [constructor; [by rewrite Es| |]; intros _ k v|intros -> k Hs].
    + intros Hk Hs Hr. rewrite Hh. by apply copied.
    + rewrite Hh. intros [[Hk _]|Hk]%copy_known; [by left|by right].
    + apply eq_None_not_Some. rewrite Hh. intros [v [[_ Hv]|Hv]%copy_known]; [by rewrite Hs in Hv|by subst k].
  - unfold header_Set, header_Get.
    change (Secureheaders.CanonicalHeaderKey "X-WatchTrace-Job-ID") with JobIDKey.
    change (Secureheaders.CanonicalHeaderKey "User-Agent") with UserAgentKey. rewrite Hh, !copy_same by done.
    split; [constructor; [done|by unfold same_host in *; simpl; rewrite Es..]|].
    intros _ k Hs. simpl rq_Header. rewrite !lookup_insert_ne by (intros <-; discriminate Hs). done.
Qed.

(** What the loop sends from a request on. *)
Lemma do_loop_spec fuel initial reqs strip req sent r :
  (Z.of_nat (Datatypes.length reqs) <= Z.max 0 (MaxRedirects policy)) ->
  (S (Z.to_nat (MaxRedirects policy)) < fuel + Datatypes.length reqs)%nat ->
  (left_domain keep initial req = true -> strip = true) -> (strip = true -> no_credentials req) ->
  do_loop base refererForURL keep policy fuel initial reqs strip req = (sent, r) ->
  r <> None /\
  Z.of_nat (Datatypes.length sent) + Z.of_nat (Datatypes.length reqs) <= Z.max 0 (MaxRedirects policy) + 1 /\
  Forall (allowed_url policy) sent /\ (sent = [] \/ head sent = Some req) /\
  hops initial None sent /\ withheld keep initial strip sent.
Proof.
  revert reqs strip req sent r. induction fuel as [|fuel IH]; intros reqs strip req sent r Hr Hf Hd Hn; [lia|].
  assert (strip || left_domain keep initial req = strip) as Eo by
    (destruct strip; [done|]; destruct (left_domain keep initial req); [by specialize (Hd eq_refl)|done]).
  cbn [do_loop]. unfold RoundTrip.
  destruct (validateURLForPolicy _ policy) eqn:Ev.
  { intros [= <- <-]. split_and!; [done|simpl; lia|constructor|by left|done..]. }
  assert (forall a, ([req], Some a) = (sent, r) ->
    r <> None /\
    Z.of_nat (Datatypes.length sent) + Z.of_nat (Datatypes.length reqs) <= Z.max 0 (MaxRedirects policy) + 1 /\
    Forall (allowed_url policy) sent /\ (sent = [] \/ head sent = Some req) /\ hops initial None sent /\
    withheld keep initial strip sent) as Hend.
  { intros a [= <- <-]. split_and!; [done|simpl; lia|by constructor|by right|by repeat split|by simpl; rewrite Eo]. }
  destruct (base _ req) as [resp|e]; [|apply Hend].
  destruct (negb (redirects _) || _); [apply Hend|]. destruct (url_Ref (rq_URL req) _) as [u|]; [|apply Hend].
  set (strip' := strip || _). set (ref := refererForURL _ _ _).
  destruct (CheckRedirect policy _ (reqs ++ [req])) as [next|e] eqn:Ec; [|apply Hend].
  destruct (do_loop _ _ _ _ fuel initial (reqs ++ [req]) strip' next) as [more r'] eqn:Eloop.
  intros [= <- <-]. pose proof Ec as (Hl & Hok & Hu)%CheckRedirect_ok.
  assert (strip' = strip || left_domain keep initial next) as Hs' by (unfold strip', left_domain; by rewrite Hu).
  eapply CheckRedirect_hop in Ec as [Hhop Hnone]; [|done].
  rewrite length_app in Hl. simpl in Hl.
  apply IH in Eloop as (H1 & H2 & H3 & H4 & H5 & H6); [|rewrite length_app; simpl; lia..| |].
  - rewrite length_app in H2. simpl in H2.
    split_and!; [done|simpl; lia|by constructor|by right|simpl; split; [done|]|].
    + destruct more as [|q more]; [done|]. destruct H4 as [?|[= ->]]; [done|]. simpl in *. split; [|by apply H5].
      by intros p' [= <-].
    + cbn [withheld]. cbv zeta. rewrite Eo. split; [done|].
      destruct more as [|q more]; [done|]. destruct H4 as [?|[= ->]]; [done|]. cbn [withheld] in *. cbv zeta in *.
      assert (strip' || left_domain keep initial next = strip || left_domain keep initial next) as <-; [|done].
      rewrite Hs'. by rewrite <- orb_assoc, orb_diag.
  - rewrite Hs'. intros ->. apply orb_true_r.
  - done.
Qed.
End Facts.

Lemma hops_consecutive initial o l1 p q l2 : hops initial o (l1 ++ p :: q :: l2) -> hop initial p q.
Proof.
  revert o. induction l1 as [|x l1 IH]; simpl; intros o; [intros (_ & Hq & _); by apply Hq|intros [_ Hl]; by eapply IH].
Qed.

Lemma withheld_from keep initial out l1 q l2 q' :
  withheld keep initial out (l1 ++ q :: l2) -> out = true \/ left_domain keep initial q = true -> q' ∈ q :: l2 ->
  no_credentials q'.
Proof.
  revert out q l2. induction l1 as [|p l1 IH]; simpl; intros out q l2 [Hp Hl] Ho Hq.
  - assert (out || left_domain keep initial q = true) as E by (apply orb_true_iff; exact Ho). rewrite E in *.
    apply elem_of_cons in Hq as [->|Hq]; [by apply Hp|]. clear Hp Ho E. revert q Hl.
    induction l2 as [|x l2 IH2]; intros q; [by apply not_elem_of_nil in Hq|]. simpl. intros [Hx Hl].
    apply elem_of_cons in Hq as [->|Hq]; [by apply Hx|by apply (IH2 Hq q)].
  - apply (IH _ _ _ Hl); [|done]. destruct Ho as [->|]; [by left|by right].
Qed.


(** ** A chain of redirects that leaves the monitored host *)

Module Chain.
Definition url (host path : string) : URL := mkURL "https" "" None host path "" "".
Definition print (u : URL) : string := u_Scheme u +:+ "://" +:+ u_Host u +:+ u_Path u.
Definition known : list URL := [url "a.test" "/"; url "b.test" "/one"; url "b.test" "/two"].
Definition parse (s : string) : option URL := list_find (fun u => print u = s) known ≫= fun x => Some x.2.
Definition lib : UrlLib := Build_UrlLib parse print (fun _ => parse).

(** The monitored host redirects to another host, which redirects to itself. *)
Definition base (n : nat) (_ : Request) : Response + goerr :=
  inl (match n with
       | O => mkResponse 302 "https://b.test/one" 0 false false
       | S O => mkResponse 302 "https://b.test/two" 0 false false
       | _ => mkResponse 200 "" 0 false false
       end).

(** A chain that never ends. *)
Definition loop (_ : nat) (_ : Request) : Response + goerr :=
  inl (mkResponse 302 "https://b.test/one" 0 false false).

Definition no_referer (_ _ : URL) (_ : string) : string := "".
Definition request : Request :=
  mkRequest "GET" (url "a.test" "/")
    (header_Set "X-Api-Key" "secret" (header_Set "X-WatchTrace-Job-ID" "job" (header_Set "User-Agent" "agent" ∅))).

Definition run (b : nat -> Request -> Response + goerr) : list Request * option (Response + goerr) :=
  Do (H := lib) b no_referer (fun _ _ => false) (mkPolicy [] 3) request.
End Chain.


(** A secret header of the monitor is withheld from the host a redirect leads to,
    but the next redirect inside that host sends it there. *)
Theorem secret_reaches_other_host :
  map (fun q => (Hostname (rq_URL q), rq_Header q !! "X-Api-Key")) (Chain.run Chain.base).1 =
  [("a.test", Some "secret"); ("b.test", None); ("b.test", Some "secret")].
Proof. vm_compute. reflexivity. Qed.

(** A redirect may lead to an address literal the URL policy refuses (another scheme,
    user information, another port), as long as the address is allowed. *)
Theorem literal_skips_url_policy `{UrlLib} raw u a policy :
  url_Parse raw = Some u -> ParseAddr (Hostname u) = Some a -> addressAllowed policy a = true ->
  validateURLForPolicy raw policy = None.
Proof.
  intros Hp Ha Hal. unfold validateURLForPolicy. destruct (ValidateURL raw); [|done].
  by rewrite Hp, Ha, Hal.
Qed.
