(* ===== verification/Checkengine.v ===== *)
(** * The check engine (src/internal/checkengine/engine.go)

    [Execute] runs one bounded HTTP check.  The client is an argument: given the
    request it answers with the events of the client trace, in order, and a response
    or an error chain.  The clock is an argument too: [now n] is the n-th reading, so
    that it may stand still or go back.  The theorems say that every result is well
    formed whatever the client does, and where the classification of errors goes
    wrong for the errors [http.Client.Do] returns. *)

From stdpp Require Import base gmap list strings.
From Stdlib Require Import ZArith Lia Ascii String Bool.
From S2P Require Import Prelude Bytes Sealing Destination HttpClient.

Definition UserAgent : string := "WatchTrace-Phase1/1.0".

(** [Headers] lists the map in the order it is ranged over. *)
Record CheckRequest : Type := mkCheckRequest {
  ck_JobID : string;
  ck_URL : string;
  ck_Method : string;
  ck_Headers : list (string * string);
  ck_Timeout : Z;
  ck_ExpectedMin : Z;
  ck_ExpectedMax : Z;
  ck_MaxResponseBytes : Z
}.

Record CheckResult : Type := mkCheckResult {
  cr_StartedAt : Z;
  cr_CompletedAt : Z;
  cr_Succeeded : bool;
  cr_StatusCode : option Z;
  cr_ErrorCategory : option string;
  cr_DNS : option Z;
  cr_Connect : option Z;
  cr_TLS : option Z;
  cr_FirstByte : option Z;
  cr_Total : Z
}.

(** ** Classification of errors *)

(** The chain [errors.Is] and [errors.As] walk. *)
Fixpoint chain (e : goerr) : list goerr :=
  e :: match e with EOp _ inner | EUrl inner => chain inner | _ => [] end.

Definition errors_Is (e : goerr) (s : error) : bool :=
  existsb (fun x => match x with ESentinel s' => bool_decide (s' = s) | _ => false end) (chain e).

(** The [Timeout] method of the errors that have one.  That of *url.Error asks the
    error it wraps. *)
Fixpoint Timeout (e : goerr) : option bool :=
  match e with
  | ESentinel s => if bool_decide (s = ErrDeadlineExceeded) then Some true else None
  | EDNS t => Some t
  | EOp t _ => Some t
  | EUrl inner => Some (default false (Timeout inner))
  | _ => None
  end.

(** [errors.As(err, &ne)] with [ne] a net.Error: the first error of the chain with the
    methods [Timeout] and [Temporary]. *)
Fixpoint first_some {A B} (f : A -> option B) (l : list A) : option B :=
  match l with
  | [] => None
  | x :: l => match f x with Some y => Some y | None => first_some f l end
  end.
Definition as_net_error (e : goerr) : option bool := first_some Timeout (chain e).

Definition as_dns (e : goerr) : bool := existsb (fun x => match x with EDNS _ => true | _ => false end) (chain e).
Definition as_tls (e : goerr) : bool :=
  existsb (fun x => match x with ECertificate | EUnknownAuthority | EHostname => true | _ => false end) (chain e).

(** [strings.Contains(s, p)]. *)
Fixpoint contains (s p : string) : bool :=
  has_prefix s p || match s with "" => false | String _ r => contains r p end.

Section Categorize.
(** [err.Error()]. *)
Variable error_text : goerr -> string.

Definition categorize (err : goerr) : string :=
  if errors_Is err ErrDeadlineExceeded then "timeout"
  else if errors_Is err ErrUnsafeTarget then "unsafe_target"
  else if errors_Is err ErrResolutionFailed then "dns"
  else if errors_Is err ErrConnectionFailed then "connection"
  else if as_dns err then "dns"
  else if as_tls err then "tls"
  else match as_net_error err with
       | Some true => "timeout"
       | Some false => "connection"
       | None => if contains (to_lower (error_text err)) "redirect" then "redirect_limit" else "http_protocol"
       end.
End Categorize.

(** ** Timings *)

Inductive event : Type :=
| DNSStart | DNSDone | ConnectStart | ConnectDone | TLSHandshakeStart | TLSHandshakeDone | GotFirstResponseByte.

Record timings : Type := mkTimings {
  t_dnsStart : Z; t_connStart : Z; t_tlsStart : Z;
  t_dns : option Z; t_conn : option Z; t_tlsd : option Z; t_first : option Z
}.

Definition no_timings : timings := mkTimings zero_time zero_time zero_time None None None None.

Definition durationPtr (v : Z) : option Z := Some (if v <? 0 then 0 else v).

(** The callbacks of the client trace; each reads the clock once. *)
Definition on_event (start t : Z) (e : event) (s : timings) : timings :=
  let 'mkTimings ds cs ts d c l f := s in
  match e with
  | DNSStart => mkTimings t cs ts d c l f
  | DNSDone => mkTimings ds cs ts (durationPtr (time_sub t ds)) c l f
  | ConnectStart => mkTimings ds t ts d c l f
  | ConnectDone => mkTimings ds cs ts d (durationPtr (time_sub t cs)) l f
  | TLSHandshakeStart => mkTimings ds cs t d c l f
  | TLSHandshakeDone => mkTimings ds cs ts d c (durationPtr (time_sub t ts)) f
  | GotFirstResponseByte => mkTimings ds cs ts d c l (durationPtr (time_sub t start))
  end.

(** The events of a request, with the clock readings from the n-th on. *)
Fixpoint traced (now : nat -> Z) (n : nat) (start : Z) (es : list event) (s : timings) : timings :=
  match es with
  | [] => s
  | e :: es => traced now (S n) start es (on_event start (now n) e s)
  end.

(** ** Execution *)

Definition finish (start end_ status : Z) (category : string) (t : option timings) : CheckResult :=
  let end_ := if before end_ start then start else end_ in
  mkCheckResult start end_ (String.eqb category "")
    (if 0 <? status then Some (int16 status) else None)
    (if String.eqb category "" then None else Some category)
    (t ≫= t_dns) (t ≫= t_conn) (t ≫= t_tlsd) (t ≫= t_first)
    (time_sub end_ start).

Definition valid_request (input : CheckRequest) : bool :=
  negb (String.eqb (ck_JobID input) ""
    || (negb (String.eqb (ck_Method input) "GET") && negb (String.eqb (ck_Method input) "HEAD"))
    || (ck_Timeout input <? second) || (10 * second <? ck_Timeout input)
    || (ck_ExpectedMin input <? 100) || (599 <? ck_ExpectedMax input)
    || (ck_ExpectedMax input <? ck_ExpectedMin input)
    || (ck_MaxResponseBytes input <? 1) || (1024 * 1024 <? ck_MaxResponseBytes input)).

Section Engine.
Context `{UrlLib}.
Variable error_text : goerr -> string.
Variable now : nat -> Z.
(** [e.client.Do]: the trace events and the response (nil is [None]) or the error. *)
Variable client : Request -> list event * (option Response + goerr).
(** [ctx.Err()] after a failed request: the check's own context was cancelled. *)
Variable interrupted : option error.

(** [http.NewRequestWithContext] and the headers set on it. *)
Definition new_request (input : CheckRequest) : option Request :=
  match url_Parse (ck_URL input) with
  | None => None
  | Some u =>
      let u := mkURL (u_Scheme u) (u_Opaque u) (u_User u) (trim_suffix (u_Host u) ":") (u_Path u) (u_RawQuery u) (u_Fragment u) in
      Some (mkRequest (ck_Method input) u
        (foldl (fun h kv => header_Set kv.1 kv.2 h)
           (header_Set "X-WatchTrace-Job-ID" (ck_JobID input) (header_Set "User-Agent" UserAgent ∅))
           (ck_Headers input)))
  end.

(** [io.Copy(io.Discard, io.LimitReader(body, max+1))]: the bytes read, and whether the
    read fails before the limit. *)
Definition read_body (r : Response) (max : Z) : Z * bool :=
  (Z.min (rs_BodyLength r) (max + 1), rs_ReadError r && (rs_BodyLength r <? max + 1)).

Definition Execute (input : CheckRequest) : res CheckResult :=
  if negb (valid_request input) then Err (ErrorsNew "invalid check request") else
  let start := now 0%nat in
  match new_request input with
  | None => Ok (finish start (now 1%nat) 0 "invalid_target" None)
  | Some req =>
      let (events, answer) := client req in
      let t := Some (traced now 1 start events no_timings) in
      let end_ := now (S (Datatypes.length events)) in
      match answer with
      | inr requestErr =>
          match interrupted with
          | Some e => Err e
          | None => Ok (finish start end_ 0 (categorize error_text requestErr) t)
          end
      | inl None => Ok (finish start end_ 0 "http_protocol" t)
      | inl (Some response) =>
          let status := rs_StatusCode response in
          let (read, readErr) := read_body response (ck_MaxResponseBytes input) in
          if ck_MaxResponseBytes input <? read then Ok (finish start end_ status "response_too_large" t)
          else if readErr || rs_CloseError response then Ok (finish start end_ status "response_body" t)
          else if (status <? ck_ExpectedMin input) || (ck_ExpectedMax input <? status)
          then Ok (finish start end_ status "unexpected_status" t)
          else Ok (finish start end_ status "" t)
      end
  end.
End Engine.

(** ** Results *)

(** The categories of a failed check: the CHECK of health_checks.error_category. *)
Definition categories : list string :=
  ["invalid_target"; "unsafe_target"; "dns"; "connection"; "tls"; "timeout"; "http_protocol";
   "response_body"; "response_too_large"; "redirect_limit"; "unexpected_status"].

(** Decides membership of a known category. *)
Ltac known_category := refine (bool_decide_unpack _ _); vm_compute; exact I.

Definition nonneg_opt (o : option Z) : Prop := forall d, o = Some d -> 0 <= d.

Record sound_result (input : CheckRequest) (r : CheckResult) : Prop := {
  sr_order : cr_StartedAt r <= cr_CompletedAt r;
  sr_total : cr_Total r = time_sub (cr_CompletedAt r) (cr_StartedAt r) /\ 0 <= cr_Total r;
  sr_status : forall c, cr_StatusCode r = Some c -> 1 <= c <= 999;
  sr_success : cr_Succeeded r = true ->
    cr_ErrorCategory r = None /\ exists c, cr_StatusCode r = Some c /\
      ck_ExpectedMin input <= c <= ck_ExpectedMax input;
  sr_failure : cr_Succeeded r = false -> exists c, cr_ErrorCategory r = Some c /\ c ∈ categories;
  sr_timings : nonneg_opt (cr_DNS r) /\ nonneg_opt (cr_Connect r) /\ nonneg_opt (cr_TLS r) /\ nonneg_opt (cr_FirstByte r)
}.

Definition timings_ok (t : timings) : Prop :=
  nonneg_opt (t_dns t) /\ nonneg_opt (t_conn t) /\ nonneg_opt (t_tlsd t) /\ nonneg_opt (t_first t).

Lemma durationPtr_ok v : nonneg_opt (durationPtr v).
Proof. unfold nonneg_opt, durationPtr. intros d [= <-]. destruct (Z.ltb_spec v 0); lia. Qed.

Lemma traced_ok now n start es s : timings_ok s -> timings_ok (traced now n start es s).
Proof.
  revert n s. induction es as [|e es IH]; intros n s Hs; [done|]. apply IH.
  destruct s, e, Hs as (? & ? & ? & ?); unfold timings_ok; simpl; split_and!; try done; apply durationPtr_ok.
Qed.

Lemma categorize_known error_text e : categorize error_text e ∈ categories /\ categorize error_text e <> "".
Proof.
  unfold categorize. repeat (destruct (errors_Is e _); [split; [known_category|done]|]).
  destruct (as_dns e), (as_tls e), (as_net_error e) as [[]|],
    (contains (to_lower (error_text e)) "redirect");
    (split; [known_category|done]).
Qed.

(** [finish] with the outcome of one branch of [Execute]. *)
Lemma finish_sound input start end_ status category t :
  0 <= status <= 999 -> timings_ok (default no_timings t) ->
  (category = "" -> ck_ExpectedMin input <= status <= ck_ExpectedMax input /\ 100 <= ck_ExpectedMin input) ->
  (category <> "" -> category ∈ categories) ->
  sound_result input (finish start end_ status category t).
Proof.
  intros Hs Ht Hok Hbad. unfold finish, before. set (e := if end_ <? start then start else end_).
  assert (start <= e) as He by (unfold e; zcases).
  destruct t as [t|]; destruct Ht as (T1 & T2 & T3 & T4);
    (constructor; cbn [cr_StartedAt cr_CompletedAt cr_Succeeded cr_StatusCode cr_ErrorCategory
       cr_DNS cr_Connect cr_TLS cr_FirstByte cr_Total];
     [done|split; [done|unfold time_sub, min_int64, max_int64; lia]| | | |done]).
  all: destruct (String.eqb_spec category "") as [E|E]; try done.
  all: try (intros _; destruct (Hok E) as [Hr H100]; split; [done|exists status]; rewrite (proj2 (Z.ltb_lt 0 status)) by lia;
    rewrite int16_id by lia; done).
  all: try (intros _; exists category; auto).
  all: intros c; destruct (Z.ltb_spec 0 status); [|done]; rewrite int16_id by lia; intros [= <-]; lia.
Qed.

Lemma Execute_result `{UrlLib} error_text now client interrupted input :
  (forall q es r, client q = (es, inl (Some r)) -> 0 <= rs_StatusCode r <= 999) ->
  match Execute error_text now client interrupted input with
  | Ok r => valid_request input = true /\ sound_result input r
  | Err e => valid_request input = false \/ interrupted = Some e
  end.
Proof.
  intros Hst. unfold Execute. destruct (valid_request input) eqn:Hv; [|by left]. cbn [negb].
  assert (100 <= ck_ExpectedMin input) as H100.
  { unfold valid_request in Hv. apply negb_true_iff in Hv. rewrite !orb_false_iff in Hv. lia. }
  assert (forall n start es, timings_ok (default no_timings (Some (traced now n start es no_timings)))) as Ht.
  { intros. simpl. apply traced_ok. by repeat split. }
  destruct (new_request input) as [req|].
  2:{ split; [done|]. apply finish_sound; [lia|by repeat split|done|]. intros _. known_category. }
  destruct (client req) as [es answer] eqn:Ec. destruct answer as [[resp|]|e].
  - apply Hst in Ec. destruct (read_body resp _) as [read readErr].
    assert (forall category, (category = "" -> ck_ExpectedMin input <= rs_StatusCode resp <= ck_ExpectedMax input) ->
      (category <> "" -> category ∈ categories) ->
      valid_request input = true /\ sound_result input
        (finish (now 0%nat) (now (S (Datatypes.length es))) (rs_StatusCode resp) category
           (Some (traced now 1 (now 0%nat) es no_timings)))) as Hfin.
    { intros category Hok Hbad. split; [done|]. apply finish_sound; [done|apply Ht|auto|done]. }
    rewrite Hv in Hfin.
    destruct (_ <? read); [apply Hfin; [done|intros _; known_category]|].
    destruct (readErr || _); [apply Hfin; [done|intros _; known_category]|].
    destruct (_ || _) eqn:Er; [apply Hfin; [done|intros _; known_category]|].
    apply Hfin; [intros _; lia|done].
  - split; [done|]. apply finish_sound; [lia|apply Ht|done|].
    intros _. known_category.
  - destruct interrupted as [e'|]; [by right|]. split; [done|].
    pose proof (categorize_known error_text e) as [Hin Hne].
    apply finish_sound; [lia|apply Ht|by intros|by intros].
Qed.

(** C27: whatever the client answers and however the clock moves, a result of [Execute]
    is sound: it does not end before it starts, its durations are not negative, it
    succeeds only with an expected status and carries otherwise one of the categories
    the database knows.  It fails only for an invalid request or an interrupted check. *)
Theorem Execute_sound `{UrlLib} error_text now client interrupted input :
  (forall q es r, client q = (es, inl (Some r)) -> 0 <= rs_StatusCode r <= 999) ->
  match Execute error_text now client interrupted input with
  | Ok r => valid_request input = true /\ sound_result input r
  | Err e => valid_request input = false \/ interrupted = Some e
  end.
Proof. apply Execute_result. Qed.

Lemma Execute_sound_witness :
  exists r, Execute (H := Chain.lib) (fun _ => "") (fun n => 1000 * Z.of_nat n)
      (fun _ => ([DNSStart; DNSDone; GotFirstResponseByte], inl (Some (mkResponse 204 "" 12 false false)))) None
      (mkCheckRequest "job" "https://a.test/" "GET" [("x-api-key", "secret")] second 200 299 64) = Ok r /\
    cr_Succeeded r = true /\
    sound_result (mkCheckRequest "job" "https://a.test/" "GET" [("x-api-key", "secret")] second 200 299 64) r.
Proof.
  eexists. split; [vm_compute; reflexivity|]. split; [reflexivity|].
  refine (proj2 (Execute_sound (H := Chain.lib) (fun _ => "") (fun n => 1000 * Z.of_nat n)
    (fun _ => ([DNSStart; DNSDone; GotFirstResponseByte], inl (Some (mkResponse 204 "" 12 false false)))) None
    (mkCheckRequest "job" "https://a.test/" "GET" [("x-api-key", "secret")] second 200 299 64) _)).
  intros q es r [= <- <-]. vm_compute. split; congruence.
Defined.

(** ** With the platform's client *)

Section WithClient.
Context `{UrlLib} (base : nat -> Request -> Response + goerr) (events : Request -> list event).
Context (refererForURL : URL -> URL -> string -> string) (keep : URL -> URL -> bool) (policy : Policy).

(** [Engine.New]: the engine over [NewHTTPClientWithPolicy]. *)
Definition http_client (q : Request) : list event * (option Response + goerr) :=
  (events q,
   match (Do base refererForURL keep policy q).2 with
   | Some (inl r) => inl (Some r)
   | Some (inr e) => inr e
   | None => inl None
   end).

Lemma do_loop_error fuel initial reqs strip req sent e :
  do_loop base refererForURL keep policy fuel initial reqs strip req = (sent, Some (inr e)) ->
  exists inner, e = EUrl inner.
Proof.
  revert reqs strip req sent. induction fuel as [|fuel IH]; intros reqs strip req sent; cbn [do_loop]; [done|].
  destruct (RoundTrip _ _ _ _) as [b [resp|e']]; [|intros [= _ <-]; by eexists].
  destruct (_ || _); [done|]. destruct (url_Ref _ _); [|intros [= _ <-]; by eexists].
  destruct (CheckRedirect _ _ _) as [next|e']; [|intros [= _ <-]; by eexists].
  destruct (do_loop _ _ _ _ fuel _ _ _ _) as [more r] eqn:Er. intros [= _ ->]. by eapply IH.
Qed.

Lemma http_client_error q es e : http_client q = (es, inr e) -> exists inner, e = EUrl inner.
Proof.
  unfold http_client. destruct (Do _ _ _ _ q) as [sent [[r|e']|]] eqn:E; simpl; try done.
  intros [= _ <-]. by apply do_loop_error in E.
Qed.

Lemma http_client_answers q es : http_client q <> (es, inl None).
Proof.
  unfold http_client. destruct (Do _ _ _ _ q) as [sent r] eqn:E.
  apply do_loop_spec in E as (Hn & _); [|simpl; lia..|by unfold left_domain; rewrite String.eqb_refl|done]. simpl. by destruct r as [[]|].
Qed.
End WithClient.

Lemma categorize_url error_text inner :
  categorize error_text (EUrl inner) ∈ ["timeout"; "unsafe_target"; "dns"; "connection"; "tls"].
Proof.
  unfold categorize. assert (as_net_error (EUrl inner) = Some (default false (Timeout inner))) as ->.
  { unfold as_net_error. destruct inner; done. }
  repeat (destruct (errors_Is _ _); [known_category|]). destruct (as_dns _); [known_category|].
  destruct (as_tls _); [known_category|]. destruct (default false (Timeout inner)); known_category.
Qed.

(** With the client the engine is built with, no check is ever reported as
    [redirect_limit] or [http_protocol]: every error of [http.Client.Do] is a
    *url.Error, which is a net.Error, so those branches of [categorize] are dead. *)
Theorem protocol_categories_dead `{UrlLib} error_text now base events refererForURL keep policy interrupted input r :
  Execute error_text now (http_client base events refererForURL keep policy) interrupted input = Ok r ->
  cr_ErrorCategory r <> Some "redirect_limit" /\ cr_ErrorCategory r <> Some "http_protocol".
Proof.
  unfold Execute. destruct (negb _); [done|]. destruct (new_request input) as [req|]; [|by intros [= <-]].
  destruct (http_client _ _ _ _ _ req) as [es answer] eqn:Ec. destruct answer as [[resp|]|e].
  - destruct (read_body _ _) as [read readErr].
    repeat (destruct (_ <? read) || destruct (readErr || _) || destruct (_ || _)); by intros [= <-].
  - by apply http_client_answers in Ec.
  - destruct interrupted; [done|]. intros [= <-]. apply http_client_error in Ec as [inner ->].
    pose proof (categorize_url error_text inner) as Hc. cbn [finish cr_ErrorCategory].
    rewrite !elem_of_cons, elem_of_nil in Hc.
    destruct Hc as [->|[->|[->|[->|[->|[]]]]]]; by split.
Qed.

(** A monitored site that redirects for ever. *)
Lemma protocol_categories_dead_witness :
  exists r, Execute (H := Chain.lib) (fun _ => "redirect limit exceeded") (fun _ => 0)
      (http_client (H := Chain.lib) Chain.loop (fun _ => []) Chain.no_referer (fun _ _ => false) (mkPolicy [] 3)) None
      (mkCheckRequest "job" "https://a.test/" "GET" [] second 200 299 64) = Ok r /\
    cr_ErrorCategory r = Some "connection" /\ cr_ErrorCategory r <> Some "redirect_limit".
Proof.
  eexists. split; [vm_compute; reflexivity|]. split; [reflexivity|].
  refine (proj1 (protocol_categories_dead (H := Chain.lib) (fun _ => "redirect limit exceeded") (fun _ => 0)
    Chain.loop (fun _ => []) Chain.no_referer (fun _ _ => false) (mkPolicy [] 3) None
    (mkCheckRequest "job" "https://a.test/" "GET" [] second 200 299 64) _ _)).
  vm_compute. reflexivity.
Defined.
