(* ===== verification/Workqueue.v ===== *)
(** * Queue messages (src/internal/workqueue, src/internal/fifo/aws.go, result_sqs.go)

    Routing attributes as SQS message attributes, the direct SQS transport of the
    worker, the sender of the dispatch publisher and the source of the result
    consumer.  The SQS service is an argument: its calls act on a state of their own.
    The theorems are the round trips: what one side sends is what the other side
    pulls, attributes and body. *)

From stdpp Require Import base gmap list strings.
From Stdlib Require Import ZArith Lia Ascii String Bool.
From S2P Require Import Prelude Tx Store Bytes Envelope Scheduler Publisher Destination Rfc3339.
From S2P Require Import Sealing Reliability Notification Authorization Incident Consumer.
Import Netip.

(** ** Integers as text: [strconv.Itoa] and [strconv.Atoi] *)

Definition Itoa (n : Z) : string :=
  if n <? 0 then String "-" (print_digits 20 10 (- n) "") else print_digits 20 10 n "".

Definition unsigned (s : string) : option Z := match s with "" => None | _ => decimal s 0 end.

Definition Atoi (s : string) : option Z :=
  n ← match s with
      | String c r =>
          if Ascii.eqb c "-" then Z.opp <$> unsigned r
          else if Ascii.eqb c "+" then unsigned r
          else unsigned s
      | "" => None
      end;
  if (min_int64 <=? n) && (n <=? max_int64) then Some n else None.

Lemma decimal_print fuel n acc a :
  0 <= n < 10 ^ Z.of_nat fuel ->
  exists k, 0 <= k /\ decimal (print_digits fuel 10 n acc) a = decimal acc (a * 10 ^ k + n).
Proof.
  revert n acc a. induction fuel as [|fuel IH]; intros n acc a Hn.
  { exists 0. split; [lia|]. simpl in *. f_equal. lia. }
  cbn [print_digits]. pose proof (Z.mod_pos_bound n 10 ltac:(lia)) as Hm.
  pose proof (Z.div_mod n 10 ltac:(lia)) as Hd.
  destruct (Z.eqb_spec (n / 10) 0) as [E|E].
  - exists 1. split; [lia|]. cbn [decimal]. rewrite digit_hex by lia. simpl. f_equal. lia.
  - destruct (IH (n / 10) (String (hex_digit (n mod 10)) acc) a) as (k & Hk & ->).
    { replace (Z.of_nat (S fuel)) with (Z.succ (Z.of_nat fuel)) in Hn by lia.
      rewrite Z.pow_succ_r in Hn by lia. split; [apply Z.div_pos; lia|]. apply Z.div_lt_upper_bound; lia. }
    exists (k + 1). split; [lia|]. cbn [decimal]. rewrite digit_hex by lia. simpl. f_equal.
    rewrite Z.pow_add_r by lia. lia.
Qed.

Lemma print_digits_cons fuel n acc :
  0 <= n -> exists d r, 0 <= d < 10 /\ print_digits (S fuel) 10 n acc = String (hex_digit d) r.
Proof.
  revert n acc. induction fuel as [|fuel IH]; intros n acc Hn.
  - cbn [print_digits]. exists (n mod 10). pose proof (Z.mod_pos_bound n 10 ltac:(lia)).
    destruct (n / 10 =? 0); eexists; (split; [lia|reflexivity]).
  - cbn [print_digits]. destruct (n / 10 =? 0); [|apply IH; apply Z.div_pos; lia].
    exists (n mod 10). pose proof (Z.mod_pos_bound n 10 ltac:(lia)). eexists; (split; [lia|reflexivity]).
Qed.

Lemma Atoi_Itoa n : 0 <= n <= max_int64 -> Atoi (Itoa n) = Some n.
Proof.
  intros Hn. unfold Itoa. rewrite (proj2 (Z.ltb_ge n 0)) by lia.
  destruct (print_digits_cons 19 n "" ltac:(lia)) as (d & r & Hd & E).
  destruct (decimal_print 20 n "" 0) as (k & Hk & Hdec); [unfold max_int64 in Hn; simpl; lia|].
  rewrite E in *. unfold Atoi, unsigned.
  assert (Ascii.eqb (hex_digit d) "-" = false /\ Ascii.eqb (hex_digit d) "+" = false) as [-> ->].
  { split; apply Ascii.eqb_neq; intros Ec; pose proof (digit_hex d Hd) as Hx; rewrite Ec in Hx; discriminate Hx. }
  rewrite Hdec. cbn [decimal mbind option_bind]. replace (0 * 10 ^ k + n) with n by lia.
  rewrite (proj2 (Z.leb_le min_int64 n)), (proj2 (Z.leb_le n max_int64)) by (unfold min_int64; lia). done.
Qed.

(** ** Attributes *)

(** A message attribute: its data type and its value. *)
Record AttributeValue : Type := mkAttribute { av_DataType : string; av_StringValue : string }.
Abbreviation MessageAttributes := (gmap string AttributeValue).

Record SQSMessage : Type := mkMessage {
  m_Body : string;
  m_Attributes : MessageAttributes;
  m_ReceiptHandle : string;
  m_ApproximateReceiveCount : string
}.

Record Delivery : Type := mkDelivery {
  d_Body : bytes;
  d_Attributes : Attributes;
  d_LeaseToken : string;
  d_ReceiveCount : Z
}.

Definition text (s : string) : AttributeValue := mkAttribute "String" s.

Section Wire.
(** [Format] and [time.Parse] with the layout RFC3339Nano. *)
Variable Format : Z -> string.
Variable Parse : string -> option Z.

Definition attributesToSQS (a : Attributes) : MessageAttributes :=
  let result : MessageAttributes :=
    <["schema_version" := mkAttribute "Number" (Itoa (a_SchemaVersion a))]>
    (<["job_id" := text (a_JobID a)]>
    (<["worker_pool_id" := text (a_WorkerPoolID a)]>
    (<["snapshot_hash" := text (a_SnapshotHash a)]> ∅))) in
  let result := if is_zero_time (a_ExpiresAt a) then result
    else <["expires_at" := text (Format (a_ExpiresAt a))]> result in
  let result := if String.eqb (a_ResultID a) "" then result
    else <["result_id" := text (a_ResultID a)]> (<["result_key_id" := text (a_ResultKeyID a)]> result) in
  if String.eqb (a_PlatformKeyID a) "" then result
  else <["platform_key_id" := text (a_PlatformKeyID a)]>
         (<["worker_encryption_key_id" := text (a_WorkerEncryptionKeyID a)]> result).

(** A missing attribute reads as the empty text. *)
Definition get (m : MessageAttributes) (k : string) : string :=
  match m !! k with Some v => av_StringValue v | None => "" end.

Definition attributesFromSQS (m : MessageAttributes) : res Attributes :=
  match Atoi (get m "schema_version") with
  | None => Err (ErrorsNew "invalid schema version")
  | Some version =>
      match (if String.eqb (get m "expires_at") "" then Some zero_time else Parse (get m "expires_at")) with
      | None => Err (ErrorsNew "invalid expiry")
      | Some expiry =>
          let a := mkAttributes version (get m "job_id") (get m "worker_pool_id") (get m "snapshot_hash") expiry
                     (get m "result_id") (get m "result_key_id") (get m "platform_key_id")
                     (get m "worker_encryption_key_id") in
          if String.eqb (a_JobID a) "" || String.eqb (a_WorkerPoolID a) "" || negb (slen (a_SnapshotHash a) =? 64)
          then Err (ErrorsNew "invalid message attributes")
          else if negb (Bool.eqb (String.eqb (a_ResultID a) "") (String.eqb (a_ResultKeyID a) ""))
          then Err (ErrorsNew "invalid result message attributes")
          else if negb (Bool.eqb (String.eqb (a_PlatformKeyID a) "") (String.eqb (a_WorkerEncryptionKeyID a) ""))
          then Err (ErrorsNew "invalid job key attributes")
          else Ok a
      end
  end.

(** The attributes of [SQSSender.Send]: every key, whether empty or not. *)
Definition send_attributes (a : Attributes) : MessageAttributes :=
  <["schema_version" := mkAttribute "Number" (Itoa (a_SchemaVersion a))]>
  (<["job_id" := text (a_JobID a)]>
  (<["worker_pool_id" := text (a_WorkerPoolID a)]>
  (<["snapshot_hash" := text (a_SnapshotHash a)]>
  (<["expires_at" := text (Format (a_ExpiresAt a))]>
  (<["platform_key_id" := text (a_PlatformKeyID a)]>
  (<["worker_encryption_key_id" := text (a_WorkerEncryptionKeyID a)]> ∅)))))).
End Wire.

(** ** The queues *)

Record SendMessageInput : Type := mkSendMessage {
  sm_QueueUrl : string;
  sm_Body : string;
  sm_DeduplicationId : string;
  sm_GroupId : string;
  sm_Attributes : MessageAttributes
}.

(** The calls of the SQS client: the queue, then their own arguments.  A receive asks
    for one message. *)
Class SQS (O : Type) : Type := {
  ReceiveMessage : string -> Z -> O -> res (option SQSMessage) * O;
  ChangeMessageVisibility : string -> string -> Z -> O -> res () * O;
  SendMessage : SendMessageInput -> O -> res string * O;
  DeleteMessage : string -> string -> O -> res () * O
}.

Section Queues.
Context {P : Primitives} {O : Type} `{!SQS O}.
Variable Format : Z -> string.
Variable Parse : string -> option Z.

(** *** The direct transport of the worker *)

Record DirectSQS : Type := mkDirect { JobQueueURL : string; ResultQueueURL : string; WorkerPoolID : string }.

Definition clamp_seconds (wait : Z) : Z :=
  let seconds := int32 (Z.quot wait second) in
  let seconds := if seconds <? 0 then 0 else seconds in
  if 20 <? seconds then 20 else seconds.

Definition count_of (m : SQSMessage) : Z := default 0 (Atoi (m_ApproximateReceiveCount m)).

Definition Pull (d : DirectSQS) (wait : Z) : SE O Delivery :=
  if String.eqb (JobQueueURL d) "" then throw (ErrorsNew "invalid SQS transport") else
  out ← ReceiveMessage (JobQueueURL d) (clamp_seconds wait);
  match out with
  | None => throw ErrNoMessage
  | Some m =>
      attrs ← of_res (attributesFromSQS Parse (m_Attributes m));
      if negb (String.eqb (a_WorkerPoolID attrs) (WorkerPoolID d)) then throw (ErrorsNew "wrong worker pool delivery") else
      match base64_decode (m_Body m) with
      | None => throw ErrEnvelopeInvalid
      | Some body => mret (mkDelivery body attrs (m_ReceiptHandle m) (count_of m))
      end
  end.

Definition Extend (d : DirectSQS) (msg : Delivery) (duration : Z) : SE O () :=
  ChangeMessageVisibility (JobQueueURL d) (d_LeaseToken msg) (int32 (Z.quot duration second)).

Definition result_matches (parsed : Result) (a : Attributes) : bool :=
  String.eqb (r_JobID parsed) (a_JobID a) && String.eqb (r_SnapshotHash parsed) (a_SnapshotHash a)
  && String.eqb (r_WorkerPoolID parsed) (a_WorkerPoolID a).

Definition result_message (d : DirectSQS) (parsed : Result) (result : bytes) : SendMessageInput :=
  mkSendMessage (ResultQueueURL d) (base64_encode result) (r_ResultID parsed) (r_JobID parsed)
    (attributesToSQS Format (ResultAttributes parsed)).

Definition PublishResultAndAcknowledge (d : DirectSQS) (msg : Delivery) (result : bytes) : SE O () :=
  match PeekResult result with
  | Err _ => throw ErrEnvelopeInvalid
  | Ok parsed =>
      if negb (result_matches parsed (d_Attributes msg)) then throw ErrEnvelopeInvalid else
      _ ← SendMessage (result_message d parsed result);
      DeleteMessage (JobQueueURL d) (d_LeaseToken msg)
  end.

Definition AcknowledgeExpired (d : DirectSQS) (msg : Delivery) (_ : bytes) : SE O () :=
  DeleteMessage (JobQueueURL d) (d_LeaseToken msg).

(** *** The sender of the publisher *)

Definition dispatch_message (input : SendInput) : SendMessageInput :=
  mkSendMessage (sd_QueueURL input) (sd_Body input) (sd_DeduplicationID input) (sd_GroupID input)
    (send_attributes Format (sd_Attributes input)).

Definition Send (input : SendInput) : SE O string := SendMessage (dispatch_message input).

(** *** The source of the consumer *)

Definition PullResult (queue : string) (wait : Z) : SE O ResultDelivery :=
  out ← ReceiveMessage queue (int32 (Z.quot wait second));
  match out with
  | None => throw ErrNoMessage
  | Some m =>
      match attributesFromSQS Parse (m_Attributes m) with
      | Err _ => throw ErrEnvelopeInvalid
      | Ok attributes =>
          if String.eqb (a_ResultID attributes) "" then throw ErrEnvelopeInvalid else
          match base64_decode (m_Body m) with
          | None => throw ErrEnvelopeInvalid
          | Some body => mret (mkResultDelivery body attributes (m_ReceiptHandle m) (count_of m))
          end
      end
  end.

Definition AcknowledgeResult (queue : string) (d : ResultDelivery) : SE O () :=
  DeleteMessage queue (rd_Receipt d).

(** *** The dead letter queues *)

Definition dlq_url (job_url result_url kind : string) : string :=
  if String.eqb kind "result" then result_url else job_url.

Definition PullDLQ (job_url result_url kind : string) (wait : Z) :
    SE O (string * bytes * Attributes * string) :=
  let url := dlq_url job_url result_url kind in
  if String.eqb url "" then throw (ErrorsNew "invalid DLQ source") else
  let seconds := int32 (Z.quot wait second) in
  out ← ReceiveMessage url (if 20 <? seconds then 20 else seconds);
  match out with
  | None => throw ErrNoMessage
  | Some m =>
      attrs ← of_res (attributesFromSQS Parse (m_Attributes m));
      match base64_decode (m_Body m) with
      | None => throw ErrEnvelopeInvalid
      | Some body => mret (kind, body, attrs, m_ReceiptHandle m)
      end
  end.

Definition AcknowledgeDLQ (job_url result_url kind receipt : string) : SE O () :=
  DeleteMessage (dlq_url job_url result_url kind) receipt.
End Queues.

(** ** Round trips *)

(** What package time documents of RFC3339Nano: an instant of the years 0 to 9999 parses
    back from its text. *)
Class TimeText (Format : Z -> string) (Parse : string -> option Z) : Prop := {
  parse_format t : printable_time t -> Parse (Format t) = Some t;
  format_nonempty t : Format t <> ""
}.

(** The printer and the parser of package time, whatever the parser of general layouts. *)
#[global] Instance rfc3339_text general : TimeText Rfc3339.Format (Rfc3339.Parse general).
Proof. split; [apply Parse_Format|apply Format_nonempty]. Qed.

(** Attributes that may travel: routed, hashed, keys in pairs, an expiry that can be
    printed (the zero time is one). *)
Record routable (a : Attributes) : Prop := {
  ra_schema : 0 <= a_SchemaVersion a <= max_int64;
  ra_job : a_JobID a <> "";
  ra_pool : a_WorkerPoolID a <> "";
  ra_hash : slen (a_SnapshotHash a) = 64;
  ra_expires : printable_time (a_ExpiresAt a);
  ra_result : a_ResultID a = "" <-> a_ResultKeyID a = "";
  ra_keys : a_PlatformKeyID a = "" <-> a_WorkerEncryptionKeyID a = ""
}.

Section RoundTrip.
Context {Format : Z -> string} {Parse : string -> option Z} `{!TimeText Format Parse}.

Lemma eqb_empty s : s <> "" -> String.eqb s "" = false.
Proof. apply String.eqb_neq. Qed.

Lemma eqb_pair a b : (a = "" <-> b = "") -> Bool.eqb (String.eqb a "") (String.eqb b "") = true.
Proof.
  intros Hab. destruct (String.eqb_spec a ""), (String.eqb_spec b ""); simpl; [done|tauto..|done].
Qed.

(** A map of attributes that says what [a] says. *)
Record carries (m : MessageAttributes) (a : Attributes) : Prop := {
  ca_schema : get m "schema_version" = Itoa (a_SchemaVersion a);
  ca_job : get m "job_id" = a_JobID a;
  ca_pool : get m "worker_pool_id" = a_WorkerPoolID a;
  ca_hash : get m "snapshot_hash" = a_SnapshotHash a;
  ca_expires : get m "expires_at" = Format (a_ExpiresAt a) \/
               (get m "expires_at" = "" /\ a_ExpiresAt a = zero_time);
  ca_result : get m "result_id" = a_ResultID a;
  ca_result_key : get m "result_key_id" = a_ResultKeyID a;
  ca_platform : get m "platform_key_id" = a_PlatformKeyID a;
  ca_worker : get m "worker_encryption_key_id" = a_WorkerEncryptionKeyID a
}.

Lemma carries_parses m a : routable a -> carries m a -> attributesFromSQS Parse m = Ok a.
Proof.
  intros [R1 R2 R3 R4 RE R5 R6] [C1 C2 C3 C4 C5 C6 C7 C8 C9]. unfold attributesFromSQS.
  rewrite C1, Atoi_Itoa by done.
  assert ((if String.eqb (get m "expires_at") "" then Some zero_time else Parse (get m "expires_at"))
          = Some (a_ExpiresAt a)) as ->.
  { destruct C5 as [->|[-> ->]]; [|done]. by rewrite eqb_empty, parse_format by (done || apply format_nonempty). }
  rewrite C2, C3, C4, C6, C7, C8, C9. cbn [a_JobID a_WorkerPoolID a_SnapshotHash a_ResultID a_ResultKeyID
    a_PlatformKeyID a_WorkerEncryptionKeyID].
  rewrite !eqb_empty by done. rewrite R4, Z.eqb_refl. cbn [orb negb].
  rewrite (eqb_pair _ _ R5), (eqb_pair _ _ R6). cbn [negb]. by destruct a.
Qed.

Ltac reads := unfold get; repeat (rewrite lookup_insert_eq || rewrite lookup_insert_ne by done); try done.

Lemma attributesToSQS_carries a : routable a -> carries (attributesToSQS Format a) a.
Proof.
  intros [_ _ _ _ _ R5 R6]. unfold attributesToSQS.
  destruct (is_zero_time (a_ExpiresAt a)) eqn:Ez, (String.eqb_spec (a_ResultID a) "") as [E1|E1],
    (String.eqb_spec (a_PlatformKeyID a) "") as [E2|E2];
    constructor; reads;
    try (symmetry; tauto); try (right; split; [done|by apply Z.eqb_eq]); by left.
Qed.

Lemma send_attributes_carries a :
  a_ResultID a = "" -> a_ResultKeyID a = "" -> carries (send_attributes Format a) a.
Proof. intros E1 E2. unfold send_attributes. constructor; reads; by left. Qed.
End RoundTrip.

(** The message a queue hands out for one that was sent. *)
Definition received (m : SendMessageInput) (receipt count : string) : SQSMessage :=
  mkMessage (sm_Body m) (sm_Attributes m) receipt count.

Lemma ResultAttributes_routable {P : Primitives} data result :
  PeekResult data = Ok result -> routable (ResultAttributes result) /\ r_ResultID result <> "".
Proof.
  unfold PeekResult. intros [_ Hp]%guard_ok. apply or_invalid_ok in Hp as (signed & _ & Hp).
  apply guard_ok in Hp as [Hv [= <-]]. apply negb_false_iff, validateResult_ok in Hv.
  destruct Hv as ([Hs Hh _ _ _ _ _] & H1 & H2 & H3 & _ & _ & H6 & _).
  split; [|done]. constructor; simpl; [unfold max_int64; lia|done..|vm_compute; intuition discriminate| |done]. tauto.
Qed.

(** C26: the wire format loses nothing.  A job the publisher sends to a pool's queue, its
    expiry an instant of the years 0 to 9999, is pulled by that pool's worker with its
    sealed bytes and its attributes, and a result a worker publishes is pulled by the
    consumer with its signed bytes and the attributes of the result. *)
Theorem messages_delivered {P : Primitives} {O : Type} `{!SQS O} Format Parse `{!TimeText Format Parse}
    (d : DirectSQS) (wait : Z) (o o' : O) (receipt count : string) :
  (forall input sealed,
     sd_Body input = base64_encode sealed -> routable (sd_Attributes input) ->
     a_ResultID (sd_Attributes input) = "" -> a_ResultKeyID (sd_Attributes input) = "" ->
     JobQueueURL d <> "" -> a_WorkerPoolID (sd_Attributes input) = WorkerPoolID d ->
     ReceiveMessage (JobQueueURL d) (clamp_seconds wait) o =
       (Ok (Some (received (dispatch_message Format input) receipt count)), o') ->
     Pull Parse d wait o =
       (Ok (mkDelivery sealed (sd_Attributes input) receipt (default 0 (Atoi count))), o')) /\
  (forall data result,
     PeekResult data = Ok result ->
     ReceiveMessage (ResultQueueURL d) (int32 (Z.quot wait second)) o =
       (Ok (Some (received (result_message Format d result data) receipt count)), o') ->
     PullResult Parse (ResultQueueURL d) wait o =
       (Ok (mkResultDelivery data (ResultAttributes result) receipt (default 0 (Atoi count))), o')).
Proof.
  split.
  - intros input sealed Hb Hr H1 H2 Hq Hp Hrecv. unfold Pull. rewrite (eqb_empty _ Hq).
    unfold mbind, SE_bind. rewrite Hrecv. simpl m_Attributes.
    rewrite (carries_parses _ _ Hr (send_attributes_carries _ H1 H2)). cbn [of_res].
    rewrite Hp, String.eqb_refl. cbn [negb received m_Body dispatch_message sm_Body].
    rewrite Hb, base64_decode_encode. done.
  - intros data result Hpk Hrecv. unfold PullResult, mbind, SE_bind. rewrite Hrecv. simpl m_Attributes.
    pose proof (ResultAttributes_routable _ _ Hpk) as [Hr Hid].
    rewrite (carries_parses _ _ Hr (attributesToSQS_carries _ Hr)).
    cbn [ResultAttributes a_ResultID]. rewrite (eqb_empty _ Hid).
    cbn [received m_Body result_message sm_Body]. rewrite base64_decode_encode. done.
Qed.

(** A queue in memory: the messages of every queue, in order. *)
Module MemoryQueue.
Definition state : Type := list (string * SQSMessage).
Definition take_from (queue : string) (o : state) : option SQSMessage :=
  snd <$> head (filter (fun x => x.1 = queue) o).
#[global] Instance memory : SQS state := {
  ReceiveMessage queue _ o := (Ok (take_from queue o), o);
  ChangeMessageVisibility _ _ _ o := (Ok (), o);
  SendMessage m o := (Ok "id", o ++ [(sm_QueueUrl m, received m "receipt" "1")]);
  DeleteMessage queue receipt o :=
    (Ok (), filter (fun x => ~ (x.1 = queue /\ m_ReceiptHandle x.2 = receipt)) o)
}.

(** The time text of package time; every text it refuses stays refused. *)
Definition parse : string -> option Z := Rfc3339.Parse (fun _ => None).

Definition direct : DirectSQS := mkDirect "jobs" "results" "pool".
Definition hash : string := Toy.rep 64 "a"%char.
Definition input : SendInput :=
  mkSend "jobs" (base64_encode "sealed") "d" "g" (mkAttributes 2 "job" "pool" hash (1767225600 * second) "" "" "pk" "wk").
End MemoryQueue.

Lemma messages_delivered_witness :
  let o := (Send (O := MemoryQueue.state) Rfc3339.Format MemoryQueue.input []).2 in
  Pull MemoryQueue.parse MemoryQueue.direct (20 * second) o =
    (Ok (mkDelivery "sealed" (sd_Attributes MemoryQueue.input) "receipt" 1), o).
Proof.
  apply (proj1 (messages_delivered (P := Toy.primitives) Rfc3339.Format MemoryQueue.parse MemoryQueue.direct
    (20 * second) _ _ "receipt" "1") MemoryQueue.input "sealed").
  - reflexivity.
  - constructor; vm_compute; try done; split; congruence.
  - reflexivity.
  - reflexivity.
  - done.
  - reflexivity.
  - reflexivity.
Defined.
