(* ===== verification/Worker.v ===== *)
(** * The check worker (src/internal/modworker, src/internal/workerjournal)

    The worker keeps its replay state in a SQLite journal and one pending publication
    in memory.  The state of a host is the journal, the pending publication and the
    world outside (queue and network); a crash loses the pending publication and
    nothing else.  Every journal statement may fail, before or after it took effect.
    The theorems: whatever fails, and although the journal is cleaned every hour, all
    results a host ever gives to its queue for one job and snapshot are the same bytes and
    were durable before; a healthy run reports what was measured, in a result the platform
    verifies; and an answer whose status the envelope
    refuses is never reported. *)

From stdpp Require Import base gmap list strings.
From Stdlib Require Import ZArith Lia Ascii String Bool.
From S2P Require Import Prelude Tx Store Bytes Envelope Sealing Incident Destination HttpClient Checkengine Workqueue.

(** ** The journal *)

Record JournalRow : Type := mkJournalRow {
  jr_snapshot_hash : string;
  jr_completed : bool;             (* state: accepted or completed *)
  jr_result : option bytes;
  jr_updated_at : Z                (* Unix seconds *)
}.

Abbreviation journal := (gmap string JournalRow).

Record pendingPublication : Type := mkPending {
  pp_delivery : Delivery;
  pp_body : bytes;
  pp_expired : bool
}.

(** [h_published] is a ghost: the results given to the transport so far, with the job
    and snapshot they answer. *)
Record Host (O : Type) : Type := mkHost {
  h_journal : journal;
  h_pending : option pendingPublication;
  h_ext : O;
  h_random : nat -> bytes;          (* what rand.Read fills 16 bytes with *)
  h_next : nat;
  h_faults : list fault;
  h_published : list (string * string * bytes)
}.
Arguments mkHost {O}. Arguments h_journal {O}. Arguments h_pending {O}. Arguments h_ext {O}.
Arguments h_random {O}. Arguments h_next {O}. Arguments h_faults {O}. Arguments h_published {O}.

Section Journal.
Context {O : Type}.

Definition set_journal (j : journal) (h : Host O) : Host O :=
  mkHost j (h_pending h) (h_ext h) (h_random h) (h_next h) (h_faults h) (h_published h).
Definition set_faults (fs : list fault) (h : Host O) : Host O :=
  mkHost (h_journal h) (h_pending h) (h_ext h) (h_random h) (h_next h) fs (h_published h).
Definition set_pending (p : option pendingPublication) (h : Host O) : Host O :=
  mkHost (h_journal h) p (h_ext h) (h_random h) (h_next h) (h_faults h) (h_published h).

(** One statement, committed on its own. *)
Definition exec {A} (q : journal -> A * journal) : SE (Host O) A := fun h =>
  let '(f, fs) := next_fault (h_faults h) in
  match f with
  | NoFault => let '(a, j) := q (h_journal h) in (Ok a, set_faults fs (set_journal j h))
  | Fails => (Err ErrDatabase, set_faults fs h)
  | FailsAfterCommit => (Err ErrDatabase, set_faults fs (set_journal (q (h_journal h)).2 h))
  end.

Definition unix (t : Z) : Z := t / second.
Definition conflict : error := ErrorsNew "journal snapshot conflict".

(** [INSERT ... ON CONFLICT(job_id) DO UPDATE ... WHERE snapshot_hash equal]: the rows
    affected. *)
Definition accept_row (now : Z) (jobID hash : string) (j : journal) : Z * journal :=
  match j !! jobID with
  | None => (1, <[jobID := mkJournalRow hash false None (unix now)]> j)
  | Some r =>
      if String.eqb (jr_snapshot_hash r) hash
      then (1, <[jobID := mkJournalRow (jr_snapshot_hash r) (jr_completed r) (jr_result r) (unix now)]> j)
      else (0, j)
  end.

Definition Accept (now : Z) (jobID hash : string) : SE (Host O) () :=
  count ← exec (accept_row now jobID hash);
  if negb (count =? 1) then throw conflict else mret ().

Definition store_row (now : Z) (jobID hash : string) (result : bytes) (j : journal) : Z * journal :=
  match j !! jobID with
  | Some r =>
      if String.eqb (jr_snapshot_hash r) hash
      then (1, <[jobID := mkJournalRow hash true (Some result) (unix now)]> j)
      else (0, j)
  | None => (0, j)
  end.

Definition StoreResult (now : Z) (jobID hash : string) (result : bytes) : SE (Host O) () :=
  count ← exec (store_row now jobID hash result);
  if negb (count =? 1) then throw conflict else mret ().

Definition stored_result (jobID hash : string) (j : journal) : option bytes :=
  match j !! jobID with
  | Some r => if String.eqb (jr_snapshot_hash r) hash && jr_completed r then Some (default "" (jr_result r)) else None
  | None => None
  end.

Definition JournalResult (jobID hash : string) : SE (Host O) (option bytes) :=
  exec (fun j => (stored_result jobID hash j, j)).

Definition old_row (limit : Z) (r : JournalRow) : bool := jr_completed r && (jr_updated_at r <? limit).

Definition Cleanup (limit : Z) : SE (Host O) Z :=
  exec (fun j =>
    let kept := filter (fun x => old_row (unix limit) x.2 = false) j in
    (Z.of_nat (size j) - Z.of_nat (size kept), kept)).

Record JournalMetrics : Type := mkJournalMetrics {
  jm_Accepted : Z; jm_Completed : Z; jm_OldestAcceptedAgeSeconds : Z
}.

Definition oldest_accepted (j : journal) : option Z :=
  foldr (fun x o => match o with Some y => Some (Z.min x y) | None => Some x end) None
    (jr_updated_at <$> filter (fun r => jr_completed r = false) (map_to_list j).*2).

Definition Metrics (now : Z) : SE (Host O) JournalMetrics :=
  exec (fun j =>
    let count b := Z.of_nat (size (filter (fun x : string * JournalRow => jr_completed x.2 = b) j)) in
    (mkJournalMetrics (count false) (count true)
       (match oldest_accepted j with Some t => Z.max 0 (unix now - t) | None => 0 end), j)).
End Journal.

(** ** What the worker calls *)

(** workqueue.Transport. *)
Record Transport (O : Type) : Type := mkTransport {
  tr_Pull : Z -> SE O Delivery;
  tr_Extend : Delivery -> Z -> SE O ();
  tr_PublishResultAndAcknowledge : Delivery -> bytes -> SE O ();
  tr_AcknowledgeExpired : Delivery -> bytes -> SE O ()
}.
Arguments mkTransport {O}. Arguments tr_Pull {O}. Arguments tr_Extend {O}.
Arguments tr_PublishResultAndAcknowledge {O}. Arguments tr_AcknowledgeExpired {O}.

(** What the check engine promises its callers. *)
Class CheckEngine (O : Type) : Type := {
  ce_Execute : CheckRequest -> SE O CheckResult;
  ce_sound input o r o' : ce_Execute input o = (Ok r, o') -> sound_result input r
}.

(** ** Identifiers *)

Fixpoint set_byte (i : nat) (f : Z -> Z) (b : bytes) : bytes :=
  match b, i with
  | String c r, O => String (byte_of (f (val_of c))) r
  | String c r, S i => String c (set_byte i f r)
  | "", _ => ""
  end.

(** A version 4 uuid from 16 random bytes. *)
Definition randomID (b : bytes) : string :=
  let b := set_byte 6 (fun v => Z.lor (Z.land v 0x0f) 0x40) b in
  let b := set_byte 8 (fun v => Z.lor (Z.land v 0x3f) 0x80) b in
  let encoded := hex_encode b in
  let part from to := String.substring from (to - from) encoded in
  part 0%nat 8%nat +:+ "-" +:+ part 8%nat 12%nat +:+ "-" +:+ part 12%nat 16%nat +:+ "-"
    +:+ part 16%nat 20%nat +:+ "-" +:+ part 20%nat 32%nat.

Definition micros (v : option Z) : option Z := (fun d => Z.quot d 1000) <$> v.

Definition ClockHealthy (offset tolerance : Z) : bool :=
  let offset := if offset <? 0 then int64 (- offset) else offset in
  offset <=? tolerance.

(** ** The worker *)

Record Config : Type := mkConfig {
  cf_WorkerID : string;
  cf_WorkerPoolID : string;
  cf_ResultKeyID : string;
  cf_ClockTolerance : Z;
  cf_ResultPrivate : bytes;
  cf_WorkerPrivateKeys : gmap string bytes;
  cf_PlatformPublicKeys : gmap string bytes;
  cf_RevokedKeyIDs : gset string
}.

(** The keys named on their own are added to the maps. *)
Definition with_key (id : string) (key : option bytes) (ok : bytes -> bool) (keys : gmap string bytes) : gmap string bytes :=
  match key with
  | Some k => if negb (String.eqb id "") && ok k then <[id := k]> keys else keys
  | None => keys
  end.

Definition NewWorker (workerPrivate platformPublic : option bytes) (workerKeyID platformKeyID : string) (c : Config) :
    res Config :=
  let c := mkConfig (cf_WorkerID c) (cf_WorkerPoolID c) (cf_ResultKeyID c) (cf_ClockTolerance c) (cf_ResultPrivate c)
    (with_key workerKeyID workerPrivate (fun _ => true) (cf_WorkerPrivateKeys c))
    (with_key platformKeyID platformPublic (fun k => slen k =? 32) (cf_PlatformPublicKeys c))
    (cf_RevokedKeyIDs c) in
  if String.eqb (cf_WorkerID c) "" || String.eqb (cf_WorkerPoolID c) "" || String.eqb (cf_ResultKeyID c) ""
     || (size (cf_WorkerPrivateKeys c) =? 0)%nat || (size (cf_PlatformPublicKeys c) =? 0)%nat
     || negb (slen (cf_ResultPrivate c) =? 64)
  then Err (ErrorsNew "invalid worker configuration")
  else if (cf_ClockTolerance c <? 0) || (30 * second <? cf_ClockTolerance c)
  then Err (ErrorsNew "invalid clock tolerance")
  else Ok c.

Section Run.
Context {P : Primitives} {O : Type} `{!CheckEngine O}.
Variable transport : Transport O.
Variable config : Config.
(** The readings of the clock during one call. *)
Variable now : nat -> Z.

(** A call that leaves the host. *)
Definition call {A} (f : SE O A) : SE (Host O) A := fun h =>
  let '(r, o) := f (h_ext h) in
  (r, mkHost (h_journal h) (h_pending h) o (h_random h) (h_next h) (h_faults h) (h_published h)).

Definition put_pending (p : option pendingPublication) : SE (Host O) () := fun h => (Ok (), set_pending p h).

Definition random_id : SE (Host O) string := fun h =>
  (Ok (randomID (h_random h (h_next h))),
   mkHost (h_journal h) (h_pending h) (h_ext h) (h_random h) (S (h_next h)) (h_faults h) (h_published h)).

(** Handing a result to the transport, recorded by the ghost. *)
Definition note (delivery : Delivery) (body : bytes) : SE (Host O) () := fun h =>
  (Ok (), mkHost (h_journal h) (h_pending h) (h_ext h) (h_random h) (h_next h) (h_faults h)
            (h_published h ++ [(a_JobID (d_Attributes delivery), a_SnapshotHash (d_Attributes delivery), body)])).

Definition give (delivery : Delivery) (body : bytes) (expired : bool) : SE (Host O) () :=
  if expired then call (tr_AcknowledgeExpired transport delivery body)
  else _ ← note delivery body; call (tr_PublishResultAndAcknowledge transport delivery body).

(** Publish; what fails stays pending in memory. *)
Definition give_or_keep (delivery : Delivery) (body : bytes) (expired : bool) : SE (Host O) bool :=
  r ← try_ (give delivery body expired);
  match r with
  | Ok _ => mret true
  | Err e => _ ← put_pending (Some (mkPending delivery body expired)); throw e
  end.

Definition check_request (job : Job) : CheckRequest :=
  mkCheckRequest (j_JobID job) (j_TargetURL job) (j_Method job) (map_to_list (j_Headers job))
    (j_TimeoutSeconds job * second) (j_ExpectedStatusMin job) (j_ExpectedStatusMax job)
    (MaxResponseBytes (j_Limits job)).

Definition result_of (job : Job) (hash resultID attempt : string) (r : CheckResult) : Result :=
  mkResult (j_SchemaVersion job) resultID (j_JobID job) hash (j_WorkerPoolID job) (cf_WorkerID config) attempt
    (j_ScheduledAt job) (cr_StartedAt r) (cr_CompletedAt r) (cr_Succeeded r) (cr_StatusCode r) (cr_ErrorCategory r)
    (micros (cr_DNS r)) (micros (cr_Connect r)) (micros (cr_TLS r)) (micros (cr_FirstByte r))
    (Z.quot (cr_Total r) 1000) (cf_ResultKeyID config).

Definition expired_of (job : Job) (hash : string) (at_ : Z) : ExpiredAcknowledgement :=
  mkExpired (j_SchemaVersion job) (j_JobID job) hash (j_WorkerPoolID job) (cf_WorkerID config) at_ (cf_ResultKeyID config).

(** A job that is not in the journal and not late: run it, store the result, publish. *)
Definition run_job (delivery : Delivery) (job : Job) : SE (Host O) bool :=
  let hash := a_SnapshotHash (d_Attributes delivery) in
  _ ← Accept (now 3%nat) (j_JobID job) hash;
  attempt ← random_id;
  resultID ← random_id;
  result ← call (ce_Execute (check_request job));
  signed ← of_res (SignResult (result_of job hash resultID attempt result) (cf_ResultPrivate config));
  _ ← StoreResult (now 4%nat) (j_JobID job) hash signed;
  give_or_keep delivery signed false.

(** The job of a delivery: revoked and unknown keys, foreign pools and forged bodies are
    refused. *)
Definition open_delivery (delivery : Delivery) : res Job :=
  let attrs := d_Attributes delivery in
  if bool_decide (a_PlatformKeyID attrs ∈ cf_RevokedKeyIDs config) then Err ErrEnvelopeInvalid
  else if bool_decide (a_WorkerEncryptionKeyID attrs ∈ cf_RevokedKeyIDs config) then Err ErrEnvelopeInvalid
  else match cf_WorkerPrivateKeys config !! a_WorkerEncryptionKeyID attrs,
             cf_PlatformPublicKeys config !! a_PlatformKeyID attrs with
       | Some workerPrivate, Some platformPublic =>
           match OpenJob (d_Body delivery) attrs (Some workerPrivate) platformPublic (now 0%nat) (cf_ClockTolerance config) with
           | Err e => Err e
           | Ok job => if negb (String.eqb (j_WorkerPoolID job) (cf_WorkerPoolID config)) then Err ErrEnvelopeInvalid else Ok job
           end
       | _, _ => Err ErrEnvelopeInvalid
       end.

Definition handle (delivery : Delivery) : SE (Host O) bool :=
  job ← of_res (open_delivery delivery);
  let hash := a_SnapshotHash (d_Attributes delivery) in
  stored ← JournalResult (j_JobID job) hash;
  match stored with
  | Some body => give_or_keep delivery body false
  | None =>
      if after (now 1%nat) (time_add (j_ExpiresAt job) (cf_ClockTolerance config)) then
        ack ← of_res (SignExpired (expired_of job hash (now 2%nat)) (cf_ResultPrivate config));
        give_or_keep delivery ack true
      else run_job delivery job
  end.

Definition RunOne : SE (Host O) bool :=
  p ← gets h_pending;
  match p with
  | Some p =>
      _ ← give (pp_delivery p) (pp_body p) (pp_expired p);
      _ ← put_pending None;
      mret true
  | None =>
      r ← try_ (call (tr_Pull transport (20 * second)));
      match r with
      | Err ErrNoMessage => mret false
      | Err e => throw e
      | Ok delivery => handle delivery
      end
  end.

Definition Ready (h : Host O) : bool := match h_pending h with None => true | Some _ => false end.

Definition CleanupJournal : SE (Host O) Z := Cleanup (time_add (now 0%nat) (- (7 * 24 * hour))).
End Run.

(** ** What holds of a host between calls *)

(** The journal holds [b] as the result of the job and snapshot. *)
Definition durable (j : journal) (id hash : string) (b : bytes) : Prop :=
  exists t, j !! id = Some (mkJournalRow hash true (Some b) t).

Definition rows_ok (j : journal) : Prop :=
  map_Forall (fun _ r => jr_completed r = true -> is_Some (jr_result r)) j.

(** No result of the job and snapshot is stored. *)
Definition unanswered {O} (id hash : string) (h : Host O) : Prop := stored_result id hash (h_journal h) = None.

Lemma stored_durable id hash j b : rows_ok j -> stored_result id hash j = Some b <-> durable j id hash b.
Proof.
  intros Hr. unfold stored_result, durable. split.
  - destruct (j !! id) as [r|] eqn:E; [|done]. destruct (_ && _) eqn:Eb; [|done].
    apply andb_true_iff in Eb as [Eh%String.eqb_eq Ec]. pose proof (Hr _ _ E Ec) as [x Hx].
    rewrite Hx. intros [= <-]. destruct r as [h c rs t]; simpl in *; subst. eauto.
  - intros [t ->]. simpl. by rewrite String.eqb_refl.
Qed.

Lemma unstored_open id hash j r :
  stored_result id hash j = None -> j !! id = Some r -> jr_snapshot_hash r = hash -> jr_completed r = false.
Proof.
  unfold stored_result. intros H E Eh. rewrite E, Eh, String.eqb_refl in H. by destruct (jr_completed r).
Qed.

(** How long the journal keeps a completed row, and the most a clock may be off. *)
Definition journal_age : Z := 7 * 24 * hour.
Definition max_tolerance : Z := 30 * second.

Section Invariant.
Context {P : Primitives} {O : Type} `{!CheckEngine O} (transport : Transport O) (config : Config) (now : nat -> Z).
(** The deadline of a job and snapshot. *)
Context (D : string -> string -> Z).
Implicit Types h : Host O.

Definition late (t : Z) (id hash : string) : Prop := D id hash + max_tolerance < t.

(** [ans] are the results stored so far; a row that was cleaned up is one of a job that may
    not start any more at the time [t]. *)
Record host_ok (ans : gmap (string * string) bytes) (t : Z) (j : journal) (pending : option pendingPublication)
    (published : list (string * string * bytes)) : Prop := {
  ho_rows : rows_ok j;
  ho_answers : forall id hash b, durable j id hash b -> ans !! (id, hash) = Some b;
  ho_kept : forall id hash b, ans !! (id, hash) = Some b -> durable j id hash b \/ late t id hash;
  ho_age : forall id r, j !! id = Some r -> jr_completed r = true ->
    D id (jr_snapshot_hash r) + max_tolerance < jr_updated_at r * second + journal_age;
  ho_published : Forall (fun x => ans !! x.1 = Some x.2) published;
  ho_pending : forall p, pending = Some p -> pp_expired p = false ->
    ans !! (a_JobID (d_Attributes (pp_delivery p)), a_SnapshotHash (d_Attributes (pp_delivery p))) = Some (pp_body p)
}.

Definition host_inv (t : Z) (h : Host O) : Prop := exists ans, host_ok ans t (h_journal h) (h_pending h) (h_published h).

(** [b] is the result of the job and snapshot. *)
Definition answered (t : Z) (id hash : string) (b : bytes) (h : Host O) : Prop :=
  exists ans, host_ok ans t (h_journal h) (h_pending h) (h_published h) /\ ans !! (id, hash) = Some b.

Lemma answered_inv t id hash b h : answered t id hash b h -> host_inv t h.
Proof. intros (ans & H & _). by exists ans. Qed.

Lemma host_ok_later ans t t' j p l : t <= t' -> host_ok ans t j p l -> host_ok ans t' j p l.
Proof.
  intros Ht [H1 H2 H3 H4 H5 H6]. constructor; [done..| |done|done|done]. intros id hash b [Hd|Hl]%H3; [by left|right].
  unfold late in *. lia.
Qed.

(** A statement that leaves the completed rows alone. *)
Definition same_completed (j j' : journal) : Prop :=
  forall id r, jr_completed r = true -> j' !! id = Some r <-> j !! id = Some r.

Lemma host_ok_same ans t j j' p l : same_completed j j' -> host_ok ans t j p l -> host_ok ans t j' p l.
Proof.
  intros Hs [H1 H2 H3 H4 H5 H6].
  assert (forall id hash b, durable j' id hash b <-> durable j id hash b) as Hd.
  { intros id hash b. unfold durable. split; intros [u Hu]; exists u; by apply Hs. }
  constructor; [| | | |done|done].
  - intros id r Hr Hc. eapply H1; [apply Hs|]; done.
  - intros id hash b Hb. by apply H2, Hd.
  - intros id hash b Hb. rewrite Hd. by apply H3.
  - intros id r Hr Hc. apply H4; [by apply Hs|done].
Qed.

Lemma accept_row_same t id hash j :
  stored_result id hash j = None -> same_completed j (accept_row t id hash j).2 /\
  stored_result id hash (accept_row t id hash j).2 = None.
Proof.
  intros Hn. unfold accept_row. destruct (j !! id) as [r|] eqn:E; [destruct (String.eqb_spec (jr_snapshot_hash r) hash) as [Eh|]|]; simpl.
  - pose proof (unstored_open _ _ _ _ Hn E Eh) as Ho. split.
    + intros id' r' Hc. destruct (decide (id' = id)) as [->|Hne]; [|by rewrite lookup_insert_ne].
      rewrite lookup_insert_eq, E. split; intros [= <-]; simpl in *; congruence.
    + unfold stored_result. rewrite lookup_insert_eq. simpl. by rewrite Ho, andb_false_r.
  - done.
  - split.
    + intros id' r' Hc. destruct (decide (id' = id)) as [->|Hne]; [|by rewrite lookup_insert_ne].
      rewrite lookup_insert_eq, E. split; [intros [= <-]; done|done].
    + unfold stored_result. rewrite lookup_insert_eq. simpl. by rewrite andb_false_r.
Qed.

(** Storing the first result of a job that is not late. *)
Lemma store_row_ok ans t j p l u id hash b :
  host_ok ans t j p l -> stored_result id hash j = None -> t <= D id hash + max_tolerance ->
  D id hash + max_tolerance + second <= u + journal_age ->
  (store_row u id hash b j = (0, j)) \/
  ((store_row u id hash b j).1 = 1 /\ host_ok (<[(id, hash) := b]> ans) t (store_row u id hash b j).2 p l).
Proof.
  intros [H1 H2 H3 H4 H5 H6] Hn Ht Hu. unfold store_row.
  destruct (j !! id) as [r|] eqn:E; [|by left]. destruct (String.eqb_spec (jr_snapshot_hash r) hash) as [Eh|]; [|by left]. right.
  split; [done|]. simpl. pose proof (unstored_open _ _ _ _ Hn E Eh) as Ho.
  assert (ans !! (id, hash) = None) as Ha.
  { apply eq_None_not_Some. intros [b' [[x Hx]|Hl]%H3]; [|unfold late in Hl; lia]. rewrite E in Hx. by injection Hx as ->. }
  assert (forall k v, ans !! k = Some v -> <[(id, hash) := b]> ans !! k = Some v) as Hk.
  { intros k v Hv. rewrite lookup_insert_ne; [done|congruence]. }
  constructor.
  - apply map_Forall_insert_2; [by intros _; eexists|done].
  - intros id' h' b' [x Hx]. destruct (decide (id' = id)) as [->|Hne].
    + rewrite lookup_insert_eq in Hx. injection Hx as <- <- _. by rewrite lookup_insert_eq.
    + rewrite lookup_insert_ne in Hx by done. apply Hk, H2. by exists x.
  - intros id' h' b' [[[= <- <-] <-]|[Hne Hb]]%lookup_insert_Some.
    + left. eexists. by rewrite lookup_insert_eq.
    + destruct (H3 _ _ _ Hb) as [[x Hx]|]; [left|by right]. exists x.
      rewrite lookup_insert_ne; [done|]. intros <-. rewrite E in Hx. by injection Hx as ->.
  - intros id' r' [[<- <-]|[Hne Hr]]%lookup_insert_Some Hc; [|by apply H4]. simpl. unfold unix, journal_age, second in *.
    Z.to_euclidean_division_equations; lia.
  - eapply Forall_impl; [exact H5|]. intros x. apply Hk.
  - intros q Hq Hx. by apply Hk, H6.
Qed.

Lemma cleanup_ok ans t u j p l :
  host_ok ans t j p l -> t <= u ->
  host_ok ans u (filter (fun x => old_row (unix (u - journal_age)) x.2 = false) j) p l.
Proof.
  intros [H1 H2 H3 H4 H5 H6] Hu. constructor; [| | | |done|done].
  - intros id r Hr. apply map_lookup_filter_Some in Hr as [Hr _]. by apply (H1 _ _ Hr).
  - intros id hash b [x Hx]. apply map_lookup_filter_Some in Hx as [Hx _]. apply H2. by exists x.
  - intros id hash b [[x Hx]|Hl]%H3; [|right; unfold late in *; lia].
    destruct (Z.ltb_spec x (unix (u - journal_age))) as [Ho|Ho].
    + right. specialize (H4 _ _ Hx eq_refl). simpl in H4. unfold late, unix, journal_age, second in *.
      Z.to_euclidean_division_equations; lia.
    + left. exists x. apply map_lookup_filter_Some. split; [done|]. unfold old_row. simpl. by apply Z.ltb_ge.
  - intros id r Hr. apply map_lookup_filter_Some in Hr as [Hr _]. by apply H4.
Qed.

Lemma give_keeps t d b expired :
  triple (fun h => host_inv t h /\ (expired = false ->
      answered t (a_JobID (d_Attributes d)) (a_SnapshotHash (d_Attributes d)) b h))
    (give transport d b expired)
    (fun _ h => host_inv t h)
    (fun _ h => host_inv t h /\ (expired = false ->
      answered t (a_JobID (d_Attributes d)) (a_SnapshotHash (d_Attributes d)) b h)).
Proof.
  intros h [Hi Hd]. unfold give. destruct expired.
  - unfold call. destruct (tr_AcknowledgeExpired transport d b (h_ext h)) as [[] o]; [exact Hi|by split].
  - destruct (Hd eq_refl) as (ans & [H1 H2 H3 H4 H5 H6] & Ha). unfold mbind, SE_bind, note, call. simpl.
    assert (host_ok ans t (h_journal h) (h_pending h)
      (h_published h ++ [(a_JobID (d_Attributes d), a_SnapshotHash (d_Attributes d), b)])) as Hok.
    { constructor; [done..| |done]. apply Forall_app. split; [done|]. by apply Forall_singleton. }
    destruct (tr_PublishResultAndAcknowledge transport d b (h_ext h)) as [[] o]; [by exists ans|].
    split; [by exists ans|]. intros _. by exists ans.
Qed.

Lemma give_or_keep_keeps t d b expired :
  triple (fun h => host_inv t h /\ (expired = false ->
      answered t (a_JobID (d_Attributes d)) (a_SnapshotHash (d_Attributes d)) b h))
    (give_or_keep transport d b expired) (fun _ => host_inv t) (fun _ => host_inv t).
Proof.
  intros h Hpre. pose proof (give_keeps t d b expired h Hpre) as Hg.
  unfold give_or_keep, mbind, SE_bind, try_. destruct (give transport d b expired h) as [[[]|e] h']; simpl in *.
  - done.
  - destruct Hg as [[ans [H1 H2 H3 H4 H5 H6]] Hd]. destruct expired.
    + exists ans. constructor; simpl; [done..|]. by intros p [= <-].
    + destruct (Hd eq_refl) as (ans' & [K1 K2 K3 K4 K5 K6] & Ha). exists ans'. constructor; simpl; [done..|].
      by intros p [= <-].
Qed.

Lemma open_delivery_job d job :
  open_delivery config now d = Ok job -> exists pub, authentic (d_Attributes d) pub job.
Proof.
  unfold open_delivery. repeat (destruct (bool_decide _); [done|]).
  destruct (cf_WorkerPrivateKeys config !! _); [|done].
  destruct (cf_PlatformPublicKeys config !! _) as [pub|]; [|done].
  destruct (OpenJob _ _ _ _ _ _) as [job'|] eqn:E; [|done]. destruct (negb _); [done|].
  intros [= <-]. exists pub. by eapply OpenJob_opens.
Qed.

(** What leaves journal, pending publication and published results alone. *)
Lemma call_keeps {A} t (f : SE O A) id hash :
  keeps (fun h => host_inv t h /\ unanswered id hash h) (call f).
Proof. intros h Hi. unfold call. by destruct (f (h_ext h)) as [[] o]. Qed.

Lemma accept_keeps t u id hash :
  triple (fun h => host_inv t h /\ unanswered id hash h) (Accept u id hash)
    (fun _ h => host_inv t h /\ unanswered id hash h) (fun _ => host_inv t).
Proof.
  intros h [[ans Hi] Hu]. destruct (accept_row_same u id hash _ Hu) as [Hs Hn].
  assert (host_ok ans t (accept_row u id hash (h_journal h)).2 (h_pending h) (h_published h)) as Hok by by eapply host_ok_same.
  unfold Accept, exec, mbind, SE_bind. destruct (next_fault (h_faults h)) as [[] fs]; [|by exists ans..].
  destruct (accept_row u id hash (h_journal h)) as [n j]. simpl in *. destruct (negb _); [by exists ans|].
  split; [by exists ans|done].
Qed.

Lemma store_keeps t u id hash b :
  t <= D id hash + max_tolerance -> D id hash + max_tolerance + second <= u + journal_age ->
  triple (fun h => host_inv t h /\ unanswered id hash h) (StoreResult u id hash b)
    (fun _ => answered t id hash b) (fun _ => host_inv t).
Proof.
  intros Ht Hu h [[ans Hi] Hn]. pose proof (store_row_ok ans t _ _ _ u id hash b Hi Hn Ht Hu) as Hs.
  unfold StoreResult, exec, mbind, SE_bind.
  destruct (next_fault (h_faults h)) as [[] fs]; [|by exists ans|].
  - destruct Hs as [->|[E Hok]]; [by exists ans|]. destruct (store_row u id hash b (h_journal h)) as [n j]. simpl in *. subst n.
    exists (<[(id, hash) := b]> ans). split; [done|]. by rewrite lookup_insert_eq.
  - destruct Hs as [->|[_ Hok]]; [by exists ans|]. by eexists.
Qed.

Lemma run_job_keeps t d job :
  let hash := a_SnapshotHash (d_Attributes d) in
  a_JobID (d_Attributes d) = j_JobID job -> t <= D (j_JobID job) hash + max_tolerance ->
  D (j_JobID job) hash + max_tolerance + second <= now 4%nat + journal_age ->
  triple (fun h => host_inv t h /\ unanswered (j_JobID job) hash h)
    (run_job transport config now d job) (fun _ => host_inv t) (fun _ => host_inv t).
Proof.
  intros hash Hid Ht Hu. unfold run_job.
  set (I := fun h => host_inv t h /\ unanswered (j_JobID job) hash h).
  assert (forall (e : error) h, I h -> host_inv t h) as HI by (by intros e h []).
  eapply (triple_bind _ _ _ (fun _ => I)); [apply accept_keeps|].
  intros _. eapply (triple_bind _ _ _ (fun _ => I)); [intros h Hi; exact Hi|]. intros attempt.
  eapply (triple_bind _ _ _ (fun _ => I)); [intros h Hi; exact Hi|]. intros resultID.
  eapply (triple_bind _ _ _ (fun _ => I)).
  { eapply triple_conseq; [apply call_keeps|done|done|]. apply HI. }
  intros result. eapply (triple_bind _ _ _ (fun _ => I)).
  { intros h Hi. unfold of_res. destruct (SignResult _ _); [done|by apply (HI ErrDatabase)]. }
  intros signed. eapply (triple_bind _ _ _ (fun _ => answered t (j_JobID job) hash signed)); [by apply store_keeps|].
  intros _. eapply triple_conseq; [apply (give_or_keep_keeps t)| |done|done].
  intros h Hd. split; [by eapply answered_inv|]. intros _. by rewrite Hid.
Qed.

Lemma handle_keeps t d :
  t <= now 1%nat -> cf_ClockTolerance config <= max_tolerance ->
  (forall job, open_delivery config now d = Ok job ->
     j_ExpiresAt job = D (j_JobID job) (a_SnapshotHash (d_Attributes d)) /\
     j_ExpiresAt job + max_tolerance + second <= now 4%nat + journal_age) ->
  keeps (host_inv t) (handle transport config now d).
Proof.
  intros Ht Htol HD. unfold handle. destruct (open_delivery config now d) as [job|e] eqn:Eo.
  2:{ intros h Hi. unfold mbind, SE_bind, of_res. done. }
  destruct (HD job eq_refl) as [Ed Hu].
  apply open_delivery_job in Eo as [pub Hau]. pose proof (au_job _ _ _ Hau) as Hid.
  eapply triple_bind with (R := fun j h => host_inv t h /\ j = job); [by intros h Hi|].
  intros j. eapply (triple_bind _ _ _ (fun stored h => (host_inv t h /\ j = job) /\
    stored = stored_result (j_JobID job) (a_SnapshotHash (d_Attributes d)) (h_journal h))).
  { intros h [Hi ->]. unfold JournalResult, exec. by destruct (next_fault (h_faults h)) as [[] fs]. }
  intros [body|] h [[Hi ->] Hs].
  - symmetry in Hs. apply give_or_keep_keeps. split; [done|]. intros _. rewrite <- Hid.
    destruct Hi as [ans Hi]. apply stored_durable in Hs; [|apply Hi]. exists ans. split; [done|]. by apply Hi.
  - unfold after. destruct (Z.ltb_spec (time_add (j_ExpiresAt job) (cf_ClockTolerance config)) (now 1%nat)) as [Hl|Hl].
    + unfold mbind, SE_bind, of_res. destruct (SignExpired _ _) as [ack|]; [|done].
      apply give_or_keep_keeps. by split.
    + unfold time_add in Hl. apply run_job_keeps; [done|lia|lia|]. by split.
Qed.

Lemma RunOne_keeps t h :
  t <= now 1%nat -> cf_ClockTolerance config <= max_tolerance ->
  (forall d o job, tr_Pull transport (20 * second) (h_ext h) = (Ok d, o) -> open_delivery config now d = Ok job ->
     j_ExpiresAt job = D (j_JobID job) (a_SnapshotHash (d_Attributes d)) /\
     j_ExpiresAt job + max_tolerance + second <= now 4%nat + journal_age) ->
  host_inv t h -> host_inv t (RunOne transport config now h).2.
Proof.
  intros Ht Htol HD Hi. unfold RunOne, gets. unfold mbind at 1, SE_bind at 1.
  destruct (h_pending h) as [p|] eqn:Ep.
  - assert (host_inv t h /\ (pp_expired p = false -> answered t
      (a_JobID (d_Attributes (pp_delivery p))) (a_SnapshotHash (d_Attributes (pp_delivery p))) (pp_body p) h)) as Hpre.
    { split; [done|]. intros Hx. destruct Hi as [ans Hi]. exists ans. split; [done|]. by apply (ho_pending _ _ _ _ _ Hi). }
    apply give_keeps in Hpre. unfold mbind, SE_bind.
    destruct (give transport (pp_delivery p) (pp_body p) (pp_expired p) h) as [[[]|e] h']; [|apply Hpre].
    destruct Hpre as [ans [H1 H2 H3 H4 H5 H6]]. exists ans. simpl. by constructor.
  - unfold mbind, SE_bind, try_, call.
    destruct (tr_Pull transport (20 * second) (h_ext h)) as [[d|e] o] eqn:Epull; simpl.
    + by apply (keeps_final (host_inv t)); [apply handle_keeps; [done..|intros job Ho; by eapply HD]|exact Hi].
    + destruct e; exact Hi.
Qed.
End Invariant.

(** ** The life of a host *)

Section Steps.
Context {P : Primitives} {O : Type} `{!CheckEngine O}.

(** A call with any transport, configuration and clock; a crash; whatever happens
    outside, the choice of the next faults included; reading the metrics; the hourly cleanup.
    The cleanup runs beside the calls, but a call cannot tell a cleanup in its course from one
    before or after it: a cleanup only deletes completed rows, and after a call found the
    completed row of its job, or completed it, it reads the journal no more. *)
Inductive host_event : Type :=
| HRun (transport : Transport O) (config : Config) (now : nat -> Z)
| HCrash
| HOutside (o : O) (random : nat -> bytes) (faults : list fault)
| HMetrics (now : Z)
| HCleanup (now : Z).

Definition host_step (h : Host O) (e : host_event) : Host O :=
  match e with
  | HRun transport config now => (RunOne transport config now h).2
  | HCrash => set_pending None h
  | HOutside o random faults => mkHost (h_journal h) (h_pending h) o random (h_next h) faults (h_published h)
  | HMetrics now => (Metrics now h).2
  | HCleanup now => (CleanupJournal (fun _ => now) h).2
  end.

Definition host_run (h : Host O) (es : list host_event) : Host O := foldl host_step h es.

(** The clock after an event. *)
Definition clock_after (t : Z) (e : host_event) : Z :=
  match e with HRun _ _ now => now 4%nat | HCleanup now => now | _ => t end.

(** The clock does not run backwards; a configuration is one [NewWorker] accepts; [D] is the
    deadline of every job that is opened (the snapshot hash, a digest of the job, fixes it),
    and no job is run more than seven days (less 31 seconds) before its deadline, which the
    platform sets two minutes after the slot. *)
Definition event_ok (D : string -> string -> Z) (t : Z) (h : Host O) (e : host_event) : Prop :=
  match e with
  | HRun transport config now =>
      t <= now 0%nat /\ (forall i, now i <= now (S i)) /\ cf_ClockTolerance config <= max_tolerance /\
      forall d o job, tr_Pull transport (20 * second) (h_ext h) = (Ok d, o) -> open_delivery config now d = Ok job ->
        j_ExpiresAt job = D (j_JobID job) (a_SnapshotHash (d_Attributes d)) /\
        j_ExpiresAt job + max_tolerance + second <= now 0%nat + journal_age
  | HCleanup now => t <= now
  | _ => True
  end.

Fixpoint timely (D : string -> string -> Z) (t : Z) (h : Host O) (es : list host_event) : Prop :=
  match es with
  | [] => True
  | e :: es => event_ok D t h e /\ timely D (clock_after t e) (host_step h e) es
  end.

Lemma host_step_keeps D t (h : Host O) e : event_ok D t h e -> host_inv D t h -> host_inv D (clock_after t e) (host_step h e).
Proof.
  destruct e as [transport config now| |o random faults|now|now]; simpl; intros He Hi.
  - destruct He as (H0 & Hmono & Htol & HD).
    pose proof (Hmono 0%nat). pose proof (Hmono 1%nat). pose proof (Hmono 2%nat). pose proof (Hmono 3%nat).
    assert (host_inv D t (RunOne transport config now h).2) as [ans Hok].
    { apply RunOne_keeps; [lia|done| |done]. intros d o job Hp Ho. destruct (HD d o job Hp Ho). split; [done|lia]. }
    exists ans. eapply host_ok_later; [|exact Hok]. lia.
  - destruct Hi as [ans [H1 H2 H3 H4 H5 H6]]. exists ans. by constructor.
  - exact Hi.
  - unfold Metrics, exec. by destruct (next_fault (h_faults h)) as [[] fs].
  - destruct Hi as [ans Hi]. unfold CleanupJournal, Cleanup, exec, time_add.
    pose proof (cleanup_ok D ans t now _ _ _ Hi He) as Hc. change (now + - (7 * 24 * hour)) with (now - journal_age).
    exists ans. destruct (next_fault (h_faults h)) as [[] fs]; simpl; [exact Hc|by eapply host_ok_later|exact Hc].
Qed.

Lemma host_run_keeps D t (h : Host O) es : timely D t h es -> host_inv D t h -> host_inv D (foldl clock_after t es) (host_run h es).
Proof.
  revert t h. induction es as [|e es IH]; simpl; intros t h Ht Hi; [done|]. destruct Ht as [He Ht].
  apply IH; [done|]. by apply host_step_keeps.
Qed.

Lemma fresh_host_inv D t (h : Host O) : h_journal h = ∅ -> h_pending h = None -> h_published h = [] -> host_inv D t h.
Proof.
  intros Ej Ep El. exists ∅. rewrite Ej, Ep, El. constructor.
  - apply map_Forall_empty.
  - intros id hash b [u Hu]. by rewrite lookup_empty in Hu.
  - intros id hash b Hb. by rewrite lookup_empty in Hb.
  - intros id r Hr. by rewrite lookup_empty in Hr.
  - constructor.
  - done.
Qed.

(** C24: from its first start on, whatever fails and however often the host crashes and
    cleans its journal, all results a host gave to its queue for one job and snapshot are the
    same bytes: a job is never answered twice differently.  The result is in the journal until
    the job is past its deadline, when it may not be started any more.  This is under a clock
    that does not run backwards and for jobs that are not run more than seven days (less 31
    seconds) before their deadline. *)
Theorem one_result_per_job D t (h : Host O) es id hash b b' :
  h_journal h = ∅ -> h_pending h = None -> h_published h = [] -> timely D t h es ->
  (id, hash, b) ∈ h_published (host_run h es) -> (id, hash, b') ∈ h_published (host_run h es) ->
  b = b' /\
  (durable (h_journal (host_run h es)) id hash b \/ D id hash + 30 * second < foldl clock_after t es).
Proof.
  intros Ej Ep El Ht. destruct (host_run_keeps D t h es Ht (fresh_host_inv D t h Ej Ep El)) as [ans [_ _ H3 _ H5 _]].
  rewrite Forall_forall in H5. intros Hb%H5 Hb'%H5. simpl in *. split; [congruence|]. by apply H3.
Qed.
End Steps.

(** ** A run that reports *)

Lemma hex_char n : 0 <= n < 16 -> contains_char "0123456789abcdefABCDEF" (hex_digit n) = true.
Proof.
  intros Hn.
  assert (forallb (fun n => contains_char "0123456789abcdefABCDEF" (hex_digit n)) (seqZ 0 16) = true) as H
    by (vm_compute; reflexivity).
  rewrite forallb_forall in H. apply H, list_elem_of_In, elem_of_seqZ. lia.
Qed.

Definition hexc (c : ascii) : bool := contains_char "0123456789abcdefABCDEF" c.

Lemma hex_encode_hexc b : Secureheaders.forall_char hexc (hex_encode b) = true.
Proof.
  induction b as [|c b IH]; [done|]. simpl. pose proof (val_of_bound c). unfold hexc.
  rewrite !hex_char; [exact IH|apply Z.mod_pos_bound; lia|].
  split; [apply Z.div_pos; lia|apply Z.div_lt_upper_bound; lia].
Qed.

Lemma slen_set_byte i f b : slen (set_byte i f b) = slen b.
Proof.
  unfold slen. revert i. induction b as [|c b IH]; intros [|i]; simpl; try done. specialize (IH i). lia.
Qed.

Lemma substring_hexc n m s :
  Secureheaders.forall_char hexc s = true -> (n + m <= String.length s)%nat ->
  Secureheaders.forall_char hexc (String.substring n m s) = true /\ slen (String.substring n m s) = Z.of_nat m.
Proof.
  unfold slen. revert n m. induction s as [|c s IH]; intros [|n] [|m] Hs Hl; simpl in *; try (split; done); try lia.
  - apply andb_true_iff in Hs as [Hc Hs]. destruct (IH 0%nat m Hs) as [-> E]; [lia|]. rewrite Hc. split; [done|lia].
  - apply andb_true_iff in Hs as [Hc Hs]. apply (IH n 0%nat Hs). lia.
  - apply andb_true_iff in Hs as [Hc Hs]. apply (IH n (S m) Hs). lia.
Qed.

Lemma uuid_run i s r :
  Secureheaders.forall_char hexc s = true ->
  Forall (fun k => hyphen_at k = false) (seqZ i (slen s)) ->
  uuid_chars i (s +:+ r) = uuid_chars (i + slen s) r.
Proof.
  revert i. induction s as [|c s IH]; intros i Hs Hf.
  - rewrite Z.add_0_r. done.
  - simpl in Hs. apply andb_true_iff in Hs as [Hc Hs]. rewrite append_cons. cbn [uuid_chars].
    assert (slen (String c s) = 1 + slen s) as El by (unfold slen; simpl; lia). rewrite El in *.
    rewrite seqZ_cons in Hf by (unfold slen; lia). apply Forall_cons in Hf as [Hi Hf].
    unfold hexc in Hc. rewrite Hi, Hc. simpl andb.
    replace (Z.pred (1 + slen s)) with (slen s) in Hf by lia.
    rewrite IH; [f_equal; lia|done|]. by replace (i + 1) with (Z.succ i) by lia.
Qed.

Lemma uuid_dash i r : hyphen_at i = true -> uuid_chars i ("-" +:+ r) = uuid_chars (i + 1) r.
Proof. intros Hi. rewrite (append_cons "-" "" r). cbn [uuid_chars]. rewrite Hi. done. Qed.

(** Sixteen random bytes give the text of a uuid. *)
Lemma randomID_uuid b : slen b = 16 -> validUUID (randomID b) = true.
Proof.
  intros Hb. unfold randomID. set (e := hex_encode _).
  assert (Secureheaders.forall_char hexc e = true) as He by apply hex_encode_hexc.
  assert (String.length e = 32%nat) as Hl.
  { assert (slen e = 32) as H by (unfold e; rewrite slen_hex_encode, !slen_set_byte; lia). unfold slen in H. lia. }
  clearbody e. cbn [Nat.sub].
  destruct (substring_hexc 0 8 e He) as [A1 B1]; [lia|]. destruct (substring_hexc 8 4 e He) as [A2 B2]; [lia|].
  destruct (substring_hexc 12 4 e He) as [A3 B3]; [lia|]. destruct (substring_hexc 16 4 e He) as [A4 B4]; [lia|].
  destruct (substring_hexc 20 12 e He) as [A5 B5]; [lia|].
  unfold validUUID. rewrite !slen_append, B1, B2, B3, B4, B5. simpl Z.eqb.
  assert (forall i n, 0 <= n -> forallb (fun k => negb (hyphen_at k)) (seqZ i n) = true ->
    Forall (fun k => hyphen_at k = false) (seqZ i n)) as Hf.
  { intros i n _. rewrite forallb_forall, Forall_forall. intros H k Hk.
    apply negb_true_iff, H. by apply list_elem_of_In. }
  rewrite uuid_run, B1 by (done || (rewrite B1; apply Hf; [lia|reflexivity])). rewrite uuid_dash by done.
  rewrite uuid_run, B2 by (done || (rewrite B2; apply Hf; [lia|reflexivity])). rewrite uuid_dash by done.
  rewrite uuid_run, B3 by (done || (rewrite B3; apply Hf; [lia|reflexivity])). rewrite uuid_dash by done.
  rewrite uuid_run, B4 by (done || (rewrite B4; apply Hf; [lia|reflexivity])). rewrite uuid_dash by done.
  rewrite <- (append_nil_r (String.substring 20 12 e)).
  rewrite uuid_run, B5 by (done || (rewrite B5; apply Hf; [lia|reflexivity])). done.
Qed.

(** What [NewWorker] guarantees of a configuration. *)
Record config_ok (c : Config) : Prop := {
  co_worker : cf_WorkerID c <> "";
  co_pool : cf_WorkerPoolID c <> "";
  co_result_key : cf_ResultKeyID c <> "";
  co_private : slen (cf_ResultPrivate c) = 64;
  co_tolerance : 0 <= cf_ClockTolerance c <= 30 * second
}.

Lemma NewWorker_ok wp pp wid pid c0 c : NewWorker wp pp wid pid c0 = Ok c -> config_ok c.
Proof.
  unfold NewWorker. destruct (_ || _) eqn:E; [done|]. destruct (_ || _) eqn:E' in |- *; [done|]. intros [= <-].
  rewrite !orb_false_iff, !String.eqb_neq, negb_false_iff, Z.eqb_eq in E.
  apply orb_false_iff in E' as [E1 E2]. constructor; simpl in *; [tauto..|]. lia.
Qed.

Lemma validateJob_fields job :
  is_ok (validateJob job 0 false) = true ->
  SupportsSchema (j_SchemaVersion job) = true /\ j_JobID job <> "" /\ j_WorkerPoolID job <> "" /\
  j_ScheduledAt job <> zero_time.
Proof.
  unfold validateJob. match goal with |- is_ok (if ?c then _ else _) = true -> _ => destruct c eqn:E; [done|] end.
  rewrite !orb_false_iff in E. intros _. unfold empty_string, is_zero_time in E.
  rewrite !String.eqb_neq, negb_false_iff, !Z.eqb_neq in E. tauto.
Qed.

(** A fresh result of a sound check, with the identifiers of an authentic job, is valid
    exactly when its status has three digits starting with 1 to 5. *)
Lemma result_of_valid {P : Primitives} {L : PrimitiveLaws} config attrs pub job input r resultID attempt :
  config_ok config -> authentic attrs pub job -> sound_result input r ->
  resultID <> "" -> attempt <> "" -> cr_StartedAt r <> zero_time ->
  100 <= ck_ExpectedMin input -> ck_ExpectedMax input <= 599 ->
  is_ok (validateResult (result_of config job (a_SnapshotHash attrs) resultID attempt r)) = true <->
  (forall c, cr_StatusCode r = Some c -> 100 <= c <= 599).
Proof.
  intros [C1 C2 C3 C4 C5] [Hv (aad & plain & sg & _ & _ & Hh & _) Hs Hj Hp _ _ _] [S1 [_ S2] S3 S4 S5 S6] Hr Ha Ht Hmin Hmax.
  apply validateJob_fields in Hv as (V1 & V2 & V3 & V4).
  rewrite validateResult_ok. split; [by intros [[_ _ _ _ Hc _ _] _]|]. intros Hc.
  split; [|split_and!; done]. constructor; simpl; try done.
  - unfold SupportsSchema, PreviousSchemaVersion, SchemaVersion in V1. lia.
  - rewrite <- Hh, slen_hex_encode, sha256_length. done.
  - apply Z.quot_pos; lia.
  - intros E. destruct (S4 E) as [-> (c & -> & _)]. split; [by eexists|done].
  - intros E. destruct (S5 E) as (c & -> & _). by eexists.
Qed.

Section Report.
Context {P : Primitives} {L : PrimitiveLaws} {O : Type} `{!CheckEngine O}.
Context (transport : Transport O) (config : Config) (now : nat -> Z).

(** A working host with a delivery of an open job that is not late. *)
Record fresh_delivery (h : Host O) (d : Delivery) (job : Job) (o : O) : Prop := {
  fd_pending : h_pending h = None;
  fd_faults : h_faults h = [];
  fd_pull : tr_Pull transport (20 * second) (h_ext h) = (Ok d, o);
  fd_open : open_delivery config now d = Ok job;
  fd_row : forall r, h_journal h !! j_JobID job = Some r ->
    jr_snapshot_hash r = a_SnapshotHash (d_Attributes d) /\ jr_completed r = false;
  fd_time : now 1%nat <= j_ExpiresAt job + cf_ClockTolerance config
}.

Definition attempt_of (h : Host O) : string := randomID (h_random h (h_next h)).
Definition result_id_of (h : Host O) : string := randomID (h_random h (S (h_next h))).

(** The host after the check ran, before its result is stored. *)
Definition after_check (h : Host O) (job : Job) (hash : string) (o' : O) : Host O :=
  mkHost (accept_row (now 3%nat) (j_JobID job) hash (h_journal h)).2 None o' (h_random h) (S (S (h_next h))) []
    (h_published h).

Lemma accept_row_one h d job o :
  fresh_delivery h d job o ->
  (accept_row (now 3%nat) (j_JobID job) (a_SnapshotHash (d_Attributes d)) (h_journal h)).1 = 1 /\
  exists t, (accept_row (now 3%nat) (j_JobID job) (a_SnapshotHash (d_Attributes d)) (h_journal h)).2 !! j_JobID job =
    Some (mkJournalRow (a_SnapshotHash (d_Attributes d)) false
            (h_journal h !! j_JobID job ≫= jr_result) t).
Proof.
  intros [_ _ _ _ Hrow _]. unfold accept_row. destruct (h_journal h !! j_JobID job) as [r|] eqn:E.
  - destruct (Hrow r eq_refl) as [Eh Ec]. rewrite Eh, String.eqb_refl. simpl. split; [done|].
    eexists. rewrite lookup_insert_eq, Ec. done.
  - simpl. split; [done|]. eexists. by rewrite lookup_insert_eq.
Qed.

Lemma RunOne_fresh h d job o r o' :
  fresh_delivery h d job o -> ce_Execute (check_request job) o = (Ok r, o') ->
  let hash := a_SnapshotHash (d_Attributes d) in
  let h1 := after_check h job hash o' in
  RunOne transport config now h =
  match SignResult (result_of config job hash (result_id_of h) (attempt_of h) r) (cf_ResultPrivate config) with
  | Err e => (Err e, h1)
  | Ok signed =>
      give_or_keep transport d signed false
        (set_journal (store_row (now 4%nat) (j_JobID job) hash signed (h_journal h1)).2 h1)
  end.
Proof.
  intros Hf He hash h1. pose proof (accept_row_one h d job o Hf) as [Hc (t & Hrow)].
  destruct Hf as [Hpen Hfl Hpull Hopen Hr Htime].
  assert (stored_result (j_JobID job) hash (h_journal h) = None) as Hst.
  { unfold stored_result. destruct (h_journal h !! j_JobID job) as [row|] eqn:E; [|done].
    destruct (Hr row eq_refl) as [_ ->]. by rewrite andb_false_r. }
  fold hash in Hc, Hrow.
  destruct (accept_row (now 3%nat) (j_JobID job) hash (h_journal h)) as [n j1] eqn:Ea. simpl in Hc, Hrow. subst n.
  unfold RunOne, handle, run_job, Accept, StoreResult, JournalResult, gets, try_, call, of_res, random_id, exec,
    mbind, SE_bind, mret, SE_ret, set_faults, set_journal.
  rewrite Hpen, Hpull. cbn [fst snd]. rewrite Hopen. fold hash.
  cbn [h_faults h_journal h_pending h_ext h_random h_next h_published]. rewrite Hfl. cbn [next_fault].
  rewrite Hst. unfold after. rewrite (proj2 (Z.ltb_ge _ _)) by (unfold time_add; lia).
  cbn [h_faults h_journal h_pending h_ext h_random h_next h_published next_fault].
  rewrite Ea. cbn [Z.eqb Pos.eqb negb h_faults h_journal h_pending h_ext h_random h_next h_published next_fault].
  rewrite He. fold (attempt_of h) (result_id_of h). unfold h1, after_check. rewrite Ea.
  destruct (SignResult _ _) as [signed|e]; [|by rewrite Hpen].
  cbn [h_faults h_journal h_pending h_ext h_random h_next h_published next_fault snd].
  unfold store_row. rewrite Hrow. cbn [jr_snapshot_hash]. rewrite String.eqb_refl.
  cbn [snd Z.eqb Pos.eqb negb]. by rewrite Hpen.
Qed.

Lemma attempt_nonempty h : (forall n, slen (h_random h n) = 16) -> attempt_of h <> "" /\ result_id_of h <> "".
Proof.
  intros Hr. unfold attempt_of, result_id_of.
  pose proof (randomID_uuid _ (Hr (h_next h))) as H1. pose proof (randomID_uuid _ (Hr (S (h_next h)))) as H2.
  split; intros E; [rewrite E in H1|rewrite E in H2]; discriminate.
Qed.

(** What a worker reports of a check [r] of [job]: the identifiers are the next two of the
    host's random source, a duration is in whole microseconds, and a phase that was not
    measured is left out. *)
Definition whole_micros (nanoseconds microseconds : Z) : Prop :=
  microseconds * 1000 <= nanoseconds < (microseconds + 1) * 1000.
Definition phase_reported (measured reported : option Z) : Prop :=
  match measured, reported with
  | Some d, Some us => whole_micros d us
  | None, None => True
  | _, _ => False
  end.

Record reports (h : Host O) (job : Job) (d : Delivery) (r : CheckResult) (result : Result) : Prop := {
  re_schema : r_SchemaVersion result = j_SchemaVersion job;
  re_job : r_JobID result = a_JobID (d_Attributes d) /\ r_JobID result = j_JobID job;
  re_snapshot : r_SnapshotHash result = a_SnapshotHash (d_Attributes d);
  re_pool : r_WorkerPoolID result = a_WorkerPoolID (d_Attributes d) /\ r_WorkerPoolID result = cf_WorkerPoolID config;
  re_worker : r_WorkerID result = cf_WorkerID config /\ r_ResultKeyID result = cf_ResultKeyID config;
  re_ids : r_ResultID result = result_id_of h /\ r_AttemptID result = attempt_of h;
  re_uuids : validUUID (r_ResultID result) = true /\ validUUID (r_AttemptID result) = true;
  re_times : r_ScheduledAt result = j_ScheduledAt job /\ r_StartedAt result = cr_StartedAt r /\
    r_CompletedAt result = cr_CompletedAt r;
  re_outcome : r_Succeeded result = cr_Succeeded r /\ r_StatusCode result = cr_StatusCode r /\
    r_ErrorCategory result = cr_ErrorCategory r;
  re_dns : phase_reported (cr_DNS r) (r_DNSMicros result);
  re_connect : phase_reported (cr_Connect r) (r_ConnectMicros result);
  re_tls : phase_reported (cr_TLS r) (r_TLSMicros result);
  re_first_byte : phase_reported (cr_FirstByte r) (r_FirstByteMicros result);
  re_total : whole_micros (cr_Total r) (r_TotalMicros result)
}.

Lemma whole_micros_quot v : 0 <= v -> whole_micros v (Z.quot v 1000).
Proof. intros Hv. unfold whole_micros. Z.to_euclidean_division_equations. lia. Qed.

Lemma micros_reported v : nonneg_opt v -> phase_reported v (micros v).
Proof. intros Hv. destruct v as [v|]; [|done]. by apply whole_micros_quot, Hv. Qed.

Lemma open_delivery_pool d job : open_delivery config now d = Ok job -> j_WorkerPoolID job = cf_WorkerPoolID config.
Proof.
  unfold open_delivery. repeat case_match; try done. intros [= <-]. by apply String.eqb_eq, negb_false_iff.
Qed.

Lemma result_of_reports h d job o r o' :
  (forall n, slen (h_random h n) = 16) -> fresh_delivery h d job o -> ce_Execute (check_request job) o = (Ok r, o') ->
  reports h job d r (result_of config job (a_SnapshotHash (d_Attributes d)) (result_id_of h) (attempt_of h) r).
Proof.
  intros Hrnd Hf He. pose proof (open_delivery_pool _ _ (fd_open _ _ _ _ Hf)) as Hpool.
  pose proof (fd_open _ _ _ _ Hf) as [pub Hau]%open_delivery_job.
  destruct (ce_sound _ _ _ _ He) as [_ [_ Htot] _ _ _ (T1 & T2 & T3 & T4)].
  pose proof (au_job _ _ _ Hau). pose proof (au_pool _ _ _ Hau).
  constructor; simpl; [done..| |done|done| | | | |]; try by apply micros_reported.
  - split; by apply randomID_uuid.
  - by apply whole_micros_quot.
Qed.

(** C25: a host that works runs the job of a fresh delivery and reports what the engine
    measured.  There is a result that answers the job of the delivery (its identifier, snapshot,
    pool and slot), has fresh uuids, names the worker and its key, and carries of the check the
    start, the end, the outcome, the status, the category, the total and the four phases, each
    in its own field, in whole microseconds.  When the status of the server is absent or 100 to
    599, and the signed result can be encoded in the size of a message and is taken by the
    queue, the host publishes exactly that result, durable before, and the platform verifies
    it under the worker's public key. *)
Theorem RunOne_reports h d job o r o' :
  config_ok config -> nonempty cbor_signed_result -> (forall n, slen (h_random h n) = 16) ->
  fresh_delivery h d job o -> ce_Execute (check_request job) o = (Ok r, o') ->
  cr_StartedAt r <> zero_time -> (forall c, cr_StatusCode r = Some c -> 100 <= c <= 599) ->
  exists result, reports h job d r result /\
  forall raw out o'',
    marshal cbor_result result = Some raw ->
    marshal cbor_signed_result (mkSignedResult result
      (ed25519_sign (cf_ResultPrivate config) (appendDomain "watchtrace-result-signature" [raw]))) = Some out ->
    slen out <= MaxMessageBytes ->
    tr_PublishResultAndAcknowledge transport d out o' = (Ok (), o'') ->
    exists h', RunOne transport config now h = (Ok true, h') /\
      h_pending h' = None /\ h_ext h' = o'' /\
      h_published h' = h_published h ++ [(a_JobID (d_Attributes d), a_SnapshotHash (d_Attributes d), out)] /\
      durable (h_journal h') (a_JobID (d_Attributes d)) (a_SnapshotHash (d_Attributes d)) out /\
      VerifyResult out (ed25519_public (cf_ResultPrivate config)) = Ok result.
Proof.
  intros Hc Hne Hrnd Hf He Ht Hst. set (hash := a_SnapshotHash (d_Attributes d)).
  set (result := result_of config job hash (result_id_of h) (attempt_of h) r). exists result.
  split; [by eapply result_of_reports|]. intros raw out o'' Hraw Hout Hlen Hpub.
  pose proof (fd_open _ _ _ _ Hf) as [pub Hau]%open_delivery_job.
  pose proof (attempt_nonempty h Hrnd) as [Hat Hrid].
  assert (100 <= j_ExpectedStatusMin job /\ j_ExpectedStatusMax job <= 599) as [Hmin Hmax].
  { pose proof (au_valid _ _ _ Hau) as Hv. unfold validateJob in Hv.
    match type of Hv with is_ok (if ?c then _ else _) = true => destruct c eqn:E; [done|] end.
    rewrite !orb_false_iff in E. lia. }
  assert (SignResult result (cf_ResultPrivate config) = Ok out) as Hs.
  { unfold SignResult. rewrite guard_pass.
    - rewrite Hraw. cbn [or_invalid]. rewrite Hout. cbn [or_invalid]. apply guard_pass. by apply Z.ltb_ge.
    - apply orb_false_iff. rewrite (co_private _ Hc). split; [done|]. apply negb_false_iff.
      apply (result_of_valid config _ _ _ _ _ _ _ Hc Hau (ce_sound _ _ _ _ He)); done. }
  pose proof (RunOne_fresh h d job o r o' Hf He) as Hrun. cbn zeta in Hrun. fold hash in Hrun.
  fold result in Hrun. rewrite Hs in Hrun.
  pose proof (accept_row_one h d job o Hf) as [_ (t & Hrow)]. fold hash in Hrow.
  pose proof (au_job _ _ _ Hau) as Hid.
  eexists. rewrite Hrun. split.
  { unfold give_or_keep, give, note, call, try_, mbind, SE_bind.
    cbn [fst snd h_ext set_journal after_check]. rewrite Hpub. reflexivity. }
  pose proof (SignResult_verifies _ _ _ Hne Hs) as [_ Hver].
  cbn [h_pending h_ext h_published h_journal after_check set_journal].
  split_and!; try done.
  unfold store_row. rewrite Hrow. cbn [jr_snapshot_hash]. rewrite String.eqb_refl. cbn [snd h_journal].
  eexists. by rewrite <- Hid, lookup_insert_eq.
Qed.

(** A monitored server that answers with a status above 599 is never reported: the
    result does not pass the envelope's own validation, nothing is published, and the
    journal still has the job open, so that every redelivery runs the check again. *)
Theorem high_status_never_reported h d job o r o' c :
  fresh_delivery h d job o -> ce_Execute (check_request job) o = (Ok r, o') ->
  cr_StatusCode r = Some c -> 599 < c ->
  exists h', RunOne transport config now h = (Err ErrEnvelopeInvalid, h') /\
    h_published h' = h_published h /\ h_pending h' = None /\
    exists t, h_journal h' !! j_JobID job =
      Some (mkJournalRow (a_SnapshotHash (d_Attributes d)) false (h_journal h !! j_JobID job ≫= jr_result) t).
Proof.
  intros Hf He Hst H5. pose proof (RunOne_fresh h d job o r o' Hf He) as Hrun. cbn zeta in Hrun.
  assert (forall res, r_StatusCode res = Some c -> SignResult res (cf_ResultPrivate config) = Err ErrEnvelopeInvalid) as Hs.
  { intros res Hres. unfold SignResult, guard.
    destruct (is_ok (validateResult res)) eqn:E; [|by rewrite orb_true_r].
    apply validateResult_ok in E as [[_ _ _ _ Hx _ _] _]. specialize (Hx c Hres). lia. }
  rewrite Hs in Hrun by (simpl; done). exists (after_check h job (a_SnapshotHash (d_Attributes d)) o').
  split; [done|]. split; [done|]. split; [done|].
  by destruct (accept_row_one h d job o Hf) as [_ Hrow].
Qed.
End Report.

(** ** The engine of the platform fulfils the interface *)

Definition engine_of `{UrlLib} (O : Type) (error_text : goerr -> string) (now : nat -> Z)
    (client : Request -> list event * (option Response + goerr)) (interrupted : option error)
    (Hst : forall q es r, client q = (es, inl (Some r)) -> 0 <= rs_StatusCode r <= 999) : CheckEngine O.
Proof.
  refine {| ce_Execute input := of_res (Execute error_text now client interrupted input) |}.
  intros input o r o' E. pose proof (Execute_result error_text now client interrupted input Hst) as H0.
  unfold of_res in E. injection E as E _. rewrite E in H0. apply H0.
Defined.

(** ** A host with one job *)

Module OneJob.
Definition url : URL := mkURL "https" "" None "example.test" "/" "" "".
Definition lib : UrlLib := Build_UrlLib (fun _ => Some url) (fun _ => "https://example.test/") (fun _ _ => None).
(** The server answers with the status. *)
Definition client (status : Z) (_ : Request) : list event * (option Response + goerr) :=
  ([], inl (Some (mkResponse status "" 10 false false))).

Lemma client_status status : 0 <= status <= 999 ->
  forall q es r, client status q = (es, inl (Some r)) -> 0 <= rs_StatusCode r <= 999.
Proof. by intros Hs q es r [= <- <-]. Qed.

Lemma ok_status : 0 <= 204 <= 999. Proof. lia. Qed.
Lemma high_status : 0 <= 999 <= 999. Proof. lia. Qed.

Definition engine (status : Z) (Hs : 0 <= status <= 999) : CheckEngine nat :=
  engine_of (H := lib) nat (fun _ => "") (fun n => (101 + Z.of_nat n) * second) (client status) None (client_status status Hs).

Definition config : Config :=
  mkConfig "w1" "pool" "rk" second (Toy.rep 64 "k") {["wk" := "w"]} {["pk" := Toy.rep 32 "k"]} ∅.
Definition delivery : Delivery := mkDelivery "m" Toy.attributes "lease" 1.
Definition now (n : nat) : Z := 100 * second.

(** The queue keeps the job until a result was taken; the first publication fails. *)
Definition transport : Transport nat :=
  mkTransport (fun _ o => (Ok delivery, o)) (fun _ _ o => (Ok (), o))
    (fun _ _ o => match o with O => (Err ErrDatabase, 1%nat) | S n => (Ok (), S n) end)
    (fun _ _ o => (Ok (), o)).

Definition random (n : nat) : bytes := Toy.rep 16 (byte_of (Z.of_nat n)).
Definition host (o : nat) : Host nat := mkHost ∅ None o random 0 [] [].

Definition result : Result :=
  result_of config Toy.job (a_SnapshotHash Toy.attributes) (randomID (random 1)) (randomID (random 0))
    (finish (101 * second) (102 * second) 204 "" (Some no_timings)).

(** The primitives of the envelope example, with this result. *)
Definition primitives : Primitives := {|
  cbor_job := @cbor_job Toy.primitives; cbor_attributes := @cbor_attributes Toy.primitives;
  cbor_signed_job := @cbor_signed_job Toy.primitives; cbor_sealed_job := @cbor_sealed_job Toy.primitives;
  cbor_result := Toy.single result; cbor_signed_result := Toy.single (mkSignedResult result (Toy.rep 64 "s"));
  cbor_expired := @cbor_expired Toy.primitives; cbor_signed_expired := @cbor_signed_expired Toy.primitives;
  sha256 := @sha256 Toy.primitives; ed25519_public := @ed25519_public Toy.primitives;
  ed25519_sign := @ed25519_sign Toy.primitives; ed25519_verify := @ed25519_verify Toy.primitives;
  x25519_public := @x25519_public Toy.primitives; x25519_key_ok := @x25519_key_ok Toy.primitives;
  x25519_ecdh := @x25519_ecdh Toy.primitives; hkdf_sha256 := @hkdf_sha256 Toy.primitives;
  gcm_seal := @gcm_seal Toy.primitives; gcm_open := @gcm_open Toy.primitives |}.

Lemma one_job_laws : @PrimitiveLaws primitives.
Proof.
  destruct Toy.laws as [A1 A2 A3 A4 A5 A6 A7 A8 A9 A10 A11 A12].
  constructor; try assumption. apply Toy.single_inverts.
Qed.

Lemma one_job_config : config_ok config.
Proof. constructor; vm_compute; try done. Qed.

Lemma one_job_fresh o : @fresh_delivery primitives nat transport config now (host o) delivery Toy.job o.
Proof.
  constructor; try (vm_compute; reflexivity).
  - intros r Hr. cbn [h_journal host] in Hr. by rewrite lookup_empty in Hr.
  - vm_compute. congruence.
Qed.


Lemma one_job_timely (h : Host nat) t : t <= 100 * second ->
  @event_ok primitives nat (fun _ _ => j_ExpiresAt Toy.job) t h (HRun transport config now).
Proof.
  intros Ht. split; [exact Ht|]. split; [done|]. split; [vm_compute; discriminate|].
  intros d o job Hp Ho. injection Hp as <- <-. vm_compute in Ho. injection Ho as <-. split; [reflexivity|vm_compute; discriminate].
Qed.
End OneJob.

Lemma RunOne_reports_witness :
  exists h', @RunOne OneJob.primitives nat (OneJob.engine 204 OneJob.ok_status) OneJob.transport OneJob.config OneJob.now
      (OneJob.host 1) = (Ok true, h') /\
    h_published h' = [("j1", a_SnapshotHash Toy.attributes, "m")].
Proof.
  destruct (@RunOne_reports OneJob.primitives OneJob.one_job_laws nat (OneJob.engine 204 OneJob.ok_status)
    OneJob.transport OneJob.config OneJob.now (OneJob.host 1) OneJob.delivery Toy.job 1%nat
    (finish (101 * second) (102 * second) 204 "" (Some no_timings)) 1%nat) as (result & Hre & H).
  - exact OneJob.one_job_config.
  - exact (Toy.single_nonempty _).
  - reflexivity.
  - exact (OneJob.one_job_fresh 1).
  - vm_compute. reflexivity.
  - vm_compute. congruence.
  - intros c [= <-]. vm_compute. split; congruence.
  - assert (result = OneJob.result) as ->.
    { clear H. destruct result, Hre. simpl in *. destruct_and?. subst.
      repeat match goal with H : match ?x with Some _ => False | None => True end |- _ => destruct x; [done|clear H] end.
      change (time_sub (102 * second) (101 * second)) with 1000000000 in re_total0. unfold whole_micros in re_total0.
      assert (r_TotalMicros = 1000000) as -> by lia. vm_compute. reflexivity. }
    destruct (H "m" "m" 1%nat) as (h' & Hr & _ & _ & Hp & _); [vm_compute; reflexivity..|vm_compute; congruence|reflexivity|].
    exists h'. split; [exact Hr|]. rewrite Hp. vm_compute. reflexivity.
Defined.

Lemma high_status_never_reported_witness :
  exists h', @RunOne OneJob.primitives nat (OneJob.engine 999 OneJob.high_status) OneJob.transport OneJob.config OneJob.now
      (OneJob.host 1) = (Err ErrEnvelopeInvalid, h') /\ h_published h' = [].
Proof.
  destruct (@high_status_never_reported OneJob.primitives nat (OneJob.engine 999 OneJob.high_status)
    OneJob.transport OneJob.config OneJob.now (OneJob.host 1) OneJob.delivery Toy.job 1%nat
    (finish (101 * second) (102 * second) 999 "unexpected_status" (Some no_timings)) 1%nat 999) as (h' & Hr & Hp & _).
  - exact (OneJob.one_job_fresh 1).
  - vm_compute. reflexivity.
  - reflexivity.
  - lia.
  - exists h'. split; [exact Hr|exact Hp].
Defined.

(** The first publication fails, the host crashes, the job is delivered again; eight days later
    the journal is cleaned. *)
Lemma one_result_per_job_witness :
  let run := @HRun nat OneJob.transport OneJob.config OneJob.now in
  let es := [run; HCrash; run; HCleanup (100 * second + 8 * 24 * hour)] in
  let h := @host_run OneJob.primitives nat (OneJob.engine 204 OneJob.ok_status) (OneJob.host 0) es in
  h_published h = [("j1", a_SnapshotHash Toy.attributes, "m"); ("j1", a_SnapshotHash Toy.attributes, "m")] /\
  (durable (h_journal h) "j1" (a_SnapshotHash Toy.attributes) "m" \/
   j_ExpiresAt Toy.job + 30 * second < 100 * second + 8 * 24 * hour).
Proof.
  intros run es h.
  assert (h_published h = [("j1", a_SnapshotHash Toy.attributes, "m"); ("j1", a_SnapshotHash Toy.attributes, "m")])
    as E by (vm_compute; reflexivity).
  split; [exact E|].
  refine (proj2 (@one_result_per_job OneJob.primitives nat (OneJob.engine 204 OneJob.ok_status)
    (fun _ _ => j_ExpiresAt Toy.job) 0 (OneJob.host 0) es "j1" (a_SnapshotHash Toy.attributes) "m" "m" _ _ _ _ _ _)).
  1-3: reflexivity.
  1: refine (conj (OneJob.one_job_timely _ _ _) (conj I (conj (OneJob.one_job_timely _ _ _) (conj _ I)))); vm_compute; discriminate.
  all: refine (eq_ind_r (fun l => ("j1", a_SnapshotHash Toy.attributes, "m") ∈ l) _ E); left.
Defined.
