(* ===== verification/Gateway.v ===== *)
(** * The queue gateway (src/internal/queuegateway/gateway.go, src/internal/workqueue/https.go)

    Workers outside the platform's network reach their queue through the gateway: it
    authenticates the pool by its client certificate, limits its requests, and hands
    out sealed lease tokens in place of queue receipts.  [HTTPS] is the transport of
    such a worker.  The queue behind a pool is any [Transport]; JSON and the random
    source are arguments.  The theorems: the counters of the limiter agree with a log
    of the admitted requests whatever handlers interleave, only verified results that
    match the lease reach a queue, and a worker behind the gateway gets and gives what
    a worker at the queue does. *)

From stdpp Require Import base gmap list strings.
From Stdlib Require Import ZArith Lia Ascii String Bool.
From S2P Require Import Prelude Tx Store Bytes Envelope Scheduler Publisher Destination Rfc3339.
From S2P Require Import Sealing Reliability Notification Authorization Incident Consumer Workqueue HttpClient Checkengine Worker.

Definition maxRequestBytes : Z := 128 * 1024.

(** ** Data *)

Record Pool (O : Type) : Type := mkPool {
  p_ID : string;
  p_ResultKeyID : string;
  p_Transport : Transport O;
  p_ResultPublic : bytes;
  p_SchemaMin : Z;
  p_SchemaMax : Z;
  p_MaxRequestsPerMinute : Z;
  p_MaxBytesPerMinute : Z;
  p_MaxConcurrentPulls : Z;
  p_MaxResultsPerMinute : Z;
  p_RevokedCertificateSerials : gset string
}.
Arguments mkPool {O}. Arguments p_ID {O}. Arguments p_ResultKeyID {O}. Arguments p_Transport {O}.
Arguments p_ResultPublic {O}. Arguments p_SchemaMin {O}. Arguments p_SchemaMax {O}.
Arguments p_MaxRequestsPerMinute {O}. Arguments p_MaxBytesPerMinute {O}.
Arguments p_MaxConcurrentPulls {O}. Arguments p_MaxResultsPerMinute {O}. Arguments p_RevokedCertificateSerials {O}.

Record poolLimit : Type := mkLimit {
  l_window : Z;
  l_requests : Z;
  l_bytes : Z;
  l_results : Z;
  l_activePull : Z
}.
Definition new_limit : poolLimit := mkLimit zero_time 0 0 0 0.

Record lease : Type := mkLease {
  le_PoolID : string;
  le_Receipt : string;
  le_JobID : string;
  le_SnapshotHash : string;
  le_SchemaVersion : Z;
  le_ExpiresAt : Z;
  le_LeaseExpiresAt : Z
}.

Record pullResponse : Type := mkPullResponse {
  pr_Body : string;
  pr_Attributes : Attributes;
  pr_LeaseToken : string;
  pr_ReceiveCount : Z
}.

Record actionRequest : Type := mkAction { ac_LeaseToken : string; ac_Body : string; ac_Seconds : Z }.

(** The shared state of the handlers; [g_ext] is what lies behind the transports. *)
Record Gateway (O : Type) : Type := mkGateway {
  g_limits : gmap string poolLimit;
  g_dependencyUnavailableUntil : Z;
  g_ext : O;
  g_random : nat -> res bytes;              (* what the random source fills a nonce with *)
  g_next : nat
}.
Arguments mkGateway {O}. Arguments g_limits {O}. Arguments g_dependencyUnavailableUntil {O}.
Arguments g_ext {O}. Arguments g_random {O}. Arguments g_next {O}.

(** A client certificate and a request. *)
Record Certificate : Type := mkCertificate {
  ct_CommonName : string;
  ct_NotBefore : Z;
  ct_NotAfter : Z;
  ct_SerialNumber : string
}.
Record HttpRequest : Type := mkHttpRequest {
  hr_Peer : option Certificate;             (* the first certificate of the TLS peer *)
  hr_ContentLength : Z;
  hr_Body : bytes
}.
Record Answer : Type := mkAnswer { an_Status : Z; an_RetryAfter : string; an_Body : bytes }.

(** encoding/json at the types of the gateway: [json_lease] is Marshal and Unmarshal,
    [json_pull] an Encoder and a Decoder; [decode_action] is a Decoder that refuses
    unknown fields and [encode_extend], [encode_body] are the maps the client sends. *)
Class GatewayJSON : Type := {
  json_lease : Codec lease;
  json_pull : Codec pullResponse;
  decode_action : bytes -> option actionRequest;
  encode_extend : string -> Z -> bytes;
  encode_body : string -> string -> bytes;
  encode_metrics : Z -> Z -> bool -> bytes
}.

(** ** Handlers: state, and an answer that ends the handler *)

Definition Serve (S A : Type) : Type := S -> (A + Answer) * S.
#[global] Instance Serve_ret S : MRet (Serve S) := fun A a s => (inl a, s).
#[global] Instance Serve_bind S : MBind (Serve S) := fun A B k m s =>
  match m s with
  | (inl a, s') => k a s'
  | (inr answer, s') => (inr answer, s')
  end.

Definition reply {S A} (a : Answer) : Serve S A := fun s => (inr a, s).
Definition http_error {S A} (text : string) (code : Z) : Serve S A :=
  reply (mkAnswer code "" (text +:+ String (byte_of 10) "")).
Definition WriteHeader {S A} (code : Z) : Serve S A := reply (mkAnswer code "" "").
Definition tooMany {S A} : Serve S A := reply (mkAnswer 429 (Itoa 1) ("pool limit exceeded" +:+ String (byte_of 10) "")).
Definition unavailable {S A} : Serve S A := reply (mkAnswer 503 "1" ("queue unavailable" +:+ String (byte_of 10) "")).

(** A handler that returns without an answer writes an empty 200. *)
Definition run_handler {S} (m : Serve S ()) : S -> Answer * S := fun s =>
  match m s with
  | (inl _, s') => (mkAnswer 200 "" "", s')
  | (inr a, s') => (a, s')
  end.

(** [defer f()]. *)
Definition deferred {S A} (f : S -> S) (m : Serve S A) : Serve S A := fun s =>
  let '(r, s') := m s in (r, f s').

(** ** The gateway *)

Section Limits.
Context {O : Type}.

Definition reset_window (now : Z) (l : poolLimit) : poolLimit :=
  if is_zero_time (l_window l) || negb (time_equal (l_window l) now)
  then mkLimit now 0 0 0 (l_activePull l) else l.

Definition acquire_limit (pool : Pool O) (t bytes : Z) (pull result : bool) (l : poolLimit) : bool * poolLimit :=
  let now := time_truncate t minute in
  let l := reset_window now l in
  if (p_MaxRequestsPerMinute pool <? int64 (l_requests l + 1))
     || (p_MaxBytesPerMinute pool <? int64 (l_bytes l + bytes))
     || (pull && (p_MaxConcurrentPulls pool <=? l_activePull l))
     || (result && (p_MaxResultsPerMinute pool <? int64 (l_results l + 1)))
  then (false, l)
  else (true, mkLimit (l_window l) (int64 (l_requests l + 1)) (int64 (l_bytes l + bytes))
                (if result then int64 (l_results l + 1) else l_results l)
                (if pull then int64 (l_activePull l + 1) else l_activePull l)).

Definition release_limit (l : poolLimit) : poolLimit :=
  if 0 <? l_activePull l
  then mkLimit (l_window l) (l_requests l) (l_bytes l) (l_results l) (int64 (l_activePull l - 1)) else l.

(** [New] gives every pool a limit, so the lookup of [acquire] never misses. *)
Definition acquire (pool : Pool O) (t bytes : Z) (pull result : bool) : Serve (Gateway O) bool := fun g =>
  let '(ok, l) := acquire_limit pool t bytes pull result (default new_limit (g_limits g !! p_ID pool)) in
  (inl ok, mkGateway (<[p_ID pool := l]> (g_limits g)) (g_dependencyUnavailableUntil g) (g_ext g) (g_random g) (g_next g)).

Definition releasePull (poolID : string) (g : Gateway O) : Gateway O :=
  mkGateway (alter release_limit poolID (g_limits g)) (g_dependencyUnavailableUntil g) (g_ext g) (g_random g) (g_next g).

Definition recordDependency (now : Z) (err : option error) : Serve (Gateway O) () := fun g =>
  let until := match err with
               | None | Some ErrNoMessage => zero_time
               | Some _ => time_add now (5 * second)
               end in
  (inl (), mkGateway (g_limits g) until (g_ext g) (g_random g) (g_next g)).

(** A call of the queue: its error is looked at by the handler. *)
Definition queue {A} (f : SE O A) : Serve (Gateway O) (res A) := fun g =>
  let '(r, o) := f (g_ext g) in
  (inl r, mkGateway (g_limits g) (g_dependencyUnavailableUntil g) o (g_random g) (g_next g)).

Definition random_nonce : Serve (Gateway O) (res bytes) := fun g =>
  (inl (g_random g (g_next g)),
   mkGateway (g_limits g) (g_dependencyUnavailableUntil g) (g_ext g) (g_random g) (S (g_next g))).
End Limits.

Definition error_of {A} (r : res A) : option error := match r with Ok _ => None | Err e => Some e end.

Definition or_default (v d : Z) : Z := if v =? 0 then d else v.

Definition with_defaults {O} (p : Pool O) : Pool O :=
  mkPool (p_ID p) (p_ResultKeyID p) (p_Transport p) (p_ResultPublic p)
    (or_default (p_SchemaMin p) PreviousSchemaVersion) (or_default (p_SchemaMax p) SchemaVersion)
    (or_default (p_MaxRequestsPerMinute p) 120) (or_default (p_MaxBytesPerMinute p) (8 * 1024 * 1024))
    (or_default (p_MaxConcurrentPulls p) 2) (or_default (p_MaxResultsPerMinute p) 120)
    (p_RevokedCertificateSerials p).

(** The test for a nil transport has no counterpart here. *)
Definition valid_pool {O} (p : Pool O) : bool :=
  negb (String.eqb (p_ID p) "" || String.eqb (p_ResultKeyID p) ""
    || negb (slen (p_ResultPublic p) =? 32)
    || (p_SchemaMin p <? PreviousSchemaVersion) || (SchemaVersion <? p_SchemaMax p) || (p_SchemaMax p <? p_SchemaMin p)
    || (p_MaxRequestsPerMinute p <? 1) || (p_MaxBytesPerMinute p <? 1024)
    || (p_MaxConcurrentPulls p <? 1) || (p_MaxResultsPerMinute p <? 1)).

Fixpoint map_pools {O} (pools : list (Pool O)) (mapped : gmap string (Pool O)) (limits : gmap string poolLimit) :
    res (gmap string (Pool O) * gmap string poolLimit) :=
  match pools with
  | [] => Ok (mapped, limits)
  | p :: pools =>
      let p := with_defaults p in
      if negb (valid_pool p) then Err (ErrorsNew "invalid gateway pool")
      else map_pools pools (<[p_ID p := p]> mapped) (<[p_ID p := new_limit]> limits)
  end.

(** The pools a gateway serves and its first state. *)
Definition New {O} (pools : list (Pool O)) (key : bytes) (o : O) (random : nat -> res bytes) :
    res (gmap string (Pool O) * Gateway O) :=
  if negb (slen key =? 32) then Err (ErrorsNew "gateway lease key must be 32 bytes") else
  match map_pools pools ∅ ∅ with
  | Err e => Err e
  | Ok (mapped, limits) => Ok (mapped, mkGateway limits zero_time o random 0)
  end.

Section Handlers.
Context {P : Primitives} {J : GatewayJSON} {O : Type}.
Variable pools : gmap string (Pool O).
Variable key : bytes.                 (* of the AEAD *)
Variable tolerance : Z.
(** The readings of the clock during one request. *)
Variable now : nat -> Z.

Definition pool (r : HttpRequest) : option (Pool O) :=
  match hr_Peer r with
  | Some certificate =>
      let id := ct_CommonName certificate in
      if (31 * 24 * hour <? time_sub (ct_NotAfter certificate) (ct_NotBefore certificate))
         || before (now 0%nat) (ct_NotBefore certificate) || after (now 1%nat) (ct_NotAfter certificate)
      then None
      else match pools !! id with
           | Some configured =>
               if bool_decide (ct_SerialNumber certificate ∈ p_RevokedCertificateSerials configured) then None
               else Some configured
           | None => None
           end
  | None => pools !! ""
  end.

(** Lease tokens: the JSON of the lease under AES-GCM, after its nonce, in base64. *)
Definition seal (value : lease) : Serve (Gateway O) (res string) :=
  let plain := default "" (marshal json_lease value) in
  nonce ← random_nonce;
  mret (match nonce with
        | Err e => Err e
        | Ok nonce => Ok (rawurl_encode (nonce +:+ gcm_seal key nonce plain ""))
        end).

Definition ErrLease : error := ErrorsNew "invalid lease".

Definition open (token : string) : res lease :=
  match rawurl_decode token with
  | None => Err ErrLease
  | Some data =>
      if slen data <? 12 then Err ErrLease else
      match gcm_open key (stake 12 data) (sdrop 12 data) "" with
      | None => Err ErrLease
      | Some plain =>
          match unmarshal json_lease plain with
          | None => Err ErrLease
          | Some value =>
              if String.eqb (le_Receipt value) "" || String.eqb (le_JobID value) ""
                 || is_zero_time (le_LeaseExpiresAt value)
                 || after (now 6%nat) (time_add (le_LeaseExpiresAt value) tolerance)
              then Err ErrLease else Ok value
          end
      end
  end.

Definition lease_of (p : Pool O) (msg : Delivery) : lease :=
  let a := d_Attributes msg in
  mkLease (p_ID p) (d_LeaseToken msg) (a_JobID a) (a_SnapshotHash a) (a_SchemaVersion a) (a_ExpiresAt a)
    (time_add (now 4%nat) (2 * minute)).

Definition writeJSON (v : pullResponse) : Serve (Gateway O) () :=
  reply (mkAnswer 200 "" (default "" (marshal json_pull v))).

Definition pull (r : HttpRequest) : Serve (Gateway O) () :=
  match pool r with
  | None => http_error "unauthorized" 401
  | Some p =>
      ok ← acquire p (now 2%nat) 0 true false;
      if negb ok then tooMany else
      deferred (releasePull (p_ID p)) (
        msg ← queue (tr_Pull (p_Transport p) (20 * second));
        _ ← recordDependency (now 3%nat) (error_of msg);
        match msg with
        | Err ErrNoMessage => WriteHeader 204
        | Err _ => unavailable
        | Ok msg =>
            token ← seal (lease_of p msg);
            match token with
            | Err _ => http_error "internal" 500
            | Ok token =>
                writeJSON (mkPullResponse (base64_encode (d_Body msg)) (d_Attributes msg) token (d_ReceiveCount msg))
            end
        end)
  end.

Definition decode (body : bytes) : option actionRequest := decode_action (stake (Z.to_nat maxRequestBytes) body).

(** The delivery a lease stands for. *)
Definition delivery_of (l : lease) : Delivery :=
  mkDelivery "" (mkAttributes (le_SchemaVersion l) (le_JobID l) (le_PoolID l) (le_SnapshotHash l) (le_ExpiresAt l) "" "" "" "")
    (le_Receipt l) 0.

Definition action (r : HttpRequest) : Serve (Gateway O) (Pool O * Delivery * actionRequest) :=
  match pool r with
  | None => http_error "unauthorized" 401
  | Some p =>
      let requestBytes := if hr_ContentLength r <? 0 then 0 else hr_ContentLength r in
      ok ← acquire p (now 2%nat) requestBytes false false;
      if negb ok then tooMany else
      match decode (hr_Body r) with
      | None => http_error "invalid request" 400
      | Some request =>
          match open (ac_LeaseToken request) with
          | Err _ => http_error "invalid lease" 401
          | Ok l =>
              if negb (String.eqb (le_PoolID l) (p_ID p)) then http_error "invalid lease" 401
              else mret (p, delivery_of l, request)
          end
      end
  end.

(** The queue call of an action and its answer. *)
Definition forward (f : SE O ()) : Serve (Gateway O) () :=
  r ← queue f;
  _ ← recordDependency (now 3%nat) (error_of r);
  match r with
  | Err _ => unavailable
  | Ok _ => WriteHeader 204
  end.

Definition extend (r : HttpRequest) : Serve (Gateway O) () :=
  x ← action r;
  let '(p, msg, request) := x in
  if (ac_Seconds request <? 1) || (90 <? ac_Seconds request) then http_error "invalid duration" 422
  else forward (tr_Extend (p_Transport p) msg (ac_Seconds request * second)).

(** The conditions under which a verified result belongs to the lease. *)
Definition result_belongs (p : Pool O) (a : Attributes) (result : Result) (now : Z) : bool :=
  negb (negb (r_SchemaVersion result =? a_SchemaVersion a)
    || (r_SchemaVersion result <? p_SchemaMin p) || (p_SchemaMax p <? r_SchemaVersion result)
    || negb (String.eqb (r_JobID result) (a_JobID a)) || negb (String.eqb (r_SnapshotHash result) (a_SnapshotHash a))
    || negb (String.eqb (r_WorkerPoolID result) (p_ID p)) || negb (String.eqb (r_ResultKeyID result) (p_ResultKeyID p))
    || before (r_StartedAt result) (time_add (r_ScheduledAt result) (- tolerance))
    || after (r_StartedAt result) (time_add (a_ExpiresAt a) tolerance)
    || after (r_CompletedAt result) (time_add now tolerance)).

Definition result (r : HttpRequest) : Serve (Gateway O) () :=
  x ← action r;
  let '(p, msg, request) := x in
  match base64_decode (ac_Body request) with
  | None => http_error "invalid result" 422
  | Some body =>
      if MaxMessageBytes <? slen body then http_error "invalid result" 422 else
      ok ← acquire p (now 5%nat) (slen body) false true;
      if negb ok then tooMany else
      match VerifyResult body (p_ResultPublic p) with
      | Err _ => http_error "invalid result" 422
      | Ok result =>
          if negb (result_belongs p (d_Attributes msg) result (now 7%nat)) then http_error "invalid result" 422
          else forward (tr_PublishResultAndAcknowledge (p_Transport p) msg body)
      end
  end.

Definition expiry_belongs (p : Pool O) (a : Attributes) (ack : ExpiredAcknowledgement) (now : Z) : bool :=
  negb (negb (x_SchemaVersion ack =? a_SchemaVersion a)
    || (x_SchemaVersion ack <? p_SchemaMin p) || (p_SchemaMax p <? x_SchemaVersion ack)
    || negb (String.eqb (x_JobID ack) (a_JobID a)) || negb (String.eqb (x_SnapshotHash ack) (a_SnapshotHash a))
    || negb (String.eqb (x_WorkerPoolID ack) (p_ID p)) || negb (String.eqb (x_ResultKeyID ack) (p_ResultKeyID p))
    || before now (time_add (a_ExpiresAt a) (- tolerance))
    || before (x_ExpiredAt ack) (time_add (a_ExpiresAt a) (- tolerance))
    || after (x_ExpiredAt ack) (time_add now tolerance)).

Definition expired (r : HttpRequest) : Serve (Gateway O) () :=
  x ← action r;
  let '(p, msg, request) := x in
  match base64_decode (ac_Body request) with
  | None => mret ()
  | Some body =>
      match VerifyExpired body (p_ResultPublic p) with
      | Err _ => http_error "invalid expiry" 422
      | Ok ack =>
          if negb (expiry_belongs p (d_Attributes msg) ack (now 7%nat)) then http_error "invalid expiry" 422
          else forward (tr_AcknowledgeExpired (p_Transport p) msg body)
      end
  end.

Definition healthy (g : Gateway O) : bool := negb (before (now 0%nat) (g_dependencyUnavailableUntil g)).

Definition ready : Serve (Gateway O) () := fun g =>
  (if negb (healthy g) then http_error "queue_unavailable" 503 else WriteHeader 200) g.

Definition metrics : Serve (Gateway O) () := fun g =>
  let active := foldr (fun l n => int64 (l_activePull l + n)) 0 (map_to_list (g_limits g)).*2 in
  (inr (mkAnswer 200 "" (encode_metrics (Z.of_nat (size pools)) active (healthy g))), g).

(** The routes of [http.ServeMux]. *)
Definition Handler (meth path : string) (r : HttpRequest) : Gateway O -> Answer * Gateway O :=
  run_handler (
    let post m := if String.eqb meth "POST" then m else http_error "Method Not Allowed" 405 in
    let get m := if String.eqb meth "GET" || String.eqb meth "HEAD" then m else http_error "Method Not Allowed" 405 in
    if String.eqb path "/v1/jobs/pull" then post (pull r)
    else if String.eqb path "/v1/jobs/extend" then post (extend r)
    else if String.eqb path "/v1/jobs/result" then post (result r)
    else if String.eqb path "/v1/jobs/expired" then post (expired r)
    else if String.eqb path "/health/live" then get (WriteHeader 200)
    else if String.eqb path "/health/ready" then get ready
    else if String.eqb path "/metrics" then get metrics
    else http_error "404 page not found" 404).
End Handlers.

(** ** The transport of a worker behind the gateway *)

Fixpoint trim_right_slash (s : string) : string :=
  match s with
  | String c r =>
      let r := trim_right_slash r in
      if Ascii.eqb c "/" && String.eqb r "" then "" else String c r
  | EmptyString => ""
  end.

Module HTTPS.
Section Client.
Context {J : GatewayJSON} {O : Type}.
Variable BaseURL : string.
(** A POST of a JSON body with the worker's [http.Client]: the status and the body of the
    answer, or an error (of the URL, of the connection, of its time limit). *)
Variable Do : string -> bytes -> SE O (Z * bytes).

Definition call (path : string) (input : bytes) : SE O (Z * bytes) :=
  x ← Do (trim_right_slash BaseURL +:+ path) input;
  let '(status, body) := x in
  if status =? 204 then mret (204, "")
  else if (status <? 200) || (300 <=? status) then throw (ErrorsNew ("gateway status " +:+ Itoa status))
  else mret (status, body).

Definition Pull (_ : Z) : SE O Delivery :=
  x ← call "/v1/jobs/pull" "";
  let '(status, answer) := x in
  if status =? 204 then throw ErrNoMessage else
  match unmarshal json_pull answer with
  | None => throw (ErrorsNew "invalid JSON")
  | Some out =>
      match base64_decode (pr_Body out) with
      | None => throw (ErrorsNew "illegal base64 data")
      | Some body => mret (mkDelivery body (pr_Attributes out) (pr_LeaseToken out) (pr_ReceiveCount out))
      end
  end.

Definition Extend (d : Delivery) (v : Z) : SE O () :=
  _ ← call "/v1/jobs/extend" (encode_extend (d_LeaseToken d) (Z.quot v second)); mret ().

Definition PublishResultAndAcknowledge (d : Delivery) (result : bytes) : SE O () :=
  _ ← call "/v1/jobs/result" (encode_body (d_LeaseToken d) (base64_encode result)); mret ().

Definition AcknowledgeExpired (d : Delivery) (ack : bytes) : SE O () :=
  _ ← call "/v1/jobs/expired" (encode_body (d_LeaseToken d) (base64_encode ack)); mret ().

Definition transport : Transport O := mkTransport Pull Extend PublishResultAndAcknowledge AcknowledgeExpired.
End Client.
End HTTPS.

(** ** The limiter against a log of what it admitted *)

(** What handlers do to the counters of a pool, in the order of the lock: a request at a
    time, or the end of a pull. *)
Inductive limit_event : Type :=
| Acquire (t bytes : Z) (pull result : bool)
| Release.

Section Limiter.
Context {O : Type}.
Variable p : Pool O.

Definition limit_run (l : poolLimit) (e : limit_event) : bool * poolLimit :=
  match e with
  | Acquire t bytes pull result => acquire_limit p t bytes pull result l
  | Release => (true, release_limit l)
  end.

Fixpoint limit_runs (l : poolLimit) (es : list limit_event) : list bool * poolLimit :=
  match es with
  | [] => ([], l)
  | e :: es =>
      let '(ok, l) := limit_run l e in
      let '(oks, l) := limit_runs l es in (ok :: oks, l)
  end.

(** An admitted request: its minute, its size and whether it carries a result.  The
    specification keeps all of them, and the number of pulls in flight. *)
Record admission : Type := mkAdmission { ad_minute : Z; ad_bytes : Z; ad_result : bool }.

Definition in_minute (w : Z) (log : list admission) : list admission := filter (fun a => ad_minute a = w) log.
Definition total (f : admission -> Z) (log : list admission) : Z := foldr (fun a n => f a + n) 0 log.
Definition requests_in (w : Z) (log : list admission) : Z := total (fun _ => 1) (in_minute w log).
Definition bytes_in (w : Z) (log : list admission) : Z := total ad_bytes (in_minute w log).
Definition results_in (w : Z) (log : list admission) : Z := total (fun a => if ad_result a then 1 else 0) (in_minute w log).

Definition spec_run (s : list admission * Z) (e : limit_event) : bool * (list admission * Z) :=
  let '(log, pulls) := s in
  match e with
  | Acquire t bytes pull result =>
      let w := time_truncate t minute in
      if (requests_in w log + 1 <=? p_MaxRequestsPerMinute p)
         && (bytes_in w log + bytes <=? p_MaxBytesPerMinute p)
         && (negb pull || (pulls + 1 <=? p_MaxConcurrentPulls p))
         && (negb result || (results_in w log + 1 <=? p_MaxResultsPerMinute p))
      then (true, (mkAdmission w bytes result :: log, if pull then pulls + 1 else pulls))
      else (false, s)
  | Release => (true, (log, pulls - 1))
  end.

Fixpoint spec_runs (s : list admission * Z) (es : list limit_event) : list bool * (list admission * Z) :=
  match es with
  | [] => ([], s)
  | e :: es =>
      let '(ok, s) := spec_run s e in
      let '(oks, s) := spec_runs s es in (ok :: oks, s)
  end.

(** Histories the handlers produce: the clock does not go back before [now], sizes are
    those of a request, and a pull ends only after it began. *)
Fixpoint possible (now : Z) (s : list admission * Z) (es : list limit_event) : Prop :=
  match es with
  | [] => True
  | e :: es =>
      match e with
      | Acquire t bytes _ _ => now <= t /\ 0 <= bytes <= max_int64 - p_MaxBytesPerMinute p
      | Release => 0 < s.2
      end /\
      possible (match e with Acquire t _ _ _ => t | Release => now end) (spec_run s e).2 es
  end.

(** The counters hold what the log says of the minute of the last request. *)
Record counts (l : poolLimit) (now : Z) (s : list admission * Z) : Prop := {
  counts_window : l_window l = zero_time /\ s.1 = [] \/ zero_time < l_window l <= time_truncate now minute;
  counts_requests : l_requests l = requests_in (l_window l) s.1;
  counts_bytes : l_bytes l = bytes_in (l_window l) s.1;
  counts_results : l_results l = results_in (l_window l) s.1;
  counts_pulls : l_activePull l = s.2;
  counts_log a : a ∈ s.1 -> ad_minute a <= l_window l /\ 0 <= ad_bytes a;
  counts_bounds : 0 <= l_requests l <= p_MaxRequestsPerMinute p /\ 0 <= l_bytes l <= p_MaxBytesPerMinute p /\
    0 <= l_results l <= p_MaxResultsPerMinute p /\ 0 <= l_activePull l <= p_MaxConcurrentPulls p
}.

Lemma in_minute_cons w a log :
  in_minute w (a :: log) = if decide (ad_minute a = w) then a :: in_minute w log else in_minute w log.
Proof. unfold in_minute. by rewrite (filter_cons (fun a => ad_minute a = w)). Qed.

Lemma in_minute_later w v log : (forall a, a ∈ log -> ad_minute a <= v) -> v < w -> in_minute w log = [].
Proof.
  intros H Hv. induction log as [|a log IH]; [done|]. rewrite in_minute_cons.
  rewrite decide_False; [apply IH; intros; apply H; by right|].
  pose proof (H a ltac:(left)). lia.
Qed.

Lemma truncate_mono t u : t <= u -> time_truncate t minute <= time_truncate u minute.
Proof. unfold time_truncate, minute, second. digits. Qed.

Lemma truncate_after t : zero_time + minute <= t -> zero_time < time_truncate t minute.
Proof. unfold time_truncate, zero_time, minute, second. digits. Qed.

Lemma reset_counts l now t s :
  counts l now s -> now <= t -> zero_time + minute <= t -> valid_pool p = true ->
  counts (reset_window (time_truncate t minute) l) t s /\
  l_window (reset_window (time_truncate t minute) l) = time_truncate t minute.
Proof.
  intros H Ht Hz Hp. pose proof (truncate_mono now t Ht). pose proof (truncate_after t Hz).
  set (w := time_truncate t minute) in *. unfold reset_window, is_zero_time, time_equal.
  destruct (Z.eqb_spec (l_window l) zero_time) as [E0|E0], (Z.eqb_spec (l_window l) w) as [E|E]; simpl; try lia.
  2: { split; [|done]. destruct H. constructor; auto. rewrite E. right. unfold w in *. lia. }
  all: assert (in_minute w s.1 = []) as Hnil
    by (destruct (counts_window _ _ _ H) as [[_ ->]|Hw]; [done|];
        apply (in_minute_later w (l_window l)); [intros; by apply (counts_log _ _ _ H)|lia]).
  all: split; [|done]; destruct H; constructor; simpl; unfold requests_in, bytes_in, results_in; rewrite ?Hnil; auto;
    [right; unfold w in *; lia
    |intros a Ha; split; [|by apply counts_log0]; pose proof (proj1 (counts_log0 a Ha)); lia
    |unfold valid_pool in Hp; lia].
Qed.

(** Limits a counter can reach without wrapping around. *)
Definition limits_fit : Prop :=
  p_MaxRequestsPerMinute p < max_int64 /\ p_MaxConcurrentPulls p < max_int64 /\ p_MaxResultsPerMinute p < max_int64.

Lemma admitted_here w f a log : ad_minute a = w -> total f (in_minute w (a :: log)) = f a + total f (in_minute w log).
Proof. intros E. by rewrite in_minute_cons, decide_True by done. Qed.

Lemma acquire_counts l now s t bytes pull result :
  counts l now s -> now <= t -> zero_time + minute <= t -> valid_pool p = true -> limits_fit ->
  0 <= bytes <= max_int64 - p_MaxBytesPerMinute p ->
  let e := Acquire t bytes pull result in
  (limit_run l e).1 = (spec_run s e).1 /\ counts (limit_run l e).2 t (spec_run s e).2.
Proof.
  intros H Ht Hz Hp (F1 & F2 & F3) Hb. destruct (reset_counts l now t s H Ht Hz Hp) as [Hc Hw].
  destruct s as [log pulls]. cbn [limit_run]. unfold acquire_limit.
  set (w := time_truncate t minute) in *. set (l0 := reset_window w l) in *. clearbody l0.
  destruct (counts_bounds _ _ _ Hc) as (B1 & B2 & B3 & B4). unfold max_int64 in *.
  rewrite !(int64_id (l_requests l0 + 1)), !(int64_id (l_bytes l0 + bytes)), !(int64_id (l_results l0 + 1)),
    !(int64_id (l_activePull l0 + 1)) by (unfold min_int64, max_int64; lia).
  cbn [spec_run]. fold w. pose proof (counts_requests _ _ _ Hc) as R1. pose proof (counts_bytes _ _ _ Hc) as R2.
  pose proof (counts_results _ _ _ Hc) as R3. pose proof (counts_pulls _ _ _ Hc) as R4. simpl in R1, R2, R3, R4.
  rewrite Hw in R1, R2, R3. subst pulls. rewrite <- R1, <- R2, <- R3.
  match goal with |- context [if ?b then (false, _) else (true, ?x)] => set (refused := b); set (after := x) end.
  match goal with |- context [if ?b then (true, _) else (false, _)] => replace b with (negb refused) end.
  2: { unfold refused. destruct pull, result; lia. }
  destruct refused eqn:E; simpl; (split; [done|]); [exact Hc|]. unfold refused in E. unfold after.
  destruct Hc; constructor; simpl in *.
  - right. destruct counts_window0 as [[C _]|C]; [|done]. rewrite Hw. subst w. pose proof (truncate_after t Hz). lia.
  - unfold requests_in in *. rewrite Hw. rewrite admitted_here by done. lia.
  - unfold bytes_in in *. rewrite Hw. rewrite admitted_here by done. simpl. lia.
  - unfold results_in in *. rewrite Hw. rewrite admitted_here by done. simpl. destruct result; lia.
  - destruct pull; lia.
  - intros a [->|Ha]%elem_of_cons; [simpl; lia|by apply counts_log0].
  - destruct pull, result; lia.
Qed.

Lemma release_counts l now s :
  counts l now s -> 0 < s.2 -> limits_fit -> (limit_run l Release).1 = (spec_run s Release).1 /\
  counts (limit_run l Release).2 now (spec_run s Release).2.
Proof.
  intros H Hs (_ & F2 & _). destruct s as [log pulls]. simpl in *. pose proof (counts_pulls _ _ _ H) as R. simpl in R.
  destruct (counts_bounds _ _ _ H) as (_ & _ & _ & B). split; [done|]. unfold release_limit.
  rewrite (proj2 (Z.ltb_lt 0 _)) by lia. rewrite int64_id by (unfold min_int64; lia).
  destruct H; constructor; simpl in *; auto; lia.
Qed.

Lemma limiter_counts es l now s :
  counts l now s -> zero_time + minute <= now -> valid_pool p = true -> limits_fit -> possible now s es ->
  (limit_runs l es).1 = (spec_runs s es).1 /\ exists t, counts (limit_runs l es).2 t (spec_runs s es).2.
Proof.
  revert l now s. induction es as [|e es IH]; intros l now s H Hz Hp Hf Hes; [split; [done|by exists now]|].
  destruct Hes as [He Hes]. cbn [limit_runs spec_runs].
  assert ((limit_run l e).1 = (spec_run s e).1 /\
    exists t, zero_time + minute <= t /\ possible t (spec_run s e).2 es /\ counts (limit_run l e).2 t (spec_run s e).2)
    as (E1 & t & Ht & Hpo & Hc).
  { destruct e as [t bytes pull result|].
    - destruct He. destruct (acquire_counts l now s t bytes pull result) as [? Hc]; [done|lia|lia|done..|].
      split; [done|]. exists t. split_and!; [lia|done..].
    - destruct (release_counts l now s) as [??]; eauto. }
  destruct (limit_run l e) as [ok l'], (spec_run s e) as [ok' s']. simpl in *. subst ok'.
  destruct (IH l' t s' Hc Ht Hp Hf Hpo) as [E2 E3].
  destruct (limit_runs l' es), (spec_runs s' es). simpl in *. by subst.
Qed.


(** Whatever the specification admitted, no minute holds more than its share. *)
Definition within_limits (s : list admission * Z) : Prop :=
  (forall w, requests_in w s.1 <= p_MaxRequestsPerMinute p /\ bytes_in w s.1 <= p_MaxBytesPerMinute p /\
     results_in w s.1 <= p_MaxResultsPerMinute p) /\ 0 <= s.2 <= p_MaxConcurrentPulls p.

Lemma spec_run_within e s : 
  match e with Release => 0 < s.2 | _ => True end -> within_limits s -> within_limits (spec_run s e).2.
Proof.
  intros He [Hl Hs]. destruct s as [log pulls]. destruct e as [t bytes pull result|]; simpl in *; [|split; [done|simpl; lia]].
  match goal with |- context [if ?b then _ else _] => destruct b eqn:E end; [|done]. simpl.
  split; simpl; [|destruct pull; simpl in E; lia]. intros w. specialize (Hl w) as (H1 & H2 & H3).
  unfold requests_in, bytes_in, results_in in *. destruct (decide (time_truncate t minute = w)) as [Ew|Ew].
  - rewrite !admitted_here by done. rewrite Ew in E. simpl. destruct result; simpl in E; lia.
  - by rewrite !in_minute_cons, !decide_False by done.
Qed.

Lemma spec_runs_within now es s : possible now s es -> within_limits s -> within_limits (spec_runs s es).2.
Proof.
  revert now s. induction es as [|e es IH]; intros now s Hes Hs; [done|]. destruct Hes as [He Hes].
  cbn [spec_runs]. pose proof (spec_run_within e s ltac:(by destruct e) Hs) as Hw.
  destruct (spec_run s e) as [ok s']. specialize (IH _ s' Hes Hw). by destruct (spec_runs s' es).
Qed.
End Limiter.

(** Whatever requests and ends of pulls interleave at the lock of a pool, its few
    counters answer exactly as a log of every admitted request would: a request is
    admitted if and only if its minute has room for it.  So no minute ever sees more
    requests, bytes or results than the pool's limits, and the pulls in flight are
    counted exactly and bounded. *)
Theorem limiter_exact {O} (p : Pool O) es t0 :
  valid_pool p = true -> limits_fit p -> zero_time + minute <= t0 -> possible p t0 ([], 0) es ->
  let '(answers, l) := limit_runs p new_limit es in
  let '(answers', (log, pulls)) := spec_runs p ([], 0) es in
  answers = answers' /\ l_activePull l = pulls /\ within_limits p (log, pulls).
Proof.
  intros Hp Hf Ht Hes. assert (counts p new_limit t0 ([], 0)) as H0.
  { constructor; simpl; try done; [by left|by intros ? ?%not_elem_of_nil|]. unfold valid_pool in Hp. lia. }
  assert (within_limits p ([], 0)) as Hw by (unfold valid_pool in Hp; split; [intros w; change (0 <= p_MaxRequestsPerMinute p /\ 0 <= p_MaxBytesPerMinute p /\ 0 <= p_MaxResultsPerMinute p)|simpl]; lia).
  destruct (limiter_counts p es _ _ _ H0 Ht Hp Hf Hes) as (E & t & Hc).
  pose proof (spec_runs_within p _ es _ Hes Hw) as Hb.
  destruct (limit_runs p new_limit es) as [answers l], (spec_runs p ([], 0) es) as [answers' [log pulls]].
  simpl in *. split_and!; [done|apply (counts_pulls _ _ _ _ Hc)|done].
Qed.

(** One plain request that the counters have room for. *)
Lemma acquire_plain {O} (p : Pool O) t b l n :
  zero_time + minute <= t -> reset_window (time_truncate t minute) l = mkLimit (time_truncate t minute) n (l_bytes l) 0 0 ->
  0 <= n < p_MaxRequestsPerMinute p -> limits_fit p -> int64 (l_bytes l + b) <= p_MaxBytesPerMinute p ->
  acquire_limit p t b false false l = (true, mkLimit (time_truncate t minute) (n + 1) (int64 (l_bytes l + b)) 0 0).
Proof.
  intros Ht E Hn (F & _) Hb. unfold acquire_limit. rewrite E. cbn [l_window l_requests l_bytes l_results l_activePull andb].
  rewrite (int64_id (n + 1)) by (unfold min_int64, max_int64 in *; lia).
  by rewrite (proj2 (Z.ltb_ge _ (n + 1))), (proj2 (Z.ltb_ge _ _)) by lia.
Qed.

Lemma same_minute_kept t n b : zero_time + minute <= t ->
  let l := mkLimit (time_truncate t minute) n b 0 0 in reset_window (time_truncate t minute) l = l.
Proof.
  intros Hz l. pose proof (truncate_after t Hz). unfold reset_window, is_zero_time, time_equal, l; simpl.
  rewrite Z.eqb_refl. by rewrite (proj2 (Z.eqb_neq _ zero_time)) by lia.
Qed.

(** The byte limit of a pool can be passed.  The size of a request is the length its
    header claims; after one byte a claim of the largest length wraps the counter around
    to the smallest number, and from then on requests of any size are admitted. *)
Theorem byte_limit_overflows {O} (p : Pool O) t b :
  valid_pool p = true -> limits_fit p -> 3 <= p_MaxRequestsPerMinute p -> zero_time + minute <= t ->
  0 <= b <= max_int64 ->
  (limit_runs p new_limit [Acquire t 1 false false; Acquire t max_int64 false false; Acquire t b false false]).1 =
  [true; true; true].
Proof.
  intros Hp Hf H3 Hz Hb. unfold valid_pool in Hp.
  assert (int64 (1 + max_int64) = min_int64) as Ho by (vm_compute; reflexivity).
  cbn [limit_runs limit_run]. unfold max_int64, min_int64 in *.
  rewrite (acquire_plain p t 1 new_limit 0); [|done..|lia|done|cbn; rewrite int64_id; unfold min_int64, max_int64; lia].
  cbn [l_bytes new_limit]. rewrite (int64_id (0 + 1)) by (unfold min_int64, max_int64; lia). change (0 + 1) with 1.
  rewrite (acquire_plain p t (2 ^ 63 - 1) _ 1); [|done|by apply same_minute_kept|lia|done|cbn [l_bytes]; rewrite Ho; lia].
  cbn [l_bytes]. rewrite Ho. change (1 + 1) with 2.
  rewrite (acquire_plain p t b _ 2); [done|done|by apply same_minute_kept|lia|done|].
  cbn [l_bytes]. rewrite int64_id; unfold min_int64, max_int64; lia.
Qed.

(** ** What a request may do to the queues *)

Section Guard.
Context {P : Primitives} {J : GatewayJSON} {O : Type}.
Variable pools : gmap string (Pool O).
Variable key : bytes.
Variable tolerance : Z.
Variable now : nat -> Z.

(** The request shows a token that opens to a live lease of the pool. *)
Definition leased (r : HttpRequest) (p : Pool O) (l : lease) (request : actionRequest) : Prop :=
  decode (hr_Body r) = Some request /\ open key tolerance now (ac_LeaseToken request) = Ok l /\ le_PoolID l = p_ID p.

(** The result answers the job of the lease for the pool, under the pool's key. *)
Definition answers_lease (p : Pool O) (l : lease) (v : Result) : Prop :=
  r_JobID v = le_JobID l /\ r_SnapshotHash v = le_SnapshotHash l /\ r_SchemaVersion v = le_SchemaVersion l /\
  r_WorkerPoolID v = p_ID p /\ r_ResultKeyID v = p_ResultKeyID p /\
  r_ScheduledAt v - tolerance <= r_StartedAt v <= le_ExpiresAt l + tolerance /\ r_CompletedAt v <= now 7%nat + tolerance.

Definition expires_lease (p : Pool O) (l : lease) (v : ExpiredAcknowledgement) : Prop :=
  x_JobID v = le_JobID l /\ x_SnapshotHash v = le_SnapshotHash l /\ x_SchemaVersion v = le_SchemaVersion l /\
  x_WorkerPoolID v = p_ID p /\ x_ResultKeyID v = p_ResultKeyID p /\
  le_ExpiresAt l - tolerance <= now 7%nat /\ le_ExpiresAt l - tolerance <= x_ExpiredAt v <= now 7%nat + tolerance.

(** The queue calls a request may cause: none, or one on the queue of its own pool. *)
Inductive permitted (r : HttpRequest) (o : O) : O -> Prop :=
| permitted_none : permitted r o o
| permitted_pull p : pool pools now r = Some p -> permitted r o (tr_Pull (p_Transport p) (20 * second) o).2
| permitted_extend p l request :
    pool pools now r = Some p -> leased r p l request -> 1 <= ac_Seconds request <= 90 ->
    permitted r o (tr_Extend (p_Transport p) (delivery_of l) (ac_Seconds request * second) o).2
| permitted_publish p l request body v :
    pool pools now r = Some p -> leased r p l request -> base64_decode (ac_Body request) = Some body ->
    VerifyResult body (p_ResultPublic p) = Ok v -> answers_lease p l v ->
    permitted r o (tr_PublishResultAndAcknowledge (p_Transport p) (delivery_of l) body o).2
| permitted_expired p l request body v :
    pool pools now r = Some p -> leased r p l request -> base64_decode (ac_Body request) = Some body ->
    VerifyExpired body (p_ResultPublic p) = Ok v -> expires_lease p l v ->
    permitted r o (tr_AcknowledgeExpired (p_Transport p) (delivery_of l) body o).2.

(** A handler whose effect on the queues is as [R] says. *)
Definition affects {A} (R : O -> O -> Prop) (m : Serve (Gateway O) A) : Prop :=
  forall g, R (g_ext g) (g_ext (m g).2).

(** A step that leaves the queues alone and yields only what [Q] allows. *)
Definition quiet {A} (Q : A -> Prop) (m : Serve (Gateway O) A) : Prop :=
  forall g, g_ext (m g).2 = g_ext g /\ forall a, (m g).1 = inl a -> Q a.

Lemma affects_bind {A B} (R : O -> O -> Prop) (Q : A -> Prop) (m : Serve (Gateway O) A) (k : A -> Serve (Gateway O) B) :
  (forall o, R o o) -> quiet Q m -> (forall a, Q a -> affects R (k a)) -> affects R (m ≫= k).
Proof.
  intros Hr Hm Hk g. unfold mbind, Serve_bind. destruct (Hm g) as [E Hq]. destruct (m g) as [[a|answer] g']; simpl in *.
  - rewrite <- E. by apply Hk, Hq.
  - rewrite E. apply Hr.
Qed.

Lemma quiet_reply {A} Q a : @quiet A Q (reply a).
Proof. by intros g. Qed.
Lemma affects_reply {A} (R : O -> O -> Prop) a : (forall o, R o o) -> @affects A R (reply a).
Proof. intros Hr g. apply Hr. Qed.
Lemma quiet_acquire p t b pull res : quiet (fun _ => True) (acquire p t b pull res).
Proof. intros g. unfold acquire. by destruct (acquire_limit _ _ _ _ _ _). Qed.
Lemma quiet_dependency t e : quiet (fun _ => True) (recordDependency (O := O) t e).
Proof. by intros g. Qed.

Lemma forward_affects (R : O -> O -> Prop) f : (forall o, R o (f o).2) -> affects R (forward now f).
Proof.
  intros Hf g. unfold forward, mbind, Serve_bind, queue. specialize (Hf (g_ext g)).
  destruct (f (g_ext g)) as [[] o]; exact Hf.
Qed.

Lemma action_quiet r :
  quiet (fun x => let '(p, msg, request) := x in
    pool pools now r = Some p /\ exists l, leased r p l request /\ msg = delivery_of l) (action pools key tolerance now r).
Proof.
  intros g. unfold action. destruct (pool pools now r) as [p|] eqn:Ep; [|by split].
  unfold mbind, Serve_bind. match goal with |- context [acquire p ?t ?b ?x ?y g] => pose proof (quiet_acquire p t b x y g) as [E _]; destruct (acquire p t b x y g) as [[[]|] g'] end;
    simpl in *; try done.
  destruct (decode (hr_Body r)) as [request|] eqn:Ed; [|done].
  destruct (open key tolerance now (ac_LeaseToken request)) as [l|] eqn:Eo; [|done].
  destruct (String.eqb_spec (le_PoolID l) (p_ID p)) as [El|]; [|done]. simpl. split; [done|].
  intros a [= <-]. split; [done|]. by exists l.
Qed.

Lemma permitted_refl r o : permitted r o o. Proof. constructor. Qed.

Lemma result_belongs_answers p l v : result_belongs tolerance p (d_Attributes (delivery_of l)) v (now 7%nat) = true ->
  answers_lease p l v.
Proof.
  unfold result_belongs, answers_lease, before, after, time_add. cbn [d_Attributes delivery_of a_SchemaVersion a_JobID a_SnapshotHash a_ExpiresAt].
  rewrite negb_true_iff, !orb_false_iff, !negb_false_iff, !Z.ltb_ge, Z.eqb_eq, !String.eqb_eq. intuition lia.
Qed.

Lemma expiry_belongs_expires p l v : expiry_belongs tolerance p (d_Attributes (delivery_of l)) v (now 7%nat) = true ->
  expires_lease p l v.
Proof.
  unfold expiry_belongs, expires_lease, before, after, time_add. cbn [d_Attributes delivery_of a_SchemaVersion a_JobID a_SnapshotHash a_ExpiresAt].
  rewrite negb_true_iff, !orb_false_iff, !negb_false_iff, !Z.ltb_ge, Z.eqb_eq, !String.eqb_eq. intuition lia.
Qed.

Lemma pull_affects r : affects (permitted r) (pull pools key now r).
Proof.
  unfold pull. destruct (pool pools now r) as [p|] eqn:Ep; [|apply affects_reply, permitted_refl].
  apply (affects_bind _ (fun _ => True)); [apply permitted_refl|apply quiet_acquire|]. intros ok _.
  destruct (negb ok); [apply affects_reply, permitted_refl|]. intros g.
  unfold deferred, mbind, Serve_bind, queue. pose proof (permitted_pull r (g_ext g) p Ep) as H.
  destruct (tr_Pull _ _ (g_ext g)) as [[msg|e] o]; [|by destruct e]. simpl in *.
  unfold seal, random_nonce, mbind, Serve_bind. simpl. by destruct (g_random g (g_next g)).
Qed.

Lemma extend_affects r : affects (permitted r) (extend pools key tolerance now r).
Proof.
  eapply affects_bind; [apply permitted_refl|apply action_quiet|]. intros [[p msg] request] [Hp (l & Hl & ->)].
  destruct (_ || _) eqn:E; [apply affects_reply, permitted_refl|]. apply forward_affects. intros o.
  apply permitted_extend; [done..|]. lia.
Qed.

Lemma result_affects r : affects (permitted r) (result pools key tolerance now r).
Proof.
  eapply affects_bind; [apply permitted_refl|apply action_quiet|]. intros [[p msg] request] [Hp (l & Hl & ->)].
  destruct (base64_decode _) as [body|] eqn:Eb; [|apply affects_reply, permitted_refl].
  destruct (_ <? _); [apply affects_reply, permitted_refl|].
  apply (affects_bind _ (fun _ => True)); [apply permitted_refl|apply quiet_acquire|]. intros ok _.
  destruct (negb ok); [apply affects_reply, permitted_refl|].
  destruct (VerifyResult _ _) as [v|] eqn:Ev; [|apply affects_reply, permitted_refl].
  destruct (result_belongs _ _ _ _ _) eqn:E; [|apply affects_reply, permitted_refl].
  apply forward_affects. intros o. by eapply permitted_publish, result_belongs_answers.
Qed.

Lemma expired_affects r : affects (permitted r) (expired pools key tolerance now r).
Proof.
  eapply affects_bind; [apply permitted_refl|apply action_quiet|]. intros [[p msg] request] [Hp (l & Hl & ->)].
  destruct (base64_decode _) as [body|] eqn:Eb; [|intros g; apply permitted_refl].
  destruct (VerifyExpired _ _) as [v|] eqn:Ev; [|apply affects_reply, permitted_refl].
  destruct (expiry_belongs _ _ _ _ _) eqn:E; [|apply affects_reply, permitted_refl].
  apply forward_affects. intros o. by eapply permitted_expired, expiry_belongs_expires.
Qed.

Lemma affects_run (R : O -> O -> Prop) m : affects R m -> forall g, R (g_ext g) (g_ext (run_handler m g).2).
Proof. intros H g. specialize (H g). unfold run_handler. by destruct (m g) as [[]]. Qed.
End Guard.

(** C30: whatever is requested of the gateway, by whatever method and path, it makes at
    most one call on a queue, and only on the queue of the pool whose valid, unrevoked
    certificate the client presented.  A lease is extended, answered or expired only
    with a token that opens to a live lease of that pool, and a result or an expiry is
    passed on only when its signature verifies under the pool's key and it names the
    job, the snapshot and the pool of the lease. *)
Theorem Handler_guarded {P : Primitives} {J : GatewayJSON} {O} (pools : gmap string (Pool O)) key tolerance now meth path r g :
  permitted pools key tolerance now r (g_ext g) (g_ext (Handler pools key tolerance now meth path r g).2).
Proof.
  unfold Handler. apply (affects_run (permitted pools key tolerance now r)). repeat case_match; try apply affects_reply, permitted_refl.
  - apply pull_affects.
  - apply extend_affects.
  - apply result_affects.
  - apply expired_affects.
  - intros g'. unfold ready. destruct (negb _); apply permitted_refl.
  - intros g'. apply permitted_refl.
Qed.

(** ** A worker behind the gateway and a worker at the queue *)

(** The codec loses nothing of a value. *)
Definition carries {A} (c : Codec A) (v : A) : Prop := exists b, marshal c v = Some b /\ unmarshal c b = Some v.

(** encoding/json decodes the maps the client encodes, when their texts are printable. *)
Class GatewayJSONLaws {J : GatewayJSON} : Prop := {
  body_decodes t b : printable_text t = true -> printable_text b = true ->
    decode_action (encode_body t b) = Some (mkAction t b 0)
}.

Section Parity.
Context {P : Primitives} {L : PrimitiveLaws} {J : GatewayJSON} {JL : GatewayJSONLaws} {O : Type}.
Variable pools : gmap string (Pool O).
Variable key : bytes.
Variable tolerance : Z.

(** The client's requests reach the gateway under the certificate [peer]. *)
Definition connect (now : nat -> Z) (peer : Certificate) (base url : string) (body : bytes) : SE (Gateway O) (Z * bytes) := fun g =>
  let '(a, g') := Handler pools key tolerance now "POST" (sdrop (String.length base) url)
    (mkHttpRequest (Some peer) (slen body) body) g in
  (Ok (an_Status a, an_Body a), g').

Definition limit_of (p : Pool O) (g : Gateway O) : poolLimit := default new_limit (g_limits g !! p_ID p).

(** The lease can be used at [now]. *)
Definition live (now : nat -> Z) (l : lease) : Prop :=
  le_Receipt l <> "" /\ le_JobID l <> "" /\ le_LeaseExpiresAt l <> zero_time /\
  now 6%nat <= le_LeaseExpiresAt l + tolerance.

(** The token of a lease. *)
Definition token_of (nonce : bytes) (v : lease) : string :=
  rawurl_encode (nonce +:+ gcm_seal key nonce (default "" (marshal json_lease v)) "").

Lemma seal_opens (g : Gateway O) v nonce :
  g_random g (g_next g) = Ok nonce -> slen nonce = 12 -> carries json_lease v ->
  seal key v g = (inl (Ok (token_of nonce v)), (random_nonce g).2) /\ printable_text (token_of nonce v) = true /\
  forall now, live now v -> open key tolerance now (token_of nonce v) = Ok v.
Proof.
  intros Hr Hn (b & Hm & Hu). unfold seal, token_of, mbind, Serve_bind, random_nonce. rewrite Hr, Hm.
  split; [reflexivity|]. split; [apply printable_rawurl|]. intros now (H1 & H2 & H3 & H4).
  unfold open. rewrite rawurl_decode_encode, slen_append, gcm_length, Hn.
  rewrite (proj2 (Z.ltb_ge _ _)) by (unfold slen; lia).
  assert (String.length nonce = 12%nat) as Hl by (unfold slen in Hn; lia).
  rewrite <- Hl, stake_app, sdrop_app, gcm_inverts. cbn [default]. unfold id. rewrite Hu.
  apply String.eqb_neq in H1, H2. rewrite H1, H2. unfold is_zero_time, after, time_add.
  by rewrite (proj2 (Z.eqb_neq _ _) H3), (proj2 (Z.ltb_ge _ _) H4).
Qed.

Lemma acquire_runs (p : Pool O) t b pull res g :
  acquire p t b pull res g =
  (inl (acquire_limit p t b pull res (limit_of p g)).1,
   mkGateway (<[p_ID p := (acquire_limit p t b pull res (limit_of p g)).2]> (g_limits g))
     (g_dependencyUnavailableUntil g) (g_ext g) (g_random g) (g_next g)).
Proof. unfold acquire, limit_of. by destruct (acquire_limit _ _ _ _ _ _). Qed.

(** What the handler of a pull answers when the queue has a message. *)
Lemma pull_delivers now r p g d o nonce :
  pool pools now r = Some p -> (acquire_limit p (now 2%nat) 0 true false (limit_of p g)).1 = true ->
  tr_Pull (p_Transport p) (20 * second) (g_ext g) = (Ok d, o) ->
  g_random g (g_next g) = Ok nonce -> slen nonce = 12 -> carries json_lease (lease_of now p d) ->
  let token := token_of nonce (lease_of now p d) in
  exists g', run_handler (pull pools key now r) g =
      (mkAnswer 200 "" (default "" (marshal json_pull
         (mkPullResponse (base64_encode (d_Body d)) (d_Attributes d) token (d_ReceiveCount d)))), g') /\
    g_ext g' = o /\ printable_text token = true /\
    forall now', live now' (lease_of now p d) -> open key tolerance now' token = Ok (lease_of now p d).
Proof.
  intros Hp Ha Hpull Hr Hn Hc token. unfold run_handler, pull. rewrite Hp.
  unfold mbind at 1, Serve_bind at 1. rewrite acquire_runs, Ha. cbn [negb].
  unfold deferred, mbind, Serve_bind, queue. cbn [g_ext]. rewrite Hpull. cbn [error_of recordDependency].
  match goal with |- context [seal key ?v ?g] => destruct (seal_opens g v nonce) as (-> & Ht & Ho); [done..|] end.
  eexists. split; [reflexivity|]. by split.
Qed.

Definition unavailable_answer : Answer := mkAnswer 503 "1" ("queue unavailable" +:+ String (byte_of 10) "").

Lemma VerifyResult_size body k v : VerifyResult body k = Ok v -> slen body <= MaxMessageBytes.
Proof.
  unfold VerifyResult, PeekResult. intros H. destruct (guard _ _) eqn:E; [|done]. apply guard_ok in E as [E _]. lia.
Qed.

(** The limits have room for a request of [n] bytes that carries a result of [m] bytes. *)
Definition room (now : nat -> Z) (p : Pool O) (g : Gateway O) (n m : Z) : Prop :=
  (limit_runs p (limit_of p g) [Acquire (now 2%nat) n false false; Acquire (now 5%nat) m false true]).1 = [true; true].

(** What the handler of a result answers when the result belongs to the lease. *)
Lemma result_publishes now r p g l request body v :
  pool pools now r = Some p -> 0 <= hr_ContentLength r -> room now p g (hr_ContentLength r) (slen body) ->
  leased key tolerance now r p l request -> base64_decode (ac_Body request) = Some body ->
  VerifyResult body (p_ResultPublic p) = Ok v ->
  result_belongs tolerance p (d_Attributes (delivery_of l)) v (now 7%nat) = true ->
  let '(answer, o) := tr_PublishResultAndAcknowledge (p_Transport p) (delivery_of l) body (g_ext g) in
  exists g', run_handler (result pools key tolerance now r) g =
    (match answer with Ok _ => mkAnswer 204 "" "" | Err _ => unavailable_answer end, g') /\ g_ext g' = o.
Proof.
  intros Hp Hn Hroom (Hd & Ho & Hl) Hb Hv Hbe. unfold room in Hroom. cbn [limit_runs limit_run] in Hroom.
  destruct (acquire_limit p (now 2%nat) _ _ _ (limit_of p g)) as [ok1 l1] eqn:E1.
  destruct (acquire_limit p (now 5%nat) _ _ _ l1) as [ok2 l2] eqn:E2. injection Hroom as -> ->.
  unfold run_handler, result, action. rewrite Hp. rewrite (proj2 (Z.ltb_ge _ 0) Hn).
  unfold mbind, Serve_bind. rewrite acquire_runs, E1. cbn [fst snd negb]. rewrite Hd, Ho, Hl, String.eqb_refl.
  cbn [negb mret Serve_ret]. unfold mret, Serve_ret. rewrite Hb.
  rewrite (proj2 (Z.ltb_ge _ _) (VerifyResult_size _ _ _ Hv)). rewrite acquire_runs. unfold limit_of at 1 2. cbn [g_limits].
  rewrite lookup_insert_eq. cbn [default]. unfold id. rewrite E2. cbn [fst snd negb]. rewrite Hv, Hbe. cbn [negb].
  unfold forward, mbind, Serve_bind, queue. cbn [g_ext].
  destruct (tr_PublishResultAndAcknowledge _ _ _ (g_ext g)) as [[u|e] o]; by eexists.
Qed.
End Parity.

Section Modes.
Context {P : Primitives} {L : PrimitiveLaws} {J : GatewayJSON} {JL : GatewayJSONLaws} {O : Type} `{!SQS O}.
Variable Format : Z -> string.
Variable Parse : string -> option Z.

(** The transport of a worker at the queue. *)
Definition direct_transport (d : DirectSQS) : Transport O :=
  mkTransport (Workqueue.Pull Parse d) (Workqueue.Extend d)
    (Workqueue.PublishResultAndAcknowledge Format d) (Workqueue.AcknowledgeExpired d).

(** The direct transport looks only at the receipt and the identity of the job. *)
Lemma direct_publish_ext d m m' body :
  d_LeaseToken m = d_LeaseToken m' -> a_JobID (d_Attributes m) = a_JobID (d_Attributes m') ->
  a_SnapshotHash (d_Attributes m) = a_SnapshotHash (d_Attributes m') ->
  a_WorkerPoolID (d_Attributes m) = a_WorkerPoolID (d_Attributes m') ->
  Workqueue.PublishResultAndAcknowledge Format d m body = Workqueue.PublishResultAndAcknowledge (O := O) Format d m' body.
Proof.
  intros E1 E2 E3 E4. unfold Workqueue.PublishResultAndAcknowledge, result_matches. by rewrite E1, E2, E3, E4.
Qed.

Lemma direct_pull_pool d wait o m o' : Workqueue.Pull Parse d wait o = (Ok m, o') -> a_WorkerPoolID (d_Attributes m) = WorkerPoolID d.
Proof.
  unfold Workqueue.Pull. destruct (String.eqb (JobQueueURL d) ""); [done|]. unfold mbind, SE_bind.
  destruct (ReceiveMessage _ _ o) as [[[msg|]|] o1]; try done. unfold of_res.
  destruct (attributesFromSQS Parse _) as [attrs|]; [|done].
  destruct (String.eqb_spec (a_WorkerPoolID attrs) (WorkerPoolID d)); [|done]. simpl.
  destruct (base64_decode _); [|done]. by intros [= <- <-].
Qed.

(** A pull and a publication over HTTPS, given what the handlers answer. *)
Lemma https_pull pools key tolerance now peer BaseURL wait g body g' out m :
  run_handler (pull pools key now (mkHttpRequest (Some peer) 0 "")) g = (mkAnswer 200 "" body, g') ->
  unmarshal json_pull body = Some out -> pr_Body out = base64_encode m ->
  HTTPS.Pull BaseURL (connect (O := O) pools key tolerance now peer (trim_right_slash BaseURL)) wait g =
  (Ok (mkDelivery m (pr_Attributes out) (pr_LeaseToken out) (pr_ReceiveCount out)), g').
Proof.
  intros Hr Hu Hb. unfold HTTPS.Pull, HTTPS.call, mbind, SE_bind, connect. rewrite sdrop_app.
  change (Handler pools key tolerance now "POST" "/v1/jobs/pull" ?r) with (run_handler (pull pools key now r)).
  change (slen "") with 0. rewrite Hr. cbn. by rewrite Hu, Hb, base64_decode_encode.
Qed.

Lemma https_publish pools key tolerance now peer BaseURL m body g answer g' :
  let request := encode_body (d_LeaseToken m) (base64_encode body) in
  run_handler (result pools key tolerance now (mkHttpRequest (Some peer) (slen request) request)) g = (answer, g') ->
  answer = mkAnswer 204 "" "" \/ answer = unavailable_answer ->
  HTTPS.PublishResultAndAcknowledge BaseURL (connect (O := O) pools key tolerance now peer (trim_right_slash BaseURL)) m body g =
  (if an_Status answer =? 204 then Ok () else Err (ErrorsNew "gateway status 503"), g').
Proof.
  intros request Hr Ha. unfold HTTPS.PublishResultAndAcknowledge, HTTPS.call, mbind, SE_bind, connect. rewrite sdrop_app.
  change (Handler pools key tolerance now "POST" "/v1/jobs/result" ?r) with (run_handler (result pools key tolerance now r)).
  fold request. rewrite Hr. by destruct Ha as [-> | ->].
Qed.
End Modes.

(** C29: a worker behind the gateway and a worker at the queue see the same.  When a pull
    at the queue would deliver a job, the pull over HTTPS delivers its body, attributes
    and count, with a sealed token in place of the receipt; and whatever the gateway does
    in between, publishing with that token a result that belongs to the job does to the
    queues what publishing it directly would do, and succeeds exactly when that does. *)
Theorem gateway_parity {P : Primitives} {L : PrimitiveLaws} {J : GatewayJSON} {JL : GatewayJSONLaws} {O} `{!SQS O}
    Format Parse pools key tolerance now peer BaseURL wait p d (g : Gateway O) m o nonce :
  p_Transport p = direct_transport Format Parse d -> p_ID p = WorkerPoolID d ->
  pool pools now (mkHttpRequest (Some peer) 0 "") = Some p ->
  (acquire_limit p (now 2%nat) 0 true false (limit_of p g)).1 = true ->
  g_random g (g_next g) = Ok nonce -> slen nonce = 12 ->
  carries json_lease (lease_of now p m) ->
  (forall token, printable_text token = true ->
     carries json_pull (mkPullResponse (base64_encode (d_Body m)) (d_Attributes m) token (d_ReceiveCount m))) ->
  Workqueue.Pull Parse d (20 * second) (g_ext g) = (Ok m, o) ->
  let client now := connect pools key tolerance now peer (trim_right_slash BaseURL) in
  let m' := mkDelivery (d_Body m) (d_Attributes m) (token_of key nonce (lease_of now p m)) (d_ReceiveCount m) in
  exists g1, HTTPS.Pull BaseURL (client now) wait g = (Ok m', g1) /\ g_ext g1 = o /\
    forall now' g2 body v,
      let request := encode_body (d_LeaseToken m') (base64_encode body) in
      pool pools now' (mkHttpRequest (Some peer) 0 "") = Some p -> live tolerance now' (lease_of now p m) ->
      slen request <= maxRequestBytes -> room now' p g2 (slen request) (slen body) ->
      VerifyResult body (p_ResultPublic p) = Ok v ->
      result_belongs tolerance p (d_Attributes m) v (now' 7%nat) = true ->
      let '(answer, o') := Workqueue.PublishResultAndAcknowledge Format d m body (g_ext g2) in
      exists g3, HTTPS.PublishResultAndAcknowledge BaseURL (client now') m' body g2 =
        (match answer with Ok _ => Ok () | Err _ => Err (ErrorsNew "gateway status 503") end, g3) /\ g_ext g3 = o'.
Proof.
  intros Ht Hid Hp Ha Hr Hn Hc Hj Hpull client m'.
  destruct (pull_delivers pools key tolerance now _ p g m o nonce Hp Ha) as (g1 & Hrun & Hg1 & Htok & Hopen);
    [by rewrite Ht|done..|].
  set (token := token_of key nonce (lease_of now p m)) in *.
  destruct (Hj token Htok) as (b & Hm & Hu). rewrite Hm in Hrun.
  exists g1. split; [exact (https_pull _ _ _ _ _ _ _ _ _ _ _ (d_Body m) Hrun Hu eq_refl)|]. split; [done|].
  intros now' g2 body v request Hp' Hlive Hsize Hroom Hv Hbe. cbn [d_LeaseToken m'] in request.
  pose proof (result_publishes pools key tolerance now' (mkHttpRequest (Some peer) (slen request) request) p g2
    (lease_of now p m) (mkAction token (base64_encode body) 0) body v Hp') as H.
  rewrite Ht in H. cbn [tr_PublishResultAndAcknowledge direct_transport] in H.
  rewrite (direct_publish_ext Format d _ m) in H by (try done; cbn; by rewrite Hid; symmetry; eapply direct_pull_pool).
  destruct (Workqueue.PublishResultAndAcknowledge Format d m body (g_ext g2)) as [answer o'].
  destruct H as (g3 & Hrun' & Hg3); [unfold slen; simpl; lia|done|split_and!; [|by apply Hopen|done]|apply base64_decode_encode|done..|].
  { unfold decode. cbn [hr_Body]. rewrite stake_all by (unfold maxRequestBytes in *; lia).
    apply body_decodes; [done|apply printable_base64]. }
  exists g3. split; [|done]. unfold client. erewrite https_publish; [|exact Hrun'|destruct answer; auto]. by destruct answer.
Qed.

(** An expiry whose body is not base64 is answered like a success and goes nowhere. *)
Lemma expired_malformed {P : Primitives} {J : GatewayJSON} {O} (pools : gmap string (Pool O)) key tolerance now r p l request g :
  pool pools now r = Some p -> leased key tolerance now r p l request -> 0 <= hr_ContentLength r ->
  (acquire_limit p (now 2%nat) (hr_ContentLength r) false false (limit_of p g)).1 = true ->
  base64_decode (ac_Body request) = None ->
  exists g', Handler pools key tolerance now "POST" "/v1/jobs/expired" r g = (mkAnswer 200 "" "", g') /\ g_ext g' = g_ext g.
Proof.
  intros Hp (Hd & Ho & Hl) Hn Ha Hb. change (Handler pools key tolerance now "POST" "/v1/jobs/expired" r)
    with (run_handler (expired pools key tolerance now r)).
  unfold run_handler, expired, action. rewrite Hp, (proj2 (Z.ltb_ge _ 0) Hn). unfold mbind, Serve_bind.
  rewrite acquire_runs, Ha. cbn [negb]. rewrite Hd, Ho, Hl, String.eqb_refl. cbn. rewrite Hb. by eexists.
Qed.

(** ** One pool *)

#[global] Instance lease_eq_dec : EqDecision lease.
Proof. solve_decision. Defined.

Module OnePool.
Import MemoryQueue.

(** Texts that carry every value of a countable type. *)
Definition countable_codec (A : Type) `{Countable A} : Codec A :=
  mkCodec (fun a => Some (Secureheaders.bits (encode a)))
    (fun b => Secureheaders.from_bits b ≫= countable.decode).

Lemma countable_carries (A : Type) `{Countable A} (a : A) : carries (countable_codec A) a.
Proof.
  eexists. split; [done|]. unfold countable_codec. cbn [unmarshal]. rewrite Secureheaders.from_bits_bits.
  apply decode_encode.
Qed.

Definition map_codec {A B} (c : Codec A) (f : B -> A) (h : A -> B) : Codec B :=
  mkCodec (fun b => marshal c (f b)) (fun s => h <$> unmarshal c s).

Definition fields (v : pullResponse) :=
  let a := pr_Attributes v in
  (pr_Body v, pr_LeaseToken v, pr_ReceiveCount v, (a_SchemaVersion a, a_JobID a, a_WorkerPoolID a, a_SnapshotHash a),
   (a_ExpiresAt a, a_ResultID a, a_ResultKeyID a, a_PlatformKeyID a, a_WorkerEncryptionKeyID a)).
Definition of_fields (x : string * string * Z * (Z * string * string * string) * (Z * string * string * string * string)) : pullResponse :=
  let '(b, t, n, (sv, j, w, h), (e, ri, rk, pk, wk)) := x in
  mkPullResponse b (mkAttributes sv j w h e ri rk pk wk) t n.

Definition now (n : nat) : Z := 150 * second.
Definition sqs : DirectSQS := mkDirect "jobs" "results" "pool".
Definition tr : Transport state := direct_transport (P := Toy.primitives) Rfc3339.Format parse sqs.
Definition one : Pool state := with_defaults (mkPool "pool" "rk" tr (Toy.rep 32 "k") 0 0 0 0 0 0 ∅).
Definition pools : gmap string (Pool state) := {[ "pool" := one ]}.
Definition peer : Certificate := mkCertificate "pool" 0 (1000 * second) "1".

Definition attrs : Attributes := mkAttributes 2 "j1" "pool" (Toy.rep 64 "0") (220 * second) "" "" "pk" "wk".
Definition queued : state := [("jobs", received (dispatch_message Rfc3339.Format (mkSend "jobs" (base64_encode "m") "d" "g" attrs)) "receipt" "1")].
Definition delivered : Delivery := mkDelivery "m" attrs "receipt" 1.
Definition gateway : Gateway state := mkGateway {[ "pool" := new_limit ]} zero_time queued (fun _ => Ok (Toy.rep 12 "n")) 0.

#[global] Instance json : GatewayJSON := {|
  json_lease := Toy.single (lease_of now one delivered);
  json_pull := map_codec (countable_codec _) fields of_fields;
  decode_action s := (fun x => mkAction x.1 x.2 0) <$> unmarshal (countable_codec (string * string)) s;
  encode_extend t n := "";
  encode_body t b := default "" (marshal (countable_codec (string * string)) (t, b));
  encode_metrics _ _ _ := ""
|}.

#[global] Instance json_laws : GatewayJSONLaws.
Proof.
  split. intros t b _ _. destruct (countable_carries (string * string) (t, b)) as (s & Hm & Hu).
  unfold decode_action, encode_body, json. rewrite Hm. cbn [default]. unfold id. by rewrite Hu.
Qed.

Lemma pull_carried v : carries json_pull v.
Proof.
  destruct (countable_carries _ (fields v)) as (s & Hm & Hu). exists s. split; [exact Hm|].
  unfold json_pull, json, map_codec. cbn [unmarshal]. rewrite Hu. by destruct v as [? [] ? ?].
Qed.

Ltac flag v := match goal with |- context [if ?b then _ else _] => replace b with v by (vm_compute; reflexivity) end.

Lemma admitted : pool pools now (mkHttpRequest (Some peer) 0 "") = Some one.
Proof.
  unfold pool. cbn [hr_Peer]. flag false. unfold pools. change (ct_CommonName peer) with "pool".
  rewrite lookup_singleton_eq. by flag false.
Qed.
End OnePool.

Lemma limiter_exact_witness :
  let es := [Acquire (150 * second) 10 true false; Acquire (151 * second) 20 false true; Release; Acquire (300 * second) 0 true false] in
  (limit_runs OnePool.one new_limit es).1 = [true; true; true; true] /\
  within_limits OnePool.one (spec_runs OnePool.one ([], 0) es).2.
Proof.
  intros es. split; [vm_compute; reflexivity|].
  assert (possible OnePool.one (150 * second) ([], 0) es) as H by (vm_compute; repeat split; discriminate).
  pose proof (limiter_exact OnePool.one es (150 * second)) as T.
  destruct (limit_runs OnePool.one new_limit es) as [a l], (spec_runs OnePool.one ([], 0) es) as [a' [log pulls]].
  apply T; [vm_compute; reflexivity|vm_compute; repeat split; reflexivity|vm_compute; discriminate|exact H].
Defined.

Lemma byte_limit_overflows_witness :
  (limit_runs OnePool.one new_limit
     [Acquire (150 * second) 1 false false; Acquire (150 * second) max_int64 false false;
      Acquire (150 * second) (2 ^ 40) false false]).1 = [true; true; true].
Proof.
  apply byte_limit_overflows; [vm_compute; reflexivity|vm_compute; repeat split; reflexivity|vm_compute; discriminate..|].
  vm_compute. split; discriminate.
Defined.

Lemma gateway_parity_witness :
  let client now := connect (P := Toy.primitives) OnePool.pools "key" 0 now OnePool.peer (trim_right_slash "https://gw/") in
  let m' := mkDelivery "m" OnePool.attrs
    (token_of (P := Toy.primitives) "key" (Toy.rep 12 "n") (lease_of OnePool.now OnePool.one OnePool.delivered)) 1 in
  exists g1 g3, HTTPS.Pull "https://gw/" (client OnePool.now) 0 OnePool.gateway = (Ok m', g1) /\
    HTTPS.PublishResultAndAcknowledge "https://gw/" (client OnePool.now) m' "m" OnePool.gateway = (Ok (), g3) /\
    map fst (g_ext g3) = ["results"].
Proof.
  intros client m'.
  destruct (gateway_parity (P := Toy.primitives) (L := Toy.laws) Rfc3339.Format MemoryQueue.parse OnePool.pools "key" 0
    OnePool.now OnePool.peer "https://gw/" 0 OnePool.one OnePool.sqs OnePool.gateway OnePool.delivered OnePool.queued
    (Toy.rep 12 "n")) as (g1 & H1 & _ & H2).
  - reflexivity.
  - reflexivity.
  - exact OnePool.admitted.
  - vm_compute. reflexivity.
  - reflexivity.
  - reflexivity.
  - exists "m". split; vm_compute; reflexivity.
  - intros token _. apply OnePool.pull_carried.
  - vm_compute. reflexivity.
  - exists g1. specialize (H2 OnePool.now OnePool.gateway "m" Toy.result). cbv zeta in H2.
    assert (Workqueue.PublishResultAndAcknowledge (P := Toy.primitives) Rfc3339.Format OnePool.sqs OnePool.delivered "m"
      (g_ext OnePool.gateway) = (Ok (), (Workqueue.PublishResultAndAcknowledge (P := Toy.primitives) Rfc3339.Format OnePool.sqs
        OnePool.delivered "m" (g_ext OnePool.gateway)).2)) as E by (vm_compute; reflexivity).
    rewrite E in H2. destruct H2 as (g3 & H3 & H4).
    + exact OnePool.admitted.
    + vm_compute. repeat split; discriminate.
    + vm_compute. discriminate.
    + vm_compute. reflexivity.
    + vm_compute. reflexivity.
    + vm_compute. reflexivity.
    + exists g3. split; [exact H1|]. split; [exact H3|]. rewrite H4. vm_compute. reflexivity.
Defined.
