(* ===== verification/Credentials.v ===== *)
(** * Credentials (src/internal/auth/password.go, session.go, and the tokens of verification.go)

    Password hashes as text, opaque bearer tokens and the validation of account input.
    Argon2id and the parser of mail addresses are arguments.  The theorems: a stored
    hash verifies exactly the passwords with the same key, and a token is valid for the
    purpose it was issued for and for no other. *)

From stdpp Require Import base gmap list strings.
From Stdlib Require Import ZArith Lia Ascii String Bool.
From S2P Require Import Prelude Tx Store Bytes Envelope Scheduler Publisher Destination.
From S2P Require Import Sealing Reliability Notification Authorization Incident Consumer Workqueue.

(** ** Password hashes *)

(** golang.org/x/crypto/argon2: password, salt, iterations, memory, parallelism, length. *)
Class Argon2 : Type := {
  IDKey : bytes -> bytes -> Z -> Z -> Z -> Z -> bytes;
  IDKey_length p salt t m par n : 0 <= n -> slen (IDKey p salt t m par n) = n
}.

Definition argon2_Version : Z := 19.
Definition argonMemory : Z := 64 * 1024.
Definition argonIterations : Z := 3.
Definition argonParallelism : Z := 2.
Definition argonSaltLength : Z := 16.
Definition argonKeyLength : Z := 32.

Definition errInvalidPasswordHash : error := ErrorsNew "invalid password hash".

(** [strings.Split] at a character. *)
Fixpoint split_char (c : ascii) (s : string) : list string :=
  match s with
  | EmptyString => [""]
  | String x r =>
      if Ascii.eqb x c then "" :: split_char c r
      else match split_char c r with
           | part :: parts => String x part :: parts
           | [] => [String x ""]
           end
  end.

(** [strings.TrimPrefix]. *)
Definition trim_prefix (s p : string) : string := if has_prefix s p then sdrop (String.length p) s else s.

(** [strconv.ParseUint(s, 10, 32)]. *)
Definition ParseUint32 (s : string) : option Z :=
  match unsigned s with
  | Some n => if n <=? 2 ^ 32 - 1 then Some n else None
  | None => None
  end.

Definition parseHashParameter (value prefix : string) : res Z :=
  if negb (has_prefix value prefix) || (slen value =? slen prefix) then Err errInvalidPasswordHash
  else match ParseUint32 (trim_prefix value prefix) with
       | Some parsed => Ok parsed
       | None => Err errInvalidPasswordHash
       end.

Definition is_parameter (value prefix : string) (expected : Z) : bool :=
  match parseHashParameter value prefix with Ok n => n =? expected | Err _ => false end.

Definition parsePasswordHash (encoded : string) : res (bytes * bytes) :=
  match split_char "$" encoded with
  | [empty; kind; version; parameters; salt; key] =>
      if negb (String.eqb empty "" && String.eqb kind "argon2id") then Err errInvalidPasswordHash
      else if negb (has_prefix version "v=") then Err errInvalidPasswordHash
      else if negb (bool_decide (Atoi (trim_prefix version "v=") = Some argon2_Version)) then Err errInvalidPasswordHash
      else match split_char "," parameters with
           | [memory; iterations; parallelism] =>
               if negb (is_parameter memory "m=" argonMemory) || negb (is_parameter iterations "t=" argonIterations)
                  || negb (is_parameter parallelism "p=" argonParallelism)
               then Err errInvalidPasswordHash
               else match rawstd_decode_strict salt, rawstd_decode_strict key with
                    | Some salt, Some key =>
                        if negb (slen salt =? argonSaltLength) || negb (slen key =? argonKeyLength)
                        then Err errInvalidPasswordHash else Ok (salt, key)
                    | _, _ => Err errInvalidPasswordHash
                    end
           | _ => Err errInvalidPasswordHash
           end
  | _ => Err errInvalidPasswordHash
  end.

Section Passwords.
Context {A : Argon2}.

Definition password_key (password salt : bytes) : bytes :=
  IDKey password salt argonIterations argonMemory argonParallelism argonKeyLength.

(** The parameters in front of the salt: the constants of the package. *)
Definition hash_prefix : string :=
  "$argon2id$v=" +:+ Itoa argon2_Version +:+ "$m=" +:+ Itoa argonMemory +:+ ",t=" +:+ Itoa argonIterations
  +:+ ",p=" +:+ Itoa argonParallelism +:+ "$".

Definition encodePassword (password salt : bytes) : string :=
  hash_prefix +:+ rawstd_encode salt +:+ "$" +:+ rawstd_encode (password_key password salt).

(** [salt] is what the random source returned. *)
Definition hashPassword (password : string) (salt : res bytes) : res string :=
  match salt with Err e => Err e | Ok salt => Ok (encodePassword password salt) end.

Definition verifyPassword (password encoded : string) : bool :=
  match parsePasswordHash encoded with
  | Err _ => false
  | Ok (salt, expected) => String.eqb (password_key password salt) expected
  end.

Definition dummyPasswordHash : string := encodePassword "watchtrace-dummy-password" "fixed-dummy-salt".
End Passwords.

(** ** Opaque tokens *)

Definition accessTokenPrefix : string := "wt_access_".
Definition refreshTokenPrefix : string := "wt_refresh_".
Definition verificationTokenPrefix : string := "wt_verify_".
Definition passwordResetTokenPrefix : string := "wt_reset_".
Definition invitationTokenPrefix : string := "wt_invite_".
Definition sessionTokenBytes : Z := 32.

Section Tokens.
Context {P : Primitives}.

Definition tokenDigest (token : string) : bytes := sha256 token.

(** [random] is what the random source filled 32 bytes with. *)
Definition newOpaqueTokenFrom (random : res bytes) (prefix : string) : res (string * bytes) :=
  match random with
  | Err e => Err e
  | Ok raw => let token := prefix +:+ rawurl_encode raw in Ok (token, tokenDigest token)
  end.

Definition validOpaqueToken (token prefix : string) : bool :=
  if negb (has_prefix token prefix) then false
  else match rawurl_decode_strict (trim_prefix token prefix) with
       | Some raw => slen raw =? sessionTokenBytes
       | None => false
       end.

Definition newAccessToken (random : res bytes) := newOpaqueTokenFrom random accessTokenPrefix.
Definition newRefreshToken (random : res bytes) := newOpaqueTokenFrom random refreshTokenPrefix.
Definition newVerificationToken (random : res bytes) := newOpaqueTokenFrom random verificationTokenPrefix.
Definition newPasswordResetToken (random : res bytes) := newOpaqueTokenFrom random passwordResetTokenPrefix.
Definition NewInvitationToken (random : res bytes) := newOpaqueTokenFrom random invitationTokenPrefix.
Definition validAccessToken (token : string) : bool := validOpaqueToken token accessTokenPrefix.
Definition validRefreshToken (token : string) : bool := validOpaqueToken token refreshTokenPrefix.
Definition validVerificationToken (token : string) : bool := validOpaqueToken token verificationTokenPrefix.
Definition validPasswordResetToken (token : string) : bool := validOpaqueToken token passwordResetTokenPrefix.
Definition ValidInvitationToken (token : string) : bool := validOpaqueToken token invitationTokenPrefix.
End Tokens.

(** ** Account input *)

Definition minimumPasswordBytes : Z := 12.
Definition maximumPasswordBytes : Z := 1024.

(** auth.ErrInvalidInput. *)
Definition ErrAccountInput : error := ErrorsNew "invalid account input".

Definition validatePassword (password : string) : res () :=
  if (slen password <? minimumPasswordBytes) || (maximumPasswordBytes <? slen password) then Err ErrAccountInput else Ok ().

Section Input.
(** The address part of [mail.ParseAddress]. *)
Variable ParseAddress : string -> option string.

Definition validateEmail (email : string) : res string :=
  let normalizedEmail := to_lower (Secureheaders.TrimSpace email) in
  if String.eqb normalizedEmail "" || (254 <? slen normalizedEmail) then Err ErrAccountInput
  else if negb (bool_decide (ParseAddress normalizedEmail = Some normalizedEmail)) then Err ErrAccountInput
  else Ok normalizedEmail.

Definition validateCredentials (email password : string) : res string :=
  match validateEmail email with
  | Err e => Err e
  | Ok normalizedEmail => match validatePassword password with Err e => Err e | Ok _ => Ok normalizedEmail end
  end.
End Input.

(** ** Facts *)

Lemma split_char_nonempty c s : split_char c s <> [].
Proof. destruct s as [|x r]; simpl; [done|]. destruct (Ascii.eqb x c); [done|]. by destruct (split_char c r). Qed.

Lemma split_char_app c a b : contains_char a c = false -> split_char c (a +:+ String c b) = a :: split_char c b.
Proof.
  induction a as [|x a IH]; intros H; rewrite ?append_cons; simpl in *.
  - change ("" +:+ String c b) with (String c b). simpl. by rewrite Ascii.eqb_refl.
  - apply orb_false_iff in H as [Hx H]. rewrite Ascii.eqb_sym in Hx. rewrite Hx, IH by done. done.
Qed.

Lemma split_char_none c a : contains_char a c = false -> split_char c a = [a].
Proof.
  induction a as [|x a IH]; intros H; simpl in *; [done|].
  apply orb_false_iff in H as [Hx H]. rewrite Ascii.eqb_sym in Hx. by rewrite Hx, IH.
Qed.

Lemma b64_digit_dollar n : 0 <= n < 64 -> Ascii.eqb "$" (b64_digit n) = false.
Proof.
  intros Hn. apply Ascii.eqb_neq. intros E. pose proof (from_b64_digit n Hn) as H. rewrite <- E in H. discriminate H.
Qed.

Lemma rawstd_no_dollar b : contains_char (rawstd_encode b) "$" = false.
Proof.
  unfold rawstd_encode. revert b. apply triples; [done|intros; byte_bounds;
    cbn -[Z.mul Z.div Z.modulo Z.add val_of b64_digit Ascii.eqb]; rewrite !b64_digit_dollar by digits; done..].
Qed.

Lemma split_six k v m s t :
  contains_char k "$" = false -> contains_char v "$" = false -> contains_char m "$" = false ->
  contains_char s "$" = false -> contains_char t "$" = false ->
  split_char "$" (String "$" (k +:+ String "$" (v +:+ String "$" (m +:+ String "$" (s +:+ String "$" t))))) = [""; k; v; m; s; t].
Proof. intros. change (String "$" ?x) with ("" +:+ String "$" x) at 1. by rewrite !split_char_app, split_char_none. Qed.

Section PasswordFacts.
Context {A : Argon2}.

Lemma parse_encode p salt : slen salt = argonSaltLength ->
  parsePasswordHash (encodePassword p salt) = Ok (salt, password_key p salt).
Proof.
  intros Hs. unfold parsePasswordHash.
  change (encodePassword p salt) with (String "$" ("argon2id" +:+ String "$" ("v=19" +:+ String "$" ("m=65536,t=3,p=2" +:+
    String "$" (rawstd_encode salt +:+ String "$" (rawstd_encode (password_key p salt))))))).
  rewrite split_six by (apply rawstd_no_dollar || reflexivity).
  rewrite !rawstd_strict_encode. unfold password_key. rewrite IDKey_length, Hs by (vm_compute; discriminate). vm_compute. reflexivity.
Qed.

(** A stored password hash verifies exactly the passwords whose Argon2id key under
    its salt is the stored key; in particular the password itself. *)
Theorem verify_encoded p q salt : slen salt = argonSaltLength ->
  verifyPassword q (encodePassword p salt) = true <-> password_key q salt = password_key p salt.
Proof. intros Hs. unfold verifyPassword. rewrite parse_encode by done. apply String.eqb_eq. Qed.
End PasswordFacts.

Lemma length_stake n s : (n <= String.length s)%nat -> String.length (stake n s) = n.
Proof. revert s. induction n as [|n IH]; intros [|x s] H; simpl in *; [done..|lia|]. rewrite IH; lia. Qed.

Lemma length_rep n c : String.length (Toy.rep n c) = n.
Proof. induction n as [|n IH]; simpl; [done|by rewrite IH]. Qed.

(** A key that is the password, padded. *)
Module ToyArgon.
#[global] Instance argon : Argon2.
Proof.
  refine (Build_Argon2 (fun p _ _ _ _ n => stake (Z.to_nat n) (p +:+ Toy.rep (Z.to_nat n) "k")) _).
  intros p salt t m par n Hn. unfold slen. rewrite length_stake; [lia|]. rewrite length_append, length_rep. lia.
Defined.
End ToyArgon.

Lemma verify_encoded_witness :
  verifyPassword "correct horse battery" (encodePassword "correct horse battery" "0123456789abcdef") = true.
Proof. apply (verify_encoded "correct horse battery" "correct horse battery" "0123456789abcdef"); reflexivity. Defined.

(** *** Tokens *)

Lemma has_prefix_app p s : has_prefix (p +:+ s) p = true.
Proof.
  unfold has_prefix. induction p as [|c p IH]; [by destruct s|]. rewrite append_cons. simpl.
  destruct (ascii_dec c c); [done|congruence].
Qed.

Lemma trim_prefix_app p s : trim_prefix (p +:+ s) p = s.
Proof. unfold trim_prefix. by rewrite has_prefix_app, sdrop_app. Qed.

Lemma prefix_comparable p q s : has_prefix s p = true -> has_prefix s q = true -> has_prefix p q || has_prefix q p = true.
Proof.
  unfold has_prefix. revert q s. induction p as [|c p IH]; intros [|d q] [|e s] Hp Hq; try done. simpl in *.
  destruct (ascii_dec c e) as [->|]; [|done]. destruct (ascii_dec d e) as [->|]; [|done].
  destruct (ascii_dec e e); [by eapply IH|congruence].
Qed.

Definition purposes : list string :=
  [accessTokenPrefix; refreshTokenPrefix; verificationTokenPrefix; passwordResetTokenPrefix; invitationTokenPrefix].

Section TokenFacts.
Context {P : Primitives}.

Lemma new_token_valid raw prefix : slen raw = 32 ->
  exists token, newOpaqueTokenFrom (Ok raw) prefix = Ok (token, tokenDigest token) /\ validOpaqueToken token prefix = true.
Proof.
  intros Hr. eexists. split; [reflexivity|]. unfold validOpaqueToken.
  by rewrite has_prefix_app, trim_prefix_app, rawurl_strict_encode, Hr.
Qed.

(** A token is valid for at most one purpose. *)
Theorem token_purpose_unique token p q : p ∈ purposes -> q ∈ purposes ->
  validOpaqueToken token p = true -> validOpaqueToken token q = true -> p = q.
Proof.
  intros Hp Hq Vp Vq. unfold validOpaqueToken in *.
  destruct (has_prefix token p) eqn:Ep, (has_prefix token q) eqn:Eq; try done.
  pose proof (prefix_comparable p q token Ep Eq) as H.
  assert (forallb (fun p => forallb (fun q => String.eqb p q || negb (has_prefix p q || has_prefix q p)) purposes) purposes = true)
    as Hall by (vm_compute; reflexivity).
  rewrite forallb_forall in Hall. specialize (Hall p (proj1 (list_elem_of_In _ _) Hp)).
  rewrite forallb_forall in Hall. specialize (Hall q (proj1 (list_elem_of_In _ _) Hq)).
  rewrite H in Hall. simpl in Hall. rewrite orb_false_r in Hall. by apply String.eqb_eq.
Qed.
End TokenFacts.
