(* ===== verification/Accounts.v ===== *)
(** * Accounts and sessions (src/internal/auth, with the queries of auth.sql.go)

    Sign-up, log-in, rotation of refresh tokens, log-out, password reset, verification
    of the address and the cleanup of old rows.  A session is a family: one refresh token
    that is replaced at every use, and the access tokens issued with them.  The tables of
    the package stand on their own here; the constraints of the migrations are part of
    the statements.  Identifiers passed back to the database are the ones it returned, so
    their casts to uuid succeed.  Random bytes and clock readings are arguments; the mail
    sender acts on a state of its own.

    The theorems: whatever fails, a family has at most one usable refresh token and all
    its tokens belong to one user; a replayed token ends its family; a password reset
    ends every session of the user and nothing of anyone else. *)

From stdpp Require Import base gmap list strings sorting.
From Stdlib Require Import ZArith Lia Ascii String Bool.
From S2P Require Import Prelude Tx Store Bytes Envelope Scheduler Publisher Destination.
From S2P Require Import Sealing Reliability Notification Authorization Incident Consumer Workqueue Credentials.

(** ** Tables *)

Record UserRow : Type := mkUser {
  us_email : string;
  us_password_hash : string;
  us_email_verified_at : option Z
}.

(** auth_sessions: the access tokens. *)
Record SessionRow : Type := mkSession {
  ss_user : string;
  ss_family : string;
  ss_digest : bytes;
  ss_expires_at : Z;
  ss_revoked_at : option Z;
  ss_created_at : Z
}.

(** refresh_tokens. *)
Record RefreshRow : Type := mkRefresh {
  rf_user : string;
  rf_family : string;
  rf_digest : bytes;
  rf_expires_at : Z;
  rf_rotated_at : option Z;
  rf_revoked_at : option Z;
  rf_replaced_by : option string;
  rf_created_at : Z
}.

Inductive purpose : Type := EmailVerification | PasswordReset.
#[global] Instance purpose_eq_dec : EqDecision purpose.
Proof. solve_decision. Defined.

(** user_action_tokens. *)
Record ActionRow : Type := mkActionToken {
  ut_user : string;
  ut_purpose : purpose;
  ut_digest : bytes;
  ut_expires_at : Z;
  ut_used_at : option Z;
  ut_created_at : Z
}.

Record AuthDB : Type := mkAuthDB {
  users : gmap string UserRow;
  auth_sessions : gmap string SessionRow;
  refresh_tokens : gmap string RefreshRow;
  user_action_tokens : gmap string ActionRow
}.

Definition on_users f d := mkAuthDB (f (users d)) (auth_sessions d) (refresh_tokens d) (user_action_tokens d).
Definition on_sessions f d := mkAuthDB (users d) (f (auth_sessions d)) (refresh_tokens d) (user_action_tokens d).
Definition on_refresh f d := mkAuthDB (users d) (auth_sessions d) (f (refresh_tokens d)) (user_action_tokens d).
Definition on_actions f d := mkAuthDB (users d) (auth_sessions d) (refresh_tokens d) (f (user_action_tokens d)).

Definition set_ss_revoked (t : Z) (r : SessionRow) : SessionRow :=
  mkSession (ss_user r) (ss_family r) (ss_digest r) (ss_expires_at r) (Some t) (ss_created_at r).
Definition set_rf_revoked (t : Z) (r : RefreshRow) : RefreshRow :=
  mkRefresh (rf_user r) (rf_family r) (rf_digest r) (rf_expires_at r) (rf_rotated_at r) (Some t) (rf_replaced_by r) (rf_created_at r).
Definition set_rf_rotated (t : Z) (by_ : string) (r : RefreshRow) : RefreshRow :=
  mkRefresh (rf_user r) (rf_family r) (rf_digest r) (rf_expires_at r) (Some t) (rf_revoked_at r) (Some by_) (rf_created_at r).
Definition set_ut_used (t : Z) (r : ActionRow) : ActionRow :=
  mkActionToken (ut_user r) (ut_purpose r) (ut_digest r) (ut_expires_at r) (Some t) (ut_created_at r).

(** ** Statements *)

(** The first row of a table with a property; where a unique index covers the property
    it is the only one. *)
Definition find_row {R} (f : R -> bool) (m : gmap string R) : option (string * R) :=
  head (filter (fun x => f x.2 = true) (map_to_list m)).

Definition exists_row {R} (f : R -> bool) (m : gmap string R) : bool :=
  match find_row f m with Some _ => true | None => false end.

(** [UPDATE ... SET x = CURRENT_TIMESTAMP] on the chosen rows, with the CHECK that the
    new time is not before the row's creation. *)
Definition stamp_rows {R} (chosen : R -> bool) (created : R -> Z) (set : Z -> R -> R) (now : Z) (m : gmap string R) :
    res Z * gmap string R :=
  if exists_row (fun r => chosen r && (now <? created r)) m then (Err ErrCheckViolation, m)
  else (Ok (Z.of_nat (Datatypes.length (filter (fun x => chosen x.2 = true) (map_to_list m)))),
        (fun r => if chosen r then set now r else r) <$> m).

Definition is_null {A} (o : option A) : bool := match o with None => true | Some _ => false end.

(** The unique index on the trimmed, lower case address. *)
Definition email_key (email : string) : string := to_lower (btrim email).

Definition create_user (id email hash : string) (d : AuthDB) : res (string * UserRow) * AuthDB :=
  let row := mkUser email hash None in
  if String.eqb (btrim email) "" || String.eqb hash "" then (Err ErrCheckViolation, d)
  else if exists_row (fun u => String.eqb (email_key (us_email u)) (email_key email)) (users d)
       || negb (is_null (users d !! id)) then (Err ErrUniqueViolation, d)
  else (Ok (id, row), on_users <[id := row]> d).
Definition CreateUser (email hash : string) : Tx AuthDB (string * UserRow) :=
  id ← gen_random_uuid; sql (fun _ => create_user id email hash).

Definition user_by_email (email : string) (d : AuthDB) : option (string * UserRow) :=
  find_row (fun u => String.eqb (email_key (us_email u)) email) (users d).
Definition GetUserForLogin (email : string) : Tx AuthDB (string * UserRow) := select_one (fun _ => user_by_email email).
Definition GetUserForPasswordReset (email : string) : Tx AuthDB (string * UserRow) := select_one (fun _ => user_by_email email).

(** *** Access tokens *)

Definition create_session (now : Z) (id user family : string) (digest : bytes) (expires : Z) (d : AuthDB) : res () * AuthDB :=
  if negb (slen digest =? 32) || negb (now <? expires) then (Err ErrCheckViolation, d)
  else if is_null (users d !! user) then (Err ErrForeignKeyViolation, d)
  else if exists_row (fun r => String.eqb (ss_digest r) digest) (auth_sessions d) || negb (is_null (auth_sessions d !! id))
  then (Err ErrUniqueViolation, d)
  else (Ok (), on_sessions <[id := mkSession user family digest expires None now]> d).
Definition CreateAuthSession (user family : string) (digest : bytes) (expires : Z) : Tx AuthDB () :=
  id ← gen_random_uuid; sql (fun now => create_session now id user family digest expires).

Definition revoke_sessions (chosen : SessionRow -> bool) : Tx AuthDB Z := sql (fun now d =>
  let '(r, m) := stamp_rows (fun x => chosen x && is_null (ss_revoked_at x)) ss_created_at set_ss_revoked now (auth_sessions d) in
  (r, on_sessions (fun _ => m) d)).
Definition RevokeAccessTokenFamily (family : string) : Tx AuthDB Z := revoke_sessions (fun r => String.eqb (ss_family r) family).
Definition RevokeAccessTokensForUser (user : string) : Tx AuthDB Z := revoke_sessions (fun r => String.eqb (ss_user r) user).

Definition user_by_session (now : Z) (digest : bytes) (d : AuthDB) : option (string * UserRow) :=
  match find_row (fun r => String.eqb (ss_digest r) digest && (now <? ss_expires_at r) && is_null (ss_revoked_at r)) (auth_sessions d) with
  | Some (_, r) => (fun u => (ss_user r, u)) <$> users d !! ss_user r
  | None => None
  end.
Definition GetUserByAuthSession (digest : bytes) : Tx AuthDB (string * UserRow) := select_one (fun now => user_by_session now digest).

(** *** Refresh tokens *)

Definition insert_refresh (now : Z) (id user family : string) (digest : bytes) (expires : Z) (d : AuthDB) : res string * AuthDB :=
  if negb (slen digest =? 32) || negb (now <? expires) then (Err ErrCheckViolation, d)
  else if is_null (users d !! user) then (Err ErrForeignKeyViolation, d)
  else if exists_row (fun r => String.eqb (rf_digest r) digest) (refresh_tokens d) || negb (is_null (refresh_tokens d !! id))
  then (Err ErrUniqueViolation, d)
  else (Ok id, on_refresh <[id := mkRefresh user family digest expires None None None now]> d).

Definition CreateRefreshTokenFamily (user : string) (digest : bytes) (expires : Z) : Tx AuthDB (string * string) :=
  id ← gen_random_uuid; family ← gen_random_uuid;
  id ← sql (fun now => insert_refresh now id user family digest expires); mret (id, family).
Definition CreateRotatedRefreshToken (user family : string) (digest : bytes) (expires : Z) : Tx AuthDB string :=
  id ← gen_random_uuid; sql (fun now => insert_refresh now id user family digest expires).

Definition refresh_by_digest (digest : bytes) (d : AuthDB) : option (string * RefreshRow * UserRow) :=
  match find_row (fun r => String.eqb (rf_digest r) digest) (refresh_tokens d) with
  | Some (id, r) => (fun u => (id, r, u)) <$> users d !! rf_user r
  | None => None
  end.
Definition LockRefreshTokenForRotation (digest : bytes) : Tx AuthDB (string * RefreshRow * UserRow) :=
  select_one (fun _ => refresh_by_digest digest).

Definition mark_rotated (now : Z) (by_ id : string) (d : AuthDB) : res Z * AuthDB :=
  match refresh_tokens d !! id with
  | Some r =>
      if is_null (rf_rotated_at r) && is_null (rf_revoked_at r) then
        if now <? rf_created_at r then (Err ErrCheckViolation, d)
        else if is_null (refresh_tokens d !! by_) then (Err ErrForeignKeyViolation, d)
        else (Ok 1, on_refresh <[id := set_rf_rotated now by_ r]> d)
      else (Ok 0, d)
  | None => (Ok 0, d)
  end.
Definition MarkRefreshTokenRotated (by_ id : string) : Tx AuthDB Z := sql (fun now => mark_rotated now by_ id).

Definition revoke_refresh (chosen : RefreshRow -> bool) : Tx AuthDB Z := sql (fun now d =>
  let '(r, m) := stamp_rows (fun x => chosen x && is_null (rf_revoked_at x)) rf_created_at set_rf_revoked now (refresh_tokens d) in
  (r, on_refresh (fun _ => m) d)).
Definition RevokeRefreshTokenFamily (family : string) : Tx AuthDB Z := revoke_refresh (fun r => String.eqb (rf_family r) family).
Definition RevokeRefreshTokensForUser (user : string) : Tx AuthDB Z := revoke_refresh (fun r => String.eqb (rf_user r) user).

(** *** Action tokens *)

Definition create_action (now : Z) (id user : string) (p : purpose) (digest : bytes) (expires : Z) (d : AuthDB) : res () * AuthDB :=
  if negb (slen digest =? 32) || negb (now <? expires) then (Err ErrCheckViolation, d)
  else if is_null (users d !! user) then (Err ErrForeignKeyViolation, d)
  else if exists_row (fun r => String.eqb (ut_digest r) digest) (user_action_tokens d)
       || exists_row (fun r => String.eqb (ut_user r) user && bool_decide (ut_purpose r = p) && is_null (ut_used_at r)) (user_action_tokens d)
       || negb (is_null (user_action_tokens d !! id))
  then (Err ErrUniqueViolation, d)
  else (Ok (), on_actions <[id := mkActionToken user p digest expires None now]> d).
Definition CreateEmailVerificationToken (user : string) (digest : bytes) (expires : Z) : Tx AuthDB () :=
  id ← gen_random_uuid; sql (fun now => create_action now id user EmailVerification digest expires).
Definition CreatePasswordResetToken (user : string) (digest : bytes) (expires : Z) : Tx AuthDB () :=
  id ← gen_random_uuid; sql (fun now => create_action now id user PasswordReset digest expires).

Definition action_by_digest (p : purpose) (digest : bytes) (d : AuthDB) : option (string * ActionRow) :=
  find_row (fun r => bool_decide (ut_purpose r = p) && String.eqb (ut_digest r) digest) (user_action_tokens d).
Definition LockEmailVerificationToken (digest : bytes) : Tx AuthDB (string * ActionRow) :=
  select_one (fun _ => action_by_digest EmailVerification digest).
Definition LockPasswordResetToken (digest : bytes) : Tx AuthDB (string * ActionRow) :=
  select_one (fun _ => action_by_digest PasswordReset digest).

(** The part of the WITH clause: the token is used, and its user is found. *)
Definition consume (now : Z) (p : purpose) (id : string) (d : AuthDB) : res (option string) * AuthDB :=
  match user_action_tokens d !! id with
  | Some r =>
      if bool_decide (ut_purpose r = p) && is_null (ut_used_at r) then
        if now <? ut_created_at r then (Err ErrCheckViolation, d)
        else (Ok (Some (ut_user r)), on_actions <[id := set_ut_used now r]> d)
      else (Ok None, d)
  | None => (Ok None, d)
  end.

Definition complete_verification (now : Z) (id : string) (d : AuthDB) : res (string * UserRow) * AuthDB :=
  match consume now EmailVerification id d with
  | (Err e, _) => (Err e, d)
  | (Ok None, d') => (Err ErrNoRows, d')
  | (Ok (Some user), d') =>
      match users d' !! user with
      | Some u =>
          let u := mkUser (us_email u) (us_password_hash u)
            (match us_email_verified_at u with Some t => Some t | None => Some now end) in
          (Ok (user, u), on_users <[user := u]> d')
      | None => (Err ErrNoRows, d')
      end
  end.
Definition CompleteEmailVerification (id : string) : Tx AuthDB (string * UserRow) := sql (fun now => complete_verification now id).

Definition complete_reset (now : Z) (id hash : string) (d : AuthDB) : res Z * AuthDB :=
  match consume now PasswordReset id d with
  | (Err e, _) => (Err e, d)
  | (Ok None, d') => (Ok 0, d')
  | (Ok (Some user), d') =>
      match users d' !! user with
      | Some u =>
          if String.eqb hash "" then (Err ErrCheckViolation, d)
          else (Ok 1, on_users <[user := mkUser (us_email u) hash (us_email_verified_at u)]> d')
      | None => (Ok 0, d')
      end
  end.
Definition CompletePasswordReset (id hash : string) : Tx AuthDB Z := sql (fun now => complete_reset now id hash).

Definition InvalidateActivePasswordResetTokens (user : string) : Tx AuthDB Z := sql (fun now d =>
  let '(r, m) := stamp_rows (fun x => String.eqb (ut_user x) user && bool_decide (ut_purpose x = PasswordReset) && is_null (ut_used_at x))
                   ut_created_at set_ut_used now (user_action_tokens d) in
  (r, on_actions (fun _ => m) d)).

(** *** Cleanup *)

(** [ORDER BY COALESCE(revoked_at, expires_at), id]. *)
Definition ended_at (r : SessionRow) : Z := default (ss_expires_at r) (ss_revoked_at r).
Definition ended_before (x y : string * SessionRow) : Prop :=
  ended_at x.2 < ended_at y.2 \/ ended_at x.2 = ended_at y.2 /\ str_le x.1 y.1.
#[global] Instance ended_before_dec x y : Decision (ended_before x y).
Proof. unfold ended_before. apply _. Defined.

Definition session_over (now : Z) (r : SessionRow) : bool := (ss_expires_at r <=? now) || negb (is_null (ss_revoked_at r)).

Definition old_sessions (now : Z) (batch : nat) (d : AuthDB) : list string :=
  (take batch (merge_sort ended_before (filter (fun x => session_over now x.2 = true) (map_to_list (auth_sessions d))))).*1.

Definition DeleteExpiredOrRevokedAccessTokens (batch : Z) : Tx AuthDB Z := sql (fun now d =>
  let ids := old_sessions now (Z.to_nat batch) d in
  (Ok (Z.of_nat (Datatypes.length ids)), on_sessions (fun m => foldr delete m ids) d)).

(** [GROUP BY family_id] with the latest expiry of each. *)
Definition family_end (family : string) (d : AuthDB) : Z :=
  foldr Z.max zero_time (rf_expires_at <$> filter (fun r => rf_family r = family) (map_to_list (refresh_tokens d)).*2).
Definition families (d : AuthDB) : list (string * Z) :=
  (fun f => (f, family_end f d)) <$> remove_dups (rf_family <$> (map_to_list (refresh_tokens d)).*2).
Definition family_before (x y : string * Z) : Prop := x.2 < y.2 \/ x.2 = y.2 /\ str_le x.1 y.1.
#[global] Instance family_before_dec x y : Decision (family_before x y).
Proof. unfold family_before. apply _. Defined.
Definition old_families (now : Z) (batch : nat) (d : AuthDB) : list string :=
  (take batch (merge_sort family_before (filter (fun x => x.2 <= now) (families d)))).*1.

(** The self reference [replaced_by_id] is checked at the end of the statement. *)
Definition DeleteExpiredRefreshTokenFamilies (batch : Z) : Tx AuthDB Z := sql (fun now d =>
  let gone := old_families now (Z.to_nat batch) d in
  let kept := filter (fun x : string * RefreshRow => rf_family x.2 ∉ gone) (refresh_tokens d) in
  if exists_row (fun r => match rf_replaced_by r with Some id => is_null (kept !! id) | None => false end) kept
  then (Err ErrForeignKeyViolation, d)
  else (Ok (Z.of_nat (size (refresh_tokens d) - size kept)), on_refresh (fun _ => kept) d)).

(** ** The service *)

Definition accessTokenLifetime : Z := 15 * minute.
Definition refreshTokenLifetime : Z := 30 * 24 * hour.
Definition verificationLifetime : Z := 24 * hour.
Definition passwordResetLifetime : Z := hour.
Definition cleanupAccessBatch : Z := 500.
Definition cleanupFamilyBatch : Z := 100.

Definition ErrEmailInUse : error := ErrorsNew "email already in use".
Definition ErrInvalidCredentials : error := ErrorsNew "invalid credentials".
Definition ErrInvalidSession : error := ErrorsNew "invalid session".
Definition ErrInvalidVerificationToken : error := ErrorsNew "invalid email verification token".
Definition ErrInvalidPasswordResetToken : error := ErrorsNew "invalid password reset token".

Record User : Type := mkUserView { u_ID : string; u_Email : string; u_EmailVerified : bool }.
Definition user_view (id : string) (u : UserRow) : User := mkUserView id (us_email u) (negb (is_null (us_email_verified_at u))).

Record Session : Type := mkSessionView {
  s_Token : string;
  s_ExpiresAt : Z;
  s_RefreshToken : string;
  s_RefreshTokenExpiresAt : Z
}.
Record AuthResult : Type := mkAuthResult { ar_User : User; ar_Session : Session }.

Record tokenPair : Type := mkPair {
  tp_AccessToken : string;
  tp_AccessDigest : bytes;
  tp_AccessExpiresAt : Z;
  tp_RefreshToken : string;
  tp_RefreshDigest : bytes;
  tp_RefreshExpiresAt : Z
}.

Definition sessionFromTokenPair (tokens : tokenPair) : Session :=
  mkSessionView (tp_AccessToken tokens) (tp_AccessExpiresAt tokens) (tp_RefreshToken tokens) (tp_RefreshExpiresAt tokens).

Definition truncate_micros (t : Z) : Z := time_truncate t microsecond.

(** What the two random reads of a token pair return. *)
Record draws : Type := mkDraws { dr_access : res bytes; dr_refresh : res bytes }.

Section Service.
Context {P : Primitives} {A : Argon2} {O : Type}.
Variable ParseAddress : string -> option string.
(** AccountActionSender; [None] in the place of the sender is nil. *)
Variable SendVerification : option (string -> string -> O -> res () * O).
Variable SendPasswordReset : option (string -> string -> O -> res () * O).

Definition issueTokenPair (random : draws) (now : Z) : res tokenPair :=
  match newAccessToken (dr_access random) with
  | Err e => Err e
  | Ok (accessToken, accessDigest) =>
      match newRefreshToken (dr_refresh random) with
      | Err e => Err e
      | Ok (refreshToken, refreshDigest) =>
          let now := truncate_micros now in
          Ok (mkPair accessToken accessDigest (time_add now accessTokenLifetime)
                refreshToken refreshDigest (time_add now refreshTokenLifetime))
      end
  end.

Definition createAccessToken (user family : string) (tokens : tokenPair) : Tx AuthDB () :=
  CreateAuthSession user family (tp_AccessDigest tokens) (tp_AccessExpiresAt tokens).

Definition persistNewTokenFamily (user : string) (tokens : tokenPair) : Tx AuthDB () :=
  refresh ← CreateRefreshTokenFamily user (tp_RefreshDigest tokens) (tp_RefreshExpiresAt tokens);
  createAccessToken user refresh.2 tokens.

Definition createTokenFamily (t now : Z) (random : draws) (user : string) : SE (World AuthDB O) Session :=
  tokens ← of_res (issueTokenPair random now);
  with_tx t (_ ← persistNewTokenFamily user tokens; mret (Commit (sessionFromTokenPair tokens))).

Definition revokeTokenFamily (family : string) : Tx AuthDB () :=
  _ ← RevokeRefreshTokenFamily family; _ ← RevokeAccessTokenFamily family; mret ().
Definition revokeUserSessions (user : string) : Tx AuthDB () :=
  _ ← RevokeRefreshTokensForUser user; _ ← RevokeAccessTokensForUser user; mret ().

Definition issueVerificationToken (random : res bytes) (now : Z) : res (string * bytes * Z) :=
  match newVerificationToken random with
  | Err e => Err e
  | Ok (token, digest) => Ok (token, digest, time_add (truncate_micros now) verificationLifetime)
  end.
Definition issuePasswordResetToken (random : res bytes) (now : Z) : res (string * bytes * Z) :=
  match newPasswordResetToken random with
  | Err e => Err e
  | Ok (token, digest) => Ok (token, digest, time_add (truncate_micros now) passwordResetLifetime)
  end.

(** A send with a sender that may be missing. *)
Definition deliver (sender : option (string -> string -> O -> res () * O)) (missing email token : string) (o : O) : res () * O :=
  match sender with
  | None => (Err (ErrorsNew missing), o)
  | Some send => send email token o
  end.

(** Transactions begin at [t], the clock reads [now] in between. *)
Definition Signup (t now now' : Z) (random : draws) (salt verification : res bytes) (email password : string) :
    SE (World AuthDB O) AuthResult :=
  normalizedEmail ← of_res (validateCredentials ParseAddress email password);
  passwordHash ← of_res (hashPassword password salt);
  tokens ← of_res (issueTokenPair random now);
  with_tx_call t (
    created ← try_ (CreateUser normalizedEmail passwordHash);
    match created with
    | Err ErrUniqueViolation => throw ErrEmailInUse
    | Err e => throw e
    | Ok (id, row) =>
        _ ← persistNewTokenFamily id tokens;
        issued ← of_res (issueVerificationToken verification now');
        let '(token, digest, expiresAt) := issued in
        _ ← CreateEmailVerificationToken id digest expiresAt;
        mret (inr (id, row, token))
    end)
    (fun x => let '(_, row, token) := x in
       deliver SendVerification "email verification sender is unavailable" (us_email row) token)
    (fun x => let '(id, row, _) := x in mkAuthResult (user_view id row) (sessionFromTokenPair tokens)).

(** A query on its own connection. *)
Definition query {B} (t : Z) (q : Tx AuthDB B) : SE (World AuthDB O) B := with_tx t (b ← q; mret (Rollback b)).

Definition Login (t now : Z) (random : draws) (email password : string) : SE (World AuthDB O) AuthResult :=
  normalizedEmail ← of_res (validateCredentials ParseAddress email password);
  stored ← try_ (query t (GetUserForLogin normalizedEmail));
  match stored with
  | Err ErrNoRows => throw ErrInvalidCredentials
  | Err e => throw e
  | Ok (id, row) =>
      if negb (verifyPassword password (us_password_hash row)) then throw ErrInvalidCredentials else
      session ← createTokenFamily t now random id;
      mret (mkAuthResult (user_view id row) session)
  end.

Definition Authenticate (t : Z) (token : string) : SE (World AuthDB O) User :=
  if negb (validAccessToken token) then throw ErrInvalidSession else
  stored ← try_ (query t (GetUserByAuthSession (tokenDigest token)));
  match stored with
  | Err ErrNoRows => throw ErrInvalidSession
  | Err e => throw e
  | Ok (id, row) => mret (user_view id row)
  end.

(** The body of the transaction of [Refresh]; a replay commits and is refused. *)
Definition refresh_tx (now now' : Z) (random : draws) (refreshToken : string) : Tx AuthDB (TxEnd (res AuthResult)) :=
  stored ← try_ (LockRefreshTokenForRotation (tokenDigest refreshToken));
  match stored with
  | Err ErrNoRows => throw ErrInvalidRefreshToken
  | Err e => throw e
  | Ok (id, stored, user) =>
      if negb (is_null (rf_rotated_at stored)) then
        _ ← revokeTokenFamily (rf_family stored);
        mret (Commit (Err ErrInvalidRefreshToken))
      else if negb (is_null (rf_revoked_at stored)) || negb (after (rf_expires_at stored) now) then throw ErrInvalidRefreshToken
      else
        tokens ← of_res (issueTokenPair random now');
        replacementID ← CreateRotatedRefreshToken (rf_user stored) (rf_family stored) (tp_RefreshDigest tokens) (tp_RefreshExpiresAt tokens);
        rotated ← MarkRefreshTokenRotated replacementID id;
        if negb (rotated =? 1) then throw (ErrorsNew "mark refresh token rotated affected an unexpected number of rows") else
        _ ← createAccessToken (rf_user stored) (rf_family stored) tokens;
        mret (Commit (Ok (mkAuthResult (user_view (rf_user stored) user) (sessionFromTokenPair tokens))))
  end.

Definition Refresh (t now now' : Z) (random : draws) (refreshToken : string) : SE (World AuthDB O) AuthResult :=
  if negb (validRefreshToken refreshToken) then throw ErrInvalidRefreshToken else
  r ← with_tx t (refresh_tx now now' random refreshToken);
  of_res r.

Definition logout_tx (now : Z) (refreshToken : string) (allSessions : bool) : Tx AuthDB (TxEnd ()) :=
  stored ← try_ (LockRefreshTokenForRotation (tokenDigest refreshToken));
  match stored with
  | Err ErrNoRows => mret (Rollback ())
  | Err e => throw e
  | Ok (_, stored, _) =>
      let active := is_null (rf_rotated_at stored) && is_null (rf_revoked_at stored) && after (rf_expires_at stored) now in
      _ ← (if allSessions && active then revokeUserSessions (rf_user stored) else revokeTokenFamily (rf_family stored));
      mret (Commit ())
  end.

Definition Logout (t now : Z) (refreshToken : string) (allSessions : bool) : SE (World AuthDB O) () :=
  if negb (validRefreshToken refreshToken) then mret () else with_tx t (logout_tx now refreshToken allSessions).

Definition CleanupSessions (t : Z) : SE (World AuthDB O) Z :=
  with_tx t (
    accessCount ← DeleteExpiredOrRevokedAccessTokens cleanupAccessBatch;
    refreshCount ← DeleteExpiredRefreshTokenFamilies cleanupFamilyBatch;
    mret (Commit (accessCount + refreshCount))).

Definition VerifyEmail (t now : Z) (token : string) : SE (World AuthDB O) User :=
  if negb (validVerificationToken token) then throw ErrInvalidVerificationToken else
  with_tx t (
    stored ← try_ (LockEmailVerificationToken (tokenDigest token));
    match stored with
    | Err ErrNoRows => throw ErrInvalidVerificationToken
    | Err e => throw e
    | Ok (id, stored) =>
        if negb (is_null (ut_used_at stored)) || negb (after (ut_expires_at stored) now) then throw ErrInvalidVerificationToken else
        verified ← try_ (CompleteEmailVerification id);
        match verified with
        | Err ErrNoRows => throw ErrInvalidVerificationToken
        | Err e => throw e
        | Ok (user, row) => mret (Commit (user_view user row))
        end
    end).

Definition ForgotPassword (t now : Z) (random : res bytes) (email : string) : SE (World AuthDB O) () :=
  normalizedEmail ← of_res (validateEmail ParseAddress email);
  with_tx_call t (
    user ← try_ (GetUserForPasswordReset normalizedEmail);
    match user with
    | Err ErrNoRows => mret (inl ())
    | Err e => throw e
    | Ok (id, row) =>
        _ ← InvalidateActivePasswordResetTokens id;
        issued ← of_res (issuePasswordResetToken random now);
        let '(token, digest, expiresAt) := issued in
        _ ← CreatePasswordResetToken id digest expiresAt;
        mret (inr (us_email row, token))
    end)
    (fun x => deliver SendPasswordReset "password-reset sender is unavailable" x.1 x.2)
    (fun _ => ()).

Definition reset_tx (now : Z) (passwordHash token : string) : Tx AuthDB (TxEnd ()) :=
  stored ← try_ (LockPasswordResetToken (tokenDigest token));
  match stored with
  | Err ErrNoRows => throw ErrInvalidPasswordResetToken
  | Err e => throw e
  | Ok (id, stored) =>
      if negb (is_null (ut_used_at stored)) || negb (after (ut_expires_at stored) now) then throw ErrInvalidPasswordResetToken else
      updated ← CompletePasswordReset id passwordHash;
      if negb (updated =? 1) then throw ErrInvalidPasswordResetToken else
      _ ← InvalidateActivePasswordResetTokens (ut_user stored);
      _ ← revokeUserSessions (ut_user stored);
      mret (Commit ())
  end.

Definition ResetPassword (t now : Z) (salt : res bytes) (token newPassword : string) : SE (World AuthDB O) () :=
  if negb (validPasswordResetToken token) then throw ErrInvalidPasswordResetToken else
  _ ← of_res (validatePassword newPassword);
  passwordHash ← of_res (hashPassword newPassword salt);
  with_tx t (reset_tx now passwordHash token).
End Service.

(** ** What holds of the tables between transactions *)

Definition usable (r : RefreshRow) : Prop := rf_rotated_at r = None /\ rf_revoked_at r = None.

Record auth_ok (d : AuthDB) : Prop := {
  ak_family_user i j r r' : refresh_tokens d !! i = Some r -> refresh_tokens d !! j = Some r' ->
    rf_family r = rf_family r' -> rf_user r = rf_user r';
  ak_one_usable i j r r' : refresh_tokens d !! i = Some r -> refresh_tokens d !! j = Some r' ->
    rf_family r = rf_family r' -> usable r -> usable r' -> i = j;
  ak_session_user i j r s : refresh_tokens d !! i = Some r -> auth_sessions d !! j = Some s ->
    rf_family r = ss_family s -> rf_user r = ss_user s;
  ak_replaced i r j : refresh_tokens d !! i = Some r -> rf_replaced_by r = Some j ->
    exists r', refresh_tokens d !! j = Some r' /\ rf_family r' = rf_family r;
  ak_rotated i r : refresh_tokens d !! i = Some r -> is_Some (rf_rotated_at r) <-> is_Some (rf_replaced_by r);
  ak_digests i j r r' : refresh_tokens d !! i = Some r -> refresh_tokens d !! j = Some r' ->
    rf_digest r = rf_digest r' -> i = j;
  ak_session_digests i j s s' : auth_sessions d !! i = Some s -> auth_sessions d !! j = Some s' ->
    ss_digest s = ss_digest s' -> i = j;
  ak_users i r : refresh_tokens d !! i = Some r -> is_Some (users d !! rf_user r);
  ak_session_users i s : auth_sessions d !! i = Some s -> is_Some (users d !! ss_user s)
}.

(** The uuids still to be drawn name no family yet, and repeat none. *)
Definition unused (f : string) (d : AuthDB) : Prop :=
  (forall i r, refresh_tokens d !! i = Some r -> rf_family r <> f) /\
  (forall i s, auth_sessions d !! i = Some s -> ss_family s <> f).
Definition fresh_from (u : nat -> string) (n : nat) (d : AuthDB) : Prop := forall k, (n <= k)%nat -> unused (u k) d.
Definition distinct_uuids (u : nat -> string) : Prop := forall k l, u k = u l -> k = l.

Section Rows.
Context {R : Type}.
Implicit Types (f : R -> bool) (m : gmap string R).

Lemma find_row_some f m i r : find_row f m = Some (i, r) -> m !! i = Some r /\ f r = true.
Proof.
  unfold find_row. intros H. assert ((i, r) ∈ filter (fun x => f x.2 = true) (map_to_list m)) as Hin.
  { destruct (filter _ _); [done|]. injection H as ->. left. }
  apply list_elem_of_filter in Hin as [Hf Hin]. by apply elem_of_map_to_list in Hin.
Qed.

Lemma find_row_none f m : find_row f m = None -> forall i r, m !! i = Some r -> f r = false.
Proof.
  unfold find_row. intros H i r Hr. destruct (f r) eqn:E; [|done]. exfalso.
  assert ((i, r) ∈ filter (fun x => f x.2 = true) (map_to_list m)) as Hin
    by (apply list_elem_of_filter; split; [done|by apply elem_of_map_to_list]).
  destruct (filter _ _); [by apply not_elem_of_nil in Hin|done].
Qed.

(** Where only one row can match, it is found. *)
Lemma find_row_unique f m i r :
  m !! i = Some r -> f r = true -> (forall j r', m !! j = Some r' -> f r' = true -> j = i) -> find_row f m = Some (i, r).
Proof.
  intros Hr Hf Hu. destruct (find_row f m) as [[j r']|] eqn:E.
  - apply find_row_some in E as [Hj Hfj]. assert (j = i) as -> by eauto. by rewrite Hr in Hj; injection Hj as ->.
  - pose proof (find_row_none f m E i r Hr). congruence.
Qed.

Lemma exists_row_false f m : exists_row f m = false <-> forall i r, m !! i = Some r -> f r = false.
Proof.
  unfold exists_row. destruct (find_row f m) as [[i r]|] eqn:E.
  - apply find_row_some in E as [Hr Hf]. split; [done|]. intros H. by rewrite (H i r Hr) in Hf.
  - split; [intros _; by apply find_row_none|done].
Qed.

Lemma stamp_rows_ok chosen created set now m n m' :
  stamp_rows chosen created set now m = (Ok n, m') ->
  m' = (fun r => if chosen r then set now r else r) <$> m /\
  forall i r, m !! i = Some r -> chosen r = true -> created r <= now.
Proof.
  unfold stamp_rows. destruct (exists_row _ m) eqn:E; [done|]. intros [= _ <-]. split; [done|].
  intros i r Hr Hc. rewrite exists_row_false in E. specialize (E i r Hr). rewrite Hc in E. simpl in E. lia.
Qed.

Lemma stamp_rows_runs (chosen : R -> bool) created set now m :
  (forall i r, m !! i = Some r -> chosen r = true -> created r <= now) ->
  exists n, stamp_rows chosen created set now m = (Ok n, (fun r => if chosen r then set now r else r) <$> m).
Proof.
  intros H. unfold stamp_rows. rewrite (proj2 (exists_row_false _ m)); [by eexists|].
  intros i r Hr. destruct (chosen r) eqn:Ec; [|done]. simpl. specialize (H i r Hr Ec). lia.
Qed.
End Rows.

(** ** Statements keep the tables in order *)

Lemma is_null_false {A} (o : option A) : is_null o = false -> is_Some o.
Proof. destruct o; [eauto|done]. Qed.
Lemma is_null_true {A} (o : option A) : is_null o = true -> o = None.
Proof. by destruct o. Qed.

(** The rows a family of [user] rests on. *)
Definition owns (user family : string) (d : AuthDB) : Prop :=
  exists i r, refresh_tokens d !! i = Some r /\ rf_family r = family /\ rf_user r = user.

Definition keeps_identity (g : RefreshRow -> RefreshRow) : Prop := forall r,
  rf_user (g r) = rf_user r /\ rf_family (g r) = rf_family r /\ rf_digest (g r) = rf_digest r /\
  rf_replaced_by (g r) = rf_replaced_by r /\ rf_rotated_at (g r) = rf_rotated_at r /\ (usable (g r) -> usable r).

Lemma map_refresh_ok g d : keeps_identity g -> auth_ok d -> auth_ok (on_refresh (fmap g) d).
Proof.
  intros Hg [H1 H2 H3 H4 H5 H6 H7 H8 H9].
  assert (forall i r', (g <$> refresh_tokens d) !! i = Some r' -> exists r, r' = g r /\ refresh_tokens d !! i = Some r) as Hl.
  { intros i r' H. rewrite lookup_fmap in H. destruct (refresh_tokens d !! i) as [r|]; [|done]. injection H as <-. eauto. }
  constructor; simpl; intros *.
  - intros (r0 & -> & Hi)%Hl (r1 & -> & Hj)%Hl. destruct (Hg r0) as (-> & -> & _), (Hg r1) as (-> & -> & _). eauto.
  - intros (r0 & -> & Hi)%Hl (r1 & -> & Hj)%Hl. destruct (Hg r0) as (_ & -> & _ & _ & _ & ?), (Hg r1) as (_ & -> & _ & _ & _ & ?). eauto.
  - intros (r0 & -> & Hi)%Hl Hs. destruct (Hg r0) as (-> & -> & _). eauto.
  - intros (r0 & -> & Hi)%Hl. destruct (Hg r0) as (_ & -> & _ & -> & _). intros (r1 & Hr1 & E)%(H4 _ _ _ Hi).
    exists (g r1). rewrite lookup_fmap, Hr1. split; [done|]. destruct (Hg r1) as (_ & -> & _). done.
  - intros (r0 & -> & Hi)%Hl. destruct (Hg r0) as (_ & _ & _ & -> & -> & _). eauto.
  - intros (r0 & -> & Hi)%Hl (r1 & -> & Hj)%Hl. destruct (Hg r0) as (_ & _ & -> & _), (Hg r1) as (_ & _ & -> & _). eauto.
  - apply H7.
  - intros (r0 & -> & Hi)%Hl. destruct (Hg r0) as (-> & _). eauto.
  - apply H9.
Qed.

Lemma map_sessions_ok g d : (forall s, ss_user (g s) = ss_user s /\ ss_family (g s) = ss_family s /\ ss_digest (g s) = ss_digest s) ->
  auth_ok d -> auth_ok (on_sessions (fmap g) d).
Proof.
  intros Hg [H1 H2 H3 H4 H5 H6 H7 H8 H9].
  assert (forall i s', (g <$> auth_sessions d) !! i = Some s' -> exists s, s' = g s /\ auth_sessions d !! i = Some s) as Hl.
  { intros i s' H. rewrite lookup_fmap in H. destruct (auth_sessions d !! i) as [s|]; [|done]. injection H as <-. eauto. }
  constructor; simpl; try done; intros *.
  - intros Hi (s0 & -> & Hj)%Hl. destruct (Hg s0) as (-> & -> & _). eauto.
  - intros (s0 & -> & Hi)%Hl (s1 & -> & Hj)%Hl. destruct (Hg s0) as (_ & _ & ->), (Hg s1) as (_ & _ & ->). eauto.
  - intros (s0 & -> & Hi)%Hl. destruct (Hg s0) as (-> & _). eauto.
Qed.

Lemma create_session_ok now id user family digest expires d d' :
  auth_ok d -> owns user family d -> create_session now id user family digest expires d = (Ok (), d') ->
  auth_ok d' /\ refresh_tokens d' = refresh_tokens d.
Proof.
  intros [H1 H2 H3 H4 H5 H6 H7 H8 H9] (io & ro & Ho & Hf & Hu). unfold create_session.
  destruct (_ || _); [done|]. destruct (is_null (users d !! user)) eqn:Eu; [done|].
  destruct (exists_row _ _) eqn:Ed; [done|]. destruct (is_null (auth_sessions d !! id)) eqn:Ei; [|done].
  intros [= <-]. rewrite exists_row_false in Ed.
  apply is_null_false in Eu. apply is_null_true in Ei. split; [|done].
  constructor; simpl; try done; intros *.
  - intros Hi. rewrite lookup_insert_Some. intros [[<- <-]|[_ Hj]]; [|eauto]. simpl. intros E. subst. eauto.
  - rewrite !lookup_insert_Some. intros [[<- <-]|[_ Hi]] [[<- <-]|[_ Hj]]; simpl; [done|..|eauto]; intros E.
    + specialize (Ed _ _ Hj). rewrite E, String.eqb_refl in Ed. done.
    + specialize (Ed _ _ Hi). rewrite E, String.eqb_refl in Ed. done.
  - rewrite lookup_insert_Some. intros [[<- <-]|[_ Hi]]; [done|eauto].
Qed.

Lemma insert_refresh_inv now id user family digest expires d id' d' :
  insert_refresh now id user family digest expires d = (Ok id', d') ->
  id' = id /\ d' = on_refresh <[id := mkRefresh user family digest expires None None None now]> d /\
  is_Some (users d !! user) /\ refresh_tokens d !! id = None /\
  forall i r, refresh_tokens d !! i = Some r -> rf_digest r <> digest.
Proof.
  unfold insert_refresh. destruct (_ || _); [done|]. destruct (is_null (users d !! user)) eqn:Eu; [done|].
  destruct (exists_row _ _) eqn:Ed; [done|]. destruct (is_null (refresh_tokens d !! id)) eqn:Ei; [|done].
  intros [= <- <-]. rewrite exists_row_false in Ed. split_and!; try done; [by apply is_null_false|by apply is_null_true|].
  intros i r Hr E. specialize (Ed i r Hr). by rewrite E, String.eqb_refl in Ed.
Qed.

(** A new family. *)
Lemma new_family_ok now id user family digest expires d id' d' :
  auth_ok d -> unused family d -> insert_refresh now id user family digest expires d = (Ok id', d') ->
  auth_ok d' /\ owns user family d'.
Proof.
  intros [H1 H2 H3 H4 H5 H6 H7 H8 H9] [U1 U2] (-> & -> & Hu & Hi & Hd)%insert_refresh_inv.
  split; [|exists id; eexists; split; [apply lookup_insert_eq|done]].
  constructor; simpl; try done; intros *.
  - rewrite !lookup_insert_Some. intros [[<- <-]|[_ Ha]] [[<- <-]|[_ Hb]]; simpl; [done|..|eauto]; intros E;
      exfalso; [by eapply (U1 _ _ Hb)|by eapply (U1 _ _ Ha)].
  - rewrite !lookup_insert_Some. intros [[<- <-]|[_ Ha]] [[<- <-]|[_ Hb]]; simpl; [done|..|eauto]; intros E;
      exfalso; [by eapply (U1 _ _ Hb)|by eapply (U1 _ _ Ha)].
  - rewrite lookup_insert_Some. intros [[<- <-]|[_ Ha]] Hb; simpl; [|eauto]. intros E. exfalso. by eapply (U2 _ _ Hb).
  - rewrite lookup_insert_Some. intros [[<- <-]|[_ Ha]]; simpl; [done|]. intros (r' & Hr' & E)%(H4 _ _ _ Ha).
    exists r'. split; [|done]. rewrite lookup_insert_ne; [done|]. intros ->. by rewrite Hi in Hr'.
  - rewrite lookup_insert_Some. intros [[<- <-]|[_ Ha]]; simpl; [|eauto]. split; by intros [? [=]].
  - rewrite !lookup_insert_Some. intros [[<- <-]|[_ Ha]] [[<- <-]|[_ Hb]]; simpl; [done|..|eauto]; intros E;
      exfalso; [by eapply Hd|by eapply Hd].
  - rewrite lookup_insert_Some. intros [[<- <-]|[_ Ha]]; simpl; [done|eauto].
Qed.

(** Rotation: the replacement and the mark on the old token together. *)
Lemma rotate_ok now id by_ digest expires r d by' d1 d2 :
  auth_ok d -> refresh_tokens d !! id = Some r -> usable r ->
  insert_refresh now by_ (rf_user r) (rf_family r) digest expires d = (Ok by', d1) ->
  mark_rotated now by' id d1 = (Ok 1, d2) ->
  auth_ok d2 /\ owns (rf_user r) (rf_family r) d2 /\ auth_sessions d2 = auth_sessions d /\ users d2 = users d /\
  refresh_tokens d2 = <[id := set_rf_rotated now by_ r]>
    (<[by_ := mkRefresh (rf_user r) (rf_family r) digest expires None None None now]> (refresh_tokens d)) /\
  refresh_tokens d !! by_ = None /\ rf_created_at r <= now.
Proof.
  intros [H1 H2 H3 H4 H5 H6 H7 H8 H9] Hr Hu (-> & -> & Hus & Hb & Hd)%insert_refresh_inv.
  unfold mark_rotated. simpl. assert (id <> by_) as Hne by (intros ->; by rewrite Hb in Hr).
  rewrite lookup_insert_ne, Hr by done. destruct (is_null _ && is_null _); [|done].
  destruct (now <? rf_created_at r) eqn:Et; [done|]. rewrite lookup_insert_eq. simpl. intros [= <-].
  set (new := mkRefresh (rf_user r) (rf_family r) digest expires None None None now).
  set (T := <[id := set_rf_rotated now by_ r]> (<[by_ := new]> (refresh_tokens d))).
  assert (forall i x, T !! i = Some x ->
    i = id /\ x = set_rf_rotated now by_ r \/ i = by_ /\ x = new \/ i <> by_ /\ i <> id /\ refresh_tokens d !! i = Some x) as Hl.
  { intros i x. unfold T. rewrite !lookup_insert_Some. intros [[<- <-]|[? [[<- <-]|[? ?]]]]; auto 10. }
  assert (T !! by_ = Some new) as Hnew by (unfold T; by rewrite lookup_insert_ne, lookup_insert_eq).
  assert (T !! id = Some (set_rf_rotated now by_ r)) as Hold by (unfold T; by rewrite lookup_insert_eq).
  split_and!; try done; [|by exists by_, new|lia].
  constructor; simpl; try done; fold T; intros *.
  - intros [[-> ->]|[[-> ->]|(_ & _ & Hi)]]%Hl [[-> ->]|[[-> ->]|(_ & _ & Hj)]]%Hl; simpl; eauto.
  - intros [[-> ->]|[[-> ->]|(Ni & Mi & Hi)]]%Hl [[-> ->]|[[-> ->]|(Nj & Mj & Hj)]]%Hl; simpl; eauto;
      intros E [U1 U2] [V1 V2]; try done; exfalso;
      [apply Mj; symmetry; apply (H2 id j r r'); first [done|by split]|apply Mi; symmetry; apply (H2 id i r r0); first [done|by split]].
  - intros [[-> ->]|[[-> ->]|(_ & _ & Hi)]]%Hl Hs; simpl; eauto.
  - intros [[-> ->]|[[-> ->]|(_ & _ & Hi)]]%Hl; simpl; [intros [= <-]; eauto|done|].
    intros (r' & Hr' & E)%(H4 _ _ _ Hi). destruct (decide (j = id)) as [->|Nj].
    + exists (set_rf_rotated now by_ r). split; [done|]. rewrite Hr in Hr'. injection Hr' as <-. done.
    + exists r'. split; [|done]. unfold T. rewrite !lookup_insert_ne; [done| |done]. intros ->. by rewrite Hb in Hr'.
  - intros [[-> ->]|[[-> ->]|(_ & _ & Hi)]]%Hl; simpl; [by split; eexists|split; by intros [? [=]]|eauto].
  - intros [[-> ->]|[[-> ->]|(_ & _ & Hi)]]%Hl [[-> ->]|[[-> ->]|(_ & _ & Hj)]]%Hl; simpl; eauto; intros E; exfalso; by eapply Hd.
  - intros [[-> ->]|[[-> ->]|(_ & _ & Hi)]]%Hl; simpl; eauto.
Qed.

(** ** Transactions keep them in order *)

Record auth_inv {O} (w : World AuthDB O) : Prop := {
  av_uuids : distinct_uuids (w_uuid w);
  av_ok : auth_ok (w_db w);
  av_fresh : fresh_from (w_uuid w) (w_next w) (w_db w)
}.

Section Keeping.
Variable u : nat -> string.
Variable n0 : nat.
Hypothesis Hu : distinct_uuids u.

Definition drawn (s : TxState AuthDB) : Prop := tx_uuid s = u /\ (n0 <= tx_next s)%nat.
Definition inside (Q : AuthDB -> Prop) (s : TxState AuthDB) : Prop :=
  drawn s /\ auth_ok (tx_db s) /\ fresh_from u (tx_next s) (tx_db s) /\ Q (tx_db s).
Definition anything (_ : AuthDB) : Prop := True.

(** A body that leaves the tables in order when it commits, [c] telling when it does. *)
Definition commits {A} (c : A -> Prop) (Q : AuthDB -> Prop) (m : Tx AuthDB A) : Prop :=
  triple (inside Q) m (fun a s => drawn s /\ (c a -> inside anything s)) (fun _ => drawn).
(** A body that does not commit. *)
Definition quits {A} (c : A -> Prop) (m : Tx AuthDB A) : Prop :=
  triple drawn m (fun a s => drawn s /\ ~ c a) (fun _ => drawn).

(** A part of a body. *)
Definition proceeds {A} (Q : AuthDB -> Prop) (m : Tx AuthDB A) (Q' : A -> AuthDB -> Prop) : Prop :=
  triple (inside Q) m (fun a => inside (Q' a)) (fun _ => drawn).

Lemma proceeds_sql {A} Q (q : Z -> AuthDB -> res A * AuthDB) Q' :
  (forall now d a d', auth_ok d -> Q d -> q now d = (Ok a, d') ->
     auth_ok d' /\ Q' a d' /\ forall f, unused f d -> unused f d' \/ exists us, owns us f d) ->
  proceeds Q (sql q) Q'.
Proof.
  intros H s ([Hs1 Hs2] & Hok & Hf & HQ). unfold sql. destruct (tx_aborted s); [by split|].
  destruct (next_fault (tx_faults s)) as [[] fs]; [|by split..].
  destruct (q (tx_now s) (tx_db s)) as [[a|e] d'] eqn:E; [|by destruct e; split].
  destruct (H _ _ _ _ Hok HQ E) as (H1 & H2 & H3). split_and!; [by split|done| |done].
  intros k Hk. simpl in *. destruct (H3 (u k) (Hf k Hk)) as [?|(us & i & r & Hr & E' & _)]; [done|].
  exfalso. by eapply (proj1 (Hf k Hk)).
Qed.

Lemma proceeds_bind {A B} Q (m : Tx AuthDB A) (k : A -> Tx AuthDB B) R Q' :
  proceeds Q m R -> (forall a, proceeds (R a) (k a) Q') -> proceeds Q (m ≫= k) Q'.
Proof. intros H1 H2. eapply triple_bind; [apply H1|apply H2]. Qed.

Lemma commits_bind {A B} c Q (m : Tx AuthDB A) (k : A -> Tx AuthDB B) R :
  proceeds Q m R -> (forall a, commits c (R a) (k a)) -> commits c Q (m ≫= k).
Proof. intros H1 H2. eapply triple_bind; [apply H1|apply H2]. Qed.

Lemma commits_try {A B} c Q (m : Tx AuthDB A) (k : res A -> Tx AuthDB B) R :
  proceeds Q m R -> (forall a, commits c (R a) (k (Ok a))) -> (forall e, quits c (k (Err e))) -> commits c Q (try_ m ≫= k).
Proof.
  intros H1 H2 H3 s Hs. specialize (H1 s Hs). unfold mbind, SE_bind, try_.
  destruct (m s) as [[a|e] s1]; simpl; [by apply H2|]. specialize (H3 e s1 H1).
  destruct (k (Err e) s1) as [[b|e'] s2]; [|done]. destruct H3. split; [done|]. by intros.
Qed.

Lemma quits_throw {A} c e : quits (A := A) c (throw e).
Proof. by intros s Hs. Qed.
Lemma quits_ret {A} c (a : A) : ~ c a -> quits c (mret a).
Proof. by intros H s Hs. Qed.
Lemma proceeds_ret {A} Q (a : A) : proceeds Q (mret a) (fun _ => Q).
Proof. by intros s Hs. Qed.
Lemma commits_throw {A} c Q e : commits (A := A) c Q (throw e).
Proof. intros s Hs. apply Hs. Qed.
Lemma commits_ret {A} c Q (a : A) : commits c Q (mret a).
Proof. intros s (? & ? & ? & ?). by split_and!. Qed.
Lemma proceeds_of_res {A} Q (r : res A) : proceeds Q (of_res r) (fun _ => Q).
Proof. intros s Hs. destruct r; [done|apply Hs]. Qed.
Lemma proceeds_weaken {A} Q Q0 (m : Tx AuthDB A) Q' : (forall d, Q d -> Q0 d) -> proceeds Q0 m Q' -> proceeds Q m Q'.
Proof. intros H Hm s (? & ? & ? & ?). apply Hm. split_and!; auto; apply H0. Qed.

(** Statements that only read. *)
Lemma proceeds_select_one {A} Q (q : Z -> AuthDB -> option A) :
  proceeds Q (select_one q) (fun a d => Q d /\ exists now, q now d = Some a).
Proof.
  apply proceeds_sql. intros now d a d' Hok HQ. destruct (q now d) as [b|] eqn:E; [|done]. intros [= -> <-].
  split_and!; eauto.
Qed.

Lemma proceeds_uuid Q : proceeds Q gen_random_uuid (fun _ => Q).
Proof.
  intros s ([? ?] & ? & Hf & ?). split_and!; try done; [split; [done|simpl; lia]|]. intros k Hk. apply Hf. simpl in *. lia.
Qed.

(** *** The statements that write *)

Lemma unused_users (f : gmap string UserRow -> gmap string UserRow) fam d : unused fam d -> unused fam (on_users f d).
Proof. by intros [? ?]. Qed.

Lemma users_ok f d : (forall id, is_Some (users d !! id) -> is_Some (f (users d) !! id)) -> auth_ok d -> auth_ok (on_users f d).
Proof. intros Hf []. constructor; simpl; eauto. Qed.

Lemma actions_ok f d : auth_ok d -> auth_ok (on_actions f d).
Proof. by intros []; constructor. Qed.

Lemma proceeds_session Q user family digest expires :
  (forall d, Q d -> owns user family d) -> proceeds Q (CreateAuthSession user family digest expires) (fun _ => anything).
Proof.
  intros HQ. eapply proceeds_bind; [apply proceeds_uuid|]. intros id. apply proceeds_sql.
  intros now d [] d' Hok Hd E. destruct (create_session_ok _ _ _ _ _ _ _ _ Hok (HQ d Hd) E) as [? Hr].
  split_and!; [done..|]. intros f [H1 H2]. destruct (decide (f = family)) as [->|Hne]; [right; by eexists; apply HQ|]. left.
  split; [by rewrite Hr|]. intros i s. unfold create_session in E.
  destruct (_ || _); [done|]. destruct (is_null _); [done|]. destruct (_ || _); [done|]. injection E as <-. simpl.
  rewrite lookup_insert_Some. intros [[_ <-]|[_ Hi]]; [simpl; congruence|eauto].
Qed.

Lemma proceeds_revoke_refresh Q chosen : proceeds Q (revoke_refresh chosen) (fun _ => anything).
Proof.
  apply proceeds_sql. intros now d a d' Hok HQ. destruct (stamp_rows _ _ _ _ _) as [[n|e] m] eqn:E; [|done].
  intros [= _ <-]. apply stamp_rows_ok in E as [-> _].
  set (g := fun r => if chosen r && is_null (rf_revoked_at r) then set_rf_revoked now r else r).
  change (on_refresh (fun _ => g <$> refresh_tokens d) d) with (on_refresh (fmap g) d). split_and!; [|done|].
  - apply map_refresh_ok; [|done]. intros r. unfold g. destruct (_ && _); split_and!; try done. by intros [_ ?].
  - intros f [H1 H2]. left. split; [|done]. intros i r. simpl. rewrite lookup_fmap.
    destruct (refresh_tokens d !! i) as [r0|] eqn:Er; [|done]. intros [= <-]. unfold g. destruct (_ && _); by apply (H1 i r0).
Qed.

Lemma proceeds_revoke_sessions Q chosen : proceeds Q (revoke_sessions chosen) (fun _ => anything).
Proof.
  apply proceeds_sql. intros now d a d' Hok HQ. destruct (stamp_rows _ _ _ _ _) as [[n|e] m] eqn:E; [|done].
  intros [= _ <-]. apply stamp_rows_ok in E as [-> _].
  set (g := fun r => if chosen r && is_null (ss_revoked_at r) then set_ss_revoked now r else r).
  change (on_sessions (fun _ => g <$> auth_sessions d) d) with (on_sessions (fmap g) d). split_and!; [|done|].
  - apply map_sessions_ok; [|done]. intros r. unfold g. by destruct (_ && _).
  - intros f [H1 H2]. left. split; [done|]. intros i r. simpl. rewrite lookup_fmap.
    destruct (auth_sessions d !! i) as [r0|] eqn:Er; [|done]. intros [= <-]. unfold g. destruct (_ && _); by apply (H2 i r0).
Qed.

(** A statement on the users or the action tokens. *)
Lemma proceeds_elsewhere {A} Q (q : Z -> AuthDB -> res A * AuthDB) :
  (forall now d a d', q now d = (Ok a, d') -> refresh_tokens d' = refresh_tokens d /\ auth_sessions d' = auth_sessions d /\
     forall id, is_Some (users d !! id) -> is_Some (users d' !! id)) ->
  proceeds Q (sql q) (fun _ => anything).
Proof.
  intros Hq. apply proceeds_sql. intros now d a d' [] _ E. destruct (Hq _ _ _ _ E) as (E1 & E2 & E3).
  split_and!; [|done|].
  - constructor; rewrite ?E1, ?E2; eauto.
  - intros f Hf. left. unfold unused. by rewrite E1, E2.
Qed.

Lemma proceeds_new_family Q user digest expires :
  proceeds Q (CreateRefreshTokenFamily user digest expires) (fun x => owns user x.2).
Proof.
  intros s ([Hs1 Hs2] & Hok & Hf & HQ). unfold CreateRefreshTokenFamily, gen_random_uuid, mbind, SE_bind, sql.
  cbn [tx_uuid tx_next tx_db tx_aborted tx_faults tx_now]. rewrite Hs1.
  destruct (tx_aborted s); [split; simpl; [done|lia]|].
  destruct (next_fault (tx_faults s)) as [[] fs]; [|split; simpl; [done|lia]..].
  destruct (insert_refresh _ _ _ _ _ _ _) as [[id|e] d'] eqn:E; [|destruct e; (split; simpl; [done|lia])].
  destruct (new_family_ok _ _ _ _ _ _ _ _ _ Hok (Hf (S (tx_next s)) ltac:(lia)) E) as [Hok' Ho].
  split_and!; [split; simpl; [done|lia]|done| |done]. simpl. intros k Hk.
  apply insert_refresh_inv in E as (_ & -> & _). destruct (Hf k ltac:(lia)) as [H1 H2]. split; [|done].
  intros i r. simpl. rewrite lookup_insert_Some. intros [[_ <-]|[_ Hi]]; [simpl|eauto]. intros E%Hu. lia.
Qed.
End Keeping.

Section Operations.
Context {P : Primitives} {A : Argon2} {O : Type}.

(** From the body of a transaction to the call around it. *)
Lemma with_tx_keeps {B} t (body : Tx AuthDB (TxEnd B)) :
  (forall u n0, distinct_uuids u -> commits u n0 (fun r => exists b, r = Commit b) anything body) ->
  keeps (auth_inv (O := O)) (with_tx t body).
Proof.
  intros H w [Hu Hok Hf]. unfold with_tx. destruct (next_fault (w_faults w)) as [[] fs]; try done.
  specialize (H (w_uuid w) (w_next w) Hu (mkTx (w_db w) t false (w_uuid w) (w_next w) fs)).
  assert (inside (w_uuid w) (w_next w) anything (mkTx (w_db w) t false (w_uuid w) (w_next w) fs)) as Hi by by split_and!.
  specialize (H Hi).
  assert (forall s o fs, drawn (w_uuid w) (w_next w) s -> auth_inv (mkWorld (O := O) (w_db w) o (w_uuid w) (tx_next s) fs)) as Hback.
  { intros s o fs' [_ Hn]. split; [done..|]. intros k Hk. apply Hf. simpl in *. lia. }
  destruct (body _) as [[[b|b]|e] s]; [|apply (Hback s), (proj1 H)|apply (Hback s), H].
  destruct H as [Hd Hc]. destruct (Hc ltac:(eauto)) as (_ & Hok' & Hf' & _).
  destruct (next_fault (tx_faults s)) as [f' fs']. destruct (tx_aborted s); [by apply Hback|].
  destruct f'; [|by apply Hback|]; by split.
Qed.

Lemma with_tx_call_keeps {B C} t (body : Tx AuthDB (B + C)) f (g : C -> B) :
  (forall u n0, distinct_uuids u -> commits u n0 (fun r => exists c, r = inr c) anything body) ->
  keeps (auth_inv (O := O)) (with_tx_call t body f g).
Proof.
  intros H w [Hu Hok Hf]. unfold with_tx_call. destruct (next_fault (w_faults w)) as [[] fs]; try done.
  specialize (H (w_uuid w) (w_next w) Hu (mkTx (w_db w) t false (w_uuid w) (w_next w) fs)).
  assert (inside (w_uuid w) (w_next w) anything (mkTx (w_db w) t false (w_uuid w) (w_next w) fs)) as Hi by by split_and!.
  specialize (H Hi).
  assert (forall s o fs, drawn (w_uuid w) (w_next w) s -> auth_inv (mkWorld (O := O) (w_db w) o (w_uuid w) (tx_next s) fs)) as Hback.
  { intros s o fs' [_ Hn]. split; [done..|]. intros k Hk. apply Hf. simpl in *. lia. }
  destruct (body _) as [[[b|c]|e] s]; [apply (Hback s), (proj1 H)| |apply (Hback s), H].
  destruct H as [Hd Hc]. destruct (f c (w_ext w)) as [[[]|e] o]; [|by apply Hback].
  destruct (Hc ltac:(eauto)) as (_ & Hok' & Hf' & _).
  destruct (next_fault (tx_faults s)) as [f' fs']. destruct (tx_aborted s); [by apply Hback|].
  destruct f'; [|by apply Hback|]; by split.
Qed.

Section Bodies.
Variable u : nat -> string.
Variable n0 : nat.
Hypothesis Hu : distinct_uuids u.

Lemma persist_proceeds Q user tokens : proceeds u n0 Q (persistNewTokenFamily user tokens) (fun _ => anything).
Proof.
  eapply proceeds_bind; [by apply proceeds_new_family|]. intros [id family]. by apply proceeds_session.
Qed.

Lemma family_proceeds Q family : proceeds u n0 Q (revokeTokenFamily family) (fun _ => anything).
Proof.
  eapply proceeds_bind; [apply proceeds_revoke_refresh|]. intros ?. eapply proceeds_bind; [apply proceeds_revoke_sessions|].
  intros ?. apply proceeds_ret.
Qed.

Lemma user_proceeds Q user : proceeds u n0 Q (revokeUserSessions user) (fun _ => anything).
Proof.
  eapply proceeds_bind; [apply proceeds_revoke_refresh|]. intros ?. eapply proceeds_bind; [apply proceeds_revoke_sessions|].
  intros ?. apply proceeds_ret.
Qed.

(** The three statements of a rotation. *)
Lemma rotation_proceeds id r digest expires :
  usable r ->
  triple (inside u n0 (fun d => refresh_tokens d !! id = Some r))
    (replacementID ← CreateRotatedRefreshToken (rf_user r) (rf_family r) digest expires; MarkRefreshTokenRotated replacementID id)
    (fun n s => drawn u n0 s /\ (n = 1 -> inside u n0 (owns (rf_user r) (rf_family r)) s)) (fun _ => drawn u n0).
Proof.
  intros Hus s ([Hs1 Hs2] & Hok & Hf & Hr). unfold CreateRotatedRefreshToken, MarkRefreshTokenRotated, gen_random_uuid, mbind, SE_bind, sql.
  cbn [tx_uuid tx_next tx_db tx_aborted tx_faults tx_now].
  assert (forall d n a fs, (tx_next s <= n)%nat -> drawn u n0 (mkTx d (tx_now s) a (tx_uuid s) n fs)) as Hd
    by (intros; split; simpl; [done|lia]).
  destruct (tx_aborted s); [apply Hd; lia|].
  destruct (next_fault (tx_faults s)) as [[] fs]; [|apply Hd; lia..].
  destruct (insert_refresh _ _ _ _ _ _ _) as [[by'|e] d1] eqn:E1; [|destruct e; apply Hd; lia]. cbn [tx_aborted tx_faults tx_now tx_db tx_uuid tx_next].
  destruct (next_fault fs) as [[] fs']; [|apply Hd; lia..].
  destruct (mark_rotated _ _ _ _) as [[n|e] d2] eqn:E2; [|destruct e; apply Hd; lia].
  split; [apply Hd; lia|]. intros ->.
  destruct (rotate_ok _ _ _ _ _ _ _ _ _ _ Hok Hr Hus E1 E2) as (Hok2 & Ho & Hs & _ & Ht & _).
  split_and!; [apply Hd; lia|done| |done]. simpl. intros k Hk. destruct (Hf k ltac:(lia)) as [F1 F2].
  split; [|by rewrite Hs]. intros i x. rewrite Ht, !lookup_insert_Some.
  intros [[_ <-]|[_ [[_ <-]|[_ Hi]]]]; [apply (F1 id r Hr)|apply (F1 id r Hr)|by apply (F1 i)].
Qed.

Definition committed {B} (r : TxEnd B) : Prop := exists b, r = Commit b.

Lemma bind_assoc_SE {S B C D} (m : SE S B) (k : B -> SE S C) (l : C -> SE S D) s :
  (m ≫= fun b => k b ≫= l) s = ((m ≫= k) ≫= l) s.
Proof. unfold mbind, SE_bind. by destruct (m s) as [[b|e] s']. Qed.

Lemma refresh_commits now now' random token : commits u n0 committed anything (refresh_tx now now' random token).
Proof.
  eapply commits_try; [apply proceeds_select_one| |intros []; apply quits_throw].
  intros [[id r] user]. destruct (is_null (rf_rotated_at r)) eqn:E1; simpl.
  2: { eapply commits_bind; [apply family_proceeds|]. intros ?. apply commits_ret. }
  destruct (is_null (rf_revoked_at r)) eqn:E2; simpl; [|apply commits_throw].
  destruct (negb _); [apply commits_throw|].
  eapply commits_bind; [apply proceeds_of_res|]. intros tokens. simpl.
  intros s Hs. rewrite bind_assoc_SE.
  eapply (triple_bind (inside u n0 (fun d => refresh_tokens d !! id = Some r))); [apply rotation_proceeds| |].
  - by split; apply is_null_true.
  - intros n. destruct (Z.eqb_spec n 1) as [->|Hn]; simpl; [|by intros s' [? _]].
    intros s' [_ Hin]. specialize (Hin eq_refl). revert s' Hin.
    eapply commits_bind; [by apply proceeds_session|]. intros ?. apply commits_ret.
  - destruct Hs as (H1 & H2 & H3 & _ & now0 & Hq). split_and!; [done..|].
    unfold refresh_by_digest in Hq. destruct (find_row _ _) as [[id' r']|] eqn:Ef; [|done].
    apply find_row_some in Ef as [Ef _]. destruct (users (tx_db s) !! rf_user r'); [|done]. by injection Hq as -> -> ->.
Qed.

Lemma logout_commits now token all : commits u n0 committed anything (logout_tx now token all).
Proof.
  eapply commits_try; [apply proceeds_select_one| |].
  - intros [[id r] user]. eapply commits_bind; [|intros ?; apply commits_ret].
    destruct (_ && _); [apply user_proceeds|apply family_proceeds].
  - intros []; try apply quits_throw. apply quits_ret. by intros [? [=]].
Qed.

Lemma insert_is_some (m : gmap string UserRow) i x id : is_Some (m !! id) -> is_Some (<[i := x]> m !! id).
Proof. intros [y Hy]. destruct (decide (i = id)) as [->|]; [rewrite lookup_insert_eq|rewrite lookup_insert_ne]; eauto. Qed.

Lemma invalidate_proceeds Q user : proceeds u n0 Q (InvalidateActivePasswordResetTokens user) (fun _ => anything).
Proof.
  apply proceeds_elsewhere. intros now d a d'. destruct (stamp_rows _ _ _ _ _) as [[n|e] m]; [|done]. by intros [= _ <-].
Qed.

Lemma consume_elsewhere now p id d a d' : consume now p id d = (Ok a, d') ->
  refresh_tokens d' = refresh_tokens d /\ auth_sessions d' = auth_sessions d /\ users d' = users d.
Proof. unfold consume. repeat (case_match; try done); by intros [= _ <-]. Qed.

Lemma reset_proceeds Q id hash : proceeds u n0 Q (CompletePasswordReset id hash) (fun _ => anything).
Proof.
  apply proceeds_elsewhere. intros now d a d'. unfold complete_reset.
  destruct (consume now PasswordReset id d) as [[[user|]|e] d1] eqn:E; [| |done];
    apply consume_elsewhere in E as (E1 & E2 & E3).
  - destruct (users d1 !! user) eqn:Eu; [|intros [= _ <-]; by rewrite E3].
    destruct (String.eqb hash ""); [done|]. intros [= _ <-]. simpl. rewrite E1, E2, E3. split_and!; [done..|].
    intros. by apply insert_is_some.
  - intros [= _ <-]. by rewrite E3.
Qed.

Lemma verified_proceeds Q id : proceeds u n0 Q (CompleteEmailVerification id) (fun _ => anything).
Proof.
  apply proceeds_elsewhere. intros now d a d'. unfold complete_verification.
  destruct (consume now EmailVerification id d) as [[[user|]|e] d1] eqn:E; [|done..];
    apply consume_elsewhere in E as (E1 & E2 & E3).
  destruct (users d1 !! user) eqn:Eu; [|done]. intros [= _ <-]. simpl. rewrite E1, E2, E3. split_and!; [done..|].
  intros. by apply insert_is_some.
Qed.

Lemma action_proceeds Q user p digest expires :
  proceeds u n0 Q (id ← gen_random_uuid; sql (fun now => create_action now id user p digest expires)) (fun _ => anything).
Proof.
  eapply proceeds_bind; [apply proceeds_uuid|]. intros id. apply proceeds_elsewhere. intros now d a d'.
  unfold create_action. repeat (case_match; try done). by intros [= _ <-].
Qed.

Lemma create_user_proceeds Q email hash : proceeds u n0 Q (CreateUser email hash) (fun _ => anything).
Proof.
  eapply proceeds_bind; [apply proceeds_uuid|]. intros id. apply proceeds_elsewhere. intros now d a d'.
  unfold create_user. repeat (case_match; try done). intros [= _ <-]. split_and!; [done..|]. intros. by apply insert_is_some.
Qed.

Lemma reset_commits now hash token : commits u n0 committed anything (reset_tx now hash token).
Proof.
  eapply commits_try; [apply proceeds_select_one| |intros []; apply quits_throw].
  intros [id r]. destruct (_ || _); [apply commits_throw|].
  eapply commits_bind; [apply reset_proceeds|]. intros n. destruct (negb _); [apply commits_throw|].
  eapply commits_bind; [apply invalidate_proceeds|]. intros ?.
  eapply commits_bind; [apply user_proceeds|]. intros ?. apply commits_ret.
Qed.

(** Deletions: any of the sessions, and whole families. *)
Lemma delete_ok d d' :
  auth_ok d -> auth_sessions d' ⊆ auth_sessions d -> refresh_tokens d' ⊆ refresh_tokens d -> users d' = users d ->
  (forall i r j r', refresh_tokens d' !! i = Some r -> refresh_tokens d !! j = Some r' -> rf_family r' = rf_family r ->
     refresh_tokens d' !! j = Some r') ->
  auth_ok d' /\ forall f, unused f d -> unused f d'.
Proof.
  intros [H1 H2 H3 H4 H5 H6 H7 H8 H9] Hs Hr Hus Hclosed. rewrite map_subseteq_spec in Hs. rewrite map_subseteq_spec in Hr. split.
  - constructor; rewrite ?Hus; eauto.
    intros i r j Hi Hj. destruct (H4 i r j (Hr _ _ Hi) Hj) as (r' & Hr' & E). eauto.
  - intros f [F1 F2]. split; eauto.
Qed.

Lemma foldr_delete_subseteq {R} (ids : list string) (m : gmap string R) : foldr delete m ids ⊆ m.
Proof. induction ids as [|i ids IH]; simpl; [done|]. etransitivity; [apply delete_subseteq|done]. Qed.

Lemma cleanup_commits : commits u n0 committed anything (
    accessCount ← DeleteExpiredOrRevokedAccessTokens cleanupAccessBatch;
    refreshCount ← DeleteExpiredRefreshTokenFamilies cleanupFamilyBatch;
    mret (Commit (accessCount + refreshCount))).
Proof.
  eapply (commits_bind _ _ _ _ _ _ (fun _ => anything)).
  { apply proceeds_sql. intros now d a d' Hok _ [= _ <-].
    destruct (delete_ok d (on_sessions (fun m => foldr delete m (old_sessions now (Z.to_nat cleanupAccessBatch) d)) d)) as [??];
      try done; [apply foldr_delete_subseteq|]. split_and!; [done|exact I|auto]. }
  intros ?. eapply (commits_bind _ _ _ _ _ _ (fun _ => anything)); [|intros ?; apply commits_ret].
  apply proceeds_sql. intros now d n d' Hok _. cbv zeta. case_match; [done|]. intros [= _ <-].
  match goal with |- context [on_refresh ?f d] => destruct (delete_ok d (on_refresh f d)) as [Hok' Hun]; try done end.
  - apply map_filter_subseteq.
  - intros i r j r' Hi Hj E. simpl in *. apply map_lookup_filter_Some in Hi as [Hi Hg]. apply map_lookup_filter_Some.
    split; [done|]. simpl in *. by rewrite E.
  - split_and!; [done|exact I|auto].
Qed.
End Bodies.

Variable ParseAddress : string -> option string.
Variable SendVerification : option (string -> string -> O -> res () * O).
Variable SendPasswordReset : option (string -> string -> O -> res () * O).

Lemma query_keeps {B} t (q : Z -> AuthDB -> option B) : keeps (auth_inv (O := O)) (query t (select_one q)).
Proof.
  apply with_tx_keeps. intros u n0 Hu. eapply commits_bind; [apply proceeds_select_one|]. intros ?. apply commits_ret.
Qed.

Lemma Signup_keeps t now now' random salt verification email password :
  keeps auth_inv (Signup ParseAddress SendVerification t now now' random salt verification email password).
Proof.
  do 3 (apply keeps_bind; [apply keeps_of_res|intros ?]). apply with_tx_call_keeps. intros u n0 Hu.
  eapply commits_try; [apply create_user_proceeds| |intros []; apply quits_throw]. intros [id row].
  eapply commits_bind; [by apply persist_proceeds|]. intros ?.
  eapply commits_bind; [apply proceeds_of_res|]. intros [[token digest] expires].
  eapply commits_bind; [apply action_proceeds|]. intros ?. apply commits_ret.
Qed.

Lemma Login_keeps t now random email password : keeps (auth_inv (O := O)) (Login ParseAddress t now random email password).
Proof.
  apply keeps_bind; [apply keeps_of_res|intros ?]. apply keeps_bind; [apply keeps_try, query_keeps|].
  intros [[id row]|[]]; try apply keeps_throw. destruct (negb _); [apply keeps_throw|].
  apply keeps_bind; [|intros ?; apply keeps_ret]. apply keeps_bind; [apply keeps_of_res|intros tokens].
  apply with_tx_keeps. intros u n0 Hu. eapply commits_bind; [by apply persist_proceeds|]. intros ?. apply commits_ret.
Qed.

Lemma VerifyEmail_keeps t now token : keeps (auth_inv (O := O)) (VerifyEmail t now token).
Proof.
  unfold VerifyEmail. destruct (negb _); [apply keeps_throw|]. apply with_tx_keeps. intros u n0 Hu.
  eapply commits_try; [apply proceeds_select_one| |intros []; apply quits_throw]. intros [id r].
  destruct (_ || _); [apply commits_throw|].
  eapply commits_try; [apply verified_proceeds| |intros []; apply quits_throw]. intros [us row]. apply commits_ret.
Qed.

Lemma ForgotPassword_keeps t now random email : keeps auth_inv (ForgotPassword ParseAddress SendPasswordReset t now random email).
Proof.
  apply keeps_bind; [apply keeps_of_res|intros ?]. apply with_tx_call_keeps. intros u n0 Hu.
  eapply commits_try; [apply proceeds_select_one| |].
  - intros [id row]. eapply commits_bind; [apply invalidate_proceeds|]. intros ?.
    eapply commits_bind; [apply proceeds_of_res|]. intros [[token digest] expires].
    eapply commits_bind; [apply action_proceeds|]. intros ?. apply commits_ret.
  - intros []; try apply quits_throw. apply quits_ret. by intros [? [=]].
Qed.
End Operations.

(** ** Every sequence of calls *)

(** One call of the service, with the faults the database shows it. *)
Inductive auth_step {P : Primitives} {A : Argon2} {O : Type} : World AuthDB O -> World AuthDB O -> Prop :=
| step_faults w fs : auth_step w (mkWorld (w_db w) (w_ext w) (w_uuid w) (w_next w) fs)
| step_signup w pa send t now now' random salt verification email password :
    auth_step w (Signup pa send t now now' random salt verification email password w).2
| step_login w pa t now random email password : auth_step w (Login pa t now random email password w).2
| step_authenticate w t token : auth_step w (Authenticate t token w).2
| step_refresh w t now now' random token : auth_step w (Refresh t now now' random token w).2
| step_logout w t now token all : auth_step w (Logout t now token all w).2
| step_cleanup w t : auth_step w (CleanupSessions t w).2
| step_verify w t now token : auth_step w (VerifyEmail t now token w).2
| step_forgot w pa send t now random email : auth_step w (ForgotPassword pa send t now random email w).2
| step_reset w t now salt token password : auth_step w (ResetPassword t now salt token password w).2.

Lemma auth_step_keeps {P : Primitives} {A : Argon2} {O} (w w' : World AuthDB O) : auth_step w w' -> auth_inv w -> auth_inv w'.
Proof.
  intros H Hw. destruct H; try (apply keeps_final; [|done]).
  - destruct Hw. by split.
  - apply Signup_keeps.
  - apply Login_keeps.
  - unfold Authenticate. destruct (negb _); [apply keeps_throw|]. apply keeps_bind; [apply keeps_try, query_keeps|].
    intros [[id row]|[]]; try apply keeps_throw. apply keeps_ret.
  - unfold Refresh. destruct (negb _); [apply keeps_throw|]. apply keeps_bind; [|intros ?; apply keeps_of_res].
    apply with_tx_keeps. intros. apply refresh_commits.
  - unfold Logout. destruct (negb _); [apply keeps_ret|]. apply with_tx_keeps. intros. apply logout_commits.
  - apply with_tx_keeps. intros. apply cleanup_commits.
  - apply VerifyEmail_keeps.
  - apply ForgotPassword_keeps.
  - unfold ResetPassword. destruct (negb _); [apply keeps_throw|]. do 2 (apply keeps_bind; [apply keeps_of_res|intros ?]).
    apply with_tx_keeps. intros. apply reset_commits.
Qed.

(** C31: whatever calls are made and whatever fails in them, a session family stays a
    chain: it belongs to one user, its access tokens too, at most one of its refresh
    tokens can still be used, and every rotated token names a successor of the family. *)
Theorem families_stay_chains {P : Primitives} {A : Argon2} {O} (w w' : World AuthDB O) :
  auth_inv w -> rtc auth_step w w' ->
  forall i r, refresh_tokens (w_db w') !! i = Some r ->
    (forall j r', refresh_tokens (w_db w') !! j = Some r' -> rf_family r' = rf_family r ->
       rf_user r' = rf_user r /\ (usable r -> usable r' -> j = i)) /\
    (forall j s, auth_sessions (w_db w') !! j = Some s -> ss_family s = rf_family r -> ss_user s = rf_user r) /\
    (is_Some (rf_rotated_at r) -> exists j r', rf_replaced_by r = Some j /\ refresh_tokens (w_db w') !! j = Some r' /\
       rf_family r' = rf_family r).
Proof.
  intros Hw Hr i r Hi. assert (auth_inv w') as [_ [H1 H2 H3 H4 H5 _ _ _ _] _].
  { clear Hi. induction Hr as [|w w1 w2 Hs _ IH]; [done|]. eauto using auth_step_keeps. }
  split_and!; eauto.
  - intros j s Hj E. symmetry. eauto.
  - intros (j & Hj)%(H5 _ _ Hi). destruct (H4 _ _ _ Hi Hj) as (r' & ? & ?). eauto.
Qed.

(** ** Revocation *)

Definition revoked_refresh (now : Z) (chosen : RefreshRow -> bool) (r : RefreshRow) : RefreshRow :=
  if chosen r && is_null (rf_revoked_at r) then set_rf_revoked now r else r.
Definition revoked_session (now : Z) (chosen : SessionRow -> bool) (r : SessionRow) : SessionRow :=
  if chosen r && is_null (ss_revoked_at r) then set_ss_revoked now r else r.

(** The tables after the tokens chosen by both tests are revoked. *)
Definition revoke_all (now : Z) (cr : RefreshRow -> bool) (cs : SessionRow -> bool) (d : AuthDB) : AuthDB :=
  on_sessions (fmap (revoked_session now cs)) (on_refresh (fmap (revoked_refresh now cr)) d).

(** No chosen token was created after [now]. *)
Definition created_by (now : Z) (cr : RefreshRow -> bool) (cs : SessionRow -> bool) (d : AuthDB) : Prop :=
  (forall i r, refresh_tokens d !! i = Some r -> cr r = true -> rf_created_at r <= now) /\
  (forall i s, auth_sessions d !! i = Some s -> cs s = true -> ss_created_at s <= now).

Lemma revoke_both_run cr cs (s : TxState AuthDB) :
  quiet s -> created_by (tx_now s) cr cs (tx_db s) ->
  (_ ← revoke_refresh cr; _ ← revoke_sessions cs; mret ()) s =
  (Ok (), set_tx_db (revoke_all (tx_now s) cr cs (tx_db s)) s).
Proof.
  intros Hq [H1 H2]. unfold mbind at 1, SE_bind at 1. unfold revoke_refresh, revoke_sessions.
  destruct (stamp_rows_runs (fun x => cr x && is_null (rf_revoked_at x)) rf_created_at set_rf_revoked (tx_now s) (refresh_tokens (tx_db s)))
    as [n E]. { intros i r Hr Hc. apply andb_true_iff in Hc as [Hc _]. eauto. }
  erewrite sql_quiet; [|done|by rewrite E]. unfold mbind, SE_bind.
  destruct (stamp_rows_runs (fun x => cs x && is_null (ss_revoked_at x)) ss_created_at set_ss_revoked (tx_now s) (auth_sessions (tx_db s)))
    as [n' E']. { intros i r Hr Hc. apply andb_true_iff in Hc as [Hc _]. eauto. }
  erewrite sql_quiet; [done|done|]. simpl. by rewrite E'.
Qed.

Lemma revoke_both_ok cr cs (s s' : TxState AuthDB) u :
  (_ ← revoke_refresh cr; _ ← revoke_sessions cs; mret ()) s = (Ok u, s') ->
  tx_db s' = revoke_all (tx_now s) cr cs (tx_db s) /\ tx_now s' = tx_now s.
Proof.
  intros (n & s1 & [E1 N1]%sql_ok & H)%bind_ok. apply bind_ok in H as (n' & s2 & [E2 N2]%sql_ok & H).
  apply ret_ok in H as [_ <-]. rewrite N1 in *.
  destruct (stamp_rows (fun x => cr x && is_null (rf_revoked_at x)) _ _ _ _) as [[k|] m] eqn:F1; [|done].
  apply stamp_rows_ok in F1 as [-> _]. injection E1 as _ E1. rewrite <- E1 in E2. simpl in E2.
  destruct (stamp_rows (fun x => cs x && is_null (ss_revoked_at x)) _ _ _ _) as [[k'|] m'] eqn:F2; [|done].
  apply stamp_rows_ok in F2 as [-> _]. injection E2 as _ E2. rewrite <- E2. by split; [|congruence].
Qed.

(** What it means for the tables. *)
Lemma revoke_all_refresh now cr cs d i r' :
  (forall r t, cr (set_rf_revoked t r) = cr r) ->
  refresh_tokens (revoke_all now cr cs d) !! i = Some r' ->
  exists r, refresh_tokens d !! i = Some r /\ if cr r then is_Some (rf_revoked_at r') /\ cr r' = true else r' = r.
Proof.
  intros Hc. simpl. rewrite lookup_fmap. destruct (refresh_tokens d !! i) as [r|] eqn:Er; [|done]. intros [= <-].
  exists r. split; [done|]. unfold revoked_refresh. destruct (cr r) eqn:Ec; simpl; [|done].
  destruct (is_null (rf_revoked_at r)) eqn:En; [|split; [by apply is_null_false|done]]. split; [by eexists|by rewrite Hc].
Qed.

Lemma revoke_all_session now cr cs d i s' :
  (forall s t, cs (set_ss_revoked t s) = cs s) ->
  auth_sessions (revoke_all now cr cs d) !! i = Some s' ->
  exists s, auth_sessions d !! i = Some s /\ if cs s then is_Some (ss_revoked_at s') /\ cs s' = true else s' = s.
Proof.
  intros Hc. simpl. rewrite lookup_fmap. destruct (auth_sessions d !! i) as [s|] eqn:Es; [|done]. intros [= <-].
  exists s. split; [done|]. unfold revoked_session. destruct (cs s) eqn:Ec; simpl; [|done].
  destruct (is_null (ss_revoked_at s)) eqn:En; [|split; [by apply is_null_false|done]]. split; [by eexists|by rewrite Hc].
Qed.

Definition in_family (f : string) (r : RefreshRow) : bool := String.eqb (rf_family r) f.
Definition session_in (f : string) (s : SessionRow) : bool := String.eqb (ss_family s) f.
Definition of_user (us : string) (r : RefreshRow) : bool := String.eqb (rf_user r) us.
Definition session_of (us : string) (s : SessionRow) : bool := String.eqb (ss_user s) us.

(** The row of a refresh token. *)
Definition token_row {P : Primitives} (token id : string) (r : RefreshRow) (d : AuthDB) : Prop :=
  refresh_tokens d !! id = Some r /\ rf_digest r = tokenDigest token.

Lemma lock_finds {P : Primitives} token id r d :
  auth_ok d -> token_row token id r d -> exists us, refresh_by_digest (tokenDigest token) d = Some (id, r, us) /\ users d !! rf_user r = Some us.
Proof.
  intros [_ _ _ _ _ H6 _ H8 _] [Hr Hd]. unfold refresh_by_digest. destruct (H8 _ _ Hr) as [us Hus]. exists us.
  erewrite (find_row_unique _ _ id r); [by rewrite Hus|done|by rewrite Hd, String.eqb_refl|].
  intros j r' Hj E%String.eqb_eq. symmetry. eapply H6; eauto. congruence.
Qed.

(** A refresh token that was already exchanged ends its session.  Presented again, it
    is refused like any invalid token and every access and refresh token of its family
    is revoked; no other family is touched. *)
Theorem Refresh_replay {P : Primitives} {O} t now now' random token id r (w : World AuthDB O) :
  auth_ok (w_db w) -> w_faults w = [] -> validRefreshToken token = true ->
  token_row token id r (w_db w) -> is_Some (rf_rotated_at r) ->
  created_by t (in_family (rf_family r)) (session_in (rf_family r)) (w_db w) ->
  exists w', Refresh t now now' random token w = (Err ErrInvalidRefreshToken, w') /\
    w_db w' = revoke_all t (in_family (rf_family r)) (session_in (rf_family r)) (w_db w) /\
    (forall i r', refresh_tokens (w_db w') !! i = Some r' ->
       if String.eqb (rf_family r') (rf_family r) then is_Some (rf_revoked_at r') else refresh_tokens (w_db w) !! i = Some r') /\
    (forall i s', auth_sessions (w_db w') !! i = Some s' ->
       if String.eqb (ss_family s') (rf_family r) then is_Some (ss_revoked_at s') else auth_sessions (w_db w) !! i = Some s').
Proof.
  intros Hok Hf Hv Hrow [t' Hrot] Hc. destruct (lock_finds token id r _ Hok Hrow) as (us & Hl & _).
  set (s := mkTx (w_db w) t false (w_uuid w) (w_next w) []).
  assert (quiet s) as Hq by done.
  assert (refresh_tx now now' random token s = (Ok (Commit (Err ErrInvalidRefreshToken)),
    set_tx_db (revoke_all t (in_family (rf_family r)) (session_in (rf_family r)) (w_db w)) s)) as Hrun.
  { unfold refresh_tx. unfold mbind at 1, SE_bind at 1.
    unfold LockRefreshTokenForRotation. rewrite (try_select_one_run _ s (id, r, us)) by done.
    rewrite Hrot. cbn [is_null negb]. unfold revokeTokenFamily, RevokeRefreshTokenFamily, RevokeAccessTokenFamily.
    unfold mbind at 1, SE_bind at 1. erewrite (revoke_both_run (in_family (rf_family r)) (session_in (rf_family r))); done. }
  unfold Refresh. rewrite Hv. cbn [negb]. unfold mbind, SE_bind. rewrite (with_tx_run _ _ _ _ _ Hf Hrun) by done.
  eexists. split; [reflexivity|]. split; [done|]. cbn [w_db set_tx_db tx_db]. split.
  - intros i r' (r0 & Hr0 & H)%revoke_all_refresh; [|done]. unfold in_family in H.
    destruct (String.eqb (rf_family r0) (rf_family r)) eqn:E; [destruct H as [H ->]; done|subst r'; by rewrite E].
  - intros i s' (s0 & Hs0 & H)%revoke_all_session; [|done]. unfold session_in in H.
    destruct (String.eqb (ss_family s0) (rf_family r)) eqn:E; [destruct H as [H ->]; done|subst s'; by rewrite E].
Qed.

(** The check that no token is revoked before it was created can save a replayed
    session.  A transaction is dated by its beginning; when the replay began before the
    exchange it lost the race to, the successor is younger than the revocation, the
    statement is refused, the whole answer is an error and nothing is revoked. *)
Theorem early_replay_revokes_nothing {P : Primitives} {O} t now now' random token id r i r' (w : World AuthDB O) :
  auth_ok (w_db w) -> w_faults w = [] -> validRefreshToken token = true ->
  token_row token id r (w_db w) -> is_Some (rf_rotated_at r) ->
  refresh_tokens (w_db w) !! i = Some r' -> rf_family r' = rf_family r -> rf_revoked_at r' = None -> t < rf_created_at r' ->
  exists w', Refresh t now now' random token w = (Err ErrCheckViolation, w') /\ w_db w' = w_db w.
Proof.
  intros Hok Hf Hv Hrow [t' Hrot] Hi Hfam Hn Ht. destruct (lock_finds token id r _ Hok Hrow) as (us & Hl & _).
  unfold Refresh. rewrite Hv. cbn [negb]. unfold mbind at 1, SE_bind at 1. unfold with_tx. rewrite Hf. cbn [next_fault].
  set (s := mkTx (w_db w) t false (w_uuid w) (w_next w) []).
  assert (quiet s) as Hq by done. unfold refresh_tx. unfold mbind at 1, SE_bind at 1.
  unfold LockRefreshTokenForRotation. rewrite (try_select_one_run _ s (id, r, us)) by done.
  rewrite Hrot. cbn [is_null negb]. unfold revokeTokenFamily, RevokeRefreshTokenFamily, revoke_refresh.
  unfold mbind, SE_bind.
  assert (exists_row (fun x => (String.eqb (rf_family x) (rf_family r) && is_null (rf_revoked_at x)) && (t <? rf_created_at x))
    (refresh_tokens (w_db w)) = true) as Hex.
  { apply not_false_iff_true. rewrite exists_row_false. intros H. specialize (H i r' Hi).
    rewrite Hfam, String.eqb_refl, Hn in H. simpl in H. lia. }
  erewrite (sql_quiet_err _ s ErrCheckViolation); [by eexists|done| |done]. simpl. unfold stamp_rows. by rewrite Hex.
Qed.

(** ** A session that works *)

Lemma insert_refresh_runs now id user family digest expires d :
  slen digest = 32 -> now < expires -> is_Some (users d !! user) -> refresh_tokens d !! id = None ->
  (forall i r, refresh_tokens d !! i = Some r -> rf_digest r <> digest) ->
  insert_refresh now id user family digest expires d =
  (Ok id, on_refresh <[id := mkRefresh user family digest expires None None None now]> d).
Proof.
  intros Hd He [us Hus] Hi Hn. unfold insert_refresh. rewrite Hd, (proj2 (Z.ltb_lt _ _) He), Hus, Hi. simpl.
  rewrite (proj2 (exists_row_false _ _)); [done|]. intros i r Hr. apply String.eqb_neq. eauto.
Qed.

Lemma create_session_runs now id user family digest expires d :
  slen digest = 32 -> now < expires -> is_Some (users d !! user) -> auth_sessions d !! id = None ->
  (forall i s, auth_sessions d !! i = Some s -> ss_digest s <> digest) ->
  create_session now id user family digest expires d =
  (Ok (), on_sessions <[id := mkSession user family digest expires None now]> d).
Proof.
  intros Hd He [us Hus] Hi Hn. unfold create_session. rewrite Hd, (proj2 (Z.ltb_lt _ _) He), Hus, Hi. simpl.
  rewrite (proj2 (exists_row_false _ _)); [done|]. intros i r Hr. apply String.eqb_neq. eauto.
Qed.

(** Authentication with the token of a live session. *)
Lemma Authenticate_session {P : Primitives} {O} t token (w : World AuthDB O) i s us :
  w_faults w = [] -> validAccessToken token = true -> auth_sessions (w_db w) !! i = Some s ->
  ss_digest s = tokenDigest token -> t < ss_expires_at s -> ss_revoked_at s = None ->
  (forall j s', auth_sessions (w_db w) !! j = Some s' -> ss_digest s' = tokenDigest token -> j = i) ->
  users (w_db w) !! ss_user s = Some us -> (Authenticate t token w).1 = Ok (user_view (ss_user s) us).
Proof.
  intros Hf Hv Hs Hd Ht Hn Hu Hus. unfold Authenticate. rewrite Hv. cbn [negb].
  set (s0 := mkTx (w_db w) t false (w_uuid w) (w_next w) []).
  assert (user_by_session t (tokenDigest token) (w_db w) = Some (ss_user s, us)) as Hq.
  { unfold user_by_session. erewrite (find_row_unique _ _ i s); [by rewrite Hus|done| |].
    - rewrite Hd, String.eqb_refl, Hn, (proj2 (Z.ltb_lt _ _) Ht). done.
    - intros j s' Hj E. rewrite !andb_true_iff, String.eqb_eq in E. apply (Hu j s'); [done|apply E]. }
  unfold mbind, SE_bind, try_, query. erewrite with_tx_run; [|exact Hf| |].
  2: { unfold mbind, SE_bind, GetUserByAuthSession, select_one. erewrite sql_quiet; [reflexivity|done|]. simpl. by rewrite Hq. }
  2: { done. }
  reflexivity.
Qed.

Definition access_of (raw : bytes) : string := accessTokenPrefix +:+ rawurl_encode raw.
Definition refresh_of (raw : bytes) : string := refreshTokenPrefix +:+ rawurl_encode raw.

(** Exchanging the current refresh token of a session works and moves the session on.
    The answer carries a new pair of tokens for the same user; the new access token
    authenticates that user until it expires, the new refresh token is the usable one of
    the family, and the old one is marked as exchanged. *)
Theorem Refresh_rotates {P : Primitives} {L : PrimitiveLaws} {O} t now now' a b token id r us (w : World AuthDB O) :
  auth_ok (w_db w) -> w_faults w = [] -> validRefreshToken token = true ->
  token_row token id r (w_db w) -> usable r -> users (w_db w) !! rf_user r = Some us ->
  now < rf_expires_at r -> rf_created_at r <= t < truncate_micros now' + accessTokenLifetime ->
  slen a = 32 -> slen b = 32 ->
  (forall i x, refresh_tokens (w_db w) !! i = Some x -> rf_digest x <> tokenDigest (refresh_of b)) ->
  (forall i x, auth_sessions (w_db w) !! i = Some x -> ss_digest x <> tokenDigest (access_of a)) ->
  refresh_tokens (w_db w) !! w_uuid w (w_next w) = None -> auth_sessions (w_db w) !! w_uuid w (S (w_next w)) = None ->
  exists w', Refresh t now now' (mkDraws (Ok a) (Ok b)) token w =
      (Ok (mkAuthResult (user_view (rf_user r) us)
             (mkSessionView (access_of a) (truncate_micros now' + accessTokenLifetime)
                (refresh_of b) (truncate_micros now' + refreshTokenLifetime))), w') /\
    (exists r1, refresh_tokens (w_db w') !! id = Some r1 /\ is_Some (rf_rotated_at r1)) /\
    (exists j r2, token_row (refresh_of b) j r2 (w_db w') /\ usable r2 /\ rf_family r2 = rf_family r /\ rf_user r2 = rf_user r) /\
    forall t2, t2 < truncate_micros now' + accessTokenLifetime ->
      (Authenticate t2 (access_of a) w').1 = Ok (user_view (rf_user r) us).
Proof.
  intros Hok Hf Hv Hrow [Hrot Hrev] Hus Hexp [Hc Ht] Ha Hb Hnd Hns Hid1 Hid2.
  destruct (lock_finds token id r _ Hok Hrow) as (us' & Hl & Hus'). rewrite Hus in Hus'. injection Hus' as <-.
  destruct Hrow as [Hr Hdig].
  set (s := mkTx (w_db w) t false (w_uuid w) (w_next w) []).
  set (id1 := w_uuid w (w_next w)) in *. set (id2 := w_uuid w (S (w_next w))) in *.
  set (new := mkRefresh (rf_user r) (rf_family r) (tokenDigest (refresh_of b)) (truncate_micros now' + refreshTokenLifetime) None None None t).
  set (d1 := on_refresh <[id1 := new]> (w_db w)).
  set (d2 := on_refresh <[id := set_rf_rotated t id1 r]> d1).
  set (sess := mkSession (rf_user r) (rf_family r) (tokenDigest (access_of a)) (truncate_micros now' + accessTokenLifetime) None t).
  set (d3 := on_sessions <[id2 := sess]> d2).
  assert (id <> id1) as Hne by (intros ->; by rewrite Hid1 in Hr).
  assert (refresh_tx now now' (mkDraws (Ok a) (Ok b)) token s =
    (Ok (Commit (Ok (mkAuthResult (user_view (rf_user r) us)
       (mkSessionView (access_of a) (truncate_micros now' + accessTokenLifetime)
         (refresh_of b) (truncate_micros now' + refreshTokenLifetime))))),
     mkTx d3 t false (w_uuid w) (S (S (w_next w))) [])) as Hrun.
  { unfold refresh_tx. unfold mbind at 1, SE_bind at 1. unfold LockRefreshTokenForRotation.
    rewrite (try_select_one_run _ s (id, r, us)) by done. rewrite Hrot, Hrev. cbn [is_null negb orb]. unfold after.
    rewrite (proj2 (Z.ltb_lt _ _) Hexp). cbn [negb].
    unfold CreateRotatedRefreshToken, MarkRefreshTokenRotated, createAccessToken, CreateAuthSession, gen_random_uuid, mbind, SE_bind.
    cbn [of_res issueTokenPair newAccessToken newRefreshToken newOpaqueTokenFrom dr_access dr_refresh s tx_uuid tx_next tx_db tx_now tx_aborted tx_faults
      tp_RefreshDigest tp_RefreshExpiresAt tp_AccessDigest tp_AccessExpiresAt].
    fold id1.
    erewrite sql_quiet; [|done|cbn [tx_now tx_db]; apply insert_refresh_runs; [apply sha256_length|unfold refreshTokenLifetime, accessTokenLifetime, hour, minute, second in *; unfold time_add; lia|by eexists|done|exact Hnd]].
    erewrite sql_quiet; [|done|].
    2: { cbn [set_tx_db tx_now tx_db]. unfold mark_rotated. cbn [refresh_tokens on_refresh]. rewrite lookup_insert_ne, Hr by done.
         rewrite Hrot, Hrev. cbn [is_null andb]. rewrite (proj2 (Z.ltb_ge _ _) Hc), lookup_insert_eq. reflexivity. }
    cbn [Z.eqb Pos.eqb negb set_tx_db tx_uuid tx_next tx_db tx_now tx_aborted tx_faults]. fold id2.
    erewrite sql_quiet; [|done|cbn [tx_now tx_db]; apply create_session_runs; [apply sha256_length|exact Ht|by eexists|exact Hid2|exact Hns]].
    reflexivity. }
  unfold Refresh. rewrite Hv. cbn [negb]. unfold mbind, SE_bind. rewrite (with_tx_run _ _ _ _ _ Hf Hrun) by done.
  eexists. split; [reflexivity|]. cbn [w_db tx_db]. split_and!.
  - eexists. split; [apply lookup_insert_eq|]. by eexists.
  - exists id1, new. split_and!; try done. split; [|done]. simpl. by rewrite lookup_insert_ne, lookup_insert_eq by done.
  - intros t2 Ht2. change (rf_user r) with (ss_user sess) at 1.
    apply (Authenticate_session _ _ _ id2); try done.
    + unfold validAccessToken. destruct (new_token_valid a accessTokenPrefix Ha) as (tk & [= <- _] & Htk). exact Htk.
    + apply lookup_insert_eq.
    + simpl. intros j s'. rewrite lookup_insert_Some. intros [[? _]|[_ Hj]] E; [done|]. by apply Hns in Hj.
Qed.

(** ** Password reset *)

Lemma invalidate_ok user (s s' : TxState AuthDB) n :
  InvalidateActivePasswordResetTokens user s = (Ok n, s') ->
  tx_now s' = tx_now s /\ users (tx_db s') = users (tx_db s) /\ refresh_tokens (tx_db s') = refresh_tokens (tx_db s) /\
  auth_sessions (tx_db s') = auth_sessions (tx_db s) /\
  forall i x, user_action_tokens (tx_db s') !! i = Some x -> ut_user x = user -> ut_purpose x = PasswordReset -> is_Some (ut_used_at x).
Proof.
  intros [E N]%sql_ok. destruct (stamp_rows _ _ _ _ _) as [[k|] m] eqn:F; [|done]. injection E as _ <-.
  apply stamp_rows_ok in F as [-> _]. split_and!; try done. simpl. intros i x. rewrite lookup_fmap.
  destruct (user_action_tokens (tx_db s) !! i) as [y|]; [|done]. intros [= <-].
  destruct (String.eqb (ut_user y) user && bool_decide (ut_purpose y = PasswordReset) && is_null (ut_used_at y)) eqn:Ec; [by eexists|].
  intros Hu Hp. rewrite Hu, Hp, String.eqb_refl, bool_decide_true in Ec by done. by apply is_null_false.
Qed.

Lemma complete_reset_ok id hash now d d' :
  complete_reset now id hash d = (Ok 1, d') ->
  exists r u, user_action_tokens d !! id = Some r /\ ut_purpose r = PasswordReset /\ ut_used_at r = None /\
    users d !! ut_user r = Some u /\ users d' = <[ut_user r := mkUser (us_email u) hash (us_email_verified_at u)]> (users d) /\
    refresh_tokens d' = refresh_tokens d /\ auth_sessions d' = auth_sessions d.
Proof.
  unfold complete_reset, consume. destruct (user_action_tokens d !! id) as [r|] eqn:Er; [|done].
  destruct (bool_decide (ut_purpose r = PasswordReset)) eqn:Ep; [|done]. simpl.
  destruct (is_null (ut_used_at r)) eqn:En; [|done]. destruct (_ <? _); [done|]. simpl.
  destruct (users d !! ut_user r) as [u|] eqn:Eu; [|done]. destruct (String.eqb hash ""); [done|]. intros [= <-].
  exists r, u. split_and!; try done; [by apply bool_decide_eq_true in Ep|by apply is_null_true].
Qed.

Lemma reset_tx_ok {P : Primitives} now hash token (s s' : TxState AuthDB) end_ :
  reset_tx now hash token s = (Ok end_, s') -> exists id r u d,
    end_ = Commit () /\ user_action_tokens (tx_db s) !! id = Some r /\ ut_digest r = tokenDigest token /\
    ut_purpose r = PasswordReset /\ ut_used_at r = None /\ now < ut_expires_at r /\
    users (tx_db s) !! ut_user r = Some u /\
    users (tx_db s') = <[ut_user r := mkUser (us_email u) hash (us_email_verified_at u)]> (users (tx_db s)) /\
    refresh_tokens d = refresh_tokens (tx_db s) /\ auth_sessions d = auth_sessions (tx_db s) /\
    tx_db s' = revoke_all (tx_now s) (of_user (ut_user r)) (session_of (ut_user r)) d /\
    forall i x, user_action_tokens (tx_db s') !! i = Some x -> ut_user x = ut_user r -> ut_purpose x = PasswordReset -> is_Some (ut_used_at x).
Proof.
  intros H. apply bind_ok in H as (stored & s1 & H1 & H). apply try_select_one_ok in H1 as [[Hd1 Hn1] H1].
  destruct stored as [[id r]|e]; [|destruct e; done]. unfold action_by_digest in H1.
  apply find_row_some in H1 as [Hr Hf]. apply andb_true_iff in Hf as [Hp Hd].
  apply bool_decide_eq_true in Hp. apply String.eqb_eq in Hd.
  destruct (is_null (ut_used_at r)) eqn:En; [|done]. cbn [negb orb] in H. unfold after in H.
  destruct (Z.ltb_spec now (ut_expires_at r)) as [He|]; [|done]. cbn [negb] in H.
  apply bind_ok in H as (n & s2 & [H2 Hn2]%sql_ok & H). destruct (Z.eqb_spec n 1) as [->|]; [|done]. cbn [negb] in H.
  rewrite Hd1, Hn1 in *. apply complete_reset_ok in H2 as (r' & u & Hr' & _ & _ & Hu & Hus & Hrf & Hss).
  rewrite Hr in Hr'. injection Hr' as <-.
  apply bind_ok in H as (k & s3 & (Hn3 & Hus3 & Hrf3 & Hss3 & Hact)%invalidate_ok & H).
  apply bind_ok in H as ([] & s4 & (Hdb & Hn4)%(revoke_both_ok (of_user (ut_user r)) (session_of (ut_user r))) & H).
  apply ret_ok in H as [<- <-].
  exists id, r, u, (tx_db s3). split_and!; try done.
  - by apply is_null_true.
  - by rewrite Hdb; simpl; rewrite Hus3, Hus.
  - by rewrite Hrf3, Hrf.
  - by rewrite Hss3, Hss.
  - rewrite Hdb. f_equal. congruence.
  - rewrite Hdb. exact Hact.
Qed.

(** A password reset that succeeds used a reset token that was issued, unused and not
    expired, and locks everybody else out: the user's password is the new one, every
    access and refresh token of the user is revoked and no reset token of the user is
    left; nothing of another user changes. *)
Theorem ResetPassword_ends_sessions {P : Primitives} {A : Argon2} {O} t now salt token newPassword (w w' : World AuthDB O) :
  slen salt = argonSaltLength ->
  ResetPassword t now (Ok salt) token newPassword w = (Ok (), w') -> exists id r u,
    user_action_tokens (w_db w) !! id = Some r /\ ut_digest r = tokenDigest token /\ ut_used_at r = None /\ now < ut_expires_at r /\
    users (w_db w') !! ut_user r = Some u /\ verifyPassword newPassword (us_password_hash u) = true /\
    (forall v, v <> ut_user r -> users (w_db w') !! v = users (w_db w) !! v) /\
    (forall i x, refresh_tokens (w_db w') !! i = Some x ->
       if String.eqb (rf_user x) (ut_user r) then is_Some (rf_revoked_at x) else refresh_tokens (w_db w) !! i = Some x) /\
    (forall i x, auth_sessions (w_db w') !! i = Some x ->
       if String.eqb (ss_user x) (ut_user r) then is_Some (ss_revoked_at x) else auth_sessions (w_db w) !! i = Some x) /\
    (forall i x, user_action_tokens (w_db w') !! i = Some x -> ut_user x = ut_user r -> ut_purpose x = PasswordReset -> is_Some (ut_used_at x)).
Proof.
  intros Hs. unfold ResetPassword. destruct (validPasswordResetToken token); [|done]. cbn [negb].
  intros (? & w1 & [_ ->]%of_res_ok & H)%bind_ok. apply bind_ok in H as (hash & w2 & [[= <-] ->]%of_res_ok & H).
  apply with_tx_ok in H as (_ & fs & s & H).
  assert (exists end_, reset_tx now (encodePassword newPassword salt) token (mkTx (w_db w) t false (w_uuid w) (w_next w) fs) = (Ok end_, s) /\
    (end_ = Commit () -> w_db w' = tx_db s)) as (end_ & Hrun & Hdb) by (destruct H as [(H & _ & Hd)|(H & Hd)]; eexists; (split; [exact H|done])).
  apply reset_tx_ok in Hrun as (id & r & u & d & -> & Hr & Hd & _ & Hn & He & Hu & Hus & Hrf & Hss & Hall & Hact).
  simpl in *. rewrite (Hdb eq_refl) in *. eexists id, r, _. split_and!; try done.
  - rewrite Hus. apply lookup_insert_eq.
  - simpl. unfold verifyPassword. by rewrite parse_encode, String.eqb_refl.
  - intros v Hv. by rewrite Hus, lookup_insert_ne.
  - rewrite Hall. intros i z (y & Hy & Hx)%revoke_all_refresh; [|done]. rewrite Hrf in Hy. unfold of_user in Hx.
    destruct (String.eqb (rf_user y) (ut_user r)) eqn:E; [destruct Hx as [Hx ->]; done|subst z; by rewrite E].
  - rewrite Hall. intros i z (y & Hy & Hx)%revoke_all_session; [|done]. rewrite Hss in Hy. unfold session_of in Hx.
    destruct (String.eqb (ss_user y) (ut_user r)) eqn:E; [destruct Hx as [Hx ->]; done|subst z; by rewrite E].
Qed.

(** ** One account *)

Module OneAccount.
(** A digest that keeps the beginning of a text. *)
#[global] Instance primitives : Primitives := {|
  cbor_job := @cbor_job Toy.primitives; cbor_attributes := @cbor_attributes Toy.primitives;
  cbor_signed_job := @cbor_signed_job Toy.primitives; cbor_sealed_job := @cbor_sealed_job Toy.primitives;
  cbor_result := @cbor_result Toy.primitives; cbor_signed_result := @cbor_signed_result Toy.primitives;
  cbor_expired := @cbor_expired Toy.primitives; cbor_signed_expired := @cbor_signed_expired Toy.primitives;
  sha256 m := stake 32 (m +:+ Toy.rep 32 " ");
  ed25519_public := @ed25519_public Toy.primitives; ed25519_sign := @ed25519_sign Toy.primitives;
  ed25519_verify := @ed25519_verify Toy.primitives; x25519_public := @x25519_public Toy.primitives;
  x25519_key_ok := @x25519_key_ok Toy.primitives; x25519_ecdh := @x25519_ecdh Toy.primitives;
  hkdf_sha256 := @hkdf_sha256 Toy.primitives; gcm_seal := @gcm_seal Toy.primitives; gcm_open := @gcm_open Toy.primitives
|}.

#[global] Instance account_laws : PrimitiveLaws.
Proof.
  destruct Toy.laws. constructor; try done.
  intros m. change (sha256 m) with (stake 32 (m +:+ Toy.rep 32 " ")). unfold slen.
  rewrite length_stake; [done|]. rewrite length_append, length_rep. lia.
Qed.

Definition uuid (n : nat) : string := String "g" (Toy.rep n "x").
Lemma uuid_distinct : distinct_uuids uuid.
Proof. intros k l [= E]. rewrite <- (length_rep k "x"), <- (length_rep l "x"). by rewrite E. Qed.

Definition old_token : string := refresh_of (Toy.rep 32 "a").
Definition new_token : string := refresh_of (Toy.rep 32 "b").
Definition owner : UserRow := mkUser "me@example.test" "hash" None.
Definition old_row : RefreshRow := mkRefresh "u1" "f1" (tokenDigest old_token) (1000 * second) (Some (20 * second)) None (Some "r2") (10 * second).
Definition new_row : RefreshRow := mkRefresh "u1" "f1" (tokenDigest new_token) (1000 * second) None None None (20 * second).
Definition reset_token : string := passwordResetTokenPrefix +:+ rawurl_encode (Toy.rep 32 "c").
Definition reset_row : ActionRow := mkActionToken "u1" PasswordReset (tokenDigest reset_token) (1000 * second) None (10 * second).
Definition db : AuthDB := mkAuthDB {[ "u1" := owner ]} ∅ (<["r1" := old_row]> {[ "r2" := new_row ]}) {[ "a1" := reset_row ]}.
Definition world : World AuthDB () := mkWorld db () uuid 0 [].

Lemma account_ok : auth_ok db.
Proof.
  assert (forall i r, refresh_tokens db !! i = Some r -> i = "r1" /\ r = old_row \/ i = "r2" /\ r = new_row) as H.
  { intros i r. simpl. rewrite lookup_insert_Some, lookup_singleton_Some. intros [[<- <-]|[_ [<- <-]]]; auto. }
  assert (forall i s, auth_sessions db !! i = Some s -> False) as H0 by (intros i s; simpl; by rewrite lookup_empty).
  constructor; intros *; try (intros []%H0); try (intros _ []%H0).
  - intros [[-> ->]|[-> ->]]%H [[-> ->]|[-> ->]]%H; done.
  - intros [[-> ->]|[-> ->]]%H [[-> ->]|[-> ->]]%H _ [U1 U2] [V1 V2]; done.
  - intros [[-> ->]|[-> ->]]%H; [intros [= <-]; by exists new_row|done].
  - intros [[-> ->]|[-> ->]]%H; simpl; split; intros [? ?]; try done; by eexists.
  - intros [[-> ->]|[-> ->]]%H [[-> ->]|[-> ->]]%H; try done; intros E; vm_compute in E; discriminate E.
  - intros [[-> ->]|[-> ->]]%H; by eexists.
Qed.

Lemma account_inv : auth_inv world.
Proof.
  split; [apply uuid_distinct|apply account_ok|]. intros k _. split; [|intros ? ?; simpl; by rewrite lookup_empty].
  intros i r. simpl. rewrite lookup_insert_Some, lookup_singleton_Some. by intros [[<- <-]|[_ [<- <-]]].
Qed.
End OneAccount.

Lemma families_stay_chains_witness :
  let w' := (CleanupSessions (30 * second) OneAccount.world).2 in
  refresh_tokens (w_db w') !! "r1" = Some OneAccount.old_row /\ refresh_tokens (w_db w') !! "r2" = Some OneAccount.new_row /\
  rf_user OneAccount.new_row = rf_user OneAccount.old_row.
Proof.
  intros w'. assert (refresh_tokens (w_db w') !! "r1" = Some OneAccount.old_row) as H1 by (vm_compute; reflexivity).
  assert (refresh_tokens (w_db w') !! "r2" = Some OneAccount.new_row) as H2 by (vm_compute; reflexivity).
  split; [exact H1|]. split; [exact H2|].
  apply (proj1 (families_stay_chains (P := OneAccount.primitives) (A := ToyArgon.argon)
    OneAccount.world w' OneAccount.account_inv (rtc_once _ _ (step_cleanup _ _)) "r1" OneAccount.old_row H1)
    "r2" OneAccount.new_row H2 eq_refl).
Defined.

Lemma Refresh_replay_witness :
  exists w', Refresh (P := OneAccount.primitives) (30 * second) (30 * second) (30 * second)
      (mkDraws (Ok "") (Ok "")) OneAccount.old_token OneAccount.world = (Err ErrInvalidRefreshToken, w') /\
    (rf_revoked_at <$> refresh_tokens (w_db w') !! "r2") = Some (Some (30 * second)).
Proof.
  destruct (Refresh_replay (P := OneAccount.primitives) (30 * second) (30 * second) (30 * second)
    (mkDraws (Ok "") (Ok "")) OneAccount.old_token "r1" OneAccount.old_row OneAccount.world OneAccount.account_ok)
    as (w' & H1 & H2 & _).
  - reflexivity.
  - vm_compute. reflexivity.
  - split; reflexivity.
  - by eexists.
  - split; [|intros ? ?; simpl; by rewrite lookup_empty]. intros i r. simpl.
    rewrite lookup_insert_Some, lookup_singleton_Some. intros [[<- <-]|[_ [<- <-]]] _; vm_compute; discriminate.
  - exists w'. split; [exact H1|]. rewrite H2. vm_compute. reflexivity.
Defined.

Lemma early_replay_revokes_nothing_witness :
  exists w', Refresh (P := OneAccount.primitives) (15 * second) (30 * second) (30 * second)
      (mkDraws (Ok "") (Ok "")) OneAccount.old_token OneAccount.world = (Err ErrCheckViolation, w') /\ w_db w' = OneAccount.db.
Proof.
  apply (early_replay_revokes_nothing (P := OneAccount.primitives) (15 * second) (30 * second) (30 * second)
    (mkDraws (Ok "") (Ok "")) OneAccount.old_token "r1" OneAccount.old_row "r2" OneAccount.new_row OneAccount.world OneAccount.account_ok);
    first [reflexivity|vm_compute; reflexivity|split; reflexivity|by eexists].
Defined.

Lemma Refresh_rotates_witness :
  exists w' answer, Refresh (P := OneAccount.primitives) (30 * second) (30 * second) (30 * second)
      (mkDraws (Ok (Toy.rep 32 "d")) (Ok (Toy.rep 32 "e"))) OneAccount.new_token OneAccount.world = (Ok answer, w') /\
    (Authenticate (P := OneAccount.primitives) (60 * second) (access_of (Toy.rep 32 "d")) w').1 =
      Ok (mkUserView "u1" "me@example.test" false).
Proof.
  destruct (Refresh_rotates (P := OneAccount.primitives) (L := OneAccount.account_laws) (30 * second) (30 * second) (30 * second)
    (Toy.rep 32 "d") (Toy.rep 32 "e") OneAccount.new_token "r2" OneAccount.new_row OneAccount.owner OneAccount.world OneAccount.account_ok)
    as (w' & H1 & _ & _ & H4); try (vm_compute; reflexivity); try (split; reflexivity).
  - vm_compute. split; [discriminate|reflexivity].
  - intros i x. simpl. rewrite lookup_insert_Some, lookup_singleton_Some.
    intros [[_ <-]|[_ [_ <-]]] E; vm_compute in E; discriminate E.
  - intros i x. simpl. by rewrite lookup_empty.
  - exists w'. eexists. split; [exact H1|]. apply (H4 (60 * second)). vm_compute. reflexivity.
Defined.

Lemma ResetPassword_ends_sessions_witness :
  let w' := (ResetPassword (P := OneAccount.primitives) (A := ToyArgon.argon) (30 * second) (30 * second)
    (Ok "0123456789abcdef") OneAccount.reset_token "a new password" OneAccount.world).2 in
  exists u, users (w_db w') !! "u1" = Some u /\ verifyPassword "a new password" (us_password_hash u) = true.
Proof.
  intros w'. destruct (ResetPassword_ends_sessions (P := OneAccount.primitives) (A := ToyArgon.argon) (30 * second) (30 * second)
    "0123456789abcdef" OneAccount.reset_token "a new password" OneAccount.world w') as (id & r & u & Hr & _ & _ & _ & Hu & Hv & _).
  - reflexivity.
  - vm_compute. reflexivity.
  - exists u. split; [|exact Hv]. simpl in Hr. apply lookup_singleton_Some in Hr as [_ <-]. exact Hu.
Defined.
