(* ===== verification/Monitors.v ===== *)
(** * Monitor configuration (src/internal/monitor, with the queries of monitors.sql.go)

    Members create, change, pause, resume, delete and test monitors.  Every change bumps
    the version of the monitor, and closes and opens schedule periods: the intervals of
    time over which a report expects checks.  [ConfigDB] is the tables of the engine with
    what only this package reads: names and dates of monitors, environments and the
    deletion dates of organizations.

    [hashtextextended] of PostgreSQL and [url.Parse] are arguments.  Identifiers come from
    a request and are cast to uuid ([as_uuid]) on entry; those that come back from the
    database are cast already.  A null bytea is the empty string, as in [pgtype].

    The theorems: under any sequence of changes and scheduler passes, the periods of a
    monitor tile the time it was active, and the next slot of the scheduler lies on the
    grid of the open one, so that what is scheduled is what a report expects, once; only
    a member that may manage monitors changes anything, and only the monitor named. *)

From stdpp Require Import base gmap list strings sorting.
From Stdlib Require Import ZArith Lia Ascii String Bool.
From S2P Require Import Prelude Tx Store Bytes Envelope Sealing Scheduler Reliability Notification.
From S2P Require Import Authorization Incident Destination HttpClient.
Import Secureheaders.

(** ** Errors and limits *)

Definition ErrInvalidMonitor : error := ErrorsNew "invalid monitor input".
Definition ErrEnvironmentNotFound : error := ErrorsNew "environment not found".
Definition ErrMonitorLimitReached : error := ErrorsNew "organization monitor limit reached".
Definition ErrMonitorNotFound : error := ErrorsNew "monitor not found".
Definition ErrManualQueueFull : error := ErrorsNew "manual check queue limit reached".
Definition ErrQueueUnavailable : error := ErrorsNew "monitor queue unavailable".
Definition ErrDenied : error := ErrorsNew "permission denied".

Definition DefaultIntervalSeconds : Z := 300.
Definition DefaultTimeoutSeconds : Z := 5.
Definition DefaultExpectedStatusMin : Z := 200.
Definition DefaultExpectedStatusMax : Z := 299.
Definition maximumMonitorNameBytes : Z := 120.
Definition maximumTargetURLBytes : Z := 2048.
Definition maximumMonitorsPerOrg : Z := 100.

Definition allowedIntervals : list Z := [60; 120; 300; 600; 1800].

(** ** Patterns *)

Definition in_range_char (lo hi : Z) (c : ascii) : bool := (lo <=? val_of c) && (val_of c <=? hi).
Definition hex_char (c : ascii) : bool := in_range_char 48 57 c || in_range_char 97 102 c || in_range_char 65 70 c.

(** [^[0-9a-fA-F]{8}-[0-9a-fA-F]{4}-[1-5][0-9a-fA-F]{3}-[89abAB][0-9a-fA-F]{3}-[0-9a-fA-F]{12}$]:
    what the pattern asks of each position. *)
Definition uuid_position (i : nat) : ascii -> bool :=
  if hyphen_at (Z.of_nat i) then fun c => Ascii.eqb c "-"
  else if (i =? 14)%nat then in_range_char 49 53
  else if (i =? 19)%nat then contains_char "89abAB"
  else hex_char.

Fixpoint match_positions (p : nat -> ascii -> bool) (i : nat) (s : string) : bool :=
  match s with
  | "" => true
  | String c r => p i c && match_positions p (S i) r
  end.

Definition uuidPattern (s : string) : bool := (slen s =? 36) && match_positions uuid_position 0 s.

(** [^[a-z0-9][a-z0-9_-]{0,62}$]. *)
Definition pool_char (c : ascii) : bool := in_range_char 97 122 c || in_range_char 48 57 c.
Definition poolPattern (s : string) : bool :=
  match s with
  | "" => false
  | String c r => pool_char c && (slen r <=? 62) &&
      forall_char (fun c => pool_char c || Ascii.eqb c "_" || Ascii.eqb c "-") r
  end.

(** [strings.ToUpper] on ASCII. *)
Fixpoint ToUpper (s : string) : string :=
  match s with "" => "" | String c r => String (upper_byte c) (ToUpper r) end.

(** ** Tables *)

(** The columns of monitors that the engine does not read. *)
Record MonitorInfo : Type := mkInfo { mi_name : string; mi_created_at : Z; mi_updated_at : Z }.

Record ConfigDB : Type := mkConfig {
  engine : DB;
  monitor_info : gmap string MonitorInfo;
  environments : gmap string string;             (* the organization of each *)
  organizations : gmap string (option Z)         (* deleted_at *)
}.

Definition on_engine (f : DB -> DB) (d : ConfigDB) : ConfigDB :=
  mkConfig (f (engine d)) (monitor_info d) (environments d) (organizations d).

(** A statement on the tables of the engine. *)
Definition lift {A} (m : Tx DB A) : Tx ConfigDB A := fun s =>
  let '(r, s') := m (mkTx (engine (tx_db s)) (tx_now s) (tx_aborted s) (tx_uuid s) (tx_next s) (tx_faults s)) in
  (r, mkTx (on_engine (fun _ => tx_db s') (tx_db s)) (tx_now s') (tx_aborted s') (tx_uuid s') (tx_next s') (tx_faults s')).

Definition set_mon_config (url method : string) (interval timeout min max : Z) (headers : bytes) (key : option Z)
    (pool : string) (next : Z) (r : Monitor) : Monitor :=
  mkMonitor (mon_organization_id r) (mon_environment_id r) (mon_version r + 1) url method interval timeout min max
    next headers key pool (mon_paused_at r) (mon_deleted_at r).

(** The CHECK constraints of a row of monitors. *)
Definition headers_check (c : bytes) (v : option Z) : bool :=
  match v with
  | None => String.eqb c ""
  | Some v => negb (String.eqb c "") && (slen c <=? 16384) && (0 <? v)
  end.

Definition monitor_check (i : MonitorInfo) (r : Monitor) : bool :=
  negb (String.eqb (btrim (mi_name i)) "") && (slen (mi_name i) <=? 120) &&
  negb (String.eqb (btrim (mon_target_url r)) "") && (slen (mon_target_url r) <=? 2048) &&
  (String.eqb (mon_method r) "GET" || String.eqb (mon_method r) "HEAD") &&
  bool_decide (mon_interval_seconds r ∈ allowedIntervals) &&
  (1 <=? mon_timeout_seconds r) && (mon_timeout_seconds r <=? 10) &&
  (100 <=? mon_expected_status_min r) && (mon_expected_status_min r <=? 599) &&
  (100 <=? mon_expected_status_max r) && (mon_expected_status_max r <=? 599) &&
  (mon_expected_status_min r <=? mon_expected_status_max r) &&
  (0 <? mon_version r) && headers_check (mon_headers_ciphertext r) (mon_header_key_version r).

(** Writing a row: its checks, the range of bigint, and the reference to its pool. *)
Definition write_monitor (id : string) (r : Monitor) (i : MonitorInfo) (d : ConfigDB) : res () * ConfigDB :=
  if max_int64 <? mon_version r then (Err ErrDatabase, d)
  else if negb (monitor_check i r) then (Err ErrCheckViolation, d)
  else match worker_pools (engine d) !! mon_worker_pool_id r with
       | None => (Err ErrForeignKeyViolation, d)
       | Some _ => (Ok (), mkConfig (on_monitors <[id := r]> (engine d)) (<[id := i]> (monitor_info d))
                             (environments d) (organizations d))
       end.

Definition monitor_row (id : string) (d : ConfigDB) : option (Monitor * MonitorInfo) :=
  match monitors (engine d) !! id, monitor_info d !! id with
  | Some r, Some i => Some (r, i)
  | _, _ => None
  end.

(** ** Statements *)

Section Statements.
Context (hashtextextended : string -> Z).

(** [CURRENT_TIMESTAMP + mod(hashtextextended(id::text, 0) & 2147483647, interval) * INTERVAL '1 second']. *)
Definition first_slot (now : Z) (id : string) (interval : Z) : Z :=
  now + Z.rem (Z.land (hashtextextended id) 2147483647) interval * second.

Definition environment_role (user env : string) (d : ConfigDB) : option (string * Role) :=
  org ← environments d !! env;
  deleted ← organizations d !! org;
  match deleted with
  | Some _ => None
  | None => (fun m => (org, role_text (om_role m))) <$> org_members (engine d) !! (org, user)
  end.
Definition LockEnvironmentForMonitorCreation (user env : string) : Tx ConfigDB (string * Role) :=
  select_one (fun _ => environment_role user env).
Definition GetAccessibleEnvironmentOrganization (user env : string) : Tx ConfigDB (string * Role) :=
  select_one (fun _ => environment_role user env).

Definition live_in (org : string) (r : Monitor) : Prop := mon_organization_id r = org /\ mon_deleted_at r = None.
#[global] Instance live_in_dec org r : Decision (live_in org r).
Proof. unfold live_in. apply _. Defined.

Definition organization_monitors (org : string) (d : DB) : Z :=
  Z.of_nat (Datatypes.length (filter (fun x => live_in org x.2) (map_to_list (monitors d)))).
Definition CountOrganizationMonitors (org : string) : Tx ConfigDB Z :=
  select (fun _ d => organization_monitors org (engine d)).

Definition new_monitor (now : Z) (org env url : string) (interval timeout min max : Z) : Monitor :=
  mkMonitor org env 1 url "GET" interval timeout min max now "" None "hosted" None None.

Definition create_monitor (now : Z) (id org env name url : string) (interval timeout min max : Z) (d : ConfigDB) :
    res (string * Monitor * MonitorInfo) * ConfigDB :=
  let r := new_monitor now org env url interval timeout min max in
  let i := mkInfo name now now in
  match environments d !! env with
  | Some o =>
      if negb (String.eqb o org) then (Err ErrForeignKeyViolation, d) else
      match monitors (engine d) !! id with
      | Some _ => (Err ErrUniqueViolation, d)
      | None =>
          match write_monitor id r i d with
          | (Ok _, d') => (Ok (id, r, i), d')
          | (Err e, d') => (Err e, d')
          end
      end
  | None => (Err ErrForeignKeyViolation, d)
  end.
Definition CreateMonitor (org env name url : string) (interval timeout min max : Z) : Tx ConfigDB (string * Monitor * MonitorInfo) :=
  id ← gen_random_uuid; sql (fun now => create_monitor now id org env name url interval timeout min max).

Definition store_secure (now : Z) (method : string) (headers : bytes) (key : option Z) (pool id : string) (d : ConfigDB) :
    res () * ConfigDB :=
  match monitor_row id d with
  | None => (Ok (), d)
  | Some (r, i) =>
      write_monitor id (mkMonitor (mon_organization_id r) (mon_environment_id r) (mon_version r) (mon_target_url r) method
        (mon_interval_seconds r) (mon_timeout_seconds r) (mon_expected_status_min r) (mon_expected_status_max r)
        (first_slot now id (mon_interval_seconds r)) headers key pool (mon_paused_at r) (mon_deleted_at r)) i d
  end.
Definition StoreSecureMonitorConfiguration (method : string) (headers : bytes) (key : option Z) (pool id : string) : Tx ConfigDB () :=
  sql (fun now => store_secure now method headers key pool id).

(** *** Schedule periods *)

Definition open_of (m : string) (p : SchedulePeriod) : bool :=
  String.eqb (per_monitor_id p) m && match per_ends_at p with None => true | Some _ => false end.

Definition open_period (now : Z) (m : string) (d : DB) : res () * DB :=
  match monitors d !! m with
  | None => (Ok (), d)
  | Some r =>
      if negb (bool_decide (mon_interval_seconds r ∈ allowedIntervals)) || (mon_next_check_at r <? now) || (mon_version r <? 1)
      then (Err ErrCheckViolation, d)
      else if existsb (open_of m) (schedule_periods d) then (Err ErrUniqueViolation, d)
      else (Ok (), on_schedule_periods (fun l => l ++ [mkSchedulePeriod m (mon_interval_seconds r) now (mon_next_check_at r) None]) d)
  end.
Definition OpenMonitorSchedulePeriod (m : string) : Tx DB () := sql (fun now => open_period now m).

Definition ended (now : Z) (p : SchedulePeriod) : SchedulePeriod :=
  mkSchedulePeriod (per_monitor_id p) (per_interval_seconds p) (per_starts_at p) (per_first_slot_at p) (Some now).
Definition close_period (now : Z) (m : string) (d : DB) : res () * DB :=
  if existsb (fun p => open_of m p && (now <? per_starts_at p)) (schedule_periods d) then (Err ErrCheckViolation, d)
  else (Ok (), on_schedule_periods (fun l => (fun p => if open_of m p then ended now p else p) <$> l) d).
Definition CloseMonitorSchedulePeriod (m : string) : Tx DB () := sql (fun now => close_period now m).

(** *** Managed monitors *)

Record managedMonitor : Type := mkManaged { mm_ID : string; mm_row : Monitor; mm_role : Role }.

Definition managed (user env m : string) (d : ConfigDB) : option managedMonitor :=
  r ← monitors (engine d) !! m;
  member ← org_members (engine d) !! (mon_organization_id r, user);
  if String.eqb (mon_environment_id r) env && bool_decide (mon_deleted_at r = None)
  then Some (mkManaged m r (role_text (om_role member))) else None.
Definition LockManagedMonitor (user env m : string) : Tx ConfigDB managedMonitor :=
  select_one (fun _ => managed user env m).

(** The row an update by tenant, environment and identifier finds. *)
Definition tenant_row (org env m : string) (d : ConfigDB) : option (Monitor * MonitorInfo) :=
  x ← monitor_row m d;
  if String.eqb (mon_organization_id x.1) org && String.eqb (mon_environment_id x.1) env
     && bool_decide (mon_deleted_at x.1 = None) then Some x else None.

(** [UPDATE ... RETURNING]: no row is [ErrNoRows]. *)
Definition returning (id : string) (x : option (Monitor * MonitorInfo)) (f : Monitor -> MonitorInfo -> Monitor * MonitorInfo)
    (d : ConfigDB) : res (string * Monitor * MonitorInfo) * ConfigDB :=
  match x with
  | None => (Err ErrNoRows, d)
  | Some (r, i) =>
      let '(r', i') := f r i in
      match write_monitor id r' i' d with
      | (Ok _, d') => (Ok (id, r', i'), d')
      | (Err e, d') => (Err e, d')
      end
  end.

Definition UpdateManagedMonitor (name url method : string) (interval timeout min max : Z) (headers : bytes) (key : option Z)
    (pool org env m : string) : Tx ConfigDB (string * Monitor * MonitorInfo) := sql (fun now d =>
  returning m (tenant_row org env m d) (fun r i =>
    (set_mon_config url method interval timeout min max headers key pool
       (match mon_paused_at r with None => first_slot now m interval | Some _ => mon_next_check_at r end) r,
     mkInfo name (mi_created_at i) now)) d).

Definition paused_row (now : Z) (m : string) (paused : bool) (r : Monitor) : Monitor :=
  mkMonitor (mon_organization_id r) (mon_environment_id r) (mon_version r + 1) (mon_target_url r) (mon_method r)
    (mon_interval_seconds r) (mon_timeout_seconds r) (mon_expected_status_min r) (mon_expected_status_max r)
    (if paused then mon_next_check_at r else first_slot now m (mon_interval_seconds r))
    (mon_headers_ciphertext r) (mon_header_key_version r) (mon_worker_pool_id r)
    (if paused then Some now else None) (mon_deleted_at r).
Definition SetManagedMonitorPaused (paused : bool) (org env m : string) : Tx ConfigDB (string * Monitor * MonitorInfo) :=
  sql (fun now d => returning m (tenant_row org env m d) (fun r i =>
    (paused_row now m paused r, mkInfo (mi_name i) (mi_created_at i) now)) d).

Definition deleted_row (now : Z) (r : Monitor) : Monitor :=
  mkMonitor (mon_organization_id r) (mon_environment_id r) (mon_version r + 1) (mon_target_url r) (mon_method r)
    (mon_interval_seconds r) (mon_timeout_seconds r) (mon_expected_status_min r) (mon_expected_status_max r)
    (mon_next_check_at r) (mon_headers_ciphertext r) (mon_header_key_version r) (mon_worker_pool_id r)
    (mon_paused_at r) (Some now).
Definition SoftDeleteMonitor (org env m : string) : Tx ConfigDB Z := sql (fun now d =>
  match tenant_row org env m d with
  | None => (Ok 0, d)
  | Some (r, i) =>
      match write_monitor m (deleted_row now r) (mkInfo (mi_name i) (mi_created_at i) now) d with
      | (Ok _, d') => (Ok 1, d')
      | (Err e, d') => (Err e, d')
      end
  end).

(** The event names its tenant, which the foreign keys ask to exist. *)
Definition refresh_event (org env event resource id : string) (d : ConfigDB) : res () * ConfigDB :=
  if bool_decide (is_Some (organizations d !! org)) && bool_decide (environments d !! env = Some org)
  then (Ok (), on_engine (on_refresh_events (fun l => l ++ [mkRefreshEvent org env event resource id])) d)
  else (Err ErrForeignKeyViolation, d).
Definition InsertMonitorRefreshEvent (org env event resource id : string) : Tx ConfigDB () :=
  sql (fun _ => refresh_event org env event resource id).
Definition recordRefresh := InsertMonitorRefreshEvent.

(** *** Manual tests *)

Definition AcquireManualTestQueueLock : Tx DB () := select (fun _ _ => ()).
Definition active_manual (j : CheckJob) : Prop := cj_job_type j = ManualTest /\ active (cj_state j) = true.
#[global] Instance active_manual_dec j : Decision (active_manual j).
Proof. unfold active_manual. apply _. Defined.
Definition manual_jobs (d : DB) : Z :=
  Z.of_nat (Datatypes.length (filter (fun x => active_manual x.2) (map_to_list (check_jobs d)))).
Definition CountActiveManualTestJobs : Tx DB Z := select (fun _ => manual_jobs).

Definition overdue (now : Z) (r : Monitor) : bool :=
  bool_decide (mon_paused_at r = None) && bool_decide (mon_deleted_at r = None) && (mon_next_check_at r <? now - 30 * second).
Definition HasScheduledQueuePressure : Tx DB bool := select (fun now d =>
  existsb (fun x => overdue now x.2) (map_to_list (monitors d)) || (900 <=? Z.of_nat (Datatypes.length (active_jobs d)))).

Definition GetManualDispatchWorkerPool (pool : string) (schema : Z) : Tx DB WorkerPool := select_one (fun _ d =>
  match worker_pools d !! pool with
  | Some p => if pool_active p && (wp_schema_min p <=? schema) && (schema <=? wp_schema_max p) then Some p else None
  | None => None
  end).
Definition NewManualJobID : Tx DB string := u ← gen_random_uuid; select (fun _ _ => u).

Definition create_manual (now : Z) (job org env m : string) (at_ version : Z) (pool : string) (hash : bytes) (expires : Z) (d : DB) :
    res string * DB :=
  if decide (slot_taken d m at_ \/ is_Some (check_jobs d !! job)) then (Err ErrUniqueViolation, d)
  else (Ok job, on_check_jobs <[job := mkCheckJob org env m ManualTest JPendingPublish at_ None None now
                  version pool hash expires None None None None]> d).
Definition CreateManualCheckJob (job org env m : string) (at_ version : Z) (pool : string) (hash : bytes) (expires : Z) : Tx DB string :=
  sql (fun now => create_manual now job org env m at_ version pool hash expires).
Definition CreateManualDispatchOutbox := CreateScheduledDispatchOutbox.

(** *** Reads *)

Definition GetEnvironmentMonitor (org env m : string) : Tx ConfigDB (string * Monitor * MonitorInfo) :=
  select_one (fun _ d => (fun x => (m, x.1, x.2)) <$> tenant_row org env m d).

(** [ORDER BY created_at, id LIMIT 100]. *)
Definition ListEnvironmentMonitors (org env : string) : Tx ConfigDB (list (string * Monitor * MonitorInfo)) :=
  select (fun _ d =>
    (fun x => (x.1.2, x.2.1, x.2.2)) <$> take 100 (order_by_key (omap (fun y =>
      (fun x => ((mi_created_at x.2, y.1), x)) <$> tenant_row org env y.1 d) (map_to_list (monitors (engine d)))))).

Definition GetDurableMonitorState (org env m : string) : Tx ConfigDB observed_state := select_one (fun _ d =>
  r ← monitors (engine d) !! m;
  if String.eqb (mon_organization_id r) org && String.eqb (mon_environment_id r) env
  then rs_display_state <$> reliability_states (engine d) !! m else None).

(** [ORDER BY scheduled_at DESC, job_id LIMIT 20]. *)
Definition ListRecentMonitorResults (org env m : string) : Tx ConfigDB (list (string * HealthCheck)) := select (fun _ d =>
  (fun x => (x.1.2, x.2)) <$> take 20 (order_by_key ((fun x => ((- hc_scheduled_at x.2, x.1), x.2)) <$>
    filter (fun x => hc_organization_id x.2 = org /\ hc_environment_id x.2 = env /\ hc_monitor_id x.2 = m)
      (map_to_list (health_checks (engine d)))))).
End Statements.

(** ** The service *)

Record CreateInput : Type := mkInput {
  in_Name : string;
  in_TargetURL : string;
  in_IntervalSeconds : Z;
  in_TimeoutSeconds : Z;
  in_ExpectedStatusMin : Z;
  in_ExpectedStatusMax : Z;
  in_Method : string;
  in_Headers : gmap string string;
  in_WorkerPoolID : string
}.

(** monitor.Monitor, what the API returns. *)
Record View : Type := mkView {
  v_ID : string;
  v_OrganizationID : string;
  v_EnvironmentID : string;
  v_Name : string;
  v_TargetURL : string;
  v_Method : string;
  v_IntervalSeconds : Z;
  v_TimeoutSeconds : Z;
  v_ExpectedStatusMin : Z;
  v_ExpectedStatusMax : Z;
  v_CreatedAt : Z;
  v_UpdatedAt : Z;
  v_Version : Z;
  v_Paused : bool;
  v_WorkerPoolID : string;
  v_HeaderNames : list string
}.

Definition view (id : string) (r : Monitor) (i : MonitorInfo) (names : list string) : View :=
  mkView id (mon_organization_id r) (mon_environment_id r) (mi_name i) (mon_target_url r) (mon_method r)
    (mon_interval_seconds r) (mon_timeout_seconds r) (mon_expected_status_min r) (mon_expected_status_max r)
    (mi_created_at i) (mi_updated_at i) (mon_version r) (bool_decide (is_Some (mon_paused_at r))) (mon_worker_pool_id r) names.

Record CheckResult : Type := mkCheckResult {
  cr_JobID : string;
  cr_JobType : job_type;
  cr_ScheduledAt : Z;
  cr_StartedAt : Z;
  cr_CompletedAt : Z;
  cr_Succeeded : bool;
  cr_StatusCode : option Z;
  cr_ErrorCategory : option string;
  cr_TotalDurationMicroseconds : Z
}.

Definition checkResultFromRow (x : string * HealthCheck) : CheckResult :=
  mkCheckResult x.1 (hc_job_type x.2) (hc_scheduled_at x.2) (hc_started_at x.2) (hc_completed_at x.2) (hc_succeeded x.2)
    (hc_status_code x.2) (hc_error_category x.2) (hc_total_duration_microseconds x.2).

Record Detail : Type := mkDetail { dt_Monitor : View; dt_State : observed_state; dt_RecentResults : list CheckResult }.

(** A zero value takes its default. *)
Definition or_default (v d : Z) : Z := if v =? 0 then d else v.

Definition defaulted (input : CreateInput) : CreateInput :=
  mkInput (TrimSpace (in_Name input)) (TrimSpace (in_TargetURL input))
    (or_default (in_IntervalSeconds input) DefaultIntervalSeconds)
    (or_default (in_TimeoutSeconds input) DefaultTimeoutSeconds)
    (or_default (in_ExpectedStatusMin input) DefaultExpectedStatusMin)
    (or_default (in_ExpectedStatusMax input) DefaultExpectedStatusMax)
    (let m := ToUpper (TrimSpace (in_Method input)) in if String.eqb m "" then "GET" else m)
    (in_Headers input)
    (let p := TrimSpace (in_WorkerPoolID input) in if String.eqb p "" then "hosted" else p).

Definition normalizeCreateInput `{UrlLib} (userID environmentID : string) (input : CreateInput) : res CreateInput :=
  let n := defaulted input in
  if negb (uuidPattern userID) || negb (uuidPattern environmentID)
     || String.eqb (in_Name n) "" || (maximumMonitorNameBytes <? slen (in_Name n))
     || (maximumTargetURLBytes <? slen (in_TargetURL n))
     || bool_decide (is_Some (ValidateURL (in_TargetURL n)))
     || (negb (String.eqb (in_Method n) "GET") && negb (String.eqb (in_Method n) "HEAD"))
     || negb (poolPattern (in_WorkerPoolID n)) then Err ErrInvalidMonitor
  else if negb (bool_decide (in_IntervalSeconds n ∈ allowedIntervals)) then Err ErrInvalidMonitor
  else if (in_TimeoutSeconds n <? 1) || (10 <? in_TimeoutSeconds n)
     || (in_ExpectedStatusMin n <? 100) || (599 <? in_ExpectedStatusMin n)
     || (in_ExpectedStatusMax n <? 100) || (599 <? in_ExpectedStatusMax n)
     || (in_ExpectedStatusMax n <? in_ExpectedStatusMin n) then Err ErrInvalidMonitor
  else Ok n.

(** [sort.Strings] of the names of a header map. *)
#[global] Instance str_le_sort_dec : RelDecision str_le.
Proof. intros a b. unfold str_le. apply _. Defined.
Definition sorted_names (h : gmap string string) : list string := merge_sort str_le ((map_to_list h).*1).

Definition nullableInt32 (v : Z) : option Z := if v =? 0 then None else Some v.

Section Service.
Context {P : Primitives} `{UrlLib} (hashtextextended : string -> Z).
Context (json : Codec (gmap string string)) (visit : gmap string string -> list (string * string)).

Record Service : Type := mkService { sv_headers : Keyring; sv_signingKey : bytes; sv_signingKeyID : string }.

Definition NewService (db : bool) (headers : option Keyring) (signingKey : bytes) (signingKeyID : string) : res Service :=
  let signingKeyID := TrimSpace signingKeyID in
  match headers with
  | Some h =>
      if negb db || negb (slen signingKey =? 64) || String.eqb signingKeyID ""
      then Err (ErrorsNew "monitor: database, header keys, signing key, and signing key ID are required")
      else Ok (mkService h signingKey signingKeyID)
  | None => Err (ErrorsNew "monitor: database, header keys, signing key, and signing key ID are required")
  end.

Definition headerNames (s : Service) (ciphertext : bytes) (version : option Z) : list string :=
  match version with
  | None => []
  | Some v =>
      if slen ciphertext =? 0 then [] else
      match Decrypt json visit (sv_headers s) ciphertext v with
      | Ok headers => sorted_names headers
      | Err _ => []
      end
  end.

Definition encryptHeaders (s : Service) (headers : gmap string string) (nonce : res bytes) : res (bytes * Z * list string) :=
  if (size headers =? 0)%nat then Ok ("", 0, []) else
  match Encrypt json visit (sv_headers s) headers nonce with
  | Err _ => Err ErrInvalidMonitor
  | Ok (ciphertext, version) =>
      Ok (ciphertext, version, match Normalize (visit headers) with Ok n => sorted_names n | Err _ => [] end)
  end.

Definition create_tx (s : Service) (user env : string) (n : CreateInput) (nonce : res bytes) : Tx ConfigDB (TxEnd View) :=
  r ← try_ (LockEnvironmentForMonitorCreation user env);
  match r with
  | Err ErrNoRows => throw ErrEnvironmentNotFound
  | Err e => throw e
  | Ok (org, role) =>
      if negb (Allows role PermissionMonitorsManage) then throw ErrDenied else
      h ← of_res (encryptHeaders s (in_Headers n) nonce);
      let '(ciphertext, keyVersion, headerNames) := h in
      monitorCount ← CountOrganizationMonitors org;
      if maximumMonitorsPerOrg <=? monitorCount then throw ErrMonitorLimitReached else
      created ← CreateMonitor org env (in_Name n) (in_TargetURL n) (in_IntervalSeconds n) (in_TimeoutSeconds n)
        (in_ExpectedStatusMin n) (in_ExpectedStatusMax n);
      let '(id, row, info) := created in
      _ ← StoreSecureMonitorConfiguration hashtextextended (in_Method n) ciphertext (nullableInt32 keyVersion) (in_WorkerPoolID n) id;
      _ ← lift (OpenMonitorSchedulePeriod id);
      _ ← lift (EnsureMonitorReliabilityState id);
      _ ← recordRefresh org env "monitor.changed" "monitor" id;
      let v := view id row info [] in
      mret (Commit (mkView id (v_OrganizationID v) (v_EnvironmentID v) (v_Name v) (v_TargetURL v) (in_Method n)
        (v_IntervalSeconds v) (v_TimeoutSeconds v) (v_ExpectedStatusMin v) (v_ExpectedStatusMax v)
        (v_CreatedAt v) (v_UpdatedAt v) 1 (v_Paused v) (in_WorkerPoolID n) headerNames))
  end.

Definition Create {O} (s : Service) (userID environmentID : string) (input : CreateInput) (t : Z) (nonce : res bytes) :
    SE (World ConfigDB O) View :=
  n ← of_res (normalizeCreateInput userID environmentID input);
  with_tx t (create_tx s (as_uuid userID) (as_uuid environmentID) n nonce).

(** [lockManaged] inside the transaction it begins. *)
Definition lock_managed (user env m : string) : Tx ConfigDB managedMonitor :=
  r ← try_ (LockManagedMonitor user env m);
  match r with
  | Err ErrNoRows => throw ErrMonitorNotFound
  | Err e => throw e
  | Ok row => if negb (Allows (mm_role row) PermissionMonitorsManage) then throw ErrDenied else mret row
  end.

Definition lockManaged {O A} (userID environmentID monitorID : string) (t : Z)
    (body : managedMonitor -> Tx ConfigDB (TxEnd A)) : SE (World ConfigDB O) A :=
  if negb (uuidPattern userID) || negb (uuidPattern environmentID) || negb (uuidPattern monitorID)
  then throw ErrMonitorNotFound
  else with_tx t (row ← lock_managed (as_uuid userID) (as_uuid environmentID) (as_uuid monitorID); body row).

Definition update_tx (s : Service) (n : CreateInput) (nonce : res bytes) (row : managedMonitor) : Tx ConfigDB (TxEnd View) :=
  h ← of_res (encryptHeaders s (in_Headers n) nonce);
  let '(ciphertext, keyVersion, names) := h in
  let m := mm_row row in
  updated ← UpdateManagedMonitor hashtextextended (in_Name n) (in_TargetURL n) (in_Method n) (in_IntervalSeconds n) (in_TimeoutSeconds n)
    (in_ExpectedStatusMin n) (in_ExpectedStatusMax n) ciphertext (nullableInt32 keyVersion) (in_WorkerPoolID n)
    (mon_organization_id m) (mon_environment_id m) (mm_ID row);
  let '(id, r, i) := updated in
  let result := view id r i names in
  _ ← lift (CloseMonitorSchedulePeriod (mm_ID row));
  _ ← (if negb (v_Paused result) then lift (OpenMonitorSchedulePeriod (mm_ID row)) else mret ());
  _ ← recordRefresh (v_OrganizationID result) (v_EnvironmentID result) "monitor.changed" "monitor" (v_ID result);
  mret (Commit result).

Definition Update {O} (s : Service) (userID environmentID monitorID : string) (input : CreateInput) (t : Z) (nonce : res bytes) :
    SE (World ConfigDB O) View :=
  match normalizeCreateInput userID environmentID input with
  | Err _ => throw ErrInvalidMonitor
  | Ok n =>
      if negb (uuidPattern monitorID) then throw ErrInvalidMonitor
      else lockManaged userID environmentID monitorID t (update_tx s n nonce)
  end.

Definition paused_tx (s : Service) (paused : bool) (row : managedMonitor) : Tx ConfigDB (TxEnd View) :=
  let m := mm_row row in
  updated ← SetManagedMonitorPaused hashtextextended paused (mon_organization_id m) (mon_environment_id m) (mm_ID row);
  let '(id, r, i) := updated in
  let result := view id r i (headerNames s (mon_headers_ciphertext r) (mon_header_key_version r)) in
  _ ← lift (CloseMonitorSchedulePeriod (mm_ID row));
  _ ← (if negb paused then lift (OpenMonitorSchedulePeriod (mm_ID row)) else mret ());
  _ ← recordRefresh (v_OrganizationID result) (v_EnvironmentID result) "monitor.changed" "monitor" (v_ID result);
  mret (Commit result).

Definition setPaused {O} (s : Service) (userID environmentID monitorID : string) (paused : bool) (t : Z) : SE (World ConfigDB O) View :=
  lockManaged userID environmentID monitorID t (paused_tx s paused).
Definition Pause {O} (s : Service) (userID environmentID monitorID : string) (t : Z) : SE (World ConfigDB O) View :=
  setPaused s userID environmentID monitorID true t.
Definition Resume {O} (s : Service) (userID environmentID monitorID : string) (t : Z) : SE (World ConfigDB O) View :=
  setPaused s userID environmentID monitorID false t.

Definition delete_tx (row : managedMonitor) : Tx ConfigDB (TxEnd ()) :=
  let m := mm_row row in
  rowsAffected ← SoftDeleteMonitor (mon_organization_id m) (mon_environment_id m) (mm_ID row);
  if negb (rowsAffected =? 1) then throw ErrMonitorNotFound else
  _ ← lift (CloseMonitorSchedulePeriod (mm_ID row));
  _ ← recordRefresh (mon_organization_id m) (mon_environment_id m) "monitor.changed" "monitor" (mm_ID row);
  mret (Commit ()).

Definition Delete {O} (userID environmentID monitorID : string) (t : Z) : SE (World ConfigDB O) () :=
  lockManaged userID environmentID monitorID t delete_tx.

(** What sealing takes from outside: the clock it reads and the key and nonce it draws. *)
Definition test_job (s : Service) (row : managedMonitor) (pool : WorkerPool) (id : string) (scheduledAt : Z) (headers : gmap string string) : Job :=
  let m := mm_row row in
  mkJob SchemaVersion id "manual_test" (mon_worker_pool_id m) (wp_network_policy_version pool) scheduledAt
    (time_add scheduledAt (2 * minute)) (mon_target_url m) (mon_method m) (mon_timeout_seconds m)
    (mon_expected_status_min m) (mon_expected_status_max m) headers (mkLimits 65536 32768 3)
    (sv_signingKeyID s) (default "" (wp_encryption_key_id pool)).

Definition test_tx (s : Service) (clock : Z) (rand_key rand_nonce : res bytes) (row : managedMonitor) : Tx ConfigDB (TxEnd string) :=
  let m := mm_row row in
  _ ← lift AcquireManualTestQueueLock;
  count ← lift CountActiveManualTestJobs;
  if 10 <=? count then throw ErrManualQueueFull else
  scheduledPressure ← lift HasScheduledQueuePressure;
  if (scheduledPressure : bool) then throw ErrManualQueueFull else
  workerPool ← try_ (lift (GetManualDispatchWorkerPool (mon_worker_pool_id m) SchemaVersion));
  match workerPool with
  | Err _ => throw ErrQueueUnavailable
  | Ok pool =>
      let public := default "" (wp_encryption_public_key pool) in
      if negb (slen public =? 32) || String.eqb (default "" (wp_encryption_key_id pool)) ""
         || String.eqb (default "" (wp_job_queue_url pool)) "" then throw ErrQueueUnavailable else
      if negb (x25519_key_ok public) then throw ErrQueueUnavailable else
      match Decrypt json visit (sv_headers s) (mon_headers_ciphertext m) (default 0 (mon_header_key_version m)) with
      | Err _ => throw ErrQueueUnavailable
      | Ok headers =>
          id ← lift NewManualJobID;
          scheduledAt ← lift GetDatabaseTime;
          let expiresAt := time_add scheduledAt (2 * minute) in
          match SealJob (test_job s row pool id scheduledAt headers) (sv_signingKey s) (Some public) clock rand_key rand_nonce with
          | Err _ => throw ErrQueueUnavailable
          | Ok (sealed, attrs) =>
              hash ← of_res (match hex_decode (a_SnapshotHash attrs) with
                             | Some h => Ok h | None => Err (ErrorsNew "encoding/hex") end);
              id ← lift (CreateManualCheckJob id (mon_organization_id m) (mon_environment_id m) (mm_ID row) scheduledAt
                           (mon_version m) (mon_worker_pool_id m) hash expiresAt);
              _ ← lift (CreateManualDispatchOutbox id (mon_worker_pool_id m) (default "" (wp_job_queue_url pool))
                          (base64_encode sealed) SchemaVersion (sv_signingKeyID s) (default "" (wp_encryption_key_id pool)) hash expiresAt);
              _ ← recordRefresh (mon_organization_id m) (mon_environment_id m) "monitor.changed" "monitor" (mm_ID row);
              mret (Commit id)
          end
      end
  end.

Definition TestNow {O} (s : Service) (userID environmentID monitorID : string) (t clock : Z) (rand_key rand_nonce : res bytes) :
    SE (World ConfigDB O) string :=
  lockManaged userID environmentID monitorID t (test_tx s clock rand_key rand_nonce).

(** *** Reads: each query on its own *)

Definition query {O A} (t : Z) (q : Tx ConfigDB A) : SE (World ConfigDB O) A :=
  with_tx t (a ← q; mret (Rollback a)).

Definition authorized_read {O} (t : Z) (user env : string) : SE (World ConfigDB O) string :=
  r ← try_ (query t (GetAccessibleEnvironmentOrganization user env));
  match r with
  | Err ErrNoRows => throw ErrEnvironmentNotFound
  | Err e => throw e
  | Ok (org, role) => if negb (Allows role PermissionMonitorsRead) then throw ErrEnvironmentNotFound else mret org
  end.

Definition full_view (s : Service) (x : string * Monitor * MonitorInfo) : View :=
  view x.1.1 x.1.2 x.2 (headerNames s (mon_headers_ciphertext x.1.2) (mon_header_key_version x.1.2)).

Definition List {O} (s : Service) (userID environmentID : string) (t : Z) : SE (World ConfigDB O) (list View) :=
  if negb (uuidPattern userID) || negb (uuidPattern environmentID) then throw ErrEnvironmentNotFound else
  org ← authorized_read t (as_uuid userID) (as_uuid environmentID);
  rows ← query t (ListEnvironmentMonitors org (as_uuid environmentID));
  mret (full_view s <$> rows).

Definition Get {O} (s : Service) (userID environmentID monitorID : string) (t : Z) : SE (World ConfigDB O) Detail :=
  if negb (uuidPattern userID) || negb (uuidPattern environmentID) then throw ErrEnvironmentNotFound else
  if negb (uuidPattern monitorID) then throw ErrMonitorNotFound else
  org ← authorized_read t (as_uuid userID) (as_uuid environmentID);
  stored ← try_ (query t (GetEnvironmentMonitor org (as_uuid environmentID) (as_uuid monitorID)));
  match stored with
  | Err ErrNoRows => throw ErrMonitorNotFound
  | Err e => throw e
  | Ok x =>
      state ← query t (GetDurableMonitorState org (as_uuid environmentID) (as_uuid monitorID));
      rows ← query t (ListRecentMonitorResults org (as_uuid environmentID) (as_uuid monitorID));
      mret (mkDetail (full_view s x) state (checkResultFromRow <$> rows))
  end.
End Service.

(** ** Statements that changed the tables *)

Lemma lift_ok {A} (m : Tx DB A) s a s' : lift m s = (Ok a, s') ->
  exists e e', m e = (Ok a, e') /\ tx_db e = engine (tx_db s) /\ tx_now e = tx_now s /\
    tx_db s' = on_engine (fun _ => tx_db e') (tx_db s) /\ tx_now s' = tx_now e'.
Proof.
  unfold lift. set (e := mkTx _ _ _ _ _ _). destruct (m e) as [r e'] eqn:E. intros [= -> <-].
  by exists e, e'.
Qed.

Lemma lift_sql_ok {A} (q : Z -> DB -> res A * DB) s a s' : lift (sql q) s = (Ok a, s') ->
  exists d, q (tx_now s) (engine (tx_db s)) = (Ok a, d) /\ moved (on_engine (fun _ => d) (tx_db s)) s s'.
Proof.
  intros (e & e' & He & E1 & E2 & E3 & E4)%lift_ok. apply sql_ok in He as [Hq Hn]. rewrite E1, E2 in Hq.
  eexists. split; [exact Hq|]. split; [done|congruence].
Qed.

Lemma lift_same {A} (m : Tx DB A) s a s' :
  (forall e e', m e = (Ok a, e') -> moved (tx_db e) e e') -> lift m s = (Ok a, s') -> moved (tx_db s) s s'.
Proof.
  intros Hm (e & e' & He & E1 & E2 & E3 & E4)%lift_ok. apply Hm in He as [D N]. split; [|congruence].
  rewrite E3, D, E1. by destruct (tx_db s).
Qed.

Lemma lift_select_ok {A} (q : Z -> DB -> A) s a s' : lift (select q) s = (Ok a, s') ->
  a = q (tx_now s) (engine (tx_db s)) /\ moved (tx_db s) s s'.
Proof.
  intros Hl. split.
  - apply lift_ok in Hl as (e & e' & He & E1 & E2 & _). apply select_ok in He as [-> _]. by rewrite E1, E2.
  - revert Hl. apply lift_same. by intros e e' [_ Hm]%select_ok.
Qed.

Lemma write_monitor_ok id r i d u d' : write_monitor id r i d = (Ok u, d') ->
  monitor_check i r = true /\
  d' = mkConfig (on_monitors <[id := r]> (engine d)) (<[id := i]> (monitor_info d)) (environments d) (organizations d).
Proof.
  unfold write_monitor. destruct (_ <? _); [done|]. destruct (monitor_check i r); [|done]. simpl.
  destruct (worker_pools (engine d) !! _); [|done]. by intros [= _ <-].
Qed.

Lemma returning_ok id x f d id' r' i' d' : returning id x f d = (Ok (id', r', i'), d') ->
  id' = id /\ exists r i, x = Some (r, i) /\ f r i = (r', i') /\ monitor_check i' r' = true /\
  d' = mkConfig (on_monitors <[id := r']> (engine d)) (<[id := i']> (monitor_info d)) (environments d) (organizations d).
Proof.
  unfold returning. destruct x as [[r i]|]; [|done]. destruct (f r i) as [r1 i1] eqn:Ef.
  destruct (write_monitor id r1 i1 d) as [[u|e] d1] eqn:E; [|done]. apply write_monitor_ok in E as [Hc ->].
  intros [= <- <- <- <-]. split; [done|]. by exists r, i.
Qed.

Lemma tenant_row_some org env m d r i : tenant_row org env m d = Some (r, i) ->
  monitors (engine d) !! m = Some r /\ monitor_info d !! m = Some i /\
  mon_organization_id r = org /\ mon_environment_id r = env /\ mon_deleted_at r = None.
Proof.
  unfold tenant_row, monitor_row. destruct (monitors (engine d) !! m) as [r1|] eqn:E1; [|done].
  destruct (monitor_info d !! m) as [i1|] eqn:E2; [|done]. simpl.
  destruct (String.eqb_spec (mon_organization_id r1) org), (String.eqb_spec (mon_environment_id r1) env); try done.
  simpl. case_bool_decide; [|done]. by intros [= <- <-].
Qed.

Lemma managed_some user env m d x : managed user env m d = Some x ->
  exists r member, x = mkManaged m r (role_text (om_role member)) /\ monitors (engine d) !! m = Some r /\
    org_members (engine d) !! (mon_organization_id r, user) = Some member /\
    mon_environment_id r = env /\ mon_deleted_at r = None.
Proof.
  unfold managed. destruct (monitors (engine d) !! m) as [r|] eqn:E1; [|done]. simpl.
  destruct (org_members (engine d) !! _) as [member|] eqn:E2; [|done]. simpl.
  destruct (String.eqb_spec (mon_environment_id r) env); [|done]. simpl. case_bool_decide; [|done].
  intros [= <-]. by exists r, member.
Qed.

Lemma environment_role_some user env d org role : environment_role user env d = Some (org, role) ->
  environments d !! env = Some org /\ organizations d !! org = Some None /\
  exists member, org_members (engine d) !! (org, user) = Some member /\ role = role_text (om_role member).
Proof.
  unfold environment_role. destruct (environments d !! env) as [o|] eqn:E1; [|done]. simpl.
  destruct (organizations d !! o) as [[?|]|] eqn:E2; [done| |done]. simpl.
  destruct (org_members (engine d) !! (o, user)) as [member|] eqn:E3; [|done].
  intros [= <- <-]. split; [done|]. split; [done|]. by exists member.
Qed.

Lemma interval_positive r i : monitor_check i r = true ->
  mon_interval_seconds r ∈ allowedIntervals /\ 0 < mon_version r.
Proof.
  unfold monitor_check. rewrite !andb_true_iff, bool_decide_eq_true, Z.ltb_lt. tauto.
Qed.

Lemma allowed_bounds v : v ∈ allowedIntervals -> 60 <= v <= 1800.
Proof. unfold allowedIntervals. rewrite !elem_of_cons, elem_of_nil. lia. Qed.

Lemma first_slot_bounds hash now id v : 0 < v -> now <= first_slot hash now id v < now + v * second.
Proof.
  intros Hv. unfold first_slot. assert (0 <= Z.land (hash id) 2147483647) as Hp.
  { apply Z.land_nonneg. right. done. }
  pose proof (Z.rem_bound_pos _ v Hp Hv). unfold second. lia.
Qed.

(** ** What a request may do to the tables

    [effect] is the contract of the package: the only ways in which a request of a member
    changes the tables.  Everything it does not mention stays. *)

Definition is_live (r : Monitor) : bool := bool_decide (mon_paused_at r = None) && bool_decide (mon_deleted_at r = None).

Definition may_manage (user org : string) (d : ConfigDB) : Prop :=
  exists member, org_members (engine d) !! (org, user) = Some member /\
    Allows (role_text (om_role member)) PermissionMonitorsManage = true.

Definition period_of (m : string) (t : Z) (r : Monitor) : SchedulePeriod :=
  mkSchedulePeriod m (mon_interval_seconds r) t (mon_next_check_at r) None.

Definition closed_at (t : Z) (m : string) (l : list SchedulePeriod) : list SchedulePeriod :=
  (fun p => if open_of m p then ended t p else p) <$> l.

Definition with_monitor (m : string) (r : Monitor) (i : MonitorInfo) (f : DB -> DB) (d : ConfigDB) : ConfigDB :=
  mkConfig (f (on_monitors <[m := r]> (engine d))) (<[m := i]> (monitor_info d)) (environments d) (organizations d).

Section Effect.
Context (hash : string -> Z) (user env : string) (t : Z) (d : ConfigDB).

Inductive effect : ConfigDB -> Prop :=
(** A new monitor of the organization of the environment, with its first period. *)
| ef_created m r i org l :
    environments d !! env = Some org -> organizations d !! org = Some None -> may_manage user org d ->
    organization_monitors org (engine d) < maximumMonitorsPerOrg ->
    monitors (engine d) !! m = None -> monitor_check i r = true ->
    mon_organization_id r = org -> mon_environment_id r = env -> mon_version r = 1 -> is_live r = true ->
    mon_next_check_at r = first_slot hash t m (mon_interval_seconds r) ->
    existsb (open_of m) (schedule_periods (engine d)) = false ->
    effect (with_monitor m r i (fun e => on_refresh_events (fun _ => l) (ensure_state m
              (on_schedule_periods (fun ps => ps ++ [period_of m t r]) e))) d)
(** A change of one monitor of the environment: the next version of its row; its open
    period ends, and a new one begins when the row is neither paused nor deleted. *)
| ef_changed m r r' i' l :
    monitors (engine d) !! m = Some r -> mon_environment_id r = env -> mon_deleted_at r = None ->
    may_manage user (mon_organization_id r) d ->
    mon_organization_id r' = mon_organization_id r -> mon_environment_id r' = env ->
    mon_version r' = mon_version r + 1 -> monitor_check i' r' = true ->
    (is_live r' = true -> mon_next_check_at r' = first_slot hash t m (mon_interval_seconds r')) ->
    existsb (fun p => open_of m p && (t <? per_starts_at p)) (schedule_periods (engine d)) = false ->
    effect (with_monitor m r' i' (fun e => on_refresh_events (fun _ => l) (on_schedule_periods (fun ps =>
              closed_at t m ps ++ (if is_live r' then [period_of m t r'] else [])) e)) d)
(** A manual test: one job with its dispatch message. *)
| ef_tested m r j id o l :
    monitors (engine d) !! m = Some r -> mon_environment_id r = env -> mon_deleted_at r = None ->
    may_manage user (mon_organization_id r) d -> manual_jobs (engine d) < 10 ->
    check_jobs (engine d) !! id = None -> outbox (engine d) !! id = None ->
    cj_job_type j = ManualTest -> cj_state j = JPendingPublish -> cj_monitor_id j = m ->
    ob_snapshot_hash o = cj_snapshot_hash j -> ob_expires_at o = cj_expires_at j -> cj_expires_at j = t + 2 * minute ->
    effect (on_engine (fun e => on_refresh_events (fun _ => l) (on_outbox <[id := o]> (on_check_jobs <[id := j]> e))) d).
End Effect.

(** *** The statements of a change *)

Lemma closed_ok m s u s' : lift (CloseMonitorSchedulePeriod m) s = (Ok u, s') ->
  existsb (fun p => open_of m p && (tx_now s <? per_starts_at p)) (schedule_periods (engine (tx_db s))) = false /\
  moved (on_engine (on_schedule_periods (closed_at (tx_now s) m)) (tx_db s)) s s'.
Proof.
  intros (d & Hq & Hm)%lift_sql_ok. unfold close_period in Hq. destruct (existsb _ _); [done|].
  injection Hq as _ <-. by split.
Qed.

Lemma opened_ok m s u s' r : lift (OpenMonitorSchedulePeriod m) s = (Ok u, s') ->
  monitors (engine (tx_db s)) !! m = Some r ->
  existsb (open_of m) (schedule_periods (engine (tx_db s))) = false /\
  moved (on_engine (on_schedule_periods (fun l => l ++ [period_of m (tx_now s) r])) (tx_db s)) s s'.
Proof.
  intros (d & Hq & Hm)%lift_sql_ok Hr. unfold open_period in Hq. rewrite Hr in Hq.
  destruct (_ || _ || _); [done|]. destruct (existsb _ _); [done|]. injection Hq as _ <-. by split.
Qed.

Lemma refreshed_ok org env e r id s u s' : recordRefresh org env e r id s = (Ok u, s') ->
  exists l, moved (on_engine (on_refresh_events (fun _ => l)) (tx_db s)) s s'.
Proof.
  intros [Hq Hn]%sql_ok. unfold refresh_event in Hq. destruct (_ && _); [|done].
  injection Hq as _ Hd. eexists. split; [|done]. by rewrite <- Hd.
Qed.

Lemma lock_managed_ok user env m s x s' : lock_managed user env m s = (Ok x, s') ->
  moved (tx_db s) s s' /\ mm_ID x = m /\ monitors (engine (tx_db s)) !! m = Some (mm_row x) /\
    mon_environment_id (mm_row x) = env /\ mon_deleted_at (mm_row x) = None /\
    may_manage user (mon_organization_id (mm_row x)) (tx_db s).
Proof.
  unfold lock_managed. intros H. apply bind_ok in H as (q & s1 & H1 & H).
  apply try_select_one_ok in H1 as [Hm1 Hq]. destruct q as [row|e]; [|by destruct e].
  destruct (Allows _ _) eqn:Ea; [|done]. apply ret_ok in H as [<- <-]. split; [done|].
  apply managed_some in Hq as (r & member & -> & Hr & Hmem & He & Hd). simpl in *.
  repeat split; try done. by exists member.
Qed.

(** The row is written; the periods follow; the members are told. *)
Lemma change_tail {A} hash user env t m r r' i' (live : bool) org' env' e k id (a : A) d s u s' :
  monitors (engine d) !! m = Some r -> mon_environment_id r = env -> mon_deleted_at r = None ->
  may_manage user (mon_organization_id r) d ->
  mon_organization_id r' = mon_organization_id r -> mon_environment_id r' = env ->
  mon_version r' = mon_version r + 1 -> monitor_check i' r' = true ->
  (is_live r' = true -> mon_next_check_at r' = first_slot hash t m (mon_interval_seconds r')) ->
  tx_db s = with_monitor m r' i' id d -> tx_now s = t -> live = is_live r' ->
  id = (fun e => e) ->
  (_ ← lift (CloseMonitorSchedulePeriod m);
   _ ← (if live then lift (OpenMonitorSchedulePeriod m) else mret ());
   _ ← recordRefresh org' env' "monitor.changed" e k; mret (Commit a)) s = (Ok u, s') ->
  u = Commit a /\ effect hash user env t d (tx_db s').
Proof.
  intros Hr He Hd Hu Ho He' Hv Hc Hn Hs Ht -> -> H. rewrite <- Ht in *.
  apply bind_ok in H as (? & s1 & H1 & H). apply closed_ok in H1 as [Hp [D1 N1]].
  apply bind_ok in H as (? & s2 & H2 & H). apply bind_ok in H as (? & s3 & H3 & H). apply refreshed_ok in H3 as (l & D3 & N3).
  apply ret_ok in H as [<- <-]. split; [done|]. rewrite Hs in Hp, D1. simpl in Hp.
  assert (tx_db s2 = with_monitor m r' i' (on_schedule_periods (fun ps =>
            closed_at (tx_now s) m ps ++ (if is_live r' then [period_of m (tx_now s) r'] else []))) d) as D2.
  { destruct (is_live r').
    - apply (opened_ok _ _ _ _ r') in H2 as [_ [D2 N2]]; [by rewrite D2, D1, N1|].
      rewrite D1. simpl. by rewrite lookup_insert_eq.
    - apply ret_ok in H2 as [_ <-]. rewrite D1. unfold with_monitor, on_engine. simpl. f_equal.
      unfold on_schedule_periods. simpl. by rewrite app_nil_r. }
  rewrite D3, D2. by apply (ef_changed hash user env (tx_now s) d m r r' i' l).
Qed.

Lemma update_effect {P : Primitives} hash json visit s user env m n nonce x s0 s1 s' u :
  lock_managed user env m s0 = (Ok x, s1) -> update_tx hash json visit s n nonce x s1 = (Ok u, s') ->
  effect hash user env (tx_now s0) (tx_db s0) (tx_db s') /\ exists v, u = Commit v.
Proof.
  intros ([D0 N0] & <- & Hr & He & Hd & Hu)%lock_managed_ok H. unfold update_tx in H.
  apply bind_ok in H as ([[c v] names] & s2 & H2 & H). apply of_res_ok in H2 as [_ ->].
  apply bind_ok in H as ([[id r'] i'] & s3 & H3 & H). apply sql_ok in H3 as [Hq N3].
  apply returning_ok in Hq as (-> & r & i & Hrow & Hf & Hc & D3). rewrite D0 in Hrow, D3.
  apply tenant_row_some in Hrow as (Hr' & Hi & Ho & He' & Hd'). assert (mm_row x = r) as Ex by congruence.
  injection Hf as Hr1 Hi1. cbn zeta in H.
  apply (change_tail hash user env (tx_now s1) _ r r' i' _ _ _ _ _ (fun e => e) _ (tx_db s0)) in H as [-> Hef].
  - rewrite <- N0. split; [done|by eexists].
  - done.
  - congruence.
  - done.
  - by rewrite <- Ex.
  - by rewrite <- Hr1.
  - rewrite <- Hr1. simpl. congruence.
  - by rewrite <- Hr1.
  - done.
  - rewrite <- Hr1. unfold is_live. simpl. destruct (mon_paused_at r); [by rewrite bool_decide_false|done].
  - done.
  - done.
  - unfold is_live, view. simpl. rewrite <- Hr1. simpl. rewrite Hd', (bool_decide_true (None = None)) by done.
    rewrite andb_true_r. by destruct (mon_paused_at r).
  - done.
Qed.

Lemma paused_effect {P : Primitives} hash json visit s user env m paused x s0 s1 s' u :
  lock_managed user env m s0 = (Ok x, s1) -> paused_tx hash json visit s paused x s1 = (Ok u, s') ->
  effect hash user env (tx_now s0) (tx_db s0) (tx_db s') /\ exists v, u = Commit v.
Proof.
  intros ([D0 N0] & <- & Hr & He & Hd & Hu)%lock_managed_ok H. unfold paused_tx in H.
  apply bind_ok in H as ([[id r'] i'] & s3 & H3 & H). apply sql_ok in H3 as [Hq N3].
  apply returning_ok in Hq as (-> & r & i & Hrow & Hf & Hc & D3). rewrite D0 in Hrow, D3.
  apply tenant_row_some in Hrow as (Hr' & Hi & Ho & He' & Hd'). assert (mm_row x = r) as Ex by congruence.
  injection Hf as Hr1 Hi1. cbn zeta in H.
  apply (change_tail hash user env (tx_now s1) _ r r' i' _ _ _ _ _ (fun e => e) _ (tx_db s0)) in H as [-> Hef].
  - rewrite <- N0. split; [done|by eexists].
  - done.
  - congruence.
  - done.
  - by rewrite <- Ex.
  - by rewrite <- Hr1.
  - rewrite <- Hr1. simpl. congruence.
  - by rewrite <- Hr1.
  - done.
  - rewrite <- Hr1. unfold is_live. simpl. destruct paused; [by rewrite bool_decide_false|done].
  - done.
  - done.
  - rewrite <- Hr1. unfold is_live. simpl. rewrite Hd'. by destruct paused.
  - done.
Qed.

Lemma delete_effect hash user env m x s0 s1 s' u :
  lock_managed user env m s0 = (Ok x, s1) -> delete_tx x s1 = (Ok u, s') ->
  effect hash user env (tx_now s0) (tx_db s0) (tx_db s') /\ exists v, u = Commit v.
Proof.
  intros ([D0 N0] & <- & Hr & He & Hd & Hu)%lock_managed_ok H. unfold delete_tx in H.
  apply bind_ok in H as (n & s3 & H3 & H). apply sql_ok in H3 as [Hq N3].
  destruct (tenant_row _ _ _ (tx_db s1)) as [[r i]|] eqn:Hrow; [|injection Hq as <- _; done].
  rewrite D0 in Hrow. apply tenant_row_some in Hrow as (Hr' & Hi & Ho & He' & Hd').
  assert (mm_row x = r) as Ex by congruence.
  destruct (write_monitor _ _ _ _) as [[?|?] d1] eqn:Ew; [|done]. apply write_monitor_ok in Ew as [Hc ->].
  injection Hq as <- D3. rewrite D0 in D3. simpl in H.
  apply (change_tail hash user env (tx_now s1) _ r (deleted_row (tx_now s1) r) (mkInfo (mi_name i) (mi_created_at i) (tx_now s1))
    false _ _ _ _ (fun e => e) _ (tx_db s0)) in H as [-> Hef]; try done; try congruence.
  - rewrite <- N0. split; [done|by eexists].
  - simpl. congruence.
  - unfold is_live. simpl. by rewrite andb_false_r.
  - unfold is_live. simpl. by rewrite andb_false_r.
Qed.

Lemma tested_ok job org env m at_ v pool h ex s id s' :
  lift (CreateManualCheckJob job org env m at_ v pool h ex) s = (Ok id, s') ->
  id = job /\ check_jobs (engine (tx_db s)) !! job = None /\
  moved (on_engine (on_check_jobs <[job := mkCheckJob org env m ManualTest JPendingPublish at_ None None (tx_now s)
           v pool h ex None None None None]>) (tx_db s)) s s'.
Proof.
  intros (d & Hq & Hm)%lift_sql_ok. unfold create_manual in Hq. case_decide as Hn; [done|]. injection Hq as <- <-.
  split; [done|]. split; [|done]. apply eq_None_not_Some. tauto.
Qed.

Lemma dispatched_ok job pool queue body schema pk wk h ex s u s' :
  lift (CreateManualDispatchOutbox job pool queue body schema pk wk h ex) s = (Ok u, s') ->
  outbox (engine (tx_db s)) !! job = None /\
  moved (on_engine (on_outbox <[job := mkOutbox pool queue body schema pk wk h job job ex PPending 0
    (tx_now s) None None None None None (tx_now s)]>) (tx_db s)) s s'.
Proof.
  intros (d & Hq & Hm)%lift_sql_ok. destruct (outbox (engine (tx_db s)) !! job) eqn:E; [done|].
  injection Hq as _ <-. by split.
Qed.

Lemma try_lift_moved {A} (q : Z -> DB -> option A) s (r : res A) s' :
  try_ (lift (select_one q)) s = (Ok r, s') -> match r with Ok _ => moved (tx_db s) s s' | Err _ => True end.
Proof.
  unfold try_. destruct r as [a|e]; [|done]. intros Ht.
  destruct (lift (select_one q) s) as [[b|e] s1] eqn:E; simpl in Ht; [|done]. injection Ht as -> <-.
  revert E. apply lift_same. intros e e' [_ Hm]%select_one_ok. exact Hm.
Qed.

Lemma test_effect {P : Primitives} hash json visit s clock rk rn user env m x s0 s1 s' u :
  lock_managed user env m s0 = (Ok x, s1) -> test_tx json visit s clock rk rn x s1 = (Ok u, s') ->
  effect hash user env (tx_now s0) (tx_db s0) (tx_db s') /\ exists v, u = Commit v.
Proof.
  intros ([D0 N0] & <- & Hr & He & Hd & Hu)%lock_managed_ok H. unfold test_tx in H.
  apply bind_ok in H as (? & s2 & H2 & H). apply lift_select_ok in H2 as [_ [D2 N2]].
  apply bind_ok in H as (n & s3 & H3 & H). apply lift_select_ok in H3 as [Hn [D3 N3]].
  destruct (Z.leb_spec 10 n) as [|Hlt]; [done|].
  apply bind_ok in H as (pressure & s4 & H4 & H). apply lift_select_ok in H4 as [_ [D4 N4]]. destruct pressure; [done|].
  apply bind_ok in H as ([pool|e] & s5 & H5 & H); [|done]. apply try_lift_moved in H5 as [D5 N5].
  destruct (_ || _ || _); [done|]. destruct (negb _); [done|]. destruct (Decrypt _ _ _ _ _) as [headers|]; [|done].
  apply bind_ok in H as (id & s6 & H6 & H). apply (lift_same _ _ _ _) in H6 as [D6 N6].
  2: { intros e e' Hid. apply bind_ok in Hid as (w & e1 & Hw & Hid). apply uuid_ok in Hw as [A1 A2].
       apply select_ok in Hid as [_ [B1 B2]]. split; congruence. }
  apply bind_ok in H as (at_ & s7 & H7 & H). apply lift_select_ok in H7 as [-> [D7 N7]].
  destruct (SealJob _ _ _ _ _ _) as [[sealed attrs]|]; [|done].
  apply bind_ok in H as (h & s8 & H8 & H). apply of_res_ok in H8 as [_ ->].
  apply bind_ok in H as (id' & s9 & H9 & H). apply tested_ok in H9 as (-> & Hj & D9 & N9).
  apply bind_ok in H as (? & s10 & H10 & H). apply dispatched_ok in H10 as (Ho & D10 & N10).
  apply bind_ok in H as (? & s11 & H11 & H). apply refreshed_ok in H11 as (l & D11 & N11).
  apply ret_ok in H as [<- <-]. split; [|by eexists].
  assert (tx_db s7 = tx_db s0) as E7 by congruence. assert (tx_now s6 = tx_now s0) as T6 by congruence.
  rewrite E7 in Hj, D9. rewrite D9 in Ho, D10. simpl in Ho. rewrite D11, D10.
  unfold on_engine; simpl. rewrite T6.
  eapply (ef_tested hash user env (tx_now s0) (tx_db s0) (mm_ID x) (mm_row x)); try done.
  by rewrite <- D0, <- D2, <- Hn.
Qed.

Lemma created_monitor_ok org env name url interval timeout min max s id r i s' :
  CreateMonitor org env name url interval timeout min max s = (Ok (id, r, i), s') -> environments (tx_db s) !! env = Some org ->
  id = tx_uuid s (tx_next s) /\ tx_now s' = tx_now s /\ monitors (engine (tx_db s)) !! id = None /\
  r = new_monitor (tx_now s) org env url interval timeout min max /\ i = mkInfo name (tx_now s) (tx_now s) /\
  tx_db s' = mkConfig (on_monitors <[id := r]> (engine (tx_db s))) (<[id := i]> (monitor_info (tx_db s)))
               (environments (tx_db s)) (organizations (tx_db s)).
Proof.
  intros H Henv. unfold CreateMonitor in H. apply bind_ok in H as (u & s1 & Hu & H).
  assert (u = tx_uuid s (tx_next s)) as -> by (by injection Hu as <- _). apply uuid_ok in Hu as [D1 N1].
  apply sql_ok in H as [Hq N]. rewrite D1, N1 in Hq. unfold create_monitor in Hq.
  rewrite Henv, (proj2 (String.eqb_eq org org) eq_refl) in Hq. simpl in Hq.
  destruct (monitors (engine (tx_db s)) !! _) eqn:Eu; [done|].
  destruct (write_monitor _ _ _ _) as [[?|?] d1] eqn:Ew; [|done]. apply write_monitor_ok in Ew as [Hc ->].
  injection Hq as <- <- <- <-. repeat split; try done. congruence.
Qed.

(** The row a successful [Create] leaves. *)
Definition created_row (hash : string -> Z) (t : Z) (id org env : string) (n : CreateInput) (c : bytes) (v : Z) : Monitor :=
  mkMonitor org env 1 (in_TargetURL n) (in_Method n) (in_IntervalSeconds n) (in_TimeoutSeconds n)
    (in_ExpectedStatusMin n) (in_ExpectedStatusMax n) (first_slot hash t id (in_IntervalSeconds n)) c (nullableInt32 v)
    (in_WorkerPoolID n) None None.

Lemma create_tx_ok {P : Primitives} hash json visit s user env n nonce s0 s' u :
  create_tx hash json visit s user env n nonce s0 = (Ok u, s') ->
  exists id org c v names l, let t := tx_now s0 in let d := tx_db s0 in
    let r := created_row hash t id org env n c v in let i := mkInfo (in_Name n) t t in
    environments d !! env = Some org /\ organizations d !! org = Some None /\ may_manage user org d /\
    organization_monitors org (engine d) < maximumMonitorsPerOrg /\
    encryptHeaders json visit s (in_Headers n) nonce = Ok (c, v, names) /\
    monitors (engine d) !! id = None /\ monitor_check i r = true /\
    existsb (open_of id) (schedule_periods (engine d)) = false /\
    tx_db s' = with_monitor id r i (fun e => on_refresh_events (fun _ => l) (ensure_state id
                 (on_schedule_periods (fun ps => ps ++ [period_of id t r]) e))) d /\
    u = Commit (view id r i names).
Proof.
  unfold create_tx. intros H. apply bind_ok in H as (q & s1 & H1 & H). apply try_select_one_ok in H1 as [[D1 N1] Hq].
  destruct q as [[org role]|e]; [|by destruct e]. apply environment_role_some in Hq as (Henv & Horg & member & Hmem & ->).
  destruct (Allows _ _) eqn:Ea; [|done]. simpl in H.
  apply bind_ok in H as ([[c v] names] & s2 & H2 & H). apply of_res_ok in H2 as [Henc ->].
  apply bind_ok in H as (k & s3 & H3 & H). apply select_ok in H3 as [Hk [D3 N3]].
  destruct (Z.leb_spec maximumMonitorsPerOrg k) as [|Hlt]; [done|].
  apply bind_ok in H as ([[id r] i] & s4 & H4 & H). apply created_monitor_ok in H4 as (_ & N4 & Hnew & -> & -> & D4); [|by rewrite D3, D1].
  assert (tx_db s3 = tx_db s0 /\ tx_now s3 = tx_now s0) as [E3 T3] by (split; congruence). rewrite E3 in Hnew, D4. rewrite T3 in *.
  apply bind_ok in H as (? & s5 & H5 & H). apply sql_ok in H5 as [Hq N5]. unfold store_secure in Hq.
  rewrite D4, N4 in Hq. unfold monitor_row in Hq. simpl in Hq. rewrite !lookup_insert_eq in Hq.
  apply write_monitor_ok in Hq as [Hc5 D5]. simpl in D5, Hc5.
  set (r5 := created_row hash (tx_now s0) id org env n c v).
  assert (tx_db s5 = with_monitor id r5 (mkInfo (in_Name n) (tx_now s0) (tx_now s0)) (fun e => e) (tx_db s0)) as E5.
  { rewrite D5. unfold with_monitor. simpl. f_equal; [|apply insert_insert_eq].
    unfold on_monitors. simpl. f_equal. apply insert_insert_eq. }
  apply bind_ok in H as (? & s6 & H6 & H). apply (opened_ok _ _ _ _ r5) in H6 as [Hno [D6 N6]].
  2: { rewrite E5. simpl. by rewrite lookup_insert_eq. }
  apply bind_ok in H as (? & s7 & H7 & H). apply lift_sql_ok in H7 as (d7 & Hq & D7 & N7). injection Hq as _ <-.
  apply bind_ok in H as (? & s8 & H8 & H). apply refreshed_ok in H8 as (l & D8 & N8).
  apply ret_ok in H as [<- <-]. exists id, org, c, v, names, l. cbn zeta. fold r5.
  assert (tx_now s5 = tx_now s0) as T5 by congruence. rewrite E5 in Hno, D6. simpl in Hno.
  repeat split; try done.
  - by exists member.
  - congruence.
  - rewrite D8, D7, D6, T5. reflexivity.
Qed.

Lemma create_effect {P : Primitives} hash json visit s user env n nonce s0 s' u :
  create_tx hash json visit s user env n nonce s0 = (Ok u, s') ->
  effect hash user env (tx_now s0) (tx_db s0) (tx_db s') /\ exists v, u = Commit v.
Proof.
  intros (id & org & c & v & names & l & Henv & Horg & Hu & Hlt & Henc & Hm & Hck & Hno & -> & ->)%create_tx_ok.
  split; [|by eexists]. by eapply ef_created.
Qed.

(** ** Requests *)

Inductive request : Type :=
| RCreate (input : CreateInput)
| RUpdate (m : string) (input : CreateInput)
| RPause (m : string)
| RResume (m : string)
| RDelete (m : string)
| RTest (m : string).

Section Requests.
Context {P : Primitives} `{UrlLib} (hash : string -> Z) {O : Type}.
Context (json : Codec (gmap string string)) (visit : gmap string string -> list (string * string)).

(** A request of a member, with the time its transaction begins and what it draws from
    the random source. *)
Record call : Type := mkCall {
  cl_user : string; cl_env : string; cl_request : request; cl_time : Z; cl_clock : Z;
  cl_nonce : res bytes; cl_key : res bytes
}.

Definition serve (s : Service) (c : call) : SE (World ConfigDB O) () :=
  let user := cl_user c in let env := cl_env c in let t := cl_time c in
  match cl_request c with
  | RCreate input => _ ← Create hash json visit s user env input t (cl_nonce c); mret ()
  | RUpdate m input => _ ← Update hash json visit s user env m input t (cl_nonce c); mret ()
  | RPause m => _ ← Pause hash json visit s user env m t; mret ()
  | RResume m => _ ← Resume hash json visit s user env m t; mret ()
  | RDelete m => Delete user env m t
  | RTest m => _ ← TestNow json visit s user env m t (cl_clock c) (cl_key c) (cl_nonce c); mret ()
  end.

Lemma drop_state {S A} (m : SE S A) s : ((_ ← m; mret ()) s).2 = (m s).2.
Proof. unfold mbind, SE_bind. by destruct (m s) as [[a|e] s']. Qed.

Lemma with_tx_effect {A} user env t (body : Tx ConfigDB (TxEnd A)) (w : World ConfigDB O) :
  (forall s u s', tx_now s = t -> body s = (Ok u, s') -> effect hash user env t (tx_db s) (tx_db s')) ->
  w_db (with_tx t body w).2 = w_db w \/ effect hash user env t (w_db w) (w_db (with_tx t body w).2).
Proof.
  intros Hb. destruct (with_tx t body w) as [r w'] eqn:E. apply with_tx_db in E as [E|(fs & a & s & Hr & E)]; [by left|].
  right. simpl. rewrite E. eapply Hb in Hr; done.
Qed.

Lemma managed_effect {A} user env m t (body : managedMonitor -> Tx ConfigDB (TxEnd A)) (w : World ConfigDB O) :
  (forall x s0 s1 s' u, lock_managed (as_uuid user) (as_uuid env) (as_uuid m) s0 = (Ok x, s1) -> body x s1 = (Ok u, s') ->
    effect hash (as_uuid user) (as_uuid env) (tx_now s0) (tx_db s0) (tx_db s') /\ exists v, u = Commit v) ->
  w_db (lockManaged user env m t body w).2 = w_db w \/
  effect hash (as_uuid user) (as_uuid env) t (w_db w) (w_db (lockManaged user env m t body w).2).
Proof.
  intros Hb. unfold lockManaged. destruct (_ || _ || _); [by left|]. apply with_tx_effect.
  intros s u s' <- Hr. apply bind_ok in Hr as (x & s1 & H1 & Hr). by eapply Hb.
Qed.

Lemma serve_effect (s : Service) (c : call) (w : World ConfigDB O) :
  w_db (serve s c w).2 = w_db w \/
  effect hash (as_uuid (cl_user c)) (as_uuid (cl_env c)) (cl_time c) (w_db w) (w_db (serve s c w).2).
Proof.
  unfold serve. destruct (cl_request c) as [input|m input|m|m|m|m]; rewrite ?drop_state.
  - unfold Create. unfold mbind at 1 2, SE_bind at 1 2, of_res.
    destruct (normalizeCreateInput _ _ input) as [n|e]; [|by left]. apply with_tx_effect.
    intros s0 u s' <- Hr. by eapply create_effect.
  - unfold Update. destruct (normalizeCreateInput _ _ input) as [n|e]; [|by left]. destruct (negb _); [by left|].
    apply managed_effect. intros. by eapply update_effect.
  - apply managed_effect. intros. by eapply paused_effect.
  - apply managed_effect. intros. by eapply paused_effect.
  - apply managed_effect. intros. by eapply delete_effect.
  - apply managed_effect. intros. by eapply test_effect.
Qed.
End Requests.

(** ** The periods of a monitor tile its active time *)

(** Of two periods of one monitor the earlier in the table has ended when the later begins. *)
Definition chain (l : list SchedulePeriod) : Prop :=
  forall i j p q, (i < j)%nat -> l !! i = Some p -> l !! j = Some q -> per_monitor_id p = per_monitor_id q ->
    exists e, per_ends_at p = Some e /\ e <= per_starts_at q.

Definition on_grid (p : SchedulePeriod) (x : Z) : Prop :=
  exists k, 0 <= k /\ x = per_first_slot_at p + k * (per_interval_seconds p * second).

Record tiled (clock : Z) (d : DB) : Prop := {
  ti_live : forall m r, monitors d !! m = Some r -> is_live r = true ->
    mon_interval_seconds r ∈ allowedIntervals /\
    exists p, p ∈ schedule_periods d /\ per_monitor_id p = m /\ per_ends_at p = None /\
      per_interval_seconds p = mon_interval_seconds r /\ on_grid p (mon_next_check_at r);
  ti_open : forall p, p ∈ schedule_periods d -> per_ends_at p = None ->
    exists r, monitors d !! per_monitor_id p = Some r /\ is_live r = true;
  ti_period : forall p, p ∈ schedule_periods d ->
    0 <= per_starts_at p <= per_first_slot_at p /\ per_starts_at p <= clock /\ per_interval_seconds p ∈ allowedIntervals /\
    forall e, per_ends_at p = Some e -> per_starts_at p <= e <= clock;
  ti_chain : chain (schedule_periods d)
}.

Lemma open_of_spec m p : open_of m p = true <-> per_monitor_id p = m /\ per_ends_at p = None.
Proof. unfold open_of. rewrite andb_true_iff, String.eqb_eq. destruct (per_ends_at p); intuition congruence. Qed.

Lemma existsb_false {A} (f : A -> bool) l x : existsb f l = false -> x ∈ l -> f x = false.
Proof.
  intros Hf Hx. destruct (f x) eqn:E; [|done]. rewrite <- Hf. symmetry. apply existsb_exists.
  exists x. split; [by apply list_elem_of_In in Hx|done].
Qed.

Lemma chain_app l q : chain l ->
  (forall p, p ∈ l -> per_monitor_id p = per_monitor_id q -> exists e, per_ends_at p = Some e /\ e <= per_starts_at q) ->
  chain (l ++ [q]).
Proof.
  intros Hl Hq i j a b Hij Ha Hb Hm. apply lookup_app_Some in Hb as [Hb|[Hj Hb]].
  - rewrite lookup_app_l in Ha by (apply lookup_lt_Some in Hb; lia). by eapply (Hl i j).
  - apply list_lookup_singleton_Some in Hb as [Hj0 <-]. rewrite lookup_app_l in Ha by lia.
    apply Hq; [by eapply list_elem_of_lookup_2|done].
Qed.

Lemma closed_fields t m p :
  let q := if open_of m p then ended t p else p in
  per_monitor_id q = per_monitor_id p /\ per_starts_at q = per_starts_at p /\ per_first_slot_at q = per_first_slot_at p /\
  per_interval_seconds q = per_interval_seconds p /\
  (per_ends_at q = if open_of m p then Some t else per_ends_at p).
Proof. by destruct (open_of m p). Qed.

Lemma chain_closed t m l : chain l -> chain (closed_at t m l).
Proof.
  intros Hl i j a b Hij Ha Hb Hm. unfold closed_at in *. rewrite list_lookup_fmap in Ha, Hb.
  apply fmap_Some in Ha as (a0 & Ha & ->). apply fmap_Some in Hb as (b0 & Hb & ->).
  destruct (closed_fields t m a0) as (Ma & _ & _ & _ & Ea), (closed_fields t m b0) as (Mb & Sb & _).
  cbn zeta in *. rewrite Ma, Mb in Hm. destruct (Hl i j a0 b0) as (e & He & Hle); [done..|].
  assert (open_of m a0 = false) as Ho by (unfold open_of; rewrite He; by rewrite andb_false_r).
  exists e. by rewrite Ea, Sb, Ho.
Qed.

(** The open period of a monitor is the only one that can be open. *)
Lemma closed_at_elem t m l q : q ∈ closed_at t m l <->
  exists p, p ∈ l /\ q = if open_of m p then ended t p else p.
Proof. unfold closed_at. rewrite list_elem_of_fmap. split; intros (p & ? & ?); by exists p. Qed.

Lemma period_of_grid m t r : on_grid (period_of m t r) (mon_next_check_at r).
Proof. exists 0. simpl. lia. Qed.

Lemma tiled_later clock clock' d : clock <= clock' -> tiled clock d -> tiled clock' d.
Proof.
  intros Hc [T1 T2 T3 T4]. constructor; try done. intros p Hp. destruct (T3 p Hp) as (A & B & C & D).
  split; [done|]. split; [lia|]. split; [done|]. intros e He. specialize (D e He). lia.
Qed.

Lemma tiled_frame clock d d' : monitors d' = monitors d -> schedule_periods d' = schedule_periods d -> tiled clock d -> tiled clock d'.
Proof. intros E1 E2 [T1 T2 T3 T4]. constructor; rewrite ?E1, ?E2; done. Qed.

(** A row is written and the periods follow it: [l'] are the periods without an open one
    of the monitor. *)
Lemma tiled_write t d d' m r l' :
  0 <= t -> mon_interval_seconds r ∈ allowedIntervals -> (is_live r = true -> t <= mon_next_check_at r) ->
  monitors d' = <[m := r]> (monitors d) ->
  schedule_periods d' = l' ++ (if is_live r then [period_of m t r] else []) ->
  chain l' -> (forall p, p ∈ l' -> per_monitor_id p = m -> exists e, per_ends_at p = Some e) ->
  (forall p, p ∈ l' -> 0 <= per_starts_at p <= per_first_slot_at p /\ per_starts_at p <= t /\
    per_interval_seconds p ∈ allowedIntervals /\ forall e, per_ends_at p = Some e -> per_starts_at p <= e <= t) ->
  (forall p, per_monitor_id p <> m -> p ∈ l' <-> p ∈ schedule_periods d) ->
  tiled t d -> tiled t d'.
Proof.
  intros Ht Hi Hn Em Ep Hch Hclosed Hper Hother [T1 T2 T3 T4]. constructor; rewrite ?Em, ?Ep.
  - intros m' r' Hr' Hl. apply lookup_insert_Some in Hr' as [[<- <-]|[Hne Hr']].
    + split; [done|]. rewrite Hl. exists (period_of m t r). split; [apply elem_of_app; right; by left|].
      repeat split; try done. apply period_of_grid.
    + destruct (T1 m' r' Hr' Hl) as (Hv & p & Hp & Hm & He & Hs & Hg). split; [done|]. exists p.
      split; [|done]. apply elem_of_app. left. apply Hother; [congruence|done].
  - intros p [Hp|Hp]%elem_of_app He.
    + destruct (decide (per_monitor_id p = m)) as [Hm|Hm]; [destruct (Hclosed p Hp Hm); congruence|].
      rewrite lookup_insert_ne by congruence. apply T2; [by apply Hother|done].
    + destruct (is_live r) eqn:El; [|by apply elem_of_nil in Hp]. apply list_elem_of_singleton in Hp as ->.
      simpl. rewrite lookup_insert_eq. by exists r.
  - intros p [Hp|Hp]%elem_of_app; [by apply Hper|].
    destruct (is_live r) eqn:El; [|by apply elem_of_nil in Hp]. apply list_elem_of_singleton in Hp as ->.
    simpl. specialize (Hn eq_refl). repeat split; try lia; done.
  - destruct (is_live r); [|by rewrite app_nil_r]. apply chain_app; [done|]. intros p Hp Hm. simpl in *.
    destruct (Hclosed p Hp Hm) as [e He]. exists e. split; [done|]. destruct (Hper p Hp) as (_ & _ & _ & D).
    specialize (D e He). lia.
Qed.

Lemma live_next r i hash t m : monitor_check i r = true ->
  mon_next_check_at r = first_slot hash t m (mon_interval_seconds r) -> t <= mon_next_check_at r.
Proof.
  intros [Hi%allowed_bounds _]%interval_positive ->. apply first_slot_bounds. lia.
Qed.

Lemma ensure_state_frame m d :
  monitors (ensure_state m d) = monitors d /\ schedule_periods (ensure_state m d) = schedule_periods d.
Proof. unfold ensure_state. destruct (monitors d !! m), (reliability_states d !! m); done. Qed.

Lemma effect_tiled hash user env t d d' clock :
  0 <= clock <= t -> effect hash user env t d d' -> tiled clock (engine d) -> tiled t (engine d').
Proof.
  intros Hc He Ht. apply (tiled_later clock t) in Ht; [|lia].
  destruct He as [m r i org l Henv Horg Hu Hlim Hm Hck Ho Hev Hv Hlive Hnext Hno
    |m r r' i' l Hr Hev Hd Hu Ho Hev' Hv Hck Hnext Hst|m r j id o l Hr Hev Hd Hu Hlim Hj Hob Ht1 Ht2 Ht3 Ht4 Ht5 Ht6].
  - assert (monitors (engine d) !! m = None) as Hm' by done.
    eapply (tiled_write t (engine d) _ m r (schedule_periods (engine d))); try done; try lia.
    + by apply interval_positive in Hck as [? _].
    + intros _. by eapply live_next.
    + simpl. by rewrite (proj1 (ensure_state_frame _ _)).
    + simpl. rewrite (proj2 (ensure_state_frame _ _)). simpl. by rewrite Hlive.
    + apply Ht.
    + intros p Hp Hpm. pose proof (existsb_false _ _ _ Hno Hp) as Hf. destruct (per_ends_at p) as [e|] eqn:Ee; [by exists e|].
      assert (open_of m p = true) by (by apply open_of_spec). congruence.
    + intros p Hp. by apply (ti_period _ _ Ht).
  - eapply (tiled_write t (engine d) _ m r' (closed_at t m (schedule_periods (engine d)))); try done; try lia.
    + by apply interval_positive in Hck as [? _].
    + intros Hl. eapply live_next; [done|by apply Hnext].
    + apply chain_closed, Ht.
    + intros q Hq Hqm. apply closed_at_elem in Hq as (p & Hp & ->).
      destruct (closed_fields t m p) as (Fm & _ & _ & _ & Fe). cbn zeta in *. rewrite Fm in Hqm. rewrite Fe.
      destruct (open_of m p) eqn:Eo; [by exists t|]. destruct (per_ends_at p) as [e|] eqn:Ee; [by exists e|].
      assert (open_of m p = true) by (by apply open_of_spec). congruence.
    + intros q Hq. apply closed_at_elem in Hq as (p & Hp & ->). destruct (ti_period _ _ Ht p Hp) as (A & B & C & D).
      destruct (closed_fields t m p) as (Fm & Fs & Ff & Fi & Fe). cbn zeta in *. rewrite Fs, Ff, Fi, Fe.
      repeat split; try done; try lia; destruct (open_of m p) eqn:Eo; try (by apply D); injection H as <-; lia.
    + intros p Hpm. rewrite closed_at_elem. split.
      * intros (p0 & Hp0 & ->). destruct (open_of m p0) eqn:Eo; [|done]. apply open_of_spec in Eo as [Eo _]. done.
      * intros Hp. exists p. split; [done|]. destruct (open_of m p) eqn:Eo; [|done]. apply open_of_spec in Eo as [Eo _]. done.
  - revert Ht. by apply tiled_frame.
Qed.

(** *** The scheduler stays on the grid *)

(** The last instant at which the clock of the platform is considered: the year 2116. *)
Definition horizon : Z := 2 ^ 62.

Lemma tiled_alter clock d d' (f : Monitor -> Monitor) m :
  monitors d' = alter f m (monitors d) -> schedule_periods d' = schedule_periods d ->
  (forall r, monitors d !! m = Some r -> is_live (f r) = is_live r /\ mon_interval_seconds (f r) = mon_interval_seconds r /\
    exists k, 0 <= k /\ mon_next_check_at (f r) = mon_next_check_at r + k * (mon_interval_seconds r * second)) ->
  tiled clock d -> tiled clock d'.
Proof.
  intros Em Ep Hf [T1 T2 T3 T4]. constructor; rewrite ?Em, ?Ep; try done.
  - intros m' r' Hr' Hl. apply lookup_alter_Some in Hr' as [(<- & r & Hr & ->)|[Hne Hr']]; [|by apply T1].
    destruct (Hf r Hr) as (Fl & Fi & k & Hk & Fn). rewrite Fl in Hl.
    destruct (T1 _ _ Hr Hl) as (Hv & p & Hp & Hm & He & Hs & j & Hj & Hg). rewrite Fi. split; [done|].
    exists p. repeat split; try done. exists (j + k). rewrite Fn, Hg, Hs. split; lia.
  - intros p Hp He. destruct (T2 p Hp He) as (r & Hr & Hl). destruct (decide (per_monitor_id p = m)) as [E|Hne].
    + rewrite E in *. rewrite lookup_alter_eq, Hr. simpl. eexists. split; [done|]. by destruct (Hf r Hr) as (-> & _).
    + rewrite lookup_alter_ne by congruence. by exists r.
Qed.

(** What the loop knows of the rows it read at its start. *)
Definition current (d : DB) (m : dueMonitor) : Prop :=
  0 <= due_Next m /\ mon_interval_seconds (due_row m) ∈ allowedIntervals /\
  exists r, monitors d !! due_ID m = Some r /\ mon_interval_seconds r = mon_interval_seconds (due_row m).

Lemma schedule_one_periods {P : Primitives} sch env now c m X :
  keeps (tx_inv (fun d => schedule_periods d = X)) (schedule_one sch env now c m).
Proof.
  unfold schedule_one, NewScheduledJobID, InsertMonitoringCoverageGap, InsertMonitoringOperationalEvent, UpdateMonitorNextCheck,
    CreateScheduledCheckJob, CreateScheduledDispatchOutbox.
  repeat first [apply keeps_update; by intros ? ? ?|keep_step].
  - apply keeps_sql. intros now' d n d' Hi. case_decide; [by intros [= _ <-]|]. case_decide; [done|]. by intros [= _ <-].
  - apply keeps_sql. intros now' d n d' Hi. by destruct (outbox d !! _); [|intros [= _ <-]].
Qed.

Lemma schedule_one_tiled {P : Primitives} sch env now c m s c' s' clock :
  schedule_one sch env now c m s = (Ok c', s') -> current (tx_db s) m -> due_Next m <= now <= horizon ->
  tiled clock (tx_db s) ->
  tiled clock (tx_db s') /\ forall x, current (tx_db s) x -> current (tx_db s') x.
Proof.
  intros H (H0 & Hi & r & Hr & Hri) Hd Ht.
  pose proof (schedule_one_periods sch env now c m (schedule_periods (tx_db s)) s eq_refl) as Ep. rewrite H in Ep.
  apply schedule_one_turn in H as [[(next & Hn & Em) _ _ _ _] _]. apply allowed_bounds in Hi.
  destruct (nextSchedule_spec (due_Next m) now (mon_interval_seconds (due_row m))) as (next' & k & Hn' & Hk & Hnext & _);
    [lia|unfold horizon in Hd; split; [change min_int64 with (-9223372036854775808)|change (max_int64 - 2 ^ 31 * second) with 7075888388854775807]; lia|].
  split.
  - revert Ht. eapply tiled_alter; [exact Em|exact Ep|]. intros r0 Hr0. assert (r0 = r) as -> by congruence.
    destruct (Z.eqb_spec (mon_next_check_at r) (due_Next m)) as [E|]; simpl.
    + repeat split; try done. exists k. split; [lia|]. rewrite Hri. congruence.
    + repeat split; try done. exists 0. lia.
  - intros x (X0 & X1 & rx & Hx & Hxi). split; [done|]. split; [done|]. rewrite Em.
    destruct (decide (due_ID x = due_ID m)) as [E|Hne].
    + rewrite E in *. rewrite lookup_alter_eq, Hx. simpl. eexists. split; [done|]. by destruct (_ =? _).
    + rewrite lookup_alter_ne by congruence. by exists rx.
Qed.

Lemma schedule_loop_tiled {P : Primitives} sch env now due c s c' s' clock :
  foldM (schedule_one sch env now) c due s = (Ok c', s') ->
  Forall (fun m => current (tx_db s) m /\ due_Next m <= now <= horizon) due ->
  tiled clock (tx_db s) -> tiled clock (tx_db s').
Proof.
  revert c s. induction due as [|m due IH]; intros c s H Hf Ht; simpl in H; [by apply ret_ok in H as [_ <-]|].
  apply bind_ok in H as (c1 & s1 & H1 & H). apply Forall_cons in Hf as [[Hc Hd] Hf].
  destruct (schedule_one_tiled _ _ _ _ _ _ _ _ clock H1 Hc Hd Ht) as [Ht1 Hk].
  eapply IH; [exact H| |done]. eapply Forall_impl; [exact Hf|]. intros x [Hx Hx']. by split; [apply Hk|].
Qed.

Lemma ScheduleDue_tiled {P : Primitives} {O} sch env started batch (w : World DB O) clock :
  started <= horizon -> tiled clock (w_db w) -> tiled clock (w_db (ScheduleDue sch env started batch w).2).
Proof.
  intros Hs Ht. unfold ScheduleDue. destruct (_ || _); [done|].
  destruct (with_tx started (schedule_tx sch env batch) w) as [r w'] eqn:E. simpl.
  apply with_tx_db in E as [-> |(fs & a & s & H & ->)]; [done|]. unfold schedule_tx in H.
  apply bind_ok in H as (out & s1 & H1 & H). apply select_ok in H1 as [_ [D1 N1]].
  apply bind_ok in H as (now & s2 & H2 & H). apply select_ok in H2 as [-> [D2 N2]].
  apply bind_ok in H as (due & s3 & H3 & H). apply select_ok in H3 as [-> [D3 N3]].
  apply bind_ok in H as (c & s4 & H4 & H). apply ret_ok in H as [_ <-]. simpl in *.
  assert (tx_db s2 = w_db w) as E2 by congruence. assert (tx_db s3 = w_db w) as E3 by congruence.
  rewrite E2, N1 in H4. rewrite N2, N1 in H4. eapply schedule_loop_tiled; [exact H4| |by rewrite E3]. rewrite E3.
  apply Forall_forall. intros m Hm. apply due_monitors_rows in Hm as (Hr & (Hd & Hp & Hdel & _) & _). simpl in *.
  assert (is_live (due_row m) = true) as Hl by (unfold is_live; by rewrite !bool_decide_true).
  destruct (ti_live _ _ Ht _ _ Hr Hl) as (Hi & p & Hp' & _ & _ & Hpi & k & Hk & Hg).
  destruct (ti_period _ _ Ht p Hp') as (A & _). pose proof (allowed_bounds _ Hi).
  split; [|unfold due_Next; lia]. split; [|split; [done|by exists (due_row m)]].
  unfold due_Next. rewrite Hg, Hpi. unfold second. lia.
Qed.

(** ** The platform as a sequence of requests and scheduler passes *)

Section Platform.
Context {P : Primitives} `{UrlLib} (hash : string -> Z) (json : Codec (gmap string string)).
Context (visit : gmap string string -> list (string * string)) (s : Service).

(** The clock is that of the last request; faults of the database and whatever else lies
    outside are any. *)
Inductive config_step : Z * ConfigDB -> Z * ConfigDB -> Prop :=
| cs_request {O} clock (w : World ConfigDB O) c :
    clock <= cl_time c ->
    config_step (clock, w_db w) (cl_time c, w_db (serve hash json visit s c w).2)
| cs_schedule {O} clock d (w : World DB O) sch env started batch :
    started <= horizon -> w_db w = engine d ->
    config_step (clock, d) (clock, on_engine (fun _ => w_db (ScheduleDue sch env started batch w).2) d).

Lemma config_step_tiled x y : config_step x y -> 0 <= x.1 -> tiled x.1 (engine x.2) -> 0 <= y.1 /\ tiled y.1 (engine y.2).
Proof.
  intros [O clock w c Hc|O clock d w sch env started batch Hs Hw] H0 Ht; simpl in *.
  - split; [lia|]. destruct (serve_effect hash json visit s c w) as [-> |He]; [by eapply tiled_later|].
    eapply effect_tiled; [|exact He|exact Ht]. lia.
  - split; [done|]. apply ScheduleDue_tiled; [done|by rewrite Hw].
Qed.


Lemma config_steps_tiled x y : rtc config_step x y -> 0 <= x.1 -> tiled x.1 (engine x.2) -> tiled y.1 (engine y.2).
Proof.
  induction 1 as [x|x y z Hs Hr IH]; [done|]. intros H0 Ht. destruct (config_step_tiled _ _ Hs H0 Ht). by apply IH.
Qed.
End Platform.

(** *** What reports expect is what is scheduled *)

(** The instants at which a report over [from, to) expects a check of the monitor. *)
Definition expected_of (m : string) (from to : Z) (d : DB) : list Z :=
  filter (fun p => per_monitor_id p = m) (schedule_periods d) ≫= expected_slots from to.

Lemma chain_cons p l : chain (p :: l) ->
  chain l /\ forall q, q ∈ l -> per_monitor_id p = per_monitor_id q -> exists e, per_ends_at p = Some e /\ e <= per_starts_at q.
Proof.
  intros Hc. split.
  - intros i j a b Hij Ha Hb. apply (Hc (S i) (S j)); [lia|done|done].
  - intros q [j Hj]%list_elem_of_lookup. apply (Hc 0%nat (S j)); [lia|done|done].
Qed.

Lemma expected_elem m from to d x : x ∈ expected_of m from to d <->
  exists p, p ∈ schedule_periods d /\ per_monitor_id p = m /\ x ∈ expected_slots from to p.
Proof.
  unfold expected_of. rewrite list_elem_of_bind. split.
  - intros (p & Hx & Hp). apply list_elem_of_filter in Hp as [Hm Hp]. by exists p.
  - intros (p & Hp & Hm & Hx). exists p. split; [done|]. by apply list_elem_of_filter.
Qed.

Lemma expected_NoDup m from to l :
  chain l -> Forall (fun p => 0 < per_interval_seconds p) l ->
  NoDup (filter (fun p => per_monitor_id p = m) l ≫= expected_slots from to).
Proof.
  induction l as [|p l IH]; intros Hc Hf; [constructor|]. apply chain_cons in Hc as [Hc Hp].
  apply Forall_cons in Hf as [Hi Hf]. rewrite filter_cons. case_decide as Hm; [|by apply IH].
  rewrite bind_cons. apply NoDup_app. destruct (expected_slots_spec from to p Hi) as [Hnd Hs].
  split; [done|]. split; [|by apply IH]. intros x Hx Hx'. apply Hs in Hx as (_ & _ & _ & _ & Hend).
  apply list_elem_of_bind in Hx' as (q & Hq & Hqin). apply list_elem_of_filter in Hqin as [Hqm Hqin].
  destruct (Hp q Hqin) as (e & He & Hle); [congruence|].
  apply (expected_slots_spec from to q) in Hq as (_ & _ & Hst & _); [|by apply (proj1 (Forall_forall _ _) Hf)].
  rewrite He in Hend. simpl in Hend. unfold microsecond in Hend. lia.
Qed.

(** C12: reports and scheduler agree, in every state the platform reaches ([tiled]): no instant
    is expected twice; the next slot of a monitor that is neither paused nor deleted is
    expected by every report over it; and what is expected lies in a period of the
    monitor, so that nothing is expected of the time it was paused or after it was
    deleted. *)
Theorem expected_matches_schedule (clock : Z) (d : DB) (m : string) (from to : Z) :
  tiled clock d ->
  NoDup (expected_of m from to d) /\
  (forall r, monitors d !! m = Some r -> is_live r = true ->
    from <= mon_next_check_at r -> mon_next_check_at r + microsecond <= to -> mon_next_check_at r ∈ expected_of m from to d) /\
  (forall x, x ∈ expected_of m from to d -> exists p, p ∈ schedule_periods d /\ per_monitor_id p = m /\ on_grid p x /\
    per_starts_at p <= x /\ match per_ends_at p with
                            | Some e => x < e
                            | None => exists r, monitors d !! m = Some r /\ is_live r = true
                            end).
Proof.
  intros Ht. assert (forall p, p ∈ schedule_periods d -> 0 < per_interval_seconds p) as Hpos.
  { intros p Hp. destruct (ti_period _ _ Ht p Hp) as (_ & _ & Hi & _). apply allowed_bounds in Hi. lia. }
  split; [|split].
  - apply expected_NoDup; [apply Ht|]. by apply Forall_forall.
  - intros r Hr Hl Hf Hto. destruct (ti_live _ _ Ht m r Hr Hl) as (Hi & p & Hp & Hm & He & Hs & Hg).
    apply expected_elem. exists p. split; [done|]. split; [done|]. apply expected_slots_spec; [by apply Hpos|].
    split; [exact Hg|]. destruct Hg as (k & Hk & Hg). destruct (ti_period _ _ Ht p Hp) as ([_ A] & _).
    rewrite He. simpl. pose proof (Hpos p Hp). repeat split; try done. unfold second in *. nia.
  - intros x Hx. apply expected_elem in Hx as (p & Hp & Hm & Hx).
    apply expected_slots_spec in Hx as (Hg & _ & Hst & _ & Hend); [|by apply Hpos]. exists p. repeat split; try done.
    destruct (per_ends_at p) as [e|] eqn:Ee; [simpl in Hend; unfold microsecond in Hend; lia|].
    destruct (ti_open _ _ Ht p Hp Ee) as (r & Hr & Hl). exists r. by rewrite <- Hm.
Qed.

(** *** The limit of monitors *)

Definition tenants (d : DB) : gmap string (string * option Z) :=
  (fun r => (mon_organization_id r, mon_deleted_at r)) <$> monitors d.


Lemma organization_monitors_size org d :
  organization_monitors org d = Z.of_nat (size (filter (fun x => live_in org x.2) (monitors d))).
Proof.
  unfold organization_monitors. rewrite <- length_map_to_list. f_equal. apply Permutation_length. rewrite map_filter_alt.
  symmetry. apply map_to_list_to_map. eapply sublist_NoDup; [apply (NoDup_fst_map_to_list (monitors d))|].
  apply fmap_sublist, sublist_filter.
Qed.

Lemma organization_monitors_tenants org d :
  organization_monitors org d = Z.of_nat (size (filter (fun x => x.2 = (org, None)) (tenants d))).
Proof.
  rewrite organization_monitors_size. unfold tenants. rewrite map_filter_fmap, map_size_fmap. do 2 f_equal.
  apply map_filter_ext. intros i r _. unfold live_in. simpl. split; [by intros [-> ->]|by intros [= -> ->]].
Qed.

Lemma count_insert_new org d d' m r : monitors d !! m = None -> monitors d' = <[m := r]> (monitors d) ->
  organization_monitors org d' <= organization_monitors org d + (if decide (live_in org r) then 1 else 0).
Proof.
  intros Hm E. rewrite !organization_monitors_size, E. case_decide as Hl.
  - rewrite map_filter_insert_True by done. rewrite map_size_insert_None; [lia|]. apply map_lookup_filter_None. by left.
  - rewrite map_filter_insert_not' by (simpl; congruence). lia.
Qed.

Lemma count_replace org d d' m r r' : monitors d !! m = Some r -> mon_deleted_at r = None ->
  mon_organization_id r' = mon_organization_id r -> monitors d' = <[m := r']> (monitors d) ->
  organization_monitors org d' <= organization_monitors org d.
Proof.
  intros Hm Hd Ho E. rewrite !organization_monitors_size, E. destruct (decide (live_in org r')) as [Hl|Hl].
  - rewrite map_filter_insert_True by done. rewrite map_size_insert_Some; [lia|]. exists r.
    apply map_lookup_filter_Some. split; [done|]. split; [destruct Hl; simpl; congruence|done].
  - rewrite map_filter_insert_False by done. apply Nat2Z.inj_le. apply map_subseteq_size, map_filter_strong_subseteq_ext.
    intros i x. rewrite lookup_delete_Some. tauto.
Qed.

Lemma effect_limit hash user env t d d' : effect hash user env t d d' ->
  (forall org, organization_monitors org (engine d) <= maximumMonitorsPerOrg) ->
  forall org, organization_monitors org (engine d') <= maximumMonitorsPerOrg.
Proof.
  intros He Hlim o. specialize (Hlim o).
  destruct He as [m r i org l Henv Horg Hu Hlt Hm Hck Ho Hev Hv Hlive Hnext Hno
    |m r r' i' l Hr Hev Hd Hu Ho Hev' Hv Hck Hnext Hst|m r j id ob l Hr Hev Hd Hu Hlt Hj Hob Ht1 Ht2 Ht3 Ht4 Ht5 Ht6].
  - etrans; [eapply (count_insert_new o (engine d) _ m r); [done|]|].
    + simpl. by rewrite (proj1 (ensure_state_frame _ _)).
    + case_decide as Hl; [|lia]. destruct Hl as [El _]. assert (o = org) as -> by congruence. lia.
  - etrans; [|exact Hlim]. by eapply (count_replace o (engine d) _ m r r').
  - exact Hlim.
Qed.

Lemma tenants_alter (f : Monitor -> Monitor) m d d' :
  (forall r, mon_organization_id (f r) = mon_organization_id r /\ mon_deleted_at (f r) = mon_deleted_at r) ->
  monitors d' = alter f m (monitors d) -> tenants d' = tenants d.
Proof.
  intros Hf E. unfold tenants. rewrite E. apply map_eq. intros i. rewrite !lookup_fmap.
  destruct (decide (i = m)) as [->|Hn]; [|by rewrite lookup_alter_ne].
  rewrite lookup_alter_eq. destruct (monitors d !! m) as [r|]; [|done]. simpl. by destruct (Hf r) as [-> ->].
Qed.

Lemma schedule_tenants {P : Primitives} {O} sch env started batch (w : World DB O) :
  tenants (w_db (ScheduleDue sch env started batch w).2) = tenants (w_db w).
Proof.
  apply (keeps_final (w_inv (fun d => tenants d = tenants (w_db w)))); [|done].
  unfold ScheduleDue, schedule_tx, schedule_one, CountActiveScheduledJobs, GetDatabaseTime, ListDueScheduledMonitors,
    NewScheduledJobID, InsertMonitoringCoverageGap, InsertMonitoringOperationalEvent, UpdateMonitorNextCheck,
    CreateScheduledCheckJob, CreateScheduledDispatchOutbox.
  repeat first [apply keeps_update; intros ? ? <-; eapply tenants_alter; [|reflexivity]; intros r; simpl; by destruct (_ =? _)
               |apply keeps_update; by intros ? ? ?|keep_step].
  - apply keeps_sql. intros now d n d' Hi. case_decide; [by intros [= _ <-]|]. case_decide; [done|]. by intros [= _ <-].
  - apply keeps_sql. intros now d n d' Hi. by destruct (outbox d !! _); [|intros [= _ <-]].
Qed.

Lemma config_step_limit {P : Primitives} `{UrlLib} hash json visit (s : Service) (x y : Z * ConfigDB) :
  config_step hash json visit s x y ->
  (forall org, organization_monitors org (engine x.2) <= maximumMonitorsPerOrg) ->
  forall org, organization_monitors org (engine y.2) <= maximumMonitorsPerOrg.
Proof.
  intros [O clock w c Hc|O clock d w sch env started batch Hst Hw] Hx; simpl in *.
  - destruct (serve_effect hash json visit s c w) as [-> |He]; [done|]. by eapply effect_limit.
  - intros org. rewrite organization_monitors_tenants, schedule_tenants, Hw, <- organization_monitors_tenants. apply Hx.
Qed.

(** C11: whatever the members ask and whenever the scheduler runs, with any faults of the
    database: as long as the transactions of the requests begin in the order in which they
    run, every monitor that is neither paused nor deleted has exactly one open schedule
    period, with the interval of the monitor, and the next slot of the scheduler is on the
    grid of that period; every other monitor has none; a period of a monitor ends before
    the next one begins; and no organization has more than 100 monitors. *)
Theorem periods_tile {P : Primitives} `{UrlLib} hash json visit (s : Service) (x y : Z * ConfigDB) :
  rtc (config_step hash json visit s) x y -> 0 <= x.1 -> tiled x.1 (engine x.2) ->
  (forall org, organization_monitors org (engine x.2) <= maximumMonitorsPerOrg) ->
  tiled y.1 (engine y.2) /\ forall org, organization_monitors org (engine y.2) <= maximumMonitorsPerOrg.
Proof.
  intros Hr H0 Ht Hl. split; [by eapply config_steps_tiled|]. clear H0 Ht.
  induction Hr as [x|x y z Hs Hr IH]; [done|]. apply IH. by eapply config_step_limit.
Qed.

(** *** Only managers, and only the monitor named *)

Definition periods_of (m : string) (d : DB) : list SchedulePeriod := filter (fun p => per_monitor_id p = m) (schedule_periods d).

Lemma periods_closed t m m' l : m <> m' ->
  filter (fun p => per_monitor_id p = m) (closed_at t m' l) = filter (fun p => per_monitor_id p = m) l.
Proof.
  intros Hn. induction l as [|p l IH]; [done|]. unfold closed_at in *. rewrite fmap_cons, !filter_cons, IH.
  destruct (closed_fields t m' p) as (Fm & _). cbn zeta in Fm. rewrite Fm. case_decide as Hm; [|done].
  assert (open_of m' p = false) as ->; [|done]. unfold open_of. destruct (String.eqb_spec (per_monitor_id p) m'); [congruence|done].
Qed.

Lemma periods_appended m p l : per_monitor_id p <> m -> filter (fun p => per_monitor_id p = m) (l ++ [p]) = filter (fun p => per_monitor_id p = m) l.
Proof. intros Hn. rewrite filter_app, filter_cons_False by done. apply app_nil_r. Qed.

(** C13: tenants are isolated: a monitor that is not in the environment a request names, or that
    belongs to an organization the user may not manage, keeps its row and its schedule
    periods and gets no job, whatever the request is; and a request of a user who may
    manage nothing changes nothing at all. *)
Theorem tenants_isolated {P : Primitives} `{UrlLib} {O} hash json visit (s : Service) (c : call) (w : World ConfigDB O) :
  let d := w_db w in let d' := w_db (serve hash json visit s c w).2 in
  let user := as_uuid (cl_user c) in
  (forall m r, monitors (engine d) !! m = Some r ->
    mon_environment_id r <> as_uuid (cl_env c) \/ ~ may_manage user (mon_organization_id r) d ->
    monitors (engine d') !! m = Some r /\ periods_of m (engine d') = periods_of m (engine d) /\
    forall id j, check_jobs (engine d') !! id = Some j -> cj_monitor_id j = m -> check_jobs (engine d) !! id = Some j) /\
  ((forall org, ~ may_manage user org d) -> d' = d).
Proof.
  intros d d' user. destruct (serve_effect hash json visit s c w) as [E|He].
  { unfold d'. rewrite E. split; [|done]. intros m r Hr _. by repeat split. }
  fold d d' user in He. split.
  2: { intros Hno. destruct He as [m r i org l Henv Horg Hu|m r r' i' l Hr Hev Hd Hu|m r j id o l Hr Hev Hd Hu];
       by apply Hno in Hu. }
  intros m r Hr Hout.
  destruct He as [m0 r0 i org l Henv Horg Hu Hlt Hm Hck Ho Hev Hv Hlive Hnext Hno
    |m0 r0 r' i' l Hr0 Hev Hd Hu Ho Hev' Hv Hck Hnext Hst|m0 r0 j id ob l Hr0 Hev Hd Hu Hlt Hj Hob Ht1 Ht2 Ht3 Ht4 Ht5 Ht6].
  - assert (m0 <> m) as Hne by congruence. unfold with_monitor, periods_of. simpl.
    rewrite (proj1 (ensure_state_frame _ _)), (proj2 (ensure_state_frame _ _)). simpl.
    rewrite lookup_insert_ne by done. split; [done|]. split; [by apply periods_appended|].
    intros id j. unfold ensure_state. simpl. rewrite lookup_insert_eq. by destruct (reliability_states (engine d) !! m0).
  - assert (m0 <> m) as Hne by (intros ->; assert (r0 = r) as -> by congruence; destruct Hout; congruence || done).
    unfold with_monitor, periods_of. simpl. rewrite lookup_insert_ne by done. split; [done|]. split; [|done].
    destruct (is_live r'); [|rewrite app_nil_r; by apply periods_closed].
    rewrite periods_appended by done. by apply periods_closed.
  - assert (m0 <> m) as Hne by (intros ->; assert (r0 = r) as -> by congruence; destruct Hout; congruence || done).
    unfold on_engine, periods_of. simpl. split; [done|]. split; [done|].
    intros id' j' [[<- <-]|[_ Hj']]%lookup_insert_Some Hjm; [congruence|done].
Qed.

(** ** Reading back *)

Lemma query_select {O A} t (q : Z -> ConfigDB -> A) (w : World ConfigDB O) :
  w_faults w = [] -> query t (select q) w = (Ok (q t (w_db w)), w).
Proof. destruct w as [d o u k fs]. simpl. intros ->. reflexivity. Qed.

Lemma query_select_one {O A} t (q : Z -> ConfigDB -> option A) (w : World ConfigDB O) :
  w_faults w = [] -> query t (select_one q) w = (match q t (w_db w) with Some a => Ok a | None => Err ErrNoRows end, w).
Proof.
  destruct w as [d o u k fs]. simpl. intros ->. unfold query, with_tx, mbind, SE_bind, select_one, sql. simpl.
  by destruct (q t d).
Qed.

Lemma manage_read role : Allows role PermissionMonitorsManage = true -> Allows role PermissionMonitorsRead = true.
Proof. intros [_ [->|[->|[->| ->]]]]%Allows_spec; reflexivity. Qed.

(** The names a member sees are those of the headers that were stored. *)
Lemma stored_names {P : Primitives} {L : PrimitiveLaws} json visit (s : Service) headers nonce c v names :
  (forall m, visit m ≡ₚ map_to_list m) -> json_inverts json -> slen nonce = 12 ->
  (forall n, Normalize (visit headers) = Ok n -> ascii_map n) ->
  encryptHeaders json visit s headers (Ok nonce) = Ok (c, v, names) -> headers_check c (nullableInt32 v) = true ->
  headerNames json visit s c (nullableInt32 v) = names.
Proof.
  intros Hv Hj Hn Ha He Hc. unfold encryptHeaders in He. destruct (size headers =? 0)%nat; [by injection He as <- <- <-|].
  destruct (Encrypt _ _ _ _ _) as [[c' v']|] eqn:Ee; [|done]. injection He as <- <- <-.
  destruct (Encrypt_inverse json visit (sv_headers s) headers nonce c' v' Hv Hj Hn Ha Ee) as (n & En & Ed).
  rewrite En. unfold headerNames, nullableInt32 in *. destruct (v' =? 0) eqn:E0.
  - simpl in Hc. apply String.eqb_eq in Hc. subst c'. unfold Decrypt in Ed. simpl in Ed. injection Ed as <-. reflexivity.
  - simpl in Hc. destruct (Z.eqb_spec (slen c') 0) as [Es|Es]; [|by rewrite Ed].
    destruct c'; [done|]. unfold slen in Es. simpl in Es. lia.
Qed.

(** The tables [Create] leaves, as the reading queries see them. *)
Lemma created_reads d id r i f l user env org member :
  let d' := with_monitor id r i (fun e => on_refresh_events (fun _ => l) (ensure_state id (on_schedule_periods f e))) d in
  environments d !! env = Some org -> organizations d !! org = Some None ->
  org_members (engine d) !! (org, user) = Some member ->
  mon_organization_id r = org -> mon_environment_id r = env -> mon_deleted_at r = None ->
  environment_role user env d' = Some (org, role_text (om_role member)) /\ tenant_row org env id d' = Some (r, i) /\
  exists st, (r ← monitors (engine d') !! id;
    if String.eqb (mon_organization_id r) org && String.eqb (mon_environment_id r) env
    then rs_display_state <$> reliability_states (engine d') !! id else None) = Some st.
Proof.
  intros d' Henv Horg Hmem Ho He Hd.
  assert (exists rs, engine d' = on_refresh_events (fun _ => l) (on_reliability_states (fun _ => rs)
    (on_schedule_periods f (on_monitors <[id := r]> (engine d)))) /\ is_Some (rs !! id)) as (rs & E & x & Hx).
  { unfold d', with_monitor, ensure_state. simpl. rewrite lookup_insert_eq.
    destruct (reliability_states (engine d) !! id) as [y|] eqn:Ey.
    - exists (reliability_states (engine d)). by rewrite Ey.
    - eexists. split; [reflexivity|]. by rewrite lookup_insert_eq. }
  assert (monitors (engine d') !! id = Some r) as Hr by (rewrite E; simpl; by rewrite lookup_insert_eq).
  assert (environments d' = environments d /\ organizations d' = organizations d) as [E1 E2] by done.
  assert (monitor_info d' !! id = Some i) as E3 by (simpl; by rewrite lookup_insert_eq).
  clearbody d'. split; [|split].
  - unfold environment_role. rewrite E1, E2, Henv. simpl. rewrite Horg. simpl. rewrite E. simpl. by rewrite Hmem.
  - unfold tenant_row, monitor_row. rewrite Hr, E3. simpl.
    rewrite Ho, He, Hd, !String.eqb_refl. by rewrite bool_decide_true.
  - rewrite Hr. simpl. rewrite Ho, He, !String.eqb_refl. rewrite E. simpl. rewrite Hx. by eexists.
Qed.

Lemma normalized_fields `{UrlLib} user env input n : normalizeCreateInput user env input = Ok n ->
  n = defaulted input /\ uuidPattern user = true /\ uuidPattern env = true.
Proof.
  unfold normalizeCreateInput. destruct (uuidPattern user), (uuidPattern env); try done.
  destruct (_ || _); [done|]. destruct (negb _); [done|]. destruct (_ || _); [done|]. by intros [= <-].
Qed.

(** What [Create] answers is what [Get] reads back: the member that created a monitor gets
    it, in any later state with the same tables, as [Create] returned it, down to the names
    of its headers, which are encrypted in between.  The identifier is one that
    gen_random_uuid returned. *)
Theorem Create_Get {P : Primitives} {L : PrimitiveLaws} `{UrlLib} {O O'} hash json visit (s : Service)
    (user env : string) (input : CreateInput) (t t' : Z) (nonce : bytes) (v : View)
    (w w' : World ConfigDB O) (w2 : World ConfigDB O') :
  (forall m, visit m ≡ₚ map_to_list m) -> json_inverts json -> slen nonce = 12 ->
  (forall n, Normalize (visit (in_Headers input)) = Ok n -> ascii_map n) ->
  Create hash json visit s user env input t (Ok nonce) w = (Ok v, w') ->
  uuidPattern (v_ID v) = true -> as_uuid (v_ID v) = v_ID v ->
  w_db w2 = w_db w' -> w_faults w2 = [] ->
  exists detail, Get json visit s user env (v_ID v) t' w2 = (Ok detail, w2) /\ dt_Monitor detail = v.
Proof.
  intros Hv Hj Hn Ha Hc Hu Hlow Hdb Hf. unfold Create in Hc.
  destruct (normalizeCreateInput user env input) as [n|] eqn:En; [|done].
  unfold mbind, SE_bind, of_res in Hc. apply with_tx_ok in Hc as (_ & fs & st & [(Hrun & _ & Ew)|(Hrun & _)]);
    apply create_tx_ok in Hrun as (id & org & c & kv & names & l & Henv & Horg & (member & Hmem & Hallow) & _ & Henc & _ & Hck & _ & Hd & Hu');
    [|done].
  cbn [tx_db tx_now] in *. injection Hu' as ->. cbn [v_ID view] in *.
  apply normalized_fields in En as (-> & Uu & Ue). cbn [in_Headers defaulted] in Henc.
  set (r := created_row _ _ _ _ _ _ _ _) in Hd, Hck |- *. set (i := mkInfo _ _ _) in Hd, Hck |- *.
  set (f := fun ps : list SchedulePeriod => _) in Hd.
  destruct (created_reads (w_db w) id r i f l (as_uuid user) (as_uuid env) org member) as (R1 & R2 & shown & R3); [done..|].
  rewrite <- Hd, <- Ew, <- Hdb in R1, R2, R3.
  unfold Get. rewrite Uu, Ue, Hu, Hlow. cbn [negb orb].
  assert (authorized_read t' (as_uuid user) (as_uuid env) w2 = (Ok org, w2)) as Hread.
  { unfold authorized_read. erewrite bind_run; [|apply try_run, query_select_one, Hf]. rewrite R1. cbn [negb].
    by rewrite (manage_read _ Hallow). }
  erewrite bind_run; [|exact Hread]. erewrite bind_run; [|apply try_run, query_select_one, Hf].
  rewrite R2. cbn [fmap option_fmap option_map]. erewrite bind_run; [|etrans; [apply query_select_one, Hf|cbv beta; by rewrite R3]].
  erewrite bind_run; [|apply query_select, Hf]. eexists. split; [reflexivity|].
  cbn [dt_Monitor]. unfold full_view. cbn [fst snd].
  unfold r. cbn [mon_headers_ciphertext mon_header_key_version created_row]. fold r. f_equal.
  eapply stored_names; try done. unfold monitor_check in Hck. by apply andb_true_iff in Hck as [_ Hck].
Qed.

(** ** One tenant *)

Module OneTenant.
#[global] Existing Instance Toy.primitives.
#[global] Existing Instance Toy.laws.
#[global] Instance lib : UrlLib :=
  Build_UrlLib (fun _ => Some (mkURL "https" "" None "example.test" "/" "" "")) (fun _ => "https://example.test/") (fun _ _ => None).

Definition user : string := "11111111-1111-4111-8111-111111111111".
Definition env : string := "22222222-2222-4222-8222-222222222222".
Definition mon : string := "33333333-3333-4333-8333-333333333333".
Definition org : string := "44444444-4444-4444-8444-444444444444".
Definition hash (_ : string) : Z := 0.
Definition service : Service := mkService (mkKeyring 2 {[2 := Toy.rep 32 "k"]}) (Toy.rep 64 "k") "pk".
Definition input : CreateInput := mkInput " API " "https://example.test/" 60 0 0 0 "get" {["x-probe" := "1"]} "pool".
Definition db (deleted : option Z) : ConfigDB :=
  mkConfig (on_org_members (fun _ => {[(org, user) := mkOrgMember Member true]})
             (on_worker_pools (fun _ => {["hosted" := Pass.pool None; "pool" := Pass.pool (Some "https://queue")]}) empty_db))
    ∅ {[env := org]} {[org := deleted]}.
Definition world (d : ConfigDB) : World ConfigDB () := mkWorld d () (fun _ => mon) 0 [].
Definition nonce : res bytes := Ok (Toy.rep 12 "n").
Definition ask (r : request) (t : Z) : call := mkCall user env r t t nonce (Ok "e").
Definition run (r : request) (t : Z) (w : World ConfigDB ()) : World ConfigDB () :=
  (serve hash bits_codec map_to_list service (ask r t) w).2.

Definition w0 : World ConfigDB () := world (db None).
Definition w1 : World ConfigDB () := run (RCreate input) 0 w0.
Definition w2 : World ConfigDB () := run (RPause mon) (10 * second) w1.
Definition w3 : World ConfigDB () := run (RResume mon) (20 * second) w2.

Lemma request_step r t clock w : clock <= t ->
  config_step hash bits_codec map_to_list service (clock, w_db w) (t, w_db (run r t w)).
Proof. intros Ht. exact (cs_request hash bits_codec map_to_list service clock w (ask r t) Ht). Qed.

Lemma reached : rtc (config_step hash bits_codec map_to_list service) (0, w_db w0) (20 * second, w_db w3).
Proof.
  eapply rtc_l; [exact (request_step (RCreate input) 0 0 w0 (Z.le_refl 0))|].
  eapply rtc_l; [exact (request_step (RPause mon) (10 * second) 0 w1 ltac:(unfold second; lia))|].
  apply rtc_once. exact (request_step (RResume mon) (20 * second) (10 * second) w2 ltac:(unfold second; lia)).
Qed.

Lemma start_tiled : tiled 0 (engine (w_db w0)).
Proof. constructor; simpl; try (by intros ? ?%elem_of_nil); [intros m r; by rewrite lookup_empty|]. intros i j p q _ Hi. by destruct i. Qed.

Lemma start_limit o : organization_monitors o (engine (w_db w0)) <= maximumMonitorsPerOrg.
Proof. unfold organization_monitors. simpl. by rewrite map_to_list_empty. Qed.

Lemma tiled3 : tiled (20 * second) (engine (w_db w3)).
Proof. exact (config_steps_tiled _ _ _ _ _ _ reached (Z.le_refl 0) start_tiled). Qed.
End OneTenant.

(** Created, paused ten seconds later and resumed after ten more: two periods, the first
    closed by the pause. *)
Lemma periods_tile_witness :
  map (fun p => (per_starts_at p, per_ends_at p)) (schedule_periods (engine (w_db OneTenant.w3)))
    = [(0, Some (10 * second)); (20 * second, None)] /\
  tiled (20 * second) (engine (w_db OneTenant.w3)) /\
  forall org, organization_monitors org (engine (w_db OneTenant.w3)) <= maximumMonitorsPerOrg.
Proof.
  split; [vm_compute; reflexivity|].
  apply (periods_tile OneTenant.hash bits_codec map_to_list OneTenant.service (0, w_db OneTenant.w0) (20 * second, w_db OneTenant.w3));
    [apply OneTenant.reached|done|apply OneTenant.start_tiled|apply OneTenant.start_limit].
Defined.

Lemma expected_matches_schedule_witness :
  expected_of OneTenant.mon 0 (2 * minute) (engine (w_db OneTenant.w3)) = [0; 20 * second; 80 * second] /\
  NoDup (expected_of OneTenant.mon 0 (2 * minute) (engine (w_db OneTenant.w3))).
Proof.
  split; [vm_compute; reflexivity|].
  apply (expected_matches_schedule (20 * second) (engine (w_db OneTenant.w3)) OneTenant.mon 0 (2 * minute)), OneTenant.tiled3.
Defined.

Lemma Create_Get_witness :
  exists v w', Create OneTenant.hash bits_codec map_to_list OneTenant.service OneTenant.user OneTenant.env OneTenant.input 0
      OneTenant.nonce OneTenant.w0 = (Ok v, w') /\ v_HeaderNames v = ["X-Probe"] /\
    exists detail, Get bits_codec map_to_list OneTenant.service OneTenant.user OneTenant.env (v_ID v) 5
      (OneTenant.world (w_db w')) = (Ok detail, OneTenant.world (w_db w')) /\ dt_Monitor detail = v.
Proof.
  destruct (Create OneTenant.hash bits_codec map_to_list OneTenant.service OneTenant.user OneTenant.env OneTenant.input 0
      OneTenant.nonce OneTenant.w0) as [r w'] eqn:E.
  assert (match r with Ok v => (v_ID v, v_HeaderNames v) | Err _ => ("", []) end = (OneTenant.mon, ["X-Probe"])) as Hr.
  { replace r with ((Create OneTenant.hash bits_codec map_to_list OneTenant.service OneTenant.user OneTenant.env
      OneTenant.input 0 OneTenant.nonce OneTenant.w0).1) by (by rewrite E). vm_compute. reflexivity. }
  destruct r as [v|e]; [|done]. injection Hr as Hid Hn. exists v, w'. split; [done|]. split; [done|].
  eapply (Create_Get OneTenant.hash bits_codec map_to_list OneTenant.service OneTenant.user OneTenant.env OneTenant.input 0 5
    (Toy.rep 12 "n") v OneTenant.w0 w'); [done|apply bits_codec_inverts|reflexivity| |exact E|rewrite Hid; reflexivity..|done|done].
  intros n Hn'. change (Ok ({["X-Probe" := "1"]} : gmap string string) = Ok n) in Hn'. injection Hn' as <-.
  apply map_Forall_singleton. split; reflexivity.
Defined.

(** ** Two gaps of the code *)

(** Deleting an organization marks its row; creating a monitor then fails, but the queries
    behind every other change do not look at the mark: a member still resumes, tests and
    changes the monitors of a deleted organization, and the scheduler still runs them. *)
Theorem deleted_organization_monitored :
  let gone (w : World ConfigDB ()) := OneTenant.world (mkConfig (engine (w_db w)) (monitor_info (w_db w)) (environments (w_db w))
                  {[OneTenant.org := Some (15 * second)]}) in
  (Create OneTenant.hash bits_codec map_to_list OneTenant.service OneTenant.user OneTenant.env OneTenant.input (100 * second)
     OneTenant.nonce (gone OneTenant.w2)).1 = Err ErrEnvironmentNotFound /\
  is_ok (Resume OneTenant.hash bits_codec map_to_list OneTenant.service OneTenant.user OneTenant.env OneTenant.mon (100 * second)
     (gone OneTenant.w2)).1 = true /\
  (ScheduleDue Pass.scheduler Pass.env (110 * second) 10
     (mkWorld (engine (w_db (OneTenant.run (RResume OneTenant.mon) (100 * second) (gone OneTenant.w2)))) () (fun _ => "j1") 0 [])).1 = Ok 1.
Proof. split; [vm_compute; reflexivity|]. split; vm_compute; reflexivity. Qed.

(** The order of the clocks matters: CURRENT_TIMESTAMP is when a transaction began, so a
    resume that began before a pause but got the lock of the row after it opens a period
    that begins before the last one ended; the report then expects two checks in twenty
    seconds of a monitor checked every minute. *)
Theorem late_resume_overlaps :
  let w := OneTenant.run (RResume OneTenant.mon) (10 * second) (OneTenant.run (RPause OneTenant.mon) (20 * second) OneTenant.w1) in
  map (fun p => (per_starts_at p, per_ends_at p)) (schedule_periods (engine (w_db w)))
    = [(0, Some (20 * second)); (10 * second, None)] /\
  expected_of OneTenant.mon 0 (20 * second) (engine (w_db w)) = [0; 10 * second].
Proof. split; vm_compute; reflexivity. Qed.
