(* ===== verification/Ownership.v ===== *)
(** * Ownership of tenants (src/internal/ownership, with the queries of ownership.sql.go and ownership_management.sql.go)

    Organizations with their members, projects and environments, and the invitations by
    which members join.  [TenantDB] adds to [ConfigDB] (organizations, environments and the
    engine's members and users) the columns and tables only this package reads; the
    constraints of the migrations are part of the statements.

    [uuid_in], PostgreSQL's cast of a text to uuid, and the parser of mail addresses are
    arguments; a text that is no uuid makes the statement fail.  Roles are texts in the code
    and an enumeration in the tables.  The mail sender acts on a state of its own; the flag
    beside an error is not modelled.

    The theorems: the membership of an organization changes only by the four rules of
    [membership_change]; so an organization keeps the owner it was created with, and an
    invitation is accepted once, with the role it was made for; and the hierarchy of
    organizations, projects, environments and monitors stays closed. *)

From stdpp Require Import base gmap list strings sorting.
From Stdlib Require Import ZArith Lia Ascii String Bool.
From S2P Require Import Prelude Tx Store Bytes Envelope Sealing Scheduler Reliability Notification.
From S2P Require Import Authorization Incident Destination HttpClient Credentials Monitors.
Import Secureheaders.

(** ** Errors and limits *)

Definition ErrInvalidOwnership : error := ErrorsNew "invalid ownership input".
Definition ErrSlugInUse : error := ErrorsNew "organization slug already in use".
Definition ErrOrganizationNotFound : error := ErrorsNew "organization not found".
Definition ErrOwnershipForbidden : error := ErrorsNew "permission denied".
Definition ErrAlreadyMember : error := ErrorsNew "organization member already exists".
Definition ErrInvalidInvitation : error := ErrorsNew "invalid organization invitation".
Definition ErrEmailNotVerified : error := ErrorsNew "verified email required".
Definition ErrProjectNotFound : error := ErrorsNew "project not found".
Definition ErrDeleteConflict : error := ErrorsNew "tenant resource is not empty".
Definition ErrMemberNotFound : error := ErrorsNew "member not found".

(** A violation of the index organizations_slug_unique_idx, which the code recognises by
    its name. *)
Definition ErrSlugConstraint : error := ErrorsNew "23505 organizations_slug_unique_idx".

Definition maximumNameBytes : Z := 120.
Definition maximumSlugBytes : Z := 63.
Definition maximumDescriptionBytes : Z := 1000.
Definition invitationLifetime : Z := 7 * 24 * hour.

(** [^[a-z0-9](?:[a-z0-9-]{0,61}[a-z0-9])?$]. *)
Definition slug_char (c : ascii) : bool := pool_char c || Ascii.eqb c "-".
Fixpoint last_char (d : ascii) (s : string) : ascii :=
  match s with "" => d | String c r => last_char c r end.
Definition slugPattern (s : string) : bool :=
  match s with
  | "" => false
  | String c r => pool_char c && (slen r <=? 62) && forall_char slug_char r && pool_char (last_char c r)
  end.

(** ** Tables *)

Record OrgInfo : Type := mkOrgInfo { oi_name : string; oi_slug : string; oi_created_at : Z }.

Record ProjectRow : Type := mkProject {
  pj_organization_id : string;
  pj_name : string;
  pj_description : string;
  pj_created_at : Z;
  pj_updated_at : Z
}.

Record EnvInfo : Type := mkEnvInfo {
  ei_project_id : string;
  ei_name : string;
  ei_type : string;
  ei_created_at : Z;
  ei_updated_at : Z
}.

Record InvitationRow : Type := mkInvitation {
  iv_organization_id : string;
  iv_invited_by : string;
  iv_email : string;
  iv_role : member_role;
  iv_digest : bytes;
  iv_expires_at : Z;
  iv_accepted_at : option Z;
  iv_created_at : Z
}.

Record AuditRow : Type := mkAudit {
  au_organization_id : string; au_actor : string; au_action : string; au_resource : string; au_id : string
}.

Record TenantDB : Type := mkTenant {
  config : ConfigDB;
  org_info : gmap string OrgInfo;
  member_since : gmap (string * string) Z;
  projects : gmap string ProjectRow;
  env_info : gmap string EnvInfo;
  invitations : gmap string InvitationRow;
  audit_logs : list AuditRow
}.

Definition members (d : TenantDB) : gmap (string * string) OrgMember := org_members (engine (config d)).
Definition user_rows (d : TenantDB) : gmap string UserRow := users (engine (config d)).
Definition orgs (d : TenantDB) : gmap string (option Z) := organizations (config d).
Definition envs (d : TenantDB) : gmap string string := environments (config d).

Definition on_members (f : gmap (string * string) OrgMember -> gmap (string * string) OrgMember)
    (g : gmap (string * string) Z -> gmap (string * string) Z) (d : TenantDB) : TenantDB :=
  mkTenant (on_engine (on_org_members f) (config d)) (org_info d) (g (member_since d)) (projects d) (env_info d) (invitations d) (audit_logs d).
Definition on_orgs (f : gmap string (option Z) -> gmap string (option Z)) (g : gmap string OrgInfo -> gmap string OrgInfo)
    (d : TenantDB) : TenantDB :=
  mkTenant (mkConfig (engine (config d)) (monitor_info (config d)) (environments (config d)) (f (organizations (config d))))
    (g (org_info d)) (member_since d) (projects d) (env_info d) (invitations d) (audit_logs d).
Definition on_envs (f : gmap string string -> gmap string string) (g : gmap string EnvInfo -> gmap string EnvInfo)
    (d : TenantDB) : TenantDB :=
  mkTenant (mkConfig (engine (config d)) (monitor_info (config d)) (f (environments (config d))) (organizations (config d)))
    (org_info d) (member_since d) (projects d) (g (env_info d)) (invitations d) (audit_logs d).
Definition on_projects (f : gmap string ProjectRow -> gmap string ProjectRow) (d : TenantDB) : TenantDB :=
  mkTenant (config d) (org_info d) (member_since d) (f (projects d)) (env_info d) (invitations d) (audit_logs d).
Definition on_invitations (f : gmap string InvitationRow -> gmap string InvitationRow) (d : TenantDB) : TenantDB :=
  mkTenant (config d) (org_info d) (member_since d) (projects d) (env_info d) (f (invitations d)) (audit_logs d).
Definition on_audit (f : list AuditRow -> list AuditRow) (d : TenantDB) : TenantDB :=
  mkTenant (config d) (org_info d) (member_since d) (projects d) (env_info d) (invitations d) (f (audit_logs d)).
Definition on_events (f : list RefreshEvent -> list RefreshEvent) (d : TenantDB) : TenantDB :=
  mkTenant (on_engine (on_refresh_events f) (config d)) (org_info d) (member_since d) (projects d) (env_info d) (invitations d) (audit_logs d).

Definition role_of (s : string) : option member_role :=
  if String.eqb s RoleOwner then Some Owner else if String.eqb s RoleAdmin then Some Admin
  else if String.eqb s RoleMember then Some Member else if String.eqb s RoleViewer then Some Viewer else None.

Definition null {A} (o : option A) : bool := match o with None => true | Some _ => false end.

(** ** Statements *)

Section Statements.
Context (uuid_in : string -> option string).

(** A statement with a text parameter that is cast to uuid. *)
Definition as_id {A} (s : string) (q : string -> TenantDB -> res A * TenantDB) (d : TenantDB) : res A * TenantDB :=
  match uuid_in s with Some id => q id d | None => (Err ErrSyntax, d) end.

(** A read that finds at most one row. *)
Definition one_row {A} (q : TenantDB -> option A) (d : TenantDB) : res A * TenantDB :=
  (match q d with Some a => Ok a | None => Err ErrNoRows end, d).

(** *** Organizations and members *)

Definition slug_key (s : string) : string := to_lower (btrim s).
Definition slug_taken (slug : string) (d : TenantDB) : bool :=
  existsb (fun x => String.eqb (slug_key (oi_slug x.2)) (slug_key slug)) (map_to_list (org_info d)).

Definition create_organization (now : Z) (id name slug : string) (d : TenantDB) : res (string * OrgInfo) * TenantDB :=
  let row := mkOrgInfo name slug now in
  if String.eqb (btrim name) "" || String.eqb (btrim slug) "" then (Err ErrCheckViolation, d)
  else if negb (null (orgs d !! id)) then (Err ErrUniqueViolation, d)
  else if slug_taken slug d then (Err ErrSlugConstraint, d)
  else (Ok (id, row), on_orgs <[id := None]> <[id := row]> d).
Definition CreateOrganization (name slug : string) : Tx TenantDB (string * OrgInfo) :=
  id ← gen_random_uuid; sql (fun now => create_organization now id name slug).

(** A row of org_members: its keys, the references and the index on owners. *)
Definition insert_member (now : Z) (org user : string) (role : member_role) (d : TenantDB) : res () * TenantDB :=
  if null (orgs d !! org) || null (user_rows d !! user) then (Err ErrForeignKeyViolation, d)
  else if negb (null (members d !! (org, user)))
     || (bool_decide (role = Owner) && existsb (fun x => String.eqb x.1.1 org && bool_decide (om_role x.2 = Owner)) (map_to_list (members d)))
  then (Err ErrUniqueViolation, d)
  else (Ok (), on_members <[(org, user) := mkOrgMember role true]> <[(org, user) := now]> d).
Definition CreateOwnerMembership (organizationID userID : string) : Tx TenantDB () :=
  sql (fun now => as_id organizationID (fun org => as_id userID (fun user => insert_member now org user Owner))).

Definition member_role_in (org user : string) (d : TenantDB) : option Role := (fun m => role_text (om_role m)) <$> members d !! (org, user).
Definition live_org (org : string) (d : TenantDB) : bool := bool_decide (orgs d !! org = Some None).

Definition GetOrganizationMembershipRole (organizationID userID : string) : Tx TenantDB Role :=
  sql (fun _ => as_id organizationID (fun org => as_id userID (fun user => one_row (fun d =>
    if live_org org d then member_role_in org user d else None)))).
Definition member_role_query (organizationID userID : string) : Tx TenantDB Role :=
  sql (fun _ => as_id organizationID (fun org => as_id userID (fun user => one_row (member_role_in org user)))).
Definition LockOrganizationMemberRole := member_role_query.
Definition GetOrganizationMemberRole := member_role_query.
Definition GetOrganizationMemberNotificationPreference (organizationID userID : string) : Tx TenantDB bool :=
  sql (fun _ => as_id organizationID (fun org => as_id userID (fun user => one_row (fun d =>
    om_incident_notifications_enabled <$> members d !! (org, user))))).

Record MemberView : Type := mkMemberView {
  mv_UserID : string; mv_Email : string; mv_Role : Role; mv_IncidentNotificationsEnabled : bool; mv_CreatedAt : Z
}.
Definition member_view (org user : string) (d : TenantDB) : option MemberView :=
  u ← user_rows d !! user;
  m ← members d !! (org, user);
  Some (mkMemberView user (usr_email u) (role_text (om_role m)) (om_incident_notifications_enabled m)
          (default 0 (member_since d !! (org, user)))).

(** The CHECK of the role and the index on owners; no row without its user. *)
Definition update_member (org user : string) (role : Role) (notify : bool) (d : TenantDB) : res MemberView * TenantDB :=
  match user_rows d !! user, members d !! (org, user) with
  | Some u, Some m =>
      match role_of role with
      | None => (Err ErrCheckViolation, d)
      | Some r =>
          if bool_decide (r = Owner) && existsb (fun x => String.eqb x.1.1 org && negb (String.eqb x.1.2 user)
               && bool_decide (om_role x.2 = Owner)) (map_to_list (members d)) then (Err ErrUniqueViolation, d)
          else let d' := on_members <[(org, user) := mkOrgMember r notify]> (fun x => x) d in
               (match member_view org user d' with Some v => Ok v | None => Err ErrNoRows end, d')
      end
  | _, _ => (Err ErrNoRows, d)
  end.
Definition UpdateOrganizationMember (role : Role) (notify : bool) (organizationID userID : string) : Tx TenantDB MemberView :=
  sql (fun _ => as_id organizationID (fun org => as_id userID (fun user => update_member org user role notify))).

Definition DeleteOrganizationMember (organizationID userID : string) : Tx TenantDB () :=
  sql (fun _ => as_id organizationID (fun org => as_id userID (fun user d =>
    (Ok (), on_members (delete (org, user)) (delete (org, user)) d)))).

(** [ORDER BY org_members.created_at, users.id LIMIT 100]. *)
Definition ListOrganizationMembers (organizationID : string) : Tx TenantDB (list MemberView) :=
  sql (fun _ => as_id organizationID (fun org d =>
    (Ok (snd <$> take 100 (order_by_key (omap (fun x => if String.eqb x.1.1 org
       then (fun v => ((mv_CreatedAt v, mv_UserID v), v)) <$> member_view org x.1.2 d else None) (map_to_list (members d))))), d))).

Record OrgView : Type := mkOrgView { ov_ID : string; ov_Name : string; ov_Slug : string; ov_Role : Role; ov_CreatedAt : Z }.
Definition org_view (user org : string) (d : TenantDB) : option OrgView :=
  if live_org org d then
    i ← org_info d !! org;
    role ← member_role_in org user d;
    Some (mkOrgView org (oi_name i) (oi_slug i) role (oi_created_at i))
  else None.
Definition GetAccessibleOrganization (userID organizationID : string) : Tx TenantDB OrgView :=
  sql (fun _ => as_id organizationID (fun org => as_id userID (fun user => one_row (org_view user org)))).
Definition ListAccessibleOrganizations (userID : string) : Tx TenantDB (list OrgView) :=
  sql (fun _ => as_id userID (fun user d =>
    (Ok (snd <$> take 100 (order_by_key (omap (fun x => (fun v => ((ov_CreatedAt v, ov_ID v), v)) <$> org_view user x.1 d)
       (map_to_list (org_info d))))), d))).
Definition UpdateOrganizationName (name organizationID : string) : Tx TenantDB () :=
  sql (fun _ => as_id organizationID (fun org d =>
    if negb (live_org org d) then (Ok (), d) else if String.eqb (btrim name) "" then (Err ErrCheckViolation, d)
    else (Ok (), on_orgs (fun x => x) (alter (fun i => mkOrgInfo name (oi_slug i) (oi_created_at i)) org) d))).
Definition SoftDeleteOrganization (organizationID : string) : Tx TenantDB () :=
  sql (fun now => as_id organizationID (fun org d =>
    (Ok (), if live_org org d then on_orgs <[org := Some now]> (fun x => x) d else d))).

(** *** Invitations *)

Definition ExistingOrganizationMemberByEmail (organizationID email : string) : Tx TenantDB bool :=
  sql (fun _ => as_id organizationID (fun org d =>
    (Ok (existsb (fun x => String.eqb x.1.1 org && match user_rows d !! x.1.2 with
                                                   | Some u => String.eqb (to_lower (btrim (usr_email u))) email
                                                   | None => false
                                                   end) (map_to_list (members d))), d))).

Definition accepted (now : Z) (r : InvitationRow) : InvitationRow :=
  mkInvitation (iv_organization_id r) (iv_invited_by r) (iv_email r) (iv_role r) (iv_digest r) (iv_expires_at r) (Some now) (iv_created_at r).
Definition pending_for (org email : string) (r : InvitationRow) : bool :=
  String.eqb (iv_organization_id r) org && String.eqb (to_lower (btrim (iv_email r))) email && null (iv_accepted_at r).
Definition invalidate (now : Z) (org email : string) (d : TenantDB) : res Z * TenantDB :=
  if existsb (fun x => pending_for org email x.2 && (now <? iv_created_at x.2)) (map_to_list (invitations d)) then (Err ErrCheckViolation, d)
  else (Ok (Z.of_nat (Datatypes.length (filter (fun x => pending_for org email x.2 = true) (map_to_list (invitations d))))),
        on_invitations (fmap (fun r => if pending_for org email r then accepted now r else r)) d).
Definition InvalidatePendingInvitation (organizationID email : string) : Tx TenantDB Z :=
  sql (fun now => as_id organizationID (fun org => invalidate now org email)).

Definition create_invitation (now : Z) (id org by_ email : string) (role : Role) (digest : bytes) (expires : Z) (d : TenantDB) : res () * TenantDB :=
  match role_of role with
  | None | Some Owner => (Err ErrCheckViolation, d)
  | Some r =>
      if String.eqb (btrim email) "" || (254 <? slen email) || negb (slen digest =? 32) || negb (now <? expires)
      then (Err ErrCheckViolation, d)
      else if null (orgs d !! org) || null (user_rows d !! by_) then (Err ErrForeignKeyViolation, d)
      else if negb (null (invitations d !! id)) || existsb (fun x => String.eqb (iv_digest x.2) digest) (map_to_list (invitations d))
           || existsb (fun x => pending_for org (to_lower (btrim email)) x.2) (map_to_list (invitations d))
      then (Err ErrUniqueViolation, d)
      else (Ok (), on_invitations <[id := mkInvitation org by_ email r digest expires None now]> d)
  end.
Definition CreateOrganizationInvitation (organizationID userID email : string) (role : Role) (digest : bytes) (expires : Z) : Tx TenantDB () :=
  id ← gen_random_uuid;
  sql (fun now => as_id organizationID (fun org => as_id userID (fun user => create_invitation now id org user email role digest expires))).

Definition LockOrganizationInvitation (digest : bytes) : Tx TenantDB (string * InvitationRow) :=
  select_one (fun _ d => head (filter (fun x => iv_digest x.2 = digest) (map_to_list (invitations d)))).

(** The common table expression updates the row; the member is inserted from it. *)
Definition accept_invitation (now : Z) (user id : string) (d : TenantDB) : res Z * TenantDB :=
  match invitations d !! id with
  | Some r =>
      if negb (null (iv_accepted_at r)) then (Ok 0, d)
      else if now <? iv_created_at r then (Err ErrCheckViolation, d)
      else
        let d' := on_invitations <[id := accepted now r]> d in
        if negb (null (members d !! (iv_organization_id r, user))) then (Ok 0, d')
        else match insert_member now (iv_organization_id r) user (iv_role r) d' with
             | (Ok _, d'') => (Ok 1, d'')
             | (Err e, _) => (Err e, d)
             end
  | None => (Ok 0, d)
  end.
Definition AcceptOrganizationInvitation (userID invitationID : string) : Tx TenantDB Z :=
  sql (fun now => as_id invitationID (fun id => as_id userID (fun user => accept_invitation now user id))).

(** *** Projects and environments *)

Definition project_role (user project : string) (d : TenantDB) : option (string * Role) :=
  p ← projects d !! project;
  if live_org (pj_organization_id p) d then (fun r => (pj_organization_id p, r)) <$> member_role_in (pj_organization_id p) user d else None.
Definition AuthorizeProjectMembership (userID projectID : string) : Tx TenantDB (string * Role) :=
  sql (fun _ => as_id projectID (fun project => as_id userID (fun user => one_row (project_role user project)))).

Definition env_role (user env : string) (d : TenantDB) : option (string * Role) :=
  org ← envs d !! env;
  if live_org org d then (fun r => (org, r)) <$> member_role_in org user d else None.
Definition AuthorizeEnvironmentMembership (userID environmentID : string) : Tx TenantDB (string * Role) :=
  sql (fun _ => as_id environmentID (fun env => as_id userID (fun user => one_row (env_role user env)))).

Definition insert_project (now : Z) (id org name description : string) (d : TenantDB) : res (string * ProjectRow) * TenantDB :=
  let row := mkProject org name description now now in
  if String.eqb (btrim name) "" then (Err ErrCheckViolation, d)
  else if null (orgs d !! org) then (Err ErrForeignKeyViolation, d)
  else if negb (null (projects d !! id)) then (Err ErrUniqueViolation, d)
  else (Ok (id, row), on_projects <[id := row]> d).
Definition CreateProjectRow (organizationID name description : string) : Tx TenantDB (string * ProjectRow) :=
  id ← gen_random_uuid; sql (fun now => as_id organizationID (fun org => insert_project now id org name description)).
Definition CreateTenantProject := CreateProjectRow.

Definition GetTenantProject (projectID : string) : Tx TenantDB (string * ProjectRow) :=
  sql (fun _ => as_id projectID (fun id => one_row (fun d => (fun p => (id, p)) <$> projects d !! id))).
Definition ListTenantProjects (organizationID : string) : Tx TenantDB (list (string * ProjectRow)) :=
  sql (fun _ => as_id organizationID (fun org d =>
    (Ok ((fun x => (x.1.2, x.2)) <$> take 100 (order_by_key ((fun x => ((pj_created_at x.2, x.1), x.2)) <$>
       filter (fun x => pj_organization_id x.2 = org) (map_to_list (projects d))))), d))).
Definition UpdateTenantProject (name description projectID : string) : Tx TenantDB (string * ProjectRow) :=
  sql (fun now => as_id projectID (fun id d =>
    match projects d !! id with
    | None => (Err ErrNoRows, d)
    | Some p =>
        let row := mkProject (pj_organization_id p) name description (pj_created_at p) now in
        if String.eqb (btrim name) "" then (Err ErrCheckViolation, d) else (Ok (id, row), on_projects <[id := row]> d)
    end)).
Definition in_project (project : string) (d : TenantDB) : bool :=
  existsb (fun x => String.eqb (ei_project_id x.2) project) (map_to_list (env_info d)).
Definition DeleteEmptyTenantProject (projectID : string) : Tx TenantDB Z :=
  sql (fun _ => as_id projectID (fun id d =>
    match projects d !! id with
    | Some _ => if in_project id d then (Ok 0, d) else (Ok 1, on_projects (delete id) d)
    | None => (Ok 0, d)
    end)).

(** The reference (organization, project); the type is one of three. *)
Definition env_type (kind : string) : bool :=
  String.eqb kind "production" || String.eqb kind "staging" || String.eqb kind "development".
Definition insert_environment (now : Z) (id org project name kind : string) (d : TenantDB) : res (string * string * EnvInfo) * TenantDB :=
  let row := mkEnvInfo project name kind now now in
  if String.eqb (btrim name) "" || negb (env_type kind) then (Err ErrCheckViolation, d)
  else match projects d !! project with
       | Some p =>
           if negb (String.eqb (pj_organization_id p) org) then (Err ErrForeignKeyViolation, d)
           else if negb (null (envs d !! id)) then (Err ErrUniqueViolation, d)
           else (Ok (id, org, row), on_envs <[id := org]> <[id := row]> d)
       | None => (Err ErrForeignKeyViolation, d)
       end.
Definition CreateTenantEnvironment (organizationID projectID name kind : string) : Tx TenantDB (string * string * EnvInfo) :=
  id ← gen_random_uuid;
  sql (fun now => as_id organizationID (fun org => as_id projectID (fun project => insert_environment now id org project name kind))).
Definition CreateProductionEnvironment (organizationID projectID : string) : Tx TenantDB (string * string * EnvInfo) :=
  CreateTenantEnvironment organizationID projectID "Production" "production".

Definition env_row (id : string) (d : TenantDB) : option (string * string * EnvInfo) :=
  org ← envs d !! id; i ← env_info d !! id; Some (id, org, i).
Definition GetTenantEnvironment (environmentID : string) : Tx TenantDB (string * string * EnvInfo) :=
  sql (fun _ => as_id environmentID (fun id => one_row (env_row id))).
Definition ListTenantEnvironments (projectID : string) : Tx TenantDB (list (string * string * EnvInfo)) :=
  sql (fun _ => as_id projectID (fun project d =>
    (Ok (snd <$> take 100 (order_by_key (omap (fun x => if String.eqb (ei_project_id x.2) project
       then (fun r => ((ei_created_at x.2, x.1), r)) <$> env_row x.1 d else None) (map_to_list (env_info d))))), d))).
Definition UpdateTenantEnvironment (name kind environmentID : string) : Tx TenantDB (string * string * EnvInfo) :=
  sql (fun now => as_id environmentID (fun id d =>
    match env_row id d with
    | None => (Err ErrNoRows, d)
    | Some (_, org, i) =>
        let row := mkEnvInfo (ei_project_id i) name kind (ei_created_at i) now in
        if String.eqb (btrim name) "" || negb (env_type kind) then (Err ErrCheckViolation, d)
        else (Ok (id, org, row), on_envs (fun x => x) <[id := row]> d)
    end)).

(** Monitors, deleted ones too, keep their environment; the events that name it go with it. *)
Definition has_monitors (env : string) (d : TenantDB) : bool :=
  existsb (fun x => String.eqb (mon_environment_id x.2) env) (map_to_list (monitors (engine (config d)))).
Definition DeleteEmptyTenantEnvironment (environmentID : string) : Tx TenantDB Z :=
  sql (fun _ => as_id environmentID (fun id d =>
    match envs d !! id with
    | Some _ => if has_monitors id d then (Ok 0, d)
                else (Ok 1, on_events (filter (fun e => re_environment_id e <> id)) (on_envs (delete id) (delete id) d))
    | None => (Ok 0, d)
    end)).

(** *** Events *)

(** [NULLIF(environment, '')]: a null environment is the empty text. *)
Definition tenant_event (org env event resource id : string) (d : TenantDB) : res () * TenantDB :=
  if null (orgs d !! org) || negb (String.eqb env "" || bool_decide (envs d !! env = Some org)) then (Err ErrForeignKeyViolation, d)
  else (Ok (), on_events (fun l => l ++ [mkRefreshEvent org env event resource id]) d).
Definition InsertTenantRefreshEvent (organizationID environmentID event resource id : string) : Tx TenantDB () :=
  sql (fun _ => as_id organizationID (fun org => as_id id (fun id d =>
    if String.eqb environmentID "" then tenant_event org "" event resource id d
    else as_id environmentID (fun env => tenant_event org env event resource id) d))).
Definition InsertAuditLog (organizationID userID action resource id : string) : Tx TenantDB () :=
  sql (fun _ => as_id organizationID (fun org => as_id userID (fun user => as_id id (fun id d =>
    if null (orgs d !! org) || null (user_rows d !! user) then (Err ErrForeignKeyViolation, d)
    else (Ok (), on_audit (fun l => l ++ [mkAudit org user action resource id]) d))))).
End Statements.

(** ** The service *)

Record TenantProject : Type := mkTenantProject {
  tp_ID : string; tp_OrganizationID : string; tp_Name : string; tp_Description : string; tp_Role : Role;
  tp_AllowedActions : list string; tp_CreatedAt : Z; tp_UpdatedAt : Z
}.
Definition project_view (x : string * ProjectRow) (role : Role) : TenantProject :=
  mkTenantProject x.1 (pj_organization_id x.2) (pj_name x.2) (pj_description x.2) role (AllowedActions role)
    (pj_created_at x.2) (pj_updated_at x.2).

Record TenantEnvironment : Type := mkTenantEnvironment {
  te_ID : string; te_OrganizationID : string; te_ProjectID : string; te_Name : string; te_Type : string; te_Role : Role;
  te_AllowedActions : list string; te_CreatedAt : Z; te_UpdatedAt : Z
}.
Definition environment_view (x : string * string * EnvInfo) (role : Role) : TenantEnvironment :=
  mkTenantEnvironment x.1.1 x.1.2 (ei_project_id x.2) (ei_name x.2) (ei_type x.2) role (AllowedActions role)
    (ei_created_at x.2) (ei_updated_at x.2).

Record OrganizationView : Type := mkOrganizationView { or_row : OrgView; or_AllowedActions : list string }.
Definition organization_view (v : OrgView) : OrganizationView := mkOrganizationView v (AllowedActions (ov_Role v)).

Record CreateDefaultInput : Type := mkDefaultInput {
  di_OrganizationName : string; di_OrganizationSlug : string; di_ProjectName : string; di_ProjectDescription : string
}.
Record DefaultResult : Type := mkDefaultResult {
  dr_Organization : string * OrgInfo; dr_Membership : string * string * Role; dr_Project : string * ProjectRow;
  dr_Environment : string * string * EnvInfo
}.
Record Invitation : Type := mkInvitationView { in_OrganizationID : string; in_Email : string; in_Role : Role; in_ExpiresAt : Z }.
Record Membership : Type := mkMembership { ms_OrganizationID : string; ms_UserID : string; ms_Role : Role }.

Definition normalizeInput (userID : string) (input : CreateDefaultInput) : res CreateDefaultInput :=
  let n := mkDefaultInput (TrimSpace (di_OrganizationName input)) (to_lower (TrimSpace (di_OrganizationSlug input)))
             (TrimSpace (di_ProjectName input)) (TrimSpace (di_ProjectDescription input)) in
  if String.eqb userID "" || String.eqb (di_OrganizationName n) "" || (maximumNameBytes <? slen (di_OrganizationName n))
     || negb (slugPattern (di_OrganizationSlug n)) || (maximumSlugBytes <? slen (di_OrganizationSlug n))
     || String.eqb (di_ProjectName n) "" || (maximumNameBytes <? slen (di_ProjectName n))
     || (maximumDescriptionBytes <? slen (di_ProjectDescription n))
  then Err ErrInvalidOwnership else Ok n.

Definition eventType (action : string) : string :=
  if has_prefix action "project." then "project.changed"
  else if has_prefix action "environment." then "environment.changed"
  else if has_prefix action "membership." then "membership.changed"
  else "organization.changed".

Section Service.
Context {P : Primitives} (uuid_in : string -> option string) (ParseAddress : string -> option string) {O : Type}.
(** [SendInvitation] of the account action sender. *)
Context (SendInvitation : string -> string -> O -> res () * O).

Definition recordAudit (org actor action resource id : string) : Tx TenantDB () := InsertAuditLog uuid_in org actor action resource id.
Definition recordTenantChange (org : string) (env : option string) (actor action resource id : string) : Tx TenantDB () :=
  _ ← InsertTenantRefreshEvent uuid_in org (default "" env) (eventType action) resource id;
  recordAudit org actor action resource id.

(** A query whose missing row is an error of the package. *)
Definition or_missing {D A} (e : error) (q : Tx D A) : Tx D A :=
  r ← try_ q;
  match r with
  | Ok a => mret a
  | Err ErrNoRows => throw e
  | Err e => throw e
  end.

Definition roleTx (userID organizationID : string) : Tx TenantDB Role :=
  or_missing ErrOrganizationNotFound (GetOrganizationMembershipRole uuid_in organizationID userID).
Definition projectRoleTx (userID projectID : string) : Tx TenantDB (string * Role) :=
  or_missing ErrProjectNotFound (AuthorizeProjectMembership uuid_in userID projectID).
Definition environmentRoleTx (userID environmentID : string) : Tx TenantDB (string * Role) :=
  or_missing ErrEnvironmentNotFound (AuthorizeEnvironmentMembership uuid_in userID environmentID).

(** A query outside of any transaction. *)
Definition tenant_query {A} (t : Z) (q : Tx TenantDB A) : SE (World TenantDB O) A := with_tx t (a ← q; mret (Rollback a)).

Definition default_tx (userID : string) (n : CreateDefaultInput) : Tx TenantDB (TxEnd DefaultResult) :=
  organization ← try_ (CreateOrganization (di_OrganizationName n) (di_OrganizationSlug n));
  match organization with
  | Err e => throw (if bool_decide (e = ErrSlugConstraint) then ErrSlugInUse else e)
  | Ok organization =>
      _ ← CreateOwnerMembership uuid_in organization.1 userID;
      project ← CreateProjectRow uuid_in organization.1 (di_ProjectName n) (di_ProjectDescription n);
      environment ← CreateProductionEnvironment uuid_in organization.1 project.1;
      _ ← recordTenantChange organization.1 (Some environment.1.1) userID "environment.created" "environment" environment.1.1;
      mret (Commit (mkDefaultResult organization (organization.1, userID, "owner") project environment))
  end.
Definition CreateDefault (t : Z) (userID : string) (input : CreateDefaultInput) : SE (World TenantDB O) DefaultResult :=
  n ← of_res (normalizeInput userID input); with_tx t (default_tx userID n).

(** *** Members *)

Definition currentRole (t : Z) (userID organizationID : string) : SE (World TenantDB O) Role :=
  if negb (uuidPattern userID) || negb (uuidPattern organizationID) then throw ErrOrganizationNotFound else
  r ← try_ (tenant_query t (GetOrganizationMembershipRole uuid_in organizationID userID));
  match r with
  | Ok role => mret role
  | Err ErrNoRows => throw ErrOrganizationNotFound
  | Err e => throw e
  end.

Definition ListMembers (t : Z) (userID organizationID : string) : SE (World TenantDB O) (list MemberView) :=
  role ← currentRole t userID organizationID;
  if negb (Allows role PermissionMembersRead) then throw ErrOwnershipForbidden
  else tenant_query t (ListOrganizationMembers uuid_in organizationID).

Definition normalizeEmail (email : string) : res string :=
  let normalized := to_lower (TrimSpace email) in
  if negb (bool_decide (ParseAddress normalized = Some normalized)) || (254 <? slen normalized) then Err ErrInvalidOwnership
  else Ok normalized.

Definition invite_tx (userID organizationID email : string) (role : Role) (now : Z) (random : res bytes) :
    Tx TenantDB (Invitation + (string * string * Z)) :=
  current ← or_missing ErrOrganizationNotFound (GetOrganizationMembershipRole uuid_in organizationID userID);
  if negb (Allows current PermissionMembersInvite) then throw ErrOwnershipForbidden else
  exists_ ← ExistingOrganizationMemberByEmail uuid_in organizationID email;
  if (exists_ : bool) then throw ErrAlreadyMember else
  _ ← InvalidatePendingInvitation uuid_in organizationID email;
  issued ← of_res (NewInvitationToken random);
  let expiresAt := time_add (time_truncate now microsecond) invitationLifetime in
  _ ← CreateOrganizationInvitation uuid_in organizationID userID email role issued.2 expiresAt;
  mret (inr (email, issued.1, expiresAt)).

Definition Invite (t now : Z) (random : res bytes) (userID organizationID email : string) (role : Role) : SE (World TenantDB O) Invitation :=
  match normalizeEmail email with
  | Err _ => throw ErrInvalidOwnership
  | Ok normalizedEmail =>
      if negb (uuidPattern userID) || negb (uuidPattern organizationID) || negb (ValidAssignableRole role) then throw ErrInvalidOwnership
      else with_tx_call t (invite_tx userID organizationID normalizedEmail role now random)
             (fun x => SendInvitation x.1.1 x.1.2)
             (fun x => mkInvitationView organizationID normalizedEmail role x.2)
  end.

(** auth.User: identifier, address, and whether the address is verified. *)
Definition accept_tx (userID userEmail token : string) (now : Z) : Tx TenantDB (TxEnd (Z * Membership)) :=
  stored ← or_missing ErrInvalidInvitation (LockOrganizationInvitation (sha256 token));
  let r := stored.2 in
  if negb (null (iv_accepted_at r)) || negb (after (iv_expires_at r) now)
     || negb (EqualFold (TrimSpace (iv_email r)) (TrimSpace userEmail)) then throw ErrInvalidInvitation else
  created ← AcceptOrganizationInvitation uuid_in userID stored.1;
  _ ← (if created =? 1 then recordTenantChange (iv_organization_id r) None userID "membership.created" "membership" userID else mret ());
  mret (Commit (created, mkMembership (iv_organization_id r) userID (role_text (iv_role r)))).

Definition AcceptInvitation (t now : Z) (userID userEmail : string) (verified : bool) (token : string) : SE (World TenantDB O) Membership :=
  if negb verified then throw ErrEmailNotVerified else
  if negb (ValidInvitationToken token) then throw ErrInvalidInvitation else
  x ← with_tx t (accept_tx userID userEmail token now);
  if negb (x.1 =? 1) then throw ErrAlreadyMember else mret x.2.

Definition update_member_tx (actorID organizationID memberID : string) (role : Role) (notifications : option bool) : Tx TenantDB (TxEnd MemberView) :=
  actorRole ← roleTx actorID organizationID;
  if negb (String.eqb actorID memberID) && negb (Allows actorRole PermissionMembersManage) then throw ErrOwnershipForbidden else
  if negb (String.eqb role "") && String.eqb actorID memberID then throw ErrOwnershipForbidden else
  if negb (String.eqb role "") && negb (String.eqb actorRole RoleOwner) && String.eqb role RoleAdmin then throw ErrOwnershipForbidden else
  existingRole ← or_missing ErrMemberNotFound (LockOrganizationMemberRole uuid_in organizationID memberID);
  if String.eqb existingRole RoleOwner then throw ErrOwnershipForbidden else
  let role := if String.eqb role "" then existingRole else role in
  notify ← (match notifications with
            | Some b => mret b
            | None => GetOrganizationMemberNotificationPreference uuid_in organizationID memberID
            end);
  m ← UpdateOrganizationMember uuid_in role notify organizationID memberID;
  _ ← recordTenantChange organizationID None actorID "membership.updated" "membership" memberID;
  mret (Commit m).
Definition UpdateMember (t : Z) (actorID organizationID memberID : string) (role : Role) (notifications : option bool) : SE (World TenantDB O) MemberView :=
  if negb (uuidPattern memberID) || (negb (String.eqb role "") && negb (ValidAssignableRole role)) then throw ErrInvalidOwnership
  else with_tx t (update_member_tx actorID organizationID memberID role notifications).

Definition remove_tx (actorID organizationID memberID : string) : Tx TenantDB (TxEnd ()) :=
  role ← roleTx actorID organizationID;
  if negb (Allows role PermissionMembersManage) then throw ErrOwnershipForbidden else
  target ← or_missing ErrMemberNotFound (GetOrganizationMemberRole uuid_in organizationID memberID);
  if String.eqb target RoleOwner || (negb (String.eqb role RoleOwner) && String.eqb target RoleAdmin) then throw ErrOwnershipForbidden else
  _ ← DeleteOrganizationMember uuid_in organizationID memberID;
  _ ← recordTenantChange organizationID None actorID "membership.removed" "membership" memberID;
  mret (Commit ()).
Definition RemoveMember (t : Z) (actorID organizationID memberID : string) : SE (World TenantDB O) () :=
  if String.eqb actorID memberID then throw ErrOwnershipForbidden else with_tx t (remove_tx actorID organizationID memberID).

(** *** Organizations *)

Definition ListOrganizations (t : Z) (userID : string) : SE (World TenantDB O) (list OrganizationView) :=
  if negb (uuidPattern userID) then throw ErrInvalidOwnership else
  rows ← tenant_query t (ListAccessibleOrganizations uuid_in userID);
  mret (organization_view <$> rows).

Definition GetOrganization (t : Z) (userID organizationID : string) : SE (World TenantDB O) OrganizationView :=
  if negb (uuidPattern userID) || negb (uuidPattern organizationID) then throw ErrOrganizationNotFound else
  r ← try_ (tenant_query t (GetAccessibleOrganization uuid_in userID organizationID));
  match r with
  | Ok row => mret (organization_view row)
  | Err ErrNoRows => throw ErrOrganizationNotFound
  | Err e => throw e
  end.

Definition rename_tx (userID organizationID name : string) : Tx TenantDB (TxEnd ()) :=
  role ← roleTx userID organizationID;
  if negb (Allows role PermissionTenantManage) then throw ErrOwnershipForbidden else
  _ ← UpdateOrganizationName uuid_in name organizationID;
  _ ← recordTenantChange organizationID None userID "organization.updated" "organization" organizationID;
  mret (Commit ()).
Definition UpdateOrganization (t : Z) (userID organizationID name : string) : SE (World TenantDB O) OrganizationView :=
  let name := TrimSpace name in
  if (slen name <? 1) || (maximumNameBytes <? slen name) then throw ErrInvalidOwnership else
  _ ← with_tx t (rename_tx userID organizationID name);
  GetOrganization t userID organizationID.

Definition delete_org_tx (userID organizationID : string) : Tx TenantDB (TxEnd ()) :=
  role ← roleTx userID organizationID;
  if negb (String.eqb role RoleOwner) then throw ErrOwnershipForbidden else
  _ ← SoftDeleteOrganization uuid_in organizationID;
  _ ← recordAudit organizationID userID "organization.deleted" "organization" organizationID;
  mret (Commit ()).
Definition DeleteOrganization (t : Z) (userID organizationID : string) : SE (World TenantDB O) () :=
  with_tx t (delete_org_tx userID organizationID).

(** *** Projects *)

Definition ListProjects (t : Z) (userID organizationID : string) : SE (World TenantDB O) (list TenantProject) :=
  role ← currentRole t userID organizationID;
  if negb (Allows role PermissionTenantRead) then throw ErrOwnershipForbidden else
  rows ← tenant_query t (ListTenantProjects uuid_in organizationID);
  mret ((fun x => project_view x role) <$> rows).

Definition GetProject (t : Z) (userID projectID : string) : SE (World TenantDB O) TenantProject :=
  with_tx t (
    x ← projectRoleTx userID projectID;
    row ← or_missing ErrProjectNotFound (GetTenantProject uuid_in projectID);
    mret (Rollback (project_view row x.2))).

Definition name_ok (name description : string) : bool :=
  negb (String.eqb name "" || (maximumNameBytes <? slen name) || (maximumDescriptionBytes <? slen description)).

Definition create_project_tx (userID organizationID name description : string) : Tx TenantDB (TxEnd TenantProject) :=
  role ← roleTx userID organizationID;
  if negb (Allows role PermissionTenantManage) then throw ErrOwnershipForbidden else
  row ← CreateTenantProject uuid_in organizationID name description;
  _ ← recordTenantChange organizationID None userID "project.created" "project" row.1;
  mret (Commit (project_view row role)).
Definition CreateProject (t : Z) (userID organizationID name description : string) : SE (World TenantDB O) TenantProject :=
  let name := TrimSpace name in let description := TrimSpace description in
  if negb (name_ok name description) then throw ErrInvalidOwnership
  else with_tx t (create_project_tx userID organizationID name description).

Definition update_project_tx (userID projectID name description : string) : Tx TenantDB (TxEnd TenantProject) :=
  x ← projectRoleTx userID projectID;
  if negb (Allows x.2 PermissionTenantManage) then throw ErrOwnershipForbidden else
  row ← UpdateTenantProject uuid_in name description projectID;
  _ ← recordTenantChange x.1 None userID "project.updated" "project" projectID;
  mret (Commit (project_view row x.2)).
Definition UpdateProject (t : Z) (userID projectID name description : string) : SE (World TenantDB O) TenantProject :=
  let name := TrimSpace name in let description := TrimSpace description in
  if negb (name_ok name description) then throw ErrInvalidOwnership
  else with_tx t (update_project_tx userID projectID name description).

Definition delete_project_tx (userID projectID : string) : Tx TenantDB (TxEnd ()) :=
  x ← projectRoleTx userID projectID;
  if negb (Allows x.2 PermissionTenantManage) then throw ErrOwnershipForbidden else
  rowsAffected ← DeleteEmptyTenantProject uuid_in projectID;
  if rowsAffected =? 0 then throw ErrDeleteConflict else
  _ ← recordTenantChange x.1 None userID "project.deleted" "project" projectID;
  mret (Commit ()).
Definition DeleteProject (t : Z) (userID projectID : string) : SE (World TenantDB O) () :=
  with_tx t (delete_project_tx userID projectID).

(** *** Environments *)

Definition ListEnvironments (t : Z) (userID projectID : string) : SE (World TenantDB O) (list TenantEnvironment) :=
  with_tx t (
    x ← projectRoleTx userID projectID;
    rows ← ListTenantEnvironments uuid_in projectID;
    mret (Rollback ((fun r => environment_view r x.2) <$> rows))).

Definition GetEnvironment (t : Z) (userID environmentID : string) : SE (World TenantDB O) TenantEnvironment :=
  with_tx t (
    x ← environmentRoleTx userID environmentID;
    row ← or_missing ErrEnvironmentNotFound (GetTenantEnvironment uuid_in environmentID);
    mret (Rollback (environment_view row x.2))).

Definition environment_ok (name kind : string) : bool :=
  negb (String.eqb name "" || (maximumNameBytes <? slen name)
        || (negb (String.eqb kind "production") && negb (String.eqb kind "staging") && negb (String.eqb kind "development"))).

Definition create_environment_tx (userID projectID name kind : string) : Tx TenantDB (TxEnd TenantEnvironment) :=
  x ← projectRoleTx userID projectID;
  if negb (Allows x.2 PermissionTenantManage) then throw ErrOwnershipForbidden else
  row ← CreateTenantEnvironment uuid_in x.1 projectID name kind;
  _ ← recordTenantChange x.1 (Some row.1.1) userID "environment.created" "environment" row.1.1;
  mret (Commit (environment_view row x.2)).
Definition CreateEnvironment (t : Z) (userID projectID name kind : string) : SE (World TenantDB O) TenantEnvironment :=
  let name := TrimSpace name in let kind := to_lower (TrimSpace kind) in
  if negb (environment_ok name kind) then throw ErrInvalidOwnership
  else with_tx t (create_environment_tx userID projectID name kind).

Definition update_environment_tx (userID environmentID name kind : string) : Tx TenantDB (TxEnd TenantEnvironment) :=
  x ← environmentRoleTx userID environmentID;
  if negb (Allows x.2 PermissionTenantManage) then throw ErrOwnershipForbidden else
  row ← UpdateTenantEnvironment uuid_in name kind environmentID;
  _ ← recordTenantChange x.1 (Some environmentID) userID "environment.updated" "environment" environmentID;
  mret (Commit (environment_view row x.2)).
Definition UpdateEnvironment (t : Z) (userID environmentID name kind : string) : SE (World TenantDB O) TenantEnvironment :=
  let name := TrimSpace name in let kind := to_lower (TrimSpace kind) in
  if negb (environment_ok name kind) then throw ErrInvalidOwnership
  else with_tx t (update_environment_tx userID environmentID name kind).

Definition delete_environment_tx (userID environmentID : string) : Tx TenantDB (TxEnd ()) :=
  x ← environmentRoleTx userID environmentID;
  if negb (Allows x.2 PermissionTenantManage) then throw ErrOwnershipForbidden else
  rowsAffected ← DeleteEmptyTenantEnvironment uuid_in environmentID;
  if rowsAffected =? 0 then throw ErrDeleteConflict else
  _ ← recordTenantChange x.1 None userID "environment.deleted" "environment" environmentID;
  mret (Commit ()).
Definition DeleteEnvironment (t : Z) (userID environmentID : string) : SE (World TenantDB O) () :=
  with_tx t (delete_environment_tx userID environmentID).
End Service.

(** ** The hierarchy stays closed *)

(** What the constraints of the tables promise together. *)
Record hierarchy (d : TenantDB) : Prop := {
  hi_env : forall e org, envs d !! e = Some org -> exists i p, env_info d !! e = Some i /\
    projects d !! ei_project_id i = Some p /\ pj_organization_id p = org;
  hi_info : forall e i, env_info d !! e = Some i -> is_Some (envs d !! e);
  hi_project : forall id p, projects d !! id = Some p -> is_Some (orgs d !! pj_organization_id p);
  hi_monitor : forall m r, monitors (engine (config d)) !! m = Some r -> envs d !! mon_environment_id r = Some (mon_organization_id r);
  hi_member : forall org user m, members d !! (org, user) = Some m -> is_Some (orgs d !! org);
  hi_owner : forall org u v m n, members d !! (org, u) = Some m -> members d !! (org, v) = Some n ->
    om_role m = Owner -> om_role n = Owner -> u = v;
  hi_invitation : forall id r, invitations d !! id = Some r -> iv_role r <> Owner;
  hi_digest : forall i j r q, invitations d !! i = Some r -> invitations d !! j = Some q -> iv_digest r = iv_digest q -> i = j
}.

Lemma null_false {A} (o : option A) : null o = false <-> is_Some o.
Proof. destruct o; simpl; by split. Qed.

(** The part of the tables a statement leaves alone carries the hierarchy over. *)
Lemma hierarchy_frame d d' :
  envs d' = envs d -> env_info d' = env_info d -> projects d' = projects d -> orgs d' = orgs d ->
  monitors (engine (config d')) = monitors (engine (config d)) -> members d' = members d -> invitations d' = invitations d ->
  hierarchy d -> hierarchy d'.
Proof. intros E1 E2 E3 E4 E5 E6 E7 []. constructor; rewrite ?E1, ?E2, ?E3, ?E4, ?E5, ?E6, ?E7; done. Qed.

Lemma hierarchy_orgs d f g : (forall o, is_Some (orgs d !! o) -> is_Some (f (orgs d) !! o)) -> hierarchy d -> hierarchy (on_orgs f g d).
Proof. intros Hf [A B C D E F G K]. constructor; try done; simpl; [intros id p Hp; by apply Hf, (C id)|intros org u m Hm; by eapply Hf, E]. Qed.

Lemma hierarchy_insert_member now org user role d u d' :
  insert_member now org user role d = (Ok u, d') -> hierarchy d -> hierarchy d'.
Proof.
  unfold insert_member. destruct (null _) eqn:E1; [done|]. destruct (null (user_rows d !! user)); [done|]. cbn [orb].
  destruct (_ || _) eqn:E3; [done|]. intros [= _ <-] [A B C D E F G K].
  apply orb_false_iff in E3 as [_ E3]. constructor; try done; unfold members in *; simpl.
  - intros o v m [[[= -> ->] <-]|[_ Hm]]%lookup_insert_Some; [by apply null_false|by eapply E].
  - assert (forall v n, org_members (engine (config d)) !! (org, v) = Some n -> role = Owner -> om_role n = Owner -> False) as Hno.
    { intros v n Hn -> Ho. rewrite bool_decide_true in E3 by done. simpl in E3.
      apply (existsb_false _ _ ((org, v), n)) in E3; [|by apply elem_of_map_to_list]. simpl in E3.
      rewrite String.eqb_refl, bool_decide_true in E3 by done. done. }
    intros o a b m n [[Ea Em]|[Ha Hm]]%lookup_insert_Some [[Eb En]|[Hb Hn]]%lookup_insert_Some H1 H2; simplify_eq/=;
      [done|exfalso; eauto|exfalso; eauto|by eapply F].
Qed.

Lemma hierarchy_update_member org user role notify d v d' :
  update_member org user role notify d = (Ok v, d') -> hierarchy d -> hierarchy d'.
Proof.
  unfold update_member. destruct (user_rows d !! user); [|done]. destruct (members d !! (org, user)) as [m|] eqn:Em; [|done].
  destruct (role_of role) as [r|]; [|done]. destruct (_ && _) eqn:E3; [done|].
  intros [= _ <-] [A B C D E F G K]. constructor; try done; unfold members in *; simpl.
  - intros o w n [[[= <- <-] <-]|[_ Hn]]%lookup_insert_Some; by eapply E.
  - assert (forall w n, (org, w) <> (org, user) -> org_members (engine (config d)) !! (org, w) = Some n -> r = Owner -> om_role n = Owner -> False) as Hno.
    { intros w n Hne Hn -> Ho. rewrite bool_decide_true in E3 by done. simpl in E3.
      apply (existsb_false _ _ ((org, w), n)) in E3; [|by apply elem_of_map_to_list]. simpl in E3.
      rewrite String.eqb_refl, (bool_decide_true (om_role n = Owner)) in E3 by done.
      destruct (String.eqb_spec w user); [congruence|done]. }
    intros o a b x y [[Ea Ex]|[Ha Hm]]%lookup_insert_Some [[Eb Ey]|[Hb Hn]]%lookup_insert_Some H1 H2; simplify_eq/=;
      [done|exfalso; eauto using not_eq_sym|exfalso; eauto using not_eq_sym|by eapply F].
Qed.

Lemma hierarchy_delete_member org user d : hierarchy d -> hierarchy (on_members (delete (org, user)) (delete (org, user)) d).
Proof.
  intros [A B C D E F G K]. constructor; try done; unfold members in *; simpl.
  - intros o u m [_ Hm]%lookup_delete_Some. by eapply E.
  - intros o a b m n [_ Hm]%lookup_delete_Some [_ Hn]%lookup_delete_Some. by eapply F.
Qed.

Lemma hierarchy_invitations d f : (forall id r, f (invitations d) !! id = Some r -> iv_role r <> Owner) ->
  (forall i j r q, f (invitations d) !! i = Some r -> f (invitations d) !! j = Some q -> iv_digest r = iv_digest q -> i = j) ->
  hierarchy d -> hierarchy (on_invitations f d).
Proof. intros Hf Hg [A B C D E F G K]. by constructor. Qed.

Lemma hierarchy_insert_project now id org name descr d x d' :
  insert_project now id org name descr d = (Ok x, d') -> hierarchy d -> hierarchy d'.
Proof.
  unfold insert_project. destruct (String.eqb _ _); [done|]. destruct (null (orgs d !! org)) eqn:E1; [done|].
  destruct (null (projects d !! id)) eqn:E2; [|done]. intros [= _ <-] [A B C D E F G K]. constructor; try done; simpl.
  - intros e o He. destruct (A e o He) as (i & p & Hi & Hp & Ho). exists i, p. split; [done|]. split; [|done].
    rewrite lookup_insert_ne; [done|]. intros Hid. by rewrite Hid, Hp in E2.
  - intros i p [[<- <-]|[_ Hp]]%lookup_insert_Some; [by apply null_false|by eapply C].
Qed.

Lemma hierarchy_update_project id p name descr now d : projects d !! id = Some p -> hierarchy d ->
  hierarchy (on_projects <[id := mkProject (pj_organization_id p) name descr (pj_created_at p) now]> d).
Proof.
  intros Hp [A B C D E F G K]. constructor; try done; simpl.
  - intros e o He. destruct (A e o He) as (i & q & Hi & Hq & Ho). exists i.
    destruct (decide (ei_project_id i = id)) as [Eid|Hne].
    + eexists. split; [done|]. rewrite Eid, lookup_insert_eq. split; [done|]. simpl. congruence.
    + exists q. rewrite lookup_insert_ne by congruence. done.
  - intros i q [[<- <-]|[_ Hq]]%lookup_insert_Some; [by apply (C id p)|by eapply C].
Qed.

Lemma hierarchy_delete_project id d : in_project id d = false -> hierarchy d -> hierarchy (on_projects (delete id) d).
Proof.
  intros Hn [A B C D E F G K]. constructor; try done; simpl.
  - intros e o He. destruct (A e o He) as (i & p & Hi & Hp & Ho). exists i, p. split; [done|]. split; [|done].
    rewrite lookup_delete_ne; [done|]. intros Hid. apply (existsb_false _ _ (e, i)) in Hn; [|by apply elem_of_map_to_list].
    simpl in Hn. by rewrite <- Hid, String.eqb_refl in Hn.
  - intros i p [_ Hp]%lookup_delete_Some. by eapply C.
Qed.

Lemma hierarchy_insert_environment now id org project name kind d x d' :
  insert_environment now id org project name kind d = (Ok x, d') -> hierarchy d -> hierarchy d'.
Proof.
  unfold insert_environment. destruct (_ || _); [done|]. destruct (projects d !! project) as [p|] eqn:Ep; [|done].
  destruct (String.eqb_spec (pj_organization_id p) org) as [Eo|]; [|done]. simpl. destruct (null (envs d !! id)) eqn:E2; [|done].
  intros [= _ <-] [A B C D E F G K]. constructor; try done; unfold envs in *; simpl.
  - intros e o [[<- <-]|[Hne He]]%lookup_insert_Some.
    + exists (mkEnvInfo project name kind now now), p. by rewrite lookup_insert_eq.
    + rewrite lookup_insert_ne by done. by apply A.
  - intros e i [[<- <-]|[Hne He]]%lookup_insert_Some; [rewrite lookup_insert_eq; by eexists|].
    rewrite lookup_insert_ne by done. by eapply B.
  - intros m r Hm. specialize (D m r Hm). rewrite lookup_insert_ne; [done|]. intros Hid. by rewrite Hid, D in E2.
Qed.

Lemma hierarchy_update_environment id org i name kind now d : env_row id d = Some (id, org, i) -> hierarchy d ->
  hierarchy (on_envs (fun x => x) <[id := mkEnvInfo (ei_project_id i) name kind (ei_created_at i) now]> d).
Proof.
  unfold env_row. destruct (envs d !! id) as [o|] eqn:Eo; [|done]. simpl. destruct (env_info d !! id) as [j|] eqn:Ei; [|done].
  intros [= -> ->] [A B C D E F G K]. constructor; try done; unfold envs in *; simpl.
  - intros e o' He. destruct (A e o' He) as (k & p & Hk & Hp & Ho). destruct (decide (e = id)) as [->|Hne].
    + rewrite lookup_insert_eq. eexists _, p. split; [done|]. simpl. split; [congruence|done].
    + rewrite lookup_insert_ne by done. by exists k, p.
  - intros e k [[<- <-]|[Hne He]]%lookup_insert_Some; [by eexists|by eapply B].
Qed.

Lemma hierarchy_delete_environment id d : has_monitors id d = false -> hierarchy d -> hierarchy (on_envs (delete id) (delete id) d).
Proof.
  intros Hn [A B C D E F G K]. constructor; try done; unfold envs in *; simpl.
  - intros e o [Hne He]%lookup_delete_Some. rewrite lookup_delete_ne by done. by apply A.
  - intros e i [Hne He]%lookup_delete_Some. rewrite lookup_delete_ne by done. by eapply B.
  - intros m r Hm. rewrite lookup_delete_ne; [by eapply D|]. intros Hid.
    apply (existsb_false _ _ (m, r)) in Hn; [|by apply elem_of_map_to_list]. simpl in Hn. by rewrite <- Hid, String.eqb_refl in Hn.
Qed.

(** *** Every statement keeps it *)

Lemma keeps_as_id uuid_in {A} (I : TenantDB -> Prop) s (q : Z -> string -> TenantDB -> res A * TenantDB) :
  (forall id, keeps (tx_inv I) (sql (fun now => q now id))) -> keeps (tx_inv I) (sql (fun now => as_id uuid_in s (q now))).
Proof.
  intros Hq. unfold as_id. destruct (uuid_in s) as [id|]; [apply Hq|]. apply keeps_sql. by intros ? ? ? ? ? ?.
Qed.

Lemma keeps_one_row {A} (I : TenantDB -> Prop) (q : Z -> TenantDB -> option A) : keeps (tx_inv I) (sql (fun now => one_row (q now))).
Proof. apply keeps_sql. unfold one_row. intros now d a d' Hd. by destruct (q now d); [intros [= _ <-]|]. Qed.

Lemma keeps_read {A} (I : TenantDB -> Prop) (q : Z -> TenantDB -> A) : keeps (tx_inv I) (sql (fun now d => (Ok (q now d), d))).
Proof. apply keeps_sql. by intros now d a d' Hd [= _ <-]. Qed.

(** [tenant_keep] follows a body down to its statements. *)
Ltac tenant_step :=
  match goal with
  | |- keeps _ (sql (fun now => as_id _ _ _)) => apply keeps_as_id; intros ?
  | |- keeps _ (sql (fun now => one_row _)) => apply keeps_one_row
  | |- keeps _ (sql (fun _ d => (Ok _, d))) => apply keeps_read
  | |- keeps _ (sql _) => apply keeps_sql; intros now d x d' Hd Hq
  | _ => keep_step
  end.
Ltac tenant_keep := repeat tenant_step; try match goal with Hq : _ = (Ok _, _) |- _ => revert Hq end.

Section Hierarchy.
Context (uuid_in : string -> option string).

Lemma keeps_event org env event resource id : keeps (tx_inv hierarchy) (InsertTenantRefreshEvent uuid_in org env event resource id).
Proof.
  unfold InsertTenantRefreshEvent. tenant_keep.
  assert (forall e d u d', tenant_event id0 e event resource id1 d = (Ok u, d') -> hierarchy d -> hierarchy d') as He.
  { intros e y u y'. unfold tenant_event. destruct (_ || _); [done|]. intros [= _ <-]. by apply hierarchy_frame. }
  intros Hq. destruct (String.eqb env ""); [by eapply He|]. unfold as_id in Hq. destruct (uuid_in env); [by eapply He|done].
Qed.

Lemma keeps_audit org user action resource id : keeps (tx_inv hierarchy) (InsertAuditLog uuid_in org user action resource id).
Proof. unfold InsertAuditLog. tenant_keep. destruct (_ || _); [done|]. intros [= _ <-]. revert Hd. by apply hierarchy_frame. Qed.

Lemma keeps_founded name slug : keeps (tx_inv hierarchy) (CreateOrganization name slug).
Proof.
  unfold CreateOrganization. tenant_keep. unfold create_organization. destruct (_ || _); [done|]. destruct (negb _); [done|].
  destruct (slug_taken _ _); [done|]. intros [= _ <-]. apply hierarchy_orgs; [|done].
  intros o Ho. destruct (decide (o = a)) as [->|]; [rewrite lookup_insert_eq; by eexists|by rewrite lookup_insert_ne].
Qed.

Lemma keeps_owner org user : keeps (tx_inv hierarchy) (CreateOwnerMembership uuid_in org user).
Proof. unfold CreateOwnerMembership. tenant_keep. intros Hq. by eapply hierarchy_insert_member. Qed.

Lemma keeps_member_update role notify org user : keeps (tx_inv hierarchy) (UpdateOrganizationMember uuid_in role notify org user).
Proof. unfold UpdateOrganizationMember. tenant_keep. intros Hq. by eapply hierarchy_update_member. Qed.

Lemma keeps_member_delete org user : keeps (tx_inv hierarchy) (DeleteOrganizationMember uuid_in org user).
Proof. unfold DeleteOrganizationMember. tenant_keep. intros [= _ <-]. by apply hierarchy_delete_member. Qed.

Lemma keeps_rename name org : keeps (tx_inv hierarchy) (UpdateOrganizationName uuid_in name org).
Proof.
  unfold UpdateOrganizationName. tenant_keep. destruct (negb _); [by intros [= _ <-]|]. destruct (String.eqb _ _); [done|].
  intros [= _ <-]. by apply hierarchy_orgs.
Qed.

Lemma keeps_soft_delete org : keeps (tx_inv hierarchy) (SoftDeleteOrganization uuid_in org).
Proof.
  unfold SoftDeleteOrganization. tenant_keep. intros [= _ <-]. destruct (live_org _ _); [|done]. apply hierarchy_orgs; [|done].
  intros o Ho. destruct (decide (o = id)) as [->|]; [rewrite lookup_insert_eq; by eexists|by rewrite lookup_insert_ne].
Qed.

Lemma keeps_invalidate org email : keeps (tx_inv hierarchy) (InvalidatePendingInvitation uuid_in org email).
Proof.
  unfold InvalidatePendingInvitation. tenant_keep. unfold invalidate. destruct (existsb _ _); [done|]. intros [= _ <-].
  apply hierarchy_invitations; [..|done].
  - intros i r. rewrite lookup_fmap. intros (r0 & Hr0 & ->)%fmap_Some.
    assert (iv_role r0 <> Owner) by (by eapply hi_invitation). by destruct (pending_for _ _ _).
  - intros i j r q. rewrite !lookup_fmap. intros (r0 & Hr0 & ->)%fmap_Some (q0 & Hq0 & ->)%fmap_Some Eq.
    apply (hi_digest _ Hd i j r0 q0); [done..|]. by destruct (pending_for _ _ r0), (pending_for _ _ q0).
Qed.

Lemma keeps_invitation org user email role digest expires :
  keeps (tx_inv hierarchy) (CreateOrganizationInvitation uuid_in org user email role digest expires).
Proof.
  unfold CreateOrganizationInvitation. tenant_keep. unfold create_invitation. destruct (role_of role) as [r|]; [|done].
  assert (r <> Owner -> (if String.eqb (btrim email) "" || (254 <? slen email) || negb (slen digest =? 32) || negb (now <? expires)
    then (Err ErrCheckViolation, d)
    else if null (orgs d !! id) || null (user_rows d !! id0) then (Err ErrForeignKeyViolation, d)
    else if negb (null (invitations d !! a)) || existsb (fun x => String.eqb (iv_digest x.2) digest) (map_to_list (invitations d))
         || existsb (fun x => pending_for id (to_lower (btrim email)) x.2) (map_to_list (invitations d))
    then (Err ErrUniqueViolation, d)
    else (Ok (), on_invitations <[a := mkInvitation id id0 email r digest expires None now]> d)) = (Ok x, d') -> hierarchy d') as Hgo.
  { intros Hne. do 2 (case_match; [done|]). destruct (negb (null (invitations d !! a)) || _ || _) eqn:Eg; [done|]. intros [= _ <-].
    apply orb_false_iff in Eg as [[En Edig]%orb_false_iff _].
    assert (forall i q, invitations d !! i = Some q -> iv_digest q <> digest) as Hfresh.
    { intros i q Hq <-. apply (existsb_false _ _ (i, q)) in Edig; [|by apply elem_of_map_to_list]. simpl in Edig.
      by rewrite String.eqb_refl in Edig. }
    apply hierarchy_invitations; [..|done].
    - intros i r0 [[_ <-]|[_ Hr]]%lookup_insert_Some; [done|by eapply hi_invitation].
    - intros i j r0 q [[Ei Er]|[Hi Hr]]%lookup_insert_Some [[Ej Eq]|[Hj Hq]]%lookup_insert_Some Ed; simplify_eq/=;
        [done|by apply Hfresh in Hq|by apply Hfresh in Hr|by eapply (hi_digest _ Hd)]. }
  by destruct r; [done|apply Hgo..].
Qed.

Lemma keeps_accept user id : keeps (tx_inv hierarchy) (AcceptOrganizationInvitation uuid_in user id).
Proof.
  unfold AcceptOrganizationInvitation. tenant_keep. unfold accept_invitation. destruct (invitations _ !! _) as [r|] eqn:Er; [|by intros [= _ <-]].
  destruct (negb _); [by intros [= _ <-]|]. destruct (_ <? _); [done|].
  assert (hierarchy (on_invitations <[id0 := accepted now r]> d)) as Hh.
  { apply hierarchy_invitations; [..|done].
    - intros i r0 [[_ <-]|[_ Hr]]%lookup_insert_Some; [exact (hi_invitation d Hd _ _ Er)|by eapply hi_invitation].
    - intros i j r0 q [[Ei Er0]|[Hi Hr]]%lookup_insert_Some [[Ej Eq]|[Hj Hq]]%lookup_insert_Some Ed; simplify_eq/=;
        [done|by eapply (hi_digest _ Hd)..]. }
  destruct (negb _); [by intros [= _ <-]|]. destruct (insert_member _ _ _ _ _) as [[u|e] d2] eqn:E; [|done]. intros [= _ <-].
  by eapply hierarchy_insert_member.
Qed.

Lemma keeps_project org name description : keeps (tx_inv hierarchy) (CreateProjectRow uuid_in org name description).
Proof. unfold CreateProjectRow. tenant_keep. intros Hq. by eapply hierarchy_insert_project. Qed.

Lemma keeps_project_update name description id : keeps (tx_inv hierarchy) (UpdateTenantProject uuid_in name description id).
Proof.
  unfold UpdateTenantProject. tenant_keep. destruct (projects _ !! _) eqn:Ep; [|done]. destruct (String.eqb _ _); [done|].
  intros [= _ <-]. by apply hierarchy_update_project.
Qed.

Lemma keeps_project_delete id : keeps (tx_inv hierarchy) (DeleteEmptyTenantProject uuid_in id).
Proof.
  unfold DeleteEmptyTenantProject. tenant_keep. destruct (projects _ !! _); [|by intros [= _ <-]].
  destruct (in_project _ _) eqn:Ei; [by intros [= _ <-]|]. intros [= _ <-]. by apply hierarchy_delete_project.
Qed.

Lemma keeps_environment org project name kind : keeps (tx_inv hierarchy) (CreateTenantEnvironment uuid_in org project name kind).
Proof. unfold CreateTenantEnvironment. tenant_keep. intros Hq. by eapply hierarchy_insert_environment. Qed.

Lemma keeps_environment_update name kind id : keeps (tx_inv hierarchy) (UpdateTenantEnvironment uuid_in name kind id).
Proof.
  unfold UpdateTenantEnvironment. tenant_keep. destruct (env_row _ _) as [[[e o] i]|] eqn:Ep; [|done]. destruct (_ || _); [done|].
  intros [= _ <-]. assert (e = id0) as -> by (unfold env_row in Ep; destruct (envs d !! id0); [simpl in Ep|done];
    destruct (env_info d !! id0); [by injection Ep as <-|done]). by eapply hierarchy_update_environment.
Qed.

Lemma keeps_environment_delete id : keeps (tx_inv hierarchy) (DeleteEmptyTenantEnvironment uuid_in id).
Proof.
  unfold DeleteEmptyTenantEnvironment. tenant_keep. destruct (envs _ !! _); [|by intros [= _ <-]].
  destruct (has_monitors _ _) eqn:Ei; [by intros [= _ <-]|]. intros [= _ <-].
  eapply hierarchy_frame; [..|apply hierarchy_delete_environment; eassumption]; done.
Qed.
End Hierarchy.


(** ** Requests *)

Inductive tenant_request : Type :=
| TCreateDefault (input : CreateDefaultInput)
| TInvite (org email : string) (role : Role)
| TAccept (email : string) (verified : bool) (token : string)
| TUpdateMember (org member : string) (role : Role) (notifications : option bool)
| TRemoveMember (org member : string)
| TUpdateOrganization (org name : string)
| TDeleteOrganization (org : string)
| TCreateProject (org name description : string)
| TUpdateProject (project name description : string)
| TDeleteProject (project : string)
| TCreateEnvironment (project name kind : string)
| TUpdateEnvironment (env name kind : string)
| TDeleteEnvironment (env : string).

Section Requests.
Context {P : Primitives} (uuid_in : string -> option string) (ParseAddress : string -> option string) {O : Type}.
Context (SendInvitation : string -> string -> O -> res () * O).

(** A request of the user [user]: [t] is when its transaction begins, [now] what the clock
    reads, [random] what it draws. *)
Definition tenant_serve (user : string) (t now : Z) (random : res bytes) (r : tenant_request) : SE (World TenantDB O) () :=
  match r with
  | TCreateDefault input => _ ← CreateDefault uuid_in t user input; mret ()
  | TInvite org email role => _ ← Invite uuid_in ParseAddress SendInvitation t now random user org email role; mret ()
  | TAccept email verified token => _ ← AcceptInvitation uuid_in t now user email verified token; mret ()
  | TUpdateMember org member role notifications => _ ← UpdateMember uuid_in t user org member role notifications; mret ()
  | TRemoveMember org member => RemoveMember uuid_in t user org member
  | TUpdateOrganization org name => _ ← UpdateOrganization uuid_in t user org name; mret ()
  | TDeleteOrganization org => DeleteOrganization uuid_in t user org
  | TCreateProject org name description => _ ← CreateProject uuid_in t user org name description; mret ()
  | TUpdateProject project name description => _ ← UpdateProject uuid_in t user project name description; mret ()
  | TDeleteProject project => DeleteProject uuid_in t user project
  | TCreateEnvironment project name kind => _ ← CreateEnvironment uuid_in t user project name kind; mret ()
  | TUpdateEnvironment env name kind => _ ← UpdateEnvironment uuid_in t user env name kind; mret ()
  | TDeleteEnvironment env => DeleteEnvironment uuid_in t user env
  end.
End Requests.

Lemma keeps_or_missing {D A} (I : D -> Prop) e (q : Tx D A) : keeps (tx_inv I) q -> keeps (tx_inv I) (or_missing e q).
Proof. intros Hq. unfold or_missing. keep; done. Qed.

Section Bodies.
Context {P : Primitives} (uuid_in : string -> option string).
(** Any invariant of the tables that every statement keeps is kept by every request. *)
Context (I : TenantDB -> Prop).

Lemma keeps_role user org : keeps (tx_inv I) (roleTx uuid_in user org).
Proof. apply keeps_or_missing. unfold GetOrganizationMembershipRole. tenant_keep. Qed.
Lemma keeps_project_role user project : keeps (tx_inv I) (projectRoleTx uuid_in user project).
Proof. apply keeps_or_missing. unfold AuthorizeProjectMembership. tenant_keep. Qed.
Lemma keeps_environment_role user env : keeps (tx_inv I) (environmentRoleTx uuid_in user env).
Proof. apply keeps_or_missing. unfold AuthorizeEnvironmentMembership. tenant_keep. Qed.

Lemma keeps_role_query org user e : keeps (tx_inv I) (or_missing e (member_role_query uuid_in org user)).
Proof. apply keeps_or_missing. unfold member_role_query. tenant_keep. Qed.
Lemma keeps_preference org user : keeps (tx_inv I) (GetOrganizationMemberNotificationPreference uuid_in org user).
Proof. unfold GetOrganizationMemberNotificationPreference. tenant_keep. Qed.
Lemma keeps_known org email : keeps (tx_inv I) (ExistingOrganizationMemberByEmail uuid_in org email).
Proof. unfold ExistingOrganizationMemberByEmail. tenant_keep. Qed.
Lemma keeps_lock_invitation e digest : keeps (tx_inv I) (or_missing e (LockOrganizationInvitation digest)).
Proof. apply keeps_or_missing. apply keeps_select_one. Qed.
Lemma keeps_tenant_query {O A} t (q : Tx TenantDB A) : keeps (tx_inv I) q -> keeps (w_inv (O := O) I) (tenant_query t q).
Proof. intros Hq. unfold tenant_query. keep. Qed.

Context (Hevent : forall org env event resource id, keeps (tx_inv I) (InsertTenantRefreshEvent uuid_in org env event resource id)).
Context (Haudit : forall org user action resource id, keeps (tx_inv I) (InsertAuditLog uuid_in org user action resource id)).

Lemma keeps_record org env actor action resource id : keeps (tx_inv I) (recordTenantChange uuid_in org env actor action resource id).
Proof. unfold recordTenantChange, recordAudit. keep; auto. Qed.
End Bodies.

#[export] Hint Resolve keeps_role keeps_project_role keeps_environment_role keeps_role_query keeps_preference keeps_known
  keeps_lock_invitation keeps_event keeps_audit keeps_founded keeps_owner keeps_member_update keeps_member_delete keeps_rename
  keeps_soft_delete keeps_invalidate keeps_invitation keeps_accept keeps_project keeps_project_update keeps_project_delete
  keeps_environment keeps_environment_update keeps_environment_delete : keeps.

Lemma keeps_record_hierarchy uuid_in org env actor action resource id :
  keeps (tx_inv hierarchy) (recordTenantChange uuid_in org env actor action resource id).
Proof. apply keeps_record; auto with keeps. Qed.
#[export] Hint Resolve keeps_record_hierarchy : keeps.

Lemma tenant_serve_hierarchy {P : Primitives} uuid_in ParseAddress {O} (Send : string -> string -> O -> res () * O) user t now random r :
  keeps (w_inv hierarchy) (tenant_serve uuid_in ParseAddress Send user t now random r).
Proof.
  destruct r; simpl; unfold CreateDefault, default_tx, Invite, invite_tx, AcceptInvitation, accept_tx, UpdateMember, update_member_tx,
    RemoveMember, remove_tx, UpdateOrganization, rename_tx, GetOrganization, tenant_query, GetAccessibleOrganization, DeleteOrganization,
    delete_org_tx, CreateProject, create_project_tx, UpdateProject, update_project_tx, DeleteProject, delete_project_tx,
    CreateEnvironment, create_environment_tx, UpdateEnvironment, update_environment_tx, DeleteEnvironment, delete_environment_tx,
    CreateProductionEnvironment, CreateTenantProject, LockOrganizationMemberRole, GetOrganizationMemberRole.
  all: tenant_keep.
  apply keeps_with_tx_call. tenant_keep.
Qed.

(** ** Who changes the membership *)

Definition manages (org actor : string) (ra : OrgMember) (d : TenantDB) : Prop :=
  live_org org d = true /\ members d !! (org, actor) = Some ra /\ Allows (role_text (om_role ra)) PermissionMembersManage = true.

(** The only ways in which a request of the user [user] changes the membership. *)
Inductive membership_change (user : string) (d d' : TenantDB) : Prop :=
(** A new organization, with the user as its owner. *)
| mc_founded org :
    orgs d !! org = None -> dom (orgs d') = {[org]} ∪ dom (orgs d) ->
    members d' = <[(org, user) := mkOrgMember Owner true]> (members d) -> membership_change user d d'
(** The user joins by an invitation nobody had used, with the role it was made for. *)
| mc_joined id r :
    invitations d !! id = Some r -> iv_accepted_at r = None -> (exists r', invitations d' !! id = Some r' /\ is_Some (iv_accepted_at r')) ->
    members d !! (iv_organization_id r, user) = None -> dom (orgs d') = dom (orgs d) ->
    members d' = <[(iv_organization_id r, user) := mkOrgMember (iv_role r) true]> (members d) -> membership_change user d d'
(** A member that is not the owner changes: by a manager, who makes nobody an admin unless
    it is the owner, or its own notifications, by itself. *)
| mc_updated org m old new :
    members d !! (org, m) = Some old -> om_role old <> Owner -> om_role new <> Owner ->
    (om_role new = om_role old /\ m = user /\ live_org org d = true \/
     exists ra, manages org user ra d /\ (om_role new = Admin -> om_role ra = Owner \/ om_role old = Admin)) ->
    dom (orgs d') = dom (orgs d) -> members d' = <[(org, m) := new]> (members d) -> membership_change user d d'
(** A manager removes a member that is not the owner; an admin only the owner. *)
| mc_removed org m old ra :
    members d !! (org, m) = Some old -> om_role old <> Owner -> manages org user ra d ->
    (om_role old = Admin -> om_role ra = Owner) ->
    dom (orgs d') = dom (orgs d) -> members d' = delete (org, m) (members d) -> membership_change user d d'.

(** *** Requests about other things *)

Definition same_members (X : gmap (string * string) OrgMember) (Y : gset string) (d : TenantDB) : Prop :=
  members d = X /\ dom (orgs d) = Y.

Section SameMembers.
Context (uuid_in : string -> option string) (X : gmap (string * string) OrgMember) (Y : gset string).
Abbreviation J := (same_members X Y).

Ltac leaf := repeat (case_match; try done); intros; simplify_eq/=; try done.

Lemma same_event org env event resource id : keeps (tx_inv J) (InsertTenantRefreshEvent uuid_in org env event resource id).
Proof. unfold InsertTenantRefreshEvent. tenant_keep. unfold as_id, tenant_event. leaf. Qed.
Lemma same_audit org user action resource id : keeps (tx_inv J) (InsertAuditLog uuid_in org user action resource id).
Proof. unfold InsertAuditLog. tenant_keep. leaf. Qed.
Lemma same_rename name org : keeps (tx_inv J) (UpdateOrganizationName uuid_in name org).
Proof. unfold UpdateOrganizationName. tenant_keep. leaf. Qed.
Lemma same_soft_delete org : keeps (tx_inv J) (SoftDeleteOrganization uuid_in org).
Proof.
  unfold SoftDeleteOrganization. tenant_keep. intros [= _ <-]. destruct (live_org id d) eqn:El; [|done]. destruct Hd as [H1 H2].
  split; [done|]. apply bool_decide_eq_true in El. apply elem_of_dom_2 in El. unfold orgs in *. simpl.
  rewrite dom_insert_L, <- H2. set_solver.
Qed.
Lemma same_invalidate org email : keeps (tx_inv J) (InvalidatePendingInvitation uuid_in org email).
Proof. unfold InvalidatePendingInvitation. tenant_keep. unfold invalidate. leaf. Qed.
Lemma same_invitation org user email role digest expires :
  keeps (tx_inv J) (CreateOrganizationInvitation uuid_in org user email role digest expires).
Proof. unfold CreateOrganizationInvitation. tenant_keep. unfold create_invitation. leaf. Qed.
Lemma same_project org name description : keeps (tx_inv J) (CreateProjectRow uuid_in org name description).
Proof. unfold CreateProjectRow. tenant_keep. unfold insert_project. leaf. Qed.
Lemma same_project_update name description id : keeps (tx_inv J) (UpdateTenantProject uuid_in name description id).
Proof. unfold UpdateTenantProject. tenant_keep. leaf. Qed.
Lemma same_project_delete id : keeps (tx_inv J) (DeleteEmptyTenantProject uuid_in id).
Proof. unfold DeleteEmptyTenantProject. tenant_keep. leaf. Qed.
Lemma same_environment org project name kind : keeps (tx_inv J) (CreateTenantEnvironment uuid_in org project name kind).
Proof. unfold CreateTenantEnvironment. tenant_keep. unfold insert_environment. leaf. Qed.
Lemma same_environment_update name kind id : keeps (tx_inv J) (UpdateTenantEnvironment uuid_in name kind id).
Proof. unfold UpdateTenantEnvironment. tenant_keep. leaf. Qed.
Lemma same_environment_delete id : keeps (tx_inv J) (DeleteEmptyTenantEnvironment uuid_in id).
Proof. unfold DeleteEmptyTenantEnvironment. tenant_keep. leaf. Qed.
Lemma same_record org env actor action resource id : keeps (tx_inv J) (recordTenantChange uuid_in org env actor action resource id).
Proof. apply keeps_record; [apply same_event|apply same_audit]. Qed.
End SameMembers.
#[export] Hint Resolve same_event same_audit same_rename same_soft_delete same_invalidate same_invitation same_project
  same_project_update same_project_delete same_environment same_environment_update same_environment_delete same_record : keeps.

(** What a statement of the same kind leaves, from a run. *)
Lemma keeps_run {S A} (I : S -> Prop) (m : SE S A) s a s' : keeps I m -> m s = (Ok a, s') -> I s -> I s'.
Proof. intros Hk E Hs. specialize (Hk s Hs). by rewrite E in Hk. Qed.

(** *** Requests about members *)

Lemma or_missing_ok {D A} e (q : Tx D A) s a s' : or_missing e q s = (Ok a, s') -> q s = (Ok a, s').
Proof.
  unfold or_missing. intros H. apply bind_ok in H as (r & s1 & H1 & H). unfold try_ in H1. destruct (q s) as [r0 s0].
  injection H1 as <- <-. destruct r0 as [b|x]; [by apply ret_ok in H as [-> ->]|by destruct x].
Qed.

Lemma as_id_ok uuid_in {A} s (q : string -> TenantDB -> res A * TenantDB) d a d' :
  as_id uuid_in s q d = (Ok a, d') -> exists id, uuid_in s = Some id /\ q id d = (Ok a, d').
Proof. unfold as_id. destruct (uuid_in s) as [id|]; [|done]. by exists id. Qed.

Lemma one_row_ok {A} (q : TenantDB -> option A) d a d' : one_row q d = (Ok a, d') -> q d = Some a /\ d' = d.
Proof. unfold one_row. by destruct (q d); [intros [= <- <-]|]. Qed.

Lemma member_role_in_some org user d role : member_role_in org user d = Some role ->
  exists m, members d !! (org, user) = Some m /\ role = role_text (om_role m).
Proof. unfold member_role_in. intros (m & Hm & ->)%fmap_Some. by exists m. Qed.

Lemma roleTx_ok uuid_in user org s role s' : roleTx uuid_in user org s = (Ok role, s') ->
  moved (tx_db s) s s' /\ exists o u m, uuid_in org = Some o /\ uuid_in user = Some u /\ live_org o (tx_db s) = true /\
    members (tx_db s) !! (o, u) = Some m /\ role = role_text (om_role m).
Proof.
  intros [Hq Hn]%or_missing_ok%sql_ok. apply as_id_ok in Hq as (o & Ho & Hq). apply as_id_ok in Hq as (u & Hu & Hq).
  apply one_row_ok in Hq as [Hq Hd]. split; [done|]. destruct (live_org o (tx_db s)) eqn:El; [|done].
  apply member_role_in_some in Hq as (m & Hm & ->). by exists o, u, m.
Qed.

Lemma member_role_ok uuid_in org user e s role s' : or_missing e (member_role_query uuid_in org user) s = (Ok role, s') ->
  moved (tx_db s) s s' /\ exists o u m, uuid_in org = Some o /\ uuid_in user = Some u /\
    members (tx_db s) !! (o, u) = Some m /\ role = role_text (om_role m).
Proof.
  intros [Hq Hn]%or_missing_ok%sql_ok. apply as_id_ok in Hq as (o & Ho & Hq). apply as_id_ok in Hq as (u & Hu & Hq).
  apply one_row_ok in Hq as [Hq Hd]. split; [done|]. apply member_role_in_some in Hq as (m & Hm & ->). by exists o, u, m.
Qed.

Lemma recorded_ok uuid_in org env actor action resource id s u s' :
  recordTenantChange uuid_in org env actor action resource id s = (Ok u, s') ->
  members (tx_db s') = members (tx_db s) /\ dom (orgs (tx_db s')) = dom (orgs (tx_db s)).
Proof. intros E. by eapply (keeps_run (tx_inv (same_members (members (tx_db s)) (dom (orgs (tx_db s)))))); [|exact E|]; [apply same_record|]. Qed.

Lemma recorded_invitations uuid_in org env actor action resource id s u s' :
  recordTenantChange uuid_in org env actor action resource id s = (Ok u, s') -> invitations (tx_db s') = invitations (tx_db s).
Proof.
  intros E. eapply (keeps_run (tx_inv (fun d => invitations d = invitations (tx_db s)))); [|exact E|done]. apply keeps_record; intros.
  - unfold InsertTenantRefreshEvent. tenant_keep. unfold as_id, tenant_event. repeat (case_match; try done); intros; by simplify_eq/=.
  - unfold InsertAuditLog. tenant_keep. repeat (case_match; try done); intros; by simplify_eq/=.
Qed.

Lemma role_of_text r : role_of (role_text r) = Some r.
Proof. by destruct r. Qed.
Lemma role_text_owner r : String.eqb (role_text r) RoleOwner = bool_decide (r = Owner).
Proof. by destruct r. Qed.
Lemma role_text_admin r : String.eqb (role_text r) RoleAdmin = bool_decide (r = Admin).
Proof. by destruct r. Qed.

Section Members.
Context {P : Primitives} (uuid_in : string -> option string).

Lemma removed_change actor org member s u s' : remove_tx uuid_in actor org member s = (Ok u, s') ->
  exists a, uuid_in actor = Some a /\ membership_change a (tx_db s) (tx_db s').
Proof.
  unfold remove_tx. intros H. apply bind_ok in H as (role & s1 & H1 & H). apply roleTx_ok in H1 as ([D1 _] & o & a & ra & Ho & Ha & Hl & Hra & ->).
  destruct (Allows _ _) eqn:Ea; [|done]. simpl in H. apply bind_ok in H as (target & s2 & H2 & H).
  apply member_role_ok in H2 as ([D2 _] & o' & m & old & Ho' & Hm & Hold & ->). assert (o' = o) as -> by congruence.
  rewrite !role_text_owner, role_text_admin in H. destruct (_ || _) eqn:Eg; [done|].
  apply orb_false_iff in Eg as [Eo Eadm]. apply bool_decide_eq_false in Eo.
  apply bind_ok in H as (? & s3 & H3 & H). apply sql_ok in H3 as [Hq _]. apply as_id_ok in Hq as (o'' & Ho'' & Hq).
  apply as_id_ok in Hq as (m' & Hm' & Hq). assert (o'' = o /\ m' = m) as [-> ->] by (split; congruence). injection Hq as _ D3.
  apply bind_ok in H as (? & s4 & H4 & H). apply recorded_ok in H4 as [D4 E4]. apply ret_ok in H as [<- <-].
  exists a. split; [done|]. rewrite D1 in *. rewrite D2 in *.
  apply (mc_removed a (tx_db s) (tx_db s4) o m old ra); try done.
  - intros Had. rewrite Had in Eadm. rewrite (bool_decide_true (Admin = Admin)), andb_true_r in Eadm by done.
    apply negb_false_iff, bool_decide_eq_true in Eadm. done.
  - by rewrite E4, <- D3.
  - rewrite D4, <- D3. done.
Qed.

Lemma updated_change actor org member role notify s u s' :
  (role = "" \/ ValidAssignableRole role = true) ->
  update_member_tx uuid_in actor org member role notify s = (Ok u, s') ->
  exists a, uuid_in actor = Some a /\ membership_change a (tx_db s) (tx_db s').
Proof.
  intros Hrole H. unfold update_member_tx in H. apply bind_ok in H as (rl & s1 & H1 & H).
  apply roleTx_ok in H1 as ([D1 _] & o & a & ra & Ho & Ha & Hl & Hra & ->).
  destruct (negb (String.eqb actor member) && _) eqn:E1; [done|]. destruct (negb (String.eqb role "") && String.eqb actor member) eqn:E2; [done|].
  destruct (negb (String.eqb role "") && _ && _) eqn:E3; [done|].
  apply bind_ok in H as (target & s2 & H2 & H). apply member_role_ok in H2 as ([D2 _] & o' & m & old & Ho' & Hm & Hold & ->).
  assert (o' = o) as -> by congruence. rewrite role_text_owner in H. destruct (bool_decide _) eqn:Eo; [done|].
  apply bool_decide_eq_false in Eo. cbn zeta in H. apply bind_ok in H as (n & s3 & H3 & H).
  assert (tx_db s3 = tx_db s2) as D3.
  { destruct notify as [b|]; [by apply ret_ok in H3 as [_ <-]|]. apply sql_ok in H3 as [Hq _]. apply as_id_ok in Hq as (? & _ & Hq).
    apply as_id_ok in Hq as (? & _ & Hq). by apply one_row_ok in Hq as [_ ->]. }
  apply bind_ok in H as (v & s4 & H4 & H). apply sql_ok in H4 as [Hq _]. apply as_id_ok in Hq as (o'' & Ho'' & Hq).
  apply as_id_ok in Hq as (m' & Hm' & Hq). assert (o'' = o /\ m' = m) as [-> ->] by (split; congruence).
  apply bind_ok in H as (? & s5 & H5 & H). apply recorded_ok in H5 as [D5 E5]. apply ret_ok in H as [<- <-].
  exists a. split; [done|]. rewrite D1 in *. rewrite D2 in *. rewrite D3 in Hq. unfold update_member in Hq.
  rewrite Hold in Hq. destruct (user_rows (tx_db s) !! m); [|done].
  set (r := if String.eqb role "" then role_text (om_role old) else role) in Hq.
  assert (exists new, role_of r = Some new /\ tx_db s4 = on_members <[(o, m) := mkOrgMember new n]> (fun x => x) (tx_db s)) as (new & Er & D4).
  { revert Hq. destruct (role_of r) as [new|]; [|done]. destruct (bool_decide _ && _); [done|]. intros Hq. apply (f_equal snd) in Hq. by exists new. }
  apply (mc_updated a (tx_db s) (tx_db s5) o m old (mkOrgMember new n)); simpl; try done.
  - intros ->. unfold r in Er. destruct (String.eqb_spec role "") as [->|Hne]; [rewrite role_of_text in Er; congruence|].
    destruct Hrole as [|Hv]; [done|]. unfold ValidAssignableRole in Hv. unfold role_of in Er.
    destruct (String.eqb_spec role RoleOwner) as [->|]; [done|]. repeat (case_match; try done).
  - destruct (String.eqb_spec actor member) as [Eam|Eam]; simpl in *.
    + left. rewrite andb_true_r in E2. apply negb_false_iff in E2. unfold r in Er. rewrite E2, role_of_text in Er.
      split; [congruence|]. split; [congruence|done].
    + right. exists ra. apply negb_false_iff in E1. split; [done|]. intros ->. unfold r in Er.
      destruct (String.eqb_spec role "") as [->|Hne]; [rewrite role_of_text in Er; right; congruence|]. simpl in E3. left.
      assert (role = RoleAdmin) as ->.
      { unfold role_of in Er. destruct (String.eqb_spec role RoleOwner); [done|]. destruct (String.eqb_spec role RoleAdmin); [done|].
        repeat (case_match; try done). }
      rewrite role_text_owner in E3. change (String.eqb RoleAdmin RoleAdmin) with true in E3. rewrite andb_true_r in E3.
      by apply negb_false_iff, bool_decide_eq_true in E3.
  - by rewrite E5, D4.
  - by rewrite D5, D4.
Qed.
End Members.

(** *** Joining and founding *)

Lemma accept_invitation_tx_ok {P : Primitives} uuid_in user email token now s x s' : accept_tx uuid_in user email token now s = (Ok x, s') ->
  exists k r id u c d1, invitations (tx_db s) !! k = Some r /\ iv_digest r = sha256 token /\ iv_accepted_at r = None /\
    after (iv_expires_at r) now = true /\ EqualFold (TrimSpace (iv_email r)) (TrimSpace email) = true /\
    uuid_in k = Some id /\ uuid_in user = Some u /\ accept_invitation (tx_now s) u id (tx_db s) = (Ok c, d1) /\
    x = Commit (c, mkMembership (iv_organization_id r) user (role_text (iv_role r))) /\
    members (tx_db s') = members d1 /\ dom (orgs (tx_db s')) = dom (orgs d1) /\ invitations (tx_db s') = invitations d1.
Proof.
  unfold accept_tx. intros H. apply bind_ok in H as ([k r] & s1 & H1 & H). apply or_missing_ok, select_one_ok in H1 as [Hh [D1 N1]].
  assert ((k, r) ∈ filter (fun x => iv_digest x.2 = sha256 token) (map_to_list (invitations (tx_db s)))) as Hin.
  { apply head_Some_elem_of in Hh. done. }
  apply list_elem_of_filter in Hin as [Hdig Hin%elem_of_map_to_list]. simpl in Hdig, H.
  destruct (_ || _) eqn:Eg; [done|]. apply orb_false_iff in Eg as [[Ea Ex]%orb_false_iff Ee].
  apply negb_false_iff in Ea, Ex, Ee. destruct (iv_accepted_at r) eqn:Eacc; [done|].
  apply bind_ok in H as (c & s2 & H2 & H). apply sql_ok in H2 as [Hq _]. rewrite D1, N1 in Hq.
  apply as_id_ok in Hq as (id & Hid & Hq). apply as_id_ok in Hq as (u & Hu & Hq).
  apply bind_ok in H as ([] & s3 & H3 & H). apply ret_ok in H as [<- <-].
  exists k, r, id, u, c, (tx_db s2). do 9 (split; [done|]).
  destruct (c =? 1); [|by apply ret_ok in H3 as [_ <-]].
  pose proof H3 as [Hm Ho]%recorded_ok. by apply recorded_invitations in H3.
Qed.

(** What the statement that accepts does. *)
Lemma accept_invitation_ok now user id d c d' : accept_invitation now user id d = (Ok c, d') ->
  members d' = members d /\ orgs d' = orgs d /\ c = 0 \/
  c = 1 /\ orgs d' = orgs d /\ exists r, invitations d !! id = Some r /\ iv_accepted_at r = None /\
    members d !! (iv_organization_id r, user) = None /\
    invitations d' = <[id := accepted now r]> (invitations d) /\
    members d' = <[(iv_organization_id r, user) := mkOrgMember (iv_role r) true]> (members d).
Proof.
  unfold accept_invitation. destruct (invitations d !! id) as [r|] eqn:Er; [|intros [= <- <-]; by left].
  destruct (iv_accepted_at r) eqn:Ea; simpl; [intros [= <- <-]; by left|]. destruct (_ <? _); [done|].
  destruct (members d !! _) eqn:Em; simpl; [intros [= <- <-]; by left|].
  destruct (insert_member _ _ _ _ _) as [[u|e] d2] eqn:Ei; [|done]. intros [= <- <-]. right.
  unfold insert_member in Ei. revert Ei. case_match; [done|]. case_match; [done|]. intros [= _ <-].
  split; [done|]. split; [done|]. by exists r.
Qed.

Lemma joined_change {P : Primitives} uuid_in user email token now s x s' : accept_tx uuid_in user email token now s = (Ok x, s') ->
  exists u, uuid_in user = Some u /\ (same_members (members (tx_db s)) (dom (orgs (tx_db s))) (tx_db s') \/
    membership_change u (tx_db s) (tx_db s')).
Proof.
  intros (k & r & id & u & c & d1 & Hk & _ & Hacc & _ & _ & _ & Hu & Ha & _ & Hm & Ho & Hi)%accept_invitation_tx_ok.
  exists u. split; [done|]. apply accept_invitation_ok in Ha as [(Em & Eo & _)|(_ & Eo & r' & Hr' & Hn & Hf & Ei & Em)].
  - left. unfold same_members. by rewrite Hm, Ho, Em, Eo.
  - right. apply (mc_joined u _ _ id r'); try done; [|by rewrite Ho, Eo|by rewrite Hm].
    exists (accepted (tx_now s) r'). rewrite Hi, Ei, lookup_insert_eq. split; [done|]. by eexists.
Qed.

Lemma founded_change uuid_in user n s x s' : (forall k, uuid_in (tx_uuid s k) = Some (tx_uuid s k)) ->
  default_tx uuid_in user n s = (Ok x, s') -> exists u, uuid_in user = Some u /\ membership_change u (tx_db s) (tx_db s').
Proof.
  intros Hcan H. unfold default_tx in H. apply bind_ok in H as (res & s1 & H1 & H).
  unfold try_ in H1. destruct (CreateOrganization _ _ s) as [r0 s0] eqn:Ec. injection H1 as <- <-. destruct r0 as [[org info]|e]; [|done].
  unfold CreateOrganization in Ec. apply bind_ok in Ec as (id & s2 & H2 & Ec). injection H2 as Eid E2. apply sql_ok in Ec as [Hq _].
  assert (id = org /\ orgs (tx_db s) !! org = None /\ tx_db s0 = on_orgs <[org := None]> <[org := info]> (tx_db s)) as (-> & Hno & D1).
  { revert Hq. rewrite <- E2. simpl. unfold create_organization. case_match; [done|]. destruct (orgs (tx_db s) !! id) eqn:Eo; [done|]. simpl.
    case_match; [done|]. intros [= <- <- <-]. done. }
  apply bind_ok in H as ([] & s3 & H3 & H). apply sql_ok in H3 as [Hq3 _]. apply as_id_ok in Hq3 as (o & Ho & Hq3).
  apply as_id_ok in Hq3 as (u & Hu & Hq3). simpl in Ho. rewrite <- Eid, Hcan in Ho. injection Ho as <-. rewrite Eid in Hq3. clear Hq.
  assert (tx_db s3 = on_members <[(org, u) := mkOrgMember Owner true]> <[(org, u) := tx_now s0]> (tx_db s0)) as D3.
  { revert Hq3. unfold insert_member. case_match; [done|]. case_match; [done|]. by intros [= <-]. }
  set (X := members (tx_db s3)). set (Y := dom (orgs (tx_db s3))).
  assert (same_members X Y (tx_db s')) as [EX EY].
  { eapply (keeps_run (tx_inv (same_members X Y))); [|exact H|done]. unfold CreateProductionEnvironment. tenant_keep. }
  exists u. split; [done|]. apply (mc_founded u _ _ org); [done| |].
  - rewrite EY. unfold Y. rewrite D3. unfold orgs. simpl. rewrite D1. unfold on_orgs. simpl. apply dom_insert_L.
  - rewrite EX. unfold X. rewrite D3, D1. done.
Qed.

(** ** The membership refines its rules *)

Definition membership_moves (uuid_in : string -> option string) (user : string) (d d' : TenantDB) : Prop :=
  same_members (members d) (dom (orgs d)) d' \/ exists u, uuid_in user = Some u /\ membership_change u d d'.

(** A transaction moves the tables as its body does when that runs to its commit. *)
Lemma with_tx_moves {O A} (R : TenantDB -> TenantDB -> Prop) t (body : Tx TenantDB (TxEnd A)) (w : World TenantDB O) :
  R (w_db w) (w_db w) -> (forall s x s', tx_uuid s = w_uuid w -> body s = (Ok (Commit x), s') -> R (tx_db s) (tx_db s')) ->
  R (w_db w) (w_db (with_tx t body w).2).
Proof.
  intros Hr Hb. destruct (with_tx t body w) as [r w'] eqn:E. apply with_tx_db in E as [E|(fs & x & s & Hs & E)]; simpl; rewrite E; [done|].
  by apply Hb in Hs.
Qed.

Lemma bind_ret_state {S A} (m : SE S A) (s : S) : ((_ ← m; mret ()) s).2 = (m s).2.
Proof. unfold mbind, SE_bind. by destruct (m s) as [[a|e] s']. Qed.

(** The requests that leave the members alone. *)
Definition about_members (r : tenant_request) : bool :=
  match r with TCreateDefault _ | TAccept _ _ _ | TUpdateMember _ _ _ _ | TRemoveMember _ _ => true | _ => false end.

Section Refinement.
Context {P : Primitives} (uuid_in : string -> option string) (ParseAddress : string -> option string) {O : Type}.
Context (Send : string -> string -> O -> res () * O).

Lemma other_requests user t now random r X Y : about_members r = false ->
  keeps (w_inv (same_members X Y)) (tenant_serve uuid_in ParseAddress Send user t now random r).
Proof.
  destruct r; try done; intros _; simpl; unfold Invite, invite_tx, UpdateOrganization, rename_tx, GetOrganization, tenant_query,
    GetAccessibleOrganization, DeleteOrganization, delete_org_tx, CreateProject, create_project_tx, UpdateProject, update_project_tx,
    DeleteProject, delete_project_tx, CreateEnvironment, create_environment_tx, UpdateEnvironment, update_environment_tx,
    DeleteEnvironment, delete_environment_tx, CreateTenantProject, recordAudit.
  all: tenant_keep.
  apply keeps_with_tx_call. tenant_keep.
Qed.

Lemma serve_moves user t now random r (w : World TenantDB O) : (forall k, uuid_in (w_uuid w k) = Some (w_uuid w k)) ->
  membership_moves uuid_in user (w_db w) (w_db (tenant_serve uuid_in ParseAddress Send user t now random r w).2).
Proof.
  intros Hcan. assert (membership_moves uuid_in user (w_db w) (w_db w)) as Hrefl by by left.
  destruct (about_members r) eqn:Er.
  2: { left. exact (keeps_final _ _ w (other_requests user t now random r (members (w_db w)) (dom (orgs (w_db w))) Er) ltac:(done)). }
  destruct r as [input| |email verified token|org member role notify|org member| | | | | | | | ]; try done; simpl; rewrite ?bind_ret_state.
  - unfold CreateDefault. unfold mbind, SE_bind, of_res. destruct (normalizeInput user input) as [n|e]; [|done].
    apply with_tx_moves; [done|]. intros s x s' Hu Hb. right. eapply founded_change; [|exact Hb]. by rewrite Hu.
  - unfold AcceptInvitation. destruct (negb verified); [done|]. destruct (negb _); [done|].
    assert (membership_moves uuid_in user (w_db w) (w_db (with_tx t (accept_tx uuid_in user email token now) w).2)) as Hm.
    { apply with_tx_moves; [done|]. intros s x s' _ Hb. apply joined_change in Hb as (u & Hu & [Hs|Hc]); [by left|right; eauto]. }
    revert Hm. unfold mbind, SE_bind. destruct (with_tx _ _ _) as [[x|e] w']; [|done]. by destruct (negb _).
  - unfold UpdateMember. destruct (_ || _) eqn:Eg; [done|]. apply orb_false_iff in Eg as [_ Eg].
    apply with_tx_moves; [done|]. intros s x s' _ Hb. right. eapply updated_change; [|exact Hb].
    destruct (String.eqb_spec role ""); [by left|]. right. by apply negb_false_iff in Eg.
  - unfold RemoveMember. destruct (String.eqb _ _); [done|]. apply with_tx_moves; [done|]. intros s x s' _ Hb. right.
    by eapply removed_change.
Qed.
End Refinement.

(** ** Runs of the platform *)

Definition owns (org user : string) (d : TenantDB) : Prop := exists m, members d !! (org, user) = Some m /\ om_role m = Owner.
Definition owned (d : TenantDB) : Prop := forall org, is_Some (orgs d !! org) -> exists user, owns org user d.

Lemma change_owner user d d' org v : membership_change user d d' -> hierarchy d -> owns org v d -> owns org v d'.
Proof.
  intros Hc Hh (m & Hm & Ho). unfold owns.
  destruct Hc as [o Hn _ E|id r _ _ _ Hn _ E|o x old new Hx Hold _ _ _ E|o x old ra Hx Hold _ _ _ E]; rewrite E; exists m; split; try done.
  - rewrite lookup_insert_ne; [done|]. intros [= -> _]. apply (hi_member _ Hh) in Hm. rewrite Hn in Hm. by destruct Hm.
  - rewrite lookup_insert_ne; [done|]. intros Eq. rewrite Eq, Hm in Hn. done.
  - rewrite lookup_insert_ne; [done|]. intros Eq. rewrite Eq, Hm in Hx. congruence.
  - rewrite lookup_delete_ne; [done|]. intros Eq. rewrite Eq, Hm in Hx. congruence.
Qed.

Lemma change_orgs user d d' org : membership_change user d d' -> is_Some (orgs d' !! org) ->
  is_Some (orgs d !! org) \/ owns org user d'.
Proof.
  rewrite <- !elem_of_dom. intros [o _ E Em|id r _ _ _ _ E _|o x old new _ _ _ _ E _|o x old ra _ _ _ _ E _]; rewrite E; [|by left..].
  intros [->%elem_of_singleton|H]%elem_of_union; [right|by left]. exists (mkOrgMember Owner true). by rewrite Em, lookup_insert_eq.
Qed.

(** What a request of the monitor service leaves of the tables of tenants. *)
Lemma effect_tenants hash user env t c c' : effect hash user env t c c' ->
  org_members (engine c') = org_members (engine c) /\ organizations c' = organizations c /\ environments c' = environments c /\
  forall m r, monitors (engine c') !! m = Some r -> environments c !! mon_environment_id r = Some (mon_organization_id r) \/
    exists r0, monitors (engine c) !! m = Some r0 /\ mon_environment_id r = mon_environment_id r0 /\
      mon_organization_id r = mon_organization_id r0.
Proof.
  intros [m r i org l Henv Horg Hu Hlt Hm Hck Ho Hev Hv Hlive Hnext Hno
    |m r r' i' l Hr Hev Hd Hu Ho Hev' Hv Hck Hnext Hst|m r j id ob l Hr Hev Hd Hu Hlt Hj Hob Ht1 Ht2 Ht3 Ht4 Ht5 Ht6]; simpl.
  - split; [unfold ensure_state; by repeat case_match|]. do 2 (split; [done|]). rewrite (proj1 (ensure_state_frame _ _)). simpl.
    intros x y [[<- <-]|[_ Hy]]%lookup_insert_Some; [left; by rewrite Ho, Hev|right; eauto].
  - do 3 (split; [done|]). intros x y [[<- <-]|[_ Hy]]%lookup_insert_Some; right; [|by eauto]. exists r.
    by rewrite Hev, Hev', Ho.
  - do 3 (split; [done|]). intros x y Hy. right. eauto.
Qed.

Definition with_config (c : ConfigDB) (d : TenantDB) : TenantDB :=
  mkTenant c (org_info d) (member_since d) (projects d) (env_info d) (invitations d) (audit_logs d).

Lemma effect_hierarchy hash user env t c d : effect hash user env t (config d) c -> hierarchy d ->
  hierarchy (with_config c d) /\ members (with_config c d) = members d /\ orgs (with_config c d) = orgs d.
Proof.
  intros (Em & Eo & Ee & Hm)%effect_tenants [A B C D E F G K].
  split; [|done]. constructor; unfold envs, orgs, members in *; simpl; rewrite ?Em, ?Eo, ?Ee; try done.
  intros m r Hr. destruct (Hm m r Hr) as [H|(r0 & Hr0 & -> & ->)]; [done|by eapply D].
Qed.

Section Runs.
Context {P : Primitives} `{UrlLib}.
Context (hash : string -> Z) (json : Codec (gmap string string)) (visit : gmap string string -> list (string * string)) (s : Monitors.Service).
Context (uuid_in : string -> option string) (ParseAddress : string -> option string).

(** Requests to this service and to the monitor service, in any order, with any faults. *)
Inductive tenancy_step : TenantDB -> TenantDB -> Prop :=
| ty_tenant {O} (Send : string -> string -> O -> res () * O) user t now random r (w : World TenantDB O) :
    (forall k, uuid_in (w_uuid w k) = Some (w_uuid w k)) ->
    tenancy_step (w_db w) (w_db (tenant_serve uuid_in ParseAddress Send user t now random r w).2)
| ty_monitor {O} c d (w : World ConfigDB O) :
    w_db w = config d -> tenancy_step d (with_config (w_db (serve hash json visit s c w).2) d).

Definition owners_kept (d d' : TenantDB) : Prop := forall org user, owns org user d -> owns org user d'.

Lemma tenancy_step_inv d d' : tenancy_step d d' -> hierarchy d -> owned d -> hierarchy d' /\ owned d' /\ owners_kept d d'.
Proof.
  intros [O Send user t now random r w Hcan|O c d0 w Hw] Hh Ho.
  - split; [apply (keeps_final (w_inv hierarchy)); [apply tenant_serve_hierarchy|done]|].
    destruct (serve_moves uuid_in ParseAddress Send user t now random r w Hcan) as [[Em Eo]|(u & _ & Hc)].
    + assert (owners_kept (w_db w) (w_db (tenant_serve uuid_in ParseAddress Send user t now random r w).2)) as Hk.
      { intros org v. unfold owns. by rewrite Em. }
      split; [|done]. intros org Horg. rewrite <- elem_of_dom, Eo, elem_of_dom in Horg. apply Ho in Horg as [v Hv]. eauto.
    + assert (owners_kept (w_db w) (w_db (tenant_serve uuid_in ParseAddress Send user t now random r w).2)) as Hk.
      { intros org v Hv. by eapply change_owner. }
      split; [|done]. intros org Horg. eapply change_orgs in Horg as [[v Hv]%Ho|Hv]; eauto.
  - destruct (serve_effect hash json visit s c w) as [E|He].
    + rewrite E, Hw. assert (with_config (config d0) d0 = d0) as -> by by destruct d0. split; [done|]. split; [done|]. by intros org v.
    + rewrite Hw in He at 1. apply effect_hierarchy in He as (Hh' & Em & Eo); [|done]. split; [done|].
      split; [|intros org v; unfold owns; by rewrite Em]. intros org. rewrite Eo. intros [v Hv]%Ho. exists v. unfold owns. by rewrite Em.
Qed.

Lemma tenancy_steps_inv d d' : rtc tenancy_step d d' -> hierarchy d -> owned d -> hierarchy d' /\ owned d' /\ owners_kept d d'.
Proof.
  induction 1 as [d|d d1 d2 Hs Hr IH]; intros Hh Ho; [split; [done|]; split; [done|]; by intros org v|].
  apply tenancy_step_inv in Hs as (Hh1 & Ho1 & Hk); [|done..]. destruct (IH Hh1 Ho1) as (? & ? & Hk'). split_and!; try done.
  intros org user Hu. by apply Hk', Hk.
Qed.
End Runs.

(** C14: in one request of one user the membership changes by one of the four rules, or not at
    all: a user founds an organization and owns it; joins by an unused invitation, which is
    then used, with the role it was made for; a member that is not the owner is changed by
    a manager, or changes its own notifications, and only the owner makes an admin; a
    manager removes a member that is not the owner, an admin only when it owns the
    organization.  The manager is one of a live organization at that moment, and
    organizations never disappear. *)
Theorem membership_refines {P : Primitives} uuid_in ParseAddress {O} (Send : string -> string -> O -> res () * O)
    user t now random r (w : World TenantDB O) :
  (forall k, uuid_in (w_uuid w k) = Some (w_uuid w k)) ->
  membership_moves uuid_in user (w_db w) (w_db (tenant_serve uuid_in ParseAddress Send user t now random r w).2).
Proof. apply serve_moves. Qed.

(** C15: whatever the users ask of this service and of the monitor service, in any order and
    with any faults of the database: every environment belongs to a project of its
    organization, every project and member to an organization, every monitor to an
    environment of its organization; every organization has exactly one owner, and an
    owner stays the owner. *)
Theorem tenancy_closed {P : Primitives} `{UrlLib} hash json visit s uuid_in ParseAddress (d d' : TenantDB) :
  rtc (tenancy_step hash json visit s uuid_in ParseAddress) d d' -> hierarchy d -> owned d ->
  hierarchy d' /\ owners_kept d d' /\
  (forall org, is_Some (orgs d' !! org) -> exists user, owns org user d' /\ forall v, owns org v d' -> v = user).
Proof.
  intros Hr Hh Ho. eapply tenancy_steps_inv in Hr as (Hh' & Ho' & Hk); [|done..]. split; [done|]. split; [done|].
  intros org [u Hu]%Ho'. exists u. split; [done|]. intros v (n & Hn & En). destruct Hu as (m & Hm & Em). by eapply (hi_owner _ Hh').
Qed.

(** *** Invitations are used once *)

Section Once.
Context {P : Primitives} (uuid_in : string -> option string).

Lemma accept_refused user email token now s : (forall k r, invitations (tx_db s) !! k = Some r -> iv_digest r = sha256 token ->
    is_Some (iv_accepted_at r)) ->
  exists e, (accept_tx uuid_in user email token now s).1 = Err e.
Proof.
  intros Hused. destruct (accept_tx uuid_in user email token now s) as [[x|e] s'] eqn:E; [|by exists e].
  apply accept_invitation_tx_ok in E as (k & r & ? & ? & ? & ? & Hk & Hd & Ha & _). destruct (Hused k r Hk Hd) as [z Hz]. congruence.
Qed.

Lemma AcceptInvitation_refused {O} t now user email verified token (w : World TenantDB O) :
  (forall k r, invitations (w_db w) !! k = Some r -> iv_digest r = sha256 token -> is_Some (iv_accepted_at r)) ->
  (exists e, (AcceptInvitation uuid_in t now user email verified token w).1 = Err e) /\
  w_db (AcceptInvitation uuid_in t now user email verified token w).2 = w_db w.
Proof.
  intros Hused. unfold AcceptInvitation. destruct (negb verified); [by split; [eexists|]|]. destruct (negb _); [by split; [eexists|]|].
  unfold mbind, SE_bind, with_tx. destruct (next_fault (w_faults w)) as [[] fs]; [|by split; [eexists|]..].
  destruct (accept_refused user email token now (mkTx (w_db w) t false (w_uuid w) (w_next w) fs) Hused) as [e He].
  destruct (accept_tx _ _ _ _ _ _) as [r s]. simpl in He. subst r. by split; [eexists|].
Qed.
End Once.

(** An invitation is accepted by a verified user with the address it was sent to, before
    it expires, and gives exactly the role it was made for, in an organization the user was
    no member of; afterwards the token is refused, whoever presents it and whenever, and
    changes nothing. *)
Theorem invitation_used_once {P : Primitives} uuid_in {O O'} t now user email verified token (w w' : World TenantDB O) ms :
  hierarchy (w_db w) -> (forall k, is_Some (invitations (w_db w) !! k) -> uuid_in k = Some k) ->
  AcceptInvitation uuid_in t now user email verified token w = (Ok ms, w') ->
  verified = true /\
  (exists id r u, invitations (w_db w) !! id = Some r /\ iv_digest r = sha256 token /\ iv_accepted_at r = None /\
    now < iv_expires_at r /\ EqualFold (TrimSpace (iv_email r)) (TrimSpace email) = true /\
    ms = mkMembership (iv_organization_id r) user (role_text (iv_role r)) /\ uuid_in user = Some u /\
    members (w_db w) !! (iv_organization_id r, u) = None /\
    members (w_db w') = <[(iv_organization_id r, u) := mkOrgMember (iv_role r) true]> (members (w_db w))) /\
  forall t' now' user' email' verified' (w2 : World TenantDB O'), invitations (w_db w2) = invitations (w_db w') ->
    (exists e, (AcceptInvitation uuid_in t' now' user' email' verified' token w2).1 = Err e) /\
    w_db (AcceptInvitation uuid_in t' now' user' email' verified' token w2).2 = w_db w2.
Proof.
  intros Hh Hcan. unfold AcceptInvitation at 1. destruct verified; [|done]. simpl. destruct (negb _); [done|]. intros H.
  apply bind_ok in H as ([c m] & w1 & H1 & H). simpl in H. destruct (Z.eqb_spec c 1) as [->|]; [|done]. apply ret_ok in H as [-> ->].
  apply with_tx_ok in H1 as (_ & fs & s & [(Hb & _ & E)|(Hb & _)]).
  2: { apply accept_invitation_tx_ok in Hb as (? & ? & ? & ? & ? & ? & _ & _ & _ & _ & _ & _ & _ & _ & [=] & _). }
  apply accept_invitation_tx_ok in Hb as (k & r & id & u & c & d1 & Hk & Hd & Ha & Hx & He & Hid & Hu & Hac & [= <- ->] & Hm & _ & Hi). simpl in *.
  rewrite Hcan in Hid by by eexists. injection Hid as <-.
  apply accept_invitation_ok in Hac as [(_ & _ & [=])|(_ & _ & r' & Hr' & _ & Hno & Ei & Em)]. assert (r' = r) as -> by congruence.
  split; [done|]. split.
  { exists k, r, u. rewrite E, Hm, Em. split_and!; try done. unfold after in Hx. lia. }
  intros t' now' user' email' verified' w2 E2. apply AcceptInvitation_refused. rewrite E2, E, Hi, Ei.
  intros j q [[<- <-]|[Hne Hj]]%lookup_insert_Some Hq; [by eexists|]. exfalso. apply Hne. eapply (hi_digest _ Hh); [done..|]. congruence.
Qed.

(** ** One organization *)

Module Founders.
(** The cast of PostgreSQL, on the texts in its standard form. *)
Definition uuid_in (s : string) : option string := if uuidPattern s then Some (to_lower s) else None.
Definition ParseAddress (s : string) : option string := Some s.
Definition Send (email token : string) (o : list (string * string)) : res () * list (string * string) := (Ok (), (email, token) :: o).

Definition ann : string := "aaaaaaaa-0000-4000-8000-000000000001".
Definition bob : string := "bbbbbbbb-0000-4000-8000-000000000002".
Definition cat : string := "cccccccc-0000-4000-8000-000000000003".
(** What gen_random_uuid() draws. *)
Definition draw (n : nat) : string :=
  match n with
  | 0%nat => "dddddddd-0000-4000-8000-000000000000" | 1%nat => "dddddddd-0000-4000-8000-000000000001"
  | 2%nat => "dddddddd-0000-4000-8000-000000000002" | 3%nat => "dddddddd-0000-4000-8000-000000000003"
  | _ => "dddddddd-0000-4000-8000-000000000004"
  end.
Definition org : string := draw 0.

Definition db0 : TenantDB :=
  mkTenant (mkConfig (on_users (fun _ => {[ann := mkUserRow "ann@example.test" (Some 0); bob := mkUserRow "bob@example.test" (Some 0);
                                           cat := mkUserRow "cat@example.test" (Some 0)]}) empty_db) ∅ ∅ ∅) ∅ ∅ ∅ ∅ ∅ [].
Abbreviation Box := (list (string * string)).
Definition w0 : World TenantDB Box := mkWorld db0 [] draw 0 [].

Definition ask (user : string) (t : Z) (r : tenant_request) (w : World TenantDB Box) : World TenantDB Box :=
  (tenant_serve uuid_in ParseAddress Send user t t (Ok (Toy.rep 32 "t")) r w).2.
Definition token (w : World TenantDB Box) : string := match w_ext w with (_, t) :: _ => t | [] => "" end.

Definition found : tenant_request := TCreateDefault (mkDefaultInput "Ann's" "anns" "Site" "").
Definition invite : tenant_request := TInvite org "bob@example.test" "admin".
Definition w1 : World TenantDB Box := ask ann 0 found w0.
Definition w2 : World TenantDB Box := ask ann second invite w1.
Definition accept : tenant_request := TAccept "bob@example.test" true (token w2).
Definition w3 : World TenantDB Box := ask bob (2 * second) accept w2.

Lemma drawn k : uuid_in (draw k) = Some (draw k).
Proof. do 5 (destruct k as [|k]; [reflexivity|]). reflexivity. Qed.

Lemma hierarchy0 : hierarchy db0.
Proof. constructor; unfold envs, members; simpl; intros *; by rewrite ?lookup_empty. Qed.
Lemma owned0 : owned db0.
Proof. intros o [x Hx]. unfold orgs in Hx. simpl in Hx. by rewrite lookup_empty in Hx. Qed.
Definition role_in (user : string) (d : TenantDB) : option member_role := om_role <$> members d !! (org, user).

Lemma step r user t w : w_uuid w = draw ->
  tenancy_step OneTenant.hash bits_codec map_to_list OneTenant.service uuid_in ParseAddress (w_db w) (w_db (ask user t r w)).
Proof. intros Hd. refine (ty_tenant _ _ _ _ _ _ Send user t t (Ok (Toy.rep 32 "t")) r w _). rewrite Hd. exact drawn. Qed.

Lemma founders_reached : rtc (tenancy_step OneTenant.hash bits_codec map_to_list OneTenant.service uuid_in ParseAddress) db0 (w_db w3).
Proof.
  eapply rtc_l; [exact (step found ann 0 w0 eq_refl)|]. eapply rtc_l; [exact (step invite ann second w1 eq_refl)|].
  apply rtc_once. exact (step accept bob (2 * second) w2 eq_refl).
Qed.

Lemma hierarchy2 : hierarchy (w_db w2).
Proof.
  apply (keeps_final (w_inv hierarchy)); [apply tenant_serve_hierarchy|]. apply (keeps_final (w_inv hierarchy)); [apply tenant_serve_hierarchy|].
  exact hierarchy0.
Qed.

Lemma stored k : is_Some (invitations (w_db w2) !! k) -> uuid_in k = Some k.
Proof.
  rewrite <- elem_of_dom. assert (dom (invitations (w_db w2)) = {[draw 3]}) as -> by (vm_compute; reflexivity).
  intros ->%elem_of_singleton. reflexivity.
Qed.
End Founders.

Lemma membership_refines_witness : membership_moves Founders.uuid_in Founders.bob (w_db Founders.w2) (w_db Founders.w3) /\
  Founders.role_in Founders.bob (w_db Founders.w2) = None /\ Founders.role_in Founders.bob (w_db Founders.w3) = Some Admin.
Proof.
  split; [|split; vm_compute; reflexivity].
  exact (membership_refines Founders.uuid_in Founders.ParseAddress Founders.Send Founders.bob (2 * second) (2 * second)
    (Ok (Toy.rep 32 "t")) Founders.accept Founders.w2 Founders.drawn).
Defined.

Lemma tenancy_closed_witness : hierarchy (w_db Founders.w3) /\ Founders.role_in Founders.ann (w_db Founders.w3) = Some Owner /\
  exists user, owns Founders.org user (w_db Founders.w3) /\ forall v, owns Founders.org v (w_db Founders.w3) -> v = user.
Proof.
  destruct (tenancy_closed _ _ _ _ _ _ _ _ Founders.founders_reached Founders.hierarchy0 Founders.owned0) as (Hh & _ & Ho).
  split; [exact Hh|]. split; [vm_compute; reflexivity|]. apply Ho. exists None. vm_compute. reflexivity.
Defined.

Definition founders_accept := AcceptInvitation Founders.uuid_in (2 * second) (2 * second) Founders.bob "bob@example.test" true
  (Founders.token Founders.w2) Founders.w2.

Lemma invitation_used_once_witness :
  (exists e, (AcceptInvitation Founders.uuid_in 3 3 Founders.cat "bob@example.test" true (Founders.token Founders.w2) founders_accept.2).1 = Err e) /\
  exists ms, founders_accept.1 = Ok ms /\ ms_Role ms = "admin".
Proof.
  assert (founders_accept = (Ok (mkMembership Founders.org Founders.bob "admin"), founders_accept.2)) as E.
  { apply pair_fst. vm_compute. reflexivity. }
  destruct (invitation_used_once (O' := Founders.Box) _ _ _ _ _ _ _ _ _ _ Founders.hierarchy2 Founders.stored E) as (_ & _ & Hr).
  split; [exact (proj1 (Hr 3 3 Founders.cat "bob@example.test" true founders_accept.2 eq_refl))|].
  exists (mkMembership Founders.org Founders.bob "admin"). split; [exact (f_equal fst E)|reflexivity].
Defined.

(** *** Two consequences of comparing and checking less than meant *)

(** An admin may not change its own role, but the code compares the two identifiers as
    texts: spelled in capitals, its own identifier passes as another member's. *)
Theorem own_role_by_capitals :
  (UpdateMember (O := Founders.Box) Founders.uuid_in (3 * second) Founders.bob Founders.org Founders.bob "viewer" None Founders.w3).1
    = Err ErrOwnershipForbidden /\
  Founders.role_in Founders.bob
    (w_db (Founders.ask Founders.bob (3 * second) (TUpdateMember Founders.org "BBBBBBBB-0000-4000-8000-000000000002" "viewer" None) Founders.w3))
    = Some Viewer.
Proof. split; vm_compute; reflexivity. Qed.

(** No request reads a deleted organization, but an invitation to it is still accepted, and
    the membership is announced. *)
Theorem deleted_organization_joined :
  let gone := Founders.ask Founders.ann second (TDeleteOrganization Founders.org) Founders.w2 in
  let joined := Founders.ask Founders.bob (2 * second) Founders.accept gone in
  (ListMembers (O := Founders.Box) Founders.uuid_in (2 * second) Founders.ann Founders.org gone).1 = Err ErrOrganizationNotFound /\
  Founders.role_in Founders.bob (w_db gone) = None /\ Founders.role_in Founders.bob (w_db joined) = Some Admin.
Proof. split_and!; vm_compute; reflexivity. Qed.
