(* ===== verification/Rollups.v ===== *)
(** * Rollups, retention and maintenance (src/internal/reliability: rollups.go, maintenance.go)

    Hourly and daily summaries of the accepted checks, the queue of invalidated buckets,
    the checkpoints, and the deletion of what the summaries replace.  [RollupDB] adds the
    two rollup tables and the single row of monitoring_rollup_checkpoint to the tables of
    the engine.  Instants are nanoseconds of UTC, a date is the instant it begins; the
    organization and environment of a schedule period are those of its monitor (the foreign
    key of monitor_schedule_periods).  The sums of a bucket stay far below the width of their
    columns (an hour has at most sixty slots of a monitor).

    A call that runs several transactions takes [clock], which gives for the i-th of them the
    instant at which it begins.

    The theorems: an hourly rollup is the report over its hour and a daily rollup, once its
    hours are up to date, the report over its day; repair empties the queue of invalidations;
    retention deletes nothing that is recent or whose summary is missing or invalidated.  A
    bucket recomputed after retention loses what was deleted. *)

From stdpp Require Import base gmap list strings sorting.
From Stdlib Require Import ZArith Lia.
From S2P Require Import Prelude Tx Store Reliability Envelope Consumer Ledger Rfc3339.

#[local] Open Scope Z_scope.

Definition day : Z := 24 * hour.

(** ** Tables *)

Record Rollup : Type := mkRollup {
  ro_organization_id : string;
  ro_environment_id : string;
  ro_expected_checks : Z;
  ro_observed_checks : Z;
  ro_successful_checks : Z;
  ro_unknown_checks : Z;
  ro_total_duration_microseconds : Z;
  ro_updated_at : Z
}.

Record RollupDB : Type := mkRollupDB {
  tables : DB;
  rollups_hourly : gmap (string * Z) Rollup;
  rollups_daily : gmap (string * Z) Rollup;
  hourly_through : Z;
  daily_through : Z;
  last_retention_at : option Z
}.

Definition on_tables (f : DB -> DB) (d : RollupDB) : RollupDB :=
  mkRollupDB (f (tables d)) (rollups_hourly d) (rollups_daily d) (hourly_through d) (daily_through d) (last_retention_at d).
Definition on_hourly (f : gmap (string * Z) Rollup -> gmap (string * Z) Rollup) (d : RollupDB) : RollupDB :=
  mkRollupDB (tables d) (f (rollups_hourly d)) (rollups_daily d) (hourly_through d) (daily_through d) (last_retention_at d).
Definition on_daily (f : gmap (string * Z) Rollup -> gmap (string * Z) Rollup) (d : RollupDB) : RollupDB :=
  mkRollupDB (tables d) (rollups_hourly d) (f (rollups_daily d)) (hourly_through d) (daily_through d) (last_retention_at d).
Definition on_checkpoint (f g : Z -> Z) (h : option Z -> option Z) (d : RollupDB) : RollupDB :=
  mkRollupDB (tables d) (rollups_hourly d) (rollups_daily d) (f (hourly_through d)) (g (daily_through d)) (h (last_retention_at d)).

(** ** Statements *)

(** The slots the schedule of a monitor expects in [from, to), each with the check that
    answered it or with nulls: the left join. *)
Definition answers_at (m : string) (d : DB) (slot : Z) : list (option HealthCheck) :=
  match filter (fun x => hc_monitor_id x.2 = m /\ hc_job_type x.2 = Scheduled /\ hc_scheduled_at x.2 = slot)
          (map_to_list (health_checks d)) with
  | [] => [None]
  | rows => (fun x => Some x.2) <$> rows
  end.
Definition expected_rows (m : string) (from to : Z) (d : DB) : list (option HealthCheck) :=
  p ← filter (fun p => per_monitor_id p = m) (schedule_periods d);
  slot ← expected_slots from to p;
  answers_at m d slot.

Definition sum_of {A} (f : A -> Z) (l : list A) : Z := foldr (fun a n => f a + n) 0 l.

(** No row of the aggregate for a monitor without an expected slot. *)
Definition aggregate (now : Z) (m : string) (from to : Z) (d : DB) : option Rollup :=
  r ← monitors d !! m;
  let rows := expected_rows m from to d in
  let expected := Z.of_nat (length rows) in
  let observed := count is_Some rows in
  match rows with
  | [] => None
  | _ => Some (mkRollup (mon_organization_id r) (mon_environment_id r) expected observed
                 (count (fun x => hc_succeeded <$> x = Some true) rows) (Z.max (expected - observed) 0)
                 (sum_of (fun x => match x with Some c => hc_total_duration_microseconds c | None => 0 end) rows) now)
  end.

(** [INSERT ... ON CONFLICT (monitor_id, bucket_start) DO UPDATE], a row per group. *)
Definition upsert_rollups (bucket_start : Z) (row : string -> option Rollup) (ms : list string) (t : gmap (string * Z) Rollup) :
    gmap (string * Z) Rollup :=
  foldr (fun m t => match row m with Some r => <[(m, bucket_start) := r]> t | None => t end) t ms.
Definition upserted (row : string -> option Rollup) (ms : list string) : Z := Z.of_nat (length (omap row ms)).

Definition monitor_ids (d : DB) : list string := (map_to_list (monitors d)).*1.
Definition hour_row (now bucket_start : Z) (d : DB) (m : string) : option Rollup :=
  aggregate now m bucket_start (Z.min (bucket_start + hour) now) d.
Definition UpsertHourlyMonitorRollups (bucket_start : Z) : Tx RollupDB Z := sql (fun now d =>
  let row := hour_row now bucket_start (tables d) in let ms := monitor_ids (tables d) in
  if existsb (fun r => ro_total_duration_microseconds r <? 0) (omap row ms) then (Err ErrCheckViolation, d)
  else (Ok (upserted row ms), on_hourly (upsert_rollups bucket_start row ms) d)).

Definition delete_invalidations (kind : bucket_kind) (start : Z) (d : RollupDB) : RollupDB :=
  on_tables (on_rollup_invalidations (filter (fun x => ~ (x.1.1.2 = kind /\ x.1.2 = start)))) d.
Definition DeleteHourlyRollupInvalidations (bucket_start : Z) : Tx RollupDB () := update (fun _ => delete_invalidations Hourly bucket_start).
Definition DeleteDailyRollupInvalidations (date : Z) : Tx RollupDB () := update (fun _ => delete_invalidations Daily date).

Definition hourly_pending (date : Z) (d : DB) : bool :=
  existsb (fun x => bool_decide (x.1.1.2 = Hourly /\ date <= x.1.2 < date + day)) (map_to_list (rollup_invalidations d)).
Definition HasHourlyRollupInvalidationsForDay (date : Z) : Tx RollupDB bool := select (fun _ d => hourly_pending date (tables d)).

(** The hourly rollups of one day of a monitor, summed. *)
Definition hours_of (m : string) (date : Z) (d : RollupDB) : list Rollup :=
  snd <$> filter (fun x => x.1.1 = m /\ date <= x.1.2 < date + day) (map_to_list (rollups_hourly d)).
Definition day_row (now date : Z) (d : RollupDB) (m : string) : option Rollup :=
  match hours_of m date d with
  | [] => None
  | (h :: _) as rows =>
      Some (mkRollup (ro_organization_id h) (ro_environment_id h) (sum_of ro_expected_checks rows) (sum_of ro_observed_checks rows)
              (sum_of ro_successful_checks rows) (sum_of ro_unknown_checks rows) (sum_of ro_total_duration_microseconds rows) now)
  end.
Definition rolled_monitors (d : RollupDB) : list string := remove_dups ((map_to_list (rollups_hourly d)).*1.*1).
Definition UpsertDailyMonitorRollups (date : Z) : Tx RollupDB Z := sql (fun now d =>
  let row := day_row now date d in let ms := rolled_monitors d in
  (Ok (upserted row ms), on_daily (upsert_rollups date row ms) d)).

(** *** The queue of invalidated buckets *)

Definition repairable (d : DB) (x : string * bucket_kind * Z) : bool :=
  match x.1.2 with Hourly => true | Daily => negb (hourly_pending x.2 d) end.
Definition kind_order (k : bucket_kind) : Z := match k with Hourly => 0 | Daily => 1 end.
(** [ORDER BY CASE bucket_kind WHEN 'hourly' THEN 0 ELSE 1 END, bucket_start LIMIT 1]. *)
Definition sooner (x y : bucket_kind * Z) : bool :=
  (kind_order x.1 <? kind_order y.1) || ((kind_order x.1 =? kind_order y.1) && (x.2 <=? y.2)).
Definition soonest (l : list (bucket_kind * Z)) : option (bucket_kind * Z) :=
  foldr (fun x o => match o with Some y => Some (if sooner x y then x else y) | None => Some x end) None l.
Definition next_repairable (d : DB) : option (bucket_kind * Z) :=
  soonest ((fun x => (x.1.1.2, x.1.2)) <$> filter (fun x => repairable d x.1 = true) (map_to_list (rollup_invalidations d))).
Definition GetNextRepairableRollupInvalidation : Tx RollupDB (bucket_kind * Z) := select_one (fun _ d => next_repairable (tables d)).

(** *** Checkpoints *)

Definition LockHourlyRollupCheckpoint : Tx RollupDB Z := select (fun _ => hourly_through).
Definition LockDailyRollupCheckpoint : Tx RollupDB Z := select (fun _ => daily_through).
Definition AdvanceHourlyRollupCheckpoint (through : Z) : Tx RollupDB () :=
  update (fun _ => on_checkpoint (fun t => Z.max t through) (fun t => t) (fun o => o)).
Definition AdvanceDailyRollupCheckpoint (date : Z) : Tx RollupDB () :=
  update (fun _ => on_checkpoint (fun t => t) (fun t => Z.max t date) (fun o => o)).
Definition RecordRetentionCheckpoint (at_ : Z) : Tx RollupDB () :=
  update (fun _ => on_checkpoint (fun t => t) (fun t => t) (fun _ => Some at_)).

(** *** Retention *)

(** A summary that stands for the bucket: present and not invalidated. *)
Definition summarised (kind : bucket_kind) (m : string) (at_ : Z) (d : RollupDB) : bool :=
  bool_decide (is_Some ((match kind with Hourly => rollups_hourly d | Daily => rollups_daily d end) !! (m, bucket kind at_)))
  && bool_decide (rollup_invalidations (tables d) !! (m, kind, bucket kind at_) = None).

Definition old_check (before_ : Z) (d : RollupDB) (c : HealthCheck) : bool :=
  (hc_scheduled_at c <? before_) && summarised Hourly (hc_monitor_id c) (hc_scheduled_at c) d.
(** The evaluations of a deleted check go with it. *)
Definition DeleteRetainedHealthChecks (before_ : Z) : Tx RollupDB Z := sql (fun _ d =>
  let gone := filter (fun x => old_check before_ d x.2 = true) (map_to_list (health_checks (tables d))) in
  (Ok (Z.of_nat (length gone)),
   on_tables (fun e => on_health_checks (fun t => foldr delete t gone.*1) (on_evaluations (fun t => foldr delete t gone.*1) e)) d)).

Definition old_gap (before_ : Z) (d : RollupDB) (x : string * Z * gap_reason) : bool :=
  (x.1.2 <? before_) && summarised Hourly x.1.1 x.1.2 d.
Definition DeleteRetainedCoverageGaps (before_ : Z) : Tx RollupDB Z := sql (fun _ d =>
  let gone := filter (fun x => old_gap before_ d x.1 = true) (map_to_list (coverage_gaps (tables d))) in
  (Ok (Z.of_nat (length gone)), on_tables (on_coverage_gaps (fun t => foldr delete t gone.*1)) d)).

Definition old_hour (before_ : Z) (d : RollupDB) (x : string * Z) : bool := (x.2 <? before_) && summarised Daily x.1 x.2 d.
Definition DeleteRetainedHourlyRollups (before_ : Z) : Tx RollupDB Z := sql (fun _ d =>
  let gone := filter (fun x => old_hour before_ d x.1 = true) (map_to_list (rollups_hourly d)) in
  (Ok (Z.of_nat (length gone)), on_hourly (fun t => foldr delete t gone.*1) d)).

Definition DeleteRetainedDailyRollups (date : Z) : Tx RollupDB Z := sql (fun _ d =>
  let gone := filter (fun x => x.1.2 < date) (map_to_list (rollups_daily d)) in
  (Ok (Z.of_nat (length gone)), on_daily (fun t => foldr delete t gone.*1) d)).

(** Jobs without a check; a job with a conflict is still referred to, and the statement
    fails. *)
Definition old_job (completedBefore nonterminalBefore : Z) (d : DB) (x : string * CheckJob) : bool :=
  deletable completedBefore nonterminalBefore x.2 && bool_decide (health_checks d !! x.1 = None).
Definition DeleteRetainedCheckJobs (completedBefore nonterminalBefore : Z) : Tx RollupDB Z := sql (fun _ d =>
  let gone := filter (fun x => old_job completedBefore nonterminalBefore (tables d) x = true) (map_to_list (check_jobs (tables d))) in
  if decide (Exists (fun x => referenced (tables d) x.1) gone) then (Err ErrForeignKeyViolation, d)
  else (Ok (Z.of_nat (length gone)),
        on_tables (fun e => on_check_jobs (fun t => foldr delete t gone.*1) (on_outbox (fun t => foldr delete t gone.*1) e)) d)).

(** ** Dates *)

(** [t.AddDate(-1, 0, 0)], and the date [Format] prints of it. *)
Definition year_before (n : Z) : Z := let '(y, m, d) := civil_from_days n in days_from_civil (y - 1) m d.
Definition date_of (t : Z) : Z := bucket Daily t.
Definition date_a_year_before (t : Z) : Z := year_before (t / day) * day.

(** ** The service *)

Definition errHourlyRollupsPending : error := ErrorsNew "hourly rollups pending".

Section Service.
Context {O : Type}.

Definition RollupHour (t bucket_ : Z) : SE (World RollupDB O) Z :=
  let bucket_ := time_truncate bucket_ hour in
  with_tx t (
    count ← UpsertHourlyMonitorRollups bucket_;
    _ ← DeleteHourlyRollupInvalidations bucket_;
    mret (Commit count)).

Definition RollupDay (t day_ : Z) : SE (World RollupDB O) Z :=
  let date := date_of day_ in
  with_tx t (
    hourlyPending ← HasHourlyRollupInvalidationsForDay date;
    if (hourlyPending : bool) then throw errHourlyRollupsPending else
    count ← UpsertDailyMonitorRollups date;
    _ ← DeleteDailyRollupInvalidations date;
    mret (Commit count)).

(** The result beside an error is what was repaired before it. *)
Fixpoint repair (clock : nat -> Z) (i fuel : nat) (repaired : Z) : SE (World RollupDB O) Z :=
  match fuel with
  | 0%nat => mret repaired
  | S fuel =>
      invalidation ← try_ (with_tx (clock i) (x ← GetNextRepairableRollupInvalidation; mret (Rollback x)));
      match invalidation with
      | Err ErrNoRows => mret repaired
      | Err e => throw e
      | Ok (kind, start) =>
          _ ← (match kind with Hourly => RollupHour (clock i) start | Daily => RollupDay (clock i) start end);
          repair clock (S i) fuel (repaired + 1)
      end
  end.
Definition RepairInvalidated (clock : nat -> Z) (limit : Z) : SE (World RollupDB O) Z :=
  if (limit <? 1) || (1000 <? limit) then throw (ErrorsNew "invalid rollup repair limit")
  else repair clock 0 (Z.to_nat limit) 0.

Fixpoint advance_hours (clock : nat -> Z) (i n : nat) (now : Z) : SE (World RollupDB O) () :=
  match n with
  | 0%nat => mret ()
  | S n =>
      through ← with_tx (clock i) (x ← LockHourlyRollupCheckpoint; mret (Rollback x));
      let next := time_add through hour in
      if negb (before next (time_truncate now hour)) then mret () else
      _ ← RollupHour (clock i) next;
      _ ← with_tx (clock i) (_ ← AdvanceHourlyRollupCheckpoint next; mret (Commit ()));
      advance_hours clock (S i) n now
  end.

Fixpoint advance_days (clock : nat -> Z) (i n : nat) (now : Z) : SE (World RollupDB O) () :=
  match n with
  | 0%nat => mret ()
  | S n =>
      through ← with_tx (clock i) (x ← LockDailyRollupCheckpoint; mret (Rollback x));
      let next := time_add through day in
      if negb (before next (time_truncate now day)) then mret () else
      r ← try_ (RollupDay (clock i) next);
      match r with
      | Err e => if decide (e = errHourlyRollupsPending) then mret () else throw e
      | Ok _ =>
          _ ← with_tx (clock i) (_ ← AdvanceDailyRollupCheckpoint (date_of next); mret (Commit ()));
          advance_days clock (S i) n now
      end
  end.

Definition AdvanceRollups (clock : nat -> Z) (now maxHours maxDays : Z) : SE (World RollupDB O) () :=
  if (maxHours <? 0) || (168 <? maxHours) || (maxDays <? 0) || (90 <? maxDays) then throw (ErrorsNew "invalid rollup catch-up bounds") else
  _ ← advance_hours clock 0 (Z.to_nat maxHours) now;
  advance_days clock (Z.to_nat maxHours) (Z.to_nat maxDays) now.

Definition retention_tx (now : Z) : Tx RollupDB (TxEnd Z) :=
  c0 ← DeleteRetainedHealthChecks (time_add now (- (7 * 24 * hour)));
  c1 ← DeleteRetainedCoverageGaps (time_add now (- (7 * 24 * hour)));
  c2 ← DeleteRetainedHourlyRollups (time_add now (- (90 * 24 * hour)));
  c3 ← DeleteRetainedDailyRollups (date_a_year_before now);
  c4 ← DeleteRetainedCheckJobs (time_add now (- (48 * hour))) (time_add now (- (7 * 24 * hour)));
  _ ← RecordRetentionCheckpoint now;
  mret (Commit (c0 + c1 + c2 + c3 + c4)).
Definition ApplyRetention (t now : Z) : SE (World RollupDB O) Z := with_tx t (retention_tx now).

(** A call of the evaluation service on the tables of the engine. *)
Definition on_engine_tables {A} (m : SE (World DB O) A) : SE (World RollupDB O) A := fun w =>
  let '(r, w') := m (mkWorld (tables (w_db w)) (w_ext w) (w_uuid w) (w_next w) (w_faults w)) in
  (r, mkWorld (on_tables (fun _ => w_db w') (w_db w)) (w_ext w') (w_uuid w') (w_next w') (w_faults w')).

(** The errors are wrapped with a text; [errors.Is] sees through it. *)
Definition Maintain (clock : nat -> Z) (now : Z) : SE (World RollupDB O) () :=
  let later n i := clock (n + i)%nat in
  _ ← AdvanceRollups clock now 24 7;
  _ ← RollupHour (clock 31%nat) now;
  day_done ← try_ (RollupDay (clock 32%nat) now);
  match day_done with
  | Err e => if decide (e = errHourlyRollupsPending) then mret () else throw e
  | Ok _ => mret ()
  end;;
  _ ← RepairInvalidated (later 33%nat) 24;
  _ ← on_engine_tables (RefreshDueStates (clock 57%nat) now 1000);
  _ ← ApplyRetention (clock 58%nat) now;
  mret ().
End Service.

(** ** The calendar *)

(** A year before is 365 or 366 days before. *)
Lemma year_before_bounds n : n - 366 <= year_before n <= n - 365.
Proof.
  unfold year_before. pose proof (civil_year n) as H. destruct (civil_from_days n) as [[y m] d]. destruct H as (Y & doy & Hn & Hk).
  specialize (Hk (-1)). replace (y + -1) with (y - 1) in Hk by lia. unfold year_start in *.
  clear -Hn Hk. Z.to_euclidean_division_equations; lia.
Qed.

Lemma truncate_hour t : time_truncate t hour = bucket Hourly t.
Proof.
  unfold time_truncate, bucket. f_equal. replace (t - zero_time) with (t + 17259888 * hour) by (unfold zero_time, hour, minute, second; lia).
  apply Z.mod_add. unfold hour, minute, second. lia.
Qed.

(** ** Rollups are reports *)

Lemma answers_rows m slot (l : list (string * HealthCheck)) :
  filter (fun x => x.1.1 = slot) ((fun x => ((hc_scheduled_at x.2, x.1), hc_succeeded x.2)) <$>
    filter (fun x => hc_monitor_id x.2 = m /\ hc_job_type x.2 = Scheduled) l) =
  (fun x => ((hc_scheduled_at x.2, x.1), hc_succeeded x.2)) <$>
    filter (fun x => hc_monitor_id x.2 = m /\ hc_job_type x.2 = Scheduled /\ hc_scheduled_at x.2 = slot) l.
Proof.
  induction l as [|x l IH]; [done|]. rewrite !(filter_cons _ x l). destruct (decide (hc_monitor_id x.2 = m /\ hc_job_type x.2 = Scheduled)) as [[H1 H2]|Hn].
  - rewrite fmap_cons, filter_cons. simpl. destruct (decide (hc_scheduled_at x.2 = slot)) as [E|E].
    + rewrite (decide_True (P := _ /\ _ /\ _)) by done. by rewrite fmap_cons, IH.
    + rewrite (decide_False (P := _ /\ _ /\ _)) by tauto. done.
  - rewrite (decide_False (P := _ /\ _ /\ _)) by tauto. done.
Qed.

Lemma joined_answers m d slot : joined m d slot = option_map hc_succeeded <$> answers_at m d slot.
Proof.
  unfold joined, answers_at, scheduled_checks. rewrite answers_rows.
  destruct (filter _ (map_to_list (health_checks d))) as [|x l]; [done|]. simpl. f_equal. rewrite <- !list_fmap_compose. done.
Qed.

Lemma report_expected m from to d : report_rows m from to d = option_map hc_succeeded <$> expected_rows m from to d.
Proof.
  unfold report_rows, expected_rows. induction (filter _ (schedule_periods d)) as [|p l IH]; [done|].
  rewrite !bind_cons, fmap_app, IH. f_equal. clear. induction (expected_slots from to p) as [|x l IH]; [done|].
  by rewrite !bind_cons, fmap_app, IH, joined_answers.
Qed.

Lemma count_fmap {A B} (f : A -> B) (P : B -> Prop) `{!forall x, Decision (P x)} l : count P (f <$> l) = count (fun x => P (f x)) l.
Proof.
  unfold count. f_equal. induction l as [|x l IH]; [done|]. rewrite fmap_cons, !filter_cons. simpl. by case_decide; simpl; rewrite IH.
Qed.

Lemma count_ext {A} (P Q : A -> Prop) `{!forall x, Decision (P x)} `{!forall x, Decision (Q x)} l : (forall x, P x <-> Q x) -> count P l = count Q l.
Proof. intros Hpq. apply Z.le_antisymm; apply count_mono; intros x; apply Hpq. Qed.

Lemma count_app {A} (P : A -> Prop) `{!forall x, Decision (P x)} l k : count P (l ++ k) = count P l + count P k.
Proof. unfold count. rewrite filter_app, length_app. lia. Qed.

#[global] Instance count_perm {A} (P : A -> Prop) `{!forall x, Decision (P x)} : Proper ((≡ₚ) ==> (=)) (count P).
Proof. intros l k E. unfold count. by rewrite E. Qed.

Lemma sum_app {A} (f : A -> Z) l k : sum_of f (l ++ k) = sum_of f l + sum_of f k.
Proof. induction l as [|x l IH]; simpl; [done|]. rewrite IH. lia. Qed.

#[global] Instance sum_perm {A} (f : A -> Z) : Proper ((≡ₚ) ==> (=)) (sum_of f).
Proof. intros l k E. induction E; simpl; lia. Qed.

(** What the rows of a window add up to: expected, observed, successful, duration. *)
Definition duration_of (x : option HealthCheck) : Z := match x with Some c => hc_total_duration_microseconds c | None => 0 end.
Definition totals (rows : list (option HealthCheck)) : Z * Z * Z * Z :=
  (Z.of_nat (length rows), count is_Some rows, count (fun x => hc_succeeded <$> x = Some true) rows, sum_of duration_of rows).
Definition plus4 (a b : Z * Z * Z * Z) : Z * Z * Z * Z :=
  (a.1.1.1 + b.1.1.1, a.1.1.2 + b.1.1.2, a.1.2 + b.1.2, a.2 + b.2).

Lemma totals_app l k : totals (l ++ k) = plus4 (totals l) (totals k).
Proof. unfold totals, plus4. simpl. rewrite length_app, !count_app, sum_app. by rewrite Nat2Z.inj_add. Qed.
#[global] Instance totals_perm : Proper ((≡ₚ) ==> (=)) totals.
Proof. intros l k E. unfold totals. by rewrite E. Qed.

Lemma totals_report m from to d : (totals (expected_rows m from to d)).1 =
  (Z.of_nat (length (report_rows m from to d)), count is_Some (report_rows m from to d), count (fun x => x = Some true) (report_rows m from to d)).
Proof.
  unfold totals. simpl. rewrite report_expected, length_fmap, !count_fmap. repeat f_equal; apply count_ext; intros []; simpl; naive_solver.
Qed.

Definition rollup_totals (r : Rollup) : Z * Z * Z * Z :=
  (ro_expected_checks r, ro_observed_checks r, ro_successful_checks r, ro_total_duration_microseconds r).

(** The aggregate of a window, and nothing without an expected slot. *)
Lemma aggregate_spec now m from to d r : monitors d !! m = Some r ->
  match aggregate now m from to d with
  | Some ro => rollup_totals ro = totals (expected_rows m from to d) /\ ro_unknown_checks ro = ro_expected_checks ro - ro_observed_checks ro /\
      ro_organization_id ro = mon_organization_id r /\ ro_environment_id ro = mon_environment_id r /\ 0 < ro_expected_checks ro
  | None => expected_rows m from to d = []
  end.
Proof.
  intros Hr. unfold aggregate. rewrite Hr. simpl. destruct (expected_rows m from to d) as [|x l]; [done|]. simpl.
  split; [done|]. pose proof (count_le is_Some (x :: l)) as Hc. simpl in Hc. split_and!; try done; lia.
Qed.

(** *** Windows add up *)

(** The slots of a period are whole microseconds, as the timestamps of the database. *)
Definition whole (p : SchedulePeriod) : Prop := 0 < per_interval_seconds p /\ (microsecond | per_first_slot_at p).

Lemma slots_split from mid to p : whole p -> (microsecond | mid) -> from <= mid <= to ->
  expected_slots from to p ≡ₚ expected_slots from mid p ++ expected_slots mid to p.
Proof.
  intros [Hi [c Hc]] [k Hk] Hm. destruct (expected_slots_spec from to p Hi) as [N S]. destruct (expected_slots_spec from mid p Hi) as [N1 S1].
  destruct (expected_slots_spec mid to p Hi) as [N2 S2]. apply NoDup_Permutation; [done| |].
  - apply NoDup_app. split; [done|]. split; [|done]. intros x H1 H2. apply S1 in H1. apply S2 in H2. unfold microsecond in *. lia.
  - intros x. rewrite elem_of_app, S, S1, S2.
    assert (forall i, x = per_first_slot_at p + i * (per_interval_seconds p * second) -> x + microsecond <= mid \/ mid <= x) as Hcut.
    { intros i ->. rewrite (Z.mul_assoc i). generalize (i * per_interval_seconds p). intros t. rewrite Hc, Hk. unfold second, microsecond in *. lia. }
    split.
    + intros ((i & Hi0 & Ei) & Hf & Hs & Ht & He). destruct (Hcut i Ei) as [Hl|Hr]; [left|right].
      * split; [by exists i|]. split_and!; try done. destruct (per_ends_at p); simpl in *; lia.
      * split; [by exists i|]. by split_and!.
    + intros [((i & Hi0 & Ei) & Hf & Hs & Ht & He)|((i & Hi0 & Ei) & Hf & Hs & Ht & He)]; (split; [by exists i|]); split_and!; try lia.
      destruct (per_ends_at p); simpl in *; lia.
Qed.

Lemma rows_split m from mid to d : Forall whole (schedule_periods d) -> (microsecond | mid) -> from <= mid <= to ->
  expected_rows m from to d ≡ₚ expected_rows m from mid d ++ expected_rows m mid to d.
Proof.
  intros Hw Hk Hm. unfold expected_rows. induction (schedule_periods d) as [|p l IH]; [done|].
  apply Forall_cons in Hw as [Hp Hw]. rewrite !filter_cons. case_decide; [|by apply IH]. rewrite !bind_cons.
  rewrite (IH Hw), (slots_split from mid to p Hp Hk Hm), bind_app. rewrite <- !(assoc_L (++)). f_equiv. rewrite !(assoc_L (++)).
  f_equiv. apply Permutation_app_comm.
Qed.

Lemma rows_empty m from d : Forall whole (schedule_periods d) -> expected_rows m from from d = [].
Proof.
  intros Hw. unfold expected_rows. induction (schedule_periods d) as [|p l IH]; [done|]. apply Forall_cons in Hw as [[Hp _] Hw].
  rewrite filter_cons. case_decide; [|by apply IH]. rewrite bind_cons, IH, app_nil_r by done.
  destruct (expected_slots from from p) as [|x s] eqn:E; [done|]. assert (x ∈ expected_slots from from p) as Hx by (rewrite E; left).
  apply expected_slots_spec in Hx; [|done]. unfold microsecond in Hx. lia.
Qed.

Definition zero4 : Z * Z * Z * Z := (0, 0, 0, 0).
Definition sum4 {A} (f : A -> Z * Z * Z * Z) (l : list A) : Z * Z * Z * Z := foldr (fun a n => plus4 (f a) n) zero4 l.

Lemma plus4_assoc a b c : plus4 a (plus4 b c) = plus4 (plus4 a b) c.
Proof. unfold plus4. simpl. rewrite !pair_equal_spec. split_and!; lia. Qed.
Lemma plus4_zero a : plus4 a zero4 = a.
Proof. destruct a as [[[]]]. unfold plus4, zero4. simpl. rewrite !pair_equal_spec. split_and!; lia. Qed.
Lemma zero4_plus a : plus4 zero4 a = a.
Proof. by destruct a as [[[]]]. Qed.
Lemma sum4_app {A} (f : A -> Z * Z * Z * Z) l k : sum4 f (l ++ k) = plus4 (sum4 f l) (sum4 f k).
Proof. induction l as [|x l IH]; simpl; [by rewrite zero4_plus|]. by rewrite IH, plus4_assoc. Qed.

(** The hours of a window add up to the window. *)
Lemma hours_add m date d (n : nat) : Forall whole (schedule_periods d) -> (hour | date) ->
  totals (expected_rows m date (date + Z.of_nat n * hour) d) =
  sum4 (fun i => totals (expected_rows m (date + i * hour) (date + i * hour + hour) d)) (seqZ 0 (Z.of_nat n)).
Proof.
  intros Hw [q Hq]. induction n as [|n IH].
  - replace (date + Z.of_nat 0 * hour) with date by lia. by rewrite rows_empty.
  - rewrite Nat2Z.inj_succ. unfold Z.succ. rewrite seqZ_app by lia. rewrite sum4_app. simpl (0 + _). rewrite <- IH.
    rewrite (rows_split m date (date + Z.of_nat n * hour)); [|done| |unfold hour, minute, second; lia].
    2: { exists ((q + Z.of_nat n) * (hour / microsecond)). rewrite Hq. unfold hour, minute, second, microsecond.
         match goal with |- context [?a / 1000] => change (a / 1000) with 3600000000 end. lia. }
    rewrite totals_app. f_equal. change (seqZ (Z.of_nat n) 1) with [Z.of_nat n]. simpl. rewrite plus4_zero. do 2 f_equal. lia.
Qed.

(** *** The statements *)

Lemma upsert_lookup b row ms t m : upsert_rollups b row ms t !! (m, b) =
  match row m with Some r => if bool_decide (m ∈ ms) then Some r else t !! (m, b) | None => t !! (m, b) end.
Proof.
  induction ms as [|x ms IH]; [by destruct (row m)|].
  change (upsert_rollups b row (x :: ms) t) with
    (match row x with Some r => <[(x, b) := r]> (upsert_rollups b row ms t) | None => upsert_rollups b row ms t end).
  destruct (decide (x = m)) as [->|Hne].
  - destruct (row m) eqn:E; [|by rewrite IH]. rewrite lookup_insert_eq, bool_decide_true; [done|left].
  - transitivity (upsert_rollups b row ms t !! (m, b)).
    { destruct (row x); [|done]. by rewrite lookup_insert_ne by congruence. }
    rewrite IH. destruct (row m); [|done]. assert (bool_decide (m ∈ x :: ms) = bool_decide (m ∈ ms)) as ->; [|done].
    apply bool_decide_ext. rewrite elem_of_cons. naive_solver.
Qed.

Lemma upsert_other b row ms t k : k.2 <> b -> upsert_rollups b row ms t !! k = t !! k.
Proof.
  intros Hk. induction ms as [|x ms IH]; simpl; [done|]. destruct (row x); [|done]. rewrite lookup_insert_ne; [done|].
  intros <-. by apply Hk.
Qed.

(** A rollup of the buckets that begin at [b] wrote [row m] for every monitor, and nothing
    where there is none. *)
Definition rolled (b : Z) (row : string -> option Rollup) (t t' : gmap (string * Z) Rollup) : Prop :=
  forall k, t' !! k = if decide (k.2 = b) then (match row k.1 with Some r => Some r | None => t !! k end) else t !! k.

Lemma upsert_rolled b row ms t : (forall m, is_Some (row m) -> m ∈ ms) -> rolled b row t (upsert_rollups b row ms t).
Proof.
  intros Hms [m b']. simpl. case_decide as Hb; [subst b'|by apply upsert_other]. rewrite upsert_lookup.
  destruct (row m) eqn:E; [|done]. rewrite bool_decide_true; [done|]. apply Hms. by rewrite E.
Qed.

Lemma hour_row_listed now b d m : is_Some (hour_row now b d m) -> m ∈ monitor_ids d.
Proof.
  unfold hour_row, aggregate, monitor_ids. intros [r Hr]. destruct (monitors d !! m) as [x|] eqn:E; [|done].
  apply list_elem_of_fmap. exists (m, x). split; [done|]. by apply elem_of_map_to_list.
Qed.

Lemma day_row_listed now date d m : is_Some (day_row now date d m) -> m ∈ rolled_monitors d.
Proof.
  unfold day_row. intros [r Hr]. destruct (hours_of m date d) as [|h l] eqn:E; [done|].
  assert (h ∈ hours_of m date d) as Hh by (rewrite E; left). unfold hours_of in Hh.
  apply list_elem_of_fmap in Hh as ([[m' b] h'] & -> & Hin). apply list_elem_of_filter in Hin as [[Hm _] Hin]. simpl in Hm. subst m'.
  unfold rolled_monitors. apply elem_of_remove_dups. apply list_elem_of_fmap. exists (m, b). split; [done|].
  apply list_elem_of_fmap. by exists ((m, b), h').
Qed.

(** The tables but the queue of invalidations. *)
Definition same_checks (d d' : DB) : Prop :=
  monitors d' = monitors d /\ schedule_periods d' = schedule_periods d /\ health_checks d' = health_checks d.

Record hour_rolled (t b : Z) (d d' : RollupDB) : Prop := {
  hr_rows : rolled b (hour_row t b (tables d)) (rollups_hourly d) (rollups_hourly d');
  hr_daily : rollups_daily d' = rollups_daily d;
  hr_tables : tables d' = on_rollup_invalidations (filter (fun x => ~ (x.1.1.2 = Hourly /\ x.1.2 = b))) (tables d);
  hr_through : hourly_through d' = hourly_through d /\ daily_through d' = daily_through d /\ last_retention_at d' = last_retention_at d
}.

Lemma RollupHour_ok {O} t at_ (w w' : World RollupDB O) n : RollupHour t at_ w = (Ok n, w') ->
  hour_rolled t (bucket Hourly at_) (w_db w) (w_db w').
Proof.
  unfold RollupHour. rewrite truncate_hour. intros E. apply with_tx_ok in E as (_ & fs & s & [(Hb & _ & ->)|(Hb & _)]).
  - apply bind_ok in Hb as (c & s1 & H1 & Hb). apply sql_ok in H1 as [Hq _]. simpl in Hq. revert Hq. case_match; [done|]. intros [= _ Ed].
    apply bind_ok in Hb as (u & s2 & H2 & Hb). apply update_ok in H2 as [Hd _]. apply ret_ok in Hb as [_ <-].
    rewrite Hd, <- Ed. split; [|done..]. simpl. apply upsert_rolled. intros m. apply hour_row_listed.
  - apply bind_ok in Hb as (c & s1 & H1 & Hb). apply bind_ok in Hb as (u & s2 & H2 & Hb). by apply ret_ok in Hb as [? _].
Qed.

Record day_rolled (t date : Z) (d d' : RollupDB) : Prop := {
  dr_rows : rolled date (day_row t date d) (rollups_daily d) (rollups_daily d');
  dr_hourly : rollups_hourly d' = rollups_hourly d;
  dr_tables : tables d' = on_rollup_invalidations (filter (fun x => ~ (x.1.1.2 = Daily /\ x.1.2 = date))) (tables d);
  dr_through : hourly_through d' = hourly_through d /\ daily_through d' = daily_through d /\ last_retention_at d' = last_retention_at d;
  dr_settled : hourly_pending date (tables d) = false
}.

Lemma RollupDay_ok {O} t at_ (w w' : World RollupDB O) n : RollupDay t at_ w = (Ok n, w') ->
  day_rolled t (date_of at_) (w_db w) (w_db w').
Proof.
  unfold RollupDay. intros E. apply with_tx_ok in E as (_ & fs & s & [(Hb & _ & ->)|(Hb & _)]).
  - apply bind_ok in Hb as (p & s0 & H0 & Hb). apply select_ok in H0 as [-> [D0 N0]]. simpl in D0, N0. destruct (hourly_pending _ _) eqn:Ep; [done|].
    apply bind_ok in Hb as (c & s1 & H1 & Hb). apply sql_ok in H1 as [Hq _]. rewrite D0, N0 in Hq. simpl in Hq. injection Hq as _ Ed.
    apply bind_ok in Hb as (u & s2 & H2 & Hb). apply update_ok in H2 as [Hd _]. apply ret_ok in Hb as [_ <-].
    rewrite Hd, <- Ed. split; [|done..]. simpl. apply upsert_rolled. intros m. apply day_row_listed.
  - apply bind_ok in Hb as (p & s0 & H0 & Hb). destruct p; [done|]. apply bind_ok in Hb as (c & s1 & H1 & Hb).
    apply bind_ok in Hb as (u & s2 & H2 & Hb). by apply ret_ok in Hb as [? _].
Qed.

(** The counts of a report over [from, to), as GetMonitorReliabilityReport computes them. *)
Definition report_counts (m : string) (from to : Z) (d : DB) : Z * Z * Z :=
  let rows := report_rows m from to d in
  (Z.of_nat (length rows), count is_Some rows, count (fun x => x = Some true) rows).
Definition rollup_counts (r : Rollup) : Z * Z * Z := (ro_expected_checks r, ro_observed_checks r, ro_successful_checks r).

(** C8: a rollup that succeeds leaves for every monitor of which something was expected in the
    hour, up to the present when the hour is not over, exactly the counts a report over
    the same time gives, with the unknown checks as the difference; it touches no other
    hour, and takes the hour from the queue of invalidated buckets. *)
Theorem hourly_rollup_is_report {O} t at_ (w w' : World RollupDB O) n :
  RollupHour t at_ w = (Ok n, w') ->
  let b := bucket Hourly at_ in let d := tables (w_db w) in
  (forall m r, monitors d !! m = Some r -> report_rows m b (Z.min (b + hour) t) d <> [] ->
    exists ro, rollups_hourly (w_db w') !! (m, b) = Some ro /\
      rollup_counts ro = report_counts m b (Z.min (b + hour) t) d /\
      ro_unknown_checks ro = ro_expected_checks ro - ro_observed_checks ro /\
      ro_organization_id ro = mon_organization_id r /\ ro_environment_id ro = mon_environment_id r) /\
  (forall k, k.2 <> b -> rollups_hourly (w_db w') !! k = rollups_hourly (w_db w) !! k) /\
  (forall m kind s, is_Some (rollup_invalidations (tables (w_db w')) !! (m, kind, s)) <->
    is_Some (rollup_invalidations d !! (m, kind, s)) /\ ~ (kind = Hourly /\ s = b)).
Proof.
  intros [Hrows Hdaily Htables _]%RollupHour_ok b d. fold b in Hrows, Htables. split; [|split].
  - intros m r Hr Hne. pose proof (aggregate_spec t m b (Z.min (b + hour) t) d r Hr) as Ha.
    specialize (Hrows (m, b)). simpl in Hrows. rewrite decide_True in Hrows by done. unfold hour_row in Hrows. fold d in Hrows.
    destruct (aggregate _ _ _ _ _) as [ro|].
    + exists ro. destruct Ha as (Ht & Hu & Ho & He & _). split; [done|]. split_and!; try done.
      unfold report_counts. rewrite <- totals_report, <- Ht. done.
    + rewrite report_expected, Ha in Hne. done.
  - intros k Hk. rewrite Hrows, decide_False by done. done.
  - intros m kind s. rewrite Htables. simpl. unfold is_Some. setoid_rewrite map_lookup_filter_Some. naive_solver.
Qed.

(** *** A day *)

(** The hourly rollups of the day agree with the checks: a row for every hour of which
    something was expected, with what was expected and observed in it. *)
Record day_fresh (m : string) (date : Z) (d : RollupDB) : Prop := {
  df_aligned : forall h r, rollups_hourly d !! (m, h) = Some r -> date <= h < date + day -> (hour | h);
  df_hour : forall i, 0 <= i < 24 ->
    match rollups_hourly d !! (m, date + i * hour) with
    | Some r => rollup_totals r = totals (expected_rows m (date + i * hour) (date + i * hour + hour) (tables d)) /\
        ro_unknown_checks r = ro_expected_checks r - ro_observed_checks r
    | None => expected_rows m (date + i * hour) (date + i * hour + hour) (tables d) = []
    end
}.

Definition hour_of (m : string) (date : Z) (d : RollupDB) (i : Z) : option Rollup := rollups_hourly d !! (m, date + i * hour).

Lemma NoDup_omap {A B} (f : A -> option B) l : (forall x y z, f x = Some z -> f y = Some z -> x = y) -> NoDup l -> NoDup (omap f l).
Proof.
  intros Hf. induction 1 as [|x l Hx _ IH]; [constructor|]. simpl. destruct (f x) as [z|] eqn:E; [|done]. constructor; [|done].
  intros (y & Hy & Ey)%list_elem_of_omap. by rewrite (Hf x y z) in Hx.
Qed.

Lemma hours_of_perm m date d : (hour | date) ->
  (forall h r, rollups_hourly d !! (m, h) = Some r -> date <= h < date + day -> (hour | h)) ->
  hours_of m date d ≡ₚ omap (hour_of m date d) (seqZ 0 24).
Proof.
  intros [q Hq] Hal. unfold hours_of.
  transitivity (snd <$> omap (fun i => (fun r => ((m, date + i * hour), r)) <$> hour_of m date d i) (seqZ 0 24)).
  - apply fmap_Permutation, NoDup_Permutation.
    + apply NoDup_filter, NoDup_map_to_list.
    + apply NoDup_omap; [|apply NoDup_seqZ]. intros i j y. unfold hour_of.
      intros (r & _ & ->)%fmap_Some (r' & _ & [= E _])%fmap_Some. unfold hour, minute, second in E. lia.
    + intros [[m' h] r]. rewrite list_elem_of_filter, elem_of_map_to_list, list_elem_of_omap. simpl. split.
      * intros [[-> Hh] Hr]. destruct (Hal h r Hr Hh) as [c Hc]. exists (c - q). split.
        { apply elem_of_seqZ. unfold day, hour, minute, second in *. lia. }
        unfold hour_of. replace (date + (c - q) * hour) with h by lia. by rewrite Hr.
      * intros (i & Hi%elem_of_seqZ & (r' & Hr & [= -> -> ->])%fmap_Some). split; [|done]. split; [done|].
        unfold day, hour, minute, second in *. lia.
  - apply reflexive_eq. induction (seqZ 0 24) as [|i l IH]; [done|]. simpl. destruct (hour_of m date d i); simpl; [f_equal|]; exact IH.
Qed.

Lemma sum4_rollups rows : sum4 rollup_totals rows =
  (sum_of ro_expected_checks rows, sum_of ro_observed_checks rows, sum_of ro_successful_checks rows, sum_of ro_total_duration_microseconds rows).
Proof. induction rows as [|r rows IH]; [done|]. simpl. rewrite IH. done. Qed.

Lemma sum_unknown (rows : list Rollup) : Forall (fun r => ro_unknown_checks r = ro_expected_checks r - ro_observed_checks r) rows ->
  sum_of ro_unknown_checks rows = sum_of ro_expected_checks rows - sum_of ro_observed_checks rows.
Proof. induction 1 as [|r rows Hr _ IH]; simpl; lia. Qed.

Lemma sum4_omap {A} (f : A -> option Rollup) (g : A -> Z * Z * Z * Z) l :
  (forall a, a ∈ l -> match f a with Some r => rollup_totals r = g a | None => g a = zero4 end) ->
  sum4 rollup_totals (omap f l) = sum4 g l.
Proof.
  induction l as [|a l IH]; intros Hf; [done|]. specialize (IH (fun x Hx => Hf x (list_elem_of_further _ _ _ Hx))).
  pose proof (Hf a (list_elem_of_here _ _)) as Ha. cbn [omap list_omap]. destruct (f a) as [r|].
  - change (plus4 (rollup_totals r) (sum4 rollup_totals (omap f l)) = plus4 (g a) (sum4 g l)). by rewrite IH, Ha.
  - change (sum4 rollup_totals (omap f l) = plus4 (g a) (sum4 g l)). by rewrite IH, Ha, zero4_plus.
Qed.

(** When the hours of a day are up to date, the rollup of the day has exactly the counts a
    report over the whole day gives; a monitor of which nothing was expected that day keeps
    what it had.  The rollup is refused while an hour of the day is invalidated. *)
Theorem daily_rollup_is_report {O} t at_ (w w' : World RollupDB O) n m :
  RollupDay t at_ w = (Ok n, w') ->
  let date := date_of at_ in let d := w_db w in
  day_fresh m date d -> Forall whole (schedule_periods (tables d)) ->
  hourly_pending date (tables d) = false /\
  match rollups_daily (w_db w') !! (m, date) with
  | Some ro => report_rows m date (date + day) (tables d) = [] /\ rollups_daily d !! (m, date) = Some ro \/
      rollup_counts ro = report_counts m date (date + day) (tables d) /\
      ro_unknown_checks ro = ro_expected_checks ro - ro_observed_checks ro
  | None => report_rows m date (date + day) (tables d) = []
  end.
Proof.
  intros [Hrows _ _ _ Hset]%RollupDay_ok date d [Hal Hh] Hw. fold date d in Hrows, Hset. split; [done|].
  assert (hour | date) as Hdiv.
  { exists (at_ / day * 24). unfold date, date_of, bucket. rewrite (Z.mod_eq at_ (24 * hour)) by (unfold hour, minute, second; lia).
    unfold day. lia. }
  pose proof (hours_of_perm m date d Hdiv Hal) as Hp.
  assert (totals (expected_rows m date (date + day) (tables d)) = sum4 rollup_totals (hours_of m date d)) as Ht.
  { pose proof (hours_add m date (tables d) 24 Hw Hdiv) as E. change (Z.of_nat 24 * hour) with day in E. rewrite E. clear E.
    rewrite sum4_rollups, Hp, <- sum4_rollups. symmetry. apply sum4_omap. intros i Hi%elem_of_seqZ. specialize (Hh i ltac:(lia)).
    unfold hour_of. destruct (rollups_hourly d !! _); [by destruct Hh|]. by rewrite Hh. }
  assert (Forall (fun r => ro_unknown_checks r = ro_expected_checks r - ro_observed_checks r) (hours_of m date d)) as Hu.
  { rewrite Hp. apply Forall_forall. intros r (i & Hi%elem_of_seqZ & Hr)%list_elem_of_omap. specialize (Hh i ltac:(lia)).
    unfold hour_of in Hr. rewrite Hr in Hh. by destruct Hh. }
  specialize (Hrows (m, date)). simpl in Hrows. rewrite decide_True in Hrows by done. rewrite Hrows. clear Hrows.
  unfold report_counts. rewrite <- totals_report, Ht, sum4_rollups. unfold day_row. destruct (hours_of m date d) as [|h l] eqn:E.
  - assert (report_rows m date (date + day) (tables d) = []) as Hnil.
    { rewrite report_expected. destruct (expected_rows m date (date + day) (tables d)); [done|]. by injection Ht. }
    rewrite Hnil. destruct (rollups_daily d !! (m, date)); [by left|done].
  - right. split; [done|]. exact (sum_unknown _ Hu).
Qed.

(** ** Repair *)

(** What the constraints of the tables promise: buckets begin on the hour or the day, and
    no duration is negative. *)
Definition aligned (d : DB) : Prop := forall m k s, is_Some (rollup_invalidations d !! (m, k, s)) -> bucket k s = s.
Definition durations_ok (d : DB) : Prop := forall id c, health_checks d !! id = Some c -> 0 <= hc_total_duration_microseconds c.

Lemma soonest_in l x : soonest l = Some x -> x ∈ l.
Proof.
  revert x. induction l as [|y l IH]; [done|]. intros x. simpl. destruct (soonest l) as [z|]; [|intros [= <-]; left].
  intros [= <-]. destruct (sooner y z); [left|right; by apply IH].
Qed.
Lemma soonest_none l : soonest l = None -> l = [].
Proof. destruct l as [|y l]; [done|]. simpl. by destruct (soonest l). Qed.

Lemma hourly_pending_false date d : hourly_pending date d = false <->
  forall m s, is_Some (rollup_invalidations d !! (m, Hourly, s)) -> ~ (date <= s < date + day).
Proof.
  unfold hourly_pending. split.
  - intros Hf m s [r Hr] Hs. apply not_true_iff_false in Hf. apply Hf. apply existsb_exists.
    exists ((m, Hourly, s), r). split; [by apply list_elem_of_In, elem_of_map_to_list|]. by apply bool_decide_eq_true.
  - intros Hn. apply not_true_iff_false. intros ([[[m k] s] r] & Hin%list_elem_of_In%elem_of_map_to_list & Hb)%existsb_exists.
    apply bool_decide_eq_true in Hb as [Hk Hs]. simpl in *. subst k. by apply (Hn m s); [eexists|].
Qed.

(** A queue that is not empty has a bucket that can be repaired. *)
Lemma next_repairable_spec d : match next_repairable d with
  | Some (k, s) => (exists m, is_Some (rollup_invalidations d !! (m, k, s))) /\ (k = Daily -> hourly_pending s d = false)
  | None => rollup_invalidations d = ∅
  end.
Proof.
  unfold next_repairable. set (l := filter _ _). destruct (soonest _) as [[k s]|] eqn:E.
  - apply soonest_in, list_elem_of_fmap in E as ([[[m k'] s'] r] & [= -> ->] & Hin). apply list_elem_of_filter in Hin as [Hr Hin%elem_of_map_to_list].
    split; [by exists m, r|]. intros ->. unfold repairable in Hr. simpl in Hr. by apply negb_true_iff in Hr.
  - apply soonest_none, fmap_nil_inv in E. apply map_empty. intros [[m k] s].
    destruct (rollup_invalidations d !! (m, k, s)) as [r|] eqn:Er; [|done]. exfalso.
    assert (forall x, x ∈ map_to_list (rollup_invalidations d) -> repairable d x.1 = true -> False) as Hn.
    { intros x Hx Hr. assert (x ∈ l) as Hl by by apply list_elem_of_filter. rewrite E in Hl. by apply elem_of_nil in Hl. }
    destruct (hourly_pending s d) eqn:Ep.
    + unfold hourly_pending in Ep. apply existsb_exists in Ep as ([[[m' k'] s'] r'] & Hin%list_elem_of_In & Hb).
      apply bool_decide_eq_true in Hb as [Hk _]. simpl in Hk. subst k'. by apply (Hn _ Hin).
    + apply (Hn ((m, k, s), r)); [by apply elem_of_map_to_list|]. unfold repairable. simpl. destruct k; [done|]. by rewrite Ep.
Qed.

Lemma sum_nonneg {A} (f : A -> Z) l : (forall a, a ∈ l -> 0 <= f a) -> 0 <= sum_of f l.
Proof.
  induction l as [|a l IH]; intros Hf; simpl; [done|]. pose proof (Hf a (list_elem_of_here _ _)).
  specialize (IH (fun x Hx => Hf x (list_elem_of_further _ _ _ Hx))). lia.
Qed.

Lemma expected_rows_from m from to d c : Some c ∈ expected_rows m from to d -> exists id, health_checks d !! id = Some c.
Proof.
  unfold expected_rows. intros (p & Hp & _)%list_elem_of_bind. apply list_elem_of_bind in Hp as (slot & Hs & _). revert Hs. unfold answers_at.
  destruct (filter _ _) as [|x l] eqn:E; [by intros [=]%list_elem_of_singleton|]. rewrite <- E.
  intros ([id c'] & [= ->] & Hin)%list_elem_of_fmap. apply list_elem_of_filter in Hin as [_ Hin%elem_of_map_to_list]. by exists id.
Qed.

Lemma durations_sum now b d ms : durations_ok d -> existsb (fun r => ro_total_duration_microseconds r <? 0) (omap (hour_row now b d) ms) = false.
Proof.
  intros Hd. apply not_true_iff_false. intros (r & Hin%list_elem_of_In & Hr)%existsb_exists. apply Z.ltb_lt in Hr.
  apply list_elem_of_omap in Hin as (m & _ & Hm). destruct (monitors d !! m) as [x|] eqn:Ex; [|by unfold hour_row, aggregate in Hm; rewrite Ex in Hm].
  pose proof (aggregate_spec now m b (Z.min (b + hour) now) d x Ex) as Ha. unfold hour_row in Hm. rewrite Hm in Ha.
  destruct Ha as [Ht _]. apply (f_equal snd) in Ht. simpl in Ht. rewrite Ht in Hr.
  assert (0 <= sum_of duration_of (expected_rows m b (Z.min (b + hour) now) d)); [|lia].
  apply sum_nonneg. intros [c|] Hc; [|done]. apply expected_rows_from in Hc as [id Hid]. by eapply Hd.
Qed.

(** A body that commits, run without faults. *)
Lemma with_tx_commits {O A} t (body : Tx RollupDB (TxEnd A)) (w : World RollupDB O) : w_faults w = [] ->
  (exists a s, body (mkTx (w_db w) t false (w_uuid w) (w_next w) []) = (Ok (Commit a), s) /\ quiet s) ->
  exists a w', with_tx t body w = (Ok a, w') /\ w_faults w' = [].
Proof. intros Hf (a & s & E & Hq). rewrite (with_tx_run _ _ _ _ _ Hf E Hq). eauto. Qed.

Lemma RollupHour_runs {O} t at_ (w : World RollupDB O) : w_faults w = [] -> durations_ok (tables (w_db w)) ->
  exists n w', RollupHour t at_ w = (Ok n, w') /\ w_faults w' = [].
Proof.
  intros Hf Hd. unfold RollupHour. rewrite truncate_hour. apply with_tx_commits; [done|]. do 2 eexists. split.
  - etransitivity; [eapply bind_run, sql_quiet; [done|]; cbn [tx_now tx_db]; rewrite durations_sum by done; reflexivity|].
    etransitivity; [eapply bind_run, sql_quiet; [done|reflexivity]|]. reflexivity.
  - done.
Qed.

Lemma RollupDay_runs {O} t at_ (w : World RollupDB O) : w_faults w = [] -> hourly_pending (date_of at_) (tables (w_db w)) = false ->
  exists n w', RollupDay t at_ w = (Ok n, w') /\ w_faults w' = [].
Proof.
  intros Hf Hp. unfold RollupDay. apply with_tx_commits; [done|]. do 2 eexists. split.
  - etransitivity; [eapply bind_run, sql_quiet; [done|reflexivity]|]. cbn [tx_now tx_db]. rewrite Hp.
    etransitivity; [eapply bind_run, sql_quiet; [done|reflexivity]|].
    etransitivity; [eapply bind_run, sql_quiet; [done|reflexivity]|]. reflexivity.
  - done.
Qed.

Lemma next_runs {O} t (w : World RollupDB O) : w_faults w = [] ->
  with_tx t (x ← GetNextRepairableRollupInvalidation; mret (Rollback x)) w =
    (match next_repairable (tables (w_db w)) with Some x => Ok x | None => Err ErrNoRows end, w).
Proof.
  destruct w as [d o u k fs]. simpl. intros ->. unfold with_tx, mbind, SE_bind, GetNextRepairableRollupInvalidation, select_one, sql. simpl.
  by destruct (next_repairable (tables d)).
Qed.

(** The queue shrinks with every bucket that is rolled up. *)
Lemma filter_shrinks (I : gmap (string * bucket_kind * Z) string) m k s : is_Some (I !! (m, k, s)) ->
  (size (filter (fun x => ~ (x.1.1.2 = k /\ x.1.2 = s)) I) < size I)%nat.
Proof.
  intros [r Hr]. apply map_subset_size. split; [apply map_filter_subseteq|]. intros Hsub.
  assert (filter (fun x => ~ (x.1.1.2 = k /\ x.1.2 = s)) I !! (m, k, s) = Some r) as Hin by (by eapply lookup_weaken).
  apply map_lookup_filter_Some in Hin as [_ Hn]. by apply Hn.
Qed.

(** What a repaired queue leaves: no invalidation; for every monitor that had an hour
    invalidated the row the checks give, as seen at some instant of the repair; and nothing
    changed in an hour that was not invalidated. *)
Record repaired_from (clock : nat -> Z) (d d' : RollupDB) : Prop := {
  rp_empty : rollup_invalidations (tables d') = ∅;
  rp_tables : exists f, tables d' = on_rollup_invalidations f (tables d);
  rp_rows : forall m b, is_Some (rollup_invalidations (tables d) !! (m, Hourly, b)) -> exists j,
    forall r, hour_row (clock j) b (tables d) m = Some r -> rollups_hourly d' !! (m, b) = Some r;
  rp_other : forall k, (forall m, rollup_invalidations (tables d) !! (m, Hourly, k.2) = None) ->
    rollups_hourly d' !! k = rollups_hourly d !! k
}.

Lemma repaired_hour clock i s d d1 d2 : hour_rolled (clock i) s d d1 -> (exists m, is_Some (rollup_invalidations (tables d) !! (m, Hourly, s))) ->
  repaired_from clock d1 d2 -> repaired_from clock d d2.
Proof.
  intros [Hr _ Ht _] [m0 Hm0] [He [f Hf] Hrows Hother].
  assert (forall m b, b <> s -> is_Some (rollup_invalidations (tables d) !! (m, Hourly, b)) -> is_Some (rollup_invalidations (tables d1) !! (m, Hourly, b))) as Hk.
  { intros m b Hb [r Hx]. exists r. rewrite Ht. simpl. apply map_lookup_filter_Some. split; [done|]. simpl. by intros [_ ?]. }
  assert (forall m, rollup_invalidations (tables d1) !! (m, Hourly, s) = None) as Hs.
  { intros m. rewrite Ht. simpl. apply map_lookup_filter_None. right. intros r _. simpl. tauto. }
  split; [done| | |].
  - exists (fun I => f (rollup_invalidations (tables d1))). rewrite Hf, Ht. done.
  - intros m b Hb. destruct (decide (b = s)) as [->|Hne].
    + exists i. intros r Hrow. rewrite Hother by done. rewrite Hr. simpl. by rewrite decide_True, Hrow by done.
    + destruct (Hrows m b (Hk m b Hne Hb)) as [j Hj]. exists j. intros r Hrow. apply Hj. by rewrite Ht.
  - intros [m b] Hn. simpl in *. assert (b <> s) as Hne by (intros ->; rewrite Hn in Hm0; by destruct Hm0).
    rewrite Hother; [by rewrite Hr, decide_False by done|]. intros m'. rewrite Ht. simpl. apply map_lookup_filter_None. by left.
Qed.

Lemma repaired_day clock t s d d1 d2 : day_rolled t s d d1 -> repaired_from clock d1 d2 -> repaired_from clock d d2.
Proof.
  intros [_ Hh Ht _ _] [He [f Hf] Hrows Hother].
  assert (forall m b, rollup_invalidations (tables d1) !! (m, Hourly, b) = rollup_invalidations (tables d) !! (m, Hourly, b)) as Hk.
  { intros m b. rewrite Ht. simpl. destruct (rollup_invalidations (tables d) !! (m, Hourly, b)) as [r|] eqn:E.
    - apply map_lookup_filter_Some. split; [done|]. simpl. by intros [? _].
    - apply map_lookup_filter_None. by left. }
  split; [done| | |].
  - exists (fun I => f (rollup_invalidations (tables d1))). rewrite Hf, Ht. done.
  - intros m b Hb. rewrite <- Hk in Hb. destruct (Hrows m b Hb) as [j Hj]. exists j. intros r Hrow. apply Hj. by rewrite Ht.
  - intros k Hn. rewrite Hother by (intros m; by rewrite Hk). by rewrite Hh.
Qed.

Lemma repair_empties {O} clock fuel : forall i n (w : World RollupDB O), w_faults w = [] -> durations_ok (tables (w_db w)) ->
  aligned (tables (w_db w)) -> (size (rollup_invalidations (tables (w_db w))) <= fuel)%nat ->
  exists c w', repair clock i fuel n w = (Ok c, w') /\ w_faults w' = [] /\ repaired_from clock (w_db w) (w_db w').
Proof.
  assert (forall d, rollup_invalidations (tables d) = ∅ -> repaired_from clock d d) as Hnil.
  { intros d E. split; [done|exists (fun x => x); by destruct (tables d)|intros m b; rewrite E, lookup_empty; by intros [? ?]|done]. }
  induction fuel as [|fuel IH]; intros i n w Hf Hd Hal Hs; simpl.
  { exists n, w. split; [done|]. split; [done|]. apply Hnil, map_size_empty_iff. lia. }
  erewrite (bind_run _ _ w) by (apply try_run, next_runs; done). pose proof (next_repairable_spec (tables (w_db w))) as Hn.
  destruct (next_repairable (tables (w_db w))) as [[k s]|]; [|exists n, w; split; [done|]; split; [done|]; by apply Hnil].
  destruct Hn as [[m Hm] Hp]. pose proof (Hal m k s Hm) as Hb. pose proof (filter_shrinks _ m k s Hm) as Hlt.
  assert (forall d1, tables d1 = on_rollup_invalidations (filter (fun x => ~ (x.1.1.2 = k /\ x.1.2 = s))) (tables (w_db w)) ->
    durations_ok (tables d1) /\ aligned (tables d1) /\ (size (rollup_invalidations (tables d1)) <= fuel)%nat) as Hnext.
  { intros d1 ->. split; [exact Hd|]. split; [|simpl; lia]. intros m' k' s' [r Hr]. simpl in Hr. apply map_lookup_filter_Some in Hr as [Hr _].
    apply (Hal m'). by eexists. }
  destruct k.
  - destruct (RollupHour_runs (clock i) s w Hf Hd) as (c & w1 & E & Hf1). rewrite (bind_run _ _ _ _ _ E).
    apply RollupHour_ok in E. rewrite Hb in E. destruct (Hnext _ (hr_tables _ _ _ _ E)) as (Hd1 & Hal1 & Hs1).
    destruct (IH (S i) (n + 1) w1 Hf1 Hd1 Hal1 Hs1) as (c' & w' & E' & Hf' & Hr). exists c', w'. split; [done|]. split; [done|].
    eapply repaired_hour; [exact E|by exists m|done].
  - assert (date_of s = s) as Hds by exact Hb. destruct (RollupDay_runs (clock i) s w Hf) as (c & w1 & E & Hf1); [rewrite Hds; by apply Hp|].
    rewrite (bind_run _ _ _ _ _ E). apply RollupDay_ok in E. rewrite Hds in E. destruct (Hnext _ (dr_tables _ _ _ _ E)) as (Hd1 & Hal1 & Hs1).
    destruct (IH (S i) (n + 1) w1 Hf1 Hd1 Hal1 Hs1) as (c' & w' & E' & Hf' & Hr). exists c', w'. split; [done|]. split; [done|].
    by eapply repaired_day.
Qed.

(** C9: as long as the database answers, a repair with a limit that covers the queue empties it:
    hours before days, so that no day is refused; every monitor's invalidated hour gets the
    row the accepted checks give, and an hour that was not invalidated keeps its rows. *)
Theorem RepairInvalidated_empties {O} clock limit (w : World RollupDB O) :
  w_faults w = [] -> durations_ok (tables (w_db w)) -> aligned (tables (w_db w)) ->
  Z.of_nat (size (rollup_invalidations (tables (w_db w)))) <= limit -> 1 <= limit <= 1000 ->
  exists n w', RepairInvalidated clock limit w = (Ok n, w') /\ repaired_from clock (w_db w) (w_db w').
Proof.
  intros Hf Hd Hal Hs Hl. unfold RepairInvalidated. destruct (Z.ltb_spec limit 1); [lia|]. destruct (Z.ltb_spec 1000 limit); [lia|]. simpl.
  destruct (repair_empties clock (Z.to_nat limit) 0 0 w Hf Hd Hal) as (c & w' & E & _ & Hr); [lia|]. by exists c, w'.
Qed.

(** ** Retention *)

Lemma kept_or_gone {K V} `{Countable K} (P : K * V -> Prop) `{!forall x, Decision (P x)} (t : gmap K V) k v : t !! k = Some v ->
  foldr delete t (filter P (map_to_list t)).*1 !! k = Some v \/ P (k, v).
Proof.
  intros Hk. destruct (decide (P (k, v))) as [Hp|Hn]; [by right|left]. rewrite lookup_foldr_delete; [done|].
  intros ([k' v'] & -> & Hin)%list_elem_of_fmap. apply list_elem_of_filter in Hin as [Hp Hin%elem_of_map_to_list]. simpl in *. congruence.
Qed.

Record retained (now : Z) (d d' : RollupDB) : Prop := {
  rt_check : forall id c, health_checks (tables d) !! id = Some c -> health_checks (tables d') !! id = Some c \/
    hc_scheduled_at c < now - 7 * day /\ summarised Hourly (hc_monitor_id c) (hc_scheduled_at c) d = true;
  rt_gap : forall m s r g, coverage_gaps (tables d) !! (m, s, r) = Some g -> coverage_gaps (tables d') !! (m, s, r) = Some g \/
    s < now - 7 * day /\ summarised Hourly m s d = true;
  rt_hour : forall m h r, rollups_hourly d !! (m, h) = Some r -> rollups_hourly d' !! (m, h) = Some r \/
    h < now - 90 * day /\ summarised Daily m h d = true;
  rt_day : forall m s r, rollups_daily d !! (m, s) = Some r -> rollups_daily d' !! (m, s) = Some r \/ s < date_of now - 365 * day;
  rt_job : forall id j, check_jobs (tables d) !! id = Some j -> check_jobs (tables d') !! id = Some j \/
    deletable (now - 2 * day) (now - 7 * day) j = true /\ health_checks (tables d') !! id = None;
  rt_monitors : monitors (tables d') = monitors (tables d) /\ schedule_periods (tables d') = schedule_periods (tables d);
  rt_queue : rollup_invalidations (tables d') = rollup_invalidations (tables d)
}.

Lemma retained_refl now d : retained now d d.
Proof. by split; auto. Qed.

Lemma a_year_before now : date_a_year_before now <= date_of now - 365 * day.
Proof.
  unfold date_a_year_before, date_of, bucket. pose proof (year_before_bounds (now / day)) as [_ Hy].
  assert (now - now mod (24 * hour) = now / day * day) as -> by (unfold day; rewrite Z.mod_eq by (unfold hour, minute, second; lia); lia).
  unfold day, hour, minute, second in *. lia.
Qed.

Lemma retention_tx_ok now s x s' : retention_tx now s = (Ok x, s') -> retained now (tx_db s) (tx_db s').
Proof.
  unfold retention_tx. intros H. apply bind_ok in H as (c0 & s0 & H0 & H). apply sql_ok in H0 as [[= _ D0] _].
  apply bind_ok in H as (c1 & s1 & H1 & H). apply sql_ok in H1 as [[= _ D1] _].
  apply bind_ok in H as (c2 & s2 & H2 & H). apply sql_ok in H2 as [[= _ D2] _].
  apply bind_ok in H as (c3 & s3 & H3 & H). apply sql_ok in H3 as [[= _ D3] _].
  apply bind_ok in H as (c4 & s4 & H4 & H). apply sql_ok in H4 as [Hq _]. cbv beta zeta in Hq. revert Hq. case_decide; [done|]. intros [= _ D4].
  apply bind_ok in H as (u & s5 & H5 & H). apply update_ok in H5 as [D5 _]. apply ret_ok in H as [_ <-].
  rewrite D5. clear D5. rewrite <- D4. clear D4. rewrite <- D3. clear D3. rewrite <- D2. clear D2. rewrite <- D1. clear D1. rewrite <- D0. clear D0.
  set (d := tx_db s). unfold time_add in *. split; simpl.
  - intros id c Hc. apply (kept_or_gone (fun x => old_check (now + - (7 * 24 * hour)) d x.2 = true)) in Hc as [Hc|Hc]; [by left|right].
    apply andb_true_iff in Hc as [Hc Hs]. apply Z.ltb_lt in Hc. split; [unfold day; cbn [fst snd] in Hc; lia|done].
  - intros m at_ r g Hg. apply (kept_or_gone (fun x => old_gap (now + - (7 * 24 * hour)) d x.1 = true)) in Hg as [Hg|Hg]; [by left|right].
    apply andb_true_iff in Hg as [Hg Hs]. apply Z.ltb_lt in Hg. split; [unfold day; cbn [fst snd] in *; lia|done].
  - intros m h r Hr. apply (kept_or_gone (fun x => old_hour (now + - (90 * 24 * hour)) d x.1 = true)) in Hr as [Hr|Hr]; [by left|right].
    apply andb_true_iff in Hr as [Hr Hs]. apply Z.ltb_lt in Hr. split; [unfold day; cbn [fst snd] in *; lia|done].
  - intros m b r Hr. apply (kept_or_gone (fun x => x.1.2 < date_a_year_before now)) in Hr as [Hr|Hr]; [by left|right].
    simpl in Hr. pose proof (a_year_before now). lia.
  - intros id j Hj. match goal with |- context [filter ?P (map_to_list (check_jobs (tables d)))] => destruct (kept_or_gone P _ id j Hj) as [Hk|Hk] end;
      [left; exact Hk|right]. rename Hk into Hj0. clear Hj. rename Hj0 into Hj.
    apply andb_true_iff in Hj as [Hj Hn]. apply bool_decide_eq_true in Hn. simpl in Hj, Hn.
    split; [|done]. replace (now - 2 * day) with (now + - (48 * hour)) by (unfold day; lia).
    by replace (now - 7 * day) with (now + - (7 * 24 * hour)) by (unfold day; lia).
  - done.
  - done.
Qed.

(** C10: whatever fails, a pass of the retention deletes a check or a coverage gap only when it
    is more than seven days old and the rollup of its hour is present and not invalidated, an
    hourly rollup only after ninety days and under the same condition on its day, and a
    daily rollup only after 365 days; a job only when it ended long enough ago and no check
    refers to it.  Nothing else changes, and nothing at all when the transaction fails. *)
Theorem retention_safe {O} t now (w : World RollupDB O) :
  retained now (w_db w) (w_db (ApplyRetention t now w).2).
Proof.
  unfold ApplyRetention. destruct (with_tx t (retention_tx now) w) as [r w'] eqn:E. apply with_tx_db in E as [E|(fs & x & s & Hb & E)]; simpl; rewrite E.
  - apply retained_refl.
  - by apply retention_tx_ok in Hb.
Qed.

(** ** One monitor *)

Definition hour_checked (m : string) (date : Z) (d : RollupDB) (i : Z) : bool :=
  match rollups_hourly d !! (m, date + i * hour) with
  | Some r => bool_decide (rollup_totals r = totals (expected_rows m (date + i * hour) (date + i * hour + hour) (tables d))) &&
      (ro_unknown_checks r =? ro_expected_checks r - ro_observed_checks r)
  | None => match expected_rows m (date + i * hour) (date + i * hour + hour) (tables d) with [] => true | _ => false end
  end.

Lemma fresh_checked m date d : (forall h r, rollups_hourly d !! (m, h) = Some r -> date <= h < date + day -> (hour | h)) ->
  forallb (hour_checked m date d) (seqZ 0 24) = true -> day_fresh m date d.
Proof.
  intros Hal Hall. split; [done|]. intros i Hi. rewrite forallb_forall in Hall.
  specialize (Hall i ltac:(apply list_elem_of_In, elem_of_seqZ; lia)). unfold hour_checked in Hall.
  destruct (rollups_hourly _ !! _) as [r|]; [|by destruct (expected_rows _ _ _ _)].
  by apply andb_true_iff in Hall as [H1%bool_decide_eq_true H2%Z.eqb_eq].
Qed.

Module OneHour.
Definition monitor : Monitor := mkMonitor "org" "env" 1 "https://a.test" "GET" 60 10 200 299 0 "" None "pool" None None.
Definition check (at_ : Z) (ok : bool) : HealthCheck :=
  mkHealthCheck "r" "org" "env" "m" Scheduled at_ at_ at_ ok None None 5 "h" "p" "w" "a" None None None None.
(** Half an hour of schedule, with two of its thirty slots answered. *)
Definition period : SchedulePeriod := mkSchedulePeriod "m" 60 0 0 (Some (30 * minute)).
Definition tables0 : DB :=
  upsert_invalidation Daily "m" 0 "accepted_result" (upsert_invalidation Hourly "m" 0 "accepted_result"
    (on_health_checks (fun _ => {["j0" := check 0 true; "j1" := check minute false]})
      (on_schedule_periods (fun _ => [period]) (on_monitors (fun _ => {["m" := monitor]}) empty_db)))).
Definition world (d : RollupDB) : World RollupDB () := mkWorld d () (fun _ => "") 0 [].
Definition w0 : World RollupDB () := world (mkRollupDB tables0 ∅ ∅ (- hour) (- day) None).
Definition clock (_ : nat) : Z := 2 * day.
Definition w1 : World RollupDB () := (RepairInvalidated clock 10 w0).2.
Definition w2 : World RollupDB () := (ApplyRetention (8 * day) (8 * day) w1).2.
Definition counts (w : World RollupDB ()) : option (Z * Z * Z) := rollup_counts <$> rollups_hourly (w_db w) !! ("m", 0).

Lemma hour_durations : durations_ok tables0.
Proof.
  intros id c. unfold tables0. simpl. intros [[_ <-]|[_ Hc]]%lookup_insert_Some; [done|].
  by apply lookup_singleton_Some in Hc as [_ <-].
Qed.
Lemma hour_aligned : aligned tables0.
Proof.
  intros m k s [r Hr]. unfold tables0, upsert_invalidation in Hr. simpl in Hr.
  apply lookup_insert_Some in Hr as [[[= <- <- <-] _]|[_ Hr]]; [reflexivity|].
  apply lookup_insert_Some in Hr as [[[= <- <- <-] _]|[_ Hr]]; [reflexivity|]. by rewrite lookup_empty in Hr.
Qed.

(** The day of the first hour, before its rollup. *)
Abbreviation hour_done := ((RollupHour (2 * day) 0 w0).2).
Lemma hour_whole : Forall whole (schedule_periods (tables (w_db hour_done))).
Proof.
  assert (schedule_periods (tables (w_db hour_done)) = [period]) as -> by (vm_compute; reflexivity).
  apply Forall_singleton. split; [simpl; lia|]. exists 0. reflexivity.
Qed.
Lemma hour_fresh : day_fresh "m" 0 (w_db hour_done).
Proof.
  apply fresh_checked; [|vm_compute; reflexivity]. intros h r Hr _.
  assert (bool_decide (dom (rollups_hourly (w_db hour_done)) = {[("m", 0)]}) = true) as Hd by (vm_compute; reflexivity).
  apply bool_decide_eq_true in Hd. apply elem_of_dom_2 in Hr. rewrite Hd in Hr. apply elem_of_singleton in Hr as [= ->]. by exists 0.
Qed.
End OneHour.

Lemma hourly_rollup_is_report_witness :
  exists ro, rollups_hourly (w_db OneHour.hour_done) !! ("m", 0) = Some ro /\
    rollup_counts ro = report_counts "m" 0 hour OneHour.tables0 /\ rollup_counts ro = (30, 2, 1).
Proof.
  pose proof (pair_fst (RollupHour (2 * day) 0 OneHour.w0) (Ok 1) ltac:(vm_compute; reflexivity)) as E.
  destruct (hourly_rollup_is_report _ _ _ _ _ E) as (H & _ & _).
  destruct (H "m" OneHour.monitor) as (ro & Hro & Hc & _); [reflexivity|vm_compute; discriminate|].
  exists ro. split; [exact Hro|]. split; [exact Hc|]. etransitivity; [exact Hc|vm_compute; reflexivity].
Defined.

Lemma daily_rollup_is_report_witness :
  exists ro, rollups_daily (w_db (RollupDay (2 * day) 5 OneHour.hour_done).2) !! ("m", 0) = Some ro /\ rollup_counts ro = (30, 2, 1) /\
    rollup_counts ro = report_counts "m" 0 day (tables (w_db OneHour.hour_done)).
Proof.
  pose proof (pair_fst (RollupDay (2 * day) 5 OneHour.hour_done) (Ok 1) ltac:(vm_compute; reflexivity)) as E.
  destruct (daily_rollup_is_report _ _ _ _ _ "m" E OneHour.hour_fresh OneHour.hour_whole) as [_ H].
  change (date_of 5) with 0 in H. change (0 + day) with day in H.
  assert (exists ro, rollups_daily (w_db (RollupDay (2 * day) 5 OneHour.hour_done).2) !! ("m", 0) = Some ro /\ rollup_counts ro = (30, 2, 1)) as (ro & Hro & Hc).
  { eexists. split; [vm_compute; reflexivity|reflexivity]. }
  rewrite Hro in H. exists ro. split; [exact Hro|]. split; [exact Hc|]. destruct H as [[H _]|[H _]]; [|exact H].
  apply (f_equal (@length _)) in H. vm_compute in H. discriminate H.
Defined.

Lemma RepairInvalidated_empties_witness :
  exists n w', RepairInvalidated OneHour.clock 10 OneHour.w0 = (Ok n, w') /\ rollup_invalidations (tables (w_db w')) = ∅.
Proof.
  destruct (RepairInvalidated_empties OneHour.clock 10 OneHour.w0 eq_refl OneHour.hour_durations OneHour.hour_aligned)
    as (n & w' & E & Hr); [vm_compute; discriminate|lia|].
  exists n, w'. split; [exact E|exact (rp_empty _ _ _ Hr)].
Defined.

(** *** A bucket recomputed after retention *)

(** A late result is accepted for any job of the ledger, and invalidates its hour; but the
    rollup of an hour is computed anew from the checks that are left.  Retention has deleted
    those of an hour that is seven days old, so the repair replaces the counts of the whole
    hour by the one late result: two checks observed become one. *)
Theorem late_result_erases_hour :
  let late := OneHour.world (on_tables (fun d => upsert_invalidation Hourly "m" (2 * minute) "late_result"
                (on_health_checks <["j2" := OneHour.check (2 * minute) true]> d)) (w_db OneHour.w2)) in
  OneHour.counts OneHour.w1 = Some (30, 2, 1) /\ OneHour.counts OneHour.w2 = Some (30, 2, 1) /\
  OneHour.counts (RepairInvalidated OneHour.clock 10 late).2 = Some (30, 1, 1).
Proof. split_and!; vm_compute; reflexivity. Qed.
