(* ===== verification/Pools.v ===== *)
(** * Lifecycle of worker pools (src/internal/workerpool, with the queries of workerpool.sql.go)

    Registration, activation, transitions, reconciliation and deletion of worker pools by an
    operator.  [PoolDB] adds to the tables of the engine the columns of worker_pools and
    worker_pool_credentials only this package reads, the pools the schedule periods name, and
    the audit trail; the constraints of the migrations are part of the statements.

    The theorems: whatever fails, a pool moves only along the lifecycle and is enabled exactly
    when it is active; a transition stops new work at once; a pool whose credentials were
    revoked never gets a trusted credential or becomes active again.  Two consequences of the
    code are proved too: the consumer still accepts results signed with a revoked key, and a
    pool that was ever used cannot be deleted. *)

From stdpp Require Import base gmap list strings sorting.
From Stdlib Require Import ZArith Lia Ascii String Bool.
From S2P Require Import Prelude Tx Store Bytes Envelope Reliability Scheduler Consumer Monitors.

(** ** Tables *)

Record PoolInfo : Type := mkPoolInfo {
  pi_mode : string;
  pi_job_queue_arn : option string;
  pi_job_dlq_url : option string;
  pi_job_dlq_arn : option string;
  pi_manifest_digest : option bytes
}.

Record CredentialInfo : Type := mkCredentialInfo { ci_fingerprint : string; ci_not_after : option Z }.

Record PoolAudit : Type := mkPoolAudit { pa_worker_pool_id : string; pa_action : string; pa_actor : string; pa_reason : string }.

Record PoolDB : Type := mkPoolDB {
  pool_tables : DB;
  pool_info : gmap string PoolInfo;
  credential_info : gmap (string * string * string) CredentialInfo;   (* pool, purpose, key *)
  period_pools : gset string;                                        (* monitor_schedule_periods.worker_pool_id *)
  pool_audit : list PoolAudit
}.

Definition on_pool_tables (f : DB -> DB) (d : PoolDB) : PoolDB :=
  mkPoolDB (f (pool_tables d)) (pool_info d) (credential_info d) (period_pools d) (pool_audit d).
Definition on_pool_info (f : gmap string PoolInfo -> gmap string PoolInfo) (d : PoolDB) : PoolDB :=
  mkPoolDB (pool_tables d) (f (pool_info d)) (credential_info d) (period_pools d) (pool_audit d).
Definition on_credential_info (f : gmap (string * string * string) CredentialInfo -> gmap (string * string * string) CredentialInfo)
    (d : PoolDB) : PoolDB :=
  mkPoolDB (pool_tables d) (pool_info d) (f (credential_info d)) (period_pools d) (pool_audit d).

Definition pools (d : PoolDB) : gmap string WorkerPool := worker_pools (pool_tables d).
Definition creds (d : PoolDB) : list Credential := credentials (pool_tables d).

(** ** Statements *)

Record Registration : Type := mkRegistration {
  rg_ID : string; rg_Mode : string; rg_JobQueueURL : string; rg_JobQueueARN : string; rg_JobDLQURL : string; rg_JobDLQARN : string;
  rg_EncryptionKeyID : string; rg_ResultKeyID : string; rg_EncryptionPublic : bytes; rg_ResultPublic : bytes;
  rg_SchemaMin : Z; rg_SchemaMax : Z; rg_MTLSFingerprint : string; rg_MTLSNotAfter : Z
}.

Definition schema_ok (n : Z) : bool := (n =? 1) || (n =? 2).
Definition new_pool (r : Registration) : WorkerPool :=
  mkWorkerPool false "provisioning" 1 (Some (rg_EncryptionKeyID r)) (Some (rg_EncryptionPublic r)) (Some (rg_JobQueueURL r))
    (rg_SchemaMin r) (rg_SchemaMax r) (Some (rg_ResultKeyID r)) (Some (rg_ResultPublic r)).
Definition register_pool (r : Registration) (d : PoolDB) : res () * PoolDB :=
  if negb (poolPattern (rg_ID r)) || negb (String.eqb (rg_Mode r) "hosted" || String.eqb (rg_Mode r) "customer_vpc")
     || negb (schema_ok (rg_SchemaMin r)) || negb (schema_ok (rg_SchemaMax r)) || (rg_SchemaMax r <? rg_SchemaMin r)
     || negb (slen (rg_EncryptionPublic r) =? 32) || negb (slen (rg_ResultPublic r) =? 32) then (Err ErrCheckViolation, d)
  else match pools d !! rg_ID r with
       | Some _ => (Err ErrUniqueViolation, d)
       | None => (Ok (), on_pool_info <[rg_ID r := mkPoolInfo (rg_Mode r) (Some (rg_JobQueueARN r)) (Some (rg_JobDLQURL r))
                           (Some (rg_JobDLQARN r)) None]> (on_pool_tables (on_worker_pools <[rg_ID r := new_pool r]>) d))
       end.
Definition RegisterWorkerPool (r : Registration) : Tx PoolDB () := sql (fun _ => register_pool r).

Definition insert_credential (now : Z) (pool purpose key : string) (public : option bytes) (fingerprint : string) (not_after : option Z)
    (d : PoolDB) : res () * PoolDB :=
  if (slen key <? 1) || (64 <? slen key) || (slen fingerprint <? 1) || (128 <? slen fingerprint) then (Err ErrCheckViolation, d)
  else match pools d !! pool with
       | None => (Err ErrForeignKeyViolation, d)
       | Some _ =>
           match credential_info d !! (pool, purpose, key) with
           | Some _ => (Err ErrUniqueViolation, d)
           | None => (Ok (), on_credential_info <[(pool, purpose, key) := mkCredentialInfo fingerprint not_after]>
                       (on_pool_tables (on_credentials (fun l => l ++ [mkCredential pool key public purpose "pending" now])) d))
           end
       end.
Definition InsertWorkerPoolCredential (pool purpose key : string) (public : bytes) (fingerprint : string) : Tx PoolDB () :=
  sql (fun now => insert_credential now pool purpose key (Some public) fingerprint None).
Definition InsertWorkerPoolMTLSCredential (pool key fingerprint : string) (not_after : Z) : Tx PoolDB () :=
  sql (fun now => insert_credential now pool "mtls_certificate" key None fingerprint (Some not_after)).

Definition InsertWorkerPoolAudit (pool action actor reason : string) : Tx PoolDB () := sql (fun _ d =>
  if (slen actor <? 1) || (128 <? slen actor) || (slen reason <? 1) || (240 <? slen reason) then (Err ErrCheckViolation, d)
  else (Ok (), mkPoolDB (pool_tables d) (pool_info d) (credential_info d) (period_pools d)
                 (pool_audit d ++ [mkPoolAudit pool action actor reason]))).

Definition not_after_of (d : PoolDB) (c : Credential) : option Z :=
  credential_info d !! (cr_worker_pool_id c, cr_purpose c, cr_key_id c) ≫= ci_not_after.

(** Pending credentials; a certificate only when it lasts ten days more. *)
Definition ready_credentials (now : Z) (pool : string) (d : PoolDB) : list Credential :=
  filter (fun c => cr_worker_pool_id c = pool /\ cr_status c = "pending" /\
    (cr_purpose c <> "mtls_certificate" \/ match not_after_of d c with Some t => now + 10 * 24 * hour <? t | None => false end = true)) (creds d).
Definition pool_ready (now : Z) (pool : string) (p : WorkerPool) (d : PoolDB) : bool :=
  match pool_info d !! pool with
  | Some i =>
      String.eqb (wp_lifecycle_state p) "provisioning"
      && bool_decide (is_Some (wp_job_queue_url p)) && bool_decide (is_Some (pi_job_queue_arn i))
      && bool_decide (is_Some (pi_job_dlq_url i)) && bool_decide (is_Some (pi_job_dlq_arn i))
      && bool_decide (is_Some (wp_encryption_public_key p)) && bool_decide (is_Some (wp_result_public_key p))
      && (Z.of_nat (Datatypes.length (ready_credentials now pool d)) =? (if String.eqb (pi_mode i) "customer_vpc" then 3 else 2))
  | None => false
  end.
Definition LockWorkerPoolActivationReadiness (pool : string) : Tx PoolDB bool :=
  select_one (fun now d => (fun p => pool_ready now pool p d) <$> pools d !! pool).

Definition set_lifecycle (enabled : bool) (state : string) (p : WorkerPool) : WorkerPool :=
  mkWorkerPool enabled state (wp_network_policy_version p) (wp_encryption_key_id p) (wp_encryption_public_key p) (wp_job_queue_url p)
    (wp_schema_min p) (wp_schema_max p) (wp_result_key_id p) (wp_result_public_key p).
Definition move_pool (pool : string) (enabled : bool) (state : string) (d : PoolDB) : PoolDB :=
  on_pool_tables (on_worker_pools (alter (set_lifecycle enabled state) pool)) d.

Definition set_digest (digest : bytes) (i : PoolInfo) : PoolInfo :=
  mkPoolInfo (pi_mode i) (pi_job_queue_arn i) (pi_job_dlq_url i) (pi_job_dlq_arn i) (Some digest).
Definition ActivateWorkerPool (pool : string) (digest : bytes) : Tx PoolDB () := sql (fun _ d =>
  if bool_decide (is_Some (pools d !! pool)) && negb (slen digest =? 32) then (Err ErrCheckViolation, d)
  else (Ok (), on_pool_info (alter (set_digest digest) pool) (move_pool pool true "active" d))).

Definition set_status (status : string) (c : Credential) : Credential :=
  mkCredential (cr_worker_pool_id c) (cr_key_id c) (cr_public_material c) (cr_purpose c) status (cr_activates_at c).
Definition restatus (pool : string) (from : list string) (to : string) (l : list Credential) : list Credential :=
  (fun c => if bool_decide (cr_worker_pool_id c = pool /\ cr_status c ∈ from) then set_status to c else c) <$> l.
Definition ActivatePendingWorkerPoolCredentials (pool : string) : Tx PoolDB () :=
  update (fun _ => on_pool_tables (on_credentials (restatus pool ["pending"] "active"))).
Definition RevokeWorkerPoolCredentials (pool : string) : Tx PoolDB () :=
  update (fun _ => on_pool_tables (on_credentials (restatus pool ["pending"; "active"; "retired"] "revoked"))).

Definition LockWorkerPoolLifecycleState (pool : string) : Tx PoolDB string :=
  select_one (fun _ d => wp_lifecycle_state <$> pools d !! pool).
Definition lifecycle_states : list string := ["provisioning"; "active"; "draining"; "revoked"; "deleting"; "failed"].
Definition UpdateWorkerPoolLifecycle (pool state : string) : Tx PoolDB () := sql (fun _ d =>
  if bool_decide (is_Some (pools d !! pool)) && negb (bool_decide (state ∈ lifecycle_states)) then (Err ErrCheckViolation, d)
  else (Ok (), move_pool pool false state d)).
Definition LockWorkerPoolManifestDigest (pool : string) : Tx PoolDB (option bytes) :=
  select_one (fun _ d => match pools d !! pool with Some _ => Some (pool_info d !! pool ≫= pi_manifest_digest) | None => None end).
Definition FailWorkerPool (pool : string) : Tx PoolDB () := update (fun _ => move_pool pool false "failed").
Definition InsertWorkerPoolDriftEvent (pool details : string) : Tx PoolDB () :=
  update (fun _ => on_pool_tables (on_operational_events (fun l => l ++ [mkOperationalEvent "pool_drift" None (Some pool) details]))).

(** The lifecycle, the jobs that are not over, and the credentials that are not revoked. *)
Definition unfinished (j : CheckJob) : Prop :=
  cj_state j = JPending \/ cj_state j = JPendingPublish \/ cj_state j = JPublished \/ cj_state j = JRunning.
#[global] Instance unfinished_dec j : Decision (unfinished j).
Proof. unfold unfinished. apply _. Defined.
Definition trusted (now : Z) (pool : string) (d : PoolDB) : list Credential :=
  filter (fun c => cr_worker_pool_id c = pool /\ cr_status c <> "revoked" /\
    match not_after_of d c with Some t => now <? t | None => true end = true) (creds d).
Definition LockWorkerPoolDeletionState (pool : string) : Tx PoolDB (string * Z * Z) := select_one (fun now d =>
  (fun p => (wp_lifecycle_state p,
             Z.of_nat (Datatypes.length (filter (fun x => cj_worker_pool_id x.2 = pool /\ unfinished x.2) (map_to_list (check_jobs (pool_tables d))))),
             Z.of_nat (Datatypes.length (trusted now pool d)))) <$> pools d !! pool).

(** Monitors, jobs, dispatches, checks and schedule periods refer to their pool without a
    delete clause; the credentials go with it. *)
Definition pool_referenced (pool : string) (d : PoolDB) : bool :=
  existsb (fun x => String.eqb (mon_worker_pool_id x.2) pool) (map_to_list (monitors (pool_tables d)))
  || existsb (fun x => String.eqb (cj_worker_pool_id x.2) pool) (map_to_list (check_jobs (pool_tables d)))
  || existsb (fun x => String.eqb (ob_worker_pool_id x.2) pool) (map_to_list (outbox (pool_tables d)))
  || existsb (fun x => String.eqb (hc_worker_pool_id x.2) pool) (map_to_list (health_checks (pool_tables d)))
  || bool_decide (pool ∈ period_pools d).
Definition delete_pool (pool : string) (d : PoolDB) : res () * PoolDB :=
  if pool_referenced pool d then (Err ErrForeignKeyViolation, d)
  else (Ok (), on_pool_info (delete pool) (on_credential_info (filter (fun x => x.1.1.1 <> pool))
                 (on_pool_tables (fun e => on_worker_pools (delete pool) (on_credentials (filter (fun c => cr_worker_pool_id c <> pool)) e)) d))).
Definition DeleteWorkerPool (pool : string) : Tx PoolDB () := sql (fun _ => delete_pool pool).

(** ** The service *)

Section Service.
Context {P : Primitives} {O : Type}.

Definition audit (id action actor reason : string) : Tx PoolDB () :=
  if (slen actor =? 0) || (128 <? slen actor) || (slen reason =? 0) || (240 <? slen reason)
  then throw (ErrorsNew "invalid audit identity or reason")
  else InsertWorkerPoolAudit id action actor reason.

(** [now] is time.Now(). *)
Definition registration_ok (now : Z) (r : Registration) (actor reason : string) : bool :=
  negb (String.eqb (rg_ID r) "" || (negb (String.eqb (rg_Mode r) "hosted") && negb (String.eqb (rg_Mode r) "customer_vpc"))
        || String.eqb (rg_JobQueueURL r) "" || String.eqb (rg_JobQueueARN r) "" || String.eqb (rg_JobDLQURL r) "" || String.eqb (rg_JobDLQARN r) ""
        || negb (slen (rg_EncryptionPublic r) =? 32) || negb (slen (rg_ResultPublic r) =? 32)
        || String.eqb (rg_EncryptionKeyID r) "" || String.eqb (rg_ResultKeyID r) ""
        || (rg_SchemaMin r <? 1) || (2 <? rg_SchemaMax r) || (rg_SchemaMax r <? rg_SchemaMin r)
        || String.eqb actor "" || String.eqb reason ""
        || (String.eqb (rg_Mode r) "customer_vpc"
            && (String.eqb (rg_MTLSFingerprint r) "" || is_zero_time (rg_MTLSNotAfter r)
                || after (rg_MTLSNotAfter r) (time_add now (31 * 24 * hour))))).

Definition register_tx (r : Registration) (actor reason : string) : Tx PoolDB (TxEnd ()) :=
  _ ← RegisterWorkerPool r;
  _ ← InsertWorkerPoolCredential (rg_ID r) "job_encryption" (rg_EncryptionKeyID r) (rg_EncryptionPublic r) (hex_encode (sha256 (rg_EncryptionPublic r)));
  _ ← InsertWorkerPoolCredential (rg_ID r) "result_signing" (rg_ResultKeyID r) (rg_ResultPublic r) (hex_encode (sha256 (rg_ResultPublic r)));
  _ ← (if String.eqb (rg_Mode r) "customer_vpc"
       then InsertWorkerPoolMTLSCredential (rg_ID r) ("mtls-" +:+ rg_EncryptionKeyID r) (rg_MTLSFingerprint r) (rg_MTLSNotAfter r)
       else mret ());
  _ ← audit (rg_ID r) "register" actor reason;
  mret (Commit ()).
Definition Register (t now : Z) (r : Registration) (actor reason : string) : SE (World PoolDB O) () :=
  if negb (registration_ok now r actor reason) then throw (ErrorsNew "invalid worker-pool registration")
  else with_tx t (register_tx r actor reason).

Definition activate_tx (id : string) (digest : bytes) (actor reason : string) : Tx PoolDB (TxEnd ()) :=
  ready ← LockWorkerPoolActivationReadiness id;
  if negb (ready : bool) then throw (ErrorsNew "pool is incomplete") else
  _ ← ActivateWorkerPool id digest;
  _ ← ActivatePendingWorkerPoolCredentials id;
  _ ← audit id "activate" actor reason;
  mret (Commit ()).
Definition Activate (t : Z) (id : string) (digest : bytes) (gatewayMapped : bool) (actor reason : string) : SE (World PoolDB O) () :=
  if negb (slen digest =? 32) || negb gatewayMapped then throw (ErrorsNew "pool dependencies are not verified")
  else with_tx t (activate_tx id digest actor reason).

Definition transition_action (target : string) : option string :=
  if String.eqb target "draining" then Some "drain" else if String.eqb target "revoked" then Some "revoke"
  else if String.eqb target "failed" then Some "fail" else if String.eqb target "deleting" then Some "delete_start" else None.
Definition transition_allowed (current target : string) : bool :=
  (String.eqb current "active" && (String.eqb target "draining" || String.eqb target "revoked" || String.eqb target "failed"))
  || (String.eqb current "provisioning" && (String.eqb target "failed" || String.eqb target "revoked"))
  || (String.eqb current "draining" && (String.eqb target "revoked" || String.eqb target "deleting"))
  || (String.eqb current "revoked" && String.eqb target "deleting")
  || (String.eqb current "failed" && String.eqb target "deleting").
Definition transition_tx (id target action actor reason : string) : Tx PoolDB (TxEnd ()) :=
  current ← LockWorkerPoolLifecycleState id;
  if negb (transition_allowed current target) then throw (ErrorsNew "invalid lifecycle transition") else
  _ ← UpdateWorkerPoolLifecycle id target;
  _ ← (if String.eqb target "revoked" || String.eqb target "deleting" then RevokeWorkerPoolCredentials id else mret ());
  _ ← audit id action actor reason;
  mret (Commit ()).
Definition Transition (t : Z) (id target actor reason : string) : SE (World PoolDB O) () :=
  match transition_action target with
  | None => throw (ErrorsNew "invalid lifecycle target")
  | Some action => with_tx t (transition_tx id target action actor reason)
  end.

Definition reconcile_tx (id : string) (expected : bytes) (gatewayMapped : bool) (actor reason : string) : Tx PoolDB (TxEnd bool) :=
  current ← LockWorkerPoolManifestDigest id;
  let drift := negb gatewayMapped || negb (String.eqb (default "" current) expected) in
  _ ← (if drift then FailWorkerPool id else mret ());
  _ ← audit id "reconcile" actor reason;
  _ ← InsertWorkerPoolDriftEvent id (if drift then "pool manifest drift" else "pool manifest verified");
  mret (Commit drift).
Definition Reconcile (t : Z) (id : string) (expected : bytes) (gatewayMapped : bool) (actor reason : string) : SE (World PoolDB O) () :=
  if negb (slen expected =? 32) then throw (ErrorsNew "invalid manifest digest") else
  drift ← with_tx t (reconcile_tx id expected gatewayMapped actor reason);
  if (drift : bool) then throw (ErrorsNew "worker-pool drift detected") else mret ().

Record DeletionReadiness : Type := mkDeletionReadiness {
  dr_SourceQueueEmpty : bool; dr_DeadLetterQueueEmpty : bool; dr_GatewayMappingRemoved : bool
}.
Definition delete_pool_tx (id actor reason : string) : Tx PoolDB (TxEnd ()) :=
  state ← LockWorkerPoolDeletionState id;
  let '(lifecycle, jobs, trusted_credentials) := state in
  if negb (String.eqb lifecycle "deleting") || negb (jobs =? 0) || negb (trusted_credentials =? 0)
  then throw (ErrorsNew "pool is not drained and deleting") else
  _ ← audit id "delete_complete" actor reason;
  _ ← DeleteWorkerPool id;
  mret (Commit ()).
Definition DeletePool (t : Z) (id confirmation actor reason : string) (r : DeletionReadiness) : SE (World PoolDB O) () :=
  if negb (String.eqb confirmation ("delete:" +:+ id)) || negb (dr_SourceQueueEmpty r) || negb (dr_DeadLetterQueueEmpty r)
     || negb (dr_GatewayMappingRemoved r) then throw (ErrorsNew "exact deletion confirmation required")
  else with_tx t (delete_pool_tx id actor reason).

(** *** Requests of the operator *)

Inductive pool_request : Type :=
| PRegister (r : Registration)
| PActivate (id : string) (digest : bytes) (gatewayMapped : bool)
| PTransition (id target : string)
| PReconcile (id : string) (expected : bytes) (gatewayMapped : bool)
| PDelete (id confirmation : string) (r : DeletionReadiness).

Definition operate (t now : Z) (actor reason : string) (r : pool_request) : SE (World PoolDB O) () :=
  match r with
  | PRegister r => Register t now r actor reason
  | PActivate id digest mapped => Activate t id digest mapped actor reason
  | PTransition id target => Transition t id target actor reason
  | PReconcile id expected mapped => Reconcile t id expected mapped actor reason
  | PDelete id confirmation ready => DeletePool t id confirmation actor reason ready
  end.
End Service.

(** ** What a request does *)

Definition revokes (target : string) : bool := String.eqb target "revoked" || String.eqb target "deleting".
Definition revoke_all (id : string) (l : list Credential) : list Credential := restatus id ["pending"; "active"; "retired"] "revoked" l.

(** What a request asks for. *)
Inductive request_kind : Type := KRegister | KActivate | KMove (target : string) | KReconcile | KDelete.
Definition kind_of (r : pool_request) : request_kind :=
  match r with
  | PRegister _ => KRegister
  | PActivate _ _ _ => KActivate
  | PTransition _ target => KMove target
  | PReconcile _ _ _ => KReconcile
  | PDelete _ _ _ => KDelete
  end.

Inductive pool_effect (k : request_kind) (d d' : PoolDB) : string -> Prop :=
| pe_registered id p l :
    k = KRegister -> pools d !! id = None -> wp_enabled p = false -> wp_lifecycle_state p = "provisioning" ->
    pools d' = <[id := p]> (pools d) -> creds d' = creds d ++ l ->
    Forall (fun c => cr_worker_pool_id c = id /\ cr_status c = "pending") l -> pool_effect k d d' id
| pe_activated id p :
    k = KActivate -> pools d !! id = Some p -> wp_lifecycle_state p = "provisioning" ->
    pools d' = <[id := set_lifecycle true "active" p]> (pools d) -> creds d' = restatus id ["pending"] "active" (creds d) ->
    pool_effect k d d' id
| pe_moved id p target :
    k = KMove target -> pools d !! id = Some p -> transition_allowed (wp_lifecycle_state p) target = true ->
    pools d' = <[id := set_lifecycle false target p]> (pools d) ->
    creds d' = (if revokes target then revoke_all id (creds d) else creds d) -> pool_effect k d d' id
| pe_drifted id p :
    k = KReconcile -> pools d !! id = Some p -> pools d' = <[id := set_lifecycle false "failed" p]> (pools d) -> creds d' = creds d -> pool_effect k d d' id
| pe_deleted id p :
    k = KDelete -> pools d !! id = Some p -> wp_lifecycle_state p = "deleting" -> pool_referenced id d = false ->
    pools d' = delete id (pools d) -> creds d' = filter (fun c => cr_worker_pool_id c <> id) (creds d) -> pool_effect k d d' id
| pe_noted id : pools d' = pools d -> creds d' = creds d -> pool_effect k d d' id.

(** Cases on the guard of a statement. *)
Ltac case_check := match goal with |- (if ?b then _ else _) = _ -> _ => destruct b eqn:? end.

Lemma audited {P : Primitives} id action actor reason s u s' : audit id action actor reason s = (Ok u, s') ->
  pools (tx_db s') = pools (tx_db s) /\ creds (tx_db s') = creds (tx_db s) /\ pool_referenced id (tx_db s') = pool_referenced id (tx_db s).
Proof.
  unfold audit. destruct (_ || _); [done|]. intros [Hq _]%sql_ok. revert Hq. cbv beta. case_check; [done|]. by intros [= _ <-].
Qed.

Lemma credential_added now pool purpose key public fp na d u d' : insert_credential now pool purpose key public fp na d = (Ok u, d') ->
  pools d' = pools d /\ creds d' = creds d ++ [mkCredential pool key public purpose "pending" now].
Proof. unfold insert_credential. repeat (case_match; try done). by intros [= _ <-]. Qed.

Lemma registered {P : Primitives} r actor reason s x s' : register_tx r actor reason s = (Ok x, s') ->
  pool_effect KRegister (tx_db s) (tx_db s') (rg_ID r).
Proof.
  unfold register_tx. intros H. apply bind_ok in H as ([] & s1 & H1 & H). apply sql_ok in H1 as [Hq _].
  unfold register_pool in Hq. revert Hq. cbv beta. case_check; [done|]. destruct (pools (tx_db s) !! rg_ID r) eqn:Ep; [done|]. intros [= D1].
  apply bind_ok in H as ([] & s2 & H2 & H). apply sql_ok in H2 as [[Hp2 Hc2]%credential_added _].
  apply bind_ok in H as ([] & s3 & H3 & H). apply sql_ok in H3 as [[Hp3 Hc3]%credential_added _].
  apply bind_ok in H as ([] & s4 & H4 & H). apply bind_ok in H as ([] & s5 & [Hp5 [Hc5 _]]%audited & H). apply ret_ok in H as [_ <-].
  assert (exists l, pools (tx_db s4) = pools (tx_db s3) /\ creds (tx_db s4) = creds (tx_db s3) ++ l /\
    Forall (fun c => cr_worker_pool_id c = rg_ID r /\ cr_status c = "pending") l) as (l & Hp4 & Hc4 & Hl).
  { destruct (String.eqb (rg_Mode r) "customer_vpc").
    - apply sql_ok in H4 as [[Hp Hc]%credential_added _]. eexists. split; [done|]. split; [done|]. by apply Forall_singleton.
    - apply ret_ok in H4 as [_ <-]. exists []. by rewrite app_nil_r. }
  eapply (pe_registered _ _ _ _ (new_pool r)); [done..| | |].
  - rewrite Hp5, Hp4, Hp3, Hp2, <- D1. done.
  - rewrite Hc5, Hc4, Hc3, Hc2, <- D1. by rewrite <- !(assoc_L (++)).
  - by repeat constructor.
Qed.

Lemma alter_some (f : WorkerPool -> WorkerPool) id p (t : gmap string WorkerPool) : t !! id = Some p -> alter f id t = <[id := f p]> t.
Proof.
  intros Hp. apply map_eq. intros i. destruct (decide (i = id)) as [->|Hn]; [by rewrite lookup_alter_eq, lookup_insert_eq, Hp|].
  by rewrite lookup_alter_ne, lookup_insert_ne.
Qed.

Lemma activated {P : Primitives} id digest actor reason s x s' : activate_tx id digest actor reason s = (Ok x, s') ->
  pool_effect KActivate (tx_db s) (tx_db s') id.
Proof.
  unfold activate_tx. intros H. apply bind_ok in H as (b & s1 & H1 & H). apply select_one_ok in H1 as [Hr [D1 _]].
  destruct b; [|done]. simpl in H. apply fmap_Some in Hr as (p & Hp & Hready). apply bind_ok in H as ([] & s2 & H2 & H).
  apply sql_ok in H2 as [Hq _]. revert Hq. cbv beta. case_check; [done|]. intros [= D2].
  apply bind_ok in H as ([] & s3 & [D3 _]%update_ok & H). apply bind_ok in H as ([] & s4 & [Hp4 [Hc4 _]]%audited & H).
  apply ret_ok in H as [_ <-]. eapply (pe_activated _ _ _ _ p); [done|done| | |].
  - symmetry in Hready. unfold pool_ready in Hready. destruct (pool_info _ !! _); [|done]. rewrite !andb_true_iff in Hready.
    by apply String.eqb_eq, Hready.
  - rewrite Hp4, D3, <- D2, D1. unfold pools in *. simpl. by apply alter_some.
  - rewrite Hc4, D3, <- D2, D1. done.
Qed.

Lemma transitioned {P : Primitives} id target action actor reason s x s' : transition_tx id target action actor reason s = (Ok x, s') ->
  exists p, pools (tx_db s) !! id = Some p /\ transition_allowed (wp_lifecycle_state p) target = true /\
    pools (tx_db s') = <[id := set_lifecycle false target p]> (pools (tx_db s)) /\
    creds (tx_db s') = (if revokes target then revoke_all id (creds (tx_db s)) else creds (tx_db s)).
Proof.
  unfold transition_tx. intros H. apply bind_ok in H as (cur & s1 & H1 & H). apply select_one_ok in H1 as [(p & Hp & ->)%fmap_Some [D1 _]].
  destruct (transition_allowed _ _) eqn:Ea; [|done]. simpl in H. apply bind_ok in H as ([] & s2 & H2 & H).
  apply sql_ok in H2 as [Hq _]. revert Hq. cbv beta. case_check; [done|]. intros [= D2].
  apply bind_ok in H as ([] & s3 & H3 & H). apply bind_ok in H as ([] & s4 & [Hp4 [Hc4 _]]%audited & H). apply ret_ok in H as [_ <-].
  exists p. split; [done|]. split; [done|]. fold (revokes target) in H3.
  assert (pools (tx_db s3) = pools (tx_db s2) /\ creds (tx_db s3) = if revokes target then revoke_all id (creds (tx_db s2)) else creds (tx_db s2)) as [Hp3 Hc3].
  { destruct (revokes target); [by apply update_ok in H3 as [-> _]|by apply ret_ok in H3 as [_ <-]]. }
  rewrite Hp4, Hp3, Hc4, Hc3, <- D2, D1. split; [|done]. unfold pools in *. simpl. by apply alter_some.
Qed.

Lemma reconciled {P : Primitives} id expected mapped actor reason s x s' : reconcile_tx id expected mapped actor reason s = (Ok x, s') ->
  pool_effect KReconcile (tx_db s) (tx_db s') id.
Proof.
  unfold reconcile_tx. intros H. apply bind_ok in H as (cur & s1 & H1 & H). apply select_one_ok in H1 as [Hc [D1 _]].
  destruct (pools (tx_db s) !! id) as [p|] eqn:Ep; [|done]. cbn zeta in H. set (drift := negb mapped || _) in H.
  apply bind_ok in H as ([] & s2 & H2 & H). apply bind_ok in H as ([] & s3 & [Hp3 [Hc3 _]]%audited & H).
  apply bind_ok in H as ([] & s4 & [D4 _]%update_ok & H). apply ret_ok in H as [_ <-]. destruct drift.
  - apply update_ok in H2 as [D2 _]. eapply (pe_drifted _ _ _ _ p); [done|done| |].
    + rewrite D4. unfold pools in *. simpl. rewrite Hp3, D2, D1. simpl. by apply alter_some.
    + rewrite D4. unfold creds in *. simpl. by rewrite Hc3, D2, D1.
  - apply ret_ok in H2 as [_ <-]. apply pe_noted; rewrite D4; unfold pools, creds in *; simpl; [by rewrite Hp3, D1|by rewrite Hc3, D1].
Qed.

Lemma delete_checked {P : Primitives} id actor reason s x s' : delete_pool_tx id actor reason s = (Ok x, s') ->
  exists p, pools (tx_db s) !! id = Some p /\ wp_lifecycle_state p = "deleting" /\ pool_referenced id (tx_db s) = false /\
    pools (tx_db s') = delete id (pools (tx_db s)) /\ creds (tx_db s') = filter (fun c => cr_worker_pool_id c <> id) (creds (tx_db s)).
Proof.
  unfold delete_pool_tx. intros H. apply bind_ok in H as (st & s1 & H1 & H). apply select_one_ok in H1 as [(p & Hp & ->)%fmap_Some [D1 _]].
  destruct (String.eqb_spec (wp_lifecycle_state p) "deleting") as [Es|]; [|done]. simpl in H. destruct (_ || _); [done|].
  apply bind_ok in H as ([] & s2 & [Hp2 [Hc2 Hr2]]%audited & H). apply bind_ok in H as ([] & s3 & H3 & H).
  apply sql_ok in H3 as [Hq _]. unfold delete_pool in Hq. apply ret_ok in H as [_ <-]. rewrite Hr2, D1 in Hq. revert Hq.
  destruct (pool_referenced id (tx_db s)) eqn:Er; [done|]. intros [= D3]. exists p. repeat (split; [done|]).
  rewrite <- D3. unfold pools, creds in *. simpl. by rewrite Hp2, Hc2, D1.
Qed.

Lemma deleted {P : Primitives} id actor reason s x s' : delete_pool_tx id actor reason s = (Ok x, s') -> pool_effect KDelete (tx_db s) (tx_db s') id.
Proof. intros (p & Hp & Hs & Hr & Hps & Hcs)%delete_checked. by eapply pe_deleted. Qed.

(** The pool a request is about. *)
Definition request_pool (r : pool_request) : string :=
  match r with PRegister r => rg_ID r | PActivate id _ _ | PTransition id _ | PReconcile id _ _ | PDelete id _ _ => id end.

Definition is_register (r : pool_request) : bool := match r with PRegister _ => true | _ => false end.

Lemma with_tx_pool {O A} (R : PoolDB -> PoolDB -> Prop) t (body : Tx PoolDB (TxEnd A)) (w : World PoolDB O) :
  (forall s x s', body s = (Ok x, s') -> R (tx_db s) (tx_db s')) ->
  w_db (with_tx t body w).2 = w_db w \/ R (w_db w) (w_db (with_tx t body w).2).
Proof.
  intros Hb. destruct (with_tx t body w) as [r w'] eqn:E. apply with_tx_db in E as [E|(fs & x & s & Hs & E)]; simpl; rewrite E; [by left|right].
  by apply Hb in Hs.
Qed.

Lemma operate_effect {P : Primitives} {O} t now actor reason r (w : World PoolDB O) :
  w_db (operate t now actor reason r w).2 = w_db w \/
  pool_effect (kind_of r) (w_db w) (w_db (operate t now actor reason r w).2) (request_pool r).
Proof.
  destruct r as [r|id digest mapped|id target|id expected mapped|id confirmation ready]; simpl.
  - unfold Register. destruct (negb _); [by left|]. apply (with_tx_pool (fun d d' => pool_effect KRegister d d' (rg_ID r))). intros s x s'. apply registered.
  - unfold Activate. destruct (_ || _); [by left|]. apply (with_tx_pool (fun d d' => pool_effect KActivate d d' id)). intros s x s'. apply activated.
  - unfold Transition. destruct (transition_action target); [|by left]. apply (with_tx_pool (fun d d' => pool_effect (KMove target) d d' id)). intros s1 x s2 H.
    apply transitioned in H as (p & Hp & Ha & Hps & Hcs). by eapply pe_moved.
  - unfold Reconcile. destruct (negb _); [by left|].
    assert (w_db (with_tx t (reconcile_tx id expected mapped actor reason) w).2 = w_db w \/
      pool_effect KReconcile (w_db w) (w_db (with_tx t (reconcile_tx id expected mapped actor reason) w).2) id) as H.
    { apply (with_tx_pool (fun d d' => pool_effect KReconcile d d' id)). intros s x s'. apply reconciled. }
    revert H. unfold mbind, SE_bind. destruct (with_tx _ _ w) as [[drift|e] w']; [|done]. by destruct drift.
  - unfold DeletePool. destruct (_ || _); [by left|]. apply (with_tx_pool (fun d d' => pool_effect KDelete d d' id)). intros s x s'. apply deleted.
Qed.

(** ** The lifecycle *)

Definition stopped (state : string) : bool := negb (String.eqb state "provisioning" || String.eqb state "active").

(** The abstract machine: what a request of a kind may do to its pool, [None] when the pool
    does not exist. *)
Inductive lifecycle_move : request_kind -> option string -> option string -> Prop :=
| lm_register : lifecycle_move KRegister None (Some "provisioning")
| lm_activate : lifecycle_move KActivate (Some "provisioning") (Some "active")
| lm_drain : lifecycle_move (KMove "draining") (Some "active") (Some "draining")
| lm_revoke s : s ∈ ["provisioning"; "active"; "draining"] -> lifecycle_move (KMove "revoked") (Some s) (Some "revoked")
| lm_fail s : s ∈ ["provisioning"; "active"] -> lifecycle_move (KMove "failed") (Some s) (Some "failed")
| lm_end s : s ∈ ["draining"; "revoked"; "failed"] -> lifecycle_move (KMove "deleting") (Some s) (Some "deleting")
| lm_drift s : lifecycle_move KReconcile (Some s) (Some "failed")
| lm_delete : lifecycle_move KDelete (Some "deleting") None.

(** The pool does not serve and is not about to: only a new registration brings it back. *)
Definition out_of_play (state : option string) : Prop := state <> Some "provisioning" /\ state <> Some "active".

Lemma allowed_move s s' : transition_allowed s s' = true -> lifecycle_move (KMove s') (Some s) (Some s').
Proof.
  unfold transition_allowed. rewrite !orb_true_iff, !andb_true_iff, !orb_true_iff, !String.eqb_eq.
  intros H. repeat match goal with H : _ \/ _ |- _ => destruct H | H : _ /\ _ |- _ => destruct H end; subst; constructor;
    by apply (bool_decide_unpack _).
Qed.

Lemma move_out k s s' : lifecycle_move k s s' -> k <> KRegister -> out_of_play s -> out_of_play s'.
Proof. intros [] Hk [H1 H2]; try done; split; done. Qed.

Definition lifecycle_of (d : PoolDB) (id : string) : option string := wp_lifecycle_state <$> pools d !! id.

Definition pool_ok (p : WorkerPool) : Prop := wp_enabled p = bool_decide (wp_lifecycle_state p = "active").
Definition credential_statuses : list string := ["pending"; "active"; "retired"; "revoked"].
Definition credential_ok (d : PoolDB) (c : Credential) : Prop :=
  cr_status c ∈ credential_statuses /\
  exists p, pools d !! cr_worker_pool_id c = Some p /\ (revokes (wp_lifecycle_state p) = true -> cr_status c = "revoked").
Definition pool_inv (d : PoolDB) : Prop :=
  map_Forall (fun _ => pool_ok) (pools d) /\ Forall (credential_ok d) (creds d).

Lemma allowed_stops s s' : transition_allowed s s' = true -> stopped s' = true /\ s' <> "active".
Proof.
  unfold transition_allowed. rewrite !orb_true_iff, !andb_true_iff, !orb_true_iff, !String.eqb_eq.
  intros H. assert (s' = "draining" \/ s' = "revoked" \/ s' = "failed" \/ s' = "deleting") as [->|[->|[->| ->]]] by tauto; done.
Qed.


Lemma restatus_in id from to l c : c ∈ restatus id from to l ->
  exists c0, c0 ∈ l /\ cr_worker_pool_id c = cr_worker_pool_id c0 /\
    (cr_worker_pool_id c0 = id /\ cr_status c0 ∈ from /\ cr_status c = to \/
     c = c0 /\ (cr_worker_pool_id c0 = id -> cr_status c0 ∉ from)).
Proof.
  unfold restatus. intros (c0 & -> & Hc0)%list_elem_of_fmap. exists c0. split; [done|].
  case_bool_decide as Hb; [split; [done|left]; destruct Hb; done|]. split; [done|]. right. split; [done|]. intros Hi Hf. by apply Hb.
Qed.

Lemma revoked_all id l c : Forall (fun c => cr_status c ∈ credential_statuses) l -> c ∈ revoke_all id l -> cr_worker_pool_id c = id ->
  cr_status c = "revoked".
Proof.
  rewrite Forall_forall. intros Hl (c0 & Hc0 & Hid & [(_ & _ & Hs)|[-> Hn]])%restatus_in Hi; [done|].
  specialize (Hl _ Hc0). specialize (Hn Hi). unfold credential_statuses in Hl. revert Hn Hl. rewrite !elem_of_cons. tauto.
Qed.

(** A request of the operator moves the pool it is about along the lifecycle and leaves the
    others alone. *)
Lemma effect_step k d d' id : pool_effect k d d' id ->
  (lifecycle_of d' id = lifecycle_of d id \/ lifecycle_move k (lifecycle_of d id) (lifecycle_of d' id)) /\
  (forall i, i <> id -> pools d' !! i = pools d !! i).
Proof.
  unfold lifecycle_of. destruct 1 as [id p l Hk Hn He Hs Hp Hc Hl|id p Hk Hp Hs Hps Hc|id p target Hk Hp Ha Hps Hc|id p Hk Hp Hps Hc|id p Hk Hp Hs Hr Hps Hc|id Hps Hc];
    (split; [|intros i Hi; first [rewrite Hps|rewrite Hp]; by rewrite ?lookup_insert_ne, ?lookup_delete_ne by done]).
  - right. rewrite Hk, Hp, lookup_insert_eq, Hn. simpl. rewrite Hs. constructor.
  - right. rewrite Hk, Hps, lookup_insert_eq, Hp. simpl. rewrite Hs. constructor.
  - right. rewrite Hk, Hps, lookup_insert_eq, Hp. simpl. by apply allowed_move.
  - right. rewrite Hk, Hps, lookup_insert_eq, Hp. simpl. apply lm_drift.
  - right. rewrite Hk, Hps, lookup_delete_eq, Hp. simpl. rewrite Hs. constructor.
  - left. by rewrite Hps.
Qed.

(** Credentials that keep their pool and are at least as revoked. *)
Lemma keep_credential d d' id c c0 : credential_ok d c0 -> cr_worker_pool_id c = cr_worker_pool_id c0 -> cr_status c ∈ credential_statuses ->
  (cr_status c0 = "revoked" -> cr_status c = "revoked") ->
  (forall i, i <> id -> pools d' !! i = pools d !! i) ->
  (cr_worker_pool_id c0 = id -> exists p, pools d' !! id = Some p /\ (revokes (wp_lifecycle_state p) = true -> cr_status c = "revoked")) ->
  credential_ok d' c.
Proof.
  intros [_ (p & Hp & Hr)] Hid Hst Hrev Hoth Hsame. split; [done|]. rewrite Hid. destruct (decide (cr_worker_pool_id c0 = id)) as [<-|Hn]; [by apply Hsame|].
  exists p. rewrite Hoth by done. auto.
Qed.

Lemma effect_pools k d d' id : pool_effect k d d' id -> map_Forall (fun _ => pool_ok) (pools d) -> map_Forall (fun _ => pool_ok) (pools d').
Proof.
  destruct 1 as [id p l Hk Hn He Hs Hp Hc Hl|id p Hk Hp Hs Hps Hc|id p target Hk Hp Ha Hps Hc|id p Hk Hp Hps Hc|id p Hk Hp Hs Hr Hps Hc|id Hps Hc]; intros Hpo.
  - rewrite Hp. apply map_Forall_insert_2; [|done]. unfold pool_ok. by rewrite He, Hs.
  - rewrite Hps. by apply map_Forall_insert_2.
  - rewrite Hps. apply map_Forall_insert_2; [|done]. unfold pool_ok. simpl. rewrite bool_decide_eq_false_2; [done|]. by eapply allowed_stops.
  - rewrite Hps. by apply map_Forall_insert_2.
  - rewrite Hps. by apply map_Forall_delete.
  - by rewrite Hps.
Qed.

Lemma effect_credentials k d d' id : pool_effect k d d' id -> Forall (credential_ok d) (creds d) -> Forall (credential_ok d') (creds d').
Proof.
  intros He Hco. pose proof (effect_step _ _ _ _ He) as [_ Hoth].
  assert (Forall (fun c => cr_status c ∈ credential_statuses) (creds d)) as Hstat by (eapply Forall_impl; [exact Hco|by intros c [? _]]).
  rewrite Forall_forall in Hco.
  destruct He as [id p l Hk Hn He Hs Hp Hc Hl|id p Hk Hp Hs Hps Hc|id p target Hk Hp Ha Hps Hc|id p Hk Hp Hps Hc|id p Hk Hp Hs Hr Hps Hc|id Hps Hc].
  - rewrite Hc. apply Forall_app. split; apply Forall_forall; intros c Hin.
    + eapply keep_credential; [by apply Hco|done|by apply (Hco c Hin)|done|exact Hoth|]. intros <-.
      destruct (Hco c Hin) as [_ (p' & Hp' & _)]. congruence.
    + rewrite Forall_forall in Hl. destruct (Hl c Hin) as [Hid Hst]. split; [rewrite Hst; by apply (bool_decide_unpack _)|]. exists p.
      rewrite Hid, Hp, lookup_insert_eq, Hs. done.
  - rewrite Hc. apply Forall_forall. intros c (c0 & Hin & Hid & Hcase)%restatus_in.
    eapply keep_credential; [by apply Hco|done| | |exact Hoth|].
    + destruct Hcase as [(_ & _ & ->)|[-> _]]; [by apply (bool_decide_unpack _)|by apply (Hco c0 Hin)].
    + intros Hv. destruct Hcase as [(_ & Hf & _)|[-> _]]; [|done]. rewrite Hv in Hf. by apply list_elem_of_singleton in Hf.
    + intros <-. rewrite Hps, lookup_insert_eq. eexists. split; [done|]. done.
  - rewrite Hc. apply Forall_forall. intros c Hin. destruct (revokes target) eqn:Er.
    + pose proof (revoked_all _ _ _ Hstat Hin) as Hrev. apply restatus_in in Hin as (c0 & Hin & Hid & Hcase).
      eapply keep_credential; [by apply Hco|done| | |exact Hoth|].
      * destruct Hcase as [(_ & _ & ->)|[-> _]]; [by apply (bool_decide_unpack _)|by apply (Hco c0 Hin)].
      * destruct Hcase as [(_ & _ & ->)|[-> _]]; done.
      * intros <-. rewrite Hps, lookup_insert_eq. eexists. split; [done|]. intros _. by apply Hrev.
    + eapply keep_credential; [by apply Hco|done|by apply (Hco c Hin)|done|exact Hoth|]. intros <-. rewrite Hps, lookup_insert_eq.
      eexists. split; [done|]. simpl. by rewrite Er.
  - rewrite Hc. apply Forall_forall. intros c Hin. eapply keep_credential; [by apply Hco|done|by apply (Hco c Hin)|done|exact Hoth|].
    intros <-. rewrite Hps, lookup_insert_eq. eexists. split; [done|]. done.
  - rewrite Hc. apply Forall_forall. intros c [Hne Hin]%list_elem_of_filter. eapply keep_credential; [by apply Hco|done|by apply (Hco c Hin)|done|exact Hoth|]. done.
  - rewrite Hc. apply Forall_forall. intros c Hin. destruct (Hco c Hin) as [Hst Hp]. split; [done|]. by rewrite Hps.
Qed.

Lemma effect_inv k d d' id : pool_effect k d d' id -> pool_inv d -> pool_inv d'.
Proof. intros He [Hpo Hco]. split; [by eapply effect_pools|by eapply effect_credentials]. Qed.

Lemma operate_inv {P : Primitives} {O} t now actor reason r (w : World PoolDB O) : pool_inv (w_db w) ->
  pool_inv (w_db (operate t now actor reason r w).2).
Proof. intros Hi. destruct (operate_effect t now actor reason r w) as [-> |He]; [done|by eapply effect_inv]. Qed.

(** One request: the other pools stay as they are, and its own pool stays in its state or
    makes a move the machine allows for the request. *)
Record request_step (r : pool_request) (d d' : PoolDB) : Prop := {
  rs_others : forall id, id <> request_pool r -> pools d' !! id = pools d !! id;
  rs_move : lifecycle_of d' (request_pool r) = lifecycle_of d (request_pool r) \/
    lifecycle_move (kind_of r) (lifecycle_of d (request_pool r)) (lifecycle_of d' (request_pool r))
}.

Lemma operate_step {P : Primitives} {O} t now actor reason r (w : World PoolDB O) :
  request_step r (w_db w) (w_db (operate t now actor reason r w).2).
Proof.
  destruct (operate_effect t now actor reason r w) as [-> |He]; [by constructor; [|left]|].
  apply effect_step in He as [Hs Hoth]. by constructor.
Qed.

Lemma request_step_out r d d' id :
  request_step r d d' -> (is_register r = true -> request_pool r <> id) -> out_of_play (lifecycle_of d id) ->
  out_of_play (lifecycle_of d' id).
Proof.
  intros [Hoth Hmove] Hr. destruct (decide (id = request_pool r)) as [->|Hn].
  - destruct Hmove as [->|Hm]; [done|]. apply (move_out _ _ _ Hm). destruct r; simpl in *; try done. by destruct Hr.
  - unfold lifecycle_of. by rewrite Hoth.
Qed.

(** ** Runs of the operator *)

Section Runs.
Context {P : Primitives} {O : Type}.

Definition operator_step (w w' : World PoolDB O) : Prop := exists t now actor reason r, w' = (operate t now actor reason r w).2.

(** The pool is stopped for good: it may not be scheduled and none of its credentials counts. *)
Definition out_of_service (id : string) (d : PoolDB) : Prop :=
  (forall p, pools d !! id = Some p -> stopped (wp_lifecycle_state p) = true /\ wp_enabled p = false) /\
  (forall c, c ∈ creds d -> cr_worker_pool_id c = id -> cr_status c = "revoked").

(** A request other than a new registration of the pool, or a write of another component. *)
Inductive later_step (id : string) (w w' : World PoolDB O) : Prop :=
| later_request t now actor reason r :
    (is_register r = true -> request_pool r <> id) -> w' = (operate t now actor reason r w).2 -> later_step id w w'
| later_other : pools (w_db w') = pools (w_db w) -> creds (w_db w') = creds (w_db w) -> later_step id w w'.

(** C16: in every state that the operator's requests reach, whatever fails in them, a pool is
    enabled exactly when it is active, and its credentials belong to a pool and are all
    revoked once the pool is revoked or being deleted.  Every single request leaves all other
    pools as they are and moves its own pool, if at all, along the lifecycle as the request
    asks: only a registration creates a pool (provisioning), only an activation of a
    provisioning pool makes it active, a transition drains, revokes, fails or ends a pool
    from the states listed for it, a reconciliation fails it, and only a pool that is being
    deleted is removed.  Hence a pool that stopped serving is never active again until it is
    registered anew. *)
Theorem pools_refine_lifecycle (w w' : World PoolDB O) :
  rtc operator_step w w' -> pool_inv (w_db w) ->
  pool_inv (w_db w') /\
  (forall t now actor reason r, request_step r (w_db w') (w_db (operate t now actor reason r w').2)) /\
  (forall id w'', rtc (later_step id) w' w'' -> out_of_play (lifecycle_of (w_db w') id) ->
     out_of_play (lifecycle_of (w_db w'') id)).
Proof.
  intros Hs Hi. split; [|split].
  - induction Hs as [w|w w1 w2 (t & now & actor & reason & r & ->) _ IH]; [done|]. by apply IH, operate_inv.
  - intros t now actor reason r. apply operate_step.
  - intros id w'' Hl. clear Hs Hi. induction Hl as [x|x y z [t now actor reason r Hr ->|Hp _] _ IH]; [done|..]; intros Ho; apply IH.
    + eapply request_step_out; [apply operate_step|exact Hr|exact Ho].
    + unfold lifecycle_of. by rewrite Hp.
Qed.

Lemma effect_out_of_service k d d' i id : pool_effect k d d' i -> (k = KRegister -> i <> id) ->
  out_of_service id d -> out_of_service id d'.
Proof.
  intros He Hreg [Hp Hc]. pose proof (effect_step _ _ _ _ He) as [_ Hoth].
  destruct He as [i p l Hr Hn He Hs Hps Hcs Hl|i p _ Hi Hs Hps Hcs|i p target _ Hi Ha Hps Hcs|i p _ Hi Hps Hcs|i p _ Hi Hs Hr Hps Hcs|i Hps Hcs]; split.
  - intros q. rewrite Hoth by (apply not_eq_sym; auto). apply Hp.
  - intros c. rewrite Hcs. intros [Hin|Hin]%elem_of_app; [by apply Hc|]. rewrite Forall_forall in Hl.
    intros Hid. destruct (Hl c Hin) as [Hci _]. exfalso. apply (Hreg Hr). congruence.
  - intros q Hq. destruct (decide (id = i)) as [<-|Hne]; [|rewrite Hoth in Hq by done; by apply Hp].
    destruct (Hp p Hi) as [Hst _]. unfold stopped in Hst. by rewrite Hs in Hst.
  - intros c. rewrite Hcs. intros (c0 & Hin & Hid & [(_ & Hf & Hto)|[-> _]])%restatus_in Hci; [|by apply Hc].
    apply list_elem_of_singleton in Hf. rewrite (Hc c0 Hin) in Hf by congruence. done.
  - intros q. rewrite Hps. destruct (decide (id = i)) as [<-|Hne]; [|rewrite lookup_insert_ne by done; apply Hp].
    rewrite lookup_insert_eq. intros [= <-]. split; [|done]. by eapply allowed_stops.
  - intros c. rewrite Hcs. destruct (revokes target); [|by apply Hc].
    intros (c0 & Hin & Hid & [(_ & Hf & Hto)|[-> _]])%restatus_in Hci; [done|by apply Hc].
  - intros q. rewrite Hps. destruct (decide (id = i)) as [<-|Hne]; [|rewrite lookup_insert_ne by done; apply Hp].
    rewrite lookup_insert_eq. by intros [= <-].
  - intros c. rewrite Hcs. apply Hc.
  - intros q. rewrite Hps. intros [_ Hq]%lookup_delete_Some. by apply Hp.
  - intros c. rewrite Hcs. intros [_ Hin]%list_elem_of_filter. by apply Hc.
  - intros q. rewrite Hps. apply Hp.
  - intros c. rewrite Hcs. apply Hc.
Qed.

Lemma no_due_monitor id (d : PoolDB) now locked batch m : (forall p, pools d !! id = Some p -> wp_enabled p = false) ->
  m ∈ due_monitors now locked batch (pool_tables d) -> mon_worker_pool_id (due_row m) <> id.
Proof.
  intros Hp (_ & (_ & _ & _ & _ & _ & Ha) & _)%due_monitors_rows Hid. simpl in Ha. rewrite Hid in Ha. unfold pools in Hp.
  destruct (worker_pools (pool_tables d) !! id) as [p|]; [|done]. unfold pool_active in Ha. by rewrite (Hp p eq_refl) in Ha.
Qed.

Lemma no_credential id (d : PoolDB) key : (forall c, c ∈ creds d -> cr_worker_pool_id c = id -> cr_status c = "revoked") ->
  filter (credential_for id key) (creds d) = [].
Proof.
  intros Hc. apply elem_of_nil_inv. intros c [(Hid & _ & _ & Hs) Hin]%list_elem_of_filter. rewrite (Hc c Hin Hid) in Hs. by destruct Hs.
Qed.

Lemma transition_run t id target actor reason (w w' : World PoolDB O) u :
  Transition t id target actor reason w = (Ok u, w') ->
  exists p, pools (w_db w) !! id = Some p /\ transition_allowed (wp_lifecycle_state p) target = true /\
    pools (w_db w') = <[id := set_lifecycle false target p]> (pools (w_db w)) /\
    creds (w_db w') = (if revokes target then revoke_all id (creds (w_db w)) else creds (w_db w)).
Proof.
  unfold Transition. destruct (transition_action target); [|done].
  intros [_ (fs & st & [(Hb & _ & ->)|[Hb _]])]%with_tx_ok; [by apply transitioned in Hb|].
  exfalso. revert Hb. unfold transition_tx. intros H. apply bind_ok in H as (cur & s1 & _ & H). destruct (negb _); [done|].
  apply bind_ok in H as ([] & s2 & _ & H). apply bind_ok in H as ([] & s3 & _ & H). apply bind_ok in H as ([] & s4 & _ & H).
  by apply ret_ok in H as [? _].
Qed.

(** A transition that succeeds stops the pool at once: it has the target state and is not
    enabled, no monitor of the pool is due for the scheduler, and a revocation or deletion
    leaves none of its credentials pending, active or retired. *)
Theorem Transition_stops t id target actor reason (w w' : World PoolDB O) :
  pool_inv (w_db w) -> Transition t id target actor reason w = (Ok (), w') ->
  lifecycle_of (w_db w') id = Some target /\
  (forall now locked batch m, m ∈ due_monitors now locked batch (pool_tables (w_db w')) -> mon_worker_pool_id (due_row m) <> id) /\
  (revokes target = true -> out_of_service id (w_db w')).
Proof.
  intros [_ Hco] (p & Hp & Ha & Hps & Hcs)%transition_run. unfold lifecycle_of. rewrite Hps, lookup_insert_eq. split; [done|].
  assert (forall q, pools (w_db w') !! id = Some q -> wp_enabled q = false) as Hoff by (intros q; rewrite Hps, lookup_insert_eq; by intros [= <-]).
  split; [intros now locked batch m; by apply no_due_monitor|]. intros Hr. split.
  - intros q Hq. split; [|by apply Hoff]. rewrite Hps, lookup_insert_eq in Hq. injection Hq as <-. by eapply allowed_stops.
  - intros c. rewrite Hcs, Hr. intros Hin. eapply revoked_all; [|exact Hin]. eapply Forall_impl; [exact Hco|by intros ? [? _]].
Qed.

(** A revocation is final: once a pool is stopped and its credentials are revoked, no later
    request of the operator, short of registering a new pool under the name, and no write of
    the other components to the rest of the database makes one of its monitors due, gives it a
    credential the consumer looks up, or brings it back to service. *)
Theorem revocation_final id (w w' : World PoolDB O) :
  rtc (later_step id) w w' -> out_of_service id (w_db w) ->
  out_of_service id (w_db w') /\
  (forall now locked batch m, m ∈ due_monitors now locked batch (pool_tables (w_db w')) -> mon_worker_pool_id (due_row m) <> id) /\
  (forall key, filter (credential_for id key) (creds (w_db w')) = []).
Proof.
  intros Hrun Hout. assert (out_of_service id (w_db w')) as Hout'.
  { induction Hrun as [w|w w1 w2 Hs _ IH]; [done|]. apply IH. destruct Hs as [t now actor reason r Hr ->|Hps Hcs].
    - destruct (operate_effect t now actor reason r w) as [-> |He]; [done|].
      eapply effect_out_of_service; [exact He| |done]. intros Hk. apply Hr. by destruct r.
    - unfold out_of_service. by rewrite Hps, Hcs. }
  split; [done|]. destruct Hout' as [Hp Hc]. split; [|intros key; by apply no_credential].
  intros now locked batch m. apply no_due_monitor. intros p Hq. by apply Hp.
Qed.

(** What revocation does not reach: the consumer falls back to the key of the worker_pools row,
    so it still verifies results against the revoked key. *)
Theorem revoked_key_still_accepted t id target actor reason (w w' : World PoolDB O) p key j :
  pool_inv (w_db w) -> Transition t id target actor reason w = (Ok (), w') -> revokes target = true ->
  pools (w_db w) !! id = Some p -> wp_result_key_id p = Some key -> cj_worker_pool_id j = id ->
  forall jid, check_jobs (pool_tables (w_db w')) !! jid = Some j ->
  result_job key jid (pool_tables (w_db w')) = Some (j, wp_result_public_key p).
Proof.
  intros [_ Hco] (p' & Hp & Ha & Hps & Hcs)%transition_run Hr Hp' Hk Hj jid Hjob. assert (p' = p) as -> by congruence. subst id. unfold result_job. rewrite Hjob.
  assert (worker_pools (pool_tables (w_db w')) !! cj_worker_pool_id j = Some (set_lifecycle false target p)) as Hw.
  { change (pools (w_db w') !! cj_worker_pool_id j = Some (set_lifecycle false target p)). by rewrite Hps, lookup_insert_eq. }
  rewrite Hw. do 2 f_equal. unfold result_public_key. fold (creds (w_db w')). rewrite no_credential.
  - simpl. by rewrite bool_decide_eq_true_2.
  - intros c. rewrite Hcs, Hr. intros Hin. eapply revoked_all; [|exact Hin]. eapply Forall_impl; [exact Hco|by intros ? [? _]].
Qed.

Lemma used_pool_kept id actor reason s x s' : delete_pool_tx id actor reason s = (Ok x, s') -> pool_referenced id (tx_db s) = false.
Proof. intros H. by apply delete_checked in H as (p & _ & _ & Hr & _). Qed.

(** A pool that monitors, jobs, dispatches, checks or schedule periods name cannot be deleted:
    the deletion fails on a foreign key, whatever was confirmed. *)
Theorem used_pool_undeletable t id confirmation actor reason ready (w : World PoolDB O) :
  pool_referenced id (w_db w) = true ->
  (exists e, (DeletePool t id confirmation actor reason ready w).1 = Err e) /\
  w_db (DeletePool t id confirmation actor reason ready w).2 = w_db w.
Proof.
  intros Href. unfold DeletePool. destruct (_ || _); [by split; [eexists|]|].
  destruct (with_tx t _ w) as [r w'] eqn:E. simpl. split.
  - destruct r as [[]|e]; [exfalso|by exists e]. apply with_tx_ok in E as [_ (fs & st & [(Hb & _ & _)|[Hb _]])];
      apply used_pool_kept in Hb; simpl in Hb; congruence.
  - apply with_tx_db in E as [E|(fs & x & st & Hb & _)]; [done|]. apply used_pool_kept in Hb. simpl in Hb. congruence.
Qed.
End Runs.

(** ** A pool from its registration to its end *)

Module OnePool.
Definition registration : Registration :=
  mkRegistration "eu-west" "customer_vpc" "https://queue" "arn:queue" "https://dlq" "arn:dlq" "enc-1" "res-1"
    (Toy.rep 32 "e") (Toy.rep 32 "r") 1 2 "ff00" (20 * 24 * hour).
Definition db0 : PoolDB := mkPoolDB empty_db ∅ ∅ ∅ [].
Definition w0 : World PoolDB () := mkWorld db0 () (fun _ => "") 0 [].
Definition ask (r : pool_request) (w : World PoolDB ()) : World PoolDB () := (operate (P := Toy.primitives) 0 0 "ops" "planned" r w).2.
Definition w1 : World PoolDB () := ask (PRegister registration) w0.
Definition w2 : World PoolDB () := ask (PActivate "eu-west" (Toy.rep 32 "d") true) w1.
Definition w3 : World PoolDB () := ask (PTransition "eu-west" "revoked") w2.

Lemma empty_inv : pool_inv db0.
Proof. split; [by apply map_Forall_empty|constructor]. Qed.
Lemma asked r w : operator_step w (ask r w).
Proof. by exists 0, 0, "ops", "planned", r. Qed.
Lemma serving : rtc (operator_step (P := Toy.primitives)) w0 w2.
Proof. eapply rtc_l; [apply asked|]. eapply rtc_once, asked. Qed.
Lemma w2_inv : pool_inv (w_db w2).
Proof. apply operate_inv, operate_inv, empty_inv. Qed.
Lemma revoked : (Transition 0 "eu-west" "revoked" "ops" "planned" w2) = (Ok (), w3).
Proof. unfold w3, ask, operate. apply pair_fst. vm_compute. reflexivity. Qed.
End OnePool.
Import OnePool.

Lemma pools_refine_lifecycle_witness :
  lifecycle_of (w_db w2) "eu-west" = Some "active" /\ pool_inv (w_db w2) /\
  lifecycle_of (w_db w3) "eu-west" = Some "revoked" /\
  lifecycle_move (KMove "revoked") (lifecycle_of (w_db w2) "eu-west") (lifecycle_of (w_db w3) "eu-west").
Proof.
  split; [vm_compute; reflexivity|]. destruct (pools_refine_lifecycle w0 w2 serving empty_inv) as (Hi & Hs & _). split; [exact Hi|].
  assert (lifecycle_of (w_db w2) "eu-west" = Some "active") as E2 by (vm_compute; reflexivity).
  assert (lifecycle_of (w_db w3) "eu-west" = Some "revoked") as E3 by (vm_compute; reflexivity). split; [exact E3|].
  destruct (Hs 0 0 "ops" "planned" (PTransition "eu-west" "revoked")) as [_ [Hm|Hm]]; [|exact Hm].
  exfalso. change (lifecycle_of (w_db w3) "eu-west" = lifecycle_of (w_db w2) "eu-west") in Hm. congruence.
Defined.

Lemma Transition_stops_witness :
  lifecycle_of (w_db w3) "eu-west" = Some "revoked" /\ out_of_service "eu-west" (w_db w3).
Proof.
  destruct (Transition_stops 0 "eu-west" "revoked" "ops" "planned" w2 w3 w2_inv OnePool.revoked) as (Hl & _ & Ho). split; [exact Hl|]. by apply Ho.
Defined.

Lemma w3_out : out_of_service "eu-west" (w_db w3).
Proof.
  split.
  - intros p Hp. assert (pools (w_db w3) !! "eu-west" = Some (set_lifecycle false "revoked" (new_pool registration))) as Hq by (vm_compute; reflexivity).
    rewrite Hq in Hp. injection Hp as <-. done.
  - assert (cr_status <$> creds (w_db w3) = ["revoked"; "revoked"; "revoked"]) as Hs by (vm_compute; reflexivity).
    intros c Hc _. assert (cr_status c ∈ cr_status <$> creds (w_db w3)) as Hin by (by apply list_elem_of_fmap_2).
    rewrite Hs in Hin. revert Hin. rewrite !elem_of_cons, elem_of_nil. tauto.
Qed.

(** An attempt to activate the revoked pool again. *)
Lemma revocation_final_witness :
  let w' := ask (PActivate "eu-west" (Toy.rep 32 "d") true) w3 in
  out_of_service "eu-west" (w_db w') /\ filter (credential_for "eu-west" "res-1") (creds (w_db w')) = [].
Proof.
  destruct (revocation_final (P := Toy.primitives) "eu-west" w3 (ask (PActivate "eu-west" (Toy.rep 32 "d") true) w3)) as (Ho & _ & Hc).
  - apply rtc_once. eapply (later_request _ _ _ 0 0 "ops" "planned"); [|reflexivity]. done.
  - exact w3_out.
  - split; [exact Ho|exact (Hc "res-1")].
Defined.
