(* ===== verification/RateLimit.v ===== *)
(** * Rate limits of the HTTP API (src/internal/httpapi/ratelimit.go)

    The limiter every request passes: a class by method and path, a bucket per class and
    client, a fixed window per bucket, and a count of open connections for event streams.
    Each operation holds the mutex, so the requests of the server are a sequence of
    arrivals and of ends of event streams; [server_step] is that sequence, with a log of the
    requests the buckets let pass.

    The theorems: no client passes more than twice the limit of a class in any interval of
    the length of its window and no request is turned away unless the limit was used up
    within the window; the time a refusal announces is enough; open event streams never
    exceed their limit and their counters are exact.  The last theorem is about the identity
    of a client: a cookie the caller makes up selects a new bucket. *)

From stdpp Require Import base gmap list strings relations.
From Stdlib Require Import ZArith Lia Ascii String Bool.
From S2P Require Import Prelude Bytes Envelope Sealing Destination HttpClient.

Record rateBucket : Type := mkBucket { started : Z; count : Z }.
Record RateLimits : Type := mkLimits {
  AuthPerMinute : Z; MutationsPerMinute : Z; ManualPerMinute : Z; ReportsPerMinute : Z; InvitesPerHour : Z; LiveConnections : Z
}.
Record RateLimiter : Type := mkLimiter { limits : RateLimits; buckets : gmap string rateBucket; live : gmap string Z }.

Definition at_least_one (n default : Z) : Z := if n <? 1 then default else n.
Definition NewRateLimiter (l : RateLimits) : RateLimiter :=
  mkLimiter (mkLimits (at_least_one (AuthPerMinute l) 30) (at_least_one (MutationsPerMinute l) 120) (at_least_one (ManualPerMinute l) 10)
    (at_least_one (ReportsPerMinute l) 120) (at_least_one (InvitesPerHour l) 20) (at_least_one (LiveConnections l) 3)) ∅ ∅.

(** What the limiter reads of a request; the value of the cookie watchtrace_refresh, if it has one. *)
Record Incoming : Type := mkIncoming { Method : string; Path : string; Authorization : string; RefreshCookie : option string; RemoteAddr : string }.

(** [strings.Fields] on ASCII. *)
Fixpoint fields_from (word : string) (s : string) : list string :=
  match s with
  | "" => if String.eqb word "" then [] else [word]
  | String c r => if Secureheaders.is_space c then (if String.eqb word "" then [] else [word]) ++ fields_from "" r
                  else fields_from (word +:+ String c "") r
  end.
Definition Fields (s : string) : list string := fields_from "" s.

Definition bearerToken (header : string) : option string :=
  match Fields header with
  | [scheme; token] => if negb (EqualFold scheme "Bearer") || String.eqb token "" then None else Some token
  | _ => None
  end.

Definition clientAddress (q : Incoming) : string :=
  match SplitHostPort (RemoteAddr q) with
  | Some (host, _) => if negb (String.eqb host "") then host else if negb (String.eqb (RemoteAddr q) "") then RemoteAddr q else "unknown"
  | None => if negb (String.eqb (RemoteAddr q) "") then RemoteAddr q else "unknown"
  end.

Section Limiter.
Context {P : Primitives}.

Definition identityDigest (value : string) : string := hex_encode (sha256 value).
Definition clientIdentity (q : Incoming) : string :=
  let other :=
    if negb (has_prefix (Path q) "/api/v1/auth/") then
      match bearerToken (Authorization q) with
      | Some token => "session:" +:+ identityDigest token
      | None => "address:" +:+ clientAddress q
      end
    else "address:" +:+ clientAddress q in
  match RefreshCookie q with
  | Some value => if negb (String.eqb value "") then "refresh:" +:+ identityDigest value else other
  | None => other
  end.

(** The class of a request, its limit and its window, and whether it is an event stream. *)
Definition classify (r : RateLimiter) (method path : string) : string * Z * Z * bool :=
  if has_suffix path "/events" then ("live", LiveConnections (limits r), 0, true)
  else if has_prefix path "/api/v1/auth/" && negb (String.eqb path "/api/v1/auth/me") && negb (String.eqb path "/api/v1/auth/logout")
    then ("auth", AuthPerMinute (limits r), minute, false)
  else if has_suffix path "/test" then ("manual", ManualPerMinute (limits r), minute, false)
  else if has_suffix path "/invitations" then ("invite", InvitesPerHour (limits r), hour, false)
  else if has_suffix path "/report" || has_suffix path "/dashboard" then ("report", ReportsPerMinute (limits r), minute, false)
  else if String.eqb method "POST" || String.eqb method "PUT" || String.eqb method "PATCH" || String.eqb method "DELETE"
    then ("mutation", MutationsPerMinute (limits r), minute, false)
  else ("", 0, 0, false).

(** [int(math.Ceil(d.Seconds()))]; the quotient of a whole number of nanoseconds by 10^9 is
    rounded up exactly in a float64 for the durations of a window. *)
Definition ceil_seconds (d : Z) : Z := - ((- d) / second).

Definition allow (now : Z) (key : string) (limit window : Z) (r : RateLimiter) : (bool * Z) * RateLimiter :=
  let bucket := default (mkBucket zero_time 0) (buckets r !! key) in
  let bucket := if is_zero_time (started bucket) || (window <=? time_sub now (started bucket)) then mkBucket now 0 else bucket in
  if limit <=? count bucket then
    let retry := ceil_seconds (window - time_sub now (started bucket)) in
    ((false, if retry <? 1 then 1 else retry), r)
  else ((true, 0), mkLimiter (limits r) (<[key := mkBucket (started bucket) (count bucket + 1)]> (buckets r)) (live r)).

Definition acquireLive (key : string) (r : RateLimiter) : bool * RateLimiter :=
  if LiveConnections (limits r) <=? default 0 (live r !! key) then (false, r)
  else (true, mkLimiter (limits r) (buckets r) (<[key := default 0 (live r !! key) + 1]> (live r))).
Definition releaseLive (key : string) (r : RateLimiter) : RateLimiter :=
  let n := default 0 (live r !! key) - 1 in
  mkLimiter (limits r) (buckets r) (if n <=? 0 then delete key (live r) else <[key := n]> (live r)).

(** [Middleware]: what becomes of a request.  An event stream that passes holds its
    connection under the key until its handler ends, which calls [releaseLive]. *)
Inductive verdict : Type := Unlimited | Passed (key : string) | Streaming (key : string) | Refused (retry : Z).
Definition Middleware (now : Z) (q : Incoming) (r : RateLimiter) : verdict * RateLimiter :=
  let '(class, limit, window, stream) := classify r (Method q) (Path q) in
  if String.eqb class "" then (Unlimited, r) else
  let key := class +:+ ":" +:+ clientIdentity q in
  if (stream : bool) then
    let '(ok, r') := acquireLive key r in if (ok : bool) then (Streaming key, r') else (Refused 1, r')
  else
    let '((allowed, retry), r') := allow now key limit window r in
    if negb (allowed : bool) then (Refused retry, r') else (Passed key, r').
End Limiter.

(** ** The server *)

Definition classes : list string := ["auth"; "manual"; "invite"; "report"; "mutation"].
(** Limit and window of a class. *)
Definition class_limit (l : RateLimits) (class : string) : Z :=
  if String.eqb class "auth" then AuthPerMinute l else if String.eqb class "manual" then ManualPerMinute l
  else if String.eqb class "invite" then InvitesPerHour l else if String.eqb class "report" then ReportsPerMinute l
  else MutationsPerMinute l.
Definition class_window (class : string) : Z := if String.eqb class "invite" then hour else minute.
Definition bucket_key (class client : string) : string := class +:+ ":" +:+ client.

Record Server : Type := mkServer {
  limiter : RateLimiter;
  clock : Z;                      (* the last reading of the clock *)
  streams : list string;          (* the keys of the open event streams *)
  passed : list (string * Z)      (* the requests the buckets let pass: key and time, last first *)
}.

Section Server.
Context {P : Primitives}.

Definition arrive (now : Z) (q : Incoming) (s : Server) : verdict * Server :=
  let '(v, r) := Middleware now q (limiter s) in
  (v, mkServer r now
        (match v with Streaming key => key :: streams s | _ => streams s end)
        (match v with Passed key => (key, now) :: passed s | _ => passed s end)).

(** The clock of the process is monotonic. *)
Inductive server_step (s : Server) : Server -> Prop :=
| step_arrive now q : clock s <= now -> server_step s (arrive now q s).2
| step_end before key after : streams s = before ++ key :: after ->
    server_step s (mkServer (releaseLive key (limiter s)) (clock s) (before ++ after) (passed s)).

Definition start (l : RateLimits) (now : Z) : Server := mkServer (NewRateLimiter l) now [] [].
Definition reachable (l : RateLimits) (s : Server) : Prop := exists now, 0 < now /\ rtc server_step (start l now) s.
End Server.

(** Requests of the bucket that passed in the interval from [a] up to [b]. *)
Definition passed_in (key : string) (a b : Z) (log : list (string * Z)) : Z :=
  Z.of_nat (List.length (filter (fun x => x.1 = key /\ a <= x.2 < b) log)).

(** ** Classes *)

Lemma key_class c c' x x' : c ∈ classes -> c' ∈ classes -> bucket_key c x = bucket_key c' x' -> c = c'.
Proof.
  unfold classes, bucket_key. rewrite !elem_of_cons, !elem_of_nil.
  intros [->|[->|[->|[->|[->|[]]]]]] [->|[->|[->|[->|[->|[]]]]]]; (done || (intros He; lazy in He; discriminate He)).
Qed.

Definition cases_of (r : RateLimiter) (method path : string) : Prop :=
  match classify r method path with
  | (class, limit, window, stream) =>
      class = "" \/ (class = "live" /\ stream = true) \/
      (class ∈ classes /\ stream = false /\ limit = class_limit (limits r) class /\ window = class_window class)
  end.
Lemma classify_cases r method path : cases_of r method path.
Proof.
  unfold cases_of, classify.
  repeat match goal with |- context [if ?b then _ else _] => destruct b end; auto; right; right;
    (split; [by apply (bool_decide_unpack _)|by repeat split]).
Qed.

Lemma new_limits l : let r := NewRateLimiter l in forall class, 1 <= class_limit (limits r) class /\ 1 <= LiveConnections (limits r).
Proof. simpl. intros class. unfold class_limit, at_least_one. simpl. repeat case_match; lia. Qed.

Lemma class_window_bounds class : second <= class_window class <= hour.
Proof. unfold class_window, hour, minute, second. case_match; lia. Qed.

(** ** Counting *)

Lemma passed_in_cons key a b k t log :
  passed_in key a b ((k, t) :: log) = (if bool_decide (k = key /\ a <= t < b) then 1 else 0) + passed_in key a b log.
Proof. unfold passed_in. rewrite filter_cons. simpl. case_decide; case_bool_decide; simpl; try done; lia. Qed.

Ltac counts := rewrite ?passed_in_cons; repeat case_bool_decide; destruct_and?; subst; try lia; exfalso; intuition lia.

Lemma passed_in_nonneg key a b log : 0 <= passed_in key a b log.
Proof. unfold passed_in. lia. Qed.

Lemma passed_in_split key a b c log : passed_in key a b log <= passed_in key a c log + passed_in key c b log.
Proof. induction log as [|[k t] log IH]; [done|]. counts. Qed.

Lemma passed_in_mono key a b a' b' log : (forall k t, (k, t) ∈ log -> a <= t < b -> a' <= t < b') ->
  passed_in key a b log <= passed_in key a' b' log.
Proof.
  induction log as [|[k t] log IH]; intros H; [done|].
  specialize (IH (fun k t Hin => H k t (list_elem_of_further _ _ _ Hin))). specialize (H k t (list_elem_of_here _ _)). counts.
Qed.

Lemma passed_in_none key a b log : (forall k t, (k, t) ∈ log -> ~ (a <= t < b)) -> passed_in key a b log = 0.
Proof.
  intros H. pose proof (passed_in_mono key a b 0 0 log (fun k t Hin Hr => False_ind _ (H k t Hin Hr))) as Hm.
  assert (passed_in key 0 0 log = 0) as Hz; [|pose proof (passed_in_nonneg key a b log); lia].
  clear. induction log as [|[k t] log IH]; [done|]. rewrite passed_in_cons, IH. case_bool_decide; lia.
Qed.

(** ** Invariants

    Of one bucket with limit [limit] and window [window], after the requests [log] for the
    key: the bucket counts the requests since it started, all of which are within its window;
    before it started, less than a window back, at most the limit passed; and no interval as
    long as the window has more than twice the limit. *)

Definition bucket_state (key : string) (limit window now : Z) (log : list (string * Z)) (b : rateBucket) : Prop :=
  0 < started b <= now /\ count b <= limit /\
  count b = passed_in key (started b) (now + 1) log /\
  passed_in key (started b + window) (now + 1) log = 0 /\
  passed_in key (started b - window + 1) (started b) log <= limit.

Record bucket_inv (key : string) (limit window now : Z) (log : list (string * Z)) (b : option rateBucket) : Prop := {
  bi_bucket : match b with None => passed_in key 0 (now + 1) log = 0 | Some b => bucket_state key limit window now log b end;
  bi_bound t : passed_in key t (t + window) log <= 2 * limit
}.

Definition times_ok (now : Z) (log : list (string * Z)) : Prop := forall k t, (k, t) ∈ log -> 0 < t <= now.

(** Time passes. *)
Lemma bucket_waits key limit window now now' log b : times_ok now log -> now <= now' ->
  bucket_inv key limit window now log b -> bucket_inv key limit window now' log b.
Proof.
  intros Ht Hn [Hb Hbound]. split; [|done].
  assert (forall a, passed_in key a (now' + 1) log = passed_in key a (now + 1) log) as He.
  { intros a. apply Z.le_antisymm; apply passed_in_mono; intros k t Hin; specialize (Ht k t Hin); lia. }
  destruct b as [b|]; [|by rewrite He]. destruct Hb as (Hs & Hl & Hc & Hw & Hp). unfold bucket_state. rewrite !He. repeat split; try done; lia.
Qed.

(** Requests of other keys. *)
Lemma bucket_others key k t limit window now log b : k <> key ->
  bucket_inv key limit window now log b -> bucket_inv key limit window now ((k, t) :: log) b.
Proof.
  intros Hk [Hb Hbound].
  assert (forall a c, passed_in key a c ((k, t) :: log) = passed_in key a c log) as He.
  { intros a c. rewrite passed_in_cons. case_bool_decide; [by destruct_and?|lia]. }
  split; [|intros u; by rewrite He]. destruct b as [b|]; [|by rewrite He]. unfold bucket_state. by rewrite !He.
Qed.

Lemma window_elapsed now s window : window <= hour -> 0 < s <= now -> (window <=? time_sub now s) = (window <=? now - s).
Proof. intros Hw Hs. unfold time_sub, max_int64, min_int64, hour, minute, second in *. apply eq_true_iff_eq. rewrite !Z.leb_le. lia. Qed.

Lemma not_zero_time s : 0 < s -> is_zero_time s = false.
Proof. intros Hs. unfold is_zero_time, zero_time, second. apply Z.eqb_neq. lia. Qed.

(** The bucket a request finds is within its window. *)
Definition open_bucket (key : string) (limit window now : Z) (log : list (string * Z)) (b : rateBucket) : Prop :=
  0 < started b <= now /\ now < started b + window /\ count b = passed_in key (started b) (now + 1) log /\
  passed_in key (started b - window + 1) (started b) log <= limit.

Lemma fresh_bucket key limit window now log b : 0 < window -> 0 < now -> 0 <= limit -> times_ok now log ->
  match b with None => passed_in key 0 (now + 1) log = 0 | Some b => bucket_state key limit window now log b /\ window <= now - started b end ->
  open_bucket key limit window now log (mkBucket now 0).
Proof.
  intros Hw Hn Hl Ht Hb. unfold open_bucket. simpl. split; [lia|]. split; [lia|]. destruct b as [b|].
  - destruct Hb as [(Hs & Hcl & Hc & Hwin & Hp) Hold]. split.
    + pose proof (passed_in_nonneg key now (now + 1) log).
      pose proof (passed_in_mono key now (now + 1) (started b + window) (now + 1) log ltac:(intros; lia)). lia.
    + etrans; [|exact Hcl]. rewrite Hc. apply passed_in_mono. intros; lia.
  - assert (forall a c, c <= now + 1 -> passed_in key a c log = 0) as Hz; [|rewrite !Hz; lia].
    intros a c Hc. apply Z.le_antisymm; [|apply passed_in_nonneg]. rewrite <- Hb. apply passed_in_mono. intros k t Hin Hr. specialize (Ht k t Hin). lia.
Qed.

Lemma bucket_push key limit window now log b : 0 < window -> times_ok now log ->
  open_bucket key limit window now log b -> count b < limit -> (forall t, passed_in key t (t + window) log <= 2 * limit) ->
  bucket_inv key limit window now ((key, now) :: log) (Some (mkBucket (started b) (count b + 1))).
Proof.
  intros Hw Ht (Hs & Hopen & Hc & Hp) Hlt Hbound.
  assert (passed_in key (started b) (now + 1) ((key, now) :: log) = count b + 1) as Hc' by counts.
  assert (passed_in key (started b - window + 1) (started b) ((key, now) :: log) <= limit) as Hp' by counts.
  split.
  - unfold bucket_state. simpl. split; [lia|]. split; [lia|]. split; [done|]. split; [|done].
    rewrite passed_in_cons, bool_decide_eq_false_2 by lia. rewrite passed_in_none; [done|]. intros k t Hin. specialize (Ht k t Hin). lia.
  - intros t. destruct (Z_le_gt_dec (t + window) (started b)) as [Hbefore|Hover].
    + rewrite passed_in_cons, bool_decide_eq_false_2 by lia. apply Hbound.
    + etrans; [apply (passed_in_split _ _ _ (started b))|].
      assert (passed_in key t (started b) ((key, now) :: log) <= passed_in key (started b - window + 1) (started b) ((key, now) :: log))
        by (apply passed_in_mono; intros; lia).
      assert (passed_in key (started b) (t + window) ((key, now) :: log) <= passed_in key (started b) (now + 1) ((key, now) :: log)); [|lia].
      apply passed_in_mono. intros k u [[= -> ->]|Hin]%elem_of_cons Hr; [lia|]. specialize (Ht k u Hin). lia.
Qed.

(** A request that passes keeps the invariant; one that is turned away finds the limit used up
    within the window, and the bucket over when it was told to come back. *)
Lemma allow_ok key limit window now log r : window <= hour -> 0 < window -> 0 < now -> 1 <= limit -> times_ok now log ->
  bucket_inv key limit window now log (buckets r !! key) ->
  match allow now key limit window r with
  | ((true, _), r') => limits r' = limits r /\ live r' = live r /\ (forall k, k <> key -> buckets r' !! k = buckets r !! k) /\
      bucket_inv key limit window now ((key, now) :: log) (buckets r' !! key)
  | ((false, retry), r') => r' = r /\ limit <= passed_in key (now - window + 1) (now + 1) log /\
      exists b, buckets r !! key = Some b /\ 0 < started b <= now /\ now < started b + window <= now + retry * second
  end.
Proof.
  intros Hw Hw0 Hn Hl Ht [Hb Hbound]. unfold allow.
  assert (forall b, open_bucket key limit window now log b -> count b < limit ->
    let r' := mkLimiter (limits r) (<[key := mkBucket (started b) (count b + 1)]> (buckets r)) (live r) in
    limits r' = limits r /\ live r' = live r /\ (forall k, k <> key -> buckets r' !! k = buckets r !! k) /\
    bucket_inv key limit window now ((key, now) :: log) (buckets r' !! key)) as Hpush.
  { intros b Hopen Hlt. simpl. repeat (split; [done|]). split; [intros k Hk; by rewrite lookup_insert_ne|].
    rewrite lookup_insert_eq. by apply bucket_push. }
  destruct (buckets r !! key) as [b|] eqn:Eb; simpl.
  - pose proof Hb as (Hs & Hcl & Hc & Hwin & Hp). rewrite not_zero_time by lia. simpl. rewrite window_elapsed by lia.
    destruct (Z.leb_spec window (now - started b)) as [Hold|Hnew].
    + simpl. destruct (Z.leb_spec limit 0) as [|_]; [lia|]. apply (Hpush (mkBucket now 0)); [|simpl; lia]. apply (fresh_bucket _ _ _ _ _ (Some b)); [done..|lia|done|done].
    + destruct (Z.leb_spec limit (count b)) as [Hfull|Hlt].
      * split; [done|]. split; [rewrite Hc in Hfull; etrans; [exact Hfull|]; apply passed_in_mono; intros; lia|].
        exists b. split; [done|]. split; [done|]. split; [lia|]. rewrite time_sub_exact by (unfold min_int64, max_int64, hour, minute, second in *; lia).
        unfold ceil_seconds, second in *. zcases; Z.to_euclidean_division_equations; lia.
      * apply Hpush; [|done]. repeat split; try done; lia.
  - destruct (Z.leb_spec limit 0) as [|_]; [lia|]. apply (Hpush (mkBucket now 0)); [|simpl; lia]. by apply (fresh_bucket _ _ _ _ _ None); [..|lia| |].
Qed.

(** ** The server keeps the invariants *)

Record server_inv (l : RateLimits) (s : Server) : Prop := {
  si_limits : limits (limiter s) = l;
  si_clock : 0 < clock s;
  si_times : times_ok (clock s) (passed s);
  si_buckets class client : class ∈ classes ->
    bucket_inv (bucket_key class client) (class_limit l class) (class_window class) (clock s) (passed s)
      (buckets (limiter s) !! bucket_key class client);
  si_streams key : live (limiter s) !! key =
    match count_occ string_dec (streams s) key with O => None | S n => Some (Z.of_nat (S n)) end;
  si_bound key : Z.of_nat (count_occ string_dec (streams s) key) <= LiveConnections l
}.

(** Limits as [NewRateLimiter] leaves them. *)
Definition limits_ok (l : RateLimits) : Prop := (forall class, 1 <= class_limit l class) /\ 1 <= LiveConnections l.

Lemma new_limits_ok l : limits_ok (limits (NewRateLimiter l)).
Proof. unfold limits_ok. simpl. unfold class_limit, at_least_one. simpl. split; [intros class|]; repeat case_match; lia. Qed.

Lemma start_inv l now : 0 < now -> server_inv (limits (NewRateLimiter l)) (start l now).
Proof.
  intros Hn. pose proof (new_limits_ok l) as [Hl Hlive]. split; [done|done| | | |].
  - intros k t Hin. by apply elem_of_nil in Hin.
  - intros class client _. cbn [start limiter buckets NewRateLimiter]. rewrite lookup_empty. split; [done|]. intros t. specialize (Hl class).
    change (0 <= 2 * class_limit (limits (NewRateLimiter l)) class). lia.
  - intros key. apply lookup_empty.
  - intros key. change (0 <= LiveConnections (limits (NewRateLimiter l))). lia.
Qed.

Lemma clock_moves l now s : clock s <= now -> server_inv l s -> server_inv l (mkServer (limiter s) now (streams s) (passed s)).
Proof.
  intros Hn [Hl Hc Ht Hb Hst Hbd]. split; simpl; try done; [lia|intros k t Hin; specialize (Ht k t Hin); lia|].
  intros class client Hclass. eapply bucket_waits; [exact Ht|done|by apply Hb].
Qed.

Lemma acquired l key s : limits_ok l -> server_inv l s ->
  match acquireLive key (limiter s) with
  | (true, r') => server_inv l (mkServer r' (clock s) (key :: streams s) (passed s))
  | (false, r') => r' = limiter s /\ count_occ string_dec (streams s) key = Z.to_nat (LiveConnections l)
  end.
Proof.
  intros [_ Hlive] [Hl Hc Ht Hb Hst Hbd]. unfold acquireLive. rewrite Hl.
  assert (default 0 (live (limiter s) !! key) = Z.of_nat (count_occ string_dec (streams s) key)) as Hcount by (rewrite Hst; by case_match).
  rewrite Hcount. destruct (Z.leb_spec (LiveConnections l) (Z.of_nat (count_occ string_dec (streams s) key))) as [Hfull|Hfree].
  - split; [done|]. specialize (Hbd key). lia.
  - split; simpl; try done.
    + intros k. destruct (string_dec key k) as [<-|Hk]; [rewrite lookup_insert_eq; f_equal; lia|by rewrite lookup_insert_ne].
    + intros k. specialize (Hbd k). destruct (string_dec key k) as [<-|Hk]; lia.
Qed.

Lemma released l key before after s : streams s = before ++ key :: after -> server_inv l s ->
  server_inv l (mkServer (releaseLive key (limiter s)) (clock s) (before ++ after) (passed s)).
Proof.
  intros Hs [Hl Hc Ht Hb Hst Hbd].
  assert (forall k, count_occ string_dec (streams s) k = ((if string_dec key k then 1 else 0) + count_occ string_dec (before ++ after) k)%nat) as Hcount.
  { intros k. rewrite Hs, !count_occ_app. simpl. destruct (string_dec key k); lia. }
  split; simpl; try done.
  - intros k. pose proof (Hst key) as Hkey. rewrite (Hcount key) in Hkey. destruct (string_dec key key) as [_|]; [|done]. simpl in Hkey.
    rewrite Hkey. simpl. destruct (string_dec key k) as [<-|Hk].
    + destruct (count_occ string_dec (before ++ after) key) as [|n] eqn:En; zcases; [by rewrite lookup_delete_eq|rewrite lookup_insert_eq; f_equal; lia].
    + specialize (Hst k). rewrite Hcount in Hst. destruct (string_dec key k); [done|]. simpl in Hst. rewrite <- Hst.
      destruct (Z.leb _ _); [by rewrite lookup_delete_ne|by rewrite lookup_insert_ne].
  - intros k. specialize (Hbd k). rewrite Hcount in Hbd. lia.
Qed.

Lemma pushed l class client now r' s : class ∈ classes -> server_inv l s -> clock s = now ->
  limits r' = limits (limiter s) -> live r' = live (limiter s) ->
  (forall k, k <> bucket_key class client -> buckets r' !! k = buckets (limiter s) !! k) ->
  bucket_inv (bucket_key class client) (class_limit l class) (class_window class) now ((bucket_key class client, now) :: passed s)
    (buckets r' !! bucket_key class client) ->
  server_inv l (mkServer r' now (streams s) ((bucket_key class client, now) :: passed s)).
Proof.
  intros Hclass [Hl Hc Ht Hb Hst Hbd] <- Hr Hlv Hoth Hnew. split; simpl; try done; [congruence| | |by rewrite Hlv].
  - intros k t [[= _ ->]|Hin]%elem_of_cons; [lia|by apply (Ht k)].
  - intros c x Hcl. destruct (decide (bucket_key c x = bucket_key class client)) as [He|Hne].
    + rewrite He. assert (c = class) as -> by (by eapply key_class). done.
    + rewrite Hoth by done. apply bucket_others; [congruence|by apply Hb].
Qed.

Section Steps.
Context {P : Primitives}.

Lemma arrive_inv l now q s : limits_ok l -> clock s <= now -> server_inv l s -> server_inv l (arrive now q s).2.
Proof.
  intros Hok Hn Hi. apply (clock_moves l now) in Hi; [|done]. set (s0 := mkServer (limiter s) now (streams s) (passed s)) in Hi.
  unfold arrive, Middleware. pose proof (classify_cases (limiter s) (Method q) (Path q)) as Hcases. unfold cases_of in Hcases.
  destruct (classify (limiter s) (Method q) (Path q)) as [[[class limit] window] stream].
  destruct Hcases as [-> |[[-> ->]|(Hclass & -> & -> & ->)]]; [exact Hi| |].
  - simpl. pose proof (acquired l ("live" +:+ ":" +:+ clientIdentity q) s0 Hok Hi) as Ha.
    change (limiter s0) with (limiter s) in Ha. destruct (acquireLive _ (limiter s)) as [[] r']; simpl; [exact Ha|]. destruct Ha as [-> _]. exact Hi.
  - destruct (String.eqb_spec class "") as [-> |_]; [exact Hi|]. simpl. fold (bucket_key class (clientIdentity q)).
    pose proof (class_window_bounds class) as [Hw0 Hw]. destruct Hok as [Hok _].
    pose proof (allow_ok (bucket_key class (clientIdentity q)) (class_limit l class) (class_window class) now (passed s) (limiter s) Hw
      ltac:(unfold second in *; lia) (si_clock _ _ Hi) (Hok class) (si_times _ _ Hi) (si_buckets _ _ Hi class (clientIdentity q) Hclass)) as Ha.
    pose proof (si_limits _ _ Hi) as Hl. simpl in Hl. rewrite Hl.
    destruct (allow _ _ _ _ _) as [[[] retry] r']; simpl; [|destruct Ha as [-> _]; exact Hi].
    destruct Ha as (Hr & Hlv & Hoth & Hnew). by apply (pushed l class (clientIdentity q) now r' s0).
Qed.

Lemma reachable_inv l s : reachable l s -> server_inv (limits (NewRateLimiter l)) s.
Proof.
  intros (now & Hn & Hrun). pose proof (start_inv l now Hn) as Hi. induction Hrun as [s|s s1 s2 Hs _ IH]; [done|]. apply IH.
  destruct Hs as [t q Ht|before key after Hs]; [apply arrive_inv; [apply new_limits_ok|done..]|by apply released].
Qed.
End Steps.

(** ** The promises of the limiter *)

Section Promises.
Context {P : Primitives}.

(** C20: in no interval as long as the window of a class do more requests of a client pass than
    twice the limit of the class (a fixed window allows the limit on each side of a reset). *)
Theorem rate_bound l s class client t : reachable l s -> class ∈ classes ->
  passed_in (bucket_key class client) t (t + class_window class) (passed s)
    <= 2 * class_limit (limits (NewRateLimiter l)) class.
Proof. intros Hr Hc. by apply (bi_bound _ _ _ _ _ _ (si_buckets _ _ (reachable_inv l s Hr) class client Hc)). Qed.

(** The counters of open event streams are exact, no client has more open than the limit, and
    no counter stays behind when the last one ends. *)
Theorem streams_bound l s key : reachable l s ->
  let n := Z.of_nat (count_occ string_dec (streams s) key) in
  n <= LiveConnections (limits (NewRateLimiter l)) /\
  live (limiter s) !! key = (if n =? 0 then None else Some n).
Proof.
  intros Hr. apply reachable_inv in Hr. split; [apply (si_bound _ _ Hr)|]. rewrite (si_streams _ _ Hr key). by destruct (count_occ _ _ _).
Qed.

Lemma classified q (s : Server) l class limit window : limits (limiter s) = limits (NewRateLimiter l) ->
  classify (limiter s) (Method q) (Path q) = (class, limit, window, false) -> class <> "" ->
  class ∈ classes /\ limit = class_limit (limits (NewRateLimiter l)) class /\ window = class_window class.
Proof.
  intros Hl Hc Hne. pose proof (classify_cases (limiter s) (Method q) (Path q)) as H. unfold cases_of in H. rewrite Hc, Hl in H.
  destruct H as [?|[[_ ?]|(? & _ & ? & ?)]]; done.
Qed.

(** A request is turned away only when its client used up the limit within the last window,
    and the same request passes once the announced seconds are over. *)
Theorem refusal_justified l s now later q class limit window retry : reachable l s -> clock s <= now ->
  classify (limiter s) (Method q) (Path q) = (class, limit, window, false) ->
  (arrive now q s).1 = Refused retry -> now + retry * second <= later ->
  limit <= passed_in (bucket_key class (clientIdentity q)) (now - window + 1) (now + 1) (passed s) /\
  (arrive later q (arrive now q s).2).1 = Passed (bucket_key class (clientIdentity q)).
Proof.
  intros Hr Hn Hc Hv Hlater. apply reachable_inv in Hr. pose proof (clock_moves _ now s Hn Hr) as Hi.
  pose proof (si_limits _ _ Hr) as Hl. pose proof (new_limits_ok l) as [Hok _]. revert Hv. unfold arrive, Middleware. rewrite Hc.
  destruct (String.eqb_spec class "") as [-> |Hne]; [done|]. fold (bucket_key class (clientIdentity q)).
  destruct (classified q s l class limit window Hl Hc Hne) as (Hclass & -> & ->). set (key := bucket_key class (clientIdentity q)).
  pose proof (class_window_bounds class) as [Hw0 Hw]. clear Hl. generalize dependent (limits (NewRateLimiter l)). intros lim Hr Hc Hi Hok.
  pose proof (allow_ok key (class_limit lim class) (class_window class) now (passed s) (limiter s) Hw
    ltac:(unfold second in *; lia) (si_clock _ _ Hi) (Hok class) (si_times _ _ Hi) (si_buckets _ _ Hi class (clientIdentity q) Hclass)) as Ha.
  destruct (allow _ _ _ _ _) as [[[] rt] r']; [done|]. simpl. destruct Ha as (-> & Hused & b & Hb & Hs & Hover). intros [= ->].
  split; [done|]. rewrite Hc. destruct (String.eqb_spec class "") as [|_]; [done|]. fold (bucket_key class (clientIdentity q)). fold key.
  unfold allow. rewrite Hb. simpl. rewrite not_zero_time by lia. simpl. rewrite window_elapsed by (unfold second in *; lia).
  destruct (Z.leb_spec (class_window class) (later - started b)); [|lia]. simpl.
  specialize (Hok class). destruct (Z.leb_spec (class_limit lim class) 0); [lia|]. done.
Qed.

(** The identity of a caller of the authentication endpoints does not depend on the
    Authorization header. *)
Lemma auth_ignores_bearer q header : has_prefix (Path q) "/api/v1/auth/" = true ->
  clientIdentity (mkIncoming (Method q) (Path q) header (RefreshCookie q) (RemoteAddr q)) = clientIdentity q.
Proof. intros Hp. unfold clientIdentity. simpl. by rewrite Hp. Qed.

(** But the cookie is the caller's too: a made-up value whose digest has no bucket yet passes,
    however many attempts its address has made. *)
Theorem cookie_selects_bucket now q value s : 1 <= AuthPerMinute (limits (limiter s)) ->
  Path q = "/api/v1/auth/login" -> RefreshCookie q = Some value -> value <> "" ->
  buckets (limiter s) !! bucket_key "auth" ("refresh:" +:+ identityDigest value) = None ->
  (arrive now q s).1 = Passed (bucket_key "auth" ("refresh:" +:+ identityDigest value)).
Proof.
  intros Hl Hp Hv Hne Hb. unfold arrive, Middleware.
  assert (classify (limiter s) (Method q) (Path q) = ("auth", AuthPerMinute (limits (limiter s)), minute, false)) as -> by (rewrite Hp; reflexivity).
  assert (clientIdentity q = "refresh:" +:+ identityDigest value) as ->.
  { unfold clientIdentity. rewrite Hv. apply String.eqb_neq in Hne. by rewrite Hne. }
  change (String.eqb "auth" "") with false. cbv iota. fold (bucket_key "auth" ("refresh:" +:+ identityDigest value)).
  unfold allow. rewrite Hb. simpl. destruct (Z.leb_spec (AuthPerMinute (limits (limiter s))) 0); [lia|]. done.
Qed.
End Promises.

(** ** Two log-ins and two event streams, one of each allowed *)

Module OneClient.
#[export] Existing Instance Toy.primitives.
Definition l : RateLimits := mkLimits 1 0 0 0 0 1.
Definition login : Incoming := mkIncoming "POST" "/api/v1/auth/login" "" None "192.0.2.7:4711".
Definition stream : Incoming := mkIncoming "GET" "/api/v1/environments/e/events" "" None "192.0.2.7:4711".
Definition s0 : Server := start l 1.
Definition s1 : Server := (arrive second login s0).2.
Definition s2 : Server := (arrive (2 * second) stream s1).2.

Lemma s1_reachable : reachable l s1.
Proof. exists 1. split; [lia|]. apply rtc_once, step_arrive. unfold s0, second. simpl. lia. Qed.
Lemma s1_clock : clock s1 = second.
Proof. vm_compute. reflexivity. Qed.
Lemma s2_reachable : reachable l s2.
Proof.
  exists 1. split; [lia|]. eapply rtc_l; [apply (step_arrive _ second login); unfold second; simpl; lia|]. apply rtc_once.
  apply step_arrive. fold s0 s1. rewrite s1_clock. unfold second. lia.
Qed.
End OneClient.
Import OneClient.

Lemma rate_bound_witness : passed_in (bucket_key "auth" "address:192.0.2.7") 0 (0 + class_window "auth") (passed s1) <= 2 * 1.
Proof. apply (rate_bound l s1 "auth" "address:192.0.2.7" 0 s1_reachable). left. Defined.

Lemma streams_bound_witness : live (limiter s2) !! "live:address:192.0.2.7" = Some 1.
Proof. destruct (streams_bound l s2 "live:address:192.0.2.7" s2_reachable) as [_ H]. rewrite H. vm_compute. reflexivity. Defined.

Lemma refusal_justified_witness :
  (arrive (31 * second) login s1).1 = Refused 30 /\
  (arrive (61 * second) login (arrive (31 * second) login s1).2).1 = Passed (bucket_key "auth" (clientIdentity login)).
Proof.
  split; [vm_compute; reflexivity|].
  refine (proj2 (refusal_justified l s1 (31 * second) (61 * second) login "auth" 1 minute 30 s1_reachable _ _ _ _)).
  - rewrite s1_clock. unfold second. lia.
  - vm_compute. reflexivity.
  - vm_compute. reflexivity.
  - unfold second. lia.
Defined.
