(* ===== verification/Views.v ===== *)
(** * Read models of the API (src/internal/backendapi)

    The pages of checks and incidents with their cursors, the report of a monitor, the
    dashboard of an environment and the summary of an incident, with the queries of
    backend.sql.go.  [ViewDB] adds to the tables the column invalidated_at of
    monitor_rollup_invalidations.  PostgreSQL's cast of a text to uuid ([uuid_in]), the parser
    of github.com/google/uuid ([uuid_Parse]) and the parser of general time layouts
    ([general]) are parameters.  Averages are exact rationals.

    The theorems: a cursor is read back as it was made; following the cursors of ListChecks
    or ListIncidents visits every row of the query exactly once, newest first, and ends; no
    read changes the database or answers a user who is not a member; the dashboard of an environment adds up the reports of its monitors. *)

From stdpp Require Import base gmap list strings sorting.
From Stdlib Require Import ZArith Lia Ascii String Bool QArith.
From S2P Require Import Prelude Tx Store Bytes Reliability Authorization Incident Monitors Ownership Credentials Rollups Rfc3339.

Record ViewDB : Type := mkViewDB {
  config : ConfigDB;
  invalidated_at : gmap (string * bucket_kind * Z) Z
}.
Definition tables_of (d : ViewDB) : DB := engine (config d).

Definition ErrNotFound : error := ErrorsNew "resource not found".
Definition ErrPermission : error := ErrorsNew "permission denied".
Definition ErrInvalidQuery : error := ErrorsNew "invalid bounded query".

Record PageQuery : Type := mkQuery { q_Limit : Z; q_From : Z; q_To : Z; q_Cursor : string; q_Status : string; q_JobType : string }.
Definition with_cursor (c : string) (q : PageQuery) : PageQuery := mkQuery (q_Limit q) (q_From q) (q_To q) c (q_Status q) (q_JobType q).

Record Check : Type := mkCheck {
  ck_JobID : string; ck_JobType : string; ck_ScheduledAt : Z; ck_StartedAt : Z; ck_CompletedAt : Z; ck_Succeeded : bool;
  ck_StatusCode : option Z; ck_ErrorCategory : option string; ck_TotalDurationMicroseconds : Z
}.
Record Page (A : Type) : Type := mkPage { Items : list A; NextCursor : option string }.
Arguments mkPage {A}. Arguments Items {A}. Arguments NextCursor {A}.
Record MonitorView : Type := mkMonitorView {
  mv_From : Z; mv_To : Z; mv_Report : Report; mv_AverageLatencyMilliseconds : option Q; mv_Fresh : bool; mv_CorrectedAt : option Z
}.
Record StateCounts : Type := mkStateCounts { sc_Healthy : Z; sc_Degraded : Z; sc_Down : Z; sc_Unknown : Z }.
Record DashboardView : Type := mkDashboard { d_States : StateCounts; d_Reliability : MonitorView; d_OpenIncidents : Z; d_GeneratedAt : Z }.
Record Delivery : Type := mkDelivery {
  dl_ID : string; dl_Transition : string; dl_State : delivery_state; dl_Attempts : Z; dl_NextAttemptAt : Z;
  dl_ProviderStatus : option string; dl_AcceptedAt : option Z; dl_FailedAt : option Z
}.
Record IncidentSummary : Type := mkSummary { is_Incident : IncidentRow; is_Events : list (string * IncidentEvent); is_Deliveries : list Delivery }.

(** ** Cursors *)

Section Cursors.
Context (uuid_Parse : string -> bool) (general : string -> option Z).

Definition encodeCursor (at_ : Z) (id : string) : string := rawurl_encode (Format at_ +:+ "|" +:+ id).
Definition decodeCursor (value : string) : option (Z * string) :=
  raw ← rawurl_decode value;
  match split_char "|" raw with
  | [at_; id] => if negb (slen id =? 36) then None else if negb (uuid_Parse id) then None else (fun t => (t, id)) <$> Parse general at_
  | _ => None
  end.
End Cursors.

(** An instant that is valid in the database, [databaseTimestamp]. *)
Definition databaseTimestamp (t : Z) : option Z := if is_zero_time t then None else Some t.

(** [now] and [now'] are the two readings of the clock. *)
Definition normalizeQuery (now now' maxWindow : Z) (q : PageQuery) : option PageQuery :=
  let limit := if q_Limit q =? 0 then 50 else q_Limit q in
  if (limit <? 1) || (100 <? limit) then None else
  let from := if is_zero_time (q_From q) then time_add now (- (24 * hour)) else q_From q in
  let to := if is_zero_time (q_To q) then now' else q_To q in
  if negb (after to from) || (maxWindow <? time_sub to from) then None
  else Some (mkQuery limit from to (q_Cursor q) (q_Status q) (q_JobType q)).

(** ** Queries *)

Definition job_type_text (t : job_type) : string := match t with Scheduled => "scheduled" | ManualTest => "manual_test" end.
Definition status_text (s : incident_status) : string := match s with IOpen => "open" | IResolved => "resolved" end.

(** [(at, id) < (cursor_at, cursor_id)]; a comparison with NULL selects nothing. *)
Definition before_cursor (cursor : option (option Z * string)) (k : slot_key) : Prop :=
  match cursor with
  | None => True
  | Some (Some t, id) => key_lt k (t, id)
  | Some (None, _) => False
  end.
#[global] Instance before_cursor_dec c k : Decision (before_cursor c k).
Proof. unfold before_cursor. destruct c as [[[t|] id]|]; apply _. Defined.
(** [at >= from AND at < to], false when a bound is NULL. *)
Definition in_window (from to : option Z) (t : Z) : Prop :=
  match from, to with Some a, Some b => a <= t < b | _, _ => False end.
#[global] Instance in_window_dec from to t : Decision (in_window from to t).
Proof. unfold in_window. destruct from, to; apply _. Defined.

(** [ORDER BY at DESC, id DESC LIMIT n]. *)
Definition newest {A} (n : Z) (rows : list (slot_key * A)) : list (slot_key * A) := take (Z.to_nat n) (reverse (order_by_key rows)).

Definition check_rows (monitor : string) (from to : option Z) (jobType : string) (d : DB) : list (slot_key * HealthCheck) :=
  (fun x => ((hc_scheduled_at x.2, x.1), x.2)) <$>
    filter (fun x => hc_monitor_id x.2 = monitor /\ in_window from to (hc_scheduled_at x.2) /\
                     (jobType = "" \/ job_type_text (hc_job_type x.2) = jobType)) (map_to_list (health_checks d)).
Definition incident_rows (env : string) (from to : option Z) (status : string) (d : DB) : list (slot_key * IncidentRow) :=
  (fun x => ((inc_opened_at x.2, x.1), x.2)) <$>
    filter (fun x => inc_environment_id x.2 = env /\ in_window from to (inc_opened_at x.2) /\
                     (status = "" \/ status_text (inc_status x.2) = status)) (map_to_list (incidents d)).

Definition monitor_role (user env monitor : string) (d : ConfigDB) : option (string * Role) :=
  r ← monitors (engine d) !! monitor;
  deleted ← organizations d !! mon_organization_id r;
  m ← org_members (engine d) !! (mon_organization_id r, user);
  if bool_decide (deleted = None /\ mon_environment_id r = env /\ mon_deleted_at r = None)
  then Some (mon_organization_id r, role_text (om_role m)) else None.

Definition overlapping (from to : option Z) (k : string * bucket_kind * Z) : Prop :=
  match from, to with
  | Some a, Some b => k.2 < b /\ a < k.2 + (match k.1.2 with Hourly => hour | Daily => 24 * hour end)
  | _, _ => False
  end.
#[global] Instance overlapping_dec from to k : Decision (overlapping from to k).
Proof. unfold overlapping. destruct from, to; apply _. Defined.
(** [ORDER BY invalidated_at LIMIT 1] of the invalidations of monitors that [P] selects. *)
Definition first_invalidation (P : string -> bool) (from to : option Z) (d : ViewDB) : option Z :=
  head (merge_sort Z.le ((fun x => x.2) <$> filter (fun x => P x.1.1.1 = true /\ overlapping from to x.1) (map_to_list (invalidated_at d)))).

(** The environment of a schedule period is that of its monitor (a foreign key). *)
Definition in_environment (env : string) (d : DB) (monitor : string) : bool :=
  match monitors d !! monitor with Some r => String.eqb (mon_environment_id r) env | None => false end.
Definition slot_checks (m : string) (d : DB) (slot : Z) : list (option HealthCheck) :=
  match filter (fun x => hc_monitor_id x.2 = m /\ hc_job_type x.2 = Scheduled /\ hc_scheduled_at x.2 = slot) (map_to_list (health_checks d)) with
  | [] => [None]
  | rows => (fun x => Some x.2) <$> rows
  end.
Definition environment_rows (env : string) (from to : Z) (d : DB) : list (option HealthCheck) :=
  p ← filter (fun p => in_environment env d (per_monitor_id p) = true) (schedule_periods d);
  slot ← expected_slots from to p;
  slot_checks (per_monitor_id p) d slot.

Definition microseconds (rows : list HealthCheck) : Z := foldr (fun c n => hc_total_duration_microseconds c + n) 0 rows.

(** ** Statements *)

Section Statements.
Context (uuid_in : string -> option string).

Definition id_param {A} (s : string) (q : string -> ViewDB -> res A * ViewDB) (d : ViewDB) : res A * ViewDB :=
  match uuid_in s with Some id => q id d | None => (Err ErrSyntax, d) end.
Definition row_of {A} (q : ViewDB -> option A) (d : ViewDB) : res A * ViewDB := (match q d with Some a => Ok a | None => Err ErrNoRows end, d).
Definition rows_of {A} (q : ViewDB -> A) (d : ViewDB) : res A * ViewDB := (Ok (q d), d).

Definition AuthorizeBackendMonitor (user env monitor : string) : Tx ViewDB (string * Role) := sql (fun _ =>
  id_param user (fun u => id_param env (fun e => id_param monitor (fun m => row_of (fun d => monitor_role u e m (config d)))))).
Definition GetAccessibleEnvironment (user env : string) : Tx ViewDB (string * Role) := sql (fun _ =>
  id_param user (fun u => id_param env (fun e => row_of (fun d => environment_role u e (config d))))).

(** The identifier of a cursor is only cast when there is a cursor. *)
Definition cursor_param {A} (cursor : option (option Z * string)) (q : option (option Z * string) -> ViewDB -> res A * ViewDB) : ViewDB -> res A * ViewDB :=
  match cursor with
  | None => q None
  | Some (t, s) => id_param s (fun id => q (Some (t, id)))
  end.
Definition ListBackendChecks (monitor : string) (from to : option Z) (jobType : string) (cursor : option (option Z * string)) (limit : Z) :
    Tx ViewDB (list (slot_key * HealthCheck)) := sql (fun _ =>
  id_param monitor (fun m => cursor_param cursor (fun c => rows_of (fun d =>
    newest limit (filter (fun x => before_cursor c x.1) (check_rows m from to jobType (tables_of d))))))).
Definition ListBackendIncidents (env : string) (from to : option Z) (status : string) (cursor : option (option Z * string)) (limit : Z) :
    Tx ViewDB (list (slot_key * IncidentRow)) := sql (fun _ =>
  id_param env (fun e => cursor_param cursor (fun c => rows_of (fun d =>
    newest limit (filter (fun x => before_cursor c x.1) (incident_rows e from to status (tables_of d))))))).

Definition GetMonitorLatencyTotals (monitor : string) (from to : option Z) : Tx ViewDB (Z * Z) := sql (fun _ =>
  id_param monitor (fun m => rows_of (fun d =>
    let rows := filter (fun x => hc_job_type x.2 = Scheduled) (check_rows m from to "" (tables_of d)) in
    (Z.of_nat (List.length rows), microseconds rows.*2)))).
Definition GetFirstMonitorRollupInvalidation (monitor : string) (from to : option Z) : Tx ViewDB Z := sql (fun _ =>
  id_param monitor (fun m => row_of (first_invalidation (String.eqb m) from to))).
Definition GetFirstEnvironmentRollupInvalidation (env : string) (from to : option Z) : Tx ViewDB Z := sql (fun _ =>
  id_param env (fun e => row_of (fun d => first_invalidation (in_environment e (tables_of d)) from to d))).

Definition display_state (d : DB) (monitor : string) : observed_state :=
  match reliability_states d !! monitor with Some s => rs_display_state s | None => Unknown end.
Definition live_monitors (env : string) (d : DB) : list string :=
  fst <$> filter (fun x => mon_environment_id x.2 = env /\ mon_deleted_at x.2 = None) (map_to_list (monitors d)).
Definition in_state (s : observed_state) (env : string) (d : DB) : Z :=
  Z.of_nat (List.length (filter (fun m => display_state d m = s) (live_monitors env d))).
Definition GetEnvironmentMonitorStateCounts (env : string) : Tx ViewDB StateCounts := sql (fun _ =>
  id_param env (fun e => rows_of (fun d =>
    mkStateCounts (in_state Healthy e (tables_of d)) (in_state Degraded e (tables_of d)) (in_state Down e (tables_of d)) (in_state Unknown e (tables_of d))))).
Definition CountOpenEnvironmentIncidents (env : string) : Tx ViewDB Z := sql (fun _ =>
  id_param env (fun e => rows_of (fun d =>
    Z.of_nat (List.length (filter (fun x => inc_environment_id x.2 = e /\ inc_status x.2 = IOpen) (map_to_list (incidents (tables_of d)))))))).
(** expected, observed, successful, latency_samples, latency_total_us *)
Definition GetEnvironmentReliability (env : string) (from to : Z) : Tx ViewDB (Z * Z * Z * Z * Z) := sql (fun _ =>
  id_param env (fun e => rows_of (fun d =>
    let rows := environment_rows e from to (tables_of d) in
    let found := omap id rows in
    (Z.of_nat (List.length rows), Z.of_nat (List.length found), Z.of_nat (List.length (filter (fun c => hc_succeeded c = true) found)),
     Z.of_nat (List.length found), microseconds found)))).

Definition ListBackendIncidentEvents (incident : string) : Tx ViewDB (list (string * IncidentEvent)) := sql (fun _ =>
  id_param incident (fun i => rows_of (fun d =>
    (fun x => (x.1.2, x.2)) <$> take 200 (order_by_key ((fun x => ((iev_occurred_at x.2, x.1), x.2)) <$>
      filter (fun x => iev_incident_id x.2 = i) (map_to_list (incident_events (tables_of d)))))))).
Definition delivery_view (x : string * NotificationRow) : Delivery :=
  mkDelivery x.1 (nt_transition x.2) (nt_state x.2) (nt_attempt_count x.2) (nt_next_attempt_at x.2) (nt_last_provider_status x.2)
    (nt_accepted_at x.2) (nt_failed_at x.2).
Definition ListBackendNotificationDeliveries (incident : string) : Tx ViewDB (list Delivery) := sql (fun _ =>
  id_param incident (fun i => rows_of (fun d =>
    (fun x => delivery_view (x.1.2, x.2)) <$> take 200 (order_by_key ((fun x => ((nt_created_at x.2, x.1), x.2)) <$>
      filter (fun x => nt_incident_id x.2 = i) (map_to_list (notification_outbox (tables_of d)))))))).
End Statements.

(** ** The service *)

Section Service.
Context (uuid_in : string -> option string) (uuid_Parse : string -> bool) (general : string -> option Z) {O : Type}.

Definition permitted (permission : Permission) (q : Tx ViewDB (string * Role)) : Tx ViewDB string :=
  row ← or_missing ErrNotFound q;
  if negb (Allows row.2 permission) then throw ErrPermission else mret row.1.
Definition authorizeEnvironment (userID environmentID : string) (permission : Permission) : Tx ViewDB string :=
  permitted permission (GetAccessibleEnvironment uuid_in userID environmentID).
Definition authorizeMonitor (userID environmentID monitorID : string) : Tx ViewDB string :=
  permitted PermissionMonitorsRead (AuthorizeBackendMonitor uuid_in userID environmentID monitorID).

Definition cursor_of (q : PageQuery) : Tx ViewDB (option (option Z * string)) :=
  if String.eqb (q_Cursor q) "" then mret None
  else match decodeCursor uuid_Parse general (q_Cursor q) with
       | Some (t, id) => mret (Some (databaseTimestamp t, id))
       | None => throw ErrInvalidQuery
       end.

(** One row more than the page shows whether there is a next one. *)
Definition page_of {A B} (limit : Z) (view : slot_key * A -> B) (rows : list (slot_key * A)) : Page B :=
  if (Z.to_nat limit <? List.length rows)%nat then
    mkPage (view <$> take (Z.to_nat limit) rows)
      ((fun x => encodeCursor x.1.1 x.1.2) <$> rows !! (Z.to_nat limit - 1)%nat)
  else mkPage (view <$> rows) None.

Definition check_view (x : slot_key * HealthCheck) : Check :=
  let c := x.2 in
  let t := job_type_text (hc_job_type c) in
  mkCheck x.1.2 (if String.eqb t "manual_test" then "manual" else t) (hc_scheduled_at c) (hc_started_at c) (hc_completed_at c)
    (hc_succeeded c) (hc_status_code c) (hc_error_category c) (hc_total_duration_microseconds c).

Definition ListChecks (t now now' : Z) (userID environmentID monitorID : string) (q : PageQuery) : SE (World ViewDB O) (Page Check) :=
  match normalizeQuery now now' (31 * 24 * hour) q with
  | None => throw ErrInvalidQuery
  | Some q => with_tx t (
      _ ← authorizeMonitor userID environmentID monitorID;
      cursor ← cursor_of q;
      rows ← ListBackendChecks uuid_in monitorID (databaseTimestamp (q_From q)) (databaseTimestamp (q_To q)) (q_JobType q) cursor (int32 (q_Limit q + 1));
      mret (Rollback (page_of (q_Limit q) check_view rows)))
  end.

Definition incident_view (x : slot_key * IncidentRow) : string * IncidentRow := (x.1.2, x.2).
Definition ListIncidents (t now now' : Z) (userID environmentID : string) (q : PageQuery) : SE (World ViewDB O) (Page (string * IncidentRow)) :=
  match normalizeQuery now now' (366 * 24 * hour) q with
  | None => throw ErrInvalidQuery
  | Some q =>
      if negb (String.eqb (q_Status q) "") && negb (String.eqb (q_Status q) "open") && negb (String.eqb (q_Status q) "resolved")
      then throw ErrInvalidQuery else
      with_tx t (
        _ ← authorizeEnvironment userID environmentID PermissionIncidentsRead;
        cursor ← cursor_of q;
        rows ← ListBackendIncidents uuid_in environmentID (databaseTimestamp (q_From q)) (databaseTimestamp (q_To q)) (q_Status q) cursor (int32 (q_Limit q + 1));
        mret (Rollback (page_of (q_Limit q) incident_view rows)))
  end.

(** A service of the engine on the tables of the views. *)
Definition engine_call {A} (m : SE (World DB O) A) : SE (World ViewDB O) A := fun w =>
  let '(r, w') := m (mkWorld (tables_of (w_db w)) (w_ext w) (w_uuid w) (w_next w) (w_faults w)) in
  (r, mkWorld (mkViewDB (on_engine (fun _ => w_db w') (config (w_db w))) (invalidated_at (w_db w))) (w_ext w') (w_uuid w') (w_next w') (w_faults w')).

Definition average (samples total : Z) : option Q := if 0 <? samples then Some (inject_Z total / inject_Z samples / 1000)%Q else None.

(** A missing row is no error. *)
Definition optional {A} (q : Tx ViewDB A) : Tx ViewDB (option A) :=
  r ← try_ q; match r with Ok a => mret (Some a) | Err ErrNoRows => mret None | Err e => throw e end.

Definition fresh_view (from to : Z) (base : Report) (latency : option Q) (invalidated : option Z) : MonitorView :=
  mkMonitorView from to base latency (match invalidated with None => true | Some _ => false end) invalidated.

(** The two transactions and the report each begin at their own time; [clock] is the reading
    of the clock of the report.  The monitor was cast when it was authorized. *)
Definition MonitorReport (t t1 clock t2 now now' : Z) (userID environmentID monitorID : string) (q : PageQuery) : SE (World ViewDB O) MonitorView :=
  match normalizeQuery now now' (366 * 24 * hour) q with
  | None => throw ErrInvalidQuery
  | Some q =>
      _ ← with_tx t (org ← authorizeMonitor userID environmentID monitorID; mret (Rollback org));
      base ← engine_call (report t1 clock (default monitorID (uuid_in monitorID)) (q_From q) (q_To q));
      with_tx t2 (
        latency ← GetMonitorLatencyTotals uuid_in monitorID (databaseTimestamp (q_From q)) (databaseTimestamp (q_To q));
        invalidated ← optional (GetFirstMonitorRollupInvalidation uuid_in monitorID (databaseTimestamp (q_From q)) (databaseTimestamp (q_To q)));
        mret (Rollback (fresh_view (q_From q) (q_To q) base (average latency.1 latency.2) invalidated)))
  end.

Definition Dashboard (t now now' generated : Z) (userID environmentID : string) (q : PageQuery) : SE (World ViewDB O) DashboardView :=
  match normalizeQuery now now' (31 * 24 * hour) q with
  | None => throw ErrInvalidQuery
  | Some q => with_tx t (
      _ ← authorizeEnvironment userID environmentID PermissionMonitorsRead;
      states ← GetEnvironmentMonitorStateCounts uuid_in environmentID;
      open ← CountOpenEnvironmentIncidents uuid_in environmentID;
      result ← GetEnvironmentReliability uuid_in environmentID (q_From q) (q_To q);
      let '(expected, observed, successful, samples, total) := result in
      let n := Normalize (mkReport expected observed successful 0 None None) in
      invalidated ← optional (GetFirstEnvironmentRollupInvalidation uuid_in environmentID (databaseTimestamp (q_From q)) (databaseTimestamp (q_To q)));
      mret (Rollback (mkDashboard states
        (fresh_view (q_From q) (q_To q) (mkReport expected observed successful (rep_Unknown n) (rep_ObservedUptime n) (rep_Coverage n))
           (average samples total) invalidated) open generated)))
  end.

Definition mapIncidentError (e : error) : error :=
  match e with
  | ErrIncidentNotFound => ErrNotFound
  | ErrForbidden => ErrPermission
  | ErrInvalidInput | ErrAlreadyResolved => ErrInvalidQuery
  | _ => e
  end.
Definition incident_call {A} (m : SE (World DB O) A) : SE (World ViewDB O) A := fun w =>
  match engine_call m w with (Ok a, w') => (Ok a, w') | (Err e, w') => (Err (mapIncidentError e), w') end.

Definition GetIncident (t t1 : Z) (userID environmentID incidentID : string) : SE (World ViewDB O) IncidentSummary :=
  base ← incident_call (Incident.Get t userID environmentID incidentID);
  with_tx t1 (
    events ← ListBackendIncidentEvents uuid_in incidentID;
    deliveries ← ListBackendNotificationDeliveries uuid_in incidentID;
    mret (Rollback (mkSummary base events deliveries))).
Definition AcknowledgeIncident (t now t1 t2 : Z) (userID environmentID incidentID reason : string) : SE (World ViewDB O) IncidentSummary :=
  _ ← incident_call (Incident.Acknowledge t now userID environmentID incidentID reason);
  GetIncident t1 t2 userID environmentID incidentID.
Definition ResolveIncident (t now t1 t2 : Z) (userID environmentID incidentID reason : string) : SE (World ViewDB O) IncidentSummary :=
  _ ← incident_call (Incident.Resolve t now userID environmentID incidentID reason);
  GetIncident t1 t2 userID environmentID incidentID.
End Service.

(** ** Cursors are read back *)

(** A uuid as the database prints it. *)
Record id_ok (uuid_in : string -> option string) (uuid_Parse : string -> bool) (id : string) : Prop := {
  io_length : slen id = 36;
  io_clean : contains_char id "|" = false;
  io_parse : uuid_Parse id = true;
  io_cast : uuid_in id = Some id
}.

Lemma decode_encode uuid_in uuid_Parse general t id : printable_time t -> id_ok uuid_in uuid_Parse id ->
  decodeCursor uuid_Parse general (encodeCursor t id) = Some (t, id).
Proof.
  intros Ht [Hl Hc Hp _]. unfold decodeCursor, encodeCursor. rewrite rawurl_decode_encode. cbn [mbind option_bind].
  change ("|" +:+ id) with (String "|" id). rewrite split_char_app by (by apply Format_clean). rewrite split_char_none by done.
  rewrite Hl, Hp, Parse_Format by done. done.
Qed.

Lemma encode_nonempty t id : String.eqb (encodeCursor t id) "" = false.
Proof.
  apply String.eqb_neq. intros E. assert (rawurl_decode (encodeCursor t id) = rawurl_decode "") as H by (by rewrite E).
  unfold encodeCursor in H. rewrite rawurl_decode_encode in H. change (rawurl_decode "") with (Some "") in H. injection H as H.
  assert (contains_char (Format t +:+ "|" +:+ id) "|" = false) as Hc by (by rewrite H).
  rewrite !contains_char_app in Hc. change (contains_char "|" "|") with true in Hc. by rewrite orb_true_r in Hc.
Qed.

(** ** Pages of an ordered table *)

Section Paging.
Context {A B : Type} (view : slot_key * A -> B).
Implicit Types rows : list (slot_key * A).

Lemma split_at_row l1 (x : slot_key * A) l2 : NoDup (l1 ++ x :: l2).*1 -> StronglySorted row_le (l1 ++ x :: l2) ->
  filter (fun y => key_lt y.1 x.1) (l1 ++ x :: l2) = l1.
Proof.
  intros Hnd Hs. rewrite fmap_app, fmap_cons in Hnd. apply NoDup_app in Hnd as (_ & Hd & Hnd). apply NoDup_cons in Hnd as [Hx _].
  rewrite filter_app, filter_cons. destruct (decide (key_lt x.1 x.1)) as [Hlt|_]; [by apply key_lt_irrefl in Hlt|].
  rewrite (filter_none _ l2), app_nil_r.
  - apply filter_all, Forall_forall. intros y Hy. assert (row_le y x) as [E|Hlt]; [eapply StronglySorted_app_1_elem_of; [exact Hs|done|left]| |done].
    exfalso. apply (Hd y.1); [by apply list_elem_of_fmap_2|]. rewrite E. left.
  - apply Forall_forall. intros y Hy Hlt. apply StronglySorted_app_1_r in Hs. inversion Hs as [|? ? _ Hall]. subst. rewrite Forall_forall in Hall.
    destruct (Hall y Hy) as [E|Hgt].
    + apply Hx. rewrite E. by apply list_elem_of_fmap_2.
    + by eapply key_lt_irrefl, key_lt_trans.
Qed.

(** The rows after the cursor of a page are the rest of the table. *)
Lemma after_cursor rows n x : NoDup rows.*1 -> reverse (order_by_key rows) !! n = Some x ->
  reverse (order_by_key (filter (fun y => key_lt y.1 x.1) rows)) = drop (S n) (reverse (order_by_key rows)).
Proof.
  intros Hnd Hx. rewrite order_filter by done. set (l := order_by_key rows) in *.
  assert (l = reverse (drop (S n) (reverse l)) ++ x :: reverse (take n (reverse l))) as El.
  { rewrite <- (reverse_involutive l) at 1. rewrite <- (take_drop_middle _ _ _ Hx) at 1. rewrite reverse_app, reverse_cons. by rewrite <- app_assoc. }
  rewrite El at 1. rewrite split_at_row; [by rewrite reverse_involutive| |].
  - rewrite <- El. unfold l. by rewrite order_perm.
  - rewrite <- El. apply order_sorted.
Qed.
End Paging.

(** A client that follows the cursors, for at most [fuel] pages after the first. *)
Fixpoint follow {W B} (ask : string -> SE W (Page B)) (fuel : nat) (cursor : string) : SE W (list B) :=
  page ← ask cursor;
  match NextCursor page with
  | None => mret (Items page)
  | Some c => match fuel with
              | O => throw (ErrorsNew "more pages")
              | S fuel => rest ← follow ask fuel c; mret (Items page ++ rest)
              end
  end.

Section Follow.
Context {A B W : Type} (view : slot_key * A -> B) (Good : W -> Prop) (ask : string -> SE W (Page B)).
Context (rows : list (slot_key * A)) (limit : Z) (Hlimit : 1 <= limit) (Hnd : NoDup rows.*1).
Hypothesis ask_first : forall w, Good w -> exists w', Good w' /\ ask "" w = (Ok (page_of limit view (newest (limit + 1) rows)), w').
Hypothesis ask_next : forall w x, Good w -> x ∈ rows -> exists w', Good w' /\
  ask (encodeCursor x.1.1 x.1.2) w = (Ok (page_of limit view (newest (limit + 1) (filter (fun y => key_lt y.1 x.1) rows))), w').

#[local] Abbreviation ordered := (reverse (order_by_key rows)).
#[local] Abbreviation k := (Z.to_nat limit).

(** The page at the position [n] of the ordered table. *)
Lemma page_at n : page_of limit view (take (S k) (drop n ordered)) =
  if (k <? List.length (drop n ordered))%nat
  then mkPage (view <$> take k (drop n ordered)) ((fun x => encodeCursor x.1.1 x.1.2) <$> ordered !! (n + k - 1)%nat)
  else mkPage (view <$> drop n ordered) None.
Proof.
  unfold page_of. rewrite length_take. destruct (Nat.ltb_spec k (List.length (drop n ordered))) as [Hlt|Hge].
  - destruct (Nat.ltb_spec k (S k `min` List.length (drop n ordered))); [|lia]. rewrite take_take, (Nat.min_l k) by lia. f_equal. f_equal.
    rewrite lookup_take_lt by lia. rewrite lookup_drop. f_equal. lia.
  - destruct (Nat.ltb_spec k (S k `min` List.length (drop n ordered))); [lia|]. by rewrite take_ge by lia.
Qed.

Lemma newest_take (l : list (slot_key * A)) : newest (limit + 1) l = take (S k) (reverse (order_by_key l)).
Proof. unfold newest. f_equal. lia. Qed.

Lemma follow_from fuel n c w : Good w -> (List.length rows - n <= fuel)%nat ->
  (n = 0%nat /\ c = "" \/ exists m x, n = S m /\ ordered !! m = Some x /\ c = encodeCursor x.1.1 x.1.2) ->
  exists w', Good w' /\ follow ask fuel c w = (Ok (view <$> drop n ordered), w').
Proof.
  revert n c w. induction fuel as [|fuel IH]; intros n c w Hw Hfuel Hpos.
  all: assert (exists w1, Good w1 /\ ask c w = (Ok (page_of limit view (take (S k) (drop n ordered))), w1)) as (w1 & Hw1 & Ew).
  1, 3: destruct Hpos as [[-> ->]|(m & x & -> & Hx & ->)];
    [destruct (ask_first w Hw) as (w1 & Hw1 & E)
    |destruct (ask_next w x Hw) as (w1 & Hw1 & E);
       [rewrite <- (order_perm rows), <- (reverse_Permutation (order_by_key rows)); by eapply list_elem_of_lookup_2|]];
    exists w1; (split; [done|]); rewrite E, newest_take; [done|by rewrite after_cursor with (n := m)].
  all: rewrite page_at in Ew; pose proof (length_drop ordered n) as Hlen; rewrite length_reverse, (Permutation_length (order_perm rows)) in Hlen;
    cbn [follow]; unfold mbind at 1, SE_bind at 1; rewrite Ew; destruct (Nat.ltb_spec k (List.length (drop n ordered))) as [Hlt|Hge]; cbn [NextCursor Items];
    [|by exists w1].
  - lia.
  - destruct (ordered !! (n + k - 1)%nat) as [x|] eqn:Ex.
    2:{ apply lookup_ge_None in Ex. rewrite length_reverse, (Permutation_length (order_perm rows)) in Ex. lia. }
    cbn [fmap option_fmap option_map]. destruct (IH (n + k)%nat (encodeCursor x.1.1 x.1.2) w1 Hw1) as (w2 & Hw2 & E2); [lia| |].
    { right. exists (n + k - 1)%nat, x. split; [lia|done]. }
    exists w2. split; [done|]. unfold mbind, SE_bind. rewrite E2. unfold mret, SE_ret. do 2 f_equal.
    rewrite <- (drop_drop _ k n), <- fmap_app. by rewrite take_drop.
Qed.

Lemma follow_all fuel w : Good w -> (List.length rows <= fuel)%nat ->
  exists w', Good w' /\ follow ask fuel "" w = (Ok (view <$> ordered), w').
Proof. intros Hw Hf. apply (follow_from fuel 0 "" w Hw); [lia|by left]. Qed.
End Follow.

(** ** Reads without faults *)

Lemma read_quiet {A} (q : Z -> ViewDB -> res A * ViewDB) s a :
  quiet s -> q (tx_now s) (tx_db s) = (Ok a, tx_db s) -> sql q s = (Ok a, s).
Proof. intros Hs Hq. rewrite (sql_quiet q s a (tx_db s) Hs Hq). by rewrite set_tx_db_id. Qed.

Lemma permitted_run permission (q : Tx ViewDB (string * Role)) s org role :
  q s = (Ok (org, role), s) -> Allows role permission = true -> permitted permission q s = (Ok org, s).
Proof. intros Hq Ha. unfold permitted, or_missing, try_, mbind, SE_bind. rewrite Hq. simpl. by rewrite Ha. Qed.

Lemma normalize_explicit now now' window q : 1 <= q_Limit q <= 100 -> is_zero_time (q_From q) = false -> is_zero_time (q_To q) = false ->
  q_From q < q_To q -> q_To q - q_From q <= window -> window <= max_int64 -> normalizeQuery now now' window q = Some q.
Proof.
  intros Hl Hf Ht Hlt Hw Hm. unfold normalizeQuery. destruct (Z.eqb_spec (q_Limit q) 0); [lia|].
  destruct (Z.ltb_spec (q_Limit q) 1); [lia|]. destruct (Z.ltb_spec 100 (q_Limit q)); [lia|]. simpl. rewrite Hf, Ht. unfold after.
  destruct (Z.ltb_spec (q_From q) (q_To q)); [|lia]. simpl. rewrite time_sub_exact by (unfold min_int64, max_int64 in *; lia).
  destruct (Z.ltb_spec window (q_To q - q_From q)); [lia|]. by destruct q.
Qed.

(** The windows a client may ask for. *)
Record query_ok (window : Z) (q : PageQuery) : Prop := {
  qo_limit : 1 <= q_Limit q <= 100;
  qo_from : zero_time < q_From q;
  qo_order : q_From q < q_To q;
  qo_to : q_To q <= 253402300800 * second;
  qo_window : q_To q - q_From q <= window
}.

Lemma query_ok_normal now now' window q c : window <= max_int64 -> query_ok window q ->
  normalizeQuery now now' window (with_cursor c q) = Some (with_cursor c q) /\
  databaseTimestamp (q_From q) = Some (q_From q) /\ databaseTimestamp (q_To q) = Some (q_To q) /\ int32 (q_Limit q + 1) = q_Limit q + 1.
Proof.
  intros Hw [Hl Hf Ho Ht Hwin]. unfold databaseTimestamp, is_zero_time.
  destruct (Z.eqb_spec (q_From q) zero_time); [lia|]. destruct (Z.eqb_spec (q_To q) zero_time); [lia|]. split; [|split; [done|split; [done|]]].
  - apply normalize_explicit; simpl; try done; unfold is_zero_time; apply Z.eqb_neq; lia.
  - unfold int32. rewrite wrap_id; lia.
Qed.

Lemma month_fits : 31 * 24 * hour <= max_int64.
Proof. by vm_compute. Qed.
Lemma year_fits : 366 * 24 * hour <= max_int64.
Proof. by vm_compute. Qed.

Lemma cursor_none uuid_Parse general q s : cursor_of uuid_Parse general (with_cursor "" q) s = (Ok None, s).
Proof. done. Qed.

Lemma cursor_some uuid_in uuid_Parse general q t id s : printable_time t -> t <> zero_time -> id_ok uuid_in uuid_Parse id ->
  cursor_of uuid_Parse general (with_cursor (encodeCursor t id) q) s = (Ok (Some (Some t, id)), s).
Proof.
  intros Ht Hz Hid. unfold cursor_of. cbn [with_cursor q_Cursor]. rewrite encode_nonempty, (decode_encode uuid_in) by done.
  unfold databaseTimestamp, is_zero_time. apply Z.eqb_neq in Hz. by rewrite Hz.
Qed.

(** A faultless world with the tables [d]. *)
Definition steady {O} (d : ViewDB) (w : World ViewDB O) : Prop := w_db w = d /\ w_faults w = [].

Lemma read_run {O A} d t (body : Tx ViewDB (TxEnd A)) a (w : World ViewDB O) : steady d w ->
  (forall s, quiet s -> tx_db s = d -> body s = (Ok (Rollback a), s)) ->
  exists w', steady d w' /\ with_tx t body w = (Ok a, w').
Proof.
  intros [Hd Hf] Hb. assert (quiet (mkTx (w_db w) t false (w_uuid w) (w_next w) [])) as Hq by done.
  rewrite (with_tx_run t body w (Rollback a) _ Hf (Hb _ Hq Hd) Hq). eexists. split; [|reflexivity]. done.
Qed.

Section Pages.
Context (uuid_in : string -> option string) (uuid_Parse : string -> bool) (general : string -> option Z) {O : Type}.

Lemma authorized_monitor user env monitor u e m d org role s :
  uuid_in user = Some u -> uuid_in env = Some e -> uuid_in monitor = Some m ->
  monitor_role u e m (config d) = Some (org, role) -> Allows role PermissionMonitorsRead = true -> quiet s -> tx_db s = d ->
  authorizeMonitor uuid_in user env monitor s = (Ok org, s).
Proof.
  intros Hu He Hm Hr Ha Hq Hd. unfold authorizeMonitor. eapply permitted_run; [|exact Ha]. apply read_quiet; [done|].
  unfold id_param, row_of. by rewrite Hu, He, Hm, Hd, Hr.
Qed.

Lemma authorized_environment user env u e permission d org role s :
  uuid_in user = Some u -> uuid_in env = Some e ->
  environment_role u e (config d) = Some (org, role) -> Allows role permission = true -> quiet s -> tx_db s = d ->
  authorizeEnvironment uuid_in user env permission s = (Ok org, s).
Proof.
  intros Hu He Hr Ha Hq Hd. unfold authorizeEnvironment. eapply permitted_run; [|exact Ha]. apply read_quiet; [done|].
  unfold id_param, row_of. by rewrite Hu, He, Hd, Hr.
Qed.

Lemma keyed_rows {A} (f : A -> Z) (P : string * A -> Prop) `{!forall x, Decision (P x)} (t : gmap string A) :
  NoDup ((fun x => ((f x.2, x.1), x.2)) <$> filter P (map_to_list t)).*1.
Proof.
  rewrite <- list_fmap_compose. apply (NoDup_keyed (fun x => f x.2)).
  eapply sublist_NoDup; [apply (NoDup_fst_map_to_list t)|]. apply fmap_sublist, sublist_filter.
Qed.

(** The rows of a query that a cursor may name. *)
Lemma row_in_window {A} (f : A -> Z) (P : string * A -> Prop) `{!forall x, Decision (P x)} (t : gmap string A) window q x :
  query_ok window q -> (forall y, P y -> in_window (Some (q_From q)) (Some (q_To q)) (f y.2)) ->
  (forall id a, t !! id = Some a -> id_ok uuid_in uuid_Parse id) ->
  x ∈ ((fun x => ((f x.2, x.1), x.2)) <$> filter P (map_to_list t)) ->
  printable_time x.1.1 /\ x.1.1 <> zero_time /\ id_ok uuid_in uuid_Parse x.1.2.
Proof.
  intros [_ Hf _ Ht _] Hw Hid ([id a] & -> & [HP Hin]%list_elem_of_filter)%list_elem_of_fmap. simpl.
  apply elem_of_map_to_list in Hin. specialize (Hw _ HP). simpl in Hw.
  split; [unfold printable_time, zero_time, second in *; lia|]. split; [lia|by eapply Hid].
Qed.

Lemma newest_first {A} (rows : list (slot_key * A)) : NoDup rows.*1 ->
  reverse (order_by_key rows) ≡ₚ rows /\ StronglySorted (fun x y => key_lt y.1 x.1) (reverse (order_by_key rows)).
Proof.
  intros Hnd. split; [by rewrite reverse_Permutation, order_perm|]. assert (NoDup (order_by_key rows).*1) as Hnd' by (by rewrite order_perm).
  pose proof (order_sorted rows) as Hs. induction Hs as [|x l Hs IH Hall]; [constructor|].
  rewrite reverse_cons. rewrite fmap_cons in Hnd'. apply NoDup_cons in Hnd' as [Hx Hnd']. apply (sorting.StronglySorted_app_2 (fun x y => key_lt y.1 x.1)); [|by apply IH|repeat constructor].
  intros y z Hy Hz. rewrite reverse_Permutation in Hy. apply list_elem_of_singleton in Hz as ->. rewrite Forall_forall in Hall.
  destruct (Hall y Hy) as [E|Hlt]; [|done]. exfalso. apply Hx. rewrite E. by apply list_elem_of_fmap_2.
Qed.

(** A cursor as the database casts it. *)
Definition castable (cur : option (option Z * string)) : Prop := match cur with Some (_, id) => uuid_in id = Some id | None => True end.
Lemma cursor_param_run {A} cur (k : option (option Z * string) -> ViewDB -> res A * ViewDB) : castable cur -> cursor_param uuid_in cur k = k cur.
Proof. destruct cur as [[t id]|]; [|done]. simpl. unfold id_param. by intros ->. Qed.

(** The transaction of a listing, for one cursor. *)
Lemma listing_run {A B} (view : slot_key * A -> B) d t (authorize : Tx ViewDB string) org
    (list_rows : option (option Z * string) -> Tx ViewDB (list (slot_key * A))) q c cur rows (w : World ViewDB O) :
  steady d w -> (forall s, quiet s -> tx_db s = d -> authorize s = (Ok org, s)) ->
  (forall s, cursor_of uuid_Parse general (with_cursor c q) s = (Ok cur, s)) ->
  (forall s, quiet s -> tx_db s = d -> list_rows cur s = (Ok rows, s)) ->
  exists w', steady d w' /\
    with_tx t (_ ← authorize; cursor ← cursor_of uuid_Parse general (with_cursor c q); rows ← list_rows cursor;
               mret (Rollback (page_of (q_Limit q) view rows))) w = (Ok (page_of (q_Limit q) view rows), w').
Proof.
  intros Hw Ha Hc Hl. apply read_run; [done|]. intros s Hs Hd. etransitivity; [apply bind_run, Ha; done|].
  etransitivity; [apply bind_run, Hc|]. etransitivity; [apply bind_run, Hl; done|]. done.
Qed.

(** The pages of a listing that answers each cursor with the rows before it. *)
Lemma listing_pages {A B} (view : slot_key * A -> B) d (ask : string -> SE (World ViewDB O) (Page B)) window q
    (rows : list (slot_key * A)) fuel (w : World ViewDB O) :
  NoDup rows.*1 -> query_ok window q ->
  (forall x, x ∈ rows -> printable_time x.1.1 /\ x.1.1 <> zero_time /\ id_ok uuid_in uuid_Parse x.1.2) ->
  (forall c cur w0, steady d w0 -> (forall s, cursor_of uuid_Parse general (with_cursor c q) s = (Ok cur, s)) -> castable cur ->
     exists w', steady d w' /\ ask c w0 = (Ok (page_of (q_Limit q) view (newest (q_Limit q + 1) (filter (fun x => before_cursor cur x.1) rows))), w')) ->
  steady d w -> (List.length rows <= fuel)%nat ->
  exists l w', follow ask fuel "" w = (Ok (view <$> l), w') /\
    l ≡ₚ rows /\ StronglySorted (fun x y => key_lt y.1 x.1) l /\ w_db w' = d.
Proof.
  intros Hnd Hq Hrow Hask Hw Hfuel. destruct (newest_first rows Hnd) as [Hperm Hsort].
  destruct (follow_all view (steady d) ask rows (q_Limit q) ltac:(by destruct Hq as [[? _] _ _ _ _]) Hnd) with (fuel := fuel) (w := w) as (w' & [Hw' _] & E);
    [| |done|done|by exists (reverse (order_by_key rows)), w'].
  - intros w0 Hw0. destruct (Hask "" None w0 Hw0 (cursor_none uuid_Parse general q) I) as (w1 & Hw1 & E1). exists w1. split; [done|].
    rewrite filter_all in E1 by (by apply Forall_forall). done.
  - intros w0 x Hw0 Hx. destruct (Hrow x Hx) as (Hp & Hz & Hid). destruct x as [[tx id] a].
    destruct (Hask (encodeCursor tx id) (Some (Some tx, id)) w0 Hw0) as (w1 & Hw1 & E1);
      [intros s; by apply (cursor_some uuid_in)|by apply (io_cast _ _ _ Hid)|by exists w1].
Qed.

(** C17: following the cursors of ListChecks visits every check of the query exactly once, from the
    newest to the oldest, in at most as many pages as there are checks, and changes nothing. *)
Theorem ListChecks_pages (t now now' : string -> Z) user env monitor u e m q fuel d org role (w : World ViewDB O) :
  steady d w -> uuid_in user = Some u -> uuid_in env = Some e -> uuid_in monitor = Some m ->
  monitor_role u e m (config d) = Some (org, role) -> Allows role PermissionMonitorsRead = true ->
  query_ok (31 * 24 * hour) q ->
  (forall id c, health_checks (tables_of d) !! id = Some c -> id_ok uuid_in uuid_Parse id) ->
  let rows := check_rows m (Some (q_From q)) (Some (q_To q)) (q_JobType q) (tables_of d) in
  (List.length rows <= fuel)%nat ->
  exists l w', follow (fun c => ListChecks uuid_in uuid_Parse general (t c) (now c) (now' c) user env monitor (with_cursor c q)) fuel "" w
                 = (Ok (check_view <$> l), w') /\
    l ≡ₚ rows /\ StronglySorted (fun x y => key_lt y.1 x.1) l /\ w_db w' = d.
Proof.
  intros Hw Hu He Hm Hr Ha Hq Hids rows Hfuel. eapply listing_pages; [apply (keyed_rows hc_scheduled_at)|exact Hq| | |done|done].
  - intros x Hx. eapply (row_in_window hc_scheduled_at); [exact Hq| |exact Hids|exact Hx]. by intros y (_ & Hy & _).
  - intros c cur w0 Hw0 Hcur Hcast.
    destruct (query_ok_normal (now c) (now' c) _ q c month_fits Hq) as (En & Ef & Et & Ei).
    unfold ListChecks. rewrite En. cbn [with_cursor q_From q_To q_JobType q_Limit]. rewrite Ef, Et, Ei.
    eapply (listing_run check_view d _ _ org (fun cur => ListBackendChecks uuid_in monitor _ _ _ cur _) q c cur); [done| |exact Hcur|].
    + intros s Hs Hd. by eapply authorized_monitor.
    + intros s Hs Hd. apply read_quiet; [done|]. unfold id_param. rewrite Hm, cursor_param_run by done. unfold rows_of. by rewrite Hd.
Qed.

(** The same of ListIncidents. *)
Theorem ListIncidents_pages (t now now' : string -> Z) user env u e q fuel d org role (w : World ViewDB O) :
  steady d w -> uuid_in user = Some u -> uuid_in env = Some e ->
  environment_role u e (config d) = Some (org, role) -> Allows role PermissionIncidentsRead = true ->
  query_ok (366 * 24 * hour) q -> q_Status q ∈ [""; "open"; "resolved"] ->
  (forall id r, incidents (tables_of d) !! id = Some r -> id_ok uuid_in uuid_Parse id) ->
  let rows := incident_rows e (Some (q_From q)) (Some (q_To q)) (q_Status q) (tables_of d) in
  (List.length rows <= fuel)%nat ->
  exists l w', follow (fun c => ListIncidents uuid_in uuid_Parse general (t c) (now c) (now' c) user env (with_cursor c q)) fuel "" w
                 = (Ok (incident_view <$> l), w') /\
    l ≡ₚ rows /\ StronglySorted (fun x y => key_lt y.1 x.1) l /\ w_db w' = d.
Proof.
  intros Hw Hu He Hr Ha Hq Hst Hids rows Hfuel. eapply listing_pages; [apply (keyed_rows inc_opened_at)|exact Hq| | |done|done].
  - intros x Hx. eapply (row_in_window inc_opened_at); [exact Hq| |exact Hids|exact Hx]. by intros y (_ & Hy & _).
  - intros c cur w0 Hw0 Hcur Hcast.
    destruct (query_ok_normal (now c) (now' c) _ q c year_fits Hq) as (En & Ef & Et & Ei).
    unfold ListIncidents. rewrite En. cbn [with_cursor q_From q_To q_Status q_Limit]. rewrite Ef, Et, Ei.
    assert (negb (String.eqb (q_Status q) "") && negb (String.eqb (q_Status q) "open") && negb (String.eqb (q_Status q) "resolved") = false) as ->.
    { revert Hst. rewrite !elem_of_cons, elem_of_nil. by intros [-> |[-> |[-> |[]]]]. }
    eapply (listing_run incident_view d _ _ org (fun cur => ListBackendIncidents uuid_in env _ _ _ cur _) q c cur); [done| |exact Hcur|].
    + intros s Hs Hd. by eapply authorized_environment.
    + intros s Hs Hd. apply read_quiet; [done|]. unfold id_param. rewrite He, cursor_param_run by done. unfold rows_of. by rewrite Hd.
Qed.
End Pages.

(** ** Reads change nothing and answer only members *)

Definition never_commits {D A} (m : Tx D (TxEnd A)) : Prop := forall s a s', m s <> (Ok (Commit a), s').
Lemma never_commits_bind {D A B} (m : Tx D A) (k : A -> Tx D (TxEnd B)) : (forall a, never_commits (k a)) -> never_commits (m ≫= k).
Proof. intros Hk s b s' H. apply bind_ok in H as (a & s1 & _ & H). by apply Hk in H. Qed.
Lemma never_commits_ret {D A} (a : A) : never_commits (D := D) (mret (Rollback a)).
Proof. intros s b s' H. by apply ret_ok in H as [? _]. Qed.
Lemma never_commits_throw {D A} e : never_commits (D := D) (A := A) (throw e).
Proof. done. Qed.
Create HintDb views.
#[export] Hint Resolve never_commits_bind never_commits_ret never_commits_throw : views.

(** Bodies that only read. *)
Ltac reads := repeat (apply never_commits_bind; intros ?); repeat case_match; eauto with views.

Lemma rollback_db {D O A} t (body : Tx D (TxEnd A)) (w : World D O) : never_commits body -> w_db (with_tx t body w).2 = w_db w.
Proof.
  intros Hn. destruct (with_tx t body w) as [r w'] eqn:E. apply with_tx_db in E as [E|(fs & a & s & Hb & _)]; [done|]. by apply Hn in Hb.
Qed.
Lemma rollback_ok {D O A} t (body : Tx D (TxEnd A)) (w w' : World D O) a : never_commits body -> with_tx t body w = (Ok a, w') ->
  exists fs s, body (mkTx (w_db w) t false (w_uuid w) (w_next w) fs) = (Ok (Rollback a), s).
Proof. intros Hn [_ (fs & s & [(Hb & _)|[Hb _]])]%with_tx_ok; [by apply Hn in Hb|eauto]. Qed.

Section Safety.
Context (uuid_in : string -> option string) (uuid_Parse : string -> bool) (general : string -> option Z) {O : Type}.

Inductive view_request : Type :=
| VChecks (env monitor : string) (q : PageQuery)
| VReport (env monitor : string) (q : PageQuery)
| VIncidents (env : string) (q : PageQuery)
| VDashboard (env : string) (q : PageQuery)
| VIncident (env incident : string).

(** [clock] gives the readings of the clock and the times the transactions begin. *)
Definition view (clock : nat -> Z) (user : string) (r : view_request) : SE (World ViewDB O) () :=
  match r with
  | VChecks env monitor q => _ ← ListChecks uuid_in uuid_Parse general (clock 0%nat) (clock 1%nat) (clock 2%nat) user env monitor q; mret ()
  | VReport env monitor q =>
      _ ← MonitorReport uuid_in (clock 0%nat) (clock 1%nat) (clock 2%nat) (clock 3%nat) (clock 4%nat) (clock 5%nat) user env monitor q; mret ()
  | VIncidents env q => _ ← ListIncidents uuid_in uuid_Parse general (clock 0%nat) (clock 1%nat) (clock 2%nat) user env q; mret ()
  | VDashboard env q => _ ← Dashboard uuid_in (clock 0%nat) (clock 1%nat) (clock 2%nat) (clock 3%nat) user env q; mret ()
  | VIncident env incident => _ ← GetIncident uuid_in (clock 0%nat) (clock 1%nat) user env incident; mret ()
  end.

Definition may_read_monitor (user env monitor : string) (d : ViewDB) : Prop := exists u e m org role,
  uuid_in user = Some u /\ uuid_in env = Some e /\ uuid_in monitor = Some m /\
  monitor_role u e m (config d) = Some (org, role) /\ Allows role PermissionMonitorsRead = true.
Definition may_read (permission : Permission) (user env : string) (d : ViewDB) : Prop := exists u e org role,
  uuid_in user = Some u /\ uuid_in env = Some e /\
  environment_role u e (config d) = Some (org, role) /\ Allows role permission = true.
Definition may_view (user : string) (r : view_request) (d : ViewDB) : Prop :=
  match r with
  | VChecks env monitor _ | VReport env monitor _ => may_read_monitor user env monitor d
  | VIncidents env _ => may_read PermissionIncidentsRead user env d
  | VDashboard env _ => may_read PermissionMonitorsRead user env d
  | VIncident env incident => exists row role,
      authorized_row (as_uuid user) (as_uuid env) (as_uuid incident) (tables_of d) = Some (row, role) /\
      Allows (role_text role) PermissionIncidentsRead = true
  end.

Lemma permitted_ok permission (q : Tx ViewDB (string * Role)) s org s' : permitted permission q s = (Ok org, s') ->
  exists role, q s = (Ok (org, role), s') /\ Allows role permission = true.
Proof.
  unfold permitted, or_missing. intros H. apply bind_ok in H as ([o role] & s1 & H1 & H). apply bind_ok in H1 as (r & s2 & H2 & H1).
  unfold try_ in H2. destruct (q s) as [r' s2'] eqn:Eq. injection H2 as -> ->. destruct r as [[o' role']|e]; [|by destruct e]. apply ret_ok in H1 as [[= <- <-] <-].
  simpl in H. destruct (Allows role' permission) eqn:E; [|done]. apply ret_ok in H as [<- <-]. eauto.
Qed.

Lemma monitor_authorized user env monitor s org s' : authorizeMonitor uuid_in user env monitor s = (Ok org, s') ->
  may_read_monitor user env monitor (tx_db s).
Proof.
  intros (role & H & Ha)%permitted_ok. apply sql_ok in H as [Hq _]. unfold id_param, row_of in Hq.
  destruct (uuid_in user) as [u|] eqn:Eu; [|done]. destruct (uuid_in env) as [e|] eqn:Ee; [|done]. destruct (uuid_in monitor) as [m|] eqn:Em; [|done].
  destruct (monitor_role u e m (config (tx_db s))) as [[o r]|] eqn:Er; [|done]. injection Hq as -> -> _. by exists u, e, m, org, role.
Qed.

Lemma environment_authorized user env permission s org s' : authorizeEnvironment uuid_in user env permission s = (Ok org, s') ->
  may_read permission user env (tx_db s) /\ tx_db s' = tx_db s.
Proof.
  intros (role & H & Ha)%permitted_ok. apply sql_ok in H as [Hq _]. unfold id_param, row_of in Hq.
  destruct (uuid_in user) as [u|] eqn:Eu; [|done]. destruct (uuid_in env) as [e|] eqn:Ee; [|done].
  destruct (environment_role u e (config (tx_db s))) as [[o r]|] eqn:Er; [|done]. injection Hq as -> -> <-. split; [|done]. by exists u, e, org, role.
Qed.

(** Services that only read. *)
Definition keeps_db {D A} (m : SE (World D O) A) : Prop := forall w, w_db (m w).2 = w_db w.
Lemma world_bind {D A B} (m : SE (World D O) A) (k : A -> SE (World D O) B) : keeps_db m -> (forall a, keeps_db (k a)) -> keeps_db (m ≫= k).
Proof.
  intros Hm Hk w. unfold mbind, SE_bind. specialize (Hm w). destruct (m w) as [[a|e] w1]; [|done]. simpl in Hm. by rewrite Hk.
Qed.
Lemma world_ret {D A} (a : A) : keeps_db (D := D) (mret a).
Proof. done. Qed.

Lemma keeps_engine {A} (m : SE (World DB O) A) : keeps_db m -> keeps_db (engine_call m).
Proof.
  intros Hm w. unfold engine_call. specialize (Hm (mkWorld (tables_of (w_db w)) (w_ext w) (w_uuid w) (w_next w) (w_faults w))).
  destruct (m _) as [r w']. simpl in *. rewrite Hm. unfold on_engine, tables_of. by destruct (w_db w) as [[] ?].
Qed.
Lemma keeps_report t clock m from to : keeps_db (D := DB) (report t clock m from to).
Proof. intros w. unfold report. destruct (negb _); [done|]. apply rollback_db. reads. Qed.
Lemma keeps_incident_call {A} (m : SE (World DB O) A) : keeps_db m -> keeps_db (incident_call m).
Proof. intros Hm w. unfold incident_call. pose proof (keeps_engine m Hm w) as H. by destruct (engine_call m w) as [[]]. Qed.
Lemma keeps_get t user env i : keeps_db (D := DB) (Incident.Get t user env i).
Proof. intros w. unfold Incident.Get. destruct (negb _); [done|]. apply rollback_db. reads. Qed.

Lemma view_keeps clock user r : keeps_db (view clock user r).
Proof.
  destruct r as [env monitor q|env monitor q|env q|env q|env i]; (apply world_bind; [|intros; apply world_ret]).
  - unfold ListChecks. case_match; [|done]. intros w. apply rollback_db. reads.
  - unfold MonitorReport. case_match; [|done]. apply world_bind; [intros w; apply rollback_db; reads|intros _].
    apply world_bind; [apply keeps_engine, keeps_report|intros base w]. apply rollback_db. reads.
  - unfold ListIncidents. case_match; [|done]. destruct (_ && _); [done|]. intros w. apply rollback_db. reads.
  - unfold Dashboard. case_match; [|done]. intros w. apply rollback_db. reads.
  - unfold GetIncident. apply world_bind; [apply keeps_incident_call, keeps_get|intros base w]. apply rollback_db. reads.
Qed.

(** The first read of a transaction that went through. *)
Lemma first_read {A B} t (q : Tx ViewDB A) (k : A -> Tx ViewDB (TxEnd B)) (w w' : World ViewDB O) b :
  never_commits (q ≫= k) -> with_tx t (q ≫= k) w = (Ok b, w') ->
  exists s a s', tx_db s = w_db w /\ q s = (Ok a, s').
Proof. intros Hn (fs & s & H)%rollback_ok; [|done]. apply bind_ok in H as (a & s1 & H1 & _). by exists (mkTx (w_db w) t false (w_uuid w) (w_next w) fs), a, s1. Qed.

Lemma incident_viewed t user env i (w w' : World DB O) row : Incident.Get t user env i w = (Ok row, w') ->
  exists role, authorized_row (as_uuid user) (as_uuid env) (as_uuid i) (w_db w) = Some (row, role) /\
    Allows (role_text role) PermissionIncidentsRead = true.
Proof.
  unfold Incident.Get. destruct (negb _); [done|]. intros H. apply rollback_ok in H as (fs & s & H); [|reads].
  apply bind_ok in H as ([row' role] & s1 & H1 & H). unfold loadAuthorizedIncident in H1. apply bind_ok in H1 as (r & s2 & H2 & H1).
  apply try_select_one_ok in H2 as [_ H2]. destruct r as [[row2 role2]|e]; [|by destruct e]. apply ret_ok in H1 as [[= <- <-] _]. simpl in H.
  destruct (Allows _ _) eqn:Ea; [|done]. apply ret_ok in H as [[= <-] _]. by exists role2.
Qed.

(** C18: whatever fails, a read leaves every table as it was, and it answers only a user whose role in
    the organization of what it reads has the permission. *)
Theorem views_safe clock user r (w : World ViewDB O) :
  w_db (view clock user r w).2 = w_db w /\
  ((view clock user r w).1 = Ok () -> may_view user r (w_db w)).
Proof.
  split; [apply view_keeps|]. destruct (view clock user r w) as [[[]|e] w'] eqn:E; [intros _|done].
  destruct r as [env monitor q|env monitor q|env q|env q|env i]; cbn [view may_view] in *; apply bind_ok in E as (x & w1 & E & _).
  - unfold ListChecks in E. destruct (normalizeQuery _ _ _ _); [|done]. apply first_read in E as (s & a & s' & <- & E); [|reads].
    by apply monitor_authorized in E.
  - unfold MonitorReport in E. destruct (normalizeQuery _ _ _ _); [|done]. apply bind_ok in E as (o & w2 & E & _).
    apply first_read in E as (s & a & s' & <- & E); [|reads]. by apply monitor_authorized in E.
  - unfold ListIncidents in E. destruct (normalizeQuery _ _ _ _); [|done]. destruct (_ && _); [done|].
    apply first_read in E as (s & a & s' & <- & E); [|reads]. by apply environment_authorized in E as [? _].
  - unfold Dashboard in E. destruct (normalizeQuery _ _ _ _); [|done]. apply first_read in E as (s & a & s' & <- & E); [|reads].
    by apply environment_authorized in E as [? _].
  - unfold GetIncident in E. apply bind_ok in E as (row & w2 & E & _). unfold incident_call, engine_call in E.
    destruct (Incident.Get _ _ _ _ _) as [[row'|e] w3] eqn:Eg; [|done]. apply incident_viewed in Eg as (role & Hr & Ha). eauto.
Qed.
End Safety.

(** ** The dashboard adds up the reports *)

Section Grouping.
Context {A B : Type} (key : A -> string) (F : A -> list B).

Lemma bind_single (p : A) (ms : list string) : NoDup ms ->
  (ms ≫= fun m => if decide (key p = m) then F p else []) = if decide (key p ∈ ms) then F p else [].
Proof.
  induction ms as [|m ms IH]; intros Hnd; [by rewrite decide_False by (by apply not_elem_of_nil)|].
  apply NoDup_cons in Hnd as [Hm Hnd]. cbn [mbind list_bind]. rewrite IH by done. destruct (decide (key p = m)) as [->|Hne].
  - rewrite (decide_False (P := m ∈ ms)), (decide_True (P := m ∈ m :: ms)) by (done || left). by rewrite app_nil_r.
  - destruct (decide (key p ∈ ms)); [rewrite decide_True by (by right)|rewrite decide_False by (by intros [?|?]%elem_of_cons)]; done.
Qed.

Lemma bind_app_pointwise {M} (ms : list M) (G H : M -> list B) : ms ≫= (fun m => G m ++ H m) ≡ₚ (ms ≫= G) ++ (ms ≫= H).
Proof. induction ms as [|m ms IH]; [done|]. cbn [mbind list_bind]. rewrite IH. by rewrite <- !app_assoc, (Permutation_app_swap_app (H m)). Qed.

Lemma bind_ext {M} (ms : list M) (G H : M -> list B) : (forall m, G m = H m) -> ms ≫= G = ms ≫= H.
Proof. intros HGH. induction ms as [|m ms IH]; [done|]. cbn [mbind list_bind]. by rewrite HGH, IH. Qed.

(** The rows of the selected groups, group by group. *)
Lemma group_bind (l : list A) (ms : list string) : NoDup ms ->
  (filter (fun p => key p ∈ ms) l ≫= F) ≡ₚ ms ≫= (fun m => filter (fun p => key p = m) l ≫= F).
Proof.
  intros Hnd. induction l as [|p l IH].
  - rewrite (bind_ext ms _ (fun _ => [])) by done. clear. induction ms as [|m ms IH]; [done|]. cbn [mbind list_bind]. done.
  - rewrite (bind_ext ms _ (fun m => (if decide (key p = m) then F p else []) ++ (filter (fun p => key p = m) l ≫= F))).
    + rewrite bind_app_pointwise, bind_single by done. rewrite filter_cons. destruct (decide (key p ∈ ms)); cbn [mbind list_bind]; by rewrite IH.
    + intros m. rewrite filter_cons. by destruct (decide (key p = m)).
Qed.
End Grouping.

(** The monitors of an environment, deleted ones included. *)
Definition environment_monitors (env : string) (d : DB) : list string :=
  fst <$> filter (fun x => mon_environment_id x.2 = env) (map_to_list (monitors d)).

Lemma environment_monitors_NoDup env d : NoDup (environment_monitors env d).
Proof. eapply sublist_NoDup; [apply (NoDup_fst_map_to_list (monitors d))|]. apply fmap_sublist, sublist_filter. Qed.

Lemma in_environment_elem env d m : in_environment env d m = true <-> m ∈ environment_monitors env d.
Proof.
  unfold in_environment, environment_monitors. rewrite list_elem_of_fmap. split.
  - destruct (monitors d !! m) as [r|] eqn:E; [|done]. intros He%String.eqb_eq. exists (m, r). split; [done|]. apply list_elem_of_filter. split; [done|].
    by apply elem_of_map_to_list.
  - intros ([m' r] & -> & [He Hin]%list_elem_of_filter). apply elem_of_map_to_list in Hin. simpl in *. rewrite Hin, He. apply String.eqb_refl.
Qed.

Lemma filter_fmap_rows {X Y} (f : X -> Y) (P : Y -> Prop) `{!forall y, Decision (P y)} (l : list X) :
  filter P (f <$> l) = f <$> filter (fun x => P (f x)) l.
Proof. induction l as [|x l IH]; [done|]. rewrite fmap_cons, !filter_cons, IH. by destruct (decide (P (f x))). Qed.

Lemma slot_checks_joined m d slot : option_map hc_succeeded <$> slot_checks m d slot = joined m d slot.
Proof.
  unfold slot_checks, joined, scheduled_checks. rewrite filter_fmap_rows, list_filter_filter.
  match goal with |- _ = match _ <$> ?rows with _ => _ end =>
    assert (rows = filter (fun x => hc_monitor_id x.2 = m /\ hc_job_type x.2 = Scheduled /\ hc_scheduled_at x.2 = slot) (map_to_list (health_checks d))) as ->
  end; [apply list_filter_iff; intros [j c]; simpl; tauto|].
  destruct (filter _ _) as [|x l]; [done|]. rewrite <- list_fmap_compose. simpl. f_equal. rewrite <- list_fmap_compose. done.
Qed.

Lemma fmap_bind {X Y W} (f : Y -> W) (g : X -> list Y) (l : list X) : f <$> (l ≫= g) = l ≫= (fun x => f <$> g x).
Proof. induction l as [|x l IH]; [done|]. cbn [mbind list_bind]. by rewrite fmap_app, IH. Qed.

Lemma environment_rows_reports env from to d :
  option_map hc_succeeded <$> environment_rows env from to d ≡ₚ environment_monitors env d ≫= (fun m => report_rows m from to d).
Proof.
  unfold environment_rows. rewrite (list_filter_iff (fun p => in_environment env d (per_monitor_id p) = true) (fun p => per_monitor_id p ∈ environment_monitors env d))
    by (intros p; apply in_environment_elem).
  rewrite fmap_bind. rewrite (group_bind per_monitor_id) by apply environment_monitors_NoDup. apply Permutation_refl', bind_ext. intros m.
  unfold report_rows. induction (schedule_periods d) as [|p l IH]; [done|]. rewrite filter_cons. destruct (decide (per_monitor_id p = m)) as [<-|]; [|done].
  cbn [mbind list_bind]. f_equal; [|done]. rewrite fmap_bind. apply bind_ext. intros slot. apply slot_checks_joined.
Qed.

Definition total (f : string -> Z) (ms : list string) : Z := foldr (fun m n => f m + n) 0 ms.

Lemma count_bind {X} (P : X -> Prop) `{!forall x, Decision (P x)} (ms : list string) (F : string -> list X) :
  count P (ms ≫= F) = total (fun m => count P (F m)) ms.
Proof.
  induction ms as [|m ms IH]; [done|]. cbn [mbind list_bind total foldr]. fold (total (fun m => count P (F m)) ms). rewrite <- IH.
  unfold count. rewrite filter_app, length_app. lia.
Qed.

Lemma count_perm {X} (P : X -> Prop) `{!forall x, Decision (P x)} (l l' : list X) : l ≡ₚ l' -> count P l = count P l'.
Proof. intros Hl. unfold count. by rewrite Hl. Qed.

Lemma length_bind_total {X} (ms : list string) (F : string -> list X) :
  Z.of_nat (List.length (ms ≫= F)) = total (fun m => Z.of_nat (List.length (F m))) ms.
Proof.
  induction ms as [|m ms IH]; [done|]. cbn [mbind list_bind total foldr]. fold (total (fun m => Z.of_nat (List.length (F m))) ms). rewrite <- IH, length_app. lia.
Qed.

(** What the query counts, in terms of the outcomes of the rows. *)
Lemma observed_rows (rows : list (option HealthCheck)) :
  Z.of_nat (List.length (omap id rows)) = count is_Some (option_map hc_succeeded <$> rows) /\
  Z.of_nat (List.length (filter (fun c => hc_succeeded c = true) (omap id rows))) = count (fun x => x = Some true) (option_map hc_succeeded <$> rows).
Proof.
  unfold count. induction rows as [|[c|] rows [IH1 IH2]]; [done| |].
  - change (omap id (Some c :: rows)) with (c :: omap id rows). rewrite fmap_cons, !filter_cons. cbn [option_map].
    rewrite (decide_True (P := is_Some (Some (hc_succeeded c)))) by done. destruct (hc_succeeded c).
    + rewrite (decide_True (P := true = true)), (decide_True (P := Some true = Some true)) by done. simpl. lia.
    + rewrite (decide_False (P := false = true)), (decide_False (P := Some false = Some true)) by done. simpl. lia.
  - change (omap id (None :: rows)) with (omap id rows). rewrite fmap_cons, !filter_cons. cbn [option_map].
    rewrite (decide_False (P := is_Some None)) by (by intros []). rewrite (decide_False (P := None = Some true)) by done. done.
Qed.

(** The reliability of a dashboard is the sum of the reports of the monitors of its environment
    over the same window, deleted monitors included. *)
Theorem Dashboard_sums uuid_in {O} t now now' generated user env q q' v (w w' : World ViewDB O) :
  normalizeQuery now now' (31 * 24 * hour) q = Some q' ->
  Dashboard uuid_in t now now' generated user env q w = (Ok v, w') ->
  exists e, uuid_in env = Some e /\
    let d := tables_of (w_db w) in
    let ms := environment_monitors e d in
    let rows m := report_rows m (q_From q') (q_To q') d in
    let r := mv_Report (d_Reliability v) in
    rep_Expected r = total (fun m => Z.of_nat (List.length (rows m))) ms /\
    rep_Observed r = total (fun m => count is_Some (rows m)) ms /\
    rep_Successful r = total (fun m => count (fun x => x = Some true) (rows m)) ms.
Proof.
  intros Hq. unfold Dashboard. rewrite Hq. intros H. apply rollback_ok in H as (fs & s & H); [|reads].
  apply bind_ok in H as (o & s1 & H1 & H). apply bind_ok in H as (st & s2 & H2 & H). apply bind_ok in H as (n & s3 & H3 & H).
  apply bind_ok in H as (res & s4 & H4 & H).
  assert (tx_db s1 = w_db w /\ tx_db s2 = tx_db s1 /\ tx_db s3 = tx_db s2) as (D1 & D2 & D3).
  { apply environment_authorized in H1 as [_ D1]. apply sql_ok in H2 as [D2 _]. apply sql_ok in H3 as [D3 _]. unfold id_param, rows_of in *.
    destruct (uuid_in env); [|done]. injection D2 as _ D2. injection D3 as _ D3. repeat split; congruence || exact D1. }
  apply sql_ok in H4 as [Hres _]. unfold id_param, rows_of in Hres. destruct (uuid_in env) as [e|]; [|done]. exists e. split; [done|].
  injection Hres as <- _. apply bind_ok in H as (inv & s5 & _ & H). apply ret_ok in H as [[= <-] _]. cbv zeta. cbn [d_Reliability fresh_view mv_Report rep_Expected rep_Observed rep_Successful].
  rewrite D3, D2, D1. pose proof (environment_rows_reports e (q_From q') (q_To q') (tables_of (w_db w))) as Hrows.
  destruct (observed_rows (environment_rows e (q_From q') (q_To q') (tables_of (w_db w)))) as [Ho Hs]. rewrite Ho, Hs, !(count_perm _ _ _ Hrows), !count_bind.
  split; [|done]. rewrite <- length_bind_total, <- Hrows. by rewrite length_fmap.
Qed.

(** ** Three checks in pages of two *)

Module ThreeChecks.
Definition user : string := "aaaaaaaa-0000-4000-8000-000000000001".
Definition env : string := "bbbbbbbb-0000-4000-8000-000000000002".
Definition monitor : string := "cccccccc-0000-4000-8000-000000000003".
Definition org : string := "dddddddd-0000-4000-8000-000000000004".
Definition j1 : string := "eeeeeeee-0000-4000-8000-000000000001".
Definition j2 : string := "eeeeeeee-0000-4000-8000-000000000002".
Definition j3 : string := "eeeeeeee-0000-4000-8000-000000000003".
Definition check (t : Z) : HealthCheck :=
  mkHealthCheck "r" org env monitor Scheduled t t (t + second) true (Some 200) None 1000000 "h" "hosted" "w" "a" None None None None.
Definition row : Monitor := mkMonitor org env 1 "https://example.test/" "GET" 60 5 200 299 (240 * second) "" None "hosted" None None.
Definition period : SchedulePeriod := mkSchedulePeriod monitor 60 (60 * second) (60 * second) None.
Definition d : ViewDB :=
  mkViewDB (mkConfig (on_schedule_periods (fun _ => [period]) (on_org_members (fun _ => {[(org, user) := mkOrgMember Viewer true]})
    (on_monitors (fun _ => {[monitor := row]})
      (on_health_checks (fun _ => {[j1 := check (60 * second); j2 := check (120 * second); j3 := check (180 * second)]}) empty_db))))
    ∅ {[env := org]} {[org := None]}) ∅.
Definition w : World ViewDB () := mkWorld d () (fun _ => "") 0 [].
Definition q : PageQuery := mkQuery 2 (1 * second) (300 * second) "" "" "".
Definition general (s : string) : option Z := None.

Lemma query : query_ok (31 * 24 * hour) q.
Proof. constructor; unfold q, zero_time, hour, minute, second; simpl; lia. Qed.
Lemma ids id c : health_checks (tables_of d) !! id = Some c -> id_ok Founders.uuid_in uuidPattern id.
Proof.
  change (health_checks (tables_of d)) with ({[j1 := check (60 * second); j2 := check (120 * second); j3 := check (180 * second)]} : gmap string HealthCheck).
  rewrite !lookup_insert_Some, lookup_singleton_Some.
  intros [[<- _]|[_ [[<- _]|[_ [<- _]]]]]; constructor; vm_compute; reflexivity.
Qed.
End ThreeChecks.

Lemma ListChecks_pages_witness :
  exists l w', follow (fun c => ListChecks Founders.uuid_in uuidPattern ThreeChecks.general 0 0 0 ThreeChecks.user ThreeChecks.env ThreeChecks.monitor
                 (with_cursor c ThreeChecks.q)) 3 "" ThreeChecks.w = (Ok (check_view <$> l), w') /\
    l ≡ₚ check_rows ThreeChecks.monitor (Some (1 * second)) (Some (300 * second)) "" (tables_of ThreeChecks.d).
Proof.
  destruct (ListChecks_pages Founders.uuid_in uuidPattern ThreeChecks.general (fun _ => 0) (fun _ => 0) (fun _ => 0)
    ThreeChecks.user ThreeChecks.env ThreeChecks.monitor ThreeChecks.user ThreeChecks.env ThreeChecks.monitor ThreeChecks.q 3
    ThreeChecks.d ThreeChecks.org RoleViewer ThreeChecks.w) as (l & w' & E & Hp & _).
  - split; reflexivity.
  - vm_compute. reflexivity.
  - vm_compute. reflexivity.
  - vm_compute. reflexivity.
  - vm_compute. reflexivity.
  - vm_compute. reflexivity.
  - exact ThreeChecks.query.
  - exact ThreeChecks.ids.
  - apply Nat.leb_le. vm_compute. reflexivity.
  - exists l, w'. split; [exact E|exact Hp].
Defined.

Lemma Dashboard_sums_witness :
  let r := Dashboard Founders.uuid_in 0 0 0 0 ThreeChecks.user ThreeChecks.env ThreeChecks.q ThreeChecks.w in
  match r.1 with Ok v => rep_Observed (mv_Report (d_Reliability v)) = 3 | Err _ => False end.
Proof.
  pose proof (Dashboard_sums (O := ()) Founders.uuid_in 0 0 0 0 ThreeChecks.user ThreeChecks.env ThreeChecks.q ThreeChecks.q) as H. cbv zeta.
  assert (normalizeQuery 0 0 (31 * 24 * hour) ThreeChecks.q = Some ThreeChecks.q) as Hn by (vm_compute; reflexivity).
  destruct (Dashboard _ _ _ _ _ _ _ _ _) as [[v|e] w'] eqn:E; cbn [fst].
  - destruct (H v ThreeChecks.w w' Hn E) as (e & He & _ & Ho & _). cbv zeta in Ho. rewrite Ho. injection He as <-. vm_compute. reflexivity.
  - assert (is_ok (Dashboard Founders.uuid_in 0 0 0 0 ThreeChecks.user ThreeChecks.env ThreeChecks.q ThreeChecks.w).1 = true) as Hok by (vm_compute; reflexivity).
    rewrite E in Hok. discriminate Hok.
Defined.
