(* ===== verification/Realtime.v ===== *)
(** * Event streams (src/internal/realtime, src/internal/httpapi/events.go)

    [Poll] reads the refresh events of an environment after the last one a client has, and the
    handler of the stream polls every second and remembers the last identifier it wrote.
    [EventDB] adds the identifiers of api_refresh_events, which the sequence of the table
    draws, to the tables of the configuration.

    Refresh events older than a day are deleted by the hourly cleanup of the operations.

    The theorems: as long as events become visible in the order of their identifiers, a stream
    writes every event of the environment after the client's last one exactly once and in
    order, across reconnections, except those that the cleanup deleted before the client came
    to them; only members get any.  An event that becomes
    visible after a later one was written is never written, and a database error while the
    member is looked up is answered as a missing stream. *)

From stdpp Require Import base gmap list strings sorting relations.
From Stdlib Require Import ZArith Lia Ascii String Bool.
From S2P Require Import Prelude Tx Store Bytes Authorization Workqueue Monitors Ownership Views.

Record EventRow : Type := mkEventRow { er_environment_id : option string; er_event_type : string; er_resource_type : string; er_resource_id : string; er_occurred_at : Z }.
Record EventDB : Type := mkEventDB { members : ConfigDB; refresh : gmap Z EventRow }.

Record Event : Type := mkEvent { ev_ID : Z; ev_Type : string; ev_ResourceType : string; ev_ResourceID : string; ev_OccurredAt : Z }.
Definition event_of (x : slot_key * EventRow) : Event :=
  mkEvent x.1.1 (er_event_type x.2) (er_resource_type x.2) (er_resource_id x.2) (er_occurred_at x.2).

Definition ErrStreamNotFound : error := ErrorsNew "event stream not found".

(** [WHERE environment_id = env AND id > after ORDER BY id]. *)
Definition event_rows (env : string) (after : Z) (t : gmap Z EventRow) : list (slot_key * EventRow) :=
  (fun x => ((x.1, ""), x.2)) <$> filter (fun x => er_environment_id x.2 = Some env /\ after < x.1) (map_to_list t).

Section Service.
Context (uuid_in : string -> option string) {O : Type}.

Definition uuid_param {A} (s : string) (q : string -> EventDB -> res A * EventDB) (d : EventDB) : res A * EventDB :=
  match uuid_in s with Some id => q id d | None => (Err ErrSyntax, d) end.
Definition StreamMembership (user env : string) : Tx EventDB (string * Role) := sql (fun _ =>
  uuid_param user (fun u => uuid_param env (fun e d =>
    (match environment_role u e (members d) with Some r => Ok r | None => Err ErrNoRows end, d)))).
Definition ListEnvironmentRefreshEvents (env : string) (after limit : Z) : Tx EventDB (list (slot_key * EventRow)) := sql (fun _ =>
  uuid_param env (fun e d => (Ok (take (Z.to_nat limit) (order_by_key (event_rows e after (refresh d)))), d))).

(** The role is looked at before the error: the zero row has no role. *)
Definition poll_tx (userID environmentID : string) (after limit : Z) : Tx EventDB (TxEnd (list Event)) :=
  authorized ← try_ (StreamMembership userID environmentID);
  let role : Role := match authorized with Ok row => row.2 | Err _ => "" end in
  if match authorized with Err ErrNoRows => true | _ => false end || negb (Allows role PermissionTenantRead) then throw ErrStreamNotFound else
  match authorized with
  | Err e => throw e
  | Ok _ => rows ← ListEnvironmentRefreshEvents environmentID after (int32 limit); mret (Rollback (event_of <$> rows))
  end.
Definition Poll (t : Z) (userID environmentID : string) (after limit : Z) : SE (World EventDB O) (list Event) :=
  if (after <? 0) || (limit <? 1) || (100 <? limit) then throw ErrStreamNotFound
  else with_tx t (poll_tx userID environmentID after limit).

Definition ParseLastID (value : string) : option Z :=
  if String.eqb value "" then Some 0
  else match Atoi value with Some n => if n <? 0 then None else Some n | None => None end.
End Service.

(** DeleteOldRefreshEvents of the hourly cleanup. *)
Definition expire_events (now : Z) (d : EventDB) : EventDB :=
  mkEventDB (members d) (filter (fun x => (er_occurred_at x.2 <? now - 24 * hour) = false) (refresh d)).

(** What the client of a stream has received, and the identifier the handler remembers. *)
Record Stream : Type := mkStream { st_last : Z; st_written : list Event }.
(** [write]: all events of a poll, or the ones before the connection broke. *)
Definition write (n : nat) (events : list Event) (s : Stream) : Stream :=
  let out := take n events in
  mkStream (default (st_last s) (ev_ID <$> last out)) (st_written s ++ out).

(** ** Streams *)

Section Streams.
Context (uuid_in : string -> option string) {O : Type}.
Abbreviation Net := (World EventDB O).

(** Events become visible in the order of their identifiers. *)
Definition appended (t t' : gmap Z EventRow) : Prop :=
  t ⊆ t' /\ forall i j r, t !! i = None -> t' !! i = Some r -> is_Some (t !! j) -> j < i.

(** The service and one client; [fd_history] is a ghost, all events that ever were visible,
    and [fd_cutoff] the latest instant before which a cleanup deleted events. *)
Record Feed : Type := mkFeed { fd_world : Net; fd_stream : Stream; fd_history : gmap Z EventRow; fd_cutoff : Z }.
Definition fd_table (f : Feed) : gmap Z EventRow := refresh (w_db (fd_world f)).

(** A poll of which the client receives the first [n] events before it has to reconnect (all of
    them when the connection holds), a poll that fails, new events of other transactions, and
    the cleanup. *)
Inductive stream_step (user env : string) : Feed -> Feed -> Prop :=
| ss_poll t n w w' s h c events : Poll uuid_in t user env (st_last s) 100 w = (Ok events, w') ->
    stream_step user env (mkFeed w s h c) (mkFeed w' (write n events s) h c)
| ss_failed t w w' s h c e : Poll uuid_in t user env (st_last s) 100 w = (Err e, w') ->
    stream_step user env (mkFeed w s h c) (mkFeed w' s h c)
| ss_new w w' s h h' c : appended h h' -> refresh (w_db w') = refresh (w_db w) ∪ (h' ∖ h) ->
    stream_step user env (mkFeed w s h c) (mkFeed w' s h' c)
| ss_cleanup now w w' s h c : refresh (w_db w') = refresh (expire_events now (w_db w)) ->
    stream_step user env (mkFeed w s h c) (mkFeed w' s h (Z.max c (now - 24 * hour))).

(** *** What a poll answers *)

Lemma poll_never_commits user env after limit : never_commits (poll_tx uuid_in user env after limit).
Proof. unfold poll_tx. reads. Qed.

Lemma poll_db t user env after limit (w : Net) : w_db (Poll uuid_in t user env after limit w).2 = w_db w.
Proof. unfold Poll. destruct (_ || _); [done|]. apply rollback_db, poll_never_commits. Qed.

Definition subscriber (user env : string) (d : EventDB) : Prop := exists u e org role, uuid_in user = Some u /\ uuid_in env = Some e /\
  environment_role u e (members d) = Some (org, role) /\ Allows role PermissionTenantRead = true.

Lemma poll_ok t user env after limit (w w' : Net) events : Poll uuid_in t user env after limit w = (Ok events, w') ->
  subscriber user env (w_db w) /\ 1 <= limit <= 100 /\ exists e, uuid_in env = Some e /\
  events = event_of <$> take (Z.to_nat limit) (order_by_key (event_rows e after (refresh (w_db w)))).
Proof.
  unfold Poll. destruct (Z.ltb_spec after 0); [done|]. destruct (Z.ltb_spec limit 1); [done|]. destruct (Z.ltb_spec 100 limit); [done|]. simpl.
  intros Hrun. apply rollback_ok in Hrun as (fs & s & Hrun); [|apply poll_never_commits]. unfold poll_tx in Hrun.
  apply bind_ok in Hrun as (r & s1 & H1' & Hrun). unfold try_ in H1'. destruct (StreamMembership _ _ _ _) as [r' s1'] eqn:Em. injection H1' as -> ->.
  destruct r as [[org role]|e]; [|by destruct e]. simpl in Hrun. destruct (Allows role PermissionTenantRead) eqn:Ea; [|done]. simpl in Hrun.
  apply sql_ok in Em as [Hm _]. apply bind_ok in Hrun as (rows & s2 & H2' & Hrun). apply sql_ok in H2' as [Hl _]. unfold uuid_param in *.
  destruct (uuid_in user) as [u|] eqn:Eu; [|done]. destruct (uuid_in env) as [e|] eqn:Ee; [|done]. simpl in Hm.
  destruct (environment_role u e (members (w_db w))) as [[o' r']|] eqn:Er; [|done]. injection Hm as -> -> Hd. injection Hl as <- _.
  apply ret_ok in Hrun as [[= <-] _]. split; [by exists u, e, org, role|]. split; [lia|]. exists e. split; [done|].
  unfold int32. rewrite wrap_id by lia. by rewrite <- Hd.
Qed.

(** *** Rows in order *)

Lemma event_rows_NoDup env after t : NoDup (event_rows env after t).*1.
Proof.
  unfold event_rows. rewrite <- list_fmap_compose. apply (NoDup_fmap_2_strong (fun x : Z * EventRow => (x.1, ""))).
  - intros [i r] [j r'] Hi Hj [= ->]. apply list_elem_of_filter in Hi as [_ Hi], Hj as [_ Hj].
    apply elem_of_map_to_list in Hi, Hj. congruence.
  - apply NoDup_filter, NoDup_map_to_list.
Qed.

Lemma event_rows_elem env after t x : x ∈ event_rows env after t <->
  x.1.2 = "" /\ t !! x.1.1 = Some x.2 /\ er_environment_id x.2 = Some env /\ after < x.1.1.
Proof.
  unfold event_rows. rewrite list_elem_of_fmap. split.
  - intros ([i r] & -> & [[He Ha] Hin]%list_elem_of_filter). by apply elem_of_map_to_list in Hin.
  - destruct x as [[i c] r]. simpl. intros (-> & Ht & He & Ha). exists (i, r). split; [done|]. apply list_elem_of_filter. split; [done|].
    by apply elem_of_map_to_list.
Qed.

Lemma event_rows_later env after later t : after <= later ->
  event_rows env later t = filter (fun x => later < x.1.1) (event_rows env after t).
Proof.
  intros Hl. unfold event_rows. induction (map_to_list t) as [|[i r] l IH]; [done|]. rewrite !filter_cons. simpl.
  destruct (decide (er_environment_id r = Some env /\ later < i)) as [[He Hi]|Hn].
  - rewrite decide_True by (split; [done|lia]). rewrite !fmap_cons, filter_cons. simpl. rewrite decide_True by done. by rewrite IH.
  - rewrite IH. destruct (decide (er_environment_id r = Some env /\ after < i)) as [[He Hi]|]; [|done].
    rewrite fmap_cons, filter_cons. simpl. rewrite decide_False; [done|]. intros ?. by apply Hn.
Qed.

Lemma sorted_prefix {A} (R : A -> A -> Prop) (P : A -> Prop) `{!forall x, Decision (P x)} (l : list A) : StronglySorted R l ->
  (forall x y, x ∈ l -> y ∈ l -> R x y -> P y -> P x) -> l = filter P l ++ filter (fun x => ~ P x) l.
Proof.
  induction 1 as [|x l Hs IH Hall]; intros Hd; [done|]. rewrite !filter_cons. destruct (decide (P x)) as [Hx|Hx].
  - rewrite decide_False by tauto. simpl. f_equal. apply IH. intros y z Hy Hz. apply Hd; by right.
  - rewrite (decide_True (P := ~ P x)) by done. rewrite filter_none.
    + simpl. f_equal. symmetry. apply filter_all, Forall_forall. intros y Hy Hp. apply Hx. rewrite Forall_forall in Hall.
      apply (Hd x y); [left|by right|by apply Hall|done].
    + apply Forall_forall. intros y Hy Hp. apply Hx. rewrite Forall_forall in Hall. apply (Hd x y); [left|by right|by apply Hall|done].
Qed.

Lemma sublist_in {A} (l k : list A) x : l `sublist_of` k -> x ∈ l -> x ∈ k.
Proof. intros Hs%sublist_submseteq Hx. by eapply elem_of_submseteq. Qed.

Lemma sublist_filter_mono {A} (P : A -> Prop) `{!forall x, Decision (P x)} (l k : list A) :
  l `sublist_of` k -> filter P l `sublist_of` filter P k.
Proof.
  induction 1 as [|x l k Hs IH|x l k Hs IH]; [done|..]; rewrite !filter_cons; destruct (decide (P x)); try done; by constructor.
Qed.

Lemma sublist_NoDup_eq {A} (l k : list A) : l `sublist_of` k -> NoDup k -> (forall x, x ∈ k -> x ∈ l) -> l = k.
Proof.
  induction 1 as [|x l k Hs IH|x l k Hs IH]; [done|..]; intros [Hx Hnd]%NoDup_cons Hin.
  - f_equal. apply IH; [done|]. intros y Hy. assert (y ∈ x :: l) as Hy' by (apply Hin; by right).
    apply elem_of_cons in Hy' as [->|]; done.
  - exfalso. apply Hx. eapply sublist_in; [exact Hs|]. apply Hin. left.
Qed.

Section Ordered.
Context (e : string) (after : Z).
Abbreviation ordered t := (order_by_key (event_rows e after t)).

Lemma ordered_elem t x : x ∈ ordered t <-> x ∈ event_rows e after t.
Proof. by rewrite (order_perm (event_rows e after t)). Qed.

Lemma ordered_lt t A B x y : ordered t = A ++ B -> x ∈ A -> y ∈ B -> x.1.1 < y.1.1.
Proof.
  intros E Hx Hy. pose proof (order_sorted (event_rows e after t)) as Hs. rewrite E in Hs.
  assert (x ∈ event_rows e after t) as Hx' by (apply ordered_elem; rewrite E; apply elem_of_app; by left).
  assert (y ∈ event_rows e after t) as Hy' by (apply ordered_elem; rewrite E; apply elem_of_app; by right).
  assert (NoDup (A ++ B).*1) as Hnd by (rewrite <- E; rewrite (order_perm (event_rows e after t)); apply event_rows_NoDup).
  rewrite fmap_app in Hnd. apply NoDup_app in Hnd as (_ & Hnd & _).
  apply event_rows_elem in Hx' as (Ex & _), Hy' as (Ey & _).
  assert (row_le x y) as Hle by (eapply StronglySorted_app_1_elem_of; [exact Hs|done|done]). destruct Hle as [Eq|[Hlt|[_ Hlt]]].
  - exfalso. apply (Hnd x.1); [by apply list_elem_of_fmap_2|]. rewrite Eq. by apply list_elem_of_fmap_2.
  - done.
  - rewrite Ex, Ey in Hlt. by apply str_lt_irrefl in Hlt.
Qed.

(** New events follow the old ones. *)
Lemma appended_prefix t t' : appended t t' -> exists l, ordered t' = ordered t ++ l.
Proof.
  intros [Hsub Hnew]. set (old := fun x : slot_key * EventRow => is_Some (t !! x.1.1)).
  pose proof (sorted_prefix row_le old (ordered t') (order_sorted _)) as Hsplit. rewrite Hsplit.
  - eexists. f_equal. rewrite <- order_filter by apply event_rows_NoDup. symmetry. apply order_unique; [apply event_rows_NoDup| |apply order_sorted].
    rewrite order_perm. apply NoDup_Permutation.
    + eapply NoDup_fmap_1, event_rows_NoDup.
    + apply NoDup_filter. eapply NoDup_fmap_1, event_rows_NoDup.
    + intros x. rewrite list_elem_of_filter, !event_rows_elem. unfold old. split.
      * intros (E & Ht & He & Ha). split; [by eexists|]. repeat split; try done. by eapply lookup_weaken.
      * intros [[r Hr] (E & Ht & He & Ha)]. repeat split; try done. pose proof (lookup_weaken _ _ _ _ Hr Hsub). congruence.
  - intros x y Hx Hy Hle Hold. apply ordered_elem, event_rows_elem in Hx as (Ex & Hx & _), Hy as (Ey & Hy & _).
    unfold old in *. destruct (t !! x.1.1) eqn:En; [done|]. exfalso. pose proof (Hnew _ _ _ En Hx Hold) as Hlt.
    destruct Hle as [Eq|[Hlt'|[Eq _]]]; [rewrite Eq in Hlt| |]; lia.
Qed.

(** The events of a part of the history are those of the history that are still there. *)
Lemma ordered_part t h : t ⊆ h -> ordered t = filter (fun x => is_Some (t !! x.1.1)) (ordered h).
Proof.
  intros Hsub. rewrite <- order_filter by apply event_rows_NoDup. apply order_unique; [apply event_rows_NoDup| |apply order_sorted].
  rewrite order_perm. apply NoDup_Permutation.
  - eapply NoDup_fmap_1, event_rows_NoDup.
  - apply NoDup_filter. eapply NoDup_fmap_1, event_rows_NoDup.
  - intros x. rewrite list_elem_of_filter, !event_rows_elem. split.
    + intros (E & Ht & He & Ha). split; [by eexists|]. repeat split; try done. by eapply lookup_weaken.
    + intros [[r Hr] (E & Ht & He & Ha)]. repeat split; try done. pose proof (lookup_weaken _ _ _ _ Hr Hsub). congruence.
Qed.

(** An ordered list splits at an identifier. *)
Lemma ordered_split t n : ordered t = filter (fun x => x.1.1 <= n) (ordered t) ++ filter (fun x => n < x.1.1) (ordered t).
Proof.
  rewrite (sorted_prefix row_le (fun x : slot_key * EventRow => x.1.1 <= n) (ordered t) (order_sorted _)) at 1.
  - f_equal. apply list_filter_iff. intros x. lia.
  - intros x y _ _ [Eq|[Hlt|[Eq _]]] Hy; [rewrite Eq| |]; lia.
Qed.
End Ordered.

Section History.
Context (e : string) (after : Z).
Abbreviation all h := (order_by_key (event_rows e after h)).

(** [A] are the events written so far: every event of the history is written, or after the last
    written one, or gone from the table; and what is gone was older than a day at a cleanup. *)
Record feed_inv (A : list (slot_key * EventRow)) (f : Feed) : Prop := {
  fi_part : fd_table f ⊆ fd_history f;
  fi_gone : forall i r, fd_history f !! i = Some r -> fd_table f !! i = None -> er_occurred_at r < fd_cutoff f;
  fi_written : st_written (fd_stream f) = event_of <$> A;
  fi_order : A `sublist_of` filter (fun x => x.1.1 <= st_last (fd_stream f)) (all (fd_history f));
  fi_last : after <= st_last (fd_stream f) /\
    (st_last (fd_stream f) = after \/ is_Some (fd_history f !! st_last (fd_stream f)));
  fi_seen : forall x, x ∈ all (fd_history f) -> x ∈ A \/ st_last (fd_stream f) < x.1.1 \/ fd_table f !! x.1.1 = None
}.

Lemma feed_start w c : feed_inv [] (mkFeed w (mkStream after []) (refresh (w_db w)) c).
Proof.
  constructor; simpl.
  - done.
  - intros i r Hh Ht. unfold fd_table in Ht. simpl in Ht. congruence.
  - done.
  - apply sublist_nil_l.
  - split; [lia|by left].
  - intros x (_ & _ & _ & Hx)%ordered_elem%event_rows_elem. right. by left.
Qed.

Lemma all_elem h x : x ∈ all h <-> x.1.2 = "" /\ h !! x.1.1 = Some x.2 /\ er_environment_id x.2 = Some e /\ after < x.1.1.
Proof. by rewrite ordered_elem, event_rows_elem. Qed.

Lemma feed_new A w w' s h h' c : appended h h' -> refresh (w_db w') = refresh (w_db w) ∪ (h' ∖ h) ->
  feed_inv A (mkFeed w s h c) -> feed_inv A (mkFeed w' s h' c).
Proof.
  intros Happ Hw [H1 H2 H3 H4 [H5 H5'] H6]. unfold fd_table in *. simpl in *. pose proof Happ as [Hsub Hnew].
  destruct (appended_prefix e after _ _ Happ) as [l El].
  assert (forall i, is_Some (h !! i) -> refresh (w_db w') !! i = refresh (w_db w) !! i) as Hold.
  { intros i Hi. rewrite Hw. apply lookup_union_l, lookup_difference_None. by right. }
  constructor; unfold fd_table; simpl.
  - rewrite Hw. apply map_union_least; [by etrans|]. by apply map_subseteq_difference_l.
  - intros i r Hh Ht. rewrite Hw in Ht. apply lookup_union_None in Ht as [Ht Hd].
    destruct (h !! i) as [r'|] eqn:Ei.
    + pose proof (lookup_weaken _ _ _ _ Ei Hsub). assert (r' = r) as -> by congruence. by eapply H2.
    + exfalso. apply lookup_difference_None in Hd as [Hd|Hd]; [congruence|]. rewrite Ei in Hd. by destruct Hd.
  - done.
  - rewrite El, filter_app. by apply sublist_inserts_r.
  - split; [done|]. destruct H5' as [|[r Hr]]; [by left|right]. eexists. by eapply lookup_weaken.
  - intros x Hx. pose proof Hx as (_ & Hx' & _ & Ha)%all_elem. destruct (h !! x.1.1) as [r|] eqn:Ei.
    + rewrite Hold by done. apply H6. apply all_elem. apply all_elem in Hx as (Ex & _ & He & _). split_and!; try done.
      pose proof (lookup_weaken _ _ _ _ Ei Hsub). congruence.
    + right. left. destruct H5' as [->|Hl]; [done|]. by apply (Hnew _ _ _ Ei Hx').
Qed.

Lemma feed_cleanup A now w w' s h c : refresh (w_db w') = refresh (expire_events now (w_db w)) ->
  feed_inv A (mkFeed w s h c) -> feed_inv A (mkFeed w' s h (Z.max c (now - 24 * hour))).
Proof.
  intros Hw [H1 H2 H3 H4 H5 H6]. unfold fd_table in *. simpl in *.
  assert (forall i, refresh (w_db w') !! i = None -> refresh (w_db w) !! i = None \/
    exists r, refresh (w_db w) !! i = Some r /\ er_occurred_at r < now - 24 * hour) as Hn.
  { intros i. rewrite Hw. intros [Hi|Hx]%map_lookup_filter_None; [by left|].
    destruct (refresh (w_db w) !! i) as [r|] eqn:Er; [right|by left]. exists r. split; [done|].
    specialize (Hx r eq_refl). simpl in Hx. by apply Z.ltb_lt, not_false_iff_true. }
  constructor; unfold fd_table; simpl; try done.
  - rewrite Hw. etrans; [apply map_filter_subseteq|done].
  - intros i r Hh [Ht|(r' & Hr' & Hx)]%Hn; [specialize (H2 _ _ Hh Ht); lia|].
    pose proof (lookup_weaken _ _ _ _ Hr' H1). assert (r' = r) as -> by congruence. lia.
  - intros x Hx. destruct (H6 x Hx) as [?|[?|Ht]]; [by left|by right; left|]. right. right. rewrite Hw.
    apply map_lookup_filter_None. by left.
Qed.

Lemma feed_poll A n l w w' s h c : refresh (w_db w') = refresh (w_db w) -> feed_inv A (mkFeed w s h c) ->
  exists C, feed_inv (A ++ C) (mkFeed w' (write n (event_of <$> take l (order_by_key (event_rows e (st_last s) (refresh (w_db w))))) s) h c).
Proof.
  intros Hw [H1 H2 H3 H4 [H5 H5'] H6]. unfold fd_table in *. simpl in *.
  set (rest := order_by_key (event_rows e (st_last s) (refresh (w_db w)))). set (C := take n (take l rest)). exists C.
  assert (rest `sublist_of` filter (fun x => st_last s < x.1.1) (all h)) as Hrest.
  { unfold rest. rewrite (ordered_part _ _ _ h) by done. etrans; [apply sublist_filter|].
    rewrite (event_rows_later e after) by done. by rewrite order_filter by apply event_rows_NoDup. }
  assert (exists B, rest = C ++ B) as [B EB].
  { unfold C. rewrite take_take. exists (drop (n `min` l) rest). by rewrite take_drop. }
  assert (forall x, x ∈ C -> x.1.1 <= default (st_last s) (ev_ID <$> last (event_of <$> C))) as HC.
  { intros x Hx. rewrite fmap_last. destruct (last C) as [y|] eqn:Ey; [|by apply last_None in Ey; rewrite Ey in Hx; apply elem_of_nil in Hx].
    apply last_Some in Ey as (C' & EC). simpl. rewrite EC in Hx. apply elem_of_app in Hx as [Hx|Hx%list_elem_of_singleton]; [|subst; simpl; lia].
    assert (x.1.1 < y.1.1); [|lia]. eapply (ordered_lt e (st_last s) (refresh (w_db w)) C' ([y] ++ B)); [|done|left].
    change (rest = C' ++ [y] ++ B). rewrite (app_assoc C'), <- EC. exact EB. }
  assert (forall x, x ∈ C -> x ∈ all h /\ st_last s < x.1.1) as HCall.
  { intros x Hx. assert (x ∈ filter (fun x => st_last s < x.1.1) (all h)) as Hf.
    { eapply sublist_in; [exact Hrest|]. rewrite EB. apply elem_of_app. by left. }
    by apply list_elem_of_filter in Hf as [? ?]. }
  set (s' := write _ _ s). assert (st_last s' = default (st_last s) (ev_ID <$> last (event_of <$> C))) as El.
  { unfold s', write. cbn [st_last]. by rewrite <- fmap_take. }
  assert (st_written s' = st_written s ++ (event_of <$> C)) as Ew.
  { unfold s', write. cbn [st_written]. by rewrite <- fmap_take. }
  clearbody s'. assert (st_last s <= st_last s') as Hge.
  { rewrite El, fmap_last. destruct (last C) as [y|] eqn:Ey; [|simpl; lia]. apply last_Some in Ey as (C' & EC).
    destruct (HCall y) as [_ Hy]; [rewrite EC; apply elem_of_app; right; left|]. simpl. lia. }
  constructor; unfold fd_table; simpl.
  - by rewrite Hw.
  - by rewrite Hw.
  - by rewrite Ew, fmap_app, H3.
  - rewrite (ordered_split e after h (st_last s)), filter_app. apply sublist_app.
    + rewrite list_filter_filter_r by (intros x; lia). exact H4.
    + assert (C = filter (fun x => x.1.1 <= st_last s') C) as -> by (symmetry; apply filter_all, Forall_forall; intros x Hx; rewrite El; by apply HC).
      apply sublist_filter_mono. etrans; [|exact Hrest]. rewrite EB. by apply sublist_inserts_r.
  - split; [lia|]. rewrite El, fmap_last. destruct (last C) as [y|] eqn:Ey; [|done]. right. apply last_Some in Ey as (C' & EC).
    destruct (HCall y) as [Hy _]; [rewrite EC; apply elem_of_app; right; left|]. apply all_elem in Hy as (_ & Hy & _). simpl. by eexists.
  - intros x Hx. rewrite Hw. destruct (H6 x Hx) as [?|[Hl|?]]; [left; apply elem_of_app; by left| |by right; right].
    destruct (refresh (w_db w) !! x.1.1) as [r|] eqn:Et; [|by right; right].
    assert (x ∈ rest) as Hr.
    { apply ordered_elem, event_rows_elem. apply all_elem in Hx as (Ex & Hh & He & _). split_and!; try done.
      pose proof (lookup_weaken _ _ _ _ Et H1). congruence. }
    rewrite EB in Hr. apply elem_of_app in Hr as [Hr|Hr]; [left; apply elem_of_app; by right|]. right. left. rewrite El, fmap_last.
    destruct (last C) as [y|] eqn:Ey; [|done]. apply last_Some in Ey as (C' & EC). simpl.
    eapply (ordered_lt e (st_last s) _ C B); [exact EB| |done]. rewrite EC. apply elem_of_app. right. left.
Qed.
End History.

Lemma feed_step user env e after A f f' : uuid_in env = Some e -> stream_step user env f f' -> feed_inv e after A f ->
  exists A', feed_inv e after A' f'.
Proof.
  intros He [t n w w' s h c events Hp|t w w' s h c err Hp|w w' s h h' c Happ Hw|now w w' s h c Hw] Hi.
  - pose proof (poll_db t user env (st_last s) 100 w) as Hd. rewrite Hp in Hd. simpl in Hd.
    apply poll_ok in Hp as (_ & _ & e' & He' & ->). simplify_eq.
    destruct (feed_poll e after A n (Z.to_nat 100) w w' s h c) as [C HC]; [by rewrite Hd|done|]. by exists (A ++ C).
  - pose proof (poll_db t user env (st_last s) 100 w) as Hd. rewrite Hp in Hd. simpl in Hd. exists A.
    destruct Hi as [H1 H2 H3 H4 H5 H6]. unfold fd_table in *. simpl in *. constructor; unfold fd_table; simpl; by rewrite ?Hd.
  - exists A. by eapply feed_new.
  - exists A. by eapply feed_cleanup.
Qed.

(** What a client of a stream has received of the history of its environment: [A] are the
    events it received, in the order it received them. *)
Record received_from (e : string) (after : Z) (f : Feed) (A : list (slot_key * EventRow)) : Prop := {
  rf_written : st_written (fd_stream f) = event_of <$> A;
  rf_once : A `sublist_of` order_by_key (event_rows e after (fd_history f));
  rf_rest : forall x, x ∈ order_by_key (event_rows e after (fd_history f)) -> x ∈ A \/
    (fd_table f !! x.1.1 = Some x.2 /\ st_last (fd_stream f) < x.1.1) \/
    (fd_table f !! x.1.1 = None /\ er_occurred_at x.2 < fd_cutoff f);
  rf_prefix : (forall x, x ∈ order_by_key (event_rows e after (fd_history f)) -> x ∈ A \/ fd_cutoff f <= er_occurred_at x.2) ->
    A `prefix_of` order_by_key (event_rows e after (fd_history f))
}.

Lemma feed_received e after A f : feed_inv e after A f -> received_from e after f A.
Proof.
  intros [H1 H2 H3 H4 [H5 H5'] H6]. constructor.
  - done.
  - etrans; [exact H4|apply sublist_filter].
  - intros x Hx. apply all_elem in Hx as Hx'. destruct Hx' as (_ & Hh & _). destruct (fd_table f !! x.1.1) as [r|] eqn:Et.
    + pose proof (lookup_weaken _ _ _ _ Et H1). destruct (H6 x Hx) as [?|[?|?]]; [by left| |congruence].
      right. left. split; [congruence|done].
    + right. right. split; [done|]. by eapply H2.
  - intros Hall. rewrite (ordered_split e after (fd_history f) (st_last (fd_stream f))).
    assert (A = filter (fun x => x.1.1 <= st_last (fd_stream f)) (order_by_key (event_rows e after (fd_history f)))) as <-; [|by eexists].
    apply sublist_NoDup_eq; [exact H4| |].
    + apply NoDup_filter. rewrite (order_perm (event_rows e after (fd_history f))). eapply NoDup_fmap_1, event_rows_NoDup.
    + intros x [Hl Hx]%list_elem_of_filter. destruct (H6 x Hx) as [?|[?|Ht]]; [done|lia|].
      destruct (Hall x Hx) as [?|Hc]; [done|]. apply all_elem in Hx as (_ & Hh & _). specialize (H2 _ _ Hh Ht). lia.
Qed.

(** C19: across polls, failures, broken connections and reconnections, new events and cleanups,
    and as long as events become visible in the order of their identifiers, a client has
    received events of the environment after the one it began with, each at most once and in
    order; what it has not received is still in the table and comes after the last one it
    received, or was deleted by a cleanup more than a day after it happened.  When no cleanup
    overtook the client, it has received them without a gap; and when a poll brings nothing, it has
    received all of them but those that a cleanup deleted. *)
Theorem stream_exact user env e after c (w0 : Net) f : uuid_in env = Some e ->
  rtc (stream_step user env) (mkFeed w0 (mkStream after []) (refresh (w_db w0)) c) f ->
  exists A, received_from e after f A /\
  (forall t w', Poll uuid_in t user env (st_last (fd_stream f)) 100 (fd_world f) = (Ok [], w') ->
     forall x, x ∈ order_by_key (event_rows e after (fd_history f)) -> x ∈ A \/ er_occurred_at x.2 < fd_cutoff f).
Proof.
  intros He Hrun. assert (exists A, feed_inv e after A f) as [A HA].
  { revert Hrun. apply (rtc_ind_r (fun f => exists A, feed_inv e after A f) (mkFeed w0 (mkStream after []) (refresh (w_db w0)) c)).
    - exists []. apply feed_start.
    - intros x y _ Hs [A HA]. by eapply feed_step. }
  exists A. apply feed_received in HA as HR. split; [done|]. intros t w' Hp x Hx.
  apply poll_ok in Hp as (_ & _ & e' & He' & Hev). simplify_eq. fold (fd_table f) in Hev.
  destruct (rf_rest _ _ _ _ HR x Hx) as [?|[[Ht Hl]|[_ Hold]]]; [by left|exfalso|by right].
  assert (x ∈ order_by_key (event_rows e (st_last (fd_stream f)) (fd_table f))) as Hin.
  { apply ordered_elem, event_rows_elem. apply all_elem in Hx as (Ex & _ & Hee & _). done. }
  destruct (order_by_key (event_rows e (st_last (fd_stream f)) (fd_table f))) as [|y l]; [by apply elem_of_nil in Hin|done].
Qed.

(** An event that becomes visible after the client has a later one is in no later poll. *)
Theorem late_event_lost t user env last limit (w w' : Net) events i : Poll uuid_in t user env last limit w = (Ok events, w') -> i <= last ->
  i ∉ (ev_ID <$> events).
Proof.
  intros (_ & _ & e & _ & ->)%poll_ok Hi (x & -> & Hx)%list_elem_of_fmap. apply list_elem_of_fmap in Hx as (y & -> & Hy).
  apply elem_of_take in Hy as (n & Hy & _). apply list_elem_of_lookup_2 in Hy. apply ordered_elem, event_rows_elem in Hy as (_ & _ & _ & Hlt).
  unfold event_of in Hi. simpl in Hi. lia.
Qed.

(** A database that fails while the member is looked up is answered as a missing stream. *)
Theorem poll_hides_errors t user env after limit (w : Net) fs : 0 <= after -> 1 <= limit <= 100 -> w_faults w = NoFault :: Fails :: fs ->
  (Poll uuid_in t user env after limit w).1 = Err ErrStreamNotFound.
Proof.
  intros Ha Hl Hf. unfold Poll. destruct (Z.ltb_spec after 0); [lia|]. destruct (Z.ltb_spec limit 1); [lia|]. destruct (Z.ltb_spec 100 limit); [lia|].
  simpl. unfold with_tx. rewrite Hf. reflexivity.
Qed.
End Streams.

(** ** A client with one event of two *)

Module TwoEvents.
Definition event (n : string) : EventRow := mkEventRow (Some ThreeChecks.env) "monitor.changed" "monitor" n 5.
Definition d : EventDB := mkEventDB (config ThreeChecks.d) {[7 := event "a"; 9 := event "b"]}.
Definition w : World EventDB () := mkWorld d () (fun _ => "") 0 [].
Definition polled := Poll Founders.uuid_in 0 ThreeChecks.user ThreeChecks.env 0 100 w.
Definition events : list Event := [mkEvent 7 "monitor.changed" "monitor" "a" 5; mkEvent 9 "monitor.changed" "monitor" "b" 5].
Lemma poll : polled = (Ok events, polled.2).
Proof. apply pair_fst. vm_compute. reflexivity. Qed.
Definition s : Stream := write 1 events (mkStream 0 []).
(** The client receives the first event, the second is deleted a day later, and a third one comes. *)
Definition cleaned : World EventDB () := mkWorld (expire_events (2 * 24 * hour) d) () (fun _ => "") 0 [].
Definition history : gmap Z EventRow := <[12 := event "c"]> (refresh d).
Definition fresh : World EventDB () := mkWorld (mkEventDB (members d) {[12 := event "c"]}) () (fun _ => "") 0 [].
Definition feed : Feed := mkFeed fresh s history (24 * hour).
Lemma run : rtc (stream_step Founders.uuid_in ThreeChecks.user ThreeChecks.env) (mkFeed w (mkStream 0 []) (refresh d) 0) feed.
Proof.
  eapply rtc_l; [eapply ss_poll; exact poll|].
  eapply rtc_l; [apply (ss_cleanup _ _ _ (2 * 24 * hour) polled.2 cleaned); vm_compute; reflexivity|].
  apply rtc_once. apply (ss_new _ _ _ cleaned fresh); [|vm_compute; reflexivity].
  split; [apply insert_subseteq; vm_compute; reflexivity|].
  intros i j r Hi Hr Hj. unfold history in Hr. destruct (decide (i = 12)) as [->|Hne].
  - destruct Hj as [x Hx]. simpl in Hx. apply lookup_insert_Some in Hx as [[<- _]|[_ Hx]]; [lia|]. apply lookup_singleton_Some in Hx as [<- _]. lia.
  - rewrite lookup_insert_ne in Hr by done. congruence.
Qed.
End TwoEvents.

Lemma stream_exact_witness :
  st_written (fd_stream TwoEvents.feed) = [mkEvent 7 "monitor.changed" "monitor" "a" 5] /\
  exists A, received_from ThreeChecks.env 0 TwoEvents.feed A /\ event_of <$> A = [mkEvent 7 "monitor.changed" "monitor" "a" 5].
Proof.
  split; [reflexivity|].
  destruct (stream_exact Founders.uuid_in ThreeChecks.user ThreeChecks.env ThreeChecks.env 0 0 TwoEvents.w TwoEvents.feed) as (A & HA & _);
    [vm_compute; reflexivity|exact TwoEvents.run|].
  exists A. split; [exact HA|]. symmetry. exact (rf_written _ _ _ _ HA).
Defined.
