(* ===== verification/Mail.v ===== *)
(** * Mail: the SMTP transport and the messages sent through it

    Models internal/platform/mail/smtp.go (the transport), internal/notification/smtp.go
    (incident mail through it) and the senders of internal/auth/verification.go
    (account-action mail through it).

    The network and the mail server are one parameter: what they answer to each
    command of the dialogue.  A delivery also returns the commands it issued with
    their outcomes, in order.  [mail.ParseAddress] and [url.Parse] are parameters;
    text is modelled on bytes, with ASCII white space. *)

From stdpp Require Import base gmap list strings sorting.
From Stdlib Require Import ZArith Lia Ascii String.
From S2P Require Import Prelude Tx Store Bytes Sealing Destination HttpClient Credentials Notification.
Import Netip Secureheaders.

(** ** Text *)

Definition CR : ascii := byte_of 13.
Definition LF : ascii := byte_of 10.
Definition CRLF : string := String CR (String LF "").

(** [strings.ReplaceAll(s, c, "")] and [strings.ReplaceAll(s, c, by)] for one byte. *)
Fixpoint remove_char (c : ascii) (s : string) : string :=
  match s with
  | "" => ""
  | String d r => if Ascii.eqb d c then remove_char c r else String d (remove_char c r)
  end.

Fixpoint replace_char (c : ascii) (by_ : string) (s : string) : string :=
  match s with
  | "" => ""
  | String d r => if Ascii.eqb d c then by_ +:+ replace_char c by_ r else String d (replace_char c by_ r)
  end.

Definition starts (f : ascii -> bool) (s : string) : bool :=
  match s with String c _ => f c | "" => false end.

(** [strings.IndexFunc(s, unicode.IsControl) != -1]: the C0 controls and DEL, or a
    C1 control, which UTF-8 writes as the byte C2 and one of 80 to 9F. *)
Fixpoint has_control (s : string) : bool :=
  match s with
  | "" => false
  | String c r =>
      control c || ((val_of c =? 0xc2) && starts (fun d => (0x80 <=? val_of d) && (val_of d <=? 0x9f)) r)
      || has_control r
  end.

Definition nonempty (s : string) : bool := negb (String.eqb s "").

(** ** Hosts *)

(** [net.ParseIP] refuses an address with a zone. *)
Definition ParseIP (host : string) : option Addr :=
  match ParseAddr host with
  | Some (Addr6 v zone) => if String.eqb zone "" then Some (Addr6 v zone) else None
  | a => a
  end.

Definition isLoopback (host : string) : bool :=
  if EqualFold host "localhost" then true
  else match ParseIP host with Some address => IsLoopback address | None => false end.

(** ** The transport *)

Inductive FailureStage : Type :=
| StageInvalidMessage | StageConnect | StageDeadline | StageHandshake | StageSTARTTLS | StageAuthentication
| StageSender | StageRecipient | StageData | StageWrite | StageAcceptance | StageCompletion.

#[global] Instance FailureStage_eq_dec : EqDecision FailureStage.
Proof. solve_decision. Defined.

Record MailMessage : Type := mkMail {
  mm_Recipient : string;
  mm_Subject : string;
  mm_MessageID : string;
  mm_PlainTextBody : string
}.

(** The server name of [tlsConfig], which is nil for a local transport. *)
Record Transport : Type := mkTransport {
  tp_address : string;
  tp_host : string;
  tp_from : string;
  tp_username : string;
  tp_password : string;
  tp_requireTLS : bool;
  tp_timeout : Z;
  tp_tlsServerName : option string
}.

(** mail.ErrInvalidConfiguration. *)
Definition ErrMailConfiguration : error := ErrorsNew "invalid SMTP configuration".

Definition validMessageID (value : string) : bool :=
  (slen value <=? 128) && negb (contains_newline value || contains_char value "<" || contains_char value ">").

Definition validCredential (value : string) : bool :=
  nonempty value && (slen value <=? 1024) && negb (has_control value).

Definition safeHeader (value : string) : string := TrimSpace (remove_char LF (remove_char CR value)).

(** What a delivery asks of the network and of the server; [NewClient] reads the
    greeting, [WriteText] is the copy into the writer of [Data], [CloseText] closes it. *)
Inductive Command : Type :=
| Dial (address : string)
| SetDeadline (t : Z)
| NewClient (host : string)
| StartTLS (serverName : string)
| Auth (username password host : string)
| MailFrom (from : string)
| RcptTo (recipient : string)
| Data
| WriteText (text : string)
| CloseText
| Quit.

#[global] Instance Command_eq_dec : EqDecision Command.
Proof. solve_decision. Defined.

Section Transport.
(** [mail.ParseAddress]: the name and the address. *)
Variable ParseAddress : string -> option (string * string).

Definition validMailbox (value : string) : bool :=
  if String.eqb value "" || negb (String.eqb value (TrimSpace value)) || (254 <? slen value) || contains_newline value
  then false
  else bool_decide (ParseAddress value = Some ("", value)).

Definition NewLocal (address from : string) (timeout : Z) : res Transport :=
  let address := TrimSpace address in
  let from := TrimSpace from in
  match SplitHostPort address with
  | Some (host, _) =>
      if negb (isLoopback host) || negb (validMailbox from) || (timeout <=? 0) then Err ErrMailConfiguration
      else Ok (mkTransport address host from "" "" false timeout None)
  | None => Err ErrMailConfiguration
  end.

Definition NewOCI (address username password from : string) (timeout : Z) : res Transport :=
  let address := TrimSpace address in
  let username := TrimSpace username in
  let password := TrimSpace password in
  let from := TrimSpace from in
  match SplitHostPort address with
  | Some (host, _) =>
      if bool_decide (is_Some (ParseIP host)) || isLoopback host || negb (validCredential username)
         || negb (validCredential password) || negb (validMailbox from) || (timeout <=? 0)
      then Err ErrMailConfiguration
      else Ok (mkTransport address host from username password true timeout (Some host))
  | None => Err ErrMailConfiguration
  end.

Definition format (t : Transport) (m : MailMessage) : string :=
  "From: " +:+ tp_from t +:+ CRLF +:+
  "To: " +:+ mm_Recipient m +:+ CRLF +:+
  "Subject: " +:+ safeHeader (mm_Subject m) +:+ CRLF +:+
  (if nonempty (mm_MessageID m) then "Message-ID: <" +:+ mm_MessageID m +:+ "@watchtrace.local>" +:+ CRLF else "") +:+
  "Content-Type: text/plain; charset=UTF-8" +:+ CRLF +:+ CRLF +:+
  replace_char LF CRLF (remove_char CR (mm_PlainTextBody m)).

Context {O : Type} (smtp : Command -> O -> bool * O).

(** The commands issued so far, with whether each succeeded. *)
Abbreviation Trace := (list (Command * bool)).

Definition issue (c : Command) (s : O * Trace) : bool * (O * Trace) :=
  let (ok, o) := smtp c s.1 in (ok, (o, s.2 ++ [(c, ok)])).

(** [if err = ...; err != nil { return DeliveryError{Stage: stage} }]. *)
Definition attempt (c : Command) (stage : FailureStage) (k : O * Trace -> option FailureStage * (O * Trace))
    (s : O * Trace) : option FailureStage * (O * Trace) :=
  let (ok, s) := issue c s in if ok then k s else (Some stage, s).

(** The deadline of the connection: [now] are the readings of the clock, [ctx] the
    deadline of the caller's context, if it has one. *)
Definition delivery_deadline (t : Transport) (ctx : option Z) (now : nat -> Z) : Z :=
  let timeoutDeadline := time_add (now 0%nat) (tp_timeout t) in
  let contextDeadline :=
    match ctx with Some d => if before d timeoutDeadline then d else timeoutDeadline | None => timeoutDeadline end in
  let deadline := time_add (now 1%nat) (tp_timeout t) in
  if before contextDeadline deadline then contextDeadline else deadline.

Definition send_mail (t : Transport) (m : MailMessage) : O * Trace -> option FailureStage * (O * Trace) :=
  attempt (MailFrom (tp_from t)) StageSender (
  attempt (RcptTo (mm_Recipient m)) StageRecipient (
  attempt Data StageData (fun s =>
  let (ok, s) := issue (WriteText (format t m)) s in
  if negb ok then let (_, s) := issue CloseText s in (Some StageWrite, s)
  else attempt CloseText StageAcceptance (attempt Quit StageCompletion (fun s => (None, s))) s))).

(** The error of a delivery, nil is [None]; the first argument is the receiver. *)
Definition Deliver (transport : option Transport) (ctx : option Z) (now : nat -> Z) (m : MailMessage)
    (s : O * Trace) : option FailureStage * (O * Trace) :=
  match transport with
  | None => (Some StageInvalidMessage, s)
  | Some t =>
      if negb (validMailbox (mm_Recipient m)) || String.eqb (safeHeader (mm_Subject m)) ""
         || negb (validMessageID (mm_MessageID m))
      then (Some StageInvalidMessage, s)
      else
        attempt (Dial (tp_address t)) StageConnect (
        attempt (SetDeadline (delivery_deadline t ctx now)) StageDeadline (
        attempt (NewClient (tp_host t)) StageHandshake (fun s =>
        if tp_requireTLS t then
          attempt (StartTLS (default "" (tp_tlsServerName t))) StageSTARTTLS (
          attempt (Auth (tp_username t) (tp_password t) (tp_host t)) StageAuthentication (send_mail t m)) s
        else send_mail t m s))) s
  end.
End Transport.

(** ** Incident mail *)

Definition smtpTimeout : Z := 15 * second.

Definition smtpProviderFailure (stage : option FailureStage) : string :=
  match stage with
  | None => "provider_error"
  | Some StageInvalidMessage => "invalid_message"
  | Some StageConnect => "connect_failed"
  | Some StageDeadline => "deadline_failed"
  | Some StageHandshake => "smtp_handshake_failed"
  | Some StageSTARTTLS => "starttls_failed"
  | Some StageAuthentication => "authentication_failed"
  | Some StageSender => "sender_rejected"
  | Some StageRecipient => "recipient_rejected"
  | Some StageData => "data_rejected"
  | Some StageWrite => "write_failed"
  | Some StageAcceptance => "acceptance_failed"
  | Some StageCompletion => "completion_failed"
  end.

Section Provider.
Variable ParseAddress : string -> option (string * string).

Definition NewLocalSMTPProvider (address from : string) : res Transport :=
  match NewLocal ParseAddress address from smtpTimeout with
  | Ok transport => Ok transport
  | Err _ => Err ErrInvalidConfiguration
  end.

Definition NewOCIEmailDeliveryProvider (address username password from : string) : res Transport :=
  match NewOCI ParseAddress address username password from smtpTimeout with
  | Ok transport => Ok transport
  | Err _ => Err ErrInvalidConfiguration
  end.

Context {O : Type} (smtp : Command -> O -> bool * O) (ctx : option Z) (now : nat -> Z).

(** The provider of [Notification.DeliverNext]. *)
Definition Send (transport : option Transport) (message : Message) (s : O * list (Command * bool)) :
    (ProviderResponse + option string) * (O * list (Command * bool)) :=
  match transport with
  | None => (inr (Some "invalid_message"), s)
  | Some _ =>
      if String.eqb (msg_DeliveryID message) "" || String.eqb (msg_IncidentID message) ""
      then (inr (Some "invalid_message"), s)
      else
        let '(err, s) := Deliver ParseAddress smtp transport ctx now
          (mkMail (msg_Recipient message) (msg_Subject message) (msg_DeliveryID message) (msg_PlainTextBody message)) s in
        match err with
        | Some stage => (inr (Some (smtpProviderFailure (Some stage))), s)
        | None => (inl (mkResponse (msg_DeliveryID message) "accepted_by_provider"), s)
        end
  end.
End Provider.

(** ** Queries of URLs (package net/url) *)

Definition unreserved (c : ascii) : bool :=
  let n := val_of c in
  ((48 <=? n) && (n <=? 57)) || ((65 <=? n) && (n <=? 90)) || ((97 <=? n) && (n <=? 122))
  || (n =? 45) || (n =? 95) || (n =? 46) || (n =? 126).

Definition upper_hex (n : Z) : ascii := if n <? 10 then byte_of (48 + n) else byte_of (55 + n).

Fixpoint QueryEscape (s : string) : string :=
  match s with
  | "" => ""
  | String c r =>
      if unreserved c then String c (QueryEscape r)
      else if val_of c =? 32 then String "+" (QueryEscape r)
      else String "%" (String (upper_hex (val_of c / 16)) (String (upper_hex (val_of c mod 16)) (QueryEscape r)))
  end.

Fixpoint QueryUnescape (s : string) : option string :=
  match s with
  | "" => Some ""
  | String c r =>
      if Ascii.eqb c "%" then
        match r with
        | String a (String b r) =>
            match from_hex a, from_hex b with
            | Some x, Some y => String (byte_of (16 * x + y)) <$> QueryUnescape r
            | _, _ => None
            end
        | _ => None
        end
      else if Ascii.eqb c "+" then String " " <$> QueryUnescape r
      else String c <$> QueryUnescape r
  end.

Abbreviation Values := (gmap string (list string)).

(** [values.Set] and [append(values[key], value)]. *)
Definition values_Set (k v : string) (m : Values) : Values := <[k := [v]]> m.
Definition values_append (m : Values) (kv : string * string) : Values :=
  <[kv.1 := default [] (m !! kv.1) ++ [kv.2]]> m.

(** One piece of a query: an empty or malformed piece adds nothing. *)
Definition parse_piece (piece : string) : option (string * string) :=
  if contains_char piece ";" || String.eqb piece "" then None
  else
    let (key, value) := split_at "=" piece in
    key ← QueryUnescape key;
    value ← QueryUnescape (default "" value);
    Some (key, value).

(** [u.Query()], on the raw query: the errors of [ParseQuery] are dropped. *)
Definition Query (query : string) : Values := foldl values_append ∅ (omap parse_piece (split_char "&" query)).

Fixpoint join (sep : string) (l : list string) : string :=
  match l with
  | [] => ""
  | [x] => x
  | x :: l => x +:+ sep +:+ join sep l
  end.

#[global] Instance str_le_trans : Transitive str_le.
Proof.
  intros a b c H1 H2. destruct (str_trichotomy a b) as [Ha|[->|Ha]]; [|done|].
  - destruct (str_trichotomy b c) as [Hb|[->|Hb]]; [|done|].
    + unfold str_le. by rewrite (str_lt_trans a b c Ha Hb).
    + destruct H2. rewrite String.compare_antisym. unfold str_lt in Hb. by rewrite Hb.
  - destruct H1. rewrite String.compare_antisym. unfold str_lt in Ha. by rewrite Ha.
Qed.

#[global] Instance str_le_total : Total str_le.
Proof.
  intros a b. unfold str_le. rewrite (String.compare_antisym a b).
  destruct (String.compare b a); simpl; (by left) || (by right).
Qed.

Definition sorted_keys (m : Values) : list string := merge_sort str_le (map_to_list m).*1.

Definition pairs_of (m : Values) (k : string) : list (string * string) := pair k <$> default [] (m !! k).

Definition encode_pair (kv : string * string) : string := QueryEscape kv.1 +:+ "=" +:+ QueryEscape kv.2.

Definition Encode (m : Values) : string := join "&" (encode_pair <$> (sorted_keys m ≫= pairs_of m)).

(** ** Account-action mail *)

Definition verificationSendTimeout : Z := 5 * second.

Record smtpActionSender : Type := mkSender {
  sd_transport : Transport;
  sd_baseURL : URL;
  sd_resetURL : URL;
  sd_inviteURL : URL
}.

Section Sender.
Context `{UrlLib} (ParseAddress : string -> option (string * string)).

Definition parseLocalActionURL (value : string) : option URL :=
  match url_Parse value with
  | Some parsed =>
      if negb (String.eqb (u_Scheme parsed) "http") || String.eqb (u_Host parsed) ""
         || negb (isLoopback (Hostname parsed)) || bool_decide (is_Some (u_User parsed))
         || nonempty (u_RawQuery parsed) || nonempty (u_Fragment parsed)
      then None else Some parsed
  | None => None
  end.

Definition parseHTTPSActionURL (value : string) : option URL :=
  match url_Parse value with
  | Some parsed =>
      if negb (String.eqb (u_Scheme parsed) "https") || String.eqb (u_Host parsed) ""
         || bool_decide (is_Some (u_User parsed)) || nonempty (u_RawQuery parsed) || nonempty (u_Fragment parsed)
      then None else Some parsed
  | None => None
  end.

Definition NewLocalSMTPSender (address from baseURL resetURL inviteURL : string) : res smtpActionSender :=
  match NewLocal ParseAddress address from verificationSendTimeout with
  | Err _ => Err (ErrorsNew "verification SMTP configuration is invalid")
  | Ok transport =>
      match parseLocalActionURL baseURL with
      | None => Err (ErrorsNew "verification URL must be an absolute loopback HTTP URL without query or fragment")
      | Some parsed =>
          match parseLocalActionURL resetURL with
          | None => Err (ErrorsNew "password-reset URL must be an absolute loopback HTTP URL without query or fragment")
          | Some parsedReset =>
              match parseLocalActionURL inviteURL with
              | None => Err (ErrorsNew "invitation URL must be an absolute loopback HTTP URL without query or fragment")
              | Some parsedInvite => Ok (mkSender transport parsed parsedReset parsedInvite)
              end
          end
      end
  end.

Definition NewOCIEmailDeliverySender (address username password from baseURL resetURL inviteURL : string) :
    res smtpActionSender :=
  match NewOCI ParseAddress address username password from verificationSendTimeout with
  | Err _ => Err (ErrorsNew "OCI verification SMTP configuration is invalid")
  | Ok transport =>
      match parseHTTPSActionURL baseURL with
      | None => Err (ErrorsNew "verification URL must be an absolute HTTPS URL without query or fragment")
      | Some parsed =>
          match parseHTTPSActionURL resetURL with
          | None => Err (ErrorsNew "password-reset URL must be an absolute HTTPS URL without query or fragment")
          | Some parsedReset =>
              match parseHTTPSActionURL inviteURL with
              | None => Err (ErrorsNew "invitation URL must be an absolute HTTPS URL without query or fragment")
              | Some parsedInvite => Ok (mkSender transport parsed parsedReset parsedInvite)
              end
          end
      end
  end.

Definition with_query (u : URL) (query : string) : URL :=
  mkURL (u_Scheme u) (u_Opaque u) (u_User u) (u_Host u) (u_Path u) query (u_Fragment u).

(** The link of a message. *)
Definition actionURL (base : URL) (token : string) : URL :=
  with_query base (Encode (values_Set "token" token (Query (u_RawQuery base)))).

Definition action_message (recipient token : string) (base : URL) (subject instruction : string) : MailMessage :=
  mkMail recipient subject ""
    (instruction +:+ newline +:+ url_String (actionURL base token) +:+ newline +:+ newline +:+
      "If you did not request this action, ignore this message." +:+ newline).

Context {O : Type} (smtp : Command -> O -> bool * O) (ctx : option Z) (now : nat -> Z).

Definition send (sender : smtpActionSender) (message : MailMessage) (s : O * list (Command * bool)) :
    res () * (O * list (Command * bool)) :=
  let '(err, s) := Deliver ParseAddress smtp (Some (sd_transport sender)) ctx now message s in
  match err with
  | Some _ => (Err (ErrorsNew "deliver account-action email"), s)
  | None => (Ok (), s)
  end.

(** One of the three senders: [valid] checks the token, [url] is the page of the action. *)
Definition send_action (valid : string -> bool) (invalid : string) (url : smtpActionSender -> URL)
    (subject instruction : string) (sender : option smtpActionSender) (recipient token : string)
    (s : O * list (Command * bool)) : res () * (O * list (Command * bool)) :=
  match sender with
  | None => (Err (ErrorsNew invalid), s)
  | Some sender =>
      if contains_newline recipient || negb (valid token) then (Err (ErrorsNew invalid), s)
      else send sender (action_message recipient token (url sender) subject instruction) s
  end.

Definition SendVerification : option smtpActionSender -> string -> string ->
    O * list (Command * bool) -> res () * (O * list (Command * bool)) :=
  send_action validVerificationToken "invalid verification delivery input" sd_baseURL
    "Verify your WatchTrace email" "Verify your WatchTrace email within 24 hours:".

Definition SendPasswordReset : option smtpActionSender -> string -> string ->
    O * list (Command * bool) -> res () * (O * list (Command * bool)) :=
  send_action validPasswordResetToken "invalid password-reset delivery input" sd_resetURL
    "Reset your WatchTrace password" "Reset your WatchTrace password within 1 hour:".

Definition SendInvitation : option smtpActionSender -> string -> string ->
    O * list (Command * bool) -> res () * (O * list (Command * bool)) :=
  send_action ValidInvitationToken "invalid invitation delivery input" sd_inviteURL
    "Join a WatchTrace organization" "Accept this WatchTrace invitation within 7 days:".
End Sender.

(** ** Lines *)

Definition on_head (f : string -> string) (l : list string) : list string :=
  match l with x :: l => f x :: l | [] => [f ""] end.

(** The lines that a reader may see in a text: CR LF ends a line, and so do a bare LF
    (the writer of [Data] puts a CR before it) and a bare CR. *)
Fixpoint wire_lines (s : string) : list string :=
  match s with
  | "" => [""]
  | String c r =>
      if Ascii.eqb c LF then "" :: wire_lines r
      else if Ascii.eqb c CR then
        match r with
        | String d r' => if Ascii.eqb d LF then "" :: wire_lines r' else "" :: wire_lines r
        | "" => ["" ; ""]
        end
      else on_head (String c) (wire_lines r)
  end.

(** The lines of a message: its header, an empty line, and the lines of its body. *)
Definition header_lines (t : Transport) (m : MailMessage) : list string :=
  ["From: " +:+ tp_from t; "To: " +:+ mm_Recipient m; "Subject: " +:+ safeHeader (mm_Subject m)] ++
  (if nonempty (mm_MessageID m) then ["Message-ID: <" +:+ mm_MessageID m +:+ "@watchtrace.local>"] else []) ++
  ["Content-Type: text/plain; charset=UTF-8"].

Definition mail_lines (t : Transport) (m : MailMessage) : list string :=
  header_lines t m ++ [""] ++ split_char LF (remove_char CR (mm_PlainTextBody m)).

Lemma wire_lines_app a b : contains_newline a = false -> wire_lines (a +:+ CRLF +:+ b) = a :: wire_lines b.
Proof.
  induction a as [|x a IH]; intros H; [done|]. rewrite append_cons. unfold contains_newline in *. cbn [contains_char wire_lines] in *.
  rewrite !orb_false_iff, !(Ascii.eqb_sym _ x) in H. destruct H as [[Hc Ha] [Hl Hb]].
  change (byte_of 13) with CR in *. change (byte_of 10) with LF in *. rewrite Hl, Hc, IH; [done|]. by rewrite Ha, Hb.
Qed.

Lemma on_head_split c s : on_head (String c) (split_char LF s) =
  match split_char LF s with part :: parts => String c part :: parts | [] => [String c ""] end.
Proof. done. Qed.

Lemma wire_lines_body s : contains_char s CR = false -> wire_lines (replace_char LF CRLF s) = split_char LF s.
Proof.
  induction s as [|x s IH]; intros H; [done|]. cbn [contains_char replace_char split_char] in *.
  apply orb_false_iff in H as [Hx H]. rewrite Ascii.eqb_sym in Hx. destruct (Ascii.eqb x LF) eqn:E.
  - change (CRLF +:+ ?b) with ("" +:+ CRLF +:+ b). by rewrite wire_lines_app, IH.
  - cbn [wire_lines]. by rewrite E, Hx, IH, on_head_split.
Qed.

Lemma remove_char_other c d s : contains_char s c = false -> contains_char (remove_char d s) c = false.
Proof.
  induction s as [|x s IH]; [done|]. cbn [contains_char remove_char]. intros [Hx H]%orb_false_iff.
  destruct (Ascii.eqb x d); [by apply IH|]. cbn [contains_char]. by rewrite Hx, IH.
Qed.

Lemma remove_char_gone c s : contains_char (remove_char c s) c = false.
Proof.
  induction s as [|x s IH]; [done|]. cbn [remove_char]. destruct (Ascii.eqb x c) eqn:E; [done|].
  cbn [contains_char]. by rewrite Ascii.eqb_sym, E.
Qed.

Lemma trim_left_none c s : contains_char s c = false -> contains_char (trim_left s) c = false.
Proof.
  induction s as [|x s IH]; [done|]. cbn [contains_char trim_left]. intros [Hx H]%orb_false_iff.
  destruct (is_space x); [by apply IH|]. cbn [contains_char]. by rewrite Hx.
Qed.

Lemma trim_right_none c s : contains_char s c = false -> contains_char (trim_right s) c = false.
Proof.
  induction s as [|x s IH]; [done|]. cbn [contains_char trim_right]. intros [Hx H]%orb_false_iff.
  destruct (is_space x && _); [done|]. cbn [contains_char]. by rewrite Hx, IH.
Qed.

Lemma safeHeader_one_line s : contains_newline (safeHeader s) = false.
Proof.
  unfold contains_newline, safeHeader, TrimSpace. rewrite orb_false_iff.
  split; apply trim_right_none, trim_left_none; [apply remove_char_other|]; apply remove_char_gone.
Qed.

Lemma one_line a s : contains_newline a = false -> contains_newline s = false -> contains_newline (a +:+ s) = false.
Proof. unfold contains_newline. rewrite !contains_char_app, !orb_false_iff. tauto. Qed.

(** A message whose sender, recipient and identifier have no line breaks has the
    lines of [mail_lines]: no value adds a header, and no line break of the body is
    written in another way than CR LF. *)
Lemma format_lines t m :
  contains_newline (tp_from t) = false -> contains_newline (mm_Recipient m) = false ->
  contains_newline (mm_MessageID m) = false -> wire_lines (format t m) = mail_lines t m.
Proof.
  intros Hf Hr Hi. unfold format, mail_lines, header_lines.
  rewrite <- !(append_assoc "From: "), <- !(append_assoc "To: "), <- !(append_assoc "Subject: ").
  rewrite !wire_lines_app by (apply one_line; [done|]; first [done|apply safeHeader_one_line]).
  assert (wire_lines ("Content-Type: text/plain; charset=UTF-8" +:+ CRLF +:+ CRLF +:+
      replace_char LF CRLF (remove_char CR (mm_PlainTextBody m))) =
    "Content-Type: text/plain; charset=UTF-8" :: "" :: split_char LF (remove_char CR (mm_PlainTextBody m))) as Hb.
  { rewrite wire_lines_app by done. change (CRLF +:+ ?b) with ("" +:+ CRLF +:+ b).
    by rewrite wire_lines_app, wire_lines_body by (done || apply remove_char_gone). }
  destruct (nonempty (mm_MessageID m)).
  - set (id := "Message-ID: <" +:+ mm_MessageID m +:+ "@watchtrace.local>").
    assert (contains_newline id = false) as Hc by (apply one_line; [done|]; by apply one_line).
    replace (("Message-ID: <" +:+ mm_MessageID m +:+ "@watchtrace.local>" +:+ CRLF)) with (id +:+ CRLF)
      by (unfold id; by rewrite !append_assoc).
    rewrite append_assoc, (wire_lines_app id), Hb by done. done.
  - change ("" +:+ ?x) with x. by rewrite Hb.
Qed.

(** ** Deliveries are confined *)

Definition built (ParseAddress : string -> option (string * string)) (t : Transport) : Prop :=
  (exists address from timeout, NewLocal ParseAddress address from timeout = Ok t) \/
  (exists address username password from timeout, NewOCI ParseAddress address username password from timeout = Ok t).

(** What must not be seen on the wire: credentials, addresses and text. *)
Definition confidential (c : Command) : bool :=
  match c with Auth _ _ _ | MailFrom _ | RcptTo _ | WriteText _ => true | _ => false end.

Lemma validMailbox_line P s : validMailbox P s = true -> contains_newline s = false.
Proof. unfold validMailbox. destruct (contains_newline s); [|done]. by rewrite orb_true_r. Qed.

Lemma built_spec P t : built P t ->
  contains_newline (tp_from t) = false /\ 0 < tp_timeout t /\
  (exists port, SplitHostPort (tp_address t) = Some (tp_host t, port)) /\
  (if tp_requireTLS t then tp_tlsServerName t = Some (tp_host t) /\ isLoopback (tp_host t) = false
   else isLoopback (tp_host t) = true /\ tp_username t = "" /\ tp_password t = "").
Proof.
  intros [(a & f & d & H)|(a & u & p & f & d & H)]; [unfold NewLocal in H|unfold NewOCI in H].
  all: destruct (SplitHostPort (TrimSpace a)) as [[host port]|] eqn:Es; [|done].
  all: destruct (_ || _) eqn:E in H; [done|]; injection H as <-; simpl.
  all: rewrite !orb_false_iff, ?negb_false_iff in E; destruct_and?.
  all: repeat split; eauto using validMailbox_line; lia.
Qed.

(** [c] is only issued once TLS with [host] is up. *)
Fixpoint after_tls (host : string) (secure : bool) (trace : list (Command * bool)) : bool :=
  match trace with
  | [] => true
  | (c, ok) :: trace =>
      (negb (confidential c) || secure) && after_tls host (secure || (bool_decide (c = StartTLS host) && ok)) trace
  end.

Lemma after_tls_spec host trace l1 c ok l2 secure :
  after_tls host secure trace = true -> trace = l1 ++ (c, ok) :: l2 -> confidential c = true ->
  secure = true \/ (StartTLS host, true) ∈ l1.
Proof.
  revert secure l1. induction trace as [|[c' ok'] trace IH]; intros secure l1 H E Hc; [by destruct l1|].
  cbn [after_tls] in H. apply andb_true_iff in H as [H1 H2]. destruct l1 as [|x l1]; simplify_eq/=.
  - rewrite Hc in H1. by left.
  - destruct (IH _ _ H2 eq_refl Hc) as [Hs|Hs]; [|right; set_solver].
    destruct secure; [by left|]. simpl in Hs. apply andb_true_iff in Hs as [->%bool_decide_eq_true_1 ->].
    right. left.
Qed.

(** What a command of a delivery of [m] through [t] may say. *)
Definition command_ok (t : Transport) (m : MailMessage) (c : Command) : Prop :=
  match c with
  | Dial address => exists port, SplitHostPort address = Some (tp_host t, port)
  | Auth username password host =>
      tp_requireTLS t = true /\ username = tp_username t /\ password = tp_password t /\ host = tp_host t
  | MailFrom from => from = tp_from t
  | RcptTo recipient => recipient = mm_Recipient m
  | WriteText text => wire_lines text = mail_lines t m
  | _ => True
  end.

Definition succeeded (x : Command * bool) : Prop := x.2 = true.

Lemma Deliver_trace P {O} (smtp : Command -> O -> bool * O) t ctx now m o :
  built P t ->
  let '(r, (_, trace)) := Deliver P smtp (Some t) ctx now m (o, []) in
  (r = Some StageInvalidMessage <-> trace = []) /\
  (r = None <-> trace <> [] /\ Forall succeeded trace) /\
  (r = None -> (RcptTo (mm_Recipient m), true) ∈ trace /\ (WriteText (format t m), true) ∈ trace /\
    (CloseText, true) ∈ trace) /\
  Forall (fun x => command_ok t m x.1) trace /\
  (tp_requireTLS t = true -> after_tls (tp_host t) false trace = true).
Proof.
  intros (Hf & _ & Hd & Ht)%built_spec. unfold Deliver, send_mail.
  destruct (_ || _) eqn:E; [by rewrite Forall_nil; split_and!; [|split; [|intros []]|..]|].
  rewrite !orb_false_iff, !negb_false_iff in E. destruct E as [[Hr _] Hi].
  assert (wire_lines (format t m) = mail_lines t m) as Hl.
  { apply format_lines; [done|by eapply validMailbox_line|]. unfold validMessageID in Hi.
    apply andb_true_iff in Hi as [_ Hi]. rewrite negb_true_iff, !orb_false_iff in Hi. tauto. }
  set (text := format t m) in *. clearbody text.
  assert (tp_requireTLS t = true -> default "" (tp_tlsServerName t) = tp_host t) as Hs.
  { intros Hq. rewrite Hq in Ht. by destruct Ht as [-> _]. }
  clear Ht. unfold attempt, issue. destruct (tp_requireTLS t) eqn:Hq; [rewrite Hs by done|]; clear Hs; cbn [fst snd];
    repeat (match goal with |- context [smtp ?c ?o] => destruct (smtp c o) as [[] ?] end; cbn [fst snd app negb]).
  all: split_and!; [split; done
    |first [split; [done|intros [_ HF]; rewrite !Forall_cons in HF; unfold succeeded in HF; destruct_and?; discriminate]
           |split; [intros _; split; [done|]; repeat (apply Forall_cons_2; [done|]); by apply Forall_nil_2|done]]
    |intros Hx; first [discriminate|split_and!; repeat first [apply list_elem_of_here|apply list_elem_of_further]]
    |repeat (apply Forall_cons_2; [by simpl|]); by apply Forall_nil_2
    |intros Hx; first [discriminate|cbn [after_tls confidential]];
      repeat first [rewrite bool_decide_eq_false_2 by done|rewrite bool_decide_eq_true_2 by done]; done].
Qed.

Lemma Deliver_frame P {O} (smtp : Command -> O -> bool * O) t ctx now m o before :
  Deliver P smtp t ctx now m (o, before) =
  let '(r, (o', trace)) := Deliver P smtp t ctx now m (o, []) in (r, (o', before ++ trace)).
Proof.
  unfold Deliver, send_mail, attempt, issue. destruct t as [t|]; [|by rewrite app_nil_r].
  destruct (_ || _); [by rewrite app_nil_r|]. cbn [fst snd].
  destruct (tp_requireTLS t);
    repeat (match goal with |- context [smtp ?c ?o] => destruct (smtp c o) as [[] ?] end; cbn [fst snd negb]);
    by rewrite <- ?app_assoc.
Qed.

(** C39: whatever the network and the mail server do, a delivery through a transport
    that [NewLocal] or [NewOCI] built is confined.  It refuses a malformed message
    before it connects; it succeeds exactly when every command of its dialogue did,
    and then the server took the recipient, the text and the end of the text; every
    text it sends has exactly the header lines of the message, an empty line and the
    lines of the body, wherever a line break of any kind (CR LF, LF or CR) is taken to
    end a line, so that no field can add a header; it connects only to the host
    it was built for; a local transport has a loopback host and never sends
    credentials; any other has started TLS with its host before it sends credentials,
    an address or text. *)
Theorem Deliver_safe P {O} (smtp : Command -> O -> bool * O) t ctx now m o :
  built P t ->
  let '(r, (_, trace)) := Deliver P smtp (Some t) ctx now m (o, []) in
  (r = Some StageInvalidMessage <-> trace = []) /\
  (r = None <-> trace <> [] /\ Forall succeeded trace) /\
  (r = None -> (RcptTo (mm_Recipient m), true) ∈ trace /\ (WriteText (format t m), true) ∈ trace /\
    (CloseText, true) ∈ trace) /\
  (forall text ok, (WriteText text, ok) ∈ trace -> wire_lines text = mail_lines t m) /\
  (forall address ok, (Dial address, ok) ∈ trace -> exists port, SplitHostPort address = Some (tp_host t, port)) /\
  (if tp_requireTLS t
   then forall l1 c ok l2, trace = l1 ++ (c, ok) :: l2 -> confidential c = true -> (StartTLS (tp_host t), true) ∈ l1
   else isLoopback (tp_host t) = true /\ forall u p h ok, (Auth u p h, ok) ∉ trace).
Proof.
  intros Hb. pose proof (Deliver_trace P smtp t ctx now m o Hb) as H.
  destruct (Deliver P smtp (Some t) ctx now m (o, [])) as [r [o' trace]].
  destruct H as (H1 & H2 & H3 & Hok & Htls). rewrite Forall_forall in Hok.
  split_and!; [done..|intros text ok Hx; exact (Hok _ Hx)|intros address ok Hx; exact (Hok _ Hx)|].
  apply built_spec in Hb as (_ & _ & _ & Hr). destruct (tp_requireTLS t) eqn:Hq.
  - intros l1 c ok l2 E Hc. by destruct (after_tls_spec _ _ _ _ _ _ _ (Htls eq_refl) E Hc).
  - split; [apply Hr|]. intros u p h ok Hx. apply Hok in Hx as [Hx _]. congruence.
Qed.

(** With a working database, a delivery of incident mail over SMTP is recorded as
    accepted exactly when its dialogue with the server succeeded to the end; what is
    sent goes to the stored recipient only and carries the identifier of the
    delivery in its header. *)
Theorem incident_mail P {O} (smtp : Command -> O -> bool * O) t ctx clock workerID lease locked started now at_
    (w : World DB (O * list (Command * bool))) :
  w_faults w = [] -> delivery_inv (w_db w, []) -> built P t ->
  let '(r, w') := DeliverNext (Send P smtp ctx clock (Some t)) workerID lease locked started now at_ w in
  match candidate now locked (reclaim now (w_db w)) with
  | None => r = Ok false /\ w_ext w' = w_ext w
  | Some (id, row) =>
      exists row' trace, r = Ok true /\ notification_outbox (w_db w') !! id = Some row' /\
      (w_ext w').2 = (w_ext w).2 ++ trace /\
      (nt_state row' = DAccepted <-> trace <> [] /\ Forall succeeded trace) /\
      (forall recipient ok, (RcptTo recipient, ok) ∈ trace -> recipient = nt_recipient_email row) /\
      (forall text ok, (WriteText text, ok) ∈ trace -> exists subject body, wire_lines text =
        ["From: " +:+ tp_from t; "To: " +:+ nt_recipient_email row; "Subject: " +:+ subject;
         "Message-ID: <" +:+ id +:+ "@watchtrace.local>"; "Content-Type: text/plain; charset=UTF-8"; ""] ++ body)
  end.
Proof.
  intros Hf Hi Hb.
  pose proof (DeliverNext_outcome (Send P smtp ctx clock (Some t)) workerID lease locked started now at_ w Hf Hi) as H.
  destruct (DeliverNext _ _ _ _ _ _ _ w) as [r w'].
  destruct (candidate now locked (reclaim now (w_db w))) as [[id row]|] eqn:Ec; [|tauto].
  destruct H as (message & row' & -> & <- & Hr & Hext & Hrow & _ & _ & Hst). exists row'.
  rewrite <- Hr.
  assert (nt_state row' = DAccepted <->
    exists response, (Send P smtp ctx clock (Some t) message (w_ext w)).1 = inl response) as Hacc.
  { destruct (Send P smtp ctx clock (Some t) message (w_ext w)).1 as [x|x]; [by split; eauto|].
    split; [|by intros []]. destruct (_ =? 3); [congruence|]. by destruct Hst as [-> _]. }
  clear Hst. unfold Send in Hext, Hacc. destruct (w_ext w) as [o before]. destruct (_ || _) eqn:Eid.
  - exists []. simpl in *. rewrite Hext. split_and!; [done|done|by rewrite app_nil_r| |by set_solver..].
    rewrite Hacc. split; by intros [].
  - rewrite Deliver_frame in Hext, Hacc.
    set (m := mkMail _ _ _ _) in *. pose proof (Deliver_trace P smtp t ctx clock m o Hb) as H.
    destruct (Deliver P smtp (Some t) ctx clock m (o, [])) as [err [o' trace]].
    destruct H as (_ & Hall & _ & Hok & _). rewrite Forall_forall in Hok. exists trace.
    split_and!; [done|done|by destruct err; simpl in Hext; rewrite Hext| | |].
    + rewrite <- Hall, Hacc. destruct err; simpl; split; (done || eauto || by intros []).
    + intros recipient ok Hx. exact (Hok _ Hx).
    + intros text ok Hx. apply Hok in Hx. simpl in Hx. rewrite Hx. unfold mail_lines, header_lines. simpl.
      apply orb_false_iff in Eid as [Eid _]. unfold nonempty. rewrite Eid. simpl. eauto.
Qed.

(** ** Queries and links *)

Lemma from_upper_hex n : 0 <= n < 16 -> from_hex (upper_hex n) = Some n.
Proof.
  intros Hn. assert (forallb (fun n => bool_decide (from_hex (upper_hex n) = Some n)) (seqZ 0 16) = true) as H
    by (vm_compute; reflexivity).
  rewrite forallb_forall in H. specialize (H n). rewrite bool_decide_eq_true in H. apply H.
  apply list_elem_of_In, elem_of_seqZ. lia.
Qed.

(** The characters that have a meaning in a query. *)
Definition reserved (c : ascii) : Prop := c = "&"%char \/ c = ";"%char \/ c = "="%char.

Lemma unreserved_plain c d : unreserved c = true -> unreserved d = false -> Ascii.eqb c d = false.
Proof. intros Hc Hd. apply Ascii.eqb_neq. congruence. Qed.

Lemma upper_hex_unreserved n : 0 <= n < 16 -> unreserved (upper_hex n) = true.
Proof.
  intros Hn. assert (forallb (fun n => unreserved (upper_hex n)) (seqZ 0 16) = true) as H by (vm_compute; reflexivity).
  rewrite forallb_forall in H. apply H, list_elem_of_In, elem_of_seqZ. lia.
Qed.

Lemma nibbles c : 0 <= val_of c / 16 < 16 /\ 0 <= val_of c mod 16 < 16 /\
  16 * (val_of c / 16) + val_of c mod 16 = val_of c.
Proof. pose proof (val_of_bound c). Z.to_euclidean_division_equations. lia. Qed.

Lemma QueryUnescape_Escape s : QueryUnescape (QueryEscape s) = Some s.
Proof.
  induction s as [|c s IH]; [done|]. cbn [QueryEscape]. destruct (unreserved c) eqn:E.
  - cbn [QueryUnescape]. by rewrite !(unreserved_plain c), IH.
  - destruct (Z.eqb_spec (val_of c) 32) as [H32|H32].
    + cbn [QueryUnescape Ascii.eqb]. rewrite IH. simpl. do 2 f_equal. rewrite <- (byte_of_val c), H32. done.
    + pose proof (nibbles c) as (Ha & Hb & Hc). cbn [QueryUnescape Ascii.eqb].
      rewrite !from_upper_hex, IH by done. simpl. by rewrite Hc, byte_of_val.
Qed.

Lemma QueryEscape_plain s d : reserved d -> contains_char (QueryEscape s) d = false.
Proof.
  intros Hd. assert (unreserved d = false /\ Ascii.eqb d "+" = false /\ Ascii.eqb d "%" = false) as (Hu & Hp & Hq)
    by (destruct Hd as [->|[->| ->]]; done).
  assert (forall c, unreserved c = true -> Ascii.eqb d c = false) as Hn.
  { intros c Hc. rewrite Ascii.eqb_sym. by apply unreserved_plain. }
  induction s as [|c s IH]; [done|]. cbn [QueryEscape]. destruct (unreserved c) eqn:E.
  - cbn [contains_char]. by rewrite (Hn c).
  - pose proof (nibbles c) as (Ha & Hb & _).
    destruct (val_of c =? 32); cbn [contains_char]; rewrite ?Hp, ?Hq, ?Hn by (by apply upper_hex_unreserved); done.
Qed.

Lemma split_at_app c a b : contains_char a c = false -> split_at c (a +:+ String c b) = (a, Some b).
Proof.
  induction a as [|x a IH]; intros H; rewrite ?append_cons; cbn [contains_char split_at] in *.
  - change ("" +:+ ?y) with y. cbn [split_at]. by rewrite Ascii.eqb_refl.
  - apply orb_false_iff in H as [Hx H]. rewrite Ascii.eqb_sym in Hx. by rewrite Hx, IH.
Qed.

Lemma encode_pair_plain kv d : d = "&"%char \/ d = ";"%char -> contains_char (encode_pair kv) d = false.
Proof.
  intros Hd. unfold encode_pair. rewrite !contains_char_app, !QueryEscape_plain by (unfold reserved; tauto).
  by destruct Hd as [-> | ->].
Qed.

Lemma parse_encode_pair kv : parse_piece (encode_pair kv) = Some kv.
Proof.
  unfold parse_piece. rewrite encode_pair_plain by auto.
  assert (String.eqb (encode_pair kv) "" = false) as ->.
  { unfold encode_pair. by destruct (QueryEscape kv.1). }
  simpl. unfold encode_pair. change ("=" +:+ ?b) with (String "=" b).
  rewrite split_at_app by (apply QueryEscape_plain; unfold reserved; auto). simpl.
  rewrite !QueryUnescape_Escape. by destruct kv.
Qed.

Lemma split_join l : l <> [] -> Forall (fun s => contains_char s "&" = false) l -> split_char "&" (join "&" l) = l.
Proof.
  intros Hne HF. induction HF as [|x l Hx HF IH]; [done|]. destruct l as [|y l].
  - simpl. by apply split_char_none.
  - change (join "&" (x :: y :: l)) with (x +:+ String "&" (join "&" (y :: l))).
    by rewrite split_char_app, IH.
Qed.

Lemma Query_join l : Query (join "&" (encode_pair <$> l)) = foldl values_append ∅ l.
Proof.
  destruct (decide (l = [])) as [->|Hne]; [done|]. unfold Query. rewrite split_join.
  - f_equal. clear Hne. induction l as [|kv l IH]; [done|]. csimpl.
    by rewrite parse_encode_pair, IH.
  - by destruct l.
  - apply Forall_fmap, Forall_true. intros kv. apply encode_pair_plain. auto.
Qed.

Lemma foldl_pairs k l m :
  l <> [] -> m !! k = None -> foldl values_append m (pair k <$> l) = <[k := l]> m.
Proof.
  intros Hne Hk. assert (forall l m l0, m !! k = Some l0 ->
    foldl values_append m (pair k <$> l) = <[k := l0 ++ l]> m) as H.
  { clear. induction l as [|v l IH]; intros m l0 Hm; simpl.
    - by rewrite app_nil_r, insert_id.
    - change (values_append m (k, v)) with (<[k := default [] (m !! k) ++ [v]]> m). rewrite Hm. simpl. rewrite (IH _ (l0 ++ [v])) by apply lookup_insert_eq.
      by rewrite insert_insert_eq, <- app_assoc. }
  destruct l as [|v l]; [done|]. simpl. change (values_append m (k, v)) with (<[k := default [] (m !! k) ++ [v]]> m).
  rewrite Hk. simpl.
  rewrite (H _ _ [v]) by apply lookup_insert_eq. by rewrite insert_insert_eq.
Qed.

Lemma foldl_keys m keys acc :
  NoDup keys -> map_Forall (fun _ l => l <> []) m -> Forall (fun k => is_Some (m !! k) /\ acc !! k = None) keys ->
  foldl values_append acc (keys ≫= pairs_of m) = filter (fun x => x.1 ∈ keys) m ∪ acc.
Proof.
  revert acc. induction keys as [|k keys IH]; intros acc Hnd Hm HF.
  { simpl. replace (filter _ m) with (∅ : Values); [by rewrite (left_id_L ∅ (∪))|].
    apply map_eq. intros i. rewrite map_lookup_filter, lookup_empty. destruct (m !! i); cbn [mbind option_bind]; [|done].
    by rewrite option_guard_False by apply not_elem_of_nil. }
  apply NoDup_cons in Hnd as [Hk Hnd]. apply Forall_cons in HF as [[[l Hl] Hacc] HF]. simpl.
  rewrite foldl_app. change (pairs_of m k) with (pair k <$> default [] (m !! k)). rewrite Hl. simpl default.
  rewrite foldl_pairs by (done || by eapply Hm).
  rewrite IH; [|done..|].
  - apply map_eq. intros i. rewrite !lookup_union, !map_lookup_filter.
    destruct (decide (i = k)) as [->|Hi].
    + rewrite lookup_insert_eq, Hl. cbn [mbind option_bind]. rewrite option_guard_False, option_guard_True by set_solver. by rewrite Hacc.
    + rewrite lookup_insert_ne by done. destruct (m !! i) as [x|]; cbn [mbind option_bind]; [|done].
      destruct (decide (i ∈ keys)).
      * rewrite !option_guard_True by set_solver. done.
      * rewrite !option_guard_False by set_solver. done.
  - rewrite Forall_forall in *. intros x Hx. destruct (HF x Hx). split; [done|].
    rewrite lookup_insert_ne; [done|]. by intros <-.
Qed.

(** A query written from values is read back as those values. *)
Theorem Query_Encode (m : Values) : map_Forall (fun _ l => l <> []) m -> Query (Encode m) = m.
Proof.
  intros Hm. unfold Encode. rewrite Query_join.
  assert (sorted_keys m ≡ₚ (map_to_list m).*1) as Hp by apply merge_sort_Permutation.
  rewrite foldl_keys.
  - rewrite (right_id_L ∅ (∪)). apply map_filter_id. intros k l Hk. rewrite Hp.
    apply list_elem_of_fmap. exists (k, l). split; [done|]. by apply elem_of_map_to_list.
  - rewrite Hp. apply NoDup_fst_map_to_list.
  - done.
  - apply Forall_forall. intros k. rewrite Hp, list_elem_of_fmap. intros ([k' l] & -> & Hk).
    apply elem_of_map_to_list in Hk. split; [by exists l|apply lookup_empty].
Qed.

Lemma action_url_plain `{UrlLib} value u :
  parseLocalActionURL value = Some u \/ parseHTTPSActionURL value = Some u ->
  url_Parse value = Some u /\ u_RawQuery u = "" /\ u_User u = None /\ u_Fragment u = "" /\ u_Host u <> "".
Proof.
  assert (forall s, nonempty s = false -> s = "") as Hn.
  { intros s Hs. unfold nonempty in Hs. by apply negb_false_iff, String.eqb_eq in Hs. }
  intros [E|E]; [unfold parseLocalActionURL in E|unfold parseHTTPSActionURL in E];
    (destruct (url_Parse value) as [p|] eqn:Ep; [|done]); destruct (_ || _) eqn:Eb in E; [done| |done|]; injection E as ->;
    rewrite !orb_false_iff in Eb; destruct_and?; split_and!; auto using String.eqb_neq;
    try (by apply String.eqb_neq);
    match goal with Hu : bool_decide _ = false |- _ => apply bool_decide_eq_false in Hu; by apply eq_None_not_Some end.
Qed.

(** The link of an account action leads to the configured page and carries the token
    as its only parameter, whatever bytes the token has. *)
Theorem action_link `{UrlLib} value u token :
  parseLocalActionURL value = Some u \/ parseHTTPSActionURL value = Some u ->
  with_query (actionURL u token) "" = u /\ Query (u_RawQuery (actionURL u token)) = {["token" := [token]]}.
Proof.
  intros (_ & Hq & _)%action_url_plain. unfold actionURL. split.
  - unfold with_query. simpl. rewrite <- Hq. by destruct u.
  - cbn [with_query u_RawQuery]. rewrite Hq. unfold values_Set. change (Query "") with (∅ : Values).
    rewrite insert_empty. apply Query_Encode. by apply map_Forall_singleton.
Qed.

(** ** A mail server *)
Module Server.
Definition ParseAddress (s : string) : option (string * string) := Some ("", s).

(** Counts the texts it takes; [fails] says which commands it refuses. *)
Definition server (fails : Command -> bool) (c : Command) (taken : nat) : bool * nat :=
  if fails c then (false, taken) else (true, match c with CloseText => S taken | _ => taken end).

Definition transport : Transport :=
  mkTransport "127.0.0.1:1025" "127.0.0.1" "watchtrace@localhost" "" "" false smtpTimeout None.
Definition secure : Transport :=
  mkTransport "smtp.test:587" "smtp.test" "alerts@watchtrace.test" "user" "secret" true smtpTimeout (Some "smtp.test").

Lemma transport_built : built ParseAddress transport.
Proof. left. exists "127.0.0.1:1025", "watchtrace@localhost", smtpTimeout. vm_compute. reflexivity. Qed.
Lemma secure_built : built ParseAddress secure.
Proof.
  right. exists "smtp.test:587", "user", "secret", "alerts@watchtrace.test", smtpTimeout. vm_compute. reflexivity.
Qed.

(** A subject and a body that try to add a header. *)
Definition newlines : MailMessage :=
  mkMail "member@example.test" ("opened" +:+ CRLF +:+ "Bcc: other@example.test") "n" ("line" +:+ CRLF +:+ "next").

Definition world : World DB (nat * list (Command * bool)) :=
  mkWorld OneDelivery.db (0%nat, []) (fun n => if (n =? 0)%nat then "t" else "u") 0 [].

Definition deliver (fails : Command -> bool) (now : Z) :=
  DeliverNext (Send ParseAddress (server fails) None (fun _ => now) (Some transport)) "worker" (30 * second)
    (fun _ => false) now now now.
End Server.

Lemma Deliver_safe_witness :
  (Deliver Server.ParseAddress (Server.server (fun _ => false)) (Some Server.secure) None (fun _ => 0)
    Server.newlines (0%nat, [])).1 = None /\
  wire_lines (format Server.secure Server.newlines) = mail_lines Server.secure Server.newlines /\
  mail_lines Server.secure Server.newlines !! 2%nat = Some "Subject: openedBcc: other@example.test".
Proof.
  pose proof (Deliver_safe Server.ParseAddress (Server.server (fun _ => false)) Server.secure None (fun _ => 0)
    Server.newlines 0%nat Server.secure_built) as H.
  split; [vm_compute; reflexivity|]. split; [|vm_compute; reflexivity].
  destruct (Deliver _ _ _ _ _ _ _) as [r [o trace]] eqn:E in H.
  destruct H as (_ & _ & H3 & H4 & _).
  assert (r = None) as Hr by (vm_compute in E; congruence).
  destruct (H3 Hr) as (_ & Hw & _). exact (H4 _ _ Hw).
Defined.

Lemma incident_mail_witness :
  exists row' trace, nt_state row' = DAccepted /\
    notification_outbox (w_db (Server.deliver (fun _ => false) 20 Server.world).2) !! "n" = Some row' /\
    (w_ext (Server.deliver (fun _ => false) 20 Server.world).2).2 = trace /\ trace <> [].
Proof.
  pose proof (incident_mail Server.ParseAddress (Server.server (fun _ => false)) Server.transport None (fun _ => 20)
    "worker" (30 * second) (fun _ => false) 20 20 20 Server.world eq_refl OneDelivery.one_delivery_inv
    Server.transport_built) as H.
  fold (Server.deliver (fun _ => false) 20 Server.world) in H.
  destruct (Server.deliver (fun _ => false) 20 Server.world) as [r w'] eqn:E.
  destruct (candidate 20 (fun _ => false) (reclaim 20 (w_db Server.world))) as [[id row]|] eqn:Ec.
  - destruct H as (row' & trace & _ & Hrow & Hext & Hacc & _).
    assert (id = "n") as -> by (vm_compute in Ec; congruence).
    assert (trace = (w_ext w').2) as Ht by (rewrite Hext; reflexivity).
    assert (trace <> [] /\ Forall succeeded trace) as Hall.
    { rewrite Ht. change w' with (r, w').2. rewrite <- E. vm_compute. split; [discriminate|repeat constructor]. }
    exists row', trace. split_and!; [by apply Hacc|done|by symmetry|apply Hall].
  - vm_compute in Ec. discriminate.
Defined.

(** A server that takes the mail but fails QUIT makes the attempt a failed one: a
    minute later the worker sends the same mail again, and the server takes it twice. *)
Theorem quit_failure_mails_again :
  let fails c := match c with Quit => true | _ => false end in
  let '(_, w1) := Server.deliver fails 20 Server.world in
  let '(_, w2) := Server.deliver fails (20 + minute) w1 in
  (w_ext w1).1 = 1%nat /\ (w_ext w2).1 = 2%nat /\
  nt_state <$> notification_outbox (w_db w2) !! "n" = Some DPending.
Proof. vm_compute. repeat split. Qed.
