(* ===== verification/Config.v ===== *)
(** * Config: the settings of every process

    Models internal/platform/config: the environment variables and files from which
    the API (config.go), the monitoring engine (monitor_engine.go), the worker
    (worker.go), the queue gateway (queue_gateway.go) and the notification worker
    (notification_worker.go) are configured, with command_helpers.go.

    The environment and the file system are parameters; so are [url.Parse], the
    parsing of certificates, the JSON of a key ring, the Ed25519 key of a seed and the
    one floating-point step of [time.ParseDuration].  Text has ASCII white space. *)

From stdpp Require Import base gmap list strings.
From Stdlib Require Import ZArith Lia Ascii String.
From S2P Require Import Prelude Bytes Sealing Destination HttpClient Workqueue Credentials Mail.
Import Netip Secureheaders.

(** ** Errors *)

#[global] Instance res_ret : MRet res := fun A a => Ok a.
#[global] Instance res_bind : MBind res := fun A B k m => match m with Ok a => k a | Err e => Err e end.

(** [if bad { return ..., errors.New(text) }]. *)
Definition refuse_if (bad : bool) (text : string) : res () := if bad then Err (ErrorsNew text) else Ok ().
Definition or_else {A} (o : option A) (text : string) : res A :=
  match o with Some a => Ok a | None => Err (ErrorsNew text) end.

Lemma refuse_if_ok bad text u : refuse_if bad text = Ok u -> bad = false.
Proof. by destruct bad. Qed.
Lemma or_else_ok {A} (o : option A) text a : or_else o text = Ok a -> o = Some a.
Proof. destruct o; simpl; congruence. Qed.
Lemma res_bind_ok {A B} (m : res A) (k : A -> res B) b : (m ≫= k) = Ok b -> exists a, m = Ok a /\ k a = Ok b.
Proof. destruct m as [a|e]; [by exists a|done]. Qed.

Ltac split_result a :=
  lazymatch type of a with
  | unit => destruct a
  | prod _ _ => let b := fresh "x" in let c := fresh "x" in destruct a as [b c]; split_result b
  | _ => idtac
  end.

(** [res_inv H] splits a computation that succeeded into its steps. *)
Ltac res_inv H :=
  lazymatch type of H with
  | mbind _ _ = Ok _ =>
      let a := fresh "x" in let E := fresh "E" in
      apply res_bind_ok in H as (a & E & H);
      try (apply refuse_if_ok in E); try (apply or_else_ok in E); split_result a; res_inv H
  | mret _ = Ok _ => unfold mret, res_ret in H; res_inv H
  | Ok _ = Ok _ => injection H as H; try subst
  | _ => idtac
  end.

(** ** Numbers: [strconv.ParseInt(s, 10, bits)] *)

Definition ParseInt (bits : Z) (s : string) : option Z :=
  n ← Atoi s;
  if (- 2 ^ (bits - 1) <=? n) && (n <=? 2 ^ (bits - 1) - 1) then Some n else None.

(** ** Durations: [time.ParseDuration] *)

Section Durations.
(** [uint64(float64(f) * (float64(unit) / scale))]. *)
Variable fraction : Z -> Z -> Z -> Z.

Definition uint64 (z : Z) : Z := z mod 2 ^ 64.

Fixpoint leadingInt (s : string) (x : Z) : option (Z * string) :=
  match s with
  | "" => Some (x, "")
  | String c r =>
      match digit c with
      | None => Some (x, s)
      | Some d =>
          if 2 ^ 63 / 10 <? x then None
          else let x := x * 10 + d in if 2 ^ 63 <? x then None else leadingInt r x
      end
  end.

Fixpoint leadingFraction (s : string) (x scale : Z) (overflow : bool) : Z * Z * string :=
  match s with
  | "" => (x, scale, "")
  | String c r =>
      match digit c with
      | None => (x, scale, s)
      | Some d =>
          if overflow || ((2 ^ 63 - 1) / 10 <? x) then leadingFraction r x scale true
          else
            let y := x * 10 + d in
            if 2 ^ 63 <? y then leadingFraction r x scale true else leadingFraction r y (scale * 10) false
      end
  end.

Definition unit_end (c : ascii) : bool := Ascii.eqb c "." || bool_decide (is_Some (digit c)).

(** The text up to the next digit or period, and the rest. *)
Fixpoint take_unit (s : string) : string * string :=
  match s with
  | "" => ("", "")
  | String c r => if unit_end c then ("", s) else let (u, rest) := take_unit r in (String c u, rest)
  end.

Definition unitMap (u : string) : option Z :=
  if String.eqb u "ns" then Some nanosecond
  else if String.eqb u "us" || String.eqb u "µs" || String.eqb u "μs" then Some microsecond
  else if String.eqb u "ms" then Some (1000 * microsecond)
  else if String.eqb u "s" then Some second
  else if String.eqb u "m" then Some minute
  else if String.eqb u "h" then Some hour
  else None.

(** One turn of the loop: the value of the next number with its unit, and the rest. *)
Definition next_amount (s : string) : option (Z * string) :=
  match s with
  | "" => None
  | String c _ =>
      if negb (unit_end c) then None else
      '(v, rest) ← leadingInt s 0;
      let pre := negb (slen s =? slen rest) in
      let '(f, scale, rest', post) :=
        match rest with
        | String d r => if Ascii.eqb d "."
            then let '(f, scale, r') := leadingFraction r 0 1 false in (f, scale, r', negb (slen r =? slen r'))
            else (0, 1, rest, false)
        | "" => (0, 1, rest, false)
        end in
      if negb pre && negb post then None else
      let (u, rest'') := take_unit rest' in
      if String.eqb u "" then None else
      unit ← unitMap u;
      if 2 ^ 63 / unit <? v then None else
      let v := v * unit in
      if 0 <? f then
        let v := uint64 (v + fraction f unit scale) in
        if 2 ^ 63 <? v then None else Some (v, rest'')
      else Some (v, rest'')
  end.

(** The loop; every turn takes at least the unit, so the length is fuel enough. *)
Fixpoint amounts (fuel : nat) (s : string) (d : Z) : option Z :=
  match s with
  | "" => Some d
  | _ =>
      match fuel with
      | 0%nat => None
      | S fuel =>
          '(v, rest) ← next_amount s;
          let d := uint64 (d + v) in
          if 2 ^ 63 <? d then None else amounts fuel rest d
      end
  end.

Definition ParseDuration (s : string) : option Z :=
  let '(neg, s) :=
    match s with
    | String c r => if Ascii.eqb c "-" then (true, r) else if Ascii.eqb c "+" then (false, r) else (false, s)
    | "" => (false, "")
    end in
  if String.eqb s "0" then Some 0
  else if String.eqb s "" then None
  else
    d ← amounts (String.length s) s 0;
    if neg then Some (int64 (- d)) else if 2 ^ 63 - 1 <? d then None else Some d.
End Durations.

(** ** Prefixes: [netip.ParsePrefix] *)

Definition ParsePrefix (s : string) : option Prefix :=
  '(addr, bitsStr) ← cut_last "/" s;
  ip ← ParseAddr addr;
  if nonempty (Zone ip) then None else
  let bad := match bitsStr with
             | String c (String _ _) => negb ((49 <=? val_of c) && (val_of c <=? 57))
             | _ => false
             end in
  if bad then None else
  bits ← Atoi bitsStr;
  if (bits <? 0) || (BitLen ip <? bits) then None else Some (mkPrefix ip bits).

(** ** What the loaders read and call *)

Class ConfigLib : Type := {
  duration_fraction : Z -> Z -> Z -> Z;
  ed25519_NewKeyFromSeed : bytes -> bytes;
  TlsCertificate : Type;
  CertPool : Type;
  X509KeyPair : bytes -> bytes -> option TlsCertificate;
  CertPool_from_PEM : bytes -> option CertPool;      (* a pool that took a certificate *)
  (* the three fields of a key ring; the entries of an object in the order in which a
     range loop visits them *)
  UnmarshalKeyring : bytes -> option (list (string * string) * list (string * string) * list string)
}.

(** A private key has 64 bytes. *)
Class ConfigLaws {L : ConfigLib} : Prop := {
  private_key_length seed : slen (ed25519_NewKeyFromSeed seed) = 64
}.

Definition PrivateKeySize : Z := 64.
Definition PublicKeySize : Z := 32.
Definition SeedSize : nat := 32.

Record commandSource : Type := mkSource { lookup_env : string -> option string; read_file : string -> option bytes }.

Section Helpers.
Context `{UrlLib} `{ConfigLib}.
Variable source : commandSource.

Definition value (name fallback : string) : string :=
  match lookup_env source name with
  | Some v => let v := TrimSpace v in if nonempty v then v else fallback
  | None => fallback
  end.

Definition optional (name : string) : string := TrimSpace (default "" (lookup_env source name)).

Definition required (name : string) : res string :=
  let v := optional name in
  if String.eqb v "" then Err (ErrorsNew (name +:+ " is required")) else Ok v.

Fixpoint allowedLength (length : Z) (allowed : list Z) : bool :=
  match allowed with
  | [] => false
  | candidate :: allowed => if length =? candidate then true else allowedLength length allowed
  end.

Definition base64KeyPath (path label : string) (sizes : list Z) : res bytes :=
  data ← or_else (read_file source path) (label +:+ " could not be read");
  match base64_decode (TrimSpace data) with
  | Some decoded =>
      if negb (allowedLength (slen decoded) sizes) then Err (ErrorsNew (label +:+ " contains an invalid base64 key"))
      else Ok decoded
  | None => Err (ErrorsNew (label +:+ " contains an invalid base64 key"))
  end.

Definition base64KeyFile (environmentName : string) (sizes : list Z) : res bytes :=
  path ← required environmentName;
  base64KeyPath path environmentName sizes.

Definition port_ok (portValue : string) : bool :=
  match Atoi portValue with Some port => negb ((port <? 1) || (65535 <? port)) | None => false end.

Definition contains_space (s : string) : bool :=
  contains_char s " " || contains_char s (byte_of 9) || contains_newline s.

Definition validateListenAddress (name v : string) : res () :=
  match SplitHostPort v with
  | None => Err (ErrorsNew (name +:+ " must be in host:port form"))
  | Some (host, portValue) =>
      _ ← refuse_if (contains_space host) (name +:+ " must be in host:port form");
      refuse_if (negb (port_ok portValue)) (name +:+ " contains an invalid port")
  end.

Definition validateHTTPSURL (name v : string) : res () :=
  let text := name +:+ " must be an absolute HTTPS URL without credentials, query, or fragment" in
  match url_Parse v with
  | None => Err (ErrorsNew text)
  | Some parsed =>
      refuse_if (negb (String.eqb (u_Scheme parsed) "https") || String.eqb (u_Host parsed) ""
        || bool_decide (is_Some (u_User parsed)) || nonempty (u_RawQuery parsed) || nonempty (u_Fragment parsed)) text
  end.

(** The bounds are left out of the text. *)
Definition parseDuration (name v : string) (maximum : Z) : res Z :=
  let text := name +:+ " must be a duration" in
  match ParseDuration duration_fraction v with
  | None => Err (ErrorsNew text)
  | Some parsed => if (parsed <? - maximum) || (maximum <? parsed) then Err (ErrorsNew text) else Ok parsed
  end.

Definition keyPair (certificatePath keyPath certificateLabel keyLabel : string) : res TlsCertificate :=
  certificate ← or_else (read_file source certificatePath) (certificateLabel +:+ " could not be read");
  key ← or_else (read_file source keyPath) (keyLabel +:+ " could not be read");
  or_else (X509KeyPair certificate key) "TLS certificate and key are invalid".

Definition certificatePool (path label : string) : res CertPool :=
  data ← or_else (read_file source path) (label +:+ " could not be read");
  or_else (CertPool_from_PEM data) (label +:+ " does not contain a valid CA certificate").

(** The fields of [tls.Config] that are set; the minimum version is TLS 1.2 in both. *)
Record TlsConfig : Type := mkTls {
  tl_Certificate : TlsCertificate;
  tl_RootCAs : option CertPool;
  tl_ClientCAs : option CertPool;
  tl_RequireClientCert : bool
}.

Definition tls_parts (certEnvironment keyEnvironment caEnvironment : string) : res (TlsCertificate * CertPool) :=
  certificatePath ← required certEnvironment;
  keyPath ← required keyEnvironment;
  caPath ← required caEnvironment;
  certificate ← keyPair certificatePath keyPath certEnvironment keyEnvironment;
  roots ← certificatePool caPath caEnvironment;
  mret (certificate, roots).

Definition clientTLS (certEnvironment keyEnvironment caEnvironment : string) : res TlsConfig :=
  '(certificate, roots) ← tls_parts certEnvironment keyEnvironment caEnvironment;
  mret (mkTls certificate (Some roots) None false).

Definition serverMTLS (certEnvironment keyEnvironment caEnvironment : string) : res TlsConfig :=
  '(certificate, roots) ← tls_parts certEnvironment keyEnvironment caEnvironment;
  mret (mkTls certificate None (Some roots) true).

(** *** The database *)

Definition databaseURLEnvironment : string := "WATCHTRACE_DATABASE_URL".

(** [strings.Trim(s, "/") == ""]. *)
Definition only_slashes (s : string) : bool := forall_char (fun c => Ascii.eqb c "/") s.

Definition validateDatabaseURL (v : string) : res () :=
  let name := databaseURLEnvironment in
  parsed ← or_else (url_Parse v) (name +:+ " must be a valid PostgreSQL URL");
  _ ← refuse_if (negb (String.eqb (u_Scheme parsed) "postgres") && negb (String.eqb (u_Scheme parsed) "postgresql"))
        (name +:+ " must use the postgres or postgresql scheme");
  _ ← refuse_if (String.eqb (default "" (u_User parsed)) "") (name +:+ " must include a database user");
  _ ← refuse_if (String.eqb (Hostname parsed) "") (name +:+ " must include a database host");
  _ ← refuse_if (nonempty (Port parsed) && negb (port_ok (Port parsed))) (name +:+ " contains an invalid database port");
  _ ← refuse_if (only_slashes (u_Path parsed)) (name +:+ " must include a database name");
  refuse_if (nonempty (u_Fragment parsed)) (name +:+ " must not contain a fragment").

Definition loadDatabaseURL : res string :=
  let databaseURL := optional databaseURLEnvironment in
  _ ← refuse_if (String.eqb databaseURL "") (databaseURLEnvironment +:+ " is required");
  _ ← validateDatabaseURL databaseURL;
  mret databaseURL.

(** *** Settings of the API *)

Definition stringSetting (name fallback : string) : string :=
  match lookup_env source name with Some v => TrimSpace v | None => fallback end.

Definition secretSetting (valueEnvironment fileEnvironment fallback : string) (required_ : bool) : res string :=
  let v := optional valueEnvironment in
  let path := optional fileEnvironment in
  _ ← refuse_if (nonempty v && nonempty path) (valueEnvironment +:+ " and " +:+ fileEnvironment +:+ " must not both be set");
  v ← (if nonempty path
       then data ← or_else (read_file source path) (fileEnvironment +:+ " could not be read"); mret (TrimSpace data)
       else mret v);
  if String.eqb v "" then
    _ ← refuse_if required_ (valueEnvironment +:+ " or " +:+ fileEnvironment +:+ " is required in production");
    mret fallback
  else mret v.
End Helpers.

(** ** The API *)

Record Config : Type := mkConfig {
  c_DatabaseURL : string;
  c_HTTPAddress : string;
  c_ShutdownTimeout : Z;
  c_Production : bool;
  c_VerificationSMTPAddress : string;
  c_VerificationProvider : string;
  c_VerificationSMTPUsername : string;
  c_VerificationSMTPPassword : string;
  c_VerificationFrom : string;
  c_VerificationURL : string;
  c_PasswordResetURL : string;
  c_InvitationURL : string;
  c_MonitorHeaderKey : bytes;
  c_MonitorHeaderKeyVersion : Z;
  c_PlatformSigningKey : bytes;
  c_PlatformSigningKeyID : string
}.

Definition httpAddressEnvironment : string := "WATCHTRACE_HTTP_ADDRESS".
Definition shutdownTimeoutEnvironment : string := "WATCHTRACE_SHUTDOWN_TIMEOUT".
Definition deploymentEnvironment : string := "WATCHTRACE_ENVIRONMENT".
Definition monitorHeaderKeyEnvironment : string := "WATCHTRACE_MONITOR_HEADER_KEY".
Definition monitorHeaderKeyFileEnvironment : string := "WATCHTRACE_MONITOR_HEADER_KEY_FILE".
Definition monitorHeaderKeyVersionEnvironment : string := "WATCHTRACE_MONITOR_HEADER_KEY_VERSION".
Definition platformSigningKeyEnvironment : string := "WATCHTRACE_PLATFORM_SIGNING_PRIVATE_KEY".
Definition platformSigningKeyFileEnvironment : string := "WATCHTRACE_PLATFORM_SIGNING_KEY_FILE".
Definition platformSigningKeyIDEnvironment : string := "WATCHTRACE_PLATFORM_SIGNING_KEY_ID".
Definition defaultDevelopmentHeaderKey : string := "V2F0Y2hUcmFjZS1kZXYtaGVhZGVyLWtleS0wMDAwMSE=".

Fixpoint zeros (n : nat) : bytes := match n with O => "" | S n => String (byte_of 0) (zeros n) end.

Section Load.
Context `{UrlLib} `{ConfigLib}.
Variable source : commandSource.

Definition load_http_address : res string :=
  match lookup_env source httpAddressEnvironment with
  | Some v =>
      let v := TrimSpace v in
      if String.eqb v "" then Err (ErrorsNew (httpAddressEnvironment +:+ " must not be empty")) else Ok v
  | None => Ok "127.0.0.1:8080"
  end.

Definition load_shutdown_timeout : res Z :=
  match lookup_env source shutdownTimeoutEnvironment with
  | Some v =>
      match ParseDuration duration_fraction (TrimSpace v) with
      | Some parsed =>
          if parsed <=? 0 then Err (ErrorsNew (shutdownTimeoutEnvironment +:+ " must be a positive duration")) else Ok parsed
      | None => Err (ErrorsNew (shutdownTimeoutEnvironment +:+ " must be a positive duration"))
      end
  | None => Ok (10 * second)
  end.

Definition load_environment : res string :=
  let environment := match lookup_env source deploymentEnvironment with
                     | Some v => to_lower (TrimSpace v)
                     | None => "development"
                     end in
  if negb (String.eqb environment "development") && negb (String.eqb environment "production")
  then Err (ErrorsNew (deploymentEnvironment +:+ " must be development or production")) else Ok environment.

Definition load_header_key_version : res Z :=
  match lookup_env source monitorHeaderKeyVersionEnvironment with
  | Some v =>
      match ParseInt 32 (TrimSpace v) with
      | Some parsed =>
          if parsed <? 1 then Err (ErrorsNew (monitorHeaderKeyVersionEnvironment +:+ " must be a positive integer"))
          else Ok (int32 parsed)
      | None => Err (ErrorsNew (monitorHeaderKeyVersionEnvironment +:+ " must be a positive integer"))
      end
  | None => Ok 1
  end.

Definition fallback_signing_key : bytes := ed25519_NewKeyFromSeed (zeros SeedSize).

Definition decode_signing_key (v : string) : res bytes :=
  if String.eqb v "" then Ok fallback_signing_key
  else match base64_decode (TrimSpace v) with
       | Some decoded =>
           if negb (slen decoded =? PrivateKeySize)
           then Err (ErrorsNew (platformSigningKeyEnvironment +:+ " must be a base64-encoded Ed25519 private key"))
           else Ok decoded
       | None => Err (ErrorsNew (platformSigningKeyEnvironment +:+ " must be a base64-encoded Ed25519 private key"))
       end.

Definition loadWithFiles : res Config :=
  databaseURL ← loadDatabaseURL source;
  httpAddress ← load_http_address;
  _ ← validateListenAddress httpAddressEnvironment httpAddress;
  shutdownTimeout ← load_shutdown_timeout;
  environment ← load_environment;
  let production := String.eqb environment "production" in
  let setting := stringSetting source in
  let verificationSMTP := setting "WATCHTRACE_VERIFICATION_SMTP_ADDRESS" "127.0.0.1:1025" in
  let verificationProvider := to_lower (setting "WATCHTRACE_VERIFICATION_PROVIDER" "local") in
  let verificationUsername := setting "WATCHTRACE_VERIFICATION_SMTP_USERNAME" "" in
  let verificationPassword := setting "WATCHTRACE_VERIFICATION_SMTP_PASSWORD" "" in
  let verificationFrom := setting "WATCHTRACE_VERIFICATION_FROM" "watchtrace@localhost" in
  let verificationURL := setting "WATCHTRACE_VERIFICATION_URL" "http://127.0.0.1:3000/verify-email" in
  let passwordResetURL := setting "WATCHTRACE_PASSWORD_RESET_URL" "http://127.0.0.1:3000/reset-password" in
  let invitationURL := setting "WATCHTRACE_INVITATION_URL" "http://127.0.0.1:3000/accept-invitation" in
  _ ← refuse_if (String.eqb verificationSMTP "" || String.eqb verificationFrom "" || String.eqb verificationURL ""
        || String.eqb passwordResetURL "" || String.eqb invitationURL "") "email verification settings must not be empty";
  _ ← refuse_if (negb (String.eqb verificationProvider "local") && negb (String.eqb verificationProvider "oci"))
        "WATCHTRACE_VERIFICATION_PROVIDER must be local or oci";
  _ ← refuse_if (String.eqb verificationProvider "oci"
        && (String.eqb verificationUsername "" || String.eqb verificationPassword ""))
        "OCI verification SMTP credentials are required";
  headerKeyValue ← secretSetting source monitorHeaderKeyEnvironment monitorHeaderKeyFileEnvironment
    defaultDevelopmentHeaderKey production;
  headerKey ← or_else (base64_decode headerKeyValue) (monitorHeaderKeyEnvironment +:+ " must be base64-encoded 32 bytes");
  _ ← refuse_if (negb (slen headerKey =? 32)) (monitorHeaderKeyEnvironment +:+ " must be base64-encoded 32 bytes");
  headerKeyVersion ← load_header_key_version;
  signingKeyValue ← secretSetting source platformSigningKeyEnvironment platformSigningKeyFileEnvironment
    (base64_encode fallback_signing_key) production;
  signingKey ← decode_signing_key signingKeyValue;
  let signingKeyID := setting platformSigningKeyIDEnvironment "platform-v1" in
  _ ← refuse_if (String.eqb signingKeyID "" || (64 <? slen signingKeyID))
        (platformSigningKeyIDEnvironment +:+ " must be between 1 and 64 bytes");
  mret (mkConfig databaseURL httpAddress shutdownTimeout production verificationSMTP verificationProvider
    verificationUsername verificationPassword verificationFrom verificationURL passwordResetURL invitationURL
    headerKey headerKeyVersion signingKey signingKeyID).
End Load.

(** ** The monitoring engine *)

Record MonitorEngineConfig : Type := mkEngineConfig {
  me_DatabaseURL : string;
  me_SigningKey : bytes;
  me_SigningKeyID : string;
  me_HeaderKey : bytes;
  me_QuarantineKey : bytes;
  me_JobQueueURL : string;
  me_ResultQueueURL : string;
  me_JobDLQURL : string;
  me_ResultDLQURL : string;
  me_SQSEndpoint : string;
  me_HealthAddress : string
}.

Definition monitorSigningKeyIDEnvironment : string := "WATCHTRACE_PLATFORM_SIGNING_KEY_ID".
Definition monitorHealthAddressEnvironment : string := "WATCHTRACE_ENGINE_HEALTH_ADDRESS".
Definition engineHeaderKeyFileEnvironment : string := "WATCHTRACE_MONITOR_HEADER_KEY_FILE".
Definition sqsEndpointEnvironment : string := "WATCHTRACE_SQS_ENDPOINT".

Definition loadMonitorEngine `{UrlLib} (source : commandSource) : res MonitorEngineConfig :=
  databaseURL ← loadDatabaseURL source;
  signingKey ← base64KeyFile source "WATCHTRACE_PLATFORM_SIGNING_KEY" [PrivateKeySize];
  headerKey ← base64KeyFile source engineHeaderKeyFileEnvironment [32];
  quarantineKey ← base64KeyFile source "WATCHTRACE_QUARANTINE_KEY" [32];
  let signingKeyID := value source monitorSigningKeyIDEnvironment "platform-v1" in
  _ ← refuse_if (64 <? slen signingKeyID) (monitorSigningKeyIDEnvironment +:+ " must not exceed 64 bytes");
  jobQueueURL ← required source "WATCHTRACE_SQS_HOSTED_JOB_QUEUE_URL";
  resultQueueURL ← required source "WATCHTRACE_SQS_RESULT_QUEUE_URL";
  jobDLQURL ← required source "WATCHTRACE_SQS_HOSTED_JOB_DLQ_URL";
  resultDLQURL ← required source "WATCHTRACE_SQS_RESULT_DLQ_URL";
  let healthAddress := value source monitorHealthAddressEnvironment "127.0.0.1:8091" in
  _ ← validateListenAddress monitorHealthAddressEnvironment healthAddress;
  mret (mkEngineConfig databaseURL signingKey signingKeyID headerKey quarantineKey jobQueueURL resultQueueURL
    jobDLQURL resultDLQURL (optional source sqsEndpointEnvironment) healthAddress).

(** ** The worker *)

Record WorkerKeyring : Type := mkWorkerKeyring {
  wk_WorkerEncryption : gmap string bytes;
  wk_PlatformSigning : gmap string bytes;
  wk_Revoked : gset string
}.

Definition WorkerTransportHTTPS : string := "https".
Definition WorkerTransportDirectSQS : string := "direct_sqs".

Section Worker.
Context `{UrlLib} `{ConfigLib}.
Variable source : commandSource.

Record WorkerConfig : Type := mkWorkerConfig {
  wc_PoolID : string;
  wc_WorkerID : string;
  wc_EncryptionKeyID : string;
  wc_ResultKeyID : string;
  wc_PlatformKeyID : string;
  wc_EncryptionKey : bytes;
  wc_ResultKey : bytes;
  wc_PlatformPublicKey : bytes;
  wc_Keyring : WorkerKeyring;
  wc_JournalPath : string;
  wc_PrivateCIDRs : list Prefix;
  wc_Transport : string;
  wc_JobQueueURL : string;
  wc_ResultQueueURL : string;
  wc_SQSEndpoint : string;
  wc_GatewayURL : string;
  wc_ClientTLS : option TlsConfig;
  wc_HealthAddress : string;
  wc_ClockOffset : Z
}.

Definition workerKeyringEnvironment : string := "WATCHTRACE_WORKER_KEYRING".
Definition workerPrivateCIDRsEnvironment : string := "WATCHTRACE_PRIVATE_CIDRS".
Definition workerHealthAddressEnvironment : string := "WATCHTRACE_WORKER_HEALTH_ADDRESS".
Definition workerClockOffsetEnvironment : string := "WATCHTRACE_CLOCK_OFFSET".
Definition workerGatewayURLEnvironment : string := "WATCHTRACE_GATEWAY_URL".

Fixpoint load_prefixes (raws : list string) : res (list Prefix) :=
  match raws with
  | [] => Ok []
  | raw :: raws =>
      let raw := TrimSpace raw in
      if String.eqb raw "" then load_prefixes raws else
      prefix ← or_else (ParsePrefix raw) (workerPrivateCIDRsEnvironment +:+ " contains an invalid prefix");
      prefixes ← load_prefixes raws;
      mret (prefix :: prefixes)
  end.

(** The loop over one of the two maps of a key ring. *)
Fixpoint load_ring (entries : list (string * string)) (size : Z) (keys : gmap string bytes) : res (gmap string bytes) :=
  match entries with
  | [] => Ok keys
  | (id, keyPath) :: entries =>
      _ ← refuse_if (String.eqb id "") "WATCHTRACE_WORKER_KEYRING is invalid";
      key ← base64KeyPath source keyPath workerKeyringEnvironment [size];
      load_ring entries size (<[id := key]> keys)
  end.

Fixpoint load_revoked (ids : list string) (revoked : gset string) : res (gset string) :=
  match ids with
  | [] => Ok revoked
  | id :: ids =>
      _ ← refuse_if (String.eqb (TrimSpace id) "") "WATCHTRACE_WORKER_KEYRING is invalid";
      load_revoked ids ({[id]} ∪ revoked)
  end.

Definition loadWorkerKeyring : res WorkerKeyring :=
  let path := optional source workerKeyringEnvironment in
  if String.eqb path "" then Ok (mkWorkerKeyring ∅ ∅ ∅) else
  data ← or_else (read_file source path) "WATCHTRACE_WORKER_KEYRING could not be read";
  '(encryption, signing, ids) ← or_else (UnmarshalKeyring data) "WATCHTRACE_WORKER_KEYRING is invalid";
  workerEncryption ← load_ring encryption 32 ∅;
  platformSigning ← load_ring signing PublicKeySize ∅;
  revoked ← load_revoked ids ∅;
  mret (mkWorkerKeyring workerEncryption platformSigning revoked).

(** The settings of the transport: the queues, or the gateway and its TLS. *)
Definition load_transport (transport : string) : res (string * string * string * string * option TlsConfig) :=
  if String.eqb transport WorkerTransportDirectSQS then
    jobQueueURL ← required source "WATCHTRACE_SQS_HOSTED_JOB_QUEUE_URL";
    resultQueueURL ← required source "WATCHTRACE_SQS_RESULT_QUEUE_URL";
    mret (jobQueueURL, resultQueueURL, optional source sqsEndpointEnvironment, "", None)
  else if String.eqb transport WorkerTransportHTTPS then
    gatewayURL ← required source workerGatewayURLEnvironment;
    _ ← validateHTTPSURL workerGatewayURLEnvironment gatewayURL;
    tls ← clientTLS source "WATCHTRACE_MTLS_CERT" "WATCHTRACE_MTLS_KEY" "WATCHTRACE_GATEWAY_CA";
    mret ("", "", "", gatewayURL, Some tls)
  else Err (ErrorsNew "WATCHTRACE_WORKER_TRANSPORT must be https or direct_sqs").

Definition loadWorker : res WorkerConfig :=
  poolID ← required source "WATCHTRACE_WORKER_POOL_ID";
  workerID ← required source "WATCHTRACE_WORKER_ID";
  encryptionKeyID ← required source "WATCHTRACE_WORKER_ENCRYPTION_KEY_ID";
  resultKeyID ← required source "WATCHTRACE_RESULT_KEY_ID";
  platformKeyID ← required source "WATCHTRACE_PLATFORM_SIGNING_KEY_ID";
  encryptionKey ← base64KeyFile source "WATCHTRACE_WORKER_ENCRYPTION_KEY" [32];
  resultKey ← base64KeyFile source "WATCHTRACE_WORKER_RESULT_KEY" [PrivateKeySize];
  platformKey ← base64KeyFile source "WATCHTRACE_PLATFORM_SIGNING_PUBLIC_KEY" [PublicKeySize];
  let journalPath := value source "WATCHTRACE_WORKER_JOURNAL" "/var/lib/watchtrace-worker/journal.sqlite" in
  let healthAddress := value source workerHealthAddressEnvironment "127.0.0.1:8090" in
  _ ← validateListenAddress workerHealthAddressEnvironment healthAddress;
  clockOffset ← parseDuration workerClockOffsetEnvironment (value source workerClockOffsetEnvironment "0s") (24 * hour);
  privateCIDRs ← load_prefixes (split_char "," (optional source workerPrivateCIDRsEnvironment));
  keyring ← loadWorkerKeyring;
  let transport := value source "WATCHTRACE_WORKER_TRANSPORT" WorkerTransportHTTPS in
  '(jobQueueURL, resultQueueURL, sqsEndpoint, gatewayURL, tls) ← load_transport transport;
  mret (mkWorkerConfig poolID workerID encryptionKeyID resultKeyID platformKeyID encryptionKey resultKey platformKey
    keyring journalPath privateCIDRs transport jobQueueURL resultQueueURL sqsEndpoint gatewayURL tls healthAddress
    clockOffset).

(** ** The queue gateway *)

Record QueueGatewayConfig : Type := mkGatewayConfig {
  qg_SignedConfig : bytes;
  qg_SigningPublicKey : bytes;
  qg_LeaseKey : bytes;
  qg_ServerTLS : TlsConfig;
  qg_Address : string;
  qg_SQSEndpoint : string
}.

Definition gatewayConfigEnvironment : string := "WATCHTRACE_GATEWAY_CONFIG".
Definition gatewayAddressEnvironment : string := "WATCHTRACE_GATEWAY_ADDRESS".

Definition loadQueueGateway : res QueueGatewayConfig :=
  configPath ← required source gatewayConfigEnvironment;
  signedConfig ← or_else (read_file source configPath) (gatewayConfigEnvironment +:+ " could not be read");
  signingKey ← base64KeyFile source "WATCHTRACE_GATEWAY_CONFIG_SIGNING_PUBLIC_KEY" [PublicKeySize];
  leaseKey ← base64KeyFile source "WATCHTRACE_GATEWAY_LEASE_KEY" [32];
  serverTLS ← serverMTLS source "WATCHTRACE_GATEWAY_CERT" "WATCHTRACE_GATEWAY_KEY" "WATCHTRACE_GATEWAY_CLIENT_CA";
  let address := value source gatewayAddressEnvironment "127.0.0.1:8443" in
  _ ← validateListenAddress gatewayAddressEnvironment address;
  mret (mkGatewayConfig signedConfig signingKey leaseKey serverTLS address (optional source sqsEndpointEnvironment)).

(** ** The notification worker *)

Record NotificationWorkerConfig : Type := mkNotificationConfig {
  nw_DatabaseURL : string;
  nw_Provider : string;
  nw_SMTPAddress : string;
  nw_SMTPUsername : string;
  nw_SMTPPassword : string;
  nw_From : string;
  nw_WorkerID : string;
  nw_HealthAddress : string
}.

Definition notificationHealthAddressEnvironment : string := "WATCHTRACE_NOTIFICATION_HEALTH_ADDRESS".

Definition loadNotificationWorker (ParseAddress : string -> option (string * string)) : res NotificationWorkerConfig :=
  databaseURL ← loadDatabaseURL source;
  let c := mkNotificationConfig databaseURL
    (to_lower (value source "WATCHTRACE_NOTIFICATION_PROVIDER" "local"))
    (value source "WATCHTRACE_NOTIFICATION_SMTP_ADDRESS" "127.0.0.1:1025")
    (optional source "WATCHTRACE_NOTIFICATION_SMTP_USERNAME")
    (optional source "WATCHTRACE_NOTIFICATION_SMTP_PASSWORD")
    (value source "WATCHTRACE_NOTIFICATION_FROM" "watchtrace@localhost")
    (value source "WATCHTRACE_NOTIFICATION_WORKER_ID" "notification-worker-1")
    (value source notificationHealthAddressEnvironment "127.0.0.1:8092") in
  _ ← validateListenAddress notificationHealthAddressEnvironment (nw_HealthAddress c);
  transport ←
    (if String.eqb (nw_Provider c) "local" then mret (NewLocal ParseAddress (nw_SMTPAddress c) (nw_From c) second)
     else if String.eqb (nw_Provider c) "oci"
     then mret (NewOCI ParseAddress (nw_SMTPAddress c) (nw_SMTPUsername c) (nw_SMTPPassword c) (nw_From c) second)
     else Err (ErrorsNew "WATCHTRACE_NOTIFICATION_PROVIDER must be local or oci"));
  match transport with
  | Err _ => Err (ErrorsNew "notification SMTP configuration is invalid")
  | Ok _ => mret c
  end.
End Worker.

(** ** What a loaded configuration promises *)

Definition listen_ok (v : string) : Prop :=
  exists host portValue port, SplitHostPort v = Some (host, portValue) /\ contains_space host = false /\
    Atoi portValue = Some port /\ 1 <= port <= 65535.

Definition database_ok `{UrlLib} (v : string) : Prop :=
  exists u user, url_Parse v = Some u /\ (u_Scheme u = "postgres" \/ u_Scheme u = "postgresql") /\
    u_User u = Some user /\ user <> "" /\ Hostname u <> "" /\ u_Fragment u = "" /\ only_slashes (u_Path u) = false /\
    (Port u = "" \/ exists port, Atoi (Port u) = Some port /\ 1 <= port <= 65535).

Definition https_ok `{UrlLib} (v : string) : Prop :=
  exists u, url_Parse v = Some u /\ u_Scheme u = "https" /\ u_Host u <> "" /\ u_User u = None /\
    u_RawQuery u = "" /\ u_Fragment u = "".

Definition prefix_ok (p : Prefix) : Prop := wf (p_addr p) /\ Zone (p_addr p) = "" /\ 0 <= p_bits p <= BitLen (p_addr p).

(** A secret that was configured: in the variable, or in the file that the other names. *)
Definition configured (source : commandSource) (valueEnvironment fileEnvironment v : string) : Prop :=
  v <> "" /\
  ((optional source fileEnvironment = "" /\ v = optional source valueEnvironment) \/
   (optional source valueEnvironment = "" /\ exists data,
     read_file source (optional source fileEnvironment) = Some data /\ v = TrimSpace data)).

Definition config_ok `{UrlLib} (c : Config) : Prop :=
  database_ok (c_DatabaseURL c) /\ listen_ok (c_HTTPAddress c) /\ 0 < c_ShutdownTimeout c <= max_int64 /\
  (c_VerificationProvider c = "local" \/
   c_VerificationProvider c = "oci" /\ c_VerificationSMTPUsername c <> "" /\ c_VerificationSMTPPassword c <> "") /\
  slen (c_MonitorHeaderKey c) = 32 /\ 1 <= c_MonitorHeaderKeyVersion c <= 2 ^ 31 - 1 /\
  slen (c_PlatformSigningKey c) = 64 /\ 1 <= slen (c_PlatformSigningKeyID c) <= 64.

Definition engine_ok `{UrlLib} (c : MonitorEngineConfig) : Prop :=
  database_ok (me_DatabaseURL c) /\ listen_ok (me_HealthAddress c) /\ slen (me_SigningKey c) = 64 /\
  1 <= slen (me_SigningKeyID c) <= 64 /\ slen (me_HeaderKey c) = 32 /\ slen (me_QuarantineKey c) = 32 /\
  me_JobQueueURL c <> "" /\ me_ResultQueueURL c <> "" /\ me_JobDLQURL c <> "" /\ me_ResultDLQURL c <> "".

Definition keyring_ok (k : WorkerKeyring) : Prop :=
  map_Forall (fun id key => id <> "" /\ slen key = 32) (wk_WorkerEncryption k) /\
  map_Forall (fun id key => id <> "" /\ slen key = 32) (wk_PlatformSigning k) /\
  set_Forall (fun id => TrimSpace id <> "") (wk_Revoked k).

Section Promises.
Context `{UrlLib} {L : ConfigLib}.

Definition worker_ok (c : WorkerConfig) : Prop :=
  wc_PoolID c <> "" /\ wc_WorkerID c <> "" /\ wc_EncryptionKeyID c <> "" /\ wc_ResultKeyID c <> "" /\
  wc_PlatformKeyID c <> "" /\ slen (wc_EncryptionKey c) = 32 /\ slen (wc_ResultKey c) = 64 /\
  slen (wc_PlatformPublicKey c) = 32 /\ keyring_ok (wc_Keyring c) /\ listen_ok (wc_HealthAddress c) /\
  - (24 * hour) <= wc_ClockOffset c <= 24 * hour /\ Forall prefix_ok (wc_PrivateCIDRs c) /\
  (wc_Transport c = WorkerTransportDirectSQS /\ wc_JobQueueURL c <> "" /\ wc_ResultQueueURL c <> "" \/
   wc_Transport c = WorkerTransportHTTPS /\ https_ok (wc_GatewayURL c) /\
   exists tls, wc_ClientTLS c = Some tls /\ is_Some (tl_RootCAs tls)).

Definition gateway_ok (c : QueueGatewayConfig) : Prop :=
  slen (qg_SigningPublicKey c) = 32 /\ slen (qg_LeaseKey c) = 32 /\ listen_ok (qg_Address c) /\
  tl_RequireClientCert (qg_ServerTLS c) = true /\ is_Some (tl_ClientCAs (qg_ServerTLS c)).

Definition notification_ok ParseAddress (c : NotificationWorkerConfig) : Prop :=
  database_ok (nw_DatabaseURL c) /\ listen_ok (nw_HealthAddress c) /\ nw_WorkerID c <> "" /\
  exists t, if String.eqb (nw_Provider c) "oci"
            then NewOCI ParseAddress (nw_SMTPAddress c) (nw_SMTPUsername c) (nw_SMTPPassword c) (nw_From c) second = Ok t
            else nw_Provider c = "local" /\ NewLocal ParseAddress (nw_SMTPAddress c) (nw_From c) second = Ok t.
End Promises.

(** *** Durations are in range *)

Lemma digit_range c d : digit c = Some d -> 0 <= d <= 9.
Proof. unfold digit. destruct (_ && _) eqn:E; [|done]. intros [= <-]. apply andb_true_iff in E. lia. Qed.

Lemma leadingInt_range s x v rest : 0 <= x -> leadingInt s x = Some (v, rest) -> 0 <= v.
Proof.
  revert x. induction s as [|c s IH]; intros x Hx; cbn [leadingInt]; [congruence|].
  destruct (digit c) as [d|] eqn:Ed; [|congruence]. apply digit_range in Ed.
  destruct (_ <? x); [done|]. destruct (_ <? x * 10 + d); [done|]. apply IH. lia.
Qed.

Lemma unitMap_range u n : unitMap u = Some n -> 0 < n.
Proof. unfold unitMap. repeat case_match; intros [= <-]; done. Qed.

Lemma next_amount_range fraction s v rest : next_amount fraction s = Some (v, rest) -> 0 <= v <= 2 ^ 63.
Proof.
  destruct s as [|c s]; [done|]. cbn [next_amount]. set (t := String c s). destruct (negb _); [done|].
  destruct (leadingInt t 0) as [[v0 r0]|] eqn:Ev; [|done]. apply leadingInt_range in Ev; [|lia]. cbn [mbind option_bind].
  destruct (match r0 with "" => _ | String _ _ => _ end) as [[[f scale] r1] post].
  destruct (_ && _); [done|]. destruct (take_unit r1) as [u r2]. destruct (String.eqb u ""); [done|].
  destruct (unitMap u) as [n|] eqn:Eu; [|done]. apply unitMap_range in Eu. cbn [mbind option_bind].
  destruct (Z.ltb_spec (2 ^ 63 / n) v0) as [?|Hv]; [done|].
  assert (0 <= v0 * n <= 2 ^ 63) as Hm.
  { split; [nia|]. pose proof (Z.mul_div_le (2 ^ 63) n Eu). nia. }
  destruct (0 <? f); [|intros [= <- _]; done].
  destruct (Z.ltb_spec (2 ^ 63) (uint64 (v0 * n + fraction f n scale))); [done|]. intros [= <- _].
  split; [|done]. unfold uint64. by apply Z.mod_pos_bound.
Qed.

Lemma amounts_range fraction fuel s d n : 0 <= d <= 2 ^ 63 -> amounts fraction fuel s d = Some n -> 0 <= n <= 2 ^ 63.
Proof.
  revert s d. induction fuel as [|fuel IH]; intros s d Hd; destruct s as [|c s]; cbn [amounts]; try congruence.
  destruct (next_amount fraction (String c s)) as [[v rest]|]; [|done]. cbn [mbind option_bind].
  destruct (Z.ltb_spec (2 ^ 63) (uint64 (d + v))); [done|]. apply IH. split; [|done]. by apply Z.mod_pos_bound.
Qed.

Lemma ParseDuration_range fraction s d : ParseDuration fraction s = Some d -> min_int64 <= d <= max_int64.
Proof.
  unfold ParseDuration. destruct (match s with "" => _ | String _ _ => _ end) as [neg t].
  destruct (String.eqb t "0"); [intros [= <-]; done|]. destruct (String.eqb t ""); [done|].
  destruct (amounts fraction (String.length t) t 0) as [n|] eqn:E; [|done]. apply amounts_range in E; [|done].
  cbn [mbind option_bind]. destruct neg.
  - intros [= <-]. rewrite int64_id; unfold min_int64, max_int64; lia.
  - destruct (Z.ltb_spec (2 ^ 63 - 1) n); [done|]. intros [= <-]. unfold min_int64, max_int64. lia.
Qed.

(** *** The helpers *)

Ltac booleans :=
  repeat match goal with
  | E : _ || _ = false |- _ => apply orb_false_iff in E as [? ?]
  | E : negb _ = false |- _ => apply negb_false_iff in E
  | E : negb _ = true |- _ => apply negb_true_iff in E
  | E : String.eqb _ _ = true |- _ => apply String.eqb_eq in E
  | E : String.eqb _ _ = false |- _ => apply String.eqb_neq in E
  | E : nonempty _ = false |- _ => unfold nonempty in E
  | E : bool_decide (is_Some _) = false |- _ => apply bool_decide_eq_false, eq_None_not_Some in E
  | E : (_ <? _) = false |- _ => apply Z.ltb_ge in E
  | E : (_ <=? _) = false |- _ => apply Z.leb_gt in E
  | E : (_ =? _) = true |- _ => apply Z.eqb_eq in E
  end.

Lemma required_ok source name v : required source name = Ok v -> v <> "".
Proof. unfold required. destruct (String.eqb _ "") eqn:E; intros [= <-]. by apply String.eqb_neq. Qed.

Lemma value_ok source name fallback : fallback <> "" -> value source name fallback <> "".
Proof.
  intros Hf. unfold value. destruct (lookup_env source name) as [v|]; [|done]. unfold nonempty.
  by destruct (String.eqb_spec (TrimSpace v) "").
Qed.

Lemma base64KeyPath_ok source path label size k : base64KeyPath source path label [size] = Ok k -> slen k = size.
Proof.
  unfold base64KeyPath. intros H. res_inv H. destruct (base64_decode _) as [d|]; [|done].
  cbn [allowedLength] in H. destruct (Z.eqb_spec (slen d) size); [|done]. by injection H as <-.
Qed.

Lemma base64KeyFile_ok source name size k : base64KeyFile source name [size] = Ok k -> slen k = size.
Proof. unfold base64KeyFile. intros H. res_inv H. by eapply base64KeyPath_ok. Qed.

Lemma port_ok_spec v : port_ok v = true -> exists port, Atoi v = Some port /\ 1 <= port <= 65535.
Proof. unfold port_ok. destruct (Atoi v) as [n|]; [|done]. intros E. booleans. exists n. split; [done|lia]. Qed.

Lemma validateListenAddress_ok name v u : validateListenAddress name v = Ok u -> listen_ok v.
Proof.
  unfold validateListenAddress. destruct (SplitHostPort v) as [[host port]|] eqn:Es; [|done]. intros H.
  res_inv H. apply refuse_if_ok in H. booleans. apply port_ok_spec in H as (n & Hn & Hr). by exists host, port, n.
Qed.

Lemma nonempty_not s : nonempty s = false -> s = "".
Proof. unfold nonempty. intros E. by booleans. Qed.

Lemma validateHTTPSURL_ok `{UrlLib} name v u : validateHTTPSURL name v = Ok u -> https_ok v.
Proof.
  unfold validateHTTPSURL. destruct (url_Parse v) as [p|] eqn:Ep; [|done]. intros H0%refuse_if_ok. booleans.
  by exists p.
Qed.

Lemma loadDatabaseURL_ok `{UrlLib} source v : loadDatabaseURL source = Ok v -> database_ok v.
Proof.
  unfold loadDatabaseURL. intros H0. res_inv H0. unfold validateDatabaseURL in *.
  match goal with E : mbind _ _ = Ok _ |- _ => res_inv E; apply refuse_if_ok in E end.
  booleans. destruct (u_User _) as [user|] eqn:Eu; [|done]. eexists _, user. split_and!; try done.
  - destruct (String.eqb_spec (u_Scheme x) "postgres"); [by left|]. right. simpl in *. by booleans.
  - destruct (nonempty (Port x)) eqn:En; [right|left; by apply nonempty_not]. simpl in *. booleans.
    by apply port_ok_spec.
Qed.

Lemma secretSetting_ok source ve fe fallback required_ v :
  secretSetting source ve fe fallback required_ = Ok v ->
  configured source ve fe v \/ (required_ = false /\ v = fallback).
Proof.
  unfold secretSetting. intros H. apply res_bind_ok in H as ([] & E & H). apply refuse_if_ok in E.
  apply res_bind_ok in H as (w & Ew & H). destruct (String.eqb_spec w "") as [->|Hw].
  { res_inv H. by right. }
  injection H as <-. left. split; [done|]. destruct (nonempty (optional source fe)) eqn:Ef.
  - right. rewrite andb_true_r in E. res_inv Ew. split; [by apply nonempty_not|eauto].
  - left. injection Ew as <-. split; [by apply nonempty_not|done].
Qed.

Lemma ParsePrefix_ok s p : ParsePrefix s = Some p -> prefix_ok p.
Proof.
  unfold ParsePrefix. destruct (cut_last "/" s) as [[a b]|]; [|done]. cbn [mbind option_bind].
  destruct (ParseAddr a) as [ip|] eqn:Ea; [|done]. apply ParseAddr_wf in Ea. cbn [mbind option_bind].
  destruct (nonempty (Zone ip)) eqn:Ez; [done|]. destruct (match b with "" => _ | String _ _ => _ end); [done|].
  destruct (Atoi b) as [n|]; [|done]. cbn [mbind option_bind]. destruct (_ || _) eqn:E; [done|]. intros [= <-].
  booleans. split_and!; simpl; done || lia.
Qed.

Lemma load_prefixes_ok raws l : load_prefixes raws = Ok l -> Forall prefix_ok l.
Proof.
  revert l. induction raws as [|raw raws IH]; intros l; cbn [load_prefixes].
  { intros [= <-]. constructor. }
  destruct (String.eqb _ ""); [apply IH|]. intros H. res_inv H. constructor; [by eapply ParsePrefix_ok|by apply IH].
Qed.

Lemma load_ring_ok source entries size keys out :
  map_Forall (fun id key => id <> "" /\ slen key = size) keys -> load_ring source entries size keys = Ok out ->
  map_Forall (fun id key => id <> "" /\ slen key = size) out.
Proof.
  revert keys. induction entries as [|[id path] entries IH]; intros keys Hk; cbn [load_ring].
  { by intros [= <-]. }
  intros H. res_inv H. booleans. apply (IH _) in H; [done|]. apply map_Forall_insert_2; [|done].
  split; [done|by eapply base64KeyPath_ok].
Qed.

Lemma load_revoked_ok ids revoked out :
  set_Forall (fun id => TrimSpace id <> "") revoked -> load_revoked ids revoked = Ok out ->
  set_Forall (fun id => TrimSpace id <> "") out.
Proof.
  revert revoked. induction ids as [|id ids IH]; intros revoked Hr; cbn [load_revoked].
  { by intros [= <-]. }
  intros H. res_inv H. booleans. apply (IH _) in H; [done|]. apply set_Forall_union; [by apply set_Forall_singleton|done].
Qed.

(** *** The loaders *)

(** What the steps of a loader that succeeded give. *)
Ltac loaded :=
  repeat match goal with
  | E : validateListenAddress _ _ = Ok _ |- _ => apply validateListenAddress_ok in E
  | E : validateHTTPSURL _ _ = Ok _ |- _ => apply validateHTTPSURL_ok in E
  | E : loadDatabaseURL _ = Ok _ |- _ => apply loadDatabaseURL_ok in E
  | E : base64KeyFile _ _ _ = Ok _ |- _ => apply base64KeyFile_ok in E
  | E : required _ _ = Ok _ |- _ => apply required_ok in E
  | E : load_prefixes _ = Ok _ |- _ => apply load_prefixes_ok in E
  end.

Section Loaders.
Context `{UrlLib} {L : ConfigLib} {Laws : ConfigLaws}.
Variable source : commandSource.

Lemma load_shutdown_timeout_ok t : load_shutdown_timeout source = Ok t -> 0 < t <= max_int64.
Proof.
  unfold load_shutdown_timeout. destruct (lookup_env _ _) as [v|]; [|intros [= <-]; done].
  destruct (ParseDuration _ _) as [d|] eqn:E; [|done]. apply ParseDuration_range in E.
  destruct (Z.leb_spec d 0); [done|]. intros [= <-]. lia.
Qed.

Lemma load_header_key_version_ok n : load_header_key_version source = Ok n -> 1 <= n <= 2 ^ 31 - 1.
Proof.
  unfold load_header_key_version. destruct (lookup_env _ _) as [v|]; [|intros [= <-]; done].
  unfold ParseInt. destruct (Atoi _) as [d|]; [|done]. cbn [mbind option_bind].
  destruct (_ && _) eqn:E; [|done]. apply andb_true_iff in E as [_ E]. apply Z.leb_le in E.
  destruct (Z.ltb_spec d 1); [done|]. intros [= <-]. simpl in E. rewrite int32_id; lia.
Qed.

Lemma load_environment_ok e : load_environment source = Ok e -> e = "development" \/ e = "production".
Proof.
  unfold load_environment. set (v := match lookup_env _ _ with Some _ => _ | None => _ end). clearbody v.
  destruct (String.eqb_spec v "development"); [intros [= <-]; by left|].
  destruct (String.eqb_spec v "production"); [intros [= <-]; by right|done].
Qed.

Lemma decode_signing_key_ok v k : decode_signing_key v = Ok k -> slen k = 64.
Proof.
  unfold decode_signing_key. destruct (String.eqb v ""); [intros [= <-]; apply private_key_length|].
  destruct (base64_decode _) as [d|]; [|done]. destruct (Z.eqb_spec (slen d) PrivateKeySize); [|done].
  intros H0. by injection H0 as <-.
Qed.

Lemma slen_nonempty s : s <> "" -> 1 <= slen s.
Proof. destruct s; [done|]. unfold slen. simpl. lia. Qed.

Lemma loadWithFiles_ok c : loadWithFiles source = Ok c -> config_ok c.
Proof.
  unfold loadWithFiles. intros H0. cbv zeta in H0. res_inv H0.
  loaded.
  repeat match goal with
  | E : load_shutdown_timeout _ = Ok _ |- _ => apply load_shutdown_timeout_ok in E
  | E : load_header_key_version _ = Ok _ |- _ => apply load_header_key_version_ok in E
  | E : decode_signing_key _ = Ok _ |- _ => apply decode_signing_key_ok in E
  end.
  unfold config_ok. cbn [c_DatabaseURL c_HTTPAddress c_ShutdownTimeout c_Production c_VerificationProvider
    c_VerificationSMTPUsername c_VerificationSMTPPassword c_MonitorHeaderKey c_MonitorHeaderKeyVersion
    c_PlatformSigningKey c_PlatformSigningKeyID].
  booleans. split_and!; try done; try lia.
  - match goal with E : negb _ && negb _ = false, E' : String.eqb _ "oci" && _ = false |- _ => revert E E' end.
    destruct (String.eqb_spec (to_lower (stringSetting source "WATCHTRACE_VERIFICATION_PROVIDER" "local")) "local");
      [by left|].
    destruct (String.eqb_spec (to_lower (stringSetting source "WATCHTRACE_VERIFICATION_PROVIDER" "local")) "oci"); [|done].
    simpl. intros _ Ec. booleans. by right.
  - by apply slen_nonempty.
Qed.

(** The secrets of a production API were configured: none is the one of development. *)
Lemma loadWithFiles_secrets c : loadWithFiles source = Ok c -> c_Production c = true ->
  exists header signing,
    configured source monitorHeaderKeyEnvironment monitorHeaderKeyFileEnvironment header /\
    base64_decode header = Some (c_MonitorHeaderKey c) /\
    configured source platformSigningKeyEnvironment platformSigningKeyFileEnvironment signing /\
    base64_decode (TrimSpace signing) = Some (c_PlatformSigningKey c).
Proof.
  unfold loadWithFiles. intros H0 Hp. cbv zeta in H0. res_inv H0. simpl in Hp.
  repeat match goal with
  | E : secretSetting _ _ _ _ _ = Ok _ |- _ => rewrite Hp in E; apply secretSetting_ok in E as [E|[? _]]; [|done]
  end.
  eexists _, _. split_and!; [eassumption|simpl; eassumption|eassumption|].
  match goal with E : decode_signing_key ?v = Ok ?k, E' : configured _ _ _ ?v |- _ =>
    destruct E' as [Hv _]; unfold decode_signing_key in E; apply String.eqb_neq in Hv; rewrite Hv in E;
    destruct (base64_decode (TrimSpace v)) as [d|]; [|discriminate E];
    destruct (negb (slen d =? PrivateKeySize)); [discriminate E|]; by injection E as ->
  end.
Qed.

Lemma loadMonitorEngine_ok c : loadMonitorEngine source = Ok c -> engine_ok c.
Proof.
  unfold loadMonitorEngine. intros H0. cbv zeta in H0. res_inv H0.
  loaded.
  unfold engine_ok. simpl. booleans. split_and!; try done; try lia. by apply slen_nonempty, value_ok.
Qed.

Lemma loadWorkerKeyring_ok k : loadWorkerKeyring source = Ok k -> keyring_ok k.
Proof.
  unfold loadWorkerKeyring. destruct (String.eqb _ ""); intros H0; res_inv H0.
  { split_and!; [apply map_Forall_empty..|apply set_Forall_empty]. }
  repeat match goal with
  | E : load_ring _ _ _ _ = Ok _ |- _ => apply load_ring_ok in E; [|apply map_Forall_empty]
  | E : load_revoked _ _ = Ok _ |- _ => apply load_revoked_ok in E; [|apply set_Forall_empty]
  end.
  by split_and!.
Qed.

Lemma clientTLS_ok cert key ca tls : clientTLS source cert key ca = Ok tls -> is_Some (tl_RootCAs tls).
Proof. unfold clientTLS. intros H0. res_inv H0. simpl. eauto. Qed.

Lemma load_transport_ok t job result endpoint gateway tls :
  load_transport source t = Ok (job, result, endpoint, gateway, tls) ->
  t = WorkerTransportDirectSQS /\ job <> "" /\ result <> "" \/
  t = WorkerTransportHTTPS /\ https_ok gateway /\ exists tls', tls = Some tls' /\ is_Some (tl_RootCAs tls').
Proof.
  unfold load_transport. destruct (String.eqb_spec t WorkerTransportDirectSQS) as [->|_].
  { intros H0. res_inv H0. loaded. by left. }
  destruct (String.eqb_spec t WorkerTransportHTTPS) as [->|_]; [|done].
  intros H0. res_inv H0. loaded. right. split; [done|]. split; [done|]. eauto using clientTLS_ok.
Qed.

Lemma parseDuration_ok name v maximum d : parseDuration name v maximum = Ok d -> - maximum <= d <= maximum.
Proof.
  unfold parseDuration. destruct (ParseDuration _ _) as [n|]; [|done]. destruct (_ || _) eqn:E; [done|].
  intros [= <-]. booleans. lia.
Qed.

Lemma loadWorker_ok c : loadWorker source = Ok c -> worker_ok c.
Proof.
  unfold loadWorker. intros H0. cbv zeta in H0. res_inv H0. loaded.
  repeat match goal with
  | E : loadWorkerKeyring _ = Ok _ |- _ => apply loadWorkerKeyring_ok in E
  | E : load_transport _ _ = Ok _ |- _ => apply load_transport_ok in E
  | E : parseDuration _ _ _ = Ok _ |- _ => apply parseDuration_ok in E
  end.
  unfold worker_ok. simpl. by split_and!; try lia.
Qed.

Lemma loadQueueGateway_ok c : loadQueueGateway source = Ok c -> gateway_ok c.
Proof.
  unfold loadQueueGateway. intros H0. cbv zeta in H0. res_inv H0. loaded.
  match goal with E : serverMTLS _ _ _ _ = Ok _ |- _ => unfold serverMTLS in E; res_inv E end.
  unfold gateway_ok. simpl. split_and!; eauto.
Qed.

Lemma loadNotificationWorker_ok ParseAddress c :
  loadNotificationWorker source ParseAddress = Ok c -> notification_ok ParseAddress c.
Proof.
  unfold loadNotificationWorker. intros H0. cbv zeta in H0.
  apply res_bind_ok in H0 as (database & Ed & H0). apply res_bind_ok in H0 as ([] & El & H0). loaded.
  set (c' := mkNotificationConfig _ _ _ _ _ _ _ _) in *.
  apply res_bind_ok in H0 as (transport & Et & H0). destruct transport as [t|]; [|done]. injection H0 as <-.
  split_and!; [done|done|by apply value_ok|]. exists t.
  destruct (String.eqb_spec (nw_Provider c') "local") as [Hp|_].
  - injection Et as Et. rewrite Hp. done.
  - destruct (String.eqb (nw_Provider c') "oci"); [|done]. by injection Et as Et.
Qed.
End Loaders.

(** C40: every configuration a process starts with is well typed, whatever the environment
    and the files hold.  The database URL names a user, a host and a database; every
    address to listen on has a port between 1 and 65535; every key has the size its
    algorithm needs; versions, timeouts and offsets are in range; a worker has either
    both queues or an HTTPS gateway with client certificates; a gateway demands client
    certificates; the notification worker's mail settings build a transport.  In
    production the two secrets of the API were configured by the operator, in exactly
    one of the two ways. *)
Theorem configurations_typed `{UrlLib} {L : ConfigLib} {Laws : ConfigLaws} source ParseAddress :
  (forall c, loadWithFiles source = Ok c -> config_ok c /\ (c_Production c = true -> exists header signing,
    configured source monitorHeaderKeyEnvironment monitorHeaderKeyFileEnvironment header /\
    base64_decode header = Some (c_MonitorHeaderKey c) /\
    configured source platformSigningKeyEnvironment platformSigningKeyFileEnvironment signing /\
    base64_decode (TrimSpace signing) = Some (c_PlatformSigningKey c))) /\
  (forall c, loadMonitorEngine source = Ok c -> engine_ok c) /\
  (forall c, loadWorker source = Ok c -> worker_ok c) /\
  (forall c, loadQueueGateway source = Ok c -> gateway_ok c) /\
  (forall c, loadNotificationWorker source ParseAddress = Ok c -> notification_ok ParseAddress c).
Proof.
  split_and!; eauto using loadMonitorEngine_ok, loadWorker_ok, loadQueueGateway_ok, loadNotificationWorker_ok.
  intros c Hc. split; [by eapply loadWithFiles_ok|by apply loadWithFiles_secrets].
Qed.

(** ** A deployment *)
Module Deployment.
Fixpoint rep (n : nat) (c : ascii) : bytes := match n with O => "" | S n => String c (rep n c) end.
Definition pairs : list (string * string) :=
  [("WATCHTRACE_DATABASE_URL", " postgres://app@db/watchtrace ");
   ("WATCHTRACE_ENVIRONMENT", "Production");
   ("WATCHTRACE_MONITOR_HEADER_KEY_FILE", "k32");
   ("WATCHTRACE_MONITOR_HEADER_KEY_VERSION", "2");
   ("WATCHTRACE_PLATFORM_SIGNING_KEY_FILE", "k64");
   ("WATCHTRACE_PLATFORM_SIGNING_KEY", "k64");
   ("WATCHTRACE_PLATFORM_SIGNING_KEY_ID", "platform-v1");
   ("WATCHTRACE_QUARANTINE_KEY", "k32");
   ("WATCHTRACE_SQS_HOSTED_JOB_QUEUE_URL", "https://sqs/jobs.fifo");
   ("WATCHTRACE_SQS_RESULT_QUEUE_URL", "https://sqs/results.fifo");
   ("WATCHTRACE_SQS_HOSTED_JOB_DLQ_URL", "https://sqs/jobs-dlq.fifo");
   ("WATCHTRACE_SQS_RESULT_DLQ_URL", "https://sqs/results-dlq.fifo");
   ("WATCHTRACE_WORKER_POOL_ID", "pool"); ("WATCHTRACE_WORKER_ID", "w1");
   ("WATCHTRACE_WORKER_ENCRYPTION_KEY_ID", "wk"); ("WATCHTRACE_RESULT_KEY_ID", "rk");
   ("WATCHTRACE_WORKER_ENCRYPTION_KEY", "k32"); ("WATCHTRACE_WORKER_RESULT_KEY", "k64");
   ("WATCHTRACE_PLATFORM_SIGNING_PUBLIC_KEY", "k32"); ("WATCHTRACE_WORKER_KEYRING", "ring");
   ("WATCHTRACE_PRIVATE_CIDRS", "10.1.0.0/16, fd00::/8"); ("WATCHTRACE_CLOCK_OFFSET", "-1.5s");
   ("WATCHTRACE_GATEWAY_URL", "https://gateway"); ("WATCHTRACE_MTLS_CERT", "pem");
   ("WATCHTRACE_MTLS_KEY", "pem"); ("WATCHTRACE_GATEWAY_CA", "pem");
   ("WATCHTRACE_GATEWAY_CONFIG", "signed"); ("WATCHTRACE_GATEWAY_CONFIG_SIGNING_PUBLIC_KEY", "k32");
   ("WATCHTRACE_GATEWAY_LEASE_KEY", "k32"); ("WATCHTRACE_GATEWAY_CERT", "pem");
   ("WATCHTRACE_GATEWAY_KEY", "pem"); ("WATCHTRACE_GATEWAY_CLIENT_CA", "pem")].
Definition files : list (string * bytes) :=
  [("k32", base64_encode (rep 32 "k") +:+ CRLF); ("k64", base64_encode (rep 64 "k") +:+ CRLF); ("pem", "pem"); ("ring", "ring");
   ("signed", "m")].
Definition assoc {A} (l : list (string * A)) (k : string) : option A := snd <$> list_find (fun x => x.1 = k) l ≫= fun x => Some x.2.
Definition source : commandSource := mkSource (fun k => assoc pairs k) (fun k => assoc files k).

Definition urls : list (string * URL) :=
  ("postgres://app@db/watchtrace", mkURL "postgres" "" (Some "app") "db" "/watchtrace" "" "") ::
  ("https://gateway", mkURL "https" "" None "gateway" "" "" "") ::
  ((fun n => ("https://sqs/" +:+ n, mkURL "https" "" None "sqs" ("/" +:+ n) "" "")) <$>
    ["jobs.fifo"; "results.fifo"; "jobs-dlq.fifo"; "results-dlq.fifo"]) ++
  ((fun n => ("http://127.0.0.1:3000/" +:+ n, mkURL "http" "" None "127.0.0.1:3000" ("/" +:+ n) "" "")) <$>
    ["verify-email"; "reset-password"; "accept-invitation"]).
#[global] Instance url_lib : UrlLib := Build_UrlLib (fun s => assoc urls s) (fun _ => "") (fun _ _ => None).

#[global] Instance config_lib : ConfigLib := {|
  duration_fraction f u s := f * u / s;
  ed25519_NewKeyFromSeed _ := rep 64 "d";
  TlsCertificate := unit; CertPool := unit;
  X509KeyPair _ _ := Some tt; CertPool_from_PEM _ := Some tt;
  UnmarshalKeyring _ := Some ([("wk", "k32"); ("old", "k32")], [("platform-v0", "k32")], ["old"])
|}.
#[global] Instance config_laws : ConfigLaws.
Proof. constructor. intros seed. vm_compute. reflexivity. Qed.

Definition ParseAddress (s : string) : option (string * string) := Some ("", s).

Definition loaded {A} (r : res A) : Prop := is_ok r = true.
Lemma all_load : loaded (loadWithFiles source) /\ loaded (loadMonitorEngine source) /\ loaded (loadWorker source) /\
  loaded (loadQueueGateway source) /\ loaded (loadNotificationWorker source ParseAddress).
Proof. vm_compute. repeat split. Qed.
End Deployment.

Lemma configurations_typed_witness :
  (exists c, loadWithFiles Deployment.source = Ok c /\ c_Production c = true /\ config_ok c) /\
  (exists c, loadWorker Deployment.source = Ok c /\ worker_ok c) /\
  (exists c, loadQueueGateway Deployment.source = Ok c /\ gateway_ok c).
Proof.
  destruct (configurations_typed Deployment.source Deployment.ParseAddress) as (H1 & _ & H3 & H4 & _).
  destruct Deployment.all_load as (L1 & _ & L3 & L4 & _). unfold Deployment.loaded in *. split_and!.
  - destruct (loadWithFiles Deployment.source) as [c|] eqn:E; [|discriminate L1]. exists c.
    split; [reflexivity|]. split; [|apply H1; reflexivity]. vm_compute in E. injection E as <-. reflexivity.
  - destruct (loadWorker Deployment.source) as [c|]; [|discriminate L3]. exists c. split; [reflexivity|apply H3; reflexivity].
  - destruct (loadQueueGateway Deployment.source) as [c|]; [|discriminate L4]. exists c.
    split; [reflexivity|apply H4; reflexivity].
Defined.
