(* ===== verification/Startup.v ===== *)
(** * Startup: from a configuration to a running process

    Models the [build] functions of cmd/monitor-engine, cmd/worker, cmd/queue-gateway
    and cmd/notification-worker and the wiring of cmd/api, which turn a configuration
    into the components of the other files; the checks of their constructors; the
    signed snapshot of the gateway (internal/gatewayconfig); and the roles of the
    queues (internal/operations/sqs.go).

    What a process opens (the database pool, the settings of the cloud SDK, the
    journal file) either opens or fails, as a parameter.  Listeners, signals and the
    loops of the processes are not modelled. *)

From stdpp Require Import base gmap list strings.
From Stdlib Require Import ZArith Lia Ascii String.
From S2P Require Import Prelude Tx Store Bytes Envelope Sealing Scheduler Destination Rfc3339 HttpClient Workqueue Worker Gateway.
From S2P Require Import Credentials Monitors Mail Config.
Import Secureheaders.

(** ** The snapshot of the gateway *)
Module Gatewayconfig.
Record Limits : Type := mkLimits {
  li_RequestsPerMinute : Z;
  li_BytesPerMinute : Z;
  li_ConcurrentPulls : Z;
  li_ResultsPerMinute : Z
}.

Record Pool : Type := mkPool {
  gp_ID : string;
  gp_JobQueueURL : string;
  gp_ResultKeyID : string;
  gp_ResultPublicKey : string;
  gp_SchemaMin : Z;
  gp_SchemaMax : Z;
  gp_Capabilities : list string;
  gp_RevokedCertificateSerials : list string;
  gp_Limits : Limits
}.

Record Snapshot : Type := mkSnapshot {
  sn_Version : Z;
  sn_Environment : string;
  sn_Region : string;
  sn_ResultQueueURL : string;
  sn_GeneratedAt : Z;
  sn_ExpiresAt : Z;
  sn_Pools : list Pool
}.

Record Signed : Type := mkSigned { sg_Snapshot : Snapshot; sg_Signature : string }.

(** [json.Marshal] of a snapshot, [json.MarshalIndent] and [json.Unmarshal] of a signed one. *)
Class SnapshotJSON : Type := {
  json_snapshot : Snapshot -> option bytes;
  json_signed : Codec Signed
}.

Definition ErrConfiguration : error := ErrorsNew "invalid gateway configuration".

Definition valid_pool (pool : Pool) : bool :=
  negb (String.eqb (gp_ID pool) "" || String.eqb (gp_JobQueueURL pool) "" || String.eqb (gp_ResultKeyID pool) ""
    || match base64_decode (gp_ResultPublicKey pool) with Some public => negb (slen public =? 32) | None => true end
    || (gp_SchemaMin pool <? 1) || (2 <? gp_SchemaMax pool) || (gp_SchemaMax pool <? gp_SchemaMin pool)
    || (li_RequestsPerMinute (gp_Limits pool) <? 1) || (li_BytesPerMinute (gp_Limits pool) <? 1024)
    || (li_ConcurrentPulls (gp_Limits pool) <? 1) || (li_ResultsPerMinute (gp_Limits pool) <? 1)).

Fixpoint validate_pools (pools : list Pool) (seen : gset string) : res () :=
  match pools with
  | [] => Ok ()
  | pool :: pools =>
      if negb (valid_pool pool) then Err (ErrorsNew "invalid gateway pool")
      else if bool_decide (gp_ID pool ∈ seen) then Err (ErrorsNew "duplicate gateway pool")
      else validate_pools pools ({[gp_ID pool]} ∪ seen)
  end.

Definition validate (s : Snapshot) (now : Z) : res () :=
  if negb (sn_Version s =? 1) || String.eqb (sn_Environment s) "" || String.eqb (sn_Region s) ""
     || String.eqb (sn_ResultQueueURL s) "" || is_zero_time (sn_GeneratedAt s) || is_zero_time (sn_ExpiresAt s)
     || before (sn_ExpiresAt s) now || (35 * 24 * hour <? time_sub (sn_ExpiresAt s) (sn_GeneratedAt s))
     || (Datatypes.length (sn_Pools s) =? 0)%nat || (6 <? Z.of_nat (Datatypes.length (sn_Pools s)))
  then Err ErrConfiguration
  else validate_pools (sn_Pools s) ∅.

Section Signing.
Context {P : Primitives} {J : SnapshotJSON}.

(** What is signed; the error of the encoding is dropped. *)
Definition signed_text (s : Snapshot) : bytes :=
  "watchtrace-gateway-config-v1" +:+ String (byte_of 0) (default "" (json_snapshot s)).

Definition Sign (s : Snapshot) (key : bytes) (now : Z) : res bytes :=
  if negb (slen key =? 64) || negb (is_ok (validate s now)) then Err ErrConfiguration
  else match marshal json_signed (mkSigned s (base64_encode (ed25519_sign key (signed_text s)))) with
       | Some data => Ok data
       | None => Err (ErrorsNew "encoding/json")
       end.

Definition Verify (data key : bytes) (now : Z) : res Snapshot :=
  if (slen data =? 0) || (1024 * 1024 <? slen data) || negb (slen key =? 32) then Err ErrConfiguration
  else match unmarshal json_signed data with
       | None => Err ErrConfiguration
       | Some signed =>
           if negb (is_ok (validate (sg_Snapshot signed) now)) then Err ErrConfiguration
           else match base64_decode (sg_Signature signed) with
                | Some signature =>
                    if ed25519_verify key (signed_text (sg_Snapshot signed)) signature
                    then Ok (sg_Snapshot signed) else Err ErrConfiguration
                | None => Err ErrConfiguration
                end
       end.
End Signing.
End Gatewayconfig.
Import Gatewayconfig (SnapshotJSON).

(** ** The roles of the queues *)

Record QueueURLs : Type := mkQueues { q_Jobs : string; q_Results : string; q_JobDLQ : string; q_ResultDLQ : string }.

(** [path.Base]. *)
Definition path_Base (path : string) : string :=
  if String.eqb path "" then "." else
  let path := trim_right_slash path in
  let path := match cut_last "/" path with Some (_, last) => last | None => path end in
  if String.eqb path "" then "/" else path.

Definition is_dlq (u : URL) : bool := has_suffix (path_Base (trim_suffix (u_Path u) "/")) "-dlq.fifo".

Section Queues.
Context `{UrlLib}.

Fixpoint validate_queues (queues : list (string * string * bool)) (seen : gmap string string) : res () :=
  match queues with
  | [] => Ok ()
  | (name, url, dlq) :: queues =>
      if String.eqb url "" then validate_queues queues seen
      else match seen !! url with
           | Some previous => Err (ErrorsNew (previous +:+ " and " +:+ name +:+ " must use distinct SQS queue URLs"))
           | None =>
               match url_Parse url with
               | None => Err (ErrorsNew (name +:+ " SQS queue URL is invalid"))
               | Some parsed =>
                   if String.eqb (u_Scheme parsed) "" || String.eqb (u_Host parsed) ""
                   then Err (ErrorsNew (name +:+ " SQS queue URL is invalid"))
                   else if negb (Bool.eqb (is_dlq parsed) dlq)
                   then Err (ErrorsNew (name +:+ " SQS queue URL does not identify the expected queue type"))
                   else validate_queues queues (<[url := name]> seen)
               end
           end
  end.

Definition Validate (q : QueueURLs) : res () :=
  validate_queues [("jobs", q_Jobs q, false); ("results", q_Results q, false);
    ("job DLQ", q_JobDLQ q, true); ("result DLQ", q_ResultDLQ q, true)] ∅.
End Queues.

(** ** The processes *)

(** [fifo.NewScheduler]; the tests for nil have no counterpart here. *)
Definition NewScheduler (signer : bytes) (keyID : string) (decrypt : bytes -> Z -> res (gmap string string)) : res Scheduler :=
  if negb (slen signer =? 64) || String.eqb keyID "" then Err (ErrorsNew "invalid FIFO scheduler configuration")
  else Ok (mkScheduler signer keyID decrypt).

(** [ecdh.X25519().NewPrivateKey]. *)
Definition NewPrivateKey (raw : bytes) : res bytes :=
  if slen raw =? 32 then Ok raw else Err (ErrorsNew "crypto/ecdh: invalid private key size").

(** [notification.NewWorker], without options: the trimmed name of the worker and its lease. *)
Definition NewNotificationWorker (workerID : string) (lease : Z) : res (string * Z) :=
  let workerID := TrimSpace workerID in
  if String.eqb workerID "" || (128 <? slen workerID) || (lease <? second) || (5 * minute <? lease)
  then Err ErrInvalidConfiguration else Ok (workerID, lease).

Section Build.
Context {P : Primitives} {J : SnapshotJSON} `{UrlLib} {L : ConfigLib}.
Context (json : Codec (gmap string string)) (visit : gmap string string -> list (string * string)).
Context (ParseAddress : string -> option (string * string)).
(** What opening the database pool, the settings of the SDK and the journal returns. *)
Context (database aws journal : res ()).

(** *** cmd/api *)

Definition configuredActionSender (c : Config.Config) : res smtpActionSender :=
  if String.eqb (c_VerificationProvider c) "oci" then
    NewOCIEmailDeliverySender ParseAddress (c_VerificationSMTPAddress c) (c_VerificationSMTPUsername c)
      (c_VerificationSMTPPassword c) (c_VerificationFrom c) (c_VerificationURL c) (c_PasswordResetURL c) (c_InvitationURL c)
  else
    NewLocalSMTPSender ParseAddress (c_VerificationSMTPAddress c) (c_VerificationFrom c) (c_VerificationURL c)
      (c_PasswordResetURL c) (c_InvitationURL c).

Definition api_headers (c : Config.Config) : res Keyring :=
  New (c_MonitorHeaderKeyVersion c) {[c_MonitorHeaderKeyVersion c := c_MonitorHeaderKey c]}.

(** The senders and services the router is made of, and whether cookies are secure. *)
Definition api_main (c : Config.Config) : res (smtpActionSender * Monitors.Service * bool) :=
  _ ← database;
  actionSender ← configuredActionSender c;
  headerKeys ← api_headers c;
  monitorService ← Monitors.NewService true (Some headerKeys) (c_PlatformSigningKey c) (c_PlatformSigningKeyID c);
  mret (actionSender, monitorService, c_Production c).

(** *** cmd/monitor-engine *)

Record engineRuntime : Type := mkEngine {
  en_scheduler : Scheduler;
  en_sealer : option bytes;
  en_queues : QueueURLs;
  en_healthAddress : string
}.

Definition engine_headers (c : MonitorEngineConfig) : res Keyring := New 1 {[1 := me_HeaderKey c]}.

Definition engine_build (c : MonitorEngineConfig) : res engineRuntime :=
  _ ← database;
  quarantineSealer ← Quarantine.New (me_QuarantineKey c);
  headers ← engine_headers c;
  scheduler ← NewScheduler (me_SigningKey c) (me_SigningKeyID c) (Decrypt json visit headers);
  _ ← aws;
  let queueURLs := mkQueues (me_JobQueueURL c) (me_ResultQueueURL c) (me_JobDLQURL c) (me_ResultDLQURL c) in
  _ ← Validate queueURLs;
  mret (mkEngine scheduler quarantineSealer queueURLs (me_HealthAddress c)).

(** *** cmd/worker *)

Definition ring_keys (ring : gmap string bytes) : res () :=
  refuse_if (negb (forallb (fun x => slen x.2 =? 32) (map_to_list ring))) "configure worker keyring".

(** The direct queues, or the URL of the gateway. *)
Definition buildTransport (c : WorkerConfig) : res (DirectSQS + string) :=
  if String.eqb (wc_Transport c) WorkerTransportDirectSQS then
    _ ← aws;
    mret (inl (mkDirect (wc_JobQueueURL c) (wc_ResultQueueURL c) (wc_PoolID c)))
  else mret (inr (wc_GatewayURL c)).

Definition worker_build (c : WorkerConfig) : res ((DirectSQS + string) * Policy * Worker.Config) :=
  encryptionKey ← NewPrivateKey (wc_EncryptionKey c);
  _ ← ring_keys (wk_WorkerEncryption (wc_Keyring c));
  let workerKeys := wk_WorkerEncryption (wc_Keyring c) ∪ {[wc_EncryptionKeyID c := encryptionKey]} in
  let platformKeys := wk_PlatformSigning (wc_Keyring c) ∪ {[wc_PlatformKeyID c := wc_PlatformPublicKey c]} in
  _ ← journal;
  transport ← buildTransport c;
  worker ← NewWorker (Some encryptionKey) (Some (wc_PlatformPublicKey c)) (wc_EncryptionKeyID c) (wc_PlatformKeyID c)
    (Worker.mkConfig (wc_WorkerID c) (wc_PoolID c) (wc_ResultKeyID c) (5 * second) (wc_ResultKey c)
       workerKeys platformKeys (wk_Revoked (wc_Keyring c)));
  mret (transport, mkPolicy (wc_PrivateCIDRs c) 3, worker).

(** *** cmd/notification-worker *)

Definition configuredProvider (c : NotificationWorkerConfig) : res Mail.Transport :=
  if String.eqb (nw_Provider c) "oci"
  then NewOCIEmailDeliveryProvider ParseAddress (nw_SMTPAddress c) (nw_SMTPUsername c) (nw_SMTPPassword c) (nw_From c)
  else NewLocalSMTPProvider ParseAddress (nw_SMTPAddress c) (nw_From c).

Definition notification_build (c : NotificationWorkerConfig) : res (Mail.Transport * (string * Z)) :=
  _ ← database;
  provider ← configuredProvider c;
  worker ← NewNotificationWorker (nw_WorkerID c) (30 * second);
  mret (provider, worker).

(** *** cmd/queue-gateway *)

Context {O : Type} `{!SQS O} (Format : Z -> string) (Parse : string -> option Z).

Definition gateway_pool (snapshot : Gatewayconfig.Snapshot) (p : Gatewayconfig.Pool) (publicKey : bytes) : Gateway.Pool O :=
  Gateway.mkPool (Gatewayconfig.gp_ID p) (Gatewayconfig.gp_ResultKeyID p)
    (direct_transport Format Parse
      (mkDirect (Gatewayconfig.gp_JobQueueURL p) (Gatewayconfig.sn_ResultQueueURL snapshot) (Gatewayconfig.gp_ID p)))
    publicKey (Gatewayconfig.gp_SchemaMin p) (Gatewayconfig.gp_SchemaMax p)
    (Gatewayconfig.li_RequestsPerMinute (Gatewayconfig.gp_Limits p))
    (Gatewayconfig.li_BytesPerMinute (Gatewayconfig.gp_Limits p))
    (Gatewayconfig.li_ConcurrentPulls (Gatewayconfig.gp_Limits p))
    (Gatewayconfig.li_ResultsPerMinute (Gatewayconfig.gp_Limits p))
    (list_to_set (Gatewayconfig.gp_RevokedCertificateSerials p)).

Fixpoint gateway_pools (snapshot : Gatewayconfig.Snapshot) (pools : list Gatewayconfig.Pool) : res (list (Gateway.Pool O)) :=
  match pools with
  | [] => Ok []
  | p :: pools =>
      publicKey ← or_else (base64_decode (Gatewayconfig.gp_ResultPublicKey p)) "illegal base64 data";
      rest ← gateway_pools snapshot pools;
      mret (gateway_pool snapshot p publicKey :: rest)
  end.

Definition gateway_build (c : QueueGatewayConfig) (now : Z) (o : O) (random : nat -> res bytes) :
    res (gmap string (Gateway.Pool O) * Gateway.Gateway O) :=
  verified ← Gatewayconfig.Verify (qg_SignedConfig c) (qg_SigningPublicKey c) now;
  _ ← aws;
  pools ← gateway_pools verified (Gatewayconfig.sn_Pools verified);
  Gateway.New pools (qg_LeaseKey c) o random.
End Build.

(** ** A process that loaded its configuration starts *)

Section Starts.
Context {P : Primitives} {J : SnapshotJSON} `{UrlLib} {L : ConfigLib} {Laws : ConfigLaws}.
Context (json : Codec (gmap string string)) (visit : gmap string string -> list (string * string)).
Context (ParseAddress : string -> option (string * string)) (source : commandSource).

Lemma New_single version key :
  1 <= version -> slen key = 32 -> New version {[version := key]} = Ok (mkKeyring version {[version := key]}).
Proof.
  intros Hv Hk. unfold New. rewrite lookup_singleton_eq, map_to_list_singleton. simpl. rewrite Hk. by zcases.
Qed.

Lemma engine_starts c : loadMonitorEngine source = Ok c ->
  engine_headers c = Ok (mkKeyring 1 {[1 := me_HeaderKey c]}) /\
  engine_build json visit (Ok ()) (Ok ()) c =
    (let queues := mkQueues (me_JobQueueURL c) (me_ResultQueueURL c) (me_JobDLQURL c) (me_ResultDLQURL c) in
     _ ← Validate queues;
     mret (mkEngine (mkScheduler (me_SigningKey c) (me_SigningKeyID c)
                       (Decrypt json visit (mkKeyring 1 {[1 := me_HeaderKey c]})))
             (Some (me_QuarantineKey c)) queues (me_HealthAddress c))).
Proof.
  intros (_ & _ & Hs & Hi & Hh & Hq & _)%loadMonitorEngine_ok. unfold engine_build, engine_headers.
  rewrite New_single by lia. split; [done|]. unfold Quarantine.New, NewScheduler. rewrite Hs, Hq. simpl.
  destruct (String.eqb_spec (me_SigningKeyID c) "") as [E|_]; [rewrite E in Hi; unfold slen in Hi; simpl in Hi; lia|done].
Qed.

Lemma ring_keys_ok ring : map_Forall (fun id key => id <> "" /\ slen key = 32) ring -> ring_keys ring = Ok ().
Proof.
  intros Hr. unfold ring_keys. replace (forallb _ _) with true; [done|]. symmetry. apply forallb_forall.
  intros [id key] Hx%list_elem_of_In%elem_of_map_to_list. apply Z.eqb_eq. by eapply (Hr id key).
Qed.

Lemma worker_starts c : loadWorker source = Ok c ->
  exists transport w, worker_build (Ok ()) (Ok ()) c = Ok (transport, mkPolicy (wc_PrivateCIDRs c) 3, w) /\
    Worker.config_ok w /\ cf_RevokedKeyIDs w = wk_Revoked (wc_Keyring c) /\
    cf_WorkerPrivateKeys w = <[wc_EncryptionKeyID c := wc_EncryptionKey c]> (wk_WorkerEncryption (wc_Keyring c)) /\
    cf_PlatformPublicKeys w = <[wc_PlatformKeyID c := wc_PlatformPublicKey c]> (wk_PlatformSigning (wc_Keyring c)).
Proof.
  intros (Hp & Hw & He & Hr & Hpl & Hek & Hrk & Hpk & [Hk1 _] & _)%loadWorker_ok.
  assert (exists t, buildTransport (Ok ()) c = Ok t) as [t Ht].
  { unfold buildTransport. destruct (String.eqb _ _); simpl; eauto. }
  unfold worker_build, NewPrivateKey. rewrite Hek. simpl. rewrite ring_keys_ok by done. simpl. rewrite Ht. simpl.
  set (raw := Worker.mkConfig _ _ _ _ _ _ _ _).
  assert (NewWorker (Some (wc_EncryptionKey c)) (Some (wc_PlatformPublicKey c)) (wc_EncryptionKeyID c)
    (wc_PlatformKeyID c) raw = Ok (Worker.mkConfig (wc_WorkerID c) (wc_PoolID c) (wc_ResultKeyID c) (5 * second)
      (wc_ResultKey c) (<[wc_EncryptionKeyID c := wc_EncryptionKey c]> (wk_WorkerEncryption (wc_Keyring c)))
      (<[wc_PlatformKeyID c := wc_PlatformPublicKey c]> (wk_PlatformSigning (wc_Keyring c))) (wk_Revoked (wc_Keyring c))))
    as Hn.
  { assert (forall (id : string) (k : bytes) (m : gmap string bytes), <[id := k]> (m ∪ {[id := k]}) = <[id := k]> m) as Hu.
    { intros id k m. apply map_eq. intros i. destruct (decide (i = id)) as [->|Hi]; [by rewrite !lookup_insert_eq|].
      rewrite !lookup_insert_ne, lookup_union_l by (done || by rewrite lookup_singleton_ne). done. }
    unfold NewWorker, raw. simpl. unfold with_key. apply String.eqb_neq in He, Hpl. rewrite He, Hpl, Hpk, Hrk. simpl.
    rewrite !Hu. apply String.eqb_neq in Hp, Hw, Hr. rewrite Hp, Hw, Hr. simpl.
    assert (forall (id : string) (k : bytes) (m : gmap string bytes), (size (<[id := k]> m) =? 0)%nat = false) as Hz.
    { intros id k m. apply Nat.eqb_neq. rewrite map_size_ne_0_lookup. exists id. rewrite lookup_insert_eq. eauto. }
    by rewrite !Hz. }
  eexists _, _. rewrite Hn. split; [done|]. split; [by eapply NewWorker_ok|done].
Qed.

Lemma TrimSpace_value name fallback : TrimSpace fallback = fallback ->
  TrimSpace (value source name fallback) = value source name fallback.
Proof.
  intros Hf. unfold value. destruct (lookup_env source name) as [v|]; [|done].
  destruct (nonempty _); [apply TrimSpace_idem|done].
Qed.

Lemma NewLocal_timeout address from timeout t : 0 < timeout ->
  NewLocal ParseAddress address from second = Ok t -> exists t', NewLocal ParseAddress address from timeout = Ok t'.
Proof.
  intros Ht. unfold NewLocal. destruct (SplitHostPort _) as [[host port]|]; [|done].
  rewrite (proj2 (Z.leb_gt timeout 0) Ht). change (second <=? 0) with false. destruct (_ || _); [done|eauto].
Qed.

Lemma NewOCI_timeout address username password from timeout t : 0 < timeout ->
  NewOCI ParseAddress address username password from second = Ok t ->
  exists t', NewOCI ParseAddress address username password from timeout = Ok t'.
Proof.
  intros Ht. unfold NewOCI. destruct (SplitHostPort _) as [[host port]|]; [|done].
  rewrite (proj2 (Z.leb_gt timeout 0) Ht). change (second <=? 0) with false. destruct (_ || _); [done|eauto].
Qed.

Lemma notification_starts c : loadNotificationWorker source ParseAddress = Ok c ->
  (exists provider worker, notification_build ParseAddress (Ok ()) c = Ok (provider, worker)) <->
  slen (TrimSpace (nw_WorkerID c)) <= 128.
Proof.
  intros Hc. pose proof Hc as (_ & _ & Hw & t & Ht)%loadNotificationWorker_ok.
  assert (TrimSpace (nw_WorkerID c) <> "") as Hne.
  { unfold loadNotificationWorker in Hc. cbv zeta in Hc. apply res_bind_ok in Hc as (d & _ & Hc).
    apply res_bind_ok in Hc as ([] & _ & Hc). apply res_bind_ok in Hc as (tr & _ & Hc). destruct tr; [|done].
    injection Hc as <-. cbn [nw_WorkerID] in *. by rewrite TrimSpace_value. }
  assert (exists provider, configuredProvider ParseAddress c = Ok provider) as [p Hp].
  { unfold configuredProvider, NewOCIEmailDeliveryProvider, NewLocalSMTPProvider.
    destruct (String.eqb (nw_Provider c) "oci").
    - edestruct NewOCI_timeout as [t' ->]; [| exact Ht|eauto]. done.
    - destruct Ht as [_ Ht]. edestruct NewLocal_timeout as [t' ->]; [|exact Ht|eauto]. done. }
  unfold notification_build. cbn [mbind res_bind]. rewrite Hp. cbn [mbind res_bind].
  unfold NewNotificationWorker. apply String.eqb_neq in Hne. rewrite Hne.
  destruct (Z.ltb_spec 128 (slen (TrimSpace (nw_WorkerID c)))); simpl.
  - split; [by intros (? & ? & ?)|lia].
  - split; [done|]. intros _. eauto.
Qed.

Lemma api_starts c sender : loadWithFiles source = Ok c -> configuredActionSender ParseAddress c = Ok sender ->
  api_headers c = Ok (mkKeyring (c_MonitorHeaderKeyVersion c) {[c_MonitorHeaderKeyVersion c := c_MonitorHeaderKey c]}) /\
  exists service, api_main ParseAddress (Ok ()) c = Ok (sender, service, c_Production c).
Proof.
  intros Hc Hs. pose proof Hc as (_ & _ & _ & _ & Hk & Hv & Hp & Hi)%loadWithFiles_ok.
  unfold api_main, api_headers. rewrite New_single by lia. split; [done|]. rewrite Hs. cbn [mbind res_bind].
  unfold NewService. rewrite Hp. simpl.
  assert (TrimSpace (c_PlatformSigningKeyID c) = c_PlatformSigningKeyID c) as ->.
  { unfold loadWithFiles in Hc. cbv zeta in Hc. res_inv Hc. cbn [c_PlatformSigningKeyID]. unfold stringSetting.
    destruct (lookup_env _ _); [apply TrimSpace_idem|done]. }
  destruct (String.eqb_spec (c_PlatformSigningKeyID c) "") as [E|_]; [|simpl; eauto].
  rewrite E in Hi. unfold slen in Hi. simpl in Hi. lia.
Qed.
End Starts.

(** *** The gateway *)

Module GatewayStart.
Import Gatewayconfig.

Lemma validate_pools_ok pools seen : validate_pools pools seen = Ok () ->
  Forall (fun p => valid_pool p = true) pools /\ NoDup (gp_ID <$> pools) /\ Forall (fun p => gp_ID p ∉ seen) pools.
Proof.
  revert seen. induction pools as [|p pools IH]; intros seen; cbn [validate_pools].
  { intros _. split_and!; constructor. }
  destruct (valid_pool p) eqn:Ep; [|done]. cbn [negb]. case_bool_decide as Hs; [done|].
  intros (HF & Hnd & Hn)%IH. rewrite Forall_forall in Hn. split_and!.
  - by constructor.
  - csimpl. apply NoDup_cons. split; [|done]. intros (q & Eq & Hq)%list_elem_of_fmap. apply Hn in Hq. set_solver.
  - constructor; [done|]. apply Forall_forall. intros q Hq. apply Hn in Hq. set_solver.
Qed.

Lemma Verify_ok {P : Primitives} {J : SnapshotJSON} data key now s : Verify data key now = Ok s ->
  validate s now = Ok () /\ slen key = 32 /\ slen data <= 1024 * 1024 /\
  exists signature, ed25519_verify key (signed_text s) signature = true.
Proof.
  unfold Verify. destruct (_ || _) eqn:E; [done|]. booleans. destruct (unmarshal json_signed data) as [g|]; [|done].
  destruct (validate (sg_Snapshot g) now) as [[]|] eqn:Ev; [|done]. simpl.
  destruct (base64_decode (sg_Signature g)) as [signature|]; [|done].
  destruct (ed25519_verify _ _ _) eqn:Es; [|done]. intros [= <-]. split_and!; eauto.
Qed.

Lemma snapshot_validated s now : validate s now = Ok () ->
  Forall (fun p => valid_pool p = true) (sn_Pools s) /\ NoDup (gp_ID <$> sn_Pools s) /\ sn_Pools s <> [] /\
  now <= sn_ExpiresAt s.
Proof.
  unfold validate. destruct (_ || _) eqn:E; [done|]. booleans. intros (HF & Hnd & _)%validate_pools_ok.
  split_and!; [done|done|by intros Hn; rewrite Hn in *|]. unfold before in *. booleans. lia.
Qed.

Lemma validate_later s now now' : validate s now = Ok () -> now' <= sn_ExpiresAt s -> validate s now' = Ok ().
Proof.
  unfold validate. intros H Hn. destruct (_ || _) eqn:E in H; [done|].
  match goal with |- (if ?b then _ else _) = _ => assert (b = false) as ->; [|done] end.
  rewrite !orb_false_iff in *. unfold before in *. destruct_and?. split_and!; done || (by apply Z.ltb_ge).
Qed.

Section Pools.
Context {P : Primitives} {O : Type} `{!SQS O} (Format : Z -> string) (Parse : string -> option Z).

Lemma gateway_pool_ok snapshot p : valid_pool p = true ->
  exists key, base64_decode (gp_ResultPublicKey p) = Some key /\
    Gateway.valid_pool (gateway_pool Format Parse snapshot p key) = true /\
    with_defaults (gateway_pool Format Parse snapshot p key) = gateway_pool Format Parse snapshot p key.
Proof.
  unfold valid_pool. intros E. rewrite negb_true_iff, !orb_false_iff in E. destruct_and?.
  destruct (base64_decode _) as [key|]; [|done]. exists key. split; [done|]. booleans.
  assert (forall v d, v <> 0 -> or_default v d = v) as Hd.
  { intros v d Hv. unfold or_default. by destruct (Z.eqb_spec v 0). }
  split.
  - unfold Gateway.valid_pool. cbn [gateway_pool Gateway.p_ID Gateway.p_ResultKeyID Gateway.p_ResultPublic
      Gateway.p_SchemaMin Gateway.p_SchemaMax Gateway.p_MaxRequestsPerMinute Gateway.p_MaxBytesPerMinute
      Gateway.p_MaxConcurrentPulls Gateway.p_MaxResultsPerMinute].
    unfold PreviousSchemaVersion, SchemaVersion. apply negb_true_iff.
    rewrite !orb_false_iff, negb_false_iff, !String.eqb_neq, Z.eqb_eq, !Z.ltb_ge. split_and!; done || lia.
  - unfold with_defaults. cbn [gateway_pool Gateway.p_ID Gateway.p_ResultKeyID Gateway.p_ResultPublic
      Gateway.p_SchemaMin Gateway.p_SchemaMax Gateway.p_MaxRequestsPerMinute Gateway.p_MaxBytesPerMinute
      Gateway.p_MaxConcurrentPulls Gateway.p_MaxResultsPerMinute Gateway.p_Transport
      Gateway.p_RevokedCertificateSerials].
    rewrite !Hd by lia. done.
Qed.

(** The pools of a valid snapshot are served as they are configured. *)
Lemma map_pools_ok snapshot pools : Forall (fun p => valid_pool p = true) pools -> NoDup (gp_ID <$> pools) ->
  exists l, gateway_pools Format Parse snapshot pools = Ok l /\ forall mapped limits, exists mapped' limits',
    map_pools l mapped limits = Ok (mapped', limits') /\
    (forall p, p ∈ pools -> exists key, base64_decode (gp_ResultPublicKey p) = Some key /\
      mapped' !! gp_ID p = Some (gateway_pool Format Parse snapshot p key)) /\
    (forall id, id ∉ gp_ID <$> pools -> mapped' !! id = mapped !! id).
Proof.
  induction 1 as [|p pools Hp HF IH]; intros Hnd.
  { exists []. split; [done|]. intros mapped limits. exists mapped, limits. split; [done|]. split; [by set_solver|done]. }
  csimpl in Hnd. apply NoDup_cons in Hnd as [Hn Hnd]. destruct (IH Hnd) as (l & Hl & Hm). clear IH.
  destruct (gateway_pool_ok snapshot p Hp) as (key & Hk & Hv & Hd).
  exists (gateway_pool Format Parse snapshot p key :: l). split.
  { cbn [gateway_pools]. rewrite Hk. cbn [or_else mbind res_bind]. by rewrite Hl. }
  intros mapped limits. cbn [map_pools]. rewrite Hd, Hv. cbn [negb].
  destruct (Hm (<[gp_ID p := gateway_pool Format Parse snapshot p key]> mapped) (<[gp_ID p := new_limit]> limits))
    as (mapped' & limits' & Er & Hin & Hout).
  exists mapped', limits'. split; [done|]. split.
  - intros q [->|Hq]%elem_of_cons; [|by apply Hin]. exists key. split; [done|].
    rewrite Hout by done. by rewrite lookup_insert_eq.
  - intros id Hid. csimpl in Hid. rewrite not_elem_of_cons in Hid. destruct Hid as [Hne Hid].
    rewrite Hout by done. by rewrite lookup_insert_ne.
Qed.
End Pools.
End GatewayStart.

Section GatewayStarts.
Context {P : Primitives} {J : SnapshotJSON} `{UrlLib} {L : ConfigLib}.
Context {O : Type} `{!SQS O} (Format : Z -> string) (Parse : string -> option Z).

Lemma gateway_starts source c now s (o : O) random : loadQueueGateway source = Ok c ->
  Gatewayconfig.Verify (qg_SignedConfig c) (qg_SigningPublicKey c) now = Ok s ->
  exists pools g, gateway_build (Ok ()) Format Parse c now o random = Ok (pools, g) /\
    (forall p, p ∈ Gatewayconfig.sn_Pools s -> exists key,
      base64_decode (Gatewayconfig.gp_ResultPublicKey p) = Some key /\
      pools !! Gatewayconfig.gp_ID p = Some (gateway_pool Format Parse s p key)) /\
    (forall id, is_Some (pools !! id) -> id ∈ Gatewayconfig.gp_ID <$> Gatewayconfig.sn_Pools s).
Proof.
  intros (_ & Hk & _)%loadQueueGateway_ok Hv. pose proof Hv as (Hval & _)%GatewayStart.Verify_ok.
  apply GatewayStart.snapshot_validated in Hval as (HF & Hnd & _).
  destruct (GatewayStart.map_pools_ok Format Parse s _ HF Hnd) as (l & Hl & Hm).
  destruct (Hm ∅ ∅) as (pools & limits & Er & Hin & Hout).
  unfold gateway_build. rewrite Hv. cbn [mbind res_bind]. rewrite Hl. cbn [mbind res_bind].
  unfold Gateway.New. rewrite Hk, Er. eexists _, _. split; [reflexivity|]. split; [done|].
  intros id Hid. destruct (decide (id ∈ Gatewayconfig.gp_ID <$> Gatewayconfig.sn_Pools s)) as [Hy|Hn]; [done|].
  rewrite Hout in Hid by done. rewrite lookup_empty in Hid. by destruct Hid.
Qed.
End GatewayStarts.

(** ** The signed snapshot *)

(** What an operator signs is what the gateway reads, until it expires. *)
Theorem Verify_Sign {P : Primitives} {PL : PrimitiveLaws} {J : SnapshotJSON} s key now now' data :
  inverts (Gatewayconfig.json_signed) -> Gatewayconfig.Sign s key now = Ok data ->
  0 < slen data <= 1024 * 1024 -> now' <= Gatewayconfig.sn_ExpiresAt s ->
  Gatewayconfig.Verify data (ed25519_public key) now' = Ok s.
Proof.
  intros Hj. unfold Gatewayconfig.Sign. destruct (_ || _) eqn:E; [done|]. apply orb_false_iff in E as [Ek Ev].
  booleans. destruct (marshal _ _) as [d|] eqn:Em; [|done]. intros [= <-] Hd Hn. apply Hj in Em.
  unfold Gatewayconfig.Verify. rewrite ed25519_public_length, Em by done. cbn [Gatewayconfig.sg_Snapshot Gatewayconfig.sg_Signature].
  rewrite base64_decode_encode, ed25519_complete by done.
  destruct (Gatewayconfig.validate s now) as [[]|] eqn:Es; [|done].
  rewrite (GatewayStart.validate_later s now now') by done. cbn [is_ok negb].
  zcases. done.
Qed.

(** A process whose configuration was loaded is not stopped by it: with its database,
    SDK settings and journal at hand, the engine starts whenever the four queues have
    their roles, the worker always starts, the gateway starts from every snapshot it
    can verify and serves exactly the pools of the snapshot as they are configured,
    the notification worker starts unless its name is longer than 128 bytes, and the
    API starts once its mail settings are accepted.  A worker uses the keys named on
    their own even when its key ring has others under the same names. *)
Theorem loaded_processes_start {P : Primitives} {J : SnapshotJSON} `{UrlLib} {L : ConfigLib} {Laws : ConfigLaws}
    {O : Type} `{!SQS O} json visit ParseAddress Format Parse source :
  (forall c sender, loadWithFiles source = Ok c -> configuredActionSender ParseAddress c = Ok sender ->
    exists service, api_main ParseAddress (Ok ()) c = Ok (sender, service, c_Production c)) /\
  (forall c, loadMonitorEngine source = Ok c ->
    Validate (mkQueues (me_JobQueueURL c) (me_ResultQueueURL c) (me_JobDLQURL c) (me_ResultDLQURL c)) = Ok () ->
    exists engine, engine_build json visit (Ok ()) (Ok ()) c = Ok engine /\
      sc_signer (en_scheduler engine) = me_SigningKey c /\ en_sealer engine = Some (me_QuarantineKey c)) /\
  (forall c, loadWorker source = Ok c -> exists transport w,
    worker_build (Ok ()) (Ok ()) c = Ok (transport, mkPolicy (wc_PrivateCIDRs c) 3, w) /\ Worker.config_ok w /\
    cf_WorkerPrivateKeys w !! wc_EncryptionKeyID c = Some (wc_EncryptionKey c) /\
    cf_PlatformPublicKeys w !! wc_PlatformKeyID c = Some (wc_PlatformPublicKey c)) /\
  (forall c, loadNotificationWorker source ParseAddress = Ok c -> slen (TrimSpace (nw_WorkerID c)) <= 128 ->
    exists provider worker, notification_build ParseAddress (Ok ()) c = Ok (provider, worker)) /\
  (forall c now s (o : O) random, loadQueueGateway source = Ok c ->
    Gatewayconfig.Verify (qg_SignedConfig c) (qg_SigningPublicKey c) now = Ok s ->
    exists pools g, gateway_build (Ok ()) Format Parse c now o random = Ok (pools, g) /\
      forall id, is_Some (pools !! id) <-> id ∈ Gatewayconfig.gp_ID <$> Gatewayconfig.sn_Pools s).
Proof.
  split_and!.
  - intros c sender Hc Hs. by destruct (api_starts ParseAddress source c sender Hc Hs) as [_ ?].
  - intros c Hc Hv. destruct (engine_starts json visit source c Hc) as [_ ->]. cbv zeta. rewrite Hv.
    eexists. by split_and!.
  - intros c (t & w & Hb & Hok & _ & Hk & Hp)%worker_starts. exists t, w. rewrite Hk, Hp, !lookup_insert_eq. done.
  - intros c Hc Hs. by apply (notification_starts ParseAddress source c Hc).
  - intros c now s o random Hc Hv.
    destruct (gateway_starts Format Parse source c now s o random Hc Hv) as (pools & g & Hb & Hin & Hout).
    exists pools, g. split; [done|]. intros id. split; [apply Hout|].
    intros (p & -> & Hp)%list_elem_of_fmap. destruct (Hin p Hp) as (key & _ & ->). eauto.
Qed.

(** ** The version of the header key *)

(** The engine has its header key under version 1, whatever version the API encrypts
    with: headers of monitors that were stored under another version cannot be read. *)
Theorem header_version_unknown {P : Primitives} `{UrlLib} {L : ConfigLib} {Laws : ConfigLaws} json visit
    api engine a e ka ke headers nonce data version :
  loadWithFiles api = Ok a -> loadMonitorEngine engine = Ok e -> c_MonitorHeaderKeyVersion a <> 1 ->
  api_headers a = Ok ka -> engine_headers e = Ok ke ->
  Encrypt json visit ka headers nonce = Ok (data, version) -> data <> "" ->
  is_ok (Decrypt json visit ke data version) = false.
Proof.
  intros Ha (_ & _ & _ & _ & Hh & _)%loadMonitorEngine_ok Hv Hka Hke He Hd.
  unfold engine_headers in Hke. rewrite New_single in Hke by lia. injection Hke as <-.
  apply loadWithFiles_ok in Ha as (_ & _ & _ & _ & Hk & Hr & _).
  unfold api_headers in Hka. rewrite New_single in Hka by lia. injection Hka as <-.
  assert (version = c_MonitorHeaderKeyVersion a \/ data = "") as [->|?]; [|unfold Decrypt|done].
  { unfold Encrypt in He. destruct (Normalize _); [|done]. destruct (size _ =? 0)%nat; [injection He; auto|].
    destruct (_ <? _); [done|]. destruct (aead _ _); [|done]. destruct nonce; [|done]. injection He; auto. }
  destruct (Z.eqb_spec (slen data) 0) as [E|_].
  { destruct data; [done|]. unfold slen in E. simpl in E. lia. }
  unfold aead. cbn [Keys]. by rewrite lookup_singleton_ne by congruence.
Qed.

(** ** A deployment *)
Module Rollout.
Import Deployment.
Definition snapshot : Gatewayconfig.Snapshot :=
  Gatewayconfig.mkSnapshot 1 "production" "eu-north-1" "https://sqs/results.fifo" (100 * second) (1000 * second)
    [Gatewayconfig.mkPool "pool" "https://sqs/jobs.fifo" "rk" (base64_encode (Toy.rep 32 "k")) 1 2 [] ["7"]
       (Gatewayconfig.mkLimits 60 4096 1 60)].
Definition signed : Gatewayconfig.Signed := Gatewayconfig.mkSigned snapshot (base64_encode (Toy.rep 64 "s")).
#[global] Instance snapshot_json : SnapshotJSON := {|
  Gatewayconfig.json_snapshot _ := Some "snapshot";
  Gatewayconfig.json_signed := mkCodec (fun s => if bool_decide (Gatewayconfig.sg_Signature s = Gatewayconfig.sg_Signature signed)
    then Some "m" else None) (fun b => if String.eqb b "m" then Some signed else None)
|}.
Definition queue := MemoryQueue.state.
End Rollout.

Lemma loaded_processes_start_witness :
  exists e, loadMonitorEngine Deployment.source = Ok e /\ exists engine,
    engine_build (P := Toy.primitives) bits_codec map_to_list (Ok ()) (Ok ()) e = Ok engine /\
    exists w t, loadWorker Deployment.source = Ok w /\ is_ok (worker_build (Ok ()) (Ok ()) w) = true /\
    loadQueueGateway Deployment.source = Ok t /\ exists pools g,
      gateway_build (P := Toy.primitives) (Ok ()) Rfc3339.Format MemoryQueue.parse t (500 * second)
        ([] : MemoryQueue.state) (fun _ => Ok "") = Ok (pools, g) /\ is_Some (pools !! "pool").
Proof.
  destruct (loaded_processes_start (P := Toy.primitives) bits_codec map_to_list Deployment.ParseAddress
    Rfc3339.Format MemoryQueue.parse Deployment.source) as (_ & He & Hw & _ & Hg).
  destruct Deployment.all_load as (_ & L2 & L3 & L4 & _). unfold Deployment.loaded in *.
  destruct (loadMonitorEngine Deployment.source) as [e|] eqn:Ee; [|discriminate L2].
  destruct (loadWorker Deployment.source) as [w|] eqn:Ew; [|discriminate L3].
  destruct (loadQueueGateway Deployment.source) as [t|] eqn:Et; [|discriminate L4].
  exists e. split; [reflexivity|].
  destruct (He e eq_refl) as (engine & Hb & _).
  { vm_compute in Ee. injection Ee as <-. vm_compute. reflexivity. }
  exists engine. split; [exact Hb|]. exists w, t. split; [reflexivity|]. split.
  { destruct (Hw w eq_refl) as (tr & c & -> & _). reflexivity. }
  split; [reflexivity|].
  destruct (Hg t (500 * second) Rollout.snapshot ([] : MemoryQueue.state) (fun _ => Ok "") eq_refl) as (pools & g & Hp & Hi).
  { vm_compute in Et. injection Et as <-. vm_compute. reflexivity. }
  exists pools, g. split; [exact Hp|]. apply Hi. left.
Defined.

(** The API of this deployment encrypts under version 2.  A due monitor whose headers
    it stored makes the pass of the engine's scheduler fail, and the pass is one
    transaction: the monitor due beside it gets no job either. *)
Theorem header_version_stops_batch :
  match loadWithFiles Deployment.source, loadMonitorEngine Deployment.source with
  | Ok a, Ok e =>
      match api_headers a, engine_build (P := Toy.primitives) bits_codec map_to_list (Ok ()) (Ok ()) e with
      | Ok ka, Ok engine =>
          match Encrypt (P := Toy.primitives) bits_codec map_to_list ka {["X-Probe" := "1"]} (Ok (Toy.rep 12 "n")) with
          | Ok (data, version) =>
              let plain := Pass.monitor "pool" in
              let stored := mkMonitor "o" "e" 1 "https://example.test/" "GET" 60 5 200 299 (99 * second) data
                (Some version) "pool" None None in
              let w := Pass.world {["m1" := plain; "m2" := stored]} in
              let '(r, w') := ScheduleDue (P := Toy.primitives) (en_scheduler engine) Pass.env (110 * second) 10 w in
              version = 2 /\ r = Err (ErrorsNew "monitor headers unavailable") /\ w_db w' = w_db w
          | Err _ => False
          end
      | _, _ => False
      end
  | _, _ => False
  end.
Proof. vm_compute. repeat split. Qed.
