(* ===== verification/Json.v ===== *)
(** * Json: the bodies of requests

    Models internal/httpapi/json.go and the request types of internal/httpapi: the media
    type of a body, the strict decoding of one JSON value into a Go structure, and the
    validation rules of its fields.

    What the standard library does with a value is modelled here: a member finds its field
    by its exact name and otherwise without regard to case, null leaves a field that is not
    a pointer as it is, an unknown member is an error, and a repeated member overwrites or
    extends.  The scanner that turns bytes into a value and its rest, and the validator of
    gin, are parameters. *)

From stdpp Require Import base gmap list strings.
From Stdlib Require Import ZArith Lia Ascii String Bool.
From S2P Require Import Prelude Bytes Sealing Destination HttpClient Workqueue Mail Config.
Import Netip Secureheaders.

(** ** Media types: [mime.ParseMediaType] *)

Definition tspecials : string := "()<>@,;:\/[]?=" +:+ String (byte_of 34) "".
Definition isTokenChar (c : ascii) : bool := (32 <? val_of c) && (val_of c <? 127) && negb (contains_char tspecials c).

Fixpoint consumeToken (s : string) : string * string :=
  match s with
  | "" => ("", "")
  | String c r => if isTokenChar c then let '(t, rest) := consumeToken r in (String c t, rest) else ("", s)
  end.

(** A quoted value after its first quote: its text and what follows. *)
Fixpoint quoted (s : string) : option (string * string) :=
  match s with
  | "" => None
  | String c r =>
      if Ascii.eqb c (byte_of 34) then Some ("", r)
      else if Ascii.eqb c CR || Ascii.eqb c LF then None
      else match r with
           | String d r' =>
               if Ascii.eqb c "\" && contains_char tspecials d then (fun x => (String d x.1, x.2)) <$> quoted r'
               else (fun x => (String c x.1, x.2)) <$> quoted r
           | "" => None
           end
  end.

Definition consumeValue (s : string) : string * string :=
  match s with
  | String c r => if Ascii.eqb c (byte_of 34) then default ("", s) (quoted r) else consumeToken s
  | "" => ("", "")
  end.

Definition after_char (c : ascii) (s : string) : option string :=
  match s with String d r => if Ascii.eqb c d then Some r else None | "" => None end.

(** One parameter: its name in lower case, its value and what follows. *)
Definition consumeMediaParam (v : string) : option (string * string * string) :=
  rest ← after_char ";" (trim_left v);
  let '(param, rest) := consumeToken (trim_left rest) in
  if String.eqb param "" then None else
  rest ← after_char "=" (trim_left rest);
  let '(value, rest2) := consumeValue (trim_left rest) in
  if String.eqb value "" && String.eqb rest2 (trim_left rest) then None else Some (to_lower param, value, rest2).

(** Each parameter takes at least two bytes, so that the length of the text is fuel enough. *)
Fixpoint media_params (fuel : nat) (v : string) (seen : gmap string string) : bool :=
  match fuel with
  | O => false
  | S fuel =>
      let v := trim_left v in
      if String.eqb v "" then true else
      match consumeMediaParam v with
      | None => String.eqb (TrimSpace v) ";"
      | Some (key, value, rest) =>
          match seen !! key with
          | Some old => if String.eqb old value then media_params fuel rest seen else false
          | None => media_params fuel rest (<[key := value]> seen)
          end
      end
  end.

Definition checkMediaTypeDisposition (s : string) : bool :=
  let '(typ, rest) := consumeToken s in
  if String.eqb typ "" then false else
  if String.eqb rest "" then true else
  match after_char "/" rest with
  | None => false
  | Some rest => let '(subtype, rest) := consumeToken rest in negb (String.eqb subtype "") && String.eqb rest ""
  end.

Definition ParseMediaType (v : string) : option string :=
  let '(base, params) := split_at ";" v in
  let mediatype := TrimSpace (to_lower base) in
  if negb (checkMediaTypeDisposition mediatype) then None else
  let rest := match params with Some r => String ";" r | None => "" end in
  if media_params (S (String.length rest)) rest ∅ then Some mediatype else None.

(** ** Values and structures *)

Inductive Json : Type :=
| JNull
| JBool (b : bool)
| JNumber (literal : string)
| JString (s : string)
| JArray (items : list Json)
| JObject (members : list (string * Json)).

(** A field of a structure: its name in JSON and how a value is stored in it. *)
Record Field (T : Type) : Type := mkField { f_name : string; f_set : Json -> T -> option T }.
Arguments mkField {T}. Arguments f_name {T}. Arguments f_set {T}.

Section Decoding.
Context {T : Type}.

Definition find_field (fields : list (Field T)) (key : string) : option (Field T) :=
  match list_find (fun f => f_name f = key) fields with
  | Some (_, f) => Some f
  | None => snd <$> list_find (fun f => EqualFold (f_name f) key = true) fields
  end.

Fixpoint decode_members (fields : list (Field T)) (members : list (string * Json)) (t : T) : option T :=
  match members with
  | [] => Some t
  | (key, v) :: members =>
      f ← find_field fields key;
      t' ← f_set f v t;
      decode_members fields members t'
  end.

Definition decode_struct (fields : list (Field T)) (v : Json) (t : T) : option T :=
  match v with
  | JNull => Some t
  | JObject members => decode_members fields members t
  | _ => None
  end.

(** Fields by their Go type: string, bool, *bool, *int16 and *int32, map[string]string and a
    pointer to a structure. *)
Definition of_string (name : string) (put : string -> T -> T) : Field T := mkField name (fun v t =>
  match v with JNull => Some t | JString s => Some (put s t) | _ => None end).
Definition of_bool (name : string) (put : bool -> T -> T) : Field T := mkField name (fun v t =>
  match v with JNull => Some t | JBool b => Some (put b t) | _ => None end).
Definition of_bool_pointer (name : string) (put : option bool -> T -> T) : Field T := mkField name (fun v t =>
  match v with JNull => Some (put None t) | JBool b => Some (put (Some b) t) | _ => None end).
Definition of_int_pointer (bits : Z) (name : string) (put : option Z -> T -> T) : Field T := mkField name (fun v t =>
  match v with JNull => Some (put None t) | JNumber n => (fun z => put (Some z) t) <$> ParseInt bits n | _ => None end).

Fixpoint string_entries (members : list (string * Json)) (m : gmap string string) : option (gmap string string) :=
  match members with
  | [] => Some m
  | (k, JString s) :: members => string_entries members (<[k := s]> m)
  | (k, JNull) :: members => string_entries members (<[k := ""]> m)
  | _ => None
  end.
Definition of_string_map (name : string) (get : T -> option (gmap string string)) (put : option (gmap string string) -> T -> T) : Field T :=
  mkField name (fun v t =>
    match v with
    | JNull => Some (put None t)
    | JObject members => (fun m => put (Some m) t) <$> string_entries members (default ∅ (get t))
    | _ => None
    end).
End Decoding.

Definition of_struct_pointer {T U} (name : string) (fields : list (Field U)) (zero : U) (get : T -> option U) (put : option U -> T -> T) :
    Field T :=
  mkField name (fun v t =>
    match v with
    | JNull => Some (put None t)
    | JObject members => (fun u => put (Some u) t) <$> decode_members fields members (default zero (get t))
    | _ => None
    end).

(** ** Validation rules *)

Inductive Tag : Type := Required | OmitEmpty | Email | Max (n : Z) | Min (n : Z) | OneOf (values : list string).
#[global] Instance Tag_eq_dec : EqDecision Tag.
Proof. solve_decision. Defined.
(** The value of a field as the validator sees it: a string, the size of a map that is not nil,
    a pointer to a number, to a bool or to a structure. *)
Inductive FieldValue : Type :=
| VString (s : string) | VMap (size : option Z) | VInt (n : option Z) | VBool (b : option bool) | VStruct (present : bool).
Definition has_value (v : FieldValue) : bool :=
  match v with
  | VString s => nonempty s
  | VMap o => bool_decide (is_Some o)
  | VInt o => bool_decide (is_Some o)
  | VBool o => bool_decide (is_Some o)
  | VStruct present => present
  end.

(** gin's validator; what is documented of the tag [required]. *)
Class Validator : Type := {
  field_valid : FieldValue -> list Tag -> bool;
  required_has_value v tags : Required ∈ tags -> field_valid v tags = true -> has_value v = true
}.

(** A request type: its zero value, its fields and their rules, structures behind pointers included. *)
Class Body (T : Type) : Type := {
  zero : T;
  fields : list (Field T);
  rules : T -> list (FieldValue * list Tag)
}.

(** The first value of a text and what follows it. *)
Class Scanner : Type := scan : bytes -> option (Json * bytes).

(** ** [DecodeJSON] *)

Definition maxJSONBodyBytes : Z := 2 ^ 20.
Definition json_space (c : ascii) : bool :=
  Ascii.eqb c " " || Ascii.eqb c (byte_of 9) || Ascii.eqb c LF || Ascii.eqb c CR.

(** What is answered: status, code and message. *)
Record Refusal : Type := mkRefusal { rf_status : Z; rf_code : string; rf_message : string }.
#[global] Instance Refusal_eq_dec : EqDecision Refusal.
Proof. solve_decision. Defined.

Section DecodeJSON.
Context {Sc : Scanner} {V : Validator}.

Definition ValidateStruct {T} `{Body T} (t : T) : bool := forallb (fun x => field_valid x.1 x.2) (rules t).

(** The reader fails behind [maxJSONBodyBytes]; the second value is missing only when the body
    ends before that and has nothing but white space left. *)
Definition DecodeJSON {T} `{Body T} (contentType : string) (body : bytes) : Refusal + T :=
  if negb (bool_decide (ParseMediaType contentType = Some "application/json"))
  then inl (mkRefusal 415 "unsupported_media_type" "Content-Type must be application/json") else
  match scan (stake (Z.to_nat maxJSONBodyBytes) body) with
  | None => inl (mkRefusal 400 "invalid_request" "request body is invalid")
  | Some (v, rest) =>
      match decode_struct fields v zero with
      | None => inl (mkRefusal 400 "invalid_request" "request body is invalid")
      | Some t =>
          if (maxJSONBodyBytes <? slen body) || negb (forall_char json_space rest)
          then inl (mkRefusal 400 "invalid_request" "request body must contain one JSON value")
          else if negb (ValidateStruct t) then inl (mkRefusal 422 "validation_failed" "request body failed validation")
          else inr t
      end
  end.
End DecodeJSON.

(** ** The request types *)

Record credentialsRequest : Type := mkCredentials { cr_Email : string; cr_Password : string }.
#[global] Instance credentials_body : Body credentialsRequest := {|
  zero := mkCredentials "" "";
  fields := [of_string "email" (fun v t => mkCredentials v (cr_Password t));
             of_string "password" (fun v t => mkCredentials (cr_Email t) v)];
  rules t := [(VString (cr_Email t), [Required; Email; Max 254]); (VString (cr_Password t), [Required; Min 12; Max 1024])]
|}.

Record logoutRequest : Type := mkLogout { lo_AllSessions : bool }.
#[global] Instance logout_body : Body logoutRequest := {|
  zero := mkLogout false;
  fields := [of_bool "all_sessions" (fun v _ => mkLogout v)];
  rules t := []
|}.

Record verifyEmailRequest : Type := mkVerify { ve_Token : string }.
#[global] Instance verify_body : Body verifyEmailRequest := {|
  zero := mkVerify "";
  fields := [of_string "token" (fun v _ => mkVerify v)];
  rules t := [(VString (ve_Token t), [Required; Max 128])]
|}.

Record forgotPasswordRequest : Type := mkForgot { fp_Email : string }.
#[global] Instance forgot_body : Body forgotPasswordRequest := {|
  zero := mkForgot "";
  fields := [of_string "email" (fun v _ => mkForgot v)];
  rules t := [(VString (fp_Email t), [Required; Email; Max 254])]
|}.

Record resetPasswordRequest : Type := mkReset { rp_Token : string; rp_NewPassword : string }.
#[global] Instance reset_body : Body resetPasswordRequest := {|
  zero := mkReset "" "";
  fields := [of_string "token" (fun v t => mkReset v (rp_NewPassword t));
             of_string "new_password" (fun v t => mkReset (rp_Token t) v)];
  rules t := [(VString (rp_Token t), [Required; Max 128]); (VString (rp_NewPassword t), [Required; Min 12; Max 1024])]
|}.

Record createMonitorRequest : Type := mkCreateMonitor {
  cm_Name : string; cm_URL : string; cm_IntervalSeconds : option Z; cm_TimeoutSeconds : option Z;
  cm_ExpectedStatusMin : option Z; cm_ExpectedStatusMax : option Z; cm_Method : string;
  cm_Headers : option (gmap string string); cm_WorkerPoolID : string
}.
#[global] Instance create_monitor_body : Body createMonitorRequest := {|
  zero := mkCreateMonitor "" "" None None None None "" None "";
  fields := [
    of_string "name" (fun v '(mkCreateMonitor _ u i t mi ma me h w) => mkCreateMonitor v u i t mi ma me h w);
    of_string "url" (fun v '(mkCreateMonitor n _ i t mi ma me h w) => mkCreateMonitor n v i t mi ma me h w);
    of_int_pointer 32 "interval_seconds" (fun v '(mkCreateMonitor n u _ t mi ma me h w) => mkCreateMonitor n u v t mi ma me h w);
    of_int_pointer 32 "timeout_seconds" (fun v '(mkCreateMonitor n u i _ mi ma me h w) => mkCreateMonitor n u i v mi ma me h w);
    of_int_pointer 16 "expected_status_min" (fun v '(mkCreateMonitor n u i t _ ma me h w) => mkCreateMonitor n u i t v ma me h w);
    of_int_pointer 16 "expected_status_max" (fun v '(mkCreateMonitor n u i t mi _ me h w) => mkCreateMonitor n u i t mi v me h w);
    of_string "method" (fun v '(mkCreateMonitor n u i t mi ma _ h w) => mkCreateMonitor n u i t mi ma v h w);
    of_string_map "headers" cm_Headers (fun v '(mkCreateMonitor n u i t mi ma me _ w) => mkCreateMonitor n u i t mi ma me v w);
    of_string "worker_pool_id" (fun v '(mkCreateMonitor n u i t mi ma me h _) => mkCreateMonitor n u i t mi ma me h v)];
  rules t := [
    (VString (cm_Name t), [Required; Max 120]);
    (VString (cm_URL t), [Required; Max 2048]);
    (VInt (cm_IntervalSeconds t), [OmitEmpty; OneOf ["60"; "120"; "300"; "600"; "1800"]]);
    (VInt (cm_TimeoutSeconds t), [OmitEmpty; Min 1; Max 10]);
    (VInt (cm_ExpectedStatusMin t), [OmitEmpty; Min 100; Max 599]);
    (VInt (cm_ExpectedStatusMax t), [OmitEmpty; Min 100; Max 599]);
    (VString (cm_Method t), [OmitEmpty; OneOf ["GET"; "HEAD"]]);
    (VMap ((fun m => Z.of_nat (size m)) <$> cm_Headers t), [OmitEmpty; Max 32]);
    (VString (cm_WorkerPoolID t), [OmitEmpty; Max 63])]
|}.

Record organizationRequest : Type := mkOrganizationRequest { og_Name : string; og_Slug : string }.
#[global] Instance organization_body : Body organizationRequest := {|
  zero := mkOrganizationRequest "" "";
  fields := [of_string "name" (fun v t => mkOrganizationRequest v (og_Slug t));
             of_string "slug" (fun v t => mkOrganizationRequest (og_Name t) v)];
  rules t := [(VString (og_Name t), [Required; Max 120]); (VString (og_Slug t), [Required; Max 63])]
|}.

(** projectRequest and projectMutationRequest. *)
Record projectRequest : Type := mkProjectRequest { pr_Name : string; pr_Description : string }.
#[global] Instance project_body : Body projectRequest := {|
  zero := mkProjectRequest "" "";
  fields := [of_string "name" (fun v t => mkProjectRequest v (pr_Description t));
             of_string "description" (fun v t => mkProjectRequest (pr_Name t) v)];
  rules t := [(VString (pr_Name t), [Required; Max 120]); (VString (pr_Description t), [Max 1000])]
|}.

Record defaultOwnershipRequest : Type := mkDefaultOwnership {
  do_Organization : option organizationRequest; do_Project : option projectRequest
}.
Definition rules_behind {T} `{Body T} (o : option T) : list (FieldValue * list Tag) :=
  match o with Some t => rules t | None => [] end.
#[global] Instance default_ownership_body : Body defaultOwnershipRequest := {|
  zero := mkDefaultOwnership None None;
  fields := [of_struct_pointer "organization" fields zero do_Organization (fun v t => mkDefaultOwnership v (do_Project t));
             of_struct_pointer "project" fields zero do_Project (fun v t => mkDefaultOwnership (do_Organization t) v)];
  rules t := (VStruct (bool_decide (is_Some (do_Organization t))), [Required]) :: rules_behind (do_Organization t) ++
             (VStruct (bool_decide (is_Some (do_Project t))), [Required]) :: rules_behind (do_Project t)
|}.

Record invitationRequest : Type := mkInvitationRequest { ir_Email : string; ir_Role : string }.
#[global] Instance invitation_body : Body invitationRequest := {|
  zero := mkInvitationRequest "" "";
  fields := [of_string "email" (fun v t => mkInvitationRequest v (ir_Role t));
             of_string "role" (fun v t => mkInvitationRequest (ir_Email t) v)];
  rules t := [(VString (ir_Email t), [Required; Email; Max 254]); (VString (ir_Role t), [Required; OneOf ["admin"; "member"; "viewer"]])]
|}.

Record acceptInvitationRequest : Type := mkAcceptRequest { ai_Token : string }.
#[global] Instance accept_body : Body acceptInvitationRequest := {|
  zero := mkAcceptRequest "";
  fields := [of_string "token" (fun v _ => mkAcceptRequest v)];
  rules t := [(VString (ai_Token t), [Required; Max 128])]
|}.

Record tenantNameRequest : Type := mkTenantName { tn_Name : string }.
#[global] Instance tenant_name_body : Body tenantNameRequest := {|
  zero := mkTenantName "";
  fields := [of_string "name" (fun v _ => mkTenantName v)];
  rules t := [(VString (tn_Name t), [Required; Max 120])]
|}.

Record environmentMutationRequest : Type := mkEnvironmentMutation { em_Name : string; em_Type : string }.
#[global] Instance environment_body : Body environmentMutationRequest := {|
  zero := mkEnvironmentMutation "" "";
  fields := [of_string "name" (fun v t => mkEnvironmentMutation v (em_Type t));
             of_string "type" (fun v t => mkEnvironmentMutation (em_Name t) v)];
  rules t := [(VString (em_Name t), [Required; Max 120]);
              (VString (em_Type t), [Required; OneOf ["production"; "staging"; "development"]])]
|}.

Record memberMutationRequest : Type := mkMemberMutation { mr_Role : string; mr_IncidentNotificationsEnabled : option bool }.
#[global] Instance member_body : Body memberMutationRequest := {|
  zero := mkMemberMutation "" None;
  fields := [of_string "role" (fun v t => mkMemberMutation v (mr_IncidentNotificationsEnabled t));
             of_bool_pointer "incident_notifications_enabled" (fun v t => mkMemberMutation (mr_Role t) v)];
  rules t := [(VString (mr_Role t), [OmitEmpty; OneOf ["admin"; "member"; "viewer"]])]
|}.

Record incidentActionRequest : Type := mkIncidentAction { ia_Reason : string }.
#[global] Instance incident_action_body : Body incidentActionRequest := {|
  zero := mkIncidentAction "";
  fields := [of_string "reason" (fun v _ => mkIncidentAction v)];
  rules t := [(VString (ia_Reason t), [Max 500])]
|}.

(** ** Strictness *)

Definition known {T} (fields : list (Field T)) (key : string) : Prop := exists f, f ∈ fields /\ EqualFold (f_name f) key = true.

Lemma EqualFold_refl s : EqualFold s s = true.
Proof. apply String.eqb_refl. Qed.

Lemma find_field_known {T} (fields : list (Field T)) key f : find_field fields key = Some f -> known fields key.
Proof.
  unfold find_field. destruct (list_find _ fields) as [[i g]|] eqn:E.
  - intros [= <-]. apply list_find_Some in E as (Hi & <- & _). exists g. split; [by eapply list_elem_of_lookup_2|apply EqualFold_refl].
  - intros Hf. apply fmap_Some in Hf as ([i g] & E' & ->). apply list_find_Some in E' as (Hi & He & _).
    exists g. split; [by eapply list_elem_of_lookup_2|done].
Qed.

Lemma decode_members_known {T} (fields : list (Field T)) members t t' :
  decode_members fields members t = Some t' -> Forall (fun m => known fields m.1) members.
Proof.
  revert t. induction members as [|[k v] members IH]; intros t; [constructor|]. cbn [decode_members mbind option_bind].
  intros (f & Hf & H)%bind_Some. apply bind_Some in H as (t1 & _ & H).
  constructor; [by eapply find_field_known|by eapply IH].
Qed.

(** The answers of [DecodeJSON] to a body it does not accept. *)
Definition body_refusals : list Refusal := [
  mkRefusal 415 "unsupported_media_type" "Content-Type must be application/json";
  mkRefusal 400 "invalid_request" "request body is invalid";
  mkRefusal 400 "invalid_request" "request body must contain one JSON value";
  mkRefusal 422 "validation_failed" "request body failed validation"].

#[local] Opaque maxJSONBodyBytes.

Lemma DecodeJSON_refused {Sc : Scanner} {V : Validator} {T} `{Body T} contentType body refusal :
  DecodeJSON (T := T) contentType body = inl refusal -> refusal ∈ body_refusals.
Proof.
  unfold DecodeJSON, body_refusals. rewrite !elem_of_cons. intros Hd. repeat case_match; simplify_eq; eauto.
Qed.

(** What [DecodeJSON] accepts: a JSON body of at most one mebibyte with one value and nothing
    but white space behind it, null or an object whose every member is a field of the request
    type, decoded into a request of which every rule holds. *)
Theorem DecodeJSON_strict {Sc : Scanner} {V : Validator} {T} `{Body T} contentType body (t : T) :
  DecodeJSON contentType body = inr t ->
  ParseMediaType contentType = Some "application/json" /\ slen body <= maxJSONBodyBytes /\ ValidateStruct t = true /\
  exists v rest, scan body = Some (v, rest) /\ forall_char json_space rest = true /\ decode_struct fields v zero = Some t /\
    (v = JNull \/ exists members, v = JObject members /\ Forall (fun m => known (fields (T := T)) m.1) members).
Proof.
  unfold DecodeJSON. case_bool_decide as Hm; cbn [negb]; [|discriminate].
  destruct (scan _) as [[v rest]|] eqn:Hs; [|discriminate]. destruct (decode_struct _ _ _) as [t'|] eqn:Hd; [|discriminate].
  destruct (Z.ltb_spec maxJSONBodyBytes (slen body)); cbn [orb]; [discriminate|]. destruct (forall_char _ _) eqn:Hr; cbn [negb]; [|discriminate].
  destruct (ValidateStruct t') eqn:Hv; cbn [negb]; [|discriminate]. intros [= <-]. rewrite stake_all in Hs by lia.
  do 3 (split; [done|]). exists v, rest. do 3 (split; [done|]). destruct v as [| | | | |members]; try done; [by left|right].
  exists members. split; [done|]. by eapply decode_members_known.
Qed.

Lemma rule_holds {V : Validator} {T} `{Body T} (t : T) v tags :
  ValidateStruct t = true -> (v, tags) ∈ rules t -> Required ∈ tags -> has_value v = true.
Proof.
  unfold ValidateStruct. intros Hv Hin Hr. rewrite forallb_forall in Hv. eapply required_has_value; [done|].
  apply (Hv (v, tags)). by apply list_elem_of_In.
Qed.

(** Both parts of a tenant are there once its request is decoded. *)
Lemma default_ownership_present {Sc : Scanner} {V : Validator} contentType body r :
  DecodeJSON contentType body = inr r -> is_Some (do_Organization r) /\ is_Some (do_Project r).
Proof.
  intros Hd. apply DecodeJSON_strict in Hd as (_ & _ & Hv & _).
  split.
  - eapply bool_decide_eq_true_1, (rule_holds r (VStruct (bool_decide (is_Some (do_Organization r)))) [Required] Hv); by left.
  - eapply bool_decide_eq_true_1, (rule_holds r (VStruct (bool_decide (is_Some (do_Project r)))) [Required] Hv); [|by left].
    right. apply elem_of_app. right. by left.
Qed.

(** ** Examples *)

Module Sample.
Definition quote : string := String (byte_of 34) "".
Definition type_json : string := "Application/JSON; charset=" +:+ quote +:+ "utf-8" +:+ quote +:+ " ;".

(** A scanner of one string without escapes, or of one object of such members. *)
Fixpoint text (s : string) : option (string * string) :=
  match s with
  | "" => None
  | String c r => if Ascii.eqb c (byte_of 34) then Some ("", r) else (fun x => (String c x.1, x.2)) <$> text r
  end.
Definition string_value (s : string) : option (string * string) := r ← after_char (byte_of 34) s; text r.
Fixpoint pairs (fuel : nat) (s : string) : option (list (string * Json) * string) :=
  match fuel with
  | O => None
  | S fuel =>
      '(k, s) ← string_value s;
      s ← after_char ":" s;
      '(v, s) ← (match after_char "n" s with
                 | Some s => s ← after_char "u" s; s ← after_char "l" s; s ← after_char "l" s; Some (JNull, s)
                 | None => '(x, s) ← string_value s; Some (JString x, s)
                 end);
      match after_char "," s with
      | Some s => '(l, s) ← pairs fuel s; Some ((k, v) :: l, s)
      | None => s ← after_char "}" s; Some ([(k, v)], s)
      end
  end.
#[global] Instance scanner : Scanner := fun s =>
  r ← after_char "{" s; '(l, s) ← pairs (String.length s) r; Some (JObject l, s).

(** The documented meaning of the tags on ASCII text; an address of mail has an at sign. *)
Definition measure (v : FieldValue) : Z :=
  match v with VString s => slen s | VMap n => default 0 n | VInt n => default 0 n | _ => 0 end.
Fixpoint check (v : FieldValue) (tags : list Tag) : bool :=
  match tags with
  | [] => true
  | Required :: tags => has_value v && check v tags
  | OmitEmpty :: tags => check v tags
  | Email :: tags => match v with VString s => contains_char s "@" | _ => false end && check v tags
  | Max n :: tags => (measure v <=? n) && check v tags
  | Min n :: tags => (n <=? measure v) && check v tags
  | OneOf l :: tags => match v with
                       | VString s => bool_decide (s ∈ l)
                       | VInt (Some n) => bool_decide (Some n ∈ (Atoi <$> l))
                       | _ => false end && check v tags
  end.
Definition valid (v : FieldValue) (tags : list Tag) : bool :=
  if bool_decide (OmitEmpty ∈ tags) && negb (has_value v) && negb (bool_decide (Required ∈ tags)) then true else check v tags.

Lemma check_required v tags : Required ∈ tags -> check v tags = true -> has_value v = true.
Proof.
  induction tags as [|tag tags IH]; [set_solver|]. intros Hin Hc. apply elem_of_cons in Hin as [<-|Hin].
  - by apply andb_prop in Hc as [].
  - destruct tag; cbn [check] in Hc; try apply andb_prop in Hc as []; auto.
Qed.
#[global] Instance validator : Validator.
Proof.
  refine {| field_valid := valid |}. intros v tags Hin. unfold valid. rewrite (bool_decide_eq_true_2 _ Hin), andb_false_r.
  by apply check_required.
Defined.

Definition q (s : string) : string := quote +:+ s +:+ quote.
Definition tenant (project : string) : string :=
  "{" +:+ q "organization" +:+ ":null," +:+ q "Project" +:+ ":" +:+ project +:+ "}  ".

(** A repeated content, unknown fields, missing parts and what is accepted. *)
Example media_types :
  ParseMediaType type_json = Some "application/json" /\ ParseMediaType "application/json; charset" = None /\
  ParseMediaType "application/json; a=b; A=c" = None /\ ParseMediaType "text/html" = Some "text/html".
Proof. vm_compute. auto. Qed.

Definition credentials (extra : string) : string :=
  "{" +:+ q "EMAIL" +:+ ":" +:+ q "a@example.test" +:+ "," +:+ q "password" +:+ ":" +:+ q "correct horse" +:+ extra +:+ "}".
(** [DecodeJSON] below the limit of the body, so that it evaluates. *)
Definition accepts {T} `{Body T} (body : string) : option T :=
  match scan body with
  | Some (v, rest) => t ← decode_struct fields v zero; if forall_char json_space rest && ValidateStruct t then Some t else None
  | None => None
  end.
Example bodies :
  accepts (credentials "") = Some (mkCredentials "a@example.test" "correct horse") /\
  accepts (T := credentialsRequest) (credentials ("," +:+ q "admin" +:+ ":" +:+ q "yes")) = None /\
  accepts (T := credentialsRequest) (credentials "" +:+ credentials "") = None /\
  accepts (T := defaultOwnershipRequest) (tenant "null") = None.
Proof. vm_compute. auto. Qed.
End Sample.
