(* ===== verification/Http.v ===== *)
(** * Http: the HTTP API

    Models internal/httpapi around the services of the other files: the gin context of a
    request, the middleware (middleware.go, router.go, ratelimit.go), authentication
    (authentication.go), every handler with its response (auth.go, monitors.go, ownership.go,
    tenant_management.go, backend_views.go, events.go, operations.go), the mapping of service
    errors to answers, and the table of routes.

    The services are one interface: a constructor of [serviceE] per method of the Go
    interfaces, answered by a parameter that works on an arbitrary state.  A context keeps a
    log of the calls it made and of whether they succeeded.  gin's search for the route of a
    path is a parameter.  What an event stream meets while it is open (ticks, heartbeats, the end of
    the connection, what other requests do in the meantime) is a parameter too; what its client
    receives is the subject of the file Realtime. *)

From stdpp Require Import base gmap list strings.
From Stdlib Require Import ZArith Lia Ascii String Bool.
From S2P Require Import Prelude Tx Store Bytes Envelope Sealing Authorization Incident Destination HttpClient Workqueue Worker.
From S2P Require Import Credentials Accounts Monitors Ownership RateLimit Rfc3339 Views Realtime Mail Config Json.
Import Secureheaders.

(** ** The services *)

Section Interface.
(** What the operations service reports. *)
Variable Health : Type.

Inductive serviceE : Type -> Type :=
(* SessionAuthenticator and AuthenticationService *)
| CAuthenticate (token : string) : serviceE User
| CSignup (email password : string) : serviceE AuthResult
| CLogin (email password : string) : serviceE AuthResult
| CRefresh (refreshToken : string) : serviceE AuthResult
| CLogout (refreshToken : string) (allSessions : bool) : serviceE ()
| CVerifyEmail (token : string) : serviceE User
| CForgotPassword (email : string) : serviceE ()
| CResetPassword (token newPassword : string) : serviceE ()
(* MonitorService *)
| CCreateMonitor (user environment : string) (input : CreateInput) : serviceE View
| CListMonitors (user environment : string) : serviceE (list View)
| CGetMonitor (user environment monitor : string) : serviceE Detail
| CUpdateMonitor (user environment monitor : string) (input : CreateInput) : serviceE View
| CDeleteMonitor (user environment monitor : string) : serviceE ()
| CPause (user environment monitor : string) : serviceE View
| CResume (user environment monitor : string) : serviceE View
| CTestNow (user environment monitor : string) : serviceE string
(* OwnershipService *)
| CCreateDefault (user : string) (input : CreateDefaultInput) : serviceE DefaultResult
| CListMembers (user organization : string) : serviceE (list MemberView)
| CInvite (user organization email : string) (role : Role) : serviceE Invitation
| CAcceptInvitation (user : User) (token : string) : serviceE Membership
(* OwnershipManagementService *)
| CListOrganizations (user : string) : serviceE (list OrganizationView)
| CGetOrganization (user organization : string) : serviceE OrganizationView
| CUpdateOrganization (user organization name : string) : serviceE OrganizationView
| CDeleteOrganization (user organization : string) : serviceE ()
| CListProjects (user organization : string) : serviceE (list TenantProject)
| CGetProject (user project : string) : serviceE TenantProject
| CCreateProject (user organization name description : string) : serviceE TenantProject
| CUpdateProject (user project name description : string) : serviceE TenantProject
| CDeleteProject (user project : string) : serviceE ()
| CListEnvironments (user project : string) : serviceE (list TenantEnvironment)
| CGetEnvironment (user environment : string) : serviceE TenantEnvironment
| CCreateEnvironment (user project name kind : string) : serviceE TenantEnvironment
| CUpdateEnvironment (user environment name kind : string) : serviceE TenantEnvironment
| CDeleteEnvironment (user environment : string) : serviceE ()
| CUpdateMember (user organization member : string) (role : Role) (notifications : option bool) : serviceE MemberView
| CRemoveMember (user organization member : string) : serviceE ()
(* BackendViewService *)
| CListChecks (user environment monitor : string) (q : PageQuery) : serviceE (Page Check)
| CMonitorReport (user environment monitor : string) (q : PageQuery) : serviceE MonitorView
| CDashboard (user environment : string) (q : PageQuery) : serviceE DashboardView
| CListIncidents (user environment : string) (q : PageQuery) : serviceE (Page (string * IncidentRow))
| CGetIncident (user environment incident : string) : serviceE IncidentSummary
| CAcknowledge (user environment incident reason : string) : serviceE IncidentSummary
| CResolve (user environment incident reason : string) : serviceE IncidentSummary
(* RealtimeService, OperationsService and the readiness check *)
| CPoll (user environment : string) (after limit : Z) : serviceE (list Event)
| CReadOperations : serviceE Health
| CReady : serviceE ().

(** The user on whose behalf a method is called. *)
Definition acts_for {A} (c : serviceE A) : option string :=
  match c with
  | CCreateMonitor u _ _ | CListMonitors u _ | CGetMonitor u _ _ | CUpdateMonitor u _ _ _ | CDeleteMonitor u _ _
  | CPause u _ _ | CResume u _ _ | CTestNow u _ _
  | CCreateDefault u _ | CListMembers u _ | CInvite u _ _ _ | CListOrganizations u | CGetOrganization u _
  | CUpdateOrganization u _ _ | CDeleteOrganization u _ | CListProjects u _ | CGetProject u _ | CCreateProject u _ _ _
  | CUpdateProject u _ _ _ | CDeleteProject u _ | CListEnvironments u _ | CGetEnvironment u _ | CCreateEnvironment u _ _ _
  | CUpdateEnvironment u _ _ _ | CDeleteEnvironment u _ | CUpdateMember u _ _ _ _ | CRemoveMember u _ _
  | CListChecks u _ _ _ | CMonitorReport u _ _ _ | CDashboard u _ _ | CListIncidents u _ _ | CGetIncident u _ _
  | CAcknowledge u _ _ _ | CResolve u _ _ _ | CPoll u _ _ _ => Some u
  | CAcceptInvitation u _ => Some (u_ID u)
  | _ => None
  end.

(** A call in the log: the method with its arguments and whether it succeeded. *)
Inductive call : Type := mkCall (A : Type) (c : serviceE A) (succeeded : bool).
Definition call_user (x : call) : option string := match x with mkCall _ c _ => acts_for c end.
Definition call_ok (x : call) : bool := match x with mkCall _ _ ok => ok end.
End Interface.
Arguments mkCall {Health A}.

(** ** Responses *)

Record authUserResponse : Type := mkAuthUser { au_ID : string; au_Email : string; au_EmailVerified : bool }.
Record authSessionResponse : Type := mkAuthSession { as_Token : string; as_TokenType : string; as_ExpiresAt : Z }.
Record authResponse : Type := mkAuthResponse { ar_user : authUserResponse; ar_session : authSessionResponse }.

Record monitorResponse : Type := mkMonitorResponse {
  mo_ID : string; mo_OrganizationID : string; mo_EnvironmentID : string; mo_Name : string; mo_URL : string; mo_Method : string;
  mo_IntervalSeconds : Z; mo_TimeoutSeconds : Z; mo_ExpectedStatusMin : Z; mo_ExpectedStatusMax : Z;
  mo_CreatedAt : Z; mo_UpdatedAt : Z; mo_Version : Z; mo_Paused : bool; mo_WorkerPoolID : string; mo_HeaderNames : list string
}.
Record monitorCheckResponse : Type := mkMonitorCheck {
  mc_JobID : string; mc_JobType : string; mc_ScheduledAt : Z; mc_StartedAt : Z; mc_CompletedAt : Z; mc_Succeeded : bool;
  mc_StatusCode : option Z; mc_ErrorCategory : option string; mc_TotalDurationMicroseconds : Z
}.
Record monitorDetailResponse : Type := mkMonitorDetail {
  md_monitor : monitorResponse; md_State : observed_state; md_RecentChecks : list monitorCheckResponse
}.

Record organizationResponse : Type := mkOrganizationResponse {
  org_ID : string; org_Name : string; org_Slug : string; org_Role : Role; org_AllowedActions : list string
}.
Record membershipResponse : Type := mkMembershipResponse { mem_OrganizationID : string; mem_UserID : string; mem_Role : Role }.
Record projectResponse : Type := mkProjectResponse {
  prj_ID : string; prj_OrganizationID : string; prj_Name : string; prj_Description : string; prj_Role : Role;
  prj_AllowedActions : list string
}.
Record environmentResponse : Type := mkEnvironmentResponse {
  env_ID : string; env_OrganizationID : string; env_ProjectID : string; env_Name : string; env_Type : string; env_Role : Role;
  env_AllowedActions : list string
}.
Record defaultOwnershipResponse : Type := mkDefaultOwnershipResponse {
  dor_Organization : organizationResponse; dor_Membership : membershipResponse; dor_Project : projectResponse;
  dor_Environment : environmentResponse
}.
Record memberResponse : Type := mkMemberResponse {
  mb_UserID : string; mb_Email : string; mb_Role : Role; mb_IncidentNotificationsEnabled : bool; mb_CreatedAt : Z
}.
Record invitationResponse : Type := mkInvitationResponse {
  inv_OrganizationID : string; inv_Email : string; inv_Role : Role; inv_ExpiresAt : Z
}.

(** What a stream writes: an event or the comment of the heartbeat. *)
Inductive Frame : Type := FEvent (id : Z) (type resourceType resourceID : string) | FHeartbeat.
Definition frame_of (e : Event) : Frame := FEvent (ev_ID e) (ev_Type e) (ev_ResourceType e) (ev_ResourceID e).

(** The body of a response, before it is encoded; the body of an error has its code, its message
    and the identifier of the request, that of a stream what was written and whether it is
    still open. *)
Inductive Payload (Health : Type) : Type :=
| PError (code message requestID : string)
| PStatus (status : string)
| PAuth (r : authResponse)
| PUser (r : authUserResponse)
| PMonitor (r : monitorResponse)
| PMonitors (l : list monitorResponse)
| PMonitorDetail (r : monitorDetailResponse)
| PJob (id : string)
| PDefaultOwnership (r : defaultOwnershipResponse)
| PMembers (l : list memberResponse)
| PMember (r : memberResponse)
| PInvitation (r : invitationResponse)
| PMembership (r : membershipResponse)
| POrganizations (l : list OrganizationView)
| POrganization (r : OrganizationView)
| PProjects (l : list TenantProject)
| PProject (r : TenantProject)
| PEnvironments (l : list TenantEnvironment)
| PEnvironment (r : TenantEnvironment)
| PChecks (p : Page Check)
| PReport (r : MonitorView)
| PDashboard (r : DashboardView)
| PIncidents (p : Page (string * IncidentRow))
| PIncident (r : IncidentSummary)
| PEvents (l : list Frame) (open : bool)
| PHealth (h : Health).
Arguments PError {Health}. Arguments PStatus {Health}. Arguments PAuth {Health}. Arguments PUser {Health}.
Arguments PMonitor {Health}. Arguments PMonitors {Health}. Arguments PMonitorDetail {Health}. Arguments PJob {Health}.
Arguments PDefaultOwnership {Health}. Arguments PMembers {Health}. Arguments PMember {Health}. Arguments PInvitation {Health}.
Arguments PMembership {Health}. Arguments POrganizations {Health}. Arguments POrganization {Health}. Arguments PProjects {Health}.
Arguments PProject {Health}. Arguments PEnvironments {Health}. Arguments PEnvironment {Health}. Arguments PChecks {Health}.
Arguments PReport {Health}. Arguments PDashboard {Health}. Arguments PIncidents {Health}. Arguments PIncident {Health}.
Arguments PEvents {Health}. Arguments PHealth {Health}.

Record Cookie : Type := mkCookie {
  co_Name : string; co_Value : string; co_Path : string; co_Expires : option Z; co_MaxAge : Z;
  co_HttpOnly : bool; co_Secure : bool; co_SameSiteStrict : bool
}.

(** ** Requests *)

Record Request : Type := mkRequest {
  rq_in : Incoming;
  rq_requestID : string;
  rq_contentType : string;
  rq_lastEventID : string;
  rq_params : list (string * string);
  rq_rawQuery : string;
  rq_body : bytes
}.

(** [c.Param], [c.Query] and [c.Cookie]. *)
Definition Param (q : Request) (name : string) : string :=
  match list_find (fun x => x.1 = name) (rq_params q) with Some (_, x) => x.2 | None => "" end.
Definition query_value (q : Request) (name : string) : string := default "" (head (default [] (Mail.Query (rq_rawQuery q) !! name))).
Definition refresh_cookie (q : Request) : option string := (fun v => default "" (QueryUnescape v)) <$> RefreshCookie (rq_in q).

(** What wakes an open stream: its context is done; the heartbeat, and whether the connection
    takes it; the tick of a poll, what others did to the services before it and how many of its
    events the connection takes. *)
Inductive Wake (S : Type) : Type := Closed | Heartbeat (taken : bool) | Tick (others : S -> S) (taken : nat).
Arguments Closed {S}. Arguments Heartbeat {S}. Arguments Tick {S}.

(** What a request meets: whether its connection can be flushed, how many of the first events of a
    stream it takes, what wakes the stream so far, and how long the request took. *)
Record Connection (S : Type) : Type := mkConnection {
  cn_flusher : bool; cn_taken : nat; cn_wakes : list (Wake S); cn_elapsed : Z
}.
Arguments mkConnection {S}. Arguments cn_flusher {S}. Arguments cn_taken {S}. Arguments cn_wakes {S}. Arguments cn_elapsed {S}.

(** ** The context of a request

    [Return]: the handler returned early; [Panic]: it dereferenced a nil pointer. *)

Inductive Outcome (A : Type) : Type := Continue (a : A) | Return | Panic.
Arguments Continue {A}. Arguments Return {A}. Arguments Panic {A}.

Record Ctx (Health S : Type) : Type := mkCtx {
  c_services : S;
  c_calls : list (call Health);
  c_user : option User;
  c_headers : gmap string string;
  c_cookies : list Cookie;
  c_status : Z;
  c_body : option (Payload Health)
}.
Arguments mkCtx {Health S}. Arguments c_services {Health S}. Arguments c_calls {Health S}. Arguments c_user {Health S}.
Arguments c_headers {Health S}. Arguments c_cookies {Health S}. Arguments c_status {Health S}. Arguments c_body {Health S}.

Definition H (Health S A : Type) : Type := Ctx Health S -> Outcome A * Ctx Health S.
#[global] Instance H_ret Health S : MRet (H Health S) := fun A a x => (Continue a, x).
#[global] Instance H_bind Health S : MBind (H Health S) := fun A B k m x =>
  match m x with
  | (Continue a, x') => k a x'
  | (Return, x') => (Return, x')
  | (Panic, x') => (Panic, x')
  end.

Definition refreshTokenCookieName : string := "watchtrace_refresh".

Section Api.
Context {Health S : Type} (services : forall A, serviceE Health A -> SE S A).
Context {Sc : Scanner} {V : Validator} (general : string -> option Z).
(** The settings of the router, the clock and the connection. *)
Context (secureCookies : bool) (now : Z) (conn : Connection S).
(** The request and its identifier. *)
Context (q : Request) (requestID : string).

Abbreviation Handler := (H Health S).
Abbreviation C := (Ctx Health S).

Definition leave {A} : Handler A := fun x => (Return, x).
Definition header (k v : string) : Handler () := fun x =>
  (Continue (), mkCtx (c_services x) (c_calls x) (c_user x) (<[k := v]> (c_headers x)) (c_cookies x) (c_status x) (c_body x)).
Definition set_cookie (cookie : Cookie) : Handler () := fun x =>
  (Continue (), mkCtx (c_services x) (c_calls x) (c_user x) (c_headers x) (c_cookies x ++ [cookie]) (c_status x) (c_body x)).
Definition set_user (user : User) : Handler () := fun x =>
  (Continue (), mkCtx (c_services x) (c_calls x) (Some user) (c_headers x) (c_cookies x) (c_status x) (c_body x)).
(** [c.Status] and [c.JSON]. *)
Definition Status (status : Z) : Handler () := fun x =>
  (Continue (), mkCtx (c_services x) (c_calls x) (c_user x) (c_headers x) (c_cookies x) status (c_body x)).
Definition JSON (status : Z) (p : Payload Health) : Handler () := fun x =>
  (Continue (), mkCtx (c_services x) (c_calls x) (c_user x) (c_headers x) (c_cookies x) status (Some p)).
Definition dereference {A} (p : option A) : Handler A := fun x => match p with Some a => (Continue a, x) | None => (Panic, x) end.

(** A call of a service. *)
Definition invoke {A} (c : serviceE Health A) : Handler (res A) := fun x =>
  let '(r, s) := services A c (c_services x) in
  (Continue r, mkCtx s (c_calls x ++ [mkCall c (is_ok r)]) (c_user x) (c_headers x) (c_cookies x) (c_status x) (c_body x)).

(** errors.go: the answer, after which every handler returns. *)
Definition RespondError {A} (status : Z) (code message : string) : Handler A :=
  _ ← JSON status (PError code message requestID); leave.
Definition refuse {A} (r : Refusal) : Handler A := RespondError (rf_status r) (rf_code r) (rf_message r).
Definition internal_error : Refusal := mkRefusal 500 "internal_error" "an internal error occurred".

(** json.go: the decoded body, or a refusal. *)
Definition DecodeBody {T} `{Body T} : Handler T :=
  match DecodeJSON (rq_contentType q) (rq_body q) with inr t => mret t | inl refusal => refuse refusal end.

(** The value of a service or the answer to its error. *)
Definition checked {A} (respond : error -> Refusal) (c : serviceE Health A) : Handler A :=
  r ← invoke c;
  match r with Ok a => mret a | Err e => refuse (respond e) end.

(** ** Errors and answers: [errors.Is] against the sentinels, in the order of the switches *)

Fixpoint first_match (cases : list (error * Refusal)) (e : error) : Refusal :=
  match cases with
  | [] => internal_error
  | (sentinel, refusal) :: cases => if bool_decide (e = sentinel) then refusal else first_match cases e
  end.

Definition auth_errors : list (error * Refusal) := [
  (ErrAccountInput, mkRefusal 422 "validation_failed" "email or password is invalid");
  (ErrEmailInUse, mkRefusal 409 "email_in_use" "an account with this email already exists");
  (ErrInvalidCredentials, mkRefusal 401 "invalid_credentials" "email or password is incorrect");
  (ErrInvalidRefreshToken, mkRefusal 401 "invalid_refresh_token" "a valid refresh token is required");
  (ErrInvalidVerificationToken, mkRefusal 400 "invalid_verification_token" "a valid unused email verification token is required");
  (ErrInvalidPasswordResetToken, mkRefusal 400 "invalid_reset_token" "a valid unused password reset token is required")].
Definition respondAuthError : error -> Refusal := first_match auth_errors.

Definition monitor_errors : list (error * Refusal) := [
  (ErrInvalidMonitor, mkRefusal 422 "validation_failed" "monitor configuration is invalid");
  (Monitors.ErrEnvironmentNotFound, mkRefusal 404 "environment_not_found" "environment not found");
  (ErrMonitorNotFound, mkRefusal 404 "monitor_not_found" "monitor not found");
  (ErrMonitorLimitReached, mkRefusal 409 "monitor_limit_reached" "organization monitor limit reached");
  (ErrManualQueueFull, mkRefusal 429 "manual_queue_full" "manual check queue is full");
  (ErrQueueUnavailable, mkRefusal 503 "monitor_queue_unavailable" "monitor queue is unavailable");
  (ErrDenied, mkRefusal 403 "permission_denied" "permission denied")].
Definition respondMonitorError : error -> Refusal := first_match monitor_errors.

Definition ownership_errors : list (error * Refusal) := [
  (ErrInvalidOwnership, mkRefusal 422 "validation_failed" "organization or project details are invalid");
  (ErrSlugInUse, mkRefusal 409 "organization_slug_in_use" "organization slug is already in use");
  (ErrOrganizationNotFound, mkRefusal 404 "organization_not_found" "organization not found");
  (ErrOwnershipForbidden, mkRefusal 403 "permission_denied" "permission denied");
  (ErrAlreadyMember, mkRefusal 409 "already_member" "user is already an organization member");
  (ErrInvalidInvitation, mkRefusal 400 "invalid_invitation" "a valid unused invitation is required");
  (ErrEmailNotVerified, mkRefusal 403 "email_not_verified" "verify your email before accepting invitations");
  (ErrProjectNotFound, mkRefusal 404 "project_not_found" "project not found");
  (Monitors.ErrEnvironmentNotFound, mkRefusal 404 "environment_not_found" "environment not found");
  (ErrMemberNotFound, mkRefusal 404 "member_not_found" "member not found");
  (ErrDeleteConflict, mkRefusal 409 "resource_not_empty" "resource must be empty before deletion")].
Definition respondOwnershipError : error -> Refusal := first_match ownership_errors.

Definition backend_errors : list (error * Refusal) := [
  (ErrInvalidQuery, mkRefusal 422 "validation_failed" "pagination, filters, or time range are invalid");
  (ErrPermission, mkRefusal 403 "permission_denied" "permission denied");
  (Views.ErrNotFound, mkRefusal 404 "resource_not_found" "resource not found")].
Definition respondBackendError : error -> Refusal := first_match backend_errors.

(** ** authentication.go *)

Definition respondInvalidSession {A} : Handler A :=
  _ ← header "Cache-Control" "no-store";
  _ ← header "WWW-Authenticate" "Bearer";
  RespondError 401 "invalid_session" "a valid bearer session is required".

Definition requireAuthenticatedUser : Handler () :=
  _ ← header "Cache-Control" "no-store";
  match bearerToken (Authorization (rq_in q)) with
  | None => respondInvalidSession
  | Some token =>
      r ← invoke (CAuthenticate Health token);
      match r with
      | Err e => if bool_decide (e = ErrInvalidSession) then respondInvalidSession else refuse internal_error
      | Ok user => set_user user
      end
  end.

Definition authenticatedUser : Handler User := fun x =>
  match c_user x with Some user => (Continue user, x) | None => refuse internal_error x end.
Definition userFrom : Handler string := user ← authenticatedUser; mret (u_ID user).

(** ** auth.go *)

Definition setRefreshTokenCookie (session : Session) : Handler () :=
  let seconds := Z.quot (time_sub (s_RefreshTokenExpiresAt session) now) second in
  let maxAge := if seconds <? 1 then 1 else seconds in
  set_cookie (mkCookie refreshTokenCookieName (s_RefreshToken session) "/api/v1/auth"
                (Some (s_RefreshTokenExpiresAt session)) maxAge true secureCookies true).
Definition clearRefreshTokenCookie : Handler () :=
  set_cookie (mkCookie refreshTokenCookieName "" "/api/v1/auth" None (-1) true secureCookies true).

Definition user_response (user : User) : authUserResponse := mkAuthUser (u_ID user) (u_Email user) (u_EmailVerified user).
Definition respondAuthSuccess (status : Z) (result : AuthResult) : Handler () :=
  JSON status (PAuth (mkAuthResponse (user_response (ar_User result))
    (mkAuthSession (s_Token (ar_Session result)) "Bearer" (s_ExpiresAt (ar_Session result))))).

Definition authEndpoint (operation : string -> string -> serviceE Health AuthResult) (successStatus : Z) : Handler () :=
  _ ← header "Cache-Control" "no-store";
  request ← DecodeBody (T := credentialsRequest);
  result ← checked respondAuthError (operation (cr_Email request) (cr_Password request));
  _ ← setRefreshTokenCookie (ar_Session result);
  respondAuthSuccess successStatus result.

Definition refreshAuth : Handler () :=
  _ ← header "Cache-Control" "no-store";
  match refresh_cookie q with
  | None => _ ← clearRefreshTokenCookie; refuse (respondAuthError ErrInvalidRefreshToken)
  | Some refreshToken =>
      r ← invoke (CRefresh Health refreshToken);
      match r with
      | Err e =>
          _ ← (if bool_decide (e = ErrInvalidRefreshToken) then clearRefreshTokenCookie else mret ());
          refuse (respondAuthError e)
      | Ok result => _ ← setRefreshTokenCookie (ar_Session result); respondAuthSuccess 200 result
      end
  end.

Definition logoutAuth : Handler () :=
  _ ← header "Cache-Control" "no-store";
  request ← DecodeBody (T := logoutRequest);
  _ ← checked respondAuthError (CLogout Health (default "" (refresh_cookie q)) (lo_AllSessions request));
  _ ← clearRefreshTokenCookie;
  Status 204.

Definition verifyEmailAuth : Handler () :=
  _ ← header "Cache-Control" "no-store";
  request ← DecodeBody (T := verifyEmailRequest);
  verified ← checked respondAuthError (CVerifyEmail Health (ve_Token request));
  JSON 200 (PUser (user_response verified)).

(** The result of the service is dropped. *)
Definition forgotPasswordAuth : Handler () :=
  _ ← header "Cache-Control" "no-store";
  request ← DecodeBody (T := forgotPasswordRequest);
  _ ← invoke (CForgotPassword Health (fp_Email request));
  Status 202.

Definition resetPasswordAuth : Handler () :=
  _ ← header "Cache-Control" "no-store";
  request ← DecodeBody (T := resetPasswordRequest);
  _ ← checked respondAuthError (CResetPassword Health (rp_Token request) (rp_NewPassword request));
  _ ← clearRefreshTokenCookie;
  Status 204.

Definition currentUser : Handler () :=
  user ← authenticatedUser;
  JSON 200 (PUser (user_response user)).

(** ** monitors.go *)

Definition optionalInt (v : option Z) : Z := default 0 v.
Definition monitor_input (r : createMonitorRequest) : CreateInput :=
  mkInput (cm_Name r) (cm_URL r) (optionalInt (cm_IntervalSeconds r)) (optionalInt (cm_TimeoutSeconds r))
    (optionalInt (cm_ExpectedStatusMin r)) (optionalInt (cm_ExpectedStatusMax r)) (cm_Method r) (default ∅ (cm_Headers r))
    (cm_WorkerPoolID r).

Definition monitorToResponse (v : View) : monitorResponse :=
  mkMonitorResponse (v_ID v) (v_OrganizationID v) (v_EnvironmentID v) (v_Name v) (v_TargetURL v) (v_Method v)
    (v_IntervalSeconds v) (v_TimeoutSeconds v) (v_ExpectedStatusMin v) (v_ExpectedStatusMax v) (v_CreatedAt v) (v_UpdatedAt v)
    (v_Version v) (v_Paused v) (v_WorkerPoolID v) (v_HeaderNames v).
Definition monitorCheckToResponse (r : CheckResult) : monitorCheckResponse :=
  let jobType := job_type_text (cr_JobType r) in
  mkMonitorCheck (cr_JobID r) (if String.eqb jobType "manual_test" then "manual" else jobType) (cr_ScheduledAt r)
    (cr_StartedAt r) (cr_CompletedAt r) (cr_Succeeded r) (cr_StatusCode r) (cr_ErrorCategory r) (cr_TotalDurationMicroseconds r).

Definition environment_id : string := Param q "environmentId".
Definition monitor_id : string := Param q "monitorId".

Definition createMonitor : Handler () :=
  user ← authenticatedUser;
  request ← DecodeBody (T := createMonitorRequest);
  created ← checked respondMonitorError (CCreateMonitor Health (u_ID user) environment_id (monitor_input request));
  JSON 201 (PMonitor (monitorToResponse created)).
Definition updateMonitor : Handler () :=
  user ← authenticatedUser;
  request ← DecodeBody (T := createMonitorRequest);
  item ← checked respondMonitorError (CUpdateMonitor Health (u_ID user) environment_id monitor_id (monitor_input request));
  JSON 200 (PMonitor (monitorToResponse item)).
Definition deleteMonitor : Handler () :=
  user ← authenticatedUser;
  _ ← checked respondMonitorError (CDeleteMonitor Health (u_ID user) environment_id monitor_id);
  Status 204.
Definition pauseMonitor (paused : bool) : Handler () :=
  user ← authenticatedUser;
  item ← checked respondMonitorError
    (if paused then CPause Health (u_ID user) environment_id monitor_id else CResume Health (u_ID user) environment_id monitor_id);
  JSON 200 (PMonitor (monitorToResponse item)).
Definition testMonitor : Handler () :=
  user ← authenticatedUser;
  id ← checked respondMonitorError (CTestNow Health (u_ID user) environment_id monitor_id);
  JSON 202 (PJob id).
Definition listMonitors : Handler () :=
  user ← authenticatedUser;
  monitors ← checked respondMonitorError (CListMonitors Health (u_ID user) environment_id);
  JSON 200 (PMonitors (monitorToResponse <$> monitors)).
Definition getMonitor : Handler () :=
  user ← authenticatedUser;
  detail ← checked respondMonitorError (CGetMonitor Health (u_ID user) environment_id monitor_id);
  JSON 200 (PMonitorDetail (mkMonitorDetail (monitorToResponse (dt_Monitor detail)) (dt_State detail)
    (monitorCheckToResponse <$> dt_RecentResults detail))).

(** ** ownership.go *)

Definition organization_id : string := Param q "orgId".
Definition project_id : string := Param q "projectId".
Definition member_id : string := Param q "memberId".

Definition member_response (m : MemberView) : memberResponse :=
  mkMemberResponse (Ownership.mv_UserID m) (Ownership.mv_Email m) (Ownership.mv_Role m)
    (Ownership.mv_IncidentNotificationsEnabled m) (Ownership.mv_CreatedAt m).

Definition listOrganizationMembers : Handler () :=
  user ← authenticatedUser;
  members ← checked respondOwnershipError (CListMembers Health (u_ID user) organization_id);
  JSON 200 (PMembers (member_response <$> members)).
Definition inviteOrganizationMember : Handler () :=
  user ← authenticatedUser;
  request ← DecodeBody (T := invitationRequest);
  invitation ← checked respondOwnershipError (CInvite Health (u_ID user) organization_id (ir_Email request) (ir_Role request));
  JSON 201 (PInvitation (mkInvitationResponse (Ownership.in_OrganizationID invitation) (Ownership.in_Email invitation)
    (Ownership.in_Role invitation) (Ownership.in_ExpiresAt invitation))).
Definition acceptOrganizationInvitation : Handler () :=
  user ← authenticatedUser;
  request ← DecodeBody (T := acceptInvitationRequest);
  membership ← checked respondOwnershipError (CAcceptInvitation Health user (ai_Token request));
  JSON 201 (PMembership (mkMembershipResponse (ms_OrganizationID membership) (ms_UserID membership) (ms_Role membership))).

Definition default_response (r : DefaultResult) : defaultOwnershipResponse :=
  let '(org, user, role) := dr_Membership r in
  let '(project, prow) := dr_Project r in
  let '(environment, eorg, erow) := dr_Environment r in
  mkDefaultOwnershipResponse
    (mkOrganizationResponse (dr_Organization r).1 (oi_name (dr_Organization r).2) (oi_slug (dr_Organization r).2) role (AllowedActions role))
    (mkMembershipResponse org user role)
    (mkProjectResponse project (pj_organization_id prow) (pj_name prow) (pj_description prow) role (AllowedActions role))
    (mkEnvironmentResponse environment eorg (ei_project_id erow) (ei_name erow) (ei_type erow) role (AllowedActions role)).

Definition createDefaultOwnership : Handler () :=
  user ← authenticatedUser;
  request ← DecodeBody (T := defaultOwnershipRequest);
  organization ← dereference (do_Organization request);
  project ← dereference (do_Project request);
  result ← checked respondOwnershipError (CCreateDefault Health (u_ID user)
    (mkDefaultInput (og_Name organization) (og_Slug organization) (pr_Name project) (pr_Description project)));
  JSON 201 (PDefaultOwnership (default_response result)).

(** ** tenant_management.go *)

Definition listOrganizations : Handler () :=
  u ← userFrom; v ← checked respondOwnershipError (CListOrganizations Health u); JSON 200 (POrganizations v).
Definition getOrganization : Handler () :=
  u ← userFrom; v ← checked respondOwnershipError (CGetOrganization Health u organization_id); JSON 200 (POrganization v).
Definition updateOrganization : Handler () :=
  u ← userFrom; r ← DecodeBody (T := tenantNameRequest);
  v ← checked respondOwnershipError (CUpdateOrganization Health u organization_id (tn_Name r)); JSON 200 (POrganization v).
Definition deleteOrganization : Handler () :=
  u ← userFrom; _ ← checked respondOwnershipError (CDeleteOrganization Health u organization_id); Status 204.
Definition listProjects : Handler () :=
  u ← userFrom; v ← checked respondOwnershipError (CListProjects Health u organization_id); JSON 200 (PProjects v).
Definition createProject : Handler () :=
  u ← userFrom; r ← DecodeBody (T := projectRequest);
  v ← checked respondOwnershipError (CCreateProject Health u organization_id (pr_Name r) (pr_Description r)); JSON 201 (PProject v).
Definition getProject : Handler () :=
  u ← userFrom; v ← checked respondOwnershipError (CGetProject Health u project_id); JSON 200 (PProject v).
Definition updateProject : Handler () :=
  u ← userFrom; r ← DecodeBody (T := projectRequest);
  v ← checked respondOwnershipError (CUpdateProject Health u project_id (pr_Name r) (pr_Description r)); JSON 200 (PProject v).
Definition deleteProject : Handler () :=
  u ← userFrom; _ ← checked respondOwnershipError (CDeleteProject Health u project_id); Status 204.
Definition listEnvironments : Handler () :=
  u ← userFrom; v ← checked respondOwnershipError (CListEnvironments Health u project_id); JSON 200 (PEnvironments v).
Definition createEnvironment : Handler () :=
  u ← userFrom; r ← DecodeBody (T := environmentMutationRequest);
  v ← checked respondOwnershipError (CCreateEnvironment Health u project_id (em_Name r) (em_Type r)); JSON 201 (PEnvironment v).
Definition getEnvironment : Handler () :=
  u ← userFrom; v ← checked respondOwnershipError (CGetEnvironment Health u environment_id); JSON 200 (PEnvironment v).
Definition updateEnvironment : Handler () :=
  u ← userFrom; r ← DecodeBody (T := environmentMutationRequest);
  v ← checked respondOwnershipError (CUpdateEnvironment Health u environment_id (em_Name r) (em_Type r)); JSON 200 (PEnvironment v).
Definition deleteEnvironment : Handler () :=
  u ← userFrom; _ ← checked respondOwnershipError (CDeleteEnvironment Health u environment_id); Status 204.
Definition updateMember : Handler () :=
  u ← userFrom; r ← DecodeBody (T := memberMutationRequest);
  if String.eqb (mr_Role r) "" && bool_decide (mr_IncidentNotificationsEnabled r = None)
  then RespondError 422 "validation_failed" "at least one member setting is required" else
  v ← checked respondOwnershipError
        (CUpdateMember Health u organization_id member_id (mr_Role r) (mr_IncidentNotificationsEnabled r));
  JSON 200 (PMember (member_response v)).
Definition removeMember : Handler () :=
  u ← userFrom; _ ← checked respondOwnershipError (CRemoveMember Health u organization_id member_id); Status 204.

(** ** backend_views.go *)

Definition boundedQuery : res PageQuery :=
  let cursor := query_value q "cursor" in
  let status := query_value q "status" in
  let jobType := query_value q "job_type" in
  if (256 <? slen cursor) || (16 <? slen status) || (16 <? slen jobType) then Err ErrInvalidQuery else
  let value := query_value q "limit" in
  match (if nonempty value then Atoi value else Some 0) with
  | None => Err ErrInvalidQuery
  | Some limit =>
      let fromValue := query_value q "from" in
      let toValue := query_value q "to" in
      if String.eqb fromValue "" || String.eqb toValue "" then Err ErrInvalidQuery else
      match Parse general fromValue with
      | None => Err ErrInvalidQuery
      | Some from =>
          match Parse general toValue with
          | None => Err ErrInvalidQuery
          | Some to => Ok (mkQuery limit from to cursor status jobType)
          end
      end
  end.
Definition bounded : Handler PageQuery :=
  match boundedQuery with Ok page => mret page | Err e => refuse (respondBackendError e) end.

(** The public name of a job type, "manual", is "manual_test" in the database. *)
Definition with_job_type (t : string) (p : PageQuery) : PageQuery :=
  mkQuery (q_Limit p) (q_From p) (q_To p) (q_Cursor p) (q_Status p) t.
Definition listChecks : Handler () :=
  u ← userFrom; page ← bounded;
  if nonempty (q_JobType page) && negb (String.eqb (q_JobType page) "scheduled") && negb (String.eqb (q_JobType page) "manual")
  then refuse (respondBackendError ErrInvalidQuery) else
  let page := if String.eqb (q_JobType page) "manual" then with_job_type "manual_test" page else page in
  v ← checked respondBackendError (CListChecks Health u environment_id monitor_id page); JSON 200 (PChecks v).
Definition monitorReport : Handler () :=
  u ← userFrom; page ← bounded;
  v ← checked respondBackendError (CMonitorReport Health u environment_id monitor_id page); JSON 200 (PReport v).
Definition dashboard : Handler () :=
  u ← userFrom; page ← bounded;
  v ← checked respondBackendError (CDashboard Health u environment_id page); JSON 200 (PDashboard v).
Definition listIncidents : Handler () :=
  u ← userFrom; page ← bounded;
  v ← checked respondBackendError (CListIncidents Health u environment_id page); JSON 200 (PIncidents v).

Definition incident_id : string := Param q "incidentId".
Definition getIncident : Handler () :=
  u ← userFrom; v ← checked respondBackendError (CGetIncident Health u environment_id incident_id); JSON 200 (PIncident v).
Definition incidentAction (ack : bool) : Handler () :=
  u ← userFrom; r ← DecodeBody (T := incidentActionRequest);
  v ← checked respondBackendError (if ack then CAcknowledge Health u environment_id incident_id (ia_Reason r)
                                   else CResolve Health u environment_id incident_id (ia_Reason r));
  JSON 200 (PIncident v).

(** ** events.go *)

Definition meanwhile (others : S -> S) : Handler () := fun x =>
  (Continue (), mkCtx (others (c_services x)) (c_calls x) (c_user x) (c_headers x) (c_cookies x) (c_status x) (c_body x)).

(** [write]: the frames the connection takes, the last identifier written, and whether all were. *)
Definition write_events (taken : nat) (last : Z) (events : list Event) : list Frame * Z * bool :=
  let out := take taken events in
  (frame_of <$> out, default last (ev_ID <$> list.last out), (List.length events <=? taken)%nat).

(** The loop of the stream: [last] is the last identifier and [frames] what was written so far. *)
Fixpoint stream_loop (user : string) (last : Z) (frames : list Frame) (wakes : list (Wake S)) : Handler () :=
  match wakes with
  | [] => JSON 200 (PEvents frames true)
  | Closed :: _ => JSON 200 (PEvents frames false)
  | Heartbeat taken :: wakes =>
      if taken : bool then stream_loop user last (frames ++ [FHeartbeat]) wakes else JSON 200 (PEvents frames false)
  | Tick others taken :: wakes =>
      _ ← meanwhile others;
      r ← invoke (CPoll Health user environment_id last 100);
      match r with
      | Err _ => JSON 200 (PEvents frames false)
      | Ok events =>
          let '(out, last, whole) := write_events taken last events in
          if whole : bool then stream_loop user last (frames ++ out) wakes else JSON 200 (PEvents (frames ++ out) false)
      end
  end.

Definition streamEvents : Handler () :=
  user ← userFrom;
  match ParseLastID (rq_lastEventID q) with
  | None => RespondError 422 "validation_failed" "Last-Event-ID is invalid"
  | Some last =>
      r ← invoke (CPoll Health user environment_id last 100);
      match r with
      | Err e => if bool_decide (e = ErrStreamNotFound) then RespondError 404 "event_stream_not_found" "event stream not found"
                 else refuse internal_error
      | Ok initial =>
          if negb (cn_flusher conn) then RespondError 500 "stream_unavailable" "event stream is unavailable" else
          _ ← header "Content-Type" "text/event-stream";
          _ ← header "Cache-Control" "no-store";
          _ ← header "X-Accel-Buffering" "no";
          let '(out, last, whole) := write_events (cn_taken conn) last initial in
          if whole : bool then stream_loop user last out (cn_wakes conn) else JSON 200 (PEvents out false)
      end
  end.

(** ** operations.go and the health checks of router.go *)

Definition readOperations : Handler () :=
  r ← invoke (CReadOperations Health);
  match r with Err _ => JSON 503 (PStatus "not_ready") | Ok h => JSON 200 (PHealth h) end.
Definition liveness : Handler () := _ ← header "Cache-Control" "no-store"; JSON 200 (PStatus "ok").
Definition readiness : Handler () :=
  _ ← header "Cache-Control" "no-store";
  r ← invoke (CReady Health);
  match r with Err _ => JSON 503 (PStatus "not_ready") | Ok _ => JSON 200 (PStatus "ready") end.
Definition noRoute : Handler () := RespondError 404 "not_found" "resource not found".
Definition noMethod : Handler () := RespondError 405 "method_not_allowed" "method not allowed".

(** ** Routes, in the order in which [NewRouter] registers them *)

Definition authn (handler : Handler ()) : Handler () := _ ← requireAuthenticatedUser; handler.

Definition base_routes : list (string * string * Handler ()) := [
  ("GET", "/health", liveness);
  ("GET", "/health/live", liveness);
  ("GET", "/health/ready", readiness)].
Definition registerAuthRoutes : list (string * string * Handler ()) := [
  ("POST", "/api/v1/auth/signup", authEndpoint (CSignup Health) 201);
  ("POST", "/api/v1/auth/login", authEndpoint (CLogin Health) 200);
  ("POST", "/api/v1/auth/refresh", refreshAuth);
  ("POST", "/api/v1/auth/logout", logoutAuth);
  ("POST", "/api/v1/auth/verify-email", verifyEmailAuth);
  ("POST", "/api/v1/auth/forgot-password", forgotPasswordAuth);
  ("POST", "/api/v1/auth/reset-password", resetPasswordAuth)].
Definition registerCurrentUserRoute : list (string * string * Handler ()) := [("GET", "/api/v1/auth/me", authn currentUser)].
Definition registerOwnershipRoutes : list (string * string * Handler ()) := [
  ("POST", "/api/v1/organizations", authn createDefaultOwnership);
  ("GET", "/api/v1/organizations/:orgId/members", authn listOrganizationMembers);
  ("POST", "/api/v1/organizations/:orgId/invitations", authn inviteOrganizationMember);
  ("POST", "/api/v1/auth/accept-invitation", authn acceptOrganizationInvitation)].
Definition registerTenantManagementRoutes : list (string * string * Handler ()) := [
  ("GET", "/api/v1/organizations", authn listOrganizations);
  ("GET", "/api/v1/organizations/:orgId", authn getOrganization);
  ("PUT", "/api/v1/organizations/:orgId", authn updateOrganization);
  ("DELETE", "/api/v1/organizations/:orgId", authn deleteOrganization);
  ("GET", "/api/v1/organizations/:orgId/projects", authn listProjects);
  ("POST", "/api/v1/organizations/:orgId/projects", authn createProject);
  ("GET", "/api/v1/projects/:projectId", authn getProject);
  ("PUT", "/api/v1/projects/:projectId", authn updateProject);
  ("DELETE", "/api/v1/projects/:projectId", authn deleteProject);
  ("GET", "/api/v1/projects/:projectId/environments", authn listEnvironments);
  ("POST", "/api/v1/projects/:projectId/environments", authn createEnvironment);
  ("GET", "/api/v1/environments/:environmentId", authn getEnvironment);
  ("PUT", "/api/v1/environments/:environmentId", authn updateEnvironment);
  ("DELETE", "/api/v1/environments/:environmentId", authn deleteEnvironment);
  ("PATCH", "/api/v1/organizations/:orgId/members/:memberId", authn updateMember);
  ("DELETE", "/api/v1/organizations/:orgId/members/:memberId", authn removeMember)].
Definition registerMonitorRoutes : list (string * string * Handler ()) := [
  ("POST", "/api/v1/environments/:environmentId/monitors", authn createMonitor);
  ("GET", "/api/v1/environments/:environmentId/monitors", authn listMonitors);
  ("PUT", "/api/v1/environments/:environmentId/monitors/:monitorId", authn updateMonitor);
  ("DELETE", "/api/v1/environments/:environmentId/monitors/:monitorId", authn deleteMonitor);
  ("POST", "/api/v1/environments/:environmentId/monitors/:monitorId/pause", authn (pauseMonitor true));
  ("POST", "/api/v1/environments/:environmentId/monitors/:monitorId/resume", authn (pauseMonitor false));
  ("POST", "/api/v1/environments/:environmentId/monitors/:monitorId/test", authn testMonitor);
  ("GET", "/api/v1/environments/:environmentId/monitors/:monitorId", authn getMonitor)].
Definition registerBackendViewRoutes : list (string * string * Handler ()) := [
  ("GET", "/api/v1/environments/:environmentId/monitors/:monitorId/checks", authn listChecks);
  ("GET", "/api/v1/environments/:environmentId/monitors/:monitorId/report", authn monitorReport);
  ("GET", "/api/v1/environments/:environmentId/dashboard", authn dashboard);
  ("GET", "/api/v1/environments/:environmentId/incidents", authn listIncidents);
  ("GET", "/api/v1/environments/:environmentId/incidents/:incidentId", authn getIncident);
  ("POST", "/api/v1/environments/:environmentId/incidents/:incidentId/acknowledge", authn (incidentAction true));
  ("POST", "/api/v1/environments/:environmentId/incidents/:incidentId/resolve", authn (incidentAction false))].
Definition registerEventRoutes : list (string * string * Handler ()) := [
  ("GET", "/api/v1/environments/:environmentId/events", authn streamEvents)].
Definition registerOperationsRoute : list (string * string * Handler ()) := [("GET", "/health/operations", readOperations)].

Definition routes : list (string * string * Handler ()) :=
  base_routes ++ registerAuthRoutes ++ registerCurrentUserRoute ++ registerOwnershipRoutes ++ registerTenantManagementRoutes ++
  registerMonitorRoutes ++ registerBackendViewRoutes ++ registerEventRoutes ++ registerOperationsRoute.
End Api.

(** ** The middleware of every request *)

(** [^[A-Za-z0-9][A-Za-z0-9._-]{0,63}$]. *)
Definition alphanumeric (c : ascii) : bool := in_range_char 65 90 c || in_range_char 97 122 c || in_range_char 48 57 c.
Definition id_char (c : ascii) : bool := alphanumeric c || contains_char "._-" c.
Definition requestIDPattern (s : string) : bool :=
  match s with String c r => alphanumeric c && (slen r <=? 63) && forall_char id_char r | "" => false end.

(** The format %x of an integer of at most 64 bits. *)
Fixpoint hex_digits (fuel : nat) (n : Z) : string :=
  match fuel with
  | O => ""
  | S fuel => (if n <? 16 then "" else hex_digits fuel (n / 16)) +:+ String (hex_digit (n mod 16)) ""
  end.
Definition format_x (n : Z) : string := if n <? 0 then "-" +:+ hex_digits 16 (- n) else hex_digits 16 n.

(** What the random source gives, the clock in nanoseconds and the counter of the process. *)
Record IdSource : Type := mkIdSource { is_random : res bytes; is_nanos : Z; is_counter : Z }.
Definition newRequestID (i : IdSource) : string :=
  match is_random i with
  | Ok b => randomID b
  | Err _ => "fallback-" +:+ format_x (is_nanos i) +:+ "-" +:+ format_x (is_counter i)
  end.
Definition requestIDMiddleware (i : IdSource) (q : Request) : string :=
  if negb (requestIDPattern (rq_requestID q)) then newRequestID i else rq_requestID q.

Record LogEntry : Type := mkLog {
  lg_level : string; lg_component : string; lg_duration_ms : Z; lg_request_id : string; lg_method : string; lg_route : string; lg_status : Z; lg_ids : list (string * string)
}.
Definition log_keys : list (string * string) := [
  ("orgId", "organization_id"); ("projectId", "project_id"); ("environmentId", "environment_id");
  ("monitorId", "monitor_id"); ("incidentId", "incident_id"); ("memberId", "member_id")].
Definition log_ids (params : list (string * string)) : list (string * string) :=
  omap (fun x => match list_find (fun k => k.1 = x.1) log_keys with
                 | Some (_, k) => if uuidPattern x.2 then Some (k.2, to_lower x.2) else None
                 | None => None
                 end) params.
Definition accessLog (q : Request) (requestID route : string) (status elapsed : Z) : LogEntry :=
  mkLog (if 500 <=? status then "ERROR" else if 400 <=? status then "WARN" else "INFO") "http" (Z.quot elapsed (second / 1000)) requestID (Method (rq_in q))
    (if String.eqb route "" then "unmatched" else route) status (log_ids (rq_params q)).

(** gin's search: the index of the route of a method and path and its parameters. *)
Inductive Lookup : Type := Found (i : nat) (params : list (string * string)) | NoMethod | NoRoute.
Definition with_params (params : list (string * string)) (q : Request) : Request :=
  mkRequest (rq_in q) (rq_requestID q) (rq_contentType q) (rq_lastEventID q) params (rq_rawQuery q) (rq_body q).

Section Server.
Context {P : Primitives} {Health S : Type} (services : forall A, serviceE Health A -> SE S A).
Context {Sc : Scanner} {V : Validator} (general : string -> option Z).
Context (find : list (string * string) -> string -> string -> Lookup).
Context (secureCookies : bool).

(** The routes of a request, and their patterns, which do not depend on it. *)
Definition table (now : Z) (conn : Connection S) (q : Request) (requestID : string) :=
  routes services general secureCookies now conn q requestID.
Definition patterns (now : Z) (conn : Connection S) (q : Request) : list (string * string) := fst <$> table now conn q "".

(** The route and the handler gin chooses. *)
Definition dispatch (now : Z) (conn : Connection S) (q : Request) (requestID : string) : Request * string * H Health S () :=
  match find (patterns now conn q) (Method (rq_in q)) (Path (rq_in q)) with
  | Found i params =>
      let q := with_params params q in
      match table now conn q requestID !! i with
      | Some (_, pattern, handler) => (q, pattern, handler)
      | None => (q, "", noRoute requestID)
      end
  | NoMethod => (q, "", noMethod requestID)
  | NoRoute => (q, "", noRoute requestID)
  end.

(** [recoveryMiddleware]; nothing was written before a panic. *)
Definition recovered (requestID : string) (handler : H Health S ()) : H Health S () := fun x =>
  match handler x with
  | (Panic, x') => refuse requestID internal_error x'
  | r => r
  end.

Definition rateLimitResponse (requestID : string) (retry : Z) : H Health S () :=
  _ ← header "Retry-After" (Itoa retry);
  RespondError requestID 429 "rate_limited" "request rate limit exceeded".

(** The connection of an open event stream stays counted, that of any other answer is released. *)
Definition settle (v : verdict) (x : Ctx Health S) (l : RateLimiter) : RateLimiter :=
  match v, c_body x with
  | Streaming _, Some (PEvents _ true) => l
  | Streaming key, _ => releaseLive key l
  | _, _ => l
  end.

(** A request through the whole router. *)
Definition serve (now : Z) (ids : IdSource) (conn : Connection S) (q : Request) (l : RateLimiter) (s : S) :
    Ctx Health S * RateLimiter * LogEntry :=
  let requestID := requestIDMiddleware ids q in
  let x := mkCtx s [] None {["X-Request-ID" := requestID; "X-WatchTrace-Service" := "api"]} [] 200 None in
  let '(q', route, handler) := dispatch now conn q requestID in
  let '(v, l') := Middleware now (rq_in q) l in
  let x' := match v with
            | Refused retry => (rateLimitResponse requestID retry x).2
            | _ => (recovered requestID handler x).2
            end in
  (x', settle v x' l', accessLog q' requestID route (c_status x') (cn_elapsed conn)).
End Server.

(** ** What every answer keeps to *)

(** Every error the API can answer. *)
Definition catalogue : list Refusal :=
  body_refusals ++ auth_errors.*2 ++ monitor_errors.*2 ++ ownership_errors.*2 ++ backend_errors.*2 ++ [
  internal_error;
  mkRefusal 401 "invalid_session" "a valid bearer session is required";
  mkRefusal 422 "validation_failed" "at least one member setting is required";
  mkRefusal 422 "validation_failed" "Last-Event-ID is invalid";
  mkRefusal 404 "event_stream_not_found" "event stream not found";
  mkRefusal 500 "stream_unavailable" "event stream is unavailable";
  mkRefusal 404 "not_found" "resource not found";
  mkRefusal 405 "method_not_allowed" "method not allowed";
  mkRefusal 429 "rate_limited" "request rate limit exceeded"].

Lemma catalogue_statuses : Forall (fun r => 400 <= rf_status r < 600) catalogue.
Proof. unfold catalogue. repeat constructor; simpl; lia. Qed.

Definition answer_ok {Health} (requestID : string) (status : Z) (body : option (Payload Health)) : Prop :=
  match body with
  | Some (PError code message id) => id = requestID /\ mkRefusal status code message ∈ catalogue
  | Some (PStatus text) => (status, text) ∈ [(200, "ok"); (200, "ready"); (503, "not_ready")]
  | Some _ => status ∈ [200; 201; 202]
  | None => status ∈ [202; 204]
  end.

(** The refresh token leaves only in a cookie scripts cannot read and other sites do not send,
    for the authentication routes only, and encrypted in production. *)
Definition cookie_ok (secureCookies : bool) (c : Cookie) : Prop :=
  co_Name c = refreshTokenCookieName /\ co_Path c = "/api/v1/auth" /\ co_HttpOnly c = true /\ co_SameSiteStrict c = true /\
  co_Secure c = secureCookies /\ (co_Value c = "" /\ co_MaxAge c = -1 \/ 1 <= co_MaxAge c).

(** The methods that need no session. *)
Definition public {Health A} (c : serviceE Health A) : bool :=
  match c with
  | CSignup _ _ _ | CLogin _ _ _ | CRefresh _ _ | CLogout _ _ _ | CVerifyEmail _ _ | CForgotPassword _ _ | CResetPassword _ _ _
  | CReadOperations _ | CReady _ => true
  | _ => false
  end.
(** A call that succeeded, or the one whose failure is not told. *)
Definition answered {Health} (x : call Health) : bool :=
  match x with mkCall c ok => match c with CForgotPassword _ _ => true | _ => ok end end.

(** A poll of the stream of an environment. *)
Definition poll_of {Health} (user env : string) (x : call Health) : Prop :=
  exists after ok, x = mkCall (CPoll Health user env after 100) ok.

(** Without a session at most one public call; otherwise the session is looked up first, with the
    token of the request, and one call follows on behalf of its user; only when that is the first
    poll of an event stream and succeeded more polls of the same stream follow. *)
Definition calls_guarded {Health S} (services : forall A, serviceE Health A -> SE S A) (q : Request) (s : S)
    (calls : list (call Health)) : Prop :=
  match calls with
  | [] => True
  | [mkCall c _] => public c = true \/ exists token ok, bearerToken (Authorization (rq_in q)) = Some token /\
      calls = [mkCall (CAuthenticate Health token) ok]
  | first :: mkCall c ok :: later => exists token user, bearerToken (Authorization (rq_in q)) = Some token /\
      first = mkCall (CAuthenticate Health token) true /\ (services _ (CAuthenticate Health token) s).1 = Ok user /\
      acts_for Health c = Some (u_ID user) /\
      (later = [] \/ exists env after, mkCall c ok = mkCall (CPoll Health (u_ID user) env after 100) true /\
                     Forall (poll_of (u_ID user) env) later)
  end.

(** Every call succeeded, but for the last of a stream that ended: the third or a later one. *)
Definition honest {Health} (calls : list (call Health)) : Prop :=
  exists done failed, calls = done ++ failed /\ Forall (fun c => answered c = true) done /\
    (failed = [] \/ (2 <= List.length done)%nat /\ List.length failed = 1%nat).
Lemma honest_all {Health} (calls : list (call Health)) : Forall (fun c => answered c = true) calls -> honest calls.
Proof. intros Hc. exists calls, []. rewrite app_nil_r. split_and!; try done. by left. Qed.

Record good {Health S} (services : forall A, serviceE Health A -> SE S A) (secureCookies : bool) (q : Request) (requestID : string)
    (s : S) (x : Ctx Health S) : Prop := {
  gd_calls : calls_guarded services q s (c_calls x);
  gd_honest : c_status x < 400 -> honest (c_calls x);
  gd_answer : answer_ok requestID (c_status x) (c_body x);
  gd_cookies : Forall (cookie_ok secureCookies) (c_cookies x);
  gd_request_id : c_headers x !! "X-Request-ID" = Some requestID
}.

Lemma first_match_in cases e : first_match cases e ∈ cases.*2 \/ first_match cases e = internal_error.
Proof.
  induction cases as [|[s r] cases IH]; [by right|]. simpl. case_bool_decide; [left; by left|].
  destruct IH as [IH|IH]; [left; by right|by right].
Qed.

Ltac listed := apply (bool_decide_unpack _); vm_compute; exact I.
Lemma first_match_listed cases e : cases.*2 ⊆ catalogue -> first_match cases e ∈ catalogue.
Proof. intros Hc. destruct (first_match_in cases e) as [Hi|Hi]; [by apply Hc|rewrite Hi; listed]. Qed.

Lemma auth_listed e : respondAuthError e ∈ catalogue.
Proof. apply first_match_listed. intros r. unfold catalogue. rewrite !elem_of_app. tauto. Qed.
Lemma monitor_listed e : respondMonitorError e ∈ catalogue.
Proof. apply first_match_listed. intros r. unfold catalogue. rewrite !elem_of_app. tauto. Qed.
Lemma ownership_listed e : respondOwnershipError e ∈ catalogue.
Proof. apply first_match_listed. intros r. unfold catalogue. rewrite !elem_of_app. tauto. Qed.
Lemma backend_listed e : respondBackendError e ∈ catalogue.
Proof. apply first_match_listed. intros r. unfold catalogue. rewrite !elem_of_app. tauto. Qed.
Lemma body_listed {Sc : Scanner} {V : Validator} {T} `{Body T} ct b r : DecodeJSON (T := T) ct b = inl r -> r ∈ catalogue.
Proof. intros Hd. apply DecodeJSON_refused in Hd. unfold catalogue. rewrite elem_of_app. by left. Qed.

#[local] Opaque catalogue.

Section Keeping.
Context {Health S : Type} (services : forall A, serviceE Health A -> SE S A).
Context {Sc : Scanner} {V : Validator} (general : string -> option Z).
Context (secureCookies : bool) (now : Z) (conn : Connection S) (q : Request) (requestID : string) (s : S).

Abbreviation Handler := (H Health S).
Abbreviation Good := (good services secureCookies q requestID s).

(** A handler that ends without a panic in a context with [Q]. *)
Definition ends {A} (m : Handler A) (x : Ctx Health S) (Q : Ctx Health S -> Prop) : Prop :=
  match m x with (Panic, _) => False | (_, x') => Q x' end.

(** A context in which the calls [l] succeeded and nothing was answered yet. *)
Record clean (l : list (call Health)) (x : Ctx Health S) : Prop := {
  cl_calls : c_calls x = l;
  cl_guarded : calls_guarded services q s l;
  cl_answered : Forall (fun c => answered c = true) l;
  cl_cookies : Forall (cookie_ok secureCookies) (c_cookies x);
  cl_request_id : c_headers x !! "X-Request-ID" = Some requestID
}.

Lemma ends_refuse {A} (r : Refusal) l x : c_calls x = l -> calls_guarded services q s l -> Forall (cookie_ok secureCookies) (c_cookies x) ->
  c_headers x !! "X-Request-ID" = Some requestID -> r ∈ catalogue -> ends (refuse requestID r (A := A)) x Good.
Proof.
  intros <- Hg Hc Hi Hr. unfold ends, refuse, RespondError. cbn. constructor; cbn; try done.
  - intros Hs. apply (proj1 (Forall_forall _ _) catalogue_statuses) in Hr. simpl in Hr. lia.
  - by destruct r.
Qed.
Lemma clean_refuse {A} (r : Refusal) l x : clean l x -> r ∈ catalogue -> ends (refuse requestID r (A := A)) x Good.
Proof. intros [] Hr. by eapply ends_refuse. Qed.
Lemma clean_respond {A} status code message l x : clean l x -> mkRefusal status code message ∈ catalogue ->
  ends (RespondError requestID status code message (A := A)) x Good.
Proof. apply (clean_refuse (mkRefusal status code message)). Qed.

Lemma clean_JSON status p l x : clean l x -> answer_ok requestID status (Some p) -> ends (JSON status p) x Good.
Proof. intros [] Ha. unfold ends. cbn. constructor; cbn; subst; try done. intros _. by apply honest_all. Qed.
(** [c.Status] as the end of a handler that wrote no body. *)
Lemma clean_Status status l x : clean l x -> c_body x = None -> answer_ok (Health := Health) requestID status None -> ends (Status status) x Good.
Proof. intros [] Hb Ha. unfold ends. cbn. constructor; cbn; subst; rewrite ?Hb; try done. intros _. by apply honest_all. Qed.

Lemma ends_bind {A B} (m : Handler A) (k : A -> Handler B) x Q :
  match m x with (Continue a, x') => ends (k a) x' Q | (Return, x') => Q x' | (Panic, _) => False end -> ends (m ≫= k) x Q.
Proof. unfold ends, mbind, H_bind. destruct (m x) as [[a| |] x']; auto. Qed.

Lemma ends_dereference {A B} (p : option A) a (k : A -> Handler B) x Q : p = Some a -> ends (k a) x Q -> ends (dereference p ≫= k) x Q.
Proof. intros -> Hk. by apply ends_bind. Qed.

Lemma ends_leave {A B} (m : Handler A) (k : A -> Handler B) x Q :
  (forall a x', m x <> (Continue a, x')) -> ends m x Q -> ends (m ≫= k) x Q.
Proof. intros Hn Hm. apply ends_bind. unfold ends in Hm. destruct (m x) as [[a| |] x'] eqn:E; [by destruct (Hn a x')|done..]. Qed.

Lemma ends_header {B} k v (K : () -> Handler B) l x : clean l x -> k <> "X-Request-ID" ->
  (forall x', clean l x' -> c_user x' = c_user x -> c_body x' = c_body x -> c_services x' = c_services x -> ends (K ()) x' Good) ->
  ends (header k v ≫= K) x Good.
Proof. intros [] Hk HK. apply ends_bind. cbn. apply HK; cbn; try done. constructor; cbn; try done. by rewrite lookup_insert_ne. Qed.

Lemma ends_cookie {B} c (K : () -> Handler B) l x : clean l x -> cookie_ok secureCookies c ->
  (forall x', clean l x' -> c_user x' = c_user x -> c_body x' = c_body x -> ends (K ()) x' Good) ->
  ends (set_cookie c ≫= K) x Good.
Proof. intros [] Hc HK. apply ends_bind. cbn. apply HK; cbn; try done. constructor; cbn; try done. apply Forall_app. split; [done|by apply Forall_singleton]. Qed.

Lemma ends_body {T} `{Body T} {B} (k : T -> Handler B) l x : clean l x ->
  (forall t, DecodeJSON (rq_contentType q) (rq_body q) = inr t -> ends (k t) x Good) -> ends (DecodeBody q requestID ≫= k) x Good.
Proof.
  intros Hc Hk. unfold DecodeBody. destruct (DecodeJSON _ _) as [r|t] eqn:E.
  - apply ends_leave; [done|]. eapply clean_refuse; [done|]. by eapply body_listed.
  - by apply ends_bind, Hk.
Qed.

Lemma ends_checked {A B} respond (c : serviceE Health A) (k : A -> Handler B) l x :
  clean l x -> (forall b, calls_guarded services q s (l ++ [mkCall c b])) -> (forall e, respond e ∈ catalogue) ->
  (forall a x', clean (l ++ [mkCall c true]) x' -> c_user x' = c_user x -> c_body x' = c_body x -> ends (k a) x' Good) ->
  ends (checked services requestID respond c ≫= k) x Good.
Proof.
  intros [Hl Hg Ha Hc Hi] Hgc Hr Hk. unfold checked, invoke. unfold mbind, H_bind, ends.
  destruct (services A c (c_services x)) as [[a|e] s'].
  - cbn. apply Hk; cbn; try done. constructor; cbn; subst; try done.
    apply Forall_app. split; [done|]. apply Forall_singleton. by destruct c.
  - cbn [is_ok]. pose proof (ends_refuse (A := A) (respond e) (l ++ [mkCall c false])
      (mkCtx s' (c_calls x ++ [mkCall c false]) (c_user x) (c_headers x) (c_cookies x) (c_status x) (c_body x))) as H0.
    unfold ends in H0. cbn in H0 |- *. apply H0; try done; by subst.
Qed.

(** *** Handlers behind a session *)

Record authed (token : string) (user : User) (x : Ctx Health S) : Prop := {
  at_user : c_user x = Some user;
  at_body : c_body x = None;
  at_bearer : bearerToken (Authorization (rq_in q)) = Some token;
  at_session : (services _ (CAuthenticate Health token) s).1 = Ok user;
  at_clean : clean [mkCall (CAuthenticate Health token) true] x
}.
Definition protected (handler : Handler ()) : Prop := forall token user x, authed token user x -> ends handler x Good.

Lemma protected_user {B} (k : User -> Handler B) token user x : authed token user x -> ends (k user) x Good ->
  ends (authenticatedUser requestID ≫= k) x Good.
Proof. intros [Hu _ _ _ _] Hk. apply ends_bind. unfold authenticatedUser. by rewrite Hu. Qed.
Lemma protected_user_id {B} (k : string -> Handler B) token user x : authed token user x -> ends (k (u_ID user)) x Good ->
  ends (userFrom requestID ≫= k) x Good.
Proof. intros [Hu _ _ _ _] Hk. apply ends_bind. unfold userFrom, authenticatedUser, mbind, H_bind. by rewrite Hu. Qed.
Lemma protected_body {T} `{Body T} {B} (k : T -> Handler B) token user x : authed token user x ->
  (forall t, DecodeJSON (rq_contentType q) (rq_body q) = inr t -> ends (k t) x Good) -> ends (DecodeBody q requestID ≫= k) x Good.
Proof. intros []. by eapply ends_body. Qed.
Lemma protected_bounded {B} (k : PageQuery -> Handler B) token user x : authed token user x ->
  (forall page, ends (k page) x Good) -> ends (bounded general q requestID ≫= k) x Good.
Proof.
  intros [] Hk. unfold bounded. destruct (boundedQuery general q) as [page|e]; [apply ends_bind, Hk|].
  apply ends_leave; [done|]. eapply clean_refuse; [done|apply backend_listed].
Qed.

(** One call on behalf of the user of the session. *)
Lemma authed_guarded {A} (c : serviceE Health A) b token user x : authed token user x -> acts_for Health c = Some (u_ID user) ->
  calls_guarded services q s ([mkCall (CAuthenticate Health token) true] ++ [mkCall c b]).
Proof. intros [] Hc. exists token, user. split_and!; try done. by left. Qed.
Lemma protected_checked {A B} respond (c : serviceE Health A) (k : A -> Handler B) token user x :
  authed token user x -> acts_for Health c = Some (u_ID user) -> (forall e, respond e ∈ catalogue) ->
  (forall a x', clean [mkCall (CAuthenticate Health token) true; mkCall c true] x' -> c_body x' = None -> ends (k a) x' Good) ->
  ends (checked services requestID respond c ≫= k) x Good.
Proof.
  intros Ha Hc Hr Hk. pose proof Ha as []. eapply ends_checked; [done|intros b; by eapply authed_guarded|done|].
  intros a x' Hx _ Hb. apply Hk; [done|by rewrite Hb].
Qed.
Lemma protected_refuse {A} (r : Refusal) token user x : authed token user x -> r ∈ catalogue -> ends (refuse requestID r (A := A)) x Good.
Proof. intros []. by eapply clean_refuse. Qed.
Lemma protected_respond {A} status code message token user x : authed token user x -> mkRefusal status code message ∈ catalogue ->
  ends (RespondError requestID status code message (A := A)) x Good.
Proof. intros []. by eapply clean_respond. Qed.

(** One step of a handler behind a session. *)
Ltac protected_step Ha :=
  lazymatch goal with
  | |- ends (authenticatedUser _ ≫= _) _ _ => apply (protected_user _ _ _ _ Ha)
  | |- ends (userFrom _ ≫= _) _ _ => apply (protected_user_id _ _ _ _ Ha)
  | |- ends (DecodeBody _ _ ≫= _) _ _ => apply (protected_body _ _ _ _ Ha); intros ? ?
  | |- ends (bounded _ _ _ ≫= _) _ _ => apply (protected_bounded _ _ _ _ Ha); intros ?
  | |- ends (checked _ _ respondMonitorError _ ≫= _) _ _ =>
      apply (protected_checked _ _ _ _ _ _ Ha); [reflexivity|exact monitor_listed|intros ? ? ? ?]
  | |- ends (checked _ _ respondOwnershipError _ ≫= _) _ _ =>
      apply (protected_checked _ _ _ _ _ _ Ha); [reflexivity|exact ownership_listed|intros ? ? ? ?]
  | |- ends (checked _ _ respondBackendError _ ≫= _) _ _ =>
      apply (protected_checked _ _ _ _ _ _ Ha); [reflexivity|exact backend_listed|intros ? ? ? ?]
  | |- ends (JSON _ _) _ _ => eapply clean_JSON; [eassumption|cbn [answer_ok]; set_solver]
  | |- ends (Status _) _ _ => eapply clean_Status; [eassumption|done|cbn [answer_ok]; set_solver]
  end.
Ltac protected_run := match goal with Ha : authed _ _ _ |- _ => repeat (protected_step Ha) end.

Lemma monitors_protected :
  protected (createMonitor services q requestID) /\ protected (listMonitors services q requestID) /\
  protected (updateMonitor services q requestID) /\ protected (deleteMonitor services q requestID) /\
  (forall b, protected (pauseMonitor services q requestID b)) /\ protected (testMonitor services q requestID) /\
  protected (getMonitor services q requestID).
Proof.
  split_and!; [..|intros []| |]; intros token user x Ha;
    unfold createMonitor, listMonitors, updateMonitor, deleteMonitor, pauseMonitor, testMonitor, getMonitor; protected_run.
Qed.

Lemma tenants_protected :
  protected (listOrganizationMembers services q requestID) /\ protected (inviteOrganizationMember services q requestID) /\
  protected (acceptOrganizationInvitation services q requestID) /\ protected (listOrganizations services requestID) /\
  protected (getOrganization services q requestID) /\ protected (updateOrganization services q requestID) /\
  protected (deleteOrganization services q requestID) /\ protected (listProjects services q requestID) /\
  protected (createProject services q requestID) /\ protected (getProject services q requestID) /\
  protected (updateProject services q requestID) /\ protected (deleteProject services q requestID) /\
  protected (listEnvironments services q requestID) /\ protected (createEnvironment services q requestID) /\
  protected (getEnvironment services q requestID) /\ protected (updateEnvironment services q requestID) /\
  protected (deleteEnvironment services q requestID) /\ protected (removeMember services q requestID).
Proof.
  split_and!; intros token user x Ha;
    unfold listOrganizationMembers, inviteOrganizationMember, acceptOrganizationInvitation, listOrganizations, getOrganization,
      updateOrganization, deleteOrganization, listProjects, createProject, getProject, updateProject, deleteProject, listEnvironments,
      createEnvironment, getEnvironment, updateEnvironment, deleteEnvironment, removeMember; protected_run.
Qed.

(** The rules of the request exclude the nil pointers. *)
Lemma createDefaultOwnership_protected : protected (createDefaultOwnership services q requestID).
Proof.
  intros token user x Ha. unfold createDefaultOwnership. do 2 protected_step Ha.
  edestruct default_ownership_present as [[o Ho] [p Hp]]; [eassumption|]. do 2 (eapply ends_dereference; [eassumption|]). protected_run.
Qed.

Lemma updateMember_protected : protected (updateMember services q requestID).
Proof.
  intros token user x Ha. unfold updateMember. do 2 protected_step Ha. destruct (_ && _).
  - eapply protected_respond; [done|listed].
  - protected_run.
Qed.

Lemma views_protected :
  protected (listChecks services general q requestID) /\ protected (monitorReport services general q requestID) /\
  protected (dashboard services general q requestID) /\ protected (listIncidents services general q requestID) /\
  protected (getIncident services q requestID) /\ (forall ack, protected (incidentAction services q requestID ack)).
Proof.
  split_and!; [..|intros []]; intros token user x Ha;
    unfold listChecks, monitorReport, dashboard, listIncidents, getIncident, incidentAction; protected_run.
  destruct (_ && _); [|protected_run]. eapply protected_refuse; [done|apply backend_listed].
Qed.

Lemma currentUser_protected : protected (currentUser requestID).
Proof. intros token user x Ha. unfold currentUser. protected_step Ha. pose proof Ha as []. protected_run. Qed.

(** The calls of a stream: the session, the first poll and the later ones. *)
Definition stream_calls (token user env : string) (first : Z) (later : list (call Health)) : list (call Health) :=
  mkCall (CAuthenticate Health token) true :: mkCall (CPoll Health user env first 100) true :: later.

Lemma stream_guarded token user env first later : bearerToken (Authorization (rq_in q)) = Some token ->
  (services _ (CAuthenticate Health token) s).1 = Ok user -> Forall (poll_of (u_ID user) env) later ->
  calls_guarded services q s (stream_calls token (u_ID user) env first later).
Proof. intros Ht Hs Hl. exists token, user. split_and!; try done. right. by exists env, first. Qed.

Lemma stream_loop_good token user first last frames wakes later x :
  bearerToken (Authorization (rq_in q)) = Some token -> (services _ (CAuthenticate Health token) s).1 = Ok user ->
  Forall (poll_of (u_ID user) (environment_id q)) later ->
  clean (stream_calls token (u_ID user) (environment_id q) first later) x ->
  ends (stream_loop services q (u_ID user) last frames wakes) x Good.
Proof.
  intros Ht Hs. revert last frames later x. induction wakes as [|[|taken|others taken] wakes IH]; intros last frames later x Hl Hx; cbn [stream_loop].
  - eapply clean_JSON; [done|]. cbn. set_solver.
  - eapply clean_JSON; [done|]. cbn. set_solver.
  - destruct taken; [by eapply IH|]. eapply clean_JSON; [done|]. cbn. set_solver.
  - apply ends_bind. cbn [meanwhile]. apply ends_bind. unfold invoke. cbn [c_services].
    assert (forall b, Forall (poll_of (u_ID user) (environment_id q))
      (later ++ [mkCall (CPoll Health (u_ID user) (environment_id q) last 100) b])) as Hl'.
    { intros b. apply Forall_app. split; [done|]. apply Forall_singleton. by exists last, b. }
    destruct Hx as [Hc Hg Ha Hk Hi]. destruct (services _ (CPoll _ _ _ _ _) _) as [[events|e] s']; cbn [is_ok c_calls].
    + set (x' := mkCtx s' _ _ _ _ _ _).
      assert (clean (stream_calls token (u_ID user) (environment_id q) first
        (later ++ [mkCall (CPoll Health (u_ID user) (environment_id q) last 100) true])) x') as Hx'.
      { constructor; [unfold x'; cbn [c_calls]; by rewrite Hc|by apply stream_guarded| |exact Hk|exact Hi].
        apply (Forall_app _ (stream_calls token (u_ID user) (environment_id q) first later)). split; [done|]. by apply Forall_singleton. }
      unfold write_events. cbv iota beta zeta. destruct (_ <=? _)%nat; [eapply IH; [apply Hl'|exact Hx']|]. eapply clean_JSON; [done|]. cbn. set_solver.
    + constructor; [cbn; rewrite Hc; by apply stream_guarded| |cbn; set_solver|exact Hk|exact Hi]. intros _. cbn [c_calls JSON]. rewrite Hc.
      exists (stream_calls token (u_ID user) (environment_id q) first later), [mkCall (CPoll Health (u_ID user) (environment_id q) last 100) false].
      split_and!; try done. right. split; [simpl; lia|done].
Qed.

Lemma streamEvents_protected : protected (streamEvents services conn q requestID).
Proof.
  intros token user x Ha. unfold streamEvents. protected_step Ha.
  destruct (ParseLastID _) as [last|]; [|eapply protected_respond; [done|listed]].
  set (poll := CPoll Health (u_ID user) (environment_id q) last 100).
  assert (forall b, calls_guarded services q s [mkCall (CAuthenticate Health token) true; mkCall poll b]) as Hcall
    by (intros b; by eapply (authed_guarded poll b)).
  pose proof Ha as [_ Hb Ht Hs [Hl Hg Hok Hc Hi]]. apply ends_bind. unfold invoke.
  destruct (services _ poll _) as [[initial|e] s'].
  - set (x' := mkCtx s' _ _ _ _ _ _). assert (clean (stream_calls token (u_ID user) (environment_id q) last []) x') as Hx.
    { constructor; cbn; try done; try (by rewrite Hl); [apply (Hcall true)|]. unfold stream_calls. by rewrite !Forall_cons. }
    destruct (cn_flusher conn); cbn [negb]; [|eapply clean_respond; [done|listed]].
    do 3 (eapply ends_header; [eassumption|done|intros ? ? _ _ _]). unfold write_events. cbv iota beta zeta.
    destruct (_ <=? _)%nat; [by eapply stream_loop_good|]. eapply clean_JSON; [done|]. cbn. set_solver.
  - set (x' := mkCtx s' _ _ _ _ _ _).
    assert (forall r : Refusal, r ∈ catalogue -> ends (refuse requestID r (A := ())) x' Good) as Hr.
    { intros r Hr. eapply (ends_refuse r [mkCall (CAuthenticate Health token) true; mkCall poll false]); cbn; try done; [by rewrite Hl|apply (Hcall false)]. }
    case_bool_decide; [apply (Hr (mkRefusal 404 _ _)); listed|apply Hr; listed].
Qed.

(** *** Handlers for everybody, and the session itself *)

Definition open_to_all (handler : Handler ()) : Prop :=
  forall x, clean [] x -> c_user x = None -> c_body x = None -> c_services x = s -> ends handler x Good.

Lemma public_guarded {A} (c : serviceE Health A) b : public c = true -> calls_guarded services q s ([] ++ [mkCall c b]).
Proof. intros Hc. by left. Qed.

(** Work of a middleware before its handler: the handler starts where it continues. *)
Definition continues {A} (m : Handler A) (x : Ctx Health S) (Q : A -> Ctx Health S -> Prop) : Prop :=
  match m x with (Panic, _) => False | (Return, x') => Good x' | (Continue a, x') => Q a x' end.
Lemma continues_ends {A B} (m : Handler A) (k : A -> Handler B) x Q :
  continues m x Q -> (forall a x', Q a x' -> ends (k a) x' Good) -> ends (m ≫= k) x Good.
Proof. intros Hm Hk. apply ends_bind. unfold continues in Hm. destruct (m x) as [[a| |] x']; auto. Qed.
Lemma continues_refuse {A} (m : Handler A) x Q : (forall a x', m x <> (Continue a, x')) -> ends m x Good -> continues m x Q.
Proof. intros Hn Hm. unfold continues, ends in *. destruct (m x) as [[a| |] x'] eqn:E; [by destruct (Hn a x')|done..]. Qed.

Lemma respondInvalidSession_good l x : c_calls x = l -> calls_guarded services q s l -> Forall (cookie_ok secureCookies) (c_cookies x) ->
  c_headers x !! "X-Request-ID" = Some requestID -> ends (respondInvalidSession requestID (A := ())) x Good.
Proof.
  intros Hl Hg Hc Hi. unfold respondInvalidSession. do 2 (apply ends_bind; cbn).
  eapply (ends_refuse (mkRefusal 401 _ _) l); cbn; try done; [by rewrite !lookup_insert_ne|listed].
Qed.

Lemma requireAuthenticatedUser_good x : clean [] x -> c_body x = None -> c_services x = s ->
  continues (requireAuthenticatedUser services q requestID) x (fun _ x' => exists token user, authed token user x').
Proof.
  intros [Hl _ _ Hc Hi] Hb Hs. unfold requireAuthenticatedUser. unfold continues, mbind at 1, H_bind at 1. cbn [header].
  set (x1 := mkCtx _ _ _ _ _ _ _). assert (c_headers x1 !! "X-Request-ID" = Some requestID) as Hi1 by (cbn; by rewrite lookup_insert_ne).
  destruct (bearerToken _) as [token|] eqn:Ht; [|by apply (continues_refuse (respondInvalidSession requestID)), (respondInvalidSession_good [])].
  assert (forall b, calls_guarded services q s [mkCall (CAuthenticate Health token) b]) as Hcall by (intros b; right; eauto).
  unfold invoke, mbind, H_bind. cbn [c_services x1]. rewrite Hs. destruct (services User (CAuthenticate Health token) s) as [[user|e] s'] eqn:E.
  - cbn. exists token, user. constructor; cbn; try done; [by rewrite E|]. constructor; cbn; try done; try (by rewrite Hl); [apply (Hcall true)|by rewrite Forall_singleton].
  - cbn [is_ok]. set (x2 := mkCtx _ _ _ _ _ _ _). case_bool_decide.
    + apply (continues_refuse (respondInvalidSession requestID)); [done|].
      eapply (respondInvalidSession_good [mkCall (CAuthenticate Health token) false]); cbn; try done; [by rewrite Hl|apply (Hcall false)].
    + apply (continues_refuse (refuse requestID internal_error)); [done|].
      eapply (ends_refuse internal_error [mkCall (CAuthenticate Health token) false]); cbn; try done; [by rewrite Hl|apply (Hcall false)|listed].
Qed.

Lemma authn_good handler : protected handler -> open_to_all (authn services q requestID handler).
Proof.
  intros Hp x Hx _ Hb Hs. eapply continues_ends; [by apply requireAuthenticatedUser_good|].
  intros _ x' (token & user & Ha). by eapply Hp.
Qed.

Lemma open_checked {A B} respond (c : serviceE Health A) (k : A -> Handler B) x :
  clean [] x -> c_body x = None -> public c = true -> (forall e, respond e ∈ catalogue) ->
  (forall a x', clean [mkCall c true] x' -> c_body x' = None -> ends (k a) x' Good) -> ends (checked services requestID respond c ≫= k) x Good.
Proof.
  intros Hx Hb Hp Hr Hk. eapply ends_checked; [done|intros b; by apply public_guarded|done|].
  intros a x' Hx' _ Hb'. apply Hk; [done|by rewrite Hb'].
Qed.

(** A call whose failure the handler answers itself. *)
Lemma open_invoke {A B} (c : serviceE Health A) (k : res A -> Handler B) x : clean [] x -> c_body x = None -> public c = true ->
  (forall r x', c_calls x' = [mkCall c (is_ok r)] -> calls_guarded services q s (c_calls x') -> Forall (cookie_ok secureCookies) (c_cookies x') ->
     c_headers x' !! "X-Request-ID" = Some requestID -> c_body x' = None -> ends (k r) x' Good) -> ends (invoke services c ≫= k) x Good.
Proof.
  intros [Hl _ _ Hc Hi] Hb Hp Hk. apply ends_bind. unfold invoke. destruct (services A c (c_services x)) as [r s']. apply Hk; cbn; try done.
  - by rewrite Hl.
  - rewrite Hl. by apply public_guarded.
Qed.

Lemma set_cookie_ok session : cookie_ok secureCookies (mkCookie refreshTokenCookieName (s_RefreshToken session) "/api/v1/auth"
  (Some (s_RefreshTokenExpiresAt session)) (let seconds := Z.quot (time_sub (s_RefreshTokenExpiresAt session) now) second in
     if seconds <? 1 then 1 else seconds) true secureCookies true).
Proof. unfold cookie_ok. cbn. split_and!; try done. right. destruct (Z.ltb_spec (time_sub (s_RefreshTokenExpiresAt session) now ÷ second) 1); lia. Qed.
Lemma clear_cookie_ok : cookie_ok secureCookies (mkCookie refreshTokenCookieName "" "/api/v1/auth" None (-1) true secureCookies true).
Proof. unfold cookie_ok. cbn. split_and!; try done. by left. Qed.

Ltac open_step :=
  lazymatch goal with
  | |- ends (header _ _ ≫= _) _ _ => eapply ends_header; [eassumption|discriminate|intros ? ? ? ? ?]
  | |- ends (DecodeBody _ _ ≫= _) _ _ => eapply ends_body; [eassumption|intros ? ?]
  | |- ends (checked _ _ respondAuthError _ ≫= _) _ _ =>
      eapply open_checked; [eassumption|congruence|reflexivity|exact auth_listed|intros ? ? ? ?]
  | |- ends (setRefreshTokenCookie _ _ _ ≫= _) _ _ => eapply ends_cookie; [eassumption|apply set_cookie_ok|intros ? ? ? ?]
  | |- ends (clearRefreshTokenCookie _ ≫= _) _ _ => eapply ends_cookie; [eassumption|apply clear_cookie_ok|intros ? ? ? ?]
  | |- ends (respondAuthSuccess _ _) _ _ => unfold respondAuthSuccess
  | |- ends (JSON _ _) _ _ => eapply clean_JSON; [eassumption|cbn [answer_ok]; set_solver]
  | |- ends (Status _) _ _ => eapply clean_Status; [eassumption|congruence|cbn [answer_ok]; set_solver]
  | |- ends (refuse _ (respondAuthError _)) _ _ => eapply clean_refuse; [eassumption|apply auth_listed]
  end.

Lemma authEndpoint_good operation status : (forall e p, public (operation e p) = true) -> status ∈ [200; 201] ->
  open_to_all (authEndpoint services secureCookies now q requestID operation status).
Proof.
  intros Hop Hst x Hx _ Hb _. unfold authEndpoint. do 2 open_step.
  eapply open_checked; [eassumption|congruence|apply Hop|exact auth_listed|intros ? ? ? ?]. open_step.
  eapply clean_JSON; [eassumption|]. cbn. set_solver.
Qed.

Lemma accounts_good : open_to_all (logoutAuth services secureCookies q requestID) /\ open_to_all (verifyEmailAuth services q requestID) /\
  open_to_all (resetPasswordAuth services secureCookies q requestID).
Proof.
  split_and!; intros x Hx _ Hb _; unfold logoutAuth, verifyEmailAuth, resetPasswordAuth; repeat open_step.
Qed.

Lemma forgotPasswordAuth_good : open_to_all (forgotPasswordAuth services q requestID).
Proof.
  intros x Hx _ Hb _. unfold forgotPasswordAuth. do 2 open_step. eapply open_invoke; [eassumption|congruence|done|].
  intros r y Hl Hg Hc Hi Hy. eapply (clean_Status _ (c_calls y)); [|done|cbn; set_solver]. constructor; try done. rewrite Hl. by apply Forall_singleton.
Qed.

Lemma refreshAuth_good : open_to_all (refreshAuth services secureCookies now q requestID).
Proof.
  intros x Hx _ Hb _. unfold refreshAuth. open_step. destruct (refresh_cookie q) as [token|]; [|repeat open_step].
  eapply open_invoke; [eassumption|congruence|done|]. intros [result|e] y Hl Hg Hc Hi Hy.
  - assert (clean (c_calls y) y) by (constructor; try done; rewrite Hl; by apply Forall_singleton). repeat open_step.
  - assert (forall x2, c_calls x2 = c_calls y -> Forall (cookie_ok secureCookies) (c_cookies x2) ->
      c_headers x2 !! "X-Request-ID" = Some requestID -> ends (refuse requestID (respondAuthError e) (A := ())) x2 Good) as Hr.
    { intros x2 Hl2 Hc2 Hi2. eapply ends_refuse; try done. apply auth_listed. }
    case_bool_decide; apply ends_bind; apply Hr; cbn; try done. apply Forall_app. split; [done|]. apply Forall_singleton, clear_cookie_ok.
Qed.

Lemma health_good : open_to_all liveness /\ open_to_all (readiness services) /\ open_to_all (readOperations services).
Proof.
  split_and!; intros x Hx _ Hb _; unfold liveness, readiness, readOperations; [repeat open_step|open_step|];
    (eapply open_invoke; [eassumption|congruence|done|]); intros [r|e] y Hl Hg Hc Hi Hy;
    unfold ends; cbn; constructor; cbn; try done; try (intros _; apply honest_all; rewrite Hl; by rewrite Forall_singleton); try lia; set_solver.
Qed.

Lemma routes_good : Forall (fun r => open_to_all r.2) (routes services general secureCookies now conn q requestID).
Proof.
  pose proof monitors_protected as (? & ? & ? & ? & ? & ? & ?). pose proof views_protected as (? & ? & ? & ? & ? & ?).
  pose proof tenants_protected as (? & ? & ? & ? & ? & ? & ? & ? & ? & ? & ? & ? & ? & ? & ? & ? & ? & ?).
  pose proof accounts_good as (? & ? & ?). pose proof health_good as (? & ? & ?).
  unfold routes. rewrite !Forall_app. split_and!; repeat (apply Forall_cons_2); try apply Forall_nil_2; cbn [snd];
    try (apply authn_good); auto using createDefaultOwnership_protected, updateMember_protected, currentUser_protected,
      streamEvents_protected, forgotPasswordAuth_good, refreshAuth_good; apply authEndpoint_good; done || set_solver.
Qed.
End Keeping.

(** *** Request identifiers *)

Lemma hexc_alphanumeric c : contains_char "0123456789abcdefABCDEF" c = true -> alphanumeric c = true.
Proof.
  intros Hc. pose proof (all_bytes (fun c => negb (contains_char "0123456789abcdefABCDEF" c) || alphanumeric c) eq_refl c) as Ha.
  cbn beta in Ha. by rewrite Hc in Ha.
Qed.
Lemma uuid_id_chars i s : uuid_chars i s = true -> forall_char id_char s = true.
Proof.
  revert i. induction s as [|c s IH]; intros i; [done|]. cbn [uuid_chars forall_char]. intros [Hc Hs]%andb_prop.
  rewrite (IH _ Hs), andb_true_r. unfold id_char. destruct (hyphen_at i).
  - apply Ascii.eqb_eq in Hc as ->. reflexivity.
  - by rewrite (hexc_alphanumeric _ Hc).
Qed.
Lemma hex_digit_id n : 0 <= n < 16 -> id_char (hex_digit n) = true.
Proof.
  intros Hn. assert (forallb (fun n => id_char (hex_digit n)) (seqZ 0 16) = true) as Ha by reflexivity.
  rewrite forallb_forall in Ha. apply (Ha n), list_elem_of_In, elem_of_seqZ. lia.
Qed.
Lemma forall_char_app f a b : forall_char f (a +:+ b) = forall_char f a && forall_char f b.
Proof. induction a as [|c a IH]; [done|]. rewrite append_cons. cbn [forall_char]. by rewrite IH, andb_assoc. Qed.
Lemma hex_digits_id fuel n : 0 <= n -> forall_char id_char (hex_digits fuel n) = true /\ slen (hex_digits fuel n) <= Z.of_nat fuel.
Proof.
  revert n. induction fuel as [|fuel IH]; intros n Hn; [done|]. cbn [hex_digits].
  assert (0 <= n mod 16 < 16) as Hm by (apply Z.mod_pos_bound; lia). rewrite forall_char_app, slen_append.
  cbn [forall_char]. rewrite (hex_digit_id _ Hm). change (slen (String (hex_digit (n mod 16)) "")) with 1.
  destruct (n <? 16); [split; [done|]; change (slen "") with 0; lia|].
  destruct (IH (n / 16)) as [-> Hl]; [by apply Z.div_pos|]. split; [done|lia].
Qed.
Lemma format_x_id n : forall_char id_char (format_x n) = true /\ slen (format_x n) <= 17.
Proof.
  unfold format_x. destruct (Z.ltb_spec n 0).
  - destruct (hex_digits_id 16 (- n)) as [Hc Hl]; [lia|]. rewrite forall_char_app, slen_append, Hc. change (slen "-") with 1. split; [done|lia].
  - destruct (hex_digits_id 16 n) as [Hc Hl]; [lia|]. split; [done|lia].
Qed.

Definition ids_ok (i : IdSource) : Prop := forall b, is_random i = Ok b -> slen b = 16.
Lemma newRequestID_pattern i : ids_ok i -> requestIDPattern (newRequestID i) = true.
Proof.
  intros Hi. unfold newRequestID. destruct (is_random i) as [b|e] eqn:Eb.
  - pose proof (randomID_uuid b (Hi b Eb)) as Hu. unfold validUUID in Hu. apply andb_prop in Hu as [Hl Hu].
    destruct (randomID b) as [|c r]; [done|]. pose proof (uuid_id_chars _ _ Hu) as Hc. cbn [forall_char uuid_chars] in Hc, Hu.
    apply andb_prop in Hc as [_ Hc]. apply andb_prop in Hu as [Hh _]. cbn [requestIDPattern].
    rewrite (hexc_alphanumeric c), Hc, andb_true_r by exact Hh. apply Z.leb_le. apply Z.eqb_eq in Hl. unfold slen in *. simpl in Hl. lia.
  - set (rest := format_x (is_nanos i) +:+ "-" +:+ format_x (is_counter i)).
    change (requestIDPattern (String "f" ("allback-" +:+ rest)) = true).
    destruct (format_x_id (is_nanos i)) as [Ha La], (format_x_id (is_counter i)) as [Hb Lb].
    cbn [requestIDPattern]. rewrite forall_char_app. unfold rest. rewrite !forall_char_app, Ha, Hb, !slen_append.
    change (slen "allback-") with 8. change (slen "-") with 1. rewrite (proj2 (Z.leb_le _ _)) by lia. reflexivity.
Qed.
Lemma requestID_pattern i q : ids_ok i -> requestIDPattern (requestIDMiddleware i q) = true.
Proof. intros Hi. unfold requestIDMiddleware. destruct (requestIDPattern (rq_requestID q)) eqn:E; [done|by apply newRequestID_pattern]. Qed.

(** *** The whole router *)

Section Router.
Context {P : Primitives} {Health S : Type} (services : forall A, serviceE Health A -> SE S A).
Context {Sc : Scanner} {V : Validator} (general : string -> option Z).
Context (find : list (string * string) -> string -> string -> Lookup) (secureCookies : bool).

Lemma noRoute_open q requestID s : open_to_all services secureCookies q requestID s (noRoute requestID).
Proof. intros x Hx _ _ _. eapply clean_respond; [done|listed]. Qed.
Lemma noMethod_open q requestID s : open_to_all services secureCookies q requestID s (noMethod requestID).
Proof. intros x Hx _ _ _. eapply clean_respond; [done|listed]. Qed.

Lemma rateLimitResponse_open q requestID s retry : open_to_all services secureCookies q requestID s (rateLimitResponse requestID retry).
Proof.
  intros x Hx _ _ _. eapply ends_header; [done|discriminate|]. intros x' Hx' _ _ _. eapply clean_respond; [done|listed].
Qed.

Lemma dispatch_open now conn q requestID s q' route handler :
  dispatch services general find secureCookies now conn q requestID = (q', route, handler) ->
  rq_in q' = rq_in q /\ open_to_all services secureCookies q' requestID s handler.
Proof.
  unfold dispatch. destruct (find _ _ _) as [i params| |].
  - destruct (table _ _ _ _ _ _ _ !! i) as [[[m p] h]|] eqn:E; intros [= <- <- <-]; (split; [done|]); [|apply noRoute_open].
    pose proof (routes_good services general secureCookies now conn (with_params params q) requestID s) as Hr.
    rewrite Forall_forall in Hr. apply (Hr (m, p, h)). by eapply list_elem_of_lookup_2.
  - intros [= <- <- <-]. split; [done|apply noMethod_open].
  - intros [= <- <- <-]. split; [done|apply noRoute_open].
Qed.

Lemma calls_guarded_in q q' s calls : rq_in q' = rq_in q -> calls_guarded services q' s calls -> calls_guarded services q s calls.
Proof. intros Hq. unfold calls_guarded. by rewrite Hq. Qed.

Lemma serve_good now ids conn q l s x l' log :
  serve services general find secureCookies now ids conn q l s = (x, l', log) ->
  good services secureCookies q (requestIDMiddleware ids q) s x.
Proof.
  unfold serve. destruct (dispatch _ _ _ _ _ _ _ _) as [[q' route] handler] eqn:E.
  apply (dispatch_open _ _ _ _ s) in E as [Hq Ho]. destruct (Middleware now (rq_in q) l) as [v l1].
  set (id := requestIDMiddleware ids q) in *. set (x0 := mkCtx s [] None _ [] 200 None).
  assert (clean services secureCookies q' id s [] x0) as Hx by (constructor; cbn; try done; by rewrite lookup_insert_eq).
  assert (good services secureCookies q' id s (recovered id handler x0).2) as Hh.
  { specialize (Ho x0 Hx eq_refl eq_refl eq_refl). unfold ends in Ho. unfold recovered. by destruct (handler x0) as [[a| |] x1]. }
  intros [= <- _ _].
  assert (good services secureCookies q' id s (match v with Refused retry => (rateLimitResponse id retry x0).2 | _ => (recovered id handler x0).2 end)) as Hg.
  { destruct v; try done. pose proof (rateLimitResponse_open q' id s retry x0 Hx eq_refl eq_refl eq_refl) as Hl.
    unfold ends in Hl. by destruct (rateLimitResponse id retry x0) as [[] x1]. }
  destruct Hg as [Hg1 Hg2 Hg3 Hg4 Hg5]. constructor; try done. by eapply calls_guarded_in.
Qed.

Lemma log_ids_uuids params : Forall (fun x => exists v, uuidPattern v = true /\ x.2 = to_lower v) (log_ids params).
Proof.
  apply Forall_forall. intros [k v] Hin. apply list_elem_of_omap in Hin as ([n w] & _ & Hw). cbn [fst snd] in Hw.
  destruct (list_find _ _) as [[i key]|]; [|done]. destruct (uuidPattern w) eqn:E; [|done]. injection Hw as <- <-. by exists w.
Qed.

Lemma dispatch_route now conn q requestID q' route handler :
  dispatch services general find secureCookies now conn q requestID = (q', route, handler) ->
  route = "" \/ route ∈ (patterns services general secureCookies now conn q).*2.
Proof.
  unfold dispatch. destruct (find _ _ _) as [i params| |]; [|by intros [= <- <- <-]; left..].
  destruct (table _ _ _ _ _ _ _ !! i) as [[[m p] h]|] eqn:E; intros [= <- <- <-]; [right|by left].
  apply list_elem_of_fmap. exists (m, p). split; [done|]. change (patterns services general secureCookies now conn q)
    with (fst <$> table services general secureCookies now conn (with_params params q) requestID).
  apply list_elem_of_fmap. exists (m, p, h). split; [done|]. by eapply list_elem_of_lookup_2.
Qed.

Lemma serve_log now ids conn q l s x l' log :
  serve services general find secureCookies now ids conn q l s = (x, l', log) ->
  lg_request_id log = requestIDMiddleware ids q /\ lg_status log = c_status x /\
  (lg_route log = "unmatched" \/ lg_route log ∈ (patterns services general secureCookies now conn q).*2) /\
  Forall (fun x => exists v, uuidPattern v = true /\ x.2 = to_lower v) (lg_ids log).
Proof.
  unfold serve. destruct (dispatch _ _ _ _ _ _ _ _) as [[q' route] handler] eqn:E. apply dispatch_route in E.
  destruct (Middleware _ _ _) as [v l1]. intros [= <- _ <-]. cbn. split_and!; try done; [|apply log_ids_uuids].
  destruct (String.eqb_spec route ""); [by left|]. destruct E; [done|by right].
Qed.
End Router.

(** C5: whatever is requested, whatever the services answer: before a valid session is presented the
    API calls a public method or looks the session up, with the bearer token of the request and
    nothing else; after that it makes one call at most, on behalf of the user of the session,
    unless that is the first poll of an event stream and succeeds, when it only goes on to poll
    the same stream for the same user, however long the stream stays open; and
    unless it answers an error, every call succeeded, the request for a password reset and the
    last poll of a stream that ended apart. *)
Theorem api_guarded {P : Primitives} {Health S} (services : forall A, serviceE Health A -> SE S A) {Sc : Scanner} {V : Validator}
    general find secureCookies now ids conn q l s :
  let '(x, _, _) := serve services general find secureCookies now ids conn q l s in
  calls_guarded services q s (c_calls x) /\ (c_status x < 400 -> honest (c_calls x)).
Proof. destruct (serve _ _ _ _ _ _ _ _ _ _) as [[x l'] log] eqn:E. by apply serve_good in E as []. Qed.

(** *** Refresh tokens *)

(** The services with other refresh tokens in the sessions they open. *)
Definition other_token (f : string -> string) (r : AuthResult) : AuthResult :=
  let s := ar_Session r in
  mkAuthResult (ar_User r) (mkSessionView (s_Token s) (s_ExpiresAt s) (f (s_RefreshToken s)) (s_RefreshTokenExpiresAt s)).
Definition map_answer {S A} (g : A -> A) (m : SE S A) : SE S A := fun s =>
  match m s with (Ok a, s') => (Ok (g a), s') | (Err e, s') => (Err e, s') end.
Definition other_tokens {Health S} (f : string -> string) (services : forall A, serviceE Health A -> SE S A) (A : Type)
    (c : serviceE Health A) : SE S A :=
  match c in serviceE _ A return SE S A with
  | CSignup _ email password => map_answer (other_token f) (services _ (CSignup Health email password))
  | CLogin _ email password => map_answer (other_token f) (services _ (CLogin Health email password))
  | CRefresh _ token => map_answer (other_token f) (services _ (CRefresh Health token))
  | c => services _ c
  end.

Definition without_value (c : Cookie) : Cookie :=
  mkCookie (co_Name c) "" (co_Path c) (co_Expires c) (co_MaxAge c) (co_HttpOnly c) (co_Secure c) (co_SameSiteStrict c).
(** Two contexts that differ in the values of cookies only. *)
Record alike {Health S} (x y : Ctx Health S) : Prop := {
  al_services : c_services y = c_services x;
  al_calls : c_calls y = c_calls x;
  al_headers : c_headers y = c_headers x;
  al_cookies : without_value <$> c_cookies y = without_value <$> c_cookies x;
  al_status : c_status y = c_status x;
  al_body : c_body y = c_body x
}.
Definition handler_alike {Health S} (h h' : H Health S ()) : Prop :=
  forall x, (h' x).1 = (h x).1 /\ alike (h x).2 (h' x).2.

Section Tokens.
Context {P : Primitives} {Health S : Type} (services : forall A, serviceE Health A -> SE S A) (f : string -> string).
Context {Sc : Scanner} {V : Validator} (general : string -> option Z).
Context (find : list (string * string) -> string -> string -> Lookup) (secureCookies : bool).

Lemma alike_refl (x : Ctx Health S) : alike x x.
Proof. by constructor. Qed.
Lemma alike_same (h : H Health S ()) : handler_alike h h.
Proof. intros x. split; [done|apply alike_refl]. Qed.

Lemma authEndpoint_alike now q requestID operation status :
  (forall e p, other_tokens f services _ (operation e p) = map_answer (other_token f) (services _ (operation e p))) ->
  handler_alike (authEndpoint services secureCookies now q requestID operation status)
    (authEndpoint (other_tokens f services) secureCookies now q requestID operation status).
Proof.
  intros Hop x. unfold authEndpoint, DecodeBody, checked, refuse, RespondError, invoke, mbind, H_bind. cbn [header].
  destruct (DecodeJSON _ _) as [r|t]; [split; [done|apply alike_refl]|]. cbn. rewrite Hop. unfold map_answer.
  destruct (services _ _ _) as [[r|e] s']; cbn; (split; [done|constructor; cbn; try done]). by rewrite !fmap_app.
Qed.

Lemma refreshAuth_alike now q requestID :
  handler_alike (refreshAuth services secureCookies now q requestID) (refreshAuth (other_tokens f services) secureCookies now q requestID).
Proof.
  intros x. unfold refreshAuth, refuse, RespondError, invoke, mbind, H_bind. cbn [header].
  destruct (refresh_cookie q) as [token|]; [|split; [done|apply alike_refl]]. cbn. unfold map_answer.
  destruct (services _ _ _) as [[r|e] s']; cbn.
  - split; [done|constructor; cbn; try done]. by rewrite !fmap_app.
  - case_bool_decide; (split; [done|apply alike_refl]).
Qed.

Lemma routes_alike now conn q requestID :
  Forall2 (fun r r' => r'.1 = r.1 /\ handler_alike r.2 r'.2)
    (table services general secureCookies now conn q requestID) (table (other_tokens f services) general secureCookies now conn q requestID).
Proof.
  unfold table, routes. repeat (apply Forall2_app || apply Forall2_cons_2 || apply Forall2_nil_2); (split; [reflexivity|]); cbn [snd];
    first [by apply authEndpoint_alike|apply refreshAuth_alike|exact (alike_same _)].
Qed.

Lemma dispatch_alike now conn q requestID q' route handler :
  dispatch services general find secureCookies now conn q requestID = (q', route, handler) ->
  exists handler', dispatch (other_tokens f services) general find secureCookies now conn q requestID = (q', route, handler') /\
    handler_alike handler handler'.
Proof.
  unfold dispatch. change (patterns (other_tokens f services) general secureCookies now conn q)
    with (patterns services general secureCookies now conn q).
  destruct (find _ _ _) as [i params| |]; [|by intros [= <- <- <-]; eexists; split; [done|apply alike_same]..].
  pose proof (routes_alike now conn (with_params params q) requestID) as Hr.
  destruct (table services _ _ _ _ _ _ !! i) as [[[m p] h]|] eqn:E.
  - intros [= <- <- <-]. destruct (Forall2_lookup_l _ _ _ _ _ Hr E) as ([[m' p'] h'] & -> & Ep & Hh). injection Ep as -> ->. by eexists.
  - intros [= <- <- <-]. apply lookup_ge_None in E. rewrite (Forall2_length _ _ _ Hr) in E. apply lookup_ge_None in E as ->. eexists. split; [done|apply alike_same].
Qed.

Lemma serve_alike now ids conn q l s x l1 log :
  serve services general find secureCookies now ids conn q l s = (x, l1, log) ->
  exists x', serve (other_tokens f services) general find secureCookies now ids conn q l s = (x', l1, log) /\ alike x x'.
Proof.
  unfold serve. destruct (dispatch _ _ _ _ _ _ _ _) as [[q' route] handler] eqn:E.
  apply dispatch_alike in E as (handler' & -> & Hh). destruct (Middleware now (rq_in q) l) as [v l'].
  set (id := requestIDMiddleware ids q). set (x0 := mkCtx s [] None _ [] 200 None).
  assert (alike (recovered id handler x0).2 (recovered id handler' x0).2) as Ha.
  { destruct (Hh x0) as [Ho [A1 A2 A3 A4 A5 A6]]. unfold recovered. destruct (handler x0) as [o y], (handler' x0) as [o' y']. simpl in *. subst o'.
    destruct o; by constructor. }
  assert (forall y y', alike y y' -> (y, settle v y l', accessLog q' id route (c_status y) (cn_elapsed conn)) = (x, l1, log) ->
    exists x', (y', settle v y' l', accessLog q' id route (c_status y') (cn_elapsed conn)) = (x', l1, log) /\ alike x x') as Hend.
  { intros y y' Hy [= <- <- <-]. exists y'. split; [|done]. unfold settle. by rewrite (al_status _ _ Hy), (al_body _ _ Hy). }
  destruct v; apply Hend; try exact Ha. apply alike_refl.
Qed.
End Tokens.

(** C36: whatever is requested, whatever the services answer, also with errors nobody foresaw: the
    answer is the payload of a success or an error of the catalogue, with the identifier of the
    request and nothing of the error of the service; a cookie is always that of the refresh token,
    strict, for the authentication routes, secure in production, and the refresh token is in
    nothing but the value of the cookie: with any other refresh tokens the status, the headers, the
    body, the log and all else of the cookies are the same; the identifier answered and
    logged is one of at most 64 harmless characters, and what else of the path is logged is the
    pattern of the route and uuids. *)
Theorem api_answers_safe {P : Primitives} {Health S} (services : forall A, serviceE Health A -> SE S A) {Sc : Scanner} {V : Validator}
    general find secureCookies now ids conn q l s :
  ids_ok ids ->
  let '(x, _, log) := serve services general find secureCookies now ids conn q l s in
  (exists id, requestIDPattern id = true /\ c_headers x !! "X-Request-ID" = Some id /\ lg_request_id log = id /\
    answer_ok id (c_status x) (c_body x) /\ Forall (cookie_ok secureCookies) (c_cookies x) /\
    (lg_route log = "unmatched" \/ lg_route log ∈ (patterns services general secureCookies now conn q).*2) /\
    Forall (fun x => exists v, uuidPattern v = true /\ x.2 = to_lower v) (lg_ids log)) /\
  (forall f, let '(x', _, log') := serve (other_tokens f services) general find secureCookies now ids conn q l s in
    c_status x' = c_status x /\ c_headers x' = c_headers x /\ c_body x' = c_body x /\ log' = log /\
    without_value <$> c_cookies x' = without_value <$> c_cookies x).
Proof.
  intros Hids. destruct (serve services _ _ _ _ _ _ _ _ _) as [[x l'] log] eqn:E. split.
  - exists (requestIDMiddleware ids q).
    pose proof (serve_good _ _ _ _ _ _ _ _ _ _ _ _ _ E) as [_ _ Ha Hc Hi].
    apply serve_log in E as (Hl & _ & Hr & Hu). split_and!; try done. by apply requestID_pattern.
  - intros f. by destruct (serve_alike services f _ _ _ _ _ _ _ _ _ _ _ _ E) as (x' & -> & []).
Qed.

(** ** Single routes through the router *)

Definition response {Health S} (x : Ctx Health S) : Z * gmap string string * list Cookie * option (Payload Health) :=
  (c_status x, c_headers x, c_cookies x, c_body x).
Definition passes {P : Primitives} (now : Z) (q : Request) (l : RateLimiter) : Prop :=
  forall retry, (Middleware now (rq_in q) l).1 <> Refused retry.

Section Routed.
Context {P : Primitives} {Health S : Type} (services : forall A, serviceE Health A -> SE S A).
Context {Sc : Scanner} {V : Validator} (general : string -> option Z).
Context (find : list (string * string) -> string -> string -> Lookup) (secureCookies : bool).

(** gin finds the route of a method and pattern, with parameters. *)
Definition routed (now : Z) (conn : Connection S) (q : Request) (method pattern : string) (params : list (string * string)) : Prop :=
  exists i, find (patterns services general secureCookies now conn q) (Method (rq_in q)) (Path (rq_in q)) = Found i params /\
    patterns services general secureCookies now conn q !! i = Some (method, pattern).

Lemma patterns_distinct now conn q : NoDup (patterns services general secureCookies now conn q).
Proof. apply (bool_decide_unpack _). vm_compute. exact I. Qed.

Lemma dispatch_to now conn q requestID method pattern params handler :
  routed now conn q method pattern params ->
  (method, pattern, handler) ∈ table services general secureCookies now conn (with_params params q) requestID ->
  dispatch services general find secureCookies now conn q requestID = (with_params params q, pattern, handler).
Proof.
  intros (i & Hf & Hi) Hin. unfold dispatch. rewrite Hf. apply list_elem_of_lookup in Hin as [j Hj].
  assert (patterns services general secureCookies now conn q !! j = Some (method, pattern)) as Hj'.
  { change (patterns services general secureCookies now conn q)
      with (fst <$> table services general secureCookies now conn (with_params params q) requestID).
    by rewrite list_lookup_fmap, Hj. }
  rewrite (NoDup_lookup _ _ _ _ (patterns_distinct now conn q) Hi Hj'), Hj. done.
Qed.

Definition start (ids : IdSource) (q : Request) (s : S) : Ctx Health S :=
  mkCtx s [] None {["X-Request-ID" := requestIDMiddleware ids q; "X-WatchTrace-Service" := "api"]} [] 200 None.

Lemma serve_to now ids conn q l s method pattern params handler x' o :
  routed now conn q method pattern params -> passes now q l ->
  (method, pattern, handler) ∈ table services general secureCookies now conn (with_params params q) (requestIDMiddleware ids q) ->
  handler (start ids q s) = (o, x') -> o <> Panic ->
  exists l' log, serve services general find secureCookies now ids conn q l s = (x', l', log).
Proof.
  intros Hr Hp Hin Hh Ho. unfold serve. rewrite (dispatch_to _ _ _ _ _ _ _ _ Hr Hin).
  unfold passes in Hp. destruct (Middleware now (rq_in q) l) as [v l1]. cbn in Hp.
  fold (start ids q s). unfold recovered. rewrite Hh.
  destruct v as [| | |retry]; [| | |by destruct (Hp retry)]; destruct o; try done; do 2 eexists; reflexivity.
Qed.
End Routed.

Ltac in_table n := apply (list_elem_of_lookup_2 _ n); reflexivity.

(** A line of the access log without the duration. *)
Definition timeless (log : LogEntry) : LogEntry :=
  mkLog (lg_level log) (lg_component log) 0 (lg_request_id log) (lg_method log) (lg_route log) (lg_status log) (lg_ids log).

(** C38: a request for a password reset is answered the same whatever the account service does: the
    address of an account and one nobody has, a database that works and one that fails are not
    told apart by status, headers, cookies or body, nor by the rate limiter or the access log,
    except by the time the answer takes, which the log records.  That time is not claimed to be
    the same: the mail is sent before the answer. *)
Theorem forgot_password_uniform {P : Primitives} {Health S1 S2} (services1 : forall A, serviceE Health A -> SE S1 A)
    (services2 : forall A, serviceE Health A -> SE S2 A) {Sc : Scanner} {V : Validator} general find secureCookies now ids conn1 conn2 q l s1 s2 params :
  routed services1 general find secureCookies now conn1 q "POST" "/api/v1/auth/forgot-password" params ->
  let '(x1, l1, log1) := serve services1 general find secureCookies now ids conn1 q l s1 in
  let '(x2, l2, log2) := serve services2 general find secureCookies now ids conn2 q l s2 in
  response x1 = response x2 /\ l1 = l2 /\ timeless log1 = timeless log2 /\
  lg_duration_ms log1 = Z.quot (cn_elapsed conn1) 1000000 /\ lg_duration_ms log2 = Z.quot (cn_elapsed conn2) 1000000.
Proof.
  intros Hr. assert (routed services2 general find secureCookies now conn2 q "POST" "/api/v1/auth/forgot-password" params) as Hr2 by exact Hr.
  unfold serve. erewrite (dispatch_to services1), (dispatch_to services2); [|exact Hr2|in_table 8%nat|exact Hr|in_table 8%nat].
  destruct (Middleware now (rq_in q) l) as [v l'].
  assert (forall id, exists st h ck b, (forall ls o, b <> Some (PEvents ls o)) /\
    response ((recovered id (forgotPasswordAuth services1 (with_params params q) id) (start ids q s1)).2) = (st, h, ck, b) /\
    response ((recovered id (forgotPasswordAuth services2 (with_params params q) id) (start ids q s2)).2) = (st, h, ck, b)) as Hh.
  { intros id. unfold recovered, forgotPasswordAuth, DecodeBody, refuse, RespondError, invoke, mbind, H_bind. cbn [header].
    destruct (DecodeJSON _ _) as [r|t].
    - cbn. do 4 eexists. split; [|split; reflexivity]. done.
    - cbn. destruct (services1 _ _ _) as [r1 t1], (services2 _ _ _) as [r2 t2]. cbn.
      do 4 eexists. split; [|split; reflexivity]. done. }
  specialize (Hh (requestIDMiddleware ids q)) as (st & h & ck & b & Hb & H1 & H2). unfold response in *. fold (start (Health := Health) ids q s1) (start (Health := Health) ids q s2).
  destruct v; try (injection H1 as E1 E2 E3 E4; injection H2 as F1 F2 F3 F4; cbn [settle];
    rewrite ?E1, ?E2, ?E3, ?E4, ?F1, ?F2, ?F3, ?F4; split_and!; try done; unfold settle; rewrite ?E4, ?F4;
    destruct b as [[]|]; try done; by edestruct Hb).
Qed.

(** ** The account service behind the API *)

Section Sessions.
Context {P : Primitives} {A : Argon2} {O Health : Type}.
Context (ParseAddress : string -> option string).
Context (SendVerification SendPasswordReset : option (string -> string -> O -> res () * O)).
(** The other services on the same state. *)
Context (other : forall B, serviceE Health B -> SE (World AuthDB O) B).

(** What a request finds of the world: the clock of the database and of the process, and random bytes. *)
Record Moment : Type := mkMoment {
  m_t : Z; m_now : Z; m_now' : Z; m_draws : draws; m_salt : res bytes; m_action : res bytes
}.
Definition account_services (m : Moment) (B : Type) (c : serviceE Health B) : SE (World AuthDB O) B :=
  match c in serviceE _ B return SE (World AuthDB O) B with
  | CAuthenticate _ token => Authenticate (m_t m) token
  | CSignup _ email password =>
      Signup ParseAddress SendVerification (m_t m) (m_now m) (m_now' m) (m_draws m) (m_salt m) (m_action m) email password
  | CLogin _ email password => Login ParseAddress (m_t m) (m_now m) (m_draws m) email password
  | CRefresh _ token => Refresh (m_t m) (m_now m) (m_now' m) (m_draws m) token
  | CLogout _ token all => Logout (m_t m) (m_now m) token all
  | CVerifyEmail _ token => VerifyEmail (m_t m) (m_now m) token
  | CForgotPassword _ email => ForgotPassword ParseAddress SendPasswordReset (m_t m) (m_now m) (m_action m) email
  | CResetPassword _ token password => ResetPassword (m_t m) (m_now m) (m_salt m) token password
  | c => other _ c
  end.

Context {Sc : Scanner} {V : Validator} (general : string -> option Z).
Context (find : list (string * string) -> string -> string -> Lookup) (secureCookies : bool).
Definition api (m : Moment) := serve (account_services m) general find secureCookies.

Lemma refresh_answers {L : PrimitiveLaws} m now ids conn q l w params result w' token :
  routed (account_services m) general find secureCookies now conn q "POST" "/api/v1/auth/refresh" params -> passes now q l ->
  refresh_cookie q = Some token -> Refresh (m_t m) (m_now m) (m_now' m) (m_draws m) token w = (Ok result, w') ->
  exists x l' log, api m now ids conn q l w = (x, l', log) /\ c_services x = w' /\ c_status x = 200 /\
    c_body x = Some (PAuth (mkAuthResponse (user_response (ar_User result))
                       (mkAuthSession (s_Token (ar_Session result)) "Bearer" (s_ExpiresAt (ar_Session result))))) /\
    exists cookie, c_cookies x = [cookie] /\ cookie_ok secureCookies cookie /\ co_Value cookie = s_RefreshToken (ar_Session result).
Proof.
  intros Hr Hp Hc Hrun. edestruct (serve_to (account_services m) general find secureCookies now ids conn q l w "POST" "/api/v1/auth/refresh" params
    (refreshAuth (account_services m) secureCookies now (with_params params q) (requestIDMiddleware ids q))) as (l' & log & Hs); [exact Hr|exact Hp|in_table 5%nat| | |].
  { unfold refreshAuth, mbind, H_bind. cbn [header]. change (refresh_cookie (with_params params q)) with (refresh_cookie q). rewrite Hc.
    unfold invoke. cbn [c_services start account_services]. rewrite Hrun. reflexivity. }
  { discriminate. }
  unfold api. rewrite Hs. do 3 eexists. split; [reflexivity|]. cbn. split_and!; try done.
  eexists. split; [reflexivity|]. split; [apply set_cookie_ok|done].
Qed.

Lemma me_answers m now ids conn q l w params user w' token :
  routed (account_services m) general find secureCookies now conn q "GET" "/api/v1/auth/me" params -> passes now q l ->
  bearerToken (Authorization (rq_in q)) = Some token -> Authenticate (m_t m) token w = (Ok user, w') ->
  exists x l' log, api m now ids conn q l w = (x, l', log) /\ c_services x = w' /\ c_status x = 200 /\
    c_body x = Some (PUser (user_response user)).
Proof.
  intros Hr Hp Hc Hrun. edestruct (serve_to (account_services m) general find secureCookies now ids conn q l w "GET" "/api/v1/auth/me" params
    (authn (account_services m) (with_params params q) (requestIDMiddleware ids q) (currentUser (requestIDMiddleware ids q)))) as (l' & log & Hs); [exact Hr|exact Hp|in_table 10%nat| | |].
  { unfold authn, requireAuthenticatedUser, currentUser, mbind, H_bind. cbn [header].
    change (rq_in (with_params params q)) with (rq_in q). rewrite Hc.
    unfold invoke. cbn [c_services start account_services]. rewrite Hrun. reflexivity. }
  { discriminate. }
  unfold api. rewrite Hs. do 3 eexists. split; [reflexivity|]. cbn. split_and!; done.
Qed.
End Sessions.

(** C37: the session of a browser, through the API and the account service behind it.  A refresh with
    the current cookie answers 200 with an access token and replaces the cookie; as long as that
    token lives, a request that bears it is answered as its user.  No token of the exchange is in
    the cookie's place or the other way around. *)
Theorem session_through_api {P : Primitives} {L : PrimitiveLaws} {A : Argon2} {O Health}
    ParseAddress SendVerification SendPasswordReset (other : forall B, serviceE Health B -> SE (World AuthDB O) B)
    {Sc : Scanner} {V : Validator} general find secureCookies
    m m2 a b token id r us (w : World AuthDB O) now now2 ids ids2 conn q q2 l params params2 :
  let services m := account_services ParseAddress SendVerification SendPasswordReset other m in
  let api m := api ParseAddress SendVerification SendPasswordReset other general find secureCookies m in
  auth_ok (w_db w) -> w_faults w = [] -> validRefreshToken token = true ->
  token_row token id r (w_db w) -> usable r -> users (w_db w) !! rf_user r = Some us ->
  m_now m < rf_expires_at r -> rf_created_at r <= m_t m < truncate_micros (m_now' m) + accessTokenLifetime ->
  m_draws m = mkDraws (Ok a) (Ok b) -> slen a = 32 -> slen b = 32 ->
  (forall i x, refresh_tokens (w_db w) !! i = Some x -> rf_digest x <> tokenDigest (refresh_of b)) ->
  (forall i x, auth_sessions (w_db w) !! i = Some x -> ss_digest x <> tokenDigest (access_of a)) ->
  refresh_tokens (w_db w) !! w_uuid w (w_next w) = None -> auth_sessions (w_db w) !! w_uuid w (S (w_next w)) = None ->
  routed (services m) general find secureCookies now conn q "POST" "/api/v1/auth/refresh" params ->
  passes now q l -> refresh_cookie q = Some token ->
  exists x l1 log, api m now ids conn q l w = (x, l1, log) /\ c_status x = 200 /\
    c_body x = Some (PAuth (mkAuthResponse (user_response (user_view (rf_user r) us))
                       (mkAuthSession (access_of a) "Bearer" (truncate_micros (m_now' m) + accessTokenLifetime)))) /\
    (exists cookie, c_cookies x = [cookie] /\ cookie_ok secureCookies cookie /\ co_Value cookie = refresh_of b) /\
    (routed (services m2) general find secureCookies now2 conn q2 "GET" "/api/v1/auth/me" params2 -> passes now2 q2 l1 ->
     bearerToken (Authorization (rq_in q2)) = Some (access_of a) -> m_t m2 < truncate_micros (m_now' m) + accessTokenLifetime ->
     exists x2 l2 log2, api m2 now2 ids2 conn q2 l1 (c_services x) = (x2, l2, log2) /\ c_status x2 = 200 /\
       c_body x2 = Some (PUser (user_response (user_view (rf_user r) us)))).
Proof.
  intros services api Hok Hf Hv Hrow Hu Hus Hexp Ht Hd Ha Hb Hn1 Hn2 Hi1 Hi2 Hr Hp Hc.
  destruct (Refresh_rotates (m_t m) (m_now m) (m_now' m) a b token id r us w) as (w' & Hrun & _ & _ & Hauth); try done.
  rewrite <- Hd in Hrun.
  destruct (refresh_answers ParseAddress SendVerification SendPasswordReset other general find secureCookies m now ids conn q l w
    params _ w' token Hr Hp Hc Hrun) as (x & l1 & log & Hs & Hw & Hst & Hbody & Hcookie).
  exists x, l1, log. split_and!; try done. intros Hr2 Hp2 Hc2 Ht2. rewrite Hw.
  destruct (Authenticate (m_t m2) (access_of a) w') as [res w2] eqn:E. pose proof (Hauth (m_t m2) Ht2) as Hres. rewrite E in Hres. cbn in Hres. subst res.
  destruct (me_answers ParseAddress SendVerification SendPasswordReset other general find secureCookies m2 now2 ids2 conn q2 l1 w'
    params2 _ w2 _ Hr2 Hp2 Hc2 E) as (x2 & l2 & log2 & Hs2 & _ & Hst2 & Hb2). by exists x2, l2, log2.
Qed.

(** ** Requests on one account *)

Module Browser.
(** A table searched for the path itself. *)
Definition find (routes : list (string * string)) (method path : string) : Lookup :=
  match list_find (fun r => r = (method, path)) routes with
  | Some (i, _) => Found i []
  | None => if bool_decide (path ∈ routes.*2) then NoMethod else NoRoute
  end.
Definition ids : IdSource := mkIdSource (Err ErrDatabase) 1700000000000000000 7.
Lemma ids_fine : ids_ok ids.
Proof. intros b [=]. Qed.
Definition other (B : Type) (c : serviceE () B) : SE (World AuthDB ()) B := fun w => (Err ErrDatabase, w).
Definition moment (t : Z) : Moment := mkMoment t t t (mkDraws (Ok (Toy.rep 32 "d")) (Ok (Toy.rep 32 "e"))) (Ok "") (Ok "").
Definition services (m : Moment) := account_services (P := OneAccount.primitives) (A := ToyArgon.argon) (fun _ => None) None None other m.
Definition limiter : RateLimiter := NewRateLimiter (mkLimits 0 0 0 0 0 0).
Definition request (method path auth : string) (cookie : option string) : Request :=
  mkRequest (mkIncoming method path auth cookie "192.0.2.1:9999") "" "application/json" "" [] "" "".
Definition refresh (token : string) : Request := request "POST" "/api/v1/auth/refresh" "" (Some token).
Definition me (auth : string) : Request := request "GET" "/api/v1/auth/me" auth None.
Definition conn {S} : Connection S := mkConnection true 100 [] (3 * second).
Definition call := serve (P := OneAccount.primitives) (services (moment (30 * second))) (fun _ => None) find true (30 * second) ids conn.
End Browser.

(** A refresh of the account: another refresh token changes the cookie only. *)
Lemma api_answers_safe_witness :
  let '(x, _, log) := Browser.call (Browser.refresh OneAccount.new_token) Browser.limiter OneAccount.world in
  let '(x', _, _) := serve (P := OneAccount.primitives) (other_tokens (fun _ => "other") (Browser.services (Browser.moment (30 * second))))
    (fun _ => None) Browser.find true (30 * second) Browser.ids Browser.conn (Browser.refresh OneAccount.new_token) Browser.limiter OneAccount.world in
  c_status x = 200 /\ lg_request_id log = "fallback-17979cfe362a0000-7" /\ requestIDPattern (lg_request_id log) = true /\
  c_body x' = c_body x /\ (co_Value <$> c_cookies x') = ["other"].
Proof.
  pose proof (api_answers_safe (P := OneAccount.primitives) (Browser.services (Browser.moment (30 * second))) (fun _ => None) Browser.find true
    (30 * second) Browser.ids Browser.conn (Browser.refresh OneAccount.new_token) Browser.limiter OneAccount.world Browser.ids_fine) as H.
  assert (c_status (Browser.call (Browser.refresh OneAccount.new_token) Browser.limiter OneAccount.world).1.1 = 200) as Hs by (vm_compute; reflexivity).
  assert (lg_request_id (Browser.call (Browser.refresh OneAccount.new_token) Browser.limiter OneAccount.world).2 = "fallback-17979cfe362a0000-7")
    as Hi by (vm_compute; reflexivity).
  assert ((co_Value <$> c_cookies (serve (P := OneAccount.primitives) (other_tokens (fun _ => "other") (Browser.services (Browser.moment (30 * second))))
    (fun _ => None) Browser.find true (30 * second) Browser.ids Browser.conn (Browser.refresh OneAccount.new_token) Browser.limiter
    OneAccount.world).1.1) = ["other"]) as Hv by (vm_compute; reflexivity).
  unfold Browser.call in *. destruct (serve (Browser.services _) _ _ _ _ _ _ _ _ _) as [[x l] log].
  destruct H as [(id & Hid & _ & Hl & _) Ho]. specialize (Ho (fun _ => "other")).
  destruct (serve (other_tokens _ _) _ _ _ _ _ _ _ _ _) as [[x' l'] log']. destruct Ho as (_ & _ & Hb & _ & _).
  split; [exact Hs|split; [exact Hi|split; [rewrite Hl; exact Hid|split; [exact Hb|exact Hv]]]].
Defined.

(** Two services of which one has the account and sends the mail, and one has nothing and fails. *)
Definition failing (B : Type) (c : serviceE () B) : SE () B := fun w => (Err ErrDatabase, w).
Definition mailing := account_services (P := OneAccount.primitives) (A := ToyArgon.argon) (fun s => Some s) None
  (Some (fun _ _ o => (Ok (), o))) Browser.other
  (mkMoment (30 * second) (30 * second) (30 * second) (mkDraws (Ok "") (Ok "")) (Ok "") (Ok (Toy.rep 32 "p"))).
Definition forgotten : Request :=
  mkRequest (mkIncoming "POST" "/api/v1/auth/forgot-password" "" None "192.0.2.1:9999") "" "application/json" "" [] ""
    ("{" +:+ Sample.q "email" +:+ ":" +:+ Sample.q "me@example.test" +:+ "}").
Lemma forgot_password_uniform_witness :
  let '(x1, _, _) := serve (P := OneAccount.primitives) mailing (fun _ => None) Browser.find true (30 * second) Browser.ids Browser.conn
    forgotten Browser.limiter OneAccount.world in
  let '(x2, _, _) := serve (P := OneAccount.primitives) failing (fun _ => None) Browser.find true (30 * second) Browser.ids Browser.conn
    forgotten Browser.limiter () in
  response x1 = response x2 /\ c_status x2 = 202 /\
  c_calls x1 = [mkCall (CForgotPassword () "me@example.test") true] /\ c_calls x2 = [mkCall (CForgotPassword () "me@example.test") false].
Proof.
  pose proof (forgot_password_uniform (P := OneAccount.primitives) mailing failing (fun _ => None)
    Browser.find true (30 * second) Browser.ids Browser.conn Browser.conn forgotten Browser.limiter OneAccount.world () []) as H.
  destruct (serve mailing _ _ _ _ _ _ _ _ _) as [[x1 l1] log1] eqn:E1.
  destruct (serve failing _ _ _ _ _ _ _ _ _) as [[x2 l2] log2] eqn:E2. split; [|split; [|split]].
  - apply H. exists 8%nat. split; vm_compute; reflexivity.
  - vm_compute in E2. injection E2 as <- _ _. reflexivity.
  - vm_compute in E1. injection E1 as <- _ _. reflexivity.
  - vm_compute in E2. injection E2 as <- _ _. reflexivity.
Defined.

Lemma session_through_api_witness :
  exists x l1 log x2, Browser.call (Browser.refresh OneAccount.new_token) Browser.limiter OneAccount.world = (x, l1, log) /\ c_status x = 200 /\
    (serve (P := OneAccount.primitives) (Browser.services (Browser.moment (60 * second))) (fun _ => None) Browser.find true (60 * second)
      Browser.ids Browser.conn (Browser.me ("bearer " +:+ access_of (Toy.rep 32 "d"))) l1 (c_services x)).1.1 = x2 /\
    c_body x2 = Some (PUser (mkAuthUser "u1" "me@example.test" false)).
Proof.
  edestruct (session_through_api (P := OneAccount.primitives) (L := OneAccount.account_laws) (A := ToyArgon.argon) (fun _ => None) None None Browser.other
    (fun _ => None) Browser.find true (Browser.moment (30 * second)) (Browser.moment (60 * second)) (Toy.rep 32 "d") (Toy.rep 32 "e")
    OneAccount.new_token "r2" OneAccount.new_row OneAccount.owner OneAccount.world (30 * second) (60 * second) Browser.ids Browser.ids Browser.conn
    (Browser.refresh OneAccount.new_token) (Browser.me ("bearer " +:+ access_of (Toy.rep 32 "d"))) Browser.limiter [] [] OneAccount.account_ok)
    as (x & l1 & log & Hs & Hst & _ & _ & Hme); try (vm_compute; reflexivity); try (split; reflexivity).
  - vm_compute. split; [discriminate|reflexivity].
  - intros i x. simpl. rewrite lookup_insert_Some, lookup_singleton_Some.
    intros [[_ <-]|[_ [_ <-]]] E; vm_compute in E; discriminate E.
  - intros i x. simpl. by rewrite lookup_empty.
  - exists 5%nat. split; vm_compute; reflexivity.
  - intros retry. vm_compute. discriminate.
  - destruct Hme as (x2 & l2 & log2 & Hs2 & _ & Hb2).
    + exists 10%nat. split; vm_compute; reflexivity.
    + intros retry. vm_compute in Hs. injection Hs as _ <- _. vm_compute. discriminate.
    + vm_compute. reflexivity.
    + vm_compute. reflexivity.
    + exists x, l1, log, x2. split; [exact Hs|]. split; [exact Hst|]. split; [|exact Hb2]. change ((serve (Browser.services (Browser.moment (60 * second))) (fun _ => None)
        Browser.find true (60 * second) Browser.ids Browser.conn (Browser.me ("bearer " +:+ access_of (Toy.rep 32 "d"))) l1 (c_services x)).1.1 = x2)
        with ((api (P := OneAccount.primitives) (A := ToyArgon.argon) (fun _ => None) None None Browser.other (fun _ => None) Browser.find true
          (Browser.moment (60 * second)) (60 * second) Browser.ids Browser.conn (Browser.me ("bearer " +:+ access_of (Toy.rep 32 "d"))) l1 (c_services x)).1.1 = x2).
      rewrite Hs2. reflexivity.
Defined.
