(* ===== verification/Recovery.v ===== *)
(** * Recovery: the operator's redrive of a quarantined result

    Models cmd/queue-recovery/main.go with db/queries/queue_recovery.sql.  The command
    opens one record of monitoring_quarantine, checks that it holds a result that the
    key of its pool verifies, and, when told to, sends the result to the queue of the
    results again and marks the record.

    [RecoveryDB] adds to the tables of the engine the rows of monitoring_quarantine with
    the columns only this command reads (the engine appends to the table without its
    identifiers) and the audit events of a redrive.  The environment and the file system
    are the [commandSource] of the configuration; [uuid_Parse] is the parser of package
    uuid, with the canonical text of what it read; the pool of connections and the
    settings of the cloud SDK open or fail; [t0], [t1] and [t2] are the instants of the
    two reads and of the transaction.  What the command prints is not modelled.

    The theorems: whatever fails, a redrive sends nothing but a verified result, whose
    message is the one its worker sent, and changes nothing but the record; what the
    consumer or the dead letter reconciler sealed comes back byte for byte; a record is
    redriven at most once. *)

From stdpp Require Import base gmap list strings sorting.
From Stdlib Require Import ZArith Lia Ascii String.
From S2P Require Import Prelude Tx Store Bytes Envelope Sealing Scheduler Reliability Consumer Ledger.
From S2P Require Import Destination HttpClient Workqueue Pools Mail Config.
Import Secureheaders.

#[local] Open Scope Z_scope.

(** ** Tables *)

Record QuarantineRow : Type := mkQuarantineRow {
  qq_queue_kind : string;
  qq_row : Quarantined;
  qq_redrive_count : Z;
  qq_status : string;
  qq_approver : option string;
  qq_redrive_reason : option string;
  qq_reviewed_at : option Z;
  qq_expires_at : Z
}.

Record RecoveryDB : Type := mkRecoveryDB {
  engine_tables : DB;
  quarantine_rows : gmap string QuarantineRow;
  redrive_audit : list (PoolAudit * string)     (* with the quarantine_id of safe_details *)
}.

Definition on_quarantine_rows (f : gmap string QuarantineRow -> gmap string QuarantineRow) (d : RecoveryDB) : RecoveryDB :=
  mkRecoveryDB (engine_tables d) (f (quarantine_rows d)) (redrive_audit d).
Definition on_redrive_audit (f : list (PoolAudit * string) -> list (PoolAudit * string)) (d : RecoveryDB) : RecoveryDB :=
  mkRecoveryDB (engine_tables d) (quarantine_rows d) (f (redrive_audit d)).
Definition on_engine_tables (f : DB -> DB) (d : RecoveryDB) : RecoveryDB :=
  mkRecoveryDB (f (engine_tables d)) (quarantine_rows d) (redrive_audit d).

(** ** Statements *)

Definition GetQuarantineRecord (id : string) : Tx RecoveryDB QuarantineRow :=
  select_one (fun _ d => quarantine_rows d !! id).

(** Unlike the consumer's query, the key of the pool stands in for any key id. *)
Definition recovery_key (pool key : string) (p : WorkerPool) (d : DB) : option bytes :=
  match head (merge_sort newer (filter (credential_for pool key) (credentials d))) ≫= cr_public_material with
  | Some k => Some k
  | None => wp_result_public_key p
  end.

Definition recovery_verification (job key pool : string) (d : DB) : option (option bytes * job_state) :=
  j ← check_jobs d !! job;
  if decide (cj_worker_pool_id j = pool)
  then p ← worker_pools d !! pool; Some (recovery_key pool key p d, cj_state j)
  else None.
Definition GetRecoveryResultVerification (job key pool : string) : Tx RecoveryDB (option bytes * job_state) :=
  select_one (fun _ d => recovery_verification job key pool (engine_tables d)).

Definition set_redriven (now : Z) (approver reason : string) (r : QuarantineRow) : QuarantineRow :=
  mkQuarantineRow (qq_queue_kind r) (qq_row r) (qq_redrive_count r + 1) "redriven" (Some approver) (Some reason) (Some now)
    (qq_expires_at r).
Definition MarkQuarantineRedriven (id approver reason : string) : Tx RecoveryDB Z := sql (fun now d =>
  match quarantine_rows d !! id with
  | Some r =>
      if String.eqb (qq_status r) "quarantined" && (qq_redrive_count r <? 3)
      then (Ok 1, on_quarantine_rows <[id := set_redriven now approver reason r]> d)
      else (Ok 0, d)
  | None => (Ok 0, d)
  end).

(** The CHECKs of worker_pool_audit_events. *)
Definition within_octets (s : string) (maximum : Z) : bool := (1 <=? slen s) && (slen s <=? maximum).
Definition InsertQueueRecoveryAudit (pool actor reason id : string) : Tx RecoveryDB () := sql (fun _ d =>
  if within_octets actor 128 && within_octets reason 240
  then (Ok (), on_redrive_audit (fun l => l ++ [(mkPoolAudit pool "redrive" actor reason, id)]) d)
  else (Err ErrCheckViolation, d)).

Definition InsertQueueRecoveryOperationalEvent (job pool : string) : Tx RecoveryDB () := update (fun _ =>
  on_engine_tables (on_operational_events (fun l =>
    l ++ [mkOperationalEvent "redrive" (Some job) (Some pool) "controlled result redrive"]))).

(** ** The command *)

(** The attributes, each of them always set. *)
Definition redrive_attributes (result : Result) (jobID poolID resultID : string) : MessageAttributes :=
  <["schema_version" := mkAttribute "Number" (Itoa (r_SchemaVersion result))]>
  (<["job_id" := text jobID]>
  (<["worker_pool_id" := text poolID]>
  (<["snapshot_hash" := text (r_SnapshotHash result)]>
  (<["result_id" := text resultID]>
  (<["result_key_id" := text (r_ResultKeyID result)]> ∅))))).

Definition redrive_message (queue : string) (result : Result) (plain : bytes) (jobID poolID resultID : string) : SendMessageInput :=
  mkSendMessage queue (base64_encode plain) resultID jobID (redrive_attributes result jobID poolID resultID).

Section Command.
Context {P : Primitives} {O : Type} `{!SQS O}.
Context (source : commandSource) (uuid_Parse : string -> option string) (database aws : res ()).

Definition databaseUUID (value : string) : res string := or_else (uuid_Parse value) "invalid UUID".

Definition arguments_ok (id approver reason : string) : bool :=
  negb (String.eqb id "" || String.eqb approver "" || String.eqb reason "" || (128 <? slen approver) || (240 <? slen reason)).

(** The key of the quarantine, from its file. *)
Definition load_sealer : res (option bytes) :=
  let databaseURL := optional source "WATCHTRACE_DATABASE_URL" in
  let keyPath := optional source "WATCHTRACE_QUARANTINE_KEY" in
  _ ← refuse_if (String.eqb databaseURL "" || String.eqb keyPath "") "database and quarantine key are required";
  keyData ← or_else (read_file source keyPath) "no such file";
  key ← or_else (base64_decode (TrimSpace keyData)) "invalid quarantine key";
  Quarantine.New key.

Definition job_of_row (r : QuarantineRow) : string := default "" (qr_job_id (qq_row r)).
Definition result_of_row (r : QuarantineRow) : string := default "" (qr_result_id (qq_row r)).
Definition pool_of_row (r : QuarantineRow) : string := default "" (qr_worker_pool_id (qq_row r)).

(** The record may be redriven, and the result inside it is the one it names. *)
Definition open_record (sealer : option bytes) (now : Z) (r : QuarantineRow) : res (bytes * Result) :=
  _ ← refuse_if (negb (String.eqb (qq_status r) "quarantined") || (3 <=? qq_redrive_count r) || after now (qq_expires_at r))
        "quarantine record is not recoverable";
  _ ← refuse_if (String.eqb (qq_queue_kind r) "job") "expired or dead jobs are never executed by redrive";
  _ ← refuse_if (String.eqb (result_of_row r) "" || String.eqb (job_of_row r) "") "result identity is unavailable";
  plain ← Quarantine.Open sealer (qr_encrypted_payload (qq_row r)) ("result:" +:+ result_of_row r);
  match PeekResult plain with
  | Err _ => Err ErrEnvelopeInvalid
  | Ok result =>
      if negb (String.eqb (r_ResultID result) (result_of_row r)) || negb (String.eqb (r_JobID result) (job_of_row r))
         || negb (String.eqb (r_WorkerPoolID result) (pool_of_row r))
      then Err ErrEnvelopeInvalid else Ok (plain, result)
  end.

(** A statement on its own. *)
Definition query {A} (t : Z) (q : Tx RecoveryDB A) : SE (World RecoveryDB O) A := with_tx t (a ← q; mret (Rollback a)).

Definition redrive_tx (quarantineID jobUUID : string) (r : QuarantineRow) (id approver reason : string) : Tx RecoveryDB (TxEnd ()) :=
  marked ← try_ (MarkQuarantineRedriven quarantineID approver reason);
  match marked with
  | Ok 1 =>
      _ ← InsertQueueRecoveryAudit (pool_of_row r) approver reason id;
      _ ← InsertQueueRecoveryOperationalEvent jobUUID (pool_of_row r);
      mret (Commit ())
  | _ => throw (ErrorsNew "quarantine state changed")
  end.

(** Sending, once everything was checked. *)
Definition redrive (t2 : Z) (quarantineID jobUUID : string) (r : QuarantineRow) (plain : bytes) (result : Result)
    (id approver reason : string) : SE (World RecoveryDB O) () :=
  let queueURL := optional source "WATCHTRACE_SQS_RESULT_QUEUE_URL" in
  _ ← of_res (refuse_if (String.eqb queueURL "") "result queue URL required");
  _ ← of_res aws;
  _ ← external (SendMessage (redrive_message queueURL result plain (job_of_row r) (pool_of_row r) (result_of_row r)));
  with_tx t2 (redrive_tx quarantineID jobUUID r id approver reason).

Definition run (now t0 t1 t2 : Z) (id : string) (execute : bool) (approver reason : string) : SE (World RecoveryDB O) () :=
  _ ← of_res (refuse_if (negb (arguments_ok id approver reason)) "id, approver, and reason are required");
  sealer ← of_res load_sealer;
  _ ← of_res database;
  quarantineID ← of_res (databaseUUID id);
  r ← query t0 (GetQuarantineRecord quarantineID);
  opened ← of_res (open_record sealer now r);
  jobUUID ← of_res (databaseUUID (job_of_row r));
  verification ← query t1 (GetRecoveryResultVerification jobUUID (r_ResultKeyID opened.2) (pool_of_row r));
  _ ← of_res (VerifyResult opened.1 (default "" verification.1));
  if negb execute then mret () else redrive t2 quarantineID jobUUID r opened.1 opened.2 id approver reason.
End Command.

(** ** What a redrive does *)

(** Everything a redrive must have established: the record, the result in it, the key
    that verifies it. *)
Record recoverable {P : Primitives} (source : commandSource) (uuid_Parse : string -> option string) (now : Z) (id : string)
    (d : RecoveryDB) (quarantineID jobUUID : string) (r : QuarantineRow) (plain : bytes) (result : Result) : Prop := {
  rv_id : uuid_Parse id = Some quarantineID;
  rv_row : quarantine_rows d !! quarantineID = Some r;
  rv_kind : qq_queue_kind r <> "job";
  rv_status : qq_status r = "quarantined";
  rv_count : qq_redrive_count r < 3;
  rv_fresh : now <= qq_expires_at r;
  rv_identity : result_of_row r = r_ResultID result /\ job_of_row r = r_JobID result /\ pool_of_row r = r_WorkerPoolID result;
  rv_sealed : exists sealer, load_sealer source = Ok sealer /\
    Quarantine.Open sealer (qr_encrypted_payload (qq_row r)) ("result:" +:+ r_ResultID result) = Ok plain;
  rv_job : uuid_Parse (r_JobID result) = Some jobUUID;
  rv_verified : exists key st,
    recovery_verification jobUUID (r_ResultKeyID result) (r_WorkerPoolID result) (engine_tables d) = Some (key, st) /\
    VerifyResult plain (default "" key) = Ok result
}.

(** The tables after a redrive. *)
Definition redriven (now : Z) (quarantineID jobUUID : string) (r : QuarantineRow) (id approver reason : string) (d : RecoveryDB) : RecoveryDB :=
  mkRecoveryDB
    (on_operational_events (fun l => l ++ [mkOperationalEvent "redrive" (Some jobUUID) (Some (pool_of_row r)) "controlled result redrive"])
       (engine_tables d))
    (<[quarantineID := set_redriven now approver reason r]> (quarantine_rows d))
    (redrive_audit d ++ [(mkPoolAudit (pool_of_row r) "redrive" approver reason, id)]).

Section Facts.
Context {P : Primitives} {O : Type} `{!SQS O}.
Context (source : commandSource) (uuid_Parse : string -> option string) (database aws : res ()).

Lemma query_reads {A} t (q : Z -> RecoveryDB -> option A) (w : World RecoveryDB O) r w' :
  query t (select_one q) w = (r, w') ->
  w_db w' = w_db w /\ w_ext w' = w_ext w /\ (forall a, r = Ok a -> q t (w_db w) = Some a).
Proof.
  intros E. pose proof (with_tx_ext _ _ _ _ _ E) as He.
  destruct (with_tx_db _ _ _ _ _ E) as [Hd|(fs & a & s & Hb & _)];
    [|apply bind_ok in Hb as (? & ? & _ & Hb); apply ret_ok in Hb as [Hb _]; discriminate Hb].
  split; [done|]. split; [done|]. intros a ->. apply with_tx_ok in E as (_ & fs & s & [(Hb & _)|(Hb & _)]);
    apply bind_ok in Hb as (x & s1 & Hq & Hb); apply ret_ok in Hb as [Hx _]; [done|].
  injection Hx as ->. by apply select_one_ok in Hq as [? _].
Qed.

Lemma open_record_ok sealer now r plain result : open_record sealer now r = Ok (plain, result) ->
  qq_queue_kind r <> "job" /\ qq_status r = "quarantined" /\ qq_redrive_count r < 3 /\ now <= qq_expires_at r /\
  result_of_row r = r_ResultID result /\ job_of_row r = r_JobID result /\ pool_of_row r = r_WorkerPoolID result /\
  Quarantine.Open sealer (qr_encrypted_payload (qq_row r)) ("result:" +:+ r_ResultID result) = Ok plain /\
  PeekResult plain = Ok result.
Proof.
  unfold open_record. intros H. apply res_bind_ok in H as ([] & E1%refuse_if_ok & H).
  apply res_bind_ok in H as ([] & E2%refuse_if_ok & H). apply res_bind_ok in H as ([] & E3%refuse_if_ok & H).
  apply res_bind_ok in H as (p & Eo & H). destruct (PeekResult p) as [result'|] eqn:Ep; [|done].
  destruct (negb _ || _ || _) eqn:Eb in H; [done|]. injection H as -> ->. unfold after in E1.
  apply orb_false_iff in E1 as [[E1 Ec%Z.leb_gt]%orb_false_iff Ef%Z.ltb_ge].
  apply negb_false_iff, String.eqb_eq in E1. apply String.eqb_neq in E2.
  apply orb_false_iff in Eb as [[Er Ej]%orb_false_iff Ew].
  apply negb_false_iff, String.eqb_eq in Er, Ej, Ew. rewrite <- Er in Eo. done.
Qed.

Lemma redrive_tx_ok quarantineID jobUUID r id approver reason t d u n fs a s :
  quarantine_rows d !! quarantineID = Some r ->
  redrive_tx quarantineID jobUUID r id approver reason (mkTx d t false u n fs) = (Ok a, s) ->
  tx_db s = redriven t quarantineID jobUUID r id approver reason d.
Proof.
  intros Hr. unfold redrive_tx. intros H. apply bind_ok in H as (m & s1 & H1 & H). unfold try_ in H1.
  destruct (MarkQuarantineRedriven _ _ _ _) as [[k|e] s1'] eqn:E1; injection H1 as <- <-; [|done]. cbn [fst snd] in H.
  destruct k as [|[| |]|]; try done. apply sql_ok in E1 as [E1 N1]. simpl in E1. rewrite Hr in E1.
  destruct (_ && _); [|done]. injection E1 as D1.
  apply bind_ok in H as ([] & s2 & H2 & H). apply sql_ok in H2 as [E2 N2].
  destruct (_ && _); [|done]. injection E2 as D2.
  apply bind_ok in H as ([] & s3 & H3 & H). apply update_ok in H3 as [D3 _]. apply ret_ok in H as [_ <-].
  rewrite D3, <- D2, <- D1. reflexivity.
Qed.

(** The message is the one the worker sent. *)
Lemma redrive_message_is_result Format queue result plain : r_ResultID result <> "" ->
  redrive_message queue result plain (r_JobID result) (r_WorkerPoolID result) (r_ResultID result) =
  result_message Format (mkDirect "" queue "") result plain.
Proof.
  intros Hid. unfold redrive_message, result_message. f_equal. unfold redrive_attributes, attributesToSQS. simpl.
  rewrite (eqb_empty _ Hid). apply map_eq. intros k.
  rewrite !lookup_insert. repeat case_decide; subst; congruence || discriminate || reflexivity.
Qed.

Lemma result_id_present (plain : bytes) result : PeekResult plain = Ok result -> r_ResultID result <> "".
Proof. by intros [_ H]%ResultAttributes_routable. Qed.

(** The messages the command sends, and the tables after it, once the record was checked. *)
Lemma redrive_outcome Format now t2 quarantineID jobUUID r plain result id approver reason (w : World RecoveryDB O) :
  recoverable source uuid_Parse now id (w_db w) quarantineID jobUUID r plain result ->
  let message := result_message Format (mkDirect "" (optional source "WATCHTRACE_SQS_RESULT_QUEUE_URL") "") result plain in
  let after_ := redriven t2 quarantineID jobUUID r id approver reason (w_db w) in
  let '(res, w') := redrive source aws t2 quarantineID jobUUID r plain result id approver reason w in
  (is_ok res = false /\ w_db w' = w_db w /\ w_ext w' = w_ext w) \/
  (w_ext w' = (SendMessage message (w_ext w)).2 /\
   (if is_ok (SendMessage message (w_ext w)).1 then w_db w' = w_db w \/ w_db w' = after_ else w_db w' = w_db w) /\
   (res = Ok () -> w_db w' = after_)).
Proof.
  intros H message after_. destruct H as [_ Hr _ _ _ _ (E1 & E2 & E3) (sealer & _ & Ho) _ (key & st & _ & Hv)].
  apply VerifyResult_peek in Hv. pose proof (redrive_message_is_result Format
    (optional source "WATCHTRACE_SQS_RESULT_QUEUE_URL") result plain (result_id_present _ _ Hv)) as Em.
  unfold redrive. rewrite E1, E2, E3, Em. fold message. unfold mbind, SE_bind, of_res.
  destruct (refuse_if _ _) as [[]|]; [|by left]. destruct aws as [[]|]; [|by left].
  unfold external. destruct (SendMessage message (w_ext w)) as [[m|e] o]; [|by right].
  destruct (with_tx _ _ _) as [res w'] eqn:Et. right. pose proof (with_tx_ext _ _ _ _ _ Et) as Hx. simpl in Hx.
  split; [exact Hx|]. cbn [fst is_ok]. split.
  - destruct (with_tx_db _ _ _ _ _ Et) as [Hd|(fs & a & s & Hb & Hd)]; [by left|right].
    simpl in Hb. rewrite Hd. eapply redrive_tx_ok; [exact Hr|exact Hb].
  - intros ->. apply with_tx_ok in Et as (_ & fs & s & [(Hb & _ & Hd)|(Hb & _)]); simpl in Hb.
    + rewrite Hd. eapply redrive_tx_ok; [exact Hr|exact Hb].
    + exfalso. unfold redrive_tx in Hb. apply bind_ok in Hb as (m' & s1 & _ & Hb).
      destruct m' as [[|[| |]|]|]; try discriminate Hb.
      apply bind_ok in Hb as (? & ? & _ & Hb). apply bind_ok in Hb as (? & ? & _ & Hb).
      apply ret_ok in Hb as [Hb _]. discriminate Hb.
Qed.
(** What was established before the decision to send. *)
Lemma run_checked now t0 t1 t2 id execute approver reason (w : World RecoveryDB O) :
  let '(res, w') := run source uuid_Parse database aws now t0 t1 t2 id execute approver reason w in
  (is_ok res = false /\ w_db w' = w_db w /\ w_ext w' = w_ext w) \/
  exists quarantineID jobUUID r plain result w1,
    recoverable source uuid_Parse now id (w_db w) quarantineID jobUUID r plain result /\
    w_db w1 = w_db w /\ w_ext w1 = w_ext w /\
    (res, w') = (if negb execute then mret () else redrive source aws t2 quarantineID jobUUID r plain result id approver reason) w1.
Proof.
  unfold run, databaseUUID. unfold mbind, SE_bind, of_res.
  destruct (refuse_if _ _) as [[]|]; [|by left]. destruct (load_sealer source) as [sealer|] eqn:Es; [|by left].
  destruct database as [[]|]; [|by left]. destruct (uuid_Parse id) as [quarantineID|] eqn:Ei; [|by left]. cbn [or_else].
  destruct (query t0 _ w) as [r0 w0] eqn:E0. apply query_reads in E0 as (D0 & X0 & Hr0).
  destruct r0 as [r|]; [|by left]. specialize (Hr0 r eq_refl).
  destruct (open_record sealer now r) as [[plain result]|] eqn:Eo; [|left; split_and!; [done|congruence..]]. cbn [fst snd].
  apply open_record_ok in Eo as (Hk & Hs & Hc & Hx & H1 & H2 & H3 & Hop & Hp). rewrite H2, H3.
  destruct (uuid_Parse (r_JobID result)) as [jobUUID|] eqn:Ej; [|left; split_and!; [done|congruence..]]. cbn [or_else].
  destruct (query t1 _ w0) as [r1 w1] eqn:E1. apply query_reads in E1 as (D1 & X1 & Hr1).
  destruct r1 as [[key st]|]; [|left; split_and!; [done|congruence..]]. specialize (Hr1 _ eq_refl). cbn [fst snd].
  destruct (VerifyResult plain (default "" key)) as [result'|] eqn:Ev; [|left; split_and!; [done|congruence..]].
  assert (result' = result) as -> by (apply VerifyResult_peek in Ev; congruence).
  lazymatch goal with |- match ?e with (_, _) => _ end => destruct e as [res w'] eqn:El end. right.
  exists quarantineID, jobUUID, r, plain, result, w1. split; [|split_and!; [congruence..|by symmetry]].
  constructor; try done; [by exists sealer|]. exists key, st. by rewrite <- D0.
Qed.

(** C33: whatever is asked and whatever fails, the recovery command sends nothing unless it was
    told to and the record is open, of the result kind, not expired, and holds a result
    of its own identity that the key of its pool verifies; then it makes one send, of
    the very message the worker published.  The tables change only after the queue
    accepted the message, and only by marking the record and appending the audit and the
    event; a run that reports success did exactly that, and a successful dry run means
    that the record is recoverable. *)
Theorem redrive_safe Format now t0 t1 t2 id execute approver reason (w : World RecoveryDB O) :
  let '(res, w') := run source uuid_Parse database aws now t0 t1 t2 id execute approver reason w in
  (w_db w' = w_db w /\ w_ext w' = w_ext w /\
   (res = Ok () -> execute = false /\ exists quarantineID jobUUID r plain result,
      recoverable source uuid_Parse now id (w_db w) quarantineID jobUUID r plain result)) \/
  (execute = true /\ exists quarantineID jobUUID r plain result,
    recoverable source uuid_Parse now id (w_db w) quarantineID jobUUID r plain result /\
    let message := result_message Format (mkDirect "" (optional source "WATCHTRACE_SQS_RESULT_QUEUE_URL") "") result plain in
    let after_ := redriven t2 quarantineID jobUUID r id approver reason (w_db w) in
    w_ext w' = (SendMessage message (w_ext w)).2 /\
    (if is_ok (SendMessage message (w_ext w)).1 then w_db w' = w_db w \/ w_db w' = after_ else w_db w' = w_db w) /\
    (res = Ok () -> w_db w' = after_)).
Proof.
  pose proof (run_checked now t0 t1 t2 id execute approver reason w) as H.
  destruct (run _ _ _ _ _ _ _ _ _ _ _ _ w) as [res w'].
  destruct H as [(Hf & Hd & Hx)|(q & j & r & plain & result & w1 & Hr & D1 & X1 & E)].
  { left. split_and!; [done..|]. by intros ->. }
  destruct execute; cbn [negb] in E.
  - pose proof (redrive_outcome Format now t2 q j r plain result id approver reason w1) as Ho. rewrite D1, X1, <- E in Ho.
    destruct (Ho Hr) as [(Hf & Hd & Hx)|(Hx & Hd & Hok)].
    + left. split_and!; [done..|]. by intros ->.
    + right. split; [done|]. by exists q, j, r, plain, result.
  - injection E as -> ->. left. split_and!; [done..|]. intros _. split; [done|]. by exists q, j, r, plain, result.
Qed.

(** A redrive that reported success cannot be repeated: the record is no longer open, so
    that its counter, which the code limits to three, never passes one. *)
Theorem redriven_once now t0 t1 t2 now' t0' t1' t2' id approver reason execute' approver' reason' (w : World RecoveryDB O) :
  let '(res, w') := run source uuid_Parse database aws now t0 t1 t2 id true approver reason w in
  res = Ok () ->
  let '(res', w'') := run source uuid_Parse database aws now' t0' t1' t2' id execute' approver' reason' w' in
  is_ok res' = false /\ w_db w'' = w_db w' /\ w_ext w'' = w_ext w'.
Proof.
  pose proof (run_checked now t0 t1 t2 id true approver reason w) as H.
  destruct (run _ _ _ _ _ _ _ _ _ _ _ _ w) as [res w']. intros ->.
  destruct H as [(Hf & _)|(q & j & r & plain & result & w1 & Hr & D1 & X1 & E)]; [done|]. cbn [negb] in E.
  pose proof (redrive_outcome (fun _ => "") now t2 q j r plain result id approver reason w1) as Ho. rewrite D1, <- E in Ho.
  destruct (Ho Hr) as [(Hf & _)|(_ & _ & Hok)]; [done|]. specialize (Hok eq_refl).
  pose proof (run_checked now' t0' t1' t2' id execute' approver' reason' w') as H2.
  destruct (run _ _ _ _ _ _ _ _ _ _ _ _ w') as [res' w''].
  destruct H2 as [H2|(q' & j' & r' & plain' & result' & w2 & Hr' & _)]; [exact H2|exfalso].
  assert (q' = q) as -> by (pose proof (rv_id _ _ _ _ _ _ _ _ _ _ Hr); pose proof (rv_id _ _ _ _ _ _ _ _ _ _ Hr'); congruence).
  pose proof (rv_row _ _ _ _ _ _ _ _ _ _ Hr') as Hrow. rewrite Hok in Hrow. simpl in Hrow. rewrite lookup_insert_eq in Hrow.
  injection Hrow as <-. pose proof (rv_status _ _ _ _ _ _ _ _ _ _ Hr') as Hs. discriminate Hs.
Qed.
End Facts.

(** The command is wider than the consumer: under a key id that is none of the pool's, it
    checks a result with the key of the pool, where the consumer has no key at all. *)
Theorem recovery_ignores_key_id pool key p d :
  filter (credential_for pool key) (credentials d) = [] -> wp_result_key_id p <> Some key ->
  recovery_key pool key p d = wp_result_public_key p /\ result_public_key pool key p d = None.
Proof.
  intros Hc Hk. unfold recovery_key, result_public_key. rewrite Hc. simpl. by rewrite bool_decide_eq_false_2.
Qed.

(** ** From the dead letter queue back to the results *)

(** The row the reconciler stores for a result. *)
Definition dead_letter_row (result : Result) (hash sealed : bytes) : Quarantined :=
  mkQuarantined (Some (r_JobID result)) (Some (r_ResultID result)) (Some (r_WorkerPoolID result)) (Some hash)
    "result DLQ recovery" sealed.
Definition open_row (row : Quarantined) (expires : Z) : QuarantineRow :=
  mkQuarantineRow "result" row 0 "quarantined" None None None expires.

Section DeadLetters.
Context {P : Primitives} {L : PrimitiveLaws}.

Lemma query_runs {O A} t (q : Z -> RecoveryDB -> option A) (w : World RecoveryDB O) a :
  w_faults w = [] -> q t (w_db w) = Some a -> query t (select_one q) w = (Ok a, w).
Proof.
  intros Hf Hq. unfold query. set (s := mkTx (w_db w) t false (w_uuid w) (w_next w) ([] : list fault)).
  erewrite (with_tx_run _ _ _ (Rollback a) s); [|done| |done].
  - destruct w as [d o u n fs]. simpl in *. by subst.
  - etrans; [apply (bind_run _ _ s a s)|done]. unfold select_one. erewrite sql_quiet; [|done|by simpl; rewrite Hq].
    change (w_db w) with (tx_db s). by rewrite set_tx_db_id.
Qed.

(** A result whose payload was sealed under its own identity opens again. *)
Lemma open_sealed key nonce body result hash sealed now expires :
  slen nonce = 12 -> PeekResult body = Ok result -> r_JobID result <> "" ->
  Quarantine.Seal (Some key) (Ok nonce) body ("result:" +:+ r_ResultID result) = Ok sealed -> now <= expires ->
  open_record (Some key) now (open_row (dead_letter_row result hash sealed) expires) = Ok (body, result).
Proof.
  intros Hn Hp Hj Hs Hx. pose proof (result_id_present _ _ Hp) as Hid.
  unfold Quarantine.Seal in Hs. destruct (_ || _ || _) eqn:Eb in Hs; [done|].
  apply orb_false_iff in Eb as [[Z1%Z.eqb_neq Z2%Z.ltb_ge]%orb_false_iff Z3%Z.ltb_ge]. pose proof (Zle_0_nat (String.length body)) as Z0.
  destruct (Quarantine.Open_Seal key nonce body ("result:" +:+ r_ResultID result) Hn) as (v & Hv & Ho & _);
    [unfold slen in *; lia|lia|].
  assert (v = sealed) as ->.
  { revert Hv. unfold Quarantine.Seal. rewrite (proj2 (Z.eqb_neq _ _) Z1), (proj2 (Z.ltb_ge _ _) Z2), (proj2 (Z.ltb_ge _ _) Z3).
    cbn [orb]. congruence. }
  set (r := open_row _ expires). unfold open_record, after.
  change (result_of_row r) with (r_ResultID result). change (job_of_row r) with (r_JobID result).
  change (pool_of_row r) with (r_WorkerPoolID result). change (qr_encrypted_payload (qq_row r)) with sealed.
  change (qq_expires_at r) with expires. rewrite (proj2 (Z.ltb_ge _ _) Hx), (eqb_empty _ Hid), (eqb_empty _ Hj), Ho.
  unfold mbind, res_bind. cbn. by rewrite Hp, !String.eqb_refl.
Qed.

Lemma reconciled_row uuid_in {O} pull ack key nonce started (w : World DB O) delivery o result hash sealed :
  w_faults w = [] -> pull "result" (w_ext w) = (Ok delivery, o) -> PeekResult (dl_Body delivery) = Ok result ->
  Quarantine.Seal (Some key) (Ok nonce) (dl_Body delivery) ("result:" +:+ r_ResultID result) = Ok sealed ->
  uuid_in (r_JobID result) = Some (r_JobID result) -> uuid_in (r_ResultID result) = Some (r_ResultID result) ->
  hex_decode (r_SnapshotHash result) = Some hash -> slen hash = 32 -> ~ quarantined (r_ResultID result) (w_db w) ->
  let '(res, w') := reconcile_result uuid_in pull ack (Some key) (Ok nonce) started w in
  quarantine (w_db w') = quarantine (w_db w) ++ [dead_letter_row result hash sealed] /\
  (res, w_ext w') = (match (ack delivery o).1 with Ok _ => Ok true | Err e => Err e end, (ack delivery o).2).
Proof.
  intros Hf Hpull Hp Hs Hj Hr Hh Hl Hq. unfold reconcile_result, mbind, SE_bind, try_, external. rewrite Hpull. cbn [fst snd].
  rewrite Hp. unfold of_res. rewrite Hs.
  set (w1 := mkWorld (w_db w) o (w_uuid w) (w_next w) (w_faults w)).
  set (s := mkTx (w_db w) started false (w_uuid w) (w_next w) ([] : list fault)).
  assert (exists s', quarantine_result_tx uuid_in (Ok result) sealed s = (Ok (Commit ()), s') /\ quiet s' /\
    quarantine (tx_db s') = quarantine (w_db w) ++ [dead_letter_row result hash sealed]) as (s' & Es & Hqs & Hdb).
  { unfold quarantine_result_tx, InsertResultDLQQuarantine, InsertMonitoringOperationalEvent, update, mbind, SE_bind.
    erewrite (sql_quiet _ s); [|done|].
    2: { unfold cast. simpl. rewrite Hj, Hr, Hh, Hl. simpl. rewrite decide_False by exact Hq. reflexivity. }
    erewrite sql_quiet; [|done|reflexivity]. eexists. split; [reflexivity|]. split; [done|reflexivity]. }
  rewrite (with_tx_run _ _ w1 _ _ Hf Es Hqs). cbn [w_ext w1]. destruct (ack delivery o) as [[[]|e] o'']; done.
Qed.

Lemma redrive_runs {O} `{!SQS O} source t2 quarantineID jobUUID r plain result id approver reason (w : World RecoveryDB O) sent o' :
  w_faults w = [] -> arguments_ok id approver reason = true -> optional source "WATCHTRACE_SQS_RESULT_QUEUE_URL" <> "" ->
  quarantine_rows (w_db w) !! quarantineID = Some r -> qq_status r = "quarantined" -> qq_redrive_count r < 3 ->
  SendMessage (redrive_message (optional source "WATCHTRACE_SQS_RESULT_QUEUE_URL") result plain (job_of_row r) (pool_of_row r)
    (result_of_row r)) (w_ext w) = (Ok sent, o') ->
  redrive source (Ok ()) t2 quarantineID jobUUID r plain result id approver reason w =
    (Ok (), mkWorld (redriven t2 quarantineID jobUUID r id approver reason (w_db w)) o' (w_uuid w) (w_next w) []).
Proof.
  intros Hf Ha Hu Hrow Hs Hc Hsend. unfold redrive, mbind, SE_bind, of_res, external. rewrite (eqb_empty _ Hu), Hsend. cbn [refuse_if].
  set (w1 := mkWorld (w_db w) o' (w_uuid w) (w_next w) (w_faults w)).
  set (s := mkTx (w_db w) t2 false (w_uuid w) (w_next w) ([] : list fault)).
  assert (within_octets approver 128 && within_octets reason 240 = true) as Ho.
  { unfold arguments_ok in Ha. apply negb_true_iff in Ha. repeat apply orb_false_iff in Ha as [Ha ?].
    unfold within_octets. rewrite !andb_true_iff, !Z.leb_le. repeat match goal with H : (_ <? _) = false |- _ => apply Z.ltb_ge in H end.
    assert (forall t, String.eqb t "" = false -> 1 <= slen t) as Hne by (intros [|c t]; [done|unfold slen; simpl; lia]).
    split; split; try lia; by apply Hne. }
  set (d' := redriven t2 quarantineID jobUUID r id approver reason (w_db w)).
  assert (redrive_tx quarantineID jobUUID r id approver reason s = (Ok (Commit ()), set_tx_db d' s)) as Es.
  { unfold redrive_tx, MarkQuarantineRedriven, InsertQueueRecoveryAudit, InsertQueueRecoveryOperationalEvent, update, mbind, SE_bind, try_.
    erewrite (sql_quiet _ s); [|done|].
    2: { simpl. rewrite Hrow, Hs, (proj2 (Z.ltb_lt _ _) Hc). reflexivity. }
    cbn [fst snd]. erewrite sql_quiet; [|done|by rewrite Ho].
    erewrite sql_quiet; [|done|reflexivity]. reflexivity. }
  rewrite (with_tx_run _ _ w1 _ _ Hf Es); [reflexivity|done].
Qed.

(** C34: a result that fell into the dead letter queue comes back unchanged: the record that
    the reconciler makes of it can be redriven as long as it is fresh and the pool of
    its job has the key that verifies it, and the message that the command sends is
    read by the consumer's queue as the very body and attributes of the result. *)
Theorem dead_letter_redriven Format Parse `{!TimeText Format Parse} {O : Type} `{!SQS O}
    uuid_in uuid_Parse source {O' : Type} (pull : string -> O' -> res DLQDelivery * O') ack key nonce started (w0 : World DB O')
    delivery o result hash sealed :
  (* the reconciler *)
  slen nonce = 12 -> w_faults w0 = [] -> pull "result" (w_ext w0) = (Ok delivery, o) -> PeekResult (dl_Body delivery) = Ok result ->
  Quarantine.Seal (Some key) (Ok nonce) (dl_Body delivery) ("result:" +:+ r_ResultID result) = Ok sealed ->
  uuid_in (r_JobID result) = Some (r_JobID result) -> uuid_in (r_ResultID result) = Some (r_ResultID result) ->
  hex_decode (r_SnapshotHash result) = Some hash -> slen hash = 32 -> ~ quarantined (r_ResultID result) (w_db w0) ->
  (* the command's settings *)
  load_sealer source = Ok (Some key) -> optional source "WATCHTRACE_SQS_RESULT_QUEUE_URL" <> "" ->
  uuid_Parse (r_JobID result) = Some (r_JobID result) ->
  let row := dead_letter_row result hash sealed in
  let message := result_message Format (mkDirect "" (optional source "WATCHTRACE_SQS_RESULT_QUEUE_URL") "") result (dl_Body delivery) in
    quarantine (w_db (reconcile_result uuid_in pull ack (Some key) (Ok nonce) started w0).2) = quarantine (w_db w0) ++ [row] /\
    attributesFromSQS Parse (sm_Attributes message) = Ok (ResultAttributes result) /\
    base64_decode (sm_Body message) = Some (dl_Body delivery) /\
    forall now t0 t1 t2 id quarantineID approver reason expires public st (w : World RecoveryDB O) sent o',
      w_faults w = [] -> arguments_ok id approver reason = true -> uuid_Parse id = Some quarantineID ->
      quarantine_rows (w_db w) !! quarantineID = Some (open_row row expires) -> now <= expires ->
      recovery_verification (r_JobID result) (r_ResultKeyID result) (r_WorkerPoolID result) (engine_tables (w_db w))
        = Some (Some public, st) ->
      VerifyResult (dl_Body delivery) public = Ok result ->
      SendMessage message (w_ext w) = (Ok sent, o') ->
      run source uuid_Parse (Ok ()) (Ok ()) now t0 t1 t2 id true approver reason w =
        (Ok (), mkWorld (redriven t2 quarantineID (r_JobID result) (open_row row expires) id approver reason (w_db w)) o'
                  (w_uuid w) (w_next w) []).
Proof.
  intros Hn Hf Hpull Hp Hs Hj Hr Hh Hl Hq Hk Hu Hpj. pose proof (ResultAttributes_routable _ _ Hp) as [Hro Hid].
  intros row message. split.
  { pose proof (reconciled_row uuid_in pull ack key nonce started w0 delivery o result hash sealed Hf Hpull Hp Hs Hj Hr Hh Hl Hq) as H.
    by destruct (reconcile_result _ _ _ _ _ _ w0) as [? ?], H as [H _]. }
  split; [exact (carries_parses _ _ Hro (attributesToSQS_carries _ Hro))|].
  split; [apply base64_decode_encode|].
  intros now t0 t1 t2 id q approver reason expires public st w sent o' Hw Ha Hi Hrow Hx Hv Hver Hsend. subst row.
  unfold run, mbind, SE_bind, of_res, databaseUUID. rewrite Ha, Hk, Hi. cbn [negb refuse_if or_else].
  unfold GetQuarantineRecord, GetRecoveryResultVerification. rewrite (query_runs t0 _ w _ Hw Hrow).
  rewrite (open_sealed key nonce _ result hash sealed now expires Hn Hp (ra_job _ Hro) Hs Hx). cbn [fst snd].
  change (job_of_row (open_row (dead_letter_row result hash sealed) expires)) with (r_JobID result).
  change (pool_of_row (open_row (dead_letter_row result hash sealed) expires)) with (r_WorkerPoolID result).
  rewrite Hpj. cbn [or_else]. rewrite (query_runs t1 _ w _ Hw Hv). cbn [fst snd].
  change (default "" (Some public)) with public. rewrite Hver. cbn [negb].
  apply (redrive_runs source t2 q (r_JobID result) (open_row (dead_letter_row result hash sealed) expires)
    (dl_Body delivery) result id approver reason w sent o'); try done.
  etrans; [|exact Hsend]. subst message. by rewrite <- (redrive_message_is_result Format).
Qed.
End DeadLetters.

(** A result in the dead letter queue, and the settings of the command. *)
Module OneRecord.
Definition key : bytes := Toy.rep 32 "q"%char.
Definition nonce : bytes := Toy.rep 12 "n"%char.
Definition source : commandSource := mkSource
  (fun name => if String.eqb name "WATCHTRACE_DATABASE_URL" then Some "postgres://db"
               else if String.eqb name "WATCHTRACE_QUARANTINE_KEY" then Some "key"
               else if String.eqb name "WATCHTRACE_SQS_RESULT_QUEUE_URL" then Some "results" else None)
  (fun path => if String.eqb path "key" then Some (base64_encode key) else None).
Definition dead_letter : DLQDelivery := mkDLQ "result" "m" (ResultAttributes Toy.result) "receipt".
Definition pull (kind : string) (n : nat) : res DLQDelivery * nat := (Ok dead_letter, n).
Definition ack (_ : DLQDelivery) (n : nat) : res () * nat := (Ok (), S n).
Definition dead : World DB nat := OneResult.world OneResult.db.
Definition sealed : bytes := nonce +:+ gcm_seal (Primitives := Toy.primitives) key nonce "m" "result:r1".
Definition db : RecoveryDB :=
  mkRecoveryDB OneResult.db {["q1" := open_row (dead_letter_row Toy.result OneResult.hash sealed) 1000]} [].
Definition world : World RecoveryDB MemoryQueue.state := mkWorld db [] (fun _ => "") 0 [].
End OneRecord.

Lemma dead_letter_redriven_witness :
  quarantine (w_db (reconcile_result (P := Toy.primitives) Some OneRecord.pull OneRecord.ack (Some OneRecord.key)
    (Ok OneRecord.nonce) 0 OneRecord.dead).2) = [dead_letter_row Toy.result OneResult.hash OneRecord.sealed] /\
  (run (P := Toy.primitives) OneRecord.source Some (Ok ()) (Ok ()) 500 0 0 600 "q1" true "operator" "reviewed" OneRecord.world).1 = Ok ().
Proof.
  destruct (dead_letter_redriven (P := Toy.primitives) (L := Toy.laws) Rfc3339.Format MemoryQueue.parse
    (O := MemoryQueue.state) Some Some OneRecord.source OneRecord.pull OneRecord.ack OneRecord.key OneRecord.nonce 0 OneRecord.dead
    OneRecord.dead_letter 0%nat Toy.result OneResult.hash OneRecord.sealed) as (Hq & _ & _ & Hrun);
    [vm_compute; reflexivity..| |vm_compute; reflexivity|vm_compute; discriminate|vm_compute; reflexivity|].
  - vm_compute. intros H. inversion H.
  - split; [exact Hq|].
    erewrite (Hrun 500 0 0 600 "q1" "q1" "operator" "reviewed" 1000 (Toy.rep 32 "k"%char) JPublished OneRecord.world "id");
      [reflexivity|reflexivity|vm_compute; reflexivity|reflexivity|reflexivity|done|vm_compute; reflexivity|vm_compute; reflexivity|reflexivity].
Defined.
