(* ===== verification/Operations.v ===== *)
(** * Operations: platform health, maintenance and cleanup

    Models internal/operations (service.go, sqs.go, disk_unix.go) with
    db/queries/operations.sql, and the turns of the two background loops that report to
    it: the maintenance of cmd/monitor-engine and the cleanup of cmd/api.

    [OpsDB] gathers the tables of the components these turns run on, with the columns
    that only this package reads: updated_at of a notification, created_at of an
    accepted check, and the rows of maintenance_status.  The metrics of a queue, the
    file system and the clock are parameters; the percentage of the disk is exact.
    [EXTRACT(EPOCH FROM ...)::bigint] rounds to the nearest second.  The timers of the
    loops are not modelled.

    The theorems: whatever fails, a cleanup deletes only what is old and settled, all of
    it or nothing; the statuses keep their five tasks and never lose their last success;
    reading the health changes nothing, and its figures are bounded; the engine's
    maintenance reports a failure for as long as the cleanup of the ledger is blocked. *)

From stdpp Require Import base gmap list strings sorting.
From Stdlib Require Import ZArith Lia Ascii String QArith_base.
From S2P Require Import Prelude Tx Store Reliability Bytes Envelope Sealing Scheduler Publisher Consumer Ledger.
From S2P Require Import Destination Workqueue Accounts Ownership Rollups Realtime Config Startup.

#[local] Open Scope Z_scope.

(** ** Tables *)

(** maintenance_status. *)
Record MaintenanceRow : Type := mkMaintenanceRow {
  mt_last_started_at : option Z;
  mt_last_success_at : option Z;
  mt_last_failure_at : option Z;
  mt_last_safe_error : option string;
  mt_rows_affected : Z;
  mt_updated_at : Z
}.

Record OpsDB : Type := mkOpsDB {
  ops_rollups : RollupDB;
  ops_auth : AuthDB;
  ops_invitations : gmap string InvitationRow;
  ops_events : gmap Z EventRow;
  ops_settled : gmap string Z;                  (* notification_outbox.updated_at *)
  ops_stored : gmap string Z;                   (* health_checks.created_at *)
  ops_status : gmap string MaintenanceRow
}.

Definition ops_tables (d : OpsDB) : DB := Rollups.tables (ops_rollups d).
Definition on_ops_rollups (f : RollupDB -> RollupDB) (d : OpsDB) : OpsDB :=
  mkOpsDB (f (ops_rollups d)) (ops_auth d) (ops_invitations d) (ops_events d) (ops_settled d) (ops_stored d) (ops_status d).
Definition on_ops_tables (f : DB -> DB) : OpsDB -> OpsDB := on_ops_rollups (Rollups.on_tables f).
Definition on_ops_auth (f : AuthDB -> AuthDB) (d : OpsDB) : OpsDB :=
  mkOpsDB (ops_rollups d) (f (ops_auth d)) (ops_invitations d) (ops_events d) (ops_settled d) (ops_stored d) (ops_status d).
Definition on_ops_invitations (f : gmap string InvitationRow -> gmap string InvitationRow) (d : OpsDB) : OpsDB :=
  mkOpsDB (ops_rollups d) (ops_auth d) (f (ops_invitations d)) (ops_events d) (ops_settled d) (ops_stored d) (ops_status d).
Definition on_ops_events (f : gmap Z EventRow -> gmap Z EventRow) (d : OpsDB) : OpsDB :=
  mkOpsDB (ops_rollups d) (ops_auth d) (ops_invitations d) (f (ops_events d)) (ops_settled d) (ops_stored d) (ops_status d).
Definition on_ops_status (f : gmap string MaintenanceRow -> gmap string MaintenanceRow) (d : OpsDB) : OpsDB :=
  mkOpsDB (ops_rollups d) (ops_auth d) (ops_invitations d) (ops_events d) (ops_settled d) (ops_stored d) (f (ops_status d)).

(** ** Statements *)

(** [EXTRACT(EPOCH FROM d)::bigint]: halves are rounded away from zero. *)
Definition epoch_bigint (d : Z) : Z := Z.sgn d * ((2 * Z.abs d + second) / (2 * second)).
Definition rows {A} (P : A -> Prop) `{!forall x, Decision (P x)} (t : gmap string A) : Z :=
  Z.of_nat (Datatypes.length (filter (fun x => P x.2) (map_to_list t))).
Definition newest_of (l : list Z) : option Z := last (merge_sort Z.le l).

Definition outstanding (r : NotificationRow) : Prop := nt_state r = DPending \/ nt_state r = DLeased.
#[global] Instance outstanding_dec r : Decision (outstanding r).
Proof. unfold outstanding. apply _. Defined.
Definition finished (r : NotificationRow) : Prop := nt_state r = DAccepted \/ nt_state r = DFailed.
#[global] Instance finished_dec r : Decision (finished r).
Proof. unfold finished. apply _. Defined.

Definition CountPendingNotifications : Tx OpsDB Z := select (fun _ d => rows outstanding (notification_outbox (ops_tables d))).

Definition CountRecentCoverageGaps : Tx OpsDB Z := select (fun now d =>
  Z.of_nat (Datatypes.length (filter (fun x => now - 24 * hour < x.1.1.2) (map_to_list (coverage_gaps (ops_tables d)))))).

Definition GetOldestPendingNotification : Tx OpsDB Z := select_one (fun _ d =>
  oldest ((fun x => nt_created_at x.2) <$> filter (fun x => outstanding x.2) (map_to_list (notification_outbox (ops_tables d))))).

Definition GetRecentCheckCounts : Tx OpsDB (Z * Z) := select (fun now d =>
  (rows (fun c => now - 24 * hour < hc_completed_at c) (health_checks (ops_tables d)),
   rows (fun c => now - 24 * hour < hc_completed_at c /\ hc_succeeded c = false) (health_checks (ops_tables d)))).

Definition stored_checks (d : OpsDB) : list Z := omap (fun x => ops_stored d !! x.1) (map_to_list (health_checks (ops_tables d))).
Definition GetResultConsumerDelaySeconds : Tx OpsDB Z := select (fun now d =>
  match newest_of (stored_checks d) with Some t => epoch_bigint (now - t) | None => 0 end).

Definition late_monitors (now : Z) (d : DB) : list Z :=
  (fun x => mon_next_check_at x.2) <$>
    filter (fun x => mon_deleted_at x.2 = None /\ mon_paused_at x.2 = None /\ mon_next_check_at x.2 < now) (map_to_list (monitors d)).
Definition GetSchedulerDelaySeconds : Tx OpsDB Z := select (fun now d =>
  match oldest (late_monitors now (ops_tables d)) with Some t => epoch_bigint (now - t) | None => 0 end).

Definition ListMaintenanceStatuses : Tx OpsDB (list (string * MaintenanceRow)) := select (fun _ d =>
  (fun x => (x.1.2, x.2)) <$> order_by_key ((fun x => ((0, x.1), x.2)) <$> map_to_list (ops_status d))).

(** [COALESCE($n, column)]. *)
Definition coalesce {A} (a b : option A) : option A := match a with Some _ => a | None => b end.
Definition record_run (now started count : Z) (success failure : option Z) (safe : option string) (r : MaintenanceRow) : MaintenanceRow :=
  mkMaintenanceRow (Some started) (coalesce success (mt_last_success_at r)) (coalesce failure (mt_last_failure_at r)) safe count now.
Definition UpdateMaintenanceStatus (task : string) (started count : Z) (success failure : option Z) (safe : option string) : Tx OpsDB Z :=
  sql (fun now d =>
    match ops_status d !! task with
    | Some r =>
        if count <? 0 then (Err ErrCheckViolation, d)
        else (Ok 1, on_ops_status <[task := record_run now started count success failure safe r]> d)
    | None => (Ok 0, d)
    end).

(** *** Deletion *)

Definition earlier (t : option Z) (limit : Z) : bool := match t with Some t => t <? limit | None => false end.

Definition stale_token (now : Z) (r : ActionRow) : bool := (ut_expires_at r <? now) || earlier (ut_used_at r) (now - 7 * day).
Definition stale_invitation (now : Z) (r : InvitationRow) : bool :=
  (iv_expires_at r <? now - 7 * day) || earlier (iv_accepted_at r) (now - 7 * day).
Definition stale_delivery (now : Z) (d : OpsDB) (id : string) (r : NotificationRow) : bool :=
  bool_decide (finished r) && earlier (ops_settled d !! id) (now - 30 * day).
Definition stale_event (now : Z) (r : EventRow) : bool := er_occurred_at r <? now - day.

Definition keep_rows {K} `{Countable K} {A} (stale : K -> A -> bool) (t : gmap K A) : gmap K A := filter (fun x => stale x.1 x.2 = false) t.
Definition dropped {K} `{Countable K} {A} (stale : K -> A -> bool) (t : gmap K A) : Z :=
  Z.of_nat (size t) - Z.of_nat (size (keep_rows stale t)).

Definition DeleteExpiredUserActionTokens (now : Z) : Tx OpsDB Z := sql (fun _ d =>
  (Ok (dropped (fun _ => stale_token now) (user_action_tokens (ops_auth d))),
   on_ops_auth (on_actions (keep_rows (fun _ => stale_token now))) d)).

Definition DeleteExpiredOrganizationInvitations (now : Z) : Tx OpsDB Z := sql (fun _ d =>
  (Ok (dropped (fun _ => stale_invitation now) (ops_invitations d)), on_ops_invitations (keep_rows (fun _ => stale_invitation now)) d)).

(** The attempts of a deleted delivery go with it. *)
Definition drop_deliveries (now : Z) (d : OpsDB) : OpsDB :=
  let gone id := match notification_outbox (ops_tables d) !! id with Some r => stale_delivery now d id r | None => false end in
  on_ops_tables (fun e => on_notification_outbox (keep_rows (stale_delivery now d))
                            (on_notification_attempts (keep_rows (fun k _ => gone k.1)) e)) d.
Definition DeleteOldNotificationDeliveries (now : Z) : Tx OpsDB Z := sql (fun _ d =>
  (Ok (dropped (stale_delivery now d) (notification_outbox (ops_tables d))), drop_deliveries now d)).

Definition DeleteOldRefreshEvents (now : Z) : Tx OpsDB Z := sql (fun _ d =>
  (Ok (dropped (fun _ => stale_event now) (ops_events d)), on_ops_events (keep_rows (fun _ => stale_event now)) d)).

(** ** Health *)

Record Maintenance : Type := mkMaintenance {
  mv_Task : string;
  mv_LastStartedAt : option Z;
  mv_LastSuccessAt : option Z;
  mv_LastFailureAt : option Z;
  mv_LastSafeError : option string;
  mv_RowsAffected : Z
}.

Record QueueState : Type := mkQueueState { qs_Configured : bool; qs_Available : Z; qs_InFlight : Z; qs_Delayed : Z }.

Record TransportHealth : Type := mkTransport {
  th_Reachable : bool;
  th_Jobs : QueueState;
  th_Results : QueueState;
  th_JobDLQ : QueueState;
  th_ResultDLQ : QueueState
}.

Record DiskHealth : Type := mkDisk { dk_Known : bool; dk_FreeBytes : Z; dk_UsedPercent : Q }.

Record Health : Type := mkHealth {
  h_GeneratedAt : Z;
  h_DatabaseDelayMilliseconds : Z;
  h_SchedulerDelaySeconds : Z;
  h_ResultConsumerDelaySeconds : Z;
  h_MissedChecks : Z;
  h_CompletedChecks : Z;
  h_FailedChecks : Z;
  h_NotificationPending : Z;
  h_NotificationOldestAgeSeconds : Z;
  h_Queue : Metrics;
  h_Transport : TransportHealth;
  h_Maintenance : list Maintenance;
  h_Disk : DiskHealth
}.

(** [unix.Statfs(".")]: blocks, free blocks, blocks of unprivileged users, block size. *)
Record Statfs : Type := mkStatfs { sf_Blocks : Z; sf_Bfree : Z; sf_Bavail : Z; sf_Bsize : Z }.

Definition readDiskHealth (s : option Statfs) : DiskHealth :=
  match s with
  | Some s =>
      if sf_Blocks s =? 0 then mkDisk false 0 0
      else mkDisk true (uint64 (sf_Bavail s * uint64 (sf_Bsize s)))
             (inject_Z (uint64 (sf_Blocks s - sf_Bfree s)) / inject_Z (sf_Blocks s) * 100)%Q
  | None => mkDisk false 0 0
  end.

(** *** The queues *)

Definition parseCount (value : string) : Z :=
  match ParseInt 64 value with Some count => if count <? 0 then 0 else count | None => 0 end.

Definition idle : QueueState := mkQueueState false 0 0 0.
Definition attribute (m : gmap string string) (name : string) : string := default "" (m !! name).
Definition state_of (m : gmap string string) : QueueState :=
  mkQueueState true (parseCount (attribute m "ApproximateNumberOfMessages"))
    (parseCount (attribute m "ApproximateNumberOfMessagesNotVisible"))
    (parseCount (attribute m "ApproximateNumberOfMessagesDelayed")).

Section Transport.
Context {O : Type} (GetQueueAttributes : string -> O -> res (gmap string string) * O).

(** One turn of the loop: the state of the queue and the error it adds. *)
Definition read_queue (url : string) (o : O) : QueueState * option error * O :=
  if String.eqb url "" then (idle, None, o)
  else match GetQueueAttributes url o with
       | (Ok m, o) => (state_of m, None, o)
       | (Err e, o) => (mkQueueState true 0 0 0, Some e, o)
       end.

Definition read_queues (urls : QueueURLs) (o : O) : TransportHealth * option error * O :=
  let '(jobs, e1, o) := read_queue (q_Jobs urls) o in
  let '(results, e2, o) := read_queue (q_Results urls) o in
  let '(job_dlq, e3, o) := read_queue (q_JobDLQ urls) o in
  let '(result_dlq, e4, o) := read_queue (q_ResultDLQ urls) o in
  let failed := coalesce (coalesce (coalesce e1 e2) e3) e4 in
  (mkTransport (is_none failed) jobs results job_dlq result_dlq, failed, o).
End Transport.

(** The health is returned beside the error; [errors.Join] is represented by the first
    of the errors.  [None] is the nil client. *)
Definition ReadTransportHealth {O} (client : option (string -> O -> res (gmap string string) * O)) (urls : QueueURLs) (o : O) :
    TransportHealth * option error * O :=
  match client with
  | None => (mkTransport false idle idle idle idle, None, o)
  | Some get => read_queues get urls o
  end.

(** *** The service *)

(** A component on its part of the tables. *)
Definition on_part {D O A} (get : OpsDB -> D) (put : D -> OpsDB -> OpsDB) (m : SE (World D O) A) : SE (World OpsDB O) A := fun w =>
  let '(r, w') := m (mkWorld (get (w_db w)) (w_ext w) (w_uuid w) (w_next w) (w_faults w)) in
  (r, mkWorld (put (w_db w') (w_db w)) (w_ext w') (w_uuid w') (w_next w') (w_faults w')).
Definition on_engine_part {O A} : SE (World DB O) A -> SE (World OpsDB O) A := on_part ops_tables (fun e => on_ops_tables (fun _ => e)).
Definition on_rollup_part {O A} : SE (World RollupDB O) A -> SE (World OpsDB O) A := on_part ops_rollups (fun e => on_ops_rollups (fun _ => e)).
Definition on_auth_part {O A} : SE (World AuthDB O) A -> SE (World OpsDB O) A := on_part ops_auth (fun e => on_ops_auth (fun _ => e)).

Definition maintenance_view (x : string * MaintenanceRow) : Maintenance :=
  mkMaintenance x.1 (mt_last_started_at x.2) (mt_last_success_at x.2) (mt_last_failure_at x.2) (mt_last_safe_error x.2) (mt_rows_affected x.2).

(** The figures of the database. *)
Record Figures : Type := mkFigures {
  fg_scheduler : Z; fg_consumer : Z; fg_missed : Z; fg_checks : Z * Z; fg_pending : Z; fg_oldest : Z; fg_tasks : list Maintenance
}.

Definition age_seconds (started : Z) (oldest : option Z) : Z :=
  match oldest with Some t => Z.max 0 (Z.quot (time_sub started t) second) | None => 0 end.

Definition health_tx (started : Z) : Tx OpsDB (TxEnd Figures) :=
  scheduler ← GetSchedulerDelaySeconds;
  consumer ← GetResultConsumerDelaySeconds;
  missed ← CountRecentCoverageGaps;
  checks ← GetRecentCheckCounts;
  pending ← CountPendingNotifications;
  found ← try_ GetOldestPendingNotification;
  oldest ← match found with Ok t => mret (Some t) | Err ErrNoRows => mret None | Err e => throw e end;
  tasks ← ListMaintenanceStatuses;
  mret (Commit (mkFigures scheduler consumer missed checks pending (age_seconds started oldest) (maintenance_view <$> tasks))).

Section Service.
Context {O : Type} (client : option (string -> O -> res (gmap string string) * O)) (urls : QueueURLs).

(** [started] and [ended] are readings of the clock; the transactions begin at [t] and [t1]. *)
Definition Read (t started ended t1 : Z) (disk : option Statfs) : SE (World OpsDB O) Health :=
  f ← with_tx t (health_tx started);
  queue ← on_engine_part (ReadMetrics t1 started);
  transport ← external (fun o => let '(health, failed, o) := ReadTransportHealth client urls o in
                                 (match failed with Some e => Err e | None => Ok health end, o));
  mret (mkHealth started (Z.quot (time_sub ended started) (1000 * microsecond)) (fg_scheduler f) (fg_consumer f) (fg_missed f)
          (fg_checks f).1 (fg_checks f).2 (fg_pending f) (fg_oldest f) queue transport (fg_tasks f) (readDiskHealth disk)).

(** [Record]; [failed] is the error of the run, [ended] the clock when it is recorded. *)
Definition RecordRun (t ended : Z) (task : string) (started count : Z) (failed : option error) : SE (World OpsDB O) () :=
  with_tx t (
    if count <? 0 then throw (ErrorsNew "invalid maintenance count") else
    rowsAffected ← UpdateMaintenanceStatus task started count
      (if failed then None else Some ended) (if failed then Some ended else None)
      (if failed then Some "maintenance_failed" else None);
    if negb (rowsAffected =? 1) then throw (ErrorsNew "unknown maintenance task") else mret (Commit ())).

Definition cleanup_tx (now : Z) : Tx OpsDB (TxEnd Z) :=
  c0 ← DeleteExpiredUserActionTokens now;
  c1 ← DeleteExpiredOrganizationInvitations now;
  c2 ← DeleteOldNotificationDeliveries now;
  c3 ← DeleteOldRefreshEvents now;
  mret (Commit (c0 + c1 + c2 + c3)).

Definition CleanupExpired (t now : Z) : SE (World OpsDB O) Z := with_tx t (cleanup_tx now).
End Service.

(** ** The turns of the loops *)

Definition count_of_run (r : res Z) : Z := match r with Ok n => n | Err _ => 0 end.
Definition failure {A} (r : res A) : option error := match r with Ok _ => None | Err e => Some e end.

Section Turns.
Context {O : Type}.
(** The clock, call by call. *)
Context (clock : nat -> Z).

(** [maintain] of cmd/monitor-engine. *)
Definition maintain (now : Z) : SE (World OpsDB O) () :=
  let started := clock 0%nat in
  leased ← try_ (on_engine_part (ReclaimPublisherLeases (clock 1%nat)));
  expired ← try_ (on_engine_part (SweepDeadlines (clock 2%nat)));
  deleted ← try_ (on_engine_part (CleanupLedger (clock 3%nat) now));
  let queueErr := coalesce (coalesce (failure leased) (failure expired)) (failure deleted) in
  _ ← ignore (RecordRun (clock 4%nat) (clock 5%nat) "queue_maintenance" started
        (count_of_run leased + count_of_run expired + count_of_run deleted) queueErr);
  let started := clock 6%nat in
  kept ← try_ (on_rollup_part (Maintain (fun n => clock (10 + n)%nat) now));
  ignore (RecordRun (clock 7%nat) (clock 8%nat) "rollup_retention" started 0 (failure kept)).

(** [cleanup] of cmd/api. *)
Definition cleanup : SE (World OpsDB O) () :=
  let started := clock 0%nat in
  sessions ← try_ (on_auth_part (CleanupSessions (clock 1%nat)));
  _ ← ignore (RecordRun (clock 2%nat) (clock 3%nat) "session_cleanup" started (count_of_run sessions) (failure sessions));
  expired ← try_ (CleanupExpired (clock 4%nat) started);
  ignore (RecordRun (clock 5%nat) (clock 6%nat) "notification_cleanup" started (count_of_run expired) (failure expired)).

(** cmd/maintenance record-backup-success. *)
Definition record_backup : SE (World OpsDB O) () :=
  let started := clock 0%nat in
  RecordRun (clock 1%nat) (clock 2%nat) "backup" started 1 None.
End Turns.

(** ** What a cleanup deletes *)

Lemma keep_rows_lookup {K} `{Countable K} {A} (stale : K -> A -> bool) (t : gmap K A) k a :
  keep_rows stale t !! k = Some a <-> t !! k = Some a /\ stale k a = false.
Proof. unfold keep_rows. by rewrite map_lookup_filter_Some. Qed.

Lemma keep_rows_old {K} `{Countable K} {A} (stale : K -> A -> bool) (t : gmap K A) k a :
  t !! k = Some a -> keep_rows stale t !! k = Some a \/ stale k a = true.
Proof. intros Hk. destruct (stale k a) eqn:E; [by right|left]. by apply keep_rows_lookup. Qed.

(** Everything old is gone. *)
Definition swept (now : Z) (d : OpsDB) : OpsDB :=
  on_ops_events (keep_rows (fun _ => stale_event now))
    (drop_deliveries now
      (on_ops_invitations (keep_rows (fun _ => stale_invitation now)) (on_ops_auth (on_actions (keep_rows (fun _ => stale_token now))) d))).

Definition stale_rows (now : Z) (d : OpsDB) : Z :=
  dropped (fun _ => stale_token now) (user_action_tokens (ops_auth d)) + dropped (fun _ => stale_invitation now) (ops_invitations d)
  + dropped (stale_delivery now d) (notification_outbox (ops_tables d)) + dropped (fun _ => stale_event now) (ops_events d).

Lemma cleanup_tx_ok now s e s' : cleanup_tx now s = (Ok e, s') ->
  e = Commit (stale_rows now (tx_db s)) /\ tx_db s' = swept now (tx_db s).
Proof.
  unfold cleanup_tx. intros H. apply bind_ok in H as (c0 & s0 & [[= E0 D0] _]%sql_ok & H).
  apply bind_ok in H as (c1 & s1 & [[= E1 D1] _]%sql_ok & H). apply bind_ok in H as (c2 & s2 & [[= E2 D2] _]%sql_ok & H).
  apply bind_ok in H as (c3 & s3 & [[= E3 D3] _]%sql_ok & H). apply ret_ok in H as [<- <-].
  split; [|by rewrite <- D3, <- D2, <- D1, <- D0].
  rewrite <- E3, <- E2, <- E1, <- E0, <- D2, <- D1, <- D0. reflexivity.
Qed.

Lemma cleanup_tx_calm now : calm (cleanup_tx now).
Proof.
  unfold cleanup_tx. repeat (apply calm_bind; [by apply calm_sql|intros ?]). apply calm_ret.
Qed.

(** What a cleanup may and may not do: every row it removes is past its time. *)
Record spared (now : Z) (d d' : OpsDB) : Prop := {
  sp_tokens id r : user_action_tokens (ops_auth d) !! id = Some r ->
    user_action_tokens (ops_auth d') !! id = Some r \/
    ut_expires_at r < now \/ exists t, ut_used_at r = Some t /\ t < now - 7 * day;
  sp_invitations id r : ops_invitations d !! id = Some r ->
    ops_invitations d' !! id = Some r \/
    iv_expires_at r < now - 7 * day \/ exists t, iv_accepted_at r = Some t /\ t < now - 7 * day;
  sp_deliveries id r : notification_outbox (ops_tables d) !! id = Some r ->
    notification_outbox (ops_tables d') !! id = Some r \/
    finished r /\ exists t, ops_settled d !! id = Some t /\ t < now - 30 * day;
  sp_attempts id n a : notification_attempts (ops_tables d) !! (id, n) = Some a ->
    notification_attempts (ops_tables d') !! (id, n) = Some a \/
    (is_Some (notification_outbox (ops_tables d) !! id) /\ notification_outbox (ops_tables d') !! id = None);
  sp_events id r : ops_events d !! id = Some r -> ops_events d' !! id = Some r \/ er_occurred_at r < now - day;
  sp_nothing_new : user_action_tokens (ops_auth d') ⊆ user_action_tokens (ops_auth d) /\ ops_invitations d' ⊆ ops_invitations d /\
    notification_outbox (ops_tables d') ⊆ notification_outbox (ops_tables d) /\
    notification_attempts (ops_tables d') ⊆ notification_attempts (ops_tables d) /\ ops_events d' ⊆ ops_events d;
  sp_rest : d' = mkOpsDB (Rollups.on_tables (fun e => on_notification_outbox (fun _ => notification_outbox (ops_tables d'))
                   (on_notification_attempts (fun _ => notification_attempts (ops_tables d')) e)) (ops_rollups d))
                   (on_actions (fun _ => user_action_tokens (ops_auth d')) (ops_auth d)) (ops_invitations d') (ops_events d')
                   (ops_settled d) (ops_stored d) (ops_status d)
}.

Lemma earlier_true t limit : earlier t limit = true -> exists x, t = Some x /\ x < limit.
Proof. destruct t as [x|]; [|done]. intros H%Z.ltb_lt. by exists x. Qed.

Lemma spared_refl now d : spared now d d.
Proof. destruct d as [[[]] []]. constructor; cbn; eauto. Qed.

Lemma keep_rows_sub {K} `{Countable K} {A} (stale : K -> A -> bool) (t : gmap K A) : keep_rows stale t ⊆ t.
Proof. apply map_filter_subseteq. Qed.

Lemma swept_spares now d : spared now d (swept now d).
Proof.
  constructor.
  - intros id r Hr. destruct (keep_rows_old (fun _ => stale_token now) _ _ _ Hr) as [H|H]; [by left|right].
    apply orb_true_iff in H as [H%Z.ltb_lt|H%earlier_true]; auto.
  - intros id r Hr. destruct (keep_rows_old (fun _ => stale_invitation now) _ _ _ Hr) as [H|H]; [by left|right].
    apply orb_true_iff in H as [H%Z.ltb_lt|H%earlier_true]; auto.
  - intros id r Hr. destruct (keep_rows_old (stale_delivery now d) _ _ _ Hr) as [H|H]; [by left|right].
    apply andb_true_iff in H as [H1%bool_decide_eq_true H2%earlier_true]. done.
  - intros id n a Ha.
    set (gone := fun i => match notification_outbox (ops_tables d) !! i with Some r => stale_delivery now d i r | None => false end).
    destruct (keep_rows_old (fun k _ => gone k.1) _ _ _ Ha) as [H|H]; [by left|right]. unfold gone in H. cbn [fst] in H.
    destruct (notification_outbox (ops_tables d) !! id) as [r|] eqn:Er; [|done]. split; [by eexists|].
    apply eq_None_not_Some. intros (r' & [Hr' Hs]%keep_rows_lookup). change (notification_outbox (ops_tables d) !! id = Some r') in Hr'.
    rewrite Er in Hr'. injection Hr' as <-. change (stale_delivery now d id r = false) in Hs. congruence.
  - intros id r Hr. destruct (keep_rows_old (fun _ => stale_event now) _ _ _ Hr) as [H|H]; [by left|right]. by apply Z.ltb_lt in H.
  - split_and!; apply keep_rows_sub.
  - by destruct d as [[[]] []].
Qed.

(** C35: whatever fails, a cleanup is all or nothing and deletes only what its time has passed:
    a token that expired or was used a week ago, an invitation that expired or was
    accepted a week ago, a delivery that was settled a month ago (with its attempts), an
    event older than a day.  A delivery that is pending or leased, a usable token and an
    open invitation stay, nothing else changes, and a cleanup that reports a number
    deleted everything that was old, that many rows. *)
Theorem cleanup_safe {O} t now (w : World OpsDB O) :
  let '(r, w') := CleanupExpired t now w in
  spared now (w_db w) (w_db w') /\ (w_db w' = w_db w \/ w_db w' = swept now (w_db w)) /\
  (forall n, r = Ok n -> w_db w' = swept now (w_db w) /\ n = stale_rows now (w_db w)) /\
  (w_faults w = [] -> is_ok r = true).
Proof.
  destruct (CleanupExpired t now w) as [r w'] eqn:E.
  assert (w_db w' = w_db w \/ w_db w' = swept now (w_db w)) as Hd.
  { apply with_tx_db in E as [E|(fs & x & s & Hb & E)]; [by left|right]. rewrite E. by apply cleanup_tx_ok in Hb as [_ Hb]. }
  split; [destruct Hd as [->| ->]; [apply spared_refl|apply swept_spares]|]. split; [done|]. split.
  - intros n ->. apply with_tx_ok in E as (_ & fs & s & [(Hb & _ & E)|(Hb & _)]);
      apply cleanup_tx_ok in Hb as [Hn Hs]; [|done]. injection Hn as ->. by rewrite E.
  - intros Hf. destruct (with_tx_calm t (cleanup_tx now) w Hf (cleanup_tx_calm now)) as (n & w1 & E1 & _).
    unfold CleanupExpired in E. rewrite E1 in E. by injection E as <- <-.
Qed.

(** ** The statuses of the tasks *)

(** The rows the migration inserts. *)
Definition tasks : gset string := {["session_cleanup"; "queue_maintenance"; "rollup_retention"; "notification_cleanup"; "backup"]}.

Record statuses_ok (d : OpsDB) : Prop := {
  so_tasks : dom (ops_status d) = tasks;
  so_rows : map_Forall (fun _ r => 0 <= mt_rows_affected r /\
    (mt_last_safe_error r = None \/ mt_last_safe_error r = Some "maintenance_failed")) (ops_status d)
}.

(** What was known of a task is not forgotten. *)
Definition remembers (s : gmap string MaintenanceRow) (d : OpsDB) : Prop := forall task r, s !! task = Some r ->
  exists r', ops_status d !! task = Some r' /\
    (is_Some (mt_last_success_at r) -> is_Some (mt_last_success_at r')) /\
    (is_Some (mt_last_failure_at r) -> is_Some (mt_last_failure_at r')).
Definition status_inv (s : gmap string MaintenanceRow) (d : OpsDB) : Prop := statuses_ok d /\ remembers s d.

Lemma coalesce_some {A} (a b : option A) : is_Some b -> is_Some (coalesce a b).
Proof. by destruct a. Qed.

Lemma status_frame s d d' : ops_status d' = ops_status d -> status_inv s d -> status_inv s d'.
Proof. intros E [[H1 H2] H3]. split; [by split; rewrite E|]. intros task r Hr. rewrite E. by apply H3. Qed.

Section Statuses.
Context {O : Type} (s : gmap string MaintenanceRow).

Lemma keeps_part {D A} (get : OpsDB -> D) put (m : SE (World D O) A) :
  (forall e d, ops_status (put e d) = ops_status d) -> keeps (w_inv (status_inv s)) (on_part get put m).
Proof.
  intros Hp w Hw. unfold on_part. destruct (m _) as [r w']. pose proof (status_frame s _ _ (Hp (w_db w') _) Hw) as H. by destruct r.
Qed.

Lemma keeps_run_record t ended task started count failed :
  keeps (w_inv (O := O) (status_inv s)) (RecordRun t ended task started count failed).
Proof.
  unfold RecordRun. apply keeps_with_tx. destruct (count <? 0) eqn:Ec; [apply keeps_throw|]. apply Z.ltb_ge in Ec.
  apply keeps_bind; [|intros n; destruct (negb _); [apply keeps_throw|apply keeps_ret]].
  apply keeps_sql. intros now d n d' [[H1 H2] H3]. destruct (ops_status d !! task) as [r|] eqn:Er; [|by intros [= _ <-]].
  destruct (count <? 0); [done|]. intros [= _ <-]. split; [split|].
  - cbn. rewrite dom_insert_L, H1. apply (elem_of_dom_2 (D := gset string)) in Er. set_solver.
  - cbn. apply map_Forall_insert_2; [|done]. cbn. split; [done|]. destruct failed; auto.
  - intros task' r' Hr'. cbn. destruct (H3 _ _ Hr') as (r1 & Hr1 & Hs & Hf). destruct (decide (task' = task)) as [->|Hne].
    + rewrite lookup_insert_eq. rewrite Er in Hr1. injection Hr1 as <-. eexists. split; [done|]. cbn.
      split; intros; apply coalesce_some; auto.
    + rewrite lookup_insert_ne by done. eauto.
Qed.

Lemma keeps_cleanup t now : keeps (w_inv (O := O) (status_inv s)) (CleanupExpired t now).
Proof.
  unfold CleanupExpired, cleanup_tx. apply keeps_with_tx.
  unfold DeleteExpiredUserActionTokens, DeleteExpiredOrganizationInvitations, DeleteOldNotificationDeliveries, DeleteOldRefreshEvents.
  repeat first [apply keeps_sql; intros ? d ? ? Hi [= _ <-]; refine (status_frame s d _ _ Hi); reflexivity|keep_step].
Qed.

Lemma keeps_turns clock now :
  keeps (w_inv (O := O) (status_inv s)) (maintain clock now) /\ keeps (w_inv (O := O) (status_inv s)) (cleanup clock) /\
  keeps (w_inv (O := O) (status_inv s)) (record_backup clock).
Proof.
  unfold maintain, cleanup, record_backup, on_engine_part, on_rollup_part, on_auth_part. split_and!;
    repeat first [apply keeps_run_record|apply keeps_cleanup|apply keeps_part; intros; reflexivity|keep_step].
Qed.
End Statuses.

(** The background work that reports its status, in any order and with any failures. *)
Inductive background {O} : World OpsDB O -> World OpsDB O -> Prop :=
| bg_maintain clock now w : background w (maintain clock now w).2
| bg_cleanup clock w : background w (cleanup clock w).2
| bg_backup clock w : background w (record_backup clock w).2
| bg_record t ended task started count failed w : background w (RecordRun t ended task started count failed w).2.

(** However maintenance, cleanup and backup run and fail, the status table keeps exactly
    the five tasks of the migration, no other text than the fixed safe error is stored
    and no negative count, and a task never loses the time of its last success or
    failure. *)
Theorem statuses_kept {O} (w w' : World OpsDB O) : rtc background w w' -> statuses_ok (w_db w) ->
  statuses_ok (w_db w') /\ remembers (ops_status (w_db w)) (w_db w').
Proof.
  intros Hr Hi. set (s := ops_status (w_db w)). assert (status_inv s (w_db w)) as Hw by (split; [done|]; intros task r H; by exists r).
  clearbody s. clear Hi. induction Hr as [w|w1 w2 w3 Hs Hr IH]; [exact Hw|]. apply IH.
  destruct Hs; apply (keeps_final (w_inv (status_inv s))); try exact Hw.
  - exact (proj1 (keeps_turns s clock now)).
  - exact (proj1 (proj2 (keeps_turns s clock 0))).
  - exact (proj2 (proj2 (keeps_turns s clock 0))).
  - apply keeps_run_record.
Qed.

(** ** Reading the health *)

Record health_ok (d : OpsDB) (h : Health) : Prop := {
  ho_scheduler : 0 <= h_SchedulerDelaySeconds h;
  ho_checks : 0 <= h_FailedChecks h <= h_CompletedChecks h;
  ho_counts : 0 <= h_MissedChecks h /\ 0 <= h_NotificationPending h /\ 0 <= h_NotificationOldestAgeSeconds h;
  ho_tasks : maintenance_view <$> map_to_list (ops_status d) ≡ₚ h_Maintenance h;
  ho_queues q : q ∈ [th_Jobs (h_Transport h); th_Results (h_Transport h); th_JobDLQ (h_Transport h); th_ResultDLQ (h_Transport h)] ->
    0 <= qs_Available q <= max_int64 /\ 0 <= qs_InFlight q <= max_int64 /\ 0 <= qs_Delayed q <= max_int64
}.

Lemma parseCount_bound v : 0 <= parseCount v <= max_int64.
Proof.
  unfold parseCount, ParseInt. destruct (Atoi v) as [n|]; simpl; [|done].
  destruct (_ && _) eqn:E; [|done]. apply andb_true_iff in E as [_ E%Z.leb_le]. destruct (n <? 0) eqn:En; [done|].
  apply Z.ltb_ge in En. unfold max_int64. simpl in E. lia.
Qed.

Definition counted (q : QueueState) : Prop :=
  0 <= qs_Available q <= max_int64 /\ 0 <= qs_InFlight q <= max_int64 /\ 0 <= qs_Delayed q <= max_int64.

Lemma read_queue_counted {O} get url (o : O) : counted (read_queue get url o).1.1.
Proof.
  unfold read_queue. destruct (String.eqb url ""); [done|]. destruct (get url o) as [[m|e] o']; [|done].
  unfold counted. simpl. split_and!; apply parseCount_bound.
Qed.

Lemma ReadTransportHealth_counted {O} client urls (o : O) :
  let h := (ReadTransportHealth client urls o).1.1 in
  forall q, q ∈ [th_Jobs h; th_Results h; th_JobDLQ h; th_ResultDLQ h] -> counted q.
Proof.
  destruct client as [get|]; simpl.
  - unfold read_queues.
    pose proof (read_queue_counted get (q_Jobs urls) o) as H1. destruct (read_queue get (q_Jobs urls) o) as [[s1 e1] o1].
    pose proof (read_queue_counted get (q_Results urls) o1) as H2. destruct (read_queue get (q_Results urls) o1) as [[s2 e2] o2].
    pose proof (read_queue_counted get (q_JobDLQ urls) o2) as H3. destruct (read_queue get (q_JobDLQ urls) o2) as [[s3 e3] o3].
    pose proof (read_queue_counted get (q_ResultDLQ urls) o3) as H4. destruct (read_queue get (q_ResultDLQ urls) o3) as [[s4 e4] o4].
    simpl in *. intros q Hq. repeat (apply elem_of_cons in Hq as [->|Hq]; [done|]). by apply not_elem_of_nil in Hq.
  - intros q Hq. repeat (apply elem_of_cons in Hq as [->|Hq]; [done|]). by apply not_elem_of_nil in Hq.
Qed.

Lemma rows_sub {A} (P Q : A -> Prop) `{!forall x, Decision (P x)} `{!forall x, Decision (Q x)} (t : gmap string A) :
  (forall x, P x -> Q x) -> 0 <= rows P t <= rows Q t.
Proof.
  intros Hpq. unfold rows. split; [lia|]. apply Nat2Z.inj_le. induction (map_to_list t) as [|x l IH]; [done|].
  rewrite !filter_cons. repeat case_decide; simpl; try lia. naive_solver.
Qed.

Lemma epoch_bigint_nonneg d : 0 <= d -> 0 <= epoch_bigint d.
Proof.
  intros Hd. unfold epoch_bigint, second. apply Z.mul_nonneg_nonneg; [lia|]. apply Z.div_pos; lia.
Qed.

Lemma oldest_elem l t : oldest l = Some t -> t ∈ l.
Proof.
  unfold oldest. intros H. rewrite <- (merge_sort_Permutation Z.le l). destruct (merge_sort Z.le l) as [|x l']; [done|].
  injection H as <-. left.
Qed.

Lemma health_tx_ok started s e s' : health_tx started s = (Ok e, s') ->
  tx_db s' = tx_db s /\ exists f, e = Commit f /\
  0 <= fg_scheduler f /\ 0 <= (fg_checks f).2 <= (fg_checks f).1 /\ 0 <= fg_missed f /\ 0 <= fg_pending f /\ 0 <= fg_oldest f /\
  maintenance_view <$> map_to_list (ops_status (tx_db s)) ≡ₚ fg_tasks f.
Proof.
  unfold health_tx. intros H. apply bind_ok in H as (a1 & s1 & [H1 [D1 _]]%select_ok & H).
  apply bind_ok in H as (a2 & s2 & [_ [D2 _]]%select_ok & H). apply bind_ok in H as (a3 & s3 & [H3 [D3 _]]%select_ok & H).
  apply bind_ok in H as (a4 & s4 & [H4 [D4 _]]%select_ok & H). apply bind_ok in H as (a5 & s5 & [H5 [D5 _]]%select_ok & H).
  apply bind_ok in H as (a6 & s6 & [[D6 _] _]%try_select_one_ok & H). apply bind_ok in H as (a7 & s7 & H7 & H).
  assert (s7 = s6) as -> by (destruct a6 as [?|[]]; by inversion H7).
  apply bind_ok in H as (a8 & s8 & [H8 [D8 _]]%select_ok & H). apply ret_ok in H as [<- <-].
  split; [congruence|]. eexists. split; [done|]. cbn. split_and!.
  - rewrite H1. destruct (oldest _) as [t|] eqn:Eo; [|done]. apply oldest_elem, list_elem_of_fmap in Eo as ([i m] & -> & Hm).
    apply list_elem_of_filter in Hm as [(_ & _ & Hm) _]. apply epoch_bigint_nonneg. simpl in *. lia.
  - rewrite H4. cbn [fst snd]. unfold rows. lia.
  - rewrite H4. cbn [fst snd]. apply rows_sub. tauto.
  - rewrite H3. lia.
  - rewrite H5. unfold rows. lia.
  - unfold age_seconds. destruct a7; lia.
  - rewrite H8, D6, D5, D4, D3, D2, D1. rewrite <- list_fmap_compose. 
    rewrite order_perm. rewrite <- list_fmap_compose. apply reflexive_eq, list_fmap_ext. by intros ? [].
Qed.

Lemma metrics_read_only {O} t now (w : World DB O) : w_db (ReadMetrics t now w).2 = w_db w.
Proof.
  apply (keeps_final (w_inv (fun d => d = w_db w)) _ w); [|done].
  unfold ReadMetrics, GetCheckJobStateCounts, GetDispatchStateCounts, GetOldestNonterminalDispatch, GetOldestActiveCheckJob, Ledger.optional. keep.
Qed.

Lemma same_part d : on_ops_tables (fun _ => ops_tables d) d = d.
Proof. by destruct d as [[]]. Qed.

(** Reading the health changes no table, whatever fails; what it reports is bounded: no
    negative figure, no more failed checks than checks, one entry for every task, and of
    the queues counts within an int64, whatever text the queue service answers. *)
Theorem Read_bounded {O} client urls t started ended t1 disk (w : World OpsDB O) :
  let '(r, w') := Read client urls t started ended t1 disk w in
  w_db w' = w_db w /\ (forall h, r = Ok h -> health_ok (w_db w) h).
Proof.
  unfold Read, mbind, SE_bind. destruct (with_tx t (health_tx started) w) as [r1 w1] eqn:E1.
  assert (w_db w1 = w_db w) as D1.
  { apply with_tx_db in E1 as [E|(fs & x & s & Hb & E)]; [done|]. rewrite E. by apply health_tx_ok in Hb as [-> _]. }
  destruct r1 as [f|]; [|split; [done|discriminate]].
  apply with_tx_ok in E1 as (_ & fs & s & [(Hb & _)|(Hb & _)]); apply health_tx_ok in Hb as (_ & f' & Ef & Hf); [|discriminate].
  injection Ef as <-.
  unfold on_engine_part, on_part. pose proof (metrics_read_only t1 started
    (mkWorld (ops_tables (w_db w1)) (w_ext w1) (w_uuid w1) (w_next w1) (w_faults w1))) as D2. simpl in D2.
  destruct (ReadMetrics _ _ _) as [[q|] w2]; simpl in D2; rewrite D2, same_part, D1; [|split; [done|discriminate]].
  unfold external. cbn [w_ext]. pose proof (ReadTransportHealth_counted client urls (w_ext w2)) as Hq.
  destruct (ReadTransportHealth client urls (w_ext w2)) as [[th e] o]. cbn [fst] in Hq.
  destruct e as [e|]; (split; [done|]); [discriminate|]. intros h [= <-].
  destruct Hf as (F1 & F2 & F3 & F4 & F5 & F6). by constructor.
Qed.

(** ** The maintenance of the engine *)

Lemma RecordRun_runs {O} t ended task started count failed (w : World OpsDB O) r :
  w_faults w = [] -> 0 <= count -> ops_status (w_db w) !! task = Some r ->
  RecordRun t ended task started count failed w =
    (Ok (), mkWorld (on_ops_status <[task := record_run t started count (if failed then None else Some ended)
                       (if failed then Some ended else None) (if failed then Some "maintenance_failed" else None) r]> (w_db w))
              (w_ext w) (w_uuid w) (w_next w) []).
Proof.
  intros Hf Hc Hr. unfold RecordRun. rewrite (proj2 (Z.ltb_ge _ _) Hc).
  set (s := mkTx (w_db w) t false (w_uuid w) (w_next w) ([] : list fault)).
  erewrite with_tx_run; [|done| |].
  2: { unfold UpdateMaintenanceStatus, mbind, SE_bind. erewrite (sql_quiet _ s); [|done|].
       2: { simpl. rewrite Hr, (proj2 (Z.ltb_ge _ _) Hc). reflexivity. }
       reflexivity. }
  - reflexivity.
  - done.
Qed.

(** Runs of a component that go through without a fault. *)
Lemma part_runs {D O A} get put (m : SE (World D O) A) (w : World OpsDB O) r w' :
  m (mkWorld (get (w_db w)) (w_ext w) (w_uuid w) (w_next w) (w_faults w)) = (r, w') ->
  on_part get put m w = (r, mkWorld (put (w_db w') (w_db w)) (w_ext w') (w_uuid w') (w_next w') (w_faults w')).
Proof. intros E. unfold on_part. by rewrite E. Qed.

Definition stuck_job (now : Z) (id : string) (d : DB) : Prop := exists j t, check_jobs d !! id = Some j /\ cj_state j = JCompleted /\
  cj_completed_at j = Some t /\ t < now - 48 * hour /\ is_Some (health_checks d !! id).

Lemma sweep_count now d : 0 <= Z.of_nat (size (coverage_gaps (sweep now d))) - Z.of_nat (size (coverage_gaps d)).
Proof.
  unfold sweep. cbn. induction (overdue_jobs now d) as [|x l IH]; simpl; [lia|].
  unfold add_gap at 1. destruct (foldr _ _ l !! _) eqn:E; [done|]. rewrite map_size_insert_None by done. lia.
Qed.

Lemma one_statement_runs {D O} t (q : Z -> D -> res Z * D) n d' (w : World D O) : w_faults w = [] -> q t (w_db w) = (Ok n, d') ->
  with_tx t (count ← sql q; mret (Commit count)) w = (Ok n, mkWorld d' (w_ext w) (w_uuid w) (w_next w) []).
Proof.
  intros Hf Hq. set (s := mkTx (w_db w) t false (w_uuid w) (w_next w) ([] : list fault)).
  erewrite with_tx_run; [|done| |].
  2: { unfold mbind, SE_bind. erewrite (sql_quiet _ s); [|done|exact Hq]. reflexivity. }
  - reflexivity.
  - done.
Qed.

Lemma stuck_after now t id d : stuck_job now id d -> stuck_job now id (reclaim t d) /\ stuck_job now id (sweep t d).
Proof.
  intros (j & c & Hj & Hs & Hc & Hlt & Hh). split; exists j, c.
  - by split_and!.
  - split_and!; [|done..]. simpl. unfold expire_overdue. rewrite map_lookup_imap, Hj. simpl. unfold overdue. by rewrite Hs.
Qed.

(** For as long as one completed job is older than 48 hours while its check is kept (seven
    days), every turn of the engine's maintenance records a failure of the queue
    maintenance and no success, whatever else it did. *)
Theorem queue_maintenance_blocked {O} clock now (w : World OpsDB O) id r :
  w_faults w = [] -> stuck_job now id (ops_tables (w_db w)) -> ops_status (w_db w) !! "queue_maintenance" = Some r ->
  exists r', ops_status (w_db (maintain clock now w).2) !! "queue_maintenance" = Some r' /\
    mt_last_failure_at r' = Some (clock 5%nat) /\ mt_last_success_at r' = mt_last_success_at r /\
    mt_last_safe_error r' = Some "maintenance_failed".
Proof.
  intros Hf Hj Hr. unfold maintain.
  set (leased := Z.of_nat (Datatypes.length (filter (fun x => interrupted (clock 1%nat) x.2 = true) (map_to_list (outbox (ops_tables (w_db w))))))).
  set (d1 := on_ops_tables (fun _ => reclaim (clock 1%nat) (ops_tables (w_db w))) (w_db w)).
  set (w1 := mkWorld d1 (w_ext w) (w_uuid w) (w_next w) []).
  assert (on_engine_part (ReclaimPublisherLeases (clock 1%nat)) w = (Ok leased, w1)) as E1.
  { unfold on_engine_part. erewrite part_runs; [|by apply (one_statement_runs (clock 1%nat))]. reflexivity. }
  destruct (stuck_after now (clock 1%nat) id _ Hj) as [Hj1 _]. change (stuck_job now id (ops_tables d1)) in Hj1.
  set (expired := Z.of_nat (size (coverage_gaps (sweep (clock 2%nat) (ops_tables d1)))) - Z.of_nat (size (coverage_gaps (ops_tables d1)))).
  set (d2 := on_ops_tables (fun _ => sweep (clock 2%nat) (ops_tables d1)) d1).
  set (w2 := mkWorld d2 (w_ext w) (w_uuid w) (w_next w) []).
  assert (on_engine_part (SweepDeadlines (clock 2%nat)) w1 = (Ok expired, w2)) as E2.
  { unfold on_engine_part. erewrite part_runs; [|by apply (one_statement_runs (clock 2%nat))]. reflexivity. }
  destruct (stuck_after now (clock 2%nat) id _ Hj1) as [_ (j & c & Hj2 & Hs & Hc & Hlt & [h Hh])].
  assert (on_engine_part (CleanupLedger (clock 3%nat) now) w2 = (Err ErrForeignKeyViolation, w2)) as E3.
  { set (we := mkWorld (ops_tables d2) (w_ext w) (w_uuid w) (w_next w) ([] : list fault)).
    unfold on_engine_part. erewrite part_runs; [|by apply (CleanupLedger_blocked _ _ we id j h c)]. unfold we, w2. cbn [w_db w_ext w_uuid w_next w_faults].
    by rewrite same_part. }
  assert (0 <= leased + expired + 0) as Hn by (pose proof (sweep_count (clock 2%nat) (ops_tables d1)); unfold leased, expired; lia).
  set (r' := record_run (clock 4%nat) (clock 0%nat) (leased + expired + 0) None (Some (clock 5%nat)) (Some "maintenance_failed") r).
  pose proof (RecordRun_runs (clock 4%nat) (clock 5%nat) "queue_maintenance" (clock 0%nat) (leased + expired + 0)
    (Some ErrForeignKeyViolation) w2 r eq_refl Hn Hr) as E4.
  exists r'. split; [|done]. unfold mbind at 1, SE_bind at 1, try_ at 1. rewrite E1. cbn [fst snd].
  unfold mbind at 1, SE_bind at 1, try_ at 1. rewrite E2. cbn [fst snd].
  unfold mbind at 1, SE_bind at 1, try_ at 1. rewrite E3. cbn [fst snd failure coalesce count_of_run].
  unfold mbind at 1, SE_bind at 1, ignore at 1, try_ at 1. unfold mbind at 1, SE_bind at 1. rewrite E4. cbn [fst snd mret SE_ret].
  match goal with |- ops_status (w_db (?m ?w3).2) !! _ = _ =>
    apply (keeps_final (w_inv (fun d => ops_status d !! "queue_maintenance" = Some r')) m w3) end;
    [|unfold w_inv; simpl; by rewrite lookup_insert_eq].
  apply keeps_bind; [apply keeps_try|intros kept; apply keeps_ignore].
  - intros w3 Hw3. unfold on_rollup_part, on_part. by destruct (Maintain _ _ _) as [[] ?].
  - unfold RecordRun. keep. apply keeps_sql. intros t d n d' Hd. destruct (ops_status d !! "rollup_retention"); [|by intros [= _ <-]].
    destruct (0 <? 0); [done|]. intros [= _ <-]. simpl. by rewrite lookup_insert_ne.
Qed.

(** The statuses as the migration inserts them, beside a job whose check is three days old. *)
Module FreshStatuses.
Definition never_ran : MaintenanceRow := mkMaintenanceRow None None None None 0 0.
Definition statuses : gmap string MaintenanceRow := set_to_map (fun task => (task, never_ran)) tasks.
Definition db : OpsDB := mkOpsDB (mkRollupDB OldJob.db ∅ ∅ 0 0 None) (mkAuthDB ∅ ∅ ∅ ∅) ∅ ∅ ∅ ∅ statuses.
Definition world : World OpsDB () := mkWorld db () (fun _ => "") 0 [].
Definition clock (n : nat) : Z := 72 * hour + Z.of_nat n.

Lemma fresh_ok : statuses_ok db.
Proof.
  split; [vm_compute; reflexivity|]. apply (bool_decide_unpack _). vm_compute. exact I.
Qed.
Lemma old_job_stuck : stuck_job (72 * hour) "j" (ops_tables db).
Proof. exists OldJob.job, 2. repeat split; try reflexivity. by exists OldJob.check. Qed.
End FreshStatuses.

Lemma queue_maintenance_blocked_witness :
  exists r', ops_status (w_db (maintain FreshStatuses.clock (72 * hour) FreshStatuses.world).2) !! "queue_maintenance" = Some r' /\
    mt_last_failure_at r' = Some (FreshStatuses.clock 5%nat) /\ mt_last_success_at r' = None /\
    mt_last_safe_error r' = Some "maintenance_failed".
Proof.
  apply (queue_maintenance_blocked FreshStatuses.clock (72 * hour) FreshStatuses.world "j" FreshStatuses.never_ran);
    [reflexivity|exact FreshStatuses.old_job_stuck|vm_compute; reflexivity].
Defined.

Lemma statuses_kept_witness :
  statuses_ok (w_db (record_backup FreshStatuses.clock FreshStatuses.world).2) /\
  remembers FreshStatuses.statuses (w_db (record_backup FreshStatuses.clock FreshStatuses.world).2).
Proof.
  apply (statuses_kept FreshStatuses.world); [|exact FreshStatuses.fresh_ok]. apply rtc_once, bg_backup.
Defined.
