(* ===== verification/Deployment.v ===== *)
(** * Deployment: the inventory of a deployment and its keys

    Models internal/deploymentmanifest (the manifest of queues and roles and its
    comparison with what is deployed), internal/deploymentkeys (generation and check of
    the key files), internal/artifact (signed checksums) and the worker-pool command.

    The cloud services are parameters: what they answer when they are read.  So are
    JSON, url.Parse and the random source.  A [range] over a map visits its entries in
    the order given by a parameter.  The texts of errors name the entry they concern. *)

From stdpp Require Import base gmap list strings sorting.
From Stdlib Require Import ZArith Lia Ascii String Bool.
From S2P Require Import Prelude Tx Store Bytes Envelope Sealing Destination HttpClient Workqueue Gateway.
From S2P Require Import Credentials Mail Pools Config Startup Rfc3339.
Import Secureheaders.

#[local] Open Scope Z_scope.

(** ** The manifest *)
Module Manifest.
Definition Version : Z := 1.

Definition environmentPattern (s : string) : bool := String.eqb s "dev" || String.eqb s "stg" || String.eqb s "prod".
Definition lower_hex (c : ascii) : bool := ((48 <=? val_of c) && (val_of c <=? 57)) || ((97 <=? val_of c) && (val_of c <=? 102)).
Definition fingerprintPattern (s : string) : bool := (slen s =? 64) && forall_char lower_hex s.

Record Queue : Type := mkQueue {
  qu_Name : string;
  qu_URL : string;
  qu_ARN : string;
  qu_VisibilityTimeoutSeconds : Z;
  qu_MessageRetentionSeconds : Z;
  qu_ReceiveWaitTimeSeconds : Z;
  qu_MaxReceiveCount : Z;
  qu_DeadLetterQueueARN : string;
  qu_SSE : string;
  qu_ContentBasedDeduplication : bool;
  qu_PolicyFingerprintSHA256 : string;
  qu_RedriveAllowSourceARNs : list string
}.

Record Role : Type := mkRole { ro_Name : string; ro_PolicyFingerprintSHA256 : string; ro_TrustFingerprintSHA256 : string }.

Record Manifest : Type := mkManifest {
  mf_Version : Z;
  mf_Environment : string;
  mf_AWSRegion : string;
  mf_Queues : gmap string Queue;
  mf_Roles : gmap string Role;
  mf_Gateway : gmap string string;
  mf_Tags : gmap string string
}.

(** *** Validation *)

Record Expected : Type := mkExpected { ex_suffix : string; ex_visibility : Z; ex_retention : Z; ex_wait : Z; ex_receives : Z }.
Definition expected : list (string * Expected) :=
  [("jobs", mkExpected "check-jobs-hosted.fifo" 90 345600 20 5);
   ("results", mkExpected "check-results.fifo" 120 345600 20 10);
   ("jobs_dlq", mkExpected "check-jobs-hosted-dlq.fifo" 120 1209600 0 0);
   ("results_dlq", mkExpected "check-results-dlq.fifo" 120 1209600 0 0)].

Definition queue_as_expected (m : Manifest) (want : Expected) (queue : Queue) : bool :=
  String.eqb (qu_Name queue) ("watchtrace-" +:+ mf_Environment m +:+ "-" +:+ ex_suffix want)
  && nonempty (qu_URL queue) && nonempty (qu_ARN queue)
  && (qu_VisibilityTimeoutSeconds queue =? ex_visibility want) && (qu_MessageRetentionSeconds queue =? ex_retention want)
  && (qu_ReceiveWaitTimeSeconds queue =? ex_wait want) && String.eqb (qu_SSE queue) "SSE-SQS"
  && negb (qu_ContentBasedDeduplication queue) && (qu_MaxReceiveCount queue =? ex_receives want)
  && fingerprintPattern (qu_PolicyFingerprintSHA256 queue).

(** The account of an ARN of a queue: arn:partition:sqs:region:account:name. *)
Definition queue_account (m : Manifest) (queue : Queue) : option string :=
  match split_char ":" (qu_ARN queue) with
  | [arn; _; service; region; account; name] =>
      if String.eqb arn "arn" && String.eqb service "sqs" && String.eqb region (mf_AWSRegion m) && nonempty account
         && String.eqb name (qu_Name queue)
      then Some account else None
  | _ => None
  end.

Section Validate.
Context `{UrlLib}.

Definition queue_url_ok (queue : Queue) : bool :=
  match url_Parse (qu_URL queue) with
  | Some parsed => nonempty (u_Scheme parsed) && String.eqb (path_Base (u_Path parsed)) (qu_Name queue)
  | None => false
  end.

(** One turn of the loop over the queues: the account of the queue. *)
Definition validate_queue (m : Manifest) (key : string) (want : Expected) : res string :=
  match mf_Queues m !! key with
  | None => Err (ErrorsNew ("invalid queue manifest: " +:+ key))
  | Some queue =>
      _ ← refuse_if (negb (queue_as_expected m want queue)) ("invalid queue manifest: " +:+ key);
      match (if queue_url_ok queue then queue_account m queue else None) with
      | None => Err (ErrorsNew ("invalid queue identity: " +:+ key))
      | Some account =>
          _ ← refuse_if ((0 <? ex_receives want) && String.eqb (qu_DeadLetterQueueARN queue) "") ("missing redrive target: " +:+ key);
          _ ← refuse_if ((ex_receives want =? 0) && negb (Datatypes.length (qu_RedriveAllowSourceARNs queue) =? 1)%nat)
                ("invalid redrive allow sources: " +:+ key);
          Ok account
      end
  end.

Fixpoint validate_all (m : Manifest) (order : list (string * Expected)) : res (gset string) :=
  match order with
  | [] => Ok ∅
  | (key, want) :: order => account ← validate_queue m key want; accounts ← validate_all m order; Ok ({[account]} ∪ accounts)
  end.

(** A missing entry of a map reads as the zero value. *)
Definition no_queue : Queue := mkQueue "" "" "" 0 0 0 0 "" "" false "" [].
Definition queue_of (m : Manifest) (key : string) : Queue := default no_queue (mf_Queues m !! key).
Definition first_source (q : Queue) : string := default "" (head (qu_RedriveAllowSourceARNs q)).

Definition routed (m : Manifest) (accounts : gset string) : bool :=
  (size accounts =? 1)%nat
  && String.eqb (qu_DeadLetterQueueARN (queue_of m "jobs")) (qu_ARN (queue_of m "jobs_dlq"))
  && String.eqb (qu_DeadLetterQueueARN (queue_of m "results")) (qu_ARN (queue_of m "results_dlq"))
  && String.eqb (first_source (queue_of m "jobs_dlq")) (qu_ARN (queue_of m "jobs"))
  && String.eqb (first_source (queue_of m "results_dlq")) (qu_ARN (queue_of m "results")).

Fixpoint validate_tags (m : Manifest) (wanted : list (string * string)) : res () :=
  match wanted with
  | [] => Ok ()
  | (key, value) :: wanted =>
      if negb (String.eqb (default "" (mf_Tags m !! key)) value) then Err (ErrorsNew ("invalid deployment tag: " +:+ key))
      else validate_tags m wanted
  end.
Definition required_tags (m : Manifest) : list (string * string) :=
  [("Application", "WatchTrace"); ("Environment", mf_Environment m); ("Phase", "1")].

Definition requiredRoles : list string :=
  ["job_publisher"; "hosted_worker"; "queue_gateway"; "result_consumer"; "dlq_reconciler"; "infrastructure_operator"].
Fixpoint validate_roles (m : Manifest) (keys : list string) : res () :=
  match keys with
  | [] => Ok ()
  | key :: keys =>
      match mf_Roles m !! key with
      | Some role =>
          if String.eqb (ro_Name role) "" || negb (fingerprintPattern (ro_PolicyFingerprintSHA256 role))
             || negb (fingerprintPattern (ro_TrustFingerprintSHA256 role))
          then Err (ErrorsNew ("invalid role fingerprint: " +:+ key)) else validate_roles m keys
      | None => Err (ErrorsNew ("invalid role fingerprint: " +:+ key))
      end
  end.

(** [order] and [tags]: the two maps, in the order in which they are visited. *)
Definition Validate (order : list (string * Expected)) (tags : list (string * string)) (m : Manifest) : res () :=
  _ ← refuse_if (negb (mf_Version m =? Version) || negb (environmentPattern (mf_Environment m)) || String.eqb (mf_AWSRegion m) ""
        || negb (size (mf_Queues m) =? 4)%nat) "invalid deployment manifest identity";
  accounts ← validate_all m order;
  _ ← refuse_if (negb (routed m accounts)) "queue routing inventory is inconsistent";
  _ ← validate_tags m tags;
  validate_roles m requiredRoles.

(** A file of more than 1 MiB cannot be read to its end; the decoder refuses unknown fields. *)
Definition Load (read_file : string -> option bytes) (decode_strict : bytes -> option Manifest) (order : list (string * Expected))
    (tags : Manifest -> list (string * string)) (path : string) : res Manifest :=
  data ← or_else (read_file path) "no such file";
  manifest ← or_else (if 1024 * 1024 <? slen data then None else decode_strict data) "decode deployment manifest";
  _ ← Validate order (tags manifest) manifest;
  Ok manifest.
End Validate.

(** *** What is deployed *)

(** The answers of the queue service, by name or URL of a queue. *)
Record SQSAPI : Type := mkSQSAPI {
  GetQueueUrl : string -> res string;
  GetQueueAttributes : string -> res (gmap string string);
  ListQueueTags : string -> res (gmap string string);
  ListDeadLetterSourceQueues : string -> res (list string)
}.

(** The JSON of policies: the two redrive documents (a missing member reads as the empty
    text, a number as its literal), and a document rewritten in the encoder's form. *)
Class PolicyJSON : Type := {
  redrive_policy : string -> option (string * string);
  allow_policy : string -> option (string * list string);
  reencode : string -> option bytes
}.

Section Verify.
Context `{UrlLib} {P : Primitives} {J : PolicyJSON}.

Definition fingerprintJSON (value : string) : res string :=
  if String.eqb (TrimSpace value) "" then Err (ErrorsNew "missing JSON policy")
  else decoded ← or_else (QueryUnescape value) "invalid URL escape";
       canonical ← or_else (reencode decoded) "invalid JSON";
       Ok (hex_encode (sha256 canonical)).

Definition sameStrings (left right : list string) : bool :=
  (Datatypes.length left =? Datatypes.length right)%nat && bool_decide (merge_sort str_le left = merge_sort str_le right).

Definition arnResource (value : string) : string :=
  match split_char ":" value with [_; _; _; _; _; name] => name | _ => "" end.

Definition FormatBool (b : bool) : string := if b then "true" else "false".

(** [strings.Trim(s, quote)]. *)
Fixpoint trim_quote_left (s : string) : string :=
  match s with String c r => if val_of c =? 34 then trim_quote_left r else s | "" => "" end.
Fixpoint trim_quote_right (s : string) : string :=
  match s with
  | "" => ""
  | String c r => let r := trim_quote_right r in if (val_of c =? 34) && String.eqb r "" then "" else String c r
  end.
Definition trim_quotes (s : string) : string := trim_quote_right (trim_quote_left s).

Definition attribute_of (m : gmap string string) (name : string) : string := default "" (m !! name).
Definition attribute_checks (queue : Queue) : list (string * string) :=
  [("QueueArn", qu_ARN queue); ("FifoQueue", "true"); ("ContentBasedDeduplication", FormatBool (qu_ContentBasedDeduplication queue));
   ("VisibilityTimeout", Itoa (qu_VisibilityTimeoutSeconds queue)); ("MessageRetentionPeriod", Itoa (qu_MessageRetentionSeconds queue));
   ("ReceiveMessageWaitTimeSeconds", Itoa (qu_ReceiveWaitTimeSeconds queue)); ("SqsManagedSseEnabled", "true")].

(** The first entry whose value differs. *)
Definition drifted (actual : gmap string string) (wanted : list (string * string)) : option string :=
  fst <$> head (filter (fun x => attribute_of actual x.1 <> x.2) wanted).
Definition no_drift (actual : gmap string string) (wanted : list (string * string)) (text : string) : res () :=
  match drifted actual wanted with Some name => Err (ErrorsNew (text +:+ "/" +:+ name)) | None => Ok () end.

Definition verify_redrive (client : SQSAPI) (key url : string) (queue : Queue) (attributes : gmap string string) : res () :=
  if 0 <? qu_MaxReceiveCount queue then
    match redrive_policy (attribute_of attributes "RedrivePolicy") with
    | Some (target, count) =>
        refuse_if (negb (String.eqb target (qu_DeadLetterQueueARN queue))
          || negb (String.eqb (trim_quotes count) (Itoa (qu_MaxReceiveCount queue)))) ("queue redrive drift: " +:+ key)
    | None => Err (ErrorsNew ("queue redrive drift: " +:+ key))
    end
  else
    _ ← match allow_policy (attribute_of attributes "RedriveAllowPolicy") with
        | Some (permission, sources) =>
            refuse_if (negb (String.eqb permission "byQueue") || negb (sameStrings sources (qu_RedriveAllowSourceARNs queue)))
              ("queue redrive allow drift: " +:+ key)
        | None => Err (ErrorsNew ("queue redrive allow drift: " +:+ key))
        end;
    match ListDeadLetterSourceQueues client url with
    | Ok [source] => refuse_if (negb (String.eqb (path_Base source) (arnResource (first_source queue)))) ("queue redrive source drift: " +:+ key)
    | _ => Err (ErrorsNew ("queue redrive source drift: " +:+ key))
    end.

(** [checks] and [tags]: the two maps in the order in which they are visited. *)
Definition verify_queue (client : SQSAPI) (checks : list (string * string)) (tags : list (string * string)) (key : string) (queue : Queue) : res () :=
  url ← GetQueueUrl client (qu_Name queue);
  _ ← refuse_if (negb (String.eqb url (qu_URL queue))) ("queue URL drift: " +:+ key);
  attributes ← GetQueueAttributes client url;
  _ ← no_drift attributes checks ("queue attribute drift: " +:+ key);
  fingerprint ← fingerprintJSON (attribute_of attributes "Policy");
  _ ← refuse_if (negb (String.eqb fingerprint (qu_PolicyFingerprintSHA256 queue))) ("queue policy drift: " +:+ key);
  _ ← verify_redrive client key url queue attributes;
  actual ← ListQueueTags client url;
  no_drift actual tags ("queue tag drift: " +:+ key).

Fixpoint verify_queues (client : SQSAPI) (checks : Queue -> list (string * string)) (tags : list (string * string)) (queues : list (string * Queue)) : res () :=
  match queues with
  | [] => Ok ()
  | (key, queue) :: queues => _ ← verify_queue client (checks queue) tags key queue; verify_queues client checks tags queues
  end.

(** The orders in which the maps are visited. *)
Record Visits : Type := mkVisits {
  vi_expected : list (string * Expected);
  vi_required : list (string * string);
  vi_queues : list (string * Queue);
  vi_checks : Queue -> list (string * string);
  vi_tags : list (string * string)
}.
Record visits_ok (m : Manifest) (v : Visits) : Prop := {
  vo_expected : vi_expected v ≡ₚ expected;
  vo_required : vi_required v ≡ₚ required_tags m;
  vo_queues : vi_queues v ≡ₚ map_to_list (mf_Queues m);
  vo_checks q : vi_checks v q ≡ₚ attribute_checks q;
  vo_tags : vi_tags v ≡ₚ map_to_list (mf_Tags m)
}.

(** [None] is the nil client. *)
Definition VerifySQS (v : Visits) (client : option SQSAPI) (m : Manifest) : res () :=
  match client with
  | None => Err (ErrorsNew "SQS client is required")
  | Some client =>
      _ ← Validate (vi_expected v) (vi_required v) m;
      verify_queues client (vi_checks v) (vi_tags v) (vi_queues v)
  end.
End Verify.

(** *** What a verified deployment is *)

#[export] Instance str_le_trans : Transitive str_le.
Proof.
  intros a b c Hab Hbc. unfold str_le in *. destruct (String.compare a c) eqn:E; try done. exfalso.
  rewrite String.compare_antisym in E. destruct (String.compare c a) eqn:E'; try done. change (str_lt c a) in E'.
  destruct (str_trichotomy a b) as [H|[->|H]].
  - pose proof (str_lt_trans _ _ _ E' H) as H2. apply Hbc. rewrite String.compare_antisym. unfold str_lt in H2. by rewrite H2.
  - apply Hbc. rewrite String.compare_antisym. unfold str_lt in E'. by rewrite E'.
  - apply Hab. rewrite String.compare_antisym. unfold str_lt in H. by rewrite H.
Qed.
#[export] Instance str_le_total : Total str_le.
Proof.
  intros a b. unfold str_le. destruct (str_trichotomy a b) as [H|[->|H]]; unfold str_lt in *;
    [left; by rewrite H|left; by rewrite (proj2 (str_compare_eq b b) eq_refl)|right; by rewrite H].
Qed.
#[export] Instance str_le_antisymm : AntiSymm (=) str_le.
Proof.
  intros a b Ha Hb. unfold str_le in *. destruct (str_trichotomy a b) as [H|[H|H]]; [|done|]; unfold str_lt in H; exfalso.
  - apply Hb. rewrite String.compare_antisym. by rewrite H.
  - apply Ha. rewrite String.compare_antisym. by rewrite H.
Qed.

Lemma sort_strings (l r : list string) : merge_sort str_le l = merge_sort str_le r <-> l ≡ₚ r.
Proof.
  split; intros H.
  - rewrite <- (merge_sort_Permutation str_le l), H. apply merge_sort_Permutation.
  - apply (StronglySorted_unique str_le); try (apply StronglySorted_merge_sort; apply _).
    by rewrite !merge_sort_Permutation.
Qed.

Lemma sameStrings_perm l r : sameStrings l r = true <-> l ≡ₚ r.
Proof.
  unfold sameStrings. rewrite andb_true_iff, Nat.eqb_eq, bool_decide_eq_true, sort_strings. split; [tauto|].
  intros H. split; [by apply Permutation_length|done].
Qed.

Lemma no_drift_ok actual wanted text : no_drift actual wanted text = Ok () <-> Forall (fun x => attribute_of actual x.1 = x.2) wanted.
Proof.
  unfold no_drift, drifted. induction wanted as [|x l IH]; [done|]. rewrite Forall_cons.
  destruct (decide (attribute_of actual x.1 = x.2)) as [Hd|Hd].
  - rewrite filter_cons_False by auto. rewrite IH. tauto.
  - rewrite filter_cons_True by done. split; [discriminate|tauto].
Qed.

Lemma refuse_if_iff b text : refuse_if b text = Ok () <-> b = false.
Proof. by destruct b. Qed.

Lemma res_bind_iff {A B} (m : res A) (k : A -> res B) b : (m ≫= k) = Ok b <-> exists a, m = Ok a /\ k a = Ok b.
Proof. destruct m as [a|e]; simpl; [|by split; [|intros (? & ? & _)]]. split; [by exists a|]. by intros (? & [= <-] & ?). Qed.

Section Spec.
Context `{UrlLib} {P : Primitives} {J : PolicyJSON}.

(** A queue of the manifest that is as expected, of the account [account]. *)
Record queue_valid (m : Manifest) (want : Expected) (account : string) (q : Queue) : Prop := {
  qv_settings : queue_as_expected m want q = true;
  qv_url : queue_url_ok q = true;
  qv_account : queue_account m q = Some account;
  qv_target : 0 < ex_receives want -> qu_DeadLetterQueueARN q <> "";
  qv_sources : ex_receives want = 0 -> exists source, qu_RedriveAllowSourceARNs q = [source]
}.

Record manifest_valid (m : Manifest) : Prop := {
  mv_identity : mf_Version m = 1 /\ environmentPattern (mf_Environment m) = true /\ mf_AWSRegion m <> "" /\ size (mf_Queues m) = 4%nat;
  mv_queues : exists account, Forall (fun x => exists q, mf_Queues m !! x.1 = Some q /\ queue_valid m x.2 account q) expected;
  mv_jobs : qu_DeadLetterQueueARN (queue_of m "jobs") = qu_ARN (queue_of m "jobs_dlq") /\
            first_source (queue_of m "jobs_dlq") = qu_ARN (queue_of m "jobs");
  mv_results : qu_DeadLetterQueueARN (queue_of m "results") = qu_ARN (queue_of m "results_dlq") /\
               first_source (queue_of m "results_dlq") = qu_ARN (queue_of m "results");
  mv_tags : Forall (fun x => default "" (mf_Tags m !! x.1) = x.2) (required_tags m);
  mv_roles : Forall (fun key => exists r, mf_Roles m !! key = Some r /\ ro_Name r <> "" /\
    fingerprintPattern (ro_PolicyFingerprintSHA256 r) = true /\ fingerprintPattern (ro_TrustFingerprintSHA256 r) = true) requiredRoles
}.

(** The queue service reports the queue as the manifest describes it. *)
Record queue_deployed (client : SQSAPI) (m : Manifest) (q : Queue) : Prop := {
  qd_url : GetQueueUrl client (qu_Name q) = Ok (qu_URL q);
  qd_attributes : exists attributes, GetQueueAttributes client (qu_URL q) = Ok attributes /\
    Forall (fun x => attribute_of attributes x.1 = x.2) (attribute_checks q) /\
    fingerprintJSON (attribute_of attributes "Policy") = Ok (qu_PolicyFingerprintSHA256 q) /\
    (if 0 <? qu_MaxReceiveCount q then
       exists count, redrive_policy (attribute_of attributes "RedrivePolicy") = Some (qu_DeadLetterQueueARN q, count) /\
         trim_quotes count = Itoa (qu_MaxReceiveCount q)
     else (exists sources, allow_policy (attribute_of attributes "RedriveAllowPolicy") = Some ("byQueue", sources) /\
             sources ≡ₚ qu_RedriveAllowSourceARNs q) /\
          exists source, ListDeadLetterSourceQueues client (qu_URL q) = Ok [source] /\ path_Base source = arnResource (first_source q));
  qd_tags : exists tags, ListQueueTags client (qu_URL q) = Ok tags /\ map_Forall (fun k v => attribute_of tags k = v) (mf_Tags m)
}.

Lemma validate_queue_iff m key want account :
  validate_queue m key want = Ok account <-> exists q, mf_Queues m !! key = Some q /\ queue_valid m want account q.
Proof.
  unfold validate_queue. destruct (mf_Queues m !! key) as [q|]; [|split; [done|by intros (? & ? & _)]].
  rewrite res_bind_iff. split.
  - intros ([] & E1%refuse_if_iff & H1). destruct (queue_url_ok q) eqn:Eu; [|done].
    destruct (queue_account m q) as [a|] eqn:Ea; [|done].
    apply res_bind_iff in H1 as ([] & E2%refuse_if_iff & H1). apply res_bind_iff in H1 as ([] & E3%refuse_if_iff & [= <-]).
    exists q. split; [done|]. constructor; try done.
    + by apply negb_false_iff in E1.
    + intros Hr Hd. by rewrite (proj2 (Z.ltb_lt _ _) Hr), Hd in E2.
    + intros Hr. rewrite (proj2 (Z.eqb_eq _ _) Hr) in E3. apply negb_false_iff, Nat.eqb_eq in E3.
      destruct (qu_RedriveAllowSourceARNs q) as [|x [|]]; try done. by exists x.
  - intros (q' & [= <-] & [V1 V2 V3 V4 V5]). exists (). split; [by rewrite refuse_if_iff, V1|]. rewrite V2, V3.
    rewrite res_bind_iff. exists (). split.
    { apply refuse_if_iff. destruct (0 <? ex_receives want) eqn:E; [|done]. apply Z.ltb_lt in E. by apply String.eqb_neq, V4. }
    rewrite res_bind_iff. exists (). split; [|done]. apply refuse_if_iff. destruct (ex_receives want =? 0) eqn:E; [|done].
    apply Z.eqb_eq in E. by destruct (V5 E) as [x ->].
Qed.

Lemma validate_all_iff m order A :
  validate_all m order = Ok A <-> exists accounts, Forall2 (fun x a => validate_queue m x.1 x.2 = Ok a) order accounts /\ A = list_to_set accounts.
Proof.
  revert A. induction order as [|[key want] order IH]; intros A; cbn [validate_all].
  - split; [intros [= <-]; by exists []|]. by intros (l & Hl%Forall2_nil_inv_l & ->); subst.
  - rewrite res_bind_iff. split.
    + intros (a & Ha & (B & HB & [= <-])%res_bind_iff). apply IH in HB as (l & Hl & ->). exists (a :: l). by split; [constructor|].
    + intros (l & Hl & ->). apply Forall2_cons_inv_l in Hl as (a & l' & Ha & Hl & ->). exists a. split; [done|].
      rewrite res_bind_iff. exists (list_to_set l'). split; [|done]. apply IH. by exists l'.
Qed.

Lemma one_account m order : order <> [] ->
  (exists A, validate_all m order = Ok A /\ size A = 1%nat) <->
  exists account, Forall (fun x => validate_queue m x.1 x.2 = Ok account) order.
Proof.
  intros Hne. split.
  - intros (A & (l & Hl & ->)%validate_all_iff & (a & Ha)%size_1_elem_of). exists a.
    assert (Forall (fun y => y = a) l) as Hall.
    { apply Forall_forall. intros y Hy. assert (y ∈ (list_to_set l : gset string)) as Hy' by set_solver. set_solver. }
    clear Ha Hne. induction Hl as [|x y order l Hx Hl IH]; [constructor|]. apply Forall_cons in Hall as [-> Hall]. constructor; auto.
  - intros (a & Ha). exists {[a]}. split; [|apply size_singleton]. apply validate_all_iff.
    exists (replicate (Datatypes.length order) a). split.
    + clear Hne. induction Ha; simpl; by constructor.
    + destruct order as [|x order]; [done|]. simpl. clear. induction order; simpl; set_solver.
Qed.

Lemma validate_tags_iff m wanted : validate_tags m wanted = Ok () <-> Forall (fun x => default "" (mf_Tags m !! x.1) = x.2) wanted.
Proof.
  induction wanted as [|[k v] l IH]; [done|]. cbn [validate_tags]. rewrite Forall_cons. cbn [fst snd].
  destruct (String.eqb_spec (default "" (mf_Tags m !! k)) v); cbn [negb]; [rewrite IH; tauto|]. split; [done|tauto].
Qed.

Lemma validate_roles_iff m keys : validate_roles m keys = Ok () <-> Forall (fun key => exists r, mf_Roles m !! key = Some r /\ ro_Name r <> "" /\
    fingerprintPattern (ro_PolicyFingerprintSHA256 r) = true /\ fingerprintPattern (ro_TrustFingerprintSHA256 r) = true) keys.
Proof.
  induction keys as [|k l IH]; [done|]. cbn [validate_roles]. rewrite Forall_cons.
  destruct (mf_Roles m !! k) as [r|]; [|split; [done|by intros [(? & ? & _) _]]].
  destruct (_ || _ || _) eqn:E.
  - split; [done|]. intros [(r' & [= <-] & Hn & H1 & H2) _]. apply String.eqb_neq in Hn. by rewrite Hn, H1, H2 in E.
  - apply orb_false_iff in E as [[E1%String.eqb_neq E2%negb_false_iff]%orb_false_iff E3%negb_false_iff]. rewrite IH.
    split; [intros Hl; split; [by exists r|done]|tauto].
Qed.

Lemma Validate_iff order tags m : order ≡ₚ expected -> tags ≡ₚ required_tags m ->
  Validate order tags m = Ok () <-> manifest_valid m.
Proof.
  intros Ho Ht. unfold Validate. rewrite res_bind_iff. assert (order <> []) as Hne.
  { intros ->. apply Permutation_nil_l in Ho. discriminate Ho. }
  split.
  - intros ([] & E1%refuse_if_iff & H1). apply res_bind_iff in H1 as (A & HA & H1).
    apply res_bind_iff in H1 as ([] & E2%refuse_if_iff & H1). apply res_bind_iff in H1 as ([] & E3%validate_tags_iff & E4%validate_roles_iff).
    apply negb_false_iff in E2. unfold routed in E2.
    apply andb_true_iff in E2 as [[[[S1%Nat.eqb_eq S2%String.eqb_eq]%andb_true_iff S3%String.eqb_eq]%andb_true_iff S4%String.eqb_eq]%andb_true_iff S5%String.eqb_eq].
    apply orb_false_iff in E1 as [[[I1%negb_false_iff I2%negb_false_iff]%orb_false_iff I3%String.eqb_neq]%orb_false_iff I4%negb_false_iff].
    apply Z.eqb_eq in I1. apply Nat.eqb_eq in I4.
    destruct (proj1 (one_account m order Hne)) as (a & Ha); [by exists A|].
    constructor; [by split_and!| |done|done|by rewrite <- Ht|done].
    exists a. rewrite <- Ho. eapply Forall_impl; [exact Ha|]. intros x Hx. by apply validate_queue_iff.
  - intros [(I1 & I2 & I3 & I4) (a & Ha) [J1 J2] [R1 R2] T Ro].
    exists (). split. { apply refuse_if_iff. rewrite I1, I2, I4. by rewrite (proj2 (String.eqb_neq _ _) I3). }
    destruct (proj2 (one_account m order Hne)) as (A & HA & Hs).
    { exists a. rewrite Ho. eapply Forall_impl; [exact Ha|]. intros x Hx. by apply validate_queue_iff. }
    rewrite res_bind_iff. exists A. split; [done|]. rewrite res_bind_iff. exists (). split.
    { apply refuse_if_iff. unfold routed. by rewrite Hs, J1, J2, R1, R2, !String.eqb_refl. }
    rewrite res_bind_iff. exists (). split; [apply validate_tags_iff; by rewrite Ht|]. by apply validate_roles_iff.
Qed.

Lemma verify_queue_iff client checks tags m key q : checks ≡ₚ attribute_checks q -> tags ≡ₚ map_to_list (mf_Tags m) ->
  verify_queue client checks tags key q = Ok () <-> queue_deployed client m q.
Proof.
  intros Hc Ht. unfold verify_queue. rewrite res_bind_iff. split.
  - intros (url & Hu & H1). apply res_bind_iff in H1 as ([] & E1%refuse_if_iff & H1). apply negb_false_iff, String.eqb_eq in E1. subst url.
    apply res_bind_iff in H1 as (attributes & Ha & H1). apply res_bind_iff in H1 as ([] & E2%no_drift_ok & H1).
    apply res_bind_iff in H1 as (fp & Hf & H1). apply res_bind_iff in H1 as ([] & E3%refuse_if_iff & H1).
    apply negb_false_iff, String.eqb_eq in E3. subst fp.
    apply res_bind_iff in H1 as ([] & Hr & H1). apply res_bind_iff in H1 as (actual & Hg & H1%no_drift_ok).
    constructor; [done| |].
    + exists attributes. split; [done|]. split; [by rewrite <- Hc|]. split; [done|]. unfold verify_redrive in Hr.
      destruct (0 <? qu_MaxReceiveCount q).
      * destruct (redrive_policy _) as [[target count]|]; [|done].
        apply refuse_if_iff, orb_false_iff in Hr as [R1%negb_false_iff R2%negb_false_iff].
        apply String.eqb_eq in R1, R2. exists count. by rewrite R1.
      * apply res_bind_iff in Hr as ([] & Hal & Hr). destruct (allow_policy _) as [[permission sources]|]; [|done].
        apply refuse_if_iff, orb_false_iff in Hal as [R1%negb_false_iff R2%negb_false_iff].
        apply String.eqb_eq in R1. apply sameStrings_perm in R2. split; [exists sources; by rewrite R1|].
        destruct (ListDeadLetterSourceQueues _ _) as [[|source [|]]|]; try done.
        apply refuse_if_iff, negb_false_iff, String.eqb_eq in Hr. by exists source.
    + exists actual. split; [done|]. rewrite map_Forall_to_list, <- Ht. eapply Forall_impl; [exact H1|]. by intros [].
  - intros [Hu (attributes & Ha & Hall & Hf & Hr) (actual & Hg & Htags)].
    exists (qu_URL q). split; [done|]. rewrite res_bind_iff. exists (). split; [by rewrite refuse_if_iff, String.eqb_refl|].
    rewrite res_bind_iff. exists attributes. split; [done|]. rewrite res_bind_iff. exists ().
    split; [apply no_drift_ok; by rewrite Hc|]. rewrite res_bind_iff. eexists. split; [done|].
    rewrite res_bind_iff. exists (). split; [by rewrite refuse_if_iff, String.eqb_refl|]. rewrite res_bind_iff. exists (). split.
    + unfold verify_redrive. destruct (0 <? qu_MaxReceiveCount q).
      * destruct Hr as (count & -> & Hc'). by rewrite refuse_if_iff, Hc', !String.eqb_refl.
      * destruct Hr as [(sources & -> & Hs) (source & -> & Hb)]. rewrite res_bind_iff. exists ().
        apply sameStrings_perm in Hs. split; [by rewrite refuse_if_iff, Hs|]. by rewrite refuse_if_iff, Hb, String.eqb_refl.
    + rewrite res_bind_iff. exists actual. split; [done|]. apply no_drift_ok. rewrite Ht.
      apply map_Forall_to_list in Htags. eapply Forall_impl; [exact Htags|]. by intros [].
Qed.

Lemma verify_queues_iff client checks tags m queues : (forall q, checks q ≡ₚ attribute_checks q) -> tags ≡ₚ map_to_list (mf_Tags m) ->
  verify_queues client checks tags queues = Ok () <-> Forall (fun x => queue_deployed client m x.2) queues.
Proof.
  intros Hc Ht. induction queues as [|[key q] l IH]; [done|]. cbn [verify_queues]. rewrite res_bind_iff, Forall_cons, <- IH.
  cbn [snd]. rewrite <- (verify_queue_iff client (checks q) tags m key q) by done. split; [by intros ([] & ? & ?)|].
  intros [H1 H2]. by exists ().
Qed.

(** The check of a deployment accepts exactly the manifests that are consistent and agree
    with what the queue service reports, in whatever order the maps are visited. *)
Theorem VerifySQS_exact v client m : visits_ok m v ->
  VerifySQS v (Some client) m = Ok () <-> manifest_valid m /\ map_Forall (fun _ => queue_deployed client m) (mf_Queues m).
Proof.
  intros [V1 V2 V3 V4 V5]. unfold VerifySQS. rewrite res_bind_iff, map_Forall_to_list. split.
  - intros ([] & H1 & H2). apply Validate_iff in H1; [|done..]. apply (verify_queues_iff _ _ _ m) in H2; [|done..].
    split; [done|]. rewrite <- V3. eapply Forall_impl; [exact H2|]. by intros [].
  - intros [H1 H2]. exists (). split; [by apply Validate_iff|]. apply (verify_queues_iff _ _ _ m); [done..|].
    rewrite V3. eapply Forall_impl; [exact H2|]. by intros [].
Qed.

Lemma expected_queue m account key want :
  Forall (fun x => exists q, mf_Queues m !! x.1 = Some q /\ queue_valid m x.2 account q) expected -> (key, want) ∈ expected ->
  exists q, mf_Queues m !! key = Some q /\ queue_valid m want account q /\ queue_of m key = q.
Proof.
  intros Hall Hin. rewrite Forall_forall in Hall. destruct (Hall _ Hin) as (q & Hq & Hv). cbn [fst snd] in Hq, Hv. exists q. split; [done|]. split; [done|].
  unfold queue_of. by rewrite Hq.
Qed.

(** The pair of a queue and its dead letter queue, as the service reports it. *)
Lemma verified_pair client m account key dlq want want' :
  Forall (fun x => exists q, mf_Queues m !! x.1 = Some q /\ queue_valid m x.2 account q) expected ->
  map_Forall (fun _ => queue_deployed client m) (mf_Queues m) ->
  (key, want) ∈ expected -> (dlq, want') ∈ expected -> 0 < ex_receives want -> ex_receives want' = 0 ->
  qu_DeadLetterQueueARN (queue_of m key) = qu_ARN (queue_of m dlq) -> first_source (queue_of m dlq) = qu_ARN (queue_of m key) ->
  exists q q' a a' count, mf_Queues m !! key = Some q /\ mf_Queues m !! dlq = Some q' /\
    GetQueueAttributes client (qu_URL q) = Ok a /\ GetQueueAttributes client (qu_URL q') = Ok a' /\
    redrive_policy (attribute_of a "RedrivePolicy") = Some (attribute_of a' "QueueArn", count) /\
    trim_quotes count = Itoa (ex_receives want) /\
    allow_policy (attribute_of a' "RedriveAllowPolicy") = Some ("byQueue", [attribute_of a "QueueArn"]).
Proof.
  intros Hall Hdep H1 H2 Hr Hr' Et Es.
  destruct (expected_queue m account key want Hall H1) as (q & Hq & Hv & Eq).
  destruct (expected_queue m account dlq want' Hall H2) as (q' & Hq' & Hv' & Eq'). rewrite Eq, Eq' in Et, Es.
  assert (forall q w, queue_valid m w account q -> qu_MaxReceiveCount q = ex_receives w) as Hmax.
  { intros q0 w [Hs _ _ _ _]. unfold queue_as_expected in Hs.
    apply andb_true_iff in Hs as [[_ Hs%Z.eqb_eq]%andb_true_iff _]. done. }
  assert (forall a q, Forall (fun x => attribute_of a x.1 = x.2) (attribute_checks q) -> attribute_of a "QueueArn" = qu_ARN q) as Harn.
  { intros a q0 Ha. by inversion Ha. }
  destruct (Hdep _ _ Hq) as [_ (a & Ga & Ca & _ & Ra) _]. destruct (Hdep _ _ Hq') as [_ (a' & Ga' & Ca' & _ & Ra') _].
  rewrite (Hmax _ _ Hv), (proj2 (Z.ltb_lt _ _) Hr) in Ra. destruct Ra as (count & Rp & Rc).
  rewrite (Hmax _ _ Hv'), Hr' in Ra'. destruct Ra' as [(sources & Ap & Hs) _].
  destruct (qv_sources _ _ _ _ Hv' Hr') as (source & Esrc).
  exists q, q', a, a', count. rewrite (Harn _ _ Ca), (Harn _ _ Ca'), <- Et. split_and!; try done.
  rewrite Esrc in Hs. apply Permutation_singleton_r in Hs as ->. rewrite Ap. unfold first_source in Es. rewrite Esrc in Es.
  simpl in Es. by rewrite Es.
Qed.

(** In a deployment that was verified, what the service reports of the queues fits
    together: jobs are moved to the dead letter queue of the jobs after five receives and
    results to that of the results after ten, and each dead letter queue takes messages
    from its own source only. *)
Theorem verified_routing v client m : visits_ok m v -> VerifySQS v (Some client) m = Ok () ->
  forall key dlq receives, (key, dlq, receives) ∈ [("jobs", "jobs_dlq", 5); ("results", "results_dlq", 10)] ->
  exists q q' a a' count, mf_Queues m !! key = Some q /\ mf_Queues m !! dlq = Some q' /\
    GetQueueAttributes client (qu_URL q) = Ok a /\ GetQueueAttributes client (qu_URL q') = Ok a' /\
    redrive_policy (attribute_of a "RedrivePolicy") = Some (attribute_of a' "QueueArn", count) /\
    trim_quotes count = Itoa receives /\
    allow_policy (attribute_of a' "RedriveAllowPolicy") = Some ("byQueue", [attribute_of a "QueueArn"]).
Proof.
  intros [V1 V2 V3 V4 V5] Hok key dlq receives Hin. unfold VerifySQS in Hok. apply res_bind_iff in Hok as ([] & H1 & H2).
  apply Validate_iff in H1; [|done..]. apply (verify_queues_iff _ _ _ m) in H2; [|done..]. rewrite V3 in H2.
  destruct H1 as [_ (account & Hall) [J1 J2] [R1 R2] _ _].
  assert (map_Forall (fun _ => queue_deployed client m) (mf_Queues m)) as Hdep.
  { apply map_Forall_to_list. eapply Forall_impl; [exact H2|]. by intros []. }
  apply elem_of_cons in Hin as [[= -> -> ->]|Hin]; [|apply elem_of_cons in Hin as [[= -> -> ->]|Hin]; [|by apply not_elem_of_nil in Hin]].
  - eapply (verified_pair client m account "jobs" "jobs_dlq" (mkExpected "check-jobs-hosted.fifo" 90 345600 20 5)); try done;
      [by apply (list_elem_of_lookup_2 _ 0)|by apply (list_elem_of_lookup_2 _ 2)|done].
  - eapply (verified_pair client m account "results" "results_dlq" (mkExpected "check-results.fifo" 120 345600 20 10)); try done;
      [by apply (list_elem_of_lookup_2 _ 1)|by apply (list_elem_of_lookup_2 _ 3)|done].
Qed.

(** The fingerprint of a policy does not tell a plus sign from a space: the text is
    unescaped as a query before it is hashed. *)
Theorem fingerprint_plus : fingerprintJSON "a+b" = fingerprintJSON "a b".
Proof. reflexivity. Qed.
End Spec.
End Manifest.

(** ** The roles *)
Module Iam.
Import Manifest.

Record AttachedPolicy : Type := mkAttached { ap_PolicyName : string; ap_PolicyArn : string }.

(** A page of a listing: its items, whether it is truncated, and its marker. *)
Abbreviation PageOf A := (list A * bool * option string)%type.

(** The answers of the identity service: a role with its name and its trust document,
    the pages of its policies, their documents; [None] is a missing part of an answer. *)
Record IAMAPI : Type := mkIAMAPI {
  GetRole : string -> res (option (string * string));
  ListRolePolicies : string -> option string -> res (PageOf string);
  GetRolePolicy : string -> string -> res string;
  ListAttachedRolePolicies : string -> option string -> res (PageOf AttachedPolicy);
  GetPolicy : string -> res (option string);
  GetPolicyVersion : string -> string -> res (option string)
}.

Record policyInventory : Type := mkInventory {
  pi_Kind : string;
  pi_Name : string;
  pi_ARN : string;
  pi_Version : string;
  pi_Document : bytes
}.

(** A listing to its last page.  Nothing bounds the number of pages: [None] when [fuel]
    pages were not enough. *)
Fixpoint all_pages {A} (fuel : nat) (call : option string -> res (PageOf A)) (marker : option string) (text : string) : option (res (list A)) :=
  match fuel with
  | 0%nat => None
  | S fuel =>
      match call marker with
      | Err e => Some (Err e)
      | Ok (items, false, _) => Some (Ok items)
      | Ok (items, true, next) =>
          if String.eqb (default "" next) "" then Some (Err (ErrorsNew text))
          else match all_pages fuel call next text with
               | Some (Ok rest) => Some (Ok (items ++ rest))
               | other => other
               end
      end
  end.

Fixpoint for_each {A B} (f : A -> res B) (l : list A) : res (list B) :=
  match l with
  | [] => Ok []
  | a :: l => b ← f a; bs ← for_each f l; Ok (b :: bs)
  end.

(** The order of [sort.Slice]. *)
Definition inventory_key (x : policyInventory) : string * (string * string) := (pi_Kind x, (pi_Name x, pi_ARN x)).
Definition inventory_le (x y : policyInventory) : Prop :=
  if decide (pi_Kind x = pi_Kind y)
  then if decide (pi_Name x = pi_Name y) then str_le (pi_ARN x) (pi_ARN y) else str_le (pi_Name x) (pi_Name y)
  else str_le (pi_Kind x) (pi_Kind y).
#[export] Instance inventory_le_dec : RelDecision inventory_le.
Proof. intros x y. unfold inventory_le. repeat case_decide; apply _. Defined.

Section Verify.
Context `{UrlLib} {P : Primitives} {J : PolicyJSON} (encode_inventory : list policyInventory -> option bytes).

Definition canonicalPolicy (value : string) : res bytes :=
  decoded ← or_else (QueryUnescape value) "invalid URL escape";
  or_else (reencode decoded) "invalid JSON".

Definition inline_policy (client : IAMAPI) (roleName name : string) : res policyInventory :=
  policy ← GetRolePolicy client roleName name;
  document ← canonicalPolicy policy;
  Ok (mkInventory "inline" name "" "" document).

Definition attached_policy (client : IAMAPI) (a : AttachedPolicy) : res policyInventory :=
  policy ← GetPolicy client (ap_PolicyArn a);
  version ← or_else policy "IAM attached policy response omitted the policy";
  output ← GetPolicyVersion client (ap_PolicyArn a) version;
  text ← or_else output "IAM policy-version response omitted the policy version";
  document ← canonicalPolicy text;
  Ok (mkInventory "attached" (ap_PolicyName a) (ap_PolicyArn a) version document).

Definition inventory_of (client : IAMAPI) (roleName : string) (names : list string) (attached : list AttachedPolicy) : res (list policyInventory) :=
  inline ← for_each (inline_policy client roleName) names;
  managed ← for_each (attached_policy client) attached;
  Ok (merge_sort inventory_le (inline ++ managed)).

Definition readRolePolicies (fuel : nat) (client : IAMAPI) (roleName : string) : option (res (list policyInventory)) :=
  match all_pages fuel (ListRolePolicies client roleName) None "IAM inline policy pagination omitted its marker" with
  | None => None
  | Some (Err e) => Some (Err e)
  | Some (Ok names) =>
      match all_pages fuel (ListAttachedRolePolicies client roleName) None "IAM attached policy pagination omitted its marker" with
      | None => None
      | Some (Err e) => Some (Err e)
      | Some (Ok attached) => Some (inventory_of client roleName names attached)
      end
  end.

(** One turn of the loop over the roles. *)
Definition verify_role (fuel : nat) (client : IAMAPI) (key : string) (expected : Role) : option (res ()) :=
  match GetRole client (ro_Name expected) with
  | Ok (Some (name, document)) =>
      if negb (String.eqb name (ro_Name expected)) then Some (Err (ErrorsNew ("read IAM role: " +:+ key)))
      else match fingerprintJSON document with
           | Ok trust =>
               if negb (String.eqb trust (ro_TrustFingerprintSHA256 expected)) then Some (Err (ErrorsNew ("IAM trust drift: " +:+ key)))
               else match readRolePolicies fuel client (ro_Name expected) with
                    | None => None
                    | Some (Err e) => Some (Err e)
                    | Some (Ok inventory) =>
                        Some (match encode_inventory inventory with
                              | None => Err (ErrorsNew "invalid JSON")
                              | Some encoded =>
                                  refuse_if (negb (String.eqb (hex_encode (sha256 encoded)) (ro_PolicyFingerprintSHA256 expected)))
                                    ("IAM policy drift: " +:+ key)
                              end)
                    end
           | Err _ => Some (Err (ErrorsNew ("IAM trust drift: " +:+ key)))
           end
  | _ => Some (Err (ErrorsNew ("read IAM role: " +:+ key)))
  end.

Fixpoint verify_roles (fuel : nat) (client : IAMAPI) (roles : list (string * Role)) : option (res ()) :=
  match roles with
  | [] => Some (Ok ())
  | (key, role) :: roles =>
      match verify_role fuel client key role with
      | Some (Ok _) => verify_roles fuel client roles
      | other => other
      end
  end.

Definition VerifyIAM (fuel : nat) (order : list (string * Expected)) (required : list (string * string)) (roles : list (string * Role))
    (client : option IAMAPI) (m : Manifest) : option (res ()) :=
  match client with
  | None => Some (Err (ErrorsNew "IAM client is required"))
  | Some client =>
      match Validate order required m with
      | Err e => Some (Err e)
      | Ok _ => verify_roles fuel client roles
      end
  end.
End Verify.

(** *** The inventory does not depend on how it is listed *)

(** The pages [l] behind the marker [m], the last one complete. *)
Inductive paged {A} (call : option string -> res (PageOf A)) : option string -> list (list A) -> Prop :=
| paged_last m items next : call m = Ok (items, false, next) -> paged call m [items]
| paged_more m items next l : call m = Ok (items, true, Some next) -> next <> "" -> paged call (Some next) l -> paged call m (items :: l).

Lemma all_pages_reads {A} (call : option string -> res (PageOf A)) m l text fuel :
  paged call m l -> (Datatypes.length l <= fuel)%nat -> all_pages fuel call m text = Some (Ok (List.concat l)).
Proof.
  intros Hp. revert fuel. induction Hp as [m items next Hc|m items next l Hc Hn Hp IH]; intros [|fuel] Hf; simpl in *; try lia; rewrite Hc.
  - by rewrite app_nil_r.
  - simpl. rewrite (proj2 (String.eqb_neq _ _) Hn), IH by lia. done.
Qed.

Lemma for_each_perm {A B} (f : A -> res B) l l' bs : l ≡ₚ l' -> for_each f l = Ok bs -> exists bs', for_each f l' = Ok bs' /\ bs ≡ₚ bs'.
Proof.
  intros Hp. revert bs. induction Hp as [|x l l' Hp IH|x y l|l1 l2 l3 H1 IH1 H2 IH2]; intros bs Hbs.
  - by exists bs.
  - cbn in Hbs. apply res_bind_iff in Hbs as (b & Hb & (cs & Hc & [= <-])%res_bind_iff).
    destruct (IH _ Hc) as (cs' & Hc' & Hpc). exists (b :: cs'). split; [|by constructor]. cbn. by rewrite Hb, Hc'.
  - cbn in Hbs. apply res_bind_iff in Hbs as (b & Hb & (cs & (b' & Hb' & (ds & Hd & [= <-])%res_bind_iff)%res_bind_iff & [= <-])%res_bind_iff).
    exists (b' :: b :: ds). split; [|constructor]. cbn. by rewrite Hb', Hb, Hd.
  - destruct (IH1 _ Hbs) as (b2 & E2 & P2). destruct (IH2 _ E2) as (b3 & E3 & P3). exists b3. split; [done|]. by etrans.
Qed.

#[export] Instance inventory_le_total : Total inventory_le.
Proof. intros x y. unfold inventory_le. repeat case_decide; try congruence; apply str_le_total. Qed.
#[export] Instance inventory_le_trans : Transitive inventory_le.
Proof.
  intros x y z Hxy Hyz. unfold inventory_le in *.
  destruct (decide (pi_Kind x = pi_Kind y)) as [E1|E1], (decide (pi_Kind y = pi_Kind z)) as [E2|E2].
  - rewrite decide_True by congruence.
    destruct (decide (pi_Name x = pi_Name y)) as [F1|F1], (decide (pi_Name y = pi_Name z)) as [F2|F2].
    + rewrite decide_True by congruence. by etrans.
    + rewrite decide_False by congruence. by rewrite F1.
    + rewrite decide_False by congruence. by rewrite <- F2.
    + case_decide as F3; [|by etrans]. exfalso. rewrite F3 in Hxy, F1. by apply F1, (anti_symm str_le).
  - rewrite decide_False by congruence. by rewrite E1.
  - rewrite decide_False by congruence. by rewrite <- E2.
  - case_decide as E3; [|by etrans]. exfalso. rewrite E3 in Hxy, E1. by apply E1, (anti_symm str_le).
Qed.

Lemma inventory_le_antisymm x y : inventory_le x y -> inventory_le y x -> inventory_key x = inventory_key y.
Proof.
  unfold inventory_le, inventory_key. intros H1 H2.
  destruct (decide (pi_Kind x = pi_Kind y)) as [E|E]; [rewrite decide_True in H2 by done|rewrite decide_False in H2 by done];
    [|exfalso; by apply E, (anti_symm str_le)].
  destruct (decide (pi_Name x = pi_Name y)) as [F|F]; [rewrite decide_True in H2 by done|rewrite decide_False in H2 by done];
    [|exfalso; by apply F, (anti_symm str_le)].
  rewrite E, F. by rewrite (anti_symm str_le _ _ H1 H2).
Qed.

(** Policies with distinct keys have one sorted arrangement. *)
Lemma sorted_inventory l l' : NoDup (inventory_key <$> l) -> l ≡ₚ l' -> merge_sort inventory_le l = merge_sort inventory_le l'.
Proof.
  intros Hnd Hp. assert (merge_sort inventory_le l ≡ₚ merge_sort inventory_le l') as Hs by (by rewrite !merge_sort_Permutation).
  rewrite <- (merge_sort_Permutation inventory_le l) in Hnd.
  pose proof (StronglySorted_merge_sort inventory_le l) as S1. pose proof (StronglySorted_merge_sort inventory_le l') as S2.
  revert Hs S1 S2 Hnd. generalize (merge_sort inventory_le l) as a. generalize (merge_sort inventory_le l') as b. clear.
  intros b a. revert b. induction a as [|x a IH]; intros b Hp S1 S2 Hnd.
  { symmetry in Hp. by apply Permutation_nil_r in Hp as ->. }
  destruct b as [|y b]; [by apply Permutation_nil_r in Hp|].
  apply StronglySorted_inv in S1 as [S1 F1], S2 as [S2 F2]. simpl in Hnd. apply NoDup_cons in Hnd as [Hx Hnd].
  assert (x = y) as ->.
  { assert (y ∈ x :: a) as Hy by (rewrite Hp; left). assert (x ∈ y :: b) as Hx' by (rewrite <- Hp; left).
    apply elem_of_cons in Hy as [->|Hy]; [done|]. apply elem_of_cons in Hx' as [->|Hx']; [done|].
    rewrite Forall_forall in F1, F2. specialize (F1 _ Hy). specialize (F2 _ Hx').
    destruct Hx. rewrite (inventory_le_antisymm _ _ F1 F2). by apply list_elem_of_fmap_2. }
  f_equal. apply IH; try done. by apply Permutation_cons_inv in Hp.
Qed.

Section Listing.
Context `{UrlLib} {P : Primitives} {J : PolicyJSON}.

Lemma for_each_fmap {A B C} (f : A -> res B) (g : B -> C) (h : A -> C) l bs :
  (forall a b, f a = Ok b -> g b = h a) -> for_each f l = Ok bs -> g <$> bs = h <$> l.
Proof.
  intros Hf. revert bs. induction l as [|a l IH]; intros bs Hb; cbn in Hb; [by injection Hb as <-|].
  apply res_bind_iff in Hb as (b & Hb & (cs & Hc & [= <-])%res_bind_iff). cbn. f_equal; auto.
Qed.

Lemma inline_key client role name x : inline_policy client role name = Ok x -> inventory_key x = ("inline", (name, "")).
Proof. unfold inline_policy. intros (? & _ & (? & _ & [= <-])%res_bind_iff)%res_bind_iff. done. Qed.
Lemma attached_key client a x : attached_policy client a = Ok x -> inventory_key x = ("attached", (ap_PolicyName a, ap_PolicyArn a)).
Proof.
  unfold attached_policy. intros (? & _ & H1)%res_bind_iff. apply res_bind_iff in H1 as (? & _ & H1).
  apply res_bind_iff in H1 as (? & _ & H1). apply res_bind_iff in H1 as (? & _ & H1). by apply res_bind_iff in H1 as (? & _ & [= <-]).
Qed.

(** What a role's policies fingerprint as does not depend on the pages in which, or the
    order in which, the service lists them: two listings of the same policies, each read
    to its end, give the same inventory.  The fuel that suffices is the number of pages. *)
Theorem inventory_of_listing client client' role names names' attached attached' fuel fuel' inventory :
  GetRolePolicy client' = GetRolePolicy client -> GetPolicy client' = GetPolicy client -> GetPolicyVersion client' = GetPolicyVersion client ->
  paged (ListRolePolicies client role) None names -> paged (ListAttachedRolePolicies client role) None attached ->
  paged (ListRolePolicies client' role) None names' -> paged (ListAttachedRolePolicies client' role) None attached' ->
  (Datatypes.length names `max` Datatypes.length attached <= fuel)%nat -> (Datatypes.length names' `max` Datatypes.length attached' <= fuel')%nat ->
  List.concat names ≡ₚ List.concat names' -> List.concat attached ≡ₚ List.concat attached' ->
  NoDup (List.concat names) -> NoDup ((fun a => (ap_PolicyName a, ap_PolicyArn a)) <$> List.concat attached) ->
  readRolePolicies fuel client role = Some (Ok inventory) -> readRolePolicies fuel' client' role = Some (Ok inventory).
Proof.
  intros E1 E2 E3 P1 P2 P3 P4 F1 F2 Pn Pa N1 N2. unfold readRolePolicies.
  rewrite (all_pages_reads _ _ _ _ fuel P1), (all_pages_reads _ _ _ _ fuel P2) by lia.
  rewrite (all_pages_reads _ _ _ _ fuel' P3), (all_pages_reads _ _ _ _ fuel' P4) by lia.
  intros [= Hi]. f_equal. unfold inventory_of in *.
  apply res_bind_iff in Hi as (inline & Hin & (managed & Hm & [= <-])%res_bind_iff).
  destruct (for_each_perm _ _ _ _ Pn Hin) as (inline' & Hin' & Pin). destruct (for_each_perm _ _ _ _ Pa Hm) as (managed' & Hm' & Pm).
  assert (inline_policy client' role = inline_policy client role) as -> by (unfold inline_policy; by rewrite E1).
  assert (attached_policy client' = attached_policy client) as -> by (unfold attached_policy; by rewrite E2, E3).
  rewrite Hin', Hm'. cbn. f_equal. symmetry. apply sorted_inventory; [|by rewrite Pin, Pm].
  rewrite fmap_app, (for_each_fmap _ _ _ _ _ (inline_key client role) Hin), (for_each_fmap _ _ _ _ _ (attached_key client) Hm).
  apply NoDup_app. split_and!.
  - apply NoDup_fmap_2; [|done]. intros x y [= ->]. done.
  - intros k (x & -> & _)%list_elem_of_fmap (y & Hy & _)%list_elem_of_fmap. discriminate Hy.
  - rewrite (list_fmap_compose (fun a => (ap_PolicyName a, ap_PolicyArn a)) (pair "attached")). apply NoDup_fmap_2; [|done].
    by intros x y [= ->].
Qed.
End Listing.

(** *** The queue-admin command *)

(** The scope is sqs or all, which the arguments were checked for; [sqs] and [iam] are the
    clients of the loaded configuration [aws]. *)
Definition queue_admin {P : Primitives} {PJ : PolicyJSON} {U : UrlLib} encode_inventory read_file decode_strict (v : Manifest.Manifest -> Visits)
    (roles : Manifest.Manifest -> list (string * Role)) (fuel : nat) (aws : res ()) (sqs : SQSAPI) (iam : IAMAPI)
    (scope path : string) : option (res ()) :=
  match Load read_file decode_strict expected required_tags path with
  | Err e => Some (Err e)
  | Ok m =>
      match aws with
      | Err e => Some (Err e)
      | Ok _ =>
          match VerifySQS (v m) (Some sqs) m with
          | Err e => Some (Err e)
          | Ok _ =>
              if String.eqb scope "all" then VerifyIAM encode_inventory fuel (vi_expected (v m)) (vi_required (v m)) (roles m) (Some iam) m
              else Some (Ok ())
          end
      end
  end.
End Iam.

(** ** Files of keys *)
Module Keys.

(** One step of writing a file that fails: the creation, the writing after some bytes, the
    synchronisation or the closing. *)
Inductive file_fault : Type := FileOk | CreateFails | WriteFails (written : nat) | SyncFails | CloseFails.

(** A directory: whether it is there and readable, its files, and the faults ahead. *)
Record Directory : Type := mkDirectory { dir_ok : bool; dir_files : gmap string bytes; dir_faults : list file_fault }.

Definition next_file_fault (l : list file_fault) : file_fault * list file_fault := match l with [] => (FileOk, []) | f :: l => (f, l) end.

(** A file that must not exist ([exclusive]) or is replaced. *)
Definition write_file (exclusive : bool) (name : string) (value : bytes) : SE Directory () := fun d =>
  let '(f, fs) := next_file_fault (dir_faults d) in
  let store v := mkDirectory (dir_ok d) (<[name := v]> (dir_files d)) fs in
  if exclusive && bool_decide (is_Some (dir_files d !! name)) then (Err (ErrorsNew ("create " +:+ name)), mkDirectory (dir_ok d) (dir_files d) fs)
  else match f with
       | FileOk => (Ok (), store value)
       | CreateFails => (Err (ErrorsNew ("create " +:+ name)), mkDirectory (dir_ok d) (dir_files d) fs)
       | WriteFails n => (Err (ErrorsNew ("write " +:+ name)), store (stake n value))
       | SyncFails => (Err (ErrorsNew ("sync " +:+ name)), store value)
       | CloseFails => (Err (ErrorsNew ("close " +:+ name)), store value)
       end.
Definition writeExclusive : string -> bytes -> SE Directory () := write_file true.

Definition PlatformSigningPrivate : string := "platform-signing-private".
Definition PlatformSigningPublic : string := "platform-signing-public".
Definition MonitorHeaderKey : string := "monitor-header-key".
Definition QuarantineKey : string := "quarantine-key".
Definition WorkerEncryption : string := "worker-encryption-private".
Definition WorkerResult : string := "worker-result-private".
Definition HostedPublicBundle : string := "hosted-public.json".

Definition encoded (value : bytes) : bytes := base64_encode value.

Record publicBundle : Type := mkBundle {
  pb_PoolID : string;
  pb_EncryptionKeyID : string;
  pb_ResultKeyID : string;
  pb_EncryptionPublicKey : string;
  pb_ResultPublicKey : string
}.

(** [json.MarshalIndent] and [json.Unmarshal] of a bundle. *)
Class BundleJSON : Type := { bundle_json : Codec publicBundle }.
Definition newline : string := String (byte_of 10) "".
(** What was encoded decodes, white space behind it or not; five strings can be encoded. *)
Class BundleLaws {B : BundleJSON} : Prop := {
  bundle_encodes b : is_Some (marshal bundle_json b);
  bundle_decodes b data : marshal bundle_json b = Some data ->
    unmarshal bundle_json data = Some b /\ unmarshal bundle_json (data +:+ newline) = Some b
}.

(** [base64.StdEncoding.Strict()]: the text is the one encoding of what it decodes to. *)
Definition strict_decode (s : string) : option bytes :=
  d ← base64_decode s; if String.eqb (base64_encode d) (strip_newlines s) then Some d else None.

Section Keys.
Context {P : Primitives} {B : BundleJSON}.

Definition readBase64 (d : Directory) (name : string) (size : Z) : res bytes :=
  value ← or_else (dir_files d !! name) ("read " +:+ name);
  decoded ← or_else (strict_decode (TrimSpace value)) (name +:+ " has an invalid encoding or size");
  if negb (slen decoded =? size) then Err (ErrorsNew (name +:+ " has an invalid encoding or size")) else Ok decoded.

(** A private key for X25519 has 32 bytes, which [readBase64] has checked. *)
Definition Verify (d : Directory) : res () :=
  platformPrivate ← readBase64 d PlatformSigningPrivate 64;
  platformPublic ← readBase64 d PlatformSigningPublic 32;
  _ ← refuse_if (negb (String.eqb (ed25519_public platformPrivate) platformPublic)) "platform signing key pair does not match";
  _ ← readBase64 d MonitorHeaderKey 32;
  _ ← readBase64 d QuarantineKey 32;
  workerEncryption ← readBase64 d WorkerEncryption 32;
  workerResult ← readBase64 d WorkerResult 64;
  bundleData ← or_else (dir_files d !! HostedPublicBundle) "read hosted public bundle";
  match unmarshal bundle_json bundleData with
  | None => Err (ErrorsNew "hosted public bundle is invalid")
  | Some bundle =>
      _ ← refuse_if (negb (String.eqb (pb_PoolID bundle) "hosted") || negb (String.eqb (pb_EncryptionKeyID bundle) "enc-v1")
            || negb (String.eqb (pb_ResultKeyID bundle) "result-v1")) "hosted public bundle is invalid";
      refuse_if (negb (String.eqb (pb_EncryptionPublicKey bundle) (base64_encode (x25519_public workerEncryption)))
        || negb (String.eqb (pb_ResultPublicKey bundle) (base64_encode (ed25519_public workerResult))))
        "hosted public bundle does not match private keys"
  end.

Definition requireEmptyDirectory (d : Directory) : res () :=
  _ ← refuse_if (negb (dir_ok d)) "output directory must already exist";
  refuse_if (negb (size (dir_files d) =? 0)%nat) "output directory must be empty; existing keys are never overwritten".

(** What the random source gives, key by key. *)
Record Randoms : Type := mkRandoms {
  rn_platform : res bytes;
  rn_encryption : res bytes;
  rn_result : res bytes;
  rn_header : res bytes;
  rn_quarantine : res bytes
}.
Definition drawn {A} (r : res A) (text : string) : res A := match r with Ok a => Ok a | Err _ => Err (ErrorsNew text) end.

Definition hosted_bundle (pool : string) (encryption result : bytes) : publicBundle :=
  mkBundle pool "enc-v1" "result-v1" (base64_encode (x25519_public encryption)) (base64_encode (ed25519_public result)).

Definition Generate (r : Randoms) : SE Directory () :=
  empty ← gets requireEmptyDirectory;
  _ ← of_res empty;
  platformPrivate ← of_res (drawn (rn_platform r) "generate platform signing key");
  workerEncryption ← of_res (drawn (rn_encryption r) "generate worker encryption key");
  workerResult ← of_res (drawn (rn_result r) "generate worker result key");
  monitorHeader ← of_res (drawn (rn_header r) "generate monitor header key");
  quarantine ← of_res (drawn (rn_quarantine r) "generate quarantine key");
  _ ← writeExclusive PlatformSigningPrivate (encoded platformPrivate);
  _ ← writeExclusive PlatformSigningPublic (encoded (ed25519_public platformPrivate));
  _ ← writeExclusive MonitorHeaderKey (encoded monitorHeader);
  _ ← writeExclusive QuarantineKey (encoded quarantine);
  _ ← writeExclusive WorkerEncryption (encoded workerEncryption);
  _ ← writeExclusive WorkerResult (encoded workerResult);
  bundle ← of_res (or_else (marshal bundle_json (hosted_bundle "hosted" workerEncryption workerResult)) "encode hosted public bundle");
  _ ← writeExclusive HostedPublicBundle (bundle +:+ newline);
  verified ← gets Verify;
  of_res verified.
End Keys.

(** *** What was generated verifies, and loads *)

Lemma trim_nospace s : forall_char (fun c => negb (is_space c)) s = true -> TrimSpace s = s.
Proof.
  intros Hs. unfold TrimSpace. assert (trim_left s = s) as ->.
  { destruct s as [|c r]; [done|]. simpl in *. apply andb_true_iff in Hs as [Hc _]. apply negb_true_iff in Hc. by rewrite Hc. }
  induction s as [|c r IH]; [done|]. simpl in *. apply andb_true_iff in Hs as [Hc Hr]. apply negb_true_iff in Hc. by rewrite Hc, IH.
Qed.

Definition digit_spaced (n : Z) : bool := is_space (b64_digit n).
Lemma digit_no_space n : 0 <= n < 64 -> negb (is_space (b64_digit n)) = true.
Proof.
  intros Hn. apply negb_true_iff. change (digit_spaced n = false).
  assert (forallb (fun k => negb (digit_spaced k)) (seqZ 0 64) = true) as Hall by (vm_compute; reflexivity).
  rewrite forallb_forall in Hall. apply negb_true_iff, Hall, list_elem_of_In, elem_of_seqZ. lia.
Qed.

Lemma base64_no_space b : forall_char (fun c => negb (is_space c)) (base64_encode b) = true.
Proof.
  revert b. apply triples; [done|intros; byte_bounds; cbn -[Z.mul Z.div Z.modulo Z.add val_of b64_digit is_space];
    rewrite ?digit_no_space by digits; done..].
Qed.

Lemma trim_encoded b : TrimSpace (base64_encode b) = base64_encode b.
Proof. apply trim_nospace, base64_no_space. Qed.

Lemma strict_encoded b : strict_decode (base64_encode b) = Some b.
Proof. unfold strict_decode. rewrite base64_decode_encode. cbn. by rewrite strip_newlines_encode, String.eqb_refl. Qed.

Lemma readBase64_written {B : BundleJSON} d name v : dir_files d !! name = Some (encoded v) -> readBase64 d name (slen v) = Ok v.
Proof.
  intros E. unfold readBase64. rewrite E. cbn. unfold encoded. rewrite trim_encoded, strict_encoded. cbn. by rewrite Z.eqb_refl.
Qed.

Lemma write_runs name v ok files : files !! name = None ->
  writeExclusive name v (mkDirectory ok files []) = (Ok (), mkDirectory ok (<[name := v]> files) []).
Proof. intros E. unfold writeExclusive, write_file. simpl. by rewrite E. Qed.

(** The files of a complete generation. *)
Definition key_files {P : Primitives} (platform encryption result header quarantine bundle : bytes) : gmap string bytes :=
  <[HostedPublicBundle := bundle +:+ newline]> (<[WorkerResult := encoded result]> (<[WorkerEncryption := encoded encryption]>
  (<[QuarantineKey := encoded quarantine]> (<[MonitorHeaderKey := encoded header]>
  (<[PlatformSigningPublic := encoded (ed25519_public platform)]> {[PlatformSigningPrivate := encoded platform]}))))).

Section Facts.
Context {P : Primitives} {L : PrimitiveLaws} {B : BundleJSON} {BL : BundleLaws}.

Lemma readBase64_size d name v n : dir_files d !! name = Some (encoded v) -> slen v = n -> readBase64 d name n = Ok v.
Proof. intros E <-. by apply readBase64_written. Qed.

Lemma base64KeyPath_written source path label v n :
  read_file source path = Some (encoded v) -> slen v = n -> base64KeyPath source path label [n] = Ok v.
Proof.
  intros E <-. unfold base64KeyPath. rewrite E. cbn [or_else mbind res_bind]. unfold encoded. rewrite trim_encoded, base64_decode_encode.
  cbn [allowedLength]. by rewrite Z.eqb_refl.
Qed.

Lemma key_files_verify ok platform encryption result header quarantine bundle fs :
  slen platform = 64 -> slen encryption = 32 -> slen result = 64 -> slen header = 32 -> slen quarantine = 32 ->
  marshal bundle_json (hosted_bundle "hosted" encryption result) = Some bundle ->
  Verify (mkDirectory ok (key_files platform encryption result header quarantine bundle) fs) = Ok ().
Proof.
  intros Hp He Hr Hh Hq Hb. unfold Verify.
  erewrite (readBase64_size _ PlatformSigningPrivate platform) by (reflexivity || done). cbn [mbind res_bind].
  erewrite (readBase64_size _ PlatformSigningPublic (ed25519_public platform)) by (reflexivity || by apply ed25519_public_length).
  cbn [mbind res_bind]. rewrite String.eqb_refl. cbn [mbind res_bind negb refuse_if].
  erewrite (readBase64_size _ MonitorHeaderKey header) by (reflexivity || done). cbn [mbind res_bind].
  erewrite (readBase64_size _ QuarantineKey quarantine) by (reflexivity || done). cbn [mbind res_bind].
  erewrite (readBase64_size _ WorkerEncryption encryption) by (reflexivity || done). cbn [mbind res_bind].
  erewrite (readBase64_size _ WorkerResult result) by (reflexivity || done). cbn [mbind res_bind].
  change (dir_files _ !! HostedPublicBundle) with (Some (bundle +:+ newline)). cbn [or_else mbind res_bind].
  rewrite (proj2 (bundle_decodes _ _ Hb)). cbn [hosted_bundle pb_PoolID pb_EncryptionKeyID pb_ResultKeyID pb_EncryptionPublicKey pb_ResultPublicKey].
  by rewrite !String.eqb_refl.
Qed.

(** In an empty directory, with a random source that gives keys of the right sizes and a disk
    that works, the generation succeeds and leaves exactly the seven files; every private
    key in them is one the processes load ([base64KeyPath] of the configuration). *)
Theorem Generate_complete platform encryption result header quarantine :
  slen platform = 64 -> slen encryption = 32 -> slen result = 64 -> slen header = 32 -> slen quarantine = 32 ->
  exists bundle, marshal bundle_json (hosted_bundle "hosted" encryption result) = Some bundle /\
    let files := key_files platform encryption result header quarantine bundle in
    Generate (mkRandoms (Ok platform) (Ok encryption) (Ok result) (Ok header) (Ok quarantine)) (mkDirectory true ∅ []) =
      (Ok (), mkDirectory true files []) /\
    forall source label, (forall name, read_file source name = files !! name) ->
      base64KeyPath source PlatformSigningPrivate label [64] = Ok platform /\
      base64KeyPath source MonitorHeaderKey label [32] = Ok header /\
      base64KeyPath source QuarantineKey label [32] = Ok quarantine /\
      base64KeyPath source WorkerEncryption label [32] = Ok encryption /\
      base64KeyPath source WorkerResult label [64] = Ok result.
Proof.
  intros Hp He Hr Hh Hq. destruct (bundle_encodes (hosted_bundle "hosted" encryption result)) as [bundle Hb].
  exists bundle. split; [done|]. intros files. split.
  - pose proof (key_files_verify true platform encryption result header quarantine bundle [] Hp He Hr Hh Hq Hb) as HV.
    unfold Generate.
    do 7 (etrans; [eapply bind_run; reflexivity|]). cbv beta.
    do 6 (etrans; [eapply bind_run, write_runs; reflexivity|]).
    etrans; [eapply (bind_run _ _ _ bundle); unfold of_res; rewrite Hb; reflexivity|].
    etrans; [eapply bind_run, write_runs; reflexivity|].
    etrans; [eapply bind_run; reflexivity|]. unfold of_res. f_equal. exact HV.
  - intros source label Hf. repeat split; (eapply base64KeyPath_written; [by rewrite Hf|done]).
Qed.

(** A directory with any file in it is refused and left as it is; and whatever fails, a
    generation that reports success has left keys that verify. *)
Theorem Generate_safe r d :
  (dir_files d <> ∅ -> exists e, Generate r d = (Err e, d)) /\
  (forall d', Generate r d = (Ok (), d') -> Verify d' = Ok ()).
Proof.
  split.
  - intros Hd. assert (exists e, requireEmptyDirectory d = Err e) as [e He].
    { unfold requireEmptyDirectory. destruct (dir_ok d); [|eexists; reflexivity]. destruct (size (dir_files d)) eqn:E; [|eexists; reflexivity].
      by apply map_size_empty_iff in E. }
    exists e. unfold Generate, gets, of_res, mbind, SE_bind. rewrite He. reflexivity.
  - intros d' H. unfold Generate in H. do 15 (apply bind_ok in H as (? & ? & _ & H)).
    revert H. unfold gets, of_res, mbind, SE_bind. intros [= H <-]. exact H.
Qed.
End Facts.
End Keys.

(** ** Signed artifacts *)
Module Artifact.
Record Signature : Type := mkSignature { ar_Algorithm : string; ar_KeyID : string; ar_SHA256 : string; ar_Value : string }.

Section Artifact.
Context {P : Primitives} (read_file : string -> option bytes).

Definition SignFile (path keyID : string) (private : bytes) : res Signature :=
  data ← or_else (read_file path) "no such file";
  _ ← refuse_if ((slen data =? 0) || String.eqb keyID "" || negb (slen private =? 64)) "invalid signing configuration";
  let digest := sha256 data in
  Ok (mkSignature "Ed25519-SHA256" keyID (hex_encode digest) (base64_encode (ed25519_sign private digest))).

Definition VerifyFile (path : string) (signature : Signature) (public : bytes) : res () :=
  _ ← refuse_if (negb (String.eqb (ar_Algorithm signature) "Ed25519-SHA256") || negb (slen public =? 32)) "invalid artifact signature";
  data ← or_else (read_file path) "no such file";
  let digest := sha256 data in
  _ ← refuse_if (slen data =? 0) "empty artifact";
  _ ← refuse_if (negb (String.eqb (hex_encode digest) (ar_SHA256 signature))) "artifact digest mismatch";
  match base64_decode (ar_Value signature) with
  | Some raw => refuse_if (negb (ed25519_verify public digest raw)) "artifact signature mismatch"
  | None => Err (ErrorsNew "artifact signature mismatch")
  end.
End Artifact.

(** A signed file verifies under the public half of the key as long as it is unchanged. *)
Theorem VerifyFile_SignFile {P : Primitives} {L : PrimitiveLaws} read_file path keyID private signature :
  SignFile read_file path keyID private = Ok signature -> VerifyFile read_file path signature (ed25519_public private) = Ok ().
Proof.
  unfold SignFile, VerifyFile. destruct (read_file path) as [data|]; [|done]. cbn [or_else].
  intros (? & [= <-] & H)%res_bind_ok. apply res_bind_ok in H as ([] & E%refuse_if_ok & [= <-]).
  apply orb_false_iff in E as [[E1 _]%orb_false_iff E3%negb_false_iff]. apply Z.eqb_eq in E3. cbn [ar_Algorithm ar_SHA256 ar_Value].
  rewrite (ed25519_public_length _ E3). unfold mbind, res_bind.
  rewrite !String.eqb_refl, E1. cbn [refuse_if orb negb Z.eqb Pos.eqb]. rewrite base64_decode_encode, (ed25519_complete _ _ E3). done.
Qed.

(** *** The artifact-sign command *)

(** JSON of a signature. *)
Class SignatureJSON : Type := { signature_json : Codec Signature }.
Class SignatureLaws {J : SignatureJSON} : Prop := {
  signature_encodes v : is_Some (marshal signature_json v);
  signature_decodes v data : marshal signature_json v = Some data -> unmarshal signature_json data = Some v
}.

Section Command.
Context {P : Primitives} {J : SignatureJSON}.

Definition Write (path : string) (signature : Signature) : SE Keys.Directory () :=
  data ← of_res (or_else (marshal signature_json signature) "json: unsupported value");
  Keys.write_file false path data.

Definition Read (d : Keys.Directory) (path : string) : res Signature :=
  data ← or_else (Keys.dir_files d !! path) "no such file";
  or_else (unmarshal signature_json data) "invalid signature file".

Definition generate (privatePath publicPath : string) (private : res bytes) : SE Keys.Directory () :=
  _ ← of_res (refuse_if (String.eqb privatePath "") "private path required");
  private ← of_res private;
  _ ← Keys.write_file false privatePath (base64_encode private);
  Keys.write_file false publicPath (base64_encode (ed25519_public private)).

Definition read (d : Keys.Directory) (path : string) : res bytes :=
  data ← or_else (Keys.dir_files d !! path) "no such file";
  or_else (base64_decode (TrimSpace data)) "illegal base64 data".

Definition sign (file key signature keyID : string) : SE Keys.Directory () :=
  d ← gets id;
  raw ← of_res (read d key);
  value ← of_res (SignFile (fun path => Keys.dir_files d !! path) file keyID raw);
  Write signature value.

Definition verify (d : Keys.Directory) (file key signature : string) : res () :=
  raw ← read d key;
  value ← Read d signature;
  VerifyFile (fun path => Keys.dir_files d !! path) file value raw.

(** *** A signed release verifies, and an altered one does not *)

Context {L : PrimitiveLaws} {JL : SignatureLaws}.

Lemma read_written d path v : Keys.dir_files d !! path = Some (base64_encode v) -> read d path = Ok v.
Proof. intros E. unfold read. rewrite E. cbn [or_else mbind res_bind]. by rewrite Keys.trim_encoded, base64_decode_encode. Qed.

Definition signature_of (keyID : string) (private data : bytes) : Signature :=
  mkSignature "Ed25519-SHA256" keyID (hex_encode (sha256 data)) (base64_encode (ed25519_sign private (sha256 data))).

Lemma sign_runs ok files file key signature keyID private data :
  slen private = 64 -> keyID <> "" -> slen data <> 0 -> files !! key = Some (base64_encode private) -> files !! file = Some data ->
  exists text, marshal signature_json (signature_of keyID private data) = Some text /\
    sign file key signature keyID (Keys.mkDirectory ok files []) = (Ok (), Keys.mkDirectory ok (<[signature := text]> files) []).
Proof.
  intros Hp Hk Hd Ekey Efile. destruct (signature_encodes (signature_of keyID private data)) as [text Ht]. exists text. split; [done|].
  unfold sign. etrans; [eapply bind_run; reflexivity|]. cbn [id].
  etrans; [eapply (bind_run _ _ _ private); unfold of_res; rewrite (read_written _ _ private) by exact Ekey; reflexivity|].
  etrans; [eapply (bind_run _ _ _ (signature_of keyID private data)); unfold of_res, SignFile; cbn [Keys.dir_files]; rewrite Efile|].
  { cbn [or_else mbind res_bind]. apply String.eqb_neq in Hk. apply Z.eqb_neq in Hd. rewrite Hd, Hk, Hp. reflexivity. }
  unfold Write. rewrite Ht. reflexivity.
Qed.

Lemma verify_checks d file publicPath signature keyID private data text data' :
  slen private = 64 -> Keys.dir_files d !! publicPath = Some (base64_encode (ed25519_public private)) ->
  marshal signature_json (signature_of keyID private data) = Some text -> Keys.dir_files d !! signature = Some text ->
  Keys.dir_files d !! file = Some data' -> slen data' <> 0 ->
  verify d file publicPath signature = if String.eqb (hex_encode (sha256 data')) (hex_encode (sha256 data)) then Ok ()
                                       else Err (ErrorsNew "artifact digest mismatch").
Proof.
  intros Hp Epub Ht Esig Efile Hd. unfold verify, Read. rewrite (read_written _ _ _ Epub), Esig. cbn [or_else mbind res_bind].
  rewrite (signature_decodes _ _ Ht). cbn [or_else mbind res_bind]. unfold VerifyFile, signature_of. cbn [ar_Algorithm ar_SHA256 ar_Value].
  rewrite (ed25519_public_length _ Hp), Efile. apply Z.eqb_neq in Hd.
  destruct (String.eqb_spec (hex_encode (sha256 data')) (hex_encode (sha256 data))) as [E|E];
    unfold mbind, res_bind; cbn [refuse_if orb negb Z.eqb Pos.eqb or_else]; rewrite String.eqb_refl; cbn [refuse_if orb negb]; rewrite Hd.
  - rewrite E, String.eqb_refl. cbn [negb refuse_if]. rewrite base64_decode_encode.
    assert (sha256 data' = sha256 data) as -> by (apply (f_equal hex_decode) in E; rewrite !hex_decode_encode in E; congruence).
    by rewrite (ed25519_complete _ _ Hp).
  - apply String.eqb_neq in E. by rewrite E.
Qed.

(** Keys are generated, a file is signed and its signature verified, each step from what the one
    before left on disk: all succeed.  When the file is replaced afterwards, it verifies
    exactly when its digest is unchanged. *)
Theorem release_verified ok files file key publicPath signature keyID private data :
  slen private = 64 -> keyID <> "" -> key <> "" -> slen data <> 0 -> files !! file = Some data ->
  NoDup [file; key; publicPath; signature] ->
  exists d1 d2, generate key publicPath (Ok private) (Keys.mkDirectory ok files []) = (Ok (), d1) /\
    sign file key signature keyID d1 = (Ok (), d2) /\ verify d2 file publicPath signature = Ok () /\
    forall data', slen data' <> 0 ->
      let d3 := Keys.mkDirectory ok (<[file := data']> (Keys.dir_files d2)) [] in
      verify d3 file publicPath signature = Ok () <-> sha256 data' = sha256 data.
Proof.
  intros Hp Hk Hkey Hd Efile Hnd. set (files1 := <[publicPath := base64_encode (ed25519_public private)]> (<[key := base64_encode private]> files)).
  assert (file <> key /\ file <> publicPath /\ file <> signature /\ key <> publicPath /\ key <> signature /\ publicPath <> signature)
    as (N1 & N2 & N3 & N4 & N5 & N6).
  { rewrite !NoDup_cons in Hnd. set_solver. }
  destruct (sign_runs ok files1 file key signature keyID private data Hp Hk Hd) as (text & Ht & Hsign).
  { unfold files1. by rewrite lookup_insert_ne, lookup_insert_eq. }
  { unfold files1. by rewrite !lookup_insert_ne. }
  exists (Keys.mkDirectory ok files1 []), (Keys.mkDirectory ok (<[signature := text]> files1) []). split_and!; [|exact Hsign| |].
  - unfold generate. apply String.eqb_neq in Hkey. rewrite Hkey. do 2 (etrans; [eapply bind_run; reflexivity|]).
    etrans; [eapply bind_run; reflexivity|]. reflexivity.
  - rewrite (verify_checks _ _ _ _ keyID private data text data); try done; cbn [Keys.dir_files].
    + by rewrite String.eqb_refl.
    + unfold files1. by rewrite lookup_insert_ne, lookup_insert_eq.
    + by rewrite lookup_insert_eq.
    + unfold files1. by rewrite !lookup_insert_ne.
  - intros data' Hd'. cbn zeta. rewrite (verify_checks _ _ _ _ keyID private data text data'); try done; cbn [Keys.dir_files].
    + destruct (String.eqb_spec (hex_encode (sha256 data')) (hex_encode (sha256 data))) as [E|E]; split; try done.
      * intros _. apply (f_equal hex_decode) in E. rewrite !hex_decode_encode in E. congruence.
      * intros E'. by rewrite E' in E.
    + unfold files1. by rewrite lookup_insert_ne, lookup_insert_ne, lookup_insert_eq.
    + by rewrite lookup_insert_ne, lookup_insert_eq.
    + by rewrite lookup_insert_eq.
Qed.
End Command.
End Artifact.

(** ** The worker-pool command *)
Module PoolCommand.
Import Keys.

(** The flags of the command besides its mode. *)
Record Flags : Type := mkFlags {
  fl_pool : string;
  fl_bundle : string;
  fl_poolMode : string;
  fl_queueURL : string;
  fl_queueARN : string;
  fl_dlqURL : string;
  fl_dlqARN : string;
  fl_mtlsFingerprint : string;
  fl_mtlsExpiry : string;
  fl_manifest : string;
  fl_gatewayMapped : bool;
  fl_actor : string;
  fl_reason : string;
  fl_confirmation : string;
  fl_deletionReadiness : DeletionReadiness
}.

Lemma of_res_cases {S A C} (r : res A) (k : A -> SE S C) (s : S) :
  (exists e, (of_res r ≫= k) s = (Err e, s)) \/ (exists a, r = Ok a /\ (of_res r ≫= k) s = k a s).
Proof. destruct r as [a|e]; [right; by exists a|left; by exists e]. Qed.

(** The next check of a run: refused, with nothing changed, or passed with a value. *)
Ltac step_res_as a E :=
  match goal with |- context [(of_res ?r ≫= ?k) ?w] =>
    let e := fresh "e" in destruct (of_res_cases r k w) as [[e ->]|(a & E & ->)]; [left; by exists e|] end.
Tactic Notation "step_res" "as" ident(a) ident(E) := step_res_as a E.
Tactic Notation "step_res" := let a := fresh "a" in let E := fresh "E" in step_res_as a E; clear E.

Section Command.
Context {P : Primitives} {B : BundleJSON} {O : Type}.

(** [os.WriteFile] replaces a file.  The error of the encoder is dropped. *)
Definition generate (pool path prefix : string) (encryption result : res bytes) : SE Directory () :=
  _ ← of_res (refuse_if (String.eqb pool "") "pool required");
  encryption ← of_res encryption;
  result ← of_res result;
  _ ← write_file false (prefix +:+ "-encryption.key") (base64_encode encryption);
  _ ← write_file false (prefix +:+ "-result.key") (base64_encode result);
  let data := default "" (marshal bundle_json (hosted_bundle pool encryption result)) in
  write_file false path data.

(** [time.Parse] beyond the short form of RFC 3339, and the connection to the database. *)
Context (source : commandSource) (general : string -> option Z) (database : res ()).

Definition manifestDigest (path : string) : res bytes :=
  data ← or_else (read_file source path) "no such file";
  Ok (sha256 data).

Definition mtls_expiry (text : string) : res Z :=
  if String.eqb text "" then Ok zero_time else or_else (Parse general text) "invalid mTLS expiry".

Definition registration (f : Flags) : res Registration :=
  data ← or_else (read_file source (fl_bundle f)) "no such file";
  b ← or_else (unmarshal bundle_json data) "invalid public bundle";
  _ ← refuse_if (negb (String.eqb (pb_PoolID b) (fl_pool f))) "invalid public bundle";
  enc ← or_else (base64_decode (pb_EncryptionPublicKey b)) "illegal base64 data";
  result ← or_else (base64_decode (pb_ResultPublicKey b)) "illegal base64 data";
  notAfter ← mtls_expiry (fl_mtlsExpiry f);
  Ok (mkRegistration (fl_pool f) (fl_poolMode f) (fl_queueURL f) (fl_queueARN f) (fl_dlqURL f) (fl_dlqARN f)
        (pb_EncryptionKeyID b) (pb_ResultKeyID b) enc result 1 2 (fl_mtlsFingerprint f) notAfter).

Definition operate (t now : Z) (mode : string) (f : Flags) : SE (World PoolDB O) () :=
  _ ← of_res (refuse_if (String.eqb (fl_pool f) "" || String.eqb (TrimSpace (fl_actor f)) "" || String.eqb (TrimSpace (fl_reason f)) "")
        "pool, actor, and reason required");
  _ ← of_res (refuse_if (String.eqb (optional source "WATCHTRACE_DATABASE_URL") "") "database URL required");
  _ ← of_res database;
  let pool := fl_pool f in let actor := fl_actor f in let reason := fl_reason f in
  if String.eqb mode "register" then r ← of_res (registration f); Register t now r actor reason
  else if String.eqb mode "activate" || String.eqb mode "reconcile" then
    digest ← of_res (manifestDigest (fl_manifest f));
    if String.eqb mode "activate" then Activate t pool digest (fl_gatewayMapped f) actor reason
    else Reconcile t pool digest (fl_gatewayMapped f) actor reason
  else if String.eqb mode "drain" then Transition t pool "draining" actor reason
  else if String.eqb mode "revoke" then Transition t pool "revoked" actor reason
  else if String.eqb mode "fail" then Transition t pool "failed" actor reason
  else if String.eqb mode "delete" then DeletePool t pool (fl_confirmation f) actor reason (fl_deletionReadiness f)
  else throw (ErrorsNew "unknown mode").

(** *** The command makes the requests of the operator *)

Lemma registration_pool f r : registration f = Ok r -> rg_ID r = fl_pool f.
Proof. unfold registration. intros H. repeat (apply res_bind_ok in H as (? & _ & H)). by injection H as <-. Qed.

(** Whatever the flags, the command either fails and changes nothing or makes one request of
    the pool service as the operator named in the flags: its runs are runs the lifecycle
    theorems of [Pools] speak of. *)
Theorem operate_is_request t now mode f (w : World PoolDB O) :
  (exists e, operate t now mode f w = (Err e, w)) \/
  (exists r, operate t now mode f w = Pools.operate t now (fl_actor f) (fl_reason f) r w /\ request_pool r = fl_pool f).
Proof.
  unfold operate. do 3 step_res. cbv beta zeta. repeat case_match; try (left; by eexists).
  - step_res as reg E. right. exists (PRegister reg). split; [done|]. by eapply registration_pool.
  - step_res as digest E. right. by exists (PActivate (fl_pool f) digest (fl_gatewayMapped f)).
  - step_res as digest E. right. by exists (PReconcile (fl_pool f) digest (fl_gatewayMapped f)).
  - right. by exists (PTransition (fl_pool f) "draining").
  - right. by exists (PTransition (fl_pool f) "revoked").
  - right. by exists (PTransition (fl_pool f) "failed").
  - right. by exists (PDelete (fl_pool f) (fl_confirmation f) (fl_deletionReadiness f)).
Qed.

(** *** Keys that were generated are the ones registered *)

(** The registration of a bundle that [generate] wrote. *)
Definition generated_registration (f : Flags) (encryption result : bytes) (notAfter : Z) : Registration :=
  mkRegistration (fl_pool f) (fl_poolMode f) (fl_queueURL f) (fl_queueARN f) (fl_dlqURL f) (fl_dlqARN f) "enc-v1" "result-v1"
    (x25519_public encryption) (ed25519_public result) 1 2 (fl_mtlsFingerprint f) notAfter.

Context {L : PrimitiveLaws} {BL : BundleLaws}.

Lemma replace_runs name v ok files :
  write_file false name v (mkDirectory ok files []) = (Ok (), mkDirectory ok (<[name := v]> files) []).
Proof. done. Qed.

Lemma generate_runs pool path prefix encryption result ok files : pool <> "" ->
  exists data, marshal bundle_json (hosted_bundle pool encryption result) = Some data /\
    generate pool path prefix (Ok encryption) (Ok result) (mkDirectory ok files []) =
      (Ok (), mkDirectory ok (<[path := data]> (<[prefix +:+ "-result.key" := base64_encode result]>
                              (<[prefix +:+ "-encryption.key" := base64_encode encryption]> files))) []).
Proof.
  intros Hp. destruct (bundle_encodes (hosted_bundle pool encryption result)) as [data Hd]. exists data. split; [done|].
  unfold generate. apply String.eqb_neq in Hp. rewrite Hp. do 3 (etrans; [eapply bind_run; reflexivity|]).
  do 2 (etrans; [eapply bind_run, replace_runs|]). by rewrite Hd.
Qed.

Lemma registration_generated f encryption result notAfter data :
  read_file source (fl_bundle f) = Some data -> marshal bundle_json (hosted_bundle (fl_pool f) encryption result) = Some data ->
  mtls_expiry (fl_mtlsExpiry f) = Ok notAfter -> registration f = Ok (generated_registration f encryption result notAfter).
Proof.
  intros Hr Hd He. unfold registration. rewrite Hr. cbn [or_else mbind res_bind]. rewrite (proj1 (bundle_decodes _ _ Hd)).
  cbn [or_else mbind res_bind hosted_bundle pb_PoolID pb_EncryptionPublicKey pb_ResultPublicKey pb_EncryptionKeyID pb_ResultKeyID].
  rewrite String.eqb_refl, !base64_decode_encode, He. done.
Qed.

(** Keys generated for a pool, then registered from the bundle on disk: both runs need nothing
    but a disk that works, the private keys load with the sizes the worker asks for, and the
    service registers the public halves of exactly these private keys. *)
Theorem generated_keys_registered t now f prefix encryption result notAfter ok files (w : World PoolDB O) :
  slen encryption = 32 -> slen result = 64 -> fl_pool f <> "" -> TrimSpace (fl_actor f) <> "" -> TrimSpace (fl_reason f) <> "" ->
  optional source "WATCHTRACE_DATABASE_URL" <> "" -> database = Ok () -> mtls_expiry (fl_mtlsExpiry f) = Ok notAfter ->
  fl_bundle f <> prefix +:+ "-encryption.key" -> fl_bundle f <> prefix +:+ "-result.key" ->
  exists d', generate (fl_pool f) (fl_bundle f) prefix (Ok encryption) (Ok result) (mkDirectory ok files []) = (Ok (), d') /\
    ((forall name, read_file source name = dir_files d' !! name) ->
      base64KeyPath source (prefix +:+ "-encryption.key") "" [32] = Ok encryption /\
      base64KeyPath source (prefix +:+ "-result.key") "" [64] = Ok result /\
      operate t now "register" f w = Register t now (generated_registration f encryption result notAfter) (fl_actor f) (fl_reason f) w).
Proof.
  intros He Hr Hp Ha Hq Hu Hd Hx Hn1 Hn2.
  destruct (generate_runs (fl_pool f) (fl_bundle f) prefix encryption result ok files Hp) as (data & Hm & Hg).
  eexists. split; [exact Hg|]. cbn [dir_files]. intros Hf.
  assert (prefix +:+ "-encryption.key" <> prefix +:+ "-result.key") as Hne by (intros E; by apply (inj (String.append prefix)) in E).
  split; [|split].
  - eapply base64KeyPath_written; [|done]. by rewrite Hf, lookup_insert_ne, lookup_insert_ne, lookup_insert_eq.
  - eapply base64KeyPath_written; [|done]. by rewrite Hf, lookup_insert_ne, lookup_insert_eq.
  - apply String.eqb_neq in Hp, Ha, Hq, Hu. unfold operate. rewrite Hp, Ha, Hq, Hu, Hd.
    do 3 (etrans; [eapply bind_run; reflexivity|]). cbn [String.eqb Ascii.eqb Bool.eqb]. etrans; [eapply bind_run|]; [|reflexivity].
    unfold of_res. erewrite registration_generated; [done| |exact Hm|exact Hx]. by rewrite Hf, lookup_insert_eq.
Qed.
End Command.
End PoolCommand.
