(* ===== verification/Engine.v ===== *)
(** * Engine: the monitor engine as a process

    Models the loops of cmd/monitor-engine/main.go ([runScheduler], [runPublisher],
    [runConsumer], [runDLQ], [runMaintenance]), cmd/worker and cmd/notification-worker
    ([run]), their health endpoints, the HTTP server these run on
    (internal/platform/httpserver) and the logging of the queues (queue_logging.go).

    A loop runs a turn for every element of a list, the turns that begin before the
    context is cancelled; an element holds what the turn takes from outside (clock, row
    locks of other sessions, random bytes).  What a loop returns here is how long it
    waited after each turn.  [turn] is the interleaving of the loops, a turn at a time;
    timers are not modelled, and goroutines and channels only where [Serve] uses them.

    The theorems: in every interleaving, with any failures, an accepted check stays until
    retention may delete it and its job with it (the loops, the ledger, the rollups and
    retention together); the logging wrappers change nothing of what the components do
    and write nothing but identifiers; a probe changes nothing; [Serve] of the HTTP server
    does not get stuck and does not leave its goroutine behind; a worker process makes only
    the steps of a host. *)

From stdpp Require Import base gmap list strings sorting.
From Stdlib Require Import ZArith Lia Ascii String.
From S2P Require Import Prelude Tx Store Reliability Bytes Envelope Sealing Scheduler Publisher Consumer Ledger.
From S2P Require Import Notification Workqueue Checkengine Worker Rollups Operations.

#[local] Open Scope Z_scope.

(** ** The loops *)

Definition millisecond : Z := 1000000.

(** A turn, and how long the loop waits after it: a second after an error, [idle] when
    there was nothing to do. *)
Definition poll {W} (idle : Z) (turn : SE W bool) : SE W Z :=
  worked ← try_ turn;
  mret (match worked with Err _ => second | Ok true => 0 | Ok false => idle end).

Fixpoint polled {W} (idle : Z) (turns : list (SE W bool)) : SE W (list Z) :=
  match turns with
  | [] => mret []
  | t :: turns => p ← poll idle t; ps ← polled idle turns; mret (p :: ps)
  end.

Section Loops.
Context (uuid_in : string -> option string) {P : Primitives} {O : Type}.

Definition runDLQ PullDLQ AcknowledgeDLQ (sealer : option bytes) (turns : list (res bytes * Z)) : SE (World OpsDB O) (list Z) :=
  polled second ((fun x => on_engine_part (ReconcileNext uuid_in PullDLQ AcknowledgeDLQ sealer x.1 x.2)) <$> turns).

Definition runScheduler (s : Scheduler) (ticks : list (Environment * Z)) : SE (World OpsDB O) () :=
  foldM (fun _ x => ignore (on_engine_part (ScheduleDue s x.1 x.2 20))) () ticks.

Definition runPublisher Send (turns : list ((string -> bool) * (Z * Z * Z))) : SE (World OpsDB O) (list Z) :=
  polled (100 * millisecond) ((fun x => let '(locked, (now, t1, t2)) := x in on_engine_part (PublishNext Send locked now t1 t2)) <$> turns).

Definition runConsumer PullResult AcknowledgeResult (sealer : option bytes) (turns : list (res bytes * (Z * Z * Z))) : SE (World OpsDB O) (list Z) :=
  polled (100 * millisecond) ((fun x => let '(nonce, (t, now, evaluatedAt)) := x in
    on_engine_part (ConsumeNext uuid_in PullResult AcknowledgeResult sealer nonce t now evaluatedAt)) <$> turns).

(** The first pass is at once, the others with the ticker. *)
Definition runMaintenance (first : (nat -> Z) * Z) (ticks : list ((nat -> Z) * Z)) : SE (World OpsDB O) () :=
  _ ← maintain first.1 first.2;
  foldM (fun _ x => maintain x.1 x.2) () ticks.

(** One turn of one of the loops; [T] bounds the times of the maintenance. *)
Inductive turn (T : Z) : World OpsDB O -> World OpsDB O -> Prop :=
| tn_schedule s env started w : turn T w (ignore (on_engine_part (ScheduleDue s env started 20)) w).2
| tn_publish send locked now t1 t2 w : turn T w (on_engine_part (PublishNext send locked now t1 t2) w).2
| tn_consume pull ack sealer nonce t now evaluatedAt w :
    turn T w (on_engine_part (ConsumeNext uuid_in pull ack sealer nonce t now evaluatedAt) w).2
| tn_dlq pull ack sealer nonce started w : turn T w (on_engine_part (ReconcileNext uuid_in pull ack sealer nonce started) w).2
| tn_maintain clock now w : now <= T -> turn T w (maintain clock now w).2.
End Loops.

(** ** What the engine keeps *)

(** The checks [H] accepted earlier are still there, or older than retention keeps them; and
    every accepted check has its job. *)
Definition kept_inv (T : Z) (H : gmap string HealthCheck) (d : DB) : Prop :=
  ledger_inv d /\ forall id h, H !! id = Some h -> health_checks d !! id = Some h \/ hc_scheduled_at h < T - 7 * day.

Section Kept.
Context (T : Z) (H : gmap string HealthCheck) {O : Type}.

(** What the ledger keeps, whatever checks there were, is kept. *)
Lemma kept_of_ledger {A} (m : SE (World DB O) A) :
  (forall H', keeps (w_inv (engine_inv H')) m) -> keeps (w_inv (kept_inv T H)) m.
Proof.
  intros Hm w [Hi Hk]. specialize (Hm (health_checks (w_db w)) w (conj Hi (reflexivity _))).
  destruct (m w) as [[a|e] w']; destruct Hm as [Hi' Hs]; (split; [done|]); intros id h Hh;
    (destruct (Hk id h Hh) as [Hw|Hw]; [left; by eapply lookup_weaken|by right]).
Qed.

Lemma kept_engine_part {A} (m : SE (World DB O) A) : keeps (w_inv (kept_inv T H)) m ->
  keeps (w_inv (fun d => kept_inv T H (ops_tables d))) (on_engine_part m).
Proof.
  intros Hm w Hw. unfold on_engine_part, on_part.
  specialize (Hm (mkWorld (ops_tables (w_db w)) (w_ext w) (w_uuid w) (w_next w) (w_faults w)) Hw).
  by destruct (m _) as [[a|e] w'].
Qed.

Lemma kept_rollup_part {A} (m : SE (World RollupDB O) A) : keeps (w_inv (fun d => kept_inv T H (tables d))) m ->
  keeps (w_inv (fun d => kept_inv T H (ops_tables d))) (on_rollup_part m).
Proof.
  intros Hm w Hw. unfold on_rollup_part, on_part.
  specialize (Hm (mkWorld (ops_rollups (w_db w)) (w_ext w) (w_uuid w) (w_next w) (w_faults w)) Hw).
  by destruct (m _) as [[a|e] w'].
Qed.

Lemma kept_frame d d' : check_jobs d' = check_jobs d -> health_checks d' = health_checks d -> kept_inv T H d -> kept_inv T H d'.
Proof. unfold kept_inv, ledger_inv. by intros -> ->. Qed.

(** *** The rollups write neither table *)

Definition rollup_kept (d : RollupDB) : Prop := kept_inv T H (tables d).

Lemma kept_RollupHour t b : keeps (w_inv (O := O) rollup_kept) (RollupHour t b).
Proof.
  unfold RollupHour, UpsertHourlyMonitorRollups, DeleteHourlyRollupInvalidations.
  repeat first [apply keeps_update; intros ? d Hi; by refine (kept_frame _ _ _ _ Hi)|keep_step].
  apply keeps_sql. intros now d a d' Hi. cbv zeta. case_match; [done|]. by intros [= _ <-].
Qed.

Lemma kept_RollupDay t b : keeps (w_inv (O := O) rollup_kept) (RollupDay t b).
Proof.
  unfold RollupDay, UpsertDailyMonitorRollups, DeleteDailyRollupInvalidations, HasHourlyRollupInvalidationsForDay.
  repeat first [apply keeps_update; intros ? d Hi; by refine (kept_frame _ _ _ _ Hi)|keep_step].
  apply keeps_sql. intros now d a d' Hi. cbv zeta. by intros [= _ <-].
Qed.

Lemma kept_repair clock fuel i n : keeps (w_inv (O := O) rollup_kept) (repair clock i fuel n).
Proof.
  revert i n. induction fuel as [|fuel IH]; intros i n; simpl; [keep|].
  unfold GetNextRepairableRollupInvalidation.
  repeat first [apply kept_RollupHour|apply kept_RollupDay|apply IH|keep_step].
Qed.

Lemma kept_advance_hours clock n i now : keeps (w_inv (O := O) rollup_kept) (advance_hours clock i n now).
Proof.
  revert i. induction n as [|n IH]; intros i; simpl; [keep|]. unfold LockHourlyRollupCheckpoint, AdvanceHourlyRollupCheckpoint.
  repeat first [apply kept_RollupHour|apply IH|apply keeps_update; intros ? d Hi; by refine (kept_frame _ _ _ _ Hi)|keep_step].
Qed.

Lemma kept_advance_days clock n i now : keeps (w_inv (O := O) rollup_kept) (advance_days clock i n now).
Proof.
  revert i. induction n as [|n IH]; intros i; simpl; [keep|]. unfold LockDailyRollupCheckpoint, AdvanceDailyRollupCheckpoint.
  repeat first [apply kept_RollupDay|apply IH|apply keeps_update; intros ? d Hi; by refine (kept_frame _ _ _ _ Hi)|keep_step].
Qed.

(** *** Nor does the evaluation *)

Lemma kept_evaluate t m now : keeps (w_inv (O := O) (kept_inv T H)) (EvaluateMonitor t m now).
Proof.
  unfold EvaluateMonitor. apply keeps_with_tx. apply keeps_bind; [|intros; apply keeps_ret].
  intros s Hs. pose proof (evaluateTx_frame (tx_db s) m None now s (evaluation_frame_refl _)) as Hf.
  destruct (evaluateTx m None now s) as [[a|e] s']; unfold tx_inv in *; destruct Hf as (x1 & x2 & x3 & x4 & ->); by refine (kept_frame _ _ _ _ Hs).
Qed.

Lemma kept_refresh t now limit : keeps (w_inv (O := O) (kept_inv T H)) (RefreshDueStates t now limit).
Proof. unfold RefreshDueStates, ListMonitorsDueForStateRefresh. repeat first [apply kept_evaluate|keep_step]. Qed.

Lemma kept_on_engine_tables {A} (m : SE (World DB O) A) : keeps (w_inv (kept_inv T H)) m ->
  keeps (w_inv rollup_kept) (on_engine_tables m).
Proof.
  intros Hm w Hw. unfold on_engine_tables.
  specialize (Hm (mkWorld (tables (w_db w)) (w_ext w) (w_uuid w) (w_next w) (w_faults w)) Hw).
  by destruct (m _) as [[a|e] w'].
Qed.

(** *** Retention deletes only old checks, and jobs without one *)

Lemma foldr_delete_sub {V} (t : gmap string V) l : foldr delete t l ⊆ t.
Proof. induction l as [|k l IH]; [done|]. simpl. etrans; [apply delete_subseteq|done]. Qed.

Lemma retention_subset now s x s' : retention_tx now s = (Ok x, s') ->
  health_checks (tables (tx_db s')) ⊆ health_checks (tables (tx_db s)).
Proof.
  unfold retention_tx. intros E. apply bind_ok in E as (c0 & s0 & H0 & E). apply sql_ok in H0 as [[= _ D0] _].
  apply bind_ok in E as (c1 & s1 & H1 & E). apply sql_ok in H1 as [[= _ D1] _].
  apply bind_ok in E as (c2 & s2 & H2 & E). apply sql_ok in H2 as [[= _ D2] _].
  apply bind_ok in E as (c3 & s3 & H3 & E). apply sql_ok in H3 as [[= _ D3] _].
  apply bind_ok in E as (c4 & s4 & H4 & E). apply sql_ok in H4 as [Hq _]. cbv beta zeta in Hq. revert Hq. case_decide; [done|]. intros [= _ D4].
  apply bind_ok in E as (u & s5 & H5 & E). apply update_ok in H5 as [D5 _]. apply ret_ok in E as [_ <-].
  rewrite D5, <- D4, <- D3, <- D2, <- D1, <- D0. cbn. apply foldr_delete_sub.
Qed.

Lemma retained_kept now d d' : now <= T -> retained now d d' -> health_checks (tables d') ⊆ health_checks (tables d) ->
  rollup_kept d -> rollup_kept d'.
Proof.
  intros Ht [Hc _ _ _ Hj _ _] Hsub [Hi Hk]. split.
  - intros id h Hh. pose proof (lookup_weaken _ _ _ _ Hh Hsub) as Hh0. destruct (Hi id h Hh0) as (j & Ej & Hr).
    exists j. split; [|done]. destruct (Hj id j Ej) as [?|[_ Hn]]; [done|congruence].
  - intros id h Hh. destruct (Hk id h Hh) as [Hw|Hw]; [|by right]. destruct (Hc id h Hw) as [?|[? _]]; [by left|right; lia].
Qed.

Lemma kept_retention t now : now <= T -> keeps (w_inv (O := O) rollup_kept) (ApplyRetention t now).
Proof.
  intros Ht w Hw. unfold ApplyRetention. destruct (with_tx t (retention_tx now) w) as [r w'] eqn:E.
  cut (rollup_kept (w_db w')); [by destruct r|]. apply with_tx_db in E as [->|(fs & x & s & Hb & ->)]; [done|].
  pose proof (retention_subset _ _ _ _ Hb) as Hsub. apply retention_tx_ok in Hb. by eapply retained_kept.
Qed.

Lemma kept_Maintain clock now : now <= T -> keeps (w_inv (O := O) rollup_kept) (Maintain clock now).
Proof.
  intros Ht. unfold Maintain, AdvanceRollups, RepairInvalidated.
  repeat first [apply kept_retention; exact Ht|apply kept_RollupHour|apply kept_RollupDay|apply kept_repair|apply kept_advance_hours|
    apply kept_advance_days|apply kept_on_engine_tables, kept_refresh|keep_step].
Qed.

(** *** The turns *)

Lemma kept_record t ended task started count failed :
  keeps (w_inv (O := O) (fun d => kept_inv T H (ops_tables d))) (RecordRun t ended task started count failed).
Proof.
  unfold RecordRun. apply keeps_with_tx. destruct (count <? 0) eqn:Ec; [apply keeps_throw|].
  apply keeps_bind; [|intros n; destruct (negb _); [apply keeps_throw|apply keeps_ret]].
  apply keeps_sql. intros now d n d' Hi. destruct (ops_status d !! task); [|by intros [= _ <-]].
  case_match; [done|]. by intros [= _ <-].
Qed.

Lemma kept_maintain clock now : now <= T -> keeps (w_inv (O := O) (fun d => kept_inv T H (ops_tables d))) (maintain clock now).
Proof.
  intros Ht. unfold maintain.
  repeat first [apply kept_record|apply kept_rollup_part, kept_Maintain, Ht|keep_step].
  - apply kept_engine_part, kept_of_ledger. intros. apply ledger_reclaimer.
  - apply kept_engine_part, kept_of_ledger. intros. apply ledger_sweep.
  - apply kept_engine_part, kept_of_ledger. intros. apply ledger_cleanup.
Qed.
End Kept.

Section Process.
Context (uuid_in : string -> option string) {P : Primitives} {O : Type}.

Lemma turn_kept T H (w w' : World OpsDB O) : turn uuid_in T w w' -> kept_inv T H (ops_tables (w_db w)) -> kept_inv T H (ops_tables (w_db w')).
Proof.
  intros [s env started w0|send locked now t1 t2 w0|pull ack sealer nonce t now evaluatedAt w0|pull ack sealer nonce started w0|clock now w0 Ht];
    apply (keeps_final (w_inv (fun d => kept_inv T H (ops_tables d)))).
  - apply keeps_ignore, kept_engine_part, kept_of_ledger. intros. apply ledger_scheduler.
  - apply kept_engine_part, kept_of_ledger. intros. apply ledger_publisher.
  - apply kept_engine_part, kept_of_ledger. intros. apply ledger_consumer.
  - apply kept_engine_part, kept_of_ledger. intros. apply ledger_dlq.
  - by apply kept_maintain.
Qed.

Lemma turn_statuses T s (w w' : World OpsDB O) : turn uuid_in T w w' -> status_inv s (w_db w) -> status_inv s (w_db w').
Proof.
  intros [? ? ? w0|? ? ? ? ? w0|? ? ? ? ? ? ? w0|? ? ? ? ? w0|clock now w0 Ht]; apply (keeps_final (w_inv (status_inv s)));
    try (unfold on_engine_part; keep; apply keeps_part; by intros).
  exact (proj1 (keeps_turns s clock now)).
Qed.

(** C4: however the loops of the engine interleave and whatever fails in them, an accepted check is
    never changed, and is removed only by the retention once it is more than seven days old;
    its job stays in the ledger, completed, with the monitor and the slot of the check, for as
    long as the check is there; and the statuses of the maintenance stay complete. *)
Theorem engine_keeps_results T (w w' : World OpsDB O) :
  rtc (turn uuid_in T) w w' -> ledger_inv (ops_tables (w_db w)) -> statuses_ok (w_db w) ->
  ledger_inv (ops_tables (w_db w')) /\
  (forall id h, health_checks (ops_tables (w_db w)) !! id = Some h ->
     health_checks (ops_tables (w_db w')) !! id = Some h \/ hc_scheduled_at h < T - 7 * day) /\
  statuses_ok (w_db w') /\ remembers (ops_status (w_db w)) (w_db w').
Proof.
  intros Hr Hi Hs. set (H := health_checks (ops_tables (w_db w))). set (s := ops_status (w_db w)).
  assert (kept_inv T H (ops_tables (w_db w))) as Hk by (split; [done|by left]).
  assert (status_inv s (w_db w)) as Hst by (split; [done|]; intros task r E; by exists r).
  clearbody H s. clear Hi Hs. induction Hr as [w|w1 w2 w3 Ht Hr IH]; [by destruct Hk, Hst|].
  apply IH; [by eapply turn_kept|by eapply turn_statuses].
Qed.

(** *** The loops take these turns *)

Lemma polled_turns T idle (turns : list (SE (World OpsDB O) bool)) (w : World OpsDB O) :
  (forall m, m ∈ turns -> forall w, turn uuid_in T w (m w).2) -> rtc (turn uuid_in T) w (polled idle turns w).2.
Proof.
  revert w. induction turns as [|m turns IH]; intros w Hm; [apply rtc_refl|]. simpl. unfold poll, try_, mbind, SE_bind.
  eapply rtc_l; [apply (Hm m); left|]. destruct (m w) as [r w1]. cbn.
  specialize (IH w1 ltac:(intros m' Hm'; apply Hm; by right)). by destruct (polled idle turns w1) as [[?|?] w2].
Qed.

Lemma folded_turns {X} T (f : X -> SE (World OpsDB O) ()) (l : list X) (w : World OpsDB O) :
  (forall x, x ∈ l -> forall w, turn uuid_in T w (f x w).2) -> rtc (turn uuid_in T) w (foldM (fun _ x => f x) () l w).2.
Proof.
  revert w. induction l as [|x l IH]; intros w Hf; [apply rtc_refl|]. simpl. unfold mbind, SE_bind.
  eapply rtc_l; [apply (Hf x); left|]. destruct (f x w) as [[[]|e] w1]; [|apply rtc_refl]. apply IH. intros; apply Hf; by right.
Qed.

(** Every loop of the engine, run for any number of turns, is a sequence of turns. *)
Theorem loops_take_turns T (w : World OpsDB O) :
  (forall pull ack sealer turns, rtc (turn uuid_in T) w (runDLQ uuid_in pull ack sealer turns w).2) /\
  (forall s ticks, rtc (turn uuid_in T) w (runScheduler s ticks w).2) /\
  (forall send turns, rtc (turn uuid_in T) w (runPublisher send turns w).2) /\
  (forall pull ack sealer turns, rtc (turn uuid_in T) w (runConsumer uuid_in pull ack sealer turns w).2) /\
  (forall first ticks, Forall (fun x => x.2 <= T) (first :: ticks) -> rtc (turn uuid_in T) w (runMaintenance first ticks w).2).
Proof.
  split_and!.
  - intros. apply polled_turns. intros m ([nonce started] & -> & _)%list_elem_of_fmap w0. constructor.
  - intros. apply folded_turns. intros [env started] _ w0. constructor.
  - intros. apply polled_turns. intros m ([locked [[now t1] t2]] & -> & _)%list_elem_of_fmap w0. constructor.
  - intros. apply polled_turns. intros m ([nonce [[t now] ev]] & -> & _)%list_elem_of_fmap w0. constructor.
  - intros first ticks [Hf Ht]%Forall_cons. unfold runMaintenance, mbind, SE_bind.
    eapply rtc_l; [by apply (tn_maintain uuid_in T first.1 first.2)|]. destruct (maintain first.1 first.2 w) as [[[]|e] w1]; [|apply rtc_refl].
    apply folded_turns. intros x Hx w0. constructor. rewrite Forall_forall in Ht. by apply Ht.
Qed.
End Process.

Lemma engine_keeps_results_witness :
  let w' := (maintain FreshStatuses.clock (72 * hour) FreshStatuses.world).2 in
  ledger_inv (ops_tables (w_db w')) /\
  (forall id h, health_checks (ops_tables FreshStatuses.db) !! id = Some h ->
     health_checks (ops_tables (w_db w')) !! id = Some h \/ hc_scheduled_at h < 72 * hour - 7 * day) /\
  statuses_ok (w_db w') /\ remembers (ops_status FreshStatuses.db) (w_db w').
Proof.
  intros w'. apply (engine_keeps_results (P := Toy.primitives) (fun s => Some s) (72 * hour) FreshStatuses.world w').
  - apply rtc_once. apply (tn_maintain (P := Toy.primitives) (fun s => Some s)). reflexivity.
  - exact OldJob.old_job_inv.
  - exact FreshStatuses.fresh_ok.
Defined.

(** ** Logs of the queues *)

(** A record of the log: its message and its fields, texts or numbers. *)
Record QueueLog : Type := mkQueueLog { ql_message : string; ql_fields : list (string * (string + Z)) }.

(** A call of the queue with the log beside its state. *)
Definition Logged (O : Type) : Type := O * list QueueLog.
Definition lift_log {O A} (f : O -> res A * O) (s : Logged O) : res A * Logged O :=
  let '(r, o) := f s.1 in (r, (o, s.2)).
Definition log_if_ok {O A} (entry : A -> QueueLog) (f : O -> res A * O) (s : Logged O) : res A * Logged O :=
  let '(r, o) := f s.1 in (r, (o, s.2 ++ match r with Ok a => [entry a] | Err _ => [] end)).

Module Logging.
Section Logging.
Context {O : Type}.

Definition pushed (input : SendInput) (messageID : string) : QueueLog :=
  mkQueueLog "queue message pushed"
    [("component", inl "queue"); ("queue_kind", inl "job"); ("job_id", inl (a_JobID (sd_Attributes input)));
     ("worker_pool_id", inl (a_WorkerPoolID (sd_Attributes input))); ("message_id", inl messageID)].
Definition Send (next : SendInput -> O -> res string * O) (input : SendInput) : Logged O -> res string * Logged O :=
  log_if_ok (pushed input) (next input).

Definition retrieved (delivery : ResultDelivery) : QueueLog :=
  mkQueueLog "queue message retrieved"
    [("component", inl "queue"); ("queue_kind", inl "result"); ("job_id", inl (a_JobID (rd_Attributes delivery)));
     ("result_id", inl (a_ResultID (rd_Attributes delivery))); ("worker_pool_id", inl (a_WorkerPoolID (rd_Attributes delivery)));
     ("receive_count", inr (rd_ReceiveCount delivery))].
Definition PullResult (next : Z -> O -> res ResultDelivery * O) (wait : Z) : Logged O -> res ResultDelivery * Logged O :=
  log_if_ok retrieved (next wait).

Definition AcknowledgeResult (next : ResultDelivery -> O -> res () * O) (delivery : ResultDelivery) : Logged O -> res () * Logged O :=
  lift_log (next delivery).
End Logging.
End Logging.

(** *** Wrapping changes nothing *)

(** Runs that answer alike from states related by [R], and leave states related by [R]. *)
Definition similar {S1 S2 A} (R : S1 -> S2 -> Prop) (m1 : SE S1 A) (m2 : SE S2 A) : Prop :=
  forall s1 s2, R s1 s2 -> (m1 s1).1 = (m2 s2).1 /\ R (m1 s1).2 (m2 s2).2.

Section Similar.
Context {S1 S2 : Type} (R : S1 -> S2 -> Prop).

Lemma similar_ret {A} (a : A) : similar R (mret a) (mret a).
Proof. by intros s1 s2 Hs. Qed.
Lemma similar_throw {A} e : similar (A := A) R (throw e) (throw e).
Proof. by intros s1 s2 Hs. Qed.
Lemma similar_of_res {A} (r : res A) : similar R (of_res r) (of_res r).
Proof. by intros s1 s2 Hs. Qed.
Lemma similar_bind {A B} (m1 : SE S1 A) m2 (k1 : A -> SE S1 B) k2 :
  similar R m1 m2 -> (forall a, similar R (k1 a) (k2 a)) -> similar R (m1 ≫= k1) (m2 ≫= k2).
Proof.
  intros Hm Hk s1 s2 Hs. destruct (Hm s1 s2 Hs) as [Hr Hs']. unfold mbind, SE_bind.
  destruct (m1 s1) as [r1 v1], (m2 s2) as [r2 v2]. cbn in Hr, Hs'. subst r2. destruct r1; [by apply Hk|done].
Qed.
Lemma similar_try {A} (m1 : SE S1 A) m2 : similar R m1 m2 -> similar R (try_ m1) (try_ m2).
Proof. intros Hm s1 s2 Hs. destruct (Hm s1 s2 Hs) as [Hr Hs']. unfold try_. cbn. by rewrite Hr. Qed.
End Similar.

(** Two processes that differ in the state of what is outside only, related by [R]. *)
Definition alike {D O1 O2} (R : O1 -> O2 -> Prop) (w1 : World D O1) (w2 : World D O2) : Prop :=
  w_db w1 = w_db w2 /\ R (w_ext w1) (w_ext w2) /\ w_uuid w1 = w_uuid w2 /\ w_next w1 = w_next w2 /\ w_faults w1 = w_faults w2.

Lemma similar_with_tx {D O1 O2 A} (R : O1 -> O2 -> Prop) t (body : Tx D (TxEnd A)) : similar (alike R) (with_tx t body) (with_tx t body).
Proof.
  intros [d1 o1 u1 n1 f1] [d2 o2 u2 n2 f2] (Hd & Ho & Hu & Hn & Hf). cbn in *. subst. unfold with_tx. cbn.
  repeat case_match; by repeat split.
Qed.
Lemma similar_external {D O1 O2 A} (R : O1 -> O2 -> Prop) (f1 : O1 -> res A * O1) (f2 : O2 -> res A * O2) :
  (forall o1 o2, R o1 o2 -> (f1 o1).1 = (f2 o2).1 /\ R (f1 o1).2 (f2 o2).2) -> similar (alike (D := D) R) (external f1) (external f2).
Proof.
  intros Hf [d1 o1 u1 n1 fs1] [d2 o2 u2 n2 fs2] (Hd & Ho & Hu & Hn & Hfs). cbn in *. subst. unfold external. cbn.
  destruct (Hf o1 o2 Ho) as [Hr Hs]. destruct (f1 o1), (f2 o2). by repeat split.
Qed.

Create HintDb similar.
#[export] Hint Resolve similar_ret similar_throw similar_of_res similar_with_tx : similar.
Ltac simulate :=
  repeat first [ progress intros | apply similar_bind | solve [eauto with similar] | apply similar_try
               | match goal with |- similar _ (match ?x with _ => _ end) _ => destruct x
                               | |- similar _ (if ?b then _ else _) _ => destruct b end ].

(** The logged state is the state, and the log has grown by entries that satisfy [Q]. *)
Definition logs {O} (Q : QueueLog -> Prop) (s : Logged O) (o : O) : Prop := s.1 = o /\ Forall Q s.2.

Lemma log_if_ok_logs {O A} Q (entry : A -> QueueLog) (f : O -> res A * O) s o :
  (forall a, Q (entry a)) -> logs Q s o -> (log_if_ok entry f s).1 = (f o).1 /\ logs Q (log_if_ok entry f s).2 (f o).2.
Proof.
  intros He [<- Hl]. unfold log_if_ok. destruct (f s.1) as [r o']. repeat split. cbn. apply Forall_app. split; [done|].
  destruct r; [by apply Forall_singleton|done].
Qed.

Lemma lift_log_logs {O A} Q (f : O -> res A * O) s o : logs Q s o -> (lift_log f s).1 = (f o).1 /\ logs Q (lift_log f s).2 (f o).2.
Proof. intros [<- Hl]. unfold lift_log. by destruct (f s.1). Qed.

(** An entry with the fields the wrappers write: identifiers and a count. *)
Definition identifiers_only (e : QueueLog) : Prop :=
  ((exists input message, e = Logging.pushed input message) \/ (exists delivery, e = Logging.retrieved delivery)) /\
  Forall (fun x => x.1 ∈ ["component"; "queue_kind"; "job_id"; "result_id"; "worker_pool_id"; "message_id"; "receive_count"]) (ql_fields e).

(** The publisher and the consumer with logging do exactly what they do without it, to the
    database and to the queues, and whatever they log are entries of identifiers only. *)
Theorem logging_transparent (uuid_in : string -> option string) {P : Primitives} {O : Type} send pull ack :
  let R := alike (logs (O := O) identifiers_only) in
  (forall locked now t1 t2, similar R (PublishNext (Logging.Send send) locked now t1 t2) (PublishNext send locked now t1 t2)) /\
  (forall sealer nonce t now evaluatedAt,
     similar R (ConsumeNext uuid_in (Logging.PullResult pull) (Logging.AcknowledgeResult ack) sealer nonce t now evaluatedAt)
       (ConsumeNext uuid_in pull ack sealer nonce t now evaluatedAt)).
Proof.
  intros R.
  assert (forall input message, identifiers_only (Logging.pushed input message)) as Hp.
  { intros input message. split; [left; by eexists _, _|]. repeat constructor; set_solver. }
  assert (forall delivery, identifiers_only (Logging.retrieved delivery)) as Hr.
  { intros delivery. split; [right; by eexists|]. repeat constructor; set_solver. }
  split.
  - intros. unfold PublishNext. simulate. apply similar_external. intros. by apply log_if_ok_logs.
  - intros. unfold ConsumeNext, databaseReady. simulate.
    + apply similar_external. intros. by apply log_if_ok_logs.
    + apply similar_external. intros. by apply lift_log_logs.
Qed.

(** The entries are determined by the identifiers: neither the body of a message, nor the
    address of a queue, nor the receipt of a delivery has any influence on the log. *)
Theorem logs_hide_payloads input input' message delivery delivery' :
  a_JobID (sd_Attributes input) = a_JobID (sd_Attributes input') -> a_WorkerPoolID (sd_Attributes input) = a_WorkerPoolID (sd_Attributes input') ->
  a_JobID (rd_Attributes delivery) = a_JobID (rd_Attributes delivery') -> a_ResultID (rd_Attributes delivery) = a_ResultID (rd_Attributes delivery') ->
  a_WorkerPoolID (rd_Attributes delivery) = a_WorkerPoolID (rd_Attributes delivery') -> rd_ReceiveCount delivery = rd_ReceiveCount delivery' ->
  Logging.pushed input message = Logging.pushed input' message /\ Logging.retrieved delivery = Logging.retrieved delivery'.
Proof. unfold Logging.pushed, Logging.retrieved. intros -> -> -> -> -> ->. done. Qed.

(** *** The worker's log *)

Section WorkerLog.
Context {P : Primitives} {O : Type}.

Definition job_retrieved (transportName : string) (delivery : Delivery) : QueueLog :=
  mkQueueLog "queue message retrieved"
    [("component", inl "queue"); ("queue_kind", inl "job"); ("transport", inl transportName);
     ("job_id", inl (a_JobID (d_Attributes delivery))); ("worker_pool_id", inl (a_WorkerPoolID (d_Attributes delivery)));
     ("receive_count", inr (d_ReceiveCount delivery))].

Definition result_pushed (transportName : string) (delivery : Delivery) (body : bytes) : QueueLog :=
  let resultID := match PeekResult body with Ok result => r_ResultID result | Err _ => "" end in
  mkQueueLog "queue message pushed"
    [("component", inl "queue"); ("queue_kind", inl "result"); ("transport", inl transportName);
     ("job_id", inl (a_JobID (d_Attributes delivery))); ("result_id", inl resultID);
     ("worker_pool_id", inl (a_WorkerPoolID (d_Attributes delivery)))].

Definition loggingTransport (next : Transport O) (transportName : string) : Transport (Logged O) :=
  Worker.mkTransport
    (fun wait => log_if_ok (job_retrieved transportName) (tr_Pull next wait))
    (fun delivery duration => lift_log (tr_Extend next delivery duration))
    (fun delivery body => log_if_ok (fun _ => result_pushed transportName delivery body) (tr_PublishResultAndAcknowledge next delivery body))
    (fun delivery body => lift_log (tr_AcknowledgeExpired next delivery body)).

(** A check engine beside the log. *)
Definition logged_execute `{!CheckEngine O} (input : CheckRequest) : SE (Logged O) CheckResult := lift_log (ce_Execute input).
#[export] Program Instance logged_engine `{!CheckEngine O} : CheckEngine (Logged O) := {| ce_Execute := logged_execute |}.
Next Obligation.
  intros HE input [o l] r s' H. unfold logged_execute, lift_log in H. cbn in H. destruct (ce_Execute input o) as [r' o'] eqn:E.
  injection H as -> _. by eapply ce_sound.
Qed.

(** Hosts that differ in the log only. *)
Definition same_host (h1 : Host (Logged O)) (h2 : Host O) : Prop :=
  h_journal h1 = h_journal h2 /\ h_pending h1 = h_pending h2 /\ (h_ext h1).1 = h_ext h2 /\ h_random h1 = h_random h2 /\
  h_next h1 = h_next h2 /\ h_faults h1 = h_faults h2 /\ h_published h1 = h_published h2.
Lemma same_call {A} (f1 : SE (Logged O) A) (f2 : SE O A) :
  (forall s, (f1 s).1 = (f2 s.1).1 /\ (f1 s).2.1 = (f2 s.1).2) -> similar same_host (call f1) (call f2).
Proof.
  intros Hf [j1 p1 [o1 l1] r1 n1 f1' b1] [j2 p2 o2 r2 n2 f2' b2] (Hj & Hp & Ho & Hr & Hn & Hfs & Hb). cbn in *. subst.
  unfold call. cbn. destruct (Hf (o2, l1)) as [E1 E2]. cbn in *. destruct (f1 (o2, l1)) as [x1 s1], (f2 o2) as [x2 s2]. cbn in *. subst.
  by repeat split.
Qed.
Lemma same_exec {A} (q : journal -> A * journal) : similar same_host (exec q) (exec q).
Proof.
  intros [j1 p1 o1 r1 n1 f1 b1] [j2 p2 o2 r2 n2 f2 b2] (Hj & Hp & Ho & Hr & Hn & Hf & Hb). cbn in *. subst.
  unfold exec. cbn. repeat case_match; by repeat split.
Qed.
Lemma same_pending p : similar same_host (put_pending p) (put_pending p).
Proof. intros h1 h2 (Hj & Hp & Ho & Hr & Hn & Hf & Hb). by repeat split. Qed.
Lemma same_random : similar same_host random_id random_id.
Proof. intros h1 h2 (Hj & Hp & Ho & Hr & Hn & Hf & Hb). unfold random_id. cbn. rewrite Hr, Hn. by repeat split. Qed.
Lemma same_note d b : similar same_host (note d b) (note d b).
Proof. intros h1 h2 (Hj & Hp & Ho & Hr & Hn & Hf & Hb). repeat split; try done. cbn. by rewrite Hb. Qed.

Lemma same_pull next name wait : similar same_host (call (tr_Pull (loggingTransport next name) wait)) (call (tr_Pull next wait)).
Proof. apply same_call. intros s. cbn. unfold log_if_ok. by destruct (tr_Pull next wait s.1). Qed.

Lemma same_publish next name delivery body :
  similar same_host (call (tr_PublishResultAndAcknowledge (loggingTransport next name) delivery body))
    (call (tr_PublishResultAndAcknowledge next delivery body)).
Proof. apply same_call. intros s. cbn. unfold log_if_ok. by destruct (tr_PublishResultAndAcknowledge next delivery body s.1). Qed.

Lemma same_expired next name delivery body :
  similar same_host (call (tr_AcknowledgeExpired (loggingTransport next name) delivery body)) (call (tr_AcknowledgeExpired next delivery body)).
Proof. apply same_call. intros s. cbn. unfold lift_log. by destruct (tr_AcknowledgeExpired next delivery body s.1). Qed.

Lemma same_execute `{!CheckEngine O} input : similar same_host (call (ce_Execute (CheckEngine := logged_engine) input)) (call (ce_Execute input)).
Proof. apply same_call. intros s. cbn. unfold logged_execute, lift_log. by destruct (ce_Execute input s.1). Qed.

Lemma same_gets_pending : similar same_host (gets h_pending) (gets h_pending).
Proof. intros h1 h2 (Hj & Hp & Hr). unfold gets. cbn. rewrite Hp. done. Qed.

Hint Resolve same_pull same_publish same_expired same_execute same_gets_pending same_exec same_pending same_random same_note : similar.

(** The worker with logging does exactly what it does without it. *)
Theorem worker_logging_transparent `{!CheckEngine O} next name config now :
  similar same_host (RunOne (loggingTransport next name) config now) (RunOne next config now).
Proof.
  unfold RunOne, handle, run_job, give_or_keep, give, Accept, StoreResult, JournalResult. simulate.
Qed.
End WorkerLog.

(** ** Health endpoints *)

(** The patterns of the multiplexer. *)
Inductive HealthRoute : Type := HealthLive | HealthReady | HealthMetrics | HealthOther.
Record HealthAnswer : Type := mkHealthAnswer { ha_status : Z; ha_content_type : string; ha_body : bytes }.

Definition health_ok_answer : HealthAnswer := mkHealthAnswer 200 "" "".
(** [http.Error]. *)
Definition http_Error (text : string) (status : Z) : HealthAnswer :=
  mkHealthAnswer status "text/plain; charset=utf-8" (text +:+ String (byte_of 10) "").
Definition not_found : HealthAnswer := http_Error "404 page not found" 404.

Section Health.
Context {O : Type}.

(** The monitor engine: [ping] asks the database, [metrics] is [operations.Service.Read] and
    [encode] the JSON encoder, whose error is dropped. *)
Definition engine_health (ready : bool) (ping : SE (World OpsDB O) ()) (metrics : SE (World OpsDB O) Health)
    (encode : Health -> option bytes) (route : HealthRoute) : SE (World OpsDB O) HealthAnswer :=
  match route with
  | HealthLive => mret health_ok_answer
  | HealthReady =>
      if negb ready then mret (http_Error "not_ready" 503) else
      pinged ← try_ ping;
      mret (match pinged with Ok _ => health_ok_answer | Err _ => http_Error "not_ready" 503 end)
  | HealthMetrics =>
      read ← try_ metrics;
      mret (match read with
            | Ok m => mkHealthAnswer 200 "application/json" (default "" (encode m))
            | Err _ => http_Error "metrics_unavailable" 503
            end)
  | HealthOther => mret not_found
  end.

(** The worker: not ready while a result waits for its queue, or with the clock astray. *)
Definition worker_health (clockOffset now : Z) (encode : JournalMetrics -> option bytes) (route : HealthRoute) : SE (Host O) HealthAnswer :=
  match route with
  | HealthLive => mret health_ok_answer
  | HealthReady =>
      ready ← gets Ready;
      mret (if negb ready then http_Error "result_path_unavailable" 503
            else if negb (ClockHealthy clockOffset (5 * second)) then http_Error "clock_unsynchronized" 503
            else health_ok_answer)
  | HealthMetrics =>
      read ← try_ (Metrics now);
      mret (match read with
            | Ok m => mkHealthAnswer 200 "application/json" (default "" (encode m))
            | Err _ => http_Error "journal_unavailable" 503
            end)
  | HealthOther => mret not_found
  end.

(** The notification worker. *)
Definition notification_health (ping : SE (World DB O) ()) (route : HealthRoute) : SE (World DB O) HealthAnswer :=
  match route with
  | HealthLive => mret health_ok_answer
  | HealthReady =>
      pinged ← try_ ping;
      mret (match pinged with Ok _ => health_ok_answer | Err _ => http_Error "not_ready" 503 end)
  | _ => mret not_found
  end.

(** [Ping]. *)
Definition Ping {D} (t : Z) : SE (World D O) () := with_tx t (_ ← select (fun _ _ => ()); mret (Rollback ())).

Lemma Ping_reads {D} t (w : World D O) : w_db (Ping t w).2 = w_db w.
Proof.
  unfold Ping, with_tx. destruct (next_fault (w_faults w)) as [[] fs]; try done.
  unfold mbind, SE_bind. by destruct (select _ _) as [[]].
Qed.

(** A probe changes nothing: neither the tables, whatever fails, nor the journal and what is
    pending; and it answers 200 or 503, or 404 for another path, with a text that is one of
    four or the encoded metrics. *)
Theorem probes_harmless ready t client urls t0 started ended t1 disk encode route (w : World OpsDB O) clockOffset now encode' (h : Host O) :
  (let '(r, w') := engine_health ready (Ping t) (Read client urls t0 started ended t1 disk) encode route w in
   w_db w' = w_db w /\ exists a, r = Ok a /\ (ha_status a = 200 \/ ha_status a = 503 \/ (ha_status a = 404 /\ route = HealthOther))) /\
  (let '(r, h') := worker_health clockOffset now encode' route h in
   h_journal h' = h_journal h /\ h_pending h' = h_pending h /\ h_published h' = h_published h /\
   exists a, r = Ok a /\ (ha_status a = 200 -> route = HealthReady -> h_pending h = None /\ ClockHealthy clockOffset (5 * second) = true)).
Proof.
  split.
  - destruct route; cbn; try (by repeat split; eexists; split; [reflexivity|cbn; auto]).
    + destruct ready; cbn; [|by repeat split; eexists; split; [reflexivity|cbn; auto]]. unfold try_, mbind, SE_bind. cbn.
      split; [apply Ping_reads|]. eexists. split; [reflexivity|]. destruct (Ping t w) as [[?|?] ?]; cbn; auto.
    + unfold try_, mbind, SE_bind. cbn. pose proof (Read_bounded client urls t0 started ended t1 disk w) as Hr.
      destruct (Read _ _ _ _ _ _ _ w) as [[m|e] w']; destruct Hr as [Hd _]; (split; [done|]); eexists; (split; [reflexivity|]); cbn; auto.
  - destruct route; cbn; try (by repeat split; eexists; split; [reflexivity|intros; discriminate]).
    + repeat split. eexists. split; [reflexivity|]. unfold Ready. destruct (h_pending h); cbn; [intros; discriminate|].
      by destruct (ClockHealthy clockOffset (5 * second)).
    + unfold try_, mbind, SE_bind, Metrics, exec. cbn. destruct (next_fault (h_faults h)) as [[] fs]; cbn; repeat split; eexists;
        (split; [reflexivity|intros; discriminate]).
Qed.
End Health.

(** ** The HTTP server *)

Module Httpserver.
Record Config : Type := mkConfig {
  hc_ShutdownTimeout : Z;
  hc_ReadHeaderTimeout : Z;
  hc_ReadTimeout : Z;
  hc_WriteTimeout : Z;
  hc_IdleTimeout : Z
}.
Record Server : Type := mkServer {
  sv_ReadHeaderTimeout : Z;
  sv_ReadTimeout : Z;
  sv_WriteTimeout : Z;
  sv_IdleTimeout : Z;
  sv_shutdownTimeout : Z
}.

Definition or_default (v fallback : Z) : Z := if v <=? 0 then fallback else v.
Definition NewConfigured (c : Config) : Server :=
  mkServer (or_default (hc_ReadHeaderTimeout c) (5 * second)) (hc_ReadTimeout c) (hc_WriteTimeout c)
    (or_default (hc_IdleTimeout c) (60 * second)) (or_default (hc_ShutdownTimeout c) (10 * second)).
Definition New (shutdownTimeout : Z) : Server := NewConfigured (mkConfig shutdownTimeout 0 0 0 0).

(** Where the call of [Serve] is, and the one value of the channel of the goroutine. *)
Inductive phase : Type := Waiting | Stopping | Closing (e : error) | Draining | Returned (r : res ()).
Record Run : Type := mkRun { rn_phase : phase; rn_channel : option error; rn_sent : bool }.
Definition begin : Run := mkRun Waiting None false.

Definition ErrServerClosed : error := ErrorsNew "http: Server closed".
Definition normalizeServeError (e : error) : res () := if decide (e = ErrServerClosed) then Ok () else Err e.

(** The goroutine sends the error of the server once; the call waits for it or for the context,
    shuts the server down ([shut] is the answer), closes it when that fails, and takes the
    value from the channel. *)
Inductive step : Run -> Run -> Prop :=
| st_sent p e : step (mkRun p None false) (mkRun p (Some e) true)
| st_failed e b : step (mkRun Waiting (Some e) b) (mkRun (Returned (normalizeServeError e)) None b)
| st_cancelled c b : step (mkRun Waiting c b) (mkRun Stopping c b)
| st_shut c b : step (mkRun Stopping c b) (mkRun Draining c b)
| st_not_shut e c b : step (mkRun Stopping c b) (mkRun (Closing e) c b)
| st_closed e x b : step (mkRun (Closing e) (Some x) b) (mkRun (Returned (Err e)) None b)
| st_drained x b : step (mkRun Draining (Some x) b) (mkRun (Returned (normalizeServeError x)) None b).

Definition channel_ok (r : Run) : Prop :=
  (is_Some (rn_channel r) -> rn_sent r = true) /\
  match rn_phase r with Returned _ => rn_sent r = true | _ => rn_sent r = true -> is_Some (rn_channel r) end.

Lemma step_channel r r' : step r r' -> channel_ok r -> channel_ok r'.
Proof. intros [p e|e b|c b|c b|e c b|e x b|x b]; unfold channel_ok; cbn; try (destruct p); naive_solver. Qed.

(** The goroutine is never left behind: it never blocks on the channel, and [Serve] does not
    return before it has sent; and [Serve] cannot get stuck: in every state some step is
    possible until it has returned.  It reports success only after the goroutine reported the
    server closed. *)
Theorem Serve_returns r : rtc step begin r ->
  channel_ok r /\ ((exists x, rn_phase r = Returned x) \/ exists r', step r r').
Proof.
  intros Hr. assert (channel_ok r) as Hc.
  { assert (channel_ok begin) as Hb by (by split; [intros []|]).
    induction Hr as [r|r1 r2 r3 Hs _ IH]; [done|]. by apply IH, (step_channel r1). }
  split; [done|]. destruct r as [p c b]. destruct Hc as [Hc1 Hc2]. cbn in *.
  destruct p as [| | e | |x]; [right; eexists; constructor|right; eexists; constructor| | |left; eauto];
    (destruct c as [x|]; [right; eexists; constructor|]); destruct b; [by destruct (Hc2 eq_refl)| |by destruct (Hc2 eq_refl)|];
    right; eexists; apply st_sent.
  Unshelve. all: exact ErrServerClosed.
Qed.

(** Every timeout of a server is positive where the code sets a default. *)
Lemma NewConfigured_bounded c :
  0 < sv_ReadHeaderTimeout (NewConfigured c) /\ 0 < sv_IdleTimeout (NewConfigured c) /\ 0 < sv_shutdownTimeout (NewConfigured c).
Proof. unfold NewConfigured, or_default, second. cbn. repeat split; case_match; lia. Qed.
End Httpserver.

(** ** The loops of the other processes *)

(** A round begins with a look at the health server, which has stopped with [Some] outcome or
    runs; the rounds are those that begin before the context is cancelled, and [final] is
    what the health server answers then. *)
Fixpoint run_rounds {W} (idle : Z) (rounds : list (option (res ()) * SE W bool)) (final : res ()) : SE W () :=
  match rounds with
  | [] => match final with Ok _ => mret () | Err _ => throw (ErrorsNew "serve health checks") end
  | (Some (Err _), _) :: _ => throw (ErrorsNew "serve health checks")
  | (Some (Ok _), _) :: _ => throw (ErrorsNew "health server stopped unexpectedly")
  | (None, turn) :: rounds => _ ← poll idle turn; run_rounds idle rounds final
  end.

(** cmd/worker: the clock of a round is what [RunOne] reads. *)
Definition worker_run {P : Primitives} {O} `{!CheckEngine O} (transport : Transport O) (config : Worker.Config)
    (rounds : list (option (res ()) * (nat -> Z))) (final : res ()) : SE (Host O) () :=
  run_rounds (100 * millisecond) ((fun x => (x.1, RunOne transport config x.2)) <$> rounds) final.

(** cmd/notification-worker. *)
Definition notification_run {O} Send (workerID : string) (lease : Z) (rounds : list (option (res ()) * ((string -> bool) * (Z * Z * Z))))
    (final : res ()) : SE (World DB O) () :=
  run_rounds (500 * millisecond)
    ((fun x => let '(health, (locked, (t, now, at_))) := x in (health, DeliverNext Send workerID lease locked t now at_)) <$> rounds) final.

(** How [run] of the monitor engine ends: [finished] when the loops end before the deadline of
    ten seconds, [health] what the health server left in its channel, [cancelled] the context
    of the process. *)
Definition engine_exit (finished : bool) (health : option (res ())) (cancelled : bool) : res () :=
  if negb finished then Ok () else
  match health with
  | Some (Err _) => Err (ErrorsNew "serve health checks")
  | Some (Ok _) => if cancelled then Ok () else Err (ErrorsNew "health server stopped unexpectedly")
  | None => Ok ()
  end.

(** A worker process, however long it runs and whatever its health server does, only makes the
    calls of a host, with its own transport and configuration. *)
Theorem worker_run_steps {P : Primitives} {O} `{!CheckEngine O} transport config rounds final (h : Host O) :
  exists clocks, (worker_run transport config rounds final h).2 = host_run h (HRun transport config <$> clocks).
Proof.
  unfold worker_run. revert h. induction rounds as [|[[[u|e]|] now] rounds IH]; intros h; cbn; try by exists [].
  - destruct final; by exists [].
  - unfold poll, try_, mbind, SE_bind. cbn. destruct (IH (RunOne transport config now h).2) as [clocks E].
    exists (now :: clocks). exact E.
Qed.
